(* ===== verification/_CoqProject ===== *)
-Q . S2P
Prelude.v
CLib.v
Xloaderd.v
Injector.v
Client.v
Safemode.v
FileSys.v
Membased.v
BinderService.v
HookDalvik.v
HookInit.v
Startup.v
Leb128.v
Utf.v
HashSet.v
Dex.v
Names.v
DexInsn.v
ArtArgs.v
DexItems.v
DexCatch.v
DexValues.v
DexDebug.v
DexVerify.v
DexFormat.v
DexVerifier.v
DexVerifierTotal.v
DexVerified.v
DexMembers.v
ClassLoad.v
HookArt.v
Instrument.v
InstrumentCode.v
XposedCommon.v
Locations.v
ParallelMove.v
ParallelMove32.v
ParallelMoveArm.v
ParallelMove64.v
IndirectRefs.v
JniRefs.v
LockWord.v
Monitor.v
MonitorInv.v
MonitorSpec.v
MonitorSteps.v
MonitorSafe.v
