(* ===== verification/Prelude.v ===== *)
(** * Dynamicloader: a verification development

    Dynamicloader loads code into running Android processes and replaces
    methods of the virtual machine there.  The repository holds its parts next
    to each other: a root daemon and an injector (xloaderFramework), the library
    that the injector loads into the target and the hook bridge it uses there
    (libbridge, bridge), Xposed's start-up code and file services
    (Xposed-master), and the ART runtime Xposed builds on
    (android_art-xposed-lollipop-mr1).  This library models the native code of
    these parts in Rocq and proves what each of them does.

    ** How the parts work together

    A client sends a command to the daemon xloaderd; its xload command calls
    the injector, which makes the target call client_entry of libclient; that
    loads a native module or, through the Java bridge, a jar.  Methods are
    hooked by libbridge.  On a device with Xposed, app_process decides at its
    start whether to load the framework (safemode, properties, runtime) and
    starts two services that read files for processes that may not: one behind
    shared memory for Zygote, one behind binder.  On ART the hooks are part of
    the runtime: a hooked method is treated like that of a proxy class, so that
    the trampoline gathers its arguments and passes them to the Java bridge.
    The runtime verifies dex files, finds classes, methods and strings in them,
    reads class data, instructions, handlers, static values and debug
    information from them, and loads classes.  A debugger changes the code that
    methods run, hooked ones too; native code, of which the hooks are part, holds
    objects through references of JNI; compiled code moves values between registers
    and stack slots.

    ** Files

    - [Prelude] (this file): computations that may fault ([cres], [prog]),
      machine integers ([uwrap], [swrap]), little-endian memory, shared lemmas
      and tactics.
    - [CLib]: the C library functions the sources call.
    - [Xloaderd]: xloaderFramework/xloaderd/xloaderd.c.  The state is the
      buffer and the pointers of main; readx, writex, find_cmd, run_cmd, execute
      and main's loops are functions on a script of what the socket does.
    - [Injector]: xloaderFramework/xloaderd/xloader.c.  Every function over the
      class [Kernel], whose operations are the system calls.
    - [Client]: xloaderFramework/libclient/client.c over the class [ClientEnv].
    - [Safemode]: libbridge/bridge_safemode.cpp, which is also
      Xposed-master/xposed_safemode.cpp.
    - [FileSys]: the file operations of the services, a class with an instance.
    - [Membased], [BinderService]: the two namespaces of
      Xposed-master/xposed_service.cpp.  The first is a step relation of server
      and client threads over the shared memory.
    - [HookDalvik], [HookInit]: libbridge/bridge.cpp.
    - [Startup]: Xposed-master/xposed.cpp, the start of the services, and the
      log daemon of xposed_logcat.cpp.
    - [HookArt]: the hooks of ART, in mirror/art_method.cc, libxposed_art.cpp and
      the proxy handler of quick_trampoline_entrypoints.cc.  The state is a heap
      of methods, hook infos, reflected methods and the stacks of the threads.
    - [ArtArgs]: how arguments travel (reflection.cc, jvalue.h and the argument
      visitor of quick_trampoline_entrypoints.cc): arrays of words, registers and
      stack, boxes; references of JNI are those of the class [LocalRefs].
    - [XposedCommon]: libxposed_common.cpp and the loading of libxposed_art.cpp.
    - [Leb128], [Utf], [HashSet], [Dex]: of the ART runtime the variable-length
      integers (leb128.h), modified UTF-8 (utf.cc, utf-inl.h), the hash table
      (base/hash_set.h) and the lookups in dex files (dex_file.cc, dex_file.h).
    - [DexInsn]: instructions (dex_instruction.h, -inl.h, .cc, _list.h and
      _visitor.h); [DexItems], [DexCatch], [DexValues], [DexDebug]: class data,
      exception handlers, static values and signatures, debug information
      (dex_file.h, -inl.h, .cc).
    - [Names]: names and descriptors (utils.cc); [DexFormat]: the header, the map
      and the tables of a dex file as bytes.
    - [DexVerify]: the checks of strings, code and debug information of
      dex_file_verifier.cc, proved against the readers of the other files;
      [DexVerifier]: the whole verifier; [DexVerifierTotal], [DexVerified],
      [DexMembers]: that it returns, and what an accepted file promises to the
      lookups and to the readers of class data.
    - [ClassLoad]: the loading of a class from its dex file (class_linker.cc).
    - [Instrument], [InstrumentCode]: the code of methods under instrumentation,
      with hooks (instrumentation.cc, class_linker.cc); the state is that of
      [HookArt] with the level of instrumentation and the deoptimized methods.
    - [Locations], [ParallelMove]: operands of the optimizing compiler
      (locations.h) and the resolver of parallel moves
      (parallel_move_resolver.cc) over the class [Emitter] of what a code generator
      emits; [ParallelMove32], [ParallelMoveArm], [ParallelMove64]: the three code
      generators and the machines that run their code.
    - [IndirectRefs]: tables of indirect references
      (indirect_reference_table.cc); [JniRefs]: local, global and weak references,
      frames, and calls of native methods (jni_internal.cc, thread.cc,
      quick_jni_entrypoints.cc).
    - [LockWord], [Monitor]: the lock of an object and the threads that use it, as a
      step relation over their accesses to memory (lock_word.h, monitor.cc,
      mirror/object.cc, thread_list.cc); [MonitorInv]: its invariant;
      [MonitorSpec]: the monitor of the language; [MonitorSteps], [MonitorSafe]: each
      step, and runs.

    Definitions have the names of the functions they translate.  Code outside
    of the repository (the kernel, the linker, JNI, Dalvik, binder's parcels,
    files) is a class or a record of operations; what a theorem needs of it is a
    named hypothesis that states documented behaviour, and an instance shows
    that the hypotheses can hold.

    ** What the theorems show

    - Daemon: a session is a sequence of framed requests and replies whatever
      short transfers and interruptions the socket makes; the accept loop ends;
      two inputs for which it leaves its buffers.
    - Injector: after a successful run every register of the target and all its
      memory outside of the stack and the mapped block are as before; transfers
      of memory round trip; remote calls follow the ARM calling convention; the
      function returns; a module that is not mapped goes unnoticed.
    - Client: no Java exception is left pending.
    - Safemode: exactly which key presses trigger it; every device is closed.
    - File services: in every execution with one client the results are those
      of calls answered at once, faults included; readFile returns the whole file; executions
      with two clients that hang or mix results; the binder service's results,
      permissions and transparency.
    - Hooks: the original of a method can be called after any sequence of hooks,
      and the handler sees exactly the call; what JNI_OnLoad leaves enabled.
    - Hooks of ART: in every reachable state a hooked method leads to its own
      original; hooks and JNI registrations in any order act on the program as
      the registrations alone; arguments of any signature arrive in the handler
      as they were passed, whether the caller used JNI, reflection or compiled
      code; what other threads run while a method is being hooked.
    - Start-up: when initialize loads the framework, what parseXposedProp finds,
      the size of the log; when libxposed's loading succeeds, that reclassified
      objects stay in their memory, and what the rewriting of XML changes.
    - Runtime: LEB128 and modified UTF-8 round trip, the string comparison and
      hash are those of UTF-16 strings, the hash table is a multiset under every
      sequence of operations, the binary searches and the class lookups of a
      dex file are right, and parsing the text of a signature gives the
      signature back; a comparison and a resizing that do not work.
    - Contents of dex files: decoding is the inverse of the encodings of
      instructions, class data and static values; the flags of the instruction
      table type the operands; visiting a method ends and meets every
      instruction; handlers, line numbers and scopes are those of the method;
      equal signatures have equal types.
    - Verifier: it returns for any bytes; a file that it accepts, and whose tables
      have the alignment, the sizes and the order of prototypes that it forgets to
      check, is well formed in the sense of the lookups, its tables lie in the file,
      the members of its classes are in the tables and loading the classes does not
      fault; names pass exactly when they are of the grammar, but for the name <>,
      string data exactly when it is well formed; in verified code every address has its handlers; verified debug
      information can lead the decoder out of bounds.
    - Instrumentation: in every reachable state each method has the code that the
      state asks for, as long as no method is hooked while it is deoptimized; hooks
      change nothing in it, but that a hooked method cannot be deoptimized; turning deoptimization off ends
      and restores all methods; a method hooked while it is deoptimized stops the
      runtime.
    - Parallel moves: the emitted code has the effect of all moves at once, for
      every code generator that moves and swaps single operands, and the ARM and
      x86 ones do; a cycle on x86-64 that loses half of a long, and slots that the
      ARM one cannot reach.
    - References: the tables implement a stack of finite maps and two maps of
      global references through any run with collections; a native method
      gives the references of its caller back; a frame has the room it was
      asked for; exactly what a frame that is left open leaks.
    - Locks of objects: in every interleaving of any number of threads, through
      inflation and deflation, they are the monitors of the language, fail in two ways
      only and lose no wake-up of a contender; what the debugger is told of them; a
      notification that gets lost, and an exception that is an abort instead.

    ** Bounds and fuel

    Loops that do not recurse on their data take fuel, and [Fault OutOfFuel] is
    a result of its own, so a theorem whose conclusion is [Done] says that the
    fuel is enough.  It is enough because: the socket and input loops take one
    unit per event of a finite script; the loops over strings have at least the
    length of the string, [Leb128] five rounds for 32 bits; the binary searches
    32 rounds, each of which halves an interval of [int32_t]; the loops of the
    hash table as many rounds as there are buckets, after which they would
    visit the same buckets again; the iterators and state machines over bytes
    have one round per byte; the verifier one unit per byte or item of the
    file; a chain of parallel moves is at most as long as their number; the
    loops over deoptimized methods and over a table of references as many rounds
    as these have entries; a new hash code is found in two rounds.  The loops of
    [Monitor] have no fuel: each round is a step.  Where the code waits for the kernel
    ([Injector], [Membased]) the fuel is universally quantified or bounded by a
    hypothesis on what the kernel does.  Integers wrap at the width of their C
    type where the code can reach it.  A failed CHECK or LOG(FATAL) is the
    fault [Aborted], an undefined shift [BadShift], a signed overflow [Overflow].

    ** Not modelled

    The rest of the ART runtime (linking and initialization of classes, garbage
    collectors, interpreter, images, the verifier of methods, the stacks of threads,
    their start and end), the compilers but for parallel moves, and the tools;
    app_main.cpp, which starts the platform's runtime; the Java parts; forking and
    executing processes, logging; what is only printed.  Components that are
    modelled in part say in their file what is left out. *)

From Stdlib Require Export ZArith Lia.
From stdpp Require Export base list numbers strings gmap.

#[global] Open Scope Z_scope.

(** ** Faulting computations

    C code either returns a value or hits behaviour the language leaves
    undefined.  Loops whose recursion is not structural take fuel, and running
    out of it is a fault of its own, so that a theorem "the code returns" says
    that the fuel is enough.  [Aborted] is a failed CHECK, which ends the
    process, [BadShift] is a shift by a negative number of bits and [Overflow] a
    signed addition that overflows. *)

Inductive fault :=
| OutOfBounds
| NullDeref
| OutOfFuel
| Aborted
| BadShift
| Overflow.

Inductive cres (A : Type) :=
| Done (a : A)
| Fault (f : fault).
Arguments Done {A} _.
Arguments Fault {A} _.

#[export] Instance cres_ret : MRet cres := fun A a => Done a.
#[export] Instance cres_bind : MBind cres := fun A B k m =>
  match m with
  | Done a => k a
  | Fault f => Fault f
  end.
#[export] Instance cres_fmap : FMap cres := fun A B g m =>
  match m with
  | Done a => Done (g a)
  | Fault f => Fault f
  end.

#[export] Instance fault_eq_dec : EqDecision fault.
Proof. solve_decision. Defined.
#[export] Instance cres_eq_dec {A} `{EqDecision A} : EqDecision (cres A).
Proof. solve_decision. Defined.

(** A read or a write through a pointer: outside of the object it faults. *)
Definition deref {A} (o : option A) : cres A :=
  match o with
  | Some a => Done a
  | None => Fault OutOfBounds
  end.

(** [*p++] through a pointer to the bytes ahead of it. *)
Definition next_byte (ptr : list Z) : cres (Z * list Z) :=
  match ptr with b :: ptr => Done (b, ptr) | [] => Fault OutOfBounds end.

Lemma bind_Done {A B} (m : cres A) (k : A -> cres B) b :
  (m ≫= k) = Done b -> exists a, m = Done a /\ k a = Done b.
Proof. destruct m as [a|f]; simpl; [eauto|done]. Qed.

Lemma bind_no_fuel {A B} (m : cres A) (k : A -> cres B) :
  m <> Fault OutOfFuel -> (forall a, m = Done a -> k a <> Fault OutOfFuel) ->
  (m ≫= k) <> Fault OutOfFuel.
Proof. destruct m as [a|[]]; simpl; intros H1 H2; try done. by apply H2. Qed.

Lemma deref_no_fuel {A} (o : option A) : deref o <> Fault OutOfFuel.
Proof. by destruct o. Qed.

(** ** Postconditions

    [post m Q]: the fuel of [m] is enough, and [Q] holds of what it returns.  A
    check returns [None] when it fails; [opost Q] is about the case that it
    passes. *)
Definition post {A} (m : cres A) (Q : A -> Prop) : Prop :=
  match m with Done a => Q a | Fault f => f <> OutOfFuel end.
Definition opost {A} (Q : A -> Prop) (o : option A) : Prop := match o with Some a => Q a | None => True end.

Lemma post_no_fuel {A} (m : cres A) Q : post m Q -> m <> Fault OutOfFuel.
Proof. destruct m as [a|f]; [done|]. intros Hf [= ->]. by apply Hf. Qed.
Lemma post_result {A} (m : cres A) Q a : post m Q -> m = Done a -> Q a.
Proof. by intros H ->. Qed.
Lemma post_bind {A B} (m : cres A) (k : A -> cres B) Q R :
  post m Q -> (forall a, Q a -> post (k a) R) -> post (m ≫= k) R.
Proof. destruct m as [a|f]; cbn; auto. Qed.
Lemma post_mono {A} (m : cres A) (Q R : A -> Prop) : post m Q -> (forall a, Q a -> R a) -> post m R.
Proof. destruct m; cbn; auto. Qed.
Lemma post_any {A} (m : cres A) Q : post m Q -> post m (fun _ => True).
Proof. by destruct m. Qed.
Lemma post_deref {A} (o : option A) : post (deref o) (fun a => o = Some a).
Proof. by destruct o. Qed.
Lemma post_next_byte p : post (next_byte p) (fun r => (length r.2 < length p)%nat).
Proof. destruct p; cbn; [done|lia]. Qed.

Create HintDb post.
#[export] Hint Resolve post_deref post_next_byte : post.

(** Follows a computation; what it calls is resolved with the hints [post]. *)
Ltac post_step :=
  lazymatch goal with
  | |- post (mbind _ _) _ => eapply post_bind; [solve [eauto with post]|intros ?; cbn beta iota; intros]
  | |- post (Done _) _ => cbn [post opost fst snd]
  | |- post (Fault _) _ => done
  | |- post (if ?b then _ else _) _ => destruct b eqn:?
  | |- post (match ?x with _ => _ end) _ => destruct x eqn:?; cbn [opost fst snd] in *
  end.
Ltac post_all := repeat post_step; try done; try lia.

(** ** Machine integers *)

Definition uwrap (w x : Z) : Z := x mod 2 ^ w.
Definition swrap (w x : Z) : Z := (x + 2 ^ (w - 1)) mod 2 ^ w - 2 ^ (w - 1).

Abbreviation u8 := (uwrap 8).
Abbreviation u16 := (uwrap 16).
Abbreviation u32 := (uwrap 32).
Abbreviation u64 := (uwrap 64).
Abbreviation s8 := (swrap 8).
Abbreviation s16 := (swrap 16).
Abbreviation s32 := (swrap 32).
Abbreviation s64 := (swrap 64).

Definition in_u (w x : Z) : Prop := 0 <= x < 2 ^ w.
Definition in_s (w x : Z) : Prop := - 2 ^ (w - 1) <= x < 2 ^ (w - 1).

(** Bytes are integers in [0, 256). *)
Definition byte_ok (b : Z) : Prop := 0 <= b < 256.

Create HintDb clib.

Lemma uwrap_range w x : 0 <= w -> in_u w (uwrap w x).
Proof. intros. apply Z.mod_pos_bound. apply Z.pow_pos_nonneg; lia. Qed.

Lemma uwrap_small w x : in_u w x -> uwrap w x = x.
Proof. intros. apply Z.mod_small. exact H. Qed.

Lemma swrap_range w x : 0 < w -> in_s w (swrap w x).
Proof.
  intros Hw. unfold in_s, swrap.
  pose proof (Z.mod_pos_bound (x + 2 ^ (w - 1)) (2 ^ w)) as H.
  assert (2 ^ w = 2 * 2 ^ (w - 1)) as E.
  { rewrite <- Z.pow_succ_r by lia. f_equal; lia. }
  assert (0 < 2 ^ (w - 1)) by (apply Z.pow_pos_nonneg; lia).
  lia.
Qed.

Lemma swrap_plus w x k : 0 < w -> swrap w (x + k * 2 ^ w) = swrap w x.
Proof.
  intros Hw. unfold swrap. replace (x + k * 2 ^ w + 2 ^ (w - 1)) with (x + 2 ^ (w - 1) + k * 2 ^ w) by lia.
  rewrite Z.mod_add; [done|]. apply Z.pow_nonzero; lia.
Qed.

Lemma swrap_small w x : 0 < w -> in_s w x -> swrap w x = x.
Proof.
  intros Hw H. unfold in_s, swrap in *.
  assert (2 ^ w = 2 * 2 ^ (w - 1)) as E.
  { rewrite <- Z.pow_succ_r by lia. f_equal; lia. }
  rewrite Z.mod_small; lia.
Qed.

(** Bits put together that do not overlap. *)
Lemma swrap_cong w x y : 0 < w -> x mod 2 ^ w = y mod 2 ^ w -> swrap w x = swrap w y.
Proof.
  intros Hw E. pose proof (Z.pow_pos_nonneg 2 w).
  rewrite (Z.div_mod x (2 ^ w)), (Z.div_mod y (2 ^ w)), E by lia.
  rewrite (Z.add_comm (_ * _)), (Z.mul_comm _ (x / _)), swrap_plus by done.
  by rewrite (Z.add_comm (_ * _)), (Z.mul_comm _ (y / _)), swrap_plus by done.
Qed.

Lemma mod_pow_le x u w : 0 <= u <= w -> (x mod 2 ^ w) mod 2 ^ u = x mod 2 ^ u.
Proof.
  intros Hw. apply Z.mod_mod_divide.
  exists (2 ^ (w - u)). rewrite <- Z.pow_add_r by lia. f_equal. lia.
Qed.

Lemma uwrap_mod u w x : 0 <= u <= w -> uwrap w x mod 2 ^ u = x mod 2 ^ u.
Proof. apply mod_pow_le. Qed.

Lemma swrap_mod w x : 0 < w -> swrap w x mod 2 ^ w = x mod 2 ^ w.
Proof.
  intros. pose proof (Z.pow_pos_nonneg 2 w). unfold swrap.
  rewrite Zminus_mod_idemp_l. f_equal. lia.
Qed.

Lemma filter_none {A} (P : A -> Prop) `{forall x, Decision (P x)} (l : list A) :
  (forall x, x ∈ l -> ~ P x) -> filter P l = [].
Proof.
  induction l as [|x l IH]; intros Hl; [done|]. rewrite filter_cons_False by (apply Hl; by left).
  apply IH. intros y Hy. apply Hl. by right.
Qed.

(** Decides comparisons of constants. *)
Ltac decide_consts :=
  repeat match goal with
  | |- context [?a =? ?b] => let r := eval vm_compute in (a =? b) in change (a =? b) with r
  end; cbn [orb].

Lemma land_shiftl_0 a b k : 0 <= k -> 0 <= a < 2 ^ k -> Z.land a (Z.shiftl b k) = 0.
Proof.
  intros Hk Ha. apply Z.bits_inj'. intros n Hn. rewrite Z.land_spec, Z.bits_0.
  destruct (Z.ltb_spec n k).
  - rewrite Z.shiftl_spec_low by done. apply andb_false_r.
  - destruct (Z.eqb_spec a 0) as [->|Ha0]; [by rewrite Z.bits_0|].
    rewrite (Z.bits_above_log2 a n); [done|lia|]. apply Z.log2_lt_pow2; [lia|].
    assert (2 ^ k <= 2 ^ n) by (apply Z.pow_le_mono_r; lia). lia.
Qed.

Lemma lor_shiftl_add a b k : 0 <= k -> 0 <= a < 2 ^ k -> Z.lor a (Z.shiftl b k) = a + b * 2 ^ k.
Proof.
  intros Hk Ha. rewrite <- Z.shiftl_mul_pow2 by done.
  pose proof (Z.add_lor_land a (Z.shiftl b k)) as E. rewrite land_shiftl_0 in E by done. lia.
Qed.

(** A property of the numbers below a small bound, by looking at each. *)
Lemma below_forallb n (P : Z -> bool) :
  forallb P (map Z.of_nat (seq 0 n)) = true -> forall x, 0 <= x < Z.of_nat n -> P x = true.
Proof.
  rewrite forallb_forall. intros H x Hx. apply H. apply in_map_iff. exists (Z.to_nat x).
  split; [lia|]. apply in_seq. lia.
Qed.

(** ** Little-endian memory

    An integer of [n] bytes as it lies in memory, and back. *)

Fixpoint le_bytes (n : nat) (z : Z) : list Z :=
  match n with
  | O => []
  | S n' => z mod 256 :: le_bytes n' (z / 256)
  end.

Fixpoint of_le (bs : list Z) : Z :=
  match bs with
  | [] => 0
  | b :: bs' => b + 256 * of_le bs'
  end.

Lemma le_bytes_length n z : length (le_bytes n z) = n.
Proof. revert z. induction n; intros; simpl; auto. Qed.

Lemma le_bytes_ok n z : Forall byte_ok (le_bytes n z).
Proof.
  revert z. induction n; intros z; simpl; constructor; auto.
  unfold byte_ok. apply Z.mod_pos_bound. lia.
Qed.

Lemma of_le_le_bytes n z : of_le (le_bytes n z) = z mod 2 ^ (8 * Z.of_nat n).
Proof.
  revert z. induction n as [|n IH]; intros z; cbn [le_bytes of_le].
  - by rewrite Z.mul_0_r, Z.mod_1_r.
  - rewrite IH. replace (8 * Z.of_nat (S n)) with (8 + 8 * Z.of_nat n) by lia.
    rewrite Z.pow_add_r by lia. change (2 ^ 8) with 256.
    rewrite Z.rem_mul_r by lia. done.
Qed.

Lemma le_bytes_of_le bs : Forall byte_ok bs -> le_bytes (length bs) (of_le bs) = bs.
Proof.
  induction 1 as [|b bs Hb Hbs IH]; cbn [le_bytes of_le length]; [done|].
  unfold byte_ok in Hb. f_equal.
  - rewrite Z.mul_comm, Z.mod_add by lia. apply Z.mod_small. lia.
  - rewrite Z.mul_comm, Z.div_add by lia. rewrite Z.div_small by lia. done.
Qed.

(** ** State-passing programs that may fault *)

Definition prog (S A : Type) : Type := S -> cres (A * S).

#[export] Instance prog_ret {S} : MRet (prog S) := fun A a s => Done (a, s).
#[export] Instance prog_bind {S} : MBind (prog S) := fun A B k m s =>
  match m s with
  | Done (a, s') => k a s'
  | Fault f => Fault f
  end.

Definition pfault {S A} (f : fault) : prog S A := fun _ => Fault f.
Definition plift {S A} (m : cres A) : prog S A := fun s =>
  match m with
  | Done a => Done (a, s)
  | Fault f => Fault f
  end.

(** A program keeps a relation between the state it starts in and the one it
    ends in; for a preorder it is enough that every step does. *)
Definition keeps {S A} (P : S -> S -> Prop) (m : prog S A) : Prop :=
  forall s a s', m s = Done (a, s') -> P s s'.

(** A program does not run out of fuel. *)
Definition returns {S A} (m : prog S A) : Prop := forall s, m s <> Fault OutOfFuel.

Create HintDb prog.

Section Programs.
Context {S : Type} (P : S -> S -> Prop) `{!PreOrder P}.

Lemma keeps_ret {A} (a : A) : keeps P (mret a : prog S A).
Proof. intros s b s' [= <- <-]. reflexivity. Qed.

Lemma keeps_bind {A B} (m : prog S A) (k : A -> prog S B) :
  keeps P m -> (forall a, keeps P (k a)) -> keeps P (m ≫= k).
Proof.
  intros Hm Hk s b s'. unfold mbind, prog_bind. destruct (m s) as [[a s1]|] eqn:E; [|done].
  intros Hb. transitivity s1; [by eapply Hm|by eapply Hk].
Qed.

Lemma keeps_fault {A} f : keeps P (pfault f : prog S A).
Proof. by intros s a s'. Qed.

Lemma keeps_lift {A} (m : cres A) : keeps P (plift m : prog S A).
Proof. intros s a s'. unfold plift. destruct m; [intros [= <- <-]; reflexivity|done]. Qed.

Lemma returns_ret {A} (a : A) : returns (mret a : prog S A).
Proof. by intros s. Qed.

Lemma returns_bind {A B} (m : prog S A) (k : A -> prog S B) :
  returns m -> (forall a, returns (k a)) -> returns (m ≫= k).
Proof.
  intros Hm Hk s. unfold mbind, prog_bind. specialize (Hm s).
  destruct (m s) as [[a s1]|[]]; try done. apply Hk.
Qed.

Lemma returns_lift {A} (m : cres A) : m <> Fault OutOfFuel -> returns (plift m : prog S A).
Proof. intros Hm s. unfold plift. by destruct m as [|[]]. Qed.
End Programs.

Lemma prog_bind_Done {S A B} (m : prog S A) (k : A -> prog S B) s b s' :
  (m ≫= k) s = Done (b, s') -> exists a s1, m s = Done (a, s1) /\ k a s1 = Done (b, s').
Proof.
  unfold mbind, prog_bind. destruct (m s) as [[a s1]|] eqn:E; [|done]. intros. by exists a, s1.
Qed.

Lemma prog_bind_step {S A B} (m : prog S A) (k : A -> prog S B) s a s1 : m s = Done (a, s1) -> (m ≫= k) s = k a s1.
Proof. intros H. unfold mbind, prog_bind. by rewrite H. Qed.

Lemma plift_step {S A} (m : cres A) (s : S) a : m = Done a -> plift m s = Done (a, s).
Proof. by intros ->. Qed.

Lemma plift_Done {S A} (m : cres A) (s : S) a s' :
  plift m s = Done (a, s') -> m = Done a /\ s' = s.
Proof. unfold plift. destruct m; [by intros [= -> ->]|done]. Qed.

#[export] Hint Resolve keeps_fault returns_ret : prog.
#[export] Hint Extern 0 (keeps _ (mret _)) => refine (keeps_ret _ _) : prog.
#[export] Hint Extern 0 (keeps _ (plift _)) => refine (keeps_lift _ _) : prog.

(** Splits a program along its binds, tests and tuple patterns; what is left
    are the operations the hint database does not know. *)
Ltac prog_split :=
  match goal with
  | |- keeps _ (mbind _ _) => refine (keeps_bind _ _ _ _ _); [|intros]
  | |- returns (mbind _ _) => apply returns_bind; [|intros]
  | |- context [match ?x with (_, _) => _ end] => destruct x
  | |- context [match ?x with Some _ => _ | None => _ end] => destruct x
  | |- context [if ?b then _ else _] => destruct b eqn:?
  end.
Ltac prog_tac := repeat first [prog_split | solve [eauto with prog]].

(** ** Tactics

    [cbind] splits the first bind of a hypothesis, [destruct_if] the first
    boolean test of the goal. *)

Ltac destruct_if :=
  match goal with
  | |- context [if ?b then _ else _] => destruct b eqn:?
  end.

Ltac destruct_if_hyp :=
  match goal with
  | H : context [if ?b then _ else _] |- _ => destruct b eqn:?
  end.

Ltac bool_lia :=
  repeat rewrite ?andb_true_iff, ?orb_true_iff, ?negb_true_iff,
    ?andb_false_iff, ?orb_false_iff, ?negb_false_iff,
    ?Z.eqb_eq, ?Z.eqb_neq, ?Z.ltb_lt, ?Z.ltb_ge, ?Z.leb_le, ?Z.leb_gt in *;
  lia.
