(* ===== verification/CLib.v ===== *)
(** * CLib: the C library functions the sources call

    Characters are unsigned bytes held in [Z], a C string is the list of its
    bytes without the terminator ([cstr]), and a [char] array is a list with
    its full length, read through [c_str_at] where the code treats it as a
    string.  [int] and [long] are 32 bits wide, as on the ARM and x86 targets
    the sources name. *)

From S2P Require Import Prelude.

Abbreviation cstr := (list Z).

(** A string literal of the sources as its bytes. *)
Definition lit (s : string) : cstr :=
  map (fun a => Z.of_N (Ascii.N_of_ascii a)) (String.list_ascii_of_string s).

(** A character literal. *)
Definition chr (s : string) : Z := default 0 (head (lit s)).

(** ctype.h, in the C locale. *)
Definition isspace (c : Z) : bool := (c =? 32) || ((9 <=? c) && (c <=? 13)).
Definition isdigit (c : Z) : bool := (48 <=? c) && (c <=? 57).

(** [strcmp(a, b) == 0]. *)
Definition streq (a b : cstr) : bool := bool_decide (a = b).

(** [strncmp(a, b, n) == 0] *)
Definition strneq (a b : cstr) (n : nat) : bool := bool_decide (take n a = take n b).

(** The string that starts at the head of a char array: everything before the
    first NUL; no NUL inside the array means a read past its end. *)
Fixpoint c_str (l : list Z) : cres cstr :=
  match l with
  | [] => Fault OutOfBounds
  | c :: l' => if c =? 0 then Done [] else s ← c_str l'; Done (c :: s)
  end.

Definition c_str_at (buf : list Z) (off : nat) : cres cstr := c_str (drop off buf).

(** [strchr], as the index of the first occurrence. *)
Fixpoint strchr (s : cstr) (c : Z) : option nat :=
  match s with
  | [] => None
  | x :: s' => if x =? c then Some 0%nat else S <$> strchr s' c
  end.

(** [strrchr], as the suffix that starts at the last occurrence. *)
Fixpoint strrchr (s : cstr) (c : Z) : option cstr :=
  match s with
  | [] => None
  | x :: s' =>
      match strrchr s' c with
      | Some r => Some r
      | None => if x =? c then Some s else None
      end
  end.

Fixpoint is_prefix (p s : cstr) : bool :=
  match p, s with
  | [], _ => true
  | _ :: _, [] => false
  | a :: p', b :: s' => (a =? b) && is_prefix p' s'
  end.

(** [strstr(s, p) != NULL]. *)
Fixpoint strstr (s p : cstr) : bool :=
  is_prefix p s || match s with [] => false | _ :: s' => strstr s' p end.

(** [strncpy(dst, src, n)] into an array of [n] bytes: at most [n] bytes of
    the source, padded with NUL. *)
Definition strncpy (src : cstr) (n : nat) : list Z :=
  take n src ++ replicate (n - length src) 0.

(** Overwrites [bs] at offset [off] of an array; a store past the end faults. *)
Definition store (buf : list Z) (off : nat) (bs : list Z) : cres (list Z) :=
  if (off + length bs <=? length buf)%nat
  then Done (take off buf ++ bs ++ drop (off + length bs) buf)
  else Fault OutOfBounds.

(** ** Decimal numbers *)

Fixpoint digits (fuel : nat) (n : Z) (acc : cstr) : cstr :=
  match fuel with
  | O => acc
  | S f => if n <? 10 then (48 + n) :: acc
           else digits f (n / 10) ((48 + n mod 10) :: acc)
  end.

(** [printf("%d", n)] for a 32-bit [int]: at most ten digits and a sign. *)
Definition fmt_d (n : Z) : cstr :=
  if n <? 0 then 45 :: digits 10 (- n) [] else digits 10 n [].

(** [snprintf(dst, size, ...)] of an already formatted text: the bytes stored
    at [dst] (truncated to [size - 1] and terminated) and the returned length,
    which is the untruncated one. *)
Definition snprintf_bytes (size : nat) (text : cstr) : list Z :=
  match size with
  | O => []
  | S k => take k text ++ [0]
  end.

Fixpoint parse_digits (acc : Z) (s : cstr) : Z :=
  match s with
  | [] => acc
  | c :: s' => if isdigit c then parse_digits (acc * 10 + (c - 48)) s' else acc
  end.

Fixpoint skip_space (s : cstr) : cstr :=
  match s with
  | c :: s' => if isspace c then skip_space s' else s
  | [] => []
  end.

(** [atoi] as [strtol] base ten does it: leading space, a sign, digits, and
    saturation at the bounds of a 32-bit [long]. *)
Definition clamp_long (n : Z) : Z := Z.max (- 2 ^ 31) (Z.min n (2 ^ 31 - 1)).

Definition atoi (s : cstr) : Z :=
  match skip_space s with
  | c :: s' =>
      if c =? 45 then clamp_long (- parse_digits 0 s')
      else if c =? 43 then clamp_long (parse_digits 0 s')
      else clamp_long (parse_digits 0 (c :: s'))
  | [] => 0
  end.

Definition hexval (c : Z) : option Z :=
  if isdigit c then Some (c - 48)
  else if (97 <=? c) && (c <=? 102) then Some (c - 87)
  else if (65 <=? c) && (c <=? 70) then Some (c - 55)
  else None.

Fixpoint parse_hex (acc : Z) (s : cstr) : Z :=
  match s with
  | [] => acc
  | c :: s' => match hexval c with
               | Some d => parse_hex (acc * 16 + d) s'
               | None => acc
               end
  end.

(** [strtoul(s, NULL, 16)] with a 32-bit [unsigned long]: space, a sign, an
    optional 0x, hex digits; saturation, and a minus sign negates. *)
Definition strtoul16 (s : cstr) : Z :=
  let s0 := skip_space s in
  let '(neg, s1) := match s0 with
                    | 45 :: t => (true, t)
                    | 43 :: t => (false, t)
                    | _ => (false, s0)
                    end in
  let s2 := match s1 with
            | 48 :: x :: d :: t =>
                if ((x =? 120) || (x =? 88)) && bool_decide (is_Some (hexval d)) then d :: t else s1
            | _ => s1
            end in
  let v := parse_hex 0 s2 in
  if 2 ^ 32 - 1 <? v then 2 ^ 32 - 1 else if neg then u32 (- v) else v.

(** The first token [strtok(s, "c")] returns: leading delimiters are skipped,
    and nothing but delimiters gives NULL. *)
Fixpoint skip_char (c : Z) (s : cstr) : cstr :=
  match s with
  | x :: s' => if x =? c then skip_char c s' else s
  | [] => []
  end.
Fixpoint until_char (c : Z) (s : cstr) : cstr :=
  match s with
  | x :: s' => if x =? c then [] else x :: until_char c s'
  | [] => []
  end.
Definition strtok_first (s : cstr) (c : Z) : option cstr :=
  match skip_char c s with
  | [] => None
  | t => Some (until_char c t)
  end.

(** [fgets(dst, size, f)] on the bytes left in a file: what is stored before the
    terminator (a line with its newline, or what fits) and what is left; [None]
    at end of file, where [dst] keeps its contents. *)
Fixpoint fgets_take (n : nat) (s : list Z) : list Z * list Z :=
  match n, s with
  | O, _ => ([], s)
  | _, [] => ([], [])
  | S n', c :: s' =>
      if c =? 10 then ([c], s')
      else let '(a, r) := fgets_take n' s' in (c :: a, r)
  end.
Definition fgets (size : nat) (s : list Z) : option (list Z * list Z) :=
  match s with
  | [] => None
  | _ => Some (fgets_take (size - 1) s)
  end.

(** ** Lemmas *)

Lemma streq_true a b : streq a b = true <-> a = b.
Proof. unfold streq. apply bool_decide_eq_true. Qed.

Lemma streq_false a b : streq a b = false <-> a <> b.
Proof. unfold streq. apply bool_decide_eq_false. Qed.

Lemma streq_refl a : streq a a = true.
Proof. by apply streq_true. Qed.

Lemma c_str_app s rest :
  Forall (fun c => c <> 0) s -> c_str (s ++ 0 :: rest) = Done s.
Proof.
  induction 1 as [|c s Hc Hs IH]; simpl; [done|].
  rewrite (proj2 (Z.eqb_neq c 0) Hc), IH. done.
Qed.

Lemma c_str_spec l s :
  c_str l = Done s -> exists rest, l = s ++ 0 :: rest /\ Forall (fun c => c <> 0) s.
Proof.
  revert s. induction l as [|c l IH]; intros s; simpl; [done|].
  destruct (Z.eqb_spec c 0) as [->|Hc].
  - intros [= <-]. exists l. split; [done|constructor].
  - destruct (c_str l) as [s'|] eqn:E; simpl; [|done].
    intros [= <-]. destruct (IH s' eq_refl) as (rest & -> & Hf).
    exists rest. split; [done|]. by constructor.
Qed.

Lemma store_ok buf off bs :
  (off + length bs <= length buf)%nat ->
  store buf off bs = Done (take off buf ++ bs ++ drop (off + length bs) buf).
Proof. intros H. unfold store. by rewrite (proj2 (Nat.leb_le _ _) H). Qed.

Lemma store_length buf off bs buf' :
  store buf off bs = Done buf' -> length buf' = length buf.
Proof.
  unfold store. destruct (Nat.leb_spec (off + length bs) (length buf)); [|done].
  intros [= <-]. rewrite !length_app, length_take, length_drop. lia.
Qed.

Lemma strncpy_length src n : length (strncpy src n) = n.
Proof. unfold strncpy. rewrite length_app, length_take, length_replicate. lia. Qed.

Lemma digits_app fuel n acc : digits fuel n acc = digits fuel n [] ++ acc.
Proof.
  revert n acc. induction fuel as [|f IH]; intros n acc; simpl; [done|].
  destruct (n <? 10); [done|].
  rewrite IH, (IH _ [_]), <- app_assoc. done.
Qed.

Lemma parse_digits_app a s t :
  Forall (fun c => isdigit c = true) s ->
  parse_digits a (s ++ t) = parse_digits (parse_digits a s) t.
Proof.
  intros H. revert a. induction H as [|c s Hc Hs IH]; intros a; simpl; [done|].
  by rewrite Hc, IH.
Qed.

Lemma isdigit_dig d : 0 <= d < 10 -> isdigit (48 + d) = true.
Proof. unfold isdigit. intros. bool_lia. Qed.

Lemma digits_isdigit fuel n :
  0 <= n -> Forall (fun c => isdigit c = true) (digits fuel n []).
Proof.
  revert n. induction fuel as [|f IH]; intros n Hn; simpl; [constructor|].
  destruct (Z.ltb_spec n 10).
  - repeat constructor. apply isdigit_dig; lia.
  - rewrite digits_app. apply Forall_app. split.
    + apply IH. apply Z.div_pos; lia.
    + repeat constructor. apply isdigit_dig. apply Z.mod_pos_bound; lia.
Qed.

Lemma digits_parse fuel n :
  0 <= n < 10 ^ Z.of_nat fuel -> parse_digits 0 (digits fuel n []) = n.
Proof.
  revert n. induction fuel as [|f IH]; intros n Hn; simpl.
  - simpl in Hn. lia.
  - destruct (Z.ltb_spec n 10).
    + simpl. rewrite isdigit_dig by lia. lia.
    + rewrite digits_app, parse_digits_app.
      * rewrite IH.
        -- cbn [parse_digits]. rewrite isdigit_dig by (apply Z.mod_pos_bound; lia).
           pose proof (Z.div_mod n 10). lia.
        -- rewrite Nat2Z.inj_succ, Z.pow_succ_r in Hn by lia.
           split; [apply Z.div_pos; lia|]. apply Z.div_lt_upper_bound; lia.
      * apply digits_isdigit. apply Z.div_pos; lia.
Qed.

Lemma digits_length fuel n : (length (digits fuel n []) <= fuel)%nat.
Proof.
  revert n. induction fuel as [|f IH]; intros n; simpl; [done|].
  destruct (n <? 10); simpl; [lia|].
  rewrite digits_app, length_app. specialize (IH (n / 10)). simpl. lia.
Qed.

Lemma digits_nonempty fuel n : fuel <> O -> digits fuel n [] <> [].
Proof.
  destruct fuel as [|f]; [done|]. intros _. simpl.
  destruct (n <? 10); [done|]. rewrite digits_app. by destruct (digits f _ _).
Qed.

Lemma fmt_d_length n : (length (fmt_d n) <= 11)%nat.
Proof.
  unfold fmt_d. destruct (n <? 0); cbn [length].
  - pose proof (digits_length 10 (- n)). lia.
  - pose proof (digits_length 10 n). lia.
Qed.

Lemma fmt_d_nonzero n : Forall (fun c => c <> 0) (fmt_d n).
Proof.
  assert (forall m, 0 <= m -> Forall (fun c => c <> 0) (digits 10 m [])) as H.
  { intros m Hm. eapply Forall_impl; [by apply digits_isdigit|].
    intros c Hc. unfold isdigit in Hc. simpl in Hc. bool_lia. }
  unfold fmt_d. destruct (Z.ltb_spec n 0).
  - constructor; [done|]. apply H. lia.
  - apply H. lia.
Qed.

(** Printing a 32-bit [int] and reading it back gives the same number. *)
Lemma atoi_fmt_d n : in_s 32 n -> atoi (fmt_d n) = n.
Proof.
  unfold in_s, atoi, fmt_d. change (2 ^ (32 - 1)) with 2147483648. intros Hn.
  destruct (Z.ltb_spec n 0).
  - cbn [skip_space]. change (isspace 45) with false. cbn iota. simpl (45 =? 45).
    cbn iota. rewrite digits_parse by (cbn; lia). unfold clamp_long. lia.
  - pose proof (digits_isdigit 10 n ltac:(lia)) as Hd.
    pose proof (digits_parse 10 n ltac:(cbn; lia)) as Hp.
    destruct (digits 10 n []) as [|c s] eqn:E.
    { by apply digits_nonempty in E. }
    apply Forall_cons in Hd as [Hc _]. unfold isdigit in Hc.
    cbn [skip_space]. assert (isspace c = false) as ->.
    { unfold isspace. bool_lia. }
    assert ((c =? 45) = false) as -> by bool_lia.
    assert ((c =? 43) = false) as -> by bool_lia.
    rewrite Hp. unfold clamp_long. lia.
Qed.

Create Rewrite HintDb clib_rw.
#[export] Hint Rewrite streq_refl strncpy_length : clib_rw.
#[export] Hint Resolve fmt_d_nonzero fmt_d_length : clib.
