(* ===== verification/Xloaderd.v ===== *)
(** * Xloaderd: the loader daemon (xloaderFramework/xloaderd/xloaderd.c)

    The daemon accepts connections on a local socket and serves framed text
    commands: two bytes of length, the command, and a reply framed the same
    way.  The model keeps what the C code keeps: the [char buf[BUFFER_MAX]] of
    [main], which survives from one command to the next, the pointer [cmd] into
    it, the array of argument pointers.  The socket is a script of what the
    kernel does with each [read] and [write] (interruption, error, short
    transfer); the injector behind the [xload] command is a parameter. *)

From S2P Require Import Prelude CLib.

(** ** The socket *)

(** What one [read] finds: an interrupted call, an error, or data.  A read
    returns at most what was asked for and leaves the rest; no data is end of
    file, and so is the end of the script. *)
Inductive rd_event :=
| RIntr
| RErr
| RData (bs : list Z).

(** What one [write] does: it is interrupted, fails, or takes at most [k]
    bytes.  Past the end of the script writes are taken in full. *)
Inductive wr_event :=
| WIntr
| WErr
| WAccept (k : nat).

Record sock := mkSock {
  s_in : list rd_event;
  s_wr : list wr_event;
  s_sent : list Z
}.

Definition BUFFER_MAX : nat := 1024.
Definition TOKEN_MAX : nat := 8.
Definition REPLY_MAX : nat := 256.

(** The loop of [readx]: the bytes stored, whether all of them arrived, and
    what is left to read. *)
Fixpoint readx_loop (evs : list rd_event) (need : nat) : bool * list Z * list rd_event :=
  match need with
  | O => (true, [], evs)
  | S _ =>
      match evs with
      | [] => (false, [], [])
      | RIntr :: evs' => readx_loop evs' need
      | RErr :: evs' => (false, [], evs')
      | RData bs :: evs' =>
          if (length bs =? 0)%nat then (false, [], evs')
          else if (length bs <=? need)%nat then
            let '(ok, got, rest) := readx_loop evs' (need - length bs) in
            (ok, bs ++ got, rest)
          else (true, take need bs, RData (drop need bs) :: evs')
      end
  end.

Definition readx (s : sock) (count : Z) : Z * list Z * sock :=
  if count <? 0 then (-1, [], s)
  else
    let '(ok, got, rest) := readx_loop (s_in s) (Z.to_nat count) in
    (if ok then 0 else -1, got, mkSock rest (s_wr s) (s_sent s)).

Fixpoint writex_loop (evs : list wr_event) (bs sent : list Z)
    : bool * list wr_event * list Z :=
  match bs with
  | [] => (true, evs, sent)
  | _ :: _ =>
      match evs with
      | [] => (true, [], sent ++ bs)
      | WIntr :: evs' => writex_loop evs' bs sent
      | WErr :: evs' => (false, evs', sent)
      | WAccept k :: evs' => writex_loop evs' (drop k bs) (sent ++ take k bs)
      end
  end.

Definition writex (s : sock) (bs : list Z) (count : Z) : Z * sock :=
  if count <? 0 then (-1, s)
  else
    let '(ok, rest, sent) := writex_loop (s_wr s) (take (Z.to_nat count) bs) (s_sent s) in
    (if ok then 0 else -1, mkSock (s_in s) rest sent).

(** An [unsigned short] as it lies in memory on a little-endian target. *)
Definition le16 (n : Z) : list Z := le_bytes 2 n.

(** ** Splitting a command line *)

Record tok := mkTok {
  t_buf : list Z;
  t_cmd : nat;       (* where the pointer cmd ends up *)
  t_n : nat;
  t_arg : list nat;  (* the pointers arg[0..n], as offsets into the buffer *)
  t_full : bool      (* the "too many arguments" exit *)
}.

(** [while ( *cmd) { ... }] of [execute].  After a separator the pointer moves
    twice: once past the separator and once more, unconditionally, at the end
    of the body. *)
Fixpoint tokenize (fuel : nat) (buf : list Z) (cmd n : nat) (arg : list nat) : cres tok :=
  match fuel with
  | O => Fault OutOfFuel
  | S f =>
      c ← deref (buf !! cmd);
      if c =? 0 then Done (mkTok buf cmd n arg false)
      else if isspace c then
        let buf' := <[cmd := 0]> buf in
        let cmd' := S cmd in
        let n' := S n in
        let arg' := arg ++ [cmd'] in
        if (n' =? TOKEN_MAX)%nat then Done (mkTok buf' cmd' n' arg' true)
        else tokenize f buf' (S cmd') n' arg'
      else tokenize f buf (S cmd) n arg
  end.

(** Every step moves the pointer, so one more unit of fuel than the array is
    long is enough. *)
Definition tokenize_buf (buf : list Z) : cres tok :=
  tokenize (S (length buf)) buf 0 0 [0%nat].

Fixpoint read_args (buf : list Z) (arg : list nat) : cres (list cstr) :=
  match arg with
  | [] => Done []
  | off :: arg' => s ← c_str_at buf off; ss ← read_args buf arg'; Done (s :: ss)
  end.

(** ** Commands *)

Section Daemon.
(** The world the injector acts on, and [xload] of xloader.c. *)
Context {W : Type} (xload : cstr -> cstr -> cstr -> W -> Z * W).

(** A command function gets the arguments and the reply array and returns
    its status. *)
Definition cmd_func := list cstr -> list Z -> W -> cres (Z * list Z * W).

Definition do_ping : cmd_func := fun arg reply w => Done (0, reply, w).

Definition do_xload : cmd_func := fun arg reply w =>
  a0 ← deref (arg !! 0%nat);
  a1 ← deref (arg !! 1%nat);
  a2 ← deref (arg !! 2%nat);
  let '(r, w') := xload a0 a1 a2 w in
  Done (r, reply, w').

Record cmdinfo := mkCmd { c_name : cstr; c_numargs : nat; c_func : cmd_func }.

Definition cmds : list cmdinfo :=
  [ mkCmd (lit "ping") 0 do_ping; mkCmd (lit "xload") 3 do_xload ].

(** The [for] loop over the table. *)
Fixpoint find_cmd (cs : list cmdinfo) (name : cstr) : option cmdinfo :=
  match cs with
  | [] => None
  | c :: cs' => if streq (c_name c) name then Some c else find_cmd cs' name
  end.

Definition run_cmd (args : list cstr) (n : nat) (reply : list Z) (w : W)
    : cres (Z * list Z * W) :=
  name ← deref (args !! 0%nat);
  match find_cmd cmds name with
  | Some c =>
      if negb (n =? c_numargs c)%nat then Done (-1, reply, w)
      else c_func c (drop 1 args) reply w
  | None => Done (-1, reply, w)
  end.

(** [execute]: the reply is printed at the position [cmd] has reached. *)
Definition execute (s : sock) (buf : list Z) (w : W) : cres (Z * sock * list Z * W) :=
  t ← tokenize_buf buf;
  let reply := <[0%nat := 0]> (replicate REPLY_MAX 0) in
  r ← (if t_full t then Done (-1, reply, w)
       else args ← read_args (t_buf t) (t_arg t); run_cmd args (t_n t) reply w);
  let '(ret, reply', w') := r in
  r0 ← deref (reply' !! 0%nat);
  text ← (if r0 =? 0 then Done (fmt_d ret)
          else rs ← c_str reply'; Done (fmt_d ret ++ [32] ++ rs));
  buf' ← store (t_buf t) (t_cmd t) (snprintf_bytes BUFFER_MAX text);
  let n := Z.of_nat (length text) in
  let n := if Z.of_nat BUFFER_MAX <? n then Z.of_nat BUFFER_MAX else n in
  let count := u16 n in
  let '(e1, s1) := writex s (le16 count) 2 in
  if negb (e1 =? 0) then Done (-1, s1, buf', w')
  else
    let '(e2, s2) := writex s1 (drop (t_cmd t) buf') count in
    if negb (e2 =? 0) then Done (-1, s2, buf', w')
    else Done (0, s2, buf', w').

(** ** Connections

    The inner [for (;;)] of [main]; it ends when a read fails, the length is
    refused or [execute] reports an error.  Bytes that arrived before a
    failed read are in the buffer all the same. *)
Fixpoint serve (fuel : nat) (s : sock) (buf : list Z) (w : W)
    : cres (sock * list Z * W) :=
  match fuel with
  | O => Fault OutOfFuel
  | S f =>
      let '(e1, cnt, s1) := readx s 2 in
      if negb (e1 =? 0) then Done (s1, buf, w)
      else
        let count := of_le cnt in
        if (count <? 1) || (Z.of_nat BUFFER_MAX <=? count) then Done (s1, buf, w)
        else
          let '(e2, bs, s2) := readx s1 count in
          buf1 ← store buf 0 bs;
          if negb (e2 =? 0) then Done (s2, buf1, w)
          else
            buf2 ← store buf1 (Z.to_nat count) [0];
            r ← execute s2 buf2 w;
            let '(e3, s3, buf3, w') := r in
            if negb (e3 =? 0) then Done (s3, buf3, w')
            else serve f s3 buf3 w'
  end.

(** The outer loop over the connections [accept] hands out ([None] where it
    fails); the sockets are returned as they were closed. *)
Fixpoint accept_loop (fuel : nat) (conns : list (option sock)) (buf : list Z) (w : W)
    : cres (list sock * list Z * W) :=
  match conns with
  | [] => Done ([], buf, w)
  | None :: cs => accept_loop fuel cs buf w
  | Some s :: cs =>
      r ← serve fuel s buf w;
      let '(s', buf', w') := r in
      r' ← accept_loop fuel cs buf' w';
      let '(ss, buf'', w'') := r' in
      Done (s' :: ss, buf'', w'')
  end.
End Daemon.

(** ** Reading and writing exactly [count] bytes *)

Definition delivers (evs : list rd_event) (bs : list Z) : Prop :=
  Forall (fun e => match e with RErr => False | RData [] => False | _ => True end) evs /\
  concat (map (fun e => match e with RData b => b | _ => [] end) evs) = bs.

Definition writable (evs : list wr_event) : Prop :=
  Forall (fun e => e <> WErr) evs.

Lemma delivers_cons_intr evs bs : delivers (RIntr :: evs) bs -> delivers evs bs.
Proof. intros [Hf Hc]. apply Forall_cons in Hf as [_ Hf]. by split. Qed.

Lemma readx_loop_stream evs bs1 bs2 :
  delivers evs (bs1 ++ bs2) ->
  exists rest, readx_loop evs (length bs1) = (true, bs1, rest) /\ delivers rest bs2.
Proof.
  revert bs1. induction evs as [|e evs IH]; intros bs1 Hd.
  - destruct Hd as [_ Hc]. destruct bs1 as [|b bs1]; [|done]. exists []. by split.
  - destruct (decide (bs1 = [])) as [->|Hne].
    { exists (e :: evs). by split. }
    destruct Hd as [Hf Hc]. apply Forall_cons in Hf as [He Hf].
    destruct bs1 as [|b bs1]; [done|].
    destruct e as [| |d]; [|done|].
    + destruct (IH (b :: bs1)) as (rest & Hr & Hd'); [by split|].
      exists rest. split; [exact Hr|exact Hd'].
    + destruct d as [|x d]; [done|]. cbn [map concat] in Hc.
      change (readx_loop (RData (x :: d) :: evs) (length (b :: bs1))) with
        (if (length (x :: d) <=? length (b :: bs1))%nat then
           let '(ok, got, rest) := readx_loop evs (length (b :: bs1) - length (x :: d)) in
           (ok, (x :: d) ++ got, rest)
         else (true, take (length (b :: bs1)) (x :: d),
               RData (drop (length (b :: bs1)) (x :: d)) :: evs)).
      remember (b :: bs1) as B. remember (x :: d) as D.
      destruct (Nat.leb_spec (length D) (length B)) as [Hl|Hl].
      * assert (B = D ++ drop (length D) B) as EB.
        { assert (take (length D) B = D) as E.
          { rewrite <- (take_app_le B bs2) by lia. rewrite <- Hc. by rewrite take_app_length. }
          rewrite <- E at 1. by rewrite take_drop. }
        destruct (IH (drop (length D) B)) as (rest & Hr & Hd').
        { split; [done|]. apply (app_inv_head D). rewrite app_assoc, <- EB. exact Hc. }
        rewrite length_drop in Hr. rewrite Hr. exists rest. by rewrite <- EB.
      * assert (D = B ++ drop (length B) D) as ED.
        { assert (take (length B) D = B) as E.
          { rewrite <- (take_app_le D (concat (map (fun e => match e with RData b => b | _ => [] end) evs))) by lia.
            rewrite Hc. by rewrite take_app_length. }
          rewrite <- E at 1. by rewrite take_drop. }
        exists (RData (drop (length B) D) :: evs). split.
        { f_equal. f_equal. rewrite ED at 1. by rewrite take_app_length. }
        split.
        -- constructor; [|done]. destruct (drop (length B) D) eqn:E; [|done].
           apply (f_equal length) in E. rewrite length_drop in E. simpl in E. lia.
        -- cbn [map concat]. apply (app_inv_head B). rewrite app_assoc, <- ED. exact Hc.
Qed.

Lemma readx_stream s bs1 bs2 count :
  count = Z.of_nat (length bs1) -> delivers (s_in s) (bs1 ++ bs2) ->
  exists rest, readx s count = (0, bs1, mkSock rest (s_wr s) (s_sent s)) /\ delivers rest bs2.
Proof.
  intros -> Hd. destruct (readx_loop_stream _ _ _ Hd) as (rest & Hr & Hd').
  exists rest. split; [|done]. unfold readx.
  rewrite (proj2 (Z.ltb_ge _ 0)) by lia. by rewrite Nat2Z.id, Hr.
Qed.

Lemma readx_eof s count :
  0 < count -> delivers (s_in s) [] ->
  exists rest, readx s count = (-1, [], mkSock rest (s_wr s) (s_sent s)).
Proof.
  intros Hc [Hf He]. unfold readx. rewrite (proj2 (Z.ltb_ge _ 0)) by lia.
  assert (readx_loop (s_in s) (Z.to_nat count) = (false, [], [])) as ->.
  { revert Hf He. generalize (s_in s). intros evs. induction evs as [|e evs IH]; intros Hf He.
    - by destruct (Z.to_nat count) eqn:E; [lia|].
    - apply Forall_cons in Hf as [H1 Hf]. destruct e as [| |[|x d]]; try done.
      destruct (Z.to_nat count) eqn:E; [lia|]. by apply IH. }
  by eexists.
Qed.

Lemma writex_loop_all evs bs sent :
  writable evs -> exists rest, writex_loop evs bs sent = (true, rest, sent ++ bs) /\ writable rest.
Proof.
  revert bs sent. induction evs as [|e evs IH]; intros bs sent Hw.
  - exists []. split; [|constructor]. destruct bs; simpl; by rewrite ?app_nil_r.
  - apply Forall_cons in Hw as [He Hw].
    destruct bs as [|b bs]; [exists (e :: evs); split; [by rewrite app_nil_r|by constructor]|].
    destruct e as [| |k]; [by apply IH|done|].
    cbn [writex_loop]. destruct (IH (drop k (b :: bs)) (sent ++ take k (b :: bs)) Hw) as (r & Hr & Hw').
    exists r. split; [|done]. by rewrite Hr, <- app_assoc, take_drop.
Qed.

Lemma writex_all s bs count :
  count = Z.of_nat (length bs) -> writable (s_wr s) ->
  exists rest, writex s bs count = (0, mkSock (s_in s) rest (s_sent s ++ bs)) /\ writable rest.
Proof.
  intros -> Hw. unfold writex. rewrite (proj2 (Z.ltb_ge _ 0)) by lia.
  rewrite Nat2Z.id, take_ge by lia.
  destruct (writex_loop_all _ bs (s_sent s) Hw) as (r & -> & Hr). by exists r.
Qed.

Lemma of_le16_le16 n : in_u 16 n -> of_le (le16 n) = n.
Proof. intros Hn. unfold le16. rewrite of_le_le_bytes. by apply Z.mod_small. Qed.

(** ** Command lines

    What a client sends: words separated by one space. *)

Definition word_ok (w : cstr) : Prop :=
  w <> [] /\ Forall (fun c => c <> 0 /\ isspace c = false) w.

Definition line (w : cstr) (ws : list cstr) : cstr := w ++ concat (map (cons 32) ws).

(** The buffer after splitting: the separators have become terminators. *)
Definition split_line (w : cstr) (ws : list cstr) : cstr := w ++ concat (map (cons 0) ws).

Fixpoint offsets (base : nat) (ws : list cstr) : list nat :=
  match ws with
  | [] => []
  | v :: ws' => base :: offsets (base + S (length v)) ws'
  end.

Lemma line_length w ws : length (split_line w ws) = length (line w ws).
Proof.
  unfold line, split_line. rewrite !length_app. f_equal.
  induction ws as [|v ws IH]; simpl; [done|]. rewrite !length_app. lia.
Qed.

Lemma lookup_mid (pre : list Z) x l : (pre ++ x :: l) !! length pre = Some x.
Proof. by rewrite lookup_app_r, Nat.sub_diag by lia. Qed.

Lemma insert_mid (pre : list Z) x y l : <[length pre := y]> (pre ++ x :: l) = pre ++ y :: l.
Proof. by rewrite insert_app_r_alt, Nat.sub_diag by lia. Qed.

Lemma tokenize_word w f pre tl n arg :
  Forall (fun c => c <> 0 /\ isspace c = false) w ->
  tokenize (length w + f) (pre ++ w ++ tl) (length pre) n arg =
  tokenize f (pre ++ w ++ tl) (length pre + length w) n arg.
Proof.
  intros H. revert pre. induction H as [|c w [Hc Hs] Hw IH]; intros pre; simpl.
  - by rewrite Nat.add_0_r.
  - rewrite lookup_mid. simpl. rewrite (proj2 (Z.eqb_neq c 0) Hc), Hs.
    specialize (IH (pre ++ [c])). rewrite <- app_assoc, length_app in IH. simpl in IH.
    rewrite Nat.add_1_r in IH. rewrite IH. f_equal. lia.
Qed.

Lemma tokenize_line ws w f pre n arg stale :
  Forall (fun c => c <> 0 /\ isspace c = false) w -> Forall word_ok ws ->
  (n + length ws < TOKEN_MAX)%nat -> (length (line w ws) < f)%nat ->
  tokenize f (pre ++ line w ws ++ 0 :: stale) (length pre) n arg =
  Done (mkTok (pre ++ split_line w ws ++ 0 :: stale) (length pre + length (line w ws))
          (n + length ws) (arg ++ offsets (length pre + length w + 1) ws) false).
Proof.
  revert w f pre n arg. induction ws as [|v ws IH]; intros w f pre n arg Hw Hws Hn Hf.
  - unfold line, split_line in *. cbn [map concat length offsets] in *.
    rewrite app_nil_r in *.
    replace f with (length w + S (f - length w - 1))%nat by lia.
    rewrite tokenize_word by done. rewrite (app_assoc pre), <- length_app.
    cbn [tokenize]. rewrite lookup_mid. simpl. by rewrite Nat.add_0_r, app_nil_r.
  - apply Forall_cons in Hws as [[Hne Hv] Hws]. destruct v as [|c v]; [done|].
    apply Forall_cons in Hv as [Hc Hv].
    unfold line, split_line in *. cbn [map concat length] in *.
    replace f with (length w + S (f - length w - 1))%nat
      by (rewrite length_app in Hf; simpl in Hf; lia).
    rewrite <- app_assoc, tokenize_word by done.
    rewrite (app_assoc pre), <- length_app.
    cbn [tokenize app]. rewrite lookup_mid. simpl (deref _). cbn [mbind cres_bind].
    change (32 =? 0) with false. change (isspace 32) with true. cbn iota.
    rewrite (proj2 (Nat.eqb_neq _ _)) by lia.
    rewrite insert_mid.
    specialize (IH v (f - length w - 1)%nat ((pre ++ w) ++ [0; c]) (S n)
                  (arg ++ [S (length (pre ++ w))])).
    rewrite <- app_assoc in IH. cbn [app] in IH.
    replace (length ((pre ++ w) ++ [0; c])) with (S (S (length (pre ++ w)))) in IH
      by (rewrite !length_app; simpl; lia).
    rewrite IH by (try done; rewrite ?length_app in *; simpl in *; rewrite ?length_app in *; lia).
    f_equal. f_equal.
    + rewrite <- !app_assoc. simpl. rewrite <- ?app_assoc. done.
    + rewrite !length_app. simpl. rewrite !length_app. lia.
    + simpl. lia.
    + rewrite <- app_assoc. f_equal. cbn [app offsets]. rewrite !length_app. cbn [length].
      f_equal; [lia|]. f_equal. lia.
Qed.

Lemma read_args_offsets ws pre stale :
  Forall (Forall (fun c => c <> 0)) ws ->
  read_args (pre ++ concat (map (cons 0) ws) ++ 0 :: stale) (offsets (length pre + 1) ws) = Done ws.
Proof.
  intros H. revert pre. induction H as [|v ws Hv Hws IH]; intros pre; [done|].
  cbn [map concat offsets read_args]. unfold c_str_at.
  assert (exists r, concat (map (cons 0) ws) ++ 0 :: stale = 0 :: r) as [r Er].
  { destruct ws; simpl; eauto. }
  assert (drop (length pre + 1) (pre ++ ((0 :: v) ++ concat (map (cons 0) ws)) ++ 0 :: stale)
          = v ++ 0 :: r) as ->.
  { rewrite drop_app, drop_ge by lia. replace (length pre + 1 - length pre)%nat with 1%nat by lia.
    simpl. by rewrite <- app_assoc, Er. }
  rewrite c_str_app by done. cbn [mbind cres_bind].
  specialize (IH (pre ++ 0 :: v)). rewrite <- app_assoc, length_app in IH. cbn [length] in IH.
  replace (length pre + 1 + S (length v))%nat with (length pre + S (length v) + 1)%nat by lia.
  rewrite <- app_assoc, IH. done.
Qed.

Lemma word_ok_nonzero ws : Forall word_ok ws -> Forall (Forall (fun c => c <> 0)) ws.
Proof.
  intros H. eapply Forall_impl; [exact H|]. intros v [_ Hv].
  eapply Forall_impl; [exact Hv|]. by intros c [? _].
Qed.

Lemma tokenize_args w ws stale :
  word_ok w -> Forall word_ok ws -> (length ws < TOKEN_MAX)%nat ->
  exists t, tokenize_buf (line w ws ++ 0 :: stale) = Done t /\
    t_full t = false /\ t_n t = length ws /\ t_cmd t = length (line w ws) /\
    t_buf t = split_line w ws ++ 0 :: stale /\
    read_args (t_buf t) (t_arg t) = Done (w :: ws).
Proof.
  intros Hw Hws Hn. destruct Hw as [Hne Hw].
  assert (word_ok w) as Hw' by done.
  pose proof (tokenize_line ws w (S (length (line w ws ++ 0 :: stale))) [] 0 [0%nat] stale Hw Hws)
    as H.
  cbn [app length Nat.add] in H. unfold tokenize_buf. rewrite H; [|lia|rewrite length_app; simpl; lia].
  eexists. split; [done|]. repeat split. cbn [t_buf t_arg].
  cbn [app read_args]. unfold c_str_at. rewrite drop_0.
  unfold split_line. rewrite <- app_assoc.
  assert (exists r, concat (map (cons 0) ws) ++ 0 :: stale = 0 :: r) as [r Er].
  { destruct ws; simpl; eauto. }
  assert (Forall (fun c => c <> 0) w) as Hw0.
  { eapply Forall_impl; [exact Hw|]. by intros c [? _]. }
  rewrite Er, c_str_app by done. cbn [mbind cres_bind]. rewrite <- Er.
  rewrite read_args_offsets by by apply word_ok_nonzero. done.
Qed.

(** ** What the daemon promises

    [dispatch] is the command interpreter as the protocol has it, with no
    buffer; [reply_frame] what goes back for a status. *)

Definition frame (text : cstr) : list Z := le16 (Z.of_nat (length text)) ++ text.
Definition reply_frame (ret : Z) : list Z := frame (fmt_d ret).

Section Spec.
Context {W : Type} (xload : cstr -> cstr -> cstr -> W -> Z * W).

Definition dispatch (ws : list cstr) (w : W) : Z * W :=
  match ws with
  | [name] => if streq name (lit "ping") then (0, w) else (-1, w)
  | [name; a; b; c] => if streq name (lit "xload") then xload a b c w else (-1, w)
  | _ => (-1, w)
  end.

(** A session of commands: the bytes sent back and the world afterwards. *)
Fixpoint session (cs : list (cstr * list cstr)) (w : W) : list Z * W :=
  match cs with
  | [] => ([], w)
  | (c, ws) :: cs' =>
      let '(r, w1) := dispatch (c :: ws) w in
      let '(out, w2) := session cs' w1 in
      (reply_frame r ++ out, w2)
  end.

(** A command the buffer has room for: at most seven arguments, and twelve
    bytes left for the reply that is printed behind it. *)
Definition cmd_ok (c : cstr * list cstr) : Prop :=
  word_ok (fst c) /\ Forall word_ok (snd c) /\ (length (snd c) < TOKEN_MAX)%nat /\
  (length (line (fst c) (snd c)) + 12 <= BUFFER_MAX)%nat.

Lemma run_cmd_dispatch c ws reply w :
  run_cmd xload (c :: ws) (length ws) reply w =
  let '(r, w') := dispatch (c :: ws) w in Done (r, reply, w').
Proof.
  unfold run_cmd, cmds. cbn [find_cmd c_name lookup list_lookup deref mbind cres_bind].
  unfold streq. rewrite (bool_decide_ext (lit "ping" = c) (c = lit "ping")) by done.
  rewrite (bool_decide_ext (lit "xload" = c) (c = lit "xload")) by done.
  unfold dispatch, streq.
  do 2 case_bool_decide; subst; try discriminate;
    destruct ws as [|a [|b [|d [|e ws]]]]; try reflexivity.
  all: cbn; by destruct (xload _ _ _ _).
Qed.

Lemma reply_store buf cmd ret :
  length buf = BUFFER_MAX -> (cmd + 12 <= BUFFER_MAX)%nat ->
  exists buf', store buf cmd (snprintf_bytes BUFFER_MAX (fmt_d ret)) = Done buf' /\
    length buf' = BUFFER_MAX /\ exists tl, drop cmd buf' = fmt_d ret ++ tl.
Proof.
  intros Hb Hc. pose proof (fmt_d_length ret) as Hl.
  assert (snprintf_bytes BUFFER_MAX (fmt_d ret) = fmt_d ret ++ [0]) as E.
  { unfold snprintf_bytes, BUFFER_MAX. rewrite take_ge; [done|]. lia. }
  rewrite E, store_ok by (rewrite length_app; simpl; lia).
  eexists. split; [done|]. split.
  - rewrite !length_app, length_take, length_drop. simpl. lia.
  - eexists. rewrite drop_app_ge by (rewrite length_take; lia).
    rewrite length_take, Nat.min_l, Nat.sub_diag by lia.
    rewrite drop_0, <- app_assoc. done.
Qed.

Lemma writex_reply s ret cmd buf' tl :
  writable (s_wr s) -> drop cmd buf' = fmt_d ret ++ tl ->
  let n := Z.of_nat (length (fmt_d ret)) in
  exists rest s1, writex s (le16 n) 2 = (0, s1) /\
    writex s1 (drop cmd buf') n =
      (0, mkSock (s_in s) rest (s_sent s ++ reply_frame ret)) /\ writable rest.
Proof.
  intros Hw Ed n. destruct (writex_all s (le16 n) 2 eq_refl Hw) as (r1 & E1 & Hr1).
  destruct (writex_all (mkSock (s_in s) r1 (s_sent s ++ le16 n)) (fmt_d ret) n eq_refl Hr1)
    as (r2 & E2 & Hr2).
  exists r2, (mkSock (s_in s) r1 (s_sent s ++ le16 n)). split; [exact E1|]. split; [|exact Hr2].
  unfold writex in *. subst n. rewrite Nat2Z.id in *.
  rewrite Ed, take_app_length. rewrite take_ge in E2 by lia. rewrite E2.
  unfold reply_frame, frame. by rewrite app_assoc.
Qed.

Lemma execute_ok s c w stale :
  cmd_ok c -> length (line (fst c) (snd c) ++ 0 :: stale) = BUFFER_MAX -> writable (s_wr s) ->
  let '(r, w') := dispatch (fst c :: snd c) w in
  exists buf' rest,
    execute xload s (line (fst c) (snd c) ++ 0 :: stale) w =
      Done (0, mkSock (s_in s) rest (s_sent s ++ reply_frame r), buf', w') /\
    length buf' = BUFFER_MAX /\ writable rest.
Proof.
  destruct c as [c ws]. cbn [fst snd]. intros (Hc & Hws & Hn & Hlen) Hb Hw.
  cbn [fst snd] in *.
  destruct (tokenize_args c ws stale Hc Hws Hn) as (t & Ht & Hf & Htn & Htc & Htb & Hta).
  unfold execute. rewrite Ht. cbn [mbind cres_bind]. rewrite Hf, Hta. cbn [mbind cres_bind].
  rewrite Htn, run_cmd_dispatch.
  destruct (dispatch (c :: ws) w) as [r w'] eqn:Ed. cbn [mbind cres_bind].
  change (<[0%nat:=0]> (replicate REPLY_MAX 0) !! 0%nat) with (Some 0). cbn [deref mbind cres_bind].
  rewrite Htc. change (0 =? 0) with true. cbn iota. cbn [mbind cres_bind].
  destruct (reply_store (t_buf t) (length (line c ws)) r) as (buf' & Es & Hbl & tl & Etl).
  { rewrite Htb, length_app, line_length. rewrite length_app in Hb. exact Hb. }
  { lia. }
  rewrite Es. cbn [mbind cres_bind].
  pose proof (fmt_d_length r) as Hl.
  rewrite (proj2 (Z.ltb_ge (Z.of_nat BUFFER_MAX) _)) by (unfold BUFFER_MAX; lia).
  rewrite uwrap_small by (unfold in_u; lia).
  destruct (writex_reply s r (length (line c ws)) buf' tl Hw Etl) as (rest & s1 & E1 & E2 & Hr).
  rewrite E1. cbn [Z.eqb negb]. rewrite E2. cbn [Z.eqb negb].
  exists buf', rest. by repeat split.
Qed.

Definition cmd_line (c : cstr * list cstr) : cstr := line (fst c) (snd c).

Lemma line_nonempty c : cmd_ok c -> (1 <= length (cmd_line c))%nat.
Proof.
  intros ([Hne _] & _). unfold cmd_line, line. rewrite length_app.
  destruct (fst c); [done|]. simpl. lia.
Qed.

(** One turn of the loop of [main]: a framed text ends up terminated at the
    front of the buffer, with whatever the buffer held behind it. *)
Lemma serve_frame f s buf w text rest :
  (1 <= length text < BUFFER_MAX)%nat -> length buf = BUFFER_MAX ->
  delivers (s_in s) (frame text ++ rest) ->
  exists ins, delivers ins rest /\
    let stale := drop (length text + 1) buf in
    serve xload (S f) s buf w =
      (r ← execute xload (mkSock ins (s_wr s) (s_sent s)) (text ++ 0 :: stale) w;
       let '(e3, s3, buf3, w') := r in
       if negb (e3 =? 0) then Done (s3, buf3, w') else serve xload f s3 buf3 w').
Proof.
  intros Ht Hb Hd. unfold BUFFER_MAX in *. unfold frame in Hd. rewrite <- app_assoc in Hd.
  destruct (readx_stream s (le16 (Z.of_nat (length text))) _ 2 eq_refl Hd) as (r1 & E1 & Hd1).
  cbn [serve]. rewrite E1. cbn [Z.eqb negb].
  rewrite of_le16_le16 by (unfold in_u; lia).
  rewrite (proj2 (Z.ltb_ge _ 1)) by lia.
  rewrite (proj2 (Z.leb_gt _ _)) by (unfold BUFFER_MAX; lia). cbn [orb].
  destruct (readx_stream (mkSock r1 (s_wr s) (s_sent s)) text _ _ eq_refl Hd1) as (r2 & E2 & Hd2).
  exists r2. split; [exact Hd2|]. cbn zeta.
  rewrite E2. rewrite store_ok, take_0 by lia. cbn [mbind cres_bind Z.eqb negb app Nat.add].
  rewrite Nat2Z.id, store_ok.
  2:{ rewrite length_app, length_drop. simpl. lia. }
  cbn [mbind cres_bind s_in s_wr s_sent]. rewrite take_app_length. cbn [app length].
  rewrite drop_app_ge, drop_drop by lia.
  by replace (length text + (length text + 1 - length text))%nat with (length text + 1)%nat by lia.
Qed.

Lemma serve_step f s buf w c rest :
  cmd_ok c -> length buf = BUFFER_MAX -> writable (s_wr s) ->
  delivers (s_in s) (frame (cmd_line c) ++ rest) ->
  let '(r, w1) := dispatch (fst c :: snd c) w in
  exists s1 buf1, serve xload (S f) s buf w = serve xload f s1 buf1 w1 /\
    s_sent s1 = s_sent s ++ reply_frame r /\ length buf1 = BUFFER_MAX /\
    writable (s_wr s1) /\ delivers (s_in s1) rest.
Proof.
  intros Hc Hb Hw Hd. pose proof (line_nonempty c Hc) as H1.
  assert (length (cmd_line c) + 12 <= BUFFER_MAX)%nat as H2 by apply Hc.
  destruct (serve_frame f s buf w (cmd_line c) rest) as (ins & Hins & E); [lia|done|done|].
  cbn zeta in E. rewrite E.
  pose proof (execute_ok (mkSock ins (s_wr s) (s_sent s)) c w
                (drop (length (cmd_line c) + 1) buf) Hc) as He.
  destruct (dispatch (fst c :: snd c) w) as [r w1].
  destruct He as (buf' & rest' & Ee & Hl & Hr).
  { fold (cmd_line c). rewrite length_app. cbn [length]. rewrite length_drop. lia. }
  { exact Hw. }
  fold (cmd_line c) in Ee. cbn [s_in s_sent] in Ee. rewrite Ee.
  cbn [mbind cres_bind Z.eqb negb].
  exists (mkSock ins rest' (s_sent s ++ reply_frame r)), buf'. by split_and!.
Qed.

(** C11: the daemon implements its protocol.  Whatever way the kernel cuts the
    stream into reads and the replies into writes, and whatever the buffer
    held before, a connection that sends well-formed commands gets exactly
    the framed status of each of them, in order, and the injector has been
    called with exactly the arguments sent. *)
Theorem serve_session cs s buf w :
  Forall cmd_ok cs -> length buf = BUFFER_MAX -> writable (s_wr s) ->
  delivers (s_in s) (concat (map (fun c => frame (cmd_line c)) cs)) ->
  let '(out, w') := session cs w in
  exists s' buf', serve xload (S (length cs)) s buf w = Done (s', buf', w') /\
    s_sent s' = s_sent s ++ out /\ length buf' = BUFFER_MAX.
Proof.
  intros Hcs. revert s buf w. induction Hcs as [|c cs Hc Hcs IH]; intros s buf w Hb Hw Hd.
  - cbn [session]. destruct (readx_eof s 2 ltac:(lia) Hd) as (r & E).
    cbn [serve length]. rewrite E. cbn [Z.eqb negb]. eexists _, _. split; [done|].
    cbn [s_sent]. by rewrite app_nil_r.
  - destruct c as [c ws]. cbn [map concat session length] in *.
    pose proof (serve_step (S (length cs)) s buf w (c, ws) _ Hc Hb Hw Hd) as Hs.
    cbn [fst snd] in Hs. destruct (dispatch (c :: ws) w) as [r w1].
    destruct Hs as (s1 & buf1 & Es & Hsent & Hb1 & Hw1 & Hd1).
    specialize (IH s1 buf1 w1 Hb1 Hw1 Hd1). destruct (session cs w1) as [out w2].
    destruct IH as (s' & buf' & E & Hs' & Hb'). rewrite Es, E.
    eexists _, _. split; [done|]. split; [|done]. by rewrite Hs', Hsent, app_assoc.
Qed.
End Spec.

(** ** Termination *)

Fixpoint bytes_left (evs : list rd_event) : nat :=
  match evs with
  | [] => 0
  | RData b :: evs' => length b + bytes_left evs'
  | _ :: evs' => bytes_left evs'
  end.

Lemma readx_loop_bytes evs need :
  let '(ok, got, rest) := readx_loop evs need in
  (length got + bytes_left rest <= bytes_left evs)%nat /\ (length got <= need)%nat /\
  (ok = true -> length got = need).
Proof.
  revert need. induction evs as [|e evs IH]; intros need.
  - destruct need; simpl; (split; [|split]); (done || lia).
  - destruct need as [|n]; [simpl; (split; [|split]); (done || lia)|].
    destruct e as [| |bs].
    + specialize (IH (S n)). simpl in *. destruct (readx_loop evs (S n)) as [[ok got] rest].
      exact IH.
    + simpl. cbn [bytes_left length]. (split; [|split]); (done || lia).
    + change (readx_loop (RData bs :: evs) (S n)) with
        (if (length bs =? 0)%nat then (false, [], evs)
         else if (length bs <=? S n)%nat then
           let '(ok, got, rest) := readx_loop evs (S n - length bs) in (ok, bs ++ got, rest)
         else (true, take (S n) bs, RData (drop (S n) bs) :: evs)).
      destruct (Nat.eqb_spec (length bs) 0); [|destruct (Nat.leb_spec (length bs) (S n))].
      * cbn [bytes_left length]. (split; [|split]); (done || lia).
      * specialize (IH (S n - length bs)%nat).
        destruct (readx_loop evs (S n - length bs)) as [[ok got] rest].
        cbn [bytes_left]. rewrite length_app.
        destruct IH as (? & ? & IH3). split; [lia|]. split; [lia|]. intros Hok. specialize (IH3 Hok). lia.
      * cbn [bytes_left]. rewrite length_take, length_drop. lia.
Qed.

Lemma tokenize_fuel fuel buf cmd n arg :
  fuel <> O -> (length buf < fuel + cmd)%nat -> tokenize fuel buf cmd n arg <> Fault OutOfFuel.
Proof.
  revert buf cmd n arg. induction fuel as [|f IH]; intros buf cmd n arg H0 H; [lia|].
  cbn [tokenize]. destruct (buf !! cmd) as [c|] eqn:E; cbn [deref mbind cres_bind]; [|done].
  apply lookup_lt_Some in E.
  destruct (c =? 0); [done|]. destruct (isspace c).
  - destruct (_ =? TOKEN_MAX)%nat; [done|]. apply IH; rewrite ?length_insert; lia.
  - apply IH; lia.
Qed.

Lemma c_str_no_fuel l : c_str l <> Fault OutOfFuel.
Proof.
  induction l as [|c l IH]; simpl; [done|]. destruct (c =? 0); [done|].
  by apply bind_no_fuel.
Qed.

Lemma read_args_no_fuel buf arg : read_args buf arg <> Fault OutOfFuel.
Proof.
  induction arg as [|o arg IH]; [done|]. cbn [read_args].
  apply bind_no_fuel; [apply c_str_no_fuel|]. intros. by apply bind_no_fuel.
Qed.

Lemma store_no_fuel buf off bs : store buf off bs <> Fault OutOfFuel.
Proof. unfold store. by destruct_if. Qed.

#[export] Hint Resolve deref_no_fuel c_str_no_fuel read_args_no_fuel store_no_fuel : clib.

Section Termination.
Context {W : Type} (xload : cstr -> cstr -> cstr -> W -> Z * W).

Lemma run_cmd_no_fuel args n reply w : run_cmd xload args n reply w <> Fault OutOfFuel.
Proof.
  unfold run_cmd. apply bind_no_fuel; auto with clib. intros name _. unfold cmds. cbn [find_cmd c_name].
  destruct_if; [cbn [c_numargs c_func]; by destruct_if|].
  destruct_if; [|done]. cbn [c_numargs c_func]. destruct_if; [done|]. unfold do_xload.
  repeat (apply bind_no_fuel; auto with clib; intros ? _). by destruct (xload _ _ _ _).
Qed.

Lemma writex_in s bs n : s_in (snd (writex s bs n)) = s_in s.
Proof.
  unfold writex. destruct (n <? 0); [done|].
  by destruct (writex_loop _ _ _) as [[? ?] ?].
Qed.

Lemma execute_no_fuel s buf w : execute xload s buf w <> Fault OutOfFuel.
Proof.
  unfold execute. apply bind_no_fuel.
  { apply tokenize_fuel; lia. }
  intros t _. apply bind_no_fuel.
  { destruct (t_full t); [done|]. apply bind_no_fuel; auto with clib. intros. apply run_cmd_no_fuel. }
  intros [[ret reply'] w'] _. apply bind_no_fuel; auto with clib. intros r0 _.
  apply bind_no_fuel.
  { destruct (r0 =? 0); [done|]. apply bind_no_fuel; auto with clib. }
  intros text _. apply bind_no_fuel; auto with clib. intros buf' _.
  destruct (writex s _ _) as [e1 s1]. destruct_if; [done|].
  destruct (writex s1 _ _) as [e2 s2]. by destruct_if.
Qed.

Lemma execute_in s buf w e s' buf' w' :
  execute xload s buf w = Done (e, s', buf', w') -> s_in s' = s_in s.
Proof.
  unfold execute. intros H.
  apply bind_Done in H as (t & _ & H). apply bind_Done in H as ([[ret reply'] w1] & _ & H).
  apply bind_Done in H as (r0 & _ & H). apply bind_Done in H as (text & _ & H).
  apply bind_Done in H as (bf & _ & H). revert H.
  destruct (writex s _ _) as [e1 s1] eqn:E1.
  assert (s_in s1 = s_in s) as H1 by (rewrite <- (writex_in s) at 1; by rewrite E1).
  destruct_if; [by intros [= <- <- <- <-]|].
  destruct (writex s1 _ _) as [e2 s2] eqn:E2.
  assert (s_in s2 = s_in s1) as H2 by (rewrite <- (writex_in s1) at 1; by rewrite E2).
  destruct_if; intros [= <- <- <- <-]; congruence.
Qed.

Lemma readx_bytes s count e bs s' :
  readx s count = (e, bs, s') ->
  (length bs + bytes_left (s_in s') <= bytes_left (s_in s))%nat /\
  (e = 0 -> 0 <= count -> Z.of_nat (length bs) = count).
Proof.
  unfold readx. destruct (Z.ltb_spec count 0).
  - intros [= <- <- <-]. simpl. lia.
  - pose proof (readx_loop_bytes (s_in s) (Z.to_nat count)) as Hb.
    destruct (readx_loop _ _) as [[ok got] rest]. intros [= <- <- <-]. cbn [s_in].
    destruct Hb as (? & ? & H3). split; [lia|]. destruct ok; [|done]. intros _ _.
    specialize (H3 eq_refl). lia.
Qed.

Lemma serve_no_fuel fuel s buf w :
  (bytes_left (s_in s) < fuel)%nat -> serve xload fuel s buf w <> Fault OutOfFuel.
Proof.
  revert s buf w. induction fuel as [|f IH]; intros s buf w Hf; [lia|]. cbn [serve].
  destruct (readx s 2) as [[e1 cnt] s1] eqn:E1.
  destruct (Z.eqb_spec e1 0) as [->|]; cbn [negb]; [|done].
  destruct (_ || _) eqn:Ec; [done|]. apply orb_false_iff in Ec as [Ec _].
  destruct (readx s1 (of_le cnt)) as [[e2 bs] s2] eqn:E2.
  apply readx_bytes in E1 as [H1 H1']. apply readx_bytes in E2 as [H2 H2'].
  apply bind_no_fuel; auto with clib. intros buf1 _.
  destruct_if; [done|]. apply bind_no_fuel; auto with clib. intros buf2 _.
  apply bind_no_fuel; [apply execute_no_fuel|]. intros [[[e3 s3] buf3] w'] E3.
  apply execute_in in E3. destruct_if; [done|]. apply IH. rewrite E3.
  specialize (H1' eq_refl ltac:(lia)). lia.
Qed.
End Termination.

(** the daemon's loops end.  On any traffic, the outer loop returns to
    [accept] after every connection: with more fuel than any connection has
    bytes, the run never stops for lack of it. *)
Theorem accept_loop_terminates {W} (xload : cstr -> cstr -> cstr -> W -> Z * W) fuel conns buf w
    (Hfuel : Forall (fun c => match c with
                              | Some s => (bytes_left (s_in s) < fuel)%nat
                              | None => True
                              end) conns) :
  accept_loop xload fuel conns buf w <> Fault OutOfFuel.
Proof.
  revert buf w. induction Hfuel as [|c conns Hc Hcs IH]; intros buf w; [done|].
  destruct c as [s|]; [|apply IH]. cbn [accept_loop].
  apply bind_no_fuel; [by apply serve_no_fuel|]. intros [[s' buf'] w'] _.
  apply bind_no_fuel; [apply IH|]. by intros [[ss buf''] w''] _.
Qed.

Section Boundaries.
Context {W : Type} (xload : cstr -> cstr -> cstr -> W -> Z * W).

Lemma execute_unknown_overflow s text w stale :
  word_ok text -> text <> lit "ping" -> text <> lit "xload" ->
  length (text ++ 0 :: stale) = BUFFER_MAX -> (BUFFER_MAX < length text + 3)%nat ->
  execute xload s (text ++ 0 :: stale) w = Fault OutOfBounds.
Proof.
  intros Ht Hp Hx Hb Hlen.
  destruct (tokenize_args text [] stale Ht) as (t & Et & Hf & Htn & Htc & Htb & Hta);
    [constructor|unfold TOKEN_MAX; simpl; lia|].
  unfold line, split_line in *. cbn [map concat] in *. rewrite app_nil_r in *.
  unfold execute. rewrite Et. cbn [mbind cres_bind]. rewrite Hf, Hta. cbn [mbind cres_bind].
  rewrite Htn. change (length []) with (length (@nil cstr)). rewrite run_cmd_dispatch.
  cbn [dispatch]. rewrite (proj2 (streq_false _ _) Hp). cbn [mbind cres_bind].
  change (<[0%nat:=0]> (replicate REPLY_MAX 0) !! 0%nat) with (Some 0).
  cbn [deref mbind cres_bind Z.eqb]. rewrite Htb, Htc.
  unfold store. change (length (snprintf_bytes BUFFER_MAX (fmt_d (-1)))) with 3%nat.
  rewrite (proj2 (Nat.leb_gt _ _)) by lia. done.
Qed.

(** the reply can overrun the command buffer.  [execute] prints the reply
    where the scan of the command stopped, with [BUFFER_MAX] as the room left;
    the daemon accepts commands of up to 1023 bytes, and for an unknown
    one-word command of 1022 or 1023 bytes the three bytes of the status
    and its terminator do not fit. *)
Theorem serve_reply_overflow f s buf w text rest
    (Hword : word_ok text) (Hping : text <> lit "ping") (Hxload : text <> lit "xload")
    (Hlen : (1022 <= length text < BUFFER_MAX)%nat)
    (Hbuf : length buf = BUFFER_MAX) (Hin : delivers (s_in s) (frame text ++ rest)) :
  serve xload (S f) s buf w = Fault OutOfBounds.
Proof.
  destruct (serve_frame xload f s buf w text rest) as (ins & _ & E);
    [unfold BUFFER_MAX in *; lia|done|done|].
  cbn zeta in E. rewrite E, execute_unknown_overflow; try done.
  - rewrite length_app. cbn [length]. rewrite length_drop. lia.
  - unfold BUFFER_MAX in *. lia.
Qed.

Lemma tokenize_trailing_space ws w f pre n arg :
  Forall (fun c => c <> 0 /\ isspace c = false) w -> Forall word_ok ws ->
  (n + length ws + 1 < TOKEN_MAX)%nat -> (length (line w ws) + 1 < f)%nat ->
  tokenize f (pre ++ line w ws ++ [32; 0]) (length pre) n arg = Fault OutOfBounds.
Proof.
  revert w f pre n arg. induction ws as [|v ws IH]; intros w f pre n arg Hw Hws Hn Hf.
  - unfold line in *. cbn [map concat length] in *. rewrite app_nil_r in *.
    replace f with (length w + S (S (f - length w - 2)))%nat by lia.
    rewrite tokenize_word by done. rewrite (app_assoc pre), <- length_app.
    cbn [tokenize]. rewrite lookup_mid. simpl (deref _). cbn [mbind cres_bind].
    change (32 =? 0) with false. change (isspace 32) with true. cbn iota.
    rewrite (proj2 (Nat.eqb_neq _ _)) by lia.
    rewrite insert_mid, lookup_ge_None_2; [done|]. rewrite length_app. simpl. lia.
  - apply Forall_cons in Hws as [[Hne Hv] Hws]. destruct v as [|c v]; [done|].
    apply Forall_cons in Hv as [Hc Hv].
    unfold line in *. cbn [map concat length] in *.
    replace f with (length w + S (f - length w - 1))%nat
      by (rewrite length_app in Hf; simpl in Hf; lia).
    rewrite <- app_assoc, tokenize_word by done.
    rewrite (app_assoc pre), <- length_app.
    cbn [tokenize app]. rewrite lookup_mid. simpl (deref _). cbn [mbind cres_bind].
    change (32 =? 0) with false. change (isspace 32) with true. cbn iota.
    rewrite (proj2 (Nat.eqb_neq _ _)) by lia. rewrite insert_mid.
    specialize (IH v (f - length w - 1)%nat ((pre ++ w) ++ [0; c]) (S n)
                  (arg ++ [S (length (pre ++ w))])).
    rewrite <- app_assoc in IH. cbn [app] in IH.
    replace (length ((pre ++ w) ++ [0; c])) with (S (S (length (pre ++ w)))) in IH
      by (rewrite !length_app; simpl; lia).
    apply IH; try done; rewrite ?length_app in *; simpl in *; rewrite ?length_app in *; lia.
Qed.

(** a trailing space takes the scan past the terminator.  The separator
    and the byte behind it are skipped together, so on a command of 1023 bytes
    that ends in a space the loop steps over the final NUL and reads behind
    the array. *)
Theorem serve_trailing_space_overread f s buf w c ws rest
    (Hc : word_ok c) (Hws : Forall word_ok ws) (Hargs : (length ws + 1 < TOKEN_MAX)%nat)
    (Hlen : length (line c ws ++ [32]) = 1023%nat)
    (Hbuf : length buf = BUFFER_MAX)
    (Hin : delivers (s_in s) (frame (line c ws ++ [32]) ++ rest)) :
  serve xload (S f) s buf w = Fault OutOfBounds.
Proof.
  destruct (serve_frame xload f s buf w (line c ws ++ [32]) rest) as (ins & _ & E);
    [unfold BUFFER_MAX in *; lia|done|done|].
  cbn zeta in E. rewrite E. rewrite drop_ge by (unfold BUFFER_MAX in *; lia).
  unfold execute, tokenize_buf. rewrite <- app_assoc. cbn [app].
  pose proof (tokenize_trailing_space ws c (S (length (line c ws ++ [32; 0]))) [] 0 [0%nat]) as H.
  cbn [app length] in H. rewrite H; [done| |done|lia|].
  - by destruct Hc.
  - rewrite length_app. simpl. lia.
Qed.
End Boundaries.

(** ** The theorems at work *)

Definition demo_xload (p q r : cstr) (w : list (list cstr)) : Z * list (list cstr) :=
  (4, w ++ [[p; q; r]]).

Ltac word_ok_tac := split; [done|]; repeat constructor; done.

Lemma serve_session_witness :
  let cs := [(lit "ping", []); (lit "xload", [lit "a"; lit "b"; lit "c"])] in
  let s := mkSock [RIntr; RData [4]; RData (0 :: lit "pin"); RData (lit "g" ++ [11; 0]);
                   RData (lit "xload a b c")] [WAccept 1; WIntr] [] in
  exists s' buf', serve demo_xload 3 s (replicate 1024 7) [] =
      Done (s', buf', [[lit "a"; lit "b"; lit "c"]]) /\
    s_sent s' = [] ++ (reply_frame 0 ++ reply_frame 4) /\ length buf' = BUFFER_MAX.
Proof.
  intros cs s. apply (serve_session demo_xload cs s (replicate 1024 7) []).
  - unfold cmd_ok, cs, TOKEN_MAX, BUFFER_MAX. repeat constructor; simpl; try done; lia.
  - done.
  - repeat constructor; done.
  - split; [repeat constructor; done|reflexivity].
Defined.

Lemma accept_loop_terminates_witness :
  accept_loop demo_xload 40 [None; Some (mkSock [RData (lit "anything at all")] [] [])]
    (replicate 1024 1) [] <> Fault OutOfFuel.
Proof. apply accept_loop_terminates. constructor; [done|]. constructor; [simpl; lia|constructor]. Defined.

Lemma serve_reply_overflow_witness :
  serve demo_xload 1 (mkSock [RData (frame (replicate 1023 65))] [] []) (replicate 1024 0) [] =
  Fault OutOfBounds.
Proof.
  apply (serve_reply_overflow demo_xload 0 _ _ _ (replicate 1023 65) []); try done.
  - split; [done|]. apply Forall_replicate. done.
  - unfold BUFFER_MAX. rewrite length_replicate. lia.
  - split; [repeat constructor|]. by vm_compute.
Defined.

Lemma serve_trailing_space_overread_witness :
  serve demo_xload 1 (mkSock [RData (frame (replicate 1022 65 ++ [32]))] [] [])
    (replicate 1024 0) [] = Fault OutOfBounds.
Proof.
  apply (serve_trailing_space_overread demo_xload 0 _ _ _ (replicate 1022 65) [] []); try done.
  - split; [done|]. apply Forall_replicate. done.
  - unfold TOKEN_MAX. simpl. lia.
  - split; [repeat constructor|]. by vm_compute.
Defined.
