(* ===== verification/Injector.v ===== *)
(** * Injector: loading a library into a running process
      (xloaderFramework/xloaderd/xloader.c)

    The injector attaches to the target with ptrace, makes it call [mmap],
    [dlopen], [dlsym], the entry function and [dlclose] by setting its registers
    and letting it run into a return address of zero, and puts the registers
    back.  The kernel is an interface, the class [Kernel]: one operation per
    system call the code makes.  The build is the one of Android.mk
    ([-DMODE_XPOSED -DDEBUG]) for ARM; a register holds its 32-bit pattern. *)

From S2P Require Import Prelude CLib.

(** ** The kernel *)

Class Kernel (K : Type) := {
  k_attach : Z -> K -> Z * K;
  k_detach : Z -> K -> Z * K;
  k_getregs : Z -> K -> Z * list Z * K;      (* PTRACE_GETREGS: status and uregs *)
  k_setregs : Z -> list Z -> K -> Z * K;
  k_cont : Z -> K -> Z * K;
  k_peek : Z -> Z -> K -> Z * K;             (* PTRACE_PEEKTEXT: the word *)
  k_poke : Z -> Z -> Z -> K -> Z * K;
  k_waitpid : Z -> K -> Z * K;               (* the status waitpid stores *)
  k_maps : Z -> K -> option (list Z);        (* contents of /proc/pid/maps; self below 0 *)
  k_procdir : K -> option (list cstr);       (* the names in /proc *)
  k_cmdline : Z -> K -> option (list Z);
  k_stat : cstr -> K -> Z
}.

(** The addresses of the loader's own copies of the functions it calls in the
    target. *)
Record locals := mkLocals {
  l_mmap : Z; l_dlopen : Z; l_dlsym : Z; l_dlclose : Z; l_dlerror : Z
}.

(** Error numbers of xloader.h. *)
Definition SUCCESS : Z := 0.
Definition ERROR_XLOADER_CLIENT_NOT_FOUND : Z := 1.
Definition ERROR_XLOADER_BRIDEG_NOT_FOUND : Z := 2.
Definition ERROR_XLOADER_MODULE_NOT_FOUND : Z := 3.
Definition ERROR_XLOADER_PROCESS_NOT_FOUND : Z := 4.
Definition ERROR_XLOADER_PROCESS_LOADED : Z := 5.
Definition ERROR_XLOADER_PTRACE_FAILED : Z := 6.
Definition ERROR_XLOADER_MMAP_FAILED : Z := 7.
Definition ERROR_XLOADER_REMOTE_CALL_FAILED : Z := 8.
Definition ERROR_XLOADER_DL_NOT_LOADED : Z := 8.
Definition ERROR_XLOADER_DLOPEN_FAILED : Z := 9.
Definition ERROR_XLOADER_DLERROR_FAILED : Z := 10.
Definition ERROR_XLOADER_DLSYM_FAILED : Z := 11.

Definition CLIENT_PATH_CURRENT := lit "/system/lib/libclient.so".
Definition CLIENT_ENTRY_FUNC := lit "client_entry".
Definition BRIDGE_PATH_CURRENT := lit "/system/framework/XposedBridge.jar".
Definition BRIDGE_LIB_PATH_CURRENT := lit "/system/lib/libxposed.so".
Definition STR_LEN_LIMIT : nat := 256.

Definition libc_path := lit "/system/lib/libc.so".
Definition linker_path := lit "/system/bin/linker".
Definition CPSR_T_MASK : Z := Z.shiftl 1 5.

(** The ARM register file of [struct pt_regs]. *)
Definition ARM_r0 : nat := 0.
Definition ARM_sp : nat := 13.
Definition ARM_lr : nat := 14.
Definition ARM_pc : nat := 15.
Definition ARM_cpsr : nat := 16.

Definition reg (regs : list Z) (r : nat) : Z := nth r regs 0.

Definition FUNCTION_NAME_ADDR_OFFSET : Z := 0x100.
Definition FUNCTION_PARAM_ADDR_OFFSET : Z := 0x200.

(** PROT_READ|PROT_WRITE|PROT_EXEC, MAP_ANONYMOUS|MAP_PRIVATE and bionic's
    RTLD_NOW|RTLD_GLOBAL. *)
Definition MMAP_PROT : Z := 7.
Definition MMAP_FLAGS : Z := 0x22.
Definition DLOPEN_FLAGS : Z := 2.

(** The status of a process stopped by SIGSEGV. *)
Definition STOPPED_SEGV : Z := 0xb7f.

Section Injector.
Context {K : Type} `{Kernel K}.

Definition kop {A} (f : K -> A * K) : prog K A := fun k => Done (f k).
Definition kread {A} (f : K -> A) : prog K A := fun k => Done (f k, k).

(** ** Registers *)

Definition ptrace_getregs (pid : Z) (regs : list Z) : prog K (Z * list Z) :=
  '(rc, regs') ← kop (k_getregs pid);
  if rc <? 0 then mret (-1, regs) else mret (0, regs').

Definition ptrace_setregs (pid : Z) (regs : list Z) : prog K Z :=
  rc ← kop (k_setregs pid regs);
  if rc <? 0 then mret (-1) else mret 0.

Definition ptrace_continue (pid : Z) : prog K Z :=
  rc ← kop (k_cont pid);
  if rc <? 0 then mret (-1) else mret 0.

(** ** Memory, one word at a time *)

Fixpoint read_words (pid src : Z) (j : nat) : prog K (list Z) :=
  match j with
  | O => mret []
  | S j' =>
      d ← kop (k_peek pid src);
      rest ← read_words pid (src + 4) j';
      mret (le_bytes 4 d ++ rest)
  end.

Definition ptrace_readdata (pid src : Z) (size : nat) : prog K (Z * list Z) :=
  let j := (size / 4)%nat in
  let remain := (size mod 4)%nat in
  words ← read_words pid src j;
  if (0 <? remain)%nat then
    d ← kop (k_peek pid (src + 4 * Z.of_nat j));
    mret (0, words ++ take remain (le_bytes 4 d))
  else mret (0, words).

(** Writes [j] words; the bytes left over are returned. *)
Fixpoint write_words (pid dest : Z) (data : list Z) (j : nat) {struct j} : prog K (list Z) :=
  match j with
  | O => mret data
  | S j' =>
      match data with
      | a :: b :: c :: d :: data' =>
          _ ← kop (k_poke pid dest (of_le [a; b; c; d]));
          write_words pid (dest + 4) data' j'
      | _ => pfault OutOfBounds
      end
  end.

Definition ptrace_writedata (pid dest : Z) (data : list Z) (size : nat) : prog K Z :=
  let j := (size / 4)%nat in
  let remain := (size mod 4)%nat in
  laddr ← write_words pid dest data j;
  if (0 <? remain)%nat then
    let dest' := dest + 4 * Z.of_nat j in
    d ← kop (k_peek pid dest');
    if (remain <=? length laddr)%nat then
      _ ← kop (k_poke pid dest' (of_le (take remain laddr ++ drop remain (le_bytes 4 d))));
      mret 0
    else pfault OutOfBounds
  else mret 0.

(** ** Calling a function of the target *)

Fixpoint set_params (regs : list Z) (i : nat) (params : list Z) : list Z :=
  match params with
  | [] => regs
  | p :: params' =>
      if (i <? 4)%nat then set_params (<[i := u32 p]> regs) (S i) params' else regs
  end.

Definition longs (l : list Z) : list Z := concat (map (le_bytes 4) l).

Fixpoint wait_stop (fuel : nat) (pid stat : Z) : prog K Z :=
  match fuel with
  | O => pfault OutOfFuel
  | S f =>
      if stat =? STOPPED_SEGV then mret 0
      else
        rc ← ptrace_continue pid;
        if rc =? -1 then mret (-1)
        else st ← kop (k_waitpid pid); wait_stop f pid st
  end.

(** The registers the target starts the call with, the stack having been
    filled below its pointer. *)
Definition call_regs (addr : Z) (regs : list Z) : list Z :=
  let regs := <[ARM_pc := addr]> regs in
  let regs :=
    if negb (Z.land (reg regs ARM_pc) 1 =? 0) then
      <[ARM_cpsr := Z.lor (reg regs ARM_cpsr) CPSR_T_MASK]>
        (<[ARM_pc := Z.land (reg regs ARM_pc) (u32 (Z.lnot 1))]> regs)
    else
      <[ARM_cpsr := Z.land (reg regs ARM_cpsr) (u32 (Z.lnot CPSR_T_MASK))]> regs in
  <[ARM_lr := 0]> regs.

(** The first half of [ptrace_call]: arguments into r0-r3 and onto the stack,
    then the registers for the jump. *)
Definition prepare_call (pid addr : Z) (params regs : list Z) : prog K (list Z) :=
  let num_params := length params in
  let i := Nat.min num_params 4 in
  let regs := set_params regs 0 params in
  regs ← (if (i <? num_params)%nat then
            let bytes := (4 * (num_params - i))%nat in
            let regs := <[ARM_sp := u32 (reg regs ARM_sp - Z.of_nat bytes)]> regs in
            _ ← ptrace_writedata pid (reg regs ARM_sp) (longs (drop i params)) bytes;
            mret regs
          else mret regs);
  mret (call_regs addr regs).

Definition ptrace_call (fuel : nat) (pid addr : Z) (params regs : list Z)
    : prog K (Z * list Z) :=
  regs ← prepare_call pid addr params regs;
  e1 ← ptrace_setregs pid regs;
  if e1 =? -1 then mret (-1, regs)
  else
    e2 ← ptrace_continue pid;
    if e2 =? -1 then mret (-1, regs)
    else
      stat ← kop (k_waitpid pid);
      rc ← wait_stop fuel pid stat;
      mret (rc, regs).

Definition ptrace_attach (pid : Z) : prog K Z :=
  rc ← kop (k_attach pid);
  if rc <? 0 then mret (-1)
  else _ ← kop (k_waitpid pid); mret 0.

Definition ptrace_detach (pid : Z) : prog K Z :=
  rc ← kop (k_detach pid);
  if rc <? 0 then mret (-1) else mret 0.

Definition ptrace_retval (regs : list Z) : Z := reg regs ARM_r0.
Definition ptrace_ip (regs : list Z) : Z := reg regs ARM_pc.

Definition ptrace_call2 (fuel : nat) (pid func_addr : Z) (params regs : list Z)
    : prog K (Z * list Z) :=
  '(rc, regs) ← ptrace_call fuel pid func_addr params regs;
  if rc =? -1 then mret (-1, regs)
  else
    '(rc, regs) ← ptrace_getregs pid regs;
    if rc =? -1 then mret (-1, regs) else mret (0, regs).

(** ** Finding modules and processes *)

(** The [while (fgets ...)] loop over the maps file. *)
Fixpoint scan_maps (fuel : nat) (file : list Z) (module_name : cstr) : cres Z :=
  match fuel with
  | O => Fault OutOfFuel
  | S f =>
      match fgets 1024 file with
      | None => Done 0
      | Some (raw, file') =>
          line ← c_str (raw ++ [0]);
          if strstr line module_name then
            match strtok_first line 45 with
            | None => Fault NullDeref
            | Some pch =>
                let addr := strtoul16 pch in
                Done (if addr =? 0x8000 then 0 else addr)
            end
          else scan_maps f file' module_name
      end
  end.

Definition get_module_base (pid : Z) (module_name : cstr) : prog K Z :=
  fp ← kread (k_maps pid);
  match fp with
  | None => mret 0
  | Some file => plift (scan_maps (S (length file)) file module_name)
  end.

Definition get_remote_addr (pid : Z) (module_name : cstr) (local_addr : Z) : prog K Z :=
  local_handle ← get_module_base (-1) module_name;
  remote_handle ← get_module_base pid module_name;
  mret (u32 (u32 local_addr + u32 remote_handle - u32 local_handle)).

(** The loop over /proc; [cmdline] is the array of the C code, which keeps the
    text of the process before when a command line is empty. *)
Fixpoint find_pid_loop (k : K) (names : list cstr) (process_name : cstr) (cmdline : list Z)
    : cres Z :=
  match names with
  | [] => Done (-1)
  | d_name :: names' =>
      let id := atoi d_name in
      if id =? 0 then find_pid_loop k names' process_name cmdline
      else
        match k_cmdline id k with
        | None => find_pid_loop k names' process_name cmdline
        | Some content =>
            let cmdline' := match fgets 256 content with
                            | Some (raw, _) => raw ++ [0]
                            | None => cmdline
                            end in
            s ← c_str cmdline';
            if streq process_name s then Done id
            else find_pid_loop k names' process_name cmdline'
        end
  end.

Definition find_pid_of (process_name : option cstr) (cmdline0 : list Z) : prog K Z :=
  match process_name with
  | None => mret (-1)
  | Some name =>
      dir ← kread k_procdir;
      match dir with
      | None => mret (-1)
      | Some names => k ← kread (fun k => k); plift (find_pid_loop k names name cmdline0)
      end
  end.

(** ** The injection *)

Variable L : locals.
Variable fuel : nat.

(** A string argument as the bytes handed to [ptrace_writedata]. *)
Definition zstr (s : cstr) : list Z := s ++ [0].

(** The [dlerror] round after a NULL handle: the status it ends with. *)
Definition report_dlerror (pid dlerror_addr : Z) (regs : list Z) (code : Z) : prog K Z :=
  '(rc, regs) ← ptrace_call2 fuel pid dlerror_addr [] regs;
  if rc =? -1 then mret (- ERROR_XLOADER_DLERROR_FAILED)
  else
    _ ← ptrace_readdata pid (ptrace_retval regs) 127;
    mret (- code).

(** From the entry call to the label [exit_regs]. *)
Definition call_entry (pid map_base sohandle entry : Z) (param : list Z) (regs : list Z)
    : prog K Z :=
  _ ← ptrace_writedata pid (map_base + FUNCTION_PARAM_ADDR_OFFSET) param (length param);
  '(rc, regs) ← ptrace_call2 fuel pid entry [map_base + FUNCTION_PARAM_ADDR_OFFSET] regs;
  if rc =? -1 then mret (- ERROR_XLOADER_REMOTE_CALL_FAILED)
  else
    let ret := s32 (ptrace_retval regs) in
    '(rc, regs) ← ptrace_call2 fuel pid (u32 (l_dlclose L)) [sohandle] regs;
    if rc =? -1 then mret (- ERROR_XLOADER_REMOTE_CALL_FAILED)
    else mret ret.

(** From the [dlopen] call on. *)
Definition load_and_call (pid map_base dlopen_addr dlsym_addr dlerror_addr : Z)
    (library_path function_name : cstr) (param regs : list Z) : prog K Z :=
  _ ← ptrace_writedata pid map_base (zstr library_path) (length library_path + 1);
  '(rc, regs) ← ptrace_call2 fuel pid dlopen_addr [map_base; DLOPEN_FLAGS] regs;
  if rc =? -1 then mret (- ERROR_XLOADER_REMOTE_CALL_FAILED)
  else
    let sohandle := ptrace_retval regs in
    if sohandle =? 0 then report_dlerror pid dlerror_addr regs ERROR_XLOADER_DLOPEN_FAILED
    else
      _ ← ptrace_writedata pid (map_base + FUNCTION_NAME_ADDR_OFFSET) (zstr function_name)
            (length function_name + 1);
      '(rc, regs) ← ptrace_call2 fuel pid dlsym_addr
                      [sohandle; map_base + FUNCTION_NAME_ADDR_OFFSET] regs;
      if rc =? -1 then mret (- ERROR_XLOADER_REMOTE_CALL_FAILED)
      else
        let client_entry_addr := ptrace_retval regs in
        if client_entry_addr =? 0
        then report_dlerror pid dlerror_addr regs ERROR_XLOADER_DLSYM_FAILED
        else call_entry pid map_base sohandle client_entry_addr param regs.

(** Everything between [ptrace_getregs] and the label [exit_regs]. *)
Definition traced_body (pid : Z) (library_path function_name : cstr) (param regs : list Z)
    : prog K Z :=
  mmap_addr ← get_remote_addr pid libc_path (l_mmap L);
  '(rc, regs) ← ptrace_call2 fuel pid mmap_addr [0; 0x4000; MMAP_PROT; MMAP_FLAGS; 0; 0] regs;
  if rc =? -1 then mret (- ERROR_XLOADER_MMAP_FAILED)
  else
    let map_base := ptrace_retval regs in
    dlopen_addr ← get_remote_addr pid linker_path (l_dlopen L);
    dlsym_addr ← get_remote_addr pid linker_path (l_dlsym L);
    dlclose_addr ← get_remote_addr pid linker_path (l_dlclose L);
    dlerror_addr ← get_remote_addr pid linker_path (l_dlerror L);
    if (dlopen_addr =? 0) || (dlsym_addr =? 0) || (dlclose_addr =? 0) || (dlerror_addr =? 0)
    then mret (- ERROR_XLOADER_DL_NOT_LOADED)
    else load_and_call pid map_base dlopen_addr dlsym_addr dlerror_addr
           library_path function_name param regs.

Definition trace_remote_process (pid : Z) (library_path function_name : cstr) (param : list Z)
    : prog K Z :=
  remote_library ← get_module_base pid library_path;
  if negb (remote_library =? 0) then mret ERROR_XLOADER_PROCESS_LOADED
  else
    a ← ptrace_attach pid;
    if a =? -1 then mret (- ERROR_XLOADER_PTRACE_FAILED)
    else
      '(g, regs) ← ptrace_getregs pid (replicate 18 0);
      if g =? -1 then
        _ ← ptrace_detach pid; mret (- ERROR_XLOADER_PTRACE_FAILED)
      else
        let original_regs := regs in
        ret ← traced_body pid library_path function_name param regs;
        _ ← ptrace_setregs pid original_regs;
        _ ← ptrace_detach pid;
        mret ret.

(** The argument block copied into the target. *)
Definition XloaderInfo (packageName bridgePath modulePath : cstr) : list Z :=
  strncpy packageName STR_LEN_LIMIT ++ strncpy bridgePath STR_LEN_LIMIT ++
  strncpy modulePath STR_LEN_LIMIT.

Definition xload (packageName : cstr) (processName : option cstr) (modulePath : cstr)
    (cmdline0 : list Z) : prog K Z :=
  st ← kread (k_stat CLIENT_PATH_CURRENT);
  if st <? 0 then mret (- ERROR_XLOADER_CLIENT_NOT_FOUND) else
  st ← kread (k_stat BRIDGE_PATH_CURRENT);
  if st <? 0 then mret (- ERROR_XLOADER_BRIDEG_NOT_FOUND) else
  st ← kread (k_stat BRIDGE_LIB_PATH_CURRENT);
  if st <? 0 then mret (- ERROR_XLOADER_BRIDEG_NOT_FOUND) else
  st ← kread (k_stat modulePath);
  if st <? 0 then mret (- ERROR_XLOADER_MODULE_NOT_FOUND) else
  target_pid ← find_pid_of (match processName with Some p => Some p | None => Some packageName end)
                 cmdline0;
  if -1 =? target_pid then mret ERROR_XLOADER_PROCESS_NOT_FOUND
  else trace_remote_process target_pid CLIENT_PATH_CURRENT CLIENT_ENTRY_FUNC
         (XloaderInfo packageName BRIDGE_PATH_CURRENT modulePath).

End Injector.

(** ** Memory transfers

    What PTRACE_PEEKTEXT and PTRACE_POKETEXT do to the bytes of the target.  They
    fail, with an answer about which nothing is assumed, for a word that is not
    mapped as a whole. *)

Class MemLaws (K : Type) `{Kernel K} := {
  mapped : Z -> K -> Z -> Prop;
  byte_at : Z -> K -> Z -> Z;
  mapped_range : forall pid k a, mapped pid k a -> in_u 32 a;
  byte_at_ok : forall pid k a, byte_ok (byte_at pid k a);
  peek_bytes : forall pid a k, (forall x, a <= x < a + 4 -> mapped pid k x) ->
    le_bytes 4 (fst (k_peek pid a k)) =
      [byte_at pid k a; byte_at pid k (a + 1); byte_at pid k (a + 2); byte_at pid k (a + 3)];
  peek_same : forall pid a k x, byte_at pid (snd (k_peek pid a k)) x = byte_at pid k x;
  peek_mapped : forall pid a k x, mapped pid (snd (k_peek pid a k)) x <-> mapped pid k x;
  poke_bytes : forall pid a v k x, (forall x, a <= x < a + 4 -> mapped pid k x) ->
    byte_at pid (snd (k_poke pid a v k)) x =
      if (a <=? x) && (x <? a + 4) then nth (Z.to_nat (x - a)) (le_bytes 4 v) 0
      else byte_at pid k x;
  poke_mapped : forall pid a v k x, mapped pid (snd (k_poke pid a v k)) x <-> mapped pid k x
}.

Section Memory.
Context {K : Type} `{MemLaws K}.

(** The addresses [a .. a + n - 1] are mapped; a transfer of [n] bytes accesses
    whole words. *)
Definition region (pid : Z) (k : K) (a : Z) (n : nat) : Prop := forall x, a <= x < a + Z.of_nat n -> mapped pid k x.
Definition words_of (n : nat) : nat := 4 * ((n + 3) / 4).
Definition same_map (pid : Z) (k k' : K) : Prop := forall x, mapped pid k' x <-> mapped pid k x.
Lemma region_part pid k a n b m : region pid k a n -> a <= b -> b + Z.of_nat m <= a + Z.of_nat n -> region pid k b m.
Proof. intros Hr Ha Hb x Hx. apply Hr. lia. Qed.
Lemma region_same pid k k' a n : same_map pid k k' -> region pid k a n -> region pid k' a n.
Proof. intros Hs Hr x Hx. by apply Hs, Hr. Qed.
Lemma same_map_trans pid k1 k2 k3 : same_map pid k1 k2 -> same_map pid k2 k3 -> same_map pid k1 k3.
Proof. intros H1 H2 x. by rewrite (H2 x), (H1 x). Qed.
Lemma words_of_mod n : (0 < n mod 4)%nat -> words_of n = (4 * (n / 4) + 4)%nat.
Proof.
  intros Hm. unfold words_of. pose proof (Nat.div_mod_eq n 4). pose proof (Nat.mod_upper_bound n 4 ltac:(lia)).
  replace (n + 3)%nat with ((n / 4 + 1) * 4 + (n mod 4 - 1))%nat by lia. rewrite Nat.div_add_l, (Nat.div_small (n mod 4 - 1)) by lia. lia.
Qed.
Lemma words_of_words j : words_of (4 * j) = (4 * j)%nat.
Proof. unfold words_of. replace (4 * j + 3)%nat with (j * 4 + 3)%nat by lia. rewrite Nat.div_add_l by lia. cbn. lia. Qed.
Lemma words_of_le n : (n <= words_of n)%nat.
Proof. unfold words_of. pose proof (Nat.div_mod_eq (n + 3) 4). pose proof (Nat.mod_upper_bound (n + 3) 4 ltac:(lia)). lia. Qed.

(** The bytes at [a .. a + n - 1]. *)
Fixpoint bytes_at (pid : Z) (k : K) (a : Z) (n : nat) : list Z :=
  match n with
  | O => []
  | S n' => byte_at pid k a :: bytes_at pid k (a + 1) n'
  end.

Lemma bytes_at_ext pid k1 k2 a n :
  (forall x, a <= x < a + Z.of_nat n -> byte_at pid k1 x = byte_at pid k2 x) ->
  bytes_at pid k1 a n = bytes_at pid k2 a n.
Proof.
  revert a. induction n as [|n IH]; intros a Hx; cbn [bytes_at]; [done|].
  f_equal; [apply Hx; lia|]. apply IH. intros. apply Hx. lia.
Qed.

Lemma bytes_at_app pid k a n m :
  bytes_at pid k a (n + m) = bytes_at pid k a n ++ bytes_at pid k (a + Z.of_nat n) m.
Proof.
  revert a. induction n as [|n IH]; intros a; cbn [bytes_at Nat.add app].
  - by rewrite Z.add_0_r.
  - rewrite IH. do 3 f_equal. lia.
Qed.

Lemma bytes_at_length pid k a n : length (bytes_at pid k a n) = n.
Proof. revert a. induction n; intros; simpl; auto. Qed.

Lemma bytes_at_4 pid k a :
  bytes_at pid k a 4 = [byte_at pid k a; byte_at pid k (a + 1); byte_at pid k (a + 2); byte_at pid k (a + 3)].
Proof. cbn [bytes_at]. by rewrite <- !Z.add_assoc. Qed.

Lemma read_words_spec pid src j k : region pid k src (4 * j) ->
  exists k', read_words pid src j k = Done (bytes_at pid k src (4 * j), k') /\
    (forall x, byte_at pid k' x = byte_at pid k x) /\ same_map pid k k'.
Proof.
  revert src k. induction j as [|j IH]; intros src k Hr.
  - by exists k.
  - cbn [read_words]. unfold mbind, prog_bind, kop, mret, prog_ret.
    destruct (k_peek pid src k) as [d k1] eqn:E.
    assert (d = fst (k_peek pid src k)) as Ed by by rewrite E.
    assert (k1 = snd (k_peek pid src k)) as Ek by by rewrite E.
    assert (same_map pid k k1) as Hs by (intros x; rewrite Ek; apply peek_mapped).
    destruct (IH (src + 4) k1) as (k2 & E2 & H2 & H3); [apply (region_same _ k), (region_part _ _ src (4 * S j)); [done..|lia|lia]|]. rewrite E2.
    exists k2. split_and!.
    + f_equal. f_equal. replace (4 * S j)%nat with (4 + 4 * j)%nat by lia.
      rewrite bytes_at_app, bytes_at_4, Ed, peek_bytes; [|intros; apply Hr; lia]. f_equal.
      apply bytes_at_ext. intros. rewrite Ek. apply peek_same.
    + intros x. rewrite H2, Ek. apply peek_same.
    + by eapply same_map_trans.
Qed.

Lemma take_le_peek pid a k r : region pid k a 4 ->
  (r <= 4)%nat -> take r (le_bytes 4 (fst (k_peek pid a k))) = bytes_at pid k a r.
Proof.
  intros Hm Hr. rewrite peek_bytes, <- bytes_at_4 by (intros; apply Hm; lia). replace 4%nat with (r + (4 - r))%nat by lia.
  rewrite bytes_at_app. rewrite <- (bytes_at_length pid k a r) at 1. apply take_app_length.
Qed.

Lemma ptrace_readdata_spec pid src size k : region pid k src (words_of size) ->
  exists k', ptrace_readdata pid src size k = Done ((0, bytes_at pid k src size), k') /\
    (forall x, byte_at pid k' x = byte_at pid k x).
Proof.
  intros Hreg. pose proof (words_of_le size) as Hw.
  unfold ptrace_readdata. pose proof (Nat.div_mod_eq size 4) as Hd.
  pose proof (Nat.mod_upper_bound size 4 ltac:(lia)) as Hm.
  destruct (read_words_spec pid src (size / 4) k) as (k1 & E1 & H1 & H2); [apply (region_part _ _ src (words_of size)); [done|lia|lia]|].
  unfold mbind, prog_bind. rewrite E1.
  destruct (Nat.ltb_spec 0 (size mod 4)) as [Hpos|].
  - unfold kop. set (a := src + 4 * Z.of_nat (size / 4)).
    assert (region pid k1 a 4) as Ha.
    { apply (region_same _ k), (region_part _ _ src (words_of size)); [done..|unfold a; lia|]. rewrite words_of_mod by done. unfold a. lia. }
    destruct (k_peek pid a k1) as [d k2] eqn:E2. exists k2. split.
    + unfold mret, prog_ret. do 3 f_equal.
      replace (bytes_at pid k src size) with (bytes_at pid k src (4 * (size / 4) + size mod 4))
        by (f_equal; lia).
      rewrite bytes_at_app. f_equal.
      replace d with (fst (k_peek pid a k1)) by by rewrite E2.
      rewrite take_le_peek by (done || lia). rewrite (bytes_at_ext pid k1 k) by auto.
      unfold a. f_equal. lia.
    + intros x. rewrite <- H1. replace k2 with (snd (k_peek pid a k1)) by by rewrite E2.
      apply peek_same.
  - exists k1. split; [|done]. unfold mret, prog_ret. do 4 f_equal. lia.
Qed.

(** The bytes after a transfer of [data] to [dest]. *)
Definition written (pid : Z) (k k' : K) (dest : Z) (data : list Z) : Prop :=
  forall x, byte_at pid k' x =
    if (dest <=? x) && (x <? dest + Z.of_nat (length data))
    then nth (Z.to_nat (x - dest)) data 0 else byte_at pid k x.

Lemma written_nil pid k dest : written pid k k dest [].
Proof. intros x. cbn [length]. destruct (_ && _) eqn:E; [bool_lia|done]. Qed.

Lemma written_app pid k1 k2 k3 dest d1 d2 :
  written pid k1 k2 dest d1 -> written pid k2 k3 (dest + Z.of_nat (length d1)) d2 ->
  written pid k1 k3 dest (d1 ++ d2).
Proof.
  intros H1 H2 x. rewrite H2, H1, length_app.
  destruct ((dest + _ <=? x) && _) eqn:E2.
  - rewrite (proj2 (andb_true_iff _ _)) by (split; bool_lia).
    rewrite app_nth2 by bool_lia. f_equal. bool_lia.
  - destruct ((dest <=? x) && _) eqn:E1.
    + rewrite (proj2 (andb_true_iff _ _)) by (split; bool_lia).
      rewrite app_nth1 by bool_lia. done.
    + by rewrite (proj2 (andb_false_iff _ _)) by bool_lia.
Qed.

Lemma poke_written pid k a bs : region pid k a 4 ->
  length bs = 4%nat -> Forall byte_ok bs ->
  written pid k (snd (k_poke pid a (of_le bs) k)) a bs.
Proof.
  intros Hr Hl Hb x. rewrite poke_bytes, Hl by (intros; apply Hr; lia).
  assert (le_bytes 4 (of_le bs) = bs) as -> by (rewrite <- Hl; by apply le_bytes_of_le). done.
Qed.

Lemma write_words_spec pid dest data j k : region pid k dest (4 * j) ->
  (4 * j <= length data)%nat -> Forall byte_ok data ->
  exists k', write_words pid dest data j k = Done (drop (4 * j) data, k') /\
    written pid k k' dest (take (4 * j) data) /\ same_map pid k k'.
Proof.
  revert dest data k. induction j as [|j IH]; intros dest data k Hr Hl Hb.
  - exists k. split; [reflexivity|]. split; [apply written_nil|done].
  - destruct data as [|b0 [|b1 [|b2 [|b3 data]]]]; cbn [length] in Hl; try lia.
    cbn [write_words]. unfold mbind, prog_bind, kop.
    destruct (k_poke pid dest (of_le [b0; b1; b2; b3]) k) as [rc k1] eqn:E.
    assert (k1 = snd (k_poke pid dest (of_le [b0; b1; b2; b3]) k)) as Ek by by rewrite E.
    assert (same_map pid k k1) as Hs by (intros x; rewrite Ek; apply poke_mapped).
    apply (Forall_app _ [b0; b1; b2; b3] data) in Hb as [Hb1 Hb2].
    destruct (IH (dest + 4) data k1) as (k2 & E2 & H2 & H3); [apply (region_same _ k), (region_part _ _ dest (4 * S j)); [done..|lia|lia]|lia|done|].
    rewrite E2. exists k2. replace (4 * S j)%nat with (4 + 4 * j)%nat by lia. split; [done|].
    change (take (4 + 4 * j) (b0 :: b1 :: b2 :: b3 :: data)) with
      ([b0; b1; b2; b3] ++ take (4 * j) data).
    split; [|by eapply same_map_trans]. apply written_app with k1; [|exact H2].
    rewrite Ek. apply poke_written; [|done..]. apply (region_part _ _ dest (4 * S j)); [done|lia|lia].
Qed.

(** The word that overlaps the end is read first, so what lies behind the data
    survives the store. *)
Lemma poke_tail pid k a bs r : region pid k a 4 ->
  (r < 4)%nat -> length bs = r -> Forall byte_ok bs ->
  let d := fst (k_peek pid a k) in
  let k1 := snd (k_peek pid a k) in
  written pid k (snd (k_poke pid a (of_le (bs ++ drop r (le_bytes 4 d))) k1)) a bs.
Proof.
  intros Hreg Hr Hl Hb d k1 x.
  assert (length (bs ++ drop r (le_bytes 4 d)) = 4%nat) as Hl4.
  { rewrite length_app, length_drop, le_bytes_length. lia. }
  assert (Forall byte_ok (bs ++ drop r (le_bytes 4 d))) as Hok.
  { apply Forall_app. split; [done|]. apply Forall_drop, le_bytes_ok. }
  assert (region pid k1 a 4) as Hreg1 by (apply (region_same _ k); [intros y; apply peek_mapped|done]).
  rewrite (poke_written pid k1 a _ Hreg1 Hl4 Hok x), Hl4, Hl.
  destruct ((a <=? x) && (x <? a + Z.of_nat 4)) eqn:E4.
  - destruct ((a <=? x) && (x <? a + Z.of_nat r)) eqn:Er.
    + rewrite app_nth1 by bool_lia. done.
    + rewrite app_nth2 by bool_lia. rewrite Hl. unfold d. rewrite peek_bytes, <- bytes_at_4 by (intros; apply Hreg; lia).
      assert (exists i, x = a + Z.of_nat i /\ (r <= i < 4)%nat) as (i & -> & Hi).
      { exists (Z.to_nat (x - a)). bool_lia. }
      replace (Z.to_nat (a + Z.of_nat i - a) - r)%nat with (i - r)%nat by lia.
      rewrite nth_lookup, lookup_drop. replace (r + (i - r))%nat with i by lia.
      do 4 (destruct i as [|i]; [cbn; f_equal; lia|]). lia.
  - rewrite (proj2 (andb_false_iff _ _)) by bool_lia. apply peek_same.
Qed.

Lemma ptrace_writedata_ok pid dest data k : region pid k dest (words_of (length data)) ->
  Forall byte_ok data ->
  exists k', ptrace_writedata pid dest data (length data) k = Done (0, k') /\
    written pid k k' dest data /\ same_map pid k k'.
Proof.
  intros Hreg Hb. unfold ptrace_writedata. set (size := length data) in *.
  pose proof (Nat.div_mod_eq size 4) as Hd. pose proof (words_of_le size) as Hw.
  pose proof (Nat.mod_upper_bound size 4 ltac:(lia)) as Hm.
  destruct (write_words_spec pid dest data (size / 4) k) as (k1 & E1 & H1 & Hs); [apply (region_part _ _ dest (words_of size)); [done|lia|lia]|lia|done|].
  unfold mbind, prog_bind. rewrite E1.
  assert (length (drop (4 * (size / 4)) data) = size mod 4)%nat as Hlen.
  { rewrite length_drop. fold size. lia. }
  destruct (Nat.ltb_spec 0 (size mod 4)) as [Hpos|Hz].
  - unfold kop, mret, prog_ret. set (a := dest + 4 * Z.of_nat (size / 4)).
    assert (region pid k1 a 4) as Ha.
    { apply (region_same _ k), (region_part _ _ dest (words_of size)); [done..|unfold a; lia|]. rewrite words_of_mod by done. unfold a. lia. }
    pose proof (poke_tail pid k1 a (drop (4 * (size / 4)) data) (size mod 4) Ha Hm Hlen) as Ht.
    pose proof (peek_mapped pid a k1) as Hm1. destruct (k_peek pid a k1) as [d k2]. cbn [fst snd] in Ht, Hm1.
    rewrite (proj2 (Nat.leb_le _ _)) by lia.
    rewrite take_ge by lia.
    pose proof (poke_mapped pid a (of_le (drop (4 * (size / 4)) data ++ drop (size mod 4) (le_bytes 4 d))) k2) as Hm2.
    destruct (k_poke _ _ _ k2) as [rc k3]. cbn [snd] in Ht, Hm2.
    exists k3. split; [done|]. split; [|intros x; rewrite Hm2, Hm1; apply Hs]. rewrite <- (take_drop (4 * (size / 4)) data).
    apply written_app with k1; [done|].
    replace (dest + Z.of_nat (length (take (4 * (size / 4)) data))) with a
      by (rewrite length_take; fold size; unfold a; lia).
    apply Ht. by apply Forall_drop.
  - exists k1. split; [done|]. split; [|done]. rewrite take_ge in H1 by (fold size; lia). exact H1.
Qed.

Lemma written_bytes_at pid k k' dest data :
  written pid k k' dest data -> bytes_at pid k' dest (length data) = data.
Proof.
  intros Hw. apply list_eq. intros i.
  assert (forall n a i, (i < n)%nat -> bytes_at pid k' a n !! i = Some (byte_at pid k' (a + Z.of_nat i))) as Hb.
  { induction n as [|n IH]; intros a j Hj; [lia|]. destruct j as [|j]; cbn [bytes_at lookup list_lookup].
    - by rewrite Z.add_0_r.
    - rewrite IH by lia. do 2 f_equal. lia. }
  destruct (Nat.lt_ge_cases i (length data)) as [Hi|Hi].
  - rewrite Hb by done. rewrite Hw, (proj2 (andb_true_iff _ _)) by (split; bool_lia).
    replace (Z.to_nat (dest + Z.of_nat i - dest)) with i by lia.
    destruct (lookup_lt_is_Some_2 data i Hi) as [y Hy]. rewrite Hy. f_equal.
    by apply nth_lookup_Some.
  - rewrite !lookup_ge_None_2; rewrite ?bytes_at_length; done.
Qed.

(** C22: data copied into the target arrives and disturbs nothing else.  When the
    words that the transfer touches are mapped, the one at its end included, data of
    any length can be read back, and every byte outside of it, those of the last
    partly written word included, is what it was. *)
Theorem ptrace_write_read pid dest data k (Hdata : Forall byte_ok data)
    (Hmapped : forall x, dest <= x < dest + Z.of_nat (words_of (length data)) -> mapped pid k x) :
  exists k1 k2,
    ptrace_writedata pid dest data (length data) k = Done (0, k1) /\
    ptrace_readdata pid dest (length data) k1 = Done ((0, data), k2) /\
    forall x, ~ (dest <= x < dest + Z.of_nat (length data)) ->
      byte_at pid k2 x = byte_at pid k x.
Proof.
  destruct (ptrace_writedata_ok pid dest data k Hmapped Hdata) as (k1 & E1 & Hw & Hs).
  destruct (ptrace_readdata_spec pid dest (length data) k1 (region_same _ _ _ _ _ Hs Hmapped)) as (k2 & E2 & Hr).
  exists k1, k2. split; [done|]. split.
  - rewrite E2. by rewrite (written_bytes_at pid k k1 dest data Hw).
  - intros x Hx. rewrite Hr, Hw.
    by rewrite (proj2 (andb_false_iff _ _)) by bool_lia.
Qed.

(** ** The calling sequence *)

Lemma reg_insert_eq regs r v : (r < length regs)%nat -> reg (<[r := v]> regs) r = v.
Proof. intros. unfold reg. by rewrite nth_lookup, list_lookup_insert_eq. Qed.

Lemma reg_insert_ne regs r r' v : r <> r' -> reg (<[r := v]> regs) r' = reg regs r'.
Proof. intros. unfold reg. by rewrite !nth_lookup, list_lookup_insert_ne. Qed.

Lemma set_params_length ps regs i : length (set_params regs i ps) = length regs.
Proof.
  revert regs i. induction ps as [|p ps IH]; intros; cbn [set_params]; [done|].
  destruct_if; [|done]. by rewrite IH, length_insert.
Qed.

Lemma set_params_reg ps regs i r :
  (4 <= length regs)%nat ->
  reg (set_params regs i ps) r =
    if (i <=? r)%nat && (r <? 4)%nat && (r <? i + length ps)%nat
    then u32 (nth (r - i) ps 0) else reg regs r.
Proof.
  revert regs i. induction ps as [|p ps IH]; intros regs i Hl; cbn [set_params length].
  - destruct (_ && _) eqn:E; [|done].
    rewrite !andb_true_iff, Nat.leb_le, !Nat.ltb_lt in E. lia.
  - destruct (Nat.ltb_spec i 4) as [Hi|Hi].
    + rewrite IH by (by rewrite length_insert).
      destruct (decide (r = i)) as [->|Hne].
      * rewrite (proj2 (Nat.leb_gt (S i) i)) by lia. cbn [andb].
        rewrite reg_insert_eq by lia.
        rewrite Nat.leb_refl, (proj2 (Nat.ltb_lt i 4)), (proj2 (Nat.ltb_lt i (i + S (length ps)))) by lia.
        cbn [andb]. by rewrite Nat.sub_diag.
      * rewrite reg_insert_ne by done.
        destruct (Nat.leb_spec (S i) r); destruct (Nat.leb_spec i r); try lia; cbn [andb]; [|done].
        replace (i + S (length ps))%nat with (S i + length ps)%nat by lia.
        destruct (_ && _); [|done]. replace (r - i)%nat with (S (r - S i)) by lia. done.
    + destruct (_ && _) eqn:E; [|done].
      rewrite !andb_true_iff, Nat.leb_le, !Nat.ltb_lt in E. lia.
Qed.

Lemma land_even addr : in_u 32 addr -> Z.land addr (u32 (Z.lnot 1)) = 2 * (addr / 2).
Proof.
  intros Ha. unfold in_u in Ha. change (u32 (Z.lnot 1)) with (Z.shiftl (Z.ones 31) 1).
  rewrite Z.mul_comm. change 2 with (2 ^ 1). rewrite <- Z.shiftl_mul_pow2, <- Z.shiftr_div_pow2 by lia.
  apply Z.bits_inj'. intros i Hi. rewrite Z.land_spec, !Z.shiftl_spec by lia.
  destruct (Z.eq_dec i 0) as [->|].
  - rewrite !(Z.testbit_neg_r _ (0 - 1)) by lia. by rewrite andb_false_r.
  - rewrite Z.shiftr_spec, Z.testbit_ones_nonneg by lia.
    replace (i - 1 + 1) with i by lia. destruct (Z.ltb_spec (i - 1) 31); [by rewrite andb_true_r|].
    rewrite andb_false_r. symmetry. destruct (decide (addr = 0)) as [->|]; [apply Z.bits_0|].
    apply Z.bits_above_log2; [lia|]. apply Z.log2_lt_pow2; [lia|].
    pose proof (Z.pow_le_mono_r 2 32 i). lia.
Qed.

Lemma T_MASK_bit b : 0 <= b -> Z.testbit CPSR_T_MASK b = (b =? 5).
Proof.
  intros Hb. unfold CPSR_T_MASK. rewrite Z.shiftl_1_l, Z.pow2_bits_eqb by lia.
  apply Z.eqb_sym.
Qed.

Lemma call_regs_spec addr regs :
  length regs = 18%nat -> in_u 32 addr ->
  let regs' := call_regs addr regs in
  length regs' = 18%nat /\
  reg regs' ARM_pc = 2 * (addr / 2) /\ reg regs' ARM_lr = 0 /\
  (forall b, 0 <= b < 32 -> Z.testbit (reg regs' ARM_cpsr) b =
     if b =? 5 then Z.odd addr else Z.testbit (reg regs ARM_cpsr) b) /\
  (forall r, (r < 14)%nat -> reg regs' r = reg regs r).
Proof.
  intros Hl Ha regs'. subst regs'. unfold call_regs, ARM_pc, ARM_lr, ARM_cpsr.
  rewrite reg_insert_eq by (rewrite ?length_insert; lia).
  assert (Z.land addr 1 = if Z.odd addr then 1 else 0) as Hodd.
  { change 1 with (Z.ones 1) at 1. rewrite Z.land_ones by lia. apply Zmod_odd. }
  rewrite Hodd.
  destruct (Z.odd addr) eqn:Eo; cbn [Z.eqb negb].
  all: rewrite !length_insert; split; [done|].
  all: rewrite !reg_insert_ne by lia; rewrite ?reg_insert_eq by (rewrite ?length_insert; lia).
  all: rewrite ?reg_insert_ne by lia; rewrite ?reg_insert_eq by (rewrite ?length_insert; lia).
  - split; [by apply land_even|]. split; [done|]. split.
    + intros b Hb. rewrite Z.lor_spec, T_MASK_bit by lia. rewrite reg_insert_ne by lia.
      destruct (b =? 5); by rewrite ?orb_true_r, ?orb_false_r.
    + intros r Hr. by rewrite !reg_insert_ne by lia.
  - split; [|split; [done|split]].
    + rewrite (Z.div_mod addr 2) at 1 by lia. rewrite Zmod_odd, Eo. lia.
    + intros b Hb. rewrite Z.land_spec. unfold uwrap. rewrite Z.mod_pow2_bits_low by lia.
      rewrite Z.lnot_spec, T_MASK_bit by lia. rewrite reg_insert_ne by lia.
      destruct (b =? 5); by rewrite ?andb_true_r, ?andb_false_r.
    + intros r Hr. by rewrite !reg_insert_ne by lia.
Qed.

Lemma longs_ok l : Forall byte_ok (longs l).
Proof.
  unfold longs. induction l as [|x l IH]; cbn [map concat]; [constructor|].
  apply Forall_app. split; [apply le_bytes_ok|exact IH].
Qed.

Lemma longs_length l : length (longs l) = (4 * length l)%nat.
Proof.
  unfold longs. induction l as [|x l IH]; cbn [map concat]; [done|].
  rewrite length_app, le_bytes_length, IH. simpl. lia.
Qed.

(** the target is set up for the call the way the ARM procedure call
    standard wants it: the first four arguments in r0-r3, the others on the
    stack in order from the lowered stack pointer up, the program counter at
    the function with the Thumb state taken from the low address bit, a return
    address of zero, all other registers and all other memory as they were.  The
    stack has to be mapped where the arguments go. *)
Theorem prepare_call_aapcs pid addr params regs k
    (Hregs : length regs = 18%nat) (Haddr : in_u 32 addr) (Hsp : in_u 32 (reg regs ARM_sp))
    (Hstack : region pid k (u32 (reg regs ARM_sp - 4 * Z.of_nat (length params - 4))) (4 * (length params - 4))) :
  let n := length params in
  exists regs' k', prepare_call pid addr params regs k = Done (regs', k') /\
    (forall i, (i < n)%nat -> (i < 4)%nat -> reg regs' i = u32 (nth i params 0)) /\
    reg regs' ARM_sp = u32 (reg regs ARM_sp - 4 * Z.of_nat (n - 4)) /\
    bytes_at pid k' (reg regs' ARM_sp) (4 * (n - 4)) = longs (drop 4 params) /\
    reg regs' ARM_pc = 2 * (addr / 2) /\ reg regs' ARM_lr = 0 /\
    (forall b, 0 <= b < 32 -> Z.testbit (reg regs' ARM_cpsr) b =
       if b =? 5 then Z.odd addr else Z.testbit (reg regs ARM_cpsr) b) /\
    (forall r, (n <= r \/ 4 <= r)%nat -> (r < 13)%nat -> reg regs' r = reg regs r) /\
    (forall x, ~ (reg regs' ARM_sp <= x < reg regs' ARM_sp + 4 * Z.of_nat (n - 4)) ->
       byte_at pid k' x = byte_at pid k x).
Proof.
  intros n. unfold prepare_call. fold n.
  assert (length (set_params regs 0 params) = 18%nat) as Hsl by by rewrite set_params_length.
  assert (forall r, reg (set_params regs 0 params) r =
            if (r <? 4)%nat && (r <? n)%nat then u32 (nth r params 0) else reg regs r) as Hpr.
  { intros r. rewrite set_params_reg by lia. cbn [Nat.leb andb Nat.add]. by rewrite Nat.sub_0_r. }
  destruct (Nat.ltb_spec (Nat.min n 4) n) as [Hn|Hn].
  - set (R := <[ARM_sp := _]> (set_params regs 0 params)).
    assert (reg R ARM_sp = u32 (reg regs ARM_sp - 4 * Z.of_nat (n - 4))) as HR.
    { unfold R. rewrite reg_insert_eq by (rewrite Hsl; unfold ARM_sp; lia).
      rewrite Hpr. cbn. do 2 f_equal. lia. }
    replace (drop (Nat.min n 4) params) with (drop 4 params) by (f_equal; lia).
    replace (4 * (n - Nat.min n 4))%nat with (length (longs (drop 4 params)))
      by (rewrite longs_length, length_drop; fold n; lia).
    assert (length (longs (drop 4 params)) = (4 * (n - 4))%nat) as Hll.
    { rewrite longs_length, length_drop. fold n. lia. }
    destruct (ptrace_writedata_ok pid (reg R ARM_sp) (longs (drop 4 params)) k)
      as (k' & Ew & Hw & _); [by rewrite HR, Hll, words_of_words|apply longs_ok|].
    unfold mbind, prog_bind. rewrite Ew.
    destruct (call_regs_spec addr R) as (_ & Hpc & Hlr & Hcpsr & Hother).
    { unfold R. by rewrite length_insert. }
    { done. }
    exists (call_regs addr R), k'. split; [done|].
    rewrite (Hother ARM_sp) by (unfold ARM_sp; lia). split_and!; auto.
    + intros i Hi Hi4. rewrite Hother by lia. unfold R. rewrite reg_insert_ne by (unfold ARM_sp; lia).
      rewrite Hpr. by rewrite (proj2 (Nat.ltb_lt i 4)), (proj2 (Nat.ltb_lt i n)) by lia.
    + rewrite <- Hll. by apply written_bytes_at with k.
    + intros b Hb. rewrite Hcpsr by done. unfold R. rewrite reg_insert_ne by (unfold ARM_sp, ARM_cpsr; lia).
      rewrite Hpr. done.
    + intros r Hr Hr13. rewrite Hother by lia. unfold R. rewrite reg_insert_ne by (unfold ARM_sp; lia).
      rewrite Hpr. destruct (Nat.ltb_spec r 4), (Nat.ltb_spec r n); cbn [andb]; try done; lia.
    + intros x Hx. rewrite Hw. rewrite Hll. by rewrite (proj2 (andb_false_iff _ _)) by bool_lia.
  - unfold mbind, prog_bind, mret, prog_ret.
    destruct (call_regs_spec addr (set_params regs 0 params) Hsl Haddr) as (_ & Hpc & Hlr & Hcpsr & Hother).
    eexists _, k. split; [done|]. replace (n - 4)%nat with 0%nat by lia.
    rewrite (Hother ARM_sp) by (unfold ARM_sp; lia). split_and!; auto.
    + intros i Hi Hi4. rewrite Hother, Hpr by lia.
      by rewrite (proj2 (Nat.ltb_lt i 4)), (proj2 (Nat.ltb_lt i n)) by lia.
    + rewrite Hpr. cbn. rewrite Z.sub_0_r. symmetry. by apply uwrap_small.
    + rewrite drop_ge by lia. done.
    + intros b Hb. rewrite Hcpsr by done. by rewrite Hpr.
    + intros r Hr Hr13. rewrite Hother, Hpr by lia.
      destruct (Nat.ltb_spec r 4), (Nat.ltb_spec r n); cbn [andb]; try done; lia.
Qed.
End Memory.

(** ** Leaving the target as it was

    [kcall] records the calls that change the target's tracing state; [Logged]
    is any kernel with such a record kept next to it. *)

Inductive kcall :=
| CAttach (pid rc : Z)
| CDetach (pid rc : Z)
| CGetregs (pid rc : Z) (regs : list Z)
| CSetregs (pid : Z) (regs : list Z)
| COther.

Section Logging.
Context {K : Type} `{Kernel K}.

Definition log_call {A} (c : A -> kcall) (f : K -> A * K) (s : K * list kcall) : A * (K * list kcall) :=
  let '(k, l) := s in
  let '(a, k') := f k in (a, (k', l ++ [c a])).

#[export] Instance Logged : Kernel (K * list kcall) := {|
  k_attach pid := log_call (fun rc => CAttach pid rc) (k_attach pid);
  k_detach pid := log_call (fun rc => CDetach pid rc) (k_detach pid);
  k_getregs pid := log_call (fun r => CGetregs pid (fst r) (snd r)) (k_getregs pid);
  k_setregs pid regs := log_call (fun _ => CSetregs pid regs) (k_setregs pid regs);
  k_cont pid := log_call (fun _ => COther) (k_cont pid);
  k_peek pid a := log_call (fun _ => COther) (k_peek pid a);
  k_poke pid a v := log_call (fun _ => COther) (k_poke pid a v);
  k_waitpid pid := log_call (fun _ => COther) (k_waitpid pid);
  k_maps pid s := k_maps pid (fst s);
  k_procdir s := k_procdir (fst s);
  k_cmdline pid s := k_cmdline pid (fst s);
  k_stat p s := k_stat p (fst s)
|}.

(** The calls made in between, none of which attaches or detaches. *)
Definition quiet (c : kcall) : bool :=
  match c with
  | CAttach _ _ | CDetach _ _ => false
  | _ => true
  end.

Definition stays (s s' : K * list kcall) : Prop :=
  exists l, snd s' = snd s ++ l /\ forallb quiet l = true.

#[export] Instance stays_preorder : PreOrder stays.
Proof.
  split.
  - intros s. exists []. by rewrite app_nil_r.
  - intros s1 s2 s3 (l1 & E1 & Q1) (l2 & E2 & Q2). exists (l1 ++ l2).
    rewrite E2, E1, forallb_app, Q1, Q2. by rewrite app_assoc.
Qed.

Lemma log_call_stays {A} (c : A -> kcall) (f : K -> A * K) :
  (forall a, quiet (c a) = true) -> keeps stays (kop (log_call c f)).
Proof.
  intros Hq [k l] a [k' l']. unfold kop, log_call. destruct (f k) as [b k1].
  intros [= -> -> <-]. exists [c a]. cbn. by rewrite Hq.
Qed.

Lemma kread_stays {A} (f : K * list kcall -> A) : keeps stays (kread f).
Proof. intros s a s' [= <- <-]. reflexivity. Qed.

Hint Resolve kread_stays : prog.
Hint Extern 0 (keeps stays (kop _)) => apply log_call_stays; done : prog.

Lemma read_words_stays pid src j : keeps stays (read_words pid src j).
Proof. revert src. induction j as [|j IH]; intros src; cbn [read_words]; prog_tac. Qed.

Lemma write_words_stays pid dest data j : keeps stays (write_words pid dest data j).
Proof.
  revert dest data. induction j as [|j IH]; intros dest data; cbn [write_words]; [prog_tac|].
  destruct data as [|? [|? [|? [|? ?]]]]; prog_tac.
Qed.
Hint Resolve read_words_stays write_words_stays : prog.

Lemma readdata_stays pid src size : keeps stays (ptrace_readdata pid src size).
Proof. unfold ptrace_readdata. prog_tac. Qed.

Lemma writedata_stays pid dest data size : keeps stays (ptrace_writedata pid dest data size).
Proof. unfold ptrace_writedata. prog_tac. Qed.

Lemma getregs_stays pid regs : keeps stays (ptrace_getregs pid regs).
Proof. unfold ptrace_getregs. prog_tac. Qed.

Lemma setregs_stays pid regs : keeps stays (ptrace_setregs pid regs).
Proof. unfold ptrace_setregs. prog_tac. Qed.

Lemma continue_stays pid : keeps stays (ptrace_continue pid).
Proof. unfold ptrace_continue. prog_tac. Qed.
Hint Resolve readdata_stays writedata_stays getregs_stays setregs_stays continue_stays : prog.

Lemma wait_stop_stays fuel pid stat : keeps stays (wait_stop fuel pid stat).
Proof. revert stat. induction fuel as [|f IH]; intros stat; cbn [wait_stop]; prog_tac. Qed.
Hint Resolve wait_stop_stays : prog.

Lemma prepare_call_stays pid addr params regs : keeps stays (prepare_call pid addr params regs).
Proof. unfold prepare_call. prog_tac. Qed.
Hint Resolve prepare_call_stays : prog.

Lemma call2_stays fuel pid addr params regs : keeps stays (ptrace_call2 fuel pid addr params regs).
Proof. unfold ptrace_call2, ptrace_call. prog_tac. Qed.

Lemma module_base_stays pid name : keeps stays (get_module_base pid name).
Proof. unfold get_module_base. prog_tac. Qed.
Hint Resolve call2_stays module_base_stays : prog.

Lemma remote_addr_stays pid name a : keeps stays (get_remote_addr pid name a).
Proof. unfold get_remote_addr. prog_tac. Qed.
Hint Resolve remote_addr_stays : prog.

Lemma traced_body_stays L fuel pid lib func param regs :
  keeps stays (traced_body L fuel pid lib func param regs).
Proof. unfold traced_body, load_and_call, call_entry, report_dlerror. prog_tac. Qed.


Lemma module_base_state pid name s v s' : get_module_base pid name s = Done (v, s') -> s' = s.
Proof.
  unfold get_module_base. intros Hb. apply prog_bind_Done in Hb as (fp & s1 & [= <- <-] & Hb).
  cbn [k_maps Logged] in Hb. destruct (k_maps pid s.1) as [file|]; [by apply plift_Done in Hb as [_ ->]|by injection Hb].
Qed.

Lemma setregs_log pid regs k l v s' :
  ptrace_setregs pid regs (k, l) = Done (v, s') ->
  exists k', s' = (k', l ++ [CSetregs pid regs]).
Proof.
  unfold ptrace_setregs, mbind, prog_bind, kop. cbn [k_setregs Logged log_call].
  destruct (k_setregs pid regs k) as [rc k1]. destruct (rc <? 0); intros [= <- <-]; eauto.
Qed.

Lemma detach_log pid k l v s' :
  ptrace_detach pid (k, l) = Done (v, s') ->
  exists k' rc, s' = (k', l ++ [CDetach pid rc]).
Proof.
  unfold ptrace_detach, mbind, prog_bind, kop. cbn [k_detach Logged log_call].
  destruct (k_detach pid k) as [rc k1]. destruct (rc <? 0); intros [= <- <-]; eauto.
Qed.

Lemma attach_log pid k v s' :
  ptrace_attach pid (k, []) = Done (v, s') ->
  exists k' rc, (rc < 0 /\ v = -1 /\ s' = (k', [CAttach pid rc])) \/
                (0 <= rc /\ v = 0 /\ s' = (k', [CAttach pid rc; COther])).
Proof.
  unfold ptrace_attach, mbind, prog_bind, kop. cbn [k_attach Logged log_call].
  destruct (k_attach pid k) as [rc k1]. destruct (Z.ltb_spec rc 0).
  - intros [= <- <-]. eexists _, rc. left. eauto.
  - cbn [k_waitpid Logged log_call]. destruct (k_waitpid pid k1) as [st k2].
    intros [= <- <-]. eexists _, rc. right. eauto.
Qed.

Lemma getregs_log pid regs0 k l v regs s' :
  ptrace_getregs pid regs0 (k, l) = Done ((v, regs), s') ->
  exists k' rc r, s' = (k', l ++ [CGetregs pid rc r]) /\
    ((rc < 0 /\ v = -1) \/ (0 <= rc /\ v = 0 /\ regs = r)).
Proof.
  unfold ptrace_getregs, mbind, prog_bind, kop. cbn [k_getregs Logged log_call].
  destruct (k_getregs pid k) as [[rc r] k1]. cbn [fst snd].
  destruct (Z.ltb_spec rc 0); intros [= <- <- <-]; eauto 10.
Qed.

(** C1: the injector leaves the target as it found it.  Whatever the kernel
    answers, a run of [trace_remote_process] that returns either never became
    the tracer of the target, or attached once; and then, if it could read the
    registers, it last puts back the very registers it had read and
    detaches, having done neither before. *)
Theorem trace_restores_target L fuel pid lib func param k ret k' log
    (Hrun : trace_remote_process L fuel pid lib func param (k, []) = Done (ret, (k', log))) :
  log = [] \/
  (exists rc, rc < 0 /\ log = [CAttach pid rc]) \/
  (exists rc rcg regs rcd, 0 <= rc /\ rcg < 0 /\
     log = [CAttach pid rc; COther; CGetregs pid rcg regs; CDetach pid rcd]) \/
  (exists rc rcg regs body rcd, 0 <= rc /\ 0 <= rcg /\ forallb quiet body = true /\
     log = [CAttach pid rc; COther; CGetregs pid rcg regs] ++ body ++
           [CSetregs pid regs; CDetach pid rcd]).
Proof.
  unfold trace_remote_process in Hrun.
  apply prog_bind_Done in Hrun as (base & s1 & Eb & Hrun). apply module_base_state in Eb as ->.
  destruct (negb _); [injection Hrun; intros; subst; by left|]. right.
  apply prog_bind_Done in Hrun as (a & s2 & Ea & Hrun).
  apply attach_log in Ea as (k2 & rc & [(Hrc & -> & ->)|(Hrc & -> & ->)]).
  { left. exists rc. by injection Hrun as _ _ <-. }
  cbn [Z.eqb] in Hrun. right.
  apply prog_bind_Done in Hrun as ([g regs] & s3 & Eg & Hrun).
  apply getregs_log in Eg as (k3 & rcg & r & -> & [(Hg & ->)|(Hg & -> & ->)]).
  { left. cbn [Z.eqb] in Hrun. apply prog_bind_Done in Hrun as (d & s4 & Ed & Hrun).
    apply detach_log in Ed as (k4 & rcd & ->). injection Hrun as _ _ <-.
    by exists rc, rcg, r, rcd. }
  right. cbn [Z.eqb] in Hrun. apply prog_bind_Done in Hrun as (v & s4 & Ebody & Hrun).
  apply traced_body_stays in Ebody as (body & Elog & Hq). destruct s4 as [k4 l4]. cbn [snd] in Elog.
  apply prog_bind_Done in Hrun as (e1 & s5 & Es & Hrun). apply setregs_log in Es as (k5 & ->).
  apply prog_bind_Done in Hrun as (e2 & s6 & Ed & Hrun). apply detach_log in Ed as (k6 & rcd & ->).
  injection Hrun as _ _ <-. exists rc, rcg, r, body, rcd. split_and!; try done.
  rewrite Elog, <- !app_assoc. done.
Qed.
End Logging.

(** ** Returning *)

Lemma fgets_shorter size file raw rest :
  (1 < size)%nat -> fgets size file = Some (raw, rest) -> (length rest < length file)%nat.
Proof.
  intros Hs. unfold fgets. destruct file as [|c file]; [done|].
  destruct (size - 1)%nat as [|n] eqn:En; [lia|]. intros [= Hf]. revert Hf.
  assert (forall n s a r, fgets_take n s = (a, r) -> (length r <= length s)%nat) as Hle.
  { clear. induction n as [|n IH]; intros s a r; cbn [fgets_take].
    - intros [= <- <-]. lia.
    - destruct s as [|x s]; [intros [= <- <-]; simpl; lia|].
      destruct (x =? 10); [intros [= <- <-]; simpl; lia|].
      destruct (fgets_take n s) as [a' r'] eqn:E. intros [= <- <-]. apply IH in E. simpl. lia. }
  cbn [fgets_take]. destruct (c =? 10); [intros [= <- <-]; simpl; lia|].
  destruct (fgets_take n file) as [a r] eqn:E. intros [= <- <-]. apply Hle in E. simpl. lia.
Qed.

Lemma c_str_returns l : c_str l <> Fault OutOfFuel.
Proof. induction l as [|c l IH]; simpl; [done|]. destruct (c =? 0); [done|]. by apply bind_no_fuel. Qed.

Lemma scan_maps_returns fuel file name :
  (length file < fuel)%nat -> scan_maps fuel file name <> Fault OutOfFuel.
Proof.
  revert file. induction fuel as [|f IH]; intros file Hf; [lia|]. cbn [scan_maps].
  destruct (fgets 1024 file) as [[raw rest]|] eqn:E; [|done].
  apply bind_no_fuel; [apply c_str_returns|]. intros line _.
  destruct (strstr line name); [by destruct (strtok_first line 45)|].
  apply fgets_shorter in E; [|lia]. apply IH. lia.
Qed.

Section Returning.
Context {K : Type} `{Kernel K}.

(** The target stops on a segmentation fault after at most [n] more rounds of
    letting it run, or cannot be resumed. *)
Fixpoint ends (n : nat) (pid : Z) (k : K) (stat : Z) : Prop :=
  stat = STOPPED_SEGV \/
  match n with
  | O => False
  | S n' =>
      fst (k_cont pid k) < 0 \/
      ends n' pid (snd (k_waitpid pid (snd (k_cont pid k)))) (fst (k_waitpid pid (snd (k_cont pid k))))
  end.

Lemma wait_stop_ends n fuel pid stat k :
  ends n pid k stat -> (n < fuel)%nat -> wait_stop fuel pid stat k <> Fault OutOfFuel.
Proof.
  revert fuel stat k. induction n as [|n IH]; intros fuel stat k He Hf;
    (destruct fuel as [|f]; [lia|]); cbn [wait_stop].
  - destruct He as [->|[]]. done.
  - destruct (Z.eqb_spec stat STOPPED_SEGV); [done|].
    destruct He as [|He]; [done|].
    unfold ptrace_continue, mbind, prog_bind, kop.
    destruct (k_cont pid k) as [rc k1] eqn:Ec. cbn [fst snd] in He.
    destruct (Z.ltb_spec rc 0); [done|]. unfold mret, prog_ret. cbn [Z.eqb].
    destruct He as [|He]; [lia|].
    destruct (k_waitpid pid k1) as [st k2]. cbn [fst snd] in He. apply IH; [done|lia].
Qed.

Lemma kop_returns {A} (f : K -> A * K) : returns (kop f).
Proof. by intros s. Qed.
Lemma kread_returns {A} (f : K -> A) : returns (kread f).
Proof. by intros s. Qed.
Lemma pfault_oob_returns {A} : returns (pfault OutOfBounds : prog K A).
Proof. by intros s. Qed.
Hint Resolve kop_returns kread_returns pfault_oob_returns : prog.

Lemma read_words_returns pid src j : returns (read_words pid src j).
Proof. revert src. induction j as [|j IH]; intros src; cbn [read_words]; prog_tac. Qed.

Lemma write_words_returns pid dest data j : returns (write_words pid dest data j).
Proof.
  revert dest data. induction j as [|j IH]; intros dest data; cbn [write_words]; [prog_tac|].
  destruct data as [|? [|? [|? [|? ?]]]]; prog_tac.
Qed.
Hint Resolve read_words_returns write_words_returns : prog.

Lemma writedata_returns pid dest data size : returns (ptrace_writedata pid dest data size).
Proof. unfold ptrace_writedata. prog_tac. Qed.

Lemma module_base_returns pid name : returns (get_module_base pid name).
Proof. unfold get_module_base. prog_tac. apply returns_lift, scan_maps_returns. lia. Qed.
Hint Resolve writedata_returns module_base_returns : prog.

Section Bounded.
Context (bound fuel : nat) (Hfuel : (bound < fuel)%nat).
Context (Hstops : forall pid k stat, ends bound pid k stat).

Lemma wait_stop_returns pid stat : returns (wait_stop fuel pid stat).
Proof. intros k. eapply wait_stop_ends; eauto. Qed.
Hint Resolve wait_stop_returns : prog.

Lemma call2_returns pid addr params regs : returns (ptrace_call2 fuel pid addr params regs).
Proof.
  unfold ptrace_call2, ptrace_call, prepare_call, ptrace_getregs, ptrace_setregs, ptrace_continue.
  prog_tac.
Qed.
Hint Resolve call2_returns : prog.

Lemma trace_returns_aux L pid lib func param :
  returns (trace_remote_process L fuel pid lib func param).
Proof.
  unfold trace_remote_process, traced_body, load_and_call, call_entry, report_dlerror,
    get_remote_addr, ptrace_attach, ptrace_detach, ptrace_setregs, ptrace_getregs, ptrace_readdata.
  prog_tac.
Qed.
End Bounded.

(** an injection ends.  If the target, let run, comes to a segmentation
    stop (as it does when the called function returns to address zero) within
    some number of resumptions, the injector returns: it needs no more rounds of
    waiting than that. *)
Theorem trace_remote_process_returns bound L fuel pid lib func param k
    (Hstops : forall pid k stat, ends bound pid k stat) (Hfuel : (bound < fuel)%nat) :
  trace_remote_process L fuel pid lib func param k <> Fault OutOfFuel.
Proof. by apply (trace_returns_aux bound fuel Hfuel Hstops). Qed.

(** ** Finding the process *)

(** [id] runs the program [name]: its command line starts with that string. *)
Definition runs (k : K) (id : Z) (name : cstr) : Prop :=
  exists content raw rest, k_cmdline id k = Some content /\
    fgets 256 content = Some (raw, rest) /\ c_str (raw ++ [0]) = Done name.

(** the process found is the first one in /proc that runs the program, and
    none is reported missing.  The array that keeps the last command line read
    cannot cause a false match, as long as its initial contents do not. *)
Theorem find_pid_first k names name cmdline0 id
    (Hinit : c_str cmdline0 <> Done name)
    (Hrun : find_pid_loop k names name cmdline0 = Done id) :
  (exists before d after, names = before ++ d :: after /\ atoi d = id /\ id <> 0 /\
     runs k id name /\ Forall (fun d' => atoi d' = 0 \/ ~ runs k (atoi d') name) before) \/
  (id = -1 /\ Forall (fun d' => atoi d' = 0 \/ ~ runs k (atoi d') name) names).
Proof.
  revert cmdline0 Hinit Hrun. induction names as [|d names IH]; intros cmd Hinit Hrun; cbn [find_pid_loop] in Hrun.
  { injection Hrun as <-. right. by split. }
  assert (forall cmd', c_str cmd' <> Done name -> find_pid_loop k names name cmd' = Done id ->
            atoi d = 0 \/ ~ runs k (atoi d) name ->
            (exists before d0 after, d :: names = before ++ d0 :: after /\ atoi d0 = id /\ id <> 0 /\
               runs k id name /\ Forall (fun d' => atoi d' = 0 \/ ~ runs k (atoi d') name) before) \/
            (id = -1 /\ Forall (fun d' => atoi d' = 0 \/ ~ runs k (atoi d') name) (d :: names))) as Hskip.
  { intros cmd' Hc Hr Hd.
    destruct (IH cmd' Hc Hr) as [(b & d0 & a & -> & H1 & H2 & H3 & H4)|(H1 & H2)].
    - left. exists (d :: b), d0, a. split_and!; try done. by constructor.
    - right. split; [done|]. by constructor. }
  destruct (Z.eqb_spec (atoi d) 0) as [H0|H0]; [by apply (Hskip cmd); auto|].
  destruct (k_cmdline (atoi d) k) as [content|] eqn:Ec.
  2:{ apply (Hskip cmd); auto. right. intros (? & ? & ? & ? & _). congruence. }
  apply bind_Done in Hrun as (s & Es & Hrun).
  destruct (fgets 256 content) as [[raw rest]|] eqn:Ef.
  - destruct (streq name s) eqn:Eq.
    + apply streq_true in Eq as ->. injection Hrun as <-. left. exists [], d, names.
      split_and!; try done. by exists content, raw, rest.
    + apply streq_false in Eq. apply (Hskip (raw ++ [0])); [congruence|done|].
      right. intros (? & ? & ? & ? & ? & ?). congruence.
  - destruct (streq name s) eqn:Eq; [apply streq_true in Eq; congruence|].
    apply (Hskip cmd); [done|done|]. right. intros (? & ? & ? & ? & ? & ?). congruence.
Qed.

(** a target without the linker is not noticed.  When the module is not in
    the target's maps, [get_remote_addr] still returns a non-null address (the
    local offset of the function), so the test for NULL addresses before
    [dlopen] does not catch it. *)
Theorem missing_module_undetected pid name addr k lbase
    (Hlocal : get_module_base (-1) name k = Done (lbase, k))
    (Hremote : get_module_base pid name k = Done (0, k))
    (Haddr : in_u 32 addr) (Hbase : in_u 32 lbase) (Hinside : lbase < addr) :
  get_remote_addr pid name addr k = Done (addr - lbase, k) /\ addr - lbase <> 0.
Proof.
  unfold get_remote_addr, mbind, prog_bind. rewrite Hlocal, Hremote. unfold mret, prog_ret.
  rewrite (uwrap_small 32 addr), (uwrap_small 32 lbase) by done.
  unfold in_u in *. rewrite (uwrap_small 32 0) by (unfold in_u; lia).
  rewrite uwrap_small by (unfold in_u; lia). split; [|lia]. do 2 f_equal. lia.
Qed.
End Returning.

(** ** The theorems at work

    Two small kernels: one whose only state is the memory of the target, mapped up
    to 0x8000, and
    one without state, whose answers make an injection succeed. *)

#[local] Instance mem_kernel : Kernel (Z -> Z) := {|
  k_attach _ k := (0, k); k_detach _ k := (0, k);
  k_getregs _ k := (0, replicate 18 0, k); k_setregs _ _ k := (0, k);
  k_cont _ k := (0, k);
  k_peek _ a k :=
    if (0 <=? a) && (a + 4 <=? 0x8000)
    then (of_le [k a mod 256; k (a + 1) mod 256; k (a + 2) mod 256; k (a + 3) mod 256], k) else (-1, k);
  k_poke _ a v k :=
    if (0 <=? a) && (a + 4 <=? 0x8000)
    then (0, fun x => if (a <=? x) && (x <? a + 4) then nth (Z.to_nat (x - a)) (le_bytes 4 v) 0 else k x) else (-1, k);
  k_waitpid _ k := (STOPPED_SEGV, k);
  k_maps _ _ := None; k_procdir _ := None; k_cmdline _ _ := None; k_stat _ _ := 0
|}.

#[local] Instance mem_kernel_laws : MemLaws (Z -> Z).
Proof.
  assert (forall a, (forall x, a <= x < a + 4 -> 0 <= x < 0x8000) -> (0 <=? a) && (a + 4 <=? 0x8000) = true) as Hword.
  { intros a Ha. pose proof (Ha a ltac:(lia)). pose proof (Ha (a + 3) ltac:(lia)). apply andb_true_iff. split; bool_lia. }
  refine {| mapped := fun _ _ a => 0 <= a < 0x8000; byte_at := fun _ k a => k a mod 256 |}.
  - intros pid k a Ha. unfold in_u. lia.
  - intros. apply Z.mod_pos_bound. lia.
  - intros pid a k Ha. cbn [k_peek mem_kernel]. rewrite (Hword a Ha). cbn [fst].
    apply (le_bytes_of_le [_; _; _; _]). repeat constructor; apply Z.mod_pos_bound; lia.
  - intros pid a k x. cbn [k_peek mem_kernel]. by destruct (_ && _).
  - done.
  - intros pid a v k x Ha. cbn [k_poke mem_kernel]. rewrite (Hword a Ha). cbn [snd]. destruct (_ && _) eqn:E; [|done].
    apply Z.mod_small. rewrite nth_lookup.
    destruct (lookup_lt_is_Some_2 (le_bytes 4 v) (Z.to_nat (x - a))) as [b Hb].
    { rewrite le_bytes_length. bool_lia. }
    rewrite Hb. pose proof (le_bytes_ok 4 v) as Hok. rewrite Forall_lookup in Hok. by apply Hok in Hb.
  - done.
Defined.

Lemma ptrace_write_read_witness :
  exists k1 k2 : Z -> Z,
    ptrace_writedata 1 4096 (lit "hello") 5 (fun _ => 7) = Done (0, k1) /\
    ptrace_readdata 1 4096 5 k1 = Done ((0, lit "hello"), k2) /\
    forall x, ~ (4096 <= x < 4096 + 5) -> byte_at 1 k2 x = byte_at 1 (fun _ : Z => 7) x.
Proof.
  apply (ptrace_write_read 1 4096 (lit "hello") (fun _ : Z => 7)).
  - repeat constructor; unfold byte_ok; vm_compute; done.
  - intros x Hx. change (words_of (length (lit "hello"))) with 8%nat in Hx. cbn [mapped mem_kernel_laws]. lia.
Defined.

Lemma prepare_call_aapcs_witness :
  exists regs' (k' : Z -> Z), prepare_call 1 0x4001 [1; 2; 3; 4; 5; 6] (replicate 18 0x1000) (fun _ => 0) = Done (regs', k') /\
    reg regs' ARM_sp = 0xff8 /\ bytes_at 1 k' (reg regs' ARM_sp) 8 = longs [5; 6].
Proof.
  destruct (prepare_call_aapcs 1 0x4001 [1; 2; 3; 4; 5; 6] (replicate 18 0x1000) (fun _ : Z => 0))
    as (regs' & k' & E & _ & Hsp & Hst & _); [done|split; vm_compute; done|split; vm_compute; done| |].
  { intros x Hx. change (u32 (reg (replicate 18 0x1000) ARM_sp - 4 * Z.of_nat (length [1; 2; 3; 4; 5; 6] - 4))) with 0xff8 in Hx.
    cbn [mapped mem_kernel_laws]. cbn in Hx. lia. }
  exists regs', k'. split; [exact E|]. split; [exact Hsp|exact Hst].
Defined.

#[local] Instance demo_kernel : Kernel unit := {|
  k_attach _ k := (0, k); k_detach _ k := (0, k);
  k_getregs _ k := (0, replicate 18 0x1000, k); k_setregs _ _ k := (0, k);
  k_cont _ k := (0, k); k_peek _ _ k := (0, k); k_poke _ _ _ k := (0, k);
  k_waitpid _ k := (STOPPED_SEGV, k);
  k_maps pid _ := Some (lit "40000000-40040000 r-xp /system/lib/libc.so" ++ [10] ++
                        if pid =? 5 then []
                        else lit "50000000-50010000 r-xp /system/bin/linker" ++ [10]);
  k_procdir _ := Some [lit "."; lit "self"; lit "2"; lit "77"; lit "90"];
  k_cmdline id _ := if id =? 77 then Some (lit "com.app" ++ [0]) else
                    if id =? 90 then Some (lit "com.app" ++ [0] ++ lit "x") else Some [];
  k_stat _ _ := 0
|}.

Definition demo_locals : locals :=
  mkLocals 0x40001000 0x50001000 0x50001100 0x50001200 0x50001300.

Definition demo_run : cres (Z * (unit * list kcall)) :=
  Eval vm_compute in
    trace_remote_process demo_locals 4 77 (lit "/l.so") (lit "f") [1; 2; 3] (tt, []).

Definition demo_log : list kcall :=
  match demo_run with Done (_, (_, l)) => l | Fault _ => [] end.

Lemma trace_restores_target_witness :
  demo_log = [] \/
  (exists rc, rc < 0 /\ demo_log = [CAttach 77 rc]) \/
  (exists rc rcg regs rcd, 0 <= rc /\ rcg < 0 /\
     demo_log = [CAttach 77 rc; COther; CGetregs 77 rcg regs; CDetach 77 rcd]) \/
  (exists rc rcg regs body rcd, 0 <= rc /\ 0 <= rcg /\ forallb quiet body = true /\
     demo_log = [CAttach 77 rc; COther; CGetregs 77 rcg regs] ++ body ++
           [CSetregs 77 regs; CDetach 77 rcd]).
Proof.
  apply (trace_restores_target demo_locals 4 77 (lit "/l.so") (lit "f") [1; 2; 3] tt 0x1000 tt).
  vm_compute. reflexivity.
Defined.

Lemma trace_remote_process_returns_witness :
  trace_remote_process demo_locals 2 77 (lit "/l.so") (lit "f") [1; 2; 3] tt <> Fault OutOfFuel.
Proof.
  apply (trace_remote_process_returns 1); [|lia]. intros pid k stat.
  destruct (decide (stat = STOPPED_SEGV)); [by left|]. right. right. by left.
Defined.

Lemma find_pid_first_witness :
  (exists before d after, [lit "."; lit "self"; lit "2"; lit "77"; lit "90"] = before ++ d :: after /\
     atoi d = 77 /\ 77 <> 0 /\ runs tt 77 (lit "com.app") /\
     Forall (fun d' => atoi d' = 0 \/ ~ runs tt (atoi d') (lit "com.app")) before) \/
  (77 = -1 /\ Forall (fun d' => atoi d' = 0 \/ ~ runs tt (atoi d') (lit "com.app"))
     [lit "."; lit "self"; lit "2"; lit "77"; lit "90"]).
Proof.
  apply (find_pid_first tt _ (lit "com.app") (replicate 256 0)); [done|].
  vm_compute. reflexivity.
Defined.

Lemma missing_module_undetected_witness :
  get_remote_addr 5 linker_path 0x50001000 tt = Done (0x50001000 - 0x50000000, tt) /\
  0x50001000 - 0x50000000 <> 0.
Proof.
  apply (missing_module_undetected 5 linker_path 0x50001000 tt 0x50000000);
    try (vm_compute; done); split; vm_compute; done.
Defined.
