(* ===== verification/Client.v ===== *)
(** * Client: the library inside the target (xloaderFramework/libclient/client.c)

    [client_entry] is what the injector calls in the target: it loads a native
    module with [dlopen], or finds the Java VM of the process and loads a jar
    through the bridge class.  The dynamic linker, the file system, the system
    properties and the JNI are the interface [ClientEnv]; a handle, a class or a
    method identifier is a number and NULL is 0. *)

From S2P Require Import Prelude CLib.

Class ClientEnv (E : Type) := {
  e_stat : cstr -> E -> Z;
  e_property : cstr -> cstr -> E -> cstr;
  e_dlopen : cstr -> Z -> E -> Z * E;
  e_dlsym : Z -> cstr -> E -> Z * E;
  e_dlerror : E -> bool * E;                 (* whether there was an error *)
  e_dlclose : Z -> E -> Z * E;
  e_call : Z -> E -> Z * E;                  (* call a function pointer *)
  j_FindClass : cstr -> E -> Z * E;
  j_GetMethodID : Z -> cstr -> cstr -> E -> Z * E;
  j_GetStaticMethodID : Z -> cstr -> cstr -> E -> Z * E;
  j_NewByteArray : Z -> E -> Z * E;
  j_SetByteArrayRegion : Z -> cstr -> E -> unit * E;
  j_NewStringUTF : cstr -> E -> Z * E;
  j_NewObject : Z -> Z -> list Z -> E -> Z * E;
  j_CallObjectMethod : Z -> Z -> list Z -> E -> Z * E;
  j_CallStaticObjectMethod : Z -> Z -> list Z -> E -> Z * E;
  j_CallStaticVoidMethod : Z -> Z -> list Z -> E -> unit * E;
  j_ExceptionOccurred : E -> Z;
  j_ExceptionDescribe : E -> unit * E;
  j_ExceptionClear : E -> unit * E
}.

Definition ERROR_CLIENT_ENTRY_LOADER : Z := 13.
Definition ERROR_CLIENT_BRIDEG_NOT_FOUND : Z := 14.
Definition ERROR_CLIENT_MODULE_NOT_FOUND : Z := 15.
Definition ERROR_CLIENT_ENV_NOT_FOUND : Z := 16.
Definition ERROR_CLIENT_LOAD_ERROR : Z := 17.
Definition ERROR_CLIENT_BRIDGE_ERROR : Z := 18.
Definition ERROR_CLIENT_BRIDGE_FAILED : Z := 19.

Definition DALVIK_CACHE_PREFIX_OLD := lit "/data/dalvik-cache/".
Definition DALVIK_CACHE_PREFIX_ARM := lit "/data/dalvik-cache/arm".
Definition DALVIK_CACHE_POSTFIX := lit "/classes.dex".
Definition DEX_PATH_SIZE : nat := 256.

Section Client.
Context {E : Type} `{ClientEnv E}.

Definition eop {A} (f : E -> A * E) : prog E A := fun e => Done (f e).
Definition eread {A} (f : E -> A) : prog E A := fun e => Done (f e, e).

(** ** Native modules *)

Definition load_native (modulePath : cstr) : prog E Z :=
  handle ← eop (e_dlopen modulePath 0);
  if handle =? 0 then
    _ ← eop e_dlerror; mret ERROR_CLIENT_MODULE_NOT_FOUND
  else
    _ ← eop e_dlerror;
    callfun ← eop (e_dlsym handle (lit "module_entry"));
    err ← eop e_dlerror;
    if (err : bool) then
      _ ← eop (e_dlclose handle); mret ERROR_CLIENT_LOAD_ERROR
    else
      _ ← eop (e_call callfun);
      _ ← eop (e_dlclose handle);
      mret 0.

(** ** Java modules *)

Definition stoJstring (pat : cstr) : prog E Z :=
  strClass ← eop (j_FindClass (lit "java/lang/String"));
  ctorID ← eop (j_GetMethodID strClass (lit "<init>") (lit "([BLjava/lang/String;)V"));
  bytes ← eop (j_NewByteArray (Z.of_nat (length pat)));
  _ ← eop (j_SetByteArrayRegion bytes pat);
  encoding ← eop (j_NewStringUTF (lit "utf-8"));
  eop (j_NewObject strClass ctorID [bytes; encoding]).

Definition ClearException : prog E bool :=
  exception ← eread j_ExceptionOccurred;
  if negb (exception =? 0) then
    _ ← eop j_ExceptionDescribe;
    _ ← eop j_ExceptionClear;
    mret true
  else mret false.

(** The loader for the jar, with the class it belongs to: a PathClassLoader when
    there is no output directory, a DexClassLoader otherwise. *)
Definition make_loader (bridgePath : cstr) (bridgeDexPath : option cstr) (joAppLoader : Z)
    : prog E (option (Z * Z)) :=
  match bridgeDexPath with
  | None =>
      jstrJarPath ← stoJstring bridgePath;
      jcClientLoader ← eop (j_FindClass (lit "dalvik/system/PathClassLoader"));
      x ← ClearException;
      if (x : bool) then mret None
      else
        init ← eop (j_GetMethodID jcClientLoader (lit "<init>")
                      (lit "(Ljava/lang/String;Ljava/lang/ClassLoader;)V"));
        jo ← eop (j_NewObject jcClientLoader init [jstrJarPath; joAppLoader]);
        x ← ClearException;
        if (x : bool) || (jo =? 0) then mret None else mret (Some (jcClientLoader, jo))
  | Some dexPath =>
      jstrJarPath ← stoJstring bridgePath;
      jstrJarDexPath ← stoJstring dexPath;
      jcClientLoader ← eop (j_FindClass (lit "dalvik/system/DexClassLoader"));
      x ← ClearException;
      if (x : bool) then mret None
      else
        init ← eop (j_GetMethodID jcClientLoader (lit "<init>")
                      (lit "(Ljava/lang/String;Ljava/lang/String;Ljava/lang/String;Ljava/lang/ClassLoader;)V"));
        jo ← eop (j_NewObject jcClientLoader init [jstrJarPath; jstrJarDexPath; 0; joAppLoader]);
        x ← ClearException;
        if (x : bool) || (jo =? 0) then mret None else mret (Some (jcClientLoader, jo))
  end.

(** Looks the bridge class up and hands it the module. *)
Definition call_bridge (jcClientLoader joClientLoader : Z) (modulePath : cstr) : prog E Z :=
  find ← eop (j_GetMethodID jcClientLoader (lit "findClass") (lit "(Ljava/lang/String;)Ljava/lang/Class;"));
  find ← (if find =? 0 then
            eop (j_GetMethodID jcClientLoader (lit "loadClass") (lit "(Ljava/lang/String;)Ljava/lang/Class;"))
          else mret find);
  jstrBridge ← stoJstring (lit "de.robv.android.xposed.XposedBridge");
  jcBridge ← eop (j_CallObjectMethod joClientLoader find [jstrBridge]);
  x ← ClearException;
  if (x : bool) || (jcBridge =? 0) then mret (- ERROR_CLIENT_BRIDGE_ERROR)
  else
    jstrModulePath ← stoJstring modulePath;
    load ← eop (j_GetStaticMethodID jcBridge (lit "loadModuleFromJar")
                  (lit "(Ljava/lang/String;Ljava/lang/ClassLoader;)V"));
    _ ← eop (j_CallStaticVoidMethod jcBridge load [jstrModulePath; joClientLoader]);
    x ← ClearException;
    if (x : bool) then mret (- ERROR_CLIENT_BRIDGE_FAILED) else mret 0.

Definition load_java (bridgePath : cstr) (bridgeDexPath : option cstr) (modulePath : cstr)
    : prog E Z :=
  jcActivityThread ← eop (j_FindClass (lit "android/app/ActivityThread"));
  x ← ClearException;
  if (x : bool) then mret (- ERROR_CLIENT_LOAD_ERROR)
  else
    currentApp ← eop (j_GetStaticMethodID jcActivityThread (lit "currentApplication")
                        (lit "()Landroid/app/Application;"));
    joApplication ← eop (j_CallStaticObjectMethod jcActivityThread currentApp []);
    jcApplication ← eop (j_FindClass (lit "android/app/Application"));
    x ← ClearException;
    if (x : bool) then mret (- ERROR_CLIENT_LOAD_ERROR)
    else
      getLoader ← eop (j_GetMethodID jcApplication (lit "getClassLoader")
                         (lit "()Ljava/lang/ClassLoader;"));
      joAppLoader ← eop (j_CallObjectMethod joApplication getLoader []);
      loader ← make_loader bridgePath bridgeDexPath joAppLoader;
      match loader with
      | None => mret (- ERROR_CLIENT_LOAD_ERROR)
      | Some (jc, jo) => call_bridge jc jo modulePath
      end.

Definition getEnv : prog E Z :=
  handle ← eop (e_dlopen (lit "/system/lib/libandroid_runtime.so") 0);
  if handle =? 0 then
    _ ← eop e_dlerror; mret 0
  else
    _ ← eop e_dlerror;
    callfun ← eop (e_dlsym handle (lit "_ZN7android14AndroidRuntime9getJNIEnvEv"));
    err ← eop e_dlerror;
    if (err : bool) then
      _ ← eop (e_dlclose handle); mret 0
    else
      env ← eop (e_call callfun);
      _ ← eop (e_dlclose handle);
      mret env.

(** ** Is the jar already optimised? *)

Definition flatten (c : Z) : Z := if c =? 47 then 64 else c.

(** [strcpy] and two [strcat] into [char dexPath[256]], then the slashes behind
    the prefix become '@'. *)
Definition dex_path (prefix apkPath : cstr) : cres cstr :=
  let apkPath := match apkPath with 47 :: p => p | _ => apkPath end in
  let path := prefix ++ apkPath ++ DALVIK_CACHE_POSTFIX in
  if (length path <? DEX_PATH_SIZE)%nat
  then Done (prefix ++ map flatten (apkPath ++ DALVIK_CACHE_POSTFIX))
  else Fault OutOfBounds.

Definition isDexOutputCache (apkPath : cstr) : prog E Z :=
  if strneq apkPath (lit "/system/framework/") 18 then mret 1
  else
    sdk ← eread (e_property (lit "ro.build.version.sdk") (lit "n/a"));
    let prefix := if strneq sdk (lit "2") 1 then DALVIK_CACHE_PREFIX_OLD
                  else DALVIK_CACHE_PREFIX_ARM in
    dexPath ← plift (dex_path prefix apkPath);
    st ← eread (e_stat dexPath);
    if st <? 0 then mret 0 else mret 1.

(** ** The entry point *)

(** The output directory, in a block of 256 bytes. *)
Definition bridge_dex_path (packageName : cstr) : cres cstr :=
  if streq packageName (lit "android") then Done (lit "/data/dalvik-cache/")
  else
    let path := lit "/data/data/" ++ packageName in
    if (length path <? DEX_PATH_SIZE)%nat then Done path else Fault OutOfBounds.

(** The three fields of the argument block, which are read as strings where
    they start: a field without a terminator runs on into the next one. *)
Definition do_xload (info : list Z) : prog (E * Z) Z := fun '(e, already) =>
  let run {A} (m : prog E A) (k : A -> E -> cres (Z * (E * Z))) : cres (Z * (E * Z)) :=
    match m e with Done (a, e') => k a e' | Fault f => Fault f end in
  packageName ← c_str_at info 0;
  bridgePath ← c_str_at info 256;
  modulePath ← c_str_at info 512;
  if e_stat modulePath e <? 0 then Done (- ERROR_CLIENT_MODULE_NOT_FOUND, (e, already))
  else if strstr modulePath (lit ".so") then
    run (load_native modulePath) (fun r e' => Done (r, (e', already)))
  else if e_stat bridgePath e <? 0 then Done (- ERROR_CLIENT_BRIDEG_NOT_FOUND, (e, already))
  else
    run getEnv (fun env e1 =>
      if env =? 0 then Done (- ERROR_CLIENT_ENV_NOT_FOUND, (e1, already))
      else
        match isDexOutputCache bridgePath e1 with
        | Fault f => Fault f
        | Done (cached, e2) =>
            match (if negb (cached =? 0) then load_java bridgePath None modulePath
                   else d ← plift (bridge_dex_path packageName);
                        load_java bridgePath (Some d) modulePath) e2 with
            | Fault f => Fault f
            | Done (ret, e3) => Done (ret, (e3, 1))
            end
        end).

Definition client_entry (info : list Z) : prog (E * Z) Z := fun '(e, already) =>
  if negb (already =? 0) then Done (ERROR_CLIENT_ENTRY_LOADER, (e, already))
  else do_xload info (e, already).

(** ** Properties *)

(** [keeps_clear m]: after [m] no Java exception is pending. *)
Definition ends_clear {A} (m : prog E A) : Prop :=
  forall e a e', m e = Done (a, e') -> j_ExceptionOccurred e' = 0.

Section Exceptions.
Context (Hclear : forall e, j_ExceptionOccurred (snd (j_ExceptionClear e)) = 0).

Lemma ClearException_clear : ends_clear ClearException.
Proof.
  intros e a e'. unfold ClearException, mbind, prog_bind, eread, eop, mret, prog_ret.
  destruct (Z.eqb_spec (j_ExceptionOccurred e) 0) as [E0|E0]; cbn [negb].
  - by intros [= <- <-].
  - destruct (j_ExceptionDescribe e) as [[] e1]. specialize (Hclear e1).
    destruct (j_ExceptionClear e1) as [[] e2]. by intros [= <- <-].
Qed.

(** A bind ends clear when its continuation does, or when what follows only
    looks at the result. *)
Lemma ends_clear_bind {A B} (m : prog E A) (k : A -> prog E B) :
  (forall a, ends_clear (k a)) -> ends_clear (m ≫= k).
Proof. intros Hk e b e' Hb. apply prog_bind_Done in Hb as (a & e1 & _ & Hb). by eapply Hk. Qed.

Lemma ends_clear_after {A B} (m : prog E A) (k : A -> prog E B) :
  ends_clear m -> (forall a, ends_clear (k a) \/ exists b, k a = mret b) -> ends_clear (m ≫= k).
Proof.
  intros Hm Hk e b e' Hb. apply prog_bind_Done in Hb as (a & e1 & E1 & Hb).
  destruct (Hk a) as [Hc|[b' Ek]]; [by eapply Hc|]. rewrite Ek in Hb. injection Hb as _ <-. by eapply Hm.
Qed.

Ltac clear_tac :=
  match goal with
  | |- ends_clear (mbind _ ClearException) =>
      refine (ends_clear_after _ _ ClearException_clear _); intros;
      destruct_if; first [right; eexists; reflexivity | left; clear_tac]
  | |- ends_clear (mbind _ _) => apply ends_clear_bind; intros; clear_tac
  end.

Lemma make_loader_clear p d l : ends_clear (make_loader p d l).
Proof. unfold make_loader. destruct d; clear_tac. Qed.

Lemma call_bridge_clear jc jo p : ends_clear (call_bridge jc jo p).
Proof. unfold call_bridge. clear_tac. Qed.

Lemma load_java_clear p d m : ends_clear (load_java p d m).
Proof.
  unfold load_java. apply ends_clear_bind; intros.
  refine (ends_clear_after _ _ ClearException_clear _); intros.
  destruct_if; [right; eexists; reflexivity|left].
  do 3 (apply ends_clear_bind; intros).
  refine (ends_clear_after _ _ ClearException_clear _); intros.
  destruct_if; [right; eexists; reflexivity|left].
  do 2 (apply ends_clear_bind; intros).
  refine (ends_clear_after _ _ (make_loader_clear _ _ _) _); intros [[jc jo]|].
  - left. apply call_bridge_clear.
  - right. by eexists.
Qed.
End Exceptions.

(** loading a Java module never returns into the application with an
    exception pending, on whichever of its error paths it returns. *)
Theorem load_java_leaves_no_exception bridgePath dexPath modulePath e ret e'
    (Hclear : forall e, j_ExceptionOccurred (snd (j_ExceptionClear e)) = 0)
    (Hrun : load_java bridgePath dexPath modulePath e = Done (ret, e')) :
  j_ExceptionOccurred e' = 0.
Proof. by eapply load_java_clear. Qed.

Lemma flatten_no_slash s : Forall (fun c => c <> 47) (map flatten s).
Proof.
  induction s as [|c s IH]; simpl; constructor; [|done].
  unfold flatten. destruct (Z.eqb_spec c 47); [done|done].
Qed.

(** the cache path of a jar, and the limit of the array it is built in.
    A path that fits is the prefix followed by the jar's path without its leading
    slash and "classes.dex", with every slash behind the prefix replaced; a path
    of 256 bytes or more overruns the array. *)
Theorem dex_path_spec prefix apkPath :
  let name := match apkPath with 47 :: p => p | _ => apkPath end in
  let n := (length prefix + length name + 12)%nat in
  ((n < DEX_PATH_SIZE)%nat ->
     exists flat, dex_path prefix apkPath = Done (prefix ++ flat) /\
       length flat = (length name + 12)%nat /\ Forall (fun c => c <> 47) flat /\
       forall i c, (name ++ DALVIK_CACHE_POSTFIX) !! i = Some c -> c <> 47 -> flat !! i = Some c) /\
  ((DEX_PATH_SIZE <= n)%nat -> dex_path prefix apkPath = Fault OutOfBounds).
Proof.
  intros name n. unfold dex_path. fold name.
  assert (length (prefix ++ name ++ DALVIK_CACHE_POSTFIX) = n) as ->.
  { rewrite !length_app. unfold n. change (length DALVIK_CACHE_POSTFIX) with 12%nat. lia. }
  split; intros Hn.
  - rewrite (proj2 (Nat.ltb_lt _ _)) by done. eexists. split; [done|]. split_and!.
    + rewrite length_map, length_app. done.
    + apply flatten_no_slash.
    + intros i c Hi Hc. change (map flatten (name ++ DALVIK_CACHE_POSTFIX)) with (flatten <$> (name ++ DALVIK_CACHE_POSTFIX)). rewrite list_lookup_fmap, Hi. cbn. unfold flatten.
      by rewrite (proj2 (Z.eqb_neq c 47)).
  - by rewrite (proj2 (Nat.ltb_ge _ _)).
Qed.

(** when the process counts as loaded.  An entry marks the process exactly
    when it reached the Java VM: the module exists and is not a shared object,
    the bridge exists and the VM was found, whatever became of the loading then;
    from there on every entry returns the "already loaded" code and does
    nothing.  A native module never sets the mark. *)
Theorem client_entry_marks info e pkg br md ret e' a info2
    (Hpkg : c_str_at info 0 = Done pkg) (Hbr : c_str_at info 256 = Done br)
    (Hmd : c_str_at info 512 = Done md)
    (Hrun : client_entry info (e, 0) = Done (ret, (e', a))) :
  (a = 1 <-> 0 <= e_stat md e /\ strstr md (lit ".so") = false /\ 0 <= e_stat br e /\
             exists env e1, getEnv e = Done (env, e1) /\ env <> 0) /\
  (a = 1 -> client_entry info2 (e', a) = Done (ERROR_CLIENT_ENTRY_LOADER, (e', a))).
Proof.
  split; [|by intros ->]. unfold client_entry, do_xload in Hrun. cbn [Z.eqb negb] in Hrun.
  rewrite Hpkg, Hbr, Hmd in Hrun. cbn [mbind cres_bind] in Hrun.
  destruct (Z.ltb_spec (e_stat md e) 0); [injection Hrun as _ _ <-; split; [done|lia]|].
  destruct (strstr md (lit ".so")) eqn:Es.
  { destruct (load_native md e) as [[r e1]|]; [|done]. injection Hrun as _ _ <-.
    split; [done|]. by intros (_ & ? & _). }
  destruct (Z.ltb_spec (e_stat br e) 0); [injection Hrun as _ _ <-; split; [done|lia]|].
  destruct (getEnv e) as [[env e1]|] eqn:Eg; [|done].
  destruct (Z.eqb_spec env 0) as [->|Hne].
  { injection Hrun as _ _ <-. split; [done|]. intros (_ & _ & _ & x & y & [= <- <-] & ?). done. }
  destruct (isDexOutputCache br e1) as [[c e2]|]; [|done].
  match type of Hrun with context [match ?m with _ => _ end] => destruct m as [[r e3]|]; [|done] end.
  injection Hrun as _ _ <-. split; [|done]. intros _. split_and!; eauto.
Qed.
End Client.

(** ** The theorems at work *)

(** An environment with one jar, one bridge and a VM; its state is the pending
    exception. *)
#[local] Instance demo_env : ClientEnv Z := {|
  e_stat _ _ := 0; e_property _ d _ := d;
  e_dlopen _ _ e := (5, e); e_dlsym _ _ e := (6, e); e_dlerror e := (false, e);
  e_dlclose _ e := (0, e); e_call _ e := (9, e);
  j_FindClass _ e := (1, e); j_GetMethodID _ _ _ e := (2, e);
  j_GetStaticMethodID _ _ _ e := (3, e); j_NewByteArray _ e := (4, e);
  j_SetByteArrayRegion _ _ e := (tt, e); j_NewStringUTF _ e := (5, e);
  j_NewObject _ _ _ e := (6, e); j_CallObjectMethod _ _ _ e := (7, e);
  j_CallStaticObjectMethod _ _ _ e := (8, e);
  j_CallStaticVoidMethod _ _ _ e := (tt, 42);
  j_ExceptionOccurred e := e; j_ExceptionDescribe e := (tt, e); j_ExceptionClear _ := (tt, 0)
|}.

Definition demo_info : list Z :=
  strncpy (lit "com.app") 256 ++ strncpy (lit "/data/bridge.jar") 256 ++ strncpy (lit "/sdcard/m.jar") 256.

Lemma load_java_leaves_no_exception_witness :
  load_java (lit "/b.jar") None (lit "/m.jar") 0 = Done (- ERROR_CLIENT_BRIDGE_FAILED, 0) /\
  j_ExceptionOccurred 0 = 0.
Proof.
  assert (load_java (lit "/b.jar") None (lit "/m.jar") 0 = Done (- ERROR_CLIENT_BRIDGE_FAILED, 0)) as E
    by reflexivity.
  split; [exact E|]. refine (load_java_leaves_no_exception _ _ _ 0 _ 0 _ E). done.
Defined.

Lemma client_entry_marks_witness :
  exists ret e' a, client_entry demo_info (0, 0) = Done (ret, (e', a)) /\ a = 1 /\
    client_entry demo_info (e', a) = Done (ERROR_CLIENT_ENTRY_LOADER, (e', a)).
Proof.
  assert (client_entry demo_info (0, 0) = Done (- ERROR_CLIENT_BRIDGE_FAILED, (0, 1))) as E
    by (vm_compute; reflexivity).
  exists (- ERROR_CLIENT_BRIDGE_FAILED), 0, 1. split; [exact E|]. split; [done|].
  apply (client_entry_marks demo_info 0 (lit "com.app") (lit "/data/bridge.jar") (lit "/sdcard/m.jar")
           (- ERROR_CLIENT_BRIDGE_FAILED) 0 1 demo_info); try (vm_compute; reflexivity).
Defined.
