(* ===== verification/Safemode.v ===== *)
(** * Safemode: the key sequence that keeps the framework from loading
      (libbridge/bridge_safemode.cpp, the same code as Xposed-master/xposed_safemode.cpp)

    The detector opens the input devices, waits for a first key press and then
    counts presses of that key until there are five of them, another key is
    pressed, or five seconds are over.  The devices and the kernel's answers are
    data: the entries of /dev/input with their key bitmaps, and one [step] per
    turn of a waiting loop with the clock reading and what [epoll_wait] and the
    reads after it return.  A script that ends is a clock that has passed the
    deadline.  The observable actions are logged. *)

From S2P Require Import Prelude CLib.

Definition INITIAL_DELAY : Z := 2.
Definition DETECTION_TIMEOUT : Z := 5.
Definition DETECTION_PRESSES : Z := 5.
Definition VIBRATION_SHORT : Z := 150.
Definition VIBRATION_LONG : Z := 500.
Definition VIBRATION_INTERVAL : Z := 200.
Definition MAX_DEVICES : nat := 4.

(** KEY_VOLUMEDOWN, KEY_VOLUMEUP, KEY_POWER, KEY_HOME, KEY_BACK, KEY_MENU,
    KEY_CAMERA of linux/input.h; [EV_KEY] is the key event type. *)
Definition physical_keycodes : list Z := [114; 115; 116; 102; 158; 139; 212].
Definition EV_KEY : Z := 1.

(** What the process does to the outside. *)
Inductive effect :=
| FxOpen (fd : Z)
| FxClose (fd : Z)
| FxVibrate (duration_ms : Z)
| FxSleep (us : Z).

(** [test_bit(bit, array)]. *)
Definition test_bit (bit : Z) (array : list Z) : bool :=
  negb (Z.land (nth (Z.to_nat (bit / 8)) array 0) (Z.shiftl 1 (bit mod 8)) =? 0).

(** An entry of /dev/input: its name, the descriptor [open] returns, the keys
    it reports and the keys held down on it, as the two ioctls fill them in. *)
Record device := mkDevice {
  d_name : cstr;
  d_fd : Z;
  d_keys : list Z;
  d_held : list Z
}.

Record timespec := mkTime { tv_sec : Z; tv_nsec : Z }.

(** One [read] of an input event. *)
Inductive input_read :=
| ShortRead
| Event (type code value : Z).

(** One turn of a waiting loop: the clock, and what [epoll_wait] reports. *)
Record step := mkStep { st_now : timespec; st_poll : option (list input_read) }.

Section Safemode.
(** The descriptor [open] returns for the vibrator's control file. *)
Context (vibrator_fd : Z).

Fixpoint vibrate_loop (n i : nat) (duration_ms interval_ms : Z) : list effect :=
  match n with
  | O => []
  | S n' =>
      (if (i =? 0)%nat then [] else [FxSleep ((duration_ms + interval_ms) * 1000)]) ++
      [FxVibrate duration_ms] ++ vibrate_loop n' (S i) duration_ms interval_ms
  end.

Definition vibrate (count : nat) (duration_ms interval_ms : Z) : list effect :=
  if vibrator_fd <? 0 then []
  else [FxOpen vibrator_fd] ++ vibrate_loop count 0 duration_ms interval_ms ++ [FxClose vibrator_fd].

(** ** Opening the devices *)

Definition is_dot (name : cstr) : bool :=
  match name with
  | [46] | [46; 46] => true
  | _ => false
  end.

(** The loop over the key codes that looks for held keys. *)
Fixpoint held_loop (codes : list Z) (held : list Z) (pressedKey : Z) : Z :=
  match codes with
  | [] => pressedKey
  | c :: codes' =>
      if test_bit c held then
        if pressedKey =? 0 then held_loop codes' held c else -1
      else held_loop codes' held pressedKey
  end.

(** The loop over the directory: the descriptors kept, the key pressed and the
    actions. *)
Fixpoint open_loop (devs : list device) (max_fds count : nat) (pressedKey : Z)
    : list Z * Z * list effect :=
  match devs with
  | [] => ([], pressedKey, [])
  | d :: devs' =>
      if (count <? max_fds)%nat then
        if is_dot (d_name d) then open_loop devs' max_fds count pressedKey
        else if d_fd d <? 0 then open_loop devs' max_fds count pressedKey
        else if negb (existsb (fun c => test_bit c (d_keys d)) physical_keycodes) then
          let '(fds, key, fx) := open_loop devs' max_fds count pressedKey in
          (fds, key, FxOpen (d_fd d) :: FxClose (d_fd d) :: fx)
        else
          let '(fds, key, fx) :=
            open_loop devs' max_fds (S count) (held_loop physical_keycodes (d_held d) pressedKey) in
          (d_fd d :: fds, key, FxOpen (d_fd d) :: fx)
      else ([], pressedKey, [])
  end.

Definition openKeyDevices (dir : option (list device)) (max_fds : nat) : list Z * Z * list effect :=
  match dir with
  | None => ([], 0, [])
  | Some devs => open_loop devs max_fds 0 0
  end.

(** [(expiration - now)] in milliseconds; the division truncates. *)
Definition getRemainingTime (now expiration : timespec) : Z :=
  if tv_sec expiration <? tv_sec now then 0
  else (tv_sec expiration - tv_sec now) * 1000 +
       Z.quot (tv_nsec expiration - tv_nsec now) 1000000.

(** ** Waiting *)

(** The key of an event that counts: a press of one of the physical keys. *)
Definition press_of (r : input_read) : option Z :=
  match r with
  | ShortRead => None
  | Event type code value =>
      if negb (type =? EV_KEY) then None
      else if negb (value =? 1) then None
      else if existsb (fun c => code =? c) physical_keycodes then Some code
      else None
  end.

(** The reads after one poll in the first loop. *)
Fixpoint initial_reads (rs : list input_read) (pressedKey : Z) : Z :=
  match rs with
  | [] => pressedKey
  | r :: rs' =>
      match press_of r with
      | Some code => initial_reads rs' code
      | None => initial_reads rs' pressedKey
      end
  end.

(** [while (pressedKey == 0 && getRemainingTime(expiration) > 0)]: the key and
    the rest of the script; [None] where [epoll_wait] fails. *)
Fixpoint initial_loop (script : list step) (expiration : timespec) (pressedKey : Z)
    : option (Z * list step) :=
  if negb (pressedKey =? 0) then Some (pressedKey, script)
  else
    match script with
    | [] => Some (pressedKey, [])
    | s :: script' =>
        if getRemainingTime (st_now s) expiration <=? 0 then Some (pressedKey, script')
        else
          match st_poll s with
          | None => None
          | Some rs => initial_loop script' expiration (initial_reads rs pressedKey)
          end
    end.

(** The reads after one poll in the second loop: the count so far and the
    vibrations; [None] where another key was pressed. *)
Fixpoint press_reads (rs : list input_read) (pressedKey presses : Z) : option Z * list effect :=
  match rs with
  | [] => (Some presses, [])
  | r :: rs' =>
      match press_of r with
      | None => press_reads rs' pressedKey presses
      | Some code =>
          if pressedKey =? code then
            let presses' := presses + 1 in
            let fx := if presses' <? DETECTION_PRESSES then vibrate 1 VIBRATION_SHORT 0 else [] in
            let '(r, fx') := press_reads rs' pressedKey presses' in
            (r, fx ++ fx')
          else (None, [])
      end
  end.

Fixpoint press_loop (script : list step) (expiration : timespec) (pressedKey presses : Z)
    : option Z * list effect :=
  if DETECTION_PRESSES <=? presses then (Some presses, [])
  else
    match script with
    | [] => (Some presses, [])
    | s :: script' =>
        if getRemainingTime (st_now s) expiration <=? 0 then (Some presses, [])
        else
          match st_poll s with
          | None => (None, [])
          | Some rs =>
              match press_reads rs pressedKey presses with
              | (None, fx) => (None, fx)
              | (Some presses', fx) =>
                  let '(r, fx') := press_loop script' expiration pressedKey presses' in
                  (r, fx ++ fx')
              end
          end
    end.

(** The code at the label [leave]. *)
Definition leave (efd : Z) (fds : list Z) : list effect :=
  (if 0 <=? efd then [FxClose efd] else []) ++ map FxClose fds.

Definition after_delay (t : timespec) (d : Z) : timespec := mkTime (tv_sec t + d) (tv_nsec t).

(** [epoll_ctl] on each descriptor; the loop stops at the first failure. *)
Definition register_ok (ctl : Z -> Z) (fds : list Z) : bool := forallb (fun fd => ctl fd =? 0) fds.

(** [detectSafemodeTrigger]: [efd] is what [epoll_create] returns and [ctl fd]
    what [epoll_ctl] returns for a device, [t1] and [t2] the clock before each loop. *)
Definition detectSafemodeTrigger (skipInitialDelay : bool) (dir : option (list device))
    (efd : Z) (ctl : Z -> Z) (t1 t2 : timespec) (script : list step) : bool * list effect :=
  let '(fds, pressedKey, fx) := openKeyDevices dir MAX_DEVICES in
  if (length fds =? 0)%nat then (false, fx ++ leave (-1) fds)
  else if pressedKey <? 0 then (false, fx ++ leave (-1) fds)
  else if (pressedKey =? 0) && skipInitialDelay then (false, fx ++ leave (-1) fds)
  else if efd <? 0 then (false, fx ++ leave efd fds)
  else
    let fx := fx ++ [FxOpen efd] in
    if negb (register_ok ctl fds) then (false, fx ++ leave efd fds)
    else
      match initial_loop script (after_delay t1 INITIAL_DELAY) pressedKey with
      | None => (false, fx ++ leave efd fds)
      | Some (pressedKey, script) =>
          if pressedKey =? 0 then (false, fx ++ leave efd fds)
          else
            let fx := fx ++ vibrate 2 VIBRATION_SHORT VIBRATION_INTERVAL in
            match press_loop script (after_delay t2 DETECTION_TIMEOUT) pressedKey 1 with
            | (None, fx') => (false, fx ++ fx' ++ leave efd fds)
            | (Some presses, fx') =>
                if DETECTION_PRESSES <=? presses
                then (true, fx ++ fx' ++ vibrate 1 VIBRATION_LONG 0 ++ leave efd fds)
                else (false, fx ++ fx' ++ leave efd fds)
            end
      end.
End Safemode.

(** ** Which key is held *)

Definition relevant (d : device) : bool :=
  negb (is_dot (d_name d)) && (0 <=? d_fd d) &&
  existsb (fun c => test_bit c (d_keys d)) physical_keycodes.

(** The devices that are opened for good, and the held keys found on them. *)
Definition kept (devs : list device) (max_fds : nat) : list device :=
  take max_fds (filter (fun d => relevant d = true) devs).

Definition held_keys (d : device) : list Z :=
  filter (fun c => test_bit c (d_held d) = true) physical_keycodes.

(** No key, one key, or more than one. *)
Definition single_key (keys : list Z) : Z :=
  match keys with
  | [] => 0
  | [k] => k
  | _ => -1
  end.

Lemma single_key_snoc obs c :
  Forall (fun k => k <> 0) obs -> c <> 0 ->
  (if single_key obs =? 0 then c else -1) = single_key (obs ++ [c]).
Proof.
  intros Ho Hc. destruct obs as [|k [|k' obs]]; [done| |done].
  cbn. apply Forall_cons in Ho as [Hk _]. by rewrite (proj2 (Z.eqb_neq k 0)).
Qed.

Lemma single_key_many obs : (2 <= length obs)%nat -> single_key obs = -1.
Proof. intros Hl. destruct obs as [|? [|? ?]]; simpl in *; try lia; done. Qed.

Lemma held_loop_spec codes held obs :
  Forall (fun k => k <> 0) obs -> Forall (fun k => k <> 0) codes ->
  held_loop codes held (single_key obs) =
  single_key (obs ++ filter (fun c => test_bit c held = true) codes).
Proof.
  revert obs. induction codes as [|c codes IH]; intros obs Ho Hc; cbn [held_loop].
  - by rewrite app_nil_r.
  - apply Forall_cons in Hc as [Hc0 Hc]. rewrite filter_cons.
    destruct (test_bit c held) eqn:Et; [rewrite decide_True by done|rewrite decide_False by congruence].
    + pose proof (single_key_snoc obs c Ho Hc0) as Hs.
      destruct (single_key obs =? 0) eqn:E.
      * transitivity (held_loop codes held (single_key (obs ++ [c]))); [by rewrite <- Hs|].
        rewrite IH; [by rewrite <- app_assoc| |done]. apply Forall_app. split; [done|]. by constructor.
      * symmetry. apply single_key_many. rewrite length_app. cbn [length].
        destruct obs; [done|]. simpl. lia.
    + by apply IH.
Qed.

Lemma physical_nonzero : Forall (fun k => k <> 0) physical_keycodes.
Proof. repeat constructor; done. Qed.

Lemma held_keys_nonzero d : Forall (fun k => k <> 0) (held_keys d).
Proof.
  apply Forall_forall. intros x Hx. apply list_elem_of_filter in Hx as [_ Hx].
  pose proof physical_nonzero as Hp. rewrite Forall_forall in Hp. by apply Hp.
Qed.

Definition opened (fx : list effect) : list Z :=
  omap (fun e => match e with FxOpen fd => Some fd | _ => None end) fx.
Definition closed (fx : list effect) : list Z :=
  omap (fun e => match e with FxClose fd => Some fd | _ => None end) fx.

Lemma kept_cons d devs n :
  kept (d :: devs) n =
  if relevant d then match n with O => [] | S n' => d :: kept devs n' end else kept devs n.
Proof.
  unfold kept. rewrite filter_cons. destruct (relevant d) eqn:E.
  - rewrite decide_True by done. by destruct n.
  - by rewrite decide_False by congruence.
Qed.

Lemma open_loop_spec devs max_fds count obs :
  Forall (fun k => k <> 0) obs -> (count <= max_fds)%nat ->
  let '(fds, key, fx) := open_loop devs max_fds count (single_key obs) in
  let ds := kept devs (max_fds - count) in
  fds = map d_fd ds /\ key = single_key (obs ++ concat (map held_keys ds)) /\
  opened fx ≡ₚ closed fx ++ fds.
Proof.
  revert count obs. induction devs as [|d devs IH]; intros count obs Ho Hc; cbn [open_loop].
  { unfold kept. rewrite filter_nil, take_nil. cbn. by rewrite app_nil_r. }
  destruct (Nat.ltb_spec count max_fds) as [Hlt|Hge].
  2:{ unfold kept. replace (max_fds - count)%nat with 0%nat by lia. cbn. by rewrite app_nil_r. }
  cbn zeta. rewrite kept_cons. unfold relevant.
  destruct (is_dot (d_name d)) eqn:Ed; cbn [negb andb]; [by apply IH|].
  destruct (Z.ltb_spec (d_fd d) 0) as [Hfd|Hfd].
  { rewrite (proj2 (Z.leb_gt 0 _)) by lia. by apply IH. }
  rewrite (proj2 (Z.leb_le 0 _)) by lia. cbn [andb].
  destruct (existsb _ physical_keycodes) eqn:Ek; cbn [negb].
  - replace (max_fds - count)%nat with (S (max_fds - S count)) by lia.
    rewrite held_loop_spec by (auto using physical_nonzero). fold (held_keys d).
    specialize (IH (S count) (obs ++ held_keys d)).
    destruct (open_loop devs max_fds (S count) _) as [[fds key] fx].
    destruct IH as (-> & -> & Hp); [|lia|].
    { apply Forall_app. split; [done|]. apply held_keys_nonzero. }
    cbn [map concat]. rewrite <- app_assoc. split_and!; try done.
    cbn. rewrite <- Permutation_middle. by constructor.
  - specialize (IH count obs Ho Hc).
    destruct (open_loop devs max_fds count _) as [[fds key] fx]. destruct IH as (-> & -> & Hp).
    split_and!; try done. cbn. by constructor.
Qed.

(** ** The two waiting loops *)

Definition presses_at (s : step) : list Z :=
  match st_poll s with Some rs => omap press_of rs | None => [] end.

Definition alive (expiration : timespec) (s : step) : Prop :=
  0 < getRemainingTime (st_now s) expiration /\ is_Some (st_poll s).

Lemma initial_reads_spec rs key :
  initial_reads rs key = default key (last (omap press_of rs)).
Proof.
  revert key. induction rs as [|r rs IH]; intros key; cbn [initial_reads]; [done|].
  cbn [omap list_omap]. destruct (press_of r) as [c|]; rewrite IH; [|done].
  destruct (omap press_of rs) as [|x l]; [done|].
  rewrite last_cons_cons. by destruct (last (x :: l)) eqn:E; [|apply last_None in E].
Qed.

Lemma press_of_physical r c : press_of r = Some c -> c <> 0.
Proof.
  destruct r as [|t code v]; cbn [press_of]; [done|]. repeat (destruct_if; [done|]).
  destruct (existsb _ _) eqn:E; [|done]. intros [= <-].
  apply existsb_exists in E as (x & Hx & ->%Z.eqb_eq).
  pose proof physical_nonzero as Hp. rewrite Forall_forall in Hp. apply Hp.
  by apply list_elem_of_In.
Qed.

(** The first loop finds the first batch of events with a press in it; of
    several presses in one batch the last one counts. *)
Lemma initial_loop_spec script expiration key rest :
  initial_loop script expiration 0 = Some (key, rest) /\ key <> 0 <->
  exists pre s, script = pre ++ s :: rest /\
    Forall (fun s => alive expiration s /\ presses_at s = []) pre /\
    alive expiration s /\ last (presses_at s) = Some key.
Proof.
  induction script as [|s script IH]; cbn [initial_loop Z.eqb negb].
  { split; [by intros [[= <- <-] ?]|]. intros (pre & s & E & _). by destruct pre. }
  unfold alive, presses_at in *.
  destruct (Z.leb_spec (getRemainingTime (st_now s) expiration) 0) as [Ht|Ht].
  { split; [by intros [[= <- <-] ?]|]. intros (pre & s' & E & Hp & Ha & _).
    destruct pre as [|x pre]; injection E as <- ->; [lia|].
    apply Forall_cons in Hp as [[[Hx _] _] _]. lia. }
  destruct (st_poll s) as [rs|] eqn:Ep.
  2:{ split; [by intros [? _]|]. intros (pre & s' & E & Hp & Ha & _).
    destruct pre as [|x pre]; injection E as <- ->.
    - destruct Ha as [_ [? Ha]]. congruence.
    - apply Forall_cons in Hp as [[[_ [? Hx]] _] _]. congruence. }
  rewrite initial_reads_spec. destruct (last (omap press_of rs)) as [c|] eqn:El; cbn [from_option id].
  - assert (c <> 0) as Hc.
    { apply last_Some_elem_of in El. apply list_elem_of_omap in El as (r & _ & Hr).
      by apply press_of_physical in Hr. }
    assert (initial_loop script expiration c = Some (c, script)) as ->.
    { destruct script; cbn; by rewrite (proj2 (Z.eqb_neq c 0)). }
    split.
    + intros [[= <- <-] _]. exists [], s. rewrite Ep. split_and!; eauto.
    + intros (pre & s' & E & Hp & _ & Hl). destruct pre as [|x pre]; injection E as <- ->.
      * rewrite Ep in Hl. split; [congruence|]. congruence.
      * apply Forall_cons in Hp as [[_ Hx] _]. rewrite Ep in Hx. by rewrite Hx in El.
  - apply last_None in El. rewrite IH. split.
    + intros (pre & s' & -> & Hp & Ha & Hl). exists (s :: pre), s'.
      split; [done|]. split; [|done]. constructor; [|done]. rewrite Ep. split; [split; eauto|done].
    + intros (pre & s' & E & Hp & Ha & Hl). destruct pre as [|x pre]; injection E as <- ->.
      * rewrite Ep, El in Hl. done.
      * apply Forall_cons in Hp as [_ Hp]. by exists pre, s'.
Qed.

Section Counting.
Context (vibrator_fd : Z).

Lemma press_reads_spec rs key n :
  fst (press_reads vibrator_fd rs key n) =
  if forallb (fun c => c =? key) (omap press_of rs)
  then Some (n + Z.of_nat (length (omap press_of rs))) else None.
Proof.
  revert n. induction rs as [|r rs IH]; intros n; cbn [press_reads omap list_omap].
  - cbn. f_equal. lia.
  - destruct (press_of r) as [c|]; [|apply IH]. cbn [forallb length].
    rewrite (Z.eqb_sym c key). destruct (key =? c) eqn:E; [|done].
    specialize (IH (n + 1)). destruct (press_reads _ rs key (n + 1)) as [o fx]. cbn [fst] in *.
    rewrite IH. cbn [andb]. destruct (forallb _ _); [|done]. f_equal. lia.
Qed.

(** With [n] presses counted, the script brings them to five before the
    deadline: some batches with no key other than [key] in them. *)
Definition completes (expiration : timespec) (key n : Z) (script : list step) : Prop :=
  exists pre post, script = pre ++ post /\ Forall (alive expiration) pre /\
    Forall (fun c => c = key) (concat (map presses_at pre)) /\
    DETECTION_PRESSES <= n + Z.of_nat (length (concat (map presses_at pre))).

Lemma completes_cons_inv expiration key n s script :
  n < DETECTION_PRESSES -> completes expiration key n (s :: script) ->
  alive expiration s /\ Forall (fun c => c = key) (presses_at s) /\
  completes expiration key (n + Z.of_nat (length (presses_at s))) script.
Proof.
  intros Hn (pre & post & E & Ha & Hk & Hm). destruct pre as [|x pre]; [cbn in Hm; lia|].
  injection E as <- ->. apply Forall_cons in Ha as [Ha1 Ha]. cbn [map concat] in *.
  apply Forall_app in Hk as [Hk1 Hk]. rewrite length_app in Hm.
  do 2 (split; [done|]). exists pre, post. split_and!; try done. lia.
Qed.

Lemma completes_cons expiration key n s script :
  alive expiration s -> Forall (fun c => c = key) (presses_at s) ->
  completes expiration key (n + Z.of_nat (length (presses_at s))) script ->
  completes expiration key n (s :: script).
Proof.
  intros Ha1 Hk1 (pre & post & -> & Ha & Hk & Hm). exists (s :: pre), post. cbn [map concat].
  rewrite length_app. split_and!; [done|by constructor|by apply Forall_app|lia].
Qed.

Lemma forallb_eq_key l key :
  forallb (fun c => c =? key) l = true <-> Forall (fun c => c = key) l.
Proof.
  induction l as [|c l IH]; cbn; [split; [by constructor|done]|].
  rewrite andb_true_iff, IH, Z.eqb_eq, Forall_cons. done.
Qed.

Lemma press_loop_spec script expiration key n :
  (exists m, fst (press_loop vibrator_fd script expiration key n) = Some m /\
             DETECTION_PRESSES <= m) <->
  completes expiration key n script.
Proof.
  revert n. induction script as [|s script IH]; intros n; cbn [press_loop];
    (destruct (Z.leb_spec DETECTION_PRESSES n) as [Hn|Hn];
    [split; [intros _; exists []; eexists; split_and!; cbn; eauto; lia|by exists n]|]).
  { split; [intros (m & [= <-] & ?); lia|]. intros (pre & post & E & _ & _ & Hm).
    symmetry in E. apply app_eq_nil in E as [-> _]. cbn in Hm. lia. }
  destruct (Z.leb_spec (getRemainingTime (st_now s) expiration) 0) as [Ht|Ht].
  { split; [intros (m & [= <-] & ?); lia|]. intros [[? _] _]%completes_cons_inv; lia. }
  destruct (st_poll s) as [rs|] eqn:Ep.
  2:{ split; [by intros (m & ? & _)|]. intros [[_ [? ?]] _]%completes_cons_inv; [congruence|lia]. }
  pose proof (press_reads_spec rs key n) as Hr.
  destruct (press_reads vibrator_fd rs key n) as [o fx]. cbn [fst] in Hr. subst o.
  assert (presses_at s = omap press_of rs) as Eps by (unfold presses_at; by rewrite Ep).
  rewrite <- Eps. destruct (forallb _ (presses_at s)) eqn:Ef.
  - apply forallb_eq_key in Ef. specialize (IH (n + Z.of_nat (length (presses_at s)))).
    destruct (press_loop vibrator_fd script expiration key _) as [o fx']. cbn [fst] in *.
    rewrite IH. split.
    + apply completes_cons; [|done]. split; [lia|]. rewrite Ep. eauto.
    + by intros (_ & _ & ?)%completes_cons_inv.
  - split; [by intros (m & ? & _)|]. intros (_ & Hk & _)%completes_cons_inv; [|done].
    apply forallb_eq_key in Hk. congruence.
Qed.
End Counting.

(** ** The detector *)

Definition devices_of (dir : option (list device)) : list device :=
  match dir with Some devs => kept devs MAX_DEVICES | None => [] end.

Lemma openKeyDevices_spec dir :
  let '(fds, key, fx) := openKeyDevices dir MAX_DEVICES in
  fds = map d_fd (devices_of dir) /\
  key = single_key (concat (map held_keys (devices_of dir))) /\
  opened fx ≡ₚ closed fx ++ fds.
Proof.
  destruct dir as [devs|]; cbn [openKeyDevices devices_of]; [|by cbn].
  pose proof (open_loop_spec devs MAX_DEVICES 0 []) as H. cbn [single_key app] in H.
  rewrite Nat.sub_0_r in H. apply H; [by constructor|lia].
Qed.

(** The key that starts the sequence and the events after it: a key held when
    the devices are opened, or else the first one pressed in the first two
    seconds. *)
Definition starts (skipInitialDelay : bool) (held : Z) (expiration : timespec)
    (script : list step) (key : Z) (rest : list step) : Prop :=
  (0 < held /\ key = held /\ rest = script) \/
  (held = 0 /\ skipInitialDelay = false /\
   exists pre s, script = pre ++ s :: rest /\
     Forall (fun s => alive expiration s /\ presses_at s = []) pre /\
     alive expiration s /\ last (presses_at s) = Some key).

Lemma initial_loop_starts skip held expiration script :
  0 <= held -> (held =? 0) && skip = false ->
  forall key rest,
    initial_loop script expiration held = Some (key, rest) /\ key <> 0 <->
    starts skip held expiration script key rest.
Proof.
  intros Hh Hs key rest. unfold starts. destruct (Z.eqb_spec held 0) as [->|Hne].
  - rewrite initial_loop_spec. cbn in Hs. split; [intros; right; by split_and!|].
    intros [[? _]|(_ & _ & ?)]; [lia|done].
  - replace (initial_loop script expiration held) with (Some (held, script)).
    2:{ destruct script; cbn [initial_loop]; by rewrite (proj2 (Z.eqb_neq held 0)). }
    split; [intros [[= <- <-] _]; left; split_and!; [lia|done|done]|].
    intros [(_ & -> & ->)|[? _]]; [done|lia].
Qed.

(** [detectSafemodeTrigger] reports the trigger exactly when an input device
    with one of the keys could be opened and registered, not more than one key
    is held on the devices, a sequence is started (by the held key or, unless the
    delay is skipped, by the first press within two seconds of the first clock
    reading), and the same key and no other is pressed until there are five
    presses, all within five seconds of the second clock reading. *)
Theorem safemode_trigger_iff vibrator_fd skip dir efd ctl t1 t2 script :
  fst (detectSafemodeTrigger vibrator_fd skip dir efd ctl t1 t2 script) = true <->
  devices_of dir <> [] /\ 0 <= efd /\ Forall (fun d => ctl (d_fd d) = 0) (devices_of dir) /\
  exists key rest,
    starts skip (single_key (concat (map held_keys (devices_of dir))))
      (after_delay t1 INITIAL_DELAY) script key rest /\
    completes (after_delay t2 DETECTION_TIMEOUT) key 1 rest.
Proof.
  unfold detectSafemodeTrigger. pose proof (openKeyDevices_spec dir) as Ho.
  destruct (openKeyDevices dir MAX_DEVICES) as [[fds held] fx]. destruct Ho as (-> & -> & _).
  set (held := single_key _). rewrite length_map.
  destruct (Nat.eqb_spec (length (devices_of dir)) 0) as [Hd|Hd].
  { split; [done|]. intros [Hn _]. by apply nil_length_inv in Hd. }
  assert (devices_of dir <> []) as Hne by (intros E; by rewrite E in Hd).
  destruct (Z.ltb_spec held 0) as [Hh|Hh].
  { split; [done|]. intros (_ & _ & _ & key & rest & [[? _]|[? _]] & _); lia. }
  destruct ((held =? 0) && skip) eqn:Hs.
  { apply andb_true_iff in Hs as [->%Z.eqb_eq ->]. split; [done|].
    by intros (_ & _ & _ & key & rest & [[? _]|(_ & ? & _)] & _). }
  destruct (Z.ltb_spec efd 0) as [He|He]; [split; [done|lia]|]. cbn zeta.
  assert (register_ok ctl (map d_fd (devices_of dir)) = true <->
          Forall (fun d => ctl (d_fd d) = 0) (devices_of dir)) as Hreg.
  { unfold register_ok. rewrite forallb_forall, Forall_forall. setoid_rewrite in_map_iff.
    setoid_rewrite list_elem_of_In. setoid_rewrite Z.eqb_eq. firstorder (subst; eauto). }
  destruct (register_ok ctl _); cbn [negb].
  2:{ split; [done|]. intros (_ & _ & Hc & _). by apply Hreg in Hc. }
  pose proof (initial_loop_starts skip held (after_delay t1 INITIAL_DELAY) script Hh Hs) as Hst.
  setoid_rewrite <- Hst. clear Hst.
  destruct (initial_loop script _ held) as [[key rest]|].
  2:{ split; [done|]. by intros (_ & _ & _ & k & r & [? _] & _). }
  destruct (Z.eqb_spec key 0) as [->|Hk].
  { split; [done|]. by intros (_ & _ & _ & k & r & [[= <- <-] ?] & _). }
  pose proof (press_loop_spec vibrator_fd rest (after_delay t2 DETECTION_TIMEOUT) key 1) as Hp.
  transitivity (completes (after_delay t2 DETECTION_TIMEOUT) key 1 rest).
  2:{ split; [intros; split_and!; try done; [by apply Hreg|by exists key, rest]|].
      by intros (_ & _ & _ & k & r & [[= <- <-] _] & ?). }
  rewrite <- Hp. destruct (press_loop _ _ _ _ _) as [[m|] fx']; cbn [fst].
  - destruct (Z.leb_spec DETECTION_PRESSES m); cbn [fst]; [by split; [exists m|]|].
    split; [done|]. intros (? & [= <-] & ?). lia.
  - split; [done|]. by intros (? & ? & _).
Qed.

(** ** Descriptors *)

Lemma opened_app a b : opened (a ++ b) = opened a ++ opened b.
Proof. apply omap_app. Qed.
Lemma closed_app a b : closed (a ++ b) = closed a ++ closed b.
Proof. apply omap_app. Qed.

Definition balanced (fx : list effect) : Prop := opened fx ≡ₚ closed fx.

Lemma balanced_app a b : balanced a -> balanced b -> balanced (a ++ b).
Proof. unfold balanced. rewrite opened_app, closed_app. by intros -> ->. Qed.

Lemma balanced_nil : balanced [].
Proof. constructor. Qed.

Lemma vibrate_loop_quiet n i d v :
  opened (vibrate_loop n i d v) = [] /\ closed (vibrate_loop n i d v) = [].
Proof.
  revert i. induction n as [|n IH]; intros i; [done|]. cbn [vibrate_loop].
  rewrite !opened_app, !closed_app. destruct (IH (S i)) as [-> ->]. by destruct (i =? 0)%nat.
Qed.

Lemma vibrate_balanced vfd n d v : balanced (vibrate vfd n d v).
Proof.
  unfold vibrate, balanced. destruct (vfd <? 0); [done|].
  rewrite !opened_app, !closed_app. by destruct (vibrate_loop_quiet n 0 d v) as [-> ->].
Qed.
#[export] Hint Resolve balanced_app balanced_nil vibrate_balanced : prog.

Lemma press_reads_balanced vfd rs key n : balanced (snd (press_reads vfd rs key n)).
Proof.
  revert n. induction rs as [|r rs IH]; intros n; cbn [press_reads]; [auto with prog|].
  destruct (press_of r) as [c|]; [|apply IH]. destruct (key =? c); [|auto with prog].
  cbn zeta. specialize (IH (n + 1)). destruct (press_reads _ _ _ _) as [o fx]. cbn [snd] in *.
  destruct (_ <? _); auto with prog.
Qed.

Lemma press_loop_balanced vfd script e key n : balanced (snd (press_loop vfd script e key n)).
Proof.
  revert n. induction script as [|s script IH]; intros n; cbn [press_loop];
    (destruct (_ <=? n); [auto with prog|]); [auto with prog|].
  destruct (_ <=? 0); [auto with prog|]. destruct (st_poll s) as [rs|]; [|auto with prog].
  pose proof (press_reads_balanced vfd rs key n) as Hr.
  destruct (press_reads vfd rs key n) as [[m|] fx]; [|done].
  specialize (IH m). destruct (press_loop _ _ _ _ _). cbn [snd] in *. auto with prog.
Qed.

Lemma closing fds : opened (map FxClose fds) = [] /\ closed (map FxClose fds) = fds.
Proof. induction fds as [|fd fds [IH1 IH2]]; [done|]. split; [done|]. cbn. f_equal. exact IH2. Qed.

Lemma leave_balances fx mid efd fds :
  opened fx ≡ₚ closed fx ++ fds -> balanced mid ->
  balanced (fx ++ (if 0 <=? efd then [FxOpen efd] else []) ++ mid ++ leave efd fds).
Proof.
  unfold balanced, leave. intros Hf Hm. rewrite !opened_app, !closed_app, Hf, Hm.
  destruct (closing fds) as [-> ->]. destruct (0 <=? efd); cbn;
    rewrite ?app_nil_r, <- ?app_assoc; f_equiv; rewrite (Permutation_app_comm fds); [|done].
  by rewrite <- Permutation_middle.
Qed.

(** The shape of every run: the devices, the handle, the vibrations, the end. *)
Lemma detect_shape vfd skip dir efd ctl t1 t2 script :
  let '(fds, _, fx) := openKeyDevices dir MAX_DEVICES in
  exists efd' mid, balanced mid /\
    snd (detectSafemodeTrigger vfd skip dir efd ctl t1 t2 script) =
    fx ++ (if 0 <=? efd' then [FxOpen efd'] else []) ++ mid ++ leave efd' fds.
Proof.
  unfold detectSafemodeTrigger. destruct (openKeyDevices dir MAX_DEVICES) as [[fds held] fx].
  assert (forall e, snd (false, (fx ++ e) ++ leave efd fds) = fx ++ e ++ [] ++ leave efd fds) as Hl
    by (intros; cbn; by rewrite <- app_assoc).
  do 3 (destruct_if; [exists (-1), []; by split; [apply balanced_nil|]|]).
  destruct (Z.ltb_spec efd 0) as [He|He].
  { exists efd, []. rewrite (proj2 (Z.leb_gt 0 efd)) by lia. by split; [apply balanced_nil|]. }
  exists efd. rewrite (proj2 (Z.leb_le 0 efd)) by lia.
  cbn zeta. destruct_if; [exists []; split; [apply balanced_nil|apply Hl]|].
  destruct (initial_loop _ _ _) as [[key rest]|]; [|exists []; split; [apply balanced_nil|apply Hl]]. destruct_if; [exists []; split; [apply balanced_nil|apply Hl]|].
  pose proof (press_loop_balanced vfd rest (after_delay t2 DETECTION_TIMEOUT) key 1) as Hp.
  destruct (press_loop _ _ _ _ _) as [[m|] fx']; cbn [snd] in Hp; [destruct_if|]; cbn [snd].
  - eexists (vibrate _ _ _ _ ++ fx' ++ vibrate _ _ _ _). split; [auto with prog|].
    by rewrite <- !app_assoc.
  - eexists (vibrate _ _ _ _ ++ fx'). split; [auto with prog|]. by rewrite <- !app_assoc.
  - eexists (vibrate _ _ _ _ ++ fx'). split; [auto with prog|]. by rewrite <- !app_assoc.
Qed.

(** Every descriptor the detector opens (the input devices that are
    rejected, those that are kept, the epoll handle and the vibrator's control
    file) is closed exactly once when it returns, on every path. *)
Theorem safemode_closes_all vibrator_fd skip dir efd ctl t1 t2 script :
  let fx := snd (detectSafemodeTrigger vibrator_fd skip dir efd ctl t1 t2 script) in
  opened fx ≡ₚ closed fx.
Proof.
  cbn zeta. pose proof (detect_shape vibrator_fd skip dir efd ctl t1 t2 script) as Hs.
  pose proof (openKeyDevices_spec dir) as Ho.
  destruct (openKeyDevices dir MAX_DEVICES) as [[fds held] fx]. destruct Ho as (_ & _ & Hf).
  destruct Hs as (e & mid & Hm & ->). by apply leave_balances.
Qed.

(** ** What the user feels *)

Definition durations (fx : list effect) : list Z :=
  omap (fun e => match e with FxVibrate d => Some d | _ => None end) fx.

Lemma durations_app a b : durations (a ++ b) = durations a ++ durations b.
Proof. apply omap_app. Qed.

Lemma durations_vibrate_loop n i d v : durations (vibrate_loop n i d v) = replicate n d.
Proof.
  revert i. induction n as [|n IH]; intros i; [done|]. cbn [vibrate_loop replicate].
  rewrite !durations_app, IH. by destruct (i =? 0)%nat.
Qed.

Lemma durations_vibrate vfd n d v : 0 <= vfd -> durations (vibrate vfd n d v) = replicate n d.
Proof.
  intros H. unfold vibrate. rewrite (proj2 (Z.ltb_ge vfd 0)) by lia.
  rewrite !durations_app, durations_vibrate_loop. apply app_nil_r.
Qed.

Lemma durations_leave efd fds : durations (leave efd fds) = [].
Proof.
  unfold leave. rewrite durations_app.
  assert (durations (map FxClose fds) = []) as -> by (induction fds as [|fd fds IH]; [done|exact IH]).
  by destruct (0 <=? efd).
Qed.

Lemma durations_open_loop devs m c key : durations (snd (open_loop devs m c key)) = [].
Proof.
  revert c key. induction devs as [|d devs IH]; intros c key; cbn [open_loop]; [done|].
  do 4 (destruct_if; try done; try apply IH).
  - specialize (IH c key). by destruct (open_loop devs m c key) as [[? ?] ?].
  - specialize (IH (S c) (held_loop physical_keycodes (d_held d) key)).
    by destruct (open_loop devs m (S c) _) as [[? ?] ?].
Qed.

Lemma durations_openKeyDevices dir m : durations (snd (openKeyDevices dir m)) = [].
Proof. destruct dir; [apply durations_open_loop|done]. Qed.

(** Short vibrations, one for each press that is not the last. *)
Definition short_ones (fx : list effect) (o : option Z) (n : Z) : Prop :=
  exists k, durations fx = replicate k VIBRATION_SHORT /\
    forall m, o = Some m ->
      n <= m /\ Z.of_nat k = Z.min m (DETECTION_PRESSES - 1) - Z.min n (DETECTION_PRESSES - 1).

Lemma short_ones_nil o n : (forall m, o = Some m -> m = n) -> short_ones [] o n.
Proof. intros H. exists 0%nat. split; [done|]. intros m ->%H. lia. Qed.

Lemma short_ones_app fx fx' m o n :
  short_ones fx (Some m) n -> short_ones fx' o m -> short_ones (fx ++ fx') o n.
Proof.
  intros (k & Hk & H) (k' & Hk' & H'). exists (k + k')%nat.
  rewrite durations_app, Hk, Hk', replicate_add. split; [done|].
  intros m' Hm. specialize (H m eq_refl). specialize (H' m' Hm). lia.
Qed.

Lemma press_reads_feedback vfd rs key n : 0 <= vfd ->
  short_ones (snd (press_reads vfd rs key n)) (fst (press_reads vfd rs key n)) n.
Proof.
  intros Hv. revert n. induction rs as [|r rs IH]; intros n; cbn [press_reads].
  { apply short_ones_nil. by intros m [= <-]. }
  destruct (press_of r) as [c|]; [|apply IH].
  destruct (key =? c); [|by apply short_ones_nil]. cbn zeta. specialize (IH (n + 1)).
  destruct (press_reads vfd rs key (n + 1)) as [o fx]. cbn [fst snd] in *.
  apply (short_ones_app _ _ (n + 1)); [|done].
  unfold DETECTION_PRESSES. destruct (Z.ltb_spec (n + 1) 5).
  - exists 1%nat. rewrite durations_vibrate by done. split; [done|]. intros m [= <-].
    unfold DETECTION_PRESSES. lia.
  - exists 0%nat. split; [done|]. intros m [= <-]. unfold DETECTION_PRESSES. lia.
Qed.

Lemma press_loop_feedback vfd script e key n : 0 <= vfd ->
  short_ones (snd (press_loop vfd script e key n)) (fst (press_loop vfd script e key n)) n.
Proof.
  intros Hv. revert n. induction script as [|s script IH]; intros n; cbn [press_loop];
    (destruct_if; [apply short_ones_nil; by intros m [= <-]|]).
  { apply short_ones_nil. by intros m [= <-]. }
  destruct_if; [apply short_ones_nil; by intros m [= <-]|].
  destruct (st_poll s) as [rs|]; [|by apply short_ones_nil].
  pose proof (press_reads_feedback vfd rs key n Hv) as Hr.
  destruct (press_reads vfd rs key n) as [[m|] fx]; [|done]. cbn [fst snd] in Hr.
  specialize (IH m). destruct (press_loop vfd script e key m) as [o fx']. cbn [fst snd] in *.
  by apply (short_ones_app _ _ m).
Qed.

Lemma not_long k : VIBRATION_LONG ∉ replicate k VIBRATION_SHORT.
Proof. intros [H _]%elem_of_replicate. done. Qed.

(** With a vibrator present, a detected sequence is acknowledged with
    exactly two short vibrations at its start, one for each of the presses two
    to four and a long one at the end; a sequence that is not detected never
    gets the long one. *)
Theorem safemode_feedback vibrator_fd skip dir efd ctl t1 t2 script :
  0 <= vibrator_fd ->
  let '(result, fx) := detectSafemodeTrigger vibrator_fd skip dir efd ctl t1 t2 script in
  if result then durations fx = [150; 150; 150; 150; 150; 500]
  else VIBRATION_LONG ∉ durations fx.
Proof.
  intros Hv. unfold detectSafemodeTrigger. pose proof (durations_openKeyDevices dir MAX_DEVICES) as Ho.
  destruct (openKeyDevices dir MAX_DEVICES) as [[fds held] fx]. cbn [snd] in Ho.
  assert (forall e e', durations (fx ++ leave e fds) = [] /\
            durations ((fx ++ [FxOpen e']) ++ leave e fds) = []) as Hl.
  { intros. rewrite !durations_app, Ho, durations_leave. done. }
  do 4 (destruct_if; [rewrite (proj1 (Hl _ 0)); apply not_elem_of_nil|]). cbn zeta.
  destruct_if; [rewrite (proj2 (Hl _ _)); apply not_elem_of_nil|].
  destruct (initial_loop _ _ _) as [[key rest]|]; [|rewrite (proj2 (Hl _ _)); apply not_elem_of_nil].
  destruct_if; [rewrite (proj2 (Hl _ _)); apply not_elem_of_nil|].
  pose proof (press_loop_feedback vibrator_fd rest (after_delay t2 DETECTION_TIMEOUT) key 1 Hv) as Hp.
  destruct (press_loop _ _ _ _ _) as [o fx']. cbn [fst snd] in Hp. destruct Hp as (k & Hk & Hm).
  destruct o as [m|]; [destruct (Z.leb_spec DETECTION_PRESSES m) as [H5|H5]|].
  - rewrite !durations_app, Ho, Hk, !durations_vibrate, durations_leave by done.
    destruct (Hm m eq_refl) as [_ Hk']. unfold DETECTION_PRESSES in *.
    assert (k = 3%nat) as -> by lia. done.
  - rewrite !durations_app, Ho, Hk, !durations_vibrate, durations_leave, !app_nil_r by done.
    apply (not_long (2 + k)).
  - rewrite !durations_app, Ho, Hk, !durations_vibrate, durations_leave, !app_nil_r by done.
    apply (not_long (2 + k)).
Qed.

(** A run on one device with the volume-down key: the press that starts the
    sequence and four more. *)
Definition demo_device : device :=
  mkDevice (lit "event0") 7 (replicate 14 0 ++ [4] ++ replicate 81 0) (replicate 96 0).
Definition demo_press (t : Z) : step := mkStep (mkTime t 0) (Some [Event EV_KEY 114 1; Event 0 0 0]).
Definition demo_script : list step := map demo_press [1; 2; 3; 3; 4].

Lemma safemode_feedback_witness :
  0 <= 9 /\
  (detectSafemodeTrigger 9 false (Some [demo_device]) 8 (fun _ => 0)
     (mkTime 0 0) (mkTime 1 0) demo_script).1 = true /\
  durations (detectSafemodeTrigger 9 false (Some [demo_device]) 8 (fun _ => 0)
               (mkTime 0 0) (mkTime 1 0) demo_script).2 = [150; 150; 150; 150; 150; 500].
Proof.
  split; [lia|]. split; [vm_compute; reflexivity|].
  exact (safemode_feedback 9 false (Some [demo_device]) 8 (fun _ => 0) (mkTime 0 0) (mkTime 1 0)
           demo_script ltac:(lia)).
Defined.
