(* ===== verification/FileSys.v ===== *)
(** * FileSys: the files as the services see them

    The stdio and system calls that the two file services of
    Xposed-master/xposed_service.cpp make are a class over a type of worlds [W]
    and of open streams [H].  [plain_file] says what the C library documents
    about a file whose contents do not change; [MemFS] is a world with one
    file, used where a theorem is applied. *)

From S2P Require Import Prelude CLib.

Definition EPERM : Z := 1.
Definition ENOENT : Z := 2.
Definition EBUSY : Z := 16.
Definition EISDIR : Z := 21.
Definition EINVAL : Z := 22.
Definition ENOMEM : Z := 12.
Definition ENAMETOOLONG : Z := 36.
Definition PATH_MAX : nat := 4096.

Record statbuf := mkStat { st_mode : Z; st_size : Z; st_mtime : Z }.

(** [access] and [stat] stand for the calls repeated while they are
    interrupted.  An error is the value of [errno]. *)
Class FileSys (W H : Type) := {
  f_access : cstr -> Z -> W -> (Z * Z) * W;
  f_stat : cstr -> W -> (Z + statbuf) * W;
  f_fopen : cstr -> W -> (Z + H) * W;
  f_fseek : H -> Z -> W -> Z * W;
  f_fread : H -> nat -> W -> list Z * W;
  f_ferror : H -> W -> Z;
  f_feof : H -> W -> bool;
  f_fclose : H -> W -> W
}.

(** A file at [path] with contents [c] for which [stat] reports [st].
    [inv] holds of the world while no stream is open, [stream h p] while [h] is
    at position [p]. *)
Record plain_file {W H} `{FileSys W H} (path : cstr) (c : list Z) (st : statbuf)
    (inv : W -> Prop) (stream : H -> nat -> W -> Prop) : Prop := mkPlainFile {
  pf_stat : forall w, inv w -> exists w', f_stat path w = (inr st, w') /\ inv w';
  pf_fopen : forall w, inv w -> exists h w', f_fopen path w = (inr h, w') /\ stream h 0%nat w';
  pf_fseek : forall h p w n, stream h p w -> 0 <= n ->
    exists w', f_fseek h n w = (0, w') /\ stream h (Z.to_nat n) w';
  pf_fread : forall h p w n, stream h p w -> (0 < n)%nat ->
    exists w', f_fread h n w = (take n (drop p c), w') /\
      stream h (p + length (take n (drop p c)))%nat w' /\
      f_ferror h w' = 0 /\ f_feof h w' = (length c <? p + n)%nat;
  pf_fclose : forall h p w, stream h p w -> inv (f_fclose h w)
}.

(** ** A world with one file *)

Record memfs := mkMemfs { m_content : list Z; m_stat : statbuf; m_pos : nat; m_eof : bool }.

#[export] Instance MemFS : FileSys memfs unit := {|
  f_access _ _ w := ((0, 0), w);
  f_stat _ w := (inr (m_stat w), w);
  f_fopen _ w := (inr tt, mkMemfs (m_content w) (m_stat w) 0 false);
  f_fseek _ n w := (0, mkMemfs (m_content w) (m_stat w) (Z.to_nat n) false);
  f_fread _ n w :=
    let got := take n (drop (m_pos w) (m_content w)) in
    (got, mkMemfs (m_content w) (m_stat w) (m_pos w + length got)
            (length (m_content w) <? m_pos w + n)%nat);
  f_ferror _ _ := 0;
  f_feof _ w := m_eof w;
  f_fclose _ w := w
|}.

Lemma memfs_plain path c st :
  plain_file path c st (fun w => m_content w = c /\ m_stat w = st)
    (fun _ p w => m_content w = c /\ m_stat w = st /\ m_pos w = p).
Proof.
  split.
  - intros w [? <-]. by exists w.
  - intros w [<- <-]. exists tt. by eexists.
  - intros h p w n (<- & <- & _) _. by eexists.
  - intros h p w n (<- & <- & <-) _. by eexists.
  - intros h p w (<- & <- & _). done.
Qed.
