(* ===== verification/Membased.v ===== *)
(** * Membased: file access through shared memory
      (Xposed-master/xposed_service.cpp, namespace membased)

    Zygote asks a helper process to open files for it.  Requests and answers
    are exchanged in one block of shared memory, guarded by a mutex and a
    condition variable.

    A client function is a [proc]: what it writes before each [callService], and
    how it goes on from the memory it finds when the answer is there.  [run] is
    its meaning when every call is answered at once by the server's [looper].
    [step] is the real execution: the threads of the server and of any number
    of clients, with the mutex, waiting, signals that wake one waiter, and
    spurious wakeups.  A thread's code between two operations on the mutex or
    the condition variable is one step; the reads after [makeIdle] has
    released the mutex are steps of their own. *)

From S2P Require Import Prelude CLib FileSys.

Inductive State := STATE_NOT_RUNNING | STATE_IDLE | STATE_SERVICE_ACTION | STATE_SERVER_RESPONSE.
Inductive Action := OP_NONE | OP_ACCESS_FILE | OP_STAT_FILE | OP_READ_FILE.

#[export] Instance State_eq_dec : EqDecision State.
Proof. solve_decision. Defined.

(** The union of the three requests: the member written last.  A field that a
    client leaves unset holds stale bytes until the server sets it. *)
Record AccessFileData := mkAccess { af_path : cstr; af_mode : Z; af_result : option Z }.
Record StatFileData := mkStatFile { sf_path : cstr; sf_st : option statbuf; sf_result : option Z }.
Record ReadFileData := mkRead {
  rf_path : cstr; rf_offset : Z; rf_totalSize : Z; rf_bytesRead : Z; rf_eof : bool;
  rf_content : list Z
}.
Inductive Data := DAccess (d : AccessFileData) | DStat (d : StatFileData) | DRead (d : ReadFileData).

Record MemBasedState := mkShared { state : State; action : Action; error : Z; data : Data }.

Definition set_state (s : State) (m : MemBasedState) := mkShared s (action m) (error m) (data m).
Definition set_error (e : Z) (m : MemBasedState) := mkShared (state m) (action m) e (data m).
Definition set_data (d : Data) (m : MemBasedState) := mkShared (state m) (action m) (error m) d.

Definition CHUNK : nat := (32 * 1024)%nat.

(** [init]: the mapping is zero-filled. *)
Definition init_shared : MemBasedState :=
  mkShared STATE_NOT_RUNNING OP_NONE 0 (DAccess (mkAccess [] 0 (Some 0))).

(** The process-wide variables of the client side. *)
Record genv := mkGenv { g_shared : bool; g_zygotePid : Z; g_canAlways : bool; g_pid : Z }.

Definition init (mmap_ok : bool) (pid : Z) (g : genv) : genv * bool :=
  if mmap_ok then (mkGenv true pid true pid, true)
  else (mkGenv false (g_zygotePid g) (g_canAlways g) pid, false).

Definition restrictMemoryInheritance (g : genv) : genv :=
  mkGenv (g_shared g) (g_zygotePid g) false (g_pid g).

Definition isServiceAccessible (g : genv) : genv * bool :=
  if negb (g_canAlways g) && (negb (g_shared g) || negb (g_zygotePid g =? g_pid g))
  then (mkGenv false (g_zygotePid g) (g_canAlways g) (g_pid g), false)
  else (g, true).

Section Membased.
Context {W H : Type} `{FileSys W H}.

(** ** The server *)

(** The cases of the switch of [looper]. *)
Definition do_access (d : AccessFileData) (m : MemBasedState) (w : W) : MemBasedState * W :=
  let '((result, errno), w) := f_access (af_path d) (af_mode d) w in
  let m := set_data (DAccess (mkAccess (af_path d) (af_mode d) (Some result))) m in
  (if negb (result =? 0) then set_error errno m else m, w).

Definition do_stat (d : StatFileData) (m : MemBasedState) (w : W) : MemBasedState * W :=
  match f_stat (sf_path d) w with
  | (inr st, w) => (set_data (DStat (mkStatFile (sf_path d) (Some st) (Some 0))) m, w)
  | (inl errno, w) =>
      (set_error errno (set_data (DStat (mkStatFile (sf_path d) (sf_st d) (Some (-1)))) m), w)
  end.

Definition do_read (d : ReadFileData) (m : MemBasedState) (w : W) : MemBasedState * W :=
  match f_stat (rf_path d) w with
  | (inl errno, w) => (set_error errno m, w)
  | (inr st, w) =>
      let total := s32 (st_size st) in
      let m := set_data (DRead (mkRead (rf_path d) (rf_offset d) total (rf_bytesRead d) (rf_eof d)
                                  (rf_content d))) m in
      match f_fopen (rf_path d) w with
      | (inl errno, w) => (set_error errno m, w)
      | (inr f, w) =>
          let '(seek, w) := if 0 <? rf_offset d then f_fseek f (rf_offset d) w else (0, w) in
          if negb (seek =? 0) then (set_error (f_ferror f w) m, f_fclose f w)
          else
            let '(content, w) := f_fread f CHUNK w in
            let m := set_data (DRead (mkRead (rf_path d) (rf_offset d) total
                                        (Z.of_nat (length content)) (f_feof f w) content)) m in
            (set_error (f_ferror f w) m, f_fclose f w)
      end
  end.

(** One turn of [looper] once the state is STATE_SERVICE_ACTION, up to the
    signal.  The action and the member of the union belong together. *)
Definition serve_action (m : MemBasedState) (w : W) : MemBasedState * W :=
  let '(m, w) :=
    match action m, data m with
    | OP_ACCESS_FILE, DAccess d => do_access d m w
    | OP_STAT_FILE, DStat d => do_stat d m w
    | OP_READ_FILE, DRead d => do_read d m w
    | _, _ => (m, w)
    end in
  (set_state STATE_SERVER_RESPONSE m, w).
End Membased.

(** ** Client functions *)

(** [Call a write k]: [write] to the shared memory, call the service, go on with
    [k] from the memory with the answer.  [Finish write fin]: [write], make the
    service idle and release the mutex; [fin] computes the result from the
    memory as it is when [errno] is set and when the function returns. *)
Inductive proc (R : Type) : Type :=
| Finish (write : MemBasedState -> MemBasedState) (fin : MemBasedState -> MemBasedState -> R)
| Call (a : Action) (write : MemBasedState -> MemBasedState) (k : MemBasedState -> proc R)
| Crash (f : fault).
Arguments Finish {R}.
Arguments Call {R}.
Arguments Crash {R}.

(** The first half of [callService]. *)
Definition request (a : Action) (write : MemBasedState -> MemBasedState) (m : MemBasedState) : MemBasedState :=
  mkShared STATE_SERVICE_ACTION a 0 (data (write m)).

(** [makeIdle] up to the signal. *)
Definition makeIdle (m : MemBasedState) : MemBasedState :=
  mkShared STATE_IDLE OP_NONE (error m) (data m).

(** What a function returns, and [errno] after it. *)
Inductive value :=
| VInt (ret : option Z)
| VStat (ret : option Z) (st : option statbuf)
| VBuf (result : option (list (option Z))) (bytesRead : Z).
Record outcome := mkOutcome { o_errno : Z; o_value : value }.

Definition access_result (m : MemBasedState) : option Z :=
  match data m with DAccess d => af_result d | _ => None end.
Definition stat_result (m : MemBasedState) : option Z :=
  match data m with DStat d => sf_result d | _ => None end.
Definition stat_st (m : MemBasedState) : option statbuf :=
  match data m with DStat d => sf_st d | _ => None end.
Definition read_data (m : MemBasedState) : option ReadFileData :=
  match data m with DRead d => Some d | _ => None end.

(** [return shared->error ? -1 : data->result]. *)
Definition or_error (m : MemBasedState) (r : option Z) : option Z :=
  if negb (error m =? 0) then Some (-1) else r.

Definition accessFile_proc (path : cstr) (mode : Z) : proc outcome :=
  Call OP_ACCESS_FILE (set_data (DAccess (mkAccess path mode None))) (fun _ =>
  Finish id (fun m1 m2 => mkOutcome (error m1) (VInt (or_error m2 (access_result m2))))).

Definition statFile_proc (path : cstr) : proc outcome :=
  Call OP_STAT_FILE (fun m => set_data (DStat (mkStatFile path (stat_st m) None)) m) (fun m =>
  let st := stat_st m in
  Finish id (fun m1 m2 => mkOutcome (error m1) (VStat (or_error m2 (stat_result m2)) st))).

(** The label [bail]: the result is freed when there was an error. *)
Definition bail (write : MemBasedState -> MemBasedState) (result : option (list (option Z)))
    (bytesRead : Z) : proc outcome :=
  Finish write (fun m1 m2 =>
    let failed := negb (error m1 =? 0) in
    mkOutcome (error m2) (VBuf (if failed then None else result) bytesRead)).

(** [memcpy] into the allocated block; it faults past the end of it. *)
Definition memcpy_into (dst : list (option Z)) (at_ : Z) (src : list Z) (n : Z) : cres (list (option Z)) :=
  if (n <? 0) || (at_ <? 0) || (Z.of_nat (length dst) <? at_ + n) then Fault OutOfBounds
  else
    let a := Z.to_nat at_ in
    let n := Z.to_nat n in
    Done (take a dst ++ map Some (take n src) ++ drop (a + n) dst).

(** [while (!data->eof)]. *)
Fixpoint readFile_loop (fuel : nat) (path : cstr) (result : list (option Z)) (totalSize offset : Z)
    (d : ReadFileData) : proc outcome :=
  if rf_eof d then bail id (Some result) (s32 (offset + rf_bytesRead d))
  else
    match fuel with
    | O => Crash OutOfFuel
    | S fuel =>
        let offset := offset + rf_bytesRead d in
        Call OP_READ_FILE
          (fun m => set_data (DRead (mkRead path offset (rf_totalSize d) (rf_bytesRead d) (rf_eof d)
                                       (rf_content d))) m)
          (fun m =>
             if negb (error m =? 0) then bail id (Some result) 0
             else
               match read_data m with
               | None => Crash NullDeref
               | Some d =>
                   if totalSize <? offset + rf_bytesRead d then bail (set_error EBUSY) (Some result) 0
                   else
                     match memcpy_into result offset (rf_content d) (rf_bytesRead d) with
                     | Done result => readFile_loop fuel path result totalSize offset d
                     | Fault f => Crash f
                     end
               end)
    end.

(** [malloc (totalSize + 1)] and the terminator; the size is an [int].  [malloc]
    tells whether there is memory; its answer is not tested. *)
Definition alloc (malloc : Z -> bool) (totalSize : Z) : cres (list (option Z)) :=
  if (totalSize <? 0) || (2 ^ 31 - 1 <=? totalSize) then Fault OutOfBounds
  else if negb (malloc (totalSize + 1)) then Fault NullDeref
  else Done (replicate (Z.to_nat totalSize) None ++ [Some 0]).

Definition readFile_proc (malloc : Z -> bool) (fuel : nat) (path : cstr) : proc outcome :=
  Call OP_READ_FILE
    (fun m => match read_data m with
              | Some d => set_data (DRead (mkRead path 0 (rf_totalSize d) (rf_bytesRead d) (rf_eof d)
                                             (rf_content d))) m
              | None => set_data (DRead (mkRead path 0 0 0 false [])) m
              end)
    (fun m =>
       if negb (error m =? 0) then bail id None 0
       else
         match read_data m with
         | None => Crash NullDeref
         | Some d =>
             match (result ← alloc malloc (rf_totalSize d);
                    memcpy_into result 0 (rf_content d) (rf_bytesRead d)) with
             | Done result => readFile_loop fuel path result (rf_totalSize d) 0 d
             | Fault f => Crash f
             end
         end).

(** The functions with their tests before [waitForIdle]. *)
Definition guarded (g : genv) (path : cstr) (fail : value) (p : proc outcome) : outcome + proc outcome :=
  if negb (snd (isServiceAccessible g)) then inl (mkOutcome EPERM fail)
  else if (PATH_MAX - 1 <? length path)%nat then inl (mkOutcome ENAMETOOLONG fail)
  else inr p.

Definition accessFile (g : genv) (path : cstr) (mode : Z) : outcome + proc outcome :=
  guarded g path (VInt (Some (-1))) (accessFile_proc path mode).
Definition statFile (g : genv) (path : cstr) : outcome + proc outcome :=
  guarded g path (VStat (Some (-1)) None) (statFile_proc path).
Definition readFile (malloc : Z -> bool) (g : genv) (fuel : nat) (path : cstr) : outcome + proc outcome :=
  guarded g path (VBuf None 0) (readFile_proc malloc fuel path).

(** ** Sequential meaning *)

Section Run.
Context {W H : Type} `{FileSys W H}.

(** The function run from a given memory, each call answered at once. *)
Fixpoint run {R} (p : proc R) (m : MemBasedState) (w : W) : cres (R * MemBasedState * W) :=
  match p with
  | Finish write fin =>
      let m := makeIdle (write m) in Done (fin m m, m, w)
  | Call a write k =>
      let '(m, w) := serve_action (request a write m) w in run (k m) m w
  | Crash f => Fault f
  end.

(** The calls of one client, one after the other. *)
Fixpoint run_all {R} (ps : list (proc R)) (m : MemBasedState) (w : W) : cres (list R * MemBasedState * W) :=
  match ps with
  | [] => Done ([], m, w)
  | p :: ps =>
      '(r, m, w) ← run p m w;
      '(rs, m, w) ← run_all ps m w;
      Done (r :: rs, m, w)
  end.
End Run.

(** ** Threads *)

(** Where the server is: before its first lock, inside of the mutex at the test
    of its waiting loop, waiting for a signal, or woken and waiting for the
    mutex. *)
Inductive spc := SStart | SLoop | SWait | SWoken.

#[export] Instance spc_eq_dec : EqDecision spc.
Proof. solve_decision. Defined.

(** Where a client is in its current function: waiting to enter, at the test of
    [waitForIdle], at the test of [callService], after [makeIdle] with the two
    reads left, between calls, or crashed with the mutex in its hands. *)
Inductive cpc (R : Type) :=
| CStart (p : proc R)
| CIdle (p : proc R)
| CIdleWait (p : proc R)
| CIdleWoken (p : proc R)
| CResp (k : MemBasedState -> proc R)
| CRespWait (k : MemBasedState -> proc R)
| CRespWoken (k : MemBasedState -> proc R)
| CPost (fin : MemBasedState -> MemBasedState -> R)
| CPost2 (fin : MemBasedState -> R)
| CRest
| CCrash (f : fault).
Arguments CStart {R}. Arguments CIdle {R}. Arguments CIdleWait {R}. Arguments CIdleWoken {R}.
Arguments CResp {R}. Arguments CRespWait {R}. Arguments CRespWoken {R}.
Arguments CPost {R}. Arguments CPost2 {R}. Arguments CRest {R}. Arguments CCrash {R}.

(** A client: its place, the calls it has still to make and what the earlier
    ones returned. *)
Record client (R : Type) := mkClient { c_pc : cpc R; c_todo : list (proc R); c_results : list R }.
Arguments mkClient {R}. Arguments c_pc {R}. Arguments c_todo {R}. Arguments c_results {R}.

Inductive tid := Server | Client (i : nat).

Record sys (W R : Type) := mkSys {
  shared : MemBasedState;
  world : W;
  holder : option tid;
  server : spc;
  clients : list (client R)
}.
Arguments mkSys {W R}. Arguments shared {W R}. Arguments world {W R}. Arguments holder {W R}.
Arguments server {W R}. Arguments clients {W R}.

Definition set_pc {R} (pc : cpc R) (c : client R) : client R := mkClient pc (c_todo c) (c_results c).

(** What a signal makes of a place: [None] if the thread is not waiting. *)
Definition wake_pc {R} (pc : cpc R) : option (cpc R) :=
  match pc with
  | CIdleWait p => Some (CIdleWoken p)
  | CRespWait k => Some (CRespWoken k)
  | _ => None
  end.
Definition wake_client {R} (c : client R) : option (client R) :=
  match wake_pc (c_pc c) with Some pc => Some (set_pc pc c) | None => None end.

(** [pthread_cond_signal]: one waiting thread is woken, if there is one. *)
Inductive wakes {R} : spc -> list (client R) -> spc -> list (client R) -> Prop :=
| wakes_server cs : wakes SWait cs SWoken cs
| wakes_client sp cs i c c' : cs !! i = Some c -> wake_client c = Some c' ->
    wakes sp cs sp (<[i := c']> cs).

Definition nobody_waits {R} (sp : spc) (cs : list (client R)) : Prop :=
  sp <> SWait /\ forall i c, cs !! i = Some c -> wake_client c = None.

Definition signal {R} (sp : spc) (cs : list (client R)) (sp' : spc) (cs' : list (client R)) : Prop :=
  wakes sp cs sp' cs' \/ (nobody_waits sp cs /\ sp' = sp /\ cs' = cs).

Section Threads.
Context {W H R : Type} `{FileSys W H}.
Implicit Types (s : sys W R) (cs : list (client R)).

(** A client that has the mutex continues its function. *)
Inductive proceed (i : nat) (c : client R) (m : MemBasedState) (w : W) (sp : spc) cs
    : proc R -> sys W R -> Prop :=
| proceed_call a write k sp' cs' :
    signal sp (<[i := set_pc (CResp k) c]> cs) sp' cs' ->
    proceed i c m w sp cs (Call a write k) (mkSys (request a write m) w (Some (Client i)) sp' cs')
| proceed_finish write fin sp' cs' :
    signal sp (<[i := set_pc (CPost fin) c]> cs) sp' cs' ->
    proceed i c m w sp cs (Finish write fin) (mkSys (makeIdle (write m)) w None sp' cs')
| proceed_crash f :
    proceed i c m w sp cs (Crash f)
      (mkSys m w (Some (Client i)) sp (<[i := set_pc (CCrash f) c]> cs)).

(** The steps of the server, of a client, and wakeups without a signal. *)
Inductive server_step : sys W R -> sys W R -> Prop :=
| server_start m w cs sp' cs' :
    signal SLoop cs sp' cs' ->
    server_step (mkSys m w None SStart cs)
                (mkSys (set_state STATE_IDLE m) w (Some Server) sp' cs')
| server_wait m w cs : state m <> STATE_SERVICE_ACTION ->
    server_step (mkSys m w (Some Server) SLoop cs) (mkSys m w None SWait cs)
| server_serve m w cs m' w' sp' cs' : state m = STATE_SERVICE_ACTION ->
    serve_action m w = (m', w') -> signal SLoop cs sp' cs' ->
    server_step (mkSys m w (Some Server) SLoop cs) (mkSys m' w' (Some Server) sp' cs')
| server_relock m w cs :
    server_step (mkSys m w None SWoken cs) (mkSys m w (Some Server) SLoop cs).

Definition put (i : nat) (c : client R) (pc : cpc R) cs : list (client R) := <[i := set_pc pc c]> cs.

Inductive client_step (i : nat) : sys W R -> sys W R -> Prop :=
| client_next m w h sp cs p ps rs : cs !! i = Some (mkClient CRest (p :: ps) rs) ->
    client_step i (mkSys m w h sp cs) (mkSys m w h sp (<[i := mkClient (CStart p) ps rs]> cs))
| client_lock m w sp cs c p : cs !! i = Some c -> c_pc c = CStart p ->
    client_step i (mkSys m w None sp cs) (mkSys m w (Some (Client i)) sp (put i c (CIdle p) cs))
| client_idle_wait m w sp cs c p : cs !! i = Some c -> c_pc c = CIdle p -> state m <> STATE_IDLE ->
    client_step i (mkSys m w (Some (Client i)) sp cs) (mkSys m w None sp (put i c (CIdleWait p) cs))
| client_idle_go m w sp cs c p s' : cs !! i = Some c -> c_pc c = CIdle p -> state m = STATE_IDLE ->
    proceed i c m w sp cs p s' ->
    client_step i (mkSys m w (Some (Client i)) sp cs) s'
| client_idle_relock m w sp cs c p : cs !! i = Some c -> c_pc c = CIdleWoken p ->
    client_step i (mkSys m w None sp cs) (mkSys m w (Some (Client i)) sp (put i c (CIdle p) cs))
| client_resp_wait m w sp cs c k : cs !! i = Some c -> c_pc c = CResp k ->
    state m <> STATE_SERVER_RESPONSE ->
    client_step i (mkSys m w (Some (Client i)) sp cs) (mkSys m w None sp (put i c (CRespWait k) cs))
| client_resp_go m w sp cs c k s' : cs !! i = Some c -> c_pc c = CResp k ->
    state m = STATE_SERVER_RESPONSE -> proceed i c m w sp cs (k m) s' ->
    client_step i (mkSys m w (Some (Client i)) sp cs) s'
| client_resp_relock m w sp cs c k : cs !! i = Some c -> c_pc c = CRespWoken k ->
    client_step i (mkSys m w None sp cs) (mkSys m w (Some (Client i)) sp (put i c (CResp k) cs))
| client_post m w h sp cs c fin : cs !! i = Some c -> c_pc c = CPost fin ->
    client_step i (mkSys m w h sp cs) (mkSys m w h sp (put i c (CPost2 (fin m)) cs))
| client_post2 m w h sp cs c fin : cs !! i = Some c -> c_pc c = CPost2 fin ->
    client_step i (mkSys m w h sp cs)
      (mkSys m w h sp (<[i := mkClient CRest (c_todo c) (c_results c ++ [fin m])]> cs)).

Inductive spurious : sys W R -> sys W R -> Prop :=
| spurious_wakeup m w h sp cs sp' cs' : wakes sp cs sp' cs' ->
    spurious (mkSys m w h sp cs) (mkSys m w h sp' cs').

Definition step s s' : Prop := server_step s s' \/ exists i, client_step i s s'.
Definition step_any s s' : Prop := step s s' \/ spurious s s'.

Definition start (w : W) (todo : list (list (proc R))) : sys W R :=
  mkSys init_shared w None SStart (map (fun ps => mkClient CRest ps []) todo).

Definition finished (c : client R) : Prop := c_pc c = CRest /\ c_todo c = [].
End Threads.

(** ** One client: the invariant *)

Section OneClient.
Context {W H R : Type} `{FileSys W H}.
Implicit Types (s : sys W R) (c : client R).

Definition holding (pc : cpc R) : bool :=
  match pc with CIdle _ | CResp _ | CCrash _ => true | _ => false end.

Definition crashed (pc : cpc R) : bool := match pc with CCrash _ => true | _ => false end.

Definition holder_of (sp : spc) (pc : cpc R) (h : option tid) : Prop :=
  match h with
  | None => sp <> SLoop /\ holding pc = false
  | Some Server => sp = SLoop /\ holding pc = false
  | Some (Client i) => i = 0%nat /\ sp <> SLoop /\ holding pc = true
  end.

(** Which states go with which places. *)
Definition phase (sp : spc) (pc : cpc R) (st : State) : Prop :=
  match pc with
  | CResp _ | CRespWoken _ => sp <> SStart /\ (st = STATE_SERVICE_ACTION \/ st = STATE_SERVER_RESPONSE)
  | CRespWait _ => sp <> SStart /\ st = STATE_SERVICE_ACTION
  | CIdleWait _ => sp = SStart /\ st = STATE_NOT_RUNNING
  | CPost _ | CPost2 _ => sp <> SStart /\ st = STATE_IDLE
  | CCrash _ => sp <> SStart
  | _ => (sp = SStart /\ st = STATE_NOT_RUNNING) \/ (sp <> SStart /\ st = STATE_IDLE)
  end.

Record Inv (m : MemBasedState) (h : option tid) (sp : spc) (c : client R) : Prop := mkInv {
  inv_holder : holder_of sp (c_pc c) h;
  inv_phase : phase sp (c_pc c) (state m);
  inv_server : sp = SWait -> state m = STATE_SERVICE_ACTION -> crashed (c_pc c) = true
}.

(** What the client's calls will have returned in the end, seen from a state
    in the middle of the execution. *)
Definition rest (c : client R) (x : cres (R * MemBasedState * W)) : cres (list R) :=
  '(r, m, w) ← x;
  '(rs, _, _) ← run_all (c_todo c) m w;
  Done (c_results c ++ r :: rs).

Definition expected (m : MemBasedState) (w : W) (c : client R) : cres (list R) :=
  match c_pc c with
  | CStart p | CIdle p | CIdleWait p | CIdleWoken p => rest c (run p (set_state STATE_IDLE m) w)
  | CResp k | CRespWait k | CRespWoken k =>
      let '(m, w) := if decide (state m = STATE_SERVICE_ACTION) then serve_action m w else (m, w) in
      rest c (run (k m) m w)
  | CPost fin => rest c (Done (fin m m, m, w))
  | CPost2 fin => rest c (Done (fin m, m, w))
  | CRest =>
      '(rs, _, _) ← run_all (c_todo c) (set_state STATE_IDLE m) w;
      Done (c_results c ++ rs)
  | CCrash f => Fault f
  end.

Lemma signal_one sp c sp' cs' :
  signal sp [c] sp' cs' ->
  (sp = SWait /\ sp' = SWoken /\ cs' = [c]) \/
  (exists c', wake_client c = Some c' /\ sp' = sp /\ cs' = [c']) \/
  (sp <> SWait /\ wake_client c = None /\ sp' = sp /\ cs' = [c]).
Proof.
  intros [Hw|((Hs & Hn) & -> & ->)].
  - inversion Hw as [|? ? i x c' Hi Hc]; subst; [by left|]. right; left.
    destruct i; [|done]. injection Hi as ->. by exists c'.
  - right; right. split_and!; try done. by apply (Hn 0%nat).
Qed.

Lemma set_state_self m st : state m = st -> set_state st m = m.
Proof. intros <-. by destruct m. Qed.

Lemma state_serve m w m' w' : serve_action m w = (m', w') -> state m' = STATE_SERVER_RESPONSE.
Proof. unfold serve_action. intros E. case_match. by injection E as <- _. Qed.

(** A wakeup changes neither the invariant nor the expectation. *)
Lemma wake_expected m w c c' : wake_client c = Some c' -> expected m w c' = expected m w c.
Proof.
  unfold wake_client, expected. destruct c as [pc todo rs]. cbn. destruct pc; by intros [= <-].
Qed.

(** One step of the server or the client keeps the invariant and what is
    expected. *)
Definition good (exp : cres (list R)) (s : sys W R) : Prop :=
  exists c, clients s = [c] /\ Inv (shared s) (holder s) (server s) c /\
    expected (shared s) (world s) c = exp.

Ltac phase_tac := cbn in *; intuition (congruence || eauto).

Lemma good_proceed c m w sp p s' :
  sp <> SLoop -> sp <> SStart -> proceed 0 c m w sp [c] p s' -> good (rest c (run p m w)) s'.
Proof.
  intros Hl Hs Hp. inversion Hp as [a write k sp' cs' Hsig|write fin sp' cs' Hsig|f]; subst; clear Hp.
  - apply signal_one in Hsig as [(-> & -> & ->)|[(c' & Hw & _)|(Hw & _ & -> & ->)]]; [|done|];
      (eexists; split; [done|]; split; [split; cbn; auto; done|]); cbn;
      by destruct (serve_action (request a write m) w).
  - apply signal_one in Hsig as [(-> & -> & ->)|[(c' & Hw & _)|(Hw & _ & -> & ->)]]; [|done|];
      (eexists; split; [done|]; split; [split; cbn; auto; done|done]).
  - eexists; split; [done|]. split; [|done]. split; cbn; eauto.
Qed.

Lemma good_server exp s s' : good exp s -> server_step s s' -> good exp s'.
Proof.
  intros ([pc todo rs] & Ec & [Hh Hp Hv] & He) Hst.
  destruct Hst as [m w cs sp' cs' Hsig|m w cs Hne|m w cs m' w' sp' cs' Ha Hr Hsig|m w cs]; cbn in *; subst.
  - apply signal_one in Hsig as [(? & _)|[(c' & Hw & -> & ->)|(_ & Hw & -> & ->)]]; [done| |].
    + destruct pc; try done; injection Hw as <-; [|phase_tac].
      eexists; split; [done|]. split; [split; phase_tac|done].
    + destruct pc; try done; try solve [phase_tac];
        (eexists; split; [done|]; split; [split; phase_tac|done]).
  - eexists; split; [done|]. split; [|done]. split; try done; destruct pc; phase_tac.
  - pose proof (state_serve _ _ _ _ Hr) as Hs'.
    apply signal_one in Hsig as [(? & _)|[(c' & Hw & -> & ->)|(_ & Hw & -> & ->)]]; [done| |].
    + destruct pc; try done; injection Hw as <-; [phase_tac|].
      eexists; split; [done|]. split; [split; phase_tac|]. unfold expected; cbn.
      rewrite decide_False by congruence. rewrite decide_True by done. by rewrite Hr.
    + destruct pc; try done; try solve [phase_tac];
        (eexists; split; [done|]; split; [split; phase_tac|]); unfold expected; cbn;
        rewrite decide_False by congruence; rewrite decide_True by done; by rewrite Hr.
  - eexists; split; [done|]. split; [|done]. split; try done; destruct pc; phase_tac.
Qed.

Lemma good_spurious exp s s' : good exp s -> spurious s s' -> good exp s'.
Proof.
  intros ([pc todo rs] & Ec & [Hh Hp Hv] & He) Hst.
  destruct Hst as [m w h sp cs sp' cs' Hw]; cbn in *; subst.
  inversion Hw as [|? ? i x c' Hi Hc]; subst.
  - eexists; split; [done|]. split; [|done]. split; [|destruct pc; phase_tac|phase_tac].
    destruct h as [[|i]|]; phase_tac.
  - destruct i; [|done]. injection Hi as <-. eexists; split; [done|]. split; [|by rewrite (wake_expected _ _ _ _ Hc)].
    destruct pc; try done; injection Hc as <-; (split; [by destruct h as [[|i]|]|phase_tac|phase_tac]).
Qed.

Lemma good_client exp s s' i : good exp s -> client_step i s s' -> good exp s'.
Proof.
  intros ([pc todo rs] & Ec & [Hh Hp Hv] & He) Hst.
  assert (i = 0%nat) as ->.
  { destruct i as [|i]; [done|]. destruct Hst; cbn in *; subst; done. }
  destruct Hst; cbn in *; subst; simplify_eq/=;
    try (eexists; split; [done|]; split; [split; phase_tac|done]).
  - eexists; split; [done|]. split; [split; phase_tac|]. unfold expected, rest; cbn.
    destruct (run p _ w) as [[[r m1] w1]|]; [|done]. cbn.
    by destruct (run_all ps m1 w1) as [[[? ?] ?]|].
  - unfold expected; cbn. rewrite set_state_self by done.
    eapply (good_proceed (mkClient (CIdle p) todo rs)); [| |done]; phase_tac.
  - unfold expected; cbn. rewrite decide_False by congruence.
    eapply (good_proceed (mkClient (CResp k) todo rs)); [| |done]; phase_tac.
  - eexists; split; [done|]. split; [split; phase_tac|]. unfold expected, rest; cbn.
    rewrite set_state_self by (cbn in *; tauto).
    destruct (run_all todo m w) as [[[? ?] ?]|]; [|done]. cbn. by rewrite <- app_assoc.
Qed.

Lemma good_start w ps : good (expected init_shared w (mkClient CRest ps [])) (start w [ps]).
Proof. eexists; split; [done|]. split; [|done]. split; phase_tac. Qed.

Lemma good_reachable w ps s : rtc step_any (start w [ps]) s ->
  good (expected init_shared w (mkClient CRest ps [])) s.
Proof.
  intros Hr. eapply (rtc_ind_r (good _)) in Hr; [exact Hr|apply good_start|].
  intros x y _ [[Hs|[i Hs]]|Hs] Hg;
    eauto using good_server, good_client, good_spurious.
Qed.
End OneClient.

(** ** One client: progress and termination

    Between two events that bring the client forward ([next]) only finitely
    many steps are possible, counted by [local_weight]. *)

Section Termination.
Context {W H R : Type} `{FileSys W H}.
Implicit Types (s : sys W R) (exp : cres (list R)).

Definition canon (c : client R) : client R :=
  match c_pc c with
  | CIdle p | CIdleWait p | CIdleWoken p => set_pc (CStart p) c
  | CRespWait k | CRespWoken k => set_pc (CResp k) c
  | _ => c
  end.

Definition after (p : proc R) : cpc R :=
  match p with Call _ _ k => CResp k | Finish _ fin => CPost fin | Crash f => CCrash f end.

Inductive next : client R -> client R -> Prop :=
| next_call p ps rs : next (mkClient CRest (p :: ps) rs) (mkClient (CStart p) ps rs)
| next_go p ps rs : next (mkClient (CStart p) ps rs) (mkClient (after p) ps rs)
| next_resp k m ps rs : next (mkClient (CResp k) ps rs) (mkClient (after (k m)) ps rs)
| next_post fin m ps rs : next (mkClient (CPost fin) ps rs) (mkClient (CPost2 (fin m)) ps rs)
| next_done fin m ps rs : next (mkClient (CPost2 fin) ps rs) (mkClient CRest ps (rs ++ [fin m])).

Lemma after_acc ps (Hrest : forall rs, Acc (flip next) (mkClient CRest ps rs)) p rs :
  Acc (flip next) (mkClient (after p) ps rs).
Proof.
  revert rs. induction p as [write fin|a write k IHk|f]; intros rs; cbn;
    constructor; intros c1 H1; inversion H1; subst; [|apply IHk].
  constructor. intros c2 H2. inversion H2; subst. apply Hrest.
Qed.

Lemma rest_acc ps rs : Acc (flip next) (mkClient CRest ps rs).
Proof.
  revert rs. induction ps as [|p ps IH]; intros rs; constructor; intros c1 H1; inversion H1; subst.
  constructor. intros c2 H2. inversion H2; subst. by apply after_acc.
Qed.

Lemma next_acc c : Acc (flip next) c.
Proof.
  constructor. intros c1 H1. destruct H1; try apply after_acc; auto using rest_acc.
  - constructor. intros c2 H2. inversion H2; subst. apply after_acc, rest_acc.
  - constructor. intros c2 H2. inversion H2; subst. apply rest_acc.
Qed.

Definition client_weight (pc : cpc R) : nat :=
  match pc with
  | CStart _ | CIdleWoken _ | CRespWoken _ => 2
  | CIdle _ | CResp _ => 1
  | _ => 0
  end%nat.
Definition server_weight (sp : spc) : nat :=
  match sp with SStart => 10 | SWoken => 2 | SLoop => 1 | SWait => 0 end%nat.
Definition local_weight (s : sys W R) (c : client R) : nat :=
  (client_weight (c_pc c) + server_weight (server s) +
   (if decide (state (shared s) = STATE_SERVICE_ACTION) then 5 else 0))%nat.

(** A step is a turn inside of the same stage, or brings the client forward. *)
Definition advances (s s' : sys W R) (c : client R) : Prop :=
  exists c', clients s' = [c'] /\
    (next (canon c) (canon c') \/ (canon c' = canon c /\ (local_weight s' c' < local_weight s c)%nat)).

Ltac weigh := right; split; [done|]; unfold local_weight; cbn in *; repeat case_decide; cbn; try congruence; lia.

Lemma canon_wake c c' : wake_client c = Some c' -> canon c' = canon c.
Proof. destruct c as [[] ? ?]; by intros [= <-]. Qed.

Lemma server_advances exp s s' c :
  good exp s -> clients s = [c] -> server_step s s' -> advances s s' c.
Proof.
  intros (c0 & Ec0 & [Hh Hp Hv] & _) Ec Hst. rewrite Ec in Ec0. injection Ec0 as <-.
  destruct Hst as [m w cs sp' cs' Hsig|m w cs Hne|m w cs m' w' sp' cs' Ha Hr Hsig|m w cs]; cbn in *; subst.
  - apply signal_one in Hsig as [(? & _)|[(c' & Hw & -> & ->)|(_ & Hw & -> & ->)]]; [done| |];
      (eexists; split; [done|]).
    + right. split; [by apply canon_wake|]. destruct c as [[] ? ?]; try done; injection Hw as <-;
      unfold local_weight; cbn; repeat case_decide; cbn; try congruence; lia.
    + weigh.
  - eexists; split; [done|]. weigh.
  - pose proof (state_serve _ _ _ _ Hr).
    apply signal_one in Hsig as [(? & _)|[(c' & Hw & -> & ->)|(_ & Hw & -> & ->)]]; [done| |];
      (eexists; split; [done|]).
    + right. split; [by apply canon_wake|]. destruct c as [[] ? ?]; try done; injection Hw as <-;
      unfold local_weight; cbn; repeat case_decide; cbn; try congruence; lia.
    + weigh.
  - eexists; split; [done|]. weigh.
Qed.

Lemma proceed_next c m (w : W) sp p s' : proceed 0 c m w sp [c] p s' ->
  exists c', clients s' = [c'] /\ canon c' = set_pc (after p) c.
Proof.
  intros Hp. inversion Hp as [a write k sp' cs' Hsig|write fin sp' cs' Hsig|f]; subst; clear Hp;
    [..|by eexists];
    apply signal_one in Hsig as [(-> & -> & ->)|[(c' & Hw & _)|(Hw & _ & -> & ->)]];
    done || by eexists.
Qed.

Lemma client_advances exp s s' c i :
  good exp s -> clients s = [c] -> client_step i s s' -> advances s s' c.
Proof.
  intros (c0 & Ec0 & [Hh Hp Hv] & _) Ec Hst. rewrite Ec in Ec0. injection Ec0 as <-.
  assert (i = 0%nat) as ->.
  { destruct i as [|i]; [done|]. destruct Hst; cbn in *; subst; done. }
  destruct c as [pc todo rs]. destruct Hst; cbn in *; subst; simplify_eq/=;
    try (eexists; split; [done|]; solve [weigh | left; constructor]);
    match goal with Hg : proceed _ _ _ _ _ _ _ _ |- _ => apply proceed_next in Hg as (c' & E & Hc) end;
    exists c'; (split; [done|]); left; rewrite Hc; constructor.
Qed.

Lemma step_advances exp s s' c : good exp s -> clients s = [c] -> step s s' -> advances s s' c.
Proof. intros Hg Hc [Hs|[i Hs]]; eauto using server_advances, client_advances. Qed.

Lemma good_step exp s s' : good exp s -> step s s' -> good exp s'.
Proof. intros Hg [Hs|[i Hs]]; eauto using good_server, good_client. Qed.

Lemma good_terminates exp s : good exp s -> Acc (flip step) s.
Proof.
  intros Hg. pose proof Hg as (c & Ec & _). remember (canon c) as a eqn:Ea.
  revert s c Hg Ec Ea. induction (next_acc a) as [a _ IHa].
  intros s c Hg Ec ->. remember (local_weight s c) as n eqn:En.
  revert s c Hg Ec IHa En. induction n as [n IHn] using lt_wf_ind.
  intros s c Hg Ec IHa ->. constructor. intros s' Hst.
  destruct (step_advances _ _ _ _ Hg Ec Hst) as (c' & Ec' & [Hn|[Hc Hw]]).
  - eapply IHa; eauto using good_step.
  - eapply (IHn _ Hw s' c'); eauto using good_step. by rewrite Hc.
Qed.

Lemma signal_exists sp (c : client R) : exists sp' cs', signal sp [c] sp' cs'.
Proof.
  destruct (decide (sp = SWait)) as [->|Hs]; [exists SWoken, [c]; left; constructor|].
  destruct (wake_client c) as [c'|] eqn:Ew.
  - exists sp, [c']. left. by apply (wakes_client _ [c] 0 c c').
  - exists sp, [c]. right. split; [|done]. split; [done|]. by intros [|i] x [= <-].
Qed.

Lemma proceed_exists c m (w : W) sp p : exists s', proceed 0 c m w sp [c] p s'.
Proof.
  destruct p as [write fin|a write k|f]; [| |by eexists; constructor].
  - destruct (signal_exists sp (set_pc (CPost fin) c)) as (sp' & cs' & Hs). eexists. by constructor.
  - destruct (signal_exists sp (set_pc (CResp k) c)) as (sp' & cs' & Hs). eexists. by constructor.
Qed.

(** The only states with nothing to do are the end and a crash. *)
Lemma good_progress exp s c : good exp s -> clients s = [c] ->
  (exists s', step s s') \/ finished c \/ crashed (c_pc c) = true.
Proof.
  intros (c0 & Ec0 & [Hh Hp Hv] & _) Ec. rewrite Ec in Ec0. injection Ec0 as <-.
  destruct s as [m w h sp cs]; cbn in *; subst. destruct c as [pc todo rs].
  destruct h as [[|i]|]; cbn in Hh.
  - destruct Hh as [-> _]. left. destruct (decide (state m = STATE_SERVICE_ACTION)) as [Ha|Ha].
    + destruct (serve_action m w) as [m' w'] eqn:Es.
      destruct (signal_exists SLoop (mkClient pc todo rs)) as (sp' & cs' & Hs).
      eexists. left. by econstructor.
    + eexists. left. by constructor.
  - destruct Hh as (-> & _ & Hh). destruct pc; try done; [| |by right; right]; left.
    + destruct (decide (state m = STATE_IDLE)) as [Hi|Hi].
      * destruct (proceed_exists (mkClient (CIdle p) todo rs) m w sp p) as [s' Hs].
        exists s'. right. exists 0%nat. by eapply client_idle_go.
      * eexists. right. exists 0%nat. by eapply client_idle_wait.
    + destruct (decide (state m = STATE_SERVER_RESPONSE)) as [Hi|Hi].
      * destruct (proceed_exists (mkClient (CResp k) todo rs) m w sp (k m)) as [s' Hs].
        exists s'. right. exists 0%nat. by eapply client_resp_go.
      * eexists. right. exists 0%nat. by eapply client_resp_wait.
  - destruct Hh as [Hl Hh]. destruct sp; [|done| |].
    + left. destruct (signal_exists SLoop (mkClient pc todo rs)) as (sp' & cs' & Hs).
      eexists. left. by constructor.
    + destruct pc; try done; cbn in Hp.
      * left. eexists. right. exists 0%nat. by eapply client_lock.
      * by destruct Hp.
      * left. eexists. right. exists 0%nat. by eapply client_idle_relock.
      * destruct Hp as [_ Hs]. by specialize (Hv eq_refl Hs).
      * left. eexists. right. exists 0%nat. by eapply client_resp_relock.
      * left. eexists. right. exists 0%nat. by eapply client_post.
      * left. eexists. right. exists 0%nat. by eapply client_post2.
      * destruct todo as [|p ps]; [by right; left|].
        left. eexists. right. exists 0%nat. by eapply client_next.
    + left. eexists. left. constructor.
Qed.
End Termination.

(** C40: With one client the service is correct and cannot hang.  In every state
    that any scheduling, with spurious wakeups, leads to while the client makes
    the calls [ps] one after the other, only finitely many steps are possible
    without a further spurious wakeup; and when no step is left, either all calls have
    returned, with what they return when each request is answered at once, or
    one of them faults when each request is answered at once, and the client
    has stopped with that fault. *)
Theorem membased_one_client {W H R} `{FileSys W H} (w : W) (ps : list (proc R)) s
    (Hreach : rtc step_any (start w [ps]) s) :
  Acc (flip step) s /\
  ((forall s', ~ step s s') -> exists c, clients s = [c] /\
    match run_all ps (set_state STATE_IDLE init_shared) w with
    | Done (rs, _, _) => finished c /\ c_results c = rs
    | Fault f => c_pc c = CCrash f
    end).
Proof.
  pose proof (good_reachable w ps s Hreach) as Hg. unfold expected in Hg. cbn in Hg.
  split; [by eapply good_terminates|]. intros Hstuck. pose proof Hg as (c & Ec & _ & He).
  exists c. split; [done|]. destruct (good_progress _ s c Hg Ec) as [[s' Hs]|[Hf|Hf]].
  - by apply Hstuck in Hs.
  - destruct c as [pc todo rs0]. destruct Hf as [Hpc Htodo]. cbn in Hpc, Htodo. subst. cbn in He.
    destruct (run_all ps _ w) as [[[rs m'] w']|f]; cbn in He; [|done]. injection He as <-. split; [done|]. by rewrite app_nil_r.
  - destruct c as [[] ? ?]; try done. cbn in He. destruct (run_all ps _ w) as [[[rs m'] w']|f']; cbn in He; [done|]. by injection He as ->.
Qed.

(** ** Reading a file *)

Section ReadFile.
Context {W H : Type} `{FileSys W H}.
Context (path : cstr) (c : list Z) (st : statbuf) (inv : W -> Prop) (stream : H -> nat -> W -> Prop).
Context (Hfile : plain_file path c st inv stream).

Definition chunk_at (o : nat) : list Z := take CHUNK (drop o c).

(** The request the server finds, and its answer. *)
Definition asked (o : nat) (m : MemBasedState) : Prop :=
  action m = OP_READ_FILE /\ error m = 0 /\
  exists d, data m = DRead d /\ rf_path d = path /\ rf_offset d = Z.of_nat o.

Definition answered (o : nat) (m : MemBasedState) : Prop :=
  state m = STATE_SERVER_RESPONSE /\ error m = 0 /\
  data m = DRead (mkRead path (Z.of_nat o) (s32 (st_size st)) (Z.of_nat (length (chunk_at o)))
                    (length c <? o + CHUNK)%nat (chunk_at o)).

Lemma serve_read o m w : asked o m -> inv w ->
  exists m' w', serve_action m w = (m', w') /\ answered o m' /\ inv w'.
Proof.
  intros (Ha & He & [p off ts br eof ct] & Hd & Hp & Ho) Hw. cbn in Hp, Ho. subst p off.
  unfold serve_action. rewrite Ha, Hd. unfold do_read. cbn [rf_path rf_offset].
  destruct (pf_stat _ _ _ _ _ Hfile w Hw) as (w1 & -> & Hw1).
  destruct (pf_fopen _ _ _ _ _ Hfile w1 Hw1) as (h & w2 & -> & Hw2).
  assert (exists w3, (if 0 <? Z.of_nat o then f_fseek h (Z.of_nat o) w2 else (0, w2)) = (0, w3) /\
            stream h o w3) as (w3 & -> & Hw3).
  { destruct (Z.ltb_spec 0 (Z.of_nat o)).
    - destruct (pf_fseek _ _ _ _ _ Hfile h 0%nat w2 (Z.of_nat o) Hw2) as (w3 & -> & Hw3); [lia|].
      rewrite Nat2Z.id in Hw3. by exists w3.
    - exists w2. split; [done|]. by replace o with 0%nat by lia. }
  cbn [Z.eqb negb].
  destruct (pf_fread _ _ _ _ _ Hfile h o w3 CHUNK Hw3) as (w4 & Er & Hw4 & Hfe & Hfeof); [unfold CHUNK; lia|].
  rewrite Er, Hfe, Hfeof. do 2 eexists. split; [done|]. split; [by split_and!|].
  by eapply (pf_fclose _ _ _ _ _ Hfile).
Qed.

(** The allocated block when [o] bytes have been copied. *)
Definition filled (o : nat) : list (option Z) :=
  map Some (take o c) ++ replicate (length c - o) None ++ [Some 0].

Lemma alloc_filled malloc : (Z.of_nat (length c) < 2 ^ 31 - 1) -> malloc (Z.of_nat (length c) + 1) = true ->
  alloc malloc (Z.of_nat (length c)) = Done (filled 0).
Proof.
  intros Hl Hm. unfold alloc. rewrite (proj2 (orb_false_iff _ _)) by (split; bool_lia). rewrite Hm.
  unfold filled. cbn. by rewrite Nat2Z.id, Nat.sub_0_r.
Qed.

Lemma memcpy_filled o : (o <= length c)%nat ->
  memcpy_into (filled o) (Z.of_nat o) (chunk_at o) (Z.of_nat (length (chunk_at o))) =
  Done (filled (o + length (chunk_at o))).
Proof.
  intros Ho. unfold memcpy_into.
  assert (length (filled o) = S (length c)) as Hl.
  { unfold filled. rewrite !length_app, length_map, length_take, length_replicate. cbn. lia. }
  assert (length (chunk_at o) = Nat.min CHUNK (length c - o)) as Hc.
  { unfold chunk_at. by rewrite length_take, length_drop. }
  rewrite Hl, (proj2 (orb_false_iff _ _)) by (split; bool_lia).
  rewrite !Nat2Z.id, (take_ge (chunk_at o)) by lia. f_equal. unfold filled.
  rewrite take_app_le by (rewrite length_map, length_take; lia).
  rewrite (take_ge (map Some _)) by (rewrite length_map, length_take; lia).
  rewrite drop_app_ge by (rewrite length_map, length_take; lia).
  rewrite length_map, length_take, (Nat.min_l o) by lia.
  rewrite app_assoc, <- map_app. f_equal.
  - f_equal. rewrite Hc. unfold chunk_at. rewrite take_take_drop.
    destruct (Nat.min_spec CHUNK (length c - o)) as [[? ->]|[? ->]]; [done|].
    by rewrite !take_ge by lia.
  - rewrite drop_app_le by (rewrite length_replicate; lia). rewrite drop_replicate.
    do 2 f_equal. lia.
Qed.

Context (Hsize : st_size st = Z.of_nat (length c)) (Hint : Z.of_nat (length c) < 2 ^ 31 - 1).

Lemma total_size : s32 (st_size st) = Z.of_nat (length c).
Proof. rewrite Hsize. apply swrap_small; [lia|]. unfold in_s. lia. Qed.

Definition whole_file : outcome :=
  mkOutcome 0 (VBuf (Some (map Some c ++ [Some 0])) (Z.of_nat (length c))).

Lemma readFile_eof o m (w : W) : error m = 0 -> (o + length (chunk_at o) = length c)%nat ->
  run (bail id (Some (filled (o + length (chunk_at o))))
         (s32 (Z.of_nat o + Z.of_nat (length (chunk_at o))))) m w = Done (whole_file, makeIdle m, w).
Proof.
  intros He Ho. rewrite <- Nat2Z.inj_add, Ho, (swrap_small 32) by (unfold in_s; lia).
  cbn. rewrite He. cbn. unfold whole_file, filled. rewrite take_ge by lia.
  by rewrite Nat.sub_diag.
Qed.

Lemma readFile_loop_ok fuel o m d w :
  (o <= length c)%nat -> (length c - o < S fuel * CHUNK)%nat ->
  answered o m -> data m = DRead d -> inv w ->
  exists m' w', run (readFile_loop fuel path (filled (o + length (chunk_at o))) (Z.of_nat (length c))
                       (Z.of_nat o) d) m w = Done (whole_file, m', w') /\ inv w' /\ error m' = 0.
Proof.
  assert (0 < CHUNK)%nat as Hpos by (unfold CHUNK; lia).
  revert o m d w. induction fuel as [|fuel IH]; intros o m d w Ho Hf (_ & He & Hd) Hdd Hw;
    rewrite Hd in Hdd; injection Hdd as <-.
  all: assert (length (chunk_at o) = Nat.min CHUNK (length c - o)) as Hc
    by (unfold chunk_at; by rewrite length_take, length_drop).
  all: cbn [readFile_loop rf_eof rf_bytesRead]; destruct (Nat.ltb_spec (length c) (o + CHUNK)) as [Hlt|Hge].
  2: lia.
  1,2: do 2 eexists; split; [apply readFile_eof; [done|lia]|done].
  cbn [run]. replace (Z.of_nat o + Z.of_nat (length (chunk_at o))) with (Z.of_nat (o + CHUNK)) by lia.
  replace (o + length (chunk_at o))%nat with (o + CHUNK)%nat by lia.
  match goal with |- context [serve_action ?x w] => destruct (serve_read (o + CHUNK) x w) as (m1 & w1 & -> & Ha & Hw1) end;
    [split_and!; try done; by eexists|done|].
  pose proof Ha as (_ & He1 & Hd1). cbn [error] in *. rewrite He1. cbn [Z.eqb negb].
  unfold read_data at 1. rewrite Hd1. cbn [rf_bytesRead rf_content].
  assert (length (chunk_at (o + CHUNK)) <= length c - (o + CHUNK))%nat
    by (unfold chunk_at; rewrite length_take, length_drop; lia).
  rewrite (proj2 (Z.ltb_ge _ _)) by lia. rewrite memcpy_filled by lia.
  by apply (IH (o + CHUNK)%nat m1); try lia.
Qed.

Lemma readFile_ok malloc fuel m w : inv w -> (length c < S fuel * CHUNK)%nat -> malloc (Z.of_nat (length c) + 1) = true ->
  exists m' w', run (readFile_proc malloc fuel path) m w = Done (whole_file, m', w') /\ inv w' /\ error m' = 0.
Proof.
  intros Hw Hf Hmem. unfold readFile_proc. cbn [run].
  match goal with |- context [serve_action ?x w] => destruct (serve_read 0 x w) as (m1 & w1 & -> & Ha & Hw1) end;
    [split; [done|]; split; [done|]; cbn; destruct (read_data m); by eexists|done|].
  pose proof Ha as (_ & He1 & Hd1). rewrite He1. cbn [Z.eqb negb].
  unfold read_data at 1. rewrite Hd1. cbn [rf_bytesRead rf_content rf_totalSize].
  rewrite total_size, alloc_filled by done. cbn [mbind cres_bind].
  pose proof (memcpy_filled 0) as Hm. change (Z.of_nat 0) with 0 in Hm. rewrite Hm by lia.
  apply (readFile_loop_ok fuel 0 m1); [lia|lia|done|by rewrite Hd1, total_size|done].
Qed.
End ReadFile.

(** [readFile] returns the whole file.  For a file whose size is what
    [stat] says and fits an [int], and memory for it, the buffer holds its contents, however many
    chunks they take, and a terminating zero, the number of bytes is reported
    and [errno] is zero.  The loop needs one round per chunk of 32 KiB. *)
Theorem readFile_whole_file {W H} `{FileSys W H} path c st inv (stream : H -> nat -> W -> Prop) malloc fuel m w
    (Hfile : plain_file path c st inv stream)
    (Hsize : st_size st = Z.of_nat (length c)) (Hint : Z.of_nat (length c) < 2 ^ 31 - 1)
    (Hfuel : (length c < S fuel * CHUNK)%nat) (Hmem : malloc (Z.of_nat (length c) + 1) = true) (Hw : inv w) :
  exists m' w', inv w' /\
    run (readFile_proc malloc fuel path) m w =
    Done (mkOutcome 0 (VBuf (Some (map Some c ++ [Some 0])) (Z.of_nat (length c))), m', w').
Proof.
  destruct (readFile_ok path c st inv stream Hfile Hsize Hint malloc fuel m w Hw Hfuel Hmem) as (m' & w' & E & ? & _).
  by exists m', w'.
Qed.

(** the first chunk is copied without a test.  For a file that holds more
    bytes than [stat] reports (a file of /proc with size zero, a file that
    has grown), [readFile] writes past the end of the block it allocated as
    soon as the first chunk is more than one byte too long. *)
Theorem readFile_first_chunk_overflow {W H} `{FileSys W H} path c st inv (stream : H -> nat -> W -> Prop)
    malloc fuel m w (Hfile : plain_file path c st inv stream)
    (Hsize : 0 <= st_size st < 2 ^ 31 - 1) (Hmem : malloc (st_size st + 1) = true) (Hw : inv w)
    (Hmore : st_size st + 1 < Z.of_nat (Nat.min CHUNK (length c))) :
  run (readFile_proc malloc fuel path) m w = Fault OutOfBounds.
Proof.
  unfold readFile_proc. cbn [run].
  match goal with |- context [serve_action ?x w] =>
    destruct (serve_read path c st inv stream Hfile 0 x w) as (m1 & w1 & -> & Ha & Hw1) end;
    [split; [done|]; split; [done|]; cbn; destruct (read_data m); by eexists|done|].
  destruct Ha as (_ & He1 & Hd1). rewrite He1. cbn [Z.eqb negb].
  unfold read_data at 1. rewrite Hd1. cbn [rf_bytesRead rf_content rf_totalSize].
  rewrite (swrap_small 32) by (unfold in_s; lia). unfold alloc.
  rewrite (proj2 (orb_false_iff _ _)) by (split; bool_lia). rewrite Hmem. cbn [negb mbind cres_bind]. unfold memcpy_into.
  rewrite length_app, length_replicate. unfold chunk_at. rewrite length_take, length_drop. cbn [length].
  by rewrite (proj2 (orb_true_iff _ _)) by (right; bool_lia).
Qed.

(** The service is transparent for [access] and [stat].  Where the service
    is accessible and the path fits, both functions return, set [errno] and
    leave the files as the system call made directly would; where not, they
    return -1 without touching the shared memory. *)
Theorem access_stat_transparent {W H} `{FileSys W H} g path mode m (w : W) :
  (if snd (isServiceAccessible g) && (length path <=? PATH_MAX - 1)%nat then
     (forall res errno w', f_access path mode w = ((res, errno), w') ->
        exists p m', accessFile g path mode = inr p /\
          run p m w = Done (mkOutcome (if res =? 0 then 0 else errno)
                              (VInt (Some (if (res =? 0) || (errno =? 0) then res else -1))), m', w')) /\
     (forall st w', f_stat path w = (inr st, w') ->
        exists p m', statFile g path = inr p /\
          run p m w = Done (mkOutcome 0 (VStat (Some 0) (Some st)), m', w')) /\
     (forall errno w', f_stat path w = (inl errno, w') ->
        exists p m' st, statFile g path = inr p /\
          run p m w = Done (mkOutcome errno (VStat (Some (-1)) st), m', w'))
   else exists e, (e = EPERM \/ e = ENAMETOOLONG) /\
     accessFile g path mode = inl (mkOutcome e (VInt (Some (-1)))) /\
     statFile g path = inl (mkOutcome e (VStat (Some (-1)) None))).
Proof.
  unfold accessFile, statFile, guarded. rewrite Nat.ltb_antisym.
  destruct (snd (isServiceAccessible g)); cbn [andb negb]; [|exists EPERM; by split_and!; [left|..]].
  destruct (length path <=? PATH_MAX - 1)%nat; cbn [negb]; [|exists ENAMETOOLONG; by split_and!; [right|..]].
  split_and!.
  - intros res errno w' E. destruct (res =? 0) eqn:Er; do 2 eexists; (split; [done|]); cbn;
      unfold serve_action; cbn; unfold do_access; cbn; rewrite E, Er; cbn; [done|].
    unfold or_error; cbn. by destruct (errno =? 0).
  - intros st w' E. do 2 eexists. split; [done|]. cbn. unfold serve_action; cbn.
    unfold do_stat; cbn. by rewrite E.
  - intros errno w' E. do 3 eexists. split; [done|]. cbn. unfold serve_action; cbn.
    unfold do_stat; cbn. rewrite E. cbn. unfold or_error; cbn. by destruct (errno =? 0).
Qed.

(** ** Two clients *)

Ltac run_step tac := eapply rtc_l; [left; tac|cbn -[request serve_action]].
Ltac wake_server := left; apply wakes_server.
Ltac wake_nobody := right; split; [split; [done|intros [|[|?]] ? [= <-]; reflexivity]|done].

(** Two clients can hang the service.  The signal that announces an answer
    can wake the other client, which waits for the service to become idle on
    the same condition variable and goes back to sleep; then the server and
    both clients wait for ever. *)
Theorem two_clients_hang {W H} `{FileSys W H} (w : W) path1 mode1 path2 mode2 :
  exists s, rtc step_any (start w [[accessFile_proc path1 mode1]; [accessFile_proc path2 mode2]]) s /\
    (forall s', ~ step s s') /\ Forall (fun c => ~ finished c) (clients s).
Proof.
  eexists. split.
  - unfold start; cbn.
    run_step ltac:(left; eapply server_start; wake_nobody).
    run_step ltac:(left; eapply server_wait; done).
    run_step ltac:(right; exists 0%nat; eapply client_next; done).
    run_step ltac:(right; exists 0%nat; eapply client_lock; done).
    run_step ltac:(right; exists 0%nat; eapply client_idle_go; [done|done|done|apply proceed_call; wake_server]).
    run_step ltac:(right; exists 0%nat; eapply client_resp_wait; done).
    run_step ltac:(right; exists 1%nat; eapply client_next; done).
    run_step ltac:(right; exists 1%nat; eapply client_lock; done).
    run_step ltac:(right; exists 1%nat; eapply client_idle_wait; done).
    run_step ltac:(left; eapply server_relock).
    run_step ltac:(left; eapply server_serve; [done|apply surjective_pairing|left; by eapply (wakes_client _ _ 1)]).
    run_step ltac:(left; eapply server_wait; rewrite (state_serve _ _ _ _ (surjective_pairing _)); done).
    run_step ltac:(right; exists 1%nat; eapply client_idle_relock; done).
    run_step ltac:(right; exists 1%nat; eapply client_idle_wait; [done|done|]; rewrite (state_serve _ _ _ _ (surjective_pairing _)); done).
    apply rtc_refl.
  - split.
    + intros s' [Hs|[i Hs]]; [by inversion Hs|].
      inversion Hs; subst; destruct i as [|[|i]]; by simplify_eq/=.
    + repeat constructor; by intros [? _].
Qed.

(** Two clients can get each other's results.  [accessFile] reads its
    result after it has released the mutex: a call that succeeds can return -1
    with the error of a call another client makes in between. *)
Theorem two_clients_mix_results {W H} `{FileSys W H} (w : W) path1 mode1 path2 mode2 errno
    (Hok : f_access path1 mode1 w = ((0, 0), w))
    (Hbad : f_access path2 mode2 w = ((-1, errno), w)) (Herr : errno <> 0) :
  (exists m', run (accessFile_proc path1 mode1) init_shared w = Done (mkOutcome 0 (VInt (Some 0)), m', w)) /\
  exists s c, rtc step_any (start w [[accessFile_proc path1 mode1]; [accessFile_proc path2 mode2]]) s /\
    clients s !! 0%nat = Some c /\ finished c /\
    c_results c = [mkOutcome errno (VInt (Some (-1)))].
Proof.
  split.
  { eexists. cbn. unfold serve_action; cbn. unfold do_access; cbn. by rewrite Hok. }
  do 2 eexists. split.
  - unfold start; cbn.
    run_step ltac:(left; eapply server_start; wake_nobody).
    run_step ltac:(left; eapply server_wait; done).
    run_step ltac:(right; exists 0%nat; eapply client_next; done).
    run_step ltac:(right; exists 0%nat; eapply client_lock; done).
    run_step ltac:(right; exists 0%nat; eapply client_idle_go; [done|done|done|apply proceed_call; wake_server]).
    run_step ltac:(right; exists 0%nat; eapply client_resp_wait; done).
    run_step ltac:(left; eapply server_relock).
    run_step ltac:(left; eapply server_serve;
      [done|unfold serve_action; cbn; unfold do_access; cbn; rewrite Hok; cbn; done
      |left; by eapply (wakes_client _ _ 0)]).
    run_step ltac:(left; eapply server_wait; done).
    run_step ltac:(right; exists 0%nat; eapply client_resp_relock; done).
    run_step ltac:(right; exists 0%nat; eapply client_resp_go; [done|done|done|apply proceed_finish; wake_server]).
    run_step ltac:(right; exists 1%nat; eapply client_next; done).
    run_step ltac:(right; exists 1%nat; eapply client_lock; done).
    run_step ltac:(right; exists 1%nat; eapply client_idle_go; [done|done|done|apply proceed_call; wake_nobody]).
    run_step ltac:(right; exists 1%nat; eapply client_resp_wait; done).
    run_step ltac:(left; eapply server_relock).
    run_step ltac:(left; eapply server_serve;
      [done|unfold serve_action; cbn; unfold do_access; cbn; rewrite Hbad; cbn; done
      |left; by eapply (wakes_client _ _ 1)]).
    run_step ltac:(right; exists 0%nat; eapply client_post; done).
    run_step ltac:(right; exists 0%nat; eapply client_post2; done).
    apply rtc_refl.
  - split; [done|]. split; [done|]. cbn. unfold or_error; cbn. by rewrite (proj2 (Z.eqb_neq errno 0)).
Qed.

(** ** The theorems at work *)

Definition demo_text : list Z := lit "module=1".
Definition demo_fs : memfs :=
  mkMemfs demo_text (mkStat 0 (Z.of_nat (length demo_text)) 0) 0 false.
Definition demo_path : cstr := lit "/data/conf".
Definition demo_malloc : Z -> bool := fun n => n <=? 2 ^ 20.

Lemma membased_one_client_witness :
  Acc (flip step) (start demo_fs [[readFile_proc demo_malloc 1 demo_path; accessFile_proc demo_path 4]]) /\
  exists rs m' w', run_all [readFile_proc demo_malloc 1 demo_path; accessFile_proc demo_path 4]
    (set_state STATE_IDLE init_shared) demo_fs = Done (rs, m', w') /\
    rs = [mkOutcome 0 (VBuf (Some (map Some demo_text ++ [Some 0])) 8); mkOutcome 0 (VInt (Some 0))].
Proof.
  split.
  - refine (proj1 (membased_one_client demo_fs [readFile_proc demo_malloc 1 demo_path; accessFile_proc demo_path 4]
      _ (rtc_refl _ _))).
  - do 3 eexists. split; [vm_compute; reflexivity|reflexivity].
Defined.

Lemma readFile_whole_file_witness :
  exists m' w', (m_content w' = demo_text /\ m_stat w' = m_stat demo_fs) /\
    run (readFile_proc demo_malloc 0 demo_path) init_shared demo_fs =
    Done (mkOutcome 0 (VBuf (Some (map Some demo_text ++ [Some 0])) 8), m', w').
Proof.
  refine (readFile_whole_file demo_path demo_text (m_stat demo_fs) _ _ demo_malloc 0 init_shared demo_fs
            (memfs_plain demo_path demo_text _) eq_refl _ _ _ _).
  - reflexivity.
  - apply Nat.ltb_lt. vm_compute. reflexivity.
  - vm_compute. reflexivity.
  - split; reflexivity.
Defined.

Definition demo_proc_fs : memfs := mkMemfs demo_text (mkStat 0 0 0) 0 false.

Lemma readFile_first_chunk_overflow_witness :
  run (readFile_proc demo_malloc 3 (lit "/proc/cmdline")) init_shared demo_proc_fs = Fault OutOfBounds.
Proof.
  refine (readFile_first_chunk_overflow (lit "/proc/cmdline") demo_text (m_stat demo_proc_fs) _ _ demo_malloc 3
            init_shared demo_proc_fs (memfs_plain _ demo_text _) _ _ _ _).
  - split; vm_compute; [discriminate|reflexivity].
  - vm_compute. reflexivity.
  - split; reflexivity.
  - vm_compute. reflexivity.
Defined.

#[local] Instance OnePath : FileSys unit unit := {|
  f_access p _ w := (if streq p demo_path then (0, 0) else (-1, ENOENT), w);
  f_stat _ w := (inl ENOENT, w); f_fopen _ w := (inl ENOENT, w); f_fseek _ _ w := (0, w);
  f_fread _ _ w := ([], w); f_ferror _ _ := 0; f_feof _ _ := true; f_fclose _ w := w
|}.

Lemma two_clients_mix_results_witness :
  exists s c, rtc step_any (start tt [[accessFile_proc demo_path 4]; [accessFile_proc (lit "/none") 4]]) s /\
    clients s !! 0%nat = Some c /\ finished c /\
    c_results c = [mkOutcome ENOENT (VInt (Some (-1)))].
Proof.
  refine (proj2 (two_clients_mix_results tt demo_path 4 (lit "/none") 4 ENOENT _ _ _));
    [vm_compute; reflexivity|vm_compute; reflexivity|discriminate].
Defined.
