(* ===== verification/BinderService.v ===== *)
(** * BinderService: the Xposed service behind binder
      (Xposed-master/xposed_service.cpp, namespace binder)

    The proxy, the dispatch of transactions and the service itself.  The parcel
    that carries arguments and results is a class of operations; its laws say
    that values are read in the order in which they were written.  Files are
    those of [FileSys]; the calling user, the service manager and the memory
    allocator are parameters. *)

From S2P Require Import Prelude CLib FileSys.

Definition NO_ERROR : Z := 0.
Definition PERMISSION_DENIED : Z := -1.
Definition UID_SYSTEM : Z := 1000.

Definition TEST_TRANSACTION : Z := 1.
Definition ADD_SERVICE_TRANSACTION : Z := 2.
Definition ACCESS_FILE_TRANSACTION : Z := 3.
Definition STAT_FILE_TRANSACTION : Z := 4.
Definition READ_FILE_TRANSACTION : Z := 5.

Definition descriptor : cstr := lit "de.robv.android.xposed.IXposedService".

(** A [String16] is its list of code units. *)
Abbreviation string16 := (list Z).

Class Parcel (P : Type) := {
  p_new : P;
  p_writeInterfaceToken : string16 -> P -> P;
  p_checkInterface : string16 -> P -> bool * P;
  p_writeInt32 : Z -> P -> P;
  p_writeInt64 : Z -> P -> P;
  p_writeString16 : string16 -> P -> P;
  p_writeStrongBinder : Z -> P -> P;
  p_writeNoException : P -> P;
  p_write : list Z -> P -> P;
  p_readExceptionCode : P -> Z * P;
  p_readInt32 : P -> Z * P;
  p_readInt64 : P -> Z * P;
  p_readString16 : P -> string16 * P;
  p_readStrongBinder : P -> Z * P;
  p_read : nat -> P -> list Z * P;
  p_dataAvail : P -> Z
}.

(** The error messages, before they are formatted. *)
Inductive message :=
| MsgStat (err : Z) | MsgDir | MsgOffset (offset size : Z) | MsgLength (offset length size : Z)
| MsgAlloc (bytes : Z) | MsgOpen (err : Z) | MsgSeek (err offset : Z) | MsgRead (err bytesRead : Z).

Record read_result := mkReadResult {
  rr_status : Z; rr_size : Z; rr_mtime : Z; rr_buffer : option (list Z); rr_bytesRead : Z;
  rr_errormsg : option message
}.

(** What the service uses besides files. *)
Class ServiceEnv (W : Type) := {
  e_addService : string16 -> Z -> bool -> W -> Z * W
}.

(** S_ISDIR. *)
Definition S_ISDIR (mode : Z) : bool := Z.land mode 0xF000 =? 0x4000.

Section Service.
Context {W H : Type} `{FileSys W H} `{ServiceEnv W}.
(** [String8(s).string()], the formatted messages and whether an allocation
    succeeds. *)
Context (string8 : string16 -> cstr) (render : message -> string16) (malloc_ok : Z -> bool).
(** The service object, the process it runs in and its caller. *)
Context (isSystem : bool) (pid uid : Z).

Definition test : Z := pid.

(** The status and [errno]. *)
Definition addService (name : string16) (service : Z) (allowIsolated : bool) (w : W) : (Z * Z) * W :=
  if negb isSystem || negb (uid =? 0) then ((-1, EPERM), w)
  else let '(r, w) := e_addService name service allowIsolated w in ((r, 0), w).

Definition accessFile (filename16 : string16) (mode : Z) (w : W) : (Z * Z) * W :=
  if negb (uid =? UID_SYSTEM) then ((-1, EPERM), w)
  else f_access (string8 filename16) mode w.

(** The result and [errno], and the size and time it has set. *)
Definition statFile (filename16 : string16) (w : W) : (Z * Z * option (Z * Z)) * W :=
  if negb (uid =? UID_SYSTEM) then ((-1, EPERM, None), w)
  else
    match f_stat (string8 filename16) w with
    | (inr st, w) => ((0, 0, Some (st_size st, st_mtime st)), w)
    | (inl errno, w) => ((-1, errno, None), w)
    end.

(** Reading once the range is known: the second half of [readFile]. *)
Definition read_range (filename : cstr) (offset length size mtime : Z) (w : W)
    : cres (read_result * W) :=
  if (length + 1 <? 0) || negb (malloc_ok (length + 1)) then
    Done (mkReadResult ENOMEM size mtime None (-1) (Some (MsgAlloc (length + 1))), w)
  else if length <? 0 then Fault OutOfBounds
  else
    match f_fopen filename w with
    | (inl err, w) => Done (mkReadResult err size mtime None (-1) (Some (MsgOpen err)), w)
    | (inr f, w) =>
        let '(seek, w) := if 0 <? offset then f_fseek f offset w else (0, w) in
        if negb (seek =? 0) then
          let err := f_ferror f w in
          Done (mkReadResult err size mtime None (-1) (Some (MsgSeek err offset)), f_fclose f w)
        else
          let '(got, w) := f_fread f (Z.to_nat length) w in
          let err := f_ferror f w in
          if negb (err =? 0) then
            Done (mkReadResult err size mtime None (-1) (Some (MsgRead err (-1))), f_fclose f w)
          else Done (mkReadResult 0 size mtime (Some got) (Z.of_nat (List.length got)) None, f_fclose f w)
    end.

Definition readFile (filename16 : string16) (offset length size mtime : Z) (w : W)
    : cres (read_result * W) :=
  if negb (uid =? UID_SYSTEM) then Done (mkReadResult EPERM size mtime None (-1) None, w)
  else
    let filename := string8 filename16 in
    match f_stat filename w with
    | (inl err, w) => Done (mkReadResult err size mtime None (-1) (Some (MsgStat err)), w)
    | (inr st, w) =>
        if S_ISDIR (st_mode st) then Done (mkReadResult EISDIR size mtime None (-1) (Some MsgDir), w)
        else if (size =? st_size st) && (mtime =? s32 (st_mtime st)) then
          Done (mkReadResult 0 size mtime None (-1) None, w)
        else
          let size := st_size st in
          let mtime := st_mtime st in
          if (0 <? offset) && (size <=? offset) then
            Done (mkReadResult EINVAL size mtime None (-1) (Some (MsgOffset offset size)), w)
          else
            let offset := if offset <? 0 then 0 else offset in
            if (0 <? length) && (size <? s32 (offset + length)) then
              Done (mkReadResult EINVAL size mtime None (-1) (Some (MsgLength offset length size)), w)
            else if size =? 0 then Done (mkReadResult 0 size mtime None 0 None, w)
            else
              let length := if length <=? 0 then s32 (size - offset) else length in
              read_range filename offset length size mtime w
    end.

(** ** Dispatch *)

Context {P : Type} `{Parcel P}.
(** [BBinder::onTransact]. *)
Context (default_transact : Z -> P -> P -> W -> cres (Z * P * W)).

Definition onTransact (code : Z) (data reply : P) (w : W) : cres (Z * P * W) :=
  let checked (body : P -> cres (Z * P * W)) : cres (Z * P * W) :=
    let '(ok, data) := p_checkInterface descriptor data in
    if ok then body data else Done (PERMISSION_DENIED, reply, w) in
  if code =? TEST_TRANSACTION then checked (fun _ =>
    Done (NO_ERROR, p_writeInt32 test (p_writeNoException reply), w))
  else if code =? ADD_SERVICE_TRANSACTION then checked (fun data =>
    let '(which, data) := p_readString16 data in
    let '(b, data) := p_readStrongBinder data in
    let '(iso, data) := p_readInt32 data in
    let '((r, _), w) := addService which b (negb (iso =? 0)) w in
    Done (NO_ERROR, p_writeInt32 r reply, w))
  else if code =? ACCESS_FILE_TRANSACTION then checked (fun data =>
    let '(filename, data) := p_readString16 data in
    let '(mode, data) := p_readInt32 data in
    let '((result, err), w) := accessFile filename mode w in
    Done (NO_ERROR, p_writeInt32 (if result =? 0 then 0 else err) (p_writeNoException reply), w))
  else if code =? STAT_FILE_TRANSACTION then checked (fun data =>
    let '(filename, data) := p_readString16 data in
    let '((result, err, out), w) := statFile filename w in
    let reply := p_writeNoException reply in
    match out with
    | Some (size, time) =>
        Done (NO_ERROR, p_writeInt64 time (p_writeInt64 size (p_writeInt32 0 reply)), w)
    | None => Done (NO_ERROR, p_writeInt32 err reply, w)
    end)
  else if code =? READ_FILE_TRANSACTION then checked (fun data =>
    let '(filename, data) := p_readString16 data in
    let '(offset, data) := p_readInt32 data in
    let '(length, data) := p_readInt32 data in
    let '(size, data) := p_readInt64 data in
    let '(mtime, data) := p_readInt64 data in
    '(r, w) ← readFile filename offset length size mtime w;
    let reply := p_writeInt32 (rr_status r) (p_writeNoException reply) in
    let reply := p_writeString16 (match rr_errormsg r with Some e => render e | None => [] end) reply in
    let reply := p_writeInt64 (rr_mtime r) (p_writeInt64 (rr_size r) reply) in
    let reply := p_writeInt32 (rr_bytesRead r) reply in
    if 0 <? rr_bytesRead r then
      match rr_buffer r with
      | Some b => Done (NO_ERROR, p_write (take (Z.to_nat (rr_bytesRead r)) b) reply, w)
      | None => Fault NullDeref
      end
    else Done (NO_ERROR, reply, w))
  else default_transact code data reply w.
End Service.

(** ** The proxy *)

(** What the proxy's [readFile] has stored for its caller; the buffer is NULL. *)
Record proxy_read := mkProxyRead {
  pr_errno : Z; pr_errormsg : string16; pr_size : Z; pr_mtime : Z; pr_bytesRead : Z
}.

Section Proxy.
Context {W P : Type} `{Parcel P}.
(** [remote()->transact(code, data, &reply)]. *)
Context (transact : Z -> P -> W -> cres (Z * P * W)).

Definition request_parcel : P := p_writeInterfaceToken descriptor p_new.

Definition bp_test (w : W) : cres (Z * W) :=
  '(_, reply, w) ← transact TEST_TRANSACTION request_parcel w;
  let '(ex, reply) := p_readExceptionCode reply in
  if negb (ex =? 0) then Done (-1, w) else Done (fst (p_readInt32 reply), w).

Definition bp_addService (name : string16) (service : Z) (allowIsolated : bool) (w : W) : cres (Z * W) :=
  let data := p_writeInt32 (if allowIsolated then 1 else 0)
                (p_writeStrongBinder service (p_writeString16 name request_parcel)) in
  '(err, reply, w) ← transact ADD_SERVICE_TRANSACTION data w;
  Done (if err =? NO_ERROR then fst (p_readExceptionCode reply) else err, w).

(** The result and [errno], which a call that fails early leaves alone. *)
Definition bp_accessFile (name : string16) (mode : Z) (w : W) : cres (Z * option Z * W) :=
  let data := p_writeInt32 mode (p_writeString16 name request_parcel) in
  '(_, reply, w) ← transact ACCESS_FILE_TRANSACTION data w;
  let '(ex, reply) := p_readExceptionCode reply in
  if negb (ex =? 0) then Done (-1, None, w)
  else let '(errno, _) := p_readInt32 reply in Done (if errno =? 0 then 0 else -1, Some errno, w).

Definition bp_statFile (name : string16) (w : W) : cres (Z * option Z * option (Z * Z) * W) :=
  let data := p_writeString16 name request_parcel in
  '(_, reply, w) ← transact STAT_FILE_TRANSACTION data w;
  let '(ex, reply) := p_readExceptionCode reply in
  if negb (ex =? 0) then Done (-1, None, None, w)
  else
    let '(errno, reply) := p_readInt32 reply in
    if negb (errno =? 0) then Done (-1, Some errno, None, w)
    else
      let '(size, reply) := p_readInt64 reply in
      let '(mtime, reply) := p_readInt64 reply in
      Done (0, Some errno, Some (size, mtime), w).

(** [bp_readFile]: [*buffer[bytesRead1] = 0] is [*(buffer[bytesRead1])], which
    indexes the caller's single pointer as an array. *)
Definition bp_readFile (filename : string16) (offset length size mtime : Z) (w : W)
    : cres (Z * option proxy_read * W) :=
  let data := p_writeInt32 length (p_writeInt32 offset (p_writeString16 filename request_parcel)) in
  let data := p_writeInt64 mtime (p_writeInt64 size data) in
  '(_, reply, w) ← transact READ_FILE_TRANSACTION data w;
  let '(ex, reply) := p_readExceptionCode reply in
  if negb (ex =? 0) then Done (-1, None, w)
  else
    let '(err, reply) := p_readInt32 reply in
    let '(errormsg, reply) := p_readString16 reply in
    let '(size, reply) := p_readInt64 reply in
    let '(mtime, reply) := p_readInt64 reply in
    let '(bytesRead, reply) := p_readInt32 reply in
    if (0 <? bytesRead) && (bytesRead <=? s32 (p_dataAvail reply)) then Fault OutOfBounds
    else Done (if err =? 0 then 0 else -1, Some (mkProxyRead err errormsg size mtime bytesRead), w).
End Proxy.

(** ** Parcels *)

(** What a parcel carries from its read position on. *)
Inductive item :=
| IToken (s : string16) | I32 (z : Z) | I64 (z : Z) | IString (s : string16) | IBinder (b : Z)
| IBytes (l : list Z).

(** The documented behaviour of [Parcel]: values come out as they went in.  An
    exception code is an [int32], zero for none; -128 announces a reply header. *)
Class ParcelLaws (P : Type) `{Parcel P} := {
  holds : P -> list item -> Prop;
  holds_new : holds p_new [];
  holds_token p l s : holds p l -> holds (p_writeInterfaceToken s p) (l ++ [IToken s]);
  holds_writeInt32 p l z : holds p l -> holds (p_writeInt32 z p) (l ++ [I32 z]);
  holds_writeInt64 p l z : holds p l -> holds (p_writeInt64 z p) (l ++ [I64 z]);
  holds_writeString16 p l s : holds p l -> holds (p_writeString16 s p) (l ++ [IString s]);
  holds_writeStrongBinder p l b : holds p l -> holds (p_writeStrongBinder b p) (l ++ [IBinder b]);
  holds_writeNoException p l : holds p l -> holds (p_writeNoException p) (l ++ [I32 0]);
  holds_write p l b : holds p l -> holds (p_write b p) (l ++ [IBytes b]);
  read_token p l s : holds p (IToken s :: l) ->
    exists p', p_checkInterface s p = (true, p') /\ holds p' l;
  read_exception p l z : holds p (I32 z :: l) -> z <> -128 ->
    exists p', p_readExceptionCode p = (z, p') /\ holds p' l;
  read_int32 p l z : holds p (I32 z :: l) -> exists p', p_readInt32 p = (z, p') /\ holds p' l;
  read_int64 p l z : holds p (I64 z :: l) -> exists p', p_readInt64 p = (z, p') /\ holds p' l;
  read_string16 p l s : holds p (IString s :: l) ->
    exists p', p_readString16 p = (s, p') /\ holds p' l;
  read_binder p l b : holds p (IBinder b :: l) ->
    exists p', p_readStrongBinder p = (b, p') /\ holds p' l;
  avail_bytes p l b : holds p (IBytes b :: l) -> Z.of_nat (length b) < 2 ^ 31 ->
    Z.of_nat (length b) <= p_dataAvail p < 2 ^ 31
}.

Ltac parcel_written :=
  repeat first [apply holds_token | apply holds_writeInt32 | apply holds_writeInt64
    | apply holds_writeString16 | apply holds_writeStrongBinder | apply holds_writeNoException
    | apply holds_write | eassumption | apply holds_new].

(** Reads the next value of the parcel the goal reads from. *)
Ltac parcel_read :=
  let go p rd := (
    let Hd := fresh "Hd" in
    eassert (holds p _) as Hd by parcel_written; cbn [app] in Hd;
    let Hr := fresh "Hr" in let Hd' := fresh "Hd" in
    pose proof (rd p _ _ Hd) as Hr; clear Hd; destruct Hr as (? & -> & Hd')) in
  match goal with
  | |- context [p_checkInterface _ ?p] => go p uconstr:(read_token)
  | |- context [p_readInt32 ?p] => go p uconstr:(read_int32)
  | |- context [p_readInt64 ?p] => go p uconstr:(read_int64)
  | |- context [p_readString16 ?p] => go p uconstr:(read_string16)
  | |- context [p_readStrongBinder ?p] => go p uconstr:(read_binder)
  end.

Ltac parcel_exception :=
  match goal with
  | |- context [p_readExceptionCode ?p] =>
      let Hd := fresh "Hd" in
      eassert (holds p _) as Hd by parcel_written; cbn [app] in Hd;
      destruct (read_exception p _ _ Hd) as (? & -> & ?); [try done|clear Hd]
  end.

Section Laws.
Context {W H P : Type} `{FileSys W H} `{ServiceEnv W} `{ParcelLaws P}.
Context (string8 : string16 -> cstr) (render : message -> string16) (malloc_ok : Z -> bool).
Context (isSystem : bool) (pid uid : Z).
Context (default_transact : Z -> P -> P -> W -> cres (Z * P * W)).

(** A call through binder: the service handles the parcel of the proxy. *)
Definition remote (code : Z) (data : P) (w : W) : cres (Z * P * W) :=
  onTransact string8 render malloc_ok isSystem pid uid default_transact code data p_new w.

Ltac dispatch :=
  unfold remote, onTransact, request_parcel, TEST_TRANSACTION, ADD_SERVICE_TRANSACTION,
    ACCESS_FILE_TRANSACTION, STAT_FILE_TRANSACTION, READ_FILE_TRANSACTION; cbn [Z.eqb Pos.eqb].

Lemma remote_access name mode w :
  bp_accessFile remote name mode w =
  let '((res, err), w') := accessFile string8 uid name mode w in
  let errno := if res =? 0 then 0 else err in
  Done (if errno =? 0 then 0 else -1, Some errno, w').
Proof.
  unfold bp_accessFile. dispatch.
  parcel_read. parcel_read. parcel_read.
  destruct (accessFile string8 uid name mode w) as [[res err] w']. cbn [mbind cres_bind].
  parcel_exception. cbn [Z.eqb negb]. parcel_read. done.
Qed.

Lemma remote_test w : bp_test remote w = Done (pid, w).
Proof.
  unfold bp_test. dispatch. parcel_read. cbn [mbind cres_bind].
  parcel_exception. cbn [Z.eqb negb]. by parcel_read.
Qed.

Lemma remote_stat_ok name w res err size mtime w' :
  statFile string8 uid name w = ((res, err, Some (size, mtime)), w') ->
  bp_statFile remote name w = Done (0, Some 0, Some (size, mtime), w').
Proof.
  intros E. unfold bp_statFile; dispatch. do 2 parcel_read. rewrite E. cbn [mbind cres_bind].
  parcel_exception. cbn [Z.eqb negb]. parcel_read. cbn [Z.eqb negb]. by do 2 parcel_read.
Qed.

Lemma remote_stat_err name w res err w' :
  statFile string8 uid name w = ((res, err, None), w') -> err <> 0 ->
  bp_statFile remote name w = Done (-1, Some err, None, w').
Proof.
  intros E He. unfold bp_statFile; dispatch. do 2 parcel_read. rewrite E. cbn [mbind cres_bind].
  parcel_exception. cbn [Z.eqb negb]. parcel_read. by rewrite (proj2 (Z.eqb_neq err 0)).
Qed.

Lemma remote_add name service iso w r e w' :
  addService isSystem uid name service iso w = ((r, e), w') -> r <> -128 ->
  bp_addService remote name service iso w = Done (r, w').
Proof.
  intros E Hr. unfold bp_addService; dispatch. do 4 parcel_read.
  assert (negb ((if iso then 1 else 0) =? 0) = iso) as -> by (by destruct iso).
  rewrite E. cbn [mbind cres_bind]. by parcel_exception.
Qed.

Lemma remote_read_null name offset len size mtime w r w' :
  readFile string8 malloc_ok uid name offset len size mtime w = Done (r, w') ->
  rr_bytesRead r <= 0 ->
  bp_readFile remote name offset len size mtime w =
  Done (if rr_status r =? 0 then 0 else -1,
        Some (mkProxyRead (rr_status r) (match rr_errormsg r with Some e => render e | None => [] end)
                (rr_size r) (rr_mtime r) (rr_bytesRead r)), w').
Proof.
  intros E Hb. unfold bp_readFile; dispatch. do 6 parcel_read. rewrite E. cbn [mbind cres_bind].
  rewrite (proj2 (Z.ltb_ge 0 _)) by lia. cbn [mbind cres_bind].
  parcel_exception. cbn [Z.eqb negb]. do 5 parcel_read. by rewrite (proj2 (Z.ltb_ge 0 _)) by lia.
Qed.

Lemma remote_read_data name offset len size mtime w r w' b :
  readFile string8 malloc_ok uid name offset len size mtime w = Done (r, w') ->
  rr_buffer r = Some b -> rr_bytesRead r = Z.of_nat (length b) -> 0 < rr_bytesRead r < 2 ^ 31 ->
  bp_readFile remote name offset len size mtime w = Fault OutOfBounds.
Proof.
  intros E Hbuf Hlen Hb. unfold bp_readFile; dispatch. do 6 parcel_read. rewrite E. cbn [mbind cres_bind].
  rewrite (proj2 (Z.ltb_lt 0 _)) by lia. rewrite Hbuf. cbn [mbind cres_bind].
  parcel_exception. cbn [Z.eqb negb]. do 5 parcel_read.
  rewrite (proj2 (Z.ltb_lt 0 _)) by lia.
  match goal with Hp : holds ?p [IBytes _] |- context [p_dataAvail ?p] =>
    destruct (avail_bytes _ _ _ Hp) as [Ha1 Ha2] end.
  - rewrite length_take. lia.
  - rewrite length_take in Ha1. rewrite (swrap_small 32) by (unfold in_s; lia).
    by rewrite (proj2 (Z.leb_le _ _)) by lia.
Qed.
End Laws.

(** Calls through the proxy do what the service does.  For the system user,
    [test], [accessFile] and [statFile] called through binder return what the
    system calls return, [errno] included, for any implementation of parcels
    that keeps the order of values; [readFile] passes on every answer without
    data as it is. *)
Theorem proxy_transparent {W H P} `{FileSys W H} `{ServiceEnv W} `{ParcelLaws P}
    string8 render malloc_ok isSystem pid default_transact (w : W) name :
  let call := remote (P := P) string8 render malloc_ok isSystem pid UID_SYSTEM default_transact in
  bp_test call w = Done (pid, w) /\
  (forall mode res err w', f_access (string8 name) mode w = ((res, err), w') ->
     (res = 0 <-> err = 0) ->
     bp_accessFile call name mode w = Done (if res =? 0 then 0 else -1, Some err, w')) /\
  (forall st w', f_stat (string8 name) w = (inr st, w') ->
     bp_statFile call name w = Done (0, Some 0, Some (st_size st, st_mtime st), w')) /\
  (forall err w', f_stat (string8 name) w = (inl err, w') -> err <> 0 ->
     bp_statFile call name w = Done (-1, Some err, None, w')) /\
  (forall offset len size mtime r w',
     readFile string8 malloc_ok UID_SYSTEM name offset len size mtime w = Done (r, w') ->
     rr_bytesRead r <= 0 ->
     bp_readFile call name offset len size mtime w =
     Done (if rr_status r =? 0 then 0 else -1,
           Some (mkProxyRead (rr_status r) (match rr_errormsg r with Some e => render e | None => [] end)
                   (rr_size r) (rr_mtime r) (rr_bytesRead r)), w')).
Proof.
  cbn zeta. split; [apply remote_test|]. split_and!.
  - intros mode res err w' E He. rewrite remote_access. unfold accessFile. cbn [Z.eqb Pos.eqb negb].
    rewrite Z.eqb_refl. cbn [negb]. rewrite E. destruct (Z.eqb_spec res 0) as [->|Hr].
    + by rewrite (proj1 He eq_refl).
    + rewrite (proj2 (Z.eqb_neq err 0)) by tauto. done.
  - intros st w' E. eapply remote_stat_ok. unfold statFile. rewrite Z.eqb_refl. cbn [negb]. by rewrite E.
  - intros err w' E He. eapply remote_stat_err; [|done]. unfold statFile. rewrite Z.eqb_refl. cbn [negb].
    by rewrite E.
  - intros. by apply remote_read_null.
Qed.

(** Who may use the service.  A caller other than the system user gets
    EPERM from all three file operations, and one that is not root, or that
    talks to the service of the app context, cannot register a service; in each
    case neither a file nor the service manager is touched. *)
Theorem service_permissions {W H P} `{FileSys W H} `{ServiceEnv W} `{ParcelLaws P}
    string8 render malloc_ok isSystem pid uid default_transact (w : W) name :
  let call := remote (P := P) string8 render malloc_ok isSystem pid uid default_transact in
  (uid <> UID_SYSTEM ->
     (forall mode, bp_accessFile call name mode w = Done (-1, Some EPERM, w)) /\
     bp_statFile call name w = Done (-1, Some EPERM, None, w) /\
     (forall offset len size mtime,
        bp_readFile call name offset len size mtime w =
        Done (-1, Some (mkProxyRead EPERM [] size mtime (-1)), w))) /\
  (uid <> 0 \/ isSystem = false ->
     forall service iso, bp_addService call name service iso w = Done (-1, w)).
Proof.
  cbn zeta. split.
  - intros Hu. pose proof (proj2 (Z.eqb_neq _ _) Hu) as Eu. split_and!.
    + intros mode. rewrite remote_access. unfold accessFile. by rewrite Eu.
    + eapply remote_stat_err; [|done]. unfold statFile. by rewrite Eu.
    + intros offset len size mtime. erewrite remote_read_null;
        [|unfold readFile; by rewrite Eu|by cbn]. reflexivity.
  - intros Hu service iso. eapply remote_add; [|done]. unfold addService.
    assert (negb isSystem || negb (uid =? 0) = true) as ->; [|done].
    destruct Hu as [Hu| ->]; [|done]. rewrite (proj2 (Z.eqb_neq _ _) Hu). by rewrite orb_true_r.
Qed.

(** The proxy cannot receive data.  Whenever the service answers [readFile]
    with bytes, the proxy indexes the pointer it was given as an array,
    outside of it. *)
Theorem proxy_readFile_faults {W H P} `{FileSys W H} `{ServiceEnv W} `{ParcelLaws P}
    string8 render malloc_ok isSystem pid uid default_transact (w : W) name offset len size mtime r w' b
    (Hread : readFile string8 malloc_ok uid name offset len size mtime w = Done (r, w'))
    (Hbuf : rr_buffer r = Some b) (Hlen : rr_bytesRead r = Z.of_nat (length b))
    (Hpos : 0 < rr_bytesRead r < 2 ^ 31) :
  bp_readFile (remote (P := P) string8 render malloc_ok isSystem pid uid default_transact)
    name offset len size mtime w = Fault OutOfBounds.
Proof. by eapply remote_read_data. Qed.

(** ** The range read *)

Section Range.
Context {W H : Type} `{FileSys W H}.
Context (string8 : string16 -> cstr) (malloc_ok : Z -> bool) (name : string16).
Context (c : list Z) (st : statbuf) (inv : W -> Prop) (stream : H -> nat -> W -> Prop).
Context (Hfile : plain_file (string8 name) c st inv stream).
Context (Hsize : st_size st = Z.of_nat (length c)) (Hint : Z.of_nat (length c) < 2 ^ 31 - 1).
Context (Hmalloc : forall n, 0 < n -> malloc_ok n = true).

Lemma read_range_ok o len mtime w : inv w -> 0 <= o -> 0 < len ->
  exists w', inv w' /\
    read_range malloc_ok (string8 name) o len (st_size st) mtime w =
    let got := take (Z.to_nat len) (drop (Z.to_nat o) c) in
    Done (mkReadResult 0 (st_size st) mtime (Some got) (Z.of_nat (length got)) None, w').
Proof.
  intros Hw Ho Hl. unfold read_range.
  rewrite Hmalloc by lia. rewrite (proj2 (Z.ltb_ge (len + 1) 0)) by lia. cbn [orb negb].
  rewrite (proj2 (Z.ltb_ge len 0)) by lia.
  destruct (pf_fopen _ _ _ _ _ Hfile w Hw) as (h & w2 & -> & Hw2).
  assert (exists w3, (if 0 <? o then f_fseek h o w2 else (0, w2)) = (0, w3) /\
            stream h (Z.to_nat o) w3) as (w3 & -> & Hw3).
  { destruct (Z.ltb_spec 0 o).
    - destruct (pf_fseek _ _ _ _ _ Hfile h 0%nat w2 o Hw2) as (w3 & -> & Hw3); [lia|]. by exists w3.
    - exists w2. split; [done|]. by replace o with 0 by lia. }
  cbn [Z.eqb negb].
  destruct (pf_fread _ _ _ _ _ Hfile h (Z.to_nat o) w3 (Z.to_nat len) Hw3) as (w4 & Er & Hw4 & Hfe & _); [lia|].
  rewrite Er, Hfe. cbn [Z.eqb negb]. eexists. split; [|done]. by eapply (pf_fclose _ _ _ _ _ Hfile).
Qed.
End Range.

(** What the documentation of the operation asks for, for a regular file with
    contents [c]: nothing if the caller's size and time are up to date, an
    error for a range that is not inside of the file, and otherwise the range,
    to the end of the file where no length is given. *)
Definition read_spec (c : list Z) (st : statbuf) (offset len size mtime : Z) : read_result :=
  let n := Z.of_nat (length c) in
  let o := Z.max 0 offset in
  let answer := mkReadResult 0 n (st_mtime st) in
  if (size =? n) && (mtime =? s32 (st_mtime st)) then mkReadResult 0 size mtime None (-1) None
  else if (0 <? offset) && (n <=? offset) then
    mkReadResult EINVAL n (st_mtime st) None (-1) (Some (MsgOffset offset n))
  else if (0 <? len) && (n <? o + len) then
    mkReadResult EINVAL n (st_mtime st) None (-1) (Some (MsgLength o len n))
  else if n =? 0 then answer None 0 None
  else
    let got := take (Z.to_nat (if len <=? 0 then n - o else len)) (drop (Z.to_nat o) c) in
    answer (Some got) (Z.of_nat (length got)) None.

(** [XposedService::readFile] reads the range it is asked for.  On a
    regular file of less than 2 GiB with a range whose end fits an [int32], it
    gives exactly the answer of [read_spec], and the bytes it returns are all
    of the bytes of the range. *)
Theorem service_readFile_spec {W H} `{FileSys W H} string8 malloc_ok name c st inv
    (stream : H -> nat -> W -> Prop) offset len size mtime w
    (Hfile : plain_file (string8 name) c st inv stream)
    (Hsize : st_size st = Z.of_nat (length c)) (Hint : Z.of_nat (length c) < 2 ^ 31 - 1)
    (Hdir : S_ISDIR (st_mode st) = false)
    (Hmalloc : forall n, 0 < n -> malloc_ok n = true) (Hw : inv w)
    (Hoff : in_s 32 offset) (Hlen : in_s 32 len) (Hend : Z.max 0 offset + len < 2 ^ 31) :
  exists w', inv w' /\
    readFile string8 malloc_ok UID_SYSTEM name offset len size mtime w =
    Done (read_spec c st offset len size mtime, w') /\
    (rr_status (read_spec c st offset len size mtime) = 0 ->
     forall b, rr_buffer (read_spec c st offset len size mtime) = Some b ->
     Z.of_nat (length b) = if len <=? 0 then Z.of_nat (length c) - Z.max 0 offset else len).
Proof.
  assert (Z.of_nat (length c) >= 0) by lia. unfold in_s in *.
  destruct (pf_stat _ _ _ _ _ Hfile w Hw) as (w1 & E1 & Hw1).
  unfold readFile, read_spec. rewrite Z.eqb_refl. cbn [negb]. rewrite E1, Hdir, Hsize.
  destruct ((size =? _) && _); [exists w1; by split_and!|].
  destruct ((0 <? offset) && _) eqn:Eo; [exists w1; by split_and!|]. cbn zeta.
  assert ((if offset <? 0 then 0 else offset) = Z.max 0 offset) as ->.
  { destruct (Z.ltb_spec offset 0); lia. }
  assert (Z.max 0 offset <= Z.of_nat (length c)) by bool_lia.
  assert (((0 <? len) && (Z.of_nat (length c) <? s32 (Z.max 0 offset + len))) =
          ((0 <? len) && (Z.of_nat (length c) <? Z.max 0 offset + len))) as ->.
  { destruct (Z.ltb_spec 0 len); [|done]. cbn [andb]. by rewrite (swrap_small 32) by (unfold in_s; lia). }
  destruct ((0 <? len) && _) eqn:El; [exists w1; by split_and!|].
  destruct (Z.eqb_spec (Z.of_nat (length c)) 0) as [Hz|Hz]; [exists w1; by split_and!|].
  rewrite (swrap_small 32 (_ - _)) by (unfold in_s; lia).
  destruct (read_range_ok string8 malloc_ok name c st inv stream Hfile Hmalloc
              (Z.max 0 offset) (if len <=? 0 then Z.of_nat (length c) - Z.max 0 offset else len)
              (st_mtime st) w1 Hw1) as (w2 & Hw2 & Er).
  - lia.
  - destruct (Z.leb_spec len 0); [|lia]. bool_lia.
  - exists w2. split; [done|]. rewrite <- Hsize. rewrite Hsize at 1. rewrite Er. split; [by rewrite Hsize|].
    cbn. intros _ b [= <-]. rewrite length_take, length_drop.
    destruct (Z.leb_spec len 0); bool_lia.
Qed.

(** ** The theorems at work

    Parcels as lists of items. *)

Definition pop {A} (f : item -> option A) (d : A) (p : list item) : A * list item :=
  match p with
  | x :: p' => match f x with Some a => (a, p') | None => (d, p) end
  | [] => (d, p)
  end.
Definition get32 (i : item) : option Z := match i with I32 z => Some z | _ => None end.
Definition get64 (i : item) : option Z := match i with I64 z => Some z | _ => None end.
Definition get_string (i : item) : option string16 := match i with IString s => Some s | _ => None end.
Definition get_binder (i : item) : option Z := match i with IBinder b => Some b | _ => None end.
Definition get_token (i : item) : option string16 := match i with IToken s => Some s | _ => None end.
Definition get_bytes (i : item) : option (list Z) := match i with IBytes l => Some l | _ => None end.

#[local] Instance list_parcel : Parcel (list item) := {|
  p_new := [];
  p_writeInterfaceToken s p := p ++ [IToken s];
  p_checkInterface s p := let '(t, p) := pop get_token [] p in (streq t s, p);
  p_writeInt32 z p := p ++ [I32 z];
  p_writeInt64 z p := p ++ [I64 z];
  p_writeString16 s p := p ++ [IString s];
  p_writeStrongBinder b p := p ++ [IBinder b];
  p_writeNoException p := p ++ [I32 0];
  p_write l p := p ++ [IBytes l];
  p_readExceptionCode := pop get32 0;
  p_readInt32 := pop get32 0;
  p_readInt64 := pop get64 0;
  p_readString16 := pop get_string [];
  p_readStrongBinder := pop get_binder 0;
  p_read n p := let '(l, p) := pop get_bytes [] p in (take n l, p);
  p_dataAvail p := match p with IBytes l :: _ => Z.min (Z.of_nat (length l)) (2 ^ 31 - 1) | _ => 0 end
|}.

#[local] Instance list_parcel_laws : ParcelLaws (list item).
Proof.
  refine {| holds p l := p = l |}; intros; subst; cbn; try done; try by eexists.
  - eexists. split; [|done]. f_equal. by apply streq_true.
  - lia.
Defined.

#[local] Instance demo_service : ServiceEnv memfs := {| e_addService _ _ _ w := (0, w) |}.

Definition demo_file : memfs := mkMemfs (lit "0123456789") (mkStat 0x8000 10 77) 0 false.
Definition demo_call (uid : Z) : Z -> list item -> memfs -> cres (Z * list item * memfs) :=
  remote id (fun _ => []) (fun _ => true) true 42 uid (fun _ _ r w => Done (0, r, w)).

Lemma proxy_transparent_witness :
  bp_test (demo_call UID_SYSTEM) demo_file = Done (42, demo_file) /\
  bp_statFile (demo_call UID_SYSTEM) (lit "/f") demo_file = Done (0, Some 0, Some (10, 77), demo_file).
Proof.
  destruct (proxy_transparent (P := list item) id (fun _ => []) (fun _ => true) true 42
    (fun _ _ r w => Done (0, r, w)) demo_file (lit "/f")) as (H1 & _ & H2 & _).
  split; [exact H1|]. exact (H2 (m_stat demo_file) demo_file eq_refl).
Defined.

Lemma service_permissions_witness :
  bp_statFile (demo_call 10001) (lit "/f") demo_file = Done (-1, Some EPERM, None, demo_file) /\
  bp_addService (demo_call 10001) (lit "svc") 5 true demo_file = Done (-1, demo_file).
Proof.
  destruct (service_permissions (P := list item) id (fun _ => []) (fun _ => true) true 42 10001
    (fun _ _ r w => Done (0, r, w)) demo_file (lit "/f")) as [H1 _].
  destruct (service_permissions (P := list item) id (fun _ => []) (fun _ => true) true 42 10001
    (fun _ _ r w => Done (0, r, w)) demo_file (lit "svc")) as [_ H2].
  split; [apply H1; discriminate|]. apply H2. left. discriminate.
Defined.

Lemma service_readFile_spec_witness :
  exists w', (m_content w' = lit "0123456789" /\ m_stat w' = m_stat demo_file) /\
    readFile id (fun _ => true) UID_SYSTEM (lit "/f") 2 3 0 0 demo_file =
    Done (mkReadResult 0 10 77 (Some (lit "234")) 3 None, w').
Proof.
  destruct (service_readFile_spec id (fun _ => true) (lit "/f") (lit "0123456789") (m_stat demo_file)
    _ _ 2 3 0 0 demo_file (memfs_plain _ _ _) eq_refl) as (w' & Hw & E & _);
    [reflexivity|reflexivity|reflexivity|split; reflexivity|split; vm_compute; congruence
    |split; vm_compute; congruence|reflexivity|].
  exists w'. split; [exact Hw|exact E].
Defined.

Lemma proxy_readFile_faults_witness :
  bp_readFile (demo_call UID_SYSTEM) (lit "/f") 0 0 0 0 demo_file = Fault OutOfBounds.
Proof.
  eapply (proxy_readFile_faults (P := list item) id (fun _ => []) (fun _ => true) true 42 UID_SYSTEM
    (fun _ _ r w => Done (0, r, w)) demo_file (lit "/f") 0 0 0 0);
    [vm_compute; reflexivity|reflexivity|reflexivity|split; vm_compute; congruence].
Defined.
