(* ===== verification/HookDalvik.v ===== *)
(** * HookDalvik: replacing methods of the Dalvik VM
      (libbridge/bridge.cpp; Xposed-master/libxposed_dalvik.cpp has the same code)

    A hook overwrites the VM's [Method] structure with a native method whose
    code pointer leads to a copy of the original; the native function boxes the
    arguments, calls the Java handler and unboxes its result.  Methods and
    copies live in one store, as the code uses the copy as a [Method] itself.
    The VM (method lookup, the handler, unboxing, invocation) is a class of
    operations. *)

From stdpp Require Import gmap.
From S2P Require Import Prelude CLib.

Definition ACC_STATIC : Z := 0x8.
Definition ACC_NATIVE : Z := 0x100.

(** The fields of [Method] that the code touches; the others, and the bytes of
    extensions of the ROM behind the structure, are in [m_rest]. *)
Record Method := mkMethod {
  m_accessFlags : Z; m_registersSize : Z; m_outsSize : Z; m_insSize : Z; m_shorty : cstr;
  m_insns : Z; m_nativeFunc : Z; m_rest : list Z
}.

Inductive obj := Null | Ref (a : Z) | Boxed (type : Z) (value : Z).
Definition obj_of_word (a : Z) : obj := if a =? 0 then Null else Ref a.

Inductive exn :=
| IllegalArgument | NoSuchMethod | NullPointer | ClassCast | Other (e : Z).

(** [BridgeHookInfo] without the copy of the method, which is in the store of
    methods at the same address. *)
Record BridgeHookInfo := mkInfo { reflectedMethod : obj; additionalInfo : obj }.

(** [codeCacheFull] is the byte at that offset of gDvmJit; [None] without JIT. *)
Record vm := mkVm {
  methods : gmap Z Method;
  infos : gmap Z BridgeHookInfo;
  exception : option exn;
  codeCacheFull : option Z
}.

Definition throw (e : exn) (v : vm) : vm := mkVm (methods v) (infos v) (Some e) (codeCacheFull v).
Definition set_method (a : Z) (m : Method) (v : vm) : vm :=
  mkVm (<[a := m]> (methods v)) (infos v) (exception v) (codeCacheFull v).
Definition add_info (a : Z) (i : BridgeHookInfo) (v : vm) : vm :=
  mkVm (methods v) (<[a := i]> (infos v)) (exception v) (codeCacheFull v).

(** The arguments of the Java method handleHookedMethod. *)
Record handler_call := mkCall {
  hc_reflected : obj; hc_original : Z; hc_additional : obj; hc_this : obj; hc_args : list obj
}.

Inductive return_type := RVoid | RPrimitive | RReference.

(** What is stored in the result of the native method. *)
Inductive jresult := Untouched | RNull | RValue (v : Z).

Class Dalvik := {
  (** The address of [bridgeCallHandler] and of a fresh block. *)
  call_handler_ptr : Z;
  calloc : vm -> Z;
  dvmSlotToMethod : Z -> Z -> Z;
  dvmGetMethodFromReflectObj : Z -> Z;
  handleHookedMethod : handler_call -> vm -> obj * vm;
  dvmGetBoxedReturnType : Method -> return_type;
  dvmUnboxPrimitive : obj -> return_type -> option Z;
  dvmInvokeMethod : obj -> Method -> Z -> Z -> Z -> vm -> obj * vm
}.

Section Hook.
Context `{Dalvik}.

Definition bridgeIsHooked (m : Method) : bool := m_nativeFunc m =? call_handler_ptr.

Definition get_method (a : Z) (v : vm) : cres Method :=
  match methods v !! a with Some m => Done m | None => Fault NullDeref end.

(** ** Installing a hook *)

Definition patched (m : Method) (hookInfo : Z) : Method :=
  mkMethod (Z.lor (m_accessFlags m) ACC_NATIVE) (m_insSize m) 0 (m_insSize m) (m_shorty m)
    hookInfo call_handler_ptr (m_rest m).

Definition reset_jit (v : vm) : vm :=
  match codeCacheFull v with
  | Some c =>
      if (c =? 0) || (c =? 1) then mkVm (methods v) (infos v) (exception v) (Some 1) else v
  | None => v
  end.

Definition hookMethodNative (reflected declaredClass slot : Z) (additional : Z) (v : vm) : cres vm :=
  if (declaredClass =? 0) || (reflected =? 0) then Done (throw IllegalArgument v)
  else
    let a := dvmSlotToMethod declaredClass slot in
    if a =? 0 then Done (throw NoSuchMethod v)
    else
      m ← get_method a v;
      if bridgeIsHooked m then Done v
      else
        let hookInfo := calloc v in
        if hookInfo =? 0 then Fault NullDeref
        else
          let v := set_method hookInfo m v in
          let v := add_info hookInfo (mkInfo (obj_of_word reflected) (obj_of_word additional)) v in
          let v := set_method a (patched m hookInfo) v in
          Done (reset_jit v).

(** ** Calling a hooked method *)

Definition is_narrow (c : Z) : bool := existsb (Z.eqb c) (lit "ZCFBSI").
Definition is_wide (c : Z) : bool := existsb (Z.eqb c) (lit "DJ").
Definition is_ref (c : Z) : bool := existsb (Z.eqb c) (lit "[L").

(** [dvmGetArgLong]: two words, the low one first. *)
Definition dvmGetArgLong (args : list Z) (i : nat) : cres Z :=
  lo ← deref (args !! i); hi ← deref (args !! S i); Done (lo + 2 ^ 32 * hi).

(** [bridgeSetObjectArrayElement]. *)
Definition set_element (arr : list obj) (i : nat) (o : obj) : cres (list obj) :=
  if (i <? length arr)%nat then Done (<[i := o]> arr) else Fault OutOfBounds.

(** The loop over the descriptor characters. *)
Fixpoint box_args (desc : cstr) (args : list Z) (src dst : nat) (arr : list obj) : cres (list obj) :=
  match desc with
  | [] => Done arr
  | c :: desc' =>
      '(o, src') ←
        (if is_narrow c then w ← deref (args !! src); Done (Boxed c w, S src)
         else if is_wide c then w ← dvmGetArgLong args src; Done (Boxed c w, S (S src))
         else if is_ref c then w ← deref (args !! src); Done (obj_of_word w, S src)
         else Done (Null, S src));
      arr ← set_element arr dst o;
      box_args desc' args src' (S dst) arr
  end.

(** The last part of [bridgeCallHandler]. *)
Definition return_result (m : Method) (result : obj) (v : vm) : jresult * vm :=
  match dvmGetBoxedReturnType m with
  | RVoid => (Untouched, v)
  | rt =>
      match result with
      | Null => (RNull, match rt with RPrimitive => throw NullPointer v | _ => v end)
      | o =>
          match dvmUnboxPrimitive o rt with
          | Some x => (RValue x, v)
          | None => (Untouched, throw ClassCast v)
          end
      end
  end.

(** [bridgeCallHandler] for the method at [a]; [alloc_ok] says whether the
    array can be allocated. *)
Definition bridgeCallHandler (alloc_ok : bool) (args : list Z) (a : Z) (v : vm) : cres (jresult * vm) :=
  m ← get_method a v;
  if negb (bridgeIsHooked m) then Done (Untouched, throw NoSuchMethod v)
  else
    let original := m_insns m in
    om ← get_method original v;
    info ← (match infos v !! original with Some i => Done i | None => Fault NullDeref end);
    '(this, src) ← (if Z.land (m_accessFlags om) ACC_STATIC =? 0
                     then w ← deref (args !! 0%nat); Done (obj_of_word w, 1%nat)
                     else Done (Null, 0%nat));
    if negb alloc_ok then Done (Untouched, v)
    else
      let desc := drop 1 (m_shorty m) in
      argsArray ← box_args desc args src 0 (replicate (length desc) Null);
      let '(result, v) :=
        handleHookedMethod (mkCall (reflectedMethod info) original (additionalInfo info) this argsArray) v in
      match exception v with
      | Some _ => Done (Untouched, v)
      | None => Done (return_result m result v)
      end.

(** ** Calling the original *)

Definition invokeOriginalMethodNative (args : list Z) (v : vm) : cres (obj * vm) :=
  arg0 ← deref (args !! 0%nat);
  arg1 ← deref (args !! 1%nat);
  meth ← (if arg1 =? 0 then
            let a := dvmGetMethodFromReflectObj arg0 in
            m ← get_method a v;
            Done (if bridgeIsHooked m then m_insns m else a)
          else Done arg1);
  params ← deref (args !! 2%nat);
  returnType ← deref (args !! 3%nat);
  thisObject ← deref (args !! 4%nat);
  argList ← deref (args !! 5%nat);
  m ← get_method meth v;
  Done (dvmInvokeMethod (obj_of_word thisObject) m argList params returnType v).
End Hook.

(** ** Hooks keep the originals *)

Section Originals.
Context `{Dalvik}.
(** [calloc] returns memory that is in use for nothing else, and that no class
    has a method in. *)
Context (Hfresh : forall v, calloc v <> 0 ->
  methods v !! calloc v = None /\ forall d s, dvmSlotToMethod d s <> calloc v).

(** The method as it was before it was hooked. *)
Definition original_of (v : vm) (a : Z) : option Method :=
  m ← methods v !! a; if bridgeIsHooked m then methods v !! m_insns m else Some m.

(** Hooked methods are patched copies of methods that are not hooked. *)
Definition hooks_wf (v : vm) : Prop :=
  forall a m, methods v !! a = Some m -> bridgeIsHooked m = true ->
    exists om, methods v !! m_insns m = Some om /\ bridgeIsHooked om = false /\
      m = patched om (m_insns m) /\ is_Some (infos v !! m_insns m) /\
      forall d s, dvmSlotToMethod d s <> m_insns m.

(** What one call of [hookMethodNative] does to the stores. *)
Lemma hook_effect r d s add v v' : hookMethodNative r d s add v = Done v' ->
  (methods v' = methods v /\ infos v' = infos v) \/
  exists a m h i, methods v !! a = Some m /\ bridgeIsHooked m = false /\ a = dvmSlotToMethod d s /\
    (methods v !! h = None /\ forall d s, dvmSlotToMethod d s <> h) /\ methods v' = <[a := patched m h]> (<[h := m]> (methods v)) /\
    infos v' = <[h := i]> (infos v).
Proof.
  unfold hookMethodNative, get_method. destruct (_ || _); [intros [= <-]; by left|].
  destruct (_ =? 0); [intros [= <-]; by left|].
  destruct (methods v !! _) as [m|] eqn:Em; [|done]. cbn [mbind cres_bind].
  destruct (bridgeIsHooked m) eqn:Eh; [intros [= <-]; by left|].
  destruct (Z.eqb_spec (calloc v) 0) as [|Hc]; [done|]. intros [= <-]. right.
  do 4 eexists. split; [exact Em|]. split; [done|]. split; [done|]. split; [by apply Hfresh|].
  unfold reset_jit. by repeat case_match.
Qed.

Lemma patched_hooked m h : bridgeIsHooked (patched m h) = true.
Proof. apply Z.eqb_refl. Qed.

Lemma hook_keeps_originals r d s add v v' :
  hooks_wf v -> hookMethodNative r d s add v = Done v' ->
  hooks_wf v' /\ forall a m, methods v !! a = Some m -> original_of v' a = original_of v a.
Proof.
  intros Hwf Hk. apply hook_effect in Hk as [[Em Ei]|(a & m & h & i & Ha & Hu & Hs & [Hh Hsl] & Em & Ei)].
  { unfold hooks_wf, original_of in *. rewrite Em, Ei. done. }
  assert (a <> h) as Hah by congruence.
  assert (forall x xm, methods v !! x = Some xm -> x <> h) as Hx by congruence.
  split.
  - intros x xm. rewrite Em, Ei. destruct (decide (x = a)) as [->|Hxa].
    + rewrite lookup_insert_eq. intros [= <-] _. cbn. exists m.
      rewrite lookup_insert_ne, !lookup_insert_eq by done. by split_and!; eauto.
    + rewrite lookup_insert_ne by done. destruct (decide (x = h)) as [->|Hxh].
      * rewrite lookup_insert_eq. intros [= <-]. congruence.
      * rewrite lookup_insert_ne by done. intros E Eh.
        destruct (Hwf x xm E Eh) as (om & E1 & E2 & E3 & E4 & E5). exists om.
        assert (a <> m_insns xm) by (rewrite Hs; apply E5).
        assert (h <> m_insns xm) by (apply not_eq_sym; by eapply Hx).
        rewrite !lookup_insert_ne by done. done.
  - intros x xm E. unfold original_of. rewrite Em. destruct (decide (x = a)) as [->|Hxa].
    + rewrite lookup_insert_eq, Ha. cbn. rewrite patched_hooked, Hu. cbn.
      by rewrite lookup_insert_ne, lookup_insert_eq by done.
    + rewrite !lookup_insert_ne by (done || (intros ->; congruence)). rewrite E. cbn.
      destruct (bridgeIsHooked xm) eqn:Eh; [|done].
      destruct (Hwf x xm E Eh) as (om & E1 & E2 & _ & _ & E5).
      rewrite !lookup_insert_ne; [done| |rewrite Hs; apply E5]. apply not_eq_sym. by eapply Hx.
Qed.

(** Any number of hooks, one after the other. *)
Fixpoint run_hooks (ops : list (Z * Z * Z * Z)) (v : vm) : cres vm :=
  match ops with
  | [] => Done v
  | (r, d, s, add) :: ops => v ← hookMethodNative r d s add v; run_hooks ops v
  end.

Lemma run_hooks_originals ops v v' : hooks_wf v -> run_hooks ops v = Done v' ->
  hooks_wf v' /\ forall a m, methods v !! a = Some m -> original_of v' a = original_of v a.
Proof.
  revert v. induction ops as [|[[[r d] s] add] ops IH]; intros v Hwf Hr; cbn in Hr.
  { injection Hr as <-. done. }
  destruct (hookMethodNative r d s add v) as [v1|] eqn:E; [|done]. cbn in Hr.
  destruct (hook_keeps_originals _ _ _ _ _ _ Hwf E) as [Hwf1 Ho].
  destruct (IH _ Hwf1 Hr) as [Hwf2 Ho2]. split; [done|]. intros a m Ha.
  pose proof (Ho a m Ha) as Ho1. rewrite <- Ho1.
  assert (exists m1, methods v1 !! a = Some m1) as [m1 Hm1]; [|by apply (Ho2 a m1)].
  apply hook_effect in E as [[Em _]|(x & y & h & i & _ & _ & _ & _ & Em & _)]; rewrite Em; [by exists m|].
  destruct (decide (a = x)) as [->|]; [rewrite lookup_insert_eq; eauto|].
  rewrite lookup_insert_ne by done.
  destruct (decide (a = h)) as [->|]; [rewrite lookup_insert_eq; eauto|].
  rewrite lookup_insert_ne by done. eauto.
Qed.
End Originals.

(** Hooking never loses a method.  After any sequence of hooks on a VM
    without hooks, however often the same method is hooked, calling the
    original of any method runs the structure it had before the first hook. *)
Theorem invoke_original_after_hooks `{Dalvik} ops v v' a m reflected params rt this args
    (Hfresh : forall v, calloc v <> 0 ->
       methods v !! calloc v = None /\ forall d s, dvmSlotToMethod d s <> calloc v)
    (Hnone : forall x xm, methods v !! x = Some xm -> bridgeIsHooked xm = false)
    (Hrun : run_hooks ops v = Done v') (Hm : methods v !! a = Some m)
    (Hrefl : dvmGetMethodFromReflectObj reflected = a) :
  invokeOriginalMethodNative [reflected; 0; params; rt; this; args] v' =
  Done (dvmInvokeMethod (obj_of_word this) m args params rt v').
Proof.
  destruct (run_hooks_originals Hfresh ops v v') as [Hwf Ho]; [|done|].
  { intros x xm E Eh. rewrite (Hnone x xm E) in Eh. done. }
  specialize (Ho a m Hm). unfold original_of in Ho. rewrite Hm in Ho. cbn in Ho.
  rewrite (Hnone a m Hm) in Ho. unfold invokeOriginalMethodNative, get_method. cbn. rewrite Hrefl.
  destruct (methods v' !! a) as [m'|] eqn:E; [|done]. cbn in *.
  destruct (bridgeIsHooked m'); [by rewrite Ho|]. rewrite E. by injection Ho as ->.
Qed.

(** ** Arguments *)

(** A Java argument with its descriptor character, the words that the calling
    convention passes it in, and the object the handler should see. *)
Inductive jarg := ANarrow (c w : Z) | AWide (c x : Z) | ARef (c w : Z).
Definition arg_char (x : jarg) : Z := match x with ANarrow c _ | AWide c _ | ARef c _ => c end.
Definition arg_words (x : jarg) : list Z :=
  match x with ANarrow _ w | ARef _ w => [w] | AWide _ x => [x mod 2 ^ 32; x / 2 ^ 32] end.
Definition arg_obj (x : jarg) : obj :=
  match x with ANarrow c w => Boxed c w | AWide c x => Boxed c x | ARef _ w => obj_of_word w end.
Definition arg_wf (x : jarg) : Prop :=
  match x with
  | ANarrow c _ => is_narrow c = true
  | AWide c _ => is_wide c = true
  | ARef c _ => is_ref c = true
  end.

Lemma wide_not_narrow c : is_wide c = true -> is_narrow c = false.
Proof. unfold is_wide, is_narrow. cbn. bool_lia. Qed.
Lemma ref_not_prim c : is_ref c = true -> is_narrow c = false /\ is_wide c = false.
Proof. unfold is_wide, is_narrow, is_ref. cbn. bool_lia. Qed.

Lemma deref_mid {A} (pre : list A) x post : deref ((pre ++ x :: post) !! length pre) = Done x.
Proof. by rewrite list_lookup_middle. Qed.

Lemma deref_mid2 {A} (pre : list A) x y post : deref ((pre ++ x :: y :: post) !! S (length pre)) = Done y.
Proof.
  replace (pre ++ x :: y :: post) with ((pre ++ [x]) ++ y :: post) by (by rewrite <- app_assoc).
  replace (S (length pre)) with (length (pre ++ [x])) by (rewrite length_app; cbn; lia).
  apply deref_mid.
Qed.

(** Every argument is read from its words and stored in its place. *)
Lemma box_args_ok xs pre post done arr :
  Forall arg_wf xs -> length arr = length xs ->
  box_args (map arg_char xs) (pre ++ concat (map arg_words xs) ++ post) (length pre) (length done)
    (done ++ arr) = Done (done ++ map arg_obj xs).
Proof.
  intros Hwf. revert pre done arr. induction Hwf as [|x xs Hx _ IH]; intros pre dn arr Hlen.
  { destruct arr; [done|discriminate]. }
  destruct arr as [|o arr]; [discriminate|]. injection Hlen as Hlen.
  assert (forall o', set_element (dn ++ o :: arr) (length dn) o' = Done ((dn ++ [o']) ++ arr)) as Hset.
  { intros o'. unfold set_element. rewrite (proj2 (Nat.ltb_lt _ _)) by (rewrite length_app; cbn; lia).
    by rewrite insert_app_r_alt, Nat.sub_diag, <- app_assoc by lia. }
  assert (forall ws, box_args (map arg_char xs) ((pre ++ ws) ++ concat (map arg_words xs) ++ post)
            (length (pre ++ ws)) (length (dn ++ [arg_obj x])) ((dn ++ [arg_obj x]) ++ arr) =
          Done (dn ++ map arg_obj (x :: xs))) as Hrest.
  { intros ws. rewrite IH by done. cbn. by rewrite <- app_assoc. }
  cbn [map concat box_args]. specialize (Hrest (arg_words x)).
  rewrite (length_app dn), Nat.add_comm in Hrest. cbn [length Nat.add] in Hrest.
  rewrite <- app_assoc in Hrest. rewrite <- app_assoc.
  destruct x as [c w|c x|c w]; cbn [arg_char arg_words arg_obj arg_wf app] in *.
  - rewrite Hx, deref_mid. cbn [mbind cres_bind]. rewrite Hset. cbn [mbind cres_bind].
    by rewrite length_app, Nat.add_comm in Hrest.
  - rewrite (wide_not_narrow c Hx), Hx. unfold dvmGetArgLong. rewrite deref_mid, deref_mid2.
    cbn [mbind cres_bind]. replace (x mod 2 ^ 32 + 2 ^ 32 * (x / 2 ^ 32)) with x
      by (rewrite Z.add_comm; by apply Z.div_mod).
    rewrite Hset. cbn [mbind cres_bind]. by rewrite length_app, Nat.add_comm in Hrest.
  - destruct (ref_not_prim c Hx) as [-> ->]. rewrite Hx, deref_mid. cbn [mbind cres_bind].
    rewrite Hset. cbn [mbind cres_bind]. by rewrite length_app, Nat.add_comm in Hrest.
Qed.

(** The handler sees the call.  For a hooked method, whatever its
    descriptor, the Java handler is called with the boxed values of exactly the
    arguments the caller passed, in order, with [this] for methods that are not
    static, with the address of the saved original and with the objects given
    when the method was hooked; an exception of the handler leaves the result
    alone, and otherwise it is unboxed. *)
Theorem handler_sees_call `{Dalvik} v a m om info ret xs this post
    (Hm : methods v !! a = Some m) (Hhook : bridgeIsHooked m = true)
    (Hom : methods v !! m_insns m = Some om) (Hinfo : infos v !! m_insns m = Some info)
    (Hshorty : m_shorty m = ret :: map arg_char xs) (Hwf : Forall arg_wf xs) :
  let static := negb (Z.land (m_accessFlags om) ACC_STATIC =? 0) in
  let pre := if static then [] else [this] in
  bridgeCallHandler true (pre ++ concat (map arg_words xs) ++ post) a v =
  let '(result, v1) :=
    handleHookedMethod
      (mkCall (reflectedMethod info) (m_insns m) (additionalInfo info)
         (if static then Null else obj_of_word this) (map arg_obj xs)) v in
  match exception v1 with
  | Some _ => Done (Untouched, v1)
  | None => Done (return_result m result v1)
  end.
Proof.
  intros static pre. unfold bridgeCallHandler, get_method. rewrite Hm. cbn [mbind cres_bind].
  rewrite Hhook. cbn [negb]. rewrite Hom, Hinfo. cbn [mbind cres_bind]. rewrite Hshorty. change (drop 1 (ret :: map arg_char xs)) with (map arg_char xs).
  pose proof (box_args_ok xs pre post [] (replicate (length (map arg_char xs)) Null) Hwf) as Hb.
  rewrite length_replicate, length_map in Hb. specialize (Hb eq_refl). cbn [length app] in Hb.
  rewrite length_map. subst pre static.
  destruct (Z.land (m_accessFlags om) ACC_STATIC =? 0); cbn [negb] in *;
    cbn [app lookup list_lookup deref mbind cres_bind length] in *; by rewrite Hb.
Qed.

(** ** The theorems at work *)

Definition demo_calloc (v : vm) : Z := map_fold (fun k _ acc => Z.max (k + 1) acc) 10 (methods v).

Lemma demo_calloc_above (ms : gmap Z Method) :
  10 <= map_fold (fun k _ acc => Z.max (k + 1) acc) 10 ms /\
  forall k m, ms !! k = Some m -> k < map_fold (fun k _ acc => Z.max (k + 1) acc) 10 ms.
Proof.
  apply (map_fold_weak_ind (fun r ms => 10 <= r /\ forall k m, ms !! k = Some m -> k < r)).
  - split; [lia|]. intros k m. by rewrite lookup_empty.
  - intros i x ms' r Hi [IH1 IH2]. split; [lia|]. intros k m.
    rewrite lookup_insert_Some. intros [[-> _]|[_ Hk]]; [lia|]. specialize (IH2 k m Hk). lia.
Qed.

#[local] Instance demo_dalvik : Dalvik := {|
  call_handler_ptr := 999;
  calloc := demo_calloc;
  dvmSlotToMethod _ s := if s =? 0 then 5 else 0;
  dvmGetMethodFromReflectObj _ := 5;
  handleHookedMethod c v := (nth 0 (hc_args c) Null, v);
  dvmGetBoxedReturnType m := match m_shorty m with 86 :: _ => RVoid | _ => RPrimitive end;
  dvmUnboxPrimitive o _ := match o with Boxed _ x => Some x | _ => None end;
  dvmInvokeMethod this m _ _ _ v := (Ref (m_insns m), v)
|}.

Lemma demo_fresh v : calloc v <> 0 ->
  methods v !! calloc v = None /\ forall d s, dvmSlotToMethod d s <> calloc v.
Proof.
  intros _. destruct (demo_calloc_above (methods v)) as [H10 Hk]. split.
  - destruct (methods v !! calloc v) eqn:E; [|done]. specialize (Hk _ _ E).
    change (calloc v < calloc v) in Hk. lia.
  - intros d s. cbn. unfold demo_calloc. destruct (s =? 0); lia.
Qed.

(** An instance method with an [int] and a [long]; hooked twice. *)
Definition demo_method : Method := mkMethod 1 6 2 4 (lit "IIJ") 777 0 [].
Definition demo_vm : vm := mkVm {[ 5 := demo_method ]} ∅ None (Some 0).

Lemma invoke_original_after_hooks_witness :
  exists v', run_hooks [(1, 1, 0, 7); (1, 1, 0, 8)] demo_vm = Done v' /\
    invokeOriginalMethodNative [1; 0; 0; 0; 0; 0] v' = Done (Ref 777, v').
Proof.
  eexists. split; [vm_compute; reflexivity|].
  refine (invoke_original_after_hooks [(1, 1, 0, 7); (1, 1, 0, 8)] demo_vm _ 5 demo_method 1 0 0 0 0
            demo_fresh _ _ _ _).
  - intros x xm Hx. cbn [methods demo_vm] in Hx. apply lookup_singleton_Some in Hx as [_ <-]. reflexivity.
  - vm_compute; reflexivity.
  - reflexivity.
  - reflexivity.
Defined.

Definition demo_hooked : vm :=
  mkVm {[ 5 := patched demo_method 11; 11 := demo_method ]} {[ 11 := mkInfo (Ref 1) (Ref 7) ]} None (Some 1).

Lemma handler_sees_call_witness :
  bridgeCallHandler true [42; 13; 1; 2] 5 demo_hooked = Done (RValue 13, demo_hooked).
Proof.
  refine (handler_sees_call demo_hooked 5 (patched demo_method 11) demo_method (mkInfo (Ref 1) (Ref 7)) 73
            [ANarrow 73 13; AWide 74 (1 + 2 * 2 ^ 32)] 42 [] _ _ _ _ _ _);
    [reflexivity..|].
  repeat constructor.
Defined.
