(* ===== verification/HookInit.v ===== *)
(** * HookInit: loading the bridge library into the Dalvik VM
      (libbridge/bridge.cpp)

    What [JNI_OnLoad] sets up before methods can be hooked, and the two
    operations on objects.  The results of the JNI and VM lookups are the
    fields of [lookups]; as JNI specifies, a lookup that fails leaves an
    exception pending. *)

From stdpp Require Import gmap.
From S2P Require Import Prelude CLib.

Definition JNI_OK : Z := 0.
Definition JNI_VERSION_1_4 : Z := 0x10004.

(** What the environment answers, zero for NULL.  [l_int_config] is what
    fscanf reads from the override file, [None] for no file or no number;
    [l_array_offset] the distance measured on the test array, [None] if it
    cannot be allocated. *)
Record lookups := mkLookups {
  l_getEnv : Z;
  l_gDvmJit : Z;
  l_int_config : option Z;
  l_array_offset : option Z;
  l_bridgeClass : Z;
  l_registerBridge : Z;
  l_handleHookedMethod : Z;
  l_invokeOriginalMethodNative : Z;
  l_objectArrayClass : Z;
  l_resourcesClass : Z;
  l_registerResources : Z;
  l_translateResId : Z;
  l_translateAttrId : Z
}.

(** The variables of the file, and whether an exception is pending. *)
Record globals := mkGlobals {
  keepLoadingBridge : bool;
  objectArrayClass : Z;
  bridgeClass : Z;
  bridgeHandleHookedMethod : Z;
  bridgeresourcesClass : Z;
  bridgeresourcesTranslateResId : Z;
  bridgeresourcesTranslateAttrId : Z;
  PTR_gDvmJit : Z;
  codeCacheFullOffset : Z;
  arrayContentsOffset : Z;
  invokeOriginalIsNative : bool;
  pending : bool
}.

Definition set_pending (p : bool) (g : globals) : globals :=
  mkGlobals (keepLoadingBridge g) (objectArrayClass g) (bridgeClass g) (bridgeHandleHookedMethod g)
    (bridgeresourcesClass g) (bridgeresourcesTranslateResId g) (bridgeresourcesTranslateAttrId g)
    (PTR_gDvmJit g) (codeCacheFullOffset g) (arrayContentsOffset g) (invokeOriginalIsNative g) p.
Definition set_keep (k : bool) (g : globals) : globals :=
  mkGlobals k (objectArrayClass g) (bridgeClass g) (bridgeHandleHookedMethod g)
    (bridgeresourcesClass g) (bridgeresourcesTranslateResId g) (bridgeresourcesTranslateAttrId g)
    (PTR_gDvmJit g) (codeCacheFullOffset g) (arrayContentsOffset g) (invokeOriginalIsNative g) (pending g).

(** A program over the globals, which may return early: [inl] is the value
    returned. *)
Definition load (A : Type) : Type := globals -> (bool + A) * globals.
Definition lret {A} (a : A) : load A := fun g => (inr a, g).
Definition lbind {A B} (m : load A) (k : A -> load B) : load B := fun g =>
  match m g with
  | (inl r, g) => (inl r, g)
  | (inr a, g) => k a g
  end.
Notation "x <~ m ; k" := (lbind m (fun x => k)) (at level 100, m at next level, right associativity).
Definition lset (f : globals -> globals) : load unit := fun g => (inr tt, f g).
Definition leave_with {A} (r : bool) : load A := fun g => (inl r, g).

(** A lookup: a result of zero comes with an exception. *)
Definition lookup_ref (r : Z) : load Z := fun g => (inr r, set_pending (pending g || (r =? 0)) g).
Definition register (rc : Z) : load Z := fun g => (inr rc, set_pending (pending g || negb (rc =? JNI_OK)) g).

(** The error exit of [initNative]. *)
Definition give_up_loading {A} : load A :=
  _ <~ lset (set_pending false); _ <~ lset (set_keep false); leave_with false.

Definition set_handle (x : Z) (g : globals) : globals :=
  mkGlobals (keepLoadingBridge g) (objectArrayClass g) (bridgeClass g) x (bridgeresourcesClass g)
    (bridgeresourcesTranslateResId g) (bridgeresourcesTranslateAttrId g) (PTR_gDvmJit g)
    (codeCacheFullOffset g) (arrayContentsOffset g) (invokeOriginalIsNative g) (pending g).
Definition set_invoke_native (g : globals) : globals :=
  mkGlobals (keepLoadingBridge g) (objectArrayClass g) (bridgeClass g) (bridgeHandleHookedMethod g)
    (bridgeresourcesClass g) (bridgeresourcesTranslateResId g) (bridgeresourcesTranslateAttrId g)
    (PTR_gDvmJit g) (codeCacheFullOffset g) (arrayContentsOffset g) true (pending g).
Definition set_array_class (x : Z) (g : globals) : globals :=
  mkGlobals (keepLoadingBridge g) x (bridgeClass g) (bridgeHandleHookedMethod g)
    (bridgeresourcesClass g) (bridgeresourcesTranslateResId g) (bridgeresourcesTranslateAttrId g)
    (PTR_gDvmJit g) (codeCacheFullOffset g) (arrayContentsOffset g) (invokeOriginalIsNative g) (pending g).
Definition set_resources (x r a : Z) (g : globals) : globals :=
  mkGlobals (keepLoadingBridge g) (objectArrayClass g) (bridgeClass g) (bridgeHandleHookedMethod g) x r a
    (PTR_gDvmJit g) (codeCacheFullOffset g) (arrayContentsOffset g) (invokeOriginalIsNative g) (pending g).
Definition set_bridge_class (x : Z) (g : globals) : globals :=
  mkGlobals (keepLoadingBridge g) (objectArrayClass g) x (bridgeHandleHookedMethod g)
    (bridgeresourcesClass g) (bridgeresourcesTranslateResId g) (bridgeresourcesTranslateAttrId g)
    (PTR_gDvmJit g) (codeCacheFullOffset g) (arrayContentsOffset g) (invokeOriginalIsNative g) (pending g).
Definition set_offsets (jit full arr : Z) (g : globals) : globals :=
  mkGlobals (keepLoadingBridge g) (objectArrayClass g) (bridgeClass g) (bridgeHandleHookedMethod g)
    (bridgeresourcesClass g) (bridgeresourcesTranslateResId g) (bridgeresourcesTranslateAttrId g)
    jit full arr (invokeOriginalIsNative g) (pending g).

Section Init.
Context (l : lookups).
(** The offset of codeCacheFull in the table for the mode. *)
Context (offset_with_jit offset_no_jit : Z).

(** [bridgeReadIntConfig]. *)
Definition bridgeReadIntConfig (defaultValue : Z) : Z :=
  match l_int_config l with Some r => r | None => defaultValue end.

Definition bridgeInitMemberOffsets : load bool :=
  let jit := l_gDvmJit l in
  let table := if jit =? 0 then offset_no_jit else offset_with_jit in
  let override := bridgeReadIntConfig (-1) in
  let full := if (0 <? override) && (override <? 0x400) then override else table in
  fun g =>
  match l_array_offset l with
  | None => (inr false, set_pending false (set_offsets jit full (arrayContentsOffset g) g))
  | Some off => (inr (negb ((off <? 12) || (128 <? off))), set_offsets jit full off g)
  end.

Definition bridgeOnVmCreated : load bool :=
  _ <~ lset (set_keep true);
  _ <~ bridgeInitMemberOffsets;
  c <~ lookup_ref (l_bridgeClass l);
  _ <~ lset (set_bridge_class c);
  if c =? 0 then _ <~ lset (set_pending false); lret false
  else
    rc <~ register (l_registerBridge l);
    if negb (rc =? JNI_OK) then _ <~ lset (set_pending false); lret false
    else lret true.

Definition initNative : load bool := fun g =>
  (if negb (keepLoadingBridge g) then leave_with false
   else
     h <~ lookup_ref (l_handleHookedMethod l);
     _ <~ lset (set_handle h);
     if h =? 0 then give_up_loading else
     i <~ lookup_ref (l_invokeOriginalMethodNative l);
     if i =? 0 then give_up_loading else
     _ <~ lset set_invoke_native;
     a <~ lookup_ref (l_objectArrayClass l);
     _ <~ lset (set_array_class a);
     if a =? 0 then give_up_loading else
     r <~ lookup_ref (l_resourcesClass l);
     _ <~ lset (fun g => set_resources r (bridgeresourcesTranslateResId g) (bridgeresourcesTranslateAttrId g) g);
     if r =? 0 then give_up_loading else
     rc <~ register (l_registerResources l);
     if negb (rc =? JNI_OK) then give_up_loading else
     t <~ lookup_ref (l_translateResId l);
     _ <~ lset (fun g => set_resources (bridgeresourcesClass g) t (bridgeresourcesTranslateAttrId g) g);
     if t =? 0 then give_up_loading else
     u <~ lookup_ref (l_translateAttrId l);
     _ <~ lset (fun g => set_resources (bridgeresourcesClass g) (bridgeresourcesTranslateResId g) u g);
     if u =? 0 then give_up_loading else
     lret true) g.

(** The result of a program that ends in a boolean. *)
Definition value (r : bool + bool) : bool := match r with inl b | inr b => b end.

Definition JNI_OnLoad (g : globals) : Z * globals :=
  if negb (l_getEnv l =? JNI_OK) then (-1, g)
  else
    let g := snd (bridgeOnVmCreated g) in
    let g := snd (initNative g) in
    (JNI_VERSION_1_4, g).
End Init.

(** ** Operations on objects *)

(** An object: its class and the bytes behind the header of eight bytes. *)
Record object := mkObject { o_clazz : Z; o_fields : list Z }.
Definition OBJECT_HEADER : nat := 8.

Section Objects.
(** [objectSize], and whether a class is or can be initialized. *)
Context (objectSize : Z -> nat) (initialized : Z -> bool) (dvmInitClass : Z -> bool).

Definition setObjectClassNative (heap : gmap Z object) (obj clz : Z) : cres (gmap Z object) :=
  if negb (initialized clz) && negb (dvmInitClass clz) then Done heap
  else
    match heap !! obj with
    | Some o => Done (<[obj := mkObject clz (o_fields o)]> heap)
    | None => Fault NullDeref
    end.

(** [copy] is the address [AllocObject] returns, zero for none; the new object
    has the size of its class and is filled with zeros. *)
Definition cloneToSubclassNative (heap : gmap Z object) (obj clz copy : Z)
    : cres (Z * gmap Z object) :=
  if copy =? 0 then Done (0, heap)
  else
    match heap !! obj with
    | None => Fault NullDeref
    | Some o =>
        let n := (objectSize (o_clazz o) - OBJECT_HEADER)%nat in
        let room := (objectSize clz - OBJECT_HEADER)%nat in
        if (length (o_fields o) <? n)%nat || (room <? n)%nat then Fault OutOfBounds
        else
          let fields := take n (o_fields o) ++ replicate (room - n) 0 in
          Done (copy, <[copy := mkObject clz fields]> heap)
    end.
End Objects.

(** ** Loading succeeds or is called off *)

Definition all_found (l : lookups) : bool :=
  negb (l_handleHookedMethod l =? 0) && negb (l_invokeOriginalMethodNative l =? 0) &&
  negb (l_objectArrayClass l =? 0) && negb (l_resourcesClass l =? 0) &&
  (l_registerResources l =? JNI_OK) && negb (l_translateResId l =? 0) && negb (l_translateAttrId l =? 0).

(** Everything a hooked call and the resource code rely on is there. *)
Definition ready (l : lookups) (g : globals) : Prop :=
  bridgeHandleHookedMethod g = l_handleHookedMethod l /\ objectArrayClass g = l_objectArrayClass l /\
  bridgeresourcesClass g = l_resourcesClass l /\ bridgeresourcesTranslateResId g = l_translateResId l /\
  bridgeresourcesTranslateAttrId g = l_translateAttrId l /\ invokeOriginalIsNative g = true.

Lemma initNative_spec l g :
  keepLoadingBridge g = true ->
  let '(r, g') := initNative l g in
  value r = all_found l /\ keepLoadingBridge g' = all_found l /\
  (pending g = false -> pending g' = false) /\ (all_found l = true -> ready l g') /\
  arrayContentsOffset g' = arrayContentsOffset g.
Proof.
  intros Hk. unfold initNative, all_found, ready. rewrite Hk. cbn [negb].
  unfold lbind, lookup_ref, lset, register, give_up_loading, lbind, leave_with, lret.
  destruct l; cbn -[Z.eqb].
  repeat (destruct_if; cbn -[Z.eqb] in *; [by split_and!|]).
  destruct (_ =? JNI_OK) eqn:Er; cbn -[Z.eqb]; [|by split_and!].
  repeat (destruct_if; cbn -[Z.eqb] in *; [by split_and!|]).
  split_and!; try done. by intros ->.
Qed.

(** What [JNI_OnLoad] leaves behind.  Once it gets an environment it always
    reports success, with no exception pending; hooking stays enabled exactly
    if all methods and classes of the bridge were found, and then everything
    the hook handler uses is set.  The check of the offset of array elements has
    no influence: an offset it rejects is stored all the same. *)
Theorem jni_onload_spec l with_jit no_jit g
    (Henv : l_getEnv l = JNI_OK) (Hpend : pending g = false) :
  let '(rc, g') := JNI_OnLoad l with_jit no_jit g in
  rc = JNI_VERSION_1_4 /\ pending g' = false /\ keepLoadingBridge g' = all_found l /\
  (all_found l = true -> ready l g') /\
  (forall off, l_array_offset l = Some off -> arrayContentsOffset g' = off).
Proof.
  unfold JNI_OnLoad. rewrite Henv. cbn [negb].
  assert (let g1 := snd (bridgeOnVmCreated l with_jit no_jit g) in
          keepLoadingBridge g1 = true /\ pending g1 = false /\
          forall off, l_array_offset l = Some off -> arrayContentsOffset g1 = off) as (Hk & Hp & Ho).
  { unfold bridgeOnVmCreated, lbind, lset, bridgeInitMemberOffsets, lookup_ref, register, lret.
    destruct (l_array_offset l) as [off|]; cbn -[Z.eqb]; rewrite ?Hpend;
      (destruct (l_bridgeClass l =? 0); cbn -[Z.eqb]; [by split_and!; try intros ? [= <-]|]);
      destruct (l_registerBridge l =? JNI_OK); cbn; by split_and!; try intros ? [= <-]. }
  pose proof (initNative_spec l _ Hk) as Hi.
  destruct (initNative l _) as [r g2] eqn:E. cbn [snd]. destruct Hi as (_ & Hi1 & Hi2 & Hi3 & Hi4).
  split_and!; auto. intros off Hoff. by rewrite Hi4, (Ho off Hoff).
Qed.

(** A clone has the fields of its original.  Where the class of the copy is
    at least as large as that of the original, the copy is an object of that
    class with the same bytes in all fields of the original and zeros behind
    them, and no other object changes; where it is smaller, the copy overruns
    the new object. *)
Theorem clone_to_subclass objectSize heap obj clz copy o
    (Hobj : heap !! obj = Some o) (Hcopy : copy <> 0)
    (Hlen : length (o_fields o) = (objectSize (o_clazz o) - OBJECT_HEADER)%nat) :
  if (objectSize (o_clazz o) <=? Nat.max OBJECT_HEADER (objectSize clz))%nat then
    exists heap' tail, cloneToSubclassNative objectSize heap obj clz copy = Done (copy, heap') /\
      heap' !! copy = Some (mkObject clz (o_fields o ++ tail)) /\ Forall (fun b => b = 0) tail /\
      (forall x, x <> copy -> heap' !! x = heap !! x)
  else cloneToSubclassNative objectSize heap obj clz copy = Fault OutOfBounds.
Proof.
  unfold cloneToSubclassNative. rewrite (proj2 (Z.eqb_neq _ _) Hcopy), Hobj, Hlen, Nat.ltb_irrefl.
  cbn [orb]. set (n := (objectSize (o_clazz o) - OBJECT_HEADER)%nat) in *.
  set (room := (objectSize clz - OBJECT_HEADER)%nat).
  destruct (Nat.leb_spec (objectSize (o_clazz o)) (Nat.max OBJECT_HEADER (objectSize clz))).
  - rewrite (proj2 (Nat.ltb_ge room n)) by lia. do 2 eexists. split; [done|].
    rewrite take_ge by lia. split; [apply lookup_insert_eq|]. split; [by apply Forall_replicate|].
    intros x Hx. by apply lookup_insert_ne.
  - by rewrite (proj2 (Nat.ltb_lt room n)) by lia.
Qed.

(** ** The theorems at work *)

Definition demo_lookups : lookups := mkLookups 0 0 None (Some 200) 11 0 21 22 23 24 0 25 26.
Definition demo_globals : globals := mkGlobals false 0 0 0 0 0 0 0 0 0 false false.

Lemma jni_onload_spec_witness :
  let '(rc, g') := JNI_OnLoad demo_lookups 0x78 0x40 demo_globals in
  rc = JNI_VERSION_1_4 /\ keepLoadingBridge g' = true /\ arrayContentsOffset g' = 200.
Proof.
  destruct (jni_onload_spec demo_lookups 0x78 0x40 demo_globals eq_refl eq_refl) as (H1 & _ & H2 & _ & H3).
  split; [exact H1|]. split; [exact H2|exact (H3 200 eq_refl)].
Defined.

Definition demo_heap : gmap Z object := {[ 1 := mkObject 10 [1; 2; 3; 4] ]}.
Definition demo_sizes (c : Z) : nat := if c =? 10 then 12 else 16.

Lemma clone_to_subclass_witness :
  exists heap' tail, cloneToSubclassNative demo_sizes demo_heap 1 20 2 = Done (2, heap') /\
    heap' !! 2 = Some (mkObject 20 ([1; 2; 3; 4] ++ tail)) /\ Forall (fun b => b = 0) tail /\
    (forall x, x <> 2 -> heap' !! x = demo_heap !! x).
Proof.
  refine (clone_to_subclass demo_sizes demo_heap 1 20 2 (mkObject 10 [1; 2; 3; 4]) _ _ _);
    [reflexivity|discriminate|reflexivity].
Defined.
