(* ===== verification/Startup.v ===== *)
(** * Startup: what app_process does before the VM runs
      (Xposed-master/xposed.cpp, and the start of the services in xposed_service.cpp)

    Command-line options, /system/xposed.prop, the environment variables, the
    detection of the runtime, capabilities, and [initialize], which decides
    whether Xposed is loaded.  Files are read in the chunks [fgets] returns. *)

From stdpp Require Import gmap.
From S2P Require Import Prelude CLib.

(** ** Reading line by line *)

(** What successive calls of [fgets] with an array of [size] bytes return. *)
Fixpoint chunks_fuel (fuel size : nat) (s : list Z) : list (list Z) :=
  match fuel with
  | O => []
  | S f =>
      match fgets size s with
      | None => []
      | Some (l, rest) => l :: chunks_fuel f size rest
      end
  end.
Definition chunks (size : nat) (s : list Z) : list (list Z) := chunks_fuel (length s) size s.

(** ** /system/xposed.prop *)

(** [do { *tmp = 0; tmp--; } while (isspace( *tmp))] from position [n]. *)
Fixpoint rtrim_at (n : nat) (buf : list Z) : cres (list Z) :=
  let buf := <[n := 0]> buf in
  match n with
  | O => Fault OutOfBounds
  | S n' => c ← deref (buf !! n'); if isspace c then rtrim_at n' buf else Done buf
  end.

(** [do { value++; } while (isspace( *value))]. *)
Fixpoint ltrim_from (fuel : nat) (buf : list Z) (i : nat) : cres nat :=
  match fuel with
  | O => Fault OutOfFuel
  | S f => c ← deref (buf !! S i); if isspace c then ltrim_from f buf (S i) else Done (S i)
  end.

(** [while (isspace( *key)) key++]. *)
Fixpoint leading_spaces (s : cstr) : nat :=
  match s with
  | c :: s' => if isspace c then S (leading_spaces s') else 0%nat
  | [] => 0%nat
  end.

(** The value up to the first newline or carriage return. *)
Fixpoint until_newline (s : cstr) : cstr :=
  match s with
  | c :: s' => if (c =? 10) || (c =? 13) then [] else c :: until_newline s'
  | [] => []
  end.

(** One line of the file: its key and value, [None] where it is skipped. *)
Definition parse_line (line : list Z) : cres (option (cstr * cstr)) :=
  let buf := line ++ [0] in
  s ← c_str buf;
  let key := leading_spaces s in
  c ← deref (buf !! key);
  if c =? 35 then Done None
  else
    match strchr s 61 with
    | None => Done None
    | Some v =>
        buf ← rtrim_at v buf;
        i ← ltrim_from (length buf) buf v;
        value ← c_str_at buf i;
        k ← c_str_at buf key;
        Done (Some (k, until_newline value))
    end.

Record version := mkVersion { xposedVersion : cstr; xposedVersionInt : Z }.
Definition XPOSED_PROP_FILE := lit "/system/xposed.prop".
Definition default_version : version := mkVersion (lit "unknown (invalid /system/xposed.prop)") 0.

Fixpoint parse_lines (lines : list (list Z)) (v : version) : cres version :=
  match lines with
  | [] => Done v
  | l :: lines =>
      r ← parse_line l;
      parse_lines lines
        match r with
        | Some (key, value) =>
            if streq (lit "version") key && negb (length value =? 0)%nat
            then mkVersion value (u32 (atoi value)) else v
        | None => v
        end
  end.

(** [file] is the contents of the file, [None] if it cannot be opened. *)
Definition parseXposedProp (file : option (list Z)) : cres version :=
  match file with
  | None => Done default_version
  | Some s => parse_lines (chunks 512 s) default_version
  end.

(** ** Options and the process name *)

Inductive option_result := ShowVersion (v : cstr) | TestSafemode (triggered : bool) | NoOption (argBlockLength : nat).

(** The arguments are contiguous in memory, each with its terminator. *)
Definition argBlock (argv : list cstr) : list Z := concat (map (fun a => a ++ [0]) argv).

Definition handleOptions (argv : list cstr) (file : option (list Z)) (detect : bool -> bool)
    (skip_delay : bool) : cres (version * option_result) :=
  v ← parseXposedProp file;
  match argv with
  | [_; a] =>
      if streq a (lit "--xposedversion") then Done (v, ShowVersion (xposedVersion v))
      else if streq a (lit "--xposedtestsafemode") then Done (v, TestSafemode (detect skip_delay))
      else Done (v, NoOption (length (argBlock argv)))
  | [] => Fault OutOfBounds
  | _ => Done (v, NoOption (length (argBlock argv)))
  end.

(** [strlcpy(dst, src, n)] into a block of [n] zeroed bytes. *)
Definition strlcpy (src : cstr) (n : nat) : list Z :=
  match n with
  | O => []
  | S k => take k src ++ replicate (n - Nat.min k (length src)) 0
  end.

Definition setProcessName (block : list Z) (name : cstr) : list Z :=
  strlcpy name (length block).

(** ** Environment and files *)

Definition XPOSED_DIR := lit "/data/data/de.robv.android.xposed.installer/".
Definition XPOSED_JAR := lit "/system/framework/XposedBridge.jar".
Definition XPOSED_LOAD_BLOCKER := XPOSED_DIR ++ lit "conf/disabled".
Definition XPOSED_SAFEMODE_NODELAY := XPOSED_DIR ++ lit "conf/safemode_nodelay".
Definition XPOSED_SAFEMODE_DISABLE := XPOSED_DIR ++ lit "conf/safemode_disable".
Definition XPOSED_LIB_DALVIK := lit "/system/lib/libxposed_dalvik.so".
Definition XPOSED_LIB_ART := lit "/system/lib/libxposed_art.so".
Definition UB_JAR := lit "/system/framework/ub.jar".

Inductive event := EvLogcat | EvSleep (s : Z) | EvStartAll | EvStartMembased | EvDetect (skip : bool).

Record XposedShared := mkXposed {
  x_zygote : bool; x_startSystemServer : bool; x_startClassName : cstr; x_versionInt : Z;
  x_isSELinuxEnabled : bool; x_isSELinuxEnforcing : bool
}.

(** The shared variables, the files that exist, whether the blocker can be created, the environment
    and what has been done. *)
Record world := mkWorld {
  w_xposed : option XposedShared; w_files : gset cstr; w_can_create : bool; w_env : gmap cstr cstr; w_log : list event
}.
Definition log (e : event) (w : world) : world :=
  mkWorld (w_xposed w) (w_files w) (w_can_create w) (w_env w) (w_log w ++ [e]).
Definition setenv (name value : cstr) (w : world) : world :=
  mkWorld (w_xposed w) (w_files w) (w_can_create w) (<[name := value]> (w_env w)) (w_log w).

(** [access(path, mode) == 0]; [zygote_access] gives the same answer. *)
Definition access_ok (path : cstr) (w : world) : bool := bool_decide (path ∈ w_files w).

Definition isDisabled (w : world) : bool := access_ok XPOSED_LOAD_BLOCKER w.
Definition isSafemodeDisabled (w : world) : bool := access_ok XPOSED_SAFEMODE_DISABLE w.
Definition shouldSkipSafemodeDelay (w : world) : bool := access_ok XPOSED_SAFEMODE_NODELAY w.
Definition disableXposed (w : world) : world :=
  if w_can_create w
  then mkWorld (w_xposed w) ({[ XPOSED_LOAD_BLOCKER ]} ∪ w_files w) (w_can_create w) (w_env w) (w_log w)
  else w.

Definition ENV_MAX : nat := 4096.

Definition prepend (path oldPath : cstr) : cstr := path ++ [58] ++ oldPath.

Definition addPathToEnv (name path : cstr) (w : world) : bool * world :=
  match w_env w !! name with
  | None => (true, setenv name path w)
  | Some oldPath =>
      let newPath := prepend path oldPath in
      if (ENV_MAX <=? length newPath)%nat then (false, w)
      else (true, setenv name newPath w)
  end.

Definition addJarToClasspath (w : world) : bool * world :=
  if access_ok XPOSED_JAR w then addPathToEnv (lit "CLASSPATH") XPOSED_JAR w else (false, w).

Definition htcAdjustSystemServerClassPath (w : world) : world :=
  if access_ok UB_JAR w then snd (addPathToEnv (lit "SYSTEMSERVERCLASSPATH") UB_JAR w) else w.

(** ** Commands of Superuser apps *)

Fixpoint ignore_loop (args : list cstr) (mightBeSuperuser : bool) : bool :=
  match args with
  | [] => false
  | a :: args =>
      if streq a (lit "com.noshufou.android.su.RESULT") || streq a (lit "eu.chainfire.supersu.NativeAccess")
      then true
      else if mightBeSuperuser && streq a (lit "--user") then true
      else
        match strrchr a 46 with
        | None => ignore_loop args mightBeSuperuser
        | Some last =>
            ignore_loop args
              (mightBeSuperuser || streq last (lit ".RequestActivity") ||
               streq last (lit ".NotifyActivity") || streq last (lit ".SuReceiver"))
        end
  end.

Definition shouldIgnoreCommand (startClassName : cstr) (argv : list cstr) : bool :=
  if (length argv <? 4)%nat || negb (streq startClassName (lit "com.android.commands.am.Am")) then false
  else
    let cmd := nth 2 argv [] in
    if negb (streq cmd (lit "broadcast")) && negb (streq cmd (lit "start")) then false
    else ignore_loop (drop 3 argv) false.

(** ** [initialize] *)

(** What the other parts report: the version read, is_selinux_enabled,
    security_getenforce, whether the services could be started, and the
    safemode detector. *)
Record parts := mkParts {
  p_versionInt : Z; p_selinux : bool; p_getenforce : bool; p_startAll : bool; p_startMembased : bool; p_detect : bool -> bool
}.

(** The build without XPOSED_ENABLE_FOR_TOOLS, with XPOSED_WITH_SELINUX and
    PLATFORM_SDK_VERSION >= 21. *)
Definition initialize (p : parts) (zygote startSystemServer : bool) (className : cstr)
    (argv : list cstr) (w : world) : bool * world :=
  if negb zygote then (false, w)
  else
    let w := mkWorld (Some (mkXposed zygote startSystemServer className (p_versionInt p) (p_selinux p)
                              (p_selinux p && p_getenforce p)))
               (w_files w) (w_can_create w) (w_env w) (w_log w) in
    let w := if startSystemServer then log EvLogcat w else log (EvSleep 10) w in
    let '(started, w) :=
      if startSystemServer then
        let w := htcAdjustSystemServerClassPath w in (p_startAll p, log EvStartAll w)
      else if p_selinux p then (p_startMembased p, log EvStartMembased w)
      else (true, w) in
    if negb started then (false, w)
    else
      let w :=
        if zygote && negb (isSafemodeDisabled w) then
          let skip := shouldSkipSafemodeDelay w in
          let w := log (EvDetect skip) w in
          if p_detect p skip then disableXposed w else w
        else w in
      if isDisabled w || (negb zygote && shouldIgnoreCommand className argv) then (false, w)
      else addJarToClasspath w.

(** ** Which runtime *)

(** The loop of [determineRuntime] over the lines of /proc/self/maps. *)
Fixpoint runtime_of (lines : list (list Z)) : cres (option cstr) :=
  match lines with
  | [] => Done None
  | l :: lines =>
      s ← c_str (l ++ [0]);
      match strrchr s 47 with
      | None => runtime_of lines
      | Some p =>
          let libname := drop 1 p in
          if streq libname (lit "libdvm.so" ++ [10]) then Done (Some XPOSED_LIB_DALVIK)
          else if streq libname (lit "libart.so" ++ [10]) then Done (Some XPOSED_LIB_ART)
          else runtime_of lines
      end
  end.

Definition determineRuntime (maps : option (list Z)) : cres (option cstr) :=
  match maps with
  | None => Done None
  | Some s => runtime_of (chunks 256 s)
  end.

(** [onVmCreated]: the library loaded and initialized; [dlopen_ok] and
    [dlsym_ok] say what the linker finds, [init_ok] what xposedInitLib returns. *)
Definition onVmCreated (maps : option (list Z)) (dlopen_ok dlsym_ok init_ok : cstr -> bool)
    : cres (option cstr) :=
  lib ← determineRuntime maps;
  match lib with
  | None => Done None
  | Some path =>
      if dlopen_ok path && dlsym_ok path && init_ok path then Done (Some path) else Done None
  end.

(** ** Capabilities *)

Record cap_data := mkCap { effective : Z; permitted : Z; inheritable : Z }.

(** The loop over [keep], which a negative entry ends. *)
Fixpoint keep_caps (keep : list Z) (lo hi : Z) : cres (Z * Z) :=
  match keep with
  | [] => Fault OutOfBounds
  | k :: keep =>
      if k <? 0 then Done (lo, hi)
      else
        let mask := Z.shiftl 1 (Z.land k 31) in
        let index := Z.shiftr k 5 in
        if index =? 0 then keep_caps keep (Z.lor lo mask) hi
        else if index =? 1 then keep_caps keep lo (Z.lor hi mask)
        else Fault OutOfBounds
  end.

Definition dropCapabilities (keep : option (list Z)) : cres (cap_data * cap_data) :=
  match keep with
  | None => Done (mkCap 0 0 0, mkCap 0 0 0)
  | Some keep => '(lo, hi) ← keep_caps keep 0 0; Done (mkCap lo lo lo, mkCap hi hi hi)
  end.

(** ** Starting the services *)

(** What the calls return: the mapping, the two forks and whether the
    memory-based service came up. *)
Record start_env := mkStartEnv { s_init : bool; s_fork1 : Z; s_fork2 : Z; s_running : bool }.

(** The processes the parent has started. *)
Inductive child := SystemService | AppService (single : bool) | ZygoteService.

Definition checkMembasedRunning (e : start_env) : bool := s_running e.

Definition startAll (selinux : bool) (e : start_env) : bool * list child :=
  let useSingleProcess := negb selinux in
  if selinux && negb (s_init e) then (false, [])
  else
    if negb useSingleProcess && (s_fork1 e <? 0) then (false, [])
    else
      let started := if useSingleProcess then [] else [SystemService] in
      if s_fork2 e <? 0 then (false, started)
      else
        let started := started ++ [AppService useSingleProcess] in
        if selinux && negb (checkMembasedRunning e) then (false, started) else (true, started).

Definition startMembased (selinux : bool) (e : start_env) : bool * list child :=
  if negb selinux then (true, [])
  else if negb (s_init e) then (false, [])
  else if s_fork1 e <? 0 then (false, [])
  else (checkMembasedRunning e, [ZygoteService]).

(** ** The log daemon (Xposed-master/xposed_logcat.cpp) *)

Definition XPOSEDLOG_MAX_SIZE : Z := 5 * 1024 * 1024.
Definition MAX_SIZE_MESSAGE : cstr :=
  [10] ++ lit "Reached maximum log size (5120 kB), further lines won't be logged." ++ [10].

(** The loop of [runDaemon]: what is written to the log file. *)
Fixpoint daemon_loop (lines : list (list Z)) (marker : cstr) (foundMarker : bool) (totalSize : Z)
    : cres (list Z) :=
  match lines with
  | [] => Done []
  | l :: lines =>
      buf ← c_str (l ++ [0]);
      if bool_decide (head (l ++ [0]) = Some 45) then daemon_loop lines marker foundMarker totalSize
      else if negb foundMarker then
        daemon_loop lines marker
          (strstr buf (lit "XposedStartupMarker") && strstr buf marker) totalSize
      else
        let total := totalSize + Z.of_nat (length buf) in
        if XPOSEDLOG_MAX_SIZE <? total then Done (buf ++ MAX_SIZE_MESSAGE)
        else rest ← daemon_loop lines marker true total; Done (buf ++ rest)
  end.

Definition runDaemon (pipe : list Z) (marker : cstr) : cres (list Z) :=
  daemon_loop (chunks 512 pipe) marker false 0.

(** ** Lines and chunks *)

Definition no_nl (l : list Z) : Prop := Forall (fun c => c <> 10) l.
Definition as_lines (ls : list (list Z)) : list Z := concat (map (fun l => l ++ [10]) ls).

Lemma fgets_take_line n l rest : no_nl l -> (length l < n)%nat ->
  fgets_take n (l ++ 10 :: rest) = (l ++ [10], rest).
Proof.
  intros Hl. revert n. induction Hl as [|c l Hc _ IH]; intros n Hn.
  - destruct n; [cbn in Hn; lia|done].
  - destruct n as [|n]; [cbn in Hn; lia|]. cbn [fgets_take app].
    rewrite (proj2 (Z.eqb_neq c 10) Hc). rewrite IH by (cbn in Hn; lia). done.
Qed.

Lemma chunks_lines size ls :
  Forall (fun l => no_nl l /\ (length l + 1 < size)%nat) ls ->
  chunks size (as_lines ls) = map (fun l => l ++ [10]) ls.
Proof.
  intros Hls. unfold chunks.
  assert (length ls <= length (as_lines ls))%nat as Hlen.
  { unfold as_lines. induction ls as [|l ls IH]; [done|]. apply Forall_cons in Hls as [_ Hls].
    cbn. rewrite !length_app. cbn. specialize (IH Hls). lia. }
  revert Hlen. generalize (length (as_lines ls)) as fuel.
  induction Hls as [|l ls [Hl Hn] _ IH]; intros fuel Hf; [by destruct fuel|].
  destruct fuel as [|fuel]; [cbn in Hf; lia|]. cbn [chunks_fuel].
  assert (fgets size (as_lines (l :: ls)) = Some (l ++ [10], as_lines ls)) as ->.
  { unfold as_lines. cbn [map concat]. rewrite <- app_assoc. cbn [app]. unfold fgets.
    destruct (l ++ 10 :: _) eqn:E; [by destruct l|]. rewrite <- E.
    f_equal. apply fgets_take_line; [done|lia]. }
  cbn [map]. f_equal. apply IH. cbn in Hf. lia.
Qed.

(** ** One line of the property file *)

Definition spaces (l : list Z) : Prop := Forall (fun c => isspace c = true) l.

Lemma leading_spaces_app sp c t : spaces sp -> isspace c = false ->
  leading_spaces (sp ++ c :: t) = length sp.
Proof. intros Hs Hc. induction Hs as [|x sp Hx _ IH]; cbn; [by rewrite Hc|]. by rewrite Hx, IH. Qed.

Lemma strchr_app a c t : Forall (fun x => x <> c) a -> strchr (a ++ c :: t) c = Some (length a).
Proof.
  induction 1 as [|x a Hx _ IH]; cbn; [by rewrite Z.eqb_refl|].
  by rewrite (proj2 (Z.eqb_neq x c) Hx), IH.
Qed.

Lemma rtrim_spec p0 c sp x rest : isspace c = false -> spaces sp ->
  rtrim_at (length (p0 ++ [c] ++ sp)) ((p0 ++ [c] ++ sp) ++ x :: rest) =
  Done ((p0 ++ [c]) ++ replicate (S (length sp)) 0 ++ rest).
Proof.
  intros Hc. revert x rest. induction sp as [|y sp IH] using rev_ind; intros x rest Hs.
  - replace (length (p0 ++ [c] ++ [])) with (S (length p0)) by (rewrite length_app; cbn; lia).
    cbn [rtrim_at app length replicate].
    replace (<[S (length p0):=0]> ((p0 ++ [c]) ++ x :: rest)) with ((p0 ++ [c]) ++ 0 :: rest).
    2:{ rewrite insert_app_r_alt by (rewrite length_app; cbn; lia).
        replace (S (length p0) - length (p0 ++ [c]))%nat with 0%nat by (rewrite length_app; cbn; lia). done. }
    rewrite <- app_assoc. cbn [app]. rewrite list_lookup_middle by done. cbn. by rewrite Hc.
  - apply Forall_app in Hs as [Hs Hy]. apply Forall_cons in Hy as [Hy _].
    replace (length (p0 ++ [c] ++ sp ++ [y])) with (S (length (p0 ++ [c] ++ sp)))
      by (rewrite !app_assoc, (length_app _ [y]); cbn; lia).
    cbn [rtrim_at].
    replace (<[S (length (p0 ++ [c] ++ sp)) := 0]> ((p0 ++ [c] ++ sp ++ [y]) ++ x :: rest))
      with ((p0 ++ [c] ++ sp) ++ y :: 0 :: rest).
    2:{ replace ((p0 ++ [c] ++ sp ++ [y]) ++ x :: rest) with ((p0 ++ [c] ++ sp) ++ y :: x :: rest)
          by (by rewrite !app_assoc, <- (app_assoc _ [y])).
        rewrite insert_app_r_alt by lia.
        by replace (S (length (p0 ++ [c] ++ sp)) - length (p0 ++ [c] ++ sp))%nat with 1%nat by lia. }
    rewrite list_lookup_middle by done. cbn [deref mbind cres_bind]. rewrite Hy, IH by done.
    rewrite length_app, Nat.add_comm. cbn [length Nat.add]. do 2 f_equal.
    replace (S (S (length sp))) with (S (length sp) + 1)%nat by lia.
    by rewrite replicate_add, <- app_assoc.
Qed.

Lemma ltrim_spec fuel a x sp d rest : spaces sp -> isspace d = false -> (length sp < fuel)%nat ->
  ltrim_from fuel (a ++ x :: sp ++ d :: rest) (length a) = Done (S (length a + length sp)).
Proof.
  intros Hs Hd. revert fuel a x. induction Hs as [|y sp Hy _ IH]; intros fuel a x Hf;
    (destruct fuel as [|fuel]; [cbn in Hf; lia|]); cbn [ltrim_from app].
  - replace (a ++ x :: d :: rest) with ((a ++ [x]) ++ d :: rest) by (by rewrite <- app_assoc).
    rewrite list_lookup_middle by (rewrite length_app; cbn; lia). cbn. rewrite Hd. do 2 f_equal. lia.
  - replace (a ++ x :: y :: sp ++ d :: rest) with ((a ++ [x]) ++ y :: sp ++ d :: rest)
      by (by rewrite <- app_assoc).
    rewrite list_lookup_middle by (rewrite length_app; cbn; lia). cbn [deref mbind cres_bind]. rewrite Hy.
    replace (S (length a)) with (length (a ++ [x])) by (rewrite length_app; cbn; lia).
    rewrite IH by (cbn in Hf; lia). rewrite length_app. cbn. do 2 f_equal. lia.
Qed.

Lemma until_newline_app l t : Forall (fun c => c <> 10 /\ c <> 13) l -> until_newline (l ++ 10 :: t) = l.
Proof.
  induction 1 as [|c l [H1 H2] _ IH]; [done|]. cbn.
  rewrite (proj2 (Z.eqb_neq c 10) H1), (proj2 (Z.eqb_neq c 13) H2). cbn. by rewrite IH.
Qed.

(** A line of the file: an entry with spaces around its parts, a comment, or a
    line without a separator. *)
Inductive prop_line :=
| Entry (sp1 key sp2 sp3 value : list Z)
| Comment (sp text : list Z)
| NoEntry (text : list Z).

Definition text_of (l : prop_line) : list Z :=
  match l with
  | Entry sp1 key sp2 sp3 value => sp1 ++ key ++ sp2 ++ [61] ++ sp3 ++ value
  | Comment sp text => sp ++ 35 :: text
  | NoEntry text => text
  end.

Definition starts_plain (l : list Z) : Prop := forall c t, l = c :: t -> isspace c = false.

Definition line_wf (l : prop_line) : Prop :=
  Forall (fun c => c <> 0 /\ c <> 10) (text_of l) /\
  match l with
  | Entry sp1 key sp2 sp3 value =>
      spaces sp1 /\ spaces sp2 /\ spaces sp3 /\
      (exists k t, key = k :: t /\ isspace k = false /\ k <> 35) /\
      (exists p c, key = p ++ [c] /\ isspace c = false) /\
      Forall (fun c => c <> 61) key /\ starts_plain value /\ Forall (fun c => c <> 13) value
  | Comment sp text => spaces sp
  | NoEntry text => Forall (fun c => c <> 61) text
  end.

Definition entry_of (l : prop_line) : option (cstr * cstr) :=
  match l with Entry _ key _ _ value => Some (key, value) | _ => None end.

Lemma space_not_eq c : isspace c = true -> c <> 0 /\ c <> 61.
Proof. unfold isspace. bool_lia. Qed.

(** The value found behind the separator. *)
Lemma value_spec a sp value :
  spaces sp -> starts_plain value -> Forall (fun c => c <> 0 /\ c <> 10) value ->
  Forall (fun c => c <> 13) value ->
  let buf := a ++ 0 :: sp ++ value ++ [10; 0] in
  exists i s, ltrim_from (length buf) buf (length a) = Done i /\
    c_str_at buf i = Done s /\ until_newline s = value.
Proof.
  intros Hs Hp Hch Hcr buf. destruct value as [|d t].
  - exists (S (length a + length (sp ++ [10%Z]))), []. subst buf.
    replace (a ++ 0 :: sp ++ [] ++ [10; 0]) with (a ++ 0 :: (sp ++ [10]) ++ 0 :: []) by (by rewrite <- app_assoc).
    split; [|split; [|done]].
    + apply ltrim_spec; [|done|rewrite !length_app; cbn; rewrite !length_app; cbn; lia].
      apply Forall_app. split; [done|]. by repeat constructor.
    + unfold c_str_at. rewrite drop_app_ge by lia.
      replace (S (length a + length (sp ++ [10%Z])) - length a)%nat with (S (length (sp ++ [10%Z]))) by lia.
      cbn [drop]. by rewrite drop_app_length.
  - exists (S (length a + length sp)), ((d :: t) ++ [10]). split; [|split].
    + apply (ltrim_spec _ a 0 sp d (t ++ [10; 0])); [done|by eapply Hp|].
      subst buf. rewrite !length_app. cbn. rewrite !length_app. cbn. lia.
    + unfold c_str_at. subst buf. rewrite drop_app_ge by lia.
      replace (S (length a + length sp) - length a)%nat with (S (length sp)) by lia.
      cbn [drop]. rewrite drop_app_length.
      replace ((d :: t) ++ [10; 0]) with (((d :: t) ++ [10]) ++ [0]) by (by rewrite <- app_assoc).
      apply c_str_app. apply Forall_app. split; [|by repeat constructor].
      eapply Forall_impl; [exact Hch|]. by intros ? [].
    + apply until_newline_app. apply Forall_and. split; [|done].
      eapply Forall_impl; [exact Hch|]. by intros ? [].
Qed.

Lemma parse_entry sp1 key sp2 sp3 value :
  line_wf (Entry sp1 key sp2 sp3 value) ->
  parse_line (text_of (Entry sp1 key sp2 sp3 value) ++ [10]) = Done (Some (key, value)).
Proof.
  cbn [text_of]. intros (Hch & H1 & H2 & H3 & (k & t & Hkey & Hk1 & Hk2) & (p & c & Hlast & Hc) & Heq & Hv & Hcr).
  unfold parse_line. set (line := sp1 ++ key ++ sp2 ++ [61] ++ sp3 ++ value) in *.
  rewrite (c_str_app (line ++ [10]) []).
  2:{ apply Forall_app. split; [|by repeat constructor]. eapply Forall_impl; [exact Hch|]. by intros ? []. }
  cbn [mbind cres_bind].
  assert (leading_spaces (line ++ [10]) = length sp1) as ->.
  { subst line. rewrite Hkey. rewrite <- !app_assoc. cbn [app]. by apply leading_spaces_app. }
  assert (((line ++ [10]) ++ [0]) !! length sp1 = Some k) as ->.
  { subst line. rewrite Hkey. rewrite <- !app_assoc. cbn [app]. by rewrite list_lookup_middle. }
  cbn [deref mbind cres_bind]. rewrite (proj2 (Z.eqb_neq k 35) Hk2).
  set (pre := sp1 ++ key ++ sp2).
  assert (strchr (line ++ [10]) 61 = Some (length pre)) as ->.
  { subst line pre. replace ((sp1 ++ key ++ sp2 ++ [61] ++ sp3 ++ value) ++ [10])
      with ((sp1 ++ key ++ sp2) ++ 61 :: (sp3 ++ value ++ [10])) by (by rewrite <- !app_assoc).
    apply strchr_app. repeat (apply Forall_app; split); try done;
      (eapply Forall_impl; [eassumption|]); intros ? Hx; by apply space_not_eq in Hx as []. }
  replace ((line ++ [10]) ++ [0]) with (((sp1 ++ p) ++ [c] ++ sp2) ++ 61 :: (sp3 ++ value ++ [10; 0]))
    by (subst line; rewrite Hlast, <- !app_assoc; done).
  replace (length pre) with (length ((sp1 ++ p) ++ [c] ++ sp2))
    by (subst pre; by rewrite Hlast, <- !app_assoc).
  rewrite rtrim_spec by done. cbn [mbind cres_bind].
  assert (Forall (fun c => c <> 0 /\ c <> 10) value) as Hvch.
  { subst line. apply Forall_app in Hch as [_ Hch]. apply Forall_app in Hch as [_ Hch].
    apply Forall_app in Hch as [_ Hch]. apply Forall_app in Hch as [_ Hch].
    by apply Forall_app in Hch as [_ Hch]. }
  set (a := ((sp1 ++ p) ++ [c]) ++ replicate (length sp2) 0).
  destruct (value_spec a sp3 value H3 Hv Hvch Hcr) as (i & s & E1 & E2 & E3).
  assert (((sp1 ++ p) ++ [c]) ++ replicate (S (length sp2)) 0 ++ sp3 ++ value ++ [10; 0] =
          a ++ 0 :: sp3 ++ value ++ [10; 0]) as Hbuf.
  { subst a. rewrite replicate_S_end, <- !app_assoc. done. }
  rewrite Hbuf. replace (length ((sp1 ++ p) ++ [c] ++ sp2)) with (length a)
    by (subst a; rewrite !length_app, length_replicate; cbn; lia).
  rewrite E1. cbn [mbind cres_bind]. rewrite E2. cbn [mbind cres_bind].
  assert (c_str_at (a ++ 0 :: sp3 ++ value ++ [10; 0]) (length sp1) = Done key) as ->.
  { rewrite <- Hbuf. unfold c_str_at. rewrite <- !app_assoc. rewrite drop_app_length, app_assoc, <- Hlast.
    cbn [replicate app]. apply c_str_app. subst line. apply Forall_app in Hch as [_ Hch].
    apply Forall_app in Hch as [Hch _]. eapply Forall_impl; [exact Hch|]. by intros ? []. }
  cbn [mbind cres_bind]. by rewrite E3.
Qed.

Lemma strchr_none s c : Forall (fun x => x <> c) s -> strchr s c = None.
Proof. induction 1 as [|x s Hx _ IH]; [done|]. cbn. by rewrite (proj2 (Z.eqb_neq x c) Hx), IH. Qed.

Lemma parse_line_spec l : line_wf l -> parse_line (text_of l ++ [10]) = Done (entry_of l).
Proof.
  destruct l as [sp1 key sp2 sp3 value|sp text|text]; intros Hwf; [by apply parse_entry|..];
    destruct Hwf as [Hch Hl]; cbn [text_of entry_of] in *; unfold parse_line.
  all: rewrite c_str_app by (apply Forall_app; split; [|by repeat constructor];
    eapply Forall_impl; [exact Hch|]; by intros ? []); cbn [mbind cres_bind].
  - rewrite <- app_assoc. cbn [app]. rewrite leading_spaces_app by done.
    rewrite <- app_assoc. cbn [app]. by rewrite list_lookup_middle.
  - rewrite strchr_none by (apply Forall_app; split; [done|by repeat constructor]).
    assert (exists c, ((text ++ [10]) ++ [0]) !! leading_spaces (text ++ [10]) = Some c) as [c ->].
    { apply lookup_lt_is_Some. rewrite length_app. cbn.
      assert (forall s, (leading_spaces s <= length s)%nat) as Hle; [|specialize (Hle (text ++ [10])); lia].
      induction s as [|x s IH]; cbn; [lia|]. destruct (isspace x); cbn; lia. }
    cbn. by destruct (c =? 35).
Qed.

(** The version of the last entry that names one. *)
Fixpoint version_of (ls : list prop_line) (v : version) : version :=
  match ls with
  | [] => v
  | l :: ls =>
      version_of ls
        match entry_of l with
        | Some (key, value) =>
            if streq (lit "version") key && negb (length value =? 0)%nat
            then mkVersion value (u32 (atoi value)) else v
        | None => v
        end
  end.

(** The property file is read as it is meant.  For any file of well-formed
    lines shorter than the buffer (entries with spaces around key and value,
    comments, other lines), the version is the value of the last non-empty
    [version] entry, without the spaces around it. *)
Theorem xposed_prop_version ls
    (Hls : Forall (fun l => line_wf l /\ (length (text_of l) + 1 < 512)%nat) ls) :
  parseXposedProp (Some (as_lines (map text_of ls))) = Done (version_of ls default_version).
Proof.
  unfold parseXposedProp. rewrite chunks_lines.
  2:{ apply Forall_map. eapply Forall_impl; [exact Hls|]. intros l [[Hch _] Hlen]. split; [|done].
      eapply Forall_impl; [exact Hch|]. by intros ? []. }
  generalize default_version. induction Hls as [|l ls [Hl _] _ IH]; intros v; [done|].
  cbn [map parse_lines version_of]. rewrite parse_line_spec by done. cbn [mbind cres_bind]. apply IH.
Qed.

(** A line without a key is read outside of the buffer.  Trimming the key
    from the right does not stop at the start of the line: if there is nothing
    but spaces before the separator, the byte in front of the buffer is read. *)
Theorem xposed_prop_no_key sp rest
    (Hsp : spaces sp) (Hrest : Forall (fun c => c <> 0) rest) :
  parse_line (sp ++ 61 :: rest) = Fault OutOfBounds.
Proof.
  unfold parse_line. rewrite c_str_app.
  2:{ apply Forall_app. split; [|constructor; [done|done]].
      eapply Forall_impl; [exact Hsp|]. intros c Hc. by apply space_not_eq in Hc as []. }
  cbn [mbind cres_bind]. rewrite leading_spaces_app by done.
  rewrite <- app_assoc. cbn [app]. rewrite list_lookup_middle by done. cbn [deref mbind cres_bind Z.eqb Pos.eqb].
  rewrite strchr_app.
  2:{ eapply Forall_impl; [exact Hsp|]. intros c Hc. by apply space_not_eq in Hc as []. }
  assert (forall t x, rtrim_at (length sp) (sp ++ x :: t) = Fault OutOfBounds) as ->; [|done].
  clear Hrest. induction sp as [|y sp IH] using rev_ind; intros t x; [done|].
  apply Forall_app in Hsp as [Hsp Hy]. apply Forall_cons in Hy as [Hy _].
  rewrite length_app, Nat.add_comm. cbn [length Nat.add rtrim_at].
  rewrite <- app_assoc. cbn [app]. rewrite insert_app_r_alt by lia.
  replace (S (length sp) - length sp)%nat with 1%nat by lia. cbn [insert list_insert].
  rewrite list_lookup_middle by done. cbn [deref mbind cres_bind]. rewrite Hy. by apply IH.
Qed.

(** ** Whether Xposed is loaded *)

Lemma addPathToEnv_spec name path w :
  let '(ok, w') := addPathToEnv name path w in
  w_files w' = w_files w /\
  (ok = true -> w_env w' !! name = Some match w_env w !! name with Some o => prepend path o | None => path end) /\
  (ok = false -> w' = w /\ exists o, w_env w !! name = Some o /\ (ENV_MAX <= length (prepend path o))%nat) /\
  (forall x, x <> name -> w_env w' !! x = w_env w !! x).
Proof.
  unfold addPathToEnv. destruct (w_env w !! name) as [o|] eqn:E.
  - destruct (Nat.leb_spec ENV_MAX (length (prepend path o))).
    + split_and!; try done. intros _. split; [done|]. by exists o.
    + split_and!; try done; cbn; intros; [apply lookup_insert_eq|by apply lookup_insert_ne].
  - split_and!; try done; cbn; intros; [apply lookup_insert_eq|by apply lookup_insert_ne].
Qed.

Lemma addPathToEnv_create name path w : w_can_create (snd (addPathToEnv name path w)) = w_can_create w.
Proof. unfold addPathToEnv. destruct (w_env w !! name); [|done]. by destruct (_ <=? _)%nat. Qed.

(** The same files and the same class path. *)
Definition same_view (w w1 : world) : Prop :=
  w_files w1 = w_files w /\ w_can_create w1 = w_can_create w /\
  w_env w1 !! lit "CLASSPATH" = w_env w !! lit "CLASSPATH".

(** Whether the safemode detector is asked and reports the key sequence. *)
Definition safemode_hit (p : parts) (w : world) : bool :=
  negb (isSafemodeDisabled w) && p_detect p (shouldSkipSafemodeDelay w).

Definition after_safemode (p : parts) (w : world) : world :=
  if negb (isSafemodeDisabled w) then
    if p_detect p (shouldSkipSafemodeDelay w)
    then disableXposed (log (EvDetect (shouldSkipSafemodeDelay w)) w)
    else log (EvDetect (shouldSkipSafemodeDelay w)) w
  else w.

Lemma after_safemode_spec p w :
  let w2 := after_safemode p w in
  isDisabled w2 = isDisabled w || (safemode_hit p w && w_can_create w) /\
  w_env w2 = w_env w /\ access_ok XPOSED_JAR w2 = access_ok XPOSED_JAR w /\
  (safemode_hit p w = true -> w_can_create w = true -> XPOSED_LOAD_BLOCKER ∈ w_files w2).
Proof.
  unfold after_safemode, safemode_hit. destruct (isSafemodeDisabled w); cbn [negb andb].
  { rewrite orb_false_r. done. }
  destruct (p_detect p _); cbn [andb]; [|rewrite orb_false_r; done].
  unfold disableXposed. cbn. destruct (w_can_create w); [|rewrite orb_false_r; done].
  rewrite orb_true_r. unfold isDisabled, access_ok. cbn. split_and!.
  - apply bool_decide_eq_true. set_solver.
  - done.
  - apply bool_decide_ext. rewrite elem_of_union, elem_of_singleton. split; [|by right].
    by intros [?|?].
  - set_solver.
Qed.

(** When Xposed is loaded.  [initialize] returns true only in Zygote, when
    the services it needs came up, the blocker file does not exist and the key
    sequence has not just created it; and then the jar is the first entry of
    CLASSPATH, in front of what was there before.  When it returns false,
    CLASSPATH is untouched. *)
Theorem initialize_spec p zygote sss cls argv w :
  let '(ok, w') := initialize p zygote sss cls argv w in
  let started := if sss then p_startAll p else negb (p_selinux p) || p_startMembased p in
  let old := w_env w !! lit "CLASSPATH" in
  let fits := match old with
              | Some o => (length (prepend XPOSED_JAR o) <? ENV_MAX)%nat
              | None => true
              end in
  ok = zygote && started && negb (isDisabled w) &&
       negb (safemode_hit p w && w_can_create w) && access_ok XPOSED_JAR w && fits /\
  w_env w' !! lit "CLASSPATH" =
    (if ok then Some match old with Some o => prepend XPOSED_JAR o | None => XPOSED_JAR end else old) /\
  (safemode_hit p w = true -> w_can_create w = true -> zygote = true -> started = true ->
   XPOSED_LOAD_BLOCKER ∈ w_files w').
Proof.
  unfold initialize. destruct zygote; cbn [negb andb].
  2:{ split; [done|]. split; [done|]. by intros _ _ ?. }
  set (w0 := mkWorld _ _ _ _ _).
  set (pre := if sss then _ else _). assert (exists w1, pre = (if sss then p_startAll p else negb (p_selinux p) || p_startMembased p, w1) /\
    same_view w w1) as (w1 & -> & Hv).
  { subst pre. destruct sss; [eexists; split; [done|]|destruct (p_selinux p); eexists; (split; [done|])];
      [|by split_and!..]. unfold htcAdjustSystemServerClassPath. cbn [access_ok].
    destruct (access_ok UB_JAR _); [|by split_and!].
    pose proof (addPathToEnv_spec (lit "SYSTEMSERVERCLASSPATH") UB_JAR (log EvLogcat w0)) as Ha.
    pose proof (addPathToEnv_create (lit "SYSTEMSERVERCLASSPATH") UB_JAR (log EvLogcat w0)) as Hc.
    destruct (addPathToEnv _ _ _) as [ok w2]. destruct Ha as (Hf & _ & _ & He). cbn in *.
    split_and!; [done|done|]. rewrite He by done. done. }
  destruct (if sss then _ else _); cbn [negb andb].
  2:{ split; [done|]. split; [apply Hv|]. by intros _ _ _ ?. }
  destruct Hv as (Hf & Hc & He). change (if negb (isSafemodeDisabled w1) then _ else w1) with (after_safemode p w1).
  destruct (after_safemode_spec p w1) as (H1 & H2 & H3 & H4). rewrite orb_false_r.
  assert (safemode_hit p w1 = safemode_hit p w) as Eh
    by (unfold safemode_hit, isSafemodeDisabled, shouldSkipSafemodeDelay, access_ok; by rewrite Hf).
  assert (isDisabled w1 = isDisabled w) as Ed by (unfold isDisabled, access_ok; by rewrite Hf).
  assert (access_ok XPOSED_JAR w1 = access_ok XPOSED_JAR w) as Ej by (unfold access_ok; by rewrite Hf).
  rewrite Eh, Hc, Ed in H1. rewrite H1. rewrite Eh, Hc in H4. clear H1 Eh Ed.
  destruct (isDisabled w); cbn [negb andb orb]; [rewrite H2, He; split_and!; auto|].
  destruct (safemode_hit p w && w_can_create w) eqn:Eb; cbn [negb andb]; [rewrite H2, He; split_and!; auto|].
  unfold addJarToClasspath. rewrite H3, Ej. destruct (access_ok XPOSED_JAR w); cbn [andb]; [|rewrite H2, He; split_and!; auto].
  pose proof (addPathToEnv_spec (lit "CLASSPATH") XPOSED_JAR (after_safemode p w1)) as Ha.
  destruct (addPathToEnv _ _ _) as [ok w'] eqn:Ea. destruct Ha as (Hf' & Hok & Hno & _).
  unfold addPathToEnv in Ea. rewrite H2, He in *. rewrite Hf'.
  destruct (w_env w !! lit "CLASSPATH") as [o|] eqn:Eo.
  - rewrite Nat.ltb_antisym. destruct (ENV_MAX <=? _)%nat; injection Ea as <- <-; cbn [negb].
    + rewrite H2, He. split_and!; auto.
    + rewrite Hok by done. split_and!; auto.
  - injection Ea as <- <-. rewrite Hok by done. split_and!; auto.
Qed.

(** ** The runtime *)

(** A line of the maps file: anything, and the name of the mapped file behind
    the last slash, if it has one. *)
Inductive maps_line := Anonymous (text : list Z) | Mapped (dir name : list Z).
Definition maps_text (l : maps_line) : list Z :=
  match l with Anonymous t => t | Mapped d n => d ++ [47] ++ n end.
Definition maps_wf (l : maps_line) : Prop :=
  Forall (fun c => c <> 0 /\ c <> 10) (maps_text l) /\ (length (maps_text l) + 1 < 256)%nat /\
  match l with
  | Anonymous t => Forall (fun c => c <> 47) t
  | Mapped _ n => Forall (fun c => c <> 47) n
  end.

(** The library for a mapped file. *)
Definition lib_for (l : maps_line) : option cstr :=
  match l with
  | Anonymous _ => None
  | Mapped _ n =>
      if streq n (lit "libdvm.so") then Some XPOSED_LIB_DALVIK
      else if streq n (lit "libart.so") then Some XPOSED_LIB_ART
      else None
  end.

Lemma strrchr_none s c : Forall (fun x => x <> c) s -> strrchr s c = None.
Proof. induction 1 as [|x s Hx _ IH]; [done|]. cbn. by rewrite IH, (proj2 (Z.eqb_neq x c) Hx). Qed.

Lemma strrchr_app a c s : Forall (fun x => x <> c) s -> strrchr (a ++ c :: s) c = Some (c :: s).
Proof.
  intros Hs. induction a as [|x a IH]; cbn; [by rewrite strrchr_none, Z.eqb_refl|]. by rewrite IH.
Qed.

Lemma streq_snoc a b c : streq (a ++ [c]) (b ++ [c]) = streq a b.
Proof. apply bool_decide_ext. split; [|by intros ->]. by intros [? _]%app_inj_tail. Qed.

(** The runtime that is detected is the one that is mapped.  On any maps
    file with lines that fit the buffer, the library chosen is that of the
    first line whose mapped file is libdvm.so or libart.so, and none is chosen
    if there is no such line. *)
Theorem determineRuntime_first ls (Hls : Forall maps_wf ls) :
  determineRuntime (Some (as_lines (map maps_text ls))) = Done (head (omap lib_for ls)).
Proof.
  unfold determineRuntime. rewrite chunks_lines.
  2:{ apply Forall_map. eapply Forall_impl; [exact Hls|]. intros l (Hch & Hlen & _). split; [|done].
      eapply Forall_impl; [exact Hch|]. by intros ? []. }
  induction Hls as [|l ls (Hch & _ & Hl) _ IH]; [done|]. cbn [map runtime_of].
  rewrite c_str_app.
  2:{ apply Forall_app. split; [|by repeat constructor]. eapply Forall_impl; [exact Hch|]. by intros ? []. }
  cbn [mbind cres_bind]. destruct l as [t|d n]; cbn [maps_text] in *.
  - rewrite strrchr_none by (apply Forall_app; split; [done|by repeat constructor]). apply IH.
  - rewrite <- app_assoc. cbn [app].
    rewrite strrchr_app by (apply Forall_app; split; [done|by repeat constructor]).
    change (drop 1 (47 :: n ++ [10])) with (n ++ [10]). cbn [omap list_omap lib_for]. rewrite !streq_snoc.
    destruct (streq n (lit "libdvm.so")); [done|]. destruct (streq n (lit "libart.so")); [done|]. apply IH.
Qed.

(** ** Capabilities *)

Lemma keep_caps_spec keep rest lo hi :
  Forall (fun k => 0 <= k < 64) keep ->
  exists lo' hi', keep_caps (keep ++ -1 :: rest) lo hi = Done (lo', hi') /\
    forall b, 0 <= b < 32 ->
      (Z.testbit lo' b = true <-> Z.testbit lo b = true \/ b ∈ keep) /\
      (Z.testbit hi' b = true <-> Z.testbit hi b = true \/ b + 32 ∈ keep).
Proof.
  intros Hk. revert lo hi. induction Hk as [|k keep Hk _ IH]; intros lo hi.
  { exists lo, hi. split; [done|]. intros b _. rewrite !elem_of_nil. tauto. }
  cbn [app keep_caps]. rewrite (proj2 (Z.ltb_ge k 0)) by lia.
  assert (Z.shiftr k 5 = k / 32) as -> by (by rewrite Z.shiftr_div_pow2).
  assert (Z.land k 31 = k mod 32) as -> by (apply (Z.land_ones k 5); lia).
  assert (forall b m, Z.testbit (Z.lor m (Z.shiftl 1 (k mod 32))) b = true <->
            Z.testbit m b = true \/ b = k mod 32) as Hbit.
  { intros b m. rewrite Z.lor_spec, Z.shiftl_1_l, Z.pow2_bits_eqb by (apply Z.mod_pos_bound; lia).
    rewrite orb_true_iff, Z.eqb_eq. intuition. }
  pose proof (Z.div_mod k 32 ltac:(lia)) as Hdm. pose proof (Z.mod_pos_bound k 32 ltac:(lia)) as Hm.
  destruct (Z.eqb_spec (k / 32) 0) as [H0|H0]; [|destruct (Z.eqb_spec (k / 32) 1) as [H1|H1]].
  - destruct (IH (Z.lor lo (Z.shiftl 1 (k mod 32))) hi) as (lo' & hi' & E & Hs). exists lo', hi'.
    split; [done|]. intros b Hb. destruct (Hs b Hb) as [-> ->]. rewrite Hbit, !elem_of_cons.
    assert (b = k mod 32 <-> b = k) by lia. assert (b + 32 <> k) by lia. tauto.
  - destruct (IH lo (Z.lor hi (Z.shiftl 1 (k mod 32)))) as (lo' & hi' & E & Hs). exists lo', hi'.
    split; [done|]. intros b Hb. destruct (Hs b Hb) as [-> ->]. rewrite Hbit, !elem_of_cons.
    assert (b = k mod 32 <-> b + 32 = k) by lia. assert (b <> k) by lia. tauto.
  - assert (0 <= k / 32 < 2) by (split; [by apply Z.div_pos; lia|apply Z.div_lt_upper_bound; lia]). lia.
Qed.

(** Exactly the capabilities in the list are kept.  For a list of valid
    capabilities with its terminator, bit [b] of word [i] is set in the
    permitted, effective and inheritable sets if and only if capability
    [32 * i + b] is in the list; without a list all sets are empty. *)
Theorem dropCapabilities_exact keep rest (Hkeep : Forall (fun k => 0 <= k < 64) keep) :
  dropCapabilities None = Done (mkCap 0 0 0, mkCap 0 0 0) /\
  exists c0 c1, dropCapabilities (Some (keep ++ -1 :: rest)) = Done (c0, c1) /\
    effective c0 = permitted c0 /\ inheritable c0 = permitted c0 /\
    effective c1 = permitted c1 /\ inheritable c1 = permitted c1 /\
    forall b, 0 <= b < 32 ->
      (Z.testbit (permitted c0) b = true <-> b ∈ keep) /\
      (Z.testbit (permitted c1) b = true <-> b + 32 ∈ keep).
Proof.
  split; [done|]. destruct (keep_caps_spec keep rest 0 0 Hkeep) as (lo & hi & E & Hs).
  unfold dropCapabilities. rewrite E. cbn. do 2 eexists. split; [done|]. split_and!; try done.
  cbn. intros b Hb. destruct (Hs b Hb) as [-> ->]. rewrite Z.bits_0. intuition congruence.
Qed.

(** ** The log file *)

Lemma fgets_take_length n s : (length (fst (fgets_take n s)) <= n)%nat.
Proof.
  revert s. induction n as [|n IH]; intros [|c s]; cbn; try lia. destruct (c =? 10); cbn; [lia|].
  specialize (IH s). destruct (fgets_take n s). cbn in *. lia.
Qed.

Lemma chunks_length size s : Forall (fun l => (length l <= size - 1)%nat) (chunks size s).
Proof.
  unfold chunks. generalize (length s) as fuel. intros fuel. revert s.
  induction fuel as [|fuel IH]; intros s; cbn; [constructor|]. unfold fgets. destruct s as [|c s]; [constructor|].
  pose proof (fgets_take_length (size - 1) (c :: s)) as Hl.
  destruct (fgets_take (size - 1) (c :: s)) as [l r]. constructor; [exact Hl|apply IH].
Qed.

Lemma c_str_length l s : c_str (l ++ [0]) = Done s -> (length s <= length l)%nat.
Proof.
  intros E. apply c_str_spec in E as (rest & E & _). apply (f_equal length) in E.
  rewrite !length_app in E. cbn in E. lia.
Qed.

(** The log stays small and starts at the marker.  Whatever comes through
    the pipe, [runDaemon] writes at most the maximum size, the line that goes
    over it and the final message; and lines before the one with the marker of
    this start leave no trace. *)
Theorem runDaemon_bounded pipe marker out (Hrun : runDaemon pipe marker = Done out) :
  Z.of_nat (length out) <= XPOSEDLOG_MAX_SIZE + 511 + Z.of_nat (length MAX_SIZE_MESSAGE) /\
  ((forall l s, l ∈ chunks 512 pipe -> c_str (l ++ [0]) = Done s ->
      strstr s (lit "XposedStartupMarker") && strstr s marker = false) -> out = []).
Proof.
  unfold runDaemon in Hrun. pose proof (chunks_length 512 pipe) as Hlen.
  assert (forall ls found total out, Forall (fun l => (length l <= 512 - 1)%nat) ls ->
    0 <= total <= XPOSEDLOG_MAX_SIZE -> daemon_loop ls marker found total = Done out ->
    total + Z.of_nat (length out) <= XPOSEDLOG_MAX_SIZE + 511 + Z.of_nat (length MAX_SIZE_MESSAGE)) as Hb.
  { clear. induction ls as [|l ls IH]; intros found total out Hl Ht Hr; cbn [daemon_loop] in Hr.
    { injection Hr as <-. cbn [length]. lia. }
    apply Forall_cons in Hl as [Hl Hls]. apply bind_Done in Hr as (s & Es & Hr).
    pose proof (c_str_length _ _ Es).
    destruct (bool_decide _); [by eapply IH|]. destruct (negb found); [by eapply IH|].
    destruct (Z.ltb_spec XPOSEDLOG_MAX_SIZE (total + Z.of_nat (length s))).
    - injection Hr as <-. rewrite length_app. lia.
    - apply bind_Done in Hr as (r & Er & Hr). injection Hr as <-. rewrite length_app.
      apply IH in Er; [lia|done|lia]. }
  split; [apply Hb in Hrun; [lia|done|unfold XPOSEDLOG_MAX_SIZE; lia]|].
  clear Hb Hlen. intros Hno. revert Hrun Hno. generalize (chunks 512 pipe) as ls.
  induction ls as [|l ls IH]; intros Hr Hno; cbn [daemon_loop negb] in Hr; [by injection Hr as <-|].
  apply bind_Done in Hr as (s & Es & Hr). destruct (bool_decide _); [apply IH; set_solver|].
  rewrite (Hno l s) in Hr by (set_solver || done). apply IH; set_solver.
Qed.

(** ** The theorems at work *)

Definition demo_prop : list prop_line :=
  [Comment (lit " ") (lit " properties"); Entry (lit " ") (lit "version") (lit " ") (lit " ") (lit "87.1");
   NoEntry (lit "other")].

Lemma demo_prop_wf :
  Forall (fun l => line_wf l /\ (length (text_of l) + 1 < 512)%nat) demo_prop.
Proof.
  repeat constructor; try (apply Nat.ltb_lt; reflexivity); try discriminate.
  - exists 118, (lit "ersion"). by split_and!.
  - exists (lit "versio"), 110. by split.
  - by intros c t [= <- <-].
Qed.

Lemma xposed_prop_version_witness :
  parseXposedProp (Some (as_lines (map text_of demo_prop))) = Done (mkVersion (lit "87.1") 87).
Proof. exact (xposed_prop_version demo_prop demo_prop_wf). Defined.

Lemma xposed_prop_no_key_witness : parse_line (lit " =1") = Fault OutOfBounds.
Proof. refine (xposed_prop_no_key (lit " ") (lit "1") _ _); repeat constructor; discriminate. Defined.

Definition demo_maps : list maps_line :=
  [Anonymous (lit "00400000-00410000 rw-p"); Mapped (lit "b6e00000-b6f00000 r-xp /system/lib") (lit "libc.so");
   Mapped (lit "b5000000-b5400000 r-xp /system/lib") (lit "libart.so")].

Lemma determineRuntime_first_witness :
  determineRuntime (Some (as_lines (map maps_text demo_maps))) = Done (Some XPOSED_LIB_ART).
Proof.
  refine (determineRuntime_first demo_maps _).
  repeat constructor; try discriminate; apply Nat.ltb_lt; reflexivity.
Defined.

Lemma dropCapabilities_exact_witness :
  exists c0 c1, dropCapabilities (Some [34; -1]) = Done (c0, c1) /\
    Z.testbit (permitted c1) 2 = true /\ Z.testbit (permitted c0) 2 = false.
Proof.
  destruct (dropCapabilities_exact [34] []) as (_ & c0 & c1 & E & _ & _ & _ & _ & Hb);
    [repeat constructor; lia|].
  exists c0, c1. split; [exact E|]. destruct (Hb 2 ltac:(lia)) as [H0 H1]. split.
  - apply H1. cbn. left.
  - apply not_true_is_false. rewrite H0. intros Hx. apply list_elem_of_singleton in Hx. discriminate.
Defined.

Definition demo_pipe : list Z :=
  as_lines [lit "old"; lit "D/XposedStartupMarker: T1"; lit "I/Xposed: hi"].

Lemma runDaemon_bounded_witness :
  runDaemon demo_pipe (lit "T1") = Done (lit "I/Xposed: hi" ++ [10]) /\
  Z.of_nat (length (lit "I/Xposed: hi" ++ [10])) <=
    XPOSEDLOG_MAX_SIZE + 511 + Z.of_nat (length MAX_SIZE_MESSAGE).
Proof.
  split; [vm_compute; reflexivity|].
  refine (proj1 (runDaemon_bounded demo_pipe (lit "T1") _ _)). vm_compute; reflexivity.
Defined.
