(* ===== verification/Leb128.v ===== *)
(** * Leb128: variable-length integers of dex and oat files
      (android_art-xposed-lollipop-mr1/runtime/leb128.h)

    Decoders work on the bytes ahead of the pointer they advance; a read past
    the last byte faults.  [int] and [uint32_t] operations wrap at 32 bits. *)

From S2P Require Import Prelude.

(** ** Decoding *)

Definition DecodeUnsignedLeb128 (data : list Z) : cres (Z * list Z) :=
  '(result, ptr) ← next_byte data;
  if result <=? 0x7f then Done (u32 result, ptr) else
  '(cur, ptr) ← next_byte ptr;
  let result := Z.lor (Z.land result 0x7f) (Z.shiftl (Z.land cur 0x7f) 7) in
  if cur <=? 0x7f then Done (u32 result, ptr) else
  '(cur, ptr) ← next_byte ptr;
  let result := Z.lor result (Z.shiftl (Z.land cur 0x7f) 14) in
  if cur <=? 0x7f then Done (u32 result, ptr) else
  '(cur, ptr) ← next_byte ptr;
  let result := Z.lor result (Z.shiftl (Z.land cur 0x7f) 21) in
  if cur <=? 0x7f then Done (u32 result, ptr) else
  '(cur, ptr) ← next_byte ptr;
  Done (u32 (Z.lor result (Z.shiftl cur 28)), ptr).

Definition DecodeUnsignedLeb128P1 (data : list Z) : cres (Z * list Z) :=
  '(v, ptr) ← DecodeUnsignedLeb128 data; Done (s32 (v - 1), ptr).

(** [(result << n) >> n] on an [int32_t]. *)
Definition sign_extend (n result : Z) : Z := Z.shiftr (s32 (Z.shiftl result n)) n.

Definition DecodeSignedLeb128 (data : list Z) : cres (Z * list Z) :=
  '(result, ptr) ← next_byte data;
  if result <=? 0x7f then Done (sign_extend 25 result, ptr) else
  '(cur, ptr) ← next_byte ptr;
  let result := Z.lor (Z.land result 0x7f) (Z.shiftl (Z.land cur 0x7f) 7) in
  if cur <=? 0x7f then Done (sign_extend 18 result, ptr) else
  '(cur, ptr) ← next_byte ptr;
  let result := Z.lor result (Z.shiftl (Z.land cur 0x7f) 14) in
  if cur <=? 0x7f then Done (sign_extend 11 result, ptr) else
  '(cur, ptr) ← next_byte ptr;
  let result := Z.lor result (Z.shiftl (Z.land cur 0x7f) 21) in
  if cur <=? 0x7f then Done (sign_extend 4 result, ptr) else
  '(cur, ptr) ← next_byte ptr;
  Done (s32 (Z.lor result (Z.shiftl cur 28)), ptr).

(** ** Sizes *)

(** [CLZ] of a 32-bit value that is not zero. *)
Definition CLZ (x : Z) : Z := 31 - Z.log2 x.

Definition UnsignedLeb128Size (data : Z) : Z :=
  let x := 6 + 32 - CLZ (Z.lor data 1) in Z.shiftr (x * 37) 8.

Definition SignedLeb128Size (data : Z) : Z :=
  let data := Z.lxor data (Z.shiftr data 31) in
  let x := 1 + 6 + 32 - CLZ (Z.lor data 1) in Z.shiftr (x * 37) 8.

(** ** Encoding: the bytes written *)

(** Five rounds are enough for 32 bits. *)
Definition LEB_FUEL : nat := 5.

Fixpoint encode_unsigned_loop (fuel : nat) (out value : Z) : cres (list Z) :=
  if value =? 0 then Done [out]
  else
    match fuel with
    | O => Fault OutOfFuel
    | S f =>
        rest ← encode_unsigned_loop f (Z.land value 0x7f) (Z.shiftr value 7);
        Done (Z.lor out 0x80 :: rest)
    end.

Definition EncodeUnsignedLeb128 (value : Z) : cres (list Z) :=
  encode_unsigned_loop LEB_FUEL (Z.land value 0x7f) (Z.shiftr value 7).

Fixpoint encode_signed_loop (fuel : nat) (extra_bits value : Z) : cres (list Z) :=
  let out := Z.land value 0x7f in
  if extra_bits =? 0 then Done [out]
  else
    match fuel with
    | O => Fault OutOfFuel
    | S f =>
        rest ← encode_signed_loop f (Z.shiftr extra_bits 7) (Z.shiftr value 7);
        Done (Z.lor out 0x80 :: rest)
    end.

Definition EncodeSignedLeb128 (value : Z) : cres (list Z) :=
  encode_signed_loop LEB_FUEL (Z.shiftr (u32 (Z.lxor value (Z.shiftr value 31))) 6) value.

(** [Leb128EncodingVector]: the bytes collected. *)
Definition PushBackUnsigned (data : list Z) (value : Z) : cres (list Z) :=
  bs ← EncodeUnsignedLeb128 value; Done (data ++ bs).
Definition PushBackSigned (data : list Z) (value : Z) : cres (list Z) :=
  bs ← EncodeSignedLeb128 value; Done (data ++ bs).

Fixpoint InsertBackUnsigned (data : list Z) (values : list Z) : cres (list Z) :=
  match values with
  | [] => Done data
  | v :: values => data ← PushBackUnsigned data v; InsertBackUnsigned data values
  end.
Fixpoint InsertBackSigned (data : list Z) (values : list Z) : cres (list Z) :=
  match values with
  | [] => Done data
  | v :: values => data ← PushBackSigned data v; InsertBackSigned data values
  end.

(** ** Digits to base 128 *)

Lemma land_7f x : Z.land x 0x7f = x mod 128.
Proof. apply (Z.land_ones x 7). lia. Qed.
Lemma shiftr_7 x : Z.shiftr x 7 = x / 128.
Proof. by rewrite Z.shiftr_div_pow2. Qed.
Lemma lor_80 x : 0 <= x < 128 -> Z.lor x 0x80 = x + 128.
Proof. intros H. apply (lor_shiftl_add x 1 7); lia. Qed.
Lemma digit_bounds x : 0 <= x mod 128 < 128.
Proof. apply Z.mod_pos_bound. lia. Qed.
Lemma digit_split x : x = 128 * (x / 128) + x mod 128.
Proof. apply Z.div_mod. lia. Qed.

(** The arithmetic form of the two encoders. *)
Fixpoint leb (fuel : nat) (more : Z -> bool) (v : Z) : cres (list Z) :=
  if more v then
    match fuel with
    | O => Fault OutOfFuel
    | S f => rest ← leb f more (v / 128); Done (v mod 128 + 128 :: rest)
    end
  else Done [v mod 128].

Definition more_unsigned (v : Z) : bool := negb (v / 128 =? 0).

Lemma encode_unsigned_leb v : EncodeUnsignedLeb128 v = leb LEB_FUEL more_unsigned v.
Proof.
  unfold EncodeUnsignedLeb128. generalize LEB_FUEL as f. intros f. revert v.
  induction f as [|f IH]; intros v; cbn [encode_unsigned_loop leb]; rewrite shiftr_7;
    unfold more_unsigned; destruct (v / 128 =? 0); cbn [negb]; rewrite ?land_7f; try done.
  specialize (IH (v / 128)). rewrite land_7f in IH. rewrite IH, lor_80 by apply digit_bounds. done.
Qed.

(** Five 7-bit digits of a number. *)
Lemma digits5 v : exists d0 d1 d2 d3 q4,
  v = d0 + 128 * d1 + 2 ^ 14 * d2 + 2 ^ 21 * d3 + 2 ^ 28 * q4 /\
  0 <= d0 < 128 /\ 0 <= d1 < 128 /\ 0 <= d2 < 128 /\ 0 <= d3 < 128 /\
  v mod 128 = d0 /\ v / 128 = d1 + 128 * d2 + 2 ^ 14 * d3 + 2 ^ 21 * q4 /\
  (v / 128) mod 128 = d1 /\ v / 128 / 128 = d2 + 128 * d3 + 2 ^ 14 * q4 /\
  (v / 128 / 128) mod 128 = d2 /\ v / 128 / 128 / 128 = d3 + 128 * q4 /\
  (v / 128 / 128 / 128) mod 128 = d3 /\ v / 128 / 128 / 128 / 128 = q4.
Proof.
  exists (v mod 128), ((v / 128) mod 128), ((v / 128 / 128) mod 128), ((v / 128 / 128 / 128) mod 128),
    (v / 128 / 128 / 128 / 128).
  pose proof (digit_split v). pose proof (digit_split (v / 128)).
  pose proof (digit_split (v / 128 / 128)). pose proof (digit_split (v / 128 / 128 / 128)).
  split_and!; try apply digit_bounds; try done; lia.
Qed.

(** ** Sizes *)

Lemma size_by_log2 n : 0 <= n < 34 -> Z.shiftr ((7 + n) * 37) 8 = n / 7 + 1.
Proof.
  intros Hn. assert (In n (map Z.of_nat (seq 0 34))) as Hin.
  { apply in_map_iff. exists (Z.to_nat n). split; [lia|]. apply in_seq. lia. }
  cbn in Hin. repeat (destruct Hin as [<-|Hin]; [reflexivity|]). done.
Qed.

(** [k + 1] digits for a number with [7 * k] to [7 * k + 6] bits below its
    highest one. *)
Lemma log2_digits x k : 0 <= k -> 2 ^ (7 * k) <= x < 2 ^ (7 * k + 7) -> Z.log2 x / 7 = k.
Proof.
  intros Hk [Hlo Hhi].
  assert (0 < x) by (pose proof (Z.pow_pos_nonneg 2 (7 * k)); lia).
  assert (7 * k <= Z.log2 x) by (apply Z.log2_le_pow2; lia).
  assert (Z.log2 x < 7 * k + 7) by (apply Z.log2_lt_pow2; lia).
  symmetry. apply (Z.div_unique_pos _ _ _ (Z.log2 x - 7 * k)); lia.
Qed.

Lemma log2_lor_1 x : 0 <= x -> Z.log2 (Z.lor x 1) = Z.log2 x.
Proof. intros Hx. rewrite Z.log2_lor by lia. cbn. apply Z.max_l, Z.log2_nonneg. Qed.

Lemma unsigned_size v k : 0 <= v < 2 ^ 32 -> 0 <= k ->
  (v < 128 /\ k = 0) \/ (2 ^ (7 * k) <= v < 2 ^ (7 * k + 7)) -> UnsignedLeb128Size v = k + 1.
Proof.
  intros Hv Hk Hr. unfold UnsignedLeb128Size, CLZ. rewrite log2_lor_1 by lia.
  assert (0 <= Z.log2 v < 32).
  { split; [apply Z.log2_nonneg|]. destruct (Z.eqb_spec v 0) as [->|]; [cbn; lia|].
    apply Z.log2_lt_pow2; lia. }
  replace (6 + 32 - (31 - Z.log2 v)) with (7 + Z.log2 v) by lia.
  rewrite size_by_log2 by lia. f_equal. destruct Hr as [[Hlt ->]|Hr].
  - apply Z.div_small. split; [lia|]. destruct (Z.eqb_spec v 0) as [->|]; [cbn; lia|].
    apply Z.log2_lt_pow2; lia.
  - by apply log2_digits.
Qed.

(** ** Unsigned *)

Ltac digit_facts v :=
  destruct (digits5 v) as (d0 & d1 & d2 & d3 & q4 & Ev & H0 & H1 & H2 & H3 & E0 & Q1 & E1 & Q2 & E2 & Q3 & E3 & Q4).

(** The digits written, lowest first. *)
Lemma encode_unsigned_cases v : 0 <= v < 2 ^ 32 ->
  exists d0 d1 d2 d3 d4, v = d0 + 2 ^ 7 * d1 + 2 ^ 14 * d2 + 2 ^ 21 * d3 + 2 ^ 28 * d4 /\
    0 <= d0 < 128 /\ 0 <= d1 < 128 /\ 0 <= d2 < 128 /\ 0 <= d3 < 128 /\ 0 <= d4 < 16 /\
    EncodeUnsignedLeb128 v = Done
      (if v <? 2 ^ 7 then [d0]
       else if v <? 2 ^ 14 then [d0 + 128; d1]
       else if v <? 2 ^ 21 then [d0 + 128; d1 + 128; d2]
       else if v <? 2 ^ 28 then [d0 + 128; d1 + 128; d2 + 128; d3]
       else [d0 + 128; d1 + 128; d2 + 128; d3 + 128; d4]).
Proof.
  intros Hv. digit_facts v. exists d0, d1, d2, d3, q4.
  split; [lia|]. do 4 (split; [done|]). split; [lia|].
  rewrite encode_unsigned_leb. unfold LEB_FUEL, more_unsigned. cbn [leb].
  rewrite E0, E1, E2, E3, Q4. rewrite (Z.div_small q4 128), (Z.mod_small q4 128) by lia.
  destruct (Z.eqb_spec (v / 128) 0), (Z.ltb_spec v (2 ^ 7)); try lia; cbn [negb]; [done|].
  destruct (Z.eqb_spec (v / 128 / 128) 0), (Z.ltb_spec v (2 ^ 14)); try lia; cbn [negb]; [done|].
  destruct (Z.eqb_spec (v / 128 / 128 / 128) 0), (Z.ltb_spec v (2 ^ 21)); try lia; cbn [negb]; [done|].
  destruct (Z.eqb_spec q4 0), (Z.ltb_spec v (2 ^ 28)); try lia; cbn [negb]; done.
Qed.

Lemma land_digit d : 0 <= d < 128 -> Z.land d 0x7f = d.
Proof. intros H. rewrite land_7f. by apply Z.mod_small. Qed.
Lemma land_cont d : 0 <= d < 128 -> Z.land (d + 128) 0x7f = d.
Proof. intros H. rewrite land_7f. symmetry. apply (Z.mod_unique_pos _ _ 1); lia. Qed.

(** Puts the digits read together. *)
Ltac join_digits :=
  repeat match goal with
  | |- context [Z.land (?d + 128) 0x7f] => rewrite (land_cont d) by lia
  | |- context [Z.land ?d 0x7f] => rewrite (land_digit d) by lia
  end;
  repeat match goal with
  | |- context [Z.lor ?a (Z.shiftl ?b ?k)] => rewrite (lor_shiftl_add a b k) by lia
  end.

Ltac read_digits :=
  cbn [next_byte app mbind cres_bind];
  repeat (match goal with
          | |- context [?d + 128 <=? 0x7f] => rewrite (proj2 (Z.leb_gt (d + 128) 0x7f)) by lia
          | |- context [?d <=? 0x7f] => rewrite (proj2 (Z.leb_le d 0x7f)) by lia
          end; cbn [next_byte app mbind cres_bind]);
  join_digits.

Lemma unsigned_decode v bs rest : 0 <= v < 2 ^ 32 -> EncodeUnsignedLeb128 v = Done bs ->
  DecodeUnsignedLeb128 (bs ++ rest) = Done (v, rest).
Proof.
  intros Hv. destruct (encode_unsigned_cases v Hv) as (d0 & d1 & d2 & d3 & d4 & Ev & H0 & H1 & H2 & H3 & H4 & ->).
  intros [= <-]. unfold DecodeUnsignedLeb128.
  destruct (Z.ltb_spec v (2 ^ 7)); [|destruct (Z.ltb_spec v (2 ^ 14));
    [|destruct (Z.ltb_spec v (2 ^ 21)); [|destruct (Z.ltb_spec v (2 ^ 28))]]]; read_digits;
    rewrite (uwrap_small 32) by (unfold in_u; lia); do 2 f_equal; lia.
Qed.

Lemma unsigned_length v bs : in_u 32 v -> EncodeUnsignedLeb128 v = Done bs ->
  Z.of_nat (length bs) = UnsignedLeb128Size v.
Proof.
  intros Hv. unfold in_u in Hv. pose proof (encode_unsigned_cases v Hv) as (d0 & d1 & d2 & d3 & d4 & _ & _ & _ & _ & _ & _ & ->).
  intros [= <-].
  destruct (Z.ltb_spec v (2 ^ 7)); [rewrite (unsigned_size v 0); try lia; reflexivity|].
  destruct (Z.ltb_spec v (2 ^ 14)); [rewrite (unsigned_size v 1); try lia; reflexivity|].
  destruct (Z.ltb_spec v (2 ^ 21)); [rewrite (unsigned_size v 2); try lia; reflexivity|].
  destruct (Z.ltb_spec v (2 ^ 28)); [rewrite (unsigned_size v 3); try lia; reflexivity|].
  rewrite (unsigned_size v 4); try lia; reflexivity.
Qed.

(** Unsigned LEB128 is a round trip.  Every 32-bit value is encoded in as
    many bytes as UnsignedLeb128Size says, and decoding them gives the value
    back and leaves the pointer right behind them. *)
Theorem leb128_unsigned_roundtrip v rest (Hv : in_u 32 v) :
  exists bs, EncodeUnsignedLeb128 v = Done bs /\ Z.of_nat (length bs) = UnsignedLeb128Size v /\
    DecodeUnsignedLeb128 (bs ++ rest) = Done (v, rest).
Proof.
  pose proof (encode_unsigned_cases v Hv) as (d0 & d1 & d2 & d3 & d4 & _ & _ & _ & _ & _ & _ & E).
  eexists. split; [exact E|]. split; [by apply unsigned_length|by apply unsigned_decode].
Qed.

(** ** Signed *)

(** [v ^ (v >> 31)] on a 32-bit [v]. *)
Definition magnitude (v : Z) : Z := if v <? 0 then - v - 1 else v.

Lemma lxor_sign v : in_s 32 v -> Z.lxor v (Z.shiftr v 31) = magnitude v.
Proof.
  intros Hv. unfold in_s in Hv. unfold magnitude. rewrite Z.shiftr_div_pow2 by lia.
  destruct (Z.ltb_spec v 0).
  - replace (v / 2 ^ 31) with (-1) by (apply (Z.div_unique_pos _ _ _ (v + 2 ^ 31)); lia).
    rewrite Z.lxor_m1_r. unfold Z.lnot. lia.
  - rewrite Z.div_small by lia. apply Z.lxor_0_r.
Qed.

Lemma magnitude_bounds v : in_s 32 v -> 0 <= magnitude v < 2 ^ 31.
Proof. unfold in_s, magnitude. destruct (Z.ltb_spec v 0); lia. Qed.

Lemma encode_signed_leb f e v :
  encode_signed_loop f e v =
  if e =? 0 then Done [v mod 128]
  else
    match f with
    | O => Fault OutOfFuel
    | S f => rest ← encode_signed_loop f (e / 128) (v / 128); Done (v mod 128 + 128 :: rest)
    end.
Proof.
  destruct f; cbn [encode_signed_loop]; rewrite land_7f; destruct (e =? 0); try done.
  rewrite !shiftr_7, lor_80 by apply digit_bounds. done.
Qed.

Lemma sign_extend_spec n x : 0 <= n < 32 -> 0 <= x < 2 ^ (32 - n) ->
  sign_extend n x = if x <? 2 ^ (31 - n) then x else x - 2 ^ (32 - n).
Proof.
  intros Hn Hx. unfold sign_extend. rewrite Z.shiftl_mul_pow2, Z.shiftr_div_pow2 by lia.
  assert (2 ^ 32 = 2 ^ (32 - n) * 2 ^ n) as E32 by (rewrite <- Z.pow_add_r by lia; f_equal; lia).
  assert (2 ^ 31 = 2 ^ (31 - n) * 2 ^ n) as E31 by (rewrite <- Z.pow_add_r by lia; f_equal; lia).
  assert (0 < 2 ^ n) by (apply Z.pow_pos_nonneg; lia).
  destruct (Z.ltb_spec x (2 ^ (31 - n))).
  - rewrite (swrap_small 32) by (try lia; unfold in_s; change (32 - 1) with 31; nia). by apply Z.div_mul; lia.
  - assert (s32 (x * 2 ^ n) = (x - 2 ^ (32 - n)) * 2 ^ n) as ->; [|by apply Z.div_mul; lia].
    replace (x * 2 ^ n) with ((x - 2 ^ (32 - n)) * 2 ^ n + 1 * 2 ^ 32) by lia.
    rewrite swrap_plus by lia. apply swrap_small; [lia|]. unfold in_s. change (32 - 1) with 31. nia.
Qed.

(** The digits of a signed value; the top one keeps the sign. *)
Lemma encode_signed_cases v : in_s 32 v ->
  exists d0 d1 d2 d3 q4, v = d0 + 2 ^ 7 * d1 + 2 ^ 14 * d2 + 2 ^ 21 * d3 + 2 ^ 28 * q4 /\
    0 <= d0 < 128 /\ 0 <= d1 < 128 /\ 0 <= d2 < 128 /\ 0 <= d3 < 128 /\ -8 <= q4 < 8 /\
    EncodeSignedLeb128 v = Done
      (if magnitude v <? 2 ^ 6 then [d0]
       else if magnitude v <? 2 ^ 13 then [d0 + 128; d1]
       else if magnitude v <? 2 ^ 20 then [d0 + 128; d1 + 128; d2]
       else if magnitude v <? 2 ^ 27 then [d0 + 128; d1 + 128; d2 + 128; d3]
       else [d0 + 128; d1 + 128; d2 + 128; d3 + 128; q4 mod 128]).
Proof.
  intros Hv. pose proof (magnitude_bounds v Hv) as Hm. digit_facts v. exists d0, d1, d2, d3, q4.
  split; [lia|]. do 4 (split; [done|]). split; [unfold in_s in Hv; lia|].
  unfold EncodeSignedLeb128. rewrite lxor_sign, (uwrap_small 32) by (try done; unfold in_u; lia).
  rewrite Z.shiftr_div_pow2 by lia. change (2 ^ 6) with 64. unfold LEB_FUEL.
  assert (forall k, 0 < k -> (magnitude v / k =? 0) = (magnitude v <? k)) as Hz.
  { intros k Hk. destruct (Z.ltb_spec (magnitude v) k).
    - apply Z.eqb_eq. apply Z.div_small. lia.
    - apply Z.eqb_neq. pose proof (Z.div_le_mono k (magnitude v) k Hk). rewrite Z.div_same in * by lia. lia. }
  rewrite encode_signed_leb, Hz, E0 by lia. destruct (magnitude v <? 64); [done|].
  rewrite encode_signed_leb, Z.div_div, Hz, E1 by lia. change (64 * 128) with (2 ^ 13).
  destruct (magnitude v <? 2 ^ 13); [done|].
  rewrite encode_signed_leb, Z.div_div, Hz, E2 by lia. change (2 ^ 13 * 128) with (2 ^ 20).
  destruct (magnitude v <? 2 ^ 20); [done|].
  rewrite encode_signed_leb, Z.div_div, Hz, E3 by lia. change (2 ^ 20 * 128) with (2 ^ 27).
  destruct (magnitude v <? 2 ^ 27); [done|].
  rewrite encode_signed_leb, Z.div_div, Hz, Q4 by lia.
  rewrite (proj2 (Z.ltb_lt _ _)) by lia. done.
Qed.

Lemma signed_decode v bs rest : in_s 32 v -> EncodeSignedLeb128 v = Done bs ->
  DecodeSignedLeb128 (bs ++ rest) = Done (v, rest).
Proof.
  intros Hv. destruct (encode_signed_cases v Hv) as (d0 & d1 & d2 & d3 & q4 & Ev & H0 & H1 & H2 & H3 & H4 & ->).
  intros [= <-]. unfold DecodeSignedLeb128, magnitude, in_s in *.
  destruct (Z.ltb_spec v 0); (match goal with |- context [if ?b then [d0] else _] => destruct b eqn:B1 end;
    [|match goal with |- context [if ?b then [d0 + 128; d1] else _] => destruct b eqn:B2 end;
      [|match goal with |- context [if ?b then [d0 + 128; d1 + 128; d2] else _] => destruct b eqn:B3 end;
        [|match goal with |- context [if ?b then [d0 + 128; d1 + 128; d2 + 128; d3] else _] => destruct b eqn:B4 end]]]).
  all: rewrite ?Z.ltb_lt, ?Z.ltb_ge in *.
  all: try (read_digits; rewrite sign_extend_spec by lia; do 2 f_equal;
    match goal with |- (if ?b then _ else _) = _ => destruct b eqn:B end;
    rewrite ?Z.ltb_lt, ?Z.ltb_ge in *; lia).
  - replace (q4 mod 128) with (q4 + 128) by (apply (Z.mod_unique_pos _ _ (-1)); lia).
    read_digits.
    match goal with |- Done (s32 ?x, _) = _ => replace x with (v + 8 * 2 ^ 32) by lia end.
    rewrite swrap_plus by lia. by rewrite (swrap_small 32) by (try lia; unfold in_s; lia).
  - rewrite (Z.mod_small q4 128) by lia. read_digits.
    match goal with |- Done (s32 ?x, _) = _ => replace x with v by lia end.
    by rewrite (swrap_small 32) by (try lia; unfold in_s; lia).
Qed.

Lemma signed_size v k : in_s 32 v -> 0 <= k ->
  (magnitude v < 2 ^ 6 /\ k = 0) \/ (2 ^ (7 * k - 1) <= magnitude v < 2 ^ (7 * k + 6)) ->
  SignedLeb128Size v = k + 1.
Proof.
  intros Hv Hk Hr. pose proof (magnitude_bounds v Hv) as Hm.
  unfold SignedLeb128Size, CLZ. rewrite lxor_sign by done. rewrite log2_lor_1 by lia.
  set (x := magnitude v) in *.
  assert (0 <= Z.log2 x < 31).
  { split; [apply Z.log2_nonneg|]. destruct (Z.eqb_spec x 0) as [->|]; [cbn; lia|].
    apply Z.log2_lt_pow2; lia. }
  replace (1 + 6 + 32 - (31 - Z.log2 x)) with (7 + (Z.log2 x + 1)) by lia.
  rewrite size_by_log2 by lia. f_equal. destruct Hr as [[Hlt ->]|[Hlo Hhi]].
  - apply Z.div_small. split; [lia|]. destruct (Z.eqb_spec x 0) as [->|]; [cbn; lia|].
    assert (Z.log2 x < 6) by (apply Z.log2_lt_pow2; lia). lia.
  - assert (0 < 2 ^ (7 * k - 1) \/ 7 * k - 1 < 0) as [Hp|Hp] by
      (destruct (Z.ltb_spec (7 * k - 1) 0); [by right|left; by apply Z.pow_pos_nonneg; lia]).
    + assert (7 * k - 1 <= Z.log2 x) by (apply Z.log2_le_pow2; lia).
      assert (Z.log2 x < 7 * k + 6) by (apply Z.log2_lt_pow2; lia).
      symmetry. apply (Z.div_unique_pos _ _ _ (Z.log2 x + 1 - 7 * k)); lia.
    + assert (k = 0) as -> by lia. apply Z.div_small. split; [lia|].
      destruct (Z.eqb_spec x 0) as [->|]; [cbn; lia|].
      assert (Z.log2 x < 6) by (apply Z.log2_lt_pow2; lia). lia.
Qed.

Lemma signed_length v bs : in_s 32 v -> EncodeSignedLeb128 v = Done bs ->
  Z.of_nat (length bs) = SignedLeb128Size v.
Proof.
  intros Hv. pose proof (encode_signed_cases v Hv) as (d0 & d1 & d2 & d3 & q4 & _ & _ & _ & _ & _ & _ & ->).
  intros [= <-]. pose proof (magnitude_bounds v Hv).
  destruct (Z.ltb_spec (magnitude v) (2 ^ 6)); [rewrite (signed_size v 0); try lia; try done; reflexivity|].
  destruct (Z.ltb_spec (magnitude v) (2 ^ 13)); [rewrite (signed_size v 1); try lia; try done; reflexivity|].
  destruct (Z.ltb_spec (magnitude v) (2 ^ 20)); [rewrite (signed_size v 2); try lia; try done; reflexivity|].
  destruct (Z.ltb_spec (magnitude v) (2 ^ 27)); [rewrite (signed_size v 3); try lia; try done; reflexivity|].
  rewrite (signed_size v 4); try lia; try done; reflexivity.
Qed.

(** Signed LEB128 is a round trip, with the size SignedLeb128Size says. *)
Theorem leb128_signed_roundtrip v rest (Hv : in_s 32 v) :
  exists bs, EncodeSignedLeb128 v = Done bs /\ Z.of_nat (length bs) = SignedLeb128Size v /\
    DecodeSignedLeb128 (bs ++ rest) = Done (v, rest).
Proof.
  pose proof (encode_signed_cases v Hv) as (d0 & d1 & d2 & d3 & q4 & _ & _ & _ & _ & _ & _ & E).
  eexists. split; [exact E|]. split; [by apply signed_length|by apply signed_decode].
Qed.

(** ** Vectors *)

(** Reads [n] values one after the other. *)
Fixpoint decode_n (dec : list Z -> cres (Z * list Z)) (n : nat) (data : list Z) : cres (list Z * list Z) :=
  match n with
  | O => Done ([], data)
  | S n => '(v, data) ← dec data; '(vs, data) ← decode_n dec n data; Done (v :: vs, data)
  end.

Definition total (size : Z -> Z) (vs : list Z) : Z := fold_right (fun v acc => size v + acc) 0 vs.

(** What one push of a value in range does, for both kinds of values. *)
Definition pushes (push : list Z -> Z -> cres (list Z)) (dec : list Z -> cres (Z * list Z))
    (size : Z -> Z) (ok : Z -> Prop) : Prop :=
  forall data v, ok v -> exists bs, push data v = Done (data ++ bs) /\ Z.of_nat (length bs) = size v /\
    forall rest, dec (bs ++ rest) = Done (v, rest).

Lemma pushes_unsigned : pushes PushBackUnsigned DecodeUnsignedLeb128 UnsignedLeb128Size (in_u 32).
Proof.
  intros data v Hv. pose proof (encode_unsigned_cases v Hv) as (d0 & d1 & d2 & d3 & d4 & _ & _ & _ & _ & _ & _ & E).
  unfold PushBackUnsigned. rewrite E. eexists. split; [done|].
  split; [by apply unsigned_length|intros; by apply unsigned_decode].
Qed.

Lemma pushes_signed : pushes PushBackSigned DecodeSignedLeb128 SignedLeb128Size (in_s 32).
Proof.
  intros data v Hv. pose proof (encode_signed_cases v Hv) as (d0 & d1 & d2 & d3 & q4 & _ & _ & _ & _ & _ & _ & E).
  unfold PushBackSigned. rewrite E. eexists. split; [done|].
  split; [by apply signed_length|intros; by apply signed_decode].
Qed.

Fixpoint insert_all (push : list Z -> Z -> cres (list Z)) (data vs : list Z) : cres (list Z) :=
  match vs with
  | [] => Done data
  | v :: vs => data ← push data v; insert_all push data vs
  end.

Lemma insert_all_ok push dec size ok data vs rest : pushes push dec size ok -> Forall ok vs ->
  exists bs, insert_all push data vs = Done (data ++ bs) /\ Z.of_nat (length bs) = total size vs /\
    decode_n dec (length vs) (bs ++ rest) = Done (vs, rest).
Proof.
  intros Hp Hvs. revert data. induction Hvs as [|v vs Hv _ IH]; intros data; cbn.
  { exists []. by rewrite app_nil_r. }
  destruct (Hp data v Hv) as (b1 & E1 & L1 & D1). rewrite E1. cbn [mbind cres_bind].
  destruct (IH (data ++ b1)) as (b2 & E2 & L2 & D2). exists (b1 ++ b2).
  rewrite E2, <- !app_assoc, length_app, D1. cbn [mbind cres_bind]. rewrite D2.
  fold (total size vs). split_and!; [done|lia|done].
Qed.

(** A vector of LEB128 values can be read back.  Whatever list of unsigned
    or of signed 32-bit values is inserted behind whatever data, the data is
    kept, the bytes added are as many as the sizes of the values say, and
    decoding as many values returns the list. *)
Theorem leb128_vector_roundtrip data us ss rest
    (Hus : Forall (in_u 32) us) (Hss : Forall (in_s 32) ss) :
  (exists bs, InsertBackUnsigned data us = Done (data ++ bs) /\
     Z.of_nat (length bs) = total UnsignedLeb128Size us /\
     decode_n DecodeUnsignedLeb128 (length us) (bs ++ rest) = Done (us, rest)) /\
  (exists bs, InsertBackSigned data ss = Done (data ++ bs) /\
     Z.of_nat (length bs) = total SignedLeb128Size ss /\
     decode_n DecodeSignedLeb128 (length ss) (bs ++ rest) = Done (ss, rest)).
Proof.
  assert (forall vs d, InsertBackUnsigned d vs = insert_all PushBackUnsigned d vs) as Eu.
  { induction vs as [|v vs IH]; intros d; [done|]. cbn [InsertBackUnsigned insert_all].
    destruct (PushBackUnsigned d v); [apply IH|done]. }
  assert (forall vs d, InsertBackSigned d vs = insert_all PushBackSigned d vs) as Es.
  { induction vs as [|v vs IH]; intros d; [done|]. cbn [InsertBackSigned insert_all].
    destruct (PushBackSigned d v); [apply IH|done]. }
  rewrite Eu, Es. split; eauto using insert_all_ok, pushes_unsigned, pushes_signed.
Qed.

(** ** The theorems at work *)

Lemma leb128_unsigned_roundtrip_witness :
  exists bs, EncodeUnsignedLeb128 16256 = Done bs /\ Z.of_nat (length bs) = 2 /\
    DecodeUnsignedLeb128 (bs ++ [9]) = Done (16256, [9]).
Proof. refine (leb128_unsigned_roundtrip 16256 [9] _). split; vm_compute; congruence. Defined.

Lemma leb128_signed_roundtrip_witness :
  exists bs, EncodeSignedLeb128 (-129) = Done bs /\ Z.of_nat (length bs) = 2 /\
    DecodeSignedLeb128 (bs ++ [9]) = Done (-129, [9]).
Proof. refine (leb128_signed_roundtrip (-129) [9] _). split; vm_compute; congruence. Defined.

Lemma leb128_vector_roundtrip_witness :
  exists bs, InsertBackSigned [7] [-1; 64; -2147483648] = Done ([7] ++ bs) /\
    Z.of_nat (length bs) = 8 /\
    decode_n DecodeSignedLeb128 3 (bs ++ []) = Done ([-1; 64; -2147483648], []).
Proof.
  refine (proj2 (leb128_vector_roundtrip [7] [0; 300] [-1; 64; -2147483648] [] _ _));
    repeat constructor; vm_compute; congruence.
Defined.
