(* ===== verification/Utf.v ===== *)
(** * Utf: modified UTF-8 (android_art-xposed-lollipop-mr1/runtime/utf.cc, utf-inl.h)

    The conversions, counts, hashes and comparisons of the strings of dex
    files.  A [char*] is the list of the bytes ahead of the pointer; a read
    past the last one faults.  Whether [char] is signed is a choice of the
    platform and a parameter here, [size_t] has [w] bits. *)

From S2P Require Import Prelude.

(** ** Characters of more than one byte *)

Definition two_byte (one two : Z) : Z :=
  Z.lor (Z.shiftl (Z.land one 0x1f) 6) (Z.land two 0x3f).

Definition three_byte (one two three : Z) : Z :=
  Z.lor (Z.lor (Z.shiftl (Z.land one 0x0f) 12) (Z.shiftl (Z.land two 0x3f) 6)) (Z.land three 0x3f).

Definition GetUtf16FromUtf8 (utf8_data_in : list Z) : cres (Z * list Z) :=
  '(one, p) ← next_byte utf8_data_in;
  if Z.land one 0x80 =? 0 then Done (u16 one, p) else
  '(two, p) ← next_byte p;
  if Z.land one 0x20 =? 0 then Done (u16 (two_byte one two), p) else
  '(three, p) ← next_byte p;
  Done (u16 (three_byte one two three), p).

(** ** Conversions *)

Fixpoint convert_to_utf16_loop (fuel : nat) (utf8 : list Z) : cres (list Z) :=
  b ← deref (head utf8);
  if b =? 0 then Done [] else
  match fuel with
  | O => Fault OutOfFuel
  | S f => '(ch, utf8) ← GetUtf16FromUtf8 utf8; out ← convert_to_utf16_loop f utf8; Done (ch :: out)
  end.

(** The characters written to [utf16_data_out]. *)
Definition ConvertModifiedUtf8ToUtf16 (utf8_data_in : list Z) : cres (list Z) :=
  convert_to_utf16_loop (length utf8_data_in) utf8_data_in.

(** The bytes one character is written as. *)
Definition utf8_of_char (ch : Z) : list Z :=
  if (0 <? ch) && (ch <=? 0x7f) then [u8 ch]
  else if 0x07ff <? ch then
    [u8 (Z.lor (Z.shiftr ch 12) 0xe0);
     u8 (Z.lor (Z.land (Z.shiftr ch 6) 0x3f) 0x80);
     u8 (Z.lor (Z.land ch 0x3f) 0x80)]
  else [u8 (Z.lor (Z.shiftr ch 6) 0xc0); u8 (Z.lor (Z.land ch 0x3f) 0x80)].

(** The bytes written to [utf8_out]. *)
Fixpoint ConvertUtf16ToModifiedUtf8 (utf16_in : list Z) (char_count : nat) : cres (list Z) :=
  match char_count with
  | O => Done []
  | S n =>
      match utf16_in with
      | [] => Fault OutOfBounds
      | ch :: utf16_in => out ← ConvertUtf16ToModifiedUtf8 utf16_in n; Done (utf8_of_char ch ++ out)
      end
  end.

(** ** Counts *)

Fixpoint count_chars_loop (fuel : nat) (utf8 : list Z) (len : Z) : cres Z :=
  '(ic, utf8) ← next_byte utf8;
  if ic =? 0 then Done len else
  match fuel with
  | O => Fault OutOfFuel
  | S f =>
      let len := len + 1 in
      if Z.land ic 0x80 =? 0 then count_chars_loop f utf8 len
      else
        let utf8 := tail utf8 in
        if Z.land ic 0x20 =? 0 then count_chars_loop f utf8 len
        else count_chars_loop f (tail utf8) len
  end.

Definition CountModifiedUtf8Chars (utf8 : list Z) : cres Z := count_chars_loop (length utf8) utf8 0.

Fixpoint CountUtf8Bytes (chars : list Z) (char_count : nat) : cres Z :=
  match char_count with
  | O => Done 0
  | S n =>
      match chars with
      | [] => Fault OutOfBounds
      | ch :: chars =>
          rest ← CountUtf8Bytes chars n;
          Done ((if (0 <? ch) && (ch <=? 0x7f) then 1 else if 0x7ff <? ch then 3 else 2) + rest)
      end
  end.

(** ** Hashes *)

(** The loop over a [uint16_t*]. *)
Fixpoint hash_loop (hash : Z) (chars : list Z) (char_count : nat) : cres Z :=
  match char_count with
  | O => Done hash
  | S n =>
      match chars with
      | [] => Fault OutOfBounds
      | ch :: chars => hash_loop (s32 (hash * 31 + ch)) chars n
      end
  end.

Definition ComputeUtf16Hash (chars : list Z) (char_count : nat) : cres Z := hash_loop 0 chars char_count.

(** The loop over a [CharArray]; [i] counts up. *)
Fixpoint hash_array_loop (hash : Z) (chars : list Z) (offset : Z) (i char_count : nat) : cres Z :=
  match char_count with
  | O => Done hash
  | S n =>
      let idx := s32 (offset + Z.of_nat i) in
      ch ← (if idx <? 0 then Fault OutOfBounds else deref (chars !! Z.to_nat idx));
      hash_array_loop (s32 (hash * 31 + ch)) chars offset (S i) n
  end.

Definition ComputeUtf16Hash_array (chars : list Z) (offset : Z) (char_count : nat) : cres Z :=
  hash_array_loop 0 chars offset 0 char_count.

Section Char.
Context (char_signed : bool) (w : Z).

(** What reading a [char] gives. *)
Definition char (b : Z) : Z := if char_signed then s8 b else b.

Fixpoint utf8_hash_loop (hash : Z) (chars : list Z) : cres Z :=
  match chars with
  | [] => Fault OutOfBounds
  | b :: chars => if b =? 0 then Done hash else utf8_hash_loop (uwrap w (hash * 31 + char b)) chars
  end.

Definition ComputeModifiedUtf8Hash (chars : list Z) : cres Z := utf8_hash_loop 0 chars.

(** ** Comparisons *)

(** The rest of a character of two or three bytes, whose first one is [c]. *)
Definition wide (c : Z) (p : list Z) : cres (Z * list Z) :=
  '(x, p) ← next_byte p;
  if Z.land c 0x20 =? 0 then Done (u16 (two_byte c (char x)), p) else
  '(y, p) ← next_byte p;
  Done (u16 (three_byte c (char x) (char y)), p).

Fixpoint compare_loop (fuel : nat) (utf8_1 utf8_2 : list Z) : cres Z :=
  match fuel with
  | O => Fault OutOfFuel
  | S f =>
      '(b1, utf8_1) ← next_byte utf8_1;
      '(b2, utf8_2) ← next_byte utf8_2;
      let c1 := u16 (char b1) in
      let c2 := u16 (char b2) in
      if c1 =? 0 then Done (if c2 =? 0 then 0 else -1)
      else if c2 =? 0 then Done 1
      else if Z.land c1 0x80 =? 0 then
        if c1 =? c2 then compare_loop f utf8_1 utf8_2
        else
          '(c2, _) ← (if Z.land c2 0x80 =? 0 then Done (c2, utf8_2) else wide c2 utf8_2);
          Done (c1 - c2)
      else
        '(c1, utf8_1) ← wide c1 utf8_1;
        '(c2, utf8_2) ← (if Z.land c2 0x80 =? 0 then Done (c2, utf8_2) else wide c2 utf8_2);
        if c1 =? c2 then compare_loop f utf8_1 utf8_2 else Done (c1 - c2)
  end.

Definition CompareModifiedUtf8ToModifiedUtf8AsUtf16CodePointValues (utf8_1 utf8_2 : list Z) : cres Z :=
  compare_loop (S (length utf8_1)) utf8_1 utf8_2.

End Char.

(** [utf8_2] is read and not advanced. *)
Fixpoint compare_utf16_loop (fuel : nat) (utf8_1 utf8_2 : list Z) : cres Z :=
  match fuel with
  | O => Fault OutOfFuel
  | S f =>
      b1 ← deref (head utf8_1);
      if b1 =? 0 then b2 ← deref (head utf8_2); Done (if b2 =? 0 then 0 else -1)
      else
        b2 ← deref (head utf8_2);
        if b2 =? 0 then Done 1
        else
          '(c1, utf8_1) ← GetUtf16FromUtf8 utf8_1;
          c2 ← deref (head utf8_2);
          if c1 =? c2 then compare_utf16_loop f utf8_1 utf8_2 else Done (if c2 <? c1 then 1 else -1)
  end.

Definition CompareModifiedUtf8ToUtf16AsCodePointValues (utf8_1 utf8_2 : list Z) : cres Z :=
  compare_utf16_loop (S (length utf8_1)) utf8_1 utf8_2.

(** ** One character *)

(** The bytes of a list of characters. *)
Definition utf8 (s : list Z) : list Z := concat (map utf8_of_char s).

Lemma land_pow2 x k n : 0 <= k -> n = Z.ones k -> Z.land x n = x mod 2 ^ k.
Proof. intros Hk ->. by apply Z.land_ones. Qed.

Lemma lor_add a m b k : 0 <= k -> 0 <= a < 2 ^ k -> m = b * 2 ^ k -> Z.lor a m = a + m.
Proof. intros Hk Ha ->. rewrite <- lor_shiftl_add by done. by rewrite Z.shiftl_mul_pow2. Qed.

(** The three forms of a character. *)
Inductive char_form (ch : Z) : list Z -> Prop :=
| form1 : 0 < ch < 0x80 -> char_form ch [ch]
| form2 a b : ch = 64 * a + b -> 0 <= a < 32 -> 0 <= b < 64 -> ch = 0 \/ 0x80 <= ch ->
    char_form ch [a + 0xc0; b + 0x80]
| form3 a b c : ch = 4096 * a + 64 * b + c -> 0 <= a < 16 -> 0 <= b < 64 -> 0 <= c < 64 -> 0x800 <= ch ->
    char_form ch [a + 0xe0; b + 0x80; c + 0x80].

Lemma utf8_of_char_form ch : in_u 16 ch -> char_form ch (utf8_of_char ch).
Proof.
  intros Hch. unfold in_u in Hch. unfold utf8_of_char.
  rewrite !Z.shiftr_div_pow2, !(land_pow2 _ 6 0x3f) by done.
  change (2 ^ 12) with 4096. change (2 ^ 6) with 64.
  pose proof (Z.div_mod ch 64 ltac:(lia)). pose proof (Z.mod_pos_bound ch 64 ltac:(lia)).
  pose proof (Z.div_mod (ch / 64) 64 ltac:(lia)). pose proof (Z.mod_pos_bound (ch / 64) 64 ltac:(lia)).
  assert (ch / 4096 = ch / 64 / 64) as E by (by rewrite Z.div_div by lia). rewrite E.
  assert (forall x, 0 <= x < 64 -> u8 (Z.lor x 0x80) = x + 0x80) as E80.
  { intros x Hx. rewrite (lor_add x 0x80 1 7) by lia. apply uwrap_small. unfold in_u. lia. }
  rewrite !E80 by lia.
  destruct (Z.ltb_spec 0 ch), (Z.leb_spec ch 0x7f); cbn [andb].
  1: rewrite uwrap_small by (unfold in_u; lia); constructor; lia.
  all: destruct (Z.ltb_spec 0x07ff ch).
  all: try (rewrite (lor_add _ 0xe0 7 5), uwrap_small by (unfold in_u; lia); econstructor; lia).
  all: rewrite (lor_add _ 0xc0 3 6), uwrap_small by (unfold in_u; lia); econstructor; lia.
Qed.

(** First bytes and bytes that follow, for both kinds of [char]. *)
Lemma char_small sg b : 0 <= b < 128 -> u16 (char sg b) = b /\ Z.land b 0x80 = 0.
Proof.
  intros Hb. rewrite <- !Z.eqb_eq, <- andb_true_iff. revert b Hb.
  apply (below_forallb 128). by destruct sg.
Qed.

Lemma char_first2 sg a : 0 <= a < 32 -> let c := u16 (char sg (a + 0xc0)) in
  c <> 0 /\ Z.land c 0x80 <> 0 /\ Z.land c 0x20 = 0 /\ Z.land c 0x1f = a.
Proof.
  intros Ha c. rewrite <- !Z.eqb_eq, !not_true_iff_false, <- !negb_true_iff, <- !andb_true_iff.
  subst c. revert a Ha. apply (below_forallb 32). by destruct sg.
Qed.

Lemma char_first3 sg a : 0 <= a < 16 -> let c := u16 (char sg (a + 0xe0)) in
  c <> 0 /\ Z.land c 0x80 <> 0 /\ Z.land c 0x20 <> 0 /\ Z.land c 0x0f = a.
Proof.
  intros Ha c. rewrite <- !Z.eqb_eq, !not_true_iff_false, <- !negb_true_iff, <- !andb_true_iff.
  subst c. revert a Ha. apply (below_forallb 16). by destruct sg.
Qed.

Lemma char_next sg b : 0 <= b < 64 -> Z.land (char sg (b + 0x80)) 0x3f = b.
Proof.
  intros Hb. rewrite <- Z.eqb_eq. revert b Hb. apply (below_forallb 64). by destruct sg.
Qed.

(** An unsigned [char] is the byte. *)
Lemma u16_byte b : byte_ok b -> u16 (char false b) = b.
Proof. unfold byte_ok. intros. apply uwrap_small. unfold in_u. lia. Qed.

Lemma two_byte_join one two a b : Z.land one 0x1f = a -> Z.land two 0x3f = b -> 0 <= a < 32 -> 0 <= b < 64 ->
  u16 (two_byte one two) = 64 * a + b.
Proof.
  intros E1 E2 Ha Hb. unfold two_byte. rewrite E1, E2, Z.lor_comm, lor_shiftl_add by lia.
  rewrite uwrap_small by (unfold in_u; lia). lia.
Qed.

Lemma three_byte_join one two three a b c :
  Z.land one 0x0f = a -> Z.land two 0x3f = b -> Z.land three 0x3f = c ->
  0 <= a < 16 -> 0 <= b < 64 -> 0 <= c < 64 ->
  u16 (three_byte one two three) = 4096 * a + 64 * b + c.
Proof.
  intros E1 E2 E3 Ha Hb Hc. unfold three_byte. rewrite E1, E2, E3.
  rewrite Z.lor_comm, (Z.lor_comm (Z.shiftl a 12)), Z.lor_assoc, (lor_shiftl_add c b), lor_shiftl_add by lia.
  rewrite uwrap_small by (unfold in_u; lia). lia.
Qed.

(** How a character is read whose first byte is [b]: either it is that byte,
    or [wide] reads the rest. *)
Definition reads (sg : bool) (ch b : Z) (p rest : list Z) : Prop :=
  let c := u16 (char sg b) in
  (0 < ch < 0x80 /\ c = ch /\ Z.land c 0x80 = 0 /\ p = rest) \/
  ((ch = 0 \/ 0x80 <= ch) /\ c <> 0 /\ Z.land c 0x80 <> 0 /\ wide sg c p = Done (ch, rest)).

Lemma utf8_head sg ch : in_u 16 ch -> exists b tl, utf8_of_char ch = b :: tl /\ 0 < b < 256 /\
  forall rest, reads sg ch b (tl ++ rest) rest.
Proof.
  intros Hch. destruct (utf8_of_char_form ch Hch) as [H|a b -> Ha Hb H|a b c -> Ha Hb Hc H];
    eexists _, _; (split; [done|]; split; [lia|]); intros rest; unfold reads.
  - left. destruct (char_small sg ch ltac:(lia)) as [-> ->]. done.
  - right. destruct (char_first2 sg a Ha) as (H1 & H2 & H3 & H4). split_and!; try done.
    unfold wide. cbn. rewrite H3. cbn. by rewrite (two_byte_join _ _ _ _ H4 (char_next sg b Hb)).
  - right. destruct (char_first3 sg a Ha) as (H1 & H2 & H3 & H4). split_and!; try done; [lia|].
    unfold wide. cbn. apply Z.eqb_neq in H3. rewrite H3. cbn.
    by rewrite (three_byte_join _ _ _ _ _ _ H4 (char_next sg b Hb) (char_next sg c Hc)).
Qed.

Lemma GetUtf16FromUtf8_spec ch rest : in_u 16 ch -> GetUtf16FromUtf8 (utf8_of_char ch ++ rest) = Done (ch, rest).
Proof.
  intros Hch. destruct (utf8_head false ch Hch) as (b & tl & -> & Hb & H). specialize (H rest).
  unfold reads in H. rewrite u16_byte in H by (unfold byte_ok; lia).
  unfold GetUtf16FromUtf8. cbn [app next_byte mbind cres_bind]. unfold wide, char in H.
  destruct H as [(_ & -> & -> & ->)|(_ & _ & H1 & H)].
  - cbn. rewrite uwrap_small; [done|]. unfold in_u in *. lia.
  - apply Z.eqb_neq in H1. by rewrite H1.
Qed.

(** ** Strings *)

Lemma utf8_cons ch s : utf8 (ch :: s) = utf8_of_char ch ++ utf8 s.
Proof. done. Qed.

Lemma utf8_app s t : utf8 (s ++ t) = utf8 s ++ utf8 t.
Proof. unfold utf8. by rewrite map_app, concat_app. Qed.

(** The characters of [s] as they lie in memory: their bytes, a zero byte, and
    whatever is behind. *)
Definition utf8z (s rest : list Z) : list Z := utf8 s ++ 0 :: rest.

Lemma utf8z_cons ch s rest : utf8z (ch :: s) rest = utf8_of_char ch ++ utf8z s rest.
Proof. unfold utf8z. by rewrite utf8_cons, <- app_assoc. Qed.

Lemma utf8z_head ch s rest : in_u 16 ch -> exists b, head (utf8z (ch :: s) rest) = Some b /\ 0 < b.
Proof.
  intros Hch. rewrite utf8z_cons. destruct (utf8_head false ch Hch) as (b & tl & -> & Hb & _).
  exists b. split; [done|lia].
Qed.

Lemma utf8z_length s rest : Forall (in_u 16) s -> (length s < length (utf8z s rest))%nat.
Proof.
  induction 1 as [|ch s Hch _ IH]; [cbn; lia|]. rewrite utf8z_cons, length_app.
  destruct (utf8_head false ch Hch) as (b & tl & -> & _). cbn [length]. lia.
Qed.

Lemma utf8_nonzero s : Forall (in_u 16) s -> Forall (fun b => 0 < b < 256) (utf8 s).
Proof.
  induction 1 as [|ch s Hch _ IH]; [constructor|]. rewrite utf8_cons. apply Forall_app. split; [|done].
  destruct (utf8_of_char_form ch Hch); repeat constructor; lia.
Qed.

Lemma convert_out s : ConvertUtf16ToModifiedUtf8 s (length s) = Done (utf8 s).
Proof. induction s as [|ch s IH]; [done|]. cbn [ConvertUtf16ToModifiedUtf8 length]. by rewrite IH. Qed.

Lemma count_bytes s : CountUtf8Bytes s (length s) = Done (Z.of_nat (length (utf8 s))).
Proof.
  induction s as [|ch s IH]; [done|]. cbn [CountUtf8Bytes length]. rewrite IH, utf8_cons, length_app.
  unfold utf8_of_char. cbn [mbind cres_bind].
  destruct ((0 <? ch) && (ch <=? 0x7f)); [|destruct (0x7ff <? ch)]; f_equal; cbn [length]; lia.
Qed.

Lemma convert_in_loop fuel s rest : Forall (in_u 16) s -> (length s <= fuel)%nat ->
  convert_to_utf16_loop fuel (utf8z s rest) = Done s.
Proof.
  intros Hs. revert fuel. induction Hs as [|ch s Hch _ IH]; intros fuel Hf; [by destruct fuel|].
  destruct fuel as [|f]; cbn [length] in Hf; [lia|]. cbn [convert_to_utf16_loop].
  destruct (utf8z_head ch s rest Hch) as (b & -> & Hb). cbn [deref mbind cres_bind].
  rewrite (proj2 (Z.eqb_neq b 0)) by lia. rewrite utf8z_cons, GetUtf16FromUtf8_spec by done.
  cbn [mbind cres_bind]. by rewrite IH by lia.
Qed.

Lemma count_chars_step fuel ch s rest len : in_u 16 ch ->
  count_chars_loop (S fuel) (utf8z (ch :: s) rest) len = count_chars_loop fuel (utf8z s rest) (len + 1).
Proof.
  intros Hch. rewrite utf8z_cons.
  destruct (utf8_of_char_form ch Hch) as [H|a b -> Ha Hb H|a b c -> Ha Hb Hc H];
    cbn [count_chars_loop app next_byte mbind cres_bind].
  - rewrite (proj2 (Z.eqb_neq ch 0)) by lia. by destruct (char_small false ch ltac:(lia)) as [_ ->].
  - destruct (char_first2 false a Ha) as (H1 & H2 & H3 & _).
    rewrite u16_byte in * by (unfold byte_ok; lia). apply Z.eqb_neq in H1, H2. by rewrite H1, H2, H3.
  - destruct (char_first3 false a Ha) as (H1 & H2 & H3 & _).
    rewrite u16_byte in * by (unfold byte_ok; lia). apply Z.eqb_neq in H1, H2, H3. by rewrite H1, H2, H3.
Qed.

Lemma count_chars_loop_ok fuel s rest len : Forall (in_u 16) s -> (length s <= fuel)%nat ->
  count_chars_loop fuel (utf8z s rest) len = Done (len + Z.of_nat (length s)).
Proof.
  intros Hs. revert fuel len. induction Hs as [|ch s Hch _ IH]; intros fuel len Hf.
  { destruct fuel; cbn; f_equal; lia. }
  destruct fuel as [|f]; cbn [length] in *; [lia|].
  rewrite count_chars_step, IH by (done || lia). f_equal. lia.
Qed.

(** Modified UTF-8 is a round trip.  Every list of UTF-16 characters, zeros
    and lone surrogates included, is written as as many bytes as CountUtf8Bytes
    says, none of them zero; of these bytes behind which a zero lies,
    CountModifiedUtf8Chars counts the characters and ConvertModifiedUtf8ToUtf16
    gives them back. *)
Theorem modified_utf8_roundtrip s rest (Hs : Forall (in_u 16) s) :
  exists bs, ConvertUtf16ToModifiedUtf8 s (length s) = Done bs /\
    CountUtf8Bytes s (length s) = Done (Z.of_nat (length bs)) /\
    Forall (fun b => 0 < b < 256) bs /\
    CountModifiedUtf8Chars (bs ++ 0 :: rest) = Done (Z.of_nat (length s)) /\
    ConvertModifiedUtf8ToUtf16 (bs ++ 0 :: rest) = Done s.
Proof.
  exists (utf8 s). split_and!; [apply convert_out|apply count_bytes|by apply utf8_nonzero| |];
    fold (utf8z s rest); pose proof (utf8z_length s rest Hs).
  - unfold CountModifiedUtf8Chars. rewrite count_chars_loop_ok by (done || lia). done.
  - apply convert_in_loop; [done|lia].
Qed.

(** ** Order *)

(** The order of UTF-16 strings, by their first difference. *)
Fixpoint compareTo (s t : list Z) : Z :=
  match s, t with
  | [], [] => 0
  | [], _ => -1
  | _, [] => 1
  | a :: s, b :: t => if a =? b then compareTo s t else a - b
  end.

Lemma compare_step sg f c d b1 b2 p1 p2 q1 q2 : reads sg c b1 p1 q1 -> reads sg d b2 p2 q2 ->
  compare_loop sg (S f) (b1 :: p1) (b2 :: p2) = if c =? d then compare_loop sg f q1 q2 else Done (c - d).
Proof.
  unfold reads. cbn [compare_loop next_byte mbind cres_bind].
  generalize (u16 (char sg b1)), (u16 (char sg b2)). intros c1 c2.
  intros [(Hc & -> & L1 & ->)|(Hc & Hc1 & L1 & W1)] [(Hd & -> & L2 & ->)|(Hd & Hc2 & L2 & W2)];
    repeat (match goal with
            | |- context [?x =? 0] => first [rewrite (proj2 (Z.eqb_neq x 0)) by lia | rewrite (proj2 (Z.eqb_eq x 0)) by lia]
            end); rewrite ?W1, ?W2; cbn [mbind cres_bind].
  - by destruct (c =? d).
  - rewrite (proj2 (Z.eqb_neq c d)) by lia. destruct (Z.eqb_spec c c2) as [<-|]; [lia|]. done.
  - by rewrite (proj2 (Z.eqb_neq c d)) by lia.
  - done.
Qed.

(** At the end of one string. *)
Lemma compare_end sg f d b p q r : reads sg d b p q ->
  compare_loop sg (S f) (0 :: r) (b :: p) = Done (-1) /\ compare_loop sg (S f) (b :: p) (0 :: r) = Done 1.
Proof.
  unfold reads. cbn [compare_loop next_byte mbind cres_bind].
  assert (u16 (char sg 0) = 0) as -> by (by destruct sg). cbn.
  generalize (u16 (char sg b)). intros c H.
  assert (c <> 0) as ->%Z.eqb_neq by (destruct H as [(? & ? & _)|(_ & ? & _)]; lia). done.
Qed.

Lemma compare_loop_ok sg fuel s t r1 r2 : Forall (in_u 16) s -> Forall (in_u 16) t -> (length s < fuel)%nat ->
  compare_loop sg fuel (utf8z s r1) (utf8z t r2) = Done (compareTo s t).
Proof.
  intros Hs. revert fuel t. induction Hs as [|c s Hc _ IH]; intros fuel t Ht Hf;
    (destruct fuel as [|f]; [cbn in Hf; lia|]); destruct Ht as [|d t Hd Ht].
  - by destruct sg.
  - rewrite utf8z_cons. destruct (utf8_head sg d Hd) as (b & tl & -> & _ & H).
    apply (compare_end sg f d b _ _ r1 (H (utf8z t r2))).
  - rewrite utf8z_cons. destruct (utf8_head sg c Hc) as (b & tl & -> & _ & H).
    apply (compare_end sg f c b _ _ r2 (H (utf8z s r1))).
  - rewrite !utf8z_cons. destruct (utf8_head sg c Hc) as (b1 & tl1 & -> & _ & H1).
    destruct (utf8_head sg d Hd) as (b2 & tl2 & -> & _ & H2). cbn [app].
    rewrite (compare_step sg f c d _ _ _ _ _ _ (H1 (utf8z s r1)) (H2 (utf8z t r2))).
    cbn [compareTo length] in *. destruct (c =? d); [|done]. apply IH; [done|lia].
Qed.

Lemma compare_utf8_ok sg s t r1 r2 : Forall (in_u 16) s -> Forall (in_u 16) t ->
  CompareModifiedUtf8ToModifiedUtf8AsUtf16CodePointValues sg (utf8z s r1) (utf8z t r2) = Done (compareTo s t).
Proof. intros Hs Ht. apply compare_loop_ok; [done..|]. pose proof (utf8z_length s r1 Hs). lia. Qed.

(** [compareTo] is a strict total order. *)
Lemma compareTo_refl s : compareTo s s = 0.
Proof. induction s as [|c s IH]; [done|]. cbn. by rewrite Z.eqb_refl. Qed.

Lemma compareTo_eq s t : compareTo s t = 0 -> s = t.
Proof.
  revert t. induction s as [|c s IH]; intros [|d t]; cbn; try done.
  destruct (Z.eqb_spec c d) as [->|]; [|lia]. intros. f_equal. by apply IH.
Qed.

Lemma compareTo_antisym s t : compareTo s t = - compareTo t s.
Proof.
  revert t. induction s as [|c s IH]; intros [|d t]; cbn; try done.
  rewrite (Z.eqb_sym d c). destruct (Z.eqb_spec c d); [apply IH|lia].
Qed.

Lemma compareTo_trans s t u : compareTo s t < 0 -> compareTo t u < 0 -> compareTo s u < 0.
Proof.
  revert t u. induction s as [|c s IH]; intros [|d t] [|e u]; cbn; try lia.
  destruct (Z.eqb_spec c d) as [->|], (Z.eqb_spec d e) as [->|]; try lia.
  - apply IH.
  - rewrite (proj2 (Z.eqb_neq c e)) by lia. lia.
  - intros. rewrite (proj2 (Z.eqb_neq c e)) by lia. lia.
Qed.

(** Strings in modified UTF-8 are compared as UTF-16 strings.  Whether char
    is signed or not, the comparison of two encoded strings returns, and gives
    the difference of the first characters that differ, -1 or 1 when one string
    is a prefix of the other, and 0 exactly for equal strings. *)
Theorem compare_modified_utf8 sg s t r1 r2 (Hs : Forall (in_u 16) s) (Ht : Forall (in_u 16) t) :
  CompareModifiedUtf8ToModifiedUtf8AsUtf16CodePointValues sg (utf8z s r1) (utf8z t r2) = Done (compareTo s t) /\
  (compareTo s t = 0 <-> s = t).
Proof.
  split; [by apply compare_utf8_ok|]. split; [apply compareTo_eq|]. intros <-. apply compareTo_refl.
Qed.

(** The comparison with a UTF-16 string only ever looks at its first character:
    a string that is not empty is equal to none. *)
Lemma compare_utf16_loop_first fuel s d t r : Forall (in_u 16) s -> d <> 0 -> (length s < fuel)%nat ->
  exists v, compare_utf16_loop fuel (utf8z s r) (d :: t) = Done v /\ v <> 0.
Proof.
  intros Hs Hd. revert fuel. induction Hs as [|c s Hc _ IH]; intros fuel Hf;
    (destruct fuel as [|f]; [cbn in Hf; lia|]); cbn [compare_utf16_loop head].
  - cbn. rewrite (proj2 (Z.eqb_neq d 0)) by done. by exists (-1).
  - destruct (utf8z_head c s r Hc) as (b & -> & Hb). cbn [deref mbind cres_bind].
    rewrite (proj2 (Z.eqb_neq b 0)), (proj2 (Z.eqb_neq d 0)) by lia.
    rewrite utf8z_cons, GetUtf16FromUtf8_spec by done. cbn [mbind cres_bind].
    destruct (c =? d); [apply IH; cbn in Hf; lia|]. destruct (d <? c); eauto.
Qed.

Lemma compare_utf16_first s d t r : Forall (in_u 16) s -> d <> 0 ->
  exists v, CompareModifiedUtf8ToUtf16AsCodePointValues (utf8z s r) (d :: t) = Done v /\ v <> 0.
Proof.
  intros Hs Hd. apply compare_utf16_loop_first; [done..|]. pose proof (utf8z_length s r Hs). lia.
Qed.

(** ** String.hashCode *)

(** [s[0]*31^(n-1) + ... + s[n-1]], the sum java.lang.String documents. *)
Fixpoint polynomial (s : list Z) : Z :=
  match s with
  | [] => 0
  | c :: s => c * 31 ^ Z.of_nat (length s) + polynomial s
  end.

Lemma swrap_swrap_affine w h k c : 0 < w -> swrap w (swrap w h * k + c) = swrap w (h * k + c).
Proof.
  intros Hw. unfold swrap at 2. set (m := 2 ^ w). set (x := h + 2 ^ (w - 1)).
  pose proof (Z.div_mod x m ltac:(apply Z.pow_nonzero; lia)) as E.
  replace ((x mod m - 2 ^ (w - 1)) * k + c) with ((h * k + c) + (- (x / m) * k) * m) by (subst x; nia).
  by apply swrap_plus.
Qed.

Lemma hash_loop_ok h s : hash_loop (s32 h) s (length s) = Done (s32 (h * 31 ^ Z.of_nat (length s) + polynomial s)).
Proof.
  revert h. induction s as [|c s IH]; intros h; cbn [hash_loop length polynomial].
  - do 2 f_equal. cbn. lia.
  - rewrite swrap_swrap_affine by lia. rewrite IH. do 2 f_equal. rewrite Nat2Z.inj_succ, Z.pow_succ_r by lia. lia.
Qed.

Lemma hash_array_loop_ok h chars offset i n : 0 <= offset -> offset + Z.of_nat (i + n) <= Z.of_nat (length chars) ->
  Z.of_nat (length chars) < 2 ^ 31 ->
  hash_array_loop h chars offset i n = hash_loop h (take n (drop (Z.to_nat offset + i) chars)) n.
Proof.
  intros Ho Hl Hlen. revert h i Hl. induction n as [|n IH]; intros h i Hl; [done|]. cbn [hash_array_loop].
  rewrite (swrap_small 32) by (unfold in_s; lia). rewrite (proj2 (Z.ltb_ge _ 0)) by lia.
  replace (Z.to_nat (offset + Z.of_nat i)) with (Z.to_nat offset + i)%nat by lia.
  destruct (lookup_lt_is_Some_2 chars (Z.to_nat offset + i)) as [c Hc]; [lia|].
  rewrite (drop_S _ _ _ Hc), Hc. cbn [deref mbind cres_bind take hash_loop].
  rewrite IH by lia. by replace (S (Z.to_nat offset + i)) with (Z.to_nat offset + S i)%nat by lia.
Qed.

(** Both ComputeUtf16Hash functions compute String.hashCode().  For every
    part of a character array that lies within it, the one that indexes the
    array and the one that walks a pointer to the part give the polynomial of
    java.lang.String, wrapped to an int. *)
Theorem utf16_hash_is_hashCode chars offset n
    (Ho : 0 <= offset) (Hl : offset + Z.of_nat n <= Z.of_nat (length chars))
    (Hlen : Z.of_nat (length chars) < 2 ^ 31) :
  let s := take n (drop (Z.to_nat offset) chars) in
  ComputeUtf16Hash_array chars offset n = Done (s32 (polynomial s)) /\
  ComputeUtf16Hash (drop (Z.to_nat offset) chars) n = Done (s32 (polynomial s)).
Proof.
  intros s. assert (length s = n) as Hs by (subst s; rewrite length_take, length_drop; lia).
  pose proof (hash_loop_ok 0 s) as E. rewrite Hs in E. change (s32 0) with 0 in E.
  unfold ComputeUtf16Hash_array, ComputeUtf16Hash. rewrite hash_array_loop_ok, Nat.add_0_r by lia.
  rewrite Z.mul_0_l, Z.add_0_l in E. split; [exact E|]. rewrite <- E. subst s. clear. generalize (drop (Z.to_nat offset) chars) 0.
  induction n as [|n IH]; intros [|c l] h; try done. cbn [hash_loop take]. apply IH.
Qed.

(** The hash of a string in modified UTF-8 is one of its bytes alone. *)
Definition bytes_hash (sg : bool) (w h : Z) (bs : list Z) : Z :=
  fold_left (fun h b => uwrap w (h * 31 + char sg b)) bs h.

Lemma utf8_hash_ok sg w s rest : Forall (in_u 16) s ->
  ComputeModifiedUtf8Hash sg w (utf8z s rest) = Done (bytes_hash sg w 0 (utf8 s)).
Proof.
  intros Hs%utf8_nonzero. unfold ComputeModifiedUtf8Hash, utf8z. generalize 0 at 1 3. revert Hs. generalize (utf8 s).
  induction 1 as [|b bs Hb _ IH]; intros h; [done|]. cbn [app utf8_hash_loop].
  rewrite (proj2 (Z.eqb_neq b 0)) by lia. apply IH.
Qed.

(** ** The theorems at work *)

(** A string with a zero, a Latin, a Chinese character and a surrogate. *)
Definition demo_string : list Z := [0; 65; 0xe9; 0x4e2d; 0xd83d].

Lemma demo_string_ok : Forall (in_u 16) demo_string.
Proof. repeat constructor; vm_compute; congruence. Qed.

Lemma modified_utf8_roundtrip_witness :
  exists bs, ConvertUtf16ToModifiedUtf8 demo_string 5 = Done bs /\
    CountUtf8Bytes demo_string 5 = Done (Z.of_nat (length bs)) /\
    Forall (fun b => 0 < b < 256) bs /\
    CountModifiedUtf8Chars (bs ++ 0 :: [7]) = Done 5 /\
    ConvertModifiedUtf8ToUtf16 (bs ++ 0 :: [7]) = Done demo_string.
Proof. exact (modified_utf8_roundtrip demo_string [7] demo_string_ok). Defined.

Lemma compare_modified_utf8_witness :
  CompareModifiedUtf8ToModifiedUtf8AsUtf16CodePointValues true (utf8z demo_string []) (utf8z [0; 65; 66] []) = Done 167 /\
  (compareTo demo_string [0; 65; 66] = 0 <-> demo_string = [0; 65; 66]).
Proof.
  refine (compare_modified_utf8 true demo_string [0; 65; 66] [] [] demo_string_ok _).
  repeat constructor; vm_compute; congruence.
Defined.

Lemma utf16_hash_is_hashCode_witness :
  ComputeUtf16Hash_array [120; 104; 101; 108; 108; 111] 1 5 = Done 99162322 /\
  ComputeUtf16Hash (drop 1 [120; 104; 101; 108; 108; 111]) 5 = Done 99162322.
Proof. apply (utf16_hash_is_hashCode [120; 104; 101; 108; 108; 111] 1 5); vm_compute; congruence. Defined.
