(* ===== verification/HashSet.v ===== *)
(** * HashSet: the hash table of the runtime
      (android_art-xposed-lollipop-mr1/runtime/base/hash_set.h)

    An open hash table with linear probing, behind the class tables, the
    string tables and the class index of a dex file.  A bucket is [None] where
    the template's IsEmpty holds of it.  The load factors are the defaults,
    1/2 and 9/10; for the sizes a table can have, truncating the double
    product is the division written here.  Sizes and indices are natural
    numbers: they count buckets, which lie in memory. *)

From S2P Require Import Prelude.

Definition kMinBuckets : nat := 1000.

Record HashSet (T : Type) := {
  num_elements_ : nat;
  num_buckets_ : nat;
  elements_until_expand_ : nat;
  data_ : list (option T)
}.
Arguments num_elements_ {T} _.
Arguments num_buckets_ {T} _.
Arguments elements_until_expand_ {T} _.
Arguments data_ {T} _.

Section Ops.
Context {T : Type} (hashfn : T -> Z).

(** Without buckets the division traps; the loops below then have no round to
    run and fault as well. *)
Definition IndexForHash (h : HashSet T) (hash : Z) : nat := Z.to_nat (hash mod Z.of_nat (num_buckets_ h)).

Definition NextIndex (h : HashSet T) (index : nat) : nat :=
  if (num_buckets_ h <=? S index)%nat then 0%nat else S index.

(** [data_[index]]. *)
Definition ElementForIndex (h : HashSet T) (index : nat) : cres (option T) := deref (data_ h !! index).

Definition IsFreeSlot (h : HashSet T) (index : nat) : cres bool :=
  e ← ElementForIndex h index; Done (match e with None => true | Some _ => false end).

Definition AllocateStorage (h : HashSet T) (num_buckets : nat) : HashSet T :=
  {| num_elements_ := num_elements_ h; num_buckets_ := num_buckets;
     elements_until_expand_ := elements_until_expand_ h; data_ := replicate num_buckets None |}.

Definition set_data (h : HashSet T) (index : nat) (e : option T) : HashSet T :=
  {| num_elements_ := num_elements_ h; num_buckets_ := num_buckets_ h;
     elements_until_expand_ := elements_until_expand_ h; data_ := <[index := e]> (data_ h) |}.
Definition set_num_elements (h : HashSet T) (n : nat) : HashSet T :=
  {| num_elements_ := n; num_buckets_ := num_buckets_ h;
     elements_until_expand_ := elements_until_expand_ h; data_ := data_ h |}.
Definition set_until_expand (h : HashSet T) (n : nat) : HashSet T :=
  {| num_elements_ := num_elements_ h; num_buckets_ := num_buckets_ h;
     elements_until_expand_ := n; data_ := data_ h |}.

Definition Clear (h : HashSet T) : HashSet T :=
  set_until_expand (set_num_elements (AllocateStorage h 1) 0) 0.

(** The default constructor. *)
Definition make_HashSet : HashSet T :=
  Clear {| num_elements_ := 0; num_buckets_ := 0; elements_until_expand_ := 0; data_ := [] |}.

Fixpoint FirstAvailableSlot (fuel : nat) (h : HashSet T) (index : nat) : cres nat :=
  match fuel with
  | O => Fault OutOfFuel
  | S f =>
      free ← IsFreeSlot h index;
      if free : bool then Done index else FirstAvailableSlot f h (NextIndex h index)
  end.

(** One round of Resize: the element moves to its place in the new buckets. *)
Definition reinsert (h : HashSet T) (element : option T) : cres (HashSet T) :=
  match element with
  | None => Done h
  | Some x =>
      slot ← FirstAvailableSlot (num_buckets_ h) h (IndexForHash h (hashfn x));
      Done (set_data h slot (Some x))
  end.

Fixpoint reinsert_all (h : HashSet T) (old_data : list (option T)) : cres (HashSet T) :=
  match old_data with
  | [] => Done h
  | e :: old_data => h ← reinsert h e; reinsert_all h old_data
  end.

Definition Resize (h : HashSet T) (new_size : nat) : cres (HashSet T) :=
  reinsert_all (AllocateStorage h new_size) (data_ h).

Definition Expand (h : HashSet T) : cres (HashSet T) :=
  let min_index := (num_elements_ h * 2)%nat in
  let min_index := if (min_index <? kMinBuckets)%nat then kMinBuckets else min_index in
  h ← Resize h min_index;
  Done (set_until_expand h (num_buckets_ h * 9 / 10)).

Definition InsertWithHash (h : HashSet T) (element : T) (hash : Z) : cres (HashSet T) :=
  h ← (if (elements_until_expand_ h <=? num_elements_ h)%nat then Expand h else Done h);
  index ← FirstAvailableSlot (num_buckets_ h) h (IndexForHash h hash);
  let h := set_data h index (Some element) in
  Done (set_num_elements h (S (num_elements_ h))).

Definition Insert (h : HashSet T) (element : T) : cres (HashSet T) :=
  InsertWithHash h element (hashfn element).

Definition ShrinkToMaximumLoad (h : HashSet T) : cres (HashSet T) :=
  Resize h (num_elements_ h * 10 / 9).

(** [end()]. *)
Definition end_ (h : HashSet T) : nat := num_buckets_ h.

Fixpoint find_loop (fuel : nat) (h : HashSet T) (is_element : T -> bool) (index : nat) : cres nat :=
  match fuel with
  | O => Fault OutOfFuel
  | S f =>
      slot ← ElementForIndex h index;
      match slot with
      | None => Done (end_ h)
      | Some x => if is_element x then Done index else find_loop f h is_element (NextIndex h index)
      end
  end.

(** [is_element] is [pred_] applied to the element looked for. *)
Definition FindWithHash (h : HashSet T) (is_element : T -> bool) (hash : Z) : cres nat :=
  find_loop (num_buckets_ h) h is_element (IndexForHash h hash).

(** [Iterator::NextNonEmptySlot]; [fuel] rounds reach the end. *)
Fixpoint next_non_empty (fuel : nat) (h : HashSet T) (index : nat) : cres nat :=
  let index := S index in
  if (index <? num_buckets_ h)%nat then
    free ← IsFreeSlot h index;
    if free : bool then
      match fuel with O => Fault OutOfFuel | S f => next_non_empty f h index end
    else Done index
  else Done index.

Definition NextNonEmptySlot (h : HashSet T) (index : nat) : cres nat := next_non_empty (num_buckets_ h) h index.

Definition begin_ (h : HashSet T) : cres nat :=
  if (num_buckets_ h =? 0)%nat then Done 0%nat
  else free ← IsFreeSlot h 0; if free : bool then NextNonEmptySlot h 0 else Done 0%nat.

Definition Empty (h : HashSet T) : cres bool := b ← begin_ h; Done (b =? end_ h)%nat.

(** The loop of Erase: the buckets, and whether the slot was filled. *)
Fixpoint erase_loop (fuel : nat) (h : HashSet T) (empty_index next_index : nat) (filled : bool)
    : cres (HashSet T * bool) :=
  match fuel with
  | O => Fault OutOfFuel
  | S f =>
      let next_index := NextIndex h next_index in
      next_element ← ElementForIndex h next_index;
      match next_element with
      | None => Done (set_data h empty_index None, filled)
      | Some x =>
          let next_ideal_index := IndexForHash h (hashfn x) in
          let unwrapped_next_index :=
            if (next_index <? empty_index)%nat then (next_index + num_buckets_ h)%nat else next_index in
          let unwrapped_next_ideal_index :=
            if (next_ideal_index <? empty_index)%nat then (next_ideal_index + num_buckets_ h)%nat
            else next_ideal_index in
          if (unwrapped_next_ideal_index <=? empty_index)%nat
             || (unwrapped_next_index <? unwrapped_next_ideal_index)%nat
          then erase_loop f (set_data h empty_index (Some x)) next_index next_index true
          else erase_loop f h empty_index next_index filled
      end
  end.

(** The table without the element at [it], and the iterator returned. *)
Definition Erase (h : HashSet T) (it : nat) : cres (HashSet T * nat) :=
  '(h, filled) ← erase_loop (num_buckets_ h) h it it false;
  let h := set_num_elements h (num_elements_ h - 1) in
  it ← (if filled : bool then Done it else NextNonEmptySlot h it);
  Done (h, it).

(** One round of Verify: does the element reinsert in its own bucket? *)
Definition verify_slot (h : HashSet T) (i : nat) : cres bool :=
  e ← ElementForIndex h i;
  match e with
  | None => Done true
  | Some x =>
      first_slot ← FirstAvailableSlot (num_buckets_ h) (set_data h i None) (IndexForHash h (hashfn x));
      Done (i =? first_slot)%nat
  end.

Fixpoint verify_loop (h : HashSet T) (i n : nat) : cres nat :=
  match n with
  | O => Done 0%nat
  | S n => ok ← verify_slot h i; errors ← verify_loop h (S i) n; Done (if ok : bool then errors else S errors)
  end.

Definition Verify (h : HashSet T) : cres nat := verify_loop h 0 (num_buckets_ h).

End Ops.

(** ** Positions around the table *)

(** [d] buckets behind bucket [h] of [n], and how far bucket [i] is behind. *)
Definition pos (n h d : nat) : nat := if (h + d <? n)%nat then (h + d)%nat else (h + d - n)%nat.
Definition dist (n h i : nat) : nat := if (h <=? i)%nat then (i - h)%nat else (i + n - h)%nat.

Ltac around :=
  unfold pos, dist in *;
  repeat match goal with
  | |- context [(?a <? ?b)%nat] => destruct (Nat.ltb_spec a b)
  | |- context [(?a <=? ?b)%nat] => destruct (Nat.leb_spec a b)
  | H : context [(?a <? ?b)%nat] |- _ => destruct (Nat.ltb_spec a b)
  | H : context [(?a <=? ?b)%nat] |- _ => destruct (Nat.leb_spec a b)
  end; try lia.

Lemma pos_lt n h d : (h < n)%nat -> (d <= n)%nat -> (pos n h d < n)%nat.
Proof. intros. around. Qed.
Lemma dist_lt n h i : (h < n)%nat -> (i < n)%nat -> (dist n h i < n)%nat.
Proof. intros. around. Qed.
Lemma pos_dist n h i : (h < n)%nat -> (i < n)%nat -> pos n h (dist n h i) = i.
Proof. intros. around. Qed.
Lemma dist_pos n h d : (h < n)%nat -> (d < n)%nat -> dist n h (pos n h d) = d.
Proof. intros. around. Qed.
Lemma pos_0 n h : (h < n)%nat -> pos n h 0 = h.
Proof. intros. around. Qed.

(** The least number with a decidable property. *)
Lemma least_nat (P : nat -> Prop) `{!forall d, Decision (P d)} m : P m ->
  exists d, (d <= m)%nat /\ P d /\ forall d', (d' < d)%nat -> ~ P d'.
Proof.
  induction m as [m IH] using lt_wf_ind. intros Hm.
  destruct (decide (Exists P (seq 0 m))) as [(d' & Hd & HP)%Exists_exists|Hno].
  - apply elem_of_seq in Hd. destruct (IH d' ltac:(lia) HP) as (d & Hle & HP' & Hl).
    exists d. split; [lia|done].
  - exists m. split; [lia|]. split; [done|]. intros d' Hd HP. apply Hno, Exists_exists.
    exists d'. split; [apply elem_of_seq; lia|done].
Qed.

(** ** What the buckets hold *)

Definition full {T} (data : list (option T)) (i : nat) : Prop := exists x, data !! i = Some (Some x).

(** The elements, in the order of their buckets. *)
Fixpoint elems {T} (data : list (option T)) : list T :=
  match data with
  | [] => []
  | None :: data => elems data
  | Some x :: data => x :: elems data
  end.

Section Elems.
Context {T : Type}.
Implicit Types data : list (option T).

Lemma elem_of_elems data x : x ∈ elems data <-> exists i, data !! i = Some (Some x).
Proof.
  rewrite <- list_elem_of_lookup. induction data as [|[y|] data IH]; cbn.
  - split; intros H; inversion H.
  - rewrite !elem_of_cons, IH. split; intros [H|H]; auto; [by left; f_equal|left; congruence].
  - rewrite elem_of_cons, IH. split; [auto|]. by intros [H|H].
Qed.

Lemma elems_set data i e x : data !! i = Some e ->
  elems (<[i := Some x]> data) ≡ₚ x :: elems (<[i := None]> data).
Proof.
  revert i. induction data as [|y data IH]; intros i; [done|]. destruct i as [|i]; cbn; [done|].
  intros Hi. destruct y; rewrite (IH _ Hi); [constructor|done].
Qed.

Lemma elems_insert data i x : data !! i = Some None -> elems (<[i := Some x]> data) ≡ₚ x :: elems data.
Proof. intros Hi. rewrite (elems_set _ _ _ _ Hi). by rewrite (list_insert_id data i None). Qed.

Lemma elems_remove data i x : data !! i = Some (Some x) -> elems data ≡ₚ x :: elems (<[i := None]> data).
Proof. intros Hi. rewrite <- (list_insert_id data i (Some x)) at 1 by done. by apply elems_set with (Some x). Qed.

Lemma elems_le data : (length (elems data) <= length data)%nat.
Proof. induction data as [|[y|] data IH]; cbn; lia. Qed.

Lemma free_exists data : (length (elems data) < length data)%nat -> exists i, data !! i = Some None.
Proof.
  induction data as [|[y|] data IH]; cbn; intros H; [lia| |by exists 0%nat].
  destruct IH as [i Hi]; [lia|]. by exists (S i).
Qed.

Lemma elems_replicate n : elems (replicate n (None : option T)) = [].
Proof. by induction n. Qed.

Lemma free_or_full data i : (i < length data)%nat -> data !! i = Some None \/ full data i.
Proof. intros [[y|] Hi]%lookup_lt_is_Some_2; [right; by exists y|by left]. Qed.

Definition freeb data (i : nat) : bool := match data !! i with Some None => true | _ => false end.
Lemma freeb_true data i : freeb data i = true <-> data !! i = Some None.
Proof. unfold freeb. by destruct (data !! i) as [[]|]. Qed.

(** The first free bucket from bucket [h] on. *)
Lemma first_free data h : (h < length data)%nat -> (length (elems data) < length data)%nat ->
  exists d, (d < length data)%nat /\ data !! pos (length data) h d = Some None /\
    forall d', (d' < d)%nat -> full data (pos (length data) h d').
Proof.
  intros Hh (i & Hi)%free_exists. pose proof (lookup_lt_Some _ _ _ Hi) as Hlt.
  destruct (least_nat (fun d => freeb data (pos (length data) h d) = true) (dist (length data) h i))
    as (d & Hle & HP & Hl).
  { rewrite pos_dist by done. by apply freeb_true. }
  pose proof (dist_lt _ _ _ Hh Hlt). exists d. split; [lia|]. split; [by apply freeb_true|].
  intros d' Hd'. destruct (free_or_full data (pos (length data) h d')) as [E|]; [apply pos_lt; lia| |done].
  exfalso. apply (Hl d' Hd'). by apply freeb_true.
Qed.

End Elems.

(** ** The invariant *)

Section Correct.
Context {T : Type} (hashfn : T -> Z).

(** Where an element belongs in [n] buckets. *)
Definition ideal (n : nat) (x : T) : nat := Z.to_nat (hashfn x mod Z.of_nat n).

(** No free bucket lies between where an element belongs and where it is. *)
Definition probed (data : list (option T)) : Prop :=
  forall i x, data !! i = Some (Some x) ->
    forall d, (d < dist (length data) (ideal (length data) x) i)%nat ->
      full data (pos (length data) (ideal (length data) x) d).

Record wf (h : HashSet T) : Prop := {
  wf_buckets : length (data_ h) = num_buckets_ h;
  wf_count : length (elems (data_ h)) = num_elements_ h;
  wf_room : (num_elements_ h < num_buckets_ h)%nat;
  wf_expand : (elements_until_expand_ h < num_buckets_ h)%nat;
  wf_probed : probed (data_ h)
}.

Lemma ideal_lt n x : (0 < n)%nat -> (ideal n x < n)%nat.
Proof. intros. unfold ideal. pose proof (Z.mod_pos_bound (hashfn x) (Z.of_nat n)). lia. Qed.

Lemma full_insert (data : list (option T)) i j x : full data j -> full (<[i := Some x]> data) j.
Proof.
  intros [y Hy]. pose proof (lookup_lt_Some _ _ _ Hy). destruct (decide (i = j)) as [->|Hne].
  - exists x. by apply list_lookup_insert_eq.
  - exists y. by rewrite list_lookup_insert_ne.
Qed.

Lemma probed_insert data d x : let n := length data in
  (d < n)%nat -> probed data -> (forall d', (d' < d)%nat -> full data (pos n (ideal n x) d')) ->
  probed (<[pos n (ideal n x) d := Some x]> data).
Proof.
  intros n Hd Hp Hfull i y. unfold probed. rewrite length_insert. fold n.
  assert (ideal n x < n)%nat by (apply ideal_lt; lia).
  intros Hy d' Hd'. destruct (decide (pos n (ideal n x) d = i)) as [<-|Hne].
  - rewrite list_lookup_insert_eq in Hy by (apply pos_lt; lia). injection Hy as <-.
    rewrite dist_pos in Hd' by lia. by apply full_insert, Hfull.
  - rewrite list_lookup_insert_ne in Hy by done. apply full_insert. by eapply Hp.
Qed.

Lemma NextIndex_pos (h : HashSet T) index d : (index < num_buckets_ h)%nat -> (d < num_buckets_ h)%nat ->
  NextIndex h (pos (num_buckets_ h) index d) = pos (num_buckets_ h) index (S d).
Proof. intros. unfold NextIndex. around. Qed.

Lemma NextIndex_next (h : HashSet T) index : (index < num_buckets_ h)%nat ->
  NextIndex h index = pos (num_buckets_ h) index 1.
Proof. intros. rewrite <- (pos_0 _ _ H) at 1. by apply NextIndex_pos; lia. Qed.

(** The loop finds the first free bucket. *)
Lemma slot_loop (h : HashSet T) index d k : let n := num_buckets_ h in
  (index < n)%nat -> (d < n)%nat -> (k <= d)%nat ->
  data_ h !! pos n index d = Some None -> (forall d', (d' < d)%nat -> full (data_ h) (pos n index d')) ->
  FirstAvailableSlot (n - k) h (pos n index k) = Done (pos n index d).
Proof.
  intros n Hi Hd Hk Hfree Hfull. remember (d - k)%nat as m eqn:Em. revert k Hk Em.
  induction m as [|m IH]; intros k Hk Em; (destruct (n - k)%nat as [|f] eqn:Ef; [lia|]);
    cbn [FirstAvailableSlot]; unfold IsFreeSlot, ElementForIndex.
  - replace k with d by lia. by rewrite Hfree.
  - destruct (Hfull k) as [y ->]; [lia|]. cbn. unfold n. rewrite NextIndex_pos by (fold n; lia). fold n.
    rewrite <- (IH (S k)) by lia. f_equal. lia.
Qed.

Lemma FirstAvailableSlot_ok (h : HashSet T) index : let n := num_buckets_ h in
  length (data_ h) = n -> (index < n)%nat -> (length (elems (data_ h)) < n)%nat ->
  exists d, (d < n)%nat /\ FirstAvailableSlot n h index = Done (pos n index d) /\
    data_ h !! pos n index d = Some None /\ forall d', (d' < d)%nat -> full (data_ h) (pos n index d').
Proof.
  intros n Hn Hi Hroom. destruct (first_free (data_ h) index) as (d & Hd & Hfree & Hfull); [lia..|].
  rewrite Hn in *. exists d. split_and!; try done.
  pose proof (slot_loop h index d 0) as E. cbv zeta in E. fold n in E. rewrite Nat.sub_0_r, pos_0 in E by done.
  apply E; (done || lia).
Qed.

(** Putting an element in its place, with the buckets it may be put in. *)
Lemma place_ok (h : HashSet T) x : let n := num_buckets_ h in
  length (data_ h) = n -> (length (elems (data_ h)) < n)%nat -> probed (data_ h) ->
  exists slot, FirstAvailableSlot n h (IndexForHash h (hashfn x)) = Done slot /\ (slot < n)%nat /\
    probed (<[slot := Some x]> (data_ h)) /\ elems (<[slot := Some x]> (data_ h)) ≡ₚ x :: elems (data_ h).
Proof.
  intros n Hn Hroom Hp. assert (ideal n x < n)%nat by (apply ideal_lt; lia).
  destruct (FirstAvailableSlot_ok h (ideal n x)) as (d & Hd & E & Hfree & Hfull); [done..|].
  fold n in E, Hfree, Hfull, Hd. exists (pos n (ideal n x) d). split_and!; [exact E|apply pos_lt; lia| |].
  - rewrite <- Hn. apply probed_insert; rewrite ?Hn; auto.
  - by apply elems_insert.
Qed.

(** ** Insert *)

(** The parts of the table that moving elements leaves alone. *)
Definition same_sizes (h h' : HashSet T) : Prop :=
  num_elements_ h' = num_elements_ h /\ num_buckets_ h' = num_buckets_ h /\
  elements_until_expand_ h' = elements_until_expand_ h.

Lemma reinsert_all_ok h old : length (data_ h) = num_buckets_ h ->
  (length (elems (data_ h)) + length (elems old) <= num_buckets_ h)%nat -> probed (data_ h) ->
  exists h', reinsert_all hashfn h old = Done h' /\ same_sizes h h' /\
    length (data_ h') = num_buckets_ h' /\ probed (data_ h') /\ elems (data_ h') ≡ₚ elems old ++ elems (data_ h).
Proof.
  unfold same_sizes. revert h. induction old as [|[x|] old IH]; intros h Hn Hroom Hp; cbn [reinsert_all reinsert].
  - by exists h.
  - cbn [elems length] in Hroom.
    destruct (place_ok h x) as (slot & -> & Hs & Hp' & He); [done|lia|done|]. cbn [mbind cres_bind].
    destruct (IH (set_data h slot (Some x))) as (h' & E & HS & Hn' & Hp'' & He'); cbn [set_data data_ num_buckets_].
    + by rewrite length_insert.
    + rewrite He. cbn [length]. lia.
    + done.
    + exists h'. split_and!; try done; try apply HS. cbn [set_data data_] in He'. rewrite He', He. cbn [elems app].
      by rewrite Permutation_middle.
  - by apply IH.
Qed.

Lemma probed_replicate n : probed (replicate n None).
Proof. intros i x [? _]%lookup_replicate. done. Qed.

Lemma Resize_ok h new_size : (length (elems (data_ h)) <= new_size)%nat ->
  exists h', Resize hashfn h new_size = Done h' /\ num_elements_ h' = num_elements_ h /\
    num_buckets_ h' = new_size /\ elements_until_expand_ h' = elements_until_expand_ h /\
    length (data_ h') = new_size /\ probed (data_ h') /\ elems (data_ h') ≡ₚ elems (data_ h).
Proof.
  intros Hsize. destruct (reinsert_all_ok (AllocateStorage h new_size) (data_ h)) as (h' & E & HS & Hn & Hp & He);
    cbn [AllocateStorage data_ num_buckets_]; rewrite ?length_replicate, ?elems_replicate; [done|cbn; lia|apply probed_replicate|].
  destruct HS as (H1 & H2 & H3). cbn in H1, H2, H3. exists h'. rewrite H2 in Hn. split_and!; try done.
  rewrite He. cbn [AllocateStorage data_]. by rewrite elems_replicate, app_nil_r.
Qed.

Lemma Expand_ok h : wf h -> exists h', Expand hashfn h = Done h' /\ wf h' /\
  (num_elements_ h' < elements_until_expand_ h')%nat /\ elems (data_ h') ≡ₚ elems (data_ h).
Proof.
  intros [Hn Hc Hr He Hp]. unfold Expand.
  set (m := if (num_elements_ h * 2 <? kMinBuckets)%nat then kMinBuckets else (num_elements_ h * 2)%nat).
  assert (1000 <= m /\ num_elements_ h * 2 <= m)%nat as [Hm1 Hm2].
  { unfold m, kMinBuckets. destruct (Nat.ltb_spec (num_elements_ h * 2) 1000); lia. }
  destruct (Resize_ok h m) as (h' & -> & H1 & H2 & H3 & H4 & H5 & H6); [lia|]. cbn [mbind cres_bind].
  eexists. split; [done|].
  assert (num_elements_ h' < num_buckets_ h' * 9 / 10 /\ num_buckets_ h' * 9 / 10 < num_buckets_ h')%nat as [? ?].
  { rewrite H1, H2. pose proof (Nat.div_mod_eq (m * 9) 10). pose proof (Nat.mod_upper_bound (m * 9) 10). lia. }
  split; [split|]; cbn [set_until_expand data_ num_elements_ num_buckets_ elements_until_expand_]; try done; try lia.
  by rewrite H6, H1.
Qed.

Lemma Insert_ok h x : wf h ->
  exists h', Insert hashfn h x = Done h' /\ wf h' /\ elems (data_ h') ≡ₚ x :: elems (data_ h).
Proof.
  intros Hwf. unfold Insert, InsertWithHash.
  assert (exists h1, (if (elements_until_expand_ h <=? num_elements_ h)%nat then Expand hashfn h else Done h) = Done h1
    /\ wf h1 /\ (num_elements_ h1 < elements_until_expand_ h1)%nat /\ elems (data_ h1) ≡ₚ elems (data_ h))
    as (h1 & -> & [Hn Hc Hr He Hp] & Hlt & Hel).
  { destruct (Nat.leb_spec (elements_until_expand_ h) (num_elements_ h)); [by apply Expand_ok|by exists h]. }
  cbn [mbind cres_bind]. destruct (place_ok h1 x) as (slot & -> & Hs & Hp' & Hel'); [done|lia|done|].
  cbn [mbind cres_bind]. eexists. split; [done|].
  split; [|by rewrite <- Hel].
  split; cbn; rewrite ?length_insert; try done; try lia. rewrite Hel'. cbn. lia.
Qed.

Lemma make_HashSet_wf : wf make_HashSet.
Proof. split; cbn; try lia. apply (probed_replicate 1). Qed.

(** ** Find *)

Lemma find_loop_ok h (P : T -> bool) index d k : let n := num_buckets_ h in
  (index < n)%nat -> (d < n)%nat -> (k <= d)%nat ->
  data_ h !! pos n index d = Some None -> (forall d', (d' < d)%nat -> full (data_ h) (pos n index d')) ->
  exists r, find_loop (n - k) h P (pos n index k) = Done r /\
    ((r < n)%nat /\ (exists x, data_ h !! r = Some (Some x) /\ P x = true) \/
     r = end_ h /\ forall d' x, (k <= d' < d)%nat -> data_ h !! pos n index d' = Some (Some x) -> P x = false).
Proof.
  intros n Hi Hd Hk Hfree Hfull. remember (d - k)%nat as m eqn:Em. revert k Hk Em.
  induction m as [|m IH]; intros k Hk Em; (destruct (n - k)%nat as [|f] eqn:Ef; [lia|]);
    cbn [find_loop]; unfold ElementForIndex.
  - replace k with d by lia. rewrite Hfree. exists (end_ h). split; [done|]. right. split; [done|lia].
  - destruct (Hfull k) as [y Hy]; [lia|]. rewrite Hy. cbn. destruct (P y) eqn:EP.
    + exists (pos n index k). split; [done|]. left. split; [apply pos_lt; lia|eauto].
    + unfold n. rewrite NextIndex_pos by (fold n; lia). fold n.
      destruct (IH (S k)) as (r & E & Hr); [lia..|]. replace (n - S k)%nat with f in E by lia.
      exists r. split; [done|]. destruct Hr as [Hr|[Hr Hno]]; [by left|right]. split; [done|].
      intros d' x Hd' Hx. destruct (decide (d' = k)) as [->|]; [congruence|]. apply (Hno d'); [lia|done].
Qed.

(** The search stops; an element that belongs where it starts is passed. *)
Lemma FindWithHash_ok h (P : T -> bool) hash : wf h ->
  (forall x, x ∈ elems (data_ h) -> P x = true -> hashfn x = hash) ->
  exists r, FindWithHash h P hash = Done r /\
    ((r < num_buckets_ h)%nat /\ (exists x, data_ h !! r = Some (Some x) /\ P x = true) \/
     r = end_ h /\ forall x, x ∈ elems (data_ h) -> P x = false).
Proof.
  intros [Hn Hc Hr He Hp] Hhash. unfold FindWithHash.
  set (n := num_buckets_ h) in *. set (index := IndexForHash h hash).
  assert (index < n)%nat as Hi.
  { unfold index, IndexForHash. fold n. pose proof (Z.mod_pos_bound hash (Z.of_nat n)). lia. }
  destruct (first_free (data_ h) index) as (d & Hd & Hfree & Hfull); [lia..|]. rewrite Hn in Hfree, Hfull, Hd.
  destruct (find_loop_ok h P index d 0) as (r & E & Hres); [done|done|lia|done|done|]. fold n in E, Hres.
  rewrite Nat.sub_0_r, pos_0 in E by done. exists r. split; [done|]. destruct Hres as [Hres|[Hr' Hno]]; [by left|right].
  split; [done|]. intros x Hin. destruct (P x) eqn:EP; [|done]. exfalso.
  pose proof (Hhash x Hin EP) as Ex. apply elem_of_elems in Hin as [i Hx].
  pose proof (lookup_lt_Some _ _ _ Hx) as Hlt. rewrite Hn in Hlt.
  assert (ideal n x = index) as Eid by (unfold ideal, index, IndexForHash; fold n; by rewrite Ex).
  assert (dist n index i < d)%nat as Hdist.
  { destruct (Nat.lt_ge_cases (dist n index i) d) as [|Hge]; [done|].
    destruct (decide (dist n index i = d)) as [<-|Hne].
    - rewrite pos_dist in Hfree by done. congruence.
    - destruct (Hp i x Hx d) as [y Hy]; rewrite Hn, Eid in *; [lia|congruence]. }
  rewrite (Hno (dist n index i) x) in EP; [done|lia|]. by rewrite pos_dist.
Qed.

(** ** Erase *)

(** The buckets with a hole at [e], of which the [k] next ones have been looked
    at: only the hole interrupts the way to an element, and not the way to one
    looked at. *)
Record hole (n : nat) (data : list (option T)) (e k : nat) : Prop := {
  hole_length : length data = n;
  hole_free : data !! e = Some None;
  hole_way : forall i x, data !! i = Some (Some x) ->
    forall d, (d < dist n (ideal n x) i)%nat -> pos n (ideal n x) d <> e -> full data (pos n (ideal n x) d);
  hole_seen : forall d, (1 <= d <= k)%nat ->
    exists x, data !! pos n e d = Some (Some x) /\ (dist n (ideal n x) (pos n e d) < d)%nat
}.

(** How positions seen from [h] are seen from [e] on the way. *)
Lemma way_dist n h d i e : (h < n)%nat -> (i < n)%nat -> (d < dist n h i)%nat -> pos n h d = e ->
  dist n e i = (dist n h i - d)%nat.
Proof. intros ? ? ? <-. around. Qed.
Lemma way_pos n h d j e : (h < n)%nat -> (d + j < n)%nat -> pos n h d = e -> pos n e j = pos n h (d + j).
Proof. intros ? ? <-. around. Qed.
Lemma pos_inj n h d d' : (h < n)%nat -> (d < n)%nat -> (d' < n)%nat -> pos n h d = pos n h d' -> d = d'.
Proof. intros ? ? ?. around. Qed.

(** When the next bucket is free the hole may stay. *)
Lemma hole_done n data e k : hole n data e k -> (S k < n)%nat -> data !! pos n e (S k) = Some None -> probed data.
Proof.
  intros [Hn Hf Hw Hs] Hk Hnext i x Hx d. rewrite Hn. intros Hd.
  pose proof (lookup_lt_Some _ _ _ Hx) as Hi. pose proof (lookup_lt_Some _ _ _ Hf) as He. rewrite Hn in Hi, He.
  pose proof (ideal_lt n x ltac:(lia)) as Hid. pose proof (dist_lt _ _ _ Hid Hi) as Hdi.
  destruct (decide (pos n (ideal n x) d = e)) as [Ee|Hne]; [|by eapply Hw]. exfalso.
  pose proof (way_dist _ _ _ _ _ Hid Hi Hd Ee) as Em. set (m := dist n e i) in *.
  assert (pos n e m = i) as Ei by (by apply pos_dist).
  destruct (Nat.le_gt_cases m k) as [Hle|Hgt].
  - destruct (Hs m) as (y & Hy & Hlt); [lia|]. rewrite Ei in *. assert (y = x) as -> by congruence. lia.
  - destruct (decide (m = S k)) as [->|Hne]; [congruence|].
    rewrite (way_pos _ _ d _ _ Hid) in Hnext by (done || lia).
    destruct (Hw i x Hx (d + S k)%nat) as [y Hy]; [lia| |congruence].
    rewrite <- Ee. intros E%pos_inj; lia.
Qed.

(** An element that belongs behind the hole stays where it is. *)
Lemma hole_keep n data e k x : hole n data e k -> data !! pos n e (S k) = Some (Some x) ->
  (dist n (ideal n x) (pos n e (S k)) < S k)%nat -> hole n data e (S k).
Proof.
  intros [Hn Hf Hw Hs] Hx Hd. split; [done..|]. intros d Hd'.
  destruct (decide (d = S k)) as [->|]; [eauto|apply Hs; lia].
Qed.

(** Any other moves into the hole, and leaves one. *)
Lemma hole_move n data e k x : hole n data e k -> (S k < n)%nat -> let j := pos n e (S k) in
  data !! j = Some (Some x) -> (S k <= dist n (ideal n x) j)%nat ->
  hole n (<[j := None]> (<[e := Some x]> data)) j 0.
Proof.
  intros [Hn Hf Hw Hs] Hk j Hx Hd.
  pose proof (lookup_lt_Some _ _ _ Hx) as Hj. pose proof (lookup_lt_Some _ _ _ Hf) as He. rewrite Hn in Hj, He.
  pose proof (ideal_lt n x ltac:(lia)) as Hid.
  assert (j <> e) as Hje by (intros E; rewrite <- (pos_0 n e) in E by done; apply pos_inj in E; lia).
  assert (forall p, full data p -> p <> j -> full (<[j := None]> (<[e := Some x]> data)) p) as Hfull.
  { intros p Hp Hpj. unfold full. rewrite list_lookup_insert_ne by done. by apply full_insert. }
  split; [by rewrite !length_insert|apply list_lookup_insert_eq; rewrite length_insert; lia| |lia].
  intros i y Hy d Hdi Hpj. destruct (decide (i = j)) as [->|Hij].
  { rewrite list_lookup_insert_eq in Hy by (rewrite length_insert; lia). done. }
  rewrite list_lookup_insert_ne in Hy by done. destruct (decide (i = e)) as [->|Hie].
  - rewrite list_lookup_insert_eq in Hy by lia. injection Hy as <-.
    assert (dist n (ideal n x) e < dist n (ideal n x) j)%nat as Hlt.
    { clear -Hd Hid He Hk. subst j. around. }
    apply Hfull; [|done]. apply (Hw j x Hx); [lia|]. intros E.
    pose proof (dist_lt n (ideal n x) e Hid He). assert (d < n)%nat by lia.
    rewrite <- E, dist_pos in Hdi by done. lia.
  - rewrite list_lookup_insert_ne in Hy by done. destruct (decide (pos n (ideal n y) d = e)) as [->|Hpe].
    + exists x. rewrite list_lookup_insert_ne by done. apply list_lookup_insert_eq. lia.
    + apply Hfull; [|done]. by apply (Hw i y Hy).
Qed.

Lemma elems_move (data : list (option T)) e j x : data !! e = Some None -> data !! j = Some (Some x) ->
  elems (<[j := None]> (<[e := Some x]> data)) ≡ₚ elems data.
Proof.
  intros He Hj. apply (Permutation_cons_inv (a := x)). rewrite <- (elems_insert data e x He). symmetry.
  apply elems_remove. rewrite list_lookup_insert_ne; [done|]. intros ->. congruence.
Qed.

(** The test of Erase, on positions unwrapped from the hole on. *)
Lemma erase_test n e s x : (e < n)%nat -> (1 <= s < n)%nat -> let j := pos n e s in
  ((if (ideal n x <? e)%nat then ideal n x + n else ideal n x) <=? e)%nat
  || ((if (j <? e)%nat then j + n else j) <? (if (ideal n x <? e)%nat then ideal n x + n else ideal n x))%nat
  = (s <=? dist n (ideal n x) j)%nat.
Proof.
  intros He Hs j. pose proof (ideal_lt n x ltac:(lia)) as Hid. subst j. revert Hid. generalize (ideal n x). intros h Hh.
  apply eq_bool_prop_intro. rewrite orb_True, !Is_true_true, !Nat.leb_le, !Nat.ltb_lt. around.
Qed.

(** The first bucket of the hole is filled as soon as the hole has moved. *)
Definition refilled (data : list (option T)) (e0 t : nat) (filled : bool) : Prop :=
  (t = 0%nat /\ filled = false) \/ ((0 < t)%nat /\ full data e0).

Lemma refilled_move n (data : list (option T)) e0 t s filled x : length data = n -> (e0 < n)%nat -> (t <= s)%nat -> (S s < n)%nat ->
  refilled data e0 t filled ->
  refilled (<[pos n e0 (S s) := None]> (<[pos n e0 t := Some x]> data)) e0 (S s) true.
Proof.
  intros Hn He0 Hts Hs H. right. split; [lia|]. unfold full.
  rewrite list_lookup_insert_ne by (rewrite <- (pos_0 n e0) at 2 by done; intros E%pos_inj; lia).
  destruct H as [[-> _]|[_ H]]; [|by apply full_insert].
  rewrite pos_0 by done. exists x. apply list_lookup_insert_eq. lia.
Qed.

(** One round, seen from the hole. *)
Lemma erase_step f h e k filled cur : let n := num_buckets_ h in let j := pos n e (S k) in
  (e < n)%nat -> (S k < n)%nat -> NextIndex h cur = j ->
  erase_loop hashfn (S f) h e cur filled =
    match <[e := None]> (data_ h) !! j with
    | None => Fault OutOfBounds
    | Some None => Done (set_data h e None, filled)
    | Some (Some x) =>
        if (S k <=? dist n (ideal n x) j)%nat then erase_loop hashfn f (set_data h e (Some x)) j j true
        else erase_loop hashfn f h e j filled
    end.
Proof.
  intros n j He Hk Enext. cbn [erase_loop]. rewrite Enext. unfold ElementForIndex.
  assert (j <> e) as Hne by (rewrite <- (pos_0 n e) by done; intros E%pos_inj; lia).
  rewrite list_lookup_insert_ne by done. destruct (data_ h !! j) as [[x|]|]; [|done..].
  cbn [deref mbind cres_bind]. unfold IndexForHash. fold n. fold (ideal n x).
  by rewrite (erase_test n e (S k)) by lia.
Qed.

Lemma erase_loop_ok n e0 m h t s filled : (e0 < n)%nat -> (t <= s < m)%nat -> (m < n)%nat -> num_buckets_ h = n ->
  let e := pos n e0 t in let holed := <[e := None]> (data_ h) in
  hole n holed e (s - t) -> data_ h !! pos n e0 m = Some None -> refilled holed e0 t filled ->
  exists h' filled', erase_loop hashfn (n - s) h e (pos n e0 s) filled = Done (h', filled') /\
    same_sizes h h' /\ probed (data_ h') /\ elems (data_ h') ≡ₚ elems holed /\ length (data_ h') = n /\
    (filled' = true -> full (data_ h') e0).
Proof.
  intros He0 Hts Hm. remember (m - s)%nat as c eqn:Ec. revert s h t filled Hts Ec.
  induction c as [|c IH]; intros s h t filled Hts Ec <- e holed Hhole Hfree Hfilled; [lia|]. set (n := num_buckets_ h) in *.
  destruct (n - s)%nat as [|f] eqn:Ef; [lia|]. assert (e < n)%nat as He by (apply pos_lt; lia).
  assert (pos n e (S (s - t)) = pos n e0 (S s)) as Epos.
  { rewrite (way_pos n e0 t (S (s - t)) e) by (done || lia). f_equal. lia. }
  rewrite (erase_step f h e (s - t)); [|done|lia|]; [|rewrite NextIndex_pos by (fold n; lia); symmetry; exact Epos].
  fold n holed. pose proof (hole_length _ _ _ _ Hhole) as Hlen.
  destruct (holed !! pos n e (S (s - t))) as [[x|]|] eqn:Ex.
  - assert (S s <> m).
    { intros <-. rewrite Epos in Ex. unfold holed in Ex. rewrite list_lookup_insert_ne in Ex; [congruence|].
      intros E%pos_inj; lia. }
    destruct (Nat.leb_spec (S (s - t)) (dist n (ideal n x) (pos n e (S (s - t))))) as [Hge|Hlt].
    + assert (<[pos n e (S (s - t)) := None]> (data_ (set_data h e (Some x)))
              = <[pos n e (S (s - t)) := None]> (<[e := Some x]> holed)) as Eq.
      { unfold holed. cbn [set_data data_]. by rewrite list_insert_insert_eq. }
      rewrite Epos in *.
      destruct (IH (S s) (set_data h e (Some x)) (S s) true) as (h' & filled' & E & HS & Hp & Hel & H4);
        try lia; try done; rewrite ?Eq.
      * rewrite Nat.sub_diag, <- Epos. apply hole_move; rewrite ?Epos; (done || lia).
      * cbn [set_data data_]. rewrite list_lookup_insert_ne; [done|]. intros E%pos_inj; lia.
      * apply (refilled_move n holed e0 t s filled); (done || lia).
      * exists h', filled'. replace (n - S s)%nat with f in E by lia. rewrite E. split_and!; try done; try apply HS; try apply H4.
        rewrite Hel, Eq. apply elems_move; [apply Hhole|done].
    + destruct (IH (S s) h t filled) as (h' & filled' & E & H1); try lia; try done.
      * replace (S s - t)%nat with (S (s - t)) by lia. by eapply hole_keep.
      * exists h', filled'. replace (n - S s)%nat with f in E by lia. fold n e in E. by rewrite Epos, E.
  - exists (set_data h e None), filled. split; [done|]. split; [done|]. cbn [set_data data_]. fold holed.
    split; [eapply hole_done; [done|lia|done]|]. split; [done|]. split; [done|].
    destruct Hfilled as [[_ ->]|[_ ?]]; done.
  - apply lookup_ge_None in Ex. pose proof (pos_lt n e (S (s - t))). lia.
Qed.

(** The iterator moves to the next element, or to the end. *)
Lemma next_non_empty_ok fuel (h : HashSet T) index : length (data_ h) = num_buckets_ h -> (num_buckets_ h <= S index + fuel)%nat ->
  exists r, next_non_empty fuel h index = Done r /\ (index < r)%nat /\ ((num_buckets_ h <= r)%nat \/ full (data_ h) r).
Proof.
  intros Hn. revert index. induction fuel as [|f IH]; intros index Hf; cbn [next_non_empty];
    (destruct (Nat.ltb_spec (S index) (num_buckets_ h)); [|exists (S index); split; [done|split; [lia|by left]]]); [lia|].
  unfold IsFreeSlot, ElementForIndex.
  destruct (lookup_lt_is_Some_2 (data_ h) (S index)) as [[x|] E]; [lia|..]; rewrite E; cbn.
  - exists (S index). split; [done|]. split; [lia|]. right. by exists x.
  - destruct (IH (S index)) as (r & Er & Hr & H'); [lia|]. exists r. split; [done|]. split; [lia|done].
Qed.

Lemma hole_start (data : list (option T)) e x : data !! e = Some (Some x) -> probed data ->
  hole (length data) (<[e := None]> data) e 0.
Proof.
  intros Hx Hp. pose proof (lookup_lt_Some _ _ _ Hx).
  split; [by rewrite length_insert|by apply list_lookup_insert_eq| |lia].
  intros i y Hy d Hd Hne. destruct (decide (i = e)) as [->|Hie].
  { rewrite list_lookup_insert_eq in Hy by done. done. }
  rewrite list_lookup_insert_ne in Hy by done. unfold full. rewrite list_lookup_insert_ne by done. by apply (Hp i y Hy).
Qed.

Lemma Erase_ok h it x : wf h -> data_ h !! it = Some (Some x) ->
  exists h' it', Erase hashfn h it = Done (h', it') /\ wf h' /\ elems (data_ h) ≡ₚ x :: elems (data_ h') /\
    (it <= it')%nat /\ ((num_buckets_ h' <= it')%nat \/ full (data_ h') it').
Proof.
  intros [Hn Hc Hr He Hp] Hx. unfold Erase. set (n := num_buckets_ h) in *.
  pose proof (lookup_lt_Some _ _ _ Hx) as Hit. rewrite Hn in Hit. pose proof (elems_remove _ _ _ Hx) as Hrem.
  destruct (first_free (data_ h) it) as (m & Hm & Hfree & _); [lia..|]. rewrite Hn in Hfree, Hm.
  destruct (decide (m = 0%nat)) as [->|]; [rewrite pos_0 in Hfree by done; congruence|].
  destruct (erase_loop_ok n it m h 0 0 false) as (h' & filled & E & (S1 & S2 & S3) & Hp' & Hel & Hn' & Hfill);
    rewrite ?pos_0 by done; try lia; try done; [|by left|].
  { rewrite Nat.sub_diag, <- Hn. by apply (hole_start _ _ x). }
  rewrite pos_0 in E, Hel by done. rewrite Nat.sub_0_r in E. rewrite E. cbn [mbind cres_bind].
  set (h2 := set_num_elements h' (num_elements_ h' - 1)).
  assert (length (x :: elems (data_ h')) = num_elements_ h) as Hcount by (by rewrite Hel, <- Hrem). cbn in Hcount.
  assert (wf h2) as Hwf by (split; cbn; try done; try lia).
  destruct filled.
  - exists h2, it. split; [done|]. split; [done|]. split; [by rewrite Hrem, <- Hel|]. split; [lia|]. right. by apply Hfill.
  - destruct (next_non_empty_ok (num_buckets_ h2) h2 it) as (r & Er & Hlt & Hr'); [by cbn; lia|cbn; lia|].
    unfold NextNonEmptySlot. rewrite Er. exists h2, r. split; [done|]. split; [done|].
    split; [by rewrite Hrem, <- Hel|]. split; [lia|done].
Qed.

(** ** Verify *)

Lemma verify_slot_ok h i : wf h -> (i < num_buckets_ h)%nat -> verify_slot hashfn h i = Done true.
Proof.
  intros [Hn Hc Hr He Hp] Hi. unfold verify_slot, ElementForIndex. set (n := num_buckets_ h) in *.
  destruct (lookup_lt_is_Some_2 (data_ h) i) as [[x|] Hx]; [lia|..]; rewrite Hx; [|done]. cbn [deref mbind cres_bind].
  pose proof (ideal_lt n x ltac:(lia)) as Hid. unfold IndexForHash. fold n. fold (ideal n x).
  pose proof (dist_lt n (ideal n x) i Hid Hi) as Hd.
  pose proof (slot_loop (set_data h i None) (ideal n x) (dist n (ideal n x) i) 0) as E. cbv zeta in E.
  change (num_buckets_ (set_data h i None)) with n in E.
  change (data_ (set_data h i None)) with (<[i := None]> (data_ h)) in E. rewrite Nat.sub_0_r, pos_0, pos_dist in E by done.
  rewrite E; [cbn; by rewrite Nat.eqb_refl|done|lia|lia|apply list_lookup_insert_eq; lia|].
  intros d' Hd'. unfold full. rewrite list_lookup_insert_ne.
  - pose proof (Hp i x Hx d') as Hfull. rewrite Hn in Hfull. by apply Hfull.
  - intros Ei. assert (d' < n)%nat by lia. rewrite Ei, dist_pos in Hd' by done. lia.
Qed.

Lemma Verify_ok h : wf h -> Verify hashfn h = Done 0%nat.
Proof.
  intros Hwf. unfold Verify.
  assert (forall k i, (i + k <= num_buckets_ h)%nat -> verify_loop hashfn h i k = Done 0%nat) as H; [|by apply H].
  induction k as [|k IH]; intros i Hk; [done|]. cbn [verify_loop]. rewrite verify_slot_ok by (done || lia).
  cbn [mbind cres_bind]. by rewrite IH by lia.
Qed.

(** ** A table without a free bucket *)

Definition no_free (h : HashSet T) : Prop :=
  length (data_ h) = num_buckets_ h /\ forall i, (i < num_buckets_ h)%nat -> full (data_ h) i.

Lemma NextIndex_lt (h : HashSet T) i : (i < num_buckets_ h)%nat -> (NextIndex h i < num_buckets_ h)%nat.
Proof. intros. unfold NextIndex. around. Qed.

Lemma no_free_slot h fuel i : no_free h -> (i < num_buckets_ h)%nat -> FirstAvailableSlot fuel h i = Fault OutOfFuel.
Proof.
  intros [Hn Hf]. revert i. induction fuel as [|f IH]; intros i Hi; [done|]. cbn [FirstAvailableSlot].
  unfold IsFreeSlot, ElementForIndex. destruct (Hf i Hi) as [x ->]. cbn. by apply IH, NextIndex_lt.
Qed.

Lemma no_free_find h fuel P i : no_free h -> (i < num_buckets_ h)%nat -> (forall x, x ∈ elems (data_ h) -> P x = false) ->
  find_loop fuel h P i = Fault OutOfFuel.
Proof.
  intros [Hn Hf] Hi HP. revert i Hi. induction fuel as [|f IH]; intros i Hi; [done|]. cbn [find_loop].
  unfold ElementForIndex. destruct (Hf i Hi) as [x Hx]. rewrite Hx. cbn.
  rewrite (HP x) by (apply elem_of_elems; eauto). by apply IH, NextIndex_lt.
Qed.

Lemma all_full (data : list (option T)) : length (elems data) = length data -> forall i, (i < length data)%nat -> full data i.
Proof.
  induction data as [|[x|] data IH]; cbn; intros Hl i Hi; [lia| |pose proof (elems_le data); lia].
  destruct i as [|i]; [by exists x|]. apply IH; lia.
Qed.

(** Fewer than nine elements shrink to as many buckets. *)
Lemma shrink_no_free h : wf h -> (num_elements_ h < 9)%nat -> exists h', ShrinkToMaximumLoad hashfn h = Done h' /\
  no_free h' /\ num_buckets_ h' = num_elements_ h /\ num_elements_ h' = num_elements_ h /\
  elements_until_expand_ h' = elements_until_expand_ h /\ elems (data_ h') ≡ₚ elems (data_ h).
Proof.
  intros [Hn Hc Hr He Hp] H9. unfold ShrinkToMaximumLoad.
  assert (num_elements_ h * 10 / 9 = num_elements_ h)%nat as ->.
  { symmetry. apply (Nat.div_unique _ _ _ (num_elements_ h)); lia. }
  destruct (Resize_ok h (num_elements_ h)) as (h' & E & H1 & H2 & H3 & H4 & H5 & H6); [lia|].
  exists h'. split_and!; try done. split; [congruence|]. rewrite H2, <- H4. apply all_full. rewrite H6. lia.
Qed.

(** ** The table as a multiset *)

Context {K : Type} (pred : K -> T -> bool) (hashkey : K -> Z).

Inductive op := OpInsert (x : T) | OpFind (k : K) | OpErase (k : K) | OpClear.

(** One operation on the table, and the element it finds; Erase is given the
    iterator Find returns. *)
Definition run_op (h : HashSet T) (o : op) : cres (HashSet T * option T) :=
  match o with
  | OpInsert x => h ← Insert hashfn h x; Done (h, None)
  | OpFind k =>
      it ← FindWithHash h (pred k) (hashkey k);
      if (it =? end_ h)%nat then Done (h, None) else e ← ElementForIndex h it; Done (h, e)
  | OpErase k =>
      it ← FindWithHash h (pred k) (hashkey k);
      if (it =? end_ h)%nat then Done (h, None)
      else e ← ElementForIndex h it; '(h, _) ← Erase hashfn h it; Done (h, e)
  | OpClear => Done (Clear h, None)
  end.

Fixpoint run_ops (h : HashSet T) (os : list op) : cres (HashSet T * list (option T)) :=
  match os with
  | [] => Done (h, [])
  | o :: os => '(h, r) ← run_op h o; '(h, rs) ← run_ops h os; Done (h, r :: rs)
  end.

(** What they do on a multiset. *)
Inductive spec_op (ms : list T) : op -> option T -> list T -> Prop :=
| spec_insert x ms' : ms' ≡ₚ x :: ms -> spec_op ms (OpInsert x) None ms'
| spec_find k x ms' : x ∈ ms -> pred k x = true -> ms' ≡ₚ ms -> spec_op ms (OpFind k) (Some x) ms'
| spec_find_none k ms' : (forall x, x ∈ ms -> pred k x = false) -> ms' ≡ₚ ms -> spec_op ms (OpFind k) None ms'
| spec_erase k x ms' : pred k x = true -> ms ≡ₚ x :: ms' -> spec_op ms (OpErase k) (Some x) ms'
| spec_erase_none k ms' : (forall x, x ∈ ms -> pred k x = false) -> ms' ≡ₚ ms -> spec_op ms (OpErase k) None ms'
| spec_clear : spec_op ms OpClear None [].

Inductive spec_ops : list T -> list op -> list (option T) -> list T -> Prop :=
| spec_nil ms : spec_ops ms [] [] ms
| spec_cons ms o r ms1 os rs ms2 : spec_op ms o r ms1 -> spec_ops ms1 os rs ms2 -> spec_ops ms (o :: os) (r :: rs) ms2.

Lemma run_op_ok h o : wf h -> (forall k x, pred k x = true -> hashfn x = hashkey k) ->
  exists h' r, run_op h o = Done (h', r) /\ wf h' /\ spec_op (elems (data_ h)) o r (elems (data_ h')).
Proof.
  intros Hwf Hk. destruct o as [x|k|k|]; cbn [run_op].
  - destruct (Insert_ok h x Hwf) as (h' & -> & Hwf' & He). exists h', None. split; [done|]. split; [done|]. by constructor.
  - destruct (FindWithHash_ok h (pred k) (hashkey k) Hwf (fun x _ => Hk k x)) as (r & -> & [[Hr (x & Hx & HP)]|[-> Hno]]); cbn [mbind cres_bind].
    + unfold end_. rewrite (proj2 (Nat.eqb_neq _ _)) by lia. unfold ElementForIndex. rewrite Hx. exists h, (Some x).
      split; [done|]. split; [done|]. constructor; [apply elem_of_elems; eauto|done..].
    + rewrite Nat.eqb_refl. exists h, None. split; [done|]. split; [done|]. by constructor.
  - destruct (FindWithHash_ok h (pred k) (hashkey k) Hwf (fun x _ => Hk k x)) as (r & -> & [[Hr (x & Hx & HP)]|[-> Hno]]); cbn [mbind cres_bind].
    + unfold end_. rewrite (proj2 (Nat.eqb_neq _ _)) by lia. unfold ElementForIndex. rewrite Hx. cbn [deref mbind cres_bind].
      destruct (Erase_ok h r x Hwf Hx) as (h' & it' & -> & Hwf' & He & _). exists h', (Some x).
      split; [done|]. split; [done|]. by constructor.
    + rewrite Nat.eqb_refl. exists h, None. split; [done|]. split; [done|]. by constructor.
  - exists (Clear h), None. split; [done|]. split; [exact make_HashSet_wf|constructor].
Qed.

Lemma run_ops_ok h os : wf h -> (forall k x, pred k x = true -> hashfn x = hashkey k) ->
  exists h' rs, run_ops h os = Done (h', rs) /\ wf h' /\ spec_ops (elems (data_ h)) os rs (elems (data_ h')).
Proof.
  intros Hwf Hk. revert h Hwf. induction os as [|o os IH]; intros h Hwf; cbn [run_ops].
  { exists h, []. split; [done|]. split; [done|]. constructor. }
  destruct (run_op_ok h o Hwf Hk) as (h1 & r & -> & Hwf1 & Hs). cbn [mbind cres_bind].
  destruct (IH h1 Hwf1) as (h2 & rs & -> & Hwf2 & Hss). exists h2, (r :: rs). split; [done|]. split; [done|].
  by econstructor.
Qed.

End Correct.

(** C12: The hash table implements a multiset.  From an empty table, every
    sequence of insertions, searches, erasures of what a search found and
    Clears returns; each search finds an element equal to the key exactly when
    the multiset has one, each erasure removes exactly the element found, Size
    is the number of elements, a bucket is always free, and Verify reports no
    element out of its place.  Equal elements must have equal hashes. *)
Theorem hash_set_is_multiset {T K} (hashfn : T -> Z) (pred : K -> T -> bool) (hashkey : K -> Z) (os : list (@op T K))
    (Hhash : forall k x, pred k x = true -> hashfn x = hashkey k) :
  exists h rs ms, run_ops hashfn pred hashkey make_HashSet os = Done (h, rs) /\
    spec_ops pred [] os rs ms /\ elems (data_ h) = ms /\ num_elements_ h = length ms /\
    (num_elements_ h < num_buckets_ h)%nat /\ Verify hashfn h = Done 0%nat.
Proof.
  destruct (run_ops_ok hashfn pred hashkey make_HashSet os (make_HashSet_wf hashfn) Hhash) as (h & rs & E & Hwf & Hs).
  exists h, rs, (elems (data_ h)). split_and!; try done; [by rewrite (wf_count _ _ Hwf)|by apply (wf_room _ _ Hwf)|].
  by apply Verify_ok.
Qed.

(** Shrinking a small table leaves it without a free bucket.  A table of
    one to eight elements shrinks to as many buckets; from then on a search
    for an element that is not there never ends, and as elements_until_expand_
    is left as it was, neither does an insertion: both loops are still running
    after any number of rounds. *)
Theorem shrink_to_maximum_load_hangs {T} (hashfn : T -> Z) (h : HashSet T)
    (Hwf : wf hashfn h) (Hsmall : (0 < num_elements_ h < 9)%nat) :
  exists h', ShrinkToMaximumLoad hashfn h = Done h' /\ elems (data_ h') ≡ₚ elems (data_ h) /\
    (forall fuel is_element hash, (forall x, x ∈ elems (data_ h) -> is_element x = false) ->
       find_loop fuel h' is_element (IndexForHash h' hash) = Fault OutOfFuel) /\
    (forall fuel hash, FirstAvailableSlot fuel h' (IndexForHash h' hash) = Fault OutOfFuel) /\
    ((num_elements_ h < elements_until_expand_ h)%nat -> forall x, Insert hashfn h' x = Fault OutOfFuel).
Proof.
  destruct (shrink_no_free hashfn h Hwf) as (h' & E & Hno & H1 & H2 & H3 & He); [lia|].
  assert (forall hash, (IndexForHash h' hash < num_buckets_ h')%nat) as Hidx.
  { intros hash. unfold IndexForHash. pose proof (Z.mod_pos_bound hash (Z.of_nat (num_buckets_ h'))). lia. }
  exists h'. split; [done|]. split; [done|]. split; [|split].
  - intros fuel P hash HP. apply no_free_find; [done|apply Hidx|]. intros x. by rewrite He; apply HP.
  - intros. by apply no_free_slot.
  - intros Hlt x. unfold Insert, InsertWithHash. rewrite H2, H3, (proj2 (Nat.leb_gt _ _)) by lia. cbn [mbind cres_bind].
    by rewrite no_free_slot.
Qed.

(** ** The theorems at work *)

(** Numbers, hashed by their last digit so that they collide. *)
Definition digit_hash (x : Z) : Z := x mod 10.

Lemma hash_set_is_multiset_witness :
  exists h rs ms,
    run_ops digit_hash Z.eqb digit_hash make_HashSet
      [OpInsert 3; OpInsert 13; OpInsert 23; OpErase 3; OpFind 13; OpFind 3] = Done (h, rs) /\
    spec_ops Z.eqb [] [OpInsert 3; OpInsert 13; OpInsert 23; OpErase 3; OpFind 13; OpFind 3] rs ms /\
    elems (data_ h) = ms /\ num_elements_ h = length ms /\
    (num_elements_ h < num_buckets_ h)%nat /\ Verify digit_hash h = Done 0%nat.
Proof.
  refine (hash_set_is_multiset digit_hash Z.eqb digit_hash
            [OpInsert 3; OpInsert 13; OpInsert 23; OpErase 3; OpFind 13; OpFind 3] _).
  intros k x Hkx. apply Z.eqb_eq in Hkx. by rewrite Hkx.
Defined.

(** A table of three buckets that holds one number. *)
Definition demo_table : HashSet Z :=
  {| num_elements_ := 1; num_buckets_ := 3; elements_until_expand_ := 2; data_ := [None; Some 4; None] |}.

Lemma demo_table_wf : wf digit_hash demo_table.
Proof.
  split; cbn; try lia. intros i x Hx d Hd. exfalso.
  destruct i as [|[|[|i]]]; cbn in Hx; try done.
  injection Hx as <-. vm_compute in Hd. lia.
Qed.

Lemma shrink_to_maximum_load_hangs_witness :
  exists h', ShrinkToMaximumLoad digit_hash demo_table = Done h' /\ elems (data_ h') ≡ₚ [4] /\
    (forall fuel is_element hash, (forall x, x ∈ [4] -> is_element x = false) ->
       find_loop fuel h' is_element (IndexForHash h' hash) = Fault OutOfFuel) /\
    (forall fuel hash, FirstAvailableSlot fuel h' (IndexForHash h' hash) = Fault OutOfFuel) /\
    ((1 < 2)%nat -> forall x, Insert digit_hash h' x = Fault OutOfFuel).
Proof. refine (shrink_to_maximum_load_hangs digit_hash demo_table demo_table_wf _). cbn. lia. Defined.
