(* ===== verification/Dex.v ===== *)
(** * Dex: looking things up in a dex file
      (android_art-xposed-lollipop-mr1/runtime/dex_file.cc, dex_file.h, dex_file-inl.h)

    A dex file is a block of bytes with sorted tables of strings, types,
    prototypes, fields, methods and classes.  A pointer into a table is the
    index of the entry, a pointer into the bytes is the list of the bytes from
    there on; a read outside of either faults. *)

From S2P Require Import Prelude CLib Leb128 Utf HashSet.

(** ** Data *)

Record FieldId := { field_class_idx_ : Z; field_type_idx_ : Z; field_name_idx_ : Z }.
Record MethodId := { method_class_idx_ : Z; method_proto_idx_ : Z; method_name_idx_ : Z }.
Record ProtoId := { shorty_idx_ : Z; return_type_idx_ : Z; parameters_off_ : Z }.
Record ClassDef := {
  class_idx_ : Z; access_flags_ : Z; superclass_idx_ : Z; interfaces_off_ : Z;
  source_file_idx_ : Z; annotations_off_ : Z; class_data_off_ : Z; static_values_off_ : Z
}.

(** The index of a dex file: descriptors and the class definitions they name. *)
Definition Index : Type := HashSet (list Z * Z).

Record DexFile := {
  dex_begin_ : list Z;
  string_ids_ : list Z;            (* string_data_off_ *)
  type_ids_ : list Z;              (* descriptor_idx_ *)
  field_ids_ : list FieldId;
  method_ids_ : list MethodId;
  proto_ids_ : list ProtoId;
  class_defs_ : list ClassDef;
  find_class_def_misses_ : Z;
  class_def_index_ : option Index
}.

Definition kDexNoIndex : Z := 0xFFFFFFFF.

Section Dex.
Context (char_signed : bool) (w : Z).

(** ** Tables and bytes *)

(** An entry of a table. *)
Definition entry {A} (table : list A) (idx : Z) : cres A := deref (table !! Z.to_nat idx).

Definition NumIds {A} (table : list A) : Z := Z.of_nat (length table).

(** [begin_ + off]. *)
Definition at_offset (d : DexFile) (off : Z) : list Z := drop (Z.to_nat off) (dex_begin_ d).

(** A little-endian integer of [n] bytes. *)
Definition read_le (n : nat) (p : list Z) : cres Z :=
  if (n <=? length p)%nat then Done (of_le (take n p)) else Fault OutOfBounds.

Definition GetStringDataAndUtf16Length (d : DexFile) (string_id : Z) : cres (list Z * Z) :=
  '(len, ptr) ← DecodeUnsignedLeb128 (at_offset d string_id); Done (ptr, len).

Definition GetStringData (d : DexFile) (string_id : Z) : cres (list Z) :=
  '(ptr, _) ← GetStringDataAndUtf16Length d string_id; Done ptr.

(** [None] is a null pointer. *)
Definition StringDataByIdx (d : DexFile) (idx : Z) : cres (option (list Z)) :=
  if idx =? kDexNoIndex then Done None
  else string_id ← entry (string_ids_ d) idx; ptr ← GetStringData d string_id; Done (Some ptr).

Definition StringByTypeIdx (d : DexFile) (idx : Z) : cres (option (list Z)) :=
  type_id ← entry (type_ids_ d) idx; StringDataByIdx d type_id.

Definition GetClassDescriptor (d : DexFile) (class_def : ClassDef) : cres (option (list Z)) :=
  StringByTypeIdx d (class_idx_ class_def).

(** A type list: its size, and the items behind it. *)
Definition GetProtoParameters (d : DexFile) (proto : ProtoId) : option (list Z) :=
  if parameters_off_ proto =? 0 then None else Some (at_offset d (parameters_off_ proto)).
Definition TypeList_Size (l : list Z) : cres Z := read_le 4 l.
Definition GetTypeItem (l : list Z) (idx : Z) : cres Z := read_le 2 (drop (4 + 2 * Z.to_nat idx) l).

(** ** Binary searches

    The loop all of them have; [cmp] compares what is looked for with the entry
    in the middle.  32 rounds halve every interval of [int32_t]. *)
Fixpoint bsearch_loop (fuel : nat) (cmp : Z -> cres Z) (lo hi : Z) : cres (option Z) :=
  if lo <=? hi then
    match fuel with
    | O => Fault OutOfFuel
    | S f =>
        let mid := Z.quot (s32 (hi + lo)) 2 in
        compare ← cmp (u32 mid);
        if 0 <? compare then bsearch_loop f cmp (s32 (mid + 1)) hi
        else if compare <? 0 then bsearch_loop f cmp lo (s32 (mid - 1))
        else Done (Some mid)
    end
  else Done None.

Definition bsearch (num : Z) (cmp : Z -> cres Z) : cres (option Z) :=
  bsearch_loop 32 cmp 0 (s32 (u32 (num - 1))).

(** [a > b], [a < b] or neither. *)
Definition order3 (a b : Z) : Z := if b <? a then 1 else if a <? b then -1 else 0.

Definition FindStringId (d : DexFile) (string : list Z) : cres (option Z) :=
  bsearch (NumIds (string_ids_ d)) (fun mid =>
    str_id ← entry (string_ids_ d) mid;
    str ← GetStringData d str_id;
    CompareModifiedUtf8ToModifiedUtf8AsUtf16CodePointValues char_signed string str).

Definition FindStringId_utf16 (d : DexFile) (string : list Z) : cres (option Z) :=
  bsearch (NumIds (string_ids_ d)) (fun mid =>
    str_id ← entry (string_ids_ d) mid;
    str ← GetStringData d str_id;
    CompareModifiedUtf8ToUtf16AsCodePointValues str string).

Definition FindTypeId (d : DexFile) (string_idx : Z) : cres (option Z) :=
  bsearch (NumIds (type_ids_ d)) (fun mid =>
    type_id ← entry (type_ids_ d) mid; Done (order3 string_idx type_id)).

(** The arguments are the indices of the entries the source is given. *)
Definition FindFieldId (d : DexFile) (declaring_klass name type : Z) : cres (option Z) :=
  let class_idx := u16 declaring_klass in
  let type_idx := u16 type in
  bsearch (NumIds (field_ids_ d)) (fun mid =>
    field ← entry (field_ids_ d) mid;
    Done (if field_class_idx_ field <? class_idx then 1
          else if class_idx <? field_class_idx_ field then -1
          else if field_name_idx_ field <? name then 1
          else if name <? field_name_idx_ field then -1
          else if field_type_idx_ field <? type_idx then 1
          else if type_idx <? field_type_idx_ field then -1 else 0)).

Definition FindMethodId (d : DexFile) (declaring_klass name signature : Z) : cres (option Z) :=
  let class_idx := u16 declaring_klass in
  let proto_idx := u16 signature in
  bsearch (NumIds (method_ids_ d)) (fun mid =>
    method ← entry (method_ids_ d) mid;
    Done (if method_class_idx_ method <? class_idx then 1
          else if class_idx <? method_class_idx_ method then -1
          else if method_name_idx_ method <? name then 1
          else if name <? method_name_idx_ method then -1
          else if method_proto_idx_ method <? proto_idx then 1
          else if proto_idx <? method_proto_idx_ method then -1 else 0)).

(** The loop over the parameters: the comparison so far, the position of the
    iterator and the types of the signature that are left. *)
Fixpoint compare_params (type_list : list Z) (size pos compare : Z) (signature : list Z) : cres (Z * Z * list Z) :=
  match signature with
  | [] => Done (compare, pos, signature)
  | s :: signature' =>
      if (pos <? size) && (compare =? 0) then
        item ← GetTypeItem type_list pos;
        compare_params type_list size (pos + 1) (s - item) signature'
      else Done (compare, pos, signature)
  end.

Definition compare_proto (d : DexFile) (return_type_idx : Z) (signature : list Z) (proto : ProtoId) : cres Z :=
  let compare := return_type_idx - return_type_idx_ proto in
  if compare =? 0 then
    let type_list := default [] (GetProtoParameters d proto) in
    size ← (match GetProtoParameters d proto with None => Done 0 | Some l => TypeList_Size l end);
    '(compare, pos, signature) ← compare_params type_list size 0 compare signature;
    Done (if compare =? 0 then
            if pos <? size then -1 else match signature with [] => 0 | _ => 1 end
          else compare)
  else Done compare.

Definition FindProtoId (d : DexFile) (return_type_idx : Z) (signature_type_idxs : list Z) : cres (option Z) :=
  bsearch (NumIds (proto_ids_ d)) (fun mid =>
    proto ← entry (proto_ids_ d) mid; compare_proto d return_type_idx signature_type_idxs proto).

(** ** Signatures *)

(** The array prefix of a descriptor: the character behind it, what is left of
    the signature, and the descriptor so far. *)
Fixpoint skip_array (c : Z) (rest descriptor : list Z) : option (Z * list Z * list Z) :=
  if c =? chr "[" then
    match rest with
    | [] => None
    | c :: rest => skip_array c rest (descriptor ++ [c])
    end
  else Some (c, rest, descriptor).

(** A class name up to its semicolon. *)
Fixpoint skip_class (rest descriptor : list Z) : option (list Z * list Z) :=
  match rest with
  | [] => None
  | c :: rest => if c =? chr ";" then Some (rest, descriptor ++ [c]) else skip_class rest (descriptor ++ [c])
  end.

Definition parse_descriptor (c : Z) (rest : list Z) : option (list Z * list Z) :=
  '(c, rest, descriptor) ← skip_array c rest [c];
  if c =? chr "L" then skip_class rest descriptor else Some (rest, descriptor).

(** The type a descriptor names: a search for the string, then one for the type. *)
Definition lookup_type (d : DexFile) (descriptor : list Z) : cres (option Z) :=
  string_id ← FindStringId d descriptor;
  match string_id with
  | None => Done None
  | Some string_id => FindTypeId d string_id
  end.

(** Success, [*return_type_idx] if it is written, and [*param_type_idxs]. *)
Fixpoint type_list_loop (fuel : nat) (lookup : list Z -> cres (option Z)) (rest : list Z) (process_return : bool)
    (params : list Z) : cres (bool * option Z * list Z) :=
  match rest, fuel with
  | [], _ => Done (false, None, params)
  | _, O => Fault OutOfFuel
  | c :: rest, S f =>
      if c =? chr ")" then type_list_loop f lookup rest true params
      else
        match parse_descriptor c rest with
        | None => Done (false, None, params)
        | Some (rest, descriptor) =>
            type_id ← lookup (descriptor ++ [0]);
            match type_id with
            | None => Done (false, None, params)
            | Some type_id =>
                let type_idx := u16 type_id in
                if process_return then Done (bool_decide (rest = []), Some type_idx, params)
                else type_list_loop f lookup rest process_return (params ++ [type_idx])
            end
        end
  end.

Definition CreateTypeList (d : DexFile) (signature : list Z) : cres (bool * option Z * list Z) :=
  c ← deref (head signature);
  if c =? chr "(" then type_list_loop (length signature) (lookup_type d) (tail signature) false []
  else Done (false, None, []).

(** A signature of the file: the prototype, or [None] for NoSignature. *)
Definition CreateSignature (d : DexFile) (signature : list Z) : cres (option Z) :=
  '(success, return_type_idx, param_type_indices) ← CreateTypeList d signature;
  if success : bool then FindProtoId d (default 0 return_type_idx) param_type_indices else Done None.

(** [std::string += const char*]. *)
Definition append (result : list Z) (str : option (list Z)) : cres (list Z) :=
  match str with
  | None => Fault NullDeref
  | Some str => s ← c_str str; Done (result ++ s)
  end.

Fixpoint append_params (d : DexFile) (params : list Z) (i : Z) (n : nat) (result : list Z) : cres (list Z) :=
  match n with
  | O => Done result
  | S n =>
      item ← GetTypeItem params i;
      str ← StringByTypeIdx d item;
      result ← append result str;
      append_params d params (i + 1) n result
  end.

Definition ToString (d : DexFile) (sig : option Z) : cres (list Z) :=
  match sig with
  | None => Done (lit "<no signature>")
  | Some proto =>
      proto ← entry (proto_ids_ d) proto;
      result ← (match GetProtoParameters d proto with
                | None => Done (lit "()")
                | Some params =>
                    size ← TypeList_Size params;
                    result ← append_params d params 0 (Z.to_nat size) (lit "(");
                    Done (result ++ lit ")")
                end);
      str ← StringByTypeIdx d (return_type_idx_ proto);
      append result str
  end.

(** ** Class definitions *)

(** The hash and the equality of the index.  Its keys are strings of the dex
    file, for which both return. *)
Definition descriptor_hash (e : list Z * Z) : Z :=
  match ComputeModifiedUtf8Hash char_signed w e.1 with Done h => h | Fault _ => 0 end.
Definition descriptor_eq (descriptor : list Z) (e : list Z * Z) : bool :=
  match CompareModifiedUtf8ToModifiedUtf8AsUtf16CodePointValues char_signed e.1 descriptor with
  | Done c => c =? 0
  | Fault _ => false
  end.

(** The loop over the class definitions, from [i] on. *)
Fixpoint find_class_loop (d : DexFile) (type_idx i : Z) (n : nat) : cres (option Z) :=
  match n with
  | O => Done None
  | S n =>
      class_def ← entry (class_defs_ d) (u16 i);
      if class_idx_ class_def =? type_idx then Done (Some (u16 i)) else find_class_loop d type_idx (i + 1) n
  end.

(** FindClassDef(uint16_t type_idx). *)
Definition FindClassDef_by_type (d : DexFile) (type_idx : Z) : cres (option Z) :=
  find_class_loop d type_idx 0 (length (class_defs_ d)).

Definition kMaxFailedDexClassDefLookups : Z := 100.

Definition set_misses (d : DexFile) (misses : Z) : DexFile :=
  {| dex_begin_ := dex_begin_ d; string_ids_ := string_ids_ d; type_ids_ := type_ids_ d;
     field_ids_ := field_ids_ d; method_ids_ := method_ids_ d; proto_ids_ := proto_ids_ d;
     class_defs_ := class_defs_ d; find_class_def_misses_ := misses; class_def_index_ := class_def_index_ d |}.
Definition set_index (d : DexFile) (index : option Index) : DexFile :=
  {| dex_begin_ := dex_begin_ d; string_ids_ := string_ids_ d; type_ids_ := type_ids_ d;
     field_ids_ := field_ids_ d; method_ids_ := method_ids_ d; proto_ids_ := proto_ids_ d;
     class_defs_ := class_defs_ d; find_class_def_misses_ := find_class_def_misses_ d; class_def_index_ := index |}.

Fixpoint build_index (d : DexFile) (index : Index) (i : Z) (n : nat) : cres Index :=
  match n with
  | O => Done index
  | S n =>
      class_def ← entry (class_defs_ d) (u16 i);
      descriptor ← GetClassDescriptor d class_def;
      match descriptor with
      | None => Fault NullDeref
      | Some descriptor =>
          index ← Insert descriptor_hash index (descriptor, u16 i);
          build_index d index (i + 1) n
      end
  end.

(** The two binary searches and the linear one. *)
Definition search_class_def (d : DexFile) (descriptor : list Z) : cres (option Z) :=
  type_id ← lookup_type d descriptor;
  match type_id with
  | None => Done None
  | Some type_id => find_class_loop d (u16 type_id) 0 (length (class_defs_ d))
  end.

Definition FindClassDef (descriptor : list Z) (hash : Z) : prog DexFile (option Z) := fun d =>
  match class_def_index_ d with
  | Some index =>
      it ← FindWithHash index (descriptor_eq descriptor) hash;
      if (it =? end_ index)%nat then Done (None, d)
      else
        e ← ElementForIndex index it;
        Done (match e with Some e => Some e.2 | None => None end, d)
  | None =>
      if NumIds (class_defs_ d) =? 0 then Done (None, d)
      else
        found ← search_class_def d descriptor;
        match found with
        | Some i => Done (Some i, d)
        | None =>
            let d := set_misses d (u32 (find_class_def_misses_ d + 1)) in
            if kMaxFailedDexClassDefLookups <? find_class_def_misses_ d then
              index ← build_index d make_HashSet 0 (length (class_defs_ d));
              Done (None, set_index d (Some index))
            else Done (None, d)
        end
  end.

End Dex.

(** ** The searches are right *)

Section Search.
Context (cmp : Z -> cres Z) (c : Z -> Z) (n : Z).
Hypothesis n_small : 0 <= n <= 2 ^ 30.
Hypothesis cmp_returns : forall i, 0 <= i < n -> cmp i = Done (c i).

Lemma mid_bounds lo hi : 0 <= lo <= hi -> hi < n ->
  let mid := Z.quot (s32 (hi + lo)) 2 in
  lo <= mid <= hi /\ mid = (hi + lo) / 2 /\ u32 mid = mid /\ s32 (mid + 1) = mid + 1 /\ s32 (mid - 1) = mid - 1.
Proof.
  intros Hlo Hhi. rewrite (swrap_small 32) by (unfold in_s; lia). rewrite Z.quot_div_nonneg by lia.
  pose proof (Z.div_mod (hi + lo) 2). pose proof (Z.mod_pos_bound (hi + lo) 2). cbv zeta.
  rewrite !(swrap_small 32), uwrap_small by (unfold in_s, in_u; lia). lia.
Qed.

(** Every interval is searched through, and only an equal entry is found. *)
Lemma bsearch_loop_sound fuel lo hi : 0 <= lo -> hi < n -> hi - lo + 1 < 2 ^ Z.of_nat fuel ->
  exists r, bsearch_loop fuel cmp lo hi = Done r /\ forall i, r = Some i -> lo <= i <= hi /\ c i = 0.
Proof.
  revert lo hi. induction fuel as [|f IH]; intros lo hi Hlo Hhi Hf; cbn [bsearch_loop];
    (destruct (Z.leb_spec lo hi); [|by exists None]); [cbn in Hf; lia|].
  rewrite Nat2Z.inj_succ, Z.pow_succ_r in Hf by lia.
  destruct (mid_bounds lo hi) as (Hm & Em & -> & -> & ->); [lia..|]. set (mid := Z.quot _ 2) in *.
  pose proof (Z.div_mod (hi + lo) 2). pose proof (Z.mod_pos_bound (hi + lo) 2).
  rewrite cmp_returns by lia. cbn [mbind cres_bind]. destruct (Z.ltb_spec 0 (c mid)).
  - destruct (IH (mid + 1) hi) as (r & E & Hr); [lia..|]. exists r. split; [done|]. intros i Hi. specialize (Hr i Hi). lia.
  - destruct (Z.ltb_spec (c mid) 0).
    + destruct (IH lo (mid - 1)) as (r & E & Hr); [lia..|]. exists r. split; [done|]. intros i Hi. specialize (Hr i Hi). lia.
    + exists (Some mid). split; [done|]. intros i [= <-]. lia.
Qed.

(** In a sorted table an equal entry is found. *)
Hypothesis sorted : forall i j, 0 <= i < j -> j < n -> c i <= 0 -> c j < 0.

Lemma bsearch_loop_complete fuel lo hi i : 0 <= lo -> hi < n -> hi - lo + 1 < 2 ^ Z.of_nat fuel ->
  lo <= i <= hi -> c i = 0 -> bsearch_loop fuel cmp lo hi = Done (Some i).
Proof.
  revert lo hi. induction fuel as [|f IH]; intros lo hi Hlo Hhi Hf Hi Hc; cbn [bsearch_loop];
    rewrite (proj2 (Z.leb_le lo hi)) by lia; [cbn in Hf; lia|].
  rewrite Nat2Z.inj_succ, Z.pow_succ_r in Hf by lia.
  destruct (mid_bounds lo hi) as (Hm & Em & -> & -> & ->); [lia..|]. set (mid := Z.quot _ 2) in *.
  pose proof (Z.div_mod (hi + lo) 2). pose proof (Z.mod_pos_bound (hi + lo) 2).
  rewrite cmp_returns by lia. cbn [mbind cres_bind].
  destruct (Z.lt_trichotomy mid i) as [Hlt|[->|Hgt]].
  - assert (0 < c mid) as Hpos by (destruct (Z.lt_ge_cases 0 (c mid)); [done|]; pose proof (sorted mid i); lia).
    rewrite (proj2 (Z.ltb_lt _ _) Hpos). apply IH; lia.
  - by rewrite Hc.
  - pose proof (sorted i mid). rewrite (proj2 (Z.ltb_ge 0 _)), (proj2 (Z.ltb_lt (c mid) 0)) by lia. apply IH; lia.
Qed.

End Search.

Lemma bsearch_start n : 0 <= n <= 2 ^ 30 -> s32 (u32 (n - 1)) = n - 1.
Proof.
  intros Hn. destruct (Z.eqb_spec n 0) as [->|]; [done|].
  rewrite uwrap_small by (unfold in_u; lia). apply swrap_small; [lia|]. unfold in_s. lia.
Qed.

Lemma bsearch_sound cmp c n : 0 <= n <= 2 ^ 30 -> (forall i, 0 <= i < n -> cmp i = Done (c i)) ->
  exists r, bsearch n cmp = Done r /\ forall i, r = Some i -> 0 <= i < n /\ c i = 0.
Proof.
  intros Hn Hc. unfold bsearch. rewrite bsearch_start by done.
  destruct (bsearch_loop_sound cmp c n Hn Hc 32 0 (n - 1)) as (r & E & Hr); [lia..|].
  exists r. split; [exact E|]. intros i Hi. specialize (Hr i Hi). lia.
Qed.

Lemma bsearch_spec cmp c n : 0 <= n <= 2 ^ 30 -> (forall i, 0 <= i < n -> cmp i = Done (c i)) ->
  (forall i j, 0 <= i < j -> j < n -> c i <= 0 -> c j < 0) ->
  exists r, bsearch n cmp = Done r /\ forall i, r = Some i <-> 0 <= i < n /\ c i = 0.
Proof.
  intros Hn Hc Hs. destruct (bsearch_sound cmp c n Hn Hc) as (r & E & Hr). exists r. split; [exact E|].
  intros i. split; [apply Hr|]. intros [Hi H0].
  assert (bsearch n cmp = Done (Some i)) as E2.
  { unfold bsearch. rewrite bsearch_start by done. apply (bsearch_loop_complete cmp c n Hn Hc Hs); lia. }
  pose proof (eq_trans (eq_sym E) E2) as E3. by injection E3.
Qed.


(** ** Sorted tables

    Every table of a dex file is sorted by a key, a list of numbers compared
    like a string. *)

Definition sorted_keys (keys : list (list Z)) : Prop :=
  forall i j s t, (i < j)%nat -> keys !! i = Some s -> keys !! j = Some t -> compareTo s t < 0.

(** The entry with a key, and there is at most one. *)
Definition is_index_of (keys : list (list Z)) (key : list Z) (r : option Z) : Prop :=
  forall i, r = Some i <-> 0 <= i /\ keys !! Z.to_nat i = Some key.

Lemma sgn_cases v x : Z.sgn v = Z.sgn x -> (v = 0 <-> x = 0) /\ (v < 0 <-> x < 0) /\ (v <= 0 <-> x <= 0).
Proof. pose proof (Z.sgn_spec v). pose proof (Z.sgn_spec x). lia. Qed.

Lemma find_key {A} (table : list A) keys cmp key : length keys = length table -> NumIds table <= 2 ^ 30 ->
  sorted_keys keys ->
  (forall i k, keys !! i = Some k -> exists v, cmp (Z.of_nat i) = Done v /\ Z.sgn v = Z.sgn (compareTo key k)) ->
  exists r, bsearch (NumIds table) cmp = Done r /\ is_index_of keys key r.
Proof.
  unfold NumIds. intros Hl Hn Hs Hcmp. rewrite <- Hl in *.
  set (c i := match cmp i with Done v => v | Fault _ => 0 end).
  assert (forall i, 0 <= i < Z.of_nat (length keys) -> exists k, keys !! Z.to_nat i = Some k /\
            cmp i = Done (c i) /\ Z.sgn (c i) = Z.sgn (compareTo key k)) as Hc.
  { intros i Hi. destruct (lookup_lt_is_Some_2 keys (Z.to_nat i)) as [k Hk]; [lia|].
    destruct (Hcmp _ _ Hk) as (v & E & Hv). rewrite Z2Nat.id in E by lia. exists k. unfold c. by rewrite E. }
  destruct (bsearch_spec cmp c (Z.of_nat (length keys))) as (r & E & Hr); [lia| |..].
  - intros i Hi. destruct (Hc i Hi) as (k & _ & E & _). exact E.
  - intros i j Hij Hj Hle. destruct (Hc i ltac:(lia)) as (k & Hk & _ & (H0 & _ & Hle')%sgn_cases).
    destruct (Hc j ltac:(lia)) as (k' & Hk' & _ & (_ & Hlt & _)%sgn_cases). apply Hlt.
    pose proof (Hs (Z.to_nat i) (Z.to_nat j) k k' ltac:(lia) Hk Hk') as Hkk.
    destruct (Z.eq_dec (compareTo key k) 0) as [->%compareTo_eq|]; [done|].
    apply (compareTo_trans _ k); [lia|done].
  - exists r. split; [exact E|]. intros i. rewrite Hr. split.
    + intros [Hi H0]. split; [lia|]. destruct (Hc i Hi) as (k & Hk & _ & (He & _)%sgn_cases).
      apply He, compareTo_eq in H0. by subst.
    + intros [Hi Hk]. pose proof (lookup_lt_Some _ _ _ Hk).
      destruct (Hc i ltac:(lia)) as (k & Hk' & _ & (He & _)%sgn_cases). split; [lia|]. apply He.
      assert (k = key) as -> by congruence. apply compareTo_refl.
Qed.

(** The keys of the tables, with the strings as lists of characters. *)
Definition type_keys (d : DexFile) : list (list Z) := map (fun t => [t]) (type_ids_ d).
Definition field_key (f : FieldId) : list Z := [field_class_idx_ f; field_name_idx_ f; field_type_idx_ f].
Definition method_key (m : MethodId) : list Z := [method_class_idx_ m; method_name_idx_ m; method_proto_idx_ m].

(** The parameter types of a prototype. *)
Definition proto_params (d : DexFile) (proto : ProtoId) (params : list Z) : Prop :=
  match GetProtoParameters d proto with
  | None => params = []
  | Some l => TypeList_Size l = Done (Z.of_nat (length params)) /\
      forall i t, params !! i = Some t -> GetTypeItem l (Z.of_nat i) = Done t
  end.

(** The bytes of a type descriptor: a primitive type, an array or a class. *)
Inductive is_descriptor : list Z -> Prop :=
| descriptor_prim c : c <> chr "[" -> c <> chr "L" -> c <> chr ")" -> is_descriptor [c]
| descriptor_array s : is_descriptor s -> is_descriptor (chr "[" :: s)
| descriptor_class name : chr ";" ∉ name -> is_descriptor (chr "L" :: name ++ [chr ";"]).

(** A dex file as the verifier accepts it, with its strings and the keys of
    its prototypes, the return type and the parameter types. *)
Record wf_dex (d : DexFile) (strs protos : list (list Z)) : Prop := {
  wf_strings : forall i off s, string_ids_ d !! i = Some off -> strs !! i = Some s ->
    Forall (in_u 16) s /\ exists len rest, DecodeUnsignedLeb128 (at_offset d off) = Done (len, utf8z s rest);
  wf_strings_length : length strs = length (string_ids_ d);
  wf_strings_num : NumIds (string_ids_ d) <= 2 ^ 30;
  wf_strings_sorted : sorted_keys strs;
  wf_types : forall i t, type_ids_ d !! i = Some t -> 0 <= t < NumIds (string_ids_ d);
  wf_types_num : NumIds (type_ids_ d) <= 2 ^ 16;
  wf_types_sorted : sorted_keys (type_keys d);
  wf_descriptors : forall t i s, type_ids_ d !! t = Some i -> strs !! Z.to_nat i = Some s -> is_descriptor (utf8 s);
  wf_protos : forall i proto key, proto_ids_ d !! i = Some proto -> protos !! i = Some key ->
    exists params, key = return_type_idx_ proto :: params /\ proto_params d proto params /\
      Forall (fun t => 0 <= t < NumIds (type_ids_ d)) key;
  wf_protos_length : length protos = length (proto_ids_ d);
  wf_protos_num : NumIds (proto_ids_ d) <= 2 ^ 16;
  wf_protos_sorted : sorted_keys protos;
  wf_fields_num : NumIds (field_ids_ d) <= 2 ^ 30;
  wf_fields_sorted : sorted_keys (map field_key (field_ids_ d));
  wf_methods_num : NumIds (method_ids_ d) <= 2 ^ 30;
  wf_methods_sorted : sorted_keys (map method_key (method_ids_ d));
  wf_classes_num : NumIds (class_defs_ d) <= 2 ^ 16;
  wf_classes : forall i c, class_defs_ d !! i = Some c -> 0 <= class_idx_ c < NumIds (type_ids_ d);
  wf_classes_unique : NoDup (map class_idx_ (class_defs_ d))
}.

Lemma entry_nat {A} (table : list A) i x : table !! i = Some x -> entry table (Z.of_nat i) = Done x.
Proof. unfold entry. intros H. by rewrite Nat2Z.id, H. Qed.

Lemma compareTo_sgn1 a b : Z.sgn (order3 a b) = Z.sgn (compareTo [a] [b]).
Proof.
  unfold order3. cbn. destruct (Z.ltb_spec b a), (Z.ltb_spec a b), (Z.eqb_spec a b); cbn; lia.
Qed.

Lemma compareTo_sgn3 a b c a' b' c' :
  Z.sgn (if a' <? a then 1 else if a <? a' then -1
         else if b' <? b then 1 else if b <? b' then -1
         else if c' <? c then 1 else if c <? c' then -1 else 0) = Z.sgn (compareTo [a; b; c] [a'; b'; c']).
Proof.
  cbn. destruct (Z.ltb_spec a' a), (Z.ltb_spec a a'), (Z.eqb_spec a a'); try lia;
    destruct (Z.ltb_spec b' b), (Z.ltb_spec b b'), (Z.eqb_spec b b'); try lia;
    destruct (Z.ltb_spec c' c), (Z.ltb_spec c c'), (Z.eqb_spec c c'); lia.
Qed.

Section Find.
Context (sg : bool) (w : Z) (d : DexFile) (strs protos : list (list Z)).
Hypothesis Hd : wf_dex d strs protos.

Lemma GetStringData_ok i s : strs !! i = Some s ->
  exists off rest, string_ids_ d !! i = Some off /\ GetStringData d off = Done (utf8z s rest) /\ Forall (in_u 16) s.
Proof.
  intros Hs. pose proof (lookup_lt_Some _ _ _ Hs) as Hi. rewrite (wf_strings_length _ _ _ Hd) in Hi.
  destruct (lookup_lt_is_Some_2 _ _ Hi) as [off Hoff]. destruct (wf_strings _ _ _ Hd i off s Hoff Hs) as (Hu & len & rest & E).
  exists off, rest. split; [done|]. split; [|done]. unfold GetStringData, GetStringDataAndUtf16Length. by rewrite E.
Qed.

Lemma FindStringId_ok s rest : Forall (in_u 16) s ->
  exists r, FindStringId sg d (utf8z s rest) = Done r /\ is_index_of strs s r.
Proof.
  intros Hs. apply find_key; [apply Hd..|]. intros i k Hk.
  destruct (GetStringData_ok i k Hk) as (off & rest' & Hoff & E & Hu). rewrite (entry_nat _ _ _ Hoff).
  cbn [mbind cres_bind]. rewrite E. cbn [mbind cres_bind]. rewrite compare_utf8_ok by done. eauto.
Qed.

Lemma FindStringId_utf16_none c t : c <> 0 -> FindStringId_utf16 d (c :: t) = Done None.
Proof.
  intros Hc. set (cmp mid := str_id ← entry (string_ids_ d) mid; str ← GetStringData d str_id;
    CompareModifiedUtf8ToUtf16AsCodePointValues str (c :: t)).
  assert (forall i, 0 <= i < NumIds (string_ids_ d) -> exists v, cmp i = Done v /\ v <> 0) as Hcmp.
  { intros i Hi. unfold NumIds in Hi. rewrite <- (wf_strings_length _ _ _ Hd) in Hi.
    destruct (lookup_lt_is_Some_2 strs (Z.to_nat i)) as [s Hs]; [lia|].
    destruct (GetStringData_ok _ s Hs) as (off & rest & Hoff & E & Hu). unfold cmp, entry. rewrite Hoff.
    cbn [deref mbind cres_bind]. rewrite E. cbn [mbind cres_bind]. by apply compare_utf16_first. }
  pose proof (wf_strings_num _ _ _ Hd).
  destruct (bsearch_sound cmp (fun i => match cmp i with Done v => v | Fault _ => 0 end) (NumIds (string_ids_ d)))
    as (r & E & Hr).
  - unfold NumIds in *. lia.
  - intros i Hi. destruct (Hcmp i Hi) as (v & -> & _). reflexivity.
  - unfold FindStringId_utf16. fold cmp. rewrite E. destruct r as [i|]; [|reflexivity]. exfalso.
    destruct (Hr i eq_refl) as [Hi H0]. destruct (Hcmp i Hi) as (v & Ev & Hv). rewrite Ev in H0. done.
Qed.

Lemma FindTypeId_ok idx : exists r, FindTypeId d idx = Done r /\ is_index_of (type_keys d) [idx] r.
Proof.
  pose proof (wf_types_num _ _ _ Hd).
  apply find_key; [by unfold type_keys; rewrite length_map|lia|apply Hd|]. intros i k Hk.
  unfold type_keys in Hk. rewrite list_lookup_fmap in Hk.
  destruct (type_ids_ d !! i) as [t|] eqn:Et; [|done]. injection Hk as <-.
  rewrite (entry_nat _ _ _ Et). cbn [mbind cres_bind]. eexists. split; [done|]. apply compareTo_sgn1.
Qed.

Lemma FindFieldId_ok class name type : in_u 16 class -> in_u 16 type ->
  exists r, FindFieldId d class name type = Done r /\ is_index_of (map field_key (field_ids_ d)) [class; name; type] r.
Proof.
  intros Hc Ht. unfold FindFieldId. rewrite !uwrap_small by done.
  apply find_key; [by rewrite length_map|apply Hd..|]. intros i k Hk. rewrite list_lookup_fmap in Hk.
  destruct (field_ids_ d !! i) as [f|] eqn:Ef; [|done]. injection Hk as <-.
  rewrite (entry_nat _ _ _ Ef). cbn [mbind cres_bind]. eexists. split; [done|]. apply compareTo_sgn3.
Qed.

Lemma FindMethodId_ok class name proto : in_u 16 class -> in_u 16 proto ->
  exists r, FindMethodId d class name proto = Done r /\ is_index_of (map method_key (method_ids_ d)) [class; name; proto] r.
Proof.
  intros Hc Ht. unfold FindMethodId. rewrite !uwrap_small by done.
  apply find_key; [by rewrite length_map|apply Hd..|]. intros i k Hk. rewrite list_lookup_fmap in Hk.
  destruct (method_ids_ d !! i) as [m|] eqn:Em; [|done]. injection Hk as <-.
  rewrite (entry_nat _ _ _ Em). cbn [mbind cres_bind]. eexists. split; [done|]. apply compareTo_sgn3.
Qed.

(** The comparison of prototypes is the order of their keys. *)
Lemma compare_params_ok l params k compare sig : TypeList_Size l = Done (Z.of_nat (length params)) ->
  (forall i t, params !! i = Some t -> GetTypeItem l (Z.of_nat i) = Done t) -> (k <= length params)%nat ->
  ('(compare, pos, sig) ← compare_params l (Z.of_nat (length params)) (Z.of_nat k) compare sig;
   Done (if compare =? 0 then if pos <? Z.of_nat (length params) then -1 else match sig with [] => 0 | _ => 1 end
         else compare))
  = Done (if compare =? 0 then compareTo sig (drop k params) else compare).
Proof.
  intros Hsize Hitem. revert k compare. induction sig as [|s sig IH]; intros k compare Hk; cbn [compare_params].
  - cbn [mbind cres_bind]. destruct (compare =? 0); [|done].
    destruct (drop k params) as [|t rest] eqn:Ed.
    + apply (f_equal length) in Ed. rewrite length_drop in Ed. cbn in Ed. by rewrite (proj2 (Z.ltb_ge _ _)) by lia.
    + apply (f_equal length) in Ed. rewrite length_drop in Ed. cbn in Ed. by rewrite (proj2 (Z.ltb_lt _ _)) by lia.
  - destruct (Z.eqb_spec compare 0) as [->|Hne].
    + destruct (Z.ltb_spec (Z.of_nat k) (Z.of_nat (length params))) as [Hlt|Hge]; cbn [andb].
      * destruct (lookup_lt_is_Some_2 params k) as [t Ht]; [lia|]. rewrite (Hitem k t Ht), (drop_S _ _ _ Ht). cbn [mbind cres_bind].
        replace (Z.of_nat k + 1) with (Z.of_nat (S k)) by lia. rewrite IH by lia. cbn [compareTo].
        destruct (Z.eqb_spec s t), (Z.eqb_spec (s - t) 0); (done || lia).
      * cbn. rewrite (proj2 (Z.ltb_ge _ _)), drop_ge by lia. done.
    + rewrite andb_false_r. cbn. by rewrite (proj2 (Z.eqb_neq _ _) Hne).
Qed.

Lemma compare_proto_ok ret sig proto params : proto_params d proto params ->
  compare_proto d ret sig proto = Done (compareTo (ret :: sig) (return_type_idx_ proto :: params)).
Proof.
  unfold proto_params, compare_proto. intros Hp. cbn [compareTo].
  assert ((ret - return_type_idx_ proto =? 0) = (ret =? return_type_idx_ proto)) as ->.
  { destruct (Z.eqb_spec (ret - return_type_idx_ proto) 0), (Z.eqb_spec ret (return_type_idx_ proto)); (done || lia). }
  destruct (Z.eqb_spec ret (return_type_idx_ proto)) as [->|]; [|done]. rewrite Z.sub_diag.
  destruct (GetProtoParameters d proto) as [l|]; cbn [default from_option id].
  - destruct Hp as [Hsize Hitem]. rewrite Hsize. cbn [mbind cres_bind].
    exact (compare_params_ok l params 0 0 sig Hsize Hitem ltac:(lia)).
  - subst. destruct sig; done.
Qed.

Lemma FindProtoId_ok ret sig :
  exists r, FindProtoId d ret sig = Done r /\ is_index_of protos (ret :: sig) r.
Proof.
  pose proof (wf_protos_num _ _ _ Hd). apply find_key; [apply Hd|lia|apply Hd|]. intros i k Hk.
  pose proof (lookup_lt_Some _ _ _ Hk) as Hi. rewrite (wf_protos_length _ _ _ Hd) in Hi.
  destruct (lookup_lt_is_Some_2 _ _ Hi) as [proto Hproto].
  destruct (wf_protos _ _ _ Hd i proto k Hproto Hk) as (params & -> & Hp & _).
  rewrite (entry_nat _ _ _ Hproto). cbn [mbind cres_bind]. rewrite (compare_proto_ok _ _ _ _ Hp). eauto.
Qed.

(** ** Descriptors *)

(** The string that describes a type. *)
Definition describes (t : Z) (s : list Z) : Prop :=
  0 <= t /\ exists i, type_ids_ d !! Z.to_nat t = Some i /\ strs !! Z.to_nat i = Some s.

Lemma type_described t : 0 <= t < NumIds (type_ids_ d) -> exists s, describes t s.
Proof.
  unfold NumIds. intros Ht. destruct (lookup_lt_is_Some_2 (type_ids_ d) (Z.to_nat t)) as [i Hi]; [lia|].
  pose proof (wf_types _ _ _ Hd _ _ Hi) as Hr. unfold NumIds in Hr. rewrite <- (wf_strings_length _ _ _ Hd) in Hr.
  destruct (lookup_lt_is_Some_2 strs (Z.to_nat i)) as [s Hs]; [lia|]. exists s. split; [lia|]. eauto.
Qed.

Lemma StringByTypeIdx_ok t s : describes t s -> Forall (in_u 16) s /\
  exists rest, StringByTypeIdx d t = Done (Some (utf8z s rest)).
Proof.
  intros (Ht & i & Hi & Hs). destruct (GetStringData_ok _ s Hs) as (off & rest & Hoff & E & Hu). split; [done|].
  exists rest. unfold StringByTypeIdx, StringDataByIdx, entry. rewrite Hi. cbn [deref mbind cres_bind].
  pose proof (wf_types _ _ _ Hd _ _ Hi). pose proof (wf_strings_num _ _ _ Hd).
  rewrite (proj2 (Z.eqb_neq i kDexNoIndex)) by (unfold kDexNoIndex; lia).
  rewrite Hoff. cbn [deref mbind cres_bind]. by rewrite E.
Qed.

(** Looking a descriptor up gives the type it describes. *)
Lemma lookup_type_ok s rest : Forall (in_u 16) s ->
  exists r, lookup_type sg d (utf8z s rest) = Done r /\ forall t, r = Some t <-> describes t s.
Proof.
  intros Hu. unfold lookup_type. destruct (FindStringId_ok s rest Hu) as (r & -> & Hidx). cbn [mbind cres_bind].
  destruct r as [i|].
  - destruct (FindTypeId_ok i) as (r & -> & Hr). exists r. split; [reflexivity|]. intros t. rewrite (Hr t).
    destruct (proj1 (Hidx i) eq_refl) as [Hi Hs]. unfold type_keys, describes. rewrite list_lookup_fmap. split.
    + intros [Ht E]. split; [done|]. destruct (type_ids_ d !! Z.to_nat t) as [j|]; [|done]. injection E as ->. eauto.
    + intros (Ht & j & Hj & Hs'). split; [done|]. rewrite Hj. cbn. do 2 f_equal.
      pose proof (wf_types _ _ _ Hd _ _ Hj). assert (Some i = Some j) as [= ->] by (apply Hidx; split; [lia|done]). done.
  - exists None. split; [reflexivity|]. intros t. split; [done|]. intros (Ht & j & Hj & Hs).
    pose proof (wf_types _ _ _ Hd _ _ Hj). assert (None = Some j) by (apply Hidx; split; [lia|done]). done.
Qed.

Lemma descriptor_lookup t s rest : describes t s -> lookup_type sg d (utf8z s rest) = Done (Some t).
Proof.
  intros (Ht & i & Hi & Hs). destruct (GetStringData_ok _ s Hs) as (_ & _ & _ & _ & Hu).
  destruct (lookup_type_ok s rest Hu) as (r & -> & Hr). f_equal. apply Hr. split; eauto.
Qed.

Lemma skip_class_ok name desc more : chr ";" ∉ name ->
  skip_class (name ++ chr ";" :: more) desc = Some (more, desc ++ name ++ [chr ";"]).
Proof.
  revert desc. induction name as [|c name IH]; intros desc Hn; [done|]. cbn [app skip_class].
  rewrite not_elem_of_cons in Hn. destruct Hn as [Hne Hn].
  rewrite (proj2 (Z.eqb_neq c (chr ";"))) by done. rewrite IH by done. by rewrite <- app_assoc.
Qed.

(** The parser reads exactly one descriptor. *)
Lemma parse_ok b more : is_descriptor b -> exists c tl, b = c :: tl /\ c <> chr ")" /\
  parse_descriptor c (tl ++ more) = Some (more, b).
Proof.
  unfold parse_descriptor.
  enough (is_descriptor b -> exists c tl, b = c :: tl /\ c <> chr ")" /\ forall desc,
    ('(c, rest, descriptor) ← skip_array c (tl ++ more) (desc ++ [c]);
     if c =? chr "L" then skip_class rest descriptor else Some (rest, descriptor)) = Some (more, desc ++ b)) as H.
  { intros (c & tl & -> & Hc & E)%H. exists c, tl. split; [done|]. split; [done|]. exact (E []). }
  induction 1 as [c H1 H2 H3|s Hs (c & tl & -> & Hc & IH)|name Hname].
  - exists c, []. split; [done|]. split; [done|]. intros desc. cbn [app].
    destruct more; cbn [skip_array]; rewrite (proj2 (Z.eqb_neq _ _) H1); cbn [mbind option_bind]; by rewrite (proj2 (Z.eqb_neq _ _) H2).
  - exists (chr "["), (c :: tl). split; [done|]. split; [done|]. intros desc. cbn [app skip_array].
    rewrite Z.eqb_refl, (IH (desc ++ [chr "["])), <- app_assoc. done.
  - exists (chr "L"), (name ++ [chr ";"]). split; [done|]. split; [done|]. intros desc.
    rewrite <- app_assoc. cbn [app].
    assert (forall r, skip_array (chr "L") r (desc ++ [chr "L"]) = Some (chr "L", r, desc ++ [chr "L"])) as ->
      by (by intros []).
    cbn [mbind option_bind]. rewrite Z.eqb_refl, skip_class_ok by done. by rewrite <- app_assoc.
Qed.

(** ** Signatures as text *)

Definition signature_text (ss : list (list Z)) (sr : list Z) : list Z :=
  lit "(" ++ concat (map utf8 ss) ++ lit ")" ++ utf8 sr.

Lemma append_ok result t s : describes t s ->
  (str ← StringByTypeIdx d t; append result str) = Done (result ++ utf8 s).
Proof.
  intros (Hu & rest & ->)%StringByTypeIdx_ok. cbn [mbind cres_bind append]. unfold utf8z.
  rewrite c_str_app; [done|]. eapply Forall_impl; [by apply utf8_nonzero|]. cbn. lia.
Qed.

Lemma append_params_ok l params k ss result :
  (forall i t, params !! i = Some t -> GetTypeItem l (Z.of_nat i) = Done t) ->
  Forall2 describes (drop k params) ss ->
  append_params d l (Z.of_nat k) (length ss) result = Done (result ++ concat (map utf8 ss)).
Proof.
  intros Hitem. revert k result. induction ss as [|s ss IH]; intros k result Hall; cbn [append_params length].
  { by rewrite app_nil_r. }
  destruct (drop k params) as [|t rest] eqn:Ed; [inversion Hall|]. apply Forall2_cons in Hall as [Ht Hall].
  assert (params !! k = Some t) as Hk by (by rewrite <- (Nat.add_0_r k), <- lookup_drop, Ed).
  rewrite (Hitem k t Hk). cbn [mbind cres_bind]. pose proof (append_ok result t s Ht) as E.
  unfold mbind, cres_bind in E |- *. destruct (StringByTypeIdx d t) as [str|]; [|done]. rewrite E.
  replace (Z.of_nat k + 1) with (Z.of_nat (S k)) by lia. rewrite IH.
  - cbn [map concat]. by rewrite <- app_assoc.
  - by rewrite (drop_S _ _ _ Hk) in Ed; injection Ed as ->.
Qed.

Lemma ToString_ok p proto params ss sr : proto_ids_ d !! Z.to_nat p = Some proto -> proto_params d proto params ->
  Forall2 describes params ss -> describes (return_type_idx_ proto) sr ->
  ToString d (Some p) = Done (signature_text ss sr).
Proof.
  intros Hproto Hp Hss Hsr. unfold ToString, entry. rewrite Hproto. cbn [deref mbind cres_bind].
  assert ((match GetProtoParameters d proto with
           | None => Done (lit "()")
           | Some params => size ← TypeList_Size params;
               result ← append_params d params 0 (Z.to_nat size) (lit "("); Done (result ++ lit ")")
           end) = Done (lit "(" ++ concat (map utf8 ss) ++ lit ")")) as ->.
  { unfold proto_params in Hp. destruct (GetProtoParameters d proto) as [l|].
    - destruct Hp as [-> Hitem]. cbn [mbind cres_bind]. rewrite Nat2Z.id, (Forall2_length _ _ _ Hss).
      rewrite (append_params_ok l params 0 ss) by done. cbn [mbind cres_bind]. by rewrite <- app_assoc.
    - subst. apply Forall2_nil_inv_l in Hss. by subst. }
  cbn [mbind cres_bind]. rewrite append_ok with (s := sr) by done. unfold signature_text. by rewrite <- !app_assoc.
Qed.

(** One type of a signature, and all parameters. *)
Lemma type_list_step lookup f t b rest process_return params : is_descriptor b -> lookup (b ++ [0]) = Done (Some t) ->
  in_u 16 t ->
  type_list_loop (S f) lookup (b ++ rest) process_return params =
  if process_return : bool then Done (bool_decide (rest = []), Some t, params)
  else type_list_loop f lookup rest process_return (params ++ [t]).
Proof.
  intros Hb Hl Ht. destruct (parse_ok b rest Hb) as (c & tl & E & Hc & Hparse).
  rewrite E at 1. cbn [app type_list_loop]. rewrite (proj2 (Z.eqb_neq _ _) Hc), Hparse, Hl. cbn [mbind cres_bind].
  by rewrite uwrap_small.
Qed.

Lemma type_list_close lookup f rest process_return params :
  type_list_loop (S f) lookup (chr ")" :: rest) process_return params = type_list_loop f lookup rest true params.
Proof. reflexivity. Qed.

Lemma describes_step f t s rest process_return params : describes t s ->
  type_list_loop (S f) (lookup_type sg d) (utf8 s ++ rest) process_return params =
  if process_return : bool then Done (bool_decide (rest = []), Some t, params)
  else type_list_loop f (lookup_type sg d) rest process_return (params ++ [t]).
Proof.
  intros Hts. apply type_list_step.
  - destruct Hts as (Ht & i & Hi & Hs). exact (wf_descriptors _ _ _ Hd _ _ _ Hi Hs).
  - exact (descriptor_lookup t s [] Hts).
  - destruct Hts as (Ht & i & Hi & _). pose proof (wf_types_num _ _ _ Hd) as Hn.
    pose proof (lookup_lt_Some _ _ _ Hi). unfold NumIds in Hn. unfold in_u. lia.
Qed.

Lemma type_list_params f ps ss rest acc : Forall2 describes ps ss ->
  type_list_loop (length ss + f) (lookup_type sg d) (concat (map utf8 ss) ++ rest) false acc =
  type_list_loop f (lookup_type sg d) rest false (acc ++ ps).
Proof.
  intros H. revert acc. induction H as [|t s ps ss Ht _ IH]; intros acc; [by rewrite app_nil_r|].
  cbn [map concat length Nat.add]. rewrite <- app_assoc, (describes_step _ t) by exact Ht. rewrite IH.
  by rewrite <- app_assoc.
Qed.

Lemma descriptors_length ps ss : Forall2 describes ps ss -> (length ss <= length (concat (map utf8 ss)))%nat.
Proof.
  induction 1 as [|t s ps ss (_ & i & Hi & Hs) _ IH]; [done|]. cbn [map concat length]. rewrite length_app.
  pose proof (wf_descriptors _ _ _ Hd _ _ _ Hi Hs) as Hdesc. destruct Hdesc; cbn [length]; lia.
Qed.

Lemma CreateTypeList_ok params ss ret sr : Forall2 describes params ss -> describes ret sr ->
  CreateTypeList sg d (signature_text ss sr) = Done (true, Some ret, params).
Proof.
  intros Hss Hsr. pose proof (descriptors_length _ _ Hss) as Hl.
  set (tl := concat (map utf8 ss) ++ chr ")" :: utf8 sr).
  assert (exists f, length (chr "(" :: tl) = (length ss + S (S f))%nat) as [f Ef].
  { exists (length (chr "(" :: tl) - length ss - 2)%nat. subst tl. cbn [length]. rewrite length_app. cbn [length]. lia. }
  change (signature_text ss sr) with (chr "(" :: tl). unfold CreateTypeList. rewrite Ef.
  cbn [head deref mbind cres_bind tail]. rewrite Z.eqb_refl. subst tl. rewrite (type_list_params _ params) by exact Hss.
  rewrite type_list_close. rewrite <- (app_nil_r (utf8 sr)), (describes_step _ ret) by exact Hsr.
  by rewrite bool_decide_true.
Qed.

Lemma CreateSignature_ToString p : 0 <= p < NumIds (proto_ids_ d) ->
  exists text, ToString d (Some p) = Done text /\ CreateSignature sg d text = Done (Some p).
Proof.
  unfold NumIds. intros Hp. destruct (lookup_lt_is_Some_2 (proto_ids_ d) (Z.to_nat p)) as [proto Hproto]; [lia|].
  destruct (lookup_lt_is_Some_2 protos (Z.to_nat p)) as [key Hkey]; [rewrite (wf_protos_length _ _ _ Hd); lia|].
  destruct (wf_protos _ _ _ Hd _ _ _ Hproto Hkey) as (params & -> & Hparams & [Hret Hall]%Forall_cons).
  destruct (type_described _ Hret) as [sr Hsr].
  assert (exists ss, Forall2 describes params ss) as [ss Hss].
  { clear -Hd Hall. induction Hall as [|t params Ht _ [ss IH]]; [by exists []|].
    destruct (type_described _ Ht) as [s Hs]. exists (s :: ss). by constructor. }
  exists (signature_text ss sr). split; [by eapply ToString_ok|].
  unfold CreateSignature. rewrite (CreateTypeList_ok _ _ _ _ Hss Hsr). cbn [mbind cres_bind default from_option id].
  destruct (FindProtoId_ok (return_type_idx_ proto) params) as (r & -> & Hr). f_equal. apply Hr. split; [lia|done].
Qed.

(** ** Class definitions *)

(** The class definition of the class a descriptor names. *)
Definition defines (i : Z) (s : list Z) : Prop :=
  0 <= i /\ exists c, class_defs_ d !! Z.to_nat i = Some c /\ describes (class_idx_ c) s.

Lemma class_small i c : class_defs_ d !! i = Some c -> u16 (Z.of_nat i) = Z.of_nat i.
Proof.
  intros Hi%lookup_lt_Some. pose proof (wf_classes_num _ _ _ Hd) as Hn. unfold NumIds in Hn.
  apply uwrap_small. unfold in_u. lia.
Qed.

Lemma find_class_loop_ok type_idx k n : (k + n = length (class_defs_ d))%nat ->
  exists r, find_class_loop d type_idx (Z.of_nat k) n = Done r /\
    (forall i, r = Some i -> 0 <= i /\ exists c, class_defs_ d !! Z.to_nat i = Some c /\ class_idx_ c = type_idx) /\
    (r = None -> forall i c, (k <= i)%nat -> class_defs_ d !! i = Some c -> class_idx_ c <> type_idx).
Proof.
  revert k. induction n as [|n IH]; intros k Hk; cbn [find_class_loop].
  - exists None. split; [done|]. split; [done|]. intros _ i c Hi Hc%lookup_lt_Some. lia.
  - destruct (lookup_lt_is_Some_2 (class_defs_ d) k) as [c Hc]; [lia|].
    rewrite (class_small _ _ Hc), (entry_nat _ _ _ Hc). cbn [mbind cres_bind].
    destruct (Z.eqb_spec (class_idx_ c) type_idx) as [E|Hne].
    + exists (Some (Z.of_nat k)). split; [done|]. split; [|done]. intros i [= <-]. split; [lia|].
      exists c. by rewrite Nat2Z.id.
    + replace (Z.of_nat k + 1) with (Z.of_nat (S k)) by lia. destruct (IH (S k)) as (r & E & H1 & H2); [lia|].
      exists r. split; [exact E|]. split; [done|]. intros Hr i c' Hi Hc'.
      destruct (decide (i = k)) as [->|]; [congruence|]. eapply H2; [done| |done]. lia.
Qed.

Lemma class_idx_inj i j c c' : class_defs_ d !! i = Some c -> class_defs_ d !! j = Some c' -> class_idx_ c = class_idx_ c' ->
  i = j.
Proof.
  intros Hi Hj E. eapply (NoDup_lookup _ _ _ (class_idx_ c)); [exact (wf_classes_unique _ _ _ Hd)|..];
    rewrite list_lookup_fmap; [by rewrite Hi|rewrite Hj; cbn; by rewrite E].
Qed.

Lemma describes_inj t t' s : describes t s -> describes t' s -> t = t'.
Proof.
  intros H1 H2. pose proof (descriptor_lookup t s [] H1) as E. rewrite (descriptor_lookup t' s [] H2) in E.
  by injection E.
Qed.

Lemma describes_fun t s s' : describes t s -> describes t s' -> s = s'.
Proof. intros (_ & i & Hi & Hs) (_ & j & Hj & Hs'). congruence. Qed.

Lemma defines_inj i j s : defines i s -> defines j s -> i = j.
Proof.
  intros (Hi & c & Hc & Hs) (Hj & c' & Hc' & Hs'). pose proof (describes_inj _ _ _ Hs Hs') as E.
  pose proof (class_idx_inj _ _ _ _ Hc Hc' E). lia.
Qed.

Lemma search_class_def_ok s rest : Forall (in_u 16) s ->
  exists r, search_class_def sg d (utf8z s rest) = Done r /\ forall i, r = Some i <-> defines i s.
Proof.
  intros Hu. unfold search_class_def. destruct (lookup_type_ok s rest Hu) as (r & -> & Hr). cbn [mbind cres_bind].
  destruct r as [t|].
  - assert (describes t s) as Ht by (by apply Hr).
    assert (u16 t = t) as ->.
    { destruct Ht as (H0 & j & Hj%lookup_lt_Some & _). pose proof (wf_types_num _ _ _ Hd) as Hn. unfold NumIds in Hn.
      apply uwrap_small. unfold in_u. lia. }
    destruct (find_class_loop_ok t 0 (length (class_defs_ d)) eq_refl) as (r & E & H1 & H2).
    exists r. split; [exact E|]. intros i. split.
    + intros (Hi & c & Hc & Et)%H1. split; [done|]. exists c. split; [done|]. by rewrite Et.
    + intros (Hi & c & Hc & Hs). assert (class_idx_ c = t) as Et by (by eapply describes_inj).
      destruct r as [j|]; [|destruct (H2 eq_refl _ c (Nat.le_0_l _) Hc); done].
      destruct (H1 j eq_refl) as (Hj & c' & Hc' & Et'). f_equal.
      pose proof (class_idx_inj _ _ _ _ Hc' Hc ltac:(congruence)). lia.
  - exists None. split; [reflexivity|]. intros i. split; [done|]. intros (_ & c & _ & Hs).
    by apply Hr in Hs.
Qed.

(** ** The index *)

(** An entry of the index: the descriptor of a class definition. *)
Definition entry_ok (e : list Z * Z) : Prop :=
  exists s rest, e.1 = utf8z s rest /\ Forall (in_u 16) s /\ defines e.2 s.

Record index_upto (k : nat) (index : Index) : Prop := {
  index_wf : wf (descriptor_hash sg w) index;
  index_entries : forall e, e ∈ elems (data_ index) -> entry_ok e;
  index_all : forall i, (i < k)%nat -> exists e, e ∈ elems (data_ index) /\ e.2 = Z.of_nat i
}.

Lemma build_index_ok k n index : (k + n = length (class_defs_ d))%nat -> index_upto k index ->
  exists index', build_index sg w d index (Z.of_nat k) n = Done index' /\ index_upto (length (class_defs_ d)) index'.
Proof.
  revert k index. induction n as [|n IH]; intros k index Hk Hidx; cbn [build_index].
  { exists index. split; [done|]. by replace (length (class_defs_ d)) with k by lia. }
  destruct (lookup_lt_is_Some_2 (class_defs_ d) k) as [c Hc]; [lia|].
  rewrite (class_small _ _ Hc), (entry_nat _ _ _ Hc). cbn [mbind cres_bind]. unfold GetClassDescriptor.
  destruct (type_described _ (wf_classes _ _ _ Hd _ _ Hc)) as [s Hs].
  destruct (StringByTypeIdx_ok _ _ Hs) as (Hu & rest & ->). cbn [mbind cres_bind].
  destruct Hidx as [Hwf Hent Hall].
  destruct (Insert_ok (descriptor_hash sg w) index (utf8z s rest, Z.of_nat k) Hwf) as (index' & -> & Hwf' & Hel).
  cbn [mbind cres_bind]. replace (Z.of_nat k + 1) with (Z.of_nat (S k)) by lia. apply IH; [lia|]. split; [done|..].
  - intros e. rewrite Hel, elem_of_cons. intros [->|He]; [|by apply Hent]. exists s, rest. split_and!; [done..|].
    split; [cbn; lia|]. exists c. cbn. by rewrite Nat2Z.id.
  - intros i Hi. setoid_rewrite Hel. destruct (decide (i = k)) as [->|].
    + eexists. split; [apply elem_of_cons; by left|done].
    + destruct (Hall i) as (e & He & Ei); [lia|]. exists e. split; [apply elem_of_cons; by right|done].
Qed.

(** The table without elements indexes no class. *)
Lemma index_start : index_upto 0 make_HashSet.
Proof. split; [apply make_HashSet_wf|intros e He; inversion He|lia]. Qed.

(** A search in the index finds the class definition. *)
Lemma index_find index s rest hash : index_upto (length (class_defs_ d)) index -> Forall (in_u 16) s ->
  ComputeModifiedUtf8Hash sg w (utf8z s rest) = Done hash ->
  exists it r, FindWithHash index (descriptor_eq sg (utf8z s rest)) hash = Done it /\
    (if (it =? end_ index)%nat then Done None
     else e ← ElementForIndex index it; Done (match e with Some e => Some e.2 | None => None end)) = Done r /\
    forall i, r = Some i <-> defines i s.
Proof.
  intros [Hwf Hent Hall] Hu Hhash. rewrite utf8_hash_ok in Hhash by done. injection Hhash as <-.
  assert (forall e, entry_ok e -> descriptor_eq sg (utf8z s rest) e = true <-> defines e.2 s) as Heq.
  { intros [key i] (s' & rest' & E & Hu' & Hdef). cbn in E. subst key. unfold descriptor_eq. cbn [fst snd] in *.
    rewrite compare_utf8_ok by done. rewrite Z.eqb_eq. split; [by intros <-%compareTo_eq|].
    intros Hdef'. destruct Hdef as (_ & c & Hc & Hs), Hdef' as (_ & c' & Hc' & Hs').
    assert (c' = c) as -> by congruence. rewrite (describes_fun _ _ _ Hs Hs'). apply compareTo_refl. }
  destruct (FindWithHash_ok (descriptor_hash sg w) index (descriptor_eq sg (utf8z s rest))
              (bytes_hash sg w 0 (utf8 s)) Hwf) as (it & E & Hit).
  { intros e He Hpe. pose proof (Hent e He) as Hok. apply Heq in Hpe; [|done].
    destruct Hok as (s' & rest' & Ekey & Hu' & Hdef). unfold descriptor_hash. rewrite Ekey, utf8_hash_ok by done.
    destruct Hdef as (_ & c & Hc & Hs), Hpe as (_ & c' & Hc' & Hs'). assert (c' = c) as -> by congruence.
    by rewrite (describes_fun _ _ _ Hs Hs'). }
  exists it. rewrite E. destruct Hit as [[Hlt (e & He & Hpe)]|[-> Hno]].
  - exists (Some e.2). unfold end_. rewrite (proj2 (Nat.eqb_neq _ _)) by lia. unfold ElementForIndex. rewrite He.
    split; [done|]. split; [done|].
    assert (defines e.2 s) as Hdef by (apply Heq; [apply Hent, elem_of_elems; eauto|done]).
    intros i. split; [by intros [= <-]|]. intros Hdef'. by rewrite (defines_inj _ _ _ Hdef Hdef').
  - exists None. rewrite Nat.eqb_refl. split; [done|]. split; [done|]. intros i. split; [done|]. intros Hdef. exfalso.
    assert (0 <= i) by apply Hdef. destruct Hdef as (_ & c & Hc & Hs). pose proof (lookup_lt_Some _ _ _ Hc).
    destruct (Hall (Z.to_nat i)) as (e & He & Ee); [lia|]. rewrite Z2Nat.id in Ee by lia.
    assert (descriptor_eq sg (utf8z s rest) e = true) as Hpe.
    { apply Heq; [by apply Hent|]. rewrite Ee. split; [lia|]. eauto. }
    by rewrite (Hno e He) in Hpe.
Qed.

End Find.

(** ** Sequences of lookups *)

(** What a dex file keeps while classes are looked up. *)
Definition dex_inv (sg : bool) (w : Z) (strs protos : list (list Z)) (d : DexFile) : Prop :=
  wf_dex d strs protos /\
  match class_def_index_ d with
  | None => True
  | Some index => index_upto sg w d strs (length (class_defs_ d)) index
  end.

(** The parts of the file that the classes a descriptor names depend on. *)
Definition same_tables (d d' : DexFile) : Prop :=
  type_ids_ d' = type_ids_ d /\ class_defs_ d' = class_defs_ d.

Lemma defines_same d d' strs i s : same_tables d d' -> defines d strs i s <-> defines d' strs i s.
Proof. intros [E1 E2]. unfold defines, describes. by rewrite E1, E2. Qed.

Lemma FindClassDef_ok sg w strs protos d s rest hash : dex_inv sg w strs protos d -> Forall (in_u 16) s ->
  ComputeModifiedUtf8Hash sg w (utf8z s rest) = Done hash ->
  exists r d', FindClassDef sg w (utf8z s rest) hash d = Done (r, d') /\ (forall i, r = Some i <-> defines d strs i s) /\
    dex_inv sg w strs protos d' /\ same_tables d d'.
Proof.
  intros [Hd Hindex] Hu Hhash. unfold FindClassDef. destruct (class_def_index_ d) as [index|] eqn:Ei.
  { destruct (index_find sg w d strs protos Hd index s rest hash Hindex Hu Hhash) as (it & r & -> & E & Hr).
    cbn [mbind cres_bind]. exists r, d. split; [|by unfold dex_inv; rewrite Ei].
    destruct (it =? end_ index)%nat; [by injection E as <-|].
    destruct (ElementForIndex index it) as [e|]; [|done]. cbn [mbind cres_bind] in *. by injection E as <-. }
  destruct (Z.eqb_spec (NumIds (class_defs_ d)) 0) as [E0|_].
  { exists None, d. split; [done|]. split; [|by unfold dex_inv; rewrite Ei]. intros i. split; [done|].
    intros (_ & c & Hc%lookup_lt_Some & _). unfold NumIds in E0. lia. }
  destruct (search_class_def_ok sg d strs protos Hd s rest Hu) as (r & -> & Hr). cbn [mbind cres_bind].
  destruct r as [i|].
  { exists (Some i), d. split; [done|]. split; [done|]. by unfold dex_inv; rewrite Ei. }
  set (d1 := set_misses d (u32 (find_class_def_misses_ d + 1))).
  assert (wf_dex d1 strs protos) as Hd1 by (destruct Hd; by constructor).
  destruct (kMaxFailedDexClassDefLookups <? find_class_def_misses_ d1).
  - destruct (build_index_ok sg w d1 strs protos Hd1 0 (length (class_defs_ d1)) make_HashSet eq_refl
                (index_start sg w d1 strs)) as (index & E & Hidx).
    change (Z.of_nat 0) with 0 in E. rewrite E. exists None, (set_index d1 (Some index)).
    split; [done|]. split; [done|]. split; [|done]. split; [destruct Hd1; by constructor|].
    destruct Hidx. by constructor.
  - exists None, d1. split; [done|]. split; [done|]. split; [|done]. split; [done|]. cbn. by rewrite Ei.
Qed.

(** Lookups one after the other, the way callers make them. *)
Fixpoint find_all (sg : bool) (w : Z) (descriptors : list (list Z)) : prog DexFile (list (option Z)) :=
  match descriptors with
  | [] => mret []
  | descriptor :: descriptors =>
      hash ← plift (ComputeModifiedUtf8Hash sg w descriptor);
      r ← FindClassDef sg w descriptor hash;
      rs ← find_all sg w descriptors;
      mret (r :: rs)
  end.

Lemma find_all_ok sg w strs protos d ss : dex_inv sg w strs protos d -> Forall (Forall (in_u 16)) ss ->
  exists rs d', find_all sg w (map (fun s => utf8z s []) ss) d = Done (rs, d') /\
    Forall2 (fun s r => forall i, r = Some i <-> defines d strs i s) ss rs /\ dex_inv sg w strs protos d'.
Proof.
  intros Hinv Hss. revert d Hinv. induction Hss as [|s ss Hs _ IH]; intros d Hinv; cbn [find_all map].
  { exists [], d. split; [done|]. split; [constructor|done]. }
  unfold mbind, prog_bind, plift. pose proof (utf8_hash_ok sg w s [] Hs) as Eh. rewrite Eh.
  destruct (FindClassDef_ok sg w strs protos d s [] _ Hinv Hs Eh) as (r & d1 & -> & Hr & Hinv1 & Hsame).
  destruct (IH d1 Hinv1) as (rs & d2 & -> & Hrs & Hinv2). exists (r :: rs), d2. split; [done|]. split; [|done].
  constructor; [done|]. eapply Forall2_impl; [exact Hrs|]. intros s' r' H i. rewrite (H i). symmetry. by apply defines_same.
Qed.

(** C16: Looking classes up by name is right however often it is done.  On a dex
    file the verifier accepts, whatever the sequence of descriptors, every
    lookup returns and finds exactly the class definition whose type has that
    descriptor: by binary and linear search before, and through the index that
    is built after the 101st miss. *)
Theorem find_class_def_lookups sg w strs protos d ss
    (Hd : wf_dex d strs protos) (Hfresh : class_def_index_ d = None) (Hss : Forall (Forall (in_u 16)) ss) :
  exists rs d', find_all sg w (map (fun s => utf8z s []) ss) d = Done (rs, d') /\
    Forall2 (fun s r => forall i, r = Some i <-> defines d strs i s) ss rs.
Proof.
  destruct (find_all_ok sg w strs protos d ss) as (rs & d' & E & H & _); [split; [done|by rewrite Hfresh]|done|].
  exists rs, d'. split; [exact E|exact H].
Qed.

(** The binary searches of a dex file are right.  On sorted tables each of
    them returns, and finds the index of the entry looked for exactly when
    there is one: strings by their characters, types by their descriptor, fields
    and methods by class, name and type or prototype, prototypes by return and
    parameter types. *)
Theorem dex_searches_find sg strs protos d (Hd : wf_dex d strs protos) :
  (forall s rest, Forall (in_u 16) s ->
     exists r, FindStringId sg d (utf8z s rest) = Done r /\ is_index_of strs s r) /\
  (forall idx, exists r, FindTypeId d idx = Done r /\ is_index_of (type_keys d) [idx] r) /\
  (forall class name type, in_u 16 class -> in_u 16 type ->
     exists r, FindFieldId d class name type = Done r /\
       is_index_of (map field_key (field_ids_ d)) [class; name; type] r) /\
  (forall class name proto, in_u 16 class -> in_u 16 proto ->
     exists r, FindMethodId d class name proto = Done r /\
       is_index_of (map method_key (method_ids_ d)) [class; name; proto] r) /\
  (forall ret sig, exists r, FindProtoId d ret sig = Done r /\ is_index_of protos (ret :: sig) r).
Proof.
  split_and!; intros; [eapply FindStringId_ok|eapply FindTypeId_ok|eapply FindFieldId_ok|eapply FindMethodId_ok
    |eapply FindProtoId_ok]; first [exact Hd|assumption].
Qed.

(** Printing a signature and parsing it again is a round trip.  For every
    prototype of a dex file the verifier accepts, ToString writes the text of
    its signature, and CreateSignature on this text finds the prototype. *)
Theorem signature_roundtrip sg strs protos d p
    (Hd : wf_dex d strs protos) (Hp : 0 <= p < NumIds (proto_ids_ d)) :
  exists text, ToString d (Some p) = Done text /\ CreateSignature sg d text = Done (Some p).
Proof. by eapply CreateSignature_ToString. Qed.

(** The search for a UTF-16 string finds nothing.  The comparison it uses
    never advances in the UTF-16 string, so that in whatever dex file the
    verifier accepts, FindStringId(const uint16_t* ) returns null for every
    string that is not empty, also for those of the file. *)
Theorem find_string_id_utf16_fails strs protos d c t (Hd : wf_dex d strs protos) (Hc : c <> 0) :
  FindStringId_utf16 d (c :: t) = Done None.
Proof. by eapply FindStringId_utf16_none. Qed.

(** ** The theorems at work *)

(** A file with the strings I, LA; and V, a class A and the prototypes
    (I)LA; and ()V. *)
Definition demo_dex : DexFile := {|
  dex_begin_ := [1; 73; 0;  3; 76; 65; 59; 0;  1; 86; 0; 0;  1; 0; 0; 0; 0; 0];
  string_ids_ := [0; 3; 8];
  type_ids_ := [0; 1; 2];
  field_ids_ := [{| field_class_idx_ := 1; field_type_idx_ := 0; field_name_idx_ := 0 |}];
  method_ids_ := [{| method_class_idx_ := 1; method_proto_idx_ := 0; method_name_idx_ := 0 |};
                  {| method_class_idx_ := 1; method_proto_idx_ := 1; method_name_idx_ := 0 |}];
  proto_ids_ := [{| shorty_idx_ := 0; return_type_idx_ := 1; parameters_off_ := 12 |};
                 {| shorty_idx_ := 2; return_type_idx_ := 2; parameters_off_ := 0 |}];
  class_defs_ := [{| class_idx_ := 1; access_flags_ := 1; superclass_idx_ := 65535; interfaces_off_ := 0;
                     source_file_idx_ := 0; annotations_off_ := 0; class_data_off_ := 0; static_values_off_ := 0 |}];
  find_class_def_misses_ := 0;
  class_def_index_ := None
|}.
Definition demo_strs : list (list Z) := [[73]; [76; 65; 59]; [86]].
Definition demo_protos : list (list Z) := [[1; 0]; [2]].

Lemma sorted_by_neighbours keys :
  (forall i s t, keys !! i = Some s -> keys !! S i = Some t -> compareTo s t < 0) -> sorted_keys keys.
Proof.
  intros H i j s t Hij. revert t. induction Hij as [|j Hij IH]; intros t Hs Ht; [by eapply H|].
  destruct (lookup_lt_is_Some_2 keys j) as [u Hu]; [apply lookup_lt_Some in Ht; lia|].
  eapply compareTo_trans; [by apply IH|by eapply H].
Qed.

(** Goes through the entries of the tables of the example. *)
Ltac entries i := destruct i as [|[|[|i]]]; cbn in *; try done; simplify_eq.

Lemma demo_strings i off s : string_ids_ demo_dex !! i = Some off -> demo_strs !! i = Some s ->
  Forall (in_u 16) s /\ exists len rest, DecodeUnsignedLeb128 (at_offset demo_dex off) = Done (len, utf8z s rest).
Proof.
  intros Ho Hs. entries i; (split; [repeat constructor; vm_compute; congruence|]).
  - exists 1, (drop 3 (dex_begin_ demo_dex)). reflexivity.
  - exists 3, (drop 8 (dex_begin_ demo_dex)). reflexivity.
  - exists 1, (drop 11 (dex_begin_ demo_dex)). reflexivity.
Qed.

Lemma demo_descriptors t i s : type_ids_ demo_dex !! t = Some i -> demo_strs !! Z.to_nat i = Some s ->
  is_descriptor (utf8 s).
Proof.
  intros Ht Hs. entries t; vm_compute in Hs; injection Hs as <-.
  - apply descriptor_prim; vm_compute; congruence.
  - apply (descriptor_class [65]). intros H%list_elem_of_singleton. vm_compute in H. congruence.
  - apply descriptor_prim; vm_compute; congruence.
Qed.

Lemma demo_protos_ok i proto key : proto_ids_ demo_dex !! i = Some proto -> demo_protos !! i = Some key ->
  exists params, key = return_type_idx_ proto :: params /\ proto_params demo_dex proto params /\
    Forall (fun t => 0 <= t < NumIds (type_ids_ demo_dex)) key.
Proof.
  intros Hp Hk. entries i.
  - exists [0]. split; [done|]. split; [|repeat constructor; vm_compute; congruence].
    split; [reflexivity|]. intros i t Hi. entries i. reflexivity.
  - exists []. split; [done|]. split; [done|]. repeat constructor; vm_compute; congruence.
Qed.

Lemma demo_dex_wf : wf_dex demo_dex demo_strs demo_protos.
Proof.
  split.
  - exact demo_strings.
  - reflexivity.
  - vm_compute. congruence.
  - apply sorted_by_neighbours. intros i s t Hs Ht. entries i; vm_compute; done.
  - intros i t Ht. entries i; split; vm_compute; congruence.
  - vm_compute. congruence.
  - apply sorted_by_neighbours. intros i s t Hs Ht. entries i; vm_compute; done.
  - exact demo_descriptors.
  - exact demo_protos_ok.
  - reflexivity.
  - vm_compute. congruence.
  - apply sorted_by_neighbours. intros i s t Hs Ht. entries i; vm_compute; done.
  - vm_compute. congruence.
  - apply sorted_by_neighbours. intros i s t Hs Ht. entries i; vm_compute; done.
  - vm_compute. congruence.
  - apply sorted_by_neighbours. intros i s t Hs Ht. entries i; vm_compute; done.
  - vm_compute. congruence.
  - intros i c Hc. entries i; split; vm_compute; congruence.
  - apply NoDup_singleton.
Qed.

Lemma find_class_def_lookups_witness :
  exists rs d', find_all true 32 (map (fun s => utf8z s []) [[76; 65; 59]; [73]]) demo_dex = Done (rs, d') /\
    Forall2 (fun s r => forall i, r = Some i <-> defines demo_dex demo_strs i s) [[76; 65; 59]; [73]] rs.
Proof.
  refine (find_class_def_lookups true 32 demo_strs demo_protos demo_dex [[76; 65; 59]; [73]] demo_dex_wf eq_refl _).
  repeat constructor; vm_compute; congruence.
Defined.

Lemma dex_searches_find_witness :
  exists r, FindStringId false demo_dex (utf8z [86] []) = Done r /\ is_index_of demo_strs [86] r.
Proof.
  refine (proj1 (dex_searches_find false demo_strs demo_protos demo_dex demo_dex_wf) [86] [] _).
  repeat constructor; vm_compute; congruence.
Defined.

Lemma signature_roundtrip_witness :
  exists text, ToString demo_dex (Some 0) = Done text /\ CreateSignature true demo_dex text = Done (Some 0).
Proof.
  refine (signature_roundtrip true demo_strs demo_protos demo_dex 0 demo_dex_wf _).
  split; vm_compute; congruence.
Defined.

Lemma find_string_id_utf16_fails_witness :
  demo_strs !! 1%nat = Some [76; 65; 59] /\ FindStringId_utf16 demo_dex [76; 65; 59; 0] = Done None.
Proof.
  split; [reflexivity|].
  refine (find_string_id_utf16_fails demo_strs demo_protos demo_dex 76 [65; 59; 0] demo_dex_wf _). lia.
Defined.

(** The text of the first prototype, and the search that reads it. *)
Lemma demo_signature_text :
  ToString demo_dex (Some 0) = Done (lit "(I)LA;") /\ CreateSignature true demo_dex (lit "(I)LA;") = Done (Some 0).
Proof. vm_compute. done. Qed.
