(* ===== verification/Names.v ===== *)
(** * Names: the names and descriptors of classes and members
      (runtime/utils.h, utils.cc)

    The validity of member names, class names and type descriptors.  A string is
    the list of its bytes, with the zero byte that ends it and whatever follows
    it.  The functions are proved against the grammar of the dex format, which
    is stated over UTF-16 characters. *)

From S2P Require Import Prelude CLib Utf.

(** ** Characters of names *)

Definition DEX_MEMBER_VALID_LOW_ASCII : list Z := [0x00000000; 0x03ff2010; 0x87fffffe; 0x07fffffe].

(** The bytes behind the character are returned also when it is not valid. *)
Definition IsValidPartOfMemberNameUtf8Slow (ptr : list Z) : cres (bool * list Z) :=
  '(utf16, ptr) ← GetUtf16FromUtf8 ptr;
  let high := Z.shiftr utf16 8 in
  if high =? 0x00 then Done (0x00a0 <? utf16, ptr)
  else if bool_decide (high ∈ [0xd8; 0xd9; 0xda; 0xdb]) then
    '(utf16, ptr) ← GetUtf16FromUtf8 ptr;
    Done ((0xdc00 <=? utf16) && (utf16 <=? 0xdfff), ptr)
  else if bool_decide (high ∈ [0xdc; 0xdd; 0xde; 0xdf]) then Done (false, ptr)
  else if bool_decide (high ∈ [0x20; 0xff]) then
    Done (negb (bool_decide (Z.land utf16 0xfff8 ∈ [0x2000; 0x2008; 0x2028; 0xfff0; 0xfff8])), ptr)
  else Done (true, ptr).

Definition IsValidPartOfMemberNameUtf8 (ptr : list Z) : cres (bool * list Z) :=
  '(c, next) ← next_byte ptr;
  if c <=? 0x7f then
    word ← deref (DEX_MEMBER_VALID_LOW_ASCII !! Z.to_nat (Z.shiftr c 5));
    Done (negb (Z.land word (Z.shiftl 1 (Z.land c 0x1f)) =? 0), next)
  else IsValidPartOfMemberNameUtf8Slow ptr.

(** ** Member names *)

(** The loop reads a character in each round. *)
Fixpoint member_name_loop (fuel : nat) (angle_name : bool) (s : list Z) : cres bool :=
  match fuel with
  | O => Fault OutOfFuel
  | S fuel =>
      '(c, next) ← next_byte s;
      if c =? 0 then Done (negb angle_name)
      else if c =? chr ">" then
        if angle_name then '(c, _) ← next_byte next; Done (c =? 0) else Done false
      else
        '(ok, s) ← IsValidPartOfMemberNameUtf8 s;
        if negb ok then Done false else member_name_loop fuel angle_name s
  end.

Definition IsValidMemberName (s : list Z) : cres bool :=
  '(c, next) ← next_byte s;
  if c =? 0 then Done false
  else if c =? chr "<" then member_name_loop (S (length s)) true next
  else member_name_loop (S (length s)) false s.

(** ** Class names and descriptors *)

Inductive ClassNameType := kName | kDescriptor.

(** The loop over opening brackets: their number and what follows them. *)
Fixpoint skip_brackets (s : list Z) : cres (nat * list Z) :=
  match s with
  | [] => Fault OutOfBounds
  | c :: next => if c =? chr "[" then '(n, s) ← skip_brackets next; Done (S n, s) else Done (O, s)
  end.

Definition primitive_chars : list Z := lit "BCDFIJSZ".

Fixpoint class_name_loop (fuel : nat) (type : ClassNameType) (separator : Z) (sepOrFirst : bool) (s : list Z) : cres bool :=
  match fuel with
  | O => Fault OutOfFuel
  | S fuel =>
      '(c, next) ← next_byte s;
      if c =? 0 then Done (match type with kName => negb sepOrFirst | kDescriptor => false end)
      else if c =? chr ";" then
        match type with
        | kDescriptor => if sepOrFirst then Done false else '(c, _) ← next_byte next; Done (c =? 0)
        | kName => Done false
        end
      else if (c =? chr "/") || (c =? chr ".") then
        if negb (c =? separator) then Done false
        else if sepOrFirst then Done false
        else class_name_loop fuel type separator true next
      else
        '(ok, s) ← IsValidPartOfMemberNameUtf8 s;
        if negb ok then Done false else class_name_loop fuel type separator false s
  end.

(** A descriptor behind its brackets. *)
Definition element_check (separator : Z) (arrayCount : nat) (s : list Z) : cres bool :=
  '(c, next) ← next_byte s;
  if bool_decide (c ∈ primitive_chars) then '(c, _) ← next_byte next; Done (c =? 0)
  else if c =? chr "V" then
    if bool_decide (arrayCount = 0)%nat then '(c, _) ← next_byte next; Done (c =? 0) else Done false
  else if c =? chr "L" then class_name_loop (S (length next)) kDescriptor separator true next
  else Done false.

Definition IsValidClassName (s : list Z) (type : ClassNameType) (separator : Z) : cres bool :=
  '(arrayCount, s) ← skip_brackets s;
  if bool_decide (255 < arrayCount)%nat then Done false
  else
    let type := if bool_decide (arrayCount = 0)%nat then type else kDescriptor in
    match type with
    | kName => class_name_loop (S (length s)) kName separator true s
    | kDescriptor => element_check separator arrayCount s
    end.

Definition IsValidBinaryClassName (s : list Z) : cres bool := IsValidClassName s kName (chr ".").
Definition IsValidJniClassName (s : list Z) : cres bool := IsValidClassName s kName (chr "/").
Definition IsValidDescriptor (s : list Z) : cres bool := IsValidClassName s kDescriptor (chr "/").

(** ** The grammar of the dex format *)

(** SimpleNameChar of the format, as far as it is a single UTF-16 character. *)
Definition name_char (c : Z) : bool :=
  ((chr "A" <=? c) && (c <=? chr "Z")) || ((chr "a" <=? c) && (c <=? chr "z")) ||
  ((chr "0" <=? c) && (c <=? chr "9")) || (c =? chr "$") || (c =? chr "-") || (c =? chr "_") ||
  ((0x00a1 <=? c) && (c <=? 0x1fff)) || ((0x2010 <=? c) && (c <=? 0x2027)) ||
  ((0x2030 <=? c) && (c <=? 0xd7ff)) || ((0xe000 <=? c) && (c <=? 0xffef)).

Definition leading (c : Z) : bool := (0xd800 <=? c) && (c <=? 0xdbff).
Definition trailing (c : Z) : bool := (0xdc00 <=? c) && (c <=? 0xdfff).

(** Characters of a name; those above U+FFFF are surrogate pairs. *)
Inductive name_chars : list Z -> Prop :=
| name_nil : name_chars []
| name_one c s : name_char c = true -> name_chars s -> name_chars (c :: s)
| name_pair c d s : leading c = true -> trailing d = true -> name_chars s -> name_chars (c :: d :: s).

Definition simple_name (s : list Z) : Prop := s <> [] /\ name_chars s.

(** A name, or one in angle brackets. *)
Definition member_name (s : list Z) : Prop :=
  simple_name s \/ exists n, s = chr "<" :: n ++ [chr ">"] /\ simple_name n.

(** Names with separators between them. *)
Inductive class_name (separator : Z) : list Z -> Prop :=
| class_last s : simple_name s -> class_name separator s
| class_more s t : simple_name s -> class_name separator t -> class_name separator (s ++ separator :: t).

(** What an array can have as its elements, and arrays of them. *)
Inductive element (separator : Z) : list Z -> Prop :=
| elem_prim c : c ∈ primitive_chars -> element separator [c]
| elem_class s : class_name separator s -> element separator (chr "L" :: s ++ [chr ";"]).
Inductive array (separator : Z) : list Z -> Prop :=
| array_of n s : (1 <= n <= 255)%nat -> element separator s -> array separator (replicate n (chr "[") ++ s).

Inductive descriptor : list Z -> Prop :=
| desc_void : descriptor [chr "V"]
| desc_element s : element (chr "/") s -> descriptor s
| desc_array s : array (chr "/") s -> descriptor s.

(** ** Reading a character *)

Lemma name_char_iff c : name_char c = true <->
  65 <= c <= 90 \/ 97 <= c <= 122 \/ 48 <= c <= 57 \/ c = 36 \/ c = 45 \/ c = 95 \/ 0xa1 <= c <= 0x1fff \/
  0x2010 <= c <= 0x2027 \/ 0x2030 <= c <= 0xd7ff \/ 0xe000 <= c <= 0xffef.
Proof.
  unfold name_char. rewrite !orb_true_iff, !andb_true_iff, !Z.leb_le, !Z.eqb_eq.
  change (chr "A") with 65. change (chr "Z") with 90. change (chr "a") with 97. change (chr "z") with 122.
  change (chr "0") with 48. change (chr "9") with 57. change (chr "$") with 36. change (chr "-") with 45. change (chr "_") with 95.
  by rewrite !Logic.or_assoc.
Qed.
Lemma leading_iff c : leading c = true <-> 0xd800 <= c <= 0xdbff.
Proof. unfold leading. rewrite andb_true_iff, !Z.leb_le. lia. Qed.
Lemma trailing_iff c : trailing c = true <-> 0xdc00 <= c <= 0xdfff.
Proof. unfold trailing. rewrite andb_true_iff, !Z.leb_le. lia. Qed.

(** What follows the first character of a name. *)
Definition next_char (s : list Z) : option (list Z) :=
  match s with
  | [] => None
  | c :: s =>
      if name_char c then Some s
      else if leading c then match s with d :: s => if trailing d then Some s else None | [] => None end
      else None
  end.

Lemma land_fff8 c : in_u 16 c -> Z.land c 0xfff8 = 8 * (c / 8).
Proof.
  intros Hc. unfold in_u in Hc. rewrite Z.mul_comm. change 8 with (2 ^ 3) at 1 2.
  rewrite <- Z.shiftr_div_pow2, <- Z.shiftl_mul_pow2 by done. change 0xfff8 with (Z.shiftl (Z.ones 13) 3).
  apply Z.bits_inj'. intros i Hi. rewrite Z.land_spec, !Z.shiftl_spec by done.
  destruct (decide (i < 3)); [rewrite !(Z.testbit_neg_r _ (i - 3)) by lia; by rewrite andb_false_r|].
  rewrite Z.shiftr_spec, Z.sub_add by lia. destruct (decide (i < 16)).
  - rewrite Z.ones_spec_low by lia. apply andb_true_r.
  - rewrite Z.ones_spec_high, andb_false_r by lia. symmetry. apply Z.bits_above_log2; [lia|].
    destruct (decide (c = 0)) as [->|]; [cbn; lia|]. apply Z.log2_lt_pow2; [lia|].
    apply Z.lt_le_trans with (2 ^ 16); [lia|]. apply Z.pow_le_mono_r; lia.
Qed.

Definition low_char_ok (c : Z) : bool :=
  match DEX_MEMBER_VALID_LOW_ASCII !! Z.to_nat (Z.shiftr c 5) with
  | Some word => Bool.eqb (negb (Z.land word (Z.shiftl 1 (Z.land c 0x1f)) =? 0)) (name_char c)
  | None => false
  end.
Lemma low_table : forallb low_char_ok (map Z.of_nat (seq 0 128)) = true.
Proof. vm_compute. reflexivity. Qed.

Lemma low_char c : 0 < c < 128 -> forall rest, IsValidPartOfMemberNameUtf8 (c :: rest) = Done (name_char c, rest).
Proof.
  intros Hc rest. pose proof (below_forallb 128 low_char_ok low_table c ltac:(lia)) as H. unfold low_char_ok in H.
  unfold IsValidPartOfMemberNameUtf8. cbn [next_byte mbind cres_bind]. rewrite (proj2 (Z.leb_le c 0x7f)) by lia.
  destruct (DEX_MEMBER_VALID_LOW_ASCII !! Z.to_nat (Z.shiftr c 5)) as [word|]; [|done].
  cbn [deref mbind cres_bind]. apply Bool.eqb_prop in H. by rewrite H.
Qed.

Lemma bool_ext (a b : bool) : (a = true <-> b = true) -> a = b.
Proof. destruct a, b; intros []; try done; [symmetry|]; auto. Qed.

Lemma leading_high c : bool_decide (c / 256 ∈ [0xd8; 0xd9; 0xda; 0xdb]) = leading c.
Proof.
  apply bool_ext. rewrite bool_decide_eq_true, leading_iff, !elem_of_cons, elem_of_nil.
  pose proof (Z.div_mod c 256 ltac:(done)). pose proof (Z.mod_pos_bound c 256 ltac:(done)). lia.
Qed.
Lemma trailing_high c : bool_decide (c / 256 ∈ [0xdc; 0xdd; 0xde; 0xdf]) = trailing c.
Proof.
  apply bool_ext. rewrite bool_decide_eq_true, trailing_iff, !elem_of_cons, elem_of_nil.
  pose proof (Z.div_mod c 256 ltac:(done)). pose proof (Z.mod_pos_bound c 256 ltac:(done)). lia.
Qed.

(** What the tests on a character that is no surrogate amount to. *)
Lemma special_high c : bool_decide (c / 256 ∈ [0x20; 0xff]) = true ->
  negb (bool_decide (8 * (c / 8) ∈ [0x2000; 0x2008; 0x2028; 0xfff0; 0xfff8])) = name_char c.
Proof.
  intros Hh%bool_decide_eq_true. rewrite !elem_of_cons, elem_of_nil in Hh.
  pose proof (Z.div_mod c 256 ltac:(done)). pose proof (Z.mod_pos_bound c 256 ltac:(done)).
  pose proof (Z.div_mod c 8 ltac:(done)). pose proof (Z.mod_pos_bound c 8 ltac:(done)).
  apply bool_ext. rewrite negb_true_iff, bool_decide_eq_false, name_char_iff, !elem_of_cons, elem_of_nil. lia.
Qed.

Lemma other_high c : in_u 16 c -> leading c = false -> trailing c = false -> c / 256 <> 0 ->
  bool_decide (c / 256 ∈ [0x20; 0xff]) = false -> name_char c = true.
Proof.
  intros Hc Hl Ht Hh Hs%bool_decide_eq_false. rewrite !elem_of_cons, elem_of_nil in Hs.
  apply not_true_iff_false in Hl, Ht. rewrite leading_iff in Hl. rewrite trailing_iff in Ht. unfold in_u in Hc.
  pose proof (Z.div_mod c 256 ltac:(done)). pose proof (Z.mod_pos_bound c 256 ltac:(done)).
  apply name_char_iff. lia.
Qed.

Lemma surrogate_char c : leading c = true \/ trailing c = true -> name_char c = false.
Proof.
  intros H. apply not_true_iff_false. rewrite name_char_iff. rewrite leading_iff, trailing_iff in H. lia.
Qed.

Lemma high_char c rest : in_u 16 c -> c = 0 \/ 128 <= c -> leading c = false ->
  IsValidPartOfMemberNameUtf8Slow (utf8_of_char c ++ rest) = Done (name_char c, rest).
Proof.
  intros Hc Hbig Hl. unfold IsValidPartOfMemberNameUtf8Slow. rewrite GetUtf16FromUtf8_spec by done. cbn [mbind cres_bind].
  rewrite Z.shiftr_div_pow2, land_fff8 by done. change (2 ^ 8) with 256. rewrite leading_high, trailing_high, Hl.
  destruct (Z.eqb_spec (c / 256) 0) as [E|E].
  - f_equal. f_equal. apply bool_ext. rewrite Z.ltb_lt, name_char_iff. unfold in_u in Hc.
    pose proof (Z.div_mod c 256 ltac:(done)). pose proof (Z.mod_pos_bound c 256 ltac:(done)). lia.
  - destruct (trailing c) eqn:Ht; [by rewrite surrogate_char by auto|].
    destruct (bool_decide (c / 256 ∈ [0x20; 0xff])) eqn:Es; [by rewrite special_high|by rewrite other_high].
Qed.

(** Where the bytes of a character start. *)
Lemma first_byte c : in_u 16 c -> exists b tl, utf8_of_char c = b :: tl /\
  (0 < c < 128 /\ b = c /\ tl = [] \/ (c = 0 \/ 128 <= c) /\ 128 <= b).
Proof.
  intros Hc. destruct (utf8_of_char_form c Hc); eexists _, _; (split; [done|]); [left; by split|right; lia..].
Qed.

Lemma part_ok c s rest : Forall (in_u 16) (c :: s) ->
  match next_char (c :: s) with
  | Some s' => IsValidPartOfMemberNameUtf8 (utf8z (c :: s) rest) = Done (true, utf8z s' rest)
  | None => exists p, IsValidPartOfMemberNameUtf8 (utf8z (c :: s) rest) = Done (false, p)
  end.
Proof.
  intros [Hc Hs]%Forall_cons. rewrite utf8z_cons. destruct (first_byte c Hc) as (b & tl & E & [(Hb & -> & ->)|[Hc' Hb]]).
  { rewrite E. cbn [app]. rewrite low_char by done. unfold next_char. destruct (name_char c) eqn:En; [done|].
    assert (leading c = false) as -> by (apply not_true_iff_false; rewrite leading_iff; lia). by eexists. }
  assert (forall p, IsValidPartOfMemberNameUtf8 (utf8_of_char c ++ p) = IsValidPartOfMemberNameUtf8Slow (utf8_of_char c ++ p)) as ->.
  { intros p. unfold IsValidPartOfMemberNameUtf8. rewrite E at 1. cbn [app next_byte mbind cres_bind].
    by rewrite (proj2 (Z.leb_gt _ _)) by lia. }
  unfold next_char. destruct (leading c) eqn:El.
  - rewrite surrogate_char by auto. unfold IsValidPartOfMemberNameUtf8Slow. rewrite GetUtf16FromUtf8_spec by done.
    cbn [mbind cres_bind]. rewrite Z.shiftr_div_pow2 by done. change (2 ^ 8) with 256. rewrite leading_high, El.
    assert ((c / 256 =? 0) = false) as ->.
    { apply leading_iff in El. apply Z.eqb_neq. pose proof (Z.div_mod c 256 ltac:(done)). pose proof (Z.mod_pos_bound c 256 ltac:(done)). lia. }
    destruct s as [|d s]; [by eexists|]. apply Forall_cons in Hs as [Hd Hs]. rewrite utf8z_cons, GetUtf16FromUtf8_spec by done.
    cbn [mbind cres_bind]. change ((0xdc00 <=? d) && (d <=? 0xdfff)) with (trailing d). destruct (trailing d); [done|by eexists].
  - rewrite high_char by (done || lia). destruct (name_char c); [done|by eexists].
Qed.

(** ** Names, piece by piece *)

(** One character of a name. *)
Definition piece_of (p : list Z) : Prop :=
  (exists c, p = [c] /\ name_char c = true) \/ exists c d, p = [c; d] /\ leading c = true /\ trailing d = true.

Lemma next_piece s s' : next_char s = Some s' -> exists p, piece_of p /\ s = p ++ s'.
Proof.
  destruct s as [|c s]; [done|]. unfold next_char. destruct (name_char c) eqn:En; [intros [= ->]; exists [c]; split; [left|]; eauto|].
  destruct (leading c) eqn:El; [|done]. destruct s as [|d s]; [done|]. destruct (trailing d) eqn:Et; [|done].
  intros [= ->]. exists [c; d]. split; [right|]; eauto 6.
Qed.

Lemma piece_next p t : piece_of p -> next_char (p ++ t) = Some t.
Proof.
  unfold next_char. intros [(c & -> & E)|(c & d & -> & E & E')]; cbn [app]; [by rewrite E|].
  by rewrite surrogate_char, E, E' by auto.
Qed.

Lemma piece_chars p t : piece_of p -> name_chars (p ++ t) <-> name_chars t.
Proof.
  intros Hp. split.
  - destruct Hp as [(c & -> & E)|(c & d & -> & E & E')]; cbn [app]; intros H; inversion H; subst; try done.
    + by rewrite surrogate_char in E by auto.
    + by rewrite surrogate_char in * by auto.
  - destruct Hp as [(c & -> & E)|(c & d & -> & E & E')]; cbn [app]; by constructor.
Qed.

Lemma piece_nonempty p : piece_of p -> p <> [].
Proof. by intros [(c & -> & _)|(c & d & -> & _)]. Qed.

Lemma name_chars_cases n : name_chars n -> n = [] \/ exists p n', piece_of p /\ n = p ++ n' /\ name_chars n'.
Proof.
  destruct 1 as [|c s Hc Hs|c d s Hc Hd Hs]; [by left|right; exists [c], s|right; exists [c; d], s]; split_and!; try done.
  - left. eauto.
  - right. eauto.
Qed.

Lemma piece_inj p q t u : piece_of p -> piece_of q -> p ++ t = q ++ u -> p = q /\ t = u.
Proof.
  intros Hp Hq E. pose proof (piece_next p t Hp) as H. rewrite E, (piece_next q u Hq) in H. injection H as ->.
  by apply app_inv_tail in E.
Qed.

Lemma no_piece c t : name_char c = false -> leading c = false -> next_char (c :: t) = None.
Proof. unfold next_char. by intros -> ->. Qed.

(** A name that does not start with a character of names is empty. *)
Lemma no_next n t : next_char (n ++ t) = None -> name_chars n -> n = [].
Proof.
  intros H [->|(p & n' & Hp & -> & _)]%name_chars_cases; [done|]. by rewrite <- (assoc_L (++)), piece_next in H.
Qed.

(** The parts of a name behind its first character, which are closed by [e]. *)
Lemma piece_closed p t e : piece_of p -> next_char [e] = None ->
  (exists n, p ++ t = n ++ [e] /\ name_chars n) <-> exists n, t = n ++ [e] /\ name_chars n.
Proof.
  intros Hp He. split.
  - intros (n & E & [->|(q & n' & Hq & -> & Hn)]%name_chars_cases).
    + cbn [app] in E. pose proof (piece_next p t Hp) as H. by rewrite E, He in H.
    + rewrite <- (assoc_L (++)) in E. apply piece_inj in E as [-> ->]; eauto.
  - intros (n & -> & Hn). exists (p ++ n). split; [by rewrite (assoc_L (++))|by apply piece_chars].
Qed.

(** Membership in a list of constants. *)
Ltac decide_mem := refine (bool_decide_eq_true_1 _ _); vm_compute; reflexivity.

Definition member_rest (angle_name : bool) (s : list Z) : Prop :=
  if angle_name then exists n, s = n ++ [chr ">"] /\ name_chars n else name_chars s.

Lemma close_none c : c ∈ lit ">;/." -> name_char c = false /\ leading c = false.
Proof.
  change (lit ">;/.") with [62; 59; 47; 46]. rewrite !elem_of_cons, elem_of_nil. by intros [->|[->|[->|[->|[]]]]].
Qed.

Lemma next_byte_z s rest : Forall (in_u 16) s -> exists b p, next_byte (utf8z s rest) = Done (b, p) /\
  ((b =? 0) = true <-> s = []).
Proof.
  intros Hs. destruct s as [|c s]; [by exists 0, rest|]. apply Forall_cons in Hs as [Hc Hs]. rewrite utf8z_cons.
  destruct (first_byte c Hc) as (b & tl & -> & H). exists b, (tl ++ utf8z s rest). split; [done|]. rewrite Z.eqb_eq.
  split; [lia|done].
Qed.

Lemma member_name_loop_ok fuel : forall angle s rest, Forall (in_u 16) s -> (length s < fuel)%nat ->
  exists b, member_name_loop fuel angle (utf8z s rest) = Done b /\ (b = true <-> member_rest angle s).
Proof.
  induction fuel as [|fuel IH]; intros angle s rest Hs Hf; [lia|]. cbn [member_name_loop].
  destruct s as [|c s].
  { exists (negb angle). split; [done|]. destruct angle; cbn; [|split; [constructor|done]].
    split; [done|]. intros (n & E & _). by destruct n. }
  pose proof (part_ok c s rest Hs) as Hpart. apply Forall_cons in Hs as [Hc Hs]. 
  destruct (first_byte c Hc) as (b & tl & E & Hb). 
  assert (next_byte (utf8z (c :: s) rest) = Done (b, tl ++ utf8z s rest)) as -> by (by rewrite utf8z_cons, E).
  cbn [mbind cres_bind]. rewrite (proj2 (Z.eqb_neq b 0)) by lia.
  destruct (Z.eqb_spec b (chr ">")) as [->|Hgt].
  - assert (c = chr ">" /\ tl = []) as [-> ->] by (change (chr ">") with 62 in *; destruct Hb as [(_ & ? & ?)|]; [done|lia]).
    destruct (close_none (chr ">")) as [H1 H2]; [decide_mem|].
    destruct angle; cbn [member_rest app].
    + destruct (next_byte_z s rest Hs) as (b & p & -> & Hb'). eexists. split; [done|]. rewrite Hb'. split.
      * intros ->. exists []. split; [done|constructor].
      * intros (n & En & Hn). assert (n = []) as -> by (apply (no_next n [chr ">"]); [rewrite <- En; by apply no_piece|done]).
        by injection En.
    + eexists. split; [done|]. split; [done|]. intros Hn. by apply (no_next _ []) in Hn; [|rewrite app_nil_r; apply no_piece].
  - assert (c <> chr ">") as Hc' by (change (chr ">") with 62 in *; lia).
    destruct (next_char (c :: s)) as [s'|] eqn:En.
    + rewrite Hpart. cbn [mbind cres_bind negb]. destruct (next_piece _ _ En) as (p & Hp & Es).
      assert (length s' < length (c :: s))%nat as Hl.
      { rewrite Es, length_app. pose proof (piece_nonempty _ Hp). destruct p; [done|cbn; lia]. }
      destruct (IH angle s' rest) as (b' & -> & Hb').
      { apply (Forall_app _ p). rewrite <- Es. by constructor. } { lia. }
      exists b'. split; [done|]. rewrite Hb', Es. destruct angle; cbn [member_rest]; symmetry;
        [by apply piece_closed|by apply piece_chars].
    + destruct Hpart as [p ->]. cbn [mbind cres_bind negb]. exists false. split; [done|]. split; [done|].
      destruct angle; cbn [member_rest].
      * intros (n & Es & Hn). rewrite Es in En. apply no_next in En; [|done]. subst n. by injection Es.
      * intros Hn. by apply (no_next _ []) in Hn; [|rewrite app_nil_r].
Qed.

(** ** Class names, piece by piece *)

Section ClassNames.
Context (separator : Z) (Hsep : separator ∈ lit "/.").

(** What can follow in a class name: the rest of a name, which is empty only
    behind a character, and further names. *)
Definition class_rest (first : bool) (s : list Z) : Prop :=
  exists n, name_chars n /\ (first = true -> n <> []) /\
    (s = n \/ exists t, s = n ++ separator :: t /\ class_name separator t).

Lemma class_name_rest s : class_name separator s <-> class_rest true s.
Proof.
  split.
  - destruct 1 as [s [H1 H2]|s t [H1 H2] Ht]; exists s; split_and!; eauto.
  - intros (n & Hn & Hne & [->|(t & -> & Ht)]); [left|right]; try split; auto.
Qed.

Lemma separator_none t : next_char (separator :: t) = None.
Proof. destruct (close_none separator); [|by apply no_piece]. change (lit ">;/.") with (lit ">;" ++ lit "/."). apply elem_of_app. by right. Qed.

Lemma rest_nil first : class_rest first [] <-> first = false.
Proof.
  split.
  - intros (n & Hn & Hne & [<-|(t & E & _)]); [|by destruct n]. destruct first; [by destruct Hne|done].
  - intros ->. exists []. split_and!; [constructor|done|by left].
Qed.

Lemma rest_separator first t : class_rest first (separator :: t) <-> first = false /\ class_name separator t.
Proof.
  split.
  - intros (n & Hn & Hne & H). assert (n = []) as ->.
    { destruct H as [<-|(u & E & _)].
      - apply (no_next _ []); [rewrite app_nil_r; apply separator_none|done].
      - apply (no_next _ (separator :: u)); [rewrite <- E; apply separator_none|done]. }
    destruct first; [by destruct Hne|]. split; [done|]. by destruct H as [|(u & [= ->] & Hu)].
  - intros [-> Ht]. exists []. split_and!; [constructor|done|right; eauto].
Qed.

Lemma rest_bad first c t : next_char (c :: t) = None -> c <> separator -> ~ class_rest first (c :: t).
Proof.
  intros Hc Hne (n & Hn & _ & [<-|(u & E & _)]).
  - by apply (no_next _ []) in Hn; [|rewrite app_nil_r].
  - rewrite E in Hc. apply no_next in Hc; [|done]. subst n. by injection E.
Qed.

Lemma rest_piece first p t : piece_of p -> class_rest first (p ++ t) <-> class_rest false t.
Proof.
  intros Hp. pose proof (piece_next p t Hp) as Hnext. split.
  - intros (n & Hn & _ & H). assert (n <> []) as Hne.
    { intros ->. destruct H as [E|(u & E & _)]; rewrite E in Hnext; [done|]. cbn [app] in Hnext. by rewrite separator_none in Hnext. }
    apply name_chars_cases in Hn as [->|(q & n' & Hq & -> & Hn)]; [done|].
    exists n'. split; [done|]. split; [done|]. destruct H as [E|(u & E & Hu)].
    + apply piece_inj in E as [_ ->]; [by left|done..].
    + rewrite <- (assoc_L (++)) in E. apply piece_inj in E as [_ ->]; [right; eauto|done..].
  - intros (n & Hn & _ & H). exists (p ++ n). split_and!.
    + by apply piece_chars.
    + intros _ E. apply app_eq_nil in E as [E _]. by apply piece_nonempty in Hp.
    + destruct H as [->|(u & -> & Hu)]; [by left|right]. exists u. by rewrite <- (assoc_L (++)).
Qed.

(** How names of a type end. *)
Definition ending (type : ClassNameType) : list Z := match type with kName => [] | kDescriptor => [chr ";"] end.
Definition accepted (type : ClassNameType) (first : bool) (s : list Z) : Prop :=
  exists n, s = n ++ ending type /\ class_rest first n.

Lemma next_char_app s t s' : next_char s = Some s' -> next_char (s ++ t) = Some (s' ++ t).
Proof. intros (p & Hp & ->)%next_piece. rewrite <- (assoc_L (++)). by apply piece_next. Qed.

Lemma ending_none type : next_char (ending type) = None.
Proof. by destruct type. Qed.

Lemma accepted_piece type first p t : piece_of p -> accepted type first (p ++ t) <-> accepted type false t.
Proof.
  intros Hp. pose proof (piece_next p t Hp) as Hnext. split.
  - intros (n & E & Hn). rewrite E in Hnext. destruct (next_char n) as [n'|] eqn:En.
    + apply next_piece in En as (q & Hq & ->). rewrite <- (assoc_L (++)) in E. apply piece_inj in E as [<- ->]; [|done..].
      exists n'. split; [done|]. by eapply rest_piece.
    + destruct n as [|c n]; [cbn [app] in Hnext; by rewrite ending_none in Hnext|].
      destruct (decide (c = separator)) as [->|Hc]; [by rewrite <- app_comm_cons, separator_none in Hnext|].
      by apply rest_bad in Hn.
  - intros (n & -> & Hn). exists (p ++ n). split; [by rewrite (assoc_L (++))|by apply rest_piece].
Qed.

Lemma accepted_bad type first c t : next_char (c :: t) = None -> c <> separator ->
  accepted type first (c :: t) -> type = kDescriptor /\ c = chr ";" /\ t = [] /\ first = false.
Proof.
  intros Hc Hne (n & E & Hn). destruct n as [|d n].
  - apply rest_nil in Hn. destruct type; [done|]. cbn [app ending] in E. by injection E as -> ->.
  - injection E as <- E. exfalso. revert Hn. apply rest_bad; [|done].
    destruct (next_char (c :: n)) as [n'|] eqn:En; [|done].
    apply (next_char_app _ (ending type)) in En. cbn [app] in En. rewrite <- E in En. congruence.
Qed.

Lemma accepted_nil type first : accepted type first [] <-> type = kName /\ first = false.
Proof.
  split.
  - intros (n & E & Hn). symmetry in E. apply app_eq_nil in E as [-> E]. apply rest_nil in Hn. by destruct type.
  - intros [-> ->]. exists []. split; [done|by apply rest_nil].
Qed.

Lemma accepted_separator type first t : accepted type first (separator :: t) <-> first = false /\ accepted type true t.
Proof.
  split.
  - intros (n & E & Hn). destruct n as [|d n].
    + destruct type; [done|]. cbn in E. injection E as E _. pose proof Hsep as H. rewrite E in H.
      by apply (bool_decide_eq_true_2 (chr ";" ∈ lit "/.")) in H.
    + injection E as <- ->. apply rest_separator in Hn as [-> Hn]. split; [done|]. exists n. by rewrite <- class_name_rest.
  - intros [-> (n & -> & Hn)]. exists (separator :: n). split; [done|]. apply rest_separator. by rewrite class_name_rest.
Qed.

Lemma class_name_loop_ok type fuel : forall first s rest, Forall (in_u 16) s -> (length s < fuel)%nat ->
  exists b, class_name_loop fuel type separator first (utf8z s rest) = Done b /\ (b = true <-> accepted type first s).
Proof.
  induction fuel as [|fuel IH]; intros first s rest Hs Hf; [lia|]. cbn [class_name_loop].
  destruct s as [|c s].
  { eexists. split; [done|]. rewrite accepted_nil. destruct type, first; cbn; split; try done; by intros [??]. }
  pose proof (part_ok c s rest Hs) as Hpart. apply Forall_cons in Hs as [Hc Hs].
  destruct (first_byte c Hc) as (b & tl & E & Hb).
  assert (next_byte (utf8z (c :: s) rest) = Done (b, tl ++ utf8z s rest)) as -> by (by rewrite utf8z_cons, E).
  cbn [mbind cres_bind]. rewrite (proj2 (Z.eqb_neq b 0)) by lia.
  assert (forall k, 0 < k < 128 -> b = k -> c = k /\ tl = []) as Hsmall by (intros k ? ->; destruct Hb as [(_ & ? & ?)|]; [done|lia]).
  assert (forall k, 0 < k < 128 -> b <> k -> c <> k) as Hother by lia.
  destruct (Z.eqb_spec b (chr ";")) as [Eb|Hsemi].
  { destruct (Hsmall (chr ";") (conj eq_refl eq_refl) Eb) as [-> ->]. destruct (close_none (chr ";")) as [H1 H2]; [decide_mem|].
    assert (chr ";" <> separator) as Hne. 
    { intros <-. by apply (bool_decide_eq_true_2 (chr ";" ∈ lit "/.")) in Hsep. }
    assert (accepted type first (chr ";" :: s) <-> type = kDescriptor /\ first = false /\ s = []) as Hacc.
    { split; [intros H; by apply accepted_bad in H as (-> & _ & -> & ->); [|apply no_piece|]|].
      intros (-> & -> & ->). exists []. split; [done|by apply rest_nil]. }
    setoid_rewrite Hacc. destruct type; [by eexists; split; [done|]; split; [done|]; intros (? & _)|].
    destruct first; [by eexists; split; [done|]; split; [done|]; intros (_ & ? & _)|].
    cbn [app]. destruct (next_byte_z s rest Hs) as (b' & p & -> & Hb'). eexists. split; [done|]. rewrite Hb'. intuition. }
  destruct ((b =? chr "/") || (b =? chr ".")) eqn:Eb.
  { assert (c = b /\ tl = []) as [-> ->].
    { apply orb_true_iff in Eb as [Eb%Z.eqb_eq|Eb%Z.eqb_eq]; rewrite Eb; by apply Hsmall. }
    assert (name_char b = false /\ leading b = false) as [H1 H2].
    { apply close_none. apply orb_true_iff in Eb as [Eb%Z.eqb_eq|Eb%Z.eqb_eq]; rewrite Eb; decide_mem. }
    destruct (Z.eqb_spec b separator) as [->|Hne]; cbn [negb].
    - setoid_rewrite accepted_separator. destruct first; [by eexists; split; [done|]; split; [done|]; intros [? _]|]. cbn [app].
      destruct (IH true s rest) as (b' & -> & Hb'); [done|cbn in Hf; lia|]. eexists. split; [done|]. rewrite Hb'. intuition.
    - eexists. split; [done|]. split; [done|]. intros H. by apply accepted_bad in H as (_ & E' & _); [|apply no_piece|]. }
  assert (c <> separator) as Hne.
  { apply orb_false_iff in Eb as [Eb1%Z.eqb_neq Eb2%Z.eqb_neq]. pose proof Hsep as H.
    change (lit "/.") with [chr "/"; chr "."] in H. rewrite !elem_of_cons, elem_of_nil in H.
    destruct H as [->|[->|[]]]; by apply Hother. }
  destruct (next_char (c :: s)) as [s'|] eqn:En.
  - rewrite Hpart. cbn [mbind cres_bind negb]. destruct (next_piece _ _ En) as (p & Hp & Es).
    assert (length s' < length (c :: s))%nat as Hl.
    { rewrite Es, length_app. pose proof (piece_nonempty _ Hp). destruct p; [done|cbn; lia]. }
    destruct (IH false s' rest) as (b' & -> & Hb').
    { apply (Forall_app _ p). rewrite <- Es. by constructor. } { lia. }
    exists b'. split; [done|]. rewrite Hb', Es. symmetry. by apply accepted_piece.
  - destruct Hpart as [p ->]. cbn [mbind cres_bind negb]. exists false. split; [done|]. split; [done|].
    intros H. apply accepted_bad in H as (_ & -> & _); [|done..].
    by destruct (Hother (chr ";") (conj eq_refl eq_refl) Hsemi).
Qed.

(** ** Descriptors *)

Lemma bracket_byte c : in_u 16 c -> forall b tl, utf8_of_char c = b :: tl -> (b =? chr "[") = bool_decide (c = chr "[") .
Proof.
  intros Hc b tl E. destruct (first_byte c Hc) as (b' & tl' & E' & H). rewrite E in E'. injection E' as <- <-.
  change (chr "[") with 91. destruct (Z.eqb_spec b 91), (bool_decide_reflect (c = 91)); lia.
Qed.

Lemma skip_brackets_ok s rest : Forall (in_u 16) s ->
  exists n t, skip_brackets (utf8z s rest) = Done (n, utf8z t rest) /\ s = replicate n (chr "[") ++ t /\
    head t <> Some (chr "[") /\ Forall (in_u 16) t.
Proof.
  induction 1 as [|c s Hc Hs IH]; [by exists O, []|]. destruct IH as (n & t & E & -> & Ht & Hu).
  rewrite utf8z_cons. destruct (first_byte c Hc) as (b & tl & Eb & H). pose proof (bracket_byte c Hc b tl Eb) as Hb.
  rewrite Eb. cbn [app skip_brackets]. rewrite Hb. case_bool_decide as D.
  - subst c. exists (S n), t. destruct H as [(_ & _ & ->)|[? _]]; [|by change (chr "[") with 91 in *; lia].
    cbn [app]. rewrite E. split; [done|]. split; [done|]. by split.
  - exists O, (c :: replicate n (chr "[") ++ t). rewrite utf8z_cons, Eb. split; [done|]. split; [done|]. split; [by injection 1|by constructor].
Qed.

Lemma prim_small c : c ∈ primitive_chars -> 0 < c < 128 /\ c <> chr "[" /\ c <> chr "L" /\ c <> chr "V".
Proof.
  change primitive_chars with [66; 67; 68; 70; 73; 74; 83; 90]. rewrite !elem_of_cons, elem_of_nil.
  intros H. change (chr "[") with 91. change (chr "L") with 76. change (chr "V") with 86. lia.
Qed.

Lemma element_head t : element separator t -> exists c t', t = c :: t' /\ c <> chr "[" /\ c <> chr "V".
Proof.
  destruct 1 as [c Hc|s Hs]; [apply prim_small in Hc as (_ & ? & _ & ?)|]; eauto.
Qed.

Lemma element_iff c t : in_u 16 c ->
  element separator (c :: t) <-> c ∈ primitive_chars /\ t = [] \/ c = chr "L" /\ accepted kDescriptor true t.
Proof.
  intros Hc. split.
  - inversion 1 as [c' Hc'|s Hs]; subst; [by left|right]. split; [done|]. exists s. by rewrite <- class_name_rest.
  - intros [[Hp ->]|[-> (n & -> & Hn)]]; constructor; [done|by apply class_name_rest].
Qed.

Lemma element_check_ok n t rest : Forall (in_u 16) t ->
  exists b, element_check separator n (utf8z t rest) = Done b /\ (b = true <-> element separator t \/ n = O /\ t = [chr "V"]).
Proof.
  intros Ht. unfold element_check. destruct t as [|c t].
  { exists false. split; [done|]. split; [done|]. intros [H|[_ ?]]; [inversion H|done]. }
  apply Forall_cons in Ht as [Hc Ht]. setoid_rewrite (element_iff c t Hc).
  destruct (first_byte c Hc) as (b & tl & E & H). rewrite utf8z_cons, E. cbn [app next_byte mbind cres_bind].
  assert (forall k, 0 < k < 128 -> (b = k <-> c = k)) as Hk by lia.
  destruct (next_byte_z t rest Ht) as (b' & p & Eb' & Hb').
  case_bool_decide as Dp; [|destruct (Z.eqb_spec b (chr "V")) as [->|HV]; [|destruct (Z.eqb_spec b (chr "L")) as [->|HL]]].
  - destruct (prim_small _ Dp) as (Hb & _ & HL & HV). assert (c = b /\ tl = []) as [-> ->] by (destruct H as [(_ & ? & ?)|]; [done|lia]).
    cbn [app]. rewrite Eb'. eexists. split; [done|]. rewrite Hb'. split; [auto|]. intros [[[_ ->]|[? _]]|[_ [= ? _]]]; [done..].
  - assert (c = chr "V" /\ tl = []) as [-> ->] by (change (chr "V") with 86 in *; destruct H as [(_ & ? & ?)|]; [done|lia]).
    cbn [app]. case_bool_decide as D0; [subst n; rewrite Eb'|].
    + eexists. split; [done|]. rewrite Hb'. split; [intros ->; auto|]. intros [[[_ ->]|[? _]]|[_ [= ->]]]; done.
    + eexists. split; [done|]. split; [done|]. intros [[[? _]|[? _]]|[? _]]; done.
  - assert (c = chr "L" /\ tl = []) as [-> ->] by (change (chr "L") with 76 in *; destruct H as [(_ & ? & ?)|]; [done|lia]).
    cbn [app]. destruct (class_name_loop_ok kDescriptor (S (length (utf8z t rest))) true t rest Ht) as (b & -> & Hb); [by apply Nat.lt_lt_succ_r, utf8z_length|].
    eexists. split; [done|]. rewrite Hb. split; [auto|]. intros [[[? _]|[_ ?]]|[_ ?]]; done.
  - eexists. split; [done|]. split; [done|]. intros [[[Hp _]|[-> _]]|[_ [= -> _]]].
    + destruct (prim_small _ Hp) as (? & _). by rewrite (proj2 (Hk c ltac:(lia))) in Dp.
    + by destruct HL; apply (Hk (chr "L") (conj eq_refl eq_refl)).
    + by destruct HV; apply (Hk (chr "V") (conj eq_refl eq_refl)).
Qed.

Lemma brackets_inj n m t u : replicate n (chr "[") ++ t = replicate m (chr "[") ++ u ->
  head t <> Some (chr "[") -> head u <> Some (chr "[") -> n = m /\ t = u.
Proof.
  revert m. induction n as [|n IH]; intros [|m] E Ht Hu; cbn [replicate app] in E; subst; try done.
  injection E as E. destruct (IH m E Ht Hu) as [-> ->]. done.
Qed.

Lemma element_no_bracket t : element separator t -> head t <> Some (chr "[").
Proof. intros (c & t' & -> & Hc & _)%element_head. intros [= E]. by apply Hc. Qed.

Lemma array_iff n t : head t <> Some (chr "[") ->
  array separator (replicate n (chr "[") ++ t) <-> (1 <= n <= 255)%nat /\ element separator t.
Proof.
  intros Ht. split; [|by intros []; constructor]. inversion 1 as [m s Hm Hs E].
  apply brackets_inj in E as [-> ->]; [done|by apply element_no_bracket|done].
Qed.

Lemma class_name_no_bracket t : ~ class_name separator (chr "[" :: t).
Proof.
  intros H%class_name_rest. revert H. apply rest_bad; [by apply no_piece|]. intros E. pose proof Hsep as H. rewrite <- E in H.
  by apply (bool_decide_eq_true_2 (chr "[" ∈ lit "/.")) in H.
Qed.

Lemma class_name_ok s rest : Forall (in_u 16) s -> exists b, IsValidClassName (utf8z s rest) kName separator = Done b /\
  (b = true <-> class_name separator s \/ array separator s).
Proof.
  intros Hs. unfold IsValidClassName. destruct (skip_brackets_ok s rest Hs) as (n & t & -> & -> & Ht & Hu). cbn [mbind cres_bind].
  setoid_rewrite (array_iff n t Ht). case_bool_decide as Dn.
  { eexists. split; [done|]. split; [done|]. intros [H|[? _]]; [|lia]. destruct n as [|n]; [lia|]. by apply class_name_no_bracket in H. }
  case_bool_decide as D0.
  - subst n. cbn [replicate app]. destruct (class_name_loop_ok kName (S (length (utf8z t rest))) true t rest Hu) as (b & -> & Hb).
    { by apply Nat.lt_lt_succ_r, utf8z_length. }
    eexists. split; [done|]. rewrite Hb. unfold accepted, ending. setoid_rewrite app_nil_r. rewrite class_name_rest. split; [|intros [?|[? _]]; [eauto|lia]].
    intros (m & -> & ?). by left.
  - destruct (element_check_ok n t rest Hu) as (b & -> & Hb). eexists. split; [done|]. rewrite Hb. split.
    + intros [?|[? _]]; [right; split; [lia|done]|done].
    + intros [H|[_ H]]; [|by left]. destruct n; [done|]. by apply class_name_no_bracket in H.
Qed.
End ClassNames.

Lemma descriptor_ok s rest : Forall (in_u 16) s ->
  exists b, IsValidDescriptor (utf8z s rest) = Done b /\ (b = true <-> descriptor s).
Proof.
  intros Hs. assert (chr "/" ∈ lit "/.") as Hsep by decide_mem. unfold IsValidDescriptor, IsValidClassName.
  destruct (skip_brackets_ok s rest Hs) as (n & t & -> & -> & Ht & Hu). cbn [mbind cres_bind].
  assert (descriptor (replicate n (chr "[") ++ t) <-> (n <= 255)%nat /\ (element (chr "/") t \/ n = O /\ t = [chr "V"])) as Hd.
  { split.
    - inversion 1 as [E|? H1|? H1]; subst.
      + destruct (brackets_inj 0 n [chr "V"] t E) as [<- <-]; [done..|]. split; [lia|auto].
      + pose proof (element_no_bracket _ _ H1) as H2. destruct n as [|n]; [|done]. split; [lia|auto].
      + apply array_iff in H1 as [? ?]; [|done]. split; [lia|auto].
    - intros [Hn [He|[-> ->]]]; [|constructor]. destruct n as [|n]; [by apply desc_element|].
      apply desc_array. constructor; [lia|done]. }
  setoid_rewrite Hd. case_bool_decide as Dn; [eexists; split; [done|]; split; [done|]; intros []; lia|].
  replace (if bool_decide (n = 0%nat) then kDescriptor else kDescriptor) with kDescriptor by (by case_bool_decide).
  destruct (element_check_ok (chr "/") Hsep n t rest Hu) as (b & -> & Hb). eexists. split; [done|]. rewrite Hb.
  split; [intros ?; split; [lia|done]|by intros [_ ?]].
Qed.

(** The name in angle brackets may be empty. *)
Lemma member_name_brackets s : member_name s \/ s = lit "<>" <-> simple_name s \/ exists n, s = chr "<" :: n ++ [chr ">"] /\ name_chars n.
Proof.
  unfold member_name, simple_name. split.
  - intros [[Hn|(n & -> & _ & Hn)]| ->]; [by left|right; eauto|]. right. exists []. split; [done|constructor].
  - intros [Hn|(n & -> & Hn)]; [by left; left|]. destruct n as [|c n]; [by right|]. left. right. exists (c :: n). done.
Qed.
Lemma member_name_ok s rest : Forall (in_u 16) s ->
  exists b, IsValidMemberName (utf8z s rest) = Done b /\ (b = true <-> member_name s \/ s = lit "<>").
Proof.
  intros Hs. setoid_rewrite member_name_brackets. unfold IsValidMemberName. pose proof (utf8z_length s rest Hs) as Hl. destruct s as [|c s].
  { exists false. split; [done|]. split; [done|]. by intros [[? _]|(n & ? & _)]. }
  pose proof Hs as [Hc Hs']%Forall_cons. destruct (first_byte c Hc) as (b & tl & E & H).
  assert (next_byte (utf8z (c :: s) rest) = Done (b, tl ++ utf8z s rest)) as -> by (by rewrite utf8z_cons, E).
  cbn [mbind cres_bind]. rewrite (proj2 (Z.eqb_neq b 0)) by lia. destruct (Z.eqb_spec b (chr "<")) as [->|Hlt].
  - assert (c = chr "<" /\ tl = []) as [-> ->] by (change (chr "<") with 60 in *; destruct H as [(_ & ? & ?)|]; [done|lia]). cbn [app].
    destruct (member_name_loop_ok (S (length (utf8z (chr "<" :: s) rest))) true s rest Hs') as (b & -> & Hb); [cbn [length] in Hl; lia|].
    eexists. split; [done|]. rewrite Hb. cbn [member_rest]. split.
    + intros (n & -> & Hn). right. eauto.
    + intros [[_ Hn]|(n & [= ->] & Hn)]; [|eauto]. by apply (no_next _ []) in Hn; [|rewrite app_nil_r; apply no_piece].
  - destruct (member_name_loop_ok (S (length (utf8z (c :: s) rest))) false (c :: s) rest Hs) as (b' & -> & Hb); [by apply Nat.lt_lt_succ_r|].
    eexists. split; [done|]. rewrite Hb. split; [by left|]. intros [[_ ?]|(n & [= -> _] & _)]; [done|].
    change (chr "<") with 60 in *. lia.
Qed.

Lemma brackets_no_name : ~ member_name (lit "<>").
Proof.
  intros [[_ Hn]|(n & E & Hn & _)].
  - change (lit "<>") with [60; 62] in Hn. inversion Hn; done.
  - change (lit "<>") with ([chr "<"] ++ [] ++ [chr ">"]) in E. injection E as E. symmetry in E. by apply (app_inv_tail [chr ">"] n []) in E.
Qed.

(** C19: The checks of names accept the grammar of the dex format and one word more.
    For every string, well formed in modified UTF-8, they return, and return true
    exactly for class names with dots or slashes or arrays of classes, for type
    descriptors of at most 255 dimensions, and for names of members and the word
    [<>], which is no name of the format. *)
Theorem names_grammar s rest (Hs : Forall (in_u 16) s) :
  (exists b, IsValidMemberName (utf8z s rest) = Done b /\ (b = true <-> member_name s \/ s = lit "<>")) /\ ~ member_name (lit "<>") /\
  (exists b, IsValidBinaryClassName (utf8z s rest) = Done b /\ (b = true <-> class_name (chr ".") s \/ array (chr ".") s)) /\
  (exists b, IsValidJniClassName (utf8z s rest) = Done b /\ (b = true <-> class_name (chr "/") s \/ array (chr "/") s)) /\
  (exists b, IsValidDescriptor (utf8z s rest) = Done b /\ (b = true <-> descriptor s)).
Proof.
  split; [by apply member_name_ok|]. split; [apply brackets_no_name|]. split; [by apply class_name_ok; [decide_mem|]|].
  split; [by apply class_name_ok; [decide_mem|]|by apply descriptor_ok].
Qed.

Example names_grammar_witness :
  (exists b, IsValidDescriptor (utf8z (lit "[[La/B;") []) = Done b /\ (b = true <-> descriptor (lit "[[La/B;"))) /\
  IsValidDescriptor (utf8z (lit "[[La/B;") []) = Done true /\ IsValidMemberName (utf8z (lit "<>") []) = Done true.
Proof.
  split; [|by split; vm_compute].
  exact (proj2 (proj2 (proj2 (proj2 (names_grammar (lit "[[La/B;") [] ltac:(by apply (bool_decide_unpack _); vm_compute)))))).
Defined.
