(* ===== verification/DexInsn.v ===== *)
(** * DexInsn: the instructions of dex files
      (runtime/dex_instruction.h, dex_instruction-inl.h, dex_instruction.cc,
       dex_instruction_list.h, dex_instruction_visitor.h)

    An instruction is the code units (16 bits each) from its address on.  The
    table of the 256 opcodes is the one of the source; operands are decoded by
    format.  An assembler, which the source does not have, says what the formats
    mean: decoding and the size are proved against it. *)

From S2P Require Import Prelude CLib.

(** ** Formats and flags *)

Inductive Format :=
| k10x | k12x | k11n | k11x | k10t | k20t | k22x | k21t | k21s | k21h | k21c | k23x | k22b | k22t | k22s
| k22c | k32x | k30t | k31t | k31i | k31c | k35c | k3rc | k51l.
#[export] Instance Format_eq : EqDecision Format.
Proof. solve_decision. Defined.

(** The position in the enumeration. *)
Definition format_index (f : Format) : Z :=
  match f with
  | k10x => 0 | k12x => 1 | k11n => 2 | k11x => 3 | k10t => 4 | k20t => 5 | k22x => 6 | k21t => 7 | k21s => 8
  | k21h => 9 | k21c => 10 | k23x => 11 | k22b => 12 | k22t => 13 | k22s => 14 | k22c => 15 | k32x => 16
  | k30t => 17 | k31t => 18 | k31i => 19 | k31c => 20 | k35c => 21 | k3rc => 22 | k51l => 23
  end.

Definition kPackedSwitchSignature : Z := 0x0100.
Definition kSparseSwitchSignature : Z := 0x0200.
Definition kArrayDataSignature : Z := 0x0300.
Definition kBranch : Z := 0x000001.
Definition kContinue : Z := 0x000002.
Definition kSwitch : Z := 0x000004.
Definition kThrow : Z := 0x000008.
Definition kReturn : Z := 0x000010.
Definition kInvoke : Z := 0x000020.
Definition kUnconditional : Z := 0x000040.
Definition kAdd : Z := 0x000080.
Definition kSubtract : Z := 0x000100.
Definition kMultiply : Z := 0x000200.
Definition kDivide : Z := 0x000400.
Definition kRemainder : Z := 0x000800.
Definition kAnd : Z := 0x001000.
Definition kOr : Z := 0x002000.
Definition kXor : Z := 0x004000.
Definition kShl : Z := 0x008000.
Definition kShr : Z := 0x010000.
Definition kUshr : Z := 0x020000.
Definition kCast : Z := 0x040000.
Definition kStore : Z := 0x080000.
Definition kLoad : Z := 0x100000.
Definition kClobber : Z := 0x200000.
Definition kRegCFieldOrConstant : Z := 0x400000.
Definition kRegBFieldOrConstant : Z := 0x800000.
Definition kVerifyNone : Z := 0x000000.
Definition kVerifyRegA : Z := 0x000001.
Definition kVerifyRegAWide : Z := 0x000002.
Definition kVerifyRegB : Z := 0x000004.
Definition kVerifyRegBField : Z := 0x000008.
Definition kVerifyRegBMethod : Z := 0x000010.
Definition kVerifyRegBNewInstance : Z := 0x000020.
Definition kVerifyRegBString : Z := 0x000040.
Definition kVerifyRegBType : Z := 0x000080.
Definition kVerifyRegBWide : Z := 0x000100.
Definition kVerifyRegC : Z := 0x000200.
Definition kVerifyRegCField : Z := 0x000400.
Definition kVerifyRegCNewArray : Z := 0x000800.
Definition kVerifyRegCType : Z := 0x001000.
Definition kVerifyRegCWide : Z := 0x002000.
Definition kVerifyArrayData : Z := 0x004000.
Definition kVerifyBranchTarget : Z := 0x008000.
Definition kVerifySwitchTargets : Z := 0x010000.
Definition kVerifyVarArg : Z := 0x020000.
Definition kVerifyVarArgNonZero : Z := 0x040000.
Definition kVerifyVarArgRange : Z := 0x080000.
Definition kVerifyVarArgRangeNonZero : Z := 0x100000.
Definition kVerifyRuntimeOnly : Z := 0x200000.
Definition kVerifyError : Z := 0x400000.

(** ** The table *)

Record insn_info := V { pname : string; format : Format; flags : Z; vflags : Z }.

#[local] Notation "a ||| b" := (Z.lor a b) (at level 50, left associativity).

Definition DEX_INSTRUCTION_LIST : list insn_info := [
  V "nop" k10x kContinue kVerifyNone;
  V "move" k12x kContinue (kVerifyRegA ||| kVerifyRegB);
  V "move/from16" k22x kContinue (kVerifyRegA ||| kVerifyRegB);
  V "move/16" k32x kContinue (kVerifyRegA ||| kVerifyRegB);
  V "move-wide" k12x kContinue (kVerifyRegAWide ||| kVerifyRegBWide);
  V "move-wide/from16" k22x kContinue (kVerifyRegAWide ||| kVerifyRegBWide);
  V "move-wide/16" k32x kContinue (kVerifyRegAWide ||| kVerifyRegBWide);
  V "move-object" k12x kContinue (kVerifyRegA ||| kVerifyRegB);
  V "move-object/from16" k22x kContinue (kVerifyRegA ||| kVerifyRegB);
  V "move-object/16" k32x kContinue (kVerifyRegA ||| kVerifyRegB);
  V "move-result" k11x kContinue kVerifyRegA;
  V "move-result-wide" k11x kContinue kVerifyRegAWide;
  V "move-result-object" k11x kContinue kVerifyRegA;
  V "move-exception" k11x kContinue kVerifyRegA;
  V "return-void" k10x kReturn kVerifyNone;
  V "return" k11x kReturn kVerifyRegA;
  V "return-wide" k11x kReturn kVerifyRegAWide;
  V "return-object" k11x kReturn kVerifyRegA;
  V "const/4" k11n (kContinue ||| kRegBFieldOrConstant) kVerifyRegA;
  V "const/16" k21s (kContinue ||| kRegBFieldOrConstant) kVerifyRegA;
  V "const" k31i (kContinue ||| kRegBFieldOrConstant) kVerifyRegA;
  V "const/high16" k21h (kContinue ||| kRegBFieldOrConstant) kVerifyRegA;
  V "const-wide/16" k21s (kContinue ||| kRegBFieldOrConstant) kVerifyRegAWide;
  V "const-wide/32" k31i (kContinue ||| kRegBFieldOrConstant) kVerifyRegAWide;
  V "const-wide" k51l (kContinue ||| kRegBFieldOrConstant) kVerifyRegAWide;
  V "const-wide/high16" k21h (kContinue ||| kRegBFieldOrConstant) kVerifyRegAWide;
  V "const-string" k21c (kContinue ||| kThrow) (kVerifyRegA ||| kVerifyRegBString);
  V "const-string/jumbo" k31c (kContinue ||| kThrow) (kVerifyRegA ||| kVerifyRegBString);
  V "const-class" k21c (kContinue ||| kThrow) (kVerifyRegA ||| kVerifyRegBType);
  V "monitor-enter" k11x (kContinue ||| kThrow ||| kClobber) kVerifyRegA;
  V "monitor-exit" k11x (kContinue ||| kThrow ||| kClobber) kVerifyRegA;
  V "check-cast" k21c (kContinue ||| kThrow) (kVerifyRegA ||| kVerifyRegBType);
  V "instance-of" k22c (kContinue ||| kThrow) (kVerifyRegA ||| kVerifyRegB ||| kVerifyRegCType);
  V "array-length" k12x (kContinue ||| kThrow) (kVerifyRegA ||| kVerifyRegB);
  V "new-instance" k21c (kContinue ||| kThrow ||| kClobber) (kVerifyRegA ||| kVerifyRegBNewInstance);
  V "new-array" k22c (kContinue ||| kThrow ||| kClobber) (kVerifyRegA ||| kVerifyRegB ||| kVerifyRegCNewArray);
  V "filled-new-array" k35c (kContinue ||| kThrow ||| kClobber) (kVerifyRegBType ||| kVerifyVarArg);
  V "filled-new-array/range" k3rc (kContinue ||| kThrow ||| kClobber) (kVerifyRegBType ||| kVerifyVarArgRange);
  V "fill-array-data" k31t (kContinue ||| kThrow ||| kClobber) (kVerifyRegA ||| kVerifyArrayData);
  V "throw" k11x kThrow kVerifyRegA;
  V "goto" k10t (kBranch ||| kUnconditional) kVerifyBranchTarget;
  V "goto/16" k20t (kBranch ||| kUnconditional) kVerifyBranchTarget;
  V "goto/32" k30t (kBranch ||| kUnconditional) kVerifyBranchTarget;
  V "packed-switch" k31t (kContinue ||| kSwitch) (kVerifyRegA ||| kVerifySwitchTargets);
  V "sparse-switch" k31t (kContinue ||| kSwitch) (kVerifyRegA ||| kVerifySwitchTargets);
  V "cmpl-float" k23x kContinue (kVerifyRegA ||| kVerifyRegB ||| kVerifyRegC);
  V "cmpg-float" k23x kContinue (kVerifyRegA ||| kVerifyRegB ||| kVerifyRegC);
  V "cmpl-double" k23x kContinue (kVerifyRegA ||| kVerifyRegBWide ||| kVerifyRegCWide);
  V "cmpg-double" k23x kContinue (kVerifyRegA ||| kVerifyRegBWide ||| kVerifyRegCWide);
  V "cmp-long" k23x kContinue (kVerifyRegA ||| kVerifyRegBWide ||| kVerifyRegCWide);
  V "if-eq" k22t (kContinue ||| kBranch) (kVerifyRegA ||| kVerifyRegB ||| kVerifyBranchTarget);
  V "if-ne" k22t (kContinue ||| kBranch) (kVerifyRegA ||| kVerifyRegB ||| kVerifyBranchTarget);
  V "if-lt" k22t (kContinue ||| kBranch) (kVerifyRegA ||| kVerifyRegB ||| kVerifyBranchTarget);
  V "if-ge" k22t (kContinue ||| kBranch) (kVerifyRegA ||| kVerifyRegB ||| kVerifyBranchTarget);
  V "if-gt" k22t (kContinue ||| kBranch) (kVerifyRegA ||| kVerifyRegB ||| kVerifyBranchTarget);
  V "if-le" k22t (kContinue ||| kBranch) (kVerifyRegA ||| kVerifyRegB ||| kVerifyBranchTarget);
  V "if-eqz" k21t (kContinue ||| kBranch) (kVerifyRegA ||| kVerifyBranchTarget);
  V "if-nez" k21t (kContinue ||| kBranch) (kVerifyRegA ||| kVerifyBranchTarget);
  V "if-ltz" k21t (kContinue ||| kBranch) (kVerifyRegA ||| kVerifyBranchTarget);
  V "if-gez" k21t (kContinue ||| kBranch) (kVerifyRegA ||| kVerifyBranchTarget);
  V "if-gtz" k21t (kContinue ||| kBranch) (kVerifyRegA ||| kVerifyBranchTarget);
  V "if-lez" k21t (kContinue ||| kBranch) (kVerifyRegA ||| kVerifyBranchTarget);
  V "unused-3e" k10x 0 kVerifyError;
  V "unused-3f" k10x 0 kVerifyError;
  V "unused-40" k10x 0 kVerifyError;
  V "unused-41" k10x 0 kVerifyError;
  V "unused-42" k10x 0 kVerifyError;
  V "unused-43" k10x 0 kVerifyError;
  V "aget" k23x (kContinue ||| kThrow ||| kLoad) (kVerifyRegA ||| kVerifyRegB ||| kVerifyRegC);
  V "aget-wide" k23x (kContinue ||| kThrow ||| kLoad) (kVerifyRegAWide ||| kVerifyRegB ||| kVerifyRegC);
  V "aget-object" k23x (kContinue ||| kThrow ||| kLoad) (kVerifyRegA ||| kVerifyRegB ||| kVerifyRegC);
  V "aget-boolean" k23x (kContinue ||| kThrow ||| kLoad) (kVerifyRegA ||| kVerifyRegB ||| kVerifyRegC);
  V "aget-byte" k23x (kContinue ||| kThrow ||| kLoad) (kVerifyRegA ||| kVerifyRegB ||| kVerifyRegC);
  V "aget-char" k23x (kContinue ||| kThrow ||| kLoad) (kVerifyRegA ||| kVerifyRegB ||| kVerifyRegC);
  V "aget-short" k23x (kContinue ||| kThrow ||| kLoad) (kVerifyRegA ||| kVerifyRegB ||| kVerifyRegC);
  V "aput" k23x (kContinue ||| kThrow ||| kStore) (kVerifyRegA ||| kVerifyRegB ||| kVerifyRegC);
  V "aput-wide" k23x (kContinue ||| kThrow ||| kStore) (kVerifyRegAWide ||| kVerifyRegB ||| kVerifyRegC);
  V "aput-object" k23x (kContinue ||| kThrow ||| kStore) (kVerifyRegA ||| kVerifyRegB ||| kVerifyRegC);
  V "aput-boolean" k23x (kContinue ||| kThrow ||| kStore) (kVerifyRegA ||| kVerifyRegB ||| kVerifyRegC);
  V "aput-byte" k23x (kContinue ||| kThrow ||| kStore) (kVerifyRegA ||| kVerifyRegB ||| kVerifyRegC);
  V "aput-char" k23x (kContinue ||| kThrow ||| kStore) (kVerifyRegA ||| kVerifyRegB ||| kVerifyRegC);
  V "aput-short" k23x (kContinue ||| kThrow ||| kStore) (kVerifyRegA ||| kVerifyRegB ||| kVerifyRegC);
  V "iget" k22c (kContinue ||| kThrow ||| kLoad ||| kRegCFieldOrConstant) (kVerifyRegA ||| kVerifyRegB ||| kVerifyRegCField);
  V "iget-wide" k22c (kContinue ||| kThrow ||| kLoad ||| kRegCFieldOrConstant) (kVerifyRegAWide ||| kVerifyRegB ||| kVerifyRegCField);
  V "iget-object" k22c (kContinue ||| kThrow ||| kLoad ||| kRegCFieldOrConstant) (kVerifyRegA ||| kVerifyRegB ||| kVerifyRegCField);
  V "iget-boolean" k22c (kContinue ||| kThrow ||| kLoad ||| kRegCFieldOrConstant) (kVerifyRegA ||| kVerifyRegB ||| kVerifyRegCField);
  V "iget-byte" k22c (kContinue ||| kThrow ||| kLoad ||| kRegCFieldOrConstant) (kVerifyRegA ||| kVerifyRegB ||| kVerifyRegCField);
  V "iget-char" k22c (kContinue ||| kThrow ||| kLoad ||| kRegCFieldOrConstant) (kVerifyRegA ||| kVerifyRegB ||| kVerifyRegCField);
  V "iget-short" k22c (kContinue ||| kThrow ||| kLoad ||| kRegCFieldOrConstant) (kVerifyRegA ||| kVerifyRegB ||| kVerifyRegCField);
  V "iput" k22c (kContinue ||| kThrow ||| kStore ||| kRegCFieldOrConstant) (kVerifyRegA ||| kVerifyRegB ||| kVerifyRegCField);
  V "iput-wide" k22c (kContinue ||| kThrow ||| kStore ||| kRegCFieldOrConstant) (kVerifyRegAWide ||| kVerifyRegB ||| kVerifyRegCField);
  V "iput-object" k22c (kContinue ||| kThrow ||| kStore ||| kRegCFieldOrConstant) (kVerifyRegA ||| kVerifyRegB ||| kVerifyRegCField);
  V "iput-boolean" k22c (kContinue ||| kThrow ||| kStore ||| kRegCFieldOrConstant) (kVerifyRegA ||| kVerifyRegB ||| kVerifyRegCField);
  V "iput-byte" k22c (kContinue ||| kThrow ||| kStore ||| kRegCFieldOrConstant) (kVerifyRegA ||| kVerifyRegB ||| kVerifyRegCField);
  V "iput-char" k22c (kContinue ||| kThrow ||| kStore ||| kRegCFieldOrConstant) (kVerifyRegA ||| kVerifyRegB ||| kVerifyRegCField);
  V "iput-short" k22c (kContinue ||| kThrow ||| kStore ||| kRegCFieldOrConstant) (kVerifyRegA ||| kVerifyRegB ||| kVerifyRegCField);
  V "sget" k21c (kContinue ||| kThrow ||| kLoad ||| kRegBFieldOrConstant) (kVerifyRegA ||| kVerifyRegBField);
  V "sget-wide" k21c (kContinue ||| kThrow ||| kLoad ||| kRegBFieldOrConstant) (kVerifyRegAWide ||| kVerifyRegBField);
  V "sget-object" k21c (kContinue ||| kThrow ||| kLoad ||| kRegBFieldOrConstant) (kVerifyRegA ||| kVerifyRegBField);
  V "sget-boolean" k21c (kContinue ||| kThrow ||| kLoad ||| kRegBFieldOrConstant) (kVerifyRegA ||| kVerifyRegBField);
  V "sget-byte" k21c (kContinue ||| kThrow ||| kLoad ||| kRegBFieldOrConstant) (kVerifyRegA ||| kVerifyRegBField);
  V "sget-char" k21c (kContinue ||| kThrow ||| kLoad ||| kRegBFieldOrConstant) (kVerifyRegA ||| kVerifyRegBField);
  V "sget-short" k21c (kContinue ||| kThrow ||| kLoad ||| kRegBFieldOrConstant) (kVerifyRegA ||| kVerifyRegBField);
  V "sput" k21c (kContinue ||| kThrow ||| kStore ||| kRegBFieldOrConstant) (kVerifyRegA ||| kVerifyRegBField);
  V "sput-wide" k21c (kContinue ||| kThrow ||| kStore ||| kRegBFieldOrConstant) (kVerifyRegAWide ||| kVerifyRegBField);
  V "sput-object" k21c (kContinue ||| kThrow ||| kStore ||| kRegBFieldOrConstant) (kVerifyRegA ||| kVerifyRegBField);
  V "sput-boolean" k21c (kContinue ||| kThrow ||| kStore ||| kRegBFieldOrConstant) (kVerifyRegA ||| kVerifyRegBField);
  V "sput-byte" k21c (kContinue ||| kThrow ||| kStore ||| kRegBFieldOrConstant) (kVerifyRegA ||| kVerifyRegBField);
  V "sput-char" k21c (kContinue ||| kThrow ||| kStore ||| kRegBFieldOrConstant) (kVerifyRegA ||| kVerifyRegBField);
  V "sput-short" k21c (kContinue ||| kThrow ||| kStore ||| kRegBFieldOrConstant) (kVerifyRegA ||| kVerifyRegBField);
  V "invoke-virtual" k35c (kContinue ||| kThrow ||| kInvoke) (kVerifyRegBMethod ||| kVerifyVarArgNonZero);
  V "invoke-super" k35c (kContinue ||| kThrow ||| kInvoke) (kVerifyRegBMethod ||| kVerifyVarArgNonZero);
  V "invoke-direct" k35c (kContinue ||| kThrow ||| kInvoke) (kVerifyRegBMethod ||| kVerifyVarArgNonZero);
  V "invoke-static" k35c (kContinue ||| kThrow ||| kInvoke) (kVerifyRegBMethod ||| kVerifyVarArg);
  V "invoke-interface" k35c (kContinue ||| kThrow ||| kInvoke) (kVerifyRegBMethod ||| kVerifyVarArgNonZero);
  V "return-void-barrier" k10x kReturn kVerifyNone;
  V "invoke-virtual/range" k3rc (kContinue ||| kThrow ||| kInvoke) (kVerifyRegBMethod ||| kVerifyVarArgRangeNonZero);
  V "invoke-super/range" k3rc (kContinue ||| kThrow ||| kInvoke) (kVerifyRegBMethod ||| kVerifyVarArgRangeNonZero);
  V "invoke-direct/range" k3rc (kContinue ||| kThrow ||| kInvoke) (kVerifyRegBMethod ||| kVerifyVarArgRangeNonZero);
  V "invoke-static/range" k3rc (kContinue ||| kThrow ||| kInvoke) (kVerifyRegBMethod ||| kVerifyVarArgRange);
  V "invoke-interface/range" k3rc (kContinue ||| kThrow ||| kInvoke) (kVerifyRegBMethod ||| kVerifyVarArgRangeNonZero);
  V "unused-79" k10x 0 kVerifyError;
  V "unused-7a" k10x 0 kVerifyError;
  V "neg-int" k12x kContinue (kVerifyRegA ||| kVerifyRegB);
  V "not-int" k12x kContinue (kVerifyRegA ||| kVerifyRegB);
  V "neg-long" k12x kContinue (kVerifyRegAWide ||| kVerifyRegBWide);
  V "not-long" k12x kContinue (kVerifyRegAWide ||| kVerifyRegBWide);
  V "neg-float" k12x kContinue (kVerifyRegA ||| kVerifyRegB);
  V "neg-double" k12x kContinue (kVerifyRegAWide ||| kVerifyRegBWide);
  V "int-to-long" k12x (kContinue ||| kCast) (kVerifyRegAWide ||| kVerifyRegB);
  V "int-to-float" k12x (kContinue ||| kCast) (kVerifyRegA ||| kVerifyRegB);
  V "int-to-double" k12x (kContinue ||| kCast) (kVerifyRegAWide ||| kVerifyRegB);
  V "long-to-int" k12x (kContinue ||| kCast) (kVerifyRegA ||| kVerifyRegBWide);
  V "long-to-float" k12x (kContinue ||| kCast) (kVerifyRegA ||| kVerifyRegBWide);
  V "long-to-double" k12x (kContinue ||| kCast) (kVerifyRegAWide ||| kVerifyRegBWide);
  V "float-to-int" k12x (kContinue ||| kCast) (kVerifyRegA ||| kVerifyRegB);
  V "float-to-long" k12x (kContinue ||| kCast) (kVerifyRegAWide ||| kVerifyRegB);
  V "float-to-double" k12x (kContinue ||| kCast) (kVerifyRegAWide ||| kVerifyRegB);
  V "double-to-int" k12x (kContinue ||| kCast) (kVerifyRegA ||| kVerifyRegBWide);
  V "double-to-long" k12x (kContinue ||| kCast) (kVerifyRegAWide ||| kVerifyRegBWide);
  V "double-to-float" k12x (kContinue ||| kCast) (kVerifyRegA ||| kVerifyRegBWide);
  V "int-to-byte" k12x (kContinue ||| kCast) (kVerifyRegA ||| kVerifyRegB);
  V "int-to-char" k12x (kContinue ||| kCast) (kVerifyRegA ||| kVerifyRegB);
  V "int-to-short" k12x (kContinue ||| kCast) (kVerifyRegA ||| kVerifyRegB);
  V "add-int" k23x (kContinue ||| kAdd) (kVerifyRegA ||| kVerifyRegB ||| kVerifyRegC);
  V "sub-int" k23x (kContinue ||| kSubtract) (kVerifyRegA ||| kVerifyRegB ||| kVerifyRegC);
  V "mul-int" k23x (kContinue ||| kMultiply) (kVerifyRegA ||| kVerifyRegB ||| kVerifyRegC);
  V "div-int" k23x (kContinue ||| kThrow ||| kDivide) (kVerifyRegA ||| kVerifyRegB ||| kVerifyRegC);
  V "rem-int" k23x (kContinue ||| kThrow ||| kRemainder) (kVerifyRegA ||| kVerifyRegB ||| kVerifyRegC);
  V "and-int" k23x (kContinue ||| kAnd) (kVerifyRegA ||| kVerifyRegB ||| kVerifyRegC);
  V "or-int" k23x (kContinue ||| kOr) (kVerifyRegA ||| kVerifyRegB ||| kVerifyRegC);
  V "xor-int" k23x (kContinue ||| kXor) (kVerifyRegA ||| kVerifyRegB ||| kVerifyRegC);
  V "shl-int" k23x (kContinue ||| kShl) (kVerifyRegA ||| kVerifyRegB ||| kVerifyRegC);
  V "shr-int" k23x (kContinue ||| kShr) (kVerifyRegA ||| kVerifyRegB ||| kVerifyRegC);
  V "ushr-int" k23x (kContinue ||| kUshr) (kVerifyRegA ||| kVerifyRegB ||| kVerifyRegC);
  V "add-long" k23x (kContinue ||| kAdd) (kVerifyRegAWide ||| kVerifyRegBWide ||| kVerifyRegCWide);
  V "sub-long" k23x (kContinue ||| kSubtract) (kVerifyRegAWide ||| kVerifyRegBWide ||| kVerifyRegCWide);
  V "mul-long" k23x (kContinue ||| kMultiply) (kVerifyRegAWide ||| kVerifyRegBWide ||| kVerifyRegCWide);
  V "div-long" k23x (kContinue ||| kThrow ||| kDivide) (kVerifyRegAWide ||| kVerifyRegBWide ||| kVerifyRegCWide);
  V "rem-long" k23x (kContinue ||| kThrow ||| kRemainder) (kVerifyRegAWide ||| kVerifyRegBWide ||| kVerifyRegCWide);
  V "and-long" k23x (kContinue ||| kAnd) (kVerifyRegAWide ||| kVerifyRegBWide ||| kVerifyRegCWide);
  V "or-long" k23x (kContinue ||| kOr) (kVerifyRegAWide ||| kVerifyRegBWide ||| kVerifyRegCWide);
  V "xor-long" k23x (kContinue ||| kXor) (kVerifyRegAWide ||| kVerifyRegBWide ||| kVerifyRegCWide);
  V "shl-long" k23x (kContinue ||| kShl) (kVerifyRegAWide ||| kVerifyRegBWide ||| kVerifyRegC);
  V "shr-long" k23x (kContinue ||| kShr) (kVerifyRegAWide ||| kVerifyRegBWide ||| kVerifyRegC);
  V "ushr-long" k23x (kContinue ||| kUshr) (kVerifyRegAWide ||| kVerifyRegBWide ||| kVerifyRegC);
  V "add-float" k23x (kContinue ||| kAdd) (kVerifyRegA ||| kVerifyRegB ||| kVerifyRegC);
  V "sub-float" k23x (kContinue ||| kSubtract) (kVerifyRegA ||| kVerifyRegB ||| kVerifyRegC);
  V "mul-float" k23x (kContinue ||| kMultiply) (kVerifyRegA ||| kVerifyRegB ||| kVerifyRegC);
  V "div-float" k23x (kContinue ||| kDivide) (kVerifyRegA ||| kVerifyRegB ||| kVerifyRegC);
  V "rem-float" k23x (kContinue ||| kRemainder) (kVerifyRegA ||| kVerifyRegB ||| kVerifyRegC);
  V "add-double" k23x (kContinue ||| kAdd) (kVerifyRegAWide ||| kVerifyRegBWide ||| kVerifyRegCWide);
  V "sub-double" k23x (kContinue ||| kSubtract) (kVerifyRegAWide ||| kVerifyRegBWide ||| kVerifyRegCWide);
  V "mul-double" k23x (kContinue ||| kMultiply) (kVerifyRegAWide ||| kVerifyRegBWide ||| kVerifyRegCWide);
  V "div-double" k23x (kContinue ||| kDivide) (kVerifyRegAWide ||| kVerifyRegBWide ||| kVerifyRegCWide);
  V "rem-double" k23x (kContinue ||| kRemainder) (kVerifyRegAWide ||| kVerifyRegBWide ||| kVerifyRegCWide);
  V "add-int/2addr" k12x (kContinue ||| kAdd) (kVerifyRegA ||| kVerifyRegB);
  V "sub-int/2addr" k12x (kContinue ||| kSubtract) (kVerifyRegA ||| kVerifyRegB);
  V "mul-int/2addr" k12x (kContinue ||| kMultiply) (kVerifyRegA ||| kVerifyRegB);
  V "div-int/2addr" k12x (kContinue ||| kThrow ||| kDivide) (kVerifyRegA ||| kVerifyRegB);
  V "rem-int/2addr" k12x (kContinue ||| kThrow ||| kRemainder) (kVerifyRegA ||| kVerifyRegB);
  V "and-int/2addr" k12x (kContinue ||| kAnd) (kVerifyRegA ||| kVerifyRegB);
  V "or-int/2addr" k12x (kContinue ||| kOr) (kVerifyRegA ||| kVerifyRegB);
  V "xor-int/2addr" k12x (kContinue ||| kXor) (kVerifyRegA ||| kVerifyRegB);
  V "shl-int/2addr" k12x (kContinue ||| kShl) (kVerifyRegA ||| kVerifyRegB);
  V "shr-int/2addr" k12x (kContinue ||| kShr) (kVerifyRegA ||| kVerifyRegB);
  V "ushr-int/2addr" k12x (kContinue ||| kUshr) (kVerifyRegA ||| kVerifyRegB);
  V "add-long/2addr" k12x (kContinue ||| kAdd) (kVerifyRegAWide ||| kVerifyRegBWide);
  V "sub-long/2addr" k12x (kContinue ||| kSubtract) (kVerifyRegAWide ||| kVerifyRegBWide);
  V "mul-long/2addr" k12x (kContinue ||| kMultiply) (kVerifyRegAWide ||| kVerifyRegBWide);
  V "div-long/2addr" k12x (kContinue ||| kThrow ||| kDivide) (kVerifyRegAWide ||| kVerifyRegBWide);
  V "rem-long/2addr" k12x (kContinue ||| kThrow ||| kRemainder) (kVerifyRegAWide ||| kVerifyRegBWide);
  V "and-long/2addr" k12x (kContinue ||| kAnd) (kVerifyRegAWide ||| kVerifyRegBWide);
  V "or-long/2addr" k12x (kContinue ||| kOr) (kVerifyRegAWide ||| kVerifyRegBWide);
  V "xor-long/2addr" k12x (kContinue ||| kXor) (kVerifyRegAWide ||| kVerifyRegBWide);
  V "shl-long/2addr" k12x (kContinue ||| kShl) (kVerifyRegAWide ||| kVerifyRegB);
  V "shr-long/2addr" k12x (kContinue ||| kShr) (kVerifyRegAWide ||| kVerifyRegB);
  V "ushr-long/2addr" k12x (kContinue ||| kUshr) (kVerifyRegAWide ||| kVerifyRegB);
  V "add-float/2addr" k12x (kContinue ||| kAdd) (kVerifyRegA ||| kVerifyRegB);
  V "sub-float/2addr" k12x (kContinue ||| kSubtract) (kVerifyRegA ||| kVerifyRegB);
  V "mul-float/2addr" k12x (kContinue ||| kMultiply) (kVerifyRegA ||| kVerifyRegB);
  V "div-float/2addr" k12x (kContinue ||| kDivide) (kVerifyRegA ||| kVerifyRegB);
  V "rem-float/2addr" k12x (kContinue ||| kRemainder) (kVerifyRegA ||| kVerifyRegB);
  V "add-double/2addr" k12x (kContinue ||| kAdd) (kVerifyRegAWide ||| kVerifyRegBWide);
  V "sub-double/2addr" k12x (kContinue ||| kSubtract) (kVerifyRegAWide ||| kVerifyRegBWide);
  V "mul-double/2addr" k12x (kContinue ||| kMultiply) (kVerifyRegAWide ||| kVerifyRegBWide);
  V "div-double/2addr" k12x (kContinue ||| kDivide) (kVerifyRegAWide ||| kVerifyRegBWide);
  V "rem-double/2addr" k12x (kContinue ||| kRemainder) (kVerifyRegAWide ||| kVerifyRegBWide);
  V "add-int/lit16" k22s (kContinue ||| kAdd ||| kRegCFieldOrConstant) (kVerifyRegA ||| kVerifyRegB);
  V "rsub-int" k22s (kContinue ||| kSubtract ||| kRegCFieldOrConstant) (kVerifyRegA ||| kVerifyRegB);
  V "mul-int/lit16" k22s (kContinue ||| kMultiply ||| kRegCFieldOrConstant) (kVerifyRegA ||| kVerifyRegB);
  V "div-int/lit16" k22s (kContinue ||| kThrow ||| kDivide ||| kRegCFieldOrConstant) (kVerifyRegA ||| kVerifyRegB);
  V "rem-int/lit16" k22s (kContinue ||| kThrow ||| kRemainder ||| kRegCFieldOrConstant) (kVerifyRegA ||| kVerifyRegB);
  V "and-int/lit16" k22s (kContinue ||| kAnd ||| kRegCFieldOrConstant) (kVerifyRegA ||| kVerifyRegB);
  V "or-int/lit16" k22s (kContinue ||| kOr ||| kRegCFieldOrConstant) (kVerifyRegA ||| kVerifyRegB);
  V "xor-int/lit16" k22s (kContinue ||| kXor ||| kRegCFieldOrConstant) (kVerifyRegA ||| kVerifyRegB);
  V "add-int/lit8" k22b (kContinue ||| kAdd ||| kRegCFieldOrConstant) (kVerifyRegA ||| kVerifyRegB);
  V "rsub-int/lit8" k22b (kContinue ||| kSubtract ||| kRegCFieldOrConstant) (kVerifyRegA ||| kVerifyRegB);
  V "mul-int/lit8" k22b (kContinue ||| kMultiply ||| kRegCFieldOrConstant) (kVerifyRegA ||| kVerifyRegB);
  V "div-int/lit8" k22b (kContinue ||| kThrow ||| kDivide ||| kRegCFieldOrConstant) (kVerifyRegA ||| kVerifyRegB);
  V "rem-int/lit8" k22b (kContinue ||| kThrow ||| kRemainder ||| kRegCFieldOrConstant) (kVerifyRegA ||| kVerifyRegB);
  V "and-int/lit8" k22b (kContinue ||| kAnd ||| kRegCFieldOrConstant) (kVerifyRegA ||| kVerifyRegB);
  V "or-int/lit8" k22b (kContinue ||| kOr ||| kRegCFieldOrConstant) (kVerifyRegA ||| kVerifyRegB);
  V "xor-int/lit8" k22b (kContinue ||| kXor ||| kRegCFieldOrConstant) (kVerifyRegA ||| kVerifyRegB);
  V "shl-int/lit8" k22b (kContinue ||| kShl ||| kRegCFieldOrConstant) (kVerifyRegA ||| kVerifyRegB);
  V "shr-int/lit8" k22b (kContinue ||| kShr ||| kRegCFieldOrConstant) (kVerifyRegA ||| kVerifyRegB);
  V "ushr-int/lit8" k22b (kContinue ||| kUshr ||| kRegCFieldOrConstant) (kVerifyRegA ||| kVerifyRegB);
  V "iget-quick" k22c (kContinue ||| kThrow ||| kLoad ||| kRegCFieldOrConstant) (kVerifyRegA ||| kVerifyRegB ||| kVerifyRuntimeOnly);
  V "iget-wide-quick" k22c (kContinue ||| kThrow ||| kLoad ||| kRegCFieldOrConstant) (kVerifyRegAWide ||| kVerifyRegB ||| kVerifyRuntimeOnly);
  V "iget-object-quick" k22c (kContinue ||| kThrow ||| kLoad ||| kRegCFieldOrConstant) (kVerifyRegA ||| kVerifyRegB ||| kVerifyRuntimeOnly);
  V "iput-quick" k22c (kContinue ||| kThrow ||| kStore ||| kRegCFieldOrConstant) (kVerifyRegA ||| kVerifyRegB ||| kVerifyRuntimeOnly);
  V "iput-wide-quick" k22c (kContinue ||| kThrow ||| kStore ||| kRegCFieldOrConstant) (kVerifyRegAWide ||| kVerifyRegB ||| kVerifyRuntimeOnly);
  V "iput-object-quick" k22c (kContinue ||| kThrow ||| kStore ||| kRegCFieldOrConstant) (kVerifyRegA ||| kVerifyRegB ||| kVerifyRuntimeOnly);
  V "invoke-virtual-quick" k35c (kContinue ||| kThrow ||| kInvoke) (kVerifyVarArgNonZero ||| kVerifyRuntimeOnly);
  V "invoke-virtual/range-quick" k3rc (kContinue ||| kThrow ||| kInvoke) (kVerifyVarArgRangeNonZero ||| kVerifyRuntimeOnly);
  V "unused-eb" k10x 0 kVerifyError;
  V "unused-ec" k10x 0 kVerifyError;
  V "unused-ed" k10x 0 kVerifyError;
  V "unused-ee" k10x 0 kVerifyError;
  V "unused-ef" k10x 0 kVerifyError;
  V "unused-f0" k10x 0 kVerifyError;
  V "unused-f1" k10x 0 kVerifyError;
  V "unused-f2" k10x 0 kVerifyError;
  V "unused-f3" k10x 0 kVerifyError;
  V "unused-f4" k10x 0 kVerifyError;
  V "unused-f5" k10x 0 kVerifyError;
  V "unused-f6" k10x 0 kVerifyError;
  V "unused-f7" k10x 0 kVerifyError;
  V "unused-f8" k10x 0 kVerifyError;
  V "unused-f9" k10x 0 kVerifyError;
  V "unused-fa" k10x 0 kVerifyError;
  V "unused-fb" k10x 0 kVerifyError;
  V "unused-fc" k10x 0 kVerifyError;
  V "unused-fd" k10x 0 kVerifyError;
  V "unused-fe" k10x 0 kVerifyError;
  V "unused-ff" k10x 0 kVerifyError
].

Definition info (opcode : Z) : cres insn_info := deref (DEX_INSTRUCTION_LIST !! Z.to_nat opcode).
Definition FormatOf (opcode : Z) : cres Format := i ← info opcode; Done (format i).
Definition FlagsOf (opcode : Z) : cres Z := i ← info opcode; Done (flags i).
Definition VerifyFlagsOf (opcode : Z) : cres Z := i ← info opcode; Done (vflags i).

Definition NOP : Z := 0x00.
Definition THROW : Z := 0x27.

(** [kInstructionSizeInCodeUnits]. *)
Definition table_size (opcode : Z) (f : Format) : Z :=
  let between lo hi := (format_index lo <=? format_index f) && (format_index f <=? format_index hi) in
  if opcode =? NOP then -1
  else if between k10x k10t then 1
  else if between k20t k22c then 2
  else if between k32x k3rc then 3
  else if bool_decide (f = k51l) then 5 else -1.

(** ** Decoding

    [code] is what the address of the instruction points to. *)

Definition Fetch16 (code : list Z) (offset : nat) : cres Z := deref (code !! offset).
Definition Fetch32 (code : list Z) (offset : nat) : cres Z :=
  lo ← Fetch16 code offset; hi ← Fetch16 code (offset + 1)%nat; Done (Z.lor lo (uwrap 32 (Z.shiftl hi 16))).

Definition InstA (inst_data : Z) : Z := uwrap 8 (Z.land (Z.shiftr inst_data 8) 0x0f).
Definition InstB (inst_data : Z) : Z := uwrap 8 (Z.shiftr inst_data 12).
Definition InstAA (inst_data : Z) : Z := uwrap 8 (Z.shiftr inst_data 8).

Definition Opcode (code : list Z) : cres Z := u ← Fetch16 code 0; Done (Z.land u 0xFF).
Definition code_format (code : list Z) : cres Format := op ← Opcode code; FormatOf op.

(** The formats that have an operand. *)
Definition HasVRegA (f : Format) : bool := true.
Definition HasVRegB (f : Format) : bool :=
  match f with k10t | k10x | k11x | k20t | k30t => false | _ => true end.
Definition HasWideVRegB (f : Format) : bool := bool_decide (f = k51l).
Definition HasVRegC (f : Format) : bool :=
  match f with k22b | k22c | k22s | k22t | k23x | k35c | k3rc => true | _ => false end.
Definition HasVarArgs (f : Format) : bool := bool_decide (f = k35c).

Definition VRegA (code : list Z) : cres Z :=
  f ← code_format code;
  inst_data ← Fetch16 code 0;
  match f with
  | k10t => Done (swrap 8 (InstAA inst_data))
  | k10x | k11x | k21c | k21h | k21s | k21t | k22b | k22x | k23x | k31c | k31i | k31t | k3rc | k51l =>
      Done (InstAA inst_data)
  | k11n | k12x | k22c | k22s | k22t => Done (InstA inst_data)
  | k20t => u ← Fetch16 code 1; Done (swrap 16 u)
  | k30t => u ← Fetch32 code 1; Done (swrap 32 u)
  | k32x => Fetch16 code 1
  | k35c => Done (InstB inst_data)
  end.

Definition VRegB_11n (inst_data : Z) : Z := swrap 8 (Z.shiftr (swrap 32 (Z.shiftl (InstB inst_data) 28)) 28).
Definition VRegB_51l (code : list Z) : cres Z :=
  lo ← Fetch32 code 1; hi ← Fetch32 code 3; Done (Z.lor lo (uwrap 64 (Z.shiftl hi 32))).

Definition VRegB (code : list Z) : cres Z :=
  f ← code_format code;
  inst_data ← Fetch16 code 0;
  match f with
  | k11n => Done (VRegB_11n inst_data)
  | k12x | k22c | k22s | k22t => Done (InstB inst_data)
  | k21c | k21h | k22x | k35c | k3rc => Fetch16 code 1
  | k21s | k21t => u ← Fetch16 code 1; Done (swrap 16 u)
  | k22b | k23x => u ← Fetch16 code 1; Done (uwrap 8 (Z.land u 0xff))
  | k31c | k31i | k31t => u ← Fetch32 code 1; Done (swrap 32 u)
  | k32x => Fetch16 code 2
  | k51l => u ← VRegB_51l code; Done (swrap 32 u)
  | k10t | k10x | k11x | k20t | k30t => Fault Aborted
  end.
Definition WideVRegB (code : list Z) : cres Z := VRegB_51l code.

Definition VRegC (code : list Z) : cres Z :=
  f ← code_format code;
  match f with
  | k22b => u ← Fetch16 code 1; Done (swrap 8 (Z.shiftr u 8))
  | k22c => Fetch16 code 1
  | k22s | k22t => u ← Fetch16 code 1; Done (swrap 16 u)
  | k23x => u ← Fetch16 code 1; Done (uwrap 8 (Z.shiftr u 8))
  | k35c => u ← Fetch16 code 2; Done (uwrap 8 (Z.land u 0x0f))
  | k3rc => Fetch16 code 2
  | _ => Fault Aborted
  end.

(** [GetVarArgs]: the array of five after the call; the entries from the count
    on keep what was in it. *)
Definition GetVarArgs (arg : list Z) (code : list Z) : cres (list Z) :=
  inst_data ← Fetch16 code 0;
  regList ← Fetch16 code 2;
  let count := InstB inst_data in
  let set (k : nat) (v : Z) (arg : list Z) := if Z.of_nat k <? count then <[k := v]> arg else arg in
  if 5 <? count then Done arg
  else
    Done (set 0%nat (Z.land regList 0x0f)
      (set 1%nat (Z.land (Z.shiftr regList 4) 0x0f)
        (set 2%nat (Z.land (Z.shiftr regList 8) 0x0f)
          (set 3%nat (Z.land (Z.shiftr regList 12) 0x0f)
            (set 4%nat (InstA inst_data) arg))))).

Definition GetTargetOffset (code : list Z) : cres Z :=
  f ← code_format code;
  match f with
  | k22t => VRegC code
  | k21t => VRegB code
  | k10t | k20t | k30t => VRegA code
  | _ => Fault Aborted
  end.

Definition CanFlowThrough (code : list Z) : cres bool :=
  op ← Opcode code; f ← FlagsOf op; Done (negb (Z.land f kContinue =? 0)).
Definition has_flags (mask : Z) (code : list Z) : cres bool :=
  op ← Opcode code; f ← FlagsOf op; Done (negb (Z.land f mask =? 0)).
Definition IsBranch := has_flags kBranch.
Definition IsUnconditional := has_flags kUnconditional.
Definition IsSwitch := has_flags kSwitch.
Definition IsThrow := has_flags kThrow.
Definition IsReturn := has_flags kReturn.
Definition IsInvoke := has_flags kInvoke.
Definition IsBasicBlockEnd (code : list Z) : cres bool :=
  b ← IsBranch code; r ← IsReturn code; op ← Opcode code; Done (b || r || (op =? THROW)).

Definition verify_flags (mask : Z) (code : list Z) : cres Z :=
  op ← Opcode code; f ← VerifyFlagsOf op; Done (Z.land f mask).
Definition any_flag (l : list Z) : Z := fold_right Z.lor 0 l.
Definition maskA : Z := any_flag [kVerifyRegA; kVerifyRegAWide].
Definition maskB : Z :=
  any_flag [kVerifyRegB; kVerifyRegBField; kVerifyRegBMethod; kVerifyRegBNewInstance; kVerifyRegBString;
            kVerifyRegBType; kVerifyRegBWide].
Definition maskC : Z := any_flag [kVerifyRegC; kVerifyRegCField; kVerifyRegCNewArray; kVerifyRegCType; kVerifyRegCWide].
Definition maskExtra : Z :=
  any_flag [kVerifyArrayData; kVerifyBranchTarget; kVerifySwitchTargets; kVerifyVarArg; kVerifyVarArgNonZero;
            kVerifyVarArgRange; kVerifyVarArgRangeNonZero; kVerifyError].
Definition GetVerifyTypeArgumentA := verify_flags maskA.
Definition GetVerifyTypeArgumentB := verify_flags maskB.
Definition GetVerifyTypeArgumentC := verify_flags maskC.
Definition GetVerifyExtraFlags := verify_flags maskExtra.
Definition GetVerifyIsRuntimeOnly (code : list Z) : cres bool :=
  f ← verify_flags kVerifyRuntimeOnly code; Done (negb (f =? 0)).

(** ** Sizes *)

Definition SizeInCodeUnitsComplexOpcode (code : list Z) : cres Z :=
  insn ← Fetch16 code 0;
  if insn =? kPackedSwitchSignature then n ← Fetch16 code 1; Done (4 + n * 2)
  else if insn =? kSparseSwitchSignature then n ← Fetch16 code 1; Done (2 + n * 4)
  else if insn =? kArrayDataSignature then
    element_size ← Fetch16 code 1;
    length ← Fetch32 code 2;
    Done (4 + uwrap 32 (uwrap 32 (element_size * length) + 1) / 2)
  else if Z.land insn 0xFF =? 0 then Done 1 else Fault Aborted.

Definition SizeInCodeUnits (code : list Z) : cres Z :=
  op ← Opcode code;
  f ← FormatOf op;
  let result := table_size op f in
  if result <? 0 then SizeInCodeUnitsComplexOpcode code else Done result.

(** ** Changing instructions in place (quickening) *)

Definition SetOpcode (opcode : Z) (code : list Z) : cres (list Z) :=
  u ← Fetch16 code 0; Done (<[0%nat := Z.lor (Z.land u 0xff00) (uwrap 16 opcode)]> code).
Definition SetVRegA_10x (val : Z) (code : list Z) : cres (list Z) :=
  u ← Fetch16 code 0; Done (<[0%nat := uwrap 16 (Z.lor (Z.shiftl val 8) (Z.land u 0x00ff))]> code).
(** [SetVRegB_3rc], [SetVRegB_35c] and [SetVRegC_22c]. *)
Definition SetUnit1 (val : Z) (code : list Z) : cres (list Z) :=
  _ ← Fetch16 code 1; Done (<[1%nat := val]> code).

(** ** Visiting a method

    [DexInstructionVisitor::Visit] with a handler that records the position and
    the opcode of each instruction.  Each turn consumes at least one unit, so the
    number of units is enough fuel. *)
Fixpoint visit_loop (fuel : nat) (code : list Z) (size_in_code_units i : nat) : cres (list (nat * Z)) :=
  if (i <? size_in_code_units)%nat then
    match fuel with
    | O => Fault OutOfFuel
    | S fuel =>
        op ← Opcode (drop i code);
        n ← SizeInCodeUnits (drop i code);
        rest ← visit_loop fuel code size_in_code_units (i + Z.to_nat n)%nat;
        Done ((i, op) :: rest)
    end
  else Done [].

Definition Visit (code : list Z) (size_in_bytes : Z) : cres (list (nat * Z)) :=
  let size_in_code_units := Z.to_nat (size_in_bytes / 2) in
  visit_loop size_in_code_units code size_in_code_units 0.

(** ** An assembler *)

(** The operands of an instruction; [args] are the registers of format 35c. *)
Record operands := mkOperands { oA : Z; oB : Z; oC : Z; oArgs : list Z }.

(** Unit [k] of a number. *)
Definition unit_of (k x : Z) : Z := (x / 2 ^ (16 * k)) mod 2 ^ 16.
Definition nth_arg (o : operands) (k : nat) : Z := nth k (oArgs o) 0.

Definition encode (f : Format) (op : Z) (o : operands) : list Z :=
  let a := oA o in let b := oB o in let c := oC o in
  match f with
  | k10x | k11x => [op + 256 * a]
  | k12x => [op + 256 * a + 4096 * b]
  | k11n => [op + 256 * a + 4096 * (b mod 16)]
  | k10t => [op + 256 * (a mod 256)]
  | k20t => [op; unit_of 0 a]
  | k22x | k21h | k21c => [op + 256 * a; b]
  | k21t | k21s => [op + 256 * a; unit_of 0 b]
  | k23x => [op + 256 * a; b + 256 * c]
  | k22b => [op + 256 * a; b + 256 * (c mod 256)]
  | k22t | k22s => [op + 256 * a + 4096 * b; unit_of 0 c]
  | k22c => [op + 256 * a + 4096 * b; c]
  | k32x => [op; a; b]
  | k30t => [op; unit_of 0 a; unit_of 1 a]
  | k31t | k31i | k31c => [op + 256 * a; unit_of 0 b; unit_of 1 b]
  | k35c => [op + 256 * nth_arg o 4 + 4096 * a; b;
             nth_arg o 0 + 16 * nth_arg o 1 + 256 * nth_arg o 2 + 4096 * nth_arg o 3]
  | k3rc => [op + 256 * a; b; c]
  | k51l => [op + 256 * a; unit_of 0 b; unit_of 1 b; unit_of 2 b; unit_of 3 b]
  end.

(** The ranges of the operands; those a format does not have are zero. *)
Definition fits (f : Format) (o : operands) : Prop :=
  let a := oA o in let b := oB o in let c := oC o in
  match f with
  | k10x | k11x => in_u 8 a /\ b = 0 /\ c = 0
  | k12x => in_u 4 a /\ in_u 4 b /\ c = 0
  | k11n => in_u 4 a /\ in_s 4 b /\ c = 0
  | k10t => in_s 8 a /\ b = 0 /\ c = 0
  | k20t => in_s 16 a /\ b = 0 /\ c = 0
  | k22x | k21h | k21c => in_u 8 a /\ in_u 16 b /\ c = 0
  | k21t | k21s => in_u 8 a /\ in_s 16 b /\ c = 0
  | k23x => in_u 8 a /\ in_u 8 b /\ in_u 8 c
  | k22b => in_u 8 a /\ in_u 8 b /\ in_s 8 c
  | k22t | k22s => in_u 4 a /\ in_u 4 b /\ in_s 16 c
  | k22c => in_u 4 a /\ in_u 4 b /\ in_u 16 c
  | k32x => in_u 16 a /\ in_u 16 b /\ c = 0
  | k30t => in_s 32 a /\ b = 0 /\ c = 0
  | k31t | k31i => in_u 8 a /\ in_s 32 b /\ c = 0
  | k31c => in_u 8 a /\ in_u 32 b /\ c = 0
  | k35c => a = Z.of_nat (length (oArgs o)) /\ (length (oArgs o) <= 5)%nat /\ in_u 16 b /\
            Forall (in_u 4) (oArgs o) /\ c = nth_arg o 0
  | k3rc => in_u 8 a /\ in_u 16 b /\ in_u 16 c
  | k51l => in_u 8 a /\ in_u 64 b /\ c = 0
  end.

Lemma land_255 x : Z.land x 0xFF = x mod 256.
Proof. change 0xFF with (Z.ones 8). by rewrite Z.land_ones by lia. Qed.
Lemma land_15 x : Z.land x 0x0f = x mod 16.
Proof. change 0x0f with (Z.ones 4). by rewrite Z.land_ones by lia. Qed.

(** Slices of a unit, as quotients. *)
Lemma InstA_div u : InstA u = (u / 256) mod 16.
Proof.
  unfold InstA, uwrap. rewrite land_15, Z.shiftr_div_pow2 by lia. change (2 ^ 8) with 256.
  rewrite Z.mod_small; [done|]. pose proof (Z.mod_pos_bound (u / 256) 16). lia.
Qed.
Lemma InstB_div u : in_u 16 u -> InstB u = u / 4096.
Proof.
  intros Hu. unfold InstB, uwrap, in_u in *. rewrite Z.shiftr_div_pow2 by lia.
  change (2 ^ 12) with 4096. change (2 ^ 8) with 256. change (2 ^ 16) with 65536 in Hu.
  Z.to_euclidean_division_equations. lia.
Qed.
Lemma InstAA_div u : in_u 16 u -> InstAA u = u / 256.
Proof.
  intros Hu. unfold InstAA, uwrap, in_u in *. rewrite Z.shiftr_div_pow2 by lia.
  change (2 ^ 8) with 256. change (2 ^ 16) with 65536 in Hu. Z.to_euclidean_division_equations. lia.
Qed.

Lemma fetch32_units lo hi : in_u 16 lo -> in_u 16 hi -> Z.lor lo (uwrap 32 (Z.shiftl hi 16)) = lo + 65536 * hi.
Proof.
  unfold in_u. intros Hlo Hhi. rewrite uwrap_small.
  - rewrite lor_shiftl_add by lia. lia.
  - rewrite Z.shiftl_mul_pow2 by lia. unfold in_u. lia.
Qed.

Lemma unit_range k x : in_u 16 (unit_of k x).
Proof. unfold unit_of, in_u. apply Z.mod_pos_bound. lia. Qed.

(** The first units make up the number again. *)
Lemma unit_0 x : unit_of 0 x = x mod 2 ^ 16.
Proof. unfold unit_of. change (2 ^ (16 * 0)) with 1. by rewrite Z.div_1_r. Qed.
Lemma units_32 x : unit_of 0 x + 65536 * unit_of 1 x = x mod 2 ^ 32.
Proof.
  unfold unit_of. change (2 ^ (16 * 0)) with 1. change (2 ^ (16 * 1)) with 65536.
  change (2 ^ 16) with 65536. change (2 ^ 32) with 4294967296. rewrite Z.div_1_r.
  Z.to_euclidean_division_equations. lia.
Qed.
Lemma units_64 x : unit_of 2 x + 65536 * unit_of 3 x = (x / 2 ^ 32) mod 2 ^ 32.
Proof.
  rewrite <- units_32. unfold unit_of. rewrite !Z.div_div by lia. rewrite <- !Z.pow_add_r by lia. done.
Qed.

Lemma swrap_of_mod w x : 0 < w -> in_s w x -> swrap w (x mod 2 ^ w) = x.
Proof.
  intros Hw Hx. rewrite <- (swrap_small w x) at 2 by done. pose proof (Z.pow_pos_nonneg 2 w).
  rewrite (Z.div_mod x (2 ^ w)) at 2 by lia. by rewrite Z.add_comm, Z.mul_comm, swrap_plus.
Qed.

Lemma VRegB_11n_ok b lo : in_s 4 b -> 0 <= lo < 4096 -> VRegB_11n (lo + 4096 * (b mod 16)) = b.
Proof.
  intros Hb Hlo. pose proof (Z.mod_pos_bound b 16) as Hm. unfold VRegB_11n. rewrite InstB_div by (unfold in_u; lia).
  replace ((lo + 4096 * (b mod 16)) / 4096) with (b mod 16) by (Z.to_euclidean_division_equations; lia).
  assert (forallb (fun b => swrap 8 (Z.shiftr (swrap 32 (Z.shiftl ((b - 8) mod 16) 28)) 28) =? b - 8)
    (map Z.of_nat (seq 0 16)) = true) as H by reflexivity.
  rewrite forallb_forall in H. specialize (H (b + 8)). apply Z.eqb_eq.
  replace (b + 8 - 8) with b in H by lia. apply H. apply in_map_iff. exists (Z.to_nat (b + 8)).
  unfold in_s in Hb. split; [lia|]. apply in_seq. lia.
Qed.

(** ** Decoding what was assembled *)

Section Decode.
Context (op : Z) (f : Format) (o : operands) (rest : list Z).
Context (Hop : in_u 8 op) (Hf : FormatOf op = Done f) (Ho : fits f o).
#[local] Abbreviation code := (encode f op o ++ rest).

(** The bytes of the first unit. *)
Definition high_byte : Z :=
  match f with
  | k12x | k22t | k22s | k22c => oA o + 16 * oB o
  | k11n => oA o + 16 * (oB o mod 16)
  | k10t => oA o mod 256
  | k20t | k32x | k30t => 0
  | k35c => nth_arg o 4 + 16 * oA o
  | _ => oA o
  end.

Lemma nth_arg_range k : Forall (in_u 4) (oArgs o) -> in_u 4 (nth_arg o k).
Proof.
  intros Hall. unfold nth_arg. destruct (nth_in_or_default k (oArgs o) 0) as [Hin| ->]; [|done].
  rewrite Forall_forall in Hall. apply Hall. by apply list_elem_of_In.
Qed.

Lemma first_unit : Fetch16 code 0 = Done (op + 256 * high_byte) /\ in_u 8 high_byte.
Proof.
  unfold high_byte, Fetch16. destruct f; cbn -[Z.add Z.mul Z.modulo] in *; unfold in_u, in_s in *;
    try (split; [f_equal; lia|]; try lia; try (apply Z.mod_pos_bound; lia)).
  - pose proof (Z.mod_pos_bound (oB o) 16). lia.
  - destruct Ho as (-> & Hl & _ & Hall & _). pose proof (nth_arg_range 4 Hall). unfold in_u in *. lia.
Qed.

Lemma first_unit_range : in_u 16 (op + 256 * high_byte).
Proof. destruct first_unit as [_ H]. unfold in_u in *. lia. Qed.

Lemma opcode_ok : Opcode code = Done op.
Proof.
  unfold Opcode. rewrite (proj1 first_unit). cbn [mbind cres_bind]. rewrite land_255. f_equal.
  rewrite (Z.mul_comm 256), Z_mod_plus_full. apply Z.mod_small. unfold in_u in Hop. lia.
Qed.

Lemma format_ok : code_format code = Done f.
Proof. unfold code_format. rewrite opcode_ok. done. Qed.

Lemma AA_ok : InstAA (op + 256 * high_byte) = high_byte.
Proof.
  rewrite InstAA_div by apply first_unit_range. destruct first_unit as [_ H]. unfold in_u in *.
  Z.to_euclidean_division_equations. lia.
Qed.
Lemma A_ok a x : high_byte = a + 16 * x -> in_u 4 a -> InstA (op + 256 * high_byte) = a.
Proof.
  intros E Ha. rewrite InstA_div, E. unfold in_u in *. Z.to_euclidean_division_equations. lia.
Qed.
Lemma B_ok a x : high_byte = a + 16 * x -> in_u 4 a -> InstB (op + 256 * high_byte) = x.
Proof.
  intros E Ha. rewrite InstB_div by apply first_unit_range. rewrite E. unfold in_u in *.
  Z.to_euclidean_division_equations. lia.
Qed.

Lemma fetch32_ok l k x : l !! k = Some (unit_of 0 x) -> l !! (k + 1)%nat = Some (unit_of 1 x) ->
  Fetch32 l k = Done (x mod 2 ^ 32).
Proof.
  intros H0 H1. unfold Fetch32, Fetch16. rewrite H0, H1. cbn [deref mbind cres_bind].
  rewrite fetch32_units by apply unit_range. by rewrite units_32.
Qed.

Lemma vregA_ok : VRegA code = Done (oA o).
Proof.
  unfold VRegA. rewrite format_ok. cbn [mbind cres_bind]. rewrite (proj1 first_unit). cbn [mbind cres_bind].
  pose proof AA_ok as HAA. pose proof A_ok as HA. pose proof B_ok as HB. unfold high_byte in *.
  destruct f; cbn [fits] in Ho; try (by rewrite HAA); try (f_equal; eapply HA; [reflexivity|apply Ho]).
  - rewrite HAA. change 256 with (2 ^ 8). by rewrite swrap_of_mod by (lia || apply Ho).
  - unfold Fetch16. cbn [encode app lookup list_lookup deref mbind cres_bind]. rewrite unit_0.
    by rewrite swrap_of_mod by (lia || apply Ho).
  - done.
  - rewrite (fetch32_ok _ _ (oA o)) by done. cbn [mbind cres_bind]. by rewrite swrap_of_mod by (lia || apply Ho).
  - f_equal. eapply HB; [reflexivity|]. apply nth_arg_range. apply Ho.
Qed.

(** vB as the code gives it: 32 bits. *)
Definition vB : Z := match f with k31c | k51l => swrap 32 (oB o) | _ => oB o end.

Lemma vregB_51l_ok : f = k51l -> VRegB_51l code = Done (oB o).
Proof.
  intros E. unfold VRegB_51l. rewrite E in *. rewrite (fetch32_ok _ 1 (oB o)) by done. cbn [mbind cres_bind].
  unfold Fetch32, Fetch16. cbn [encode app lookup list_lookup deref mbind cres_bind Nat.add].
  rewrite fetch32_units, units_64 by apply unit_range. destruct Ho as (_ & Hb & _).
  rewrite (Z.mod_small (oB o / 2 ^ 32)); unfold in_u in Hb.
  2:{ split; [apply Z.div_pos; lia|apply Z.div_lt_upper_bound; lia]. }
  rewrite uwrap_small.
  - rewrite lor_shiftl_add by (lia || apply Z.mod_pos_bound; lia). f_equal.
    pose proof (Z.div_mod (oB o) (2 ^ 32)). lia.
  - rewrite Z.shiftl_mul_pow2 by lia. unfold in_u. pose proof (Z.mul_div_le (oB o) (2 ^ 32)).
    assert (0 <= oB o / 2 ^ 32) by (apply Z.div_pos; lia). lia.
Qed.

Lemma vregB_ok : HasVRegB f = true -> VRegB code = Done vB.
Proof.
  intros Hb. unfold VRegB, vB. rewrite format_ok. cbn [mbind cres_bind]. rewrite (proj1 first_unit). cbn [mbind cres_bind].
  pose proof B_ok as HB. pose proof vregB_51l_ok as H51. unfold high_byte in *.
  destruct f; cbn [fits] in Ho; try discriminate Hb; try (f_equal; eapply HB; [reflexivity|apply Ho]).
  - f_equal. replace (op + 256 * (oA o + 16 * (oB o mod 16))) with (op + 256 * oA o + 4096 * (oB o mod 16)) by lia.
    apply VRegB_11n_ok; [apply Ho|]. destruct Ho as (Ha & _). unfold in_u in *. lia.
  - done.
  - unfold Fetch16. cbn [encode app lookup list_lookup deref mbind cres_bind]. rewrite unit_0.
    by rewrite swrap_of_mod by (lia || apply Ho).
  - unfold Fetch16. cbn [encode app lookup list_lookup deref mbind cres_bind]. rewrite unit_0.
    by rewrite swrap_of_mod by (lia || apply Ho).
  - done.
  - done.
  - unfold Fetch16. cbn [encode app lookup list_lookup deref mbind cres_bind]. rewrite land_255. f_equal.
    unfold uwrap, in_u in *. Z.to_euclidean_division_equations. lia.
  - unfold Fetch16. cbn [encode app lookup list_lookup deref mbind cres_bind]. rewrite land_255. f_equal.
    unfold uwrap, in_u in *. pose proof (Z.mod_pos_bound (oC o) 256). Z.to_euclidean_division_equations. lia.
  - done.
  - rewrite (fetch32_ok _ _ (oB o)) by done. cbn [mbind cres_bind]. by rewrite swrap_of_mod by (lia || apply Ho).
  - rewrite (fetch32_ok _ _ (oB o)) by done. cbn [mbind cres_bind]. by rewrite swrap_of_mod by (lia || apply Ho).
  - rewrite (fetch32_ok _ _ (oB o)) by done. cbn [mbind cres_bind]. rewrite Z.mod_small; [done|].
    destruct Ho as (_ & H & _). unfold in_u in H. lia.
  - done.
  - done.
  - by rewrite H51.
Qed.

Lemma vregC_ok : HasVRegC f = true -> VRegC code = Done (oC o).
Proof.
  intros Hc. unfold VRegC. rewrite format_ok. cbn [mbind cres_bind].
  destruct f; cbn [fits] in Ho; try discriminate Hc; unfold Fetch16;
    cbn [encode app lookup list_lookup deref mbind cres_bind]; try done.
  - rewrite Z.shiftr_div_pow2 by lia. f_equal. unfold uwrap, in_u in *. Z.to_euclidean_division_equations. lia.
  - rewrite Z.shiftr_div_pow2 by lia. f_equal. change (2 ^ 8) with 256. destruct Ho as (_ & Hb & Hcc).
    replace ((oB o + 256 * (oC o mod 256)) / 256) with (oC o mod 256)
      by (unfold in_u in Hb; pose proof (Z.mod_pos_bound (oC o) 256); Z.to_euclidean_division_equations; lia).
    change 256 with (2 ^ 8). by apply swrap_of_mod.
  - rewrite unit_0. f_equal. apply swrap_of_mod; [lia|apply Ho].
  - rewrite unit_0. f_equal. apply swrap_of_mod; [lia|apply Ho].
  - destruct Ho as (_ & _ & _ & Hall & ->). rewrite land_15. f_equal.
    pose proof (nth_arg_range 0 Hall) as H0. unfold uwrap, in_u in *.
    replace ((nth_arg o 0 + 16 * nth_arg o 1 + 256 * nth_arg o 2 + 4096 * nth_arg o 3) mod 16) with (nth_arg o 0)
      by (Z.to_euclidean_division_equations; lia). apply Z.mod_small. lia.
Qed.

Lemma varargs_ok arg : f = k35c -> length arg = 5%nat ->
  GetVarArgs arg code = Done (oArgs o ++ drop (length (oArgs o)) arg).
Proof.
  intros E Hl. unfold GetVarArgs. rewrite (proj1 first_unit). cbn [mbind cres_bind].
  assert (Fetch16 code 2 = Done (nth_arg o 0 + 16 * nth_arg o 1 + 256 * nth_arg o 2 + 4096 * nth_arg o 3)) as ->
    by (rewrite E; done).
  cbn [mbind cres_bind]. pose proof Ho as Hfits. rewrite E in Hfits. cbn [fits] in Hfits.
  destruct Hfits as (Ha & Hn & _ & Hall & _).
  assert (high_byte = nth_arg o 4 + 16 * oA o) as Eh by (unfold high_byte; by rewrite E).
  rewrite (B_ok _ _ Eh), (A_ok _ _ Eh) by apply (nth_arg_range 4 Hall).
  rewrite !land_15, !Z.shiftr_div_pow2 by lia.
  pose proof (nth_arg_range 0 Hall) as R0. pose proof (nth_arg_range 1 Hall) as R1.
  pose proof (nth_arg_range 2 Hall) as R2. pose proof (nth_arg_range 3 Hall) as R3.
  set (r := nth_arg o 0 + 16 * nth_arg o 1 + 256 * nth_arg o 2 + 4096 * nth_arg o 3).
  unfold in_u in *. change (2 ^ 4) with 16 in *. change (2 ^ 8) with 256 in *. change (2 ^ 12) with 4096 in *.
  assert (r mod 16 = nth_arg o 0) as -> by (subst r; Z.to_euclidean_division_equations; lia).
  assert ((r / 16) mod 16 = nth_arg o 1) as -> by (subst r; Z.to_euclidean_division_equations; lia).
  assert ((r / 256) mod 16 = nth_arg o 2) as -> by (subst r; Z.to_euclidean_division_equations; lia).
  assert ((r / 4096) mod 16 = nth_arg o 3) as -> by (subst r; Z.to_euclidean_division_equations; lia).
  rewrite Ha. unfold nth_arg. clear - Hl Hn.
  destruct arg as [|x0 [|x1 [|x2 [|x3 [|x4 [|]]]]]]; try discriminate Hl.
  destruct (oArgs o) as [|a0 [|a1 [|a2 [|a3 [|a4 [|]]]]]]; try reflexivity. cbn in Hn. lia.
Qed.

Lemma size_ok : (op = NOP -> oA o <> 1 /\ oA o <> 2 /\ oA o <> 3) ->
  SizeInCodeUnits code = Done (Z.of_nat (length (encode f op o))).
Proof.
  intros Hnop. unfold SizeInCodeUnits. rewrite opcode_ok. cbn [mbind cres_bind]. rewrite Hf. cbn [mbind cres_bind].
  unfold table_size. destruct (Z.eqb_spec op NOP) as [E|Hne].
  - assert (f = k10x) as Ef by (pose proof Hf as H; rewrite E in H; by injection H).
    change (-1 <? 0) with true. cbn iota. unfold SizeInCodeUnitsComplexOpcode.
    rewrite (proj1 first_unit). cbn [mbind cres_bind]. unfold high_byte. rewrite Ef, E. change NOP with 0.
    rewrite Z.add_0_l. destruct (Hnop E) as (H1 & H2 & H3).
    unfold kPackedSwitchSignature, kSparseSwitchSignature, kArrayDataSignature.
    rewrite (proj2 (Z.eqb_neq _ 0x100)), (proj2 (Z.eqb_neq _ 0x200)), (proj2 (Z.eqb_neq _ 0x300)) by lia.
    rewrite land_255, Z.mul_comm, Z.mod_mul by lia. done.
  - by destruct f.
Qed.
End Decode.

(** ** Programs *)

(** An instruction, or the data behind a switch or fill-array-data. *)
Inductive item :=
| Insn (op : Z) (f : Format) (o : operands)
| PackedSwitch (first_key : Z) (targets : list Z)
| SparseSwitch (keys targets : list Z)
| ArrayData (element_width : Z) (element_count : Z) (data : list Z).

Definition units32 (x : Z) : list Z := [unit_of 0 x; unit_of 1 x].

Definition assemble (i : item) : list Z :=
  match i with
  | Insn op f o => encode f op o
  | PackedSwitch k ts => kPackedSwitchSignature :: Z.of_nat (length ts) :: units32 k ++ concat (map units32 ts)
  | SparseSwitch ks ts =>
      kSparseSwitchSignature :: Z.of_nat (length ks) :: concat (map units32 ks) ++ concat (map units32 ts)
  | ArrayData w n d => kArrayDataSignature :: w :: units32 n ++ d
  end.

Definition item_op (i : item) : Z := match i with Insn op _ _ => op | _ => NOP end.

(** An operation with unused bits is no signature of data; the data of an array
    is as long as its width and count say, which fits 32 bits. *)
Definition item_ok (i : item) : Prop :=
  match i with
  | Insn op f o => in_u 8 op /\ FormatOf op = Done f /\ fits f o /\ (op = NOP -> oA o <> 1 /\ oA o <> 2 /\ oA o <> 3)
  | PackedSwitch _ ts => in_u 16 (Z.of_nat (length ts))
  | SparseSwitch ks ts => in_u 16 (Z.of_nat (length ks)) /\ length ts = length ks
  | ArrayData w n d => in_u 16 w /\ in_u 32 n /\ w * n + 1 < 2 ^ 32 /\ Z.of_nat (length d) = (w * n + 1) / 2
  end.

Lemma units32_length l : length (concat (map units32 l)) = (2 * length l)%nat.
Proof. induction l as [|x l IH]; [done|]. cbn in *. rewrite IH. lia. Qed.

(** Data starts with a unit whose low byte is the operation NOP. *)
Lemma complex_size u code : Z.land u 0xFF = NOP ->
  Opcode (u :: code) = Done NOP /\ SizeInCodeUnits (u :: code) = SizeInCodeUnitsComplexOpcode (u :: code).
Proof.
  intros E. assert (Opcode (u :: code) = Done NOP) as H by (unfold Opcode, Fetch16; cbn [lookup list_lookup deref mbind cres_bind]; by rewrite E).
  split; [done|]. unfold SizeInCodeUnits. by rewrite H.
Qed.

Lemma item_decode i rest : item_ok i ->
  Opcode (assemble i ++ rest) = Done (item_op i) /\
  SizeInCodeUnits (assemble i ++ rest) = Done (Z.of_nat (length (assemble i))).
Proof.
  destruct i as [op f o|k ts|ks ts|w n d]; cbn [item_ok assemble item_op];
    [intros (H1 & H2 & H3 & H4); split; [by apply opcode_ok|by apply size_ok] | ..];
    cbn [app units32]; intros Hok;
    match goal with |- Opcode (?u :: ?l) = _ /\ _ => destruct (complex_size u l eq_refl) as [-> ->] end;
    (split; [done|]); unfold SizeInCodeUnitsComplexOpcode.
  - unfold Fetch16. cbn [lookup list_lookup deref mbind cres_bind length]. rewrite units32_length.
    cbn [Z.eqb Pos.eqb kPackedSwitchSignature]. f_equal. lia.
  - unfold Fetch16. cbn [lookup list_lookup deref mbind cres_bind length].
    rewrite length_app, !units32_length, (proj2 Hok). cbn [Z.eqb Pos.eqb kPackedSwitchSignature kSparseSwitchSignature].
    f_equal. lia.
  - destruct Hok as (Hw & Hn & Hs & Hl). rewrite (fetch32_ok _ 2 n) by done.
    unfold Fetch16. cbn [lookup list_lookup deref mbind cres_bind length]. unfold in_u in *.
    rewrite (Z.mod_small n), (uwrap_small 32 (w * n)), uwrap_small by (unfold in_u; nia).
    cbn [Z.eqb Pos.eqb kPackedSwitchSignature kSparseSwitchSignature kArrayDataSignature]. f_equal. lia.
Qed.

(** ** Visiting *)

(** Every instruction has units, whatever the code holds, and reading its size never runs for ever. *)
Definition good_size (r : cres Z) : Prop := match r with Done n => 0 < n | Fault e => e <> OutOfFuel end.

Lemma fetch16_bind code k (F : Z -> cres Z) : Forall (in_u 16) code ->
  (forall u, in_u 16 u -> good_size (F u)) -> good_size (u ← Fetch16 code k; F u).
Proof.
  intros Hall HF. unfold Fetch16. destruct (code !! k) as [u|] eqn:E; [|done]. cbn [deref mbind cres_bind].
  apply HF. by eapply Forall_lookup_1.
Qed.

Lemma size_good code : Forall (in_u 16) code -> good_size (SizeInCodeUnits code).
Proof.
  intros Hall. unfold SizeInCodeUnits, Opcode, Fetch16. destruct (code !! 0%nat) as [u|]; [|done].
  cbn [deref mbind cres_bind]. unfold FormatOf, info. destruct (DEX_INSTRUCTION_LIST !! _) as [i|]; [|done].
  cbn [deref mbind cres_bind]. destruct (Z.ltb_spec (table_size (Z.land u 0xFF) (format i)) 0) as [Hlt|Hge].
  - unfold SizeInCodeUnitsComplexOpcode. apply fetch16_bind; [done|]. intros v Hv.
    destruct (v =? _); [|destruct (v =? _); [|destruct (v =? _); [|by destruct (_ =? 0)]]].
    + apply fetch16_bind; [done|]. unfold in_u. intros n Hn. cbn. lia.
    + apply fetch16_bind; [done|]. unfold in_u. intros n Hn. cbn. lia.
    + apply fetch16_bind; [done|]. intros w _. unfold Fetch32, Fetch16.
      destruct (code !! 2%nat), (code !! (2 + 1)%nat); try done. cbn [deref mbind cres_bind good_size].
      match goal with |- 0 < 4 + ?x / 2 => assert (0 <= x / 2) end; [|lia].
      apply Z.div_pos; [apply Z.mod_pos_bound|]; lia.
  - cbn [good_size]. unfold table_size in *. by repeat case_match; lia.
Qed.

Lemma opcode_fault code e : Opcode code = Fault e -> e <> OutOfFuel.
Proof. unfold Opcode, Fetch16. destruct (code !! 0%nat); [done|]. by intros [= <-]. Qed.

Lemma visit_loop_total fuel code size i : Forall (in_u 16) code -> (size - i <= fuel)%nat ->
  visit_loop fuel code size i <> Fault OutOfFuel.
Proof.
  intros Hall. revert i. induction fuel as [|fuel IH]; intros i Hf; cbn [visit_loop];
    (destruct (Nat.ltb_spec i size) as [Hi|Hi]; [|done]); [lia|].
  destruct (Opcode (drop i code)) as [op|e] eqn:Eo; [|intros [= ->]; by apply opcode_fault in Eo].
  pose proof (size_good (drop i code) (Forall_drop _ _ _ Hall)) as Hs. cbn [mbind cres_bind].
  destruct (SizeInCodeUnits (drop i code)) as [n|e]; [|intros [= ->]; by apply Hs].
  cbn [mbind cres_bind good_size] in *. specialize (IH (i + Z.to_nat n)%nat ltac:(lia)).
  destruct (visit_loop fuel code size _) as [r|e]; [done|].
  cbn [mbind cres_bind]. intros [= ->]. by apply IH.
Qed.

(** The positions of the items of a method. *)
Fixpoint positions (i : nat) (items : list item) : list (nat * Z) :=
  match items with
  | [] => []
  | it :: items => (i, item_op it) :: positions (i + length (assemble it)) items
  end.
Definition assemble_all (items : list item) : list Z := concat (map assemble items).

Lemma assemble_nonempty i : (0 < length (assemble i))%nat.
Proof. destruct i as [? [] ?|? ?|? ?|? ? ?]; cbn; lia. Qed.

Lemma visit_loop_items items : forall fuel pre rest, Forall item_ok items ->
  (length (assemble_all items) <= fuel)%nat ->
  visit_loop fuel (pre ++ assemble_all items ++ rest) (length pre + length (assemble_all items)) (length pre)
    = Done (positions (length pre) items).
Proof.
  induction items as [|it items IH]; intros fuel pre rest Hok Hfuel.
  - cbn [assemble_all map concat length positions]. rewrite Nat.add_0_r.
    destruct fuel; cbn [visit_loop]; by rewrite Nat.ltb_irrefl.
  - apply Forall_cons in Hok as [Hit Hok]. unfold assemble_all in *. cbn [map concat] in *.
    rewrite length_app in *. pose proof (assemble_nonempty it) as Hne. destruct fuel as [|fuel]; [lia|].
    cbn [visit_loop positions]. rewrite (proj2 (Nat.ltb_lt _ _)) by lia.
    rewrite drop_app_length, <- !(assoc_L (++)).
    destruct (item_decode it (concat (map assemble items) ++ rest) Hit) as [-> ->]. cbn [mbind cres_bind].
    specialize (IH fuel (pre ++ assemble it) rest Hok ltac:(lia)).
    rewrite length_app, <- !(assoc_L (++)), <- Nat.add_assoc in IH. rewrite Nat2Z.id.
    by rewrite IH.
Qed.

(** ** The table is consistent

    What the columns of a row say together: an operation that branches has a
    format with a target; an operand that is to be verified exists in the format;
    a register list is one of format 35c, a register range one of 3rc; a switch
    has the offset of its data; an unconditional branch is a branch after which
    control does not continue, and a return never continues. *)
Definition row_typed (r : insn_info) : bool :=
  let f := format r in
  let has (mask : Z) := negb (Z.land (flags r) mask =? 0) in
  let verifies (mask : Z) := negb (Z.land (vflags r) mask =? 0) in
  forallb id
    [implb (has kBranch) (bool_decide (f ∈ [k10t; k20t; k30t; k21t; k22t]));
     implb (has kBranch) (verifies kVerifyBranchTarget);
     implb (has kSwitch) (bool_decide (f = k31t));
     implb (has kInvoke) (bool_decide (f ∈ [k35c; k3rc]));
     implb (verifies maskB) (HasVRegB f);
     implb (verifies maskC) (HasVRegC f);
     implb (verifies (any_flag [kVerifyVarArg; kVerifyVarArgNonZero])) (bool_decide (f = k35c));
     implb (verifies (any_flag [kVerifyVarArgRange; kVerifyVarArgRangeNonZero])) (bool_decide (f = k3rc));
     implb (has kUnconditional) (has kBranch && negb (has kContinue));
     implb (has kReturn) (negb (has kContinue))].

Lemma table_typed : forallb row_typed DEX_INSTRUCTION_LIST = true.
Proof. vm_compute. reflexivity. Qed.
Lemma table_length : length DEX_INSTRUCTION_LIST = 256%nat.
Proof. reflexivity. Qed.

(** The units of a format, for an operation other than NOP. *)
Definition format_units (f : Format) : Z := table_size THROW f.

Section Typed.
Context (code : list Z) (op : Z) (f : Format).
Context (Hop : Opcode code = Done op) (Hf : FormatOf op = Done f).
Context (Hlen : format_units f <= Z.of_nat (length code)).

Lemma fetch16_there k : (k < length code)%nat -> exists u, Fetch16 code k = Done u.
Proof. intros Hk. unfold Fetch16. destruct (lookup_lt_is_Some_2 code k Hk) as [u ->]. by exists u. Qed.

Lemma code_format_there : code_format code = Done f.
Proof. unfold code_format. by rewrite Hop. Qed.

Ltac fetch_all :=
  unfold VRegB_51l, Fetch32;
  match type of Hlen with ?n <= _ => let z := eval vm_compute in n in change n with z in Hlen end;
  repeat match goal with
  | |- context [Fetch16 code ?k] =>
      let u := fresh "u" in let E := fresh "E" in
      destruct (fetch16_there k ltac:(lia)) as [u E]; rewrite E; cbn [mbind cres_bind]
  end; eauto.

Lemma vregA_there : exists v, VRegA code = Done v.
Proof. unfold VRegA. rewrite code_format_there. cbn [mbind cres_bind]. destruct f; fetch_all. Qed.
Lemma vregB_there : HasVRegB f = true -> exists v, VRegB code = Done v.
Proof. intros Hb. unfold VRegB. rewrite code_format_there. cbn [mbind cres_bind]. destruct f; try discriminate Hb; fetch_all. Qed.
Lemma vregC_there : HasVRegC f = true -> exists v, VRegC code = Done v.
Proof. intros Hc. unfold VRegC. rewrite code_format_there. cbn [mbind cres_bind]. destruct f; try discriminate Hc; fetch_all. Qed.
Lemma varargs_there arg : f = k35c -> exists l, GetVarArgs arg code = Done l.
Proof.
  intros E. pose proof Hlen as Hl. rewrite E in Hl. change (format_units k35c) with 3 in Hl. unfold GetVarArgs.
  destruct (fetch16_there 0 ltac:(lia)) as [u ->], (fetch16_there 2 ltac:(lia)) as [v ->]. cbn [mbind cres_bind].
  destruct (5 <? InstB u); eauto.
Qed.
Lemma target_there : f ∈ [k10t; k20t; k30t; k21t; k22t] -> exists t, GetTargetOffset code = Done t.
Proof.
  intros Ht. pose proof vregA_there as HA. pose proof vregB_there as HB. pose proof vregC_there as HC.
  unfold GetTargetOffset. rewrite code_format_there. cbn [mbind cres_bind].
  apply list_elem_of_In in Ht. destruct f; auto; cbn in Ht; intuition discriminate.
Qed.
End Typed.

Lemma size_of_op code op f n : Opcode code = Done op -> FormatOf op = Done f -> op <> NOP ->
  SizeInCodeUnits code = Done n -> n = format_units f.
Proof.
  intros Hop Hf Hne. unfold SizeInCodeUnits. rewrite Hop. cbn [mbind cres_bind]. rewrite Hf. cbn [mbind cres_bind].
  unfold format_units, table_size. rewrite (proj2 (Z.eqb_neq _ _) Hne). by destruct f; intros [= <-].
Qed.

Lemma opcode_take code n op : (0 < n)%nat -> Opcode code = Done op -> Opcode (take n code) = Done op.
Proof. intros Hn. unfold Opcode, Fetch16. by rewrite lookup_take_lt by done. Qed.

Lemma has_flag_row i op mask : info op = Done i ->
  forall code, Opcode code = Done op -> has_flags mask code = Done (negb (Z.land (flags i) mask =? 0)).
Proof. intros Hi code Ho. unfold has_flags, FlagsOf. rewrite Ho. cbn [mbind cres_bind]. by rewrite Hi. Qed.
Lemma verify_flag_row i op mask : info op = Done i ->
  forall code, Opcode code = Done op -> verify_flags mask code = Done (Z.land (vflags i) mask).
Proof. intros Hi code Ho. unfold verify_flags, VerifyFlagsOf. rewrite Ho. cbn [mbind cres_bind]. by rewrite Hi. Qed.

Lemma row_of op i : info op = Done i -> row_typed i = true.
Proof.
  unfold info. destruct (DEX_INSTRUCTION_LIST !! Z.to_nat op) as [r|] eqn:E; [|done]. intros [= <-].
  pose proof table_typed as H. rewrite forallb_forall in H. apply H. apply list_elem_of_In. by eapply list_elem_of_lookup_2.
Qed.

(** The flags of the opcode table are a type system for the operands: for any
    16-bit units at all, of which the instruction's own are there, every
    operand the verifier is told to check exists and is read from the
    instruction's own units without a failed check, an instruction that branches
    has a target, and one with a register list has the list. *)
Theorem operand_flags_sound code n : SizeInCodeUnits code = Done n -> Forall (in_u 16) code ->
  n <= Z.of_nat (length code) ->
  let own := take (Z.to_nat n) code in
  (forall a, GetVerifyTypeArgumentA code = Done a -> a <> 0 -> exists v, VRegA own = Done v) /\
  (forall b, GetVerifyTypeArgumentB code = Done b -> b <> 0 -> exists v, VRegB own = Done v) /\
  (forall c, GetVerifyTypeArgumentC code = Done c -> c <> 0 -> exists v, VRegC own = Done v) /\
  (forall e, GetVerifyExtraFlags code = Done e ->
     Z.land e (any_flag [kVerifyVarArg; kVerifyVarArgNonZero]) <> 0 ->
     forall arg, exists l, GetVarArgs arg own = Done l) /\
  (IsBranch code = Done true -> exists t, GetTargetOffset own = Done t) /\
  (IsUnconditional code = Done true -> IsBranch code = Done true /\ CanFlowThrough code = Done false) /\
  (IsReturn code = Done true -> CanFlowThrough code = Done false).
Proof.
  intros Hs Hall Hlen own. pose proof (size_good code Hall) as Hpos. rewrite Hs in Hpos. cbn [good_size] in Hpos.
  destruct (Opcode code) as [op|e] eqn:Hop; [|by unfold SizeInCodeUnits in Hs; rewrite Hop in Hs].
  destruct (info op) as [i|e] eqn:Hi; [|by unfold SizeInCodeUnits, FormatOf in Hs; rewrite Hop in Hs; cbn [mbind cres_bind] in Hs; rewrite Hi in Hs].
  assert (FormatOf op = Done (format i)) as Hf by (unfold FormatOf; by rewrite Hi).
  pose proof (row_of _ _ Hi) as Hrow. assert (Opcode own = Done op) as Hown by (apply opcode_take; [lia|done]).
  unfold GetVerifyTypeArgumentA, GetVerifyTypeArgumentB, GetVerifyTypeArgumentC, GetVerifyExtraFlags,
    IsBranch, IsUnconditional, IsReturn.
  change (CanFlowThrough code) with (has_flags kContinue code).
  rewrite !(verify_flag_row i op _ Hi code Hop), !(has_flag_row i op _ Hi code Hop).
  destruct (decide (op = NOP)) as [->|Hne].
  { injection Hi as <-. by split_and!; [intros ? [= <-] ..|done|done|done]. }
  assert (format_units (format i) <= Z.of_nat (length own)) as Hown_len.
  { unfold own. rewrite <- (size_of_op code op (format i) n Hop Hf Hne Hs), length_take. lia. }
  unfold row_typed in Hrow. cbn [forallb id] in Hrow. rewrite !andb_true_iff in Hrow.
  destruct Hrow as (Rb & _ & _ & _ & RB & RC & Rv & _ & Ru & Rr & _).
  split_and!.
  - intros a _ _. by eapply vregA_there.
  - intros b [= <-] Hb. eapply vregB_there; try done. by rewrite (proj2 (Z.eqb_neq _ _) Hb) in RB.
  - intros c [= <-] Hc. eapply vregC_there; try done. by rewrite (proj2 (Z.eqb_neq _ _) Hc) in RC.
  - intros e [= <-] He arg. rewrite <- Z.land_assoc in He.
    change (Z.land maskExtra _) with (any_flag [kVerifyVarArg; kVerifyVarArgNonZero]) in He.
    rewrite (proj2 (Z.eqb_neq _ _) He) in Rv. eapply varargs_there; try done. by apply bool_decide_eq_true in Rv.
  - intros [= Hb]. rewrite Hb in Rb. eapply target_there; try done. by apply bool_decide_eq_true in Rb.
  - intros [= Hu]. rewrite Hu in Ru. cbn [implb] in Ru. apply andb_true_iff in Ru as [-> Hc].
    by destruct (Z.land (flags i) kContinue =? 0).
  - intros [= Hr]. rewrite Hr in Rr. cbn [implb] in Rr.
    by destruct (Z.land (flags i) kContinue =? 0).
Qed.

(** [goto/16 -2] followed by [return-void]. *)
Example operand_flags_sound_witness :
  IsBranch [0x0029; 0xFFFE; 0x000E] = Done true /\
  exists t, GetTargetOffset [0x0029; 0xFFFE] = Done t.
Proof.
  split; [reflexivity|].
  pose proof (operand_flags_sound [0x0029; 0xFFFE; 0x000E] 2 eq_refl
    ltac:(by repeat constructor) ltac:(cbn; lia)) as (_ & _ & _ & _ & H & _). by apply H.
Defined.

(** ** Quickening *)

Definition set_vA (o : operands) (v : Z) : operands := mkOperands v (oB o) (oC o) (oArgs o).
Definition set_vB (o : operands) (v : Z) : operands := mkOperands (oA o) v (oC o) (oArgs o).
Definition set_vC (o : operands) (v : Z) : operands := mkOperands (oA o) (oB o) v (oArgs o).

Lemma encode_head f o : exists tl, forall op', encode f op' o = (op' + 256 * high_byte f o) :: tl.
Proof. destruct f; eexists; intros op'; cbn [encode high_byte]; f_equal; lia. Qed.

Lemma land_high lo hi : in_u 8 lo -> in_u 8 hi -> Z.land (lo + 256 * hi) 0xff00 = Z.shiftl hi 8.
Proof.
  unfold in_u. intros Hlo Hhi. replace (lo + 256 * hi) with (lo + hi * 2 ^ 8) by lia.
  rewrite <- lor_shiftl_add by lia. change 0xff00 with (Z.shiftl (Z.ones 8) 8).
  rewrite Z.land_lor_distr_l, land_shiftl_0, <- Z.shiftl_land, Z.land_ones, Z.mod_small by lia. done.
Qed.

Lemma set_opcode_ok f op op' o rest : in_u 8 op -> in_u 8 op' -> in_u 8 (high_byte f o) ->
  SetOpcode op' (encode f op o ++ rest) = Done (encode f op' o ++ rest).
Proof.
  intros Hop Hop' Hh. destruct (encode_head f o) as [tl E]. rewrite !E. unfold SetOpcode, Fetch16.
  cbn [lookup list_lookup app deref mbind cres_bind insert list_insert]. do 2 f_equal.
  rewrite uwrap_small, land_high, Z.lor_comm, lor_shiftl_add by (unfold in_u in *; lia). lia.
Qed.

Lemma set_vregA_ok op o v rest : in_u 8 op -> in_u 8 (oA o) -> in_u 8 v ->
  SetVRegA_10x v (encode k10x op o ++ rest) = Done (encode k10x op (set_vA o v) ++ rest).
Proof.
  intros Hop Ha Hv. unfold SetVRegA_10x, Fetch16.
  cbn [encode lookup list_lookup app deref mbind cres_bind insert list_insert set_vA oA]. do 2 f_equal.
  rewrite land_255, (Z.mul_comm 256), Z_mod_plus_full, Z.mod_small by (unfold in_u in *; lia).
  rewrite Z.lor_comm, lor_shiftl_add, uwrap_small by (unfold in_u in *; lia). lia.
Qed.

Lemma setters_ok op o v rest :
  SetUnit1 v (encode k35c op o ++ rest) = Done (encode k35c op (set_vB o v) ++ rest) /\
  SetUnit1 v (encode k3rc op o ++ rest) = Done (encode k3rc op (set_vB o v) ++ rest) /\
  SetUnit1 v (encode k22c op o ++ rest) = Done (encode k22c op (set_vC o v) ++ rest).
Proof. done. Qed.

(** The operand that is the branch target, by format. *)
Definition target (f : Format) (o : operands) : cres Z :=
  match f with k10t | k20t | k30t => Done (oA o) | k21t => Done (oB o) | k22t => Done (oC o) | _ => Fault Aborted end.

Lemma target_ok op f o rest : in_u 8 op -> FormatOf op = Done f -> fits f o ->
  GetTargetOffset (encode f op o ++ rest) = target f o.
Proof.
  intros Hop Hf Ho. unfold GetTargetOffset. rewrite (format_ok op f o rest) by done. cbn [mbind cres_bind].
  pose proof (vregA_ok op f o rest Hop Hf Ho). pose proof (vregB_ok op f o rest Hop Hf Ho).
  pose proof (vregC_ok op f o rest Hop Hf Ho). destruct f; cbn [target] in *; auto.
Qed.

(** ** Properties *)

(** C13: What the assembler writes is what the runtime decodes, whatever follows:
    the opcode, the operands of the format at their widths and signs, the 64-bit
    literal, the register list, the branch target; and changing the opcode to
    another of the same format keeps every operand. *)
Theorem instruction_roundtrip op f o rest : FormatOf op = Done f -> in_u 8 op -> fits f o ->
  let code := encode f op o ++ rest in
  Opcode code = Done op /\
  VRegA code = Done (oA o) /\
  (HasVRegB f = true -> VRegB code = Done (vB f o)) /\
  (HasWideVRegB f = true -> WideVRegB code = Done (oB o)) /\
  (HasVRegC f = true -> VRegC code = Done (oC o)) /\
  (HasVarArgs f = true -> forall arg, length arg = 5%nat ->
     GetVarArgs arg code = Done (oArgs o ++ drop (length (oArgs o)) arg)) /\
  GetTargetOffset code = target f o /\
  (forall op', in_u 8 op' -> FormatOf op' = Done f ->
     SetOpcode op' code = Done (encode f op' o ++ rest)).
Proof.
  intros Hf Hop Ho code. assert (in_u 8 (high_byte f o)) as Hh by by eapply (first_unit op f o rest). split_and!.
  - by apply opcode_ok.
  - by apply vregA_ok.
  - by apply vregB_ok.
  - intros Hw. apply bool_decide_eq_true in Hw. by apply vregB_51l_ok.
  - by apply vregC_ok.
  - intros Hv. apply bool_decide_eq_true in Hv. intros arg. by apply varargs_ok.
  - by apply target_ok.
  - intros op' Hop' _. by apply set_opcode_ok.
Qed.

(** [invoke-virtual {v1, v2, v9}, method 70]. *)
Example instruction_roundtrip_witness :
  let code := encode k35c 0x6e (mkOperands 3 70 1 [1; 2; 9]) ++ [0x000E] in
  code = [0x306e; 70; 0x0921; 0x000E] /\ VRegA code = Done 3 /\
  GetVarArgs [0; 0; 0; 0; 7] code = Done [1; 2; 9; 0; 7].
Proof.
  split; [reflexivity|].
  destruct (instruction_roundtrip 0x6e k35c (mkOperands 3 70 1 [1; 2; 9]) [0x000E]) as (_ & HA & _ & _ & _ & Hv & _);
    [reflexivity|done|by repeat split; repeat constructor|].
  split; [exact HA|]. by apply Hv.
Defined.

(** Visiting a method calls the handler for each instruction, and for the data
    of each switch and array, at its position and in order, and stops at the end
    of the method; visiting any units at all ends. *)
Theorem visit_positions items rest : Forall item_ok items ->
  let code := assemble_all items ++ rest in
  Visit code (2 * Z.of_nat (length (assemble_all items))) = Done (positions 0 items) /\
  (forall units size, Forall (in_u 16) units -> Visit units size <> Fault OutOfFuel).
Proof.
  intros Hok code. split.
  - unfold Visit. rewrite Z.mul_comm, Z.div_mul, Nat2Z.id by lia.
    by apply (visit_loop_items items (length (assemble_all items)) [] rest).
  - intros units size Hall. apply visit_loop_total; [done|lia].
Qed.

(** A packed switch, a return and the data of the switch. *)
Example visit_positions_witness :
  let items := [Insn 0x2b k31t (mkOperands 1 4 0 []); Insn 0x0e k10x (mkOperands 0 0 0 []);
                PackedSwitch (-1) [3; 3]] in
  Forall item_ok items /\
  Visit (assemble_all items ++ []) (2 * 12) = Done [(0%nat, 0x2b); (3%nat, 0x0e); (4%nat, 0)].
Proof.
  intros items. assert (Forall item_ok items) as H by (repeat constructor; cbn; try done; lia).
  split; [done|]. exact (proj1 (visit_positions items [] H)).
Defined.
