(* ===== verification/ArtArgs.v ===== *)
(** * ArtArgs: passing arguments to methods of the ART runtime
      (runtime/primitive.h, jvalue.h, reflection.cc, reflection-inl.h,
       entrypoints/quick/quick_trampoline_entrypoints.cc)

    A reflective call writes the Java arguments into an [ArgArray] of words, the
    invocation stub copies the words to the stack and the first three to
    registers, and the handler of a proxy or hooked method reads them back from
    its frame with a [QuickArgumentVisitor] and boxes them.  Java objects live in
    a heap by address; a reference in the heap, in an ArgArray and in a frame is
    the address, null is 0.  The member l of a jvalue is a reference of JNI, which
    is made and decoded by the functions of [LocalRefs]. *)

From Stdlib Require Import SpecFloat.
From stdpp Require Import gmap.
From S2P Require Import Prelude CLib.

(** ** Primitive types and values *)

Inductive PrimType :=
| kPrimNot | kPrimBoolean | kPrimByte | kPrimChar | kPrimShort | kPrimInt | kPrimLong | kPrimFloat
| kPrimDouble | kPrimVoid.
#[export] Instance PrimType_eq : EqDecision PrimType.
Proof. solve_decision. Defined.

Definition GetType (c : Z) : PrimType :=
  if c =? chr "B" then kPrimByte else if c =? chr "C" then kPrimChar
  else if c =? chr "D" then kPrimDouble else if c =? chr "F" then kPrimFloat
  else if c =? chr "I" then kPrimInt else if c =? chr "J" then kPrimLong
  else if c =? chr "S" then kPrimShort else if c =? chr "Z" then kPrimBoolean
  else if c =? chr "V" then kPrimVoid else kPrimNot.

(** The members of the unions jvalue and JValue, of the 64 bits of the union. *)
Definition get_z (j : Z) : Z := uwrap 8 j.
Definition get_b (j : Z) : Z := swrap 8 j.
Definition get_c (j : Z) : Z := uwrap 16 j.
Definition get_s (j : Z) : Z := swrap 16 j.
Definition get_i (j : Z) : Z := swrap 32 j.
Definition get_f (j : Z) : Z := uwrap 32 j.
Definition get_j (j : Z) : Z := swrap 64 j.
Definition get_d (j : Z) : Z := uwrap 64 j.
Definition get_l (j : Z) : Z := uwrap 32 j.

(** Writing the low [w] bits of the union. *)
Definition set_low (w : Z) (j v : Z) : Z := uwrap w v + 2 ^ w * (uwrap 64 j / 2 ^ w).
Definition SetZ (j v : Z) : Z := set_low 8 j v.
Definition SetB (j v : Z) : Z := set_low 32 j (swrap 8 v).
Definition SetC (j v : Z) : Z := set_low 16 j v.
Definition SetS (j v : Z) : Z := set_low 32 j (swrap 16 v).
Definition SetI (j v : Z) : Z := set_low 32 j v.
Definition SetF (j v : Z) : Z := set_low 32 j v.
Definition SetJ (v : Z) : Z := uwrap 64 v.

(** The Java value of a type that a word or a pair of words stands for; floats
    and doubles are their bits. *)
Definition java_value (t : PrimType) (j : Z) : Z :=
  match t with
  | kPrimBoolean => get_z j | kPrimByte => get_b j | kPrimChar => get_c j | kPrimShort => get_s j
  | kPrimInt => get_i j | kPrimFloat => get_f j | kPrimLong => get_j j | kPrimDouble => get_d j
  | kPrimNot => get_l j | kPrimVoid => 0
  end.

Definition is_wide (t : PrimType) : bool :=
  match t with kPrimLong | kPrimDouble => true | _ => false end.

(** ** Conversions of the language between integers, floats and doubles *)

(** The bits of a number in the IEEE format with [mw] bits of mantissa and the
    largest exponent [emax]. *)
Definition bits_of_float (mw emax : Z) (f : spec_float) : Z :=
  let sign (s : bool) := if s then 2 * emax * 2 ^ mw else 0 in
  let top := (2 * emax - 1) * 2 ^ mw in
  match f with
  | S754_zero s => sign s
  | S754_infinity s => sign s + top
  | S754_nan => top + 2 ^ (mw - 1)
  | S754_finite s m e =>
      sign s + (if Zpos m <? 2 ^ mw then Zpos m
                else (e + emax + mw - 1) * 2 ^ mw + (Zpos m - 2 ^ mw))
  end.

Definition float_of_bits (mw emax : Z) (b : Z) : spec_float :=
  let s := 2 * emax * 2 ^ mw <=? b in
  let x := (b / 2 ^ mw) mod (2 * emax) in
  let m := b mod 2 ^ mw in
  if x =? 0 then
    match m with Zpos p => S754_finite s p (2 - emax - mw) | _ => S754_zero s end
  else if x =? 2 * emax - 1 then if m =? 0 then S754_infinity s else S754_nan
  else match m + 2 ^ mw with
       | Zpos p => S754_finite s p (x - emax - mw + 1)
       | _ => S754_nan
       end.

Definition float_of_int (v : Z) : Z := bits_of_float 23 128 (binary_normalize 24 128 v 0 false).
Definition double_of_int (v : Z) : Z := bits_of_float 52 1024 (binary_normalize 53 1024 v 0 false).

(** Widening a float is exact; a NaN keeps its sign and payload and is quiet. *)
Definition double_of_float (b : Z) : Z :=
  match float_of_bits 23 128 b with
  | S754_nan =>
      (if 2 ^ 31 <=? b then 2 ^ 63 else 0) + 2047 * 2 ^ 52 +
      Z.lor (2 ^ 51) (Z.shiftl (b mod 2 ^ 23) 29)
  | S754_finite s m e =>
      bits_of_float 52 1024 (binary_normalize 53 1024 (if s then Zneg m else Zpos m) e s)
  | f => bits_of_float 52 1024 f
  end.

(** ** Objects and boxes *)

Inductive object := Box (t : PrimType) (v : Z) | Plain (cls : Z).
#[export] Instance object_eq : EqDecision object.
Proof. solve_decision. Defined.
Abbreviation heap := (gmap Z object).

Inductive exn :=
| IllegalArgument | IllegalAccess | NoSuchMethod | ClassCast | NullPointer | OutOfMemory
| InvocationTarget (cause : exn) | Other (e : Z).

(** The valueOf methods of the box classes of java.lang, invoked on the words of
    a value; [None] when the box cannot be allocated. *)
Class Boxing := {
  valueOf : PrimType -> Z -> heap -> option (Z * heap);
  valueOf_ok t w h a h' : valueOf t w h = Some (a, h') ->
    a <> 0 /\ h' !! a = Some (Box t (java_value t w)) /\ h ⊆ h'
}.

(** What JNI promises of the references that it makes for the objects of one call
    ([JniRefs] proves it of the tables): they decode to their objects.  The first
    argument of AddLocalReference tells the references of a call from one another; it is
    the address of the slot with the object. *)
Class LocalRefs := {
  AddLocalReference : Z -> Z -> Z;
  Decode : Z -> Z;
  Add_range slot obj : in_u 32 (AddLocalReference slot obj);
  Decode_Add slot obj : in_u 32 obj -> Decode (AddLocalReference slot obj) = obj;
  Decode_null : Decode 0 = 0;
  Decode_range ref : in_u 32 (Decode ref)
}.

Section Boxes.
Context `{Boxing}.

(** [BoxPrimitive]: the reference and the heap, or [None] with an exception. *)
Definition BoxPrimitive (t : PrimType) (value : Z) (h : heap) : option (Z * heap) :=
  match t with
  | kPrimNot => Some (get_l value, h)
  | kPrimVoid => Some (0, h)
  | kPrimLong | kPrimDouble => valueOf t (uwrap 64 value) h
  | _ => valueOf t (uwrap 32 (get_i value)) h
  end.
End Boxes.

(** [ConvertPrimitiveValue] of a zero-initialized destination. *)
Definition ConvertPrimitiveValue (unbox_for_result : bool) (srcType dstType : PrimType) (src : Z) : Z + exn :=
  let small := match srcType with kPrimByte | kPrimChar | kPrimShort => true | _ => false end in
  let upto_int := small || bool_decide (srcType = kPrimInt) in
  let fail := inr (if unbox_for_result then ClassCast else IllegalArgument) in
  if bool_decide (srcType = dstType) then inl (SetJ (get_j src))
  else match dstType with
       | kPrimShort => if bool_decide (srcType = kPrimByte) then inl (SetS 0 (get_i src)) else fail
       | kPrimInt => if small then inl (SetI 0 (get_i src)) else fail
       | kPrimLong => if upto_int then inl (SetJ (get_i src)) else fail
       | kPrimFloat =>
           if upto_int then inl (SetF 0 (float_of_int (get_i src)))
           else if bool_decide (srcType = kPrimLong) then inl (SetF 0 (float_of_int (get_j src)))
           else fail
       | kPrimDouble =>
           if upto_int then inl (SetJ (double_of_int (get_i src)))
           else if bool_decide (srcType = kPrimLong) then inl (SetJ (double_of_int (get_j src)))
           else if bool_decide (srcType = kPrimFloat) then inl (SetJ (double_of_float (get_f src)))
           else fail
       | _ => fail
       end.

(** The [boxed_value] of a box. *)
Definition unbox (t : PrimType) (v : Z) : Z :=
  match t with
  | kPrimBoolean => SetZ 0 v | kPrimByte => SetB 0 v | kPrimChar => SetC 0 v | kPrimFloat => SetF 0 v
  | kPrimInt => SetI 0 v | kPrimShort => SetS 0 v | _ => SetJ v
  end.

Definition is_primitive (t : PrimType) : bool :=
  match t with kPrimNot | kPrimVoid => false | _ => true end.

(** [UnboxPrimitive]; the destination class is a primitive type or the class of
    references with its InstanceOf test. *)
Inductive jclass := Primitive_ (t : PrimType) | Class_ (instance_of : object -> bool).

Definition UnboxPrimitive (unbox_for_result : bool) (h : heap) (o : Z) (dst_class : jclass) : cres (Z + exn) :=
  match dst_class with
  | Class_ instance_of =>
      if o =? 0 then Done (inl 0)
      else x ← deref (h !! o);
           Done (if instance_of x then inl o
                 else inr (if unbox_for_result then ClassCast else IllegalArgument))
  | Primitive_ t =>
      if bool_decide (t = kPrimVoid) then Done (inr IllegalArgument)
      else if o =? 0 then Done (inr (if unbox_for_result then NullPointer else IllegalArgument))
      else x ← deref (h !! o);
           Done match x with
                | Box s v =>
                    if is_primitive s then ConvertPrimitiveValue unbox_for_result s t (unbox s v)
                    else inr IllegalArgument
                | Plain _ => inr IllegalArgument
                end
  end.
Definition UnboxPrimitiveForResult := UnboxPrimitive true.

(** ** ArgArray *)

Definition kSmallArgArraySize : nat := 16.

(** [arg_array_] points to an array of the object or to one on the heap; either
    starts with unspecified words. *)
Record ArgArray := mkArgArray { shorty_ : cstr; num_bytes_ : Z; arg_array_ : list Z }.

Definition arg_array_size (shorty : cstr) : nat :=
  let num_slots := (length shorty + 1)%nat in
  if (num_slots * 2 <? kSmallArgArraySize)%nat then kSmallArgArraySize
  else
    let num_slots :=
      (num_slots + length (filter (fun c => c = chr "J" \/ c = chr "D") (drop 1 shorty)))%nat in
    if (num_slots <=? kSmallArgArraySize)%nat then kSmallArgArraySize else num_slots.

Definition new_ArgArray (junk : Z) (shorty : cstr) : ArgArray :=
  mkArgArray shorty 0 (replicate (arg_array_size shorty) junk).

Definition set_word (words : list Z) (i : Z) (v : Z) : cres (list Z) :=
  if (Z.to_nat i <? length words)%nat then Done (<[Z.to_nat i := v]> words) else Fault OutOfBounds.

Definition Append (value : Z) (a : ArgArray) : cres ArgArray :=
  words ← set_word (arg_array_ a) (num_bytes_ a / 4) (uwrap 32 value);
  Done (mkArgArray (shorty_ a) (num_bytes_ a + 4) words).

Definition AppendWide (value : Z) (a : ArgArray) : cres ArgArray :=
  words ← set_word (arg_array_ a) (num_bytes_ a / 4) (uwrap 32 value);
  words ← set_word words (num_bytes_ a / 4 + 1) (uwrap 32 (Z.shiftr (uwrap 64 value) 32));
  Done (mkArgArray (shorty_ a) (num_bytes_ a + 8) words).

Definition append_receiver (receiver : Z) (a : ArgArray) : cres ArgArray :=
  if receiver =? 0 then Done a else Append receiver a.

(** One turn of the loop of [BuildArgArrayFromJValues]: the argument [j] with the
    character [c]. *)
Definition append_jvalue `{LocalRefs} (c j : Z) (a : ArgArray) : cres ArgArray :=
  if c =? chr "Z" then Append (get_z j) a
  else if c =? chr "B" then Append (get_b j) a
  else if c =? chr "C" then Append (get_c j) a
  else if c =? chr "S" then Append (get_s j) a
  else if (c =? chr "I") || (c =? chr "F") then Append (get_i j) a
  else if c =? chr "L" then Append (Decode (get_l j)) a
  else if (c =? chr "D") || (c =? chr "J") then AppendWide (get_j j) a
  else Done a.

Fixpoint append_jvalues `{LocalRefs} (chars : cstr) (args : list Z) (a : ArgArray) : cres ArgArray :=
  match chars with
  | [] => Done a
  | c :: chars =>
      match args with
      | [] => Fault OutOfBounds
      | j :: args => a ← append_jvalue c j a; append_jvalues chars args a
      end
  end.

Definition BuildArgArrayFromJValues `{LocalRefs} (receiver : Z) (args : list Z) (a : ArgArray) : cres ArgArray :=
  a ← append_receiver receiver a;
  append_jvalues (drop 1 (shorty_ a)) args a.

(** [BuildArgArrayFromFrame] from the registers of a shadow frame. *)
Fixpoint append_vregs (chars : cstr) (vregs : list Z) (cur_arg : nat) (a : ArgArray) : cres ArgArray :=
  match chars with
  | [] => Done a
  | c :: chars =>
      if bool_decide (c ∈ lit "ZBCSIFL") then
        v ← deref (vregs !! cur_arg);
        a ← Append v a; append_vregs chars vregs (S cur_arg) a
      else if bool_decide (c ∈ lit "DJ") then
        lo ← deref (vregs !! cur_arg);
        hi ← deref (vregs !! S cur_arg);
        a ← AppendWide (lo + 2 ^ 32 * hi) a; append_vregs chars vregs (S (S cur_arg)) a
      else append_vregs chars vregs cur_arg a
  end.

Definition BuildArgArrayFromFrame (is_static : bool) (vregs : list Z) (arg_offset : nat) (a : ArgArray) : cres ArgArray :=
  '(cur_arg, a) ← (if is_static then Done (arg_offset, a)
                   else v ← deref (vregs !! arg_offset); a ← Append v a; Done (S arg_offset, a));
  append_vregs (drop 1 (shorty_ a)) vregs cur_arg a.

(** What the macros DO_FIRST_ARG, DO_ARG and DO_FAIL append for a box of type
    [src] where the parameter has type [dst]. *)
Definition append_box (dst src : PrimType) (v : Z) (a : ArgArray) : option (cres ArgArray) :=
  match dst, src with
  | kPrimBoolean, kPrimBoolean | kPrimByte, kPrimByte | kPrimChar, kPrimChar => Some (Append v a)
  | kPrimShort, (kPrimShort | kPrimByte) => Some (Append v a)
  | kPrimInt, (kPrimInt | kPrimChar | kPrimShort | kPrimByte) => Some (Append v a)
  | kPrimLong, (kPrimLong | kPrimInt | kPrimChar | kPrimShort | kPrimByte) => Some (AppendWide v a)
  | kPrimFloat, kPrimFloat => Some (Append v a)
  | kPrimFloat, (kPrimLong | kPrimInt | kPrimChar | kPrimShort | kPrimByte) =>
      Some (Append (float_of_int v) a)
  | kPrimDouble, kPrimDouble => Some (AppendWide v a)
  | kPrimDouble, kPrimFloat => Some (AppendWide (double_of_float v) a)
  | kPrimDouble, (kPrimLong | kPrimInt | kPrimChar | kPrimShort | kPrimByte) =>
      Some (AppendWide (double_of_int v) a)
  | _, _ => None
  end.

(** [BuildArgArrayFromObjectArray]: the parameter classes are their InstanceOf
    tests; an exception is the result [inr]. *)
Fixpoint append_objects (h : heap) (chars : cstr) (classes : list (object -> bool)) (args : list Z)
    (a : ArgArray) : cres (ArgArray + exn) :=
  match chars with
  | [] => Done (inl a)
  | c :: chars =>
      match args, classes with
      | arg :: args, cls :: classes =>
          let is_l := c =? chr "L" in
          if (arg =? 0) && negb is_l then Done (inr IllegalArgument)
          else if arg =? 0 then a ← Append arg a; append_objects h chars classes args a
          else
            o ← deref (h !! arg);
            if is_l then
              if cls o then a ← Append arg a; append_objects h chars classes args a
              else Done (inr IllegalArgument)
            else if is_primitive (GetType c) then
              match o with
              | Box src v =>
                  match append_box (GetType c) src v a with
                  | Some r => a ← r; append_objects h chars classes args a
                  | None => Done (inr IllegalArgument)
                  end
              | Plain _ => Done (inr IllegalArgument)
              end
            else append_objects h chars classes args a
      | _, _ => Fault OutOfBounds
      end
  end.

Definition BuildArgArrayFromObjectArray (h : heap) (receiver : Z) (classes : list (object -> bool))
    (args : list Z) (a : ArgArray) : cres (ArgArray + exn) :=
  a ← append_receiver receiver a;
  append_objects h (drop 1 (shorty_ a)) classes args a.

(** ** The frame of the handler *)

(** The constants of [QuickArgumentVisitor] for an instruction set. *)
Record isa := mkIsa {
  kQuickSoftFloatAbi : bool;
  kNumQuickGprArgs : Z;
  kNumQuickFprArgs : Z;
  FrameSize : Z; Fpr1Offset : Z; Gpr1Offset : Z;
  BytesPerGprSpill : Z; BytesPerFprSpill : Z;
  GprIndexToGprOffset : Z -> Z
}.
Definition kBytesStackArgLocation : Z := 4.

Definition RoundUp (x n : Z) : Z := (x + n - 1) / n * n.
Definition POPCOUNT (x : Z) : Z :=
  Z.of_nat (length (filter (fun i => Z.testbit x (Z.of_nat i) = true) (seq 0 32))).

(** arch/arm/quick_method_frame_info_arm.h, for kRefsAndArgs. *)
Definition bits (l : list Z) : Z := fold_right (fun r x => Z.lor (Z.shiftl 1 r) x) 0 l.
Definition kArmCalleeSaveRefSpills : Z := bits [5; 6; 7; 8; 10; 11].
Definition kArmCalleeSaveArgSpills : Z := bits [1; 2; 3].
Definition ArmCalleeSaveCoreSpills : Z :=
  Z.lor (Z.lor kArmCalleeSaveRefSpills kArmCalleeSaveArgSpills) (Z.shiftl 1 14).
Definition ArmCalleeSaveFrameSize : Z := RoundUp ((POPCOUNT ArmCalleeSaveCoreSpills + 1) * 4) 16.
Definition ArmCalleeSaveGpr1Offset : Z :=
  ArmCalleeSaveFrameSize - POPCOUNT ArmCalleeSaveCoreSpills * 4.

Definition arm : isa :=
  mkIsa true 3 0 ArmCalleeSaveFrameSize ArmCalleeSaveGpr1Offset ArmCalleeSaveGpr1Offset 4 4
    (fun gpr_index => gpr_index * 4).

(** Where the visitor is. *)
Record visitor := mkVisitor {
  gpr_index_ : Z; fpr_index_ : Z; stack_index_ : Z;
  cur_type_ : PrimType; is_split_long_or_double_ : bool
}.

Section Visitor.
Context `{LocalRefs} (A : isa).
(** The words of the stack from the handler's [sp] upwards, and what is in the
    bytes of a jvalue before it is written. *)
Context (mem : list Z) (junk : Z).

Definition load32 (address : Z) : cres Z := deref (mem !! Z.to_nat (address / 4)).
Definition load64 (address : Z) : cres Z :=
  lo ← load32 address; hi ← load32 (address + 4); Done (lo + 2 ^ 32 * hi).

Definition StackArgumentStartFromShorty : Z :=
  if kQuickSoftFloatAbi A then kNumQuickGprArgs A * BytesPerGprSpill A + 4 else 4.
Definition gpr_args_ : Z := Gpr1Offset A.
Definition fpr_args_ : Z := Fpr1Offset A.
Definition stack_args_ : Z := FrameSize A + StackArgumentStartFromShorty.

Definition GetParamAddress (v : visitor) : Z :=
  let stack := stack_args_ + stack_index_ v * kBytesStackArgLocation in
  if negb (kQuickSoftFloatAbi A) && (bool_decide (cur_type_ v = kPrimDouble) || bool_decide (cur_type_ v = kPrimFloat))
  then
    if negb (kNumQuickFprArgs A =? 0) && (fpr_index_ v + 1 <? kNumQuickFprArgs A + 1)
    then fpr_args_ + fpr_index_ v * BytesPerFprSpill A
    else stack
  else if gpr_index_ v <? kNumQuickGprArgs A then gpr_args_ + GprIndexToGprOffset A (gpr_index_ v)
  else stack.

Definition IsSplitLongOrDouble (v : visitor) : bool :=
  if (BytesPerGprSpill A =? 4) || (BytesPerFprSpill A =? 4) then is_split_long_or_double_ v else false.

Definition ReadSplitLongParam (v : visitor) : cres Z :=
  low_half ← load32 (GetParamAddress v);
  high_half ← load32 stack_args_;
  Done (Z.lor (Z.land low_half 0xffffffff) (uwrap 64 (Z.shiftl high_half 32))).

(** [BuildQuickArgumentVisitor::Visit]: the jvalue that is pushed. *)
Definition Visit (v : visitor) : cres Z :=
  match cur_type_ v with
  | kPrimNot => r ← load32 (GetParamAddress v); Done (set_low 32 junk (AddLocalReference (GetParamAddress v) r))
  | kPrimLong | kPrimDouble =>
      if IsSplitLongOrDouble v then ReadSplitLongParam v else load64 (GetParamAddress v)
  | kPrimVoid => Fault Aborted
  | _ => i ← load32 (GetParamAddress v); Done (SetI junk i)
  end.

(** How the indices move after an argument of each kind. *)
Definition after_narrow (v : visitor) : visitor :=
  mkVisitor (if gpr_index_ v <? kNumQuickGprArgs A then gpr_index_ v + 1 else gpr_index_ v)
    (fpr_index_ v)
    (if negb (kQuickSoftFloatAbi A) || (kNumQuickGprArgs A =? gpr_index_ v) then stack_index_ v + 1
     else stack_index_ v)
    (cur_type_ v) (is_split_long_or_double_ v).

Definition next_fpr (f : Z) : Z :=
  if negb (kNumQuickFprArgs A =? 0) && (f + 1 <? kNumQuickFprArgs A + 1) then f + 1 else f.

Definition after_float (v : visitor) : visitor :=
  if kQuickSoftFloatAbi A then
    if gpr_index_ v <? kNumQuickGprArgs A
    then mkVisitor (gpr_index_ v + 1) (fpr_index_ v) (stack_index_ v) (cur_type_ v) (is_split_long_or_double_ v)
    else mkVisitor (gpr_index_ v) (fpr_index_ v) (stack_index_ v + 1) (cur_type_ v) (is_split_long_or_double_ v)
  else mkVisitor (gpr_index_ v) (next_fpr (fpr_index_ v)) (stack_index_ v + 1) (cur_type_ v)
         (is_split_long_or_double_ v).

Definition after_wide_gpr (v : visitor) : visitor :=
  let stack :=
    if negb (kQuickSoftFloatAbi A) || (kNumQuickGprArgs A =? gpr_index_ v)
    then stack_index_ v + 2 else stack_index_ v in
  let '(gpr, stack) :=
    if gpr_index_ v <? kNumQuickGprArgs A then
      let gpr := gpr_index_ v + 1 in
      if BytesPerGprSpill A =? 4 then
        if gpr <? kNumQuickGprArgs A then (gpr + 1, stack)
        else if kQuickSoftFloatAbi A then (gpr, stack + 1) else (gpr, stack)
      else (gpr, stack)
    else (gpr_index_ v, stack) in
  mkVisitor gpr (fpr_index_ v) stack (cur_type_ v) (is_split_long_or_double_ v).

Definition after_wide_fpr (v : visitor) : visitor :=
  let fpr :=
    if negb (kNumQuickFprArgs A =? 0) && (fpr_index_ v + 1 <? kNumQuickFprArgs A + 1) then
      if BytesPerFprSpill A =? 4 then next_fpr (fpr_index_ v + 1) else fpr_index_ v + 1
    else fpr_index_ v in
  mkVisitor (gpr_index_ v) fpr (stack_index_ v + 2) (cur_type_ v) (is_split_long_or_double_ v).

(** One turn of the loop of [VisitArguments], for the character [c]. *)
Definition visit_argument (c : Z) (v : visitor) : cres (Z * visitor) :=
  let at_type split := mkVisitor (gpr_index_ v) (fpr_index_ v) (stack_index_ v) (GetType c) split in
  match GetType c with
  | kPrimNot | kPrimBoolean | kPrimByte | kPrimChar | kPrimShort | kPrimInt =>
      let v := at_type false in x ← Visit v; Done (x, after_narrow v)
  | kPrimFloat => let v := at_type false in x ← Visit v; Done (x, after_float v)
  | kPrimDouble | kPrimLong =>
      if kQuickSoftFloatAbi A || bool_decide (GetType c = kPrimLong) then
        let v := at_type ((BytesPerGprSpill A =? 4) && (gpr_index_ v + 1 =? kNumQuickGprArgs A)) in
        x ← Visit v; Done (x, after_wide_gpr v)
      else
        let v := at_type ((BytesPerFprSpill A =? 4) && (fpr_index_ v + 1 =? kNumQuickFprArgs A)) in
        x ← Visit v; Done (x, after_wide_fpr v)
  | kPrimVoid => Fault Aborted
  end.

Fixpoint visit_arguments (chars : cstr) (v : visitor) : cres (list Z) :=
  match chars with
  | [] => Done []
  | c :: chars =>
      '(x, v) ← visit_argument c v; xs ← visit_arguments chars v; Done (x :: xs)
  end.

Definition VisitArguments (is_static : bool) (shorty : cstr) : cres (list Z) :=
  let v := mkVisitor 0 0 0 kPrimNot false in
  if is_static then visit_arguments (drop 1 shorty) v
  else
    this ← Visit v;
    let v := mkVisitor (if 0 <? kNumQuickGprArgs A then 1 else 0) 0
               (if negb (kQuickSoftFloatAbi A) || (kNumQuickGprArgs A =? 0) then 1 else 0) kPrimNot false in
    xs ← visit_arguments (drop 1 shorty) v;
    Done (this :: xs).
End Visitor.

(** The stack at the entry of [artQuickProxyInvokeHandler] on ARM, when
    [art_quick_invoke_stub] (arch/arm/quick_entrypoints_arm.S) calls the method:
    the stub's frame holds a null method and a copy of the words, above them
    words of its callers; r1 to r3 are loaded from the first three words, and
    the handler's entry point saves them below seven other registers. *)
Definition stub_frame (words above : list Z) : list Z := 0 :: words ++ above.
Definition handler_frame (method pad : Z) (saved caller : list Z) : list Z :=
  method :: pad :: take 3 (drop 1 caller) ++ saved ++ caller.

Definition call_frame (method pad : Z) (saved above : list Z) (a : ArgArray) : list Z :=
  handler_frame method pad saved
    (stub_frame (take (Z.to_nat (num_bytes_ a / 4)) (arg_array_ a)) above).

(** ** What is passed *)

Definition param_chars : cstr := lit "ZBCSIFLJD".

Definition narrow_word (c j : Z) : Z :=
  uwrap 32 (match GetType c with
            | kPrimBoolean => get_z j | kPrimByte => get_b j | kPrimChar => get_c j
            | kPrimShort => get_s j | kPrimNot => get_l j | _ => get_i j
            end).
Definition words_of (c j : Z) : list Z :=
  if is_wide (GetType c) then [uwrap 32 j; uwrap 64 j / 2 ^ 32] else [narrow_word c j].
Fixpoint all_words (chars : cstr) (args : list Z) : list Z :=
  match chars, args with
  | c :: chars, j :: args => words_of c j ++ all_words chars args
  | _, _ => []
  end.

(** The Java value of a jvalue: a reference stands for its object. *)
Definition arg_value `{LocalRefs} (c j : Z) : Z := if c =? chr "L" then Decode (get_l j) else java_value (GetType c) j.

Lemma low_mod u j v : 0 <= u <= 32 -> set_low 32 j v mod 2 ^ u = v mod 2 ^ u.
Proof.
  intros Hu. unfold set_low. replace (2 ^ 32) with (2 ^ u * 2 ^ (32 - u)).
  - rewrite <- Z.mul_assoc, (Z.mul_comm (2 ^ u)), Z_mod_plus_full. unfold uwrap. by apply mod_pow_le.
  - rewrite <- Z.pow_add_r by lia. f_equal; lia.
Qed.

Lemma param_char_cases c : c ∈ param_chars ->
  c = chr "Z" /\ GetType c = kPrimBoolean \/ c = chr "B" /\ GetType c = kPrimByte \/
  c = chr "C" /\ GetType c = kPrimChar \/ c = chr "S" /\ GetType c = kPrimShort \/
  c = chr "I" /\ GetType c = kPrimInt \/ c = chr "F" /\ GetType c = kPrimFloat \/
  c = chr "L" /\ GetType c = kPrimNot \/ c = chr "J" /\ GetType c = kPrimLong \/
  c = chr "D" /\ GetType c = kPrimDouble.
Proof.
  unfold param_chars. cbn. rewrite !elem_of_cons, elem_of_nil. intros H.
  decompose [or] H; subst; cbn; tauto.
Qed.

Ltac char_case Hc Ht :=
  apply param_char_cases in Hc as
    [[Hc Ht] | [[Hc Ht] | [[Hc Ht] | [[Hc Ht] | [[Hc Ht] | [[Hc Ht] | [[Hc Ht] | [[Hc Ht] | [Hc Ht]]]]]]]]].

(** The value of each type survives the trip through words. *)
Lemma narrow_java junk c j : c ∈ param_chars -> is_wide (GetType c) = false ->
  java_value (GetType c) (set_low 32 junk (narrow_word c j)) = java_value (GetType c) j.
Proof.
  intros Hc Hw. unfold narrow_word. char_case Hc Ht; rewrite Ht in *; try discriminate Hw; cbn [java_value];
    unfold get_z, get_b, get_c, get_s, get_i, get_f, get_l;
    first [apply swrap_cong; [lia|] | unfold uwrap at 1];
    by rewrite ?low_mod, ?uwrap_mod, ?swrap_mod, ?uwrap_mod by lia.
Qed.
Lemma wide_java c j : is_wide (GetType c) = true -> java_value (GetType c) (uwrap 64 j) = java_value (GetType c) j.
Proof.
  intros Hw. destruct (GetType c); try discriminate Hw; cbn [java_value]; unfold get_j, get_d;
    first [apply swrap_cong; [lia|] | unfold uwrap at 1]; by rewrite uwrap_mod by lia.
Qed.
Lemma local_reference `{LocalRefs} junk slot w : in_u 32 w -> Decode (get_l (set_low 32 junk (AddLocalReference slot w))) = w.
Proof.
  intros Hw. unfold get_l, uwrap. rewrite low_mod by lia. rewrite Z.mod_small by apply Add_range. by apply Decode_Add.
Qed.

(** ** Filling the array *)

(** The array starts with the words [ws], and the cursor is behind them. *)
Definition holds (a : ArgArray) (ws : list Z) : Prop :=
  num_bytes_ a = 4 * Z.of_nat (length ws) /\ exists rest, arg_array_ a = ws ++ rest.

(** What filling keeps. *)
Definition same_array (a a' : ArgArray) : Prop :=
  shorty_ a' = shorty_ a /\ length (arg_array_ a') = length (arg_array_ a).

Lemma set_word_ok ws rest v : rest <> [] ->
  exists rest', set_word (ws ++ rest) (Z.of_nat (length ws)) v = Done ((ws ++ [v]) ++ rest') /\
    length rest = S (length rest').
Proof.
  intros Hr. destruct rest as [|x rest]; [done|]. exists rest. split; [|done].
  unfold set_word. rewrite Nat2Z.id, length_app. cbn [length].
  destruct (Nat.ltb_spec (length ws) (length ws + S (length rest))); [|lia].
  by rewrite insert_app_r_alt, Nat.sub_diag, <- app_assoc by lia.
Qed.

Lemma holds_index a ws : holds a ws -> num_bytes_ a / 4 = Z.of_nat (length ws).
Proof. intros [-> _]. rewrite Z.mul_comm. by apply Z.div_mul. Qed.

Lemma Append_ok v a ws : holds a ws -> (length ws < length (arg_array_ a))%nat ->
  exists a', Append v a = Done a' /\ holds a' (ws ++ [uwrap 32 v]) /\ same_array a a'.
Proof.
  intros Hh Hlt. unfold Append. rewrite (holds_index a ws Hh).
  destruct Hh as [Hn [rest Hr]]. rewrite Hr, length_app in *.
  destruct (set_word_ok ws rest (uwrap 32 v)) as (rest' & -> & Hl).
  { intros ->. cbn in *. lia. }
  cbn. eexists. split; [done|]. split.
  - split; [cbn|by exists rest']. rewrite Hn, length_app. cbn. lia.
  - split; [done|]. cbn. rewrite Hr, !length_app. cbn. lia.
Qed.

Lemma AppendWide_ok v a ws : holds a ws -> (S (length ws) < length (arg_array_ a))%nat ->
  exists a', AppendWide v a = Done a' /\
    holds a' (ws ++ [uwrap 32 v; uwrap 64 v / 2 ^ 32]) /\ same_array a a'.
Proof.
  intros Hh Hlt. unfold AppendWide. rewrite (holds_index a ws Hh).
  destruct Hh as [Hn [rest Hr]]. rewrite Hr, length_app in *.
  destruct (set_word_ok ws rest (uwrap 32 v)) as (rest1 & -> & Hl); [intros ->; cbn in *; lia|].
  cbn [mbind cres_bind].
  replace (uwrap 32 (Z.shiftr (uwrap 64 v) 32)) with (uwrap 64 v / 2 ^ 32).
  2:{ rewrite Z.shiftr_div_pow2 by lia. symmetry. apply uwrap_small.
      pose proof (uwrap_range 64 v). unfold in_u in *. split; [apply Z.div_pos; lia|].
      apply Z.div_lt_upper_bound; lia. }
  replace (Z.of_nat (length ws) + 1) with (Z.of_nat (length (ws ++ [uwrap 32 v])))
    by (rewrite length_app; cbn; lia).
  destruct (set_word_ok (ws ++ [uwrap 32 v]) rest1 (uwrap 64 v / 2 ^ 32)) as (rest2 & -> & Hl2).
  { intros ->. cbn in *. lia. }
  cbn. eexists. split; [done|]. rewrite <- (app_assoc ws) at 1 2. split.
  - split; [cbn|by exists rest2]. rewrite Hn, length_app. cbn. lia.
  - split; [done|]. cbn. rewrite Hr, !length_app. cbn. lia.
Qed.

Lemma same_array_trans a b c : same_array a b -> same_array b c -> same_array a c.
Proof. intros [] []. split; congruence. Qed.

Lemma get_j_words j : uwrap 32 (get_j j) = uwrap 32 j /\ uwrap 64 (get_j j) = uwrap 64 j.
Proof.
  unfold uwrap, get_j. split; [|by apply swrap_mod].
  by rewrite <- (mod_pow_le _ 32 64), swrap_mod, mod_pow_le by lia.
Qed.

(** A value of the Java language is appended. *)
Definition append_value (c j : Z) (a : ArgArray) : cres ArgArray :=
  if is_wide (GetType c) then AppendWide (get_j j) a
  else Append (match GetType c with
               | kPrimBoolean => get_z j | kPrimByte => get_b j | kPrimChar => get_c j
               | kPrimShort => get_s j | kPrimNot => get_l j | _ => get_i j
               end) a.
Definition raw_value `{LocalRefs} (c j : Z) : Z := if c =? chr "L" then Decode (get_l j) else j.
Lemma raw_java `{LocalRefs} c j : java_value (GetType c) (raw_value c j) = arg_value c j.
Proof.
  unfold raw_value, arg_value. destruct (Z.eqb_spec c (chr "L")) as [->|]; [|done]. apply uwrap_small, Decode_range.
Qed.
Lemma zip_values `{LocalRefs} chars args :
  zip_with (fun c j => java_value (GetType c) j) chars (zip_with raw_value chars args) = zip_with arg_value chars args.
Proof. revert args. induction chars as [|c chars IH]; intros [|j args]; try done. cbn. by rewrite raw_java, IH. Qed.
Lemma append_decoded `{LocalRefs} c j a : c ∈ param_chars -> append_jvalue c j a = append_value c (raw_value c j) a.
Proof.
  intros Hc. unfold append_value, raw_value. char_case Hc Ht; rewrite Ht, Hc; try reflexivity.
  change (append_jvalue (chr "L") j a) with (Append (Decode (get_l j)) a). change (chr "L" =? chr "L") with true. cbn [is_wide].
  f_equal. symmetry. apply uwrap_small, Decode_range.
Qed.

Lemma append_value_ok c j a ws : c ∈ param_chars -> holds a ws ->
  (length ws + length (words_of c j) <= length (arg_array_ a))%nat ->
  exists a', append_value c j a = Done a' /\ holds a' (ws ++ words_of c j) /\ same_array a a'.
Proof.
  intros Hc Hh. destruct (get_j_words j) as [E32 E64]. unfold append_value, words_of, narrow_word.
  rewrite <- E32, <- E64. char_case Hc Ht; rewrite Ht; cbn [is_wide length]; intros Hlt;
    solve [apply Append_ok; [done|lia] | apply AppendWide_ok; [done|lia]].
Qed.

Lemma append_jvalues_ok `{LocalRefs} chars args a ws :
  Forall (fun c => c ∈ param_chars) chars -> length args = length chars -> holds a ws ->
  (length ws + length (all_words chars (zip_with raw_value chars args)) <= length (arg_array_ a))%nat ->
  exists a', append_jvalues chars args a = Done a' /\ holds a' (ws ++ all_words chars (zip_with raw_value chars args)) /\
    same_array a a'.
Proof.
  intros Hc. revert args a ws. induction Hc as [|c chars Hc _ IH]; intros [|j args] a ws Hl Hh Hlt;
    try done; cbn [append_jvalues zip_with all_words] in *.
  - exists a. by rewrite app_nil_r.
  - rewrite length_app in Hlt. rewrite append_decoded by done.
    destruct (append_value_ok c (raw_value c j) a ws) as (a1 & -> & Hh1 & Hs1); [done|done|lia|]. cbn [mbind cres_bind].
    destruct (IH args a1 (ws ++ words_of c (raw_value c j))) as (a2 & -> & Hh2 & Hs2).
    + by injection Hl.
    + done.
    + destruct Hs1 as [_ ->]. rewrite length_app. lia.
    + exists a2. rewrite app_assoc. eauto using same_array_trans.
Qed.

(** The constructor makes room for a receiver and every argument. *)
Lemma arg_array_room r chars args : Forall (fun c => c ∈ param_chars) chars ->
  (1 + length (all_words chars args) <= arg_array_size (r :: chars))%nat.
Proof.
  intros Hc.
  assert (length (all_words chars args) <=
          length chars + length (filter (fun c => c = chr "J" \/ c = chr "D") chars))%nat as Hw.
  { revert args. induction Hc as [|c chars Hc _ IH]; intros [|j args]; cbn [all_words length]; try lia.
    specialize (IH args). rewrite length_app. unfold words_of. rewrite filter_cons.
    char_case Hc Ht; rewrite Ht, Hc; case_decide as D; cbn [is_wide length];
      first [lia | exfalso; first [by destruct D | apply D; tauto]]. }
  pose proof (length_filter (fun c => c = chr "J" \/ c = chr "D") chars).
  unfold arg_array_size, kSmallArgArraySize. cbn [length drop].
  destruct (Nat.ltb_spec ((S (length chars) + 1) * 2) 16); [lia|].
  rewrite drop_0. destruct (Nat.leb_spec (S (length chars) + 1 + length (filter (fun c => c = chr "J" \/ c = chr "D") chars)) 16);
    lia.
Qed.

(** ** Reading it back *)

Section Read.
Context `{LocalRefs}.
Context (method pad : Z) (saved above ws : list Z) (junk : Z).
Context (Hsaved : length saved = 7%nat) (Habove : (3 <= length above)%nat).
#[local] Abbreviation mem := (handler_frame method pad saved (stub_frame ws above)).

(** Where the visitor stands in front of word [p]. *)
Definition at_word (v : visitor) (p : nat) : Prop :=
  gpr_index_ v = Z.min 3 (Z.of_nat p) /\ stack_index_ v = Z.max 0 (Z.of_nat p - 3).

Lemma load_gpr p w : (p < 3)%nat -> ws !! p = Some w -> load32 mem (8 + Z.of_nat p * 4) = Done w.
Proof.
  intros Hp Hw. unfold load32, handler_frame, stub_frame.
  replace (8 + Z.of_nat p * 4) with ((2 + Z.of_nat p) * 4) by lia. rewrite Z.div_mul by lia.
  replace (Z.to_nat (2 + Z.of_nat p)) with (S (S p)) by lia.
  change (deref ((take 3 (ws ++ above) ++ saved ++ 0 :: ws ++ above) !! p) = Done w).
  rewrite lookup_app_l.
  - rewrite lookup_take_lt by lia. by rewrite (lookup_app_l_Some _ _ _ _ Hw).
  - rewrite length_take, length_app. lia.
Qed.

Lemma load_stack p w : (3 <= p)%nat -> ws !! p = Some w ->
  load32 mem (64 + (Z.of_nat p - 3) * 4) = Done w.
Proof.
  intros Hp Hw. unfold load32, handler_frame, stub_frame.
  replace (64 + (Z.of_nat p - 3) * 4) with ((13 + Z.of_nat p) * 4) by lia. rewrite Z.div_mul by lia.
  replace (Z.to_nat (13 + Z.of_nat p)) with (S (S (3 + (7 + S p)))) by lia.
  change (deref ((take 3 (ws ++ above) ++ saved ++ 0 :: ws ++ above) !! (3 + (7 + S p))%nat) = Done w).
  rewrite lookup_app_r; rewrite length_take, length_app, Nat.min_l by lia; [|lia].
  rewrite lookup_app_r by lia. replace (_ - _ - _)%nat with (S p) by lia. cbn.
  by rewrite (lookup_app_l_Some _ _ _ _ Hw).
Qed.

(** The word in front of which the visitor stands, and the one behind it. *)
Lemma load_param v p w : at_word v p -> ws !! p = Some w -> load32 mem (GetParamAddress arm v) = Done w.
Proof.
  intros [Hg Hs] Hw. unfold GetParamAddress. cbn. rewrite Hg, Hs.
  change (gpr_args_ arm) with 8. change (stack_args_ arm) with 64. unfold kBytesStackArgLocation.
  destruct (Z.ltb_spec (Z.min 3 (Z.of_nat p)) 3).
  - rewrite Z.min_r by lia. apply load_gpr; [lia|done].
  - rewrite Z.max_r by lia. apply load_stack; [lia|done].
Qed.

Lemma wide_halves j : uwrap 32 j + 2 ^ 32 * (uwrap 64 j / 2 ^ 32) = uwrap 64 j.
Proof.
  unfold uwrap. rewrite <- (mod_pow_le j 32 64) by lia.
  pose proof (Z.div_mod (j mod 2 ^ 64) (2 ^ 32)). lia.
Qed.

Lemma split_halves j :
  Z.lor (Z.land (uwrap 32 j) 0xffffffff) (uwrap 64 (Z.shiftl (uwrap 64 j / 2 ^ 32) 32)) = uwrap 64 j.
Proof.
  change 0xffffffff with (Z.ones 32). pose proof (uwrap_range 32 j). pose proof (uwrap_range 64 j).
  unfold in_u in *.
  assert (0 <= uwrap 64 j / 2 ^ 32 < 2 ^ 32).
  { split; [apply Z.div_pos; lia|apply Z.div_lt_upper_bound; lia]. }
  rewrite Z.land_ones, (Z.mod_small (uwrap 32 j)) by lia. rewrite (uwrap_small 64 (Z.shiftl _ _)).
  - rewrite lor_shiftl_add by lia. rewrite Z.mul_comm. apply wide_halves.
  - rewrite Z.shiftl_mul_pow2 by lia. unfold in_u. lia.
Qed.

Lemma load_param_wide v p j : at_word v p -> p <> 2%nat ->
  ws !! p = Some (uwrap 32 j) -> ws !! S p = Some (uwrap 64 j / 2 ^ 32) ->
  load64 mem (GetParamAddress arm v) = Done (uwrap 64 j).
Proof.
  intros Hv Hp Hlo Hhi. unfold load64. rewrite (load_param v p _ Hv Hlo). cbn [mbind cres_bind].
  assert (load32 mem (GetParamAddress arm v + 4) = Done (uwrap 64 j / 2 ^ 32)) as ->.
  - destruct Hv as [Hg Hs]. rewrite <- (load_param (mkVisitor (Z.min 3 (Z.of_nat (S p))) 0
      (Z.max 0 (Z.of_nat (S p) - 3)) kPrimNot false) (S p) _ ltac:(by split) Hhi).
    f_equal. unfold GetParamAddress, kBytesStackArgLocation. cbn -[Z.add Z.mul Z.of_nat Z.min Z.max].
    rewrite Hg, Hs. change (gpr_args_ arm) with 8. change (stack_args_ arm) with 64.
    destruct (Z.ltb_spec (Z.min 3 (Z.of_nat p)) 3), (Z.ltb_spec (Z.min 3 (Z.of_nat (S p))) 3); lia.
  - cbn. by rewrite wide_halves.
Qed.

Lemma after_narrow_ok v p : at_word v p -> at_word (after_narrow arm v) (p + 1).
Proof.
  intros [Hg Hs]. unfold at_word, after_narrow. cbn -[Z.add Z.of_nat Z.min Z.max Z.eqb Z.ltb]. rewrite Hg, Hs.
  destruct (Z.ltb_spec (Z.min 3 (Z.of_nat p)) 3), (Z.eqb_spec 3 (Z.min 3 (Z.of_nat p))); cbn [orb]; lia.
Qed.

Lemma after_float_ok v p : at_word v p -> at_word (after_float arm v) (p + 1).
Proof.
  intros [Hg Hs]. unfold at_word, after_float. cbn -[Z.add Z.of_nat Z.min Z.max Z.eqb Z.ltb]. rewrite Hg, Hs.
  destruct (Z.ltb_spec (Z.min 3 (Z.of_nat p)) 3); cbn -[Z.add Z.of_nat Z.min Z.max Z.eqb Z.ltb]; lia.
Qed.

Lemma after_wide_ok v p : at_word v p -> at_word (after_wide_gpr arm v) (p + 2).
Proof.
  intros [Hg Hs]. unfold at_word, after_wide_gpr. change (BytesPerGprSpill arm =? 4) with true. cbn -[Z.add Z.of_nat Z.min Z.max Z.eqb Z.ltb]. rewrite Hg, Hs.
  destruct (Z.ltb_spec (Z.min 3 (Z.of_nat p)) 3), (Z.eqb_spec 3 (Z.min 3 (Z.of_nat p))),
    (Z.ltb_spec (Z.min 3 (Z.of_nat p) + 1) 3); cbn -[Z.add Z.of_nat Z.min Z.max Z.eqb Z.ltb]; lia.
Qed.

Lemma visit_wide_ok v p j : at_word v p -> is_wide (cur_type_ v) = true ->
  is_split_long_or_double_ v = (gpr_index_ v + 1 =? 3) ->
  ws !! p = Some (uwrap 32 j) -> ws !! S p = Some (uwrap 64 j / 2 ^ 32) ->
  Visit arm mem junk v = Done (uwrap 64 j).
Proof.
  intros Hv Ht Hsp Hlo Hhi. unfold Visit, IsSplitLongOrDouble. cbn [arm BytesPerGprSpill BytesPerFprSpill].
  assert ((if gpr_index_ v + 1 =? 3 then ReadSplitLongParam arm mem v
           else load64 mem (GetParamAddress arm v)) = Done (uwrap 64 j)) as E.
  - destruct (Z.eqb_spec (gpr_index_ v + 1) 3) as [E|E]; [|eapply load_param_wide; try done].
    + unfold ReadSplitLongParam. rewrite (load_param v p _ Hv Hlo). cbn [mbind cres_bind].
      assert (p = 2%nat) as -> by (destruct Hv; lia).
      change (stack_args_ arm) with (64 + (Z.of_nat 3 - 3) * 4).
      rewrite (load_stack 3 _ ltac:(lia) Hhi). cbn [mbind cres_bind]. by rewrite split_halves.
    + destruct Hv; lia.
  - rewrite Hsp. destruct (cur_type_ v); try discriminate; exact E.
Qed.

Lemma visit_argument_ok c j v p : c ∈ param_chars -> at_word v p ->
  (forall i w, words_of c j !! i = Some w -> ws !! (p + i)%nat = Some w) ->
  exists x v', visit_argument arm mem junk c v = Done (x, v') /\ arg_value c x = java_value (GetType c) j /\
    at_word v' (p + length (words_of c j)).
Proof.
  intros Hc Hv Hw. pose proof (Hw 0%nat) as H0. pose proof (Hw 1%nat) as H1.
  rewrite Nat.add_0_r in H0. rewrite Nat.add_1_r in H1. clear Hw. pose proof (narrow_java junk c j Hc) as Hn. pose proof (wide_java c j) as Hwide.
  unfold visit_argument, words_of, arg_value in *. char_case Hc Ht; rewrite Ht in *; cbn [is_wide length] in *;
    cbn [orb andb arm kQuickSoftFloatAbi BytesPerGprSpill kNumQuickGprArgs Z.eqb Pos.eqb].
  8-9: rewrite (visit_wide_ok _ p j) by (done || by apply H0 || by apply H1); cbn [mbind cres_bind];
       eexists _, _; split; [done|]; split; [rewrite Hc; by apply Hwide|by apply after_wide_ok].
  all: unfold Visit; cbn [cur_type_];
       match goal with |- context [GetParamAddress arm ?u] => rewrite (load_param u p _ Hv (H0 _ eq_refl)) end;
       cbn [mbind cres_bind]; eexists _, _; split; [done|]; (split; [rewrite Hc|first [by apply after_narrow_ok | by apply after_float_ok]]).
  7: { change (chr "L" =? chr "L") with true. cbv iota. rewrite local_reference by (unfold narrow_word; apply uwrap_range; lia).
       apply (uwrap_small 32 (uwrap 32 j)), uwrap_range. lia. }
  all: rewrite Hc in Hn; by apply Hn.
Qed.

(** The jvalues that are read stand for the values that were passed. *)
Definition same_values (chars : cstr) (args xs : list Z) : Prop :=
  length xs = length args /\ zip_with arg_value chars xs = zip_with (fun c j => java_value (GetType c) j) chars args.

Lemma visit_arguments_ok chars args v pre :
  Forall (fun c => c ∈ param_chars) chars -> length args = length chars ->
  at_word v (length pre) -> ws = pre ++ all_words chars args ->
  exists xs, visit_arguments arm mem junk chars v = Done xs /\ same_values chars args xs.
Proof.
  intros Hc. revert args v pre. induction Hc as [|c chars Hc _ IH]; intros [|j args] v pre Hl Hv E; try done.
  { by exists []. }
  cbn [all_words visit_arguments] in *.
  destruct (visit_argument_ok c j v (length pre) Hc Hv) as (x & v' & -> & Hx & Hv').
  - intros i w Hi. rewrite E, lookup_app_r by lia.
    replace (length pre + i - length pre)%nat with i by lia. by apply lookup_app_l_Some.
  - cbn [mbind cres_bind]. destruct (IH args v' (pre ++ words_of c j)) as (xs & -> & Hlx & Hxs); [by injection Hl|by rewrite length_app|by rewrite E, app_assoc|].
    exists (x :: xs). cbn. split; [done|]. split; cbn; [by rewrite Hlx|by rewrite Hx, Hxs].
Qed.
End Read.

(** ** Arguments that arrive *)

(** The loop of [InvokeXposedHandleHookedMethod] that fills the argument array;
    [None] when a box cannot be allocated. *)
Fixpoint box_arguments `{Boxing} `{LocalRefs} (chars : cstr) (args : list Z) (h : heap) : option (list Z * heap) :=
  match chars, args with
  | c :: chars, j :: args =>
      '(r, h) ← (if c =? chr "L" then Some (Decode (get_l j), h) else BoxPrimitive (GetType c) j h);
      '(rs, h) ← box_arguments chars args h;
      Some (r :: rs, h)
  | _, _ => Some ([], h)
  end.

(** The words of the receiver. *)
Definition receiver_words (receiver : Z) : list Z := if receiver =? 0 then [] else [uwrap 32 receiver].

Lemma new_array_holds junk shorty : holds (new_ArgArray junk shorty) [].
Proof. split; [done|]. by eexists. Qed.

Lemma receiver_ok junk r chars receiver :
  exists a, append_receiver receiver (new_ArgArray junk (r :: chars)) = Done a /\
    holds a (receiver_words receiver) /\ same_array (new_ArgArray junk (r :: chars)) a.
Proof.
  unfold append_receiver, receiver_words. destruct (receiver =? 0).
  - eexists. split; [done|]. split; [apply new_array_holds|done].
  - apply (Append_ok receiver _ [] (new_array_holds junk (r :: chars))). cbn [arg_array_ new_ArgArray].
    rewrite length_replicate. unfold arg_array_size, kSmallArgArraySize. cbn [length].
    destruct (_ <? _)%nat; [lia|]. destruct (_ <=? _)%nat; lia.
Qed.

(** What the handler's frame holds once the array is filled. *)
Lemma visit_filled `{LocalRefs} method pad saved above junk a receiver r chars args :
  length saved = 7%nat -> (3 <= length above)%nat ->
  Forall (fun c => c ∈ param_chars) chars -> length args = length chars ->
  holds a (receiver_words receiver ++ all_words chars args) ->
  exists this xs, VisitArguments arm (call_frame method pad saved above a) junk (receiver =? 0) (r :: chars) = Done (this ++ xs) /\
    map (fun x => Decode (get_l x)) this = (if receiver =? 0 then [] else [uwrap 32 receiver]) /\ same_values chars args xs.
Proof.
  intros Hs Ha Hc Hl Hh. unfold call_frame. rewrite (holds_index _ _ Hh), Nat2Z.id.
  destruct Hh as [_ [rest ->]]. rewrite take_app_length. unfold VisitArguments, receiver_words.
  cbn [drop]. destruct (receiver =? 0).
  - cbn [app]. edestruct (visit_arguments_ok method pad saved above (all_words chars args) junk Hs Ha chars args (mkVisitor 0 0 0 kPrimNot false) []) as (xs & E & Hx); try done.
    exists [], xs. done.
  - unfold Visit. cbn [cur_type_].
    rewrite (load_param _ _ _ _ _ Hs Ha (mkVisitor 0 0 0 kPrimNot false) 0 (uwrap 32 receiver)) by done.
    cbn [mbind cres_bind].
    edestruct (visit_arguments_ok method pad saved above ([uwrap 32 receiver] ++ all_words chars args) junk Hs Ha chars args) as (xs & E & Hx);
      [done|done| |done|]; [|rewrite E; cbn [mbind cres_bind]; eexists [_], xs; split; [done|]; split; [|done]]; [done|].
    cbn [map]. f_equal. apply local_reference, uwrap_range. lia.
Qed.

(** C14: Arguments reach the handler of a hooked method unchanged.  A call with the
    jvalues [args] fills an array that always has room; the frame it makes, with
    three words in registers and a long possibly half in a register and half on
    the stack, is read back by the handler's visitor as the receiver and as
    jvalues that have the same Java value for the type of each parameter.  The
    references among them are made anew by the visitor and stand for the same objects. *)
Theorem art_arguments_roundtrip `{LocalRefs} method pad saved above junk junk' receiver r chars args
    (Hsaved : length saved = 7%nat) (Habove : (3 <= length above)%nat)
    (Hchars : Forall (fun c => c ∈ param_chars) chars) (Hargs : length args = length chars)
    (Hrcv : in_u 32 receiver) :
  exists a this vs,
    BuildArgArrayFromJValues receiver args (new_ArgArray junk (r :: chars)) = Done a /\
    VisitArguments arm (call_frame method pad saved above a) junk' (receiver =? 0) (r :: chars) =
      Done (this ++ vs) /\
    map (fun x => Decode (get_l x)) this = (if receiver =? 0 then [] else [receiver]) /\
    length vs = length args /\
    zip_with arg_value chars vs = zip_with arg_value chars args.
Proof.
  destruct (receiver_ok junk r chars receiver) as (a0 & E0 & Hh0 & Hs0 & Hl0).
  destruct (append_jvalues_ok chars args a0 (receiver_words receiver)) as (a & E & Hh & _); try done.
  { rewrite Hl0. cbn [arg_array_ new_ArgArray]. rewrite length_replicate.
    pose proof (arg_array_room r chars (zip_with raw_value chars args) Hchars). unfold receiver_words. destruct (receiver =? 0); cbn; lia. }
  destruct (visit_filled method pad saved above junk' a receiver r chars (zip_with raw_value chars args)) as (this & vs & Hv & Ht & Hl & Hx);
    [done|done|done|rewrite length_zip_with; lia|done|].
  exists a, this, vs. split; [|split; [done|split; [|split]]].
  - unfold BuildArgArrayFromJValues. rewrite E0. cbn [mbind cres_bind]. by rewrite Hs0.
  - rewrite Ht. destruct (receiver =? 0); [done|]. by rewrite uwrap_small.
  - rewrite Hl, length_zip_with. lia.
  - rewrite Hx. apply zip_values.
Qed.

(** References that differ from the addresses of their objects; null stays null. *)
Definition demo_flip (x : Z) : Z := if uwrap 32 x =? 0 then 0 else 2 ^ 32 - uwrap 32 x.
Lemma demo_flip_range x : in_u 32 (demo_flip x).
Proof. unfold demo_flip. pose proof (uwrap_range 32 x ltac:(lia)). unfold in_u in *. destruct (Z.eqb_spec (uwrap 32 x) 0); lia. Qed.
Lemma demo_flip_flip x : in_u 32 x -> demo_flip (demo_flip x) = x.
Proof.
  intros Hx. unfold demo_flip at 1. rewrite (uwrap_small 32 (demo_flip x)) by apply demo_flip_range.
  unfold demo_flip. rewrite (uwrap_small 32 x) by done. unfold in_u in Hx.
  destruct (Z.eqb_spec x 0) as [->|]; [done|]. destruct (Z.eqb_spec (2 ^ 32 - x) 0); lia.
Qed.
Definition demo_refs : LocalRefs := {|
  AddLocalReference _ := demo_flip; Decode := demo_flip;
  Add_range _ := demo_flip_range; Decode_Add _ := demo_flip_flip; Decode_null := eq_refl; Decode_range := demo_flip_range
|}.

Lemma art_arguments_roundtrip_witness : exists a,
  @BuildArgArrayFromJValues demo_refs 7 [-1; 2 ^ 40 + 5; 3; 65] (new_ArgArray 99 (lit "VIJIL")) = Done a.
Proof.
  destruct (@art_arguments_roundtrip demo_refs 1 0 (replicate 7 8) (replicate 6 9) 99 98 7 (chr "V") (lit "IJIL")
    [-1; 2 ^ 40 + 5; 3; 65]) as (a & this & vs & E & _); [done|cbn; lia| |done|done|by exists a].
  repeat constructor.
Defined.

(** ** Boxed arguments and results *)

(** The value of a box of type [src] as a value of type [dst], where Java widens
    the one to the other. *)
Definition widen (dst src : PrimType) (v : Z) : option Z :=
  if bool_decide (src = dst) then if is_primitive src then Some v else None
  else match dst, src with
       | kPrimShort, kPrimByte => Some v
       | kPrimInt, (kPrimChar | kPrimShort | kPrimByte) => Some v
       | kPrimLong, (kPrimInt | kPrimChar | kPrimShort | kPrimByte) => Some v
       | kPrimFloat, (kPrimLong | kPrimInt | kPrimChar | kPrimShort | kPrimByte) => Some (float_of_int v)
       | kPrimDouble, kPrimFloat => Some (double_of_float v)
       | kPrimDouble, (kPrimLong | kPrimInt | kPrimChar | kPrimShort | kPrimByte) => Some (double_of_int v)
       | _, _ => None
       end.

(** The integers and bits that a box can hold. *)
Definition canonical (t : PrimType) (v : Z) : Prop := java_value t v = v.
Definition heap_ok (h : heap) : Prop := forall a t v, h !! a = Some (Box t v) -> canonical t v.

Lemma canonical_range t v : canonical t v ->
  match t with
  | kPrimBoolean => in_u 8 v | kPrimByte => in_s 8 v | kPrimChar => in_u 16 v | kPrimShort => in_s 16 v
  | kPrimInt => in_s 32 v | kPrimLong => in_s 64 v | kPrimFloat => in_u 32 v | kPrimDouble => in_u 64 v
  | _ => True
  end.
Proof.
  unfold canonical, java_value. destruct t; intros E; try done; rewrite <- E;
    solve [apply swrap_range; lia | apply uwrap_range; lia].
Qed.

Lemma Append_cong x y a : uwrap 32 x = uwrap 32 y -> Append x a = Append y a.
Proof. intros E. unfold Append. by rewrite E. Qed.
Lemma AppendWide_cong x y a : uwrap 64 x = uwrap 64 y -> AppendWide x a = AppendWide y a.
Proof.
  intros E. unfold AppendWide. rewrite E. replace (uwrap 32 x) with (uwrap 32 y); [done|].
  unfold uwrap in *. by rewrite <- (mod_pow_le x 32 64), E, mod_pow_le by lia.
Qed.

Lemma get_small t v : canonical t v -> forall dst,
  match dst, t with
  | kPrimShort, kPrimByte => get_s v = v
  | kPrimInt, (kPrimChar | kPrimShort | kPrimByte) => get_i v = v
  | kPrimLong, (kPrimInt | kPrimChar | kPrimShort | kPrimByte) => get_j v = v
  | _, _ => True
  end.
Proof.
  intros Hv dst. apply canonical_range in Hv.
  destruct dst, t; try done; apply swrap_small; unfold in_s, in_u in *; lia.
Qed.

Lemma append_box_widen c src v a : c ∈ param_chars -> c <> chr "L" -> canonical src v ->
  append_box (GetType c) src v a =
  match widen (GetType c) src v with Some w => Some (append_value c w a) | None => None end.
Proof.
  intros Hc Hl Hv. pose proof (get_small src v Hv) as Hs. unfold canonical in Hv.
  transitivity (match widen (GetType c) src v with
                | Some w => Some (if is_wide (GetType c) then AppendWide w a else Append w a)
                | None => None end).
  - char_case Hc Ht; rewrite Ht; try done; destruct src; reflexivity.
  - destruct (widen (GetType c) src v) as [w|] eqn:Ew; [|done]. f_equal. unfold append_value.
    char_case Hc Ht; rewrite Ht in *; try done; destruct src; try discriminate Ew; injection Ew as <-;
      cbn [is_wide java_value] in *;
      first [by rewrite Hv | by rewrite (Hs kPrimShort) | by rewrite (Hs kPrimInt) | by rewrite (Hs kPrimLong)
            | apply Append_cong; symmetry; apply swrap_mod; lia
            | apply AppendWide_cong; symmetry; apply swrap_mod; lia].
Qed.

(** The value that a boxed argument is passed as, [None] where it does not fit
    the parameter. *)
Definition accept (h : heap) (c : Z) (cls : object -> bool) (arg : Z) : option Z :=
  if arg =? 0 then if c =? chr "L" then Some 0 else None
  else
    o ← h !! arg;
    if c =? chr "L" then if cls o then Some arg else None
    else match o with Box src v => widen (GetType c) src v | Plain _ => None end.

Fixpoint accept_all (h : heap) (chars : cstr) (classes : list (object -> bool)) (args : list Z) : option (list Z) :=
  match chars, classes, args with
  | c :: chars, cls :: classes, arg :: args =>
      j ← accept h c cls arg; js ← accept_all h chars classes args; Some (j :: js)
  | _, _, _ => Some []
  end.

Definition slots (chars : cstr) : nat :=
  fold_right (fun c n => (if is_wide (GetType c) then 2 else 1) + n)%nat 0%nat chars.

Lemma words_of_length c j : length (words_of c j) = (if is_wide (GetType c) then 2 else 1)%nat.
Proof. unfold words_of. by destruct (is_wide _). Qed.

Lemma all_words_length chars args : length args = length chars -> length (all_words chars args) = slots chars.
Proof.
  revert args. induction chars as [|c chars IH]; intros [|j args] Hl; try done. cbn.
  rewrite length_app, words_of_length, IH; [done|by injection Hl].
Qed.

Lemma char_L_type c : c ∈ param_chars -> (c =? chr "L") = negb (is_primitive (GetType c)).
Proof. intros Hc. char_case Hc Ht; rewrite Ht, Hc; reflexivity. Qed.

(** One argument of the loop, in terms of the value it is accepted as. *)
Lemma append_objects_step h c cls arg chars classes args a :
  c ∈ param_chars -> heap_ok h -> arg = 0 \/ is_Some (h !! arg) ->
  append_objects h (c :: chars) (cls :: classes) (arg :: args) a =
  match accept h c cls arg with
  | Some j => a ← append_value c j a; append_objects h chars classes args a
  | None => Done (inr IllegalArgument)
  end.
Proof.
  intros Hc Hh Harg. cbn [append_objects]. unfold accept.
  assert (c = chr "L" -> append_value c arg a = Append arg a) as HL.
  { intros ->. apply (Append_cong (uwrap 32 arg)). by rewrite (uwrap_small 32 (uwrap _ _)) by (apply uwrap_range; lia). }
  destruct (Z.eqb_spec arg 0) as [->|Hnz]; destruct (Z.eqb_spec c (chr "L")) as [Ec|Ec]; cbn [andb negb].
  - by rewrite HL.
  - done.
  - destruct Harg as [->|[o Ho]]; [done|]. rewrite Ho. cbn. by destruct (cls o); [rewrite HL|].
  - destruct Harg as [->|[o Ho]]; [done|]. rewrite Ho. cbn [deref mbind cres_bind option_bind].
    pose proof (char_L_type c Hc) as Hp. rewrite (proj2 (Z.eqb_neq _ _) Ec) in Hp.
    destruct (is_primitive (GetType c)); [|done]. destruct o as [src v|]; [|done].
    rewrite append_box_widen by (done || by eapply Hh). by destruct (widen _ _ _).
Qed.

Lemma append_objects_ok h chars classes args a ws :
  Forall (fun c => c ∈ param_chars) chars -> heap_ok h ->
  length classes = length chars -> length args = length chars ->
  Forall (fun arg => arg = 0 \/ is_Some (h !! arg)) args ->
  holds a ws -> (length ws + slots chars <= length (arg_array_ a))%nat ->
  match accept_all h chars classes args with
  | Some js => length js = length chars /\ exists a', append_objects h chars classes args a = Done (inl a') /\
      holds a' (ws ++ all_words chars js) /\ same_array a a'
  | None => append_objects h chars classes args a = Done (inr IllegalArgument)
  end.
Proof.
  intros Hc Hh. revert classes args a ws.
  induction Hc as [|c chars Hc _ IH]; intros [|cls classes] [|arg args] a ws Hl1 Hl2 Hargs Ha Hr; try done.
  { split; [done|]. exists a. by rewrite app_nil_r. }
  apply Forall_cons in Hargs as [Harg Hargs].
  rewrite append_objects_step by done. cbn [accept_all slots fold_right] in *.
  destruct (accept h c cls arg) as [j|]; [|done]. cbn [mbind option_bind].
  destruct (append_value_ok c j a ws Hc Ha) as (a1 & -> & Hh1 & Hs1).
  { rewrite words_of_length. lia. }
  cbn [cres_bind mbind]. specialize (IH classes args a1 (ws ++ words_of c j)).
  destruct (accept_all h chars classes args) as [js|]; cbn.
  - destruct IH as (Hlj & a2 & -> & Hh2 & Hs2); [by injection Hl1|by injection Hl2|done|done| |].
    + destruct Hs1 as [_ ->]. rewrite length_app, words_of_length. unfold slots. lia.
    + rewrite Hlj. split; [done|]. exists a2. rewrite app_assoc. eauto using same_array_trans.
  - apply IH; [by injection Hl1|by injection Hl2|done|done|].
    destruct Hs1 as [_ ->]. rewrite length_app, words_of_length. unfold slots. lia.
Qed.

Lemma boxed_value `{Boxing} c j h r h' : c ∈ param_chars -> c <> chr "L" ->
  BoxPrimitive (GetType c) j h = Some (r, h') ->
  h ⊆ h' /\ h' !! r = Some (Box (GetType c) (java_value (GetType c) j)).
Proof.
  intros Hc HL E.
  assert (exists w, valueOf (GetType c) w h = Some (r, h') /\
            java_value (GetType c) w = java_value (GetType c) j) as (w & Hw & <-).
  - char_case Hc Ht; rewrite Ht in *; try done; eexists; (split; [exact E|]); cbn [java_value];
      unfold get_z, get_b, get_c, get_s, get_i, get_f, get_j, get_d;
      first [apply swrap_cong; [lia|] | unfold uwrap at 1];
      rewrite ?uwrap_mod by lia; try done; unfold uwrap;
      first [by rewrite swrap_mod by lia
            | rewrite <- (mod_pow_le (swrap _ _) _ 32), swrap_mod, mod_pow_le by lia; done].
  - apply valueOf_ok in Hw as (_ & Hw & Hsub). done.
Qed.

(** The references that the handler gets, for the jvalues that it reads. *)
Lemma box_arguments_ok `{Boxing} `{LocalRefs} chars js h rs h' : Forall (fun c => c ∈ param_chars) chars ->
  length js = length chars -> box_arguments chars js h = Some (rs, h') ->
  h ⊆ h' /\ Forall3 (fun c x r => if c =? chr "L" then r = x else h' !! r = Some (Box (GetType c) x))
              chars (zip_with arg_value chars js) rs.
Proof.
  intros Hc. revert js h rs h'. induction Hc as [|c chars Hc _ IH]; intros [|j js] h rs h' Hl E; try done.
  { injection E as <- <-. split; [done|constructor]. }
  cbn [box_arguments] in E.
  destruct (if c =? chr "L" then _ else _) as [[r h1]|] eqn:E1; [|done]. cbn in E.
  destruct (box_arguments chars js h1) as [[rs' h2]|] eqn:E2; [|done]. cbn in E. injection E as <- <-.
  destruct (IH js h1 rs' h2 ltac:(by injection Hl) E2) as [Hsub HF].
  destruct (Z.eqb_spec c (chr "L")) as [->|HL].
  - injection E1 as <- <-. split; [done|]. by constructor.
  - apply boxed_value in E1 as [Hs1 E1]; [|done|done]. split; [by transitivity h1|].
    constructor; [|done]. unfold arg_value. destruct (Z.eqb_spec c (chr "L")); [done|]. by eapply lookup_weaken.
Qed.

(** What becomes of an argument: a reference stays, a box becomes a box of the
    parameter's type with the widened value. *)
Definition passed (h h' : heap) (c arg r : Z) : Prop :=
  if c =? chr "L" then r = arg
  else exists src v w, h !! arg = Some (Box src v) /\ widen (GetType c) src v = Some w /\
         h' !! r = Some (Box (GetType c) (java_value (GetType c) w)).

Lemma accept_passed h h' chars classes args js rs :
  Forall (fun c => c ∈ param_chars) chars -> length classes = length chars -> length args = length chars ->
  Forall (in_u 32) args -> accept_all h chars classes args = Some js ->
  Forall3 (fun c x r => if c =? chr "L" then r = x else h' !! r = Some (Box (GetType c) x))
    chars (zip_with (fun c j => java_value (GetType c) j) chars js) rs ->
  Forall3 (passed h h') chars args rs.
Proof.
  intros Hc. revert classes args js rs.
  induction Hc as [|c chars Hc _ IH]; intros [|cls classes] [|arg args] js rs Hl1 Hl2 Hu E HF; try done.
  { injection E as <-. inversion HF. constructor. }
  cbn [accept_all] in E. destruct (accept h c cls arg) as [j|] eqn:Ej; [|done]. cbn in E.
  destruct (accept_all h chars classes args) as [js'|] eqn:Ejs; [|done]. cbn in E. injection E as <-.
  apply Forall_cons in Hu as [Hu Hus]. inversion HF as [|? ? ? ? ? r Hr HF']; subst.
  constructor; [|eapply (IH classes); eauto]. unfold passed, accept in *.
  destruct (Z.eqb_spec c (chr "L")) as [->|HL].
  - rewrite Hr. change (uwrap 32 j = arg).
    assert (j = arg) as ->; [|by apply uwrap_small].
    destruct (Z.eqb_spec arg 0); [congruence|]. destruct (h !! arg) as [o|]; [|done]. cbn in Ej.
    destruct (cls o); congruence.
  - destruct (arg =? 0); [done|].
    destruct (h !! arg) as [[src v|]|]; cbn in Ej; try done. eauto 6.
Qed.

(** The arguments of a reflective call and what the handler makes of them. *)
Lemma reflective_arguments `{Boxing} `{LocalRefs} method pad saved above junk junk' receiver r chars classes args h
    (Hsaved : length saved = 7%nat) (Habove : (3 <= length above)%nat)
    (Hchars : Forall (fun c => c ∈ param_chars) chars) (Hheap : heap_ok h)
    (Hclasses : length classes = length chars) (Hargs : length args = length chars)
    (Hlive : Forall (fun arg => arg = 0 \/ is_Some (h !! arg)) args) (Hu : Forall (in_u 32) args) :
  match accept_all h chars classes args with
  | None => BuildArgArrayFromObjectArray h receiver classes args (new_ArgArray junk (r :: chars)) =
      Done (inr IllegalArgument)
  | Some _ => exists a this vs,
      BuildArgArrayFromObjectArray h receiver classes args (new_ArgArray junk (r :: chars)) = Done (inl a) /\
      VisitArguments arm (call_frame method pad saved above a) junk' (receiver =? 0) (r :: chars) =
        Done (this ++ vs) /\ length this = (if (receiver =? 0)%Z then 0 else 1)%nat /\
      length vs = length args /\
      forall rs h', box_arguments chars vs h = Some (rs, h') -> h ⊆ h' /\ Forall3 (passed h h') chars args rs
  end.
Proof.
  destruct (receiver_ok junk r chars receiver) as (a0 & E0 & Hh0 & Hs0 & Hl0).
  pose proof (append_objects_ok h chars classes args a0 _ Hchars Hheap Hclasses Hargs Hlive Hh0) as Ha.
  unfold BuildArgArrayFromObjectArray. rewrite E0. cbn [mbind cres_bind]. rewrite Hs0. cbn [new_ArgArray shorty_ drop].
  assert (length (receiver_words receiver) + slots chars <= length (arg_array_ a0))%nat as Hroom.
  { rewrite Hl0. cbn [arg_array_ new_ArgArray]. rewrite length_replicate.
    pose proof (arg_array_room r chars args Hchars). rewrite all_words_length in * by done.
    unfold receiver_words. destruct (receiver =? 0); cbn; lia. }
  destruct (accept_all h chars classes args) as [js|] eqn:Ejs; [|by apply Ha].
  destruct (Ha Hroom) as (Hlj & a & Ea & Hh & _).
  destruct (visit_filled method pad saved above junk' a receiver r chars js) as (this & vs & Hv & Ht & Hl & Hx); [done..|].
  exists a, this, vs. split; [done|]. split; [done|].
  split; [apply (f_equal length) in Ht; rewrite length_map in Ht; rewrite Ht; by destruct (receiver =? 0)|]. split; [congruence|].
  intros rs h' Hb. apply box_arguments_ok in Hb as [Hsub HF]; [|done|congruence].
  split; [done|]. rewrite Hx in HF. by eapply accept_passed.
Qed.

(** C15: A reflective call of a hooked method.  Every argument is checked against
    its parameter; if one does not fit, the call ends with an
    IllegalArgumentException.  Otherwise the handler of the method gets, for each
    parameter, the same reference or a box of the parameter's type with the value
    that Java widens the argument to; nothing is read or written out of bounds. *)
Theorem reflective_arguments_reach_handler `{Boxing} `{LocalRefs} method pad saved above junk junk' receiver r chars classes args h
    (Hsaved : length saved = 7%nat) (Habove : (3 <= length above)%nat)
    (Hchars : Forall (fun c => c ∈ param_chars) chars) (Hheap : heap_ok h)
    (Hclasses : length classes = length chars) (Hargs : length args = length chars)
    (Hlive : Forall (fun arg => arg = 0 \/ is_Some (h !! arg)) args) (Hu : Forall (in_u 32) args) :
  match accept_all h chars classes args with
  | None => BuildArgArrayFromObjectArray h receiver classes args (new_ArgArray junk (r :: chars)) =
      Done (inr IllegalArgument)
  | Some _ => exists a this vs,
      BuildArgArrayFromObjectArray h receiver classes args (new_ArgArray junk (r :: chars)) = Done (inl a) /\
      VisitArguments arm (call_frame method pad saved above a) junk' (receiver =? 0) (r :: chars) =
        Done (this ++ vs) /\ length this = (if (receiver =? 0)%Z then 0 else 1)%nat /\
      length vs = length args /\
      forall rs h', box_arguments chars vs h = Some (rs, h') -> h ⊆ h' /\ Forall3 (passed h h') chars args rs
  end.
Proof. by apply reflective_arguments. Qed.

(** Boxes at addresses that are not in use. *)
Definition demo_valueOf (t : PrimType) (w : Z) (h : heap) : option (Z * heap) :=
  let a := 1 + fold_right Z.max 0 (map fst (map_to_list h)) in
  if decide (h !! a = None) then Some (a, <[a := Box t (java_value t w)]> h) else None.

Lemma fold_max_nonneg l : 0 <= fold_right Z.max 0 l.
Proof. induction l; cbn; lia. Qed.

Lemma demo_valueOf_ok t w h a h' : demo_valueOf t w h = Some (a, h') ->
  a <> 0 /\ h' !! a = Some (Box t (java_value t w)) /\ h ⊆ h'.
Proof.
  unfold demo_valueOf. pose proof (fold_max_nonneg (map fst (map_to_list h))).
  case_decide as D; [|done]. intros [= <- <-]. split; [lia|]. rewrite lookup_insert_eq.
  split; [done|by apply insert_subseteq].
Qed.
Definition demo_boxing : Boxing := {| valueOf := demo_valueOf; valueOf_ok := demo_valueOf_ok |}.

(** A heap with an Integer, a Byte and a string. *)
Definition demo_heap : heap := {[ 16 := Box kPrimInt 7; 32 := Box kPrimByte (-2); 48 := Plain 5 ]}.

Lemma reflective_arguments_reach_handler_witness :
  exists a, BuildArgArrayFromObjectArray demo_heap 64 [fun _ => true; fun _ => true; fun _ => true; fun _ => true]
    [16; 32; 48; 0] (new_ArgArray 99 (lit "VIJLL")) = Done (inl a).
Proof.
  pose proof (@reflective_arguments_reach_handler demo_boxing demo_refs 1 0 (replicate 7 8) (replicate 6 9) 99 98 64 (chr "V")
    (lit "IJLL") [fun _ => true; fun _ => true; fun _ => true; fun _ => true] [16; 32; 48; 0] demo_heap) as E.
  change (accept_all demo_heap (lit "IJLL") _ _) with (Some [7; -2; 48; 0]) in E.
  destruct E as (a & _ & _ & E & _); [done|cbn; lia| | |done|done| | |by exists a].
  - repeat constructor.
  - intros x t v. unfold demo_heap. intros Hx.
    repeat (apply lookup_insert_Some in Hx as [[_ [= <- <-]]|[_ Hx]]; [reflexivity|]).
    apply lookup_singleton_Some in Hx as [_ Hx]. discriminate Hx.
  - do 4 (apply Forall_cons_2; [first [by left | right; by eexists]|]). apply Forall_nil_2.
  - repeat constructor; unfold in_u; lia.
Defined.

(** ** Results *)

Lemma set_low_0 w v : set_low w 0 v = uwrap w v.
Proof. unfold set_low. change (uwrap 64 0) with 0. rewrite Zdiv_0_l. lia. Qed.

(** Writing a member and reading it back, for members and values of any size. *)
Lemma get_SetJ x : get_j (SetJ x) = get_j x /\ get_d (SetJ x) = get_d x.
Proof.
  unfold get_j, get_d, SetJ. split; [apply swrap_cong; [lia|]|unfold uwrap at 1]; by rewrite uwrap_mod by lia.
Qed.
Lemma get_Set_narrow x : get_s (SetS 0 x) = get_s x /\ get_i (SetI 0 x) = get_i x /\ get_f (SetF 0 x) = get_f x.
Proof.
  unfold get_s, get_i, get_f, SetS, SetI, SetF. rewrite !set_low_0.
  split; [|split]; [apply swrap_cong; [lia|]..|unfold uwrap at 1]; by rewrite ?uwrap_mod, ?swrap_mod by lia.
Qed.

Lemma unbox_int src v : canonical src v ->
  match src with
  | kPrimByte | kPrimChar | kPrimShort | kPrimInt => get_i (unbox src v) = v
  | kPrimLong => get_j (unbox src v) = v
  | kPrimFloat => get_f (unbox src v) = v
  | _ => True
  end.
Proof.
  intros Hv. pose proof (canonical_range _ _ Hv) as Hr. pose proof (get_small _ _ Hv kPrimInt) as Hi.
  unfold canonical, java_value in Hv. destruct src; try done; cbn [unbox]; unfold SetB, SetC, SetS.
  - unfold get_b in Hv. rewrite Hv. change (get_i (SetI 0 v) = v). by rewrite (proj1 (proj2 (get_Set_narrow v))).
  - rewrite set_low_0. unfold get_c in Hv. by rewrite Hv.
  - unfold get_s in Hv. rewrite Hv. change (get_i (SetI 0 v) = v). by rewrite (proj1 (proj2 (get_Set_narrow v))).
  - by rewrite (proj1 (proj2 (get_Set_narrow v))).
  - by rewrite (proj1 (get_SetJ v)).
  - by rewrite (proj2 (proj2 (get_Set_narrow v))).
Qed.

Lemma unbox_same t v : is_primitive t = true -> canonical t v ->
  java_value t (SetJ (get_j (unbox t v))) = v.
Proof.
  intros Hp Hv. rewrite <- Hv at 2. unfold SetJ. destruct (get_j_words (unbox t v)) as [_ ->].
  destruct t; try discriminate Hp; cbn [java_value unbox];
    unfold get_z, get_b, get_c, get_s, get_i, get_f, get_j, get_d, SetZ, SetB, SetC, SetS, SetI, SetF, SetJ;
    rewrite ?set_low_0;
    first [apply swrap_cong; [lia|] | unfold uwrap at 1]; by rewrite ?uwrap_mod, ?swrap_mod, ?uwrap_mod by lia.
Qed.

(** The two tables of the runtime for widening, of reflective arguments and of
    results, are the same. *)
Lemma convert_widen for_result src dst v : is_primitive src = true -> is_primitive dst = true -> canonical src v ->
  match widen dst src v with
  | Some w => exists j, ConvertPrimitiveValue for_result src dst (unbox src v) = inl j /\
      java_value dst j = java_value dst w
  | None => ConvertPrimitiveValue for_result src dst (unbox src v) =
      inr (if for_result then ClassCast else IllegalArgument)
  end.
Proof.
  intros Hs Hd Hv. pose proof (unbox_same src v Hs Hv) as Hsame. pose proof (unbox_int src v Hv) as Hi.
  unfold canonical in Hv.
  destruct src; try discriminate Hs; destruct dst; try discriminate Hd;
    cbn -[uwrap swrap float_of_int double_of_int double_of_float SetJ unbox] in *; try reflexivity;
    (eexists; split; [reflexivity|]); rewrite ?Hi;
    first [ rewrite Hsame; symmetry; exact Hv
          | apply get_Set_narrow | apply get_SetJ | apply (get_Set_narrow v)].
Qed.

(** Only the Java value of an argument matters. *)
Lemma append_value_cong c j w a : c ∈ param_chars ->
  java_value (GetType c) j = java_value (GetType c) w -> append_value c j a = append_value c w a.
Proof.
  intros Hc. unfold append_value.
  char_case Hc Ht; rewrite Ht; cbn [is_wide java_value]; intros E; try (by rewrite E).
  - apply Append_cong. unfold get_i, uwrap, get_f, uwrap in *. by rewrite !swrap_mod by lia.
  - apply AppendWide_cong. unfold get_j, uwrap, get_d, uwrap in *. by rewrite !swrap_mod by lia.
Qed.

(** The runtime has two tables of widening conversions, the macros that
    unbox reflective arguments and [ConvertPrimitiveValue] for results and
    fields.  They accept the same pairs of types, and pass the same value. *)
Theorem widening_tables_agree `{LocalRefs} c src v a (Hc : c ∈ param_chars) (HL : c <> chr "L")
    (Hsrc : is_primitive src = true) (Hv : canonical src v) :
  append_box (GetType c) src v a =
  match ConvertPrimitiveValue false src (GetType c) (unbox src v) with
  | inl j => Some (append_jvalue c j a)
  | inr _ => None
  end.
Proof.
  rewrite append_box_widen by done.
  assert (is_primitive (GetType c) = true) as Hd.
  { apply negb_false_iff. rewrite <- char_L_type by done. by apply Z.eqb_neq. }
  pose proof (convert_widen false src (GetType c) v Hsrc Hd Hv) as E.
  destruct (widen _ _ _) as [w|]; [|by rewrite E]. destruct E as (j & -> & Ej).
  f_equal. rewrite append_decoded by done. apply append_value_cong; [done|]. rewrite raw_java. unfold arg_value.
  by rewrite (proj2 (Z.eqb_neq _ _) HL).
Qed.

Lemma widening_tables_agree_witness :
  append_box (GetType (chr "J")) kPrimByte (-3) (new_ArgArray 0 (lit "VJ")) =
  Some (@append_jvalue demo_refs (chr "J") (SetJ (-3)) (new_ArgArray 0 (lit "VJ"))).
Proof.
  pose proof (@widening_tables_agree demo_refs (chr "J") kPrimByte (-3) (new_ArgArray 0 (lit "VJ"))) as E.
  apply E; [by repeat constructor|done|done|reflexivity].
Defined.

(** Boxing a value and unboxing the result gives the value back.  The box
    that [BoxPrimitive] makes of a value of a primitive type is accepted as a
    result of that type and has the same Java value; a null result is a
    NullPointerException. *)
Theorem box_unbox_roundtrip `{Boxing} c j h r h' (Hc : c ∈ param_chars) (HL : c <> chr "L")
    (Hbox : BoxPrimitive (GetType c) j h = Some (r, h')) :
  UnboxPrimitiveForResult h' 0 (Primitive_ (GetType c)) = Done (inr NullPointer) /\
  exists j', UnboxPrimitiveForResult h' r (Primitive_ (GetType c)) = Done (inl j') /\
    java_value (GetType c) j' = java_value (GetType c) j.
Proof.
  assert (is_primitive (GetType c) = true) as Hp.
  { apply negb_false_iff. rewrite <- char_L_type by done. by apply Z.eqb_neq. }
  assert (r <> 0) as Hr by (char_case Hc Ht; rewrite Ht in *; try done; by apply valueOf_ok in Hbox as (? & _)).
  apply boxed_value in Hbox as [_ Hb]; [|done|done].
  unfold UnboxPrimitiveForResult, UnboxPrimitive. rewrite bool_decide_eq_false_2 by (intros E; by rewrite E in Hp).
  split; [done|]. apply Z.eqb_neq in Hr as ->. rewrite Hb. cbn [deref mbind cres_bind]. rewrite Hp.
  assert (canonical (GetType c) (java_value (GetType c) j)) as Hcan.
  { unfold canonical, java_value, get_z, get_b, get_c, get_s, get_i, get_f, get_j, get_d, get_l.
    destruct (GetType c); try done; first [apply swrap_small; [lia|] | apply uwrap_small];
      first [apply swrap_range | apply uwrap_range]; lia. }
  exists (SetJ (get_j (unbox (GetType c) (java_value (GetType c) j)))). split; [|by apply unbox_same].
  unfold ConvertPrimitiveValue. by rewrite bool_decide_eq_true_2.
Qed.

Lemma box_unbox_roundtrip_witness : exists j',
  @UnboxPrimitiveForResult (<[1 := Box kPrimShort (-4)]> ∅) 1 (Primitive_ kPrimShort) = Done (inl j').
Proof.
  destruct (@box_unbox_roundtrip demo_boxing (chr "S") (-4) ∅ 1 (<[1 := Box kPrimShort (-4)]> ∅))
    as (_ & j' & E & _); [by repeat constructor|done|reflexivity|by exists j'].
Defined.
