(* ===== verification/DexItems.v ===== *)
(** * DexItems: class data of dex files (runtime/dex_file.h, dex_file.cc)

    [ClassData] is ClassDataItemIterator, which walks through the fields and the
    methods of a class.  The iterator is a record whose pointer is the list of
    bytes ahead of it.  It is proved against an encoder of the format, which the
    source does not have. *)

From S2P Require Import Prelude CLib Leb128 Dex.

(** The LEB128 bytes of a value. *)
Definition bytes_of (r : cres (list Z)) : list Z := match r with Done bs => bs | Fault _ => [] end.
Definition uleb (v : Z) : list Z := bytes_of (EncodeUnsignedLeb128 v).
Definition sleb (v : Z) : list Z := bytes_of (EncodeSignedLeb128 v).

Lemma decode_uleb v rest : in_u 32 v -> DecodeUnsignedLeb128 (uleb v ++ rest) = Done (v, rest).
Proof.
  intros Hv. unfold in_u in Hv. pose proof (encode_unsigned_cases v Hv) as (? & ? & ? & ? & ? & _ & _ & _ & _ & _ & _ & E).
  unfold uleb. rewrite E. by apply unsigned_decode.
Qed.
Lemma decode_sleb v rest : in_s 32 v -> DecodeSignedLeb128 (sleb v ++ rest) = Done (v, rest).
Proof.
  intros Hv. pose proof (encode_signed_cases v Hv) as (? & ? & ? & ? & ? & _ & _ & _ & _ & _ & _ & E).
  unfold sleb. rewrite E. by apply signed_decode.
Qed.

Module ClassData.

(** ** The iterator *)

Record ClassDataHeader := {
  static_fields_size_ : Z; instance_fields_size_ : Z; direct_methods_size_ : Z; virtual_methods_size_ : Z
}.
Record ClassDataField := { field_idx_delta_ : Z; field_flags_ : Z }.
Record ClassDataMethod := { method_idx_delta_ : Z; method_flags_ : Z; code_off_ : Z }.

Record It := {
  header_ : ClassDataHeader;
  pos_ : Z;
  ptr_pos_ : list Z;
  last_idx_ : Z;
  field_ : ClassDataField;
  method_ : ClassDataMethod
}.

Definition NumInstanceFields (it : It) : Z := instance_fields_size_ (header_ it).
Definition NumDirectMethods (it : It) : Z := direct_methods_size_ (header_ it).
Definition NumVirtualMethods (it : It) : Z := virtual_methods_size_ (header_ it).

Definition EndOfStaticFieldsPos (it : It) : Z := static_fields_size_ (header_ it).
Definition EndOfInstanceFieldsPos (it : It) : Z := u32 (EndOfStaticFieldsPos it + instance_fields_size_ (header_ it)).
Definition EndOfDirectMethodsPos (it : It) : Z := u32 (EndOfInstanceFieldsPos it + direct_methods_size_ (header_ it)).
Definition EndOfVirtualMethodsPos (it : It) : Z := u32 (EndOfDirectMethodsPos it + virtual_methods_size_ (header_ it)).

Definition HasNextStaticField (it : It) : bool := pos_ it <? EndOfStaticFieldsPos it.
Definition HasNextInstanceField (it : It) : bool :=
  (EndOfStaticFieldsPos it <=? pos_ it) && (pos_ it <? EndOfInstanceFieldsPos it).
Definition HasNextDirectMethod (it : It) : bool :=
  (EndOfInstanceFieldsPos it <=? pos_ it) && (pos_ it <? EndOfDirectMethodsPos it).
Definition HasNextVirtualMethod (it : It) : bool :=
  (EndOfDirectMethodsPos it <=? pos_ it) && (pos_ it <? EndOfVirtualMethodsPos it).
Definition HasNext (it : It) : bool := pos_ it <? EndOfVirtualMethodsPos it.

Definition GetMemberIndex (it : It) : Z :=
  if pos_ it <? EndOfInstanceFieldsPos it then u32 (last_idx_ it + field_idx_delta_ (field_ it))
  else u32 (last_idx_ it + method_idx_delta_ (method_ it)).
Definition GetRawMemberAccessFlags (it : It) : Z :=
  if pos_ it <? EndOfInstanceFieldsPos it then field_flags_ (field_ it) else method_flags_ (method_ it).
Definition GetMethodCodeItemOffset (it : It) : Z := code_off_ (method_ it).

(** The bits of the access flags that are looked at. *)
Definition kAccStatic : Z := 0x0008.
Definition kAccInterface : Z := 0x0200.
Definition kAccConstructor : Z := 0x00010000.

Inductive InvokeType := kStatic | kDirect | kVirtual | kSuper | kInterface.

Definition GetMethodInvokeType (class_def_flags : Z) (it : It) : InvokeType :=
  let set (flags bit : Z) := negb (Z.land flags bit =? 0) in
  if HasNextDirectMethod it then
    if set (GetRawMemberAccessFlags it) kAccStatic then kStatic else kDirect
  else if set class_def_flags kAccInterface then kInterface
  else if set (GetRawMemberAccessFlags it) kAccConstructor then kSuper else kVirtual.

(** [CHECK(!HasNext())]. *)
Definition EndDataPointer (it : It) : cres (list Z) := if HasNext it then Fault Aborted else Done (ptr_pos_ it).

Definition ReadClassDataHeader (ptr : list Z) : cres (ClassDataHeader * list Z) :=
  '(s, ptr) ← DecodeUnsignedLeb128 ptr;
  '(i, ptr) ← DecodeUnsignedLeb128 ptr;
  '(d, ptr) ← DecodeUnsignedLeb128 ptr;
  '(v, ptr) ← DecodeUnsignedLeb128 ptr;
  Done ({| static_fields_size_ := s; instance_fields_size_ := i; direct_methods_size_ := d;
           virtual_methods_size_ := v |}, ptr).

(** The warning for a duplicate is not modelled. *)
Definition ReadClassDataField (it : It) : cres It :=
  '(delta, ptr) ← DecodeUnsignedLeb128 (ptr_pos_ it);
  '(flags, ptr) ← DecodeUnsignedLeb128 ptr;
  Done {| header_ := header_ it; pos_ := pos_ it; ptr_pos_ := ptr; last_idx_ := last_idx_ it;
          field_ := {| field_idx_delta_ := delta; field_flags_ := flags |}; method_ := method_ it |}.
Definition ReadClassDataMethod (it : It) : cres It :=
  '(delta, ptr) ← DecodeUnsignedLeb128 (ptr_pos_ it);
  '(flags, ptr) ← DecodeUnsignedLeb128 ptr;
  '(code, ptr) ← DecodeUnsignedLeb128 ptr;
  Done {| header_ := header_ it; pos_ := pos_ it; ptr_pos_ := ptr; last_idx_ := last_idx_ it; field_ := field_ it;
          method_ := {| method_idx_delta_ := delta; method_flags_ := flags; code_off_ := code |} |}.

(** The constructor; [None] is a null pointer. *)
Definition new_It (raw_class_data_item : option (list Z)) : cres It :=
  match raw_class_data_item with
  | None => Fault Aborted
  | Some ptr =>
      '(header, ptr) ← ReadClassDataHeader ptr;
      let it := {| header_ := header; pos_ := 0; ptr_pos_ := ptr; last_idx_ := 0;
                   field_ := {| field_idx_delta_ := 0; field_flags_ := 0 |};
                   method_ := {| method_idx_delta_ := 0; method_flags_ := 0; code_off_ := 0 |} |} in
      if 0 <? EndOfInstanceFieldsPos it then ReadClassDataField it
      else if 0 <? EndOfVirtualMethodsPos it then ReadClassDataMethod it
      else Done it
  end.

Definition set_pos (it : It) (pos : Z) : It :=
  {| header_ := header_ it; pos_ := pos; ptr_pos_ := ptr_pos_ it; last_idx_ := last_idx_ it;
     field_ := field_ it; method_ := method_ it |}.
Definition set_last_idx (it : It) (idx : Z) : It :=
  {| header_ := header_ it; pos_ := pos_ it; ptr_pos_ := ptr_pos_ it; last_idx_ := idx;
     field_ := field_ it; method_ := method_ it |}.

Definition Next (it : It) : cres It :=
  let it := set_pos it (u32 (pos_ it + 1)) in
  if pos_ it <? EndOfStaticFieldsPos it then ReadClassDataField (set_last_idx it (GetMemberIndex it))
  else if (pos_ it =? EndOfStaticFieldsPos it) && (0 <? NumInstanceFields it) then
    ReadClassDataField (set_last_idx it 0)
  else if pos_ it <? EndOfInstanceFieldsPos it then ReadClassDataField (set_last_idx it (GetMemberIndex it))
  else if (pos_ it =? EndOfInstanceFieldsPos it) && (0 <? NumDirectMethods it) then
    ReadClassDataMethod (set_last_idx it 0)
  else if pos_ it <? EndOfDirectMethodsPos it then ReadClassDataMethod (set_last_idx it (GetMemberIndex it))
  else if (pos_ it =? EndOfDirectMethodsPos it) && (0 <? NumVirtualMethods it) then
    ReadClassDataMethod (set_last_idx it 0)
  else if pos_ it <? EndOfVirtualMethodsPos it then ReadClassDataMethod (set_last_idx it (GetMemberIndex it))
  else Done it.

(** ** Class data, and walking through it *)

Inductive kind := StaticField | InstanceField | DirectMethod | VirtualMethod.
Record member := { m_idx : Z; m_flags : Z; m_code : Z }.
Definition is_method (k : kind) : bool := match k with DirectMethod | VirtualMethod => true | _ => false end.

(** What the iterator is at. *)
Definition current (it : It) : kind * member :=
  let k := if HasNextStaticField it then StaticField else if HasNextInstanceField it then InstanceField
           else if HasNextDirectMethod it then DirectMethod else VirtualMethod in
  (k, {| m_idx := GetMemberIndex it; m_flags := GetRawMemberAccessFlags it;
         m_code := if is_method k then GetMethodCodeItemOffset it else 0 |}).

(** [for (; it.HasNext(); it.Next())]. *)
Fixpoint walk (fuel : nat) (it : It) : cres (list (kind * member) * It) :=
  if HasNext it then
    match fuel with
    | O => Fault OutOfFuel
    | S fuel => next ← Next it; '(ms, it') ← walk fuel next; Done (current it :: ms, it')
    end
  else Done ([], it).

Record class_data := {
  statics : list member; instances : list member; directs : list member; virtuals : list member
}.

(** A member is written as the difference of its index to that of the member
    before it of its kind. *)
Definition with_prev (k : kind) (l : list member) : list (Z * (kind * member)) :=
  zip_with (fun p m => (p, (k, m))) (0 :: map m_idx l) l.
Definition members (c : class_data) : list (Z * (kind * member)) :=
  with_prev StaticField (statics c) ++ with_prev InstanceField (instances c) ++
  with_prev DirectMethod (directs c) ++ with_prev VirtualMethod (virtuals c).
Definition encode_member (e : Z * (kind * member)) : list Z :=
  let '(p, (k, m)) := e in
  uleb (u32 (m_idx m - p)) ++ uleb (m_flags m) ++ (if is_method k then uleb (m_code m) else []).
Definition size {A} (l : list A) : Z := Z.of_nat (length l).
Definition encode (c : class_data) : list Z :=
  uleb (size (statics c)) ++ uleb (size (instances c)) ++ uleb (size (directs c)) ++ uleb (size (virtuals c)) ++
  concat (map encode_member (members c)).

Definition member_ok (k : kind) (m : member) : Prop :=
  in_u 32 (m_idx m) /\ in_u 32 (m_flags m) /\ in_u 32 (m_code m) /\ (is_method k = false -> m_code m = 0).
Definition class_ok (c : class_data) : Prop :=
  Forall (member_ok StaticField) (statics c) /\ Forall (member_ok InstanceField) (instances c) /\
  Forall (member_ok DirectMethod) (directs c) /\ Forall (member_ok VirtualMethod) (virtuals c) /\
  size (statics c) + size (instances c) + size (directs c) + size (virtuals c) < 2 ^ 32.

(** ** The members by position *)

Lemma with_prev_length k l : length (with_prev k l) = length l.
Proof. unfold with_prev. rewrite length_zip_with. cbn [length]. rewrite length_map. lia. Qed.

Lemma with_prev_lookup k l j p k' m : with_prev k l !! j = Some (p, (k', m)) ->
  k' = k /\ l !! j = Some m /\ (j = 0%nat -> p = 0) /\
  (forall i, j = S i -> exists m', l !! i = Some m' /\ p = m_idx m').
Proof.
  unfold with_prev. rewrite lookup_zip_with. intros H.
  destruct ((0 :: map m_idx l) !! j) as [q|] eqn:Eq; [|done]. cbn in H.
  destruct (l !! j) as [m'|] eqn:El; [|done]. injection H as -> -> ->. split_and!; [done|done| |].
  - intros ->. by injection Eq.
  - intros i ->. change (map m_idx l !! i = Some p) in Eq. change (map m_idx l) with (m_idx <$> l) in Eq.
    rewrite list_lookup_fmap in Eq. destruct (l !! i) as [m''|] eqn:Ei; [|done]. injection Eq as <-. eauto.
Qed.

Section Walk.
Context (c : class_data) (rest : list Z) (Hc : class_ok c).

#[local] Abbreviation ns := (size (statics c)).
#[local] Abbreviation ni := (size (instances c)).
#[local] Abbreviation nd := (size (directs c)).
#[local] Abbreviation nv := (size (virtuals c)).

Definition the_header : ClassDataHeader :=
  {| static_fields_size_ := ns; instance_fields_size_ := ni; direct_methods_size_ := nd; virtual_methods_size_ := nv |}.

Lemma ends it : header_ it = the_header ->
  EndOfStaticFieldsPos it = ns /\ EndOfInstanceFieldsPos it = ns + ni /\
  EndOfDirectMethodsPos it = ns + ni + nd /\ EndOfVirtualMethodsPos it = ns + ni + nd + nv.
Proof.
  intros E. destruct Hc as (_ & _ & _ & _ & Ht).
  unfold EndOfVirtualMethodsPos, EndOfDirectMethodsPos, EndOfInstanceFieldsPos, EndOfStaticFieldsPos.
  rewrite E. cbn [the_header static_fields_size_ instance_fields_size_ direct_methods_size_ virtual_methods_size_].
  unfold size in *. split_and!; [done|..]; rewrite !uwrap_small by (unfold in_u; lia || (rewrite !uwrap_small by (unfold in_u; lia || (rewrite uwrap_small by (unfold in_u; lia); lia)); lia)); lia.
Qed.

(** The positions of the members of a kind. *)
Definition of_kind (kd : kind) : list member :=
  match kd with
  | StaticField => statics c | InstanceField => instances c | DirectMethod => directs c | VirtualMethod => virtuals c
  end.
Definition start (kd : kind) : nat :=
  match kd with
  | StaticField => 0
  | InstanceField => length (statics c)
  | DirectMethod => length (statics c) + length (instances c)
  | VirtualMethod => length (statics c) + length (instances c) + length (directs c)
  end.

Lemma members_start kd j : (j < length (of_kind kd))%nat ->
  members c !! (start kd + j)%nat = with_prev kd (of_kind kd) !! j.
Proof.
  intros Hj. unfold members. destruct kd; cbn [start of_kind] in *;
    repeat rewrite lookup_app_r by (rewrite !with_prev_length; lia); rewrite ?with_prev_length;
    rewrite ?lookup_app_l by (rewrite with_prev_length; lia); f_equal; lia.
Qed.

Lemma members_at k p kd m : members c !! k = Some (p, (kd, m)) ->
  exists j, k = (start kd + j)%nat /\ with_prev kd (of_kind kd) !! j = Some (p, (kd, m)).
Proof.
  unfold members. intros H.
  apply lookup_app_Some in H as [H|[H1 H]]; [|apply lookup_app_Some in H as [H|[H2 H]];
    [|apply lookup_app_Some in H as [H|[H3 H]]]]; rewrite ?with_prev_length in *;
    pose proof (with_prev_lookup _ _ _ _ _ _ H) as (-> & _); eexists; (split; [|exact H]);
    cbn [start]; lia.
Qed.

Lemma kind_ok kd : Forall (member_ok kd) (of_kind kd).
Proof. destruct Hc as (H1 & H2 & H3 & H4 & _). by destruct kd. Qed.

(** The member at a position: its kind is that of the range, and the index before
    it that of the member before it, or 0 at the start of the range. *)
Lemma member_position k p kd m : members c !! k = Some (p, (kd, m)) ->
  member_ok kd m /\ in_u 32 p /\ (start kd <= k)%nat /\ (k < start kd + length (of_kind kd))%nat /\
  (k = start kd -> p = 0) /\
  (start kd <> k -> exists i p' m', k = S i /\ members c !! i = Some (p', (kd, m')) /\ p = m_idx m').
Proof.
  intros H. apply members_at in H as (j & -> & H). pose proof (with_prev_lookup _ _ _ _ _ _ H) as (_ & Hm & H0 & HS).
  pose proof (kind_ok kd) as Hall. pose proof (lookup_lt_Some _ _ _ Hm) as Hj.
  split; [by eapply Forall_lookup_1|]. destruct j as [|i].
  - rewrite (H0 eq_refl). split_and!; try done; lia.
  - destruct (HS i eq_refl) as (m' & Hm' & ->).
    assert (member_ok kd m') as Hok by by eapply Forall_lookup_1.
    split; [apply Hok|]. do 3 (split; [lia|]). intros _.
    destruct (lookup_lt_is_Some_2 (with_prev kd (of_kind kd)) i) as [[p' [kd' m'']] E]; [rewrite with_prev_length; lia|].
    pose proof (with_prev_lookup _ _ _ _ _ _ E) as (-> & Em & _). assert (m'' = m') as -> by congruence.
    exists (start kd + i)%nat, p', m'. split; [lia|]. rewrite members_start by lia. done.
Qed.

(** ** Reading one member *)

Definition holds (it : It) (k : nat) : Prop :=
  header_ it = the_header /\ pos_ it = Z.of_nat k /\
  ptr_pos_ it = concat (map encode_member (drop (S k) (members c))) ++ rest /\
  exists p kd m, members c !! k = Some (p, (kd, m)) /\ current it = (kd, m).

Lemma drop_member k e : members c !! k = Some e ->
  concat (map encode_member (drop k (members c))) ++ rest =
  encode_member e ++ concat (map encode_member (drop (S k) (members c))) ++ rest.
Proof. intros H. rewrite (drop_S _ _ _ H). cbn [map concat]. by rewrite <- (assoc_L (++)). Qed.

Lemma index_back p x : in_u 32 p -> in_u 32 x -> u32 (p + u32 (x - p)) = x.
Proof.
  intros Hp Hx. unfold u32, uwrap, in_u in *. rewrite Zplus_mod_idemp_r.
  replace (p + (x - p)) with x by lia. by apply Z.mod_small.
Qed.

Definition ready (it : It) (k : nat) (p : Z) : Prop :=
  header_ it = the_header /\ pos_ it = Z.of_nat k /\ last_idx_ it = p /\
  ptr_pos_ it = concat (map encode_member (drop k (members c))) ++ rest.

Lemma current_kind it k p kd m : header_ it = the_header -> pos_ it = Z.of_nat k ->
  members c !! k = Some (p, (kd, m)) ->
  HasNext it = true /\ (pos_ it <? EndOfInstanceFieldsPos it) = negb (is_method kd) /\
  (if HasNextStaticField it then StaticField else if HasNextInstanceField it then InstanceField
   else if HasNextDirectMethod it then DirectMethod else VirtualMethod) = kd.
Proof.
  intros Hh Hp Hm. destruct (ends it Hh) as (E1 & E2 & E3 & E4).
  destruct (member_position _ _ _ _ Hm) as (_ & _ & Hk & Hk' & _).
  unfold HasNext, HasNextStaticField, HasNextInstanceField, HasNextDirectMethod.
  rewrite E1, E2, E3, E4, Hp. unfold size in *.
  destruct kd; cbn [start of_kind is_method negb] in *;
    repeat match goal with
    | |- context [?a <? ?b] => destruct (Z.ltb_spec a b); try lia
    | |- context [?a <=? ?b] => destruct (Z.leb_spec a b); try lia
    end; cbn; done.
Qed.

Lemma read_field it k p kd m : ready it k p -> members c !! k = Some (p, (kd, m)) -> is_method kd = false ->
  exists it', ReadClassDataField it = Done it' /\ holds it' k.
Proof.
  intros (Hh & Hp & Hl & Hptr) Hm Hk. destruct (member_position _ _ _ _ Hm) as ((Hi & Hf & _ & Hcode) & Hpr & _).
  rewrite (drop_member _ _ Hm) in Hptr. cbn [encode_member] in Hptr. rewrite Hk, app_nil_r, <- !(assoc_L (++)) in Hptr.
  unfold ReadClassDataField. rewrite Hptr, decode_uleb by (apply uwrap_range; lia). cbn [mbind cres_bind].
  rewrite decode_uleb by done. cbn [mbind cres_bind]. eexists. split; [done|].
  match goal with |- holds ?it' _ => destruct (current_kind it' k p kd m Hh Hp Hm) as (_ & Ef & Ek) end.
  split; [done|]. split; [done|]. split; [done|]. exists p, kd, m. split; [done|].
  unfold current. rewrite Ek. unfold GetMemberIndex, GetRawMemberAccessFlags. rewrite Ef, Hk. cbn [negb].
  cbn [last_idx_ field_ field_idx_delta_ field_flags_]. rewrite Hl, index_back by done.
  specialize (Hcode Hk). destruct m as [? ? code]. cbn in *. by rewrite Hcode.
Qed.

Lemma read_method it k p kd m : ready it k p -> members c !! k = Some (p, (kd, m)) -> is_method kd = true ->
  exists it', ReadClassDataMethod it = Done it' /\ holds it' k.
Proof.
  intros (Hh & Hp & Hl & Hptr) Hm Hk. destruct (member_position _ _ _ _ Hm) as ((Hi & Hf & Hcode & _) & Hpr & _).
  rewrite (drop_member _ _ Hm) in Hptr. cbn [encode_member] in Hptr. rewrite Hk, <- !(assoc_L (++)) in Hptr.
  unfold ReadClassDataMethod. rewrite Hptr, decode_uleb by (apply uwrap_range; lia). cbn [mbind cres_bind].
  rewrite decode_uleb by done. cbn [mbind cres_bind]. rewrite decode_uleb by done. cbn [mbind cres_bind].
  eexists. split; [done|].
  match goal with |- holds ?it' _ => destruct (current_kind it' k p kd m Hh Hp Hm) as (_ & Ef & Ek) end.
  split; [done|]. split; [done|]. split; [done|]. exists p, kd, m. split; [done|].
  unfold current. rewrite Ek. unfold GetMemberIndex, GetRawMemberAccessFlags, GetMethodCodeItemOffset. rewrite Ef, Hk.
  cbn [negb last_idx_ method_ method_idx_delta_ method_flags_ code_off_]. rewrite Hl, index_back by done.
  by destruct m.
Qed.

(** ** Steps *)

Lemma index_now it k p kd m : holds it k -> members c !! k = Some (p, (kd, m)) -> GetMemberIndex it = m_idx m.
Proof.
  intros (_ & _ & _ & p' & kd' & m' & Hm' & Hcur) Hm. assert (m' = m) as -> by congruence.
  unfold current in Hcur. by injection Hcur as _ <-.
Qed.

Lemma last_holds it k : holds it k -> length (members c) = S k ->
  exists it', Next it = Done it' /\ HasNext it' = false /\ ptr_pos_ it' = rest.
Proof.
  intros (Hh & Hp & Hptr & _) Hlen. unfold Next. destruct Hc as (_ & _ & _ & _ & Ht).
  assert (Z.of_nat (S k) = ns + ni + nd + nv) as HS.
  { unfold members in Hlen. rewrite !length_app, !with_prev_length in Hlen. unfold size. lia. }
  set (it1 := set_pos it (u32 (pos_ it + 1))).
  assert (pos_ it1 = ns + ni + nd + nv) as Hp1.
  { cbn. rewrite Hp, uwrap_small; [lia|]. unfold in_u, size in *. lia. }
  destruct (ends it1 Hh) as (E1 & E2 & E3 & E4).
  assert (NumInstanceFields it1 = ni /\ NumDirectMethods it1 = nd /\ NumVirtualMethods it1 = nv) as (-> & -> & ->)
    by (unfold NumInstanceFields, NumDirectMethods, NumVirtualMethods; cbn; by rewrite Hh).
  rewrite E1, E2, E3, E4, Hp1. unfold size in *.
  repeat match goal with
  | |- context [?a <? ?b] => destruct (Z.ltb_spec a b); try lia
  | |- context [?a =? ?b] => destruct (Z.eqb_spec a b); try lia
  end; cbn [andb]; exists it1; (split; [done|]); (split; [unfold HasNext; rewrite E4, Hp1; apply Z.ltb_irrefl|]);
  cbn; rewrite Hptr, <- Hlen, drop_all; done.
Qed.

Lemma step_ready it k p kd m idx : holds it k -> members c !! S k = Some (p, (kd, m)) ->
  let it1 := set_pos it (u32 (pos_ it + 1)) in
  (start kd = S k -> idx = 0) -> (start kd <> S k -> idx = GetMemberIndex it1) ->
  ready (set_last_idx it1 idx) (S k) p.
Proof.
  intros Hk Hm it1 Hidx0 Hidx. pose proof Hk as (Hh & Hp & Hptr & _).
  assert (pos_ it1 = Z.of_nat (S k)) as Hp1.
  { cbn. rewrite Hp, uwrap_small; [lia|]. pose proof (lookup_lt_Some _ _ _ Hm) as Hlt. destruct Hc as (_ & _ & _ & _ & Ht).
    unfold members in Hlt. rewrite !length_app, !with_prev_length in Hlt. unfold in_u, size in *. lia. }
  destruct (member_position _ _ _ _ Hm) as (_ & _ & _ & _ & H0 & HS).
  split; [done|]. split; [done|]. split; [|done].
  destruct (decide (start kd = S k)) as [E|Hne]; [by rewrite H0, <- (Hidx0 E)|].
  destruct (HS Hne) as (i & p' & m' & [= <-] & Hm' & ->). cbn [set_last_idx last_idx_]. rewrite (Hidx Hne).
  rewrite <- (index_now it k p' kd m' Hk Hm').
  destruct (current_kind it k _ _ _ Hh Hp Hm') as (_ & E1 & _), (current_kind it1 (S k) _ _ _ Hh Hp1 Hm) as (_ & E2 & _).
  unfold GetMemberIndex. by rewrite E1, E2.
Qed.

Lemma next_holds it k : holds it k -> (S k < length (members c))%nat -> exists it', Next it = Done it' /\ holds it' (S k).
Proof.
  intros Hk Hlt. destruct (lookup_lt_is_Some_2 _ _ Hlt) as [[p [kd m]] Hm].
  pose proof (step_ready it k p kd m) as Hready. specialize (fun idx => Hready idx Hk Hm). cbv zeta in Hready.
  pose proof Hk as (Hh & Hp & _). pose proof Hc as (_ & _ & _ & _ & Ht).
  unfold Next. set (it1 := set_pos it (u32 (pos_ it + 1))) in *.
  assert (pos_ it1 = Z.of_nat (S k)) as Hp1 by apply (Hready (if decide (start kd = S k) then 0 else GetMemberIndex it1)
    ltac:(intros ?; by rewrite decide_True) ltac:(intros ?; by rewrite decide_False)).
  destruct (ends it1 Hh) as (E1 & E2 & E3 & E4).
  assert (NumInstanceFields it1 = ni /\ NumDirectMethods it1 = nd /\ NumVirtualMethods it1 = nv) as (-> & -> & ->)
    by (unfold NumInstanceFields, NumDirectMethods, NumVirtualMethods; cbn; by rewrite Hh).
  rewrite E1, E2, E3, E4, Hp1. destruct (member_position _ _ _ _ Hm) as (_ & _ & Hlo & Hhi & _).
  unfold size in *.
  destruct kd; cbn [start of_kind] in *;
  repeat match goal with
  | |- context [?a <? ?b] => destruct (Z.ltb_spec a b); try lia
  | |- context [?a =? ?b] => destruct (Z.eqb_spec a b); try lia
  end; cbn [andb];
  (eapply read_field || eapply read_method); try exact Hm; try done; apply Hready; intros ?; (done || lia).
Qed.

Lemma walk_from fuel : forall it k, holds it k -> (length (members c) - k <= fuel)%nat ->
  exists it', walk fuel it = Done (map snd (drop k (members c)), it') /\ HasNext it' = false /\ ptr_pos_ it' = rest.
Proof.
  induction fuel as [|fuel IH]; intros it k Hk Hfuel; pose proof Hk as (Hh & Hp & _ & p & kd & m & Hm & Hcur);
    pose proof (lookup_lt_Some _ _ _ Hm) as Hlt; [lia|].
  cbn [walk]. destruct (current_kind it k _ _ _ Hh Hp Hm) as (-> & _ & _). rewrite (drop_S _ _ _ Hm). cbn [map snd].
  destruct (decide (S k = length (members c))) as [E|Hne].
  - destruct (last_holds it k Hk (eq_sym E)) as (it' & -> & Hn & Hr). cbn [mbind cres_bind].
    exists it'. rewrite E, drop_all. split; [|done]. destruct fuel; cbn [walk]; rewrite Hn; cbn [mbind cres_bind map];
      by rewrite Hcur.
  - destruct (next_holds it k Hk ltac:(lia)) as (it1 & -> & H1). cbn [mbind cres_bind].
    destruct (IH it1 (S k) H1 ltac:(lia)) as (it' & -> & Hn). cbn [mbind cres_bind]. exists it'. by rewrite Hcur.
Qed.

Lemma header_ok more : ReadClassDataHeader (uleb ns ++ uleb ni ++ uleb nd ++ uleb nv ++ more) = Done (the_header, more).
Proof.
  destruct Hc as (_ & _ & _ & _ & Ht). unfold ReadClassDataHeader, size in *.
  do 4 (rewrite decode_uleb by (unfold in_u; lia); cbn [mbind cres_bind]). done.
Qed.

Lemma new_It_ok : exists it, new_It (Some (encode c ++ rest)) = Done it /\
  (if decide (members c = []) then HasNext it = false /\ ptr_pos_ it = rest else holds it 0).
Proof.
  unfold new_It, encode. rewrite <- !(assoc_L (++)), header_ok. cbn [mbind cres_bind]. cbv zeta.
  match goal with |- context [EndOfInstanceFieldsPos ?i] => set (it := i) end.
  destruct (ends it eq_refl) as (_ & E2 & _ & E4). rewrite E2, E4.
  assert (size (members c) = ns + ni + nd + nv) as Hsz
    by (unfold size, members; rewrite !length_app, !with_prev_length; lia).
  assert (forall p, p = 0 -> ready it 0 p) as Hready by (intros p ->; by repeat split; rewrite drop_0).
  destruct (members c) as [|[p [kd m]] tl] eqn:Em; unfold size in *; cbn [length] in *.
  - rewrite !(proj2 (Z.ltb_ge _ _)) by lia. exists it. split; [done|]. rewrite decide_True by done.
    split; [|done]. unfold HasNext. rewrite E4. apply Z.ltb_ge. cbn. lia.
  - match goal with |- exists x, ?r = Done x /\ _ => cut (exists x, r = Done x /\ holds x 0) end.
    { intros (it' & Er & Hh). exists it'. by rewrite decide_False. }
    assert (members c !! 0%nat = Some (p, (kd, m))) as Hm by by rewrite Em.
    destruct (member_position _ _ _ _ Hm) as (_ & _ & Hlo & Hhi & H0 & _).
    assert (p = 0) as Hp0 by (apply H0; lia).
    destruct (Z.ltb_spec 0 (Z.of_nat (length (statics c)) + Z.of_nat (length (instances c)))).
    + eapply read_field; [by apply Hready|done|]. destruct kd; cbn [start of_kind] in *; (done || lia).
    + rewrite (proj2 (Z.ltb_lt _ _)) by lia.
      eapply read_method; [by apply Hready|done|]. destruct kd; cbn [start of_kind] in *; (done || lia).
Qed.
End Walk.

(** The members of a class in the order of the file. *)
Definition class_members (c : class_data) : list (kind * member) :=
  map (pair StaticField) (statics c) ++ map (pair InstanceField) (instances c) ++
  map (pair DirectMethod) (directs c) ++ map (pair VirtualMethod) (virtuals c).

Lemma members_snd c : map snd (members c) = class_members c.
Proof.
  assert (forall (k : kind) (l : list member) (prevs : list Z), length prevs = S (length l) ->
    map snd (zip_with (fun p m => (p, (k, m))) prevs l) = map (pair k) l) as H.
  { intros k l. induction l as [|m l IH]; intros [|p prevs] Hl; try discriminate Hl; [done|].
    cbn. f_equal. apply IH. by injection Hl. }
  unfold members, with_prev, class_members. rewrite !map_app.
  by rewrite !H by (cbn; by rewrite length_map).
Qed.

(** C21: Class data is read back as it was written: whatever fields and methods a
    class has of each kind, none included, the iterator visits each once, in
    order, with its kind, index, access flags and code, and ends right behind
    the data. *)
Theorem class_data_roundtrip c rest : class_ok c ->
  exists it it', new_It (Some (encode c ++ rest)) = Done it /\
    walk (length (members c)) it = Done (class_members c, it') /\ EndDataPointer it' = Done rest.
Proof.
  intros Hc. destruct (new_It_ok c rest Hc) as (it & E & Hit). exists it. rewrite <- members_snd.
  destruct (decide (members c = [])) as [Em|Hne].
  - destruct Hit as [Hn Hp]. exists it. split; [done|]. rewrite Em. cbn [length walk map]. unfold EndDataPointer.
    rewrite Hn, Hp. done.
  - destruct (walk_from c rest Hc (length (members c)) it 0 Hit ltac:(lia)) as (it' & Ew & Hn & Hp).
    exists it'. rewrite drop_0 in Ew. split_and!; [done|done|]. unfold EndDataPointer. by rewrite Hn, Hp.
Qed.

(** Two static fields, no instance field, no direct and one virtual method. *)
Example class_data_roundtrip_witness :
  let c := {| statics := [{| m_idx := 3; m_flags := 9; m_code := 0 |}; {| m_idx := 300; m_flags := 8; m_code := 0 |}];
              instances := []; directs := [];
              virtuals := [{| m_idx := 5; m_flags := 1; m_code := 1000 |}] |} in
  encode c = [2; 0; 0; 1; 3; 9; 0xa9; 2; 8; 5; 1; 0xe8; 7] /\
  exists it it', new_It (Some (encode c ++ [7])) = Done it /\
    walk 3 it = Done (class_members c, it') /\ EndDataPointer it' = Done [7].
Proof.
  intros c. split; [reflexivity|]. apply (class_data_roundtrip c [7]).
  by repeat split; repeat constructor.
Defined.
End ClassData.
