(* ===== verification/DexCatch.v ===== *)
(** * DexCatch: exception handlers of methods
      (runtime/dex_file.h, dex_file-inl.h, dex_file.cc)

    The search for the try block of an address and CatchHandlerIterator, which
    walks through its handlers: the typed ones and then the one that catches
    everything.  The pointer of the iterator is the list of bytes ahead of it. *)

From S2P Require Import Prelude CLib Leb128 Dex DexItems.

Module Catch.

(** ** Try items *)

(** A code item; [insns_] are the bytes from the member of that name on, which
    is at an address divisible by 4. *)
Record CodeItem := { tries_size_ : Z; insns_size_in_code_units_ : Z; insns_ : list Z }.
Record TryItem := { start_addr_ : Z; insn_count_ : Z; handler_off_ : Z }.

(** The size of a TryItem. *)
Definition TRY_ITEM_SIZE : Z := 8.
Definition RoundUp4 (x : Z) : Z := (x + 3) / 4 * 4.
Definition GetTryItems (code_item : CodeItem) (offset : Z) : list Z :=
  drop (Z.to_nat (RoundUp4 (2 * insns_size_in_code_units_ code_item) + TRY_ITEM_SIZE * offset)) (insns_ code_item).
Definition read_TryItem (p : list Z) : cres TryItem :=
  start ← read_le 4 p; count ← read_le 2 (drop 4 p); off ← read_le 2 (drop 6 p);
  Done {| start_addr_ := start; insn_count_ := count; handler_off_ := off |}.
Definition GetCatchHandlerData (code_item : CodeItem) (offset : Z) : list Z :=
  drop (Z.to_nat offset) (GetTryItems code_item (tries_size_ code_item)).

(** Each turn of the search drops the middle, so the number of items is enough. *)
Fixpoint find_try_loop (fuel : nat) (code_item : CodeItem) (address min max : Z) : cres Z :=
  if min <=? max then
    match fuel with
    | O => Fault OutOfFuel
    | S fuel =>
        let mid := min + Z.quot (max - min) 2 in
        ti ← read_TryItem (GetTryItems code_item mid);
        let start := start_addr_ ti in
        let end_ := u32 (start + insn_count_ ti) in
        if address <? start then find_try_loop fuel code_item address min (mid - 1)
        else if end_ <=? address then find_try_loop fuel code_item address (mid + 1) max
        else Done mid
    end
  else Done (-1).
Definition FindTryItem (code_item : CodeItem) (address : Z) : cres Z :=
  find_try_loop (Z.to_nat (tries_size_ code_item)) code_item address 0 (tries_size_ code_item - 1).

Definition FindCatchHandlerOffset (code_item : CodeItem) (address : Z) : cres Z :=
  try_item ← FindTryItem code_item address;
  if try_item =? -1 then Done (-1)
  else ti ← read_TryItem (GetTryItems code_item try_item); Done (handler_off_ ti).

(** ** The iterator *)

Definition kDexNoIndex16 : Z := 0xFFFF.

Record It := {
  type_idx_ : Z; address_ : Z;               (* handler_ *)
  current_data_ : option (list Z); remaining_count_ : Z; catch_all_ : bool
}.

Definition HasNext (it : It) : bool := negb (remaining_count_ it =? -1) || catch_all_ it.

Definition Next (it : It) : cres It :=
  if 0 <? remaining_count_ it then
    data ← deref (current_data_ it);
    '(type_idx, data) ← DecodeUnsignedLeb128 data;
    '(address, data) ← DecodeUnsignedLeb128 data;
    Done {| type_idx_ := uwrap 16 type_idx; address_ := address; current_data_ := Some data;
            remaining_count_ := remaining_count_ it - 1; catch_all_ := catch_all_ it |}
  else if catch_all_ it then
    data ← deref (current_data_ it);
    '(address, data) ← DecodeUnsignedLeb128 data;
    Done {| type_idx_ := kDexNoIndex16; address_ := address; current_data_ := Some data;
            remaining_count_ := remaining_count_ it; catch_all_ := false |}
  else
    Done {| type_idx_ := type_idx_ it; address_ := address_ it; current_data_ := current_data_ it;
            remaining_count_ := -1; catch_all_ := catch_all_ it |}.

(** [Init] with the data. *)
Definition Init_data (handler_data : list Z) (it : It) : cres It :=
  '(count, data) ← DecodeSignedLeb128 handler_data;
  Next {| type_idx_ := type_idx_ it; address_ := address_ it; current_data_ := Some data;
          remaining_count_ := if count <=? 0 then s32 (- count) else count; catch_all_ := count <=? 0 |}.

Definition Init (code_item : CodeItem) (offset : Z) (it : It) : cres It :=
  if 0 <=? offset then Init_data (GetCatchHandlerData code_item offset) it
  else Done {| type_idx_ := type_idx_ it; address_ := address_ it; current_data_ := None;
               remaining_count_ := -1; catch_all_ := false |}.

(** A new iterator; members that are not set yet have the values [junk] has. *)
Definition fresh (junk : It) : It :=
  {| type_idx_ := type_idx_ junk; address_ := u32 (-1); current_data_ := current_data_ junk;
     remaining_count_ := remaining_count_ junk; catch_all_ := catch_all_ junk |}.

(** The constructors: by address and by try item. *)
Definition new_at (junk : It) (code_item : CodeItem) (address : Z) : cres It :=
  offset ← (if tries_size_ code_item =? 0 then Done (-1)
            else if tries_size_ code_item =? 1 then
              tries ← read_TryItem (GetTryItems code_item 0);
              let start := start_addr_ tries in
              Done (if start <=? address then
                      if address <? u32 (start + insn_count_ tries) then handler_off_ tries else -1
                    else -1)
            else FindCatchHandlerOffset code_item address);
  Init code_item offset (fresh junk).
Definition new_of (junk : It) (code_item : CodeItem) (try_item : TryItem) : cres It :=
  Init code_item (handler_off_ try_item) (fresh junk).

Definition EndDataPointer (it : It) : cres (option (list Z)) :=
  if HasNext it then Fault Aborted else Done (current_data_ it).

(** [for (; it.HasNext(); it.Next())]: the handlers met. *)
Fixpoint walk (fuel : nat) (it : It) : cres (list (Z * Z) * It) :=
  if HasNext it then
    match fuel with
    | O => Fault OutOfFuel
    | S fuel => next ← Next it; '(hs, it') ← walk fuel next; Done ((type_idx_ it, address_ it) :: hs, it')
    end
  else Done ([], it).

(** ** Handlers as written *)

(** The typed handlers of a try block, and the one that catches all. *)
Record handlers := { typed : list (Z * Z); catch_all : option Z }.

Definition count_of (h : handlers) : Z :=
  match catch_all h with Some _ => - Z.of_nat (length (typed h)) | None => Z.of_nat (length (typed h)) end.
Definition encode_typed (l : list (Z * Z)) : list Z := concat (map (fun e => uleb e.1 ++ uleb e.2) l).
Definition encode (h : handlers) : list Z :=
  sleb (count_of h) ++ encode_typed (typed h) ++ match catch_all h with Some a => uleb a | None => [] end.

(** The order in which they are tried. *)
Definition in_order (h : handlers) : list (Z * Z) :=
  typed h ++ match catch_all h with Some a => [(kDexNoIndex16, a)] | None => [] end.

Definition handlers_ok (h : handlers) : Prop :=
  in_order h <> [] /\ Z.of_nat (length (typed h)) < 2 ^ 31 /\
  Forall (fun e => in_u 16 e.1 /\ in_u 32 e.2) (typed h) /\
  match catch_all h with Some a => in_u 32 a | None => True end.

(** Handlers as they are read, whatever the length of their numbers. *)
Inductive typed_at : list Z -> list (Z * Z) -> list Z -> Prop :=
| typed_nil data : typed_at data [] data
| typed_cons data t data1 a data2 l rest :
    DecodeUnsignedLeb128 data = Done (t, data1) -> in_u 16 t -> DecodeUnsignedLeb128 data1 = Done (a, data2) ->
    typed_at data2 l rest -> typed_at data ((t, a) :: l) rest.
Definition catch_all_at (data : list Z) (ca : option Z) (rest : list Z) : Prop :=
  match ca with Some a => DecodeUnsignedLeb128 data = Done (a, rest) | None => data = rest end.
Definition reads (data : list Z) (h : handlers) (rest : list Z) : Prop :=
  in_order h <> [] /\ Z.of_nat (length (typed h)) < 2 ^ 31 /\
  exists data1 data2, DecodeSignedLeb128 data = Done (count_of h, data1) /\
    typed_at data1 (typed h) data2 /\ catch_all_at data2 (catch_all h) rest.

Lemma typed_encode l rest : Forall (fun e => in_u 16 e.1 /\ in_u 32 e.2) l -> typed_at (encode_typed l ++ rest) l rest.
Proof.
  unfold encode_typed. induction 1 as [|[t a] l [Ht Ha] _ IH]; [constructor|]. cbn [map concat fst snd] in *.
  rewrite <- !(assoc_L (++)). econstructor; [apply decode_uleb; unfold in_u in *; lia|done|by apply decode_uleb|exact IH].
Qed.

Lemma encode_reads h rest : handlers_ok h -> reads (encode h ++ rest) h rest.
Proof.
  intros (Hne & Hlen & Hall & Hca). split; [done|]. split; [done|]. unfold encode. rewrite <- !(assoc_L (++)).
  do 2 eexists. split; [apply decode_sleb; unfold in_s, count_of; destruct (catch_all h); lia|]. split.
  - by apply typed_encode.
  - destruct (catch_all h); [by apply decode_uleb|done].
Qed.

(** What an iterator has still to give after the current handler. *)
Definition holds (it : It) (more : list (Z * Z)) (ca : option Z) (rest : list Z) : Prop :=
  remaining_count_ it = Z.of_nat (length more) /\ catch_all_ it = bool_decide (is_Some ca) /\
  exists data data', current_data_ it = Some data /\ typed_at data more data' /\ catch_all_at data' ca rest.

Lemma next_typed it t a more ca rest : holds it ((t, a) :: more) ca rest ->
  exists it', Next it = Done it' /\ holds it' more ca rest /\ type_idx_ it' = t /\ address_ it' = a.
Proof.
  intros (Hr & Hc & data & data' & Hd & Hty & Hca). unfold Next. rewrite Hr, (proj2 (Z.ltb_lt _ _)) by (cbn [length]; lia).
  inversion Hty as [|? ? data1 ? data2 ? ? E1 Ht E2 Hty']; subst. rewrite Hd. cbn [deref mbind cres_bind].
  rewrite E1. cbn [mbind cres_bind]. rewrite E2. cbn [mbind cres_bind]. eexists. split; [done|].
  cbn [type_idx_ address_]. rewrite uwrap_small by done. split; [|done]. split; [cbn [remaining_count_ length]; lia|].
  split; [done|]. by exists data2, data'.
Qed.

Lemma next_catch_all it a rest : holds it [] (Some a) rest ->
  exists it', Next it = Done it' /\ holds it' [] None rest /\ type_idx_ it' = kDexNoIndex16 /\ address_ it' = a.
Proof.
  intros (Hr & Hc & data & data' & Hd & Hty & Hca). inversion Hty; subst. unfold Next. rewrite Hr, Hc, Hd.
  cbn [length Z.of_nat Z.ltb Z.compare]. rewrite bool_decide_eq_true_2 by eauto. cbn [deref mbind cres_bind catch_all_at] in *.
  rewrite Hca. cbn [mbind cres_bind]. eexists. split; [done|]. split; [|done]. split; [done|]. split; [done|].
  exists rest, rest. split; [done|]. split; [constructor|done].
Qed.

Lemma next_end it rest : holds it [] None rest ->
  exists it', Next it = Done it' /\ HasNext it' = false /\ current_data_ it' = Some rest.
Proof.
  intros (Hr & Hc & data & data' & Hd & Hty & Hca). inversion Hty; subst. unfold Next. rewrite Hr, Hc.
  cbn [length Z.of_nat Z.ltb Z.compare bool_decide catch_all_at] in *. subst. eexists. split; [done|]. by split.
Qed.

Lemma holds_has_next it more ca rest : holds it more ca rest -> HasNext it = true.
Proof. intros (Hr & _). unfold HasNext. rewrite Hr. destruct (Z.eqb_spec (Z.of_nat (length more)) (-1)); [lia|done]. Qed.

Lemma walk_handlers more : forall it ca rest fuel, holds it more ca rest -> (length more + 2 <= fuel)%nat ->
  exists it', walk fuel it = Done ((type_idx_ it, address_ it) :: in_order {| typed := more; catch_all := ca |}, it') /\
    HasNext it' = false /\ current_data_ it' = Some rest.
Proof.
  induction more as [|[t a] more IH]; intros it ca rest fuel H Hf; (destruct fuel as [|fuel]; [lia|]);
    cbn [walk]; rewrite (holds_has_next _ _ _ _ H).
  - destruct ca as [a|].
    + destruct (next_catch_all it a rest H) as (it1 & -> & H1 & Et & Ea). cbn [mbind cres_bind].
      destruct fuel as [|fuel]; [cbn in Hf; lia|]. cbn [walk]. rewrite (holds_has_next _ _ _ _ H1).
      destruct (next_end it1 rest H1) as (it2 & -> & Hn & Hd). cbn [mbind cres_bind].
      exists it2. split; [|done]. destruct fuel; cbn [walk]; rewrite Hn; cbn [mbind cres_bind]; by rewrite Et, Ea.
    + destruct (next_end it rest H) as (it2 & -> & Hn & Hd). cbn [mbind cres_bind]. exists it2. split; [|done].
      destruct fuel; cbn [walk]; rewrite Hn; done.
  - destruct (next_typed it t a more ca rest H) as (it1 & -> & H1 & Et & Ea). cbn [mbind cres_bind].
    destruct (IH it1 ca rest fuel H1 ltac:(cbn [length] in Hf; lia)) as (it' & -> & Hn). cbn [mbind cres_bind].
    exists it'. by rewrite Et, Ea.
Qed.

Lemma init_data_ok data h rest it0 : reads data h rest ->
  exists it it', Init_data data it0 = Done it /\
    walk (length (in_order h) + 1) it = Done (in_order h, it') /\ EndDataPointer it' = Done (Some rest).
Proof.
  intros (Hne & Hlen & data1 & data2 & E & Hty & Hca). unfold Init_data. rewrite E. cbn [mbind cres_bind].
  destruct h as [ty ca]. cbn [typed catch_all] in *.
  set (it1 := {| type_idx_ := _; address_ := _; current_data_ := _; remaining_count_ := _; catch_all_ := _ |}).
  assert (holds it1 ty ca rest) as H1.
  { unfold it1, holds, count_of. cbn [typed catch_all remaining_count_ catch_all_ current_data_].
    destruct ca as [a|].
    - rewrite (proj2 (Z.leb_le _ _)), Z.opp_involutive, swrap_small by (unfold in_s; lia).
      split; [done|]. split; [done|]. by exists data1, data2.
    - assert (length ty <> 0)%nat by (intros El; apply Hne; unfold in_order; cbn; destruct ty; done).
      rewrite (proj2 (Z.leb_gt _ _)) by lia. split; [done|]. split; [done|]. by exists data1, data2. }
  destruct ty as [|[t a] ty].
  - destruct ca as [a|]; [|by destruct Hne]. destruct (next_catch_all it1 a rest H1) as (it & -> & H & Et & Ea).
    destruct (walk_handlers [] it None rest 2 H ltac:(cbn; lia)) as (it' & Ew & Hn & Hd).
    exists it, it'. unfold EndDataPointer. rewrite Hn, Hd. rewrite Et, Ea in Ew. done.
  - destruct (next_typed it1 t a ty ca rest H1) as (it & -> & H & Et & Ea).
    destruct (walk_handlers ty it ca rest (length (in_order {| typed := (t, a) :: ty; catch_all := ca |}) + 1) H)
      as (it' & Ew & Hn & Hd); [unfold in_order; cbn [typed catch_all]; rewrite length_app; cbn [length]; lia|].
    exists it, it'. unfold EndDataPointer. rewrite Hn, Hd. rewrite Et, Ea in Ew. done.
Qed.

(** ** The try block of an address *)

Definition covers (t : TryItem) (address : Z) : Prop := start_addr_ t <= address < start_addr_ t + insn_count_ t.

(** Try items in the order of their addresses, without overlap. *)
Record wf (code_item : CodeItem) (tries : list TryItem) : Prop := {
  wf_size : tries_size_ code_item = Z.of_nat (length tries);
  wf_items i t : tries !! i = Some t -> read_TryItem (GetTryItems code_item (Z.of_nat i)) = Done t;
  wf_range i t : tries !! i = Some t ->
    0 <= start_addr_ t /\ 0 <= insn_count_ t /\ start_addr_ t + insn_count_ t < 2 ^ 32 /\ 0 <= handler_off_ t;
  wf_order i j t u : tries !! i = Some t -> tries !! j = Some u -> (i < j)%nat ->
    start_addr_ t + insn_count_ t <= start_addr_ u
}.

Section Find.
Context (code_item : CodeItem) (tries : list TryItem) (address : Z) (Hwf : wf code_item tries).

(** The index of the try item that covers the address. *)
Definition found (r : Z) : Prop :=
  (exists t, tries !! Z.to_nat r = Some t /\ covers t address /\ 0 <= r) \/
  (r = -1 /\ forall t, t ∈ tries -> ~ covers t address).

Lemma item_at k : 0 <= k < Z.of_nat (length tries) ->
  exists t, tries !! Z.to_nat k = Some t /\ read_TryItem (GetTryItems code_item k) = Done t /\
    u32 (start_addr_ t + insn_count_ t) = start_addr_ t + insn_count_ t.
Proof.
  intros Hk. destruct (lookup_lt_is_Some_2 tries (Z.to_nat k) ltac:(lia)) as [t Ht]. exists t.
  split; [done|]. destruct (wf_range _ _ Hwf _ _ Ht) as (H1 & H2 & H3 & _). split.
  - rewrite <- (wf_items _ _ Hwf _ _ Ht). by rewrite Z2Nat.id by lia.
  - apply uwrap_small. unfold in_u. lia.
Qed.

Lemma find_try_loop_ok fuel : forall min max, 0 <= min -> max < Z.of_nat (length tries) -> max - min + 1 <= Z.of_nat fuel ->
  (forall i t, tries !! i = Some t -> covers t address -> min <= Z.of_nat i <= max) ->
  exists r, find_try_loop fuel code_item address min max = Done r /\ found r.
Proof.
  induction fuel as [|fuel IH]; intros min max Hmin Hmax Hf Hin; cbn [find_try_loop];
    (destruct (Z.leb_spec min max) as [Hle|Hgt];
     [|exists (-1); split; [done|]; right; split; [done|]; intros t [i Hi]%list_elem_of_lookup_1 Hcov;
       specialize (Hin i t Hi Hcov); lia]); [lia|].
  set (mid := min + Z.quot (max - min) 2).
  assert (min <= mid <= max) as Hmid by (subst mid; rewrite Z.quot_div_nonneg by lia; Z.to_euclidean_division_equations; lia).
  destruct (item_at mid ltac:(lia)) as (t & Ht & -> & Eend). cbn [mbind cres_bind]. rewrite Eend.
  destruct (wf_range _ _ Hwf _ _ Ht) as (_ & Hcount & _).
  destruct (Z.ltb_spec address (start_addr_ t)) as [Hlt|Hge].
  - apply IH; try lia. intros i u Hi Hcov. specialize (Hin i u Hi Hcov). split; [lia|].
    destruct (decide (Z.to_nat mid <= i)%nat) as [Hm|]; [|lia]. exfalso. unfold covers in Hcov.
    destruct (decide (i = Z.to_nat mid)) as [->|]; [assert (u = t) as -> by congruence; lia|].
    pose proof (wf_order _ _ Hwf _ _ _ _ Ht Hi ltac:(lia)). lia.
  - destruct (Z.leb_spec (start_addr_ t + insn_count_ t) address) as [Hle'|Hlt'].
    + apply IH; try lia. intros i u Hi Hcov. specialize (Hin i u Hi Hcov). split; [|lia].
      destruct (decide (i <= Z.to_nat mid)%nat) as [Hm|]; [|lia]. exfalso. unfold covers in Hcov.
      destruct (decide (i = Z.to_nat mid)) as [->|]; [assert (u = t) as -> by congruence; lia|].
      pose proof (wf_order _ _ Hwf _ _ _ _ Hi Ht ltac:(lia)). destruct (wf_range _ _ Hwf _ _ Hi) as (_ & ? & _). lia.
    + exists mid. split; [done|]. left. exists t. split_and!; (done || lia).
Qed.

Lemma find_try_item_ok : exists r, FindTryItem code_item address = Done r /\ found r.
Proof.
  unfold FindTryItem. rewrite (wf_size _ _ Hwf), Nat2Z.id. apply find_try_loop_ok; try lia.
  intros i t Hi _. apply lookup_lt_Some in Hi. lia.
Qed.
End Find.

Definition handler_at (code_item : CodeItem) (t : TryItem) (h : handlers) : Prop :=
  exists rest, reads (GetCatchHandlerData code_item (handler_off_ t)) h rest.

Lemma handlers_of code_item t h it0 : 0 <= handler_off_ t -> handler_at code_item t h ->
  exists it it', Init code_item (handler_off_ t) it0 = Done it /\ walk (length (in_order h) + 1) it = Done (in_order h, it').
Proof.
  intros Hoff [rest Hreads]. unfold Init. rewrite (proj2 (Z.leb_le _ _)) by lia.
  destruct (init_data_ok _ h rest it0 Hreads) as (it & it' & H1 & H2 & _). eauto.
Qed.

(** The offset that the constructor by address finds. *)
Lemma new_at_offset code_item tries address junk : wf code_item tries ->
  exists off, new_at junk code_item address = Init code_item off (fresh junk) /\
    ((exists t, t ∈ tries /\ covers t address /\ off = handler_off_ t) \/
     (off = -1 /\ forall t, t ∈ tries -> ~ covers t address)).
Proof.
  intros Hwf. unfold new_at. rewrite (wf_size _ _ Hwf).
  destruct (Z.eqb_spec (Z.of_nat (length tries)) 0) as [E0|E0].
  { destruct tries as [|]; [|cbn in E0; lia]. exists (-1). split; [done|]. right. split; [done|]. set_solver. }
  destruct (Z.eqb_spec (Z.of_nat (length tries)) 1) as [E1|E1].
  - destruct tries as [|t [|]]; try (cbn in *; lia).
    destruct (item_at code_item [t] Hwf 0 ltac:(cbn; lia)) as (t' & [= <-] & -> & Eend). cbn [mbind cres_bind]. rewrite Eend.
    eexists. split; [done|].
    destruct (Z.leb_spec (start_addr_ t) address); [destruct (Z.ltb_spec address (start_addr_ t + insn_count_ t))|].
    + left. exists t. split; [set_solver|]. by unfold covers.
    + right. split; [done|]. intros u ->%list_elem_of_singleton. unfold covers. lia.
    + right. split; [done|]. intros u ->%list_elem_of_singleton. unfold covers. lia.
  - unfold FindCatchHandlerOffset. destruct (find_try_item_ok code_item tries address Hwf) as (r & -> & Hr).
    cbn [mbind cres_bind]. destruct Hr as [(t & Ht & Hcov & Hr)|[-> Hno]].
    + rewrite (proj2 (Z.eqb_neq _ _)) by lia.
      destruct (item_at code_item tries Hwf r) as (t' & Ht' & -> & _); [apply lookup_lt_Some in Ht; lia|].
      cbn [mbind cres_bind]. assert (t' = t) as -> by congruence. eexists. split; [done|]. left. exists t.
      split; [by eapply list_elem_of_lookup_2|done].
    + eexists. split; [done|]. by right.
Qed.

(** C39: The handlers found for an address are those of the try block that covers
    it, in the order in which they are to be tried and with the one that
    catches all last, the same as those found by the try item itself; an
    address in no try block has none. *)
Theorem catch_handlers_found code_item tries address junk : wf code_item tries ->
  (forall t h, t ∈ tries -> covers t address -> handler_at code_item t h ->
     exists it it', new_at junk code_item address = Done it /\ new_of junk code_item t = Done it /\
       walk (length (in_order h) + 1) it = Done (in_order h, it')) /\
  ((forall t, t ∈ tries -> ~ covers t address) ->
     exists it, new_at junk code_item address = Done it /\ walk 0 it = Done ([], it)).
Proof.
  intros Hwf. destruct (new_at_offset code_item tries address junk Hwf) as (off & -> & Hoff). split.
  - intros t h Ht Hcov Hh. destruct Hoff as [(t' & Ht' & Hcov' & ->)|[_ Hno]]; [|by destruct (Hno t Ht)].
    apply list_elem_of_lookup_1 in Ht as [i Hi]. apply list_elem_of_lookup_1 in Ht' as [j Hj].
    assert (i = j) as <-.
    { destruct (Nat.lt_trichotomy i j) as [Hlt|[->|Hlt]]; [|done|]; unfold covers in *;
        [pose proof (wf_order _ _ Hwf _ _ _ _ Hi Hj Hlt)|pose proof (wf_order _ _ Hwf _ _ _ _ Hj Hi Hlt)]; lia. }
    assert (t' = t) as -> by congruence. destruct (wf_range _ _ Hwf _ _ Hi) as (_ & _ & _ & H0).
    destruct (handlers_of code_item t h (fresh junk) H0 Hh) as (it & it' & E & Ew). eauto.
  - intros Hno. destruct Hoff as [(t & Ht & Hcov & _)|[-> _]]; [by destruct (Hno t Ht)|].
    eexists. split; [done|]. done.
Qed.

(** Three code units, the first with a handler for a type, the others with one
    for everything. *)
Definition demo_item : CodeItem :=
  {| tries_size_ := 2; insns_size_in_code_units_ := 3;
     insns_ := [1; 1; 2; 2; 3; 3; 0; 0] ++ [0; 0; 0; 0; 1; 0; 1; 0] ++ [1; 0; 0; 0; 2; 0; 4; 0] ++ [2; 1; 5; 2; 0; 2] |}.
Definition demo_tries : list TryItem :=
  [{| start_addr_ := 0; insn_count_ := 1; handler_off_ := 1 |};
   {| start_addr_ := 1; insn_count_ := 2; handler_off_ := 4 |}].

Lemma demo_wf : wf demo_item demo_tries.
Proof.
  split; [done| | |].
  - intros [|[|]] t [= <-]; reflexivity.
  - intros [|[|]] t [= <-]; cbn; lia.
  - intros [|[|]] [|[|]] t u [= <-] [= <-] Hlt; cbn; lia.
Qed.

Example catch_handlers_found_witness :
  let junk := {| type_idx_ := 0; address_ := 0; current_data_ := None; remaining_count_ := 0; catch_all_ := false |} in
  (exists it it', new_at junk demo_item 2 = Done it /\ walk 2 it = Done ([(0xFFFF, 2)], it')) /\
  (exists it, new_at junk demo_item 3 = Done it /\ walk 0 it = Done ([], it)).
Proof.
  intros junk. split.
  - destruct (catch_handlers_found demo_item demo_tries 2 junk demo_wf) as [H _].
    destruct (H {| start_addr_ := 1; insn_count_ := 2; handler_off_ := 4 |} {| typed := []; catch_all := Some 2 |})
      as (it & it' & H1 & _ & H2).
    + apply list_elem_of_In. right. by left.
    + by split.
    + exists []. apply (encode_reads {| typed := []; catch_all := Some 2 |} []). by repeat split.
    + exists it, it'. by split.
  - apply (catch_handlers_found demo_item demo_tries 3 junk demo_wf).
    intros t Ht. apply list_elem_of_In in Ht. destruct Ht as [<-|[<-|[]]]; unfold covers; cbn; lia.
Defined.
End Catch.
