(* ===== verification/DexValues.v ===== *)
(** * DexValues: the initial values of static fields, and equal signatures
      (runtime/dex_file.h, dex_file-inl.h, dex_file.cc)

    - [Values]: EncodedStaticFieldValueIterator, which decodes the values and
      stores them in the fields;
    - [Sig]: comparing a signature with a text and with a signature of another
      dex file. *)

From S2P Require Import Prelude CLib Leb128 Utf HashSet Dex ArtArgs DexItems.

Module Values.

(** ** Integers of some bytes

    Each of [n] turns shifts the value 8 bits to the right and puts the next byte
    in the 8 bits on the left; [val] is the bits of the value. *)
Fixpoint shift_in (w : Z) (n : nat) (ptr : list Z) (val : Z) : cres Z :=
  match n with
  | O => Done val
  | S n => '(b, ptr) ← next_byte ptr; shift_in w n ptr (Z.lor (Z.shiftr val 8) (uwrap w (Z.shiftl b (w - 8))))
  end.

(** A shift to the right by [k] bits. *)
Definition shr (x k : Z) : cres Z := if k <? 0 then Fault BadShift else Done (Z.shiftr x k).

Definition ReadSignedInt (ptr : list Z) (zwidth : Z) : cres Z :=
  val ← shift_in 32 (Z.to_nat (zwidth + 1)) ptr 0; shr (s32 val) ((3 - zwidth) * 8).
Definition ReadUnsignedInt (ptr : list Z) (zwidth : Z) (fill_on_right : bool) : cres Z :=
  val ← shift_in 32 (Z.to_nat (zwidth + 1)) ptr 0; if fill_on_right then Done val else shr val ((3 - zwidth) * 8).
Definition ReadSignedLong (ptr : list Z) (zwidth : Z) : cres Z :=
  val ← shift_in 64 (Z.to_nat (zwidth + 1)) ptr 0; shr (s64 val) ((7 - zwidth) * 8).
Definition ReadUnsignedLong (ptr : list Z) (zwidth : Z) (fill_on_right : bool) : cres Z :=
  val ← shift_in 64 (Z.to_nat (zwidth + 1)) ptr 0; if fill_on_right then Done val else shr val ((7 - zwidth) * 8).

(** ** The iterator *)

Definition kByte : Z := 0x00.
Definition kShort : Z := 0x02.
Definition kChar : Z := 0x03.
Definition kInt : Z := 0x04.
Definition kLong : Z := 0x06.
Definition kFloat : Z := 0x10.
Definition kDouble : Z := 0x11.
Definition kString : Z := 0x17.
Definition kType : Z := 0x18.
Definition kNull : Z := 0x1e.
Definition kBoolean : Z := 0x1f.

Definition kEncodedValueTypeMask : Z := 0x1f.
Definition kEncodedValueArgShift : Z := 5.

(** [jval_] is the 64 bits of the union. *)
Record It := { array_size_ : Z; pos_ : Z; ptr_ : list Z; type_ : Z; jval_ : Z }.

Definition HasNext (it : It) : bool := pos_ it <? array_size_ it.

Definition IsInt (n v : Z) : bool := (- 2 ^ (n - 1) <=? v) && (v <? 2 ^ (n - 1)).
Definition IsUint (n v : Z) : bool := (0 <=? v) && (v <? 2 ^ n).

(** The value of a type at [ptr], and how many bytes it has. *)
Definition read_value (type value_arg : Z) (ptr : list Z) (jval : Z) : cres (Z * Z) :=
  let width := value_arg + 1 in
  let checked (ok : bool) (jval : Z) := if ok then Done (jval, width) else Fault Aborted in
  if type =? kBoolean then Done (SetI jval (if value_arg =? 0 then 0 else 1), 0)
  else if type =? kByte then i ← ReadSignedInt ptr value_arg; checked (IsInt 8 i) (SetI jval i)
  else if type =? kShort then i ← ReadSignedInt ptr value_arg; checked (IsInt 16 i) (SetI jval i)
  else if type =? kChar then
    u ← ReadUnsignedInt ptr value_arg false; let i := s32 u in checked (IsUint 16 i) (SetI jval i)
  else if type =? kInt then i ← ReadSignedInt ptr value_arg; Done (SetI jval i, width)
  else if type =? kLong then j ← ReadSignedLong ptr value_arg; Done (SetJ j, width)
  else if type =? kFloat then u ← ReadUnsignedInt ptr value_arg true; Done (SetI jval u, width)
  else if type =? kDouble then u ← ReadUnsignedLong ptr value_arg true; Done (SetJ u, width)
  else if (type =? kString) || (type =? kType) then
    u ← ReadUnsignedInt ptr value_arg false; Done (SetI jval u, width)
  else if type =? kNull then Done (set_low 32 jval 0, 0)
  else Fault Aborted.

Definition Next (it : It) : cres It :=
  let pos := u32 (pos_ it + 1) in
  if array_size_ it <=? pos then
    Done {| array_size_ := array_size_ it; pos_ := pos; ptr_ := ptr_ it; type_ := type_ it; jval_ := jval_ it |}
  else
    '(value_type, ptr) ← next_byte (ptr_ it);
    let value_arg := Z.shiftr value_type kEncodedValueArgShift in
    let type := Z.land value_type kEncodedValueTypeMask in
    '(jval, width) ← read_value type value_arg ptr (jval_ it);
    Done {| array_size_ := array_size_ it; pos_ := pos; ptr_ := drop (Z.to_nat width) ptr; type_ := type; jval_ := jval |}.

(** The constructor; [None] is a class without values, [jval] what the union
    holds before it is written. *)
Definition new_It (jval : Z) (values : option (list Z)) : cres It :=
  '(array_size, ptr) ← (match values with
                        | None => Done (0, [])
                        | Some ptr => DecodeUnsignedLeb128 ptr
                        end);
  let it := {| array_size_ := array_size; pos_ := u32 (-1); ptr_ := ptr; type_ := kByte; jval_ := jval |} in
  if 0 <? array_size then Next it else Done it.

(** What is stored in the field. *)
Inductive store := SetPrimitive (t : PrimType) (v : Z) | SetObject (o : Z).

(** The class linker's resolution of strings and types, which finds or creates
    the object, is a parameter. *)
Section Store.
Context (ResolveString ResolveType : Z -> Z).

Definition ReadValueToField (it : It) : cres store :=
  let t := type_ it in let j := jval_ it in
  if t =? kBoolean then Done (SetPrimitive kPrimBoolean (get_z j))
  else if t =? kByte then Done (SetPrimitive kPrimByte (get_b j))
  else if t =? kShort then Done (SetPrimitive kPrimShort (get_s j))
  else if t =? kChar then Done (SetPrimitive kPrimChar (get_c j))
  else if t =? kInt then Done (SetPrimitive kPrimInt (get_i j))
  else if t =? kLong then Done (SetPrimitive kPrimLong (get_j j))
  else if t =? kFloat then Done (SetPrimitive kPrimFloat (get_f j))
  else if t =? kDouble then Done (SetPrimitive kPrimDouble (get_d j))
  else if t =? kNull then Done (SetObject 0)
  else if t =? kString then Done (SetObject (ResolveString (u32 (get_i j))))
  else if t =? kType then Done (SetObject (ResolveType (u16 (get_i j))))
  else Fault Aborted.

(** The loop of [ClassLinker::InitializeClass]: what is stored, field by field. *)
Fixpoint store_all (fuel : nat) (it : It) : cres (list store) :=
  if HasNext it then
    match fuel with
    | O => Fault OutOfFuel
    | S fuel => s ← ReadValueToField it; it ← Next it; ss ← store_all fuel it; Done (s :: ss)
    end
  else Done [].
End Store.

(** ** Values as written *)

Inductive value :=
| VBoolean (b : bool) | VByte (z : Z) | VShort (z : Z) | VChar (z : Z) | VInt (z : Z) | VLong (z : Z)
| VFloat (bits : Z) | VDouble (bits : Z) | VString (idx : Z) | VType (idx : Z) | VNull.

Definition head (type arg : Z) : Z := type + 32 * arg.
Definition number (type : Z) (n : nat) (z : Z) : list Z := head type (Z.of_nat n - 1) :: le_bytes n z.

(** A value in [n] bytes; floats and doubles leave out zeros on the right. *)
Definition encode_value (e : value * nat) : list Z :=
  let '(v, n) := e in
  match v with
  | VBoolean b => [head kBoolean (if b then 1 else 0)]
  | VByte z => number kByte n z
  | VShort z => number kShort n z
  | VChar z => number kChar n z
  | VInt z => number kInt n z
  | VLong z => number kLong n z
  | VFloat z => number kFloat n (z / 2 ^ (32 - 8 * Z.of_nat n))
  | VDouble z => number kDouble n (z / 2 ^ (64 - 8 * Z.of_nat n))
  | VString z => number kString n z
  | VType z => number kType n z
  | VNull => [head kNull 0]
  end.

Definition value_ok (e : value * nat) : Prop :=
  let '(v, n) := e in
  let bits := 8 * Z.of_nat n in
  match v with
  | VBoolean _ | VNull => True
  | VByte z => 8 <= bits <= 32 /\ in_s 8 z
  | VShort z => 8 <= bits <= 32 /\ in_s bits z /\ in_s 16 z
  | VChar z => 8 <= bits <= 32 /\ in_u bits z /\ in_u 16 z
  | VInt z => 8 <= bits <= 32 /\ in_s bits z
  | VLong z => 8 <= bits <= 64 /\ in_s bits z
  | VFloat z => 8 <= bits <= 32 /\ in_u 32 z /\ z mod 2 ^ (32 - bits) = 0
  | VDouble z => 8 <= bits <= 64 /\ in_u 64 z /\ z mod 2 ^ (64 - bits) = 0
  | VString z => 8 <= bits <= 32 /\ in_u bits z
  | VType z => 8 <= bits <= 32 /\ in_u bits z /\ in_u 16 z
  end.

Definition encode_array (l : list (value * nat)) : list Z :=
  uleb (Z.of_nat (length l)) ++ concat (map encode_value l).

Definition stored (ResolveString ResolveType : Z -> Z) (v : value) : store :=
  match v with
  | VBoolean b => SetPrimitive kPrimBoolean (if b then 1 else 0)
  | VByte z => SetPrimitive kPrimByte z
  | VShort z => SetPrimitive kPrimShort z
  | VChar z => SetPrimitive kPrimChar z
  | VInt z => SetPrimitive kPrimInt z
  | VLong z => SetPrimitive kPrimLong z
  | VFloat z => SetPrimitive kPrimFloat z
  | VDouble z => SetPrimitive kPrimDouble z
  | VString z => SetObject (ResolveString z)
  | VType z => SetObject (ResolveType z)
  | VNull => SetObject 0
  end.

(** ** Reading the integers *)

Lemma shift_in_ok w bs rest : forall val, Forall byte_ok bs -> 8 * Z.of_nat (length bs) <= w -> in_u w val ->
  shift_in w (length bs) (bs ++ rest) val =
  Done (val / 2 ^ (8 * Z.of_nat (length bs)) + of_le bs * 2 ^ (w - 8 * Z.of_nat (length bs))).
Proof.
  induction bs as [|b bs IH]; intros val Hall Hw Hval.
  - cbn. rewrite Z.div_1_r. f_equal. lia.
  - apply Forall_cons in Hall as [Hb Hall]. cbn [length] in *. unfold byte_ok, in_u in *.
    cbn [app shift_in next_byte mbind cres_bind]. set (n := Z.of_nat (length bs)) in *.
    replace (Z.of_nat (S (length bs))) with (n + 1) in * by lia.
    assert (2 ^ w = 256 * 2 ^ (w - 8)) as Ew.
    { change 256 with (2 ^ 8). rewrite <- Z.pow_add_r by lia. f_equal. lia. }
    assert (Z.lor (Z.shiftr val 8) (uwrap w (Z.shiftl b (w - 8))) = val / 256 + b * 2 ^ (w - 8)) as ->.
    { rewrite uwrap_small, lor_shiftl_add, Z.shiftr_div_pow2 by
        (try lia; try (rewrite Z.shiftr_div_pow2 by lia; change (2 ^ 8) with 256; split;
           [apply Z.div_pos; lia|apply Z.div_lt_upper_bound; lia]);
         rewrite Z.shiftl_mul_pow2 by lia; unfold in_u; nia). done. }
    rewrite IH; [|done|lia|split].
    2:{ assert (0 <= val / 256) by (apply Z.div_pos; lia). nia. }
    2:{ assert (val / 256 < 2 ^ (w - 8)) by (apply Z.div_lt_upper_bound; lia). nia. }
    f_equal. cbn [of_le]. replace (b * 2 ^ (w - 8)) with (b * 2 ^ (w - 8 * (n + 1)) * 2 ^ (8 * n)).
    2:{ rewrite <- Z.mul_assoc, <- Z.pow_add_r by lia. do 2 f_equal. lia. }
    rewrite Z.div_add, Z.div_div by (try apply Z.pow_nonzero; lia).
    replace (256 * 2 ^ (8 * n)) with (2 ^ (8 * (n + 1))).
    2:{ change 256 with (2 ^ 8). rewrite <- Z.pow_add_r by lia. f_equal. lia. }
    replace (2 ^ (w - 8 * n)) with (256 * 2 ^ (w - 8 * (n + 1))).
    2:{ change 256 with (2 ^ 8). rewrite <- Z.pow_add_r by lia. f_equal. lia. }
    lia.
Qed.

Lemma shift_in_bytes w n z rest : 8 * Z.of_nat n <= w ->
  shift_in w n (le_bytes n z ++ rest) 0 = Done ((z mod 2 ^ (8 * Z.of_nat n)) * 2 ^ (w - 8 * Z.of_nat n)).
Proof.
  intros Hw. pose proof (shift_in_ok w (le_bytes n z) rest 0 (le_bytes_ok n z)) as H.
  rewrite le_bytes_length, of_le_le_bytes in H. rewrite H; [f_equal; rewrite Zdiv_0_l; lia|lia|].
  split; [lia|apply Z.pow_pos_nonneg; lia].
Qed.

Lemma signed_back w b z : 0 < b <= w -> in_s b z -> Z.shiftr (swrap w (z mod 2 ^ b * 2 ^ (w - b))) (w - b) = z.
Proof.
  intros Hb Hz. assert (2 ^ w = 2 ^ b * 2 ^ (w - b)) as Ew by (rewrite <- Z.pow_add_r by lia; f_equal; lia).
  assert (0 < 2 ^ (w - b)) by (apply Z.pow_pos_nonneg; lia). assert (0 < 2 ^ b) by (apply Z.pow_pos_nonneg; lia).
  replace (z mod 2 ^ b * 2 ^ (w - b)) with (z * 2 ^ (w - b) + (- (z / 2 ^ b)) * 2 ^ w)
    by (rewrite Ew; pose proof (Z.div_mod z (2 ^ b)); nia).
  rewrite swrap_plus, swrap_small; try lia.
  - rewrite Z.shiftr_div_pow2 by lia. apply Z.div_mul. lia.
  - unfold in_s in *. assert (2 ^ (w - 1) = 2 ^ (b - 1) * 2 ^ (w - b)) as ->
      by (rewrite <- Z.pow_add_r by lia; f_equal; lia). nia.
Qed.

Lemma unsigned_back w b z : 0 < b <= w -> in_u b z -> Z.shiftr (z mod 2 ^ b * 2 ^ (w - b)) (w - b) = z.
Proof.
  intros Hb Hz. rewrite Z.mod_small by done. rewrite Z.shiftr_div_pow2 by lia. apply Z.div_mul.
  apply Z.pow_nonzero; lia.
Qed.

Lemma right_back w b z : 0 < b <= w -> in_u w z -> z mod 2 ^ (w - b) = 0 ->
  (z / 2 ^ (w - b)) mod 2 ^ b * 2 ^ (w - b) = z.
Proof.
  intros Hb Hz H0. assert (2 ^ w = 2 ^ (w - b) * 2 ^ b) as Ew by (rewrite <- Z.pow_add_r by lia; f_equal; lia).
  assert (0 < 2 ^ (w - b)) by (apply Z.pow_pos_nonneg; lia). unfold in_u in Hz. rewrite Z.mod_small.
  - pose proof (Z.div_mod z (2 ^ (w - b))). lia.
  - split; [apply Z.div_pos; lia|apply Z.div_lt_upper_bound; lia].
Qed.

Section Read.
Context (n : nat) (rest : list Z).
#[local] Abbreviation bits := (8 * Z.of_nat n).
#[local] Abbreviation zwidth := (Z.of_nat n - 1).

Lemma zwidth_nat : 8 <= bits -> Z.to_nat (zwidth + 1) = n.
Proof. lia. Qed.
Lemma shr_bits x k : 0 <= k -> shr x k = Done (Z.shiftr x k).
Proof. intros Hk. unfold shr. by rewrite (proj2 (Z.ltb_ge _ _)). Qed.

Lemma signed_int_ok z : 8 <= bits <= 32 -> in_s bits z -> ReadSignedInt (le_bytes n z ++ rest) zwidth = Done z.
Proof.
  intros Hb Hz. unfold ReadSignedInt. rewrite zwidth_nat, shift_in_bytes by lia. cbn [mbind cres_bind].
  replace ((3 - zwidth) * 8) with (32 - bits) by lia. by rewrite shr_bits, signed_back by (done || lia).
Qed.
Lemma unsigned_int_ok z : 8 <= bits <= 32 -> in_u bits z -> ReadUnsignedInt (le_bytes n z ++ rest) zwidth false = Done z.
Proof.
  intros Hb Hz. unfold ReadUnsignedInt. rewrite zwidth_nat, shift_in_bytes by lia. cbn [mbind cres_bind].
  replace ((3 - zwidth) * 8) with (32 - bits) by lia. by rewrite shr_bits, unsigned_back by (done || lia).
Qed.
Lemma right_int_ok z : 8 <= bits <= 32 -> in_u 32 z -> z mod 2 ^ (32 - bits) = 0 ->
  ReadUnsignedInt (le_bytes n (z / 2 ^ (32 - bits)) ++ rest) zwidth true = Done z.
Proof.
  intros Hb Hz H0. unfold ReadUnsignedInt. rewrite zwidth_nat, shift_in_bytes by lia. cbn [mbind cres_bind].
  by rewrite right_back by (done || lia).
Qed.
Lemma signed_long_ok z : 8 <= bits <= 64 -> in_s bits z -> ReadSignedLong (le_bytes n z ++ rest) zwidth = Done z.
Proof.
  intros Hb Hz. unfold ReadSignedLong. rewrite zwidth_nat, shift_in_bytes by lia. cbn [mbind cres_bind].
  replace ((7 - zwidth) * 8) with (64 - bits) by lia. by rewrite shr_bits, signed_back by (done || lia).
Qed.
Lemma right_long_ok z : 8 <= bits <= 64 -> in_u 64 z -> z mod 2 ^ (64 - bits) = 0 ->
  ReadUnsignedLong (le_bytes n (z / 2 ^ (64 - bits)) ++ rest) zwidth true = Done z.
Proof.
  intros Hb Hz H0. unfold ReadUnsignedLong. rewrite zwidth_nat, shift_in_bytes by lia. cbn [mbind cres_bind].
  by rewrite right_back by (done || lia).
Qed.
End Read.

(** ** One value *)

Lemma head_parts type arg : 0 <= type < 32 -> 0 <= arg < 8 ->
  Z.shiftr (head type arg) kEncodedValueArgShift = arg /\ Z.land (head type arg) kEncodedValueTypeMask = type.
Proof.
  intros Ht Ha. unfold head, kEncodedValueArgShift, kEncodedValueTypeMask. rewrite Z.shiftr_div_pow2 by lia.
  change 0x1f with (Z.ones 5). rewrite Z.land_ones by lia. change (2 ^ 5) with 32.
  split; Z.to_euclidean_division_equations; lia.
Qed.

(** The type code of a value and its argument. *)
Definition type_of (v : value) : Z :=
  match v with
  | VBoolean _ => kBoolean | VByte _ => kByte | VShort _ => kShort | VChar _ => kChar | VInt _ => kInt
  | VLong _ => kLong | VFloat _ => kFloat | VDouble _ => kDouble | VString _ => kString | VType _ => kType
  | VNull => kNull
  end.
Definition arg_of (e : value * nat) : Z :=
  match e.1 with VBoolean b => if b then 1 else 0 | VNull => 0 | _ => Z.of_nat e.2 - 1 end.
Definition body_of (e : value * nat) : list Z := drop 1 (encode_value e).

Lemma value_head e : encode_value e = head (type_of e.1) (arg_of e) :: body_of e.
Proof. by destruct e as [[] n]. Qed.

Lemma IsInt_true n v : in_s n v -> IsInt n v = true.
Proof. unfold in_s, IsInt. intros H. apply andb_true_iff. rewrite Z.leb_le, Z.ltb_lt. lia. Qed.
Lemma IsUint_true n v : in_u n v -> IsUint n v = true.
Proof. unfold in_u, IsUint. intros H. apply andb_true_iff. rewrite Z.leb_le, Z.ltb_lt. lia. Qed.

Lemma in_s_mono a b z : 0 < a <= b -> in_s a z -> in_s b z.
Proof. unfold in_s. intros Hab Hz. pose proof (Z.pow_le_mono_r 2 (a - 1) (b - 1)). lia. Qed.
Lemma in_u_mono a b z : 0 <= a <= b -> in_u a z -> in_u b z.
Proof. unfold in_u. intros Hab Hz. pose proof (Z.pow_le_mono_r 2 a b). lia. Qed.

Lemma get_low u (j v : Z) : 0 < u <= 32 -> uwrap u (SetI j v) = uwrap u v /\ swrap u (SetI j v) = swrap u v.
Proof. intros Hu. unfold SetI. split; [unfold uwrap|apply swrap_cong; [lia|]]; by apply low_mod; lia. Qed.

Lemma read_value_ok e more jval : value_ok e ->
  exists jv, read_value (type_of e.1) (arg_of e) (body_of e ++ more) jval = Done (jv, Z.of_nat (length (body_of e))) /\
    forall RS RT size pos ptr,
      ReadValueToField RS RT {| array_size_ := size; pos_ := pos; ptr_ := ptr; type_ := type_of e.1; jval_ := jv |} =
      Done (stored RS RT e.1).
Proof.
  destruct e as [v n]. unfold value_ok, body_of. cbn [fst]. intros Hok. unfold read_value, arg_of, ReadValueToField.
  cbn [fst snd type_ jval_ type_of].
  destruct v as [b|z|z|z|z|z|z|z|z|z|]; cbn [encode_value number drop]; decide_consts; rewrite ?drop_0, ?le_bytes_length;
    repeat match type of Hok with _ /\ _ => destruct Hok as [? Hok] end.
  - exists (SetI jval (if b then 1 else 0)). split; [by destruct b|]. intros. unfold get_z.
    rewrite (proj1 (get_low 8 _ _ ltac:(lia))). by destruct b.
  - rewrite signed_int_ok by (lia || (apply (in_s_mono 8); done || lia)). cbn [mbind cres_bind].
    rewrite IsInt_true by done. eexists. split; [do 2 f_equal; lia|]. intros. unfold get_b.
    by rewrite (proj2 (get_low 8 _ _ ltac:(lia))), swrap_small.
  - rewrite signed_int_ok by done. cbn [mbind cres_bind]. rewrite IsInt_true by done.
    eexists. split; [do 2 f_equal; lia|]. intros. unfold get_s. by rewrite (proj2 (get_low 16 _ _ ltac:(lia))), swrap_small.
  - rewrite unsigned_int_ok by done. cbn [mbind cres_bind].
    rewrite swrap_small, IsUint_true by (done || (unfold in_s, in_u in *; lia)).
    eexists. split; [do 2 f_equal; lia|]. intros. unfold get_c. by rewrite (proj1 (get_low 16 _ _ ltac:(lia))), uwrap_small.
  - rewrite signed_int_ok by done. cbn [mbind cres_bind]. eexists. split; [do 2 f_equal; lia|]. intros. unfold get_i.
    rewrite (proj2 (get_low 32 _ _ ltac:(lia))), swrap_small; [done|lia|]. apply (in_s_mono (8 * Z.of_nat n)); [lia|done].
  - rewrite signed_long_ok by done. cbn [mbind cres_bind]. eexists. split; [do 2 f_equal; lia|]. intros.
    rewrite (proj1 (get_SetJ z)). unfold get_j. rewrite swrap_small; [done|lia|].
    apply (in_s_mono (8 * Z.of_nat n)); [lia|done].
  - rewrite right_int_ok by done. cbn [mbind cres_bind]. eexists. split; [do 2 f_equal; lia|]. intros. unfold get_f.
    by rewrite (proj1 (get_low 32 _ _ ltac:(lia))), uwrap_small.
  - rewrite right_long_ok by done. cbn [mbind cres_bind]. eexists. split; [do 2 f_equal; lia|]. intros.
    rewrite (proj2 (get_SetJ z)). unfold get_d. by rewrite uwrap_small.
  - rewrite unsigned_int_ok by done. cbn [mbind cres_bind]. eexists. split; [do 2 f_equal; lia|]. intros. unfold get_i.
    rewrite (proj2 (get_low 32 _ _ ltac:(lia))). unfold uwrap. rewrite swrap_mod by lia. rewrite Z.mod_small; [done|].
    apply (in_u_mono (8 * Z.of_nat n)); [lia|done].
  - rewrite unsigned_int_ok by done. cbn [mbind cres_bind]. eexists. split; [do 2 f_equal; lia|]. intros. unfold get_i.
    rewrite (proj2 (get_low 32 _ _ ltac:(lia))). rewrite swrap_small, uwrap_small; (done || (unfold in_s, in_u in *; lia)).
  - by eexists.
Qed.

Lemma next_value it e more : value_ok e -> ptr_ it = encode_value e ++ more ->
  u32 (pos_ it + 1) < array_size_ it ->
  exists it', Next it = Done it' /\ array_size_ it' = array_size_ it /\ pos_ it' = u32 (pos_ it + 1) /\ ptr_ it' = more /\
    forall RS RT, ReadValueToField RS RT it' = Done (stored RS RT e.1).
Proof.
  intros Hok Hptr Hpos. unfold Next. rewrite (proj2 (Z.leb_gt _ _)) by done. rewrite Hptr, value_head.
  cbn [app next_byte mbind cres_bind].
  assert (0 <= type_of e.1 < 32 /\ 0 <= arg_of e < 8) as [Ht Ha].
  { destruct e as [[] n]; cbn -[Z.of_nat] in *; unfold kBoolean, kByte, kShort, kChar, kInt, kLong, kFloat, kDouble, kString,
      kType, kNull; try (destruct b); lia. }
  destruct (head_parts _ _ Ht Ha) as [-> ->].
  destruct (read_value_ok e more (jval_ it) Hok) as (jv & -> & Hst). cbn [mbind cres_bind].
  eexists. split; [done|]. cbn [array_size_ pos_ ptr_]. rewrite Nat2Z.id, drop_app_length. split_and!; done.
Qed.

Lemma store_all_from RS RT rest l : forall it v, Forall value_ok l ->
  ptr_ it = concat (map encode_value l) ++ rest -> ReadValueToField RS RT it = Done (stored RS RT v) ->
  0 <= pos_ it -> pos_ it + 1 + Z.of_nat (length l) = array_size_ it -> array_size_ it < 2 ^ 32 ->
  store_all RS RT (S (length l)) it = Done (stored RS RT v :: map (fun e => stored RS RT e.1) l).
Proof.
  induction l as [|e l IH]; intros it v Hok Hptr Hv Hpos Hend Hsize; cbn [store_all];
    (assert (HasNext it = true) as -> by (apply Z.ltb_lt; cbn [length] in Hend; lia)); rewrite Hv; cbn [mbind cres_bind].
  - unfold Next. cbn [length] in Hend. rewrite uwrap_small by (unfold in_u; lia).
    rewrite (proj2 (Z.leb_le _ _)) by lia. cbn [length mbind cres_bind store_all]. unfold HasNext. cbn [array_size_ pos_].
    rewrite (proj2 (Z.ltb_ge _ _)) by lia. done.
  - apply Forall_cons in Hok as [He Hok]. cbn [map concat length] in *. rewrite <- (assoc_L (++)) in Hptr.
    assert (u32 (pos_ it + 1) = pos_ it + 1) as Ep by (apply uwrap_small; unfold in_u; lia).
    destruct (next_value it e _ He Hptr ltac:(lia)) as (it' & -> & Es & Epos & Eptr & Hst). cbn [mbind cres_bind].
    rewrite (IH it' e.1) by (try done; lia). done.
Qed.

(** C37: The initial values of static fields: whatever the values of a class and
    however few bytes they are written in, each field gets the Java value that
    was written for it, bit for bit; floats and doubles are filled with zeros
    on the right, other numbers extended on the left.  A class without values
    has none. *)
Theorem static_values_roundtrip RS RT l rest jval : Forall value_ok l -> Z.of_nat (length l) < 2 ^ 32 ->
  (exists it, new_It jval (Some (encode_array l ++ rest)) = Done it /\
     store_all RS RT (length l) it = Done (map (fun e => stored RS RT e.1) l)) /\
  (exists it, new_It jval None = Done it /\ store_all RS RT 0 it = Done []).
Proof.
  intros Hok Hlen. split; [|by eexists]. unfold new_It, encode_array. rewrite <- (assoc_L (++)).
  rewrite decode_uleb by (unfold in_u; lia). cbn [mbind cres_bind].
  destruct l as [|e l]; [by eexists|]. apply Forall_cons in Hok as [He Hok]. cbn [length map concat] in *.
  rewrite (proj2 (Z.ltb_lt _ _)) by lia. rewrite <- (assoc_L (++)).
  match goal with |- exists it, Next ?i = _ /\ _ => destruct (next_value i e (concat (map encode_value l) ++ rest) He eq_refl)
    as (it & -> & Es & Epos & Eptr & Hst) end; [cbn -[Z.of_nat]; change (u32 (u32 (-1) + 1)) with 0; lia|].
  exists it. split; [done|]. cbn [array_size_ pos_] in *. change (u32 (u32 (-1) + 1)) with 0 in Epos.
  apply (store_all_from RS RT rest l it e.1); (done || lia || rewrite ?Epos, ?Es; lia).
Qed.

(** [-1] in one byte, 1.0f in two, and a string. *)
Example static_values_roundtrip_witness :
  let l := [(VInt (-1), 1%nat); (VFloat 0x3f800000, 2%nat); (VString 300, 2%nat)] in
  encode_array l = [3; 0x04; 0xff; 0x30; 0x80; 0x3f; 0x37; 0x2c; 0x01] /\
  exists it, new_It 77 (Some (encode_array l ++ [])) = Done it /\
    store_all (Z.add 1000) id 3 it =
    Done [SetPrimitive kPrimInt (-1); SetPrimitive kPrimFloat 0x3f800000; SetObject 1300].
Proof.
  intros l. split; [reflexivity|].
  apply (static_values_roundtrip (Z.add 1000) id l [] 77); [|cbn; lia].
  repeat constructor; cbn; try lia; try done.
Defined.
End Values.

Module Sig.

(** ** StringPiece (runtime/base/stringpiece.h, stringpiece.cc)

    A piece is its bytes. *)

(** The piece of a C string; [None] is a null pointer. *)
Definition piece (str : option (list Z)) : cres (list Z) := match str with None => Done [] | Some str => c_str str end.

(** Pieces at the same address have the same bytes, so the test for it only
    saves time. *)
Definition piece_eq (x y : list Z) : bool :=
  let len := Z.of_nat (length x) in
  if negb (len =? Z.of_nat (length y)) then false
  else if len <=? 0 then true
  else if negb (bool_decide (x !! Z.to_nat (len - 1) = y !! Z.to_nat (len - 1))) then false
  else if len =? 1 then true
  else let even := Z.to_nat (Z.land len (Z.lnot 1)) in bool_decide (take even x = take even y).
Definition starts_with (x prefix : list Z) : bool :=
  (length prefix <=? length x)%nat && bool_decide (take (length prefix) x = prefix).
(** [find(c, pos) != npos]. *)
Definition finds (x : list Z) (c : Z) (pos : nat) : bool := bool_decide (c ∈ drop pos x).

Lemma even_part n : Z.to_nat (Z.land (Z.of_nat n) (Z.lnot 1)) = (n - n mod 2)%nat.
Proof.
  change (Z.lnot 1) with (Z.lnot (Z.ones 1)). rewrite <- Z.ldiff_land, Z.ldiff_ones_r by lia.
  rewrite Z.shiftl_mul_pow2, Z.shiftr_div_pow2 by lia. change (2 ^ 1) with 2.
  pose proof (Nat.mod_upper_bound n 2). pose proof (Nat.div_mod_eq n 2).
  assert (Z.of_nat n / 2 = Z.of_nat (n / 2)) as -> by by rewrite Nat2Z.inj_div. lia.
Qed.

Lemma piece_eq_ok x y : piece_eq x y = bool_decide (x = y).
Proof.
  unfold piece_eq. destruct (Z.eqb_spec (Z.of_nat (length x)) (Z.of_nat (length y))) as [E|Hne]; cbn [negb].
  2:{ symmetry. apply bool_decide_eq_false. intros ->. done. }
  apply Nat2Z.inj in E. destruct (Z.leb_spec (Z.of_nat (length x)) 0) as [H0|H0].
  { destruct x, y; cbn in *; try lia. symmetry. by apply bool_decide_eq_true. }
  replace (Z.to_nat (Z.of_nat (length x) - 1)) with (length x - 1)%nat by lia.
  case_bool_decide as Hlast; cbn [negb].
  2:{ symmetry. apply bool_decide_eq_false. intros ->. done. }
  assert (forall n, (length x - 1 <= n)%nat -> take n x = take n y -> x = y) as Hall.
  { intros n Hn Ht. apply list_eq_same_length with (length x); [done|done|]. intros i a b Hi Ha Hb.
    destruct (decide (i < n)%nat) as [Hlt|Hge].
    - rewrite <- (lookup_take_lt _ n) in Ha by done. rewrite <- (lookup_take_lt _ n) in Hb by done. congruence.
    - assert (i = length x - 1)%nat as -> by lia. congruence. }
  destruct (Z.eqb_spec (Z.of_nat (length x)) 1) as [H1|H1].
  { symmetry. apply bool_decide_eq_true. apply (Hall 0%nat); [lia|done]. }
  rewrite even_part. apply bool_decide_ext. split; [|by intros ->].
  apply Hall. pose proof (Nat.mod_upper_bound (length x) 2). lia.
Qed.

Lemma starts_with_ok x p : starts_with x p = true <-> exists t, x = p ++ t.
Proof.
  unfold starts_with. rewrite andb_true_iff, bool_decide_eq_true, Nat.leb_le. split.
  - intros [_ E]. exists (drop (length p) x). by rewrite <- E at 1; rewrite take_drop.
  - intros [t ->]. rewrite length_app, take_app_length. split; [lia|done].
Qed.

(** ** Comparing with a text *)

Fixpoint match_params (d : DexFile) (params : list Z) (i : Z) (n : nat) (tail : list Z) : cres (option (list Z)) :=
  match n with
  | O => Done (Some tail)
  | S n =>
      item ← GetTypeItem params i;
      str ← StringByTypeIdx d item;
      param ← piece str;
      if starts_with tail param then match_params d params (i + 1) n (drop (length param) tail) else Done None
  end.

(** [Signature::operator==(const StringPiece&)]; [None] is NoSignature. *)
Definition equals_text (d : DexFile) (sig : option Z) (rhs : list Z) : cres bool :=
  match sig with
  | None => Done false
  | Some p =>
      proto ← entry (proto_ids_ d) p;
      if negb (starts_with rhs (lit "(")) then Done false
      else
        let tail := drop 1 rhs in
        r ← (match GetProtoParameters d proto with
             | None => Done (Some tail)
             | Some params => size ← TypeList_Size params; match_params d params 0 (Z.to_nat size) tail
             end);
        match r with
        | None => Done false
        | Some tail =>
            if negb (starts_with tail (lit ")")) then Done false
            else
              str ← StringByTypeIdx d (return_type_idx_ proto);
              ret ← piece str;
              Done (piece_eq (drop 1 tail) ret)
        end
  end.

(** The pieces that ToString appends. *)
Lemma match_params_ok d params n : forall i result text tail, append_params d params i n result = Done text ->
  exists ps, text = result ++ ps /\
    match_params d params i n tail = Done (if starts_with tail ps then Some (drop (length ps) tail) else None).
Proof.
  induction n as [|n IH]; intros i result text tail; cbn [append_params match_params].
  { intros [= <-]. exists []. split; [by rewrite app_nil_r|]. by rewrite (proj2 (starts_with_ok tail [])) by by exists tail. }
  destruct (GetTypeItem params i) as [item|]; [|done]. cbn [mbind cres_bind].
  destruct (StringByTypeIdx d item) as [str|]; [|done]. cbn [mbind cres_bind].
  destruct str as [str|]; [|done]. cbn [append piece]. destruct (c_str str) as [p|]; [|done]. cbn [mbind cres_bind].
  intros H. destruct (IH (i + 1) (result ++ p) text (drop (length p) tail) H) as (ps & -> & Hm).
  exists (p ++ ps). split; [by rewrite (assoc_L (++))|].
  destruct (starts_with tail p) eqn:Ep.
  - rewrite Hm. apply starts_with_ok in Ep as [t ->]. rewrite drop_app_length.
    assert (starts_with (p ++ t) (p ++ ps) = starts_with t ps) as ->.
    { apply eq_bool_prop_intro. rewrite !Is_true_true, !starts_with_ok. setoid_rewrite <- (assoc_L (++)).
      split; intros [u E]; exists u; [by apply app_inv_head in E|by rewrite E]. }
    destruct (starts_with t ps); [|done]. by rewrite length_app, <- drop_drop, drop_app_length.
  - destruct (starts_with tail (p ++ ps)) eqn:E2; [|done]. apply starts_with_ok in E2 as [u ->].
    rewrite <- (assoc_L (++)) in Ep. by rewrite (proj2 (starts_with_ok _ p)) in Ep by by eexists.
Qed.

(** A text that is compared piece by piece. *)
Lemma strip_eq x p q :
  bool_decide (x = p ++ q) = if starts_with x p then bool_decide (drop (length p) x = q) else false.
Proof.
  destruct (starts_with x p) eqn:E.
  - apply starts_with_ok in E as [t ->]. rewrite drop_app_length. apply bool_decide_ext. split; [apply app_inv_head|by intros ->].
  - apply bool_decide_eq_false. intros ->. by rewrite (proj2 (starts_with_ok _ p)) in E by by eexists.
Qed.

Lemma equals_text_ok d p text rhs : ToString d (Some p) = Done text ->
  equals_text d (Some p) rhs = Done (bool_decide (rhs = text)).
Proof.
  unfold ToString, equals_text. destruct (entry (proto_ids_ d) p) as [proto|]; [|done]. cbn [mbind cres_bind].
  intros H. apply bind_Done in H as (result & Hres & H).
  assert (exists ps, result = lit "(" ++ ps ++ lit ")" /\
    (match GetProtoParameters d proto with
     | None => Done (Some (drop 1 rhs))
     | Some params => size ← TypeList_Size params; match_params d params 0 (Z.to_nat size) (drop 1 rhs)
     end) = Done (if starts_with (drop 1 rhs) ps then Some (drop (length ps) (drop 1 rhs)) else None)) as (ps & -> & Hps).
  { destruct (GetProtoParameters d proto) as [params|].
    - destruct (TypeList_Size params) as [size|]; [|done]. cbn [mbind cres_bind] in *.
      apply bind_Done in Hres as (r & Hr & [= <-]).
      destruct (match_params_ok d params (Z.to_nat size) 0 _ _ (drop 1 rhs) Hr) as (ps & -> & Hm).
      exists ps. by rewrite <- (assoc_L (++)).
    - injection Hres as <-. exists []. split; [done|]. by rewrite (proj2 (starts_with_ok _ [])) by by eexists. }
  destruct (StringByTypeIdx d (return_type_idx_ proto)) as [[str|]|]; try done.
  change (c_str str ≫= (fun s => Done ((lit "(" ++ ps ++ lit ")") ++ s)) = Done text) in H.
  apply bind_Done in H as (ret & Hret & [= Et]). rewrite Hps. cbn [mbind cres_bind piece]. rewrite Hret. cbn [mbind cres_bind].
  replace text with (lit "(" ++ ps ++ lit ")" ++ ret) by (rewrite <- Et; cbn; by rewrite <- app_assoc).
  rewrite !strip_eq. change (length (lit "(")) with 1%nat.
  destruct (starts_with rhs (lit "(")); cbn [negb]; [|done].
  destruct (starts_with (drop 1 rhs) ps); [|done]. change (length (lit ")")) with 1%nat.
  destruct (starts_with _ (lit ")")); cbn [negb]; [|done]. by rewrite piece_eq_ok.
Qed.

(** ** Comparing with a signature of another dex file *)

Definition StringDataAndUtf16LengthByIdx (d : DexFile) (idx : Z) : cres (option (list Z) * Z) :=
  if idx =? kDexNoIndex then Done (None, 0)
  else
    string_id ← entry (string_ids_ d) idx;
    '(data, len) ← GetStringDataAndUtf16Length d string_id;
    Done (Some data, len).

(** A pointer passed to strcmp. *)
Definition not_null (p : option (list Z)) : cres (list Z) := match p with Some p => Done p | None => Fault NullDeref end.

Definition DexFileStringEquals (df1 : DexFile) (sidx1 : Z) (df2 : DexFile) (sidx2 : Z) : cres bool :=
  '(s1_data, s1_len) ← StringDataAndUtf16LengthByIdx df1 sidx1;
  '(s2_data, s2_len) ← StringDataAndUtf16LengthByIdx df2 sidx2;
  if s1_len =? s2_len then
    p1 ← not_null s1_data; p2 ← not_null s2_data;
    s1 ← c_str p1; s2 ← c_str p2;
    Done (streq s1 s2)
  else Done false.

Fixpoint equal_params (d1 d2 : DexFile) (params rhs_params : list Z) (i : Z) (n : nat) : cres bool :=
  match n with
  | O => Done true
  | S n =>
      item ← GetTypeItem params i;
      param_id ← entry (type_ids_ d1) item;
      rhs_item ← GetTypeItem rhs_params i;
      rhs_param_id ← entry (type_ids_ d2) rhs_item;
      equal ← DexFileStringEquals d1 param_id d2 rhs_param_id;
      if (equal : bool) then equal_params d1 d2 params rhs_params (i + 1) n else Done false
  end.

(** The bytes of a shorty. *)
Definition shorty_piece (data : option (list Z)) (len : Z) : list Z := take (Z.to_nat len) (default [] data).

(** [Signature::operator==(const Signature&)]; [same_file] says whether the dex
    files are the same object. *)
Definition equals (same_file : bool) (d1 : DexFile) (sig1 : option Z) (d2 : DexFile) (sig2 : option Z) : cres bool :=
  match sig1, sig2 with
  | None, None => Done true
  | None, Some _ | Some _, None => Done false
  | Some p1, Some p2 =>
      if same_file then Done (p1 =? p2)
      else
        proto1 ← entry (proto_ids_ d1) p1; proto2 ← entry (proto_ids_ d2) p2;
        '(data1, len1) ← StringDataAndUtf16LengthByIdx d1 (shorty_idx_ proto1);
        '(data2, len2) ← StringDataAndUtf16LengthByIdx d2 (shorty_idx_ proto2);
        let lhs_shorty := shorty_piece data1 len1 in
        if negb (piece_eq lhs_shorty (shorty_piece data2 len2)) then Done false
        else
          shorty ← not_null data1;
          first ← deref (head shorty);
          same_return ← (if first =? chr "L" then
                           id1 ← entry (type_ids_ d1) (return_type_idx_ proto1);
                           id2 ← entry (type_ids_ d2) (return_type_idx_ proto2);
                           DexFileStringEquals d1 id1 d2 id2
                         else Done true);
          if negb (same_return : bool) then Done false
          else if finds lhs_shorty (chr "L") 1 then
            match GetProtoParameters d1 proto1 with
            | None => Done true
            | Some params =>
                params_size ← TypeList_Size params;
                rhs_params ← not_null (GetProtoParameters d2 proto2);
                equal_params d1 d2 params rhs_params 0 (Z.to_nat params_size)
            end
          else Done true
  end.

(** ** Shorties *)

(** The character of a type in a shorty: all references are an L. *)
Definition shorty_char (s : list Z) : Z :=
  match s with c :: _ => if c =? chr "[" then chr "L" else c | [] => 0 end.
Definition shorty_of (ss : list (list Z)) (sr : list Z) : list Z := map shorty_char (sr :: ss).

(** A string of units whose bytes are a descriptor. *)
Definition is_type (s : list Z) : Prop := Forall (in_u 16) s /\ is_descriptor (utf8 s).

Lemma utf8_inj s t : Forall (in_u 16) s -> Forall (in_u 16) t -> utf8 s = utf8 t -> s = t.
Proof.
  intros Hs Ht E. apply compareTo_eq. pose proof (compare_utf8_ok true s s [] [] Hs Hs) as H1.
  pose proof (compare_utf8_ok true s t [] [] Hs Ht) as H2. unfold utf8z in *. rewrite <- E, H1, compareTo_refl in H2.
  by injection H2.
Qed.

Lemma utf8_ascii s : Forall (fun c => 0 < c < 0x80) s -> utf8 s = s.
Proof.
  induction 1 as [|c s Hc _ IH]; [done|]. rewrite utf8_cons, IH. unfold utf8_of_char.
  rewrite (proj2 (Z.ltb_lt 0 c)), (proj2 (Z.leb_le c _)) by lia. cbn [andb app]. f_equal. apply uwrap_small. unfold in_u. lia.
Qed.

Lemma utf8_nil s : Forall (in_u 16) s -> utf8 s = [] -> s = [].
Proof.
  intros Hs E. destruct s as [|c s]; [done|]. apply Forall_cons in Hs as [Hc _].
  rewrite utf8_cons in E. apply app_nil in E as [E _].
  destruct (utf8_of_char_form c Hc); discriminate E.
Qed.

Lemma descriptor_head b bs : is_descriptor (b :: bs) -> b = chr "[" \/ b = chr "L" \/ bs = [].
Proof. intros H. remember (b :: bs) as l eqn:E. destruct H; injection E as <- <-; auto. Qed.

(** A descriptor starts with an ASCII character, and that of a primitive type has no other. *)
Lemma type_head s : is_type s ->
  exists c tl, s = c :: tl /\ 0 < c < 0x80 /\ (c <> chr "[" -> c <> chr "L" -> tl = []).
Proof.
  intros [Hs Hd]. destruct s as [|c tl]; [inversion Hd|]. apply Forall_cons in Hs as [Hc Htl]. rewrite utf8_cons in Hd.
  exists c, tl. split; [done|].
  destruct (utf8_of_char_form c Hc) as [Hr|a b _ Ha Hb _|a b e _ Ha Hb He _]; cbn [app] in Hd;
    apply descriptor_head in Hd as [E|[E|E]];
    try (change (chr "[") with 91 in E; lia); try (change (chr "L") with 76 in E; lia); try discriminate E;
    (split; [done|]); intros H1 H2; (done || by apply utf8_nil).
Qed.

Lemma shorty_ascii s : is_type s -> 0 < shorty_char s < 0x80.
Proof.
  intros Hs. destruct (type_head s Hs) as (c & tl & -> & Hc & _). cbn [shorty_char].
  destruct (c =? chr "["); [change (chr "L") with 76; lia|done].
Qed.

(** Types with the same shorty are the same if it is not that of a reference. *)
Lemma shorty_prim s t : is_type s -> is_type t -> shorty_char s = shorty_char t -> shorty_char s <> chr "L" -> s = t.
Proof.
  intros Hs Ht. destruct (type_head s Hs) as (c & tl & -> & _ & H1), (type_head t Ht) as (c' & tl' & -> & _ & H2).
  cbn [shorty_char]. destruct (Z.eqb_spec c (chr "[")), (Z.eqb_spec c' (chr "[")); intros E Hne; try congruence.
  subst c'. rewrite H1, H2 by done. done.
Qed.

Lemma shorty_prims ss : forall ts, Forall is_type ss -> Forall is_type ts -> map shorty_char ss = map shorty_char ts ->
  chr "L" ∉ map shorty_char ss -> ss = ts.
Proof.
  induction ss as [|s ss IH]; intros [|t ts] Hss Hts E Hne; try discriminate E; [done|].
  apply Forall_cons in Hss as [Hs Hss], Hts as [Ht Hts]. injection E as E1 E2. cbn [map] in Hne.
  apply not_elem_of_cons in Hne as [H1 H2]. f_equal; [by apply shorty_prim; [..|congruence]|by apply IH].
Qed.

(** ** Two dex files *)

(** The length in front of each string is that of the string. *)
Definition exact_lengths (d : DexFile) (strs : list (list Z)) : Prop :=
  forall i off s, string_ids_ d !! i = Some off -> strs !! i = Some s ->
    exists rest, DecodeUnsignedLeb128 (at_offset d off) = Done (Z.of_nat (length s), utf8z s rest).

(** A prototype, the descriptors of its parameters and of its result; its shorty is theirs. *)
Record prototype (d : DexFile) (strs : list (list Z)) (p : Z) (proto : ProtoId) (params : list Z)
    (ss : list (list Z)) (sr : list Z) : Prop := {
  proto_entry : entry (proto_ids_ d) p = Done proto;
  proto_parameters : proto_params d proto params;
  proto_described : Forall2 (describes d strs) params ss;
  proto_result : describes d strs (return_type_idx_ proto) sr;
  proto_shorty : 0 <= shorty_idx_ proto /\ strs !! Z.to_nat (shorty_idx_ proto) = Some (shorty_of ss sr)
}.

Section File.
Context (d : DexFile) (strs protos : list (list Z)) (Hd : wf_dex d strs protos) (Hlen : exact_lengths d strs).

Lemma string_at idx s : 0 <= idx -> strs !! Z.to_nat idx = Some s ->
  Forall (in_u 16) s /\ exists rest, StringDataAndUtf16LengthByIdx d idx = Done (Some (utf8z s rest), Z.of_nat (length s)).
Proof.
  intros Hidx Hs. destruct (GetStringData_ok d strs protos Hd _ s Hs) as (off & _ & Hoff & _ & Hu). split; [done|].
  destruct (Hlen _ _ _ Hoff Hs) as (rest & E). exists rest. unfold StringDataAndUtf16LengthByIdx, entry.
  pose proof (lookup_lt_Some _ _ _ Hoff) as Hlt. pose proof (wf_strings_num _ _ _ Hd) as Hn. unfold NumIds in Hn.
  rewrite (proj2 (Z.eqb_neq idx kDexNoIndex)) by (unfold kDexNoIndex; lia).
  rewrite Hoff. cbn [deref mbind cres_bind]. unfold GetStringDataAndUtf16Length. by rewrite E.
Qed.

Lemma described_type t s : describes d strs t s -> is_type s.
Proof.
  intros (Ht & i & Hi & Hs). destruct (GetStringData_ok d strs protos Hd _ s Hs) as (_ & _ & _ & _ & Hu).
  split; [done|]. by eapply (wf_descriptors _ _ _ Hd).
Qed.

Lemma described_types ts ss : Forall2 (describes d strs) ts ss -> Forall is_type ss.
Proof. induction 1; constructor; [by eapply described_type|done]. Qed.

(** The string of a type that is described. *)
Lemma descriptor_idx t s : describes d strs t s ->
  exists i, entry (type_ids_ d) t = Done i /\ 0 <= i /\ strs !! Z.to_nat i = Some s.
Proof.
  intros (Ht & i & Hi & Hs). exists i. unfold entry. rewrite Hi. split; [done|]. split; [|done].
  pose proof (wf_types _ _ _ Hd _ _ Hi). lia.
Qed.

Lemma shorty_at p proto params ss sr : prototype d strs p proto params ss sr ->
  is_type sr /\ Forall is_type ss /\ exists rest,
    StringDataAndUtf16LengthByIdx d (shorty_idx_ proto) =
      Done (Some (shorty_of ss sr ++ 0 :: rest), Z.of_nat (length (shorty_of ss sr))).
Proof.
  intros [_ _ Hss Hsr [H0 Hs]]. pose proof (described_type _ _ Hsr) as Tr. pose proof (described_types _ _ Hss) as Ts.
  split; [done|]. split; [done|]. destruct (string_at _ _ H0 Hs) as (_ & rest & E). exists rest. rewrite E.
  unfold utf8z. rewrite utf8_ascii; [done|]. apply Forall_map, Forall_cons. split; [by apply shorty_ascii|].
  eapply Forall_impl; [exact Ts|]. intros s. apply shorty_ascii.
Qed.
End File.

Section Equal.
Context (d1 d2 : DexFile) (strs1 strs2 protos1 protos2 : list (list Z)).
Context (Hd1 : wf_dex d1 strs1 protos1) (Hd2 : wf_dex d2 strs2 protos2).
Context (Hl1 : exact_lengths d1 strs1) (Hl2 : exact_lengths d2 strs2).

Lemma string_equals_ok i1 i2 s1 s2 : 0 <= i1 -> 0 <= i2 -> strs1 !! Z.to_nat i1 = Some s1 -> strs2 !! Z.to_nat i2 = Some s2 ->
  DexFileStringEquals d1 i1 d2 i2 = Done (bool_decide (s1 = s2)).
Proof.
  intros H1 H2 Hs1 Hs2. unfold DexFileStringEquals.
  destruct (string_at d1 strs1 protos1 Hd1 Hl1 _ _ H1 Hs1) as (Hu1 & r1 & ->).
  destruct (string_at d2 strs2 protos2 Hd2 Hl2 _ _ H2 Hs2) as (Hu2 & r2 & ->). cbn [mbind cres_bind].
  destruct (Z.eqb_spec (Z.of_nat (length s1)) (Z.of_nat (length s2))) as [E|Hne].
  - cbn [not_null mbind cres_bind]. unfold utf8z.
    rewrite !c_str_app by (eapply Forall_impl; [by apply utf8_nonzero|cbn; lia]). cbn [mbind cres_bind].
    f_equal. unfold streq. apply bool_decide_ext. split; [by apply utf8_inj|by intros ->].
  - f_equal. symmetry. apply bool_decide_eq_false. by intros ->.
Qed.

Lemma described_equals_ok t1 t2 s1 s2 : describes d1 strs1 t1 s1 -> describes d2 strs2 t2 s2 ->
  exists i1 i2, entry (type_ids_ d1) t1 = Done i1 /\ entry (type_ids_ d2) t2 = Done i2 /\
    DexFileStringEquals d1 i1 d2 i2 = Done (bool_decide (s1 = s2)).
Proof.
  intros H1 H2. destruct (descriptor_idx _ _ _ Hd1 _ _ H1) as (i1 & E1 & P1 & S1).
  destruct (descriptor_idx _ _ _ Hd2 _ _ H2) as (i2 & E2 & P2 & S2). exists i1, i2.
  split; [done|]. split; [done|]. by apply string_equals_ok.
Qed.

Lemma equal_params_ok l1 l2 ps1 ps2 :
  (forall i t, ps1 !! i = Some t -> GetTypeItem l1 (Z.of_nat i) = Done t) ->
  (forall i t, ps2 !! i = Some t -> GetTypeItem l2 (Z.of_nat i) = Done t) ->
  forall ss1 ss2 k, Forall2 (describes d1 strs1) (drop k ps1) ss1 -> Forall2 (describes d2 strs2) (drop k ps2) ss2 ->
    length ss1 = length ss2 ->
    equal_params d1 d2 l1 l2 (Z.of_nat k) (length ss1) = Done (bool_decide (ss1 = ss2)).
Proof.
  intros Hi1 Hi2 ss1. induction ss1 as [|s1 ss1 IH]; intros [|s2 ss2] k H1 H2 Hlen; try discriminate Hlen; [done|].
  cbn [length equal_params].
  destruct (drop k ps1) as [|t1 r1] eqn:E1; [inversion H1|]. destruct (drop k ps2) as [|t2 r2] eqn:E2; [inversion H2|].
  apply Forall2_cons in H1 as [D1 H1], H2 as [D2 H2].
  assert (ps1 !! k = Some t1) as K1 by (by rewrite <- (Nat.add_0_r k), <- lookup_drop, E1).
  assert (ps2 !! k = Some t2) as K2 by (by rewrite <- (Nat.add_0_r k), <- lookup_drop, E2).
  destruct (described_equals_ok _ _ _ _ D1 D2) as (i1 & i2 & F1 & F2 & E).
  rewrite (Hi1 _ _ K1). cbn [mbind cres_bind]. rewrite F1. cbn [mbind cres_bind].
  rewrite (Hi2 _ _ K2). cbn [mbind cres_bind]. rewrite F2. cbn [mbind cres_bind]. rewrite E. cbn [mbind cres_bind].
  case_bool_decide as Es.
  - replace (Z.of_nat k + 1) with (Z.of_nat (S k)) by lia. rewrite (IH ss2).
    + f_equal. apply bool_decide_ext. split; [by intros ->; subst|by intros [= _ ->]].
    + rewrite (drop_S _ _ _ K1) in E1. by injection E1 as ->.
    + rewrite (drop_S _ _ _ K2) in E2. by injection E2 as ->.
    + by injection Hlen.
  - f_equal. symmetry. apply bool_decide_eq_false. by intros [= -> _].
Qed.
End Equal.

Section Same.
Context (d1 d2 : DexFile) (strs1 strs2 protos1 protos2 : list (list Z)).
Context (Hd1 : wf_dex d1 strs1 protos1) (Hd2 : wf_dex d2 strs2 protos2).
Context (Hl1 : exact_lengths d1 strs1) (Hl2 : exact_lengths d2 strs2).
Context (p1 p2 : Z) (proto1 proto2 : ProtoId) (ps1 ps2 : list Z) (ss1 ss2 : list (list Z)) (sr1 sr2 : list Z).
Context (P1 : prototype d1 strs1 p1 proto1 ps1 ss1 sr1) (P2 : prototype d2 strs2 p2 proto2 ps2 ss2 sr2).

(** With the same shorty, the result types are the same if the test says so. *)
Lemma return_ok : is_type sr1 -> is_type sr2 -> shorty_char sr1 = shorty_char sr2 ->
  (if shorty_char sr1 =? chr "L" then
     id1 ← entry (type_ids_ d1) (return_type_idx_ proto1);
     id2 ← entry (type_ids_ d2) (return_type_idx_ proto2);
     DexFileStringEquals d1 id1 d2 id2
   else Done true) = Done (bool_decide (sr1 = sr2)).
Proof.
  intros T1 T2 E. destruct (Z.eqb_spec (shorty_char sr1) (chr "L")) as [EL|Hne].
  - destruct (described_equals_ok d1 d2 strs1 strs2 protos1 protos2 Hd1 Hd2 Hl1 Hl2 _ _ _ _
      (proto_result _ _ _ _ _ _ _ P1) (proto_result _ _ _ _ _ _ _ P2)) as (i1 & i2 & -> & -> & E'). exact E'.
  - f_equal. symmetry. apply bool_decide_eq_true. by apply shorty_prim.
Qed.

(** The same for the parameters. *)
Lemma sig_params_ok : Forall is_type ss1 -> Forall is_type ss2 -> map shorty_char ss1 = map shorty_char ss2 ->
  (if finds (shorty_of ss1 sr1) (chr "L") 1 then
     match GetProtoParameters d1 proto1 with
     | None => Done true
     | Some params =>
         params_size ← TypeList_Size params;
         rhs_params ← not_null (GetProtoParameters d2 proto2);
         equal_params d1 d2 params rhs_params 0 (Z.to_nat params_size)
     end
   else Done true) = Done (bool_decide (ss1 = ss2)).
Proof.
  intros T1 T2 E. unfold finds. cbn [shorty_of map drop]. rewrite drop_0. case_bool_decide as HL.
  2:{ f_equal. symmetry. apply bool_decide_eq_true. by apply shorty_prims. }
  pose proof (f_equal length E) as Hlen. rewrite !length_map in Hlen.
  pose proof (proto_parameters _ _ _ _ _ _ _ P1) as H1. pose proof (proto_parameters _ _ _ _ _ _ _ P2) as H2.
  pose proof (proto_described _ _ _ _ _ _ _ P1) as D1. pose proof (proto_described _ _ _ _ _ _ _ P2) as D2.
  pose proof (Forall2_length _ _ _ D1) as N1. pose proof (Forall2_length _ _ _ D2) as N2.
  assert (length ss1 <> 0)%nat as Hne by (destruct ss1; [cbn in HL; set_solver|done]).
  unfold proto_params in *. destruct (GetProtoParameters d1 proto1) as [l1|]; [|subst ps1; cbn in N1; lia].
  destruct (GetProtoParameters d2 proto2) as [l2|]; [|subst ps2; cbn in N2; lia].
  destruct H1 as [-> I1], H2 as [_ I2]. cbn [mbind cres_bind not_null]. rewrite Nat2Z.id, N1.
  by apply (equal_params_ok d1 d2 strs1 strs2 protos1 protos2 Hd1 Hd2 Hl1 Hl2 l1 l2 ps1 ps2 I1 I2 ss1 ss2 0).
Qed.

Lemma equals_ok : equals false d1 (Some p1) d2 (Some p2) = Done (bool_decide (ss1 = ss2 /\ sr1 = sr2)).
Proof.
  destruct (shorty_at d1 strs1 protos1 Hd1 Hl1 _ _ _ _ _ P1) as (Tr1 & Ts1 & r1 & E1).
  destruct (shorty_at d2 strs2 protos2 Hd2 Hl2 _ _ _ _ _ P2) as (Tr2 & Ts2 & r2 & E2).
  cbn [equals]. rewrite (proto_entry _ _ _ _ _ _ _ P1), (proto_entry _ _ _ _ _ _ _ P2). cbn [mbind cres_bind].
  rewrite E1. cbn [mbind cres_bind]. rewrite E2. cbn [mbind cres_bind].
  unfold shorty_piece. cbn [default from_option id]. rewrite !Nat2Z.id, !take_app_length, piece_eq_ok.
  case_bool_decide as Es; cbn [negb].
  2:{ f_equal. symmetry. apply bool_decide_eq_false. intros [-> ->]. done. }
  unfold shorty_of in Es. injection Es as Er Eps. cbn [not_null mbind cres_bind].
  change (head (shorty_of ss1 sr1 ++ 0 :: r1)) with (Some (shorty_char sr1)). cbn [deref mbind cres_bind].
  rewrite return_ok by done. cbn [mbind cres_bind]. case_bool_decide as Esr; cbn [negb].
  - rewrite sig_params_ok by done. f_equal. apply bool_decide_ext. tauto.
  - f_equal. symmetry. apply bool_decide_eq_false. tauto.
Qed.
End Same.

(** Comparing signatures.  Comparing one with a text says whether ToString
    gives this text; comparing signatures of two dex files, which looks at their
    shorties first and skips the primitive types, says whether all parameter
    types and the result types are the same; NoSignature is equal to itself
    only. *)
Theorem signatures_equal d1 d2 strs1 strs2 protos1 protos2 p1 p2 proto1 proto2 ps1 ps2 ss1 ss2 sr1 sr2 :
  wf_dex d1 strs1 protos1 -> wf_dex d2 strs2 protos2 -> exact_lengths d1 strs1 -> exact_lengths d2 strs2 ->
  prototype d1 strs1 p1 proto1 ps1 ss1 sr1 -> prototype d2 strs2 p2 proto2 ps2 ss2 sr2 ->
  equals false d1 (Some p1) d2 (Some p2) = Done (bool_decide (ss1 = ss2 /\ sr1 = sr2)) /\
  (forall text, equals_text d1 (Some p1) text = Done (bool_decide (text = signature_text ss1 sr1))) /\
  (forall same text, equals same d1 None d2 (Some p2) = Done false /\ equals same d1 (Some p1) d2 None = Done false /\
     equals same d1 None d2 None = Done true /\ equals_text d1 None text = Done false).
Proof.
  intros Hd1 Hd2 Hl1 Hl2 P1 P2. split; [by eapply equals_ok|]. split; [|done].
  intros text. apply equals_text_ok. destruct P1 as [He Hp Hss Hsr _]. eapply ToString_ok; try done.
  unfold entry in He. destruct (proto_ids_ d1 !! Z.to_nat p1); [by injection He as ->|done].
Qed.

(** A file with the prototypes (I)LA; and ()V and their shorties LI and V; the
    last bytes are the debug information of methods. *)
Definition demo_file : DexFile := {|
  dex_begin_ := [1; 73; 0;  3; 76; 65; 59; 0;  2; 76; 73; 0;  1; 86; 0;  0;  1; 0; 0; 0; 0; 0;
                 10; 1; 0; 14; 1; 3; 15; 0;  5; 0; 3; 1; 0; 0; 0;  5; 0; 3; 0; 0; 4; 0;  5; 0; 9; 14; 0];
  string_ids_ := [0; 3; 8; 12];
  type_ids_ := [0; 1; 3];
  field_ids_ := []; method_ids_ := [{| method_class_idx_ := 1; method_proto_idx_ := 0; method_name_idx_ := 0 |};
                                     {| method_class_idx_ := 1; method_proto_idx_ := 1; method_name_idx_ := 0 |}];
  proto_ids_ := [{| shorty_idx_ := 2; return_type_idx_ := 1; parameters_off_ := 16 |};
                 {| shorty_idx_ := 3; return_type_idx_ := 2; parameters_off_ := 0 |}];
  class_defs_ := []; find_class_def_misses_ := 0; class_def_index_ := None
|}.
Definition demo_strings : list (list Z) := [[73]; [76; 65; 59]; [76; 73]; [86]].

Ltac each i := destruct i as [|[|[|[|i]]]]; cbn in *; try done; simplify_eq.

Lemma demo_lengths : exact_lengths demo_file demo_strings.
Proof.
  intros i off s Ho Hs. each i.
  - by exists (drop 3 (dex_begin_ demo_file)).
  - by exists (drop 8 (dex_begin_ demo_file)).
  - by exists (drop 12 (dex_begin_ demo_file)).
  - by exists (drop 15 (dex_begin_ demo_file)).
Qed.

Lemma demo_types t i s : type_ids_ demo_file !! t = Some i -> demo_strings !! Z.to_nat i = Some s -> is_descriptor (utf8 s).
Proof.
  intros Ht Hs. each t; vm_compute in Hs; injection Hs as <-.
  - apply descriptor_prim; vm_compute; congruence.
  - apply (descriptor_class [65]). intros H%list_elem_of_singleton. vm_compute in H. congruence.
  - apply descriptor_prim; vm_compute; congruence.
Qed.

Lemma demo_prototypes i proto key : proto_ids_ demo_file !! i = Some proto -> demo_protos !! i = Some key ->
  exists params, key = return_type_idx_ proto :: params /\ proto_params demo_file proto params /\
    Forall (fun t => 0 <= t < NumIds (type_ids_ demo_file)) key.
Proof.
  intros Hp Hk. each i.
  - exists [0]. split; [done|]. split; [|repeat constructor; vm_compute; congruence].
    split; [reflexivity|]. intros i t Hi. each i. reflexivity.
  - exists []. split; [done|]. split; [done|]. repeat constructor; vm_compute; congruence.
Qed.

Lemma demo_file_wf : wf_dex demo_file demo_strings demo_protos.
Proof.
  split.
  - intros i off s Ho Hs. destruct (demo_lengths i off s Ho Hs) as [rest E].
    split; [each i; repeat constructor; vm_compute; congruence|eauto].
  - reflexivity.
  - vm_compute. congruence.
  - apply sorted_by_neighbours. intros i s t Hs Ht. each i; vm_compute; done.
  - intros i t Ht. each i; split; vm_compute; congruence.
  - vm_compute. congruence.
  - apply sorted_by_neighbours. intros i s t Hs Ht. each i; vm_compute; done.
  - exact demo_types.
  - exact demo_prototypes.
  - reflexivity.
  - vm_compute. congruence.
  - apply sorted_by_neighbours. intros i s t Hs Ht. each i; vm_compute; done.
  - vm_compute. congruence.
  - apply sorted_by_neighbours. intros i s t Hs Ht. each i; vm_compute; done.
  - vm_compute. congruence.
  - apply sorted_by_neighbours. intros i s t Hs Ht. each i; vm_compute; done.
  - vm_compute. congruence.
  - intros i c Hc. each i.
  - apply NoDup_nil_2.
Qed.

Example signatures_equal_witness :
  equals false demo_file (Some 0) demo_file (Some 1) = Done false /\
  equals_text demo_file (Some 0) (lit "(I)LA;") = Done true.
Proof.
  assert (forall t i s, type_ids_ demo_file !! Z.to_nat t = Some i -> demo_strings !! Z.to_nat i = Some s -> 0 <= t ->
    describes demo_file demo_strings t s) as Hdesc by (intros t i s Hi Hs Ht; split; eauto).
  destruct (signatures_equal demo_file demo_file demo_strings demo_strings demo_protos demo_protos 0 1
    {| shorty_idx_ := 2; return_type_idx_ := 1; parameters_off_ := 16 |}
    {| shorty_idx_ := 3; return_type_idx_ := 2; parameters_off_ := 0 |} [0] [] [[73]] [] [76; 65; 59] [86]
    demo_file_wf demo_file_wf demo_lengths demo_lengths) as (H1 & H2 & _).
  - split; [done| | | |done].
    + split; [reflexivity|]. intros i t Hi. each i. reflexivity.
    + apply Forall2_cons. split; [by eapply Hdesc|constructor].
    + by eapply Hdesc.
  - split; [done|done|constructor| |done]. by eapply Hdesc.
  - split; [exact H1|exact (H2 (lit "(I)LA;"))].
Defined.
End Sig.
