(* ===== verification/DexDebug.v ===== *)
(** * DexDebug: debug information of methods
      (runtime/dex_file.h, dex_file.cc; dex_file_verifier.cc)

    The stream of debug information is a program for a machine with an address
    and a line; it calls back for positions and for the scopes of local
    variables.  The callbacks are functions on a context of type [C]. *)

From Stdlib Require Import Sorted.
From S2P Require Import Prelude CLib Leb128 Utf HashSet Dex DexItems DexValues.

(** ** Data *)

Record CodeItem := { registers_size_ : Z; ins_size_ : Z; debug_info_off_ : Z; insns_size_in_code_units_ : Z }.

(** Names, descriptors and signatures are pointers to C strings. *)
Record LocalInfo := {
  name_ : option (list Z); descriptor_ : option (list Z); signature_ : option (list Z);
  start_address_ : Z; is_live_ : bool
}.
Definition new_LocalInfo : LocalInfo :=
  {| name_ := None; descriptor_ := None; signature_ := None; start_address_ := 0; is_live_ := false |}.

Definition DBG_END_SEQUENCE : Z := 0x00.
Definition DBG_ADVANCE_PC : Z := 0x01.
Definition DBG_ADVANCE_LINE : Z := 0x02.
Definition DBG_START_LOCAL : Z := 0x03.
Definition DBG_START_LOCAL_EXTENDED : Z := 0x04.
Definition DBG_END_LOCAL : Z := 0x05.
Definition DBG_RESTART_LOCAL : Z := 0x06.
Definition DBG_SET_PROLOGUE_END : Z := 0x07.
Definition DBG_SET_EPILOGUE_BEGIN : Z := 0x08.
Definition DBG_SET_FILE : Z := 0x09.
Definition DBG_FIRST_SPECIAL : Z := 0x0a.
Definition DBG_LINE_BASE : Z := -4.
Definition DBG_LINE_RANGE : Z := 15.

Definition GetDebugInfoStream (d : DexFile) (code_item : CodeItem) : option (list Z) :=
  if debug_info_off_ code_item =? 0 then None else Some (at_offset d (debug_info_off_ code_item)).

(** [DecodeUnsignedLeb128P1] assigned to a uint32_t. *)
Definition decode_p1 (stream : list Z) : cres (Z * list Z) :=
  '(v, stream) ← DecodeUnsignedLeb128P1 stream; Done (u32 v, stream).

Section Decode.
Context {C : Type}.
Context (position_cb : option (C -> Z -> Z -> C * bool)).
(** The register, the start and the end of the scope, name, descriptor and
    signature. *)
Context (local_cb : option (C -> Z -> Z -> Z -> option (list Z) -> option (list Z) -> option (list Z) -> C)).
Context (d : DexFile) (code_item : CodeItem).

Definition need_locals : bool := match local_cb with Some _ => true | None => false end.

Definition InvokeLocalCbIfLive (context : C) (reg end_address : Z) (local_in_reg : list LocalInfo) : cres C :=
  match local_cb with
  | None => Done context
  | Some local_cb =>
      l ← deref (local_in_reg !! Z.to_nat reg);
      Done (if is_live_ l then
              local_cb context reg (start_address_ l) end_address (name_ l) (descriptor_ l)
                (match signature_ l with Some s => Some s | None => Some (lit "" ++ [0]) end)
            else context)
  end.

(** Writing to [local_in_reg[reg]]. *)
Definition update (local_in_reg : list LocalInfo) (reg : Z) (f : LocalInfo -> LocalInfo) : cres (list LocalInfo) :=
  l ← deref (local_in_reg !! Z.to_nat reg); Done (<[Z.to_nat reg := f l]> local_in_reg).

Definition start_local (name descriptor : option (list Z)) (signature : LocalInfo -> option (list Z)) (address : Z)
    (l : LocalInfo) : LocalInfo :=
  {| name_ := name; descriptor_ := descriptor; signature_ := signature l; start_address_ := u16 address; is_live_ := true |}.
Definition set_live (live : bool) (l : LocalInfo) : LocalInfo :=
  {| name_ := name_ l; descriptor_ := descriptor_ l; signature_ := signature_ l;
     start_address_ := start_address_ l; is_live_ := live |}.
Definition restart (address : Z) (l : LocalInfo) : LocalInfo :=
  {| name_ := name_ l; descriptor_ := descriptor_ l; signature_ := signature_ l;
     start_address_ := u16 address; is_live_ := true |}.

(** ** The parameters

    The loop over the [n] names in the stream and the [size] types of the list
    [types]; it gives up the stream if it runs out of registers or of names. *)
Fixpoint decode_params (n : nat) (types : list Z) (size pos arg_reg : Z) (stream : list Z) (locals : list LocalInfo)
    : cres (bool * list Z * list LocalInfo) :=
  if negb (pos <? size) then Done (true, stream, locals)
  else
    match n with
    | O => Done (false, stream, locals)
    | S n =>
        if registers_size_ code_item <=? arg_reg then Done (false, stream, locals)
        else
          '(id, stream) ← decode_p1 stream;
          t ← GetTypeItem types pos;
          descriptor ← StringByTypeIdx d t;
          locals ← (if need_locals && negb (id =? kDexNoIndex) then
                      name ← StringDataByIdx d id;
                      update locals arg_reg (start_local name descriptor (fun _ => None) 0)
                    else Done locals);
          p ← (match descriptor with Some p => Done p | None => Fault NullDeref end);
          c ← deref (head p);
          let width := if (c =? chr "D") || (c =? chr "J") then 2 else 1 in
          decode_params n types size (u32 (pos + 1)) (u16 (arg_reg + width)) stream locals
    end.

(** ** The program

    The machine: the rest of the stream, address and line, the local variables
    and the context. *)
Record machine := mkMachine {
  stream_ : list Z; address_ : Z; line_ : Z; locals_ : list LocalInfo; context_ : C
}.
Definition set_stream (m : machine) (s : list Z) : machine := mkMachine s (address_ m) (line_ m) (locals_ m) (context_ m).

(** Whether the stream goes on. *)
Inductive outcome := Go (m : machine) | Stop (m : machine).

(** DBG_START_LOCAL and DBG_START_LOCAL_EXTENDED. *)
Definition op_start_local (extended : bool) (m : machine) : cres outcome :=
  '(r, s) ← DecodeUnsignedLeb128 (stream_ m);
  let reg := u16 r in
  if registers_size_ code_item <? reg then Done (Stop (set_stream m s))
  else
    '(name_idx, s) ← decode_p1 s;
    '(descriptor_idx, s) ← decode_p1 s;
    '(signature_idx, s) ← (if extended then decode_p1 s else Done (0, s));
    if need_locals then
      context ← InvokeLocalCbIfLive (context_ m) reg (address_ m) (locals_ m);
      name ← StringDataByIdx d name_idx;
      descriptor ← StringByTypeIdx d descriptor_idx;
      signature ← (if extended then sg ← StringDataByIdx d signature_idx; Done (fun _ => sg)
                   else Done signature_);
      locals ← update (locals_ m) reg (start_local name descriptor signature (address_ m));
      Done (Go (mkMachine s (address_ m) (line_ m) locals context))
    else Done (Go (set_stream m s)).

Definition op_end_local (m : machine) : cres outcome :=
  '(r, s) ← DecodeUnsignedLeb128 (stream_ m);
  let reg := u16 r in
  if registers_size_ code_item <? reg then Done (Stop (set_stream m s))
  else if need_locals then
    context ← InvokeLocalCbIfLive (context_ m) reg (address_ m) (locals_ m);
    locals ← update (locals_ m) reg (set_live false);
    Done (Go (mkMachine s (address_ m) (line_ m) locals context))
  else Done (Go (set_stream m s)).

Definition op_restart_local (m : machine) : cres outcome :=
  '(r, s) ← DecodeUnsignedLeb128 (stream_ m);
  let reg := u16 r in
  if registers_size_ code_item <? reg then Done (Stop (set_stream m s))
  else if need_locals then
    l ← deref (locals_ m !! Z.to_nat reg);
    match name_ l, descriptor_ l with
    | Some _, Some _ =>
        if is_live_ l then Done (Go (set_stream m s))
        else
          locals ← update (locals_ m) reg (restart (address_ m));
          Done (Go (mkMachine s (address_ m) (line_ m) locals (context_ m)))
    | _, _ => Done (Stop (set_stream m s))
    end
  else Done (Go (set_stream m s)).

Definition op_special (opcode : Z) (m : machine) : outcome :=
  let adjopcode := opcode - DBG_FIRST_SPECIAL in
  let address := u32 (address_ m + adjopcode / DBG_LINE_RANGE) in
  let line := u32 (line_ m + (DBG_LINE_BASE + adjopcode mod DBG_LINE_RANGE)) in
  match position_cb with
  | None => Go (mkMachine (stream_ m) address line (locals_ m) (context_ m))
  | Some cb =>
      let '(context, stop) := cb (context_ m) address line in
      let m := mkMachine (stream_ m) address line (locals_ m) context in
      if stop : bool then Stop m else Go m
  end.

(** One turn of the loop. *)
Definition step (m : machine) : cres outcome :=
  '(opcode, s) ← next_byte (stream_ m);
  let m := set_stream m s in
  if opcode =? DBG_END_SEQUENCE then Done (Stop m)
  else if opcode =? DBG_ADVANCE_PC then
    '(n, s) ← DecodeUnsignedLeb128 s;
    Done (Go (mkMachine s (u32 (address_ m + n)) (line_ m) (locals_ m) (context_ m)))
  else if opcode =? DBG_ADVANCE_LINE then
    '(n, s) ← DecodeSignedLeb128 s;
    Done (Go (mkMachine s (address_ m) (u32 (line_ m + n)) (locals_ m) (context_ m)))
  else if opcode =? DBG_START_LOCAL then op_start_local false m
  else if opcode =? DBG_START_LOCAL_EXTENDED then op_start_local true m
  else if opcode =? DBG_END_LOCAL then op_end_local m
  else if opcode =? DBG_RESTART_LOCAL then op_restart_local m
  else if (opcode =? DBG_SET_PROLOGUE_END) || (opcode =? DBG_SET_EPILOGUE_BEGIN) || (opcode =? DBG_SET_FILE) then
    Done (Go m)
  else Done (op_special opcode m).

(** The loop; each turn reads a byte, so their number is enough fuel. *)
Fixpoint run (fuel : nat) (m : machine) : cres machine :=
  match fuel with
  | O => Fault OutOfFuel
  | S fuel => o ← step m; match o with Go m => run fuel m | Stop m => Done m end
  end.

(** ** Methods *)

Definition DecodeDebugInfo0 (is_static : bool) (method_idx : Z) (context : C) (stream : list Z)
    (local_in_reg : list LocalInfo) : cres (list LocalInfo * C) :=
  '(line, stream) ← DecodeUnsignedLeb128 stream;
  '(parameters_size, stream) ← DecodeUnsignedLeb128 stream;
  let arg_reg := u16 (registers_size_ code_item - ins_size_ code_item) in
  method_id ← entry (method_ids_ d) method_idx;
  '(arg_reg, locals) ← (if is_static then Done (arg_reg, local_in_reg)
                        else
                          locals ← (if need_locals then
                                      descriptor ← StringByTypeIdx d (method_class_idx_ method_id);
                                      update local_in_reg arg_reg
                                        (start_local (Some (lit "this" ++ [0])) descriptor (fun _ => None) 0)
                                    else Done local_in_reg);
                          Done (u16 (arg_reg + 1), locals));
  proto ← entry (proto_ids_ d) (method_proto_idx_ method_id);
  '(types, size) ← (match GetProtoParameters d proto with
                    | None => Done ([], 0)
                    | Some l => size ← TypeList_Size l; Done (l, size)
                    end);
  '(ok, stream, locals) ← decode_params (Z.to_nat parameters_size) types size 0 arg_reg stream locals;
  if ok : bool then
    m ← run (S (length stream)) (mkMachine stream 0 line locals context);
    Done (locals_ m, context_ m)
  else Done (locals, context).

(** The scopes that are open at the end of the method. *)
Fixpoint close_all (n : nat) (reg : Z) (locals : list LocalInfo) (context : C) : cres C :=
  match n with
  | O => Done context
  | S n =>
      context ← InvokeLocalCbIfLive context reg (insns_size_in_code_units_ code_item) locals;
      close_all n (reg + 1) locals context
  end.

Definition DecodeDebugInfo (is_static : bool) (method_idx : Z) (context : C) : cres C :=
  let local_in_reg := if need_locals then replicate (Z.to_nat (registers_size_ code_item)) new_LocalInfo else [] in
  '(locals, context) ← (match GetDebugInfoStream d code_item with
                        | None => Done (local_in_reg, context)
                        | Some stream => DecodeDebugInfo0 is_static method_idx context stream local_in_reg
                        end);
  close_all (Z.to_nat (registers_size_ code_item)) 0 locals context.
End Decode.

(** ** Line numbers *)

Record LineNumFromPcContext := { pc_address_ : Z; line_num_ : Z }.

Definition LineNumForPcCb (context : LineNumFromPcContext) (address line_num : Z) : LineNumFromPcContext * bool :=
  if pc_address_ context <? address then (context, true)
  else ({| pc_address_ := pc_address_ context; line_num_ := line_num |}, address =? pc_address_ context).

(** [GetLineNumFromPC] of a method with code. *)
Definition GetLineNumFromPC (d : DexFile) (code_item : option CodeItem) (is_static : bool) (method_idx rel_pc : Z) : cres Z :=
  match code_item with
  | None => Done (-2)
  | Some code_item =>
      context ← DecodeDebugInfo (Some LineNumForPcCb) None d code_item is_static method_idx
                  {| pc_address_ := rel_pc; line_num_ := u32 (-1) |};
      Done (s32 (line_num_ context))
  end.

(** ** Programs *)

(** An index of a string or type, or kDexNoIndex, is written plus one. *)
Definition p1 (idx : Z) : list Z := uleb (u32 (idx + 1)).

Inductive op :=
| AdvancePc (n : Z) | AdvanceLine (n : Z) | Special (opcode : Z) | PrologueEnd | EpilogueBegin
| StartLocal (reg name type : Z) (signature : option Z) | EndLocal (reg : Z) | RestartLocal (reg : Z).

Definition encode_op (o : op) : list Z :=
  match o with
  | AdvancePc n => DBG_ADVANCE_PC :: uleb n
  | AdvanceLine n => DBG_ADVANCE_LINE :: sleb n
  | Special opcode => [opcode]
  | PrologueEnd => [DBG_SET_PROLOGUE_END]
  | EpilogueBegin => [DBG_SET_EPILOGUE_BEGIN]
  | StartLocal reg name type None => DBG_START_LOCAL :: uleb reg ++ p1 name ++ p1 type
  | StartLocal reg name type (Some sg) => DBG_START_LOCAL_EXTENDED :: uleb reg ++ p1 name ++ p1 type ++ p1 sg
  | EndLocal reg => DBG_END_LOCAL :: uleb reg
  | RestartLocal reg => DBG_RESTART_LOCAL :: uleb reg
  end.
Definition encode_ops (ops : list op) : list Z := concat (map encode_op ops) ++ [DBG_END_SEQUENCE].

(** Registers of a frame of [size] registers. *)
Definition op_ok (size : Z) (o : op) : Prop :=
  match o with
  | AdvancePc n => in_u 32 n
  | AdvanceLine n => in_s 32 n
  | Special opcode => DBG_FIRST_SPECIAL <= opcode < 256
  | PrologueEnd | EpilogueBegin => True
  | StartLocal reg name type sg =>
      0 <= reg < size /\ in_u 32 name /\ in_u 32 type /\ match sg with Some sg => in_u 32 sg | None => True end
  | EndLocal reg | RestartLocal reg => 0 <= reg < size
  end.

(** The addresses and lines an operation moves by. *)
Definition pc_delta (o : op) : Z :=
  match o with AdvancePc n => n | Special c => (c - DBG_FIRST_SPECIAL) / DBG_LINE_RANGE | _ => 0 end.
Definition line_delta (o : op) : Z :=
  match o with AdvanceLine n => n | Special c => DBG_LINE_BASE + (c - DBG_FIRST_SPECIAL) mod DBG_LINE_RANGE | _ => 0 end.

Lemma decode_p1_ok idx rest : in_u 32 idx -> decode_p1 (p1 idx ++ rest) = Done (idx, rest).
Proof.
  intros Hi. unfold decode_p1, DecodeUnsignedLeb128P1, p1. rewrite decode_uleb by (apply uwrap_range; lia).
  cbn [mbind cres_bind]. do 2 f_equal. unfold uwrap. rewrite swrap_mod by lia. rewrite Zminus_mod_idemp_l.
  replace (idx + 1 - 1) with idx by lia. by apply Z.mod_small.
Qed.

(** ** Line numbers: a program without a callback for locals *)

Section Lines.
Context {C : Type} (cb : C -> Z -> Z -> C * bool) (d : DexFile) (code_item : CodeItem).
Context (Hregs : in_u 16 (registers_size_ code_item)).
#[local] Abbreviation Step := (step (Some cb) None d code_item).
#[local] Abbreviation Run := (run (Some cb) None d code_item).

Lemma reg_ok reg : 0 <= reg < registers_size_ code_item ->
  in_u 32 reg /\ (registers_size_ code_item <? u16 reg) = false.
Proof.
  intros Hr. unfold in_u in *. split; [lia|]. rewrite uwrap_small by (unfold in_u; lia). apply Z.ltb_ge. lia.
Qed.

Lemma step_moves o rest a l locals ctx : op_ok (registers_size_ code_item) o -> in_u 32 a -> in_u 32 l ->
  (forall c, o <> Special c) ->
  Step (mkMachine (encode_op o ++ rest) a l locals ctx) =
  Done (Go (mkMachine rest (u32 (a + pc_delta o)) (u32 (l + line_delta o)) locals ctx)).
Proof.
  intros Ho Ha Hl Hs. assert (u32 (a + 0) = a) as Ea by (rewrite Z.add_0_r; by apply uwrap_small).
  assert (u32 (l + 0) = l) as El by (rewrite Z.add_0_r; by apply uwrap_small).
  unfold step. destruct o as [n|n|c| | |reg name type [sg|]|reg|reg];
    cbn [encode_op app next_byte stream_ mbind cres_bind op_ok pc_delta line_delta] in *;
    try (by destruct (Hs c)); decide_consts; unfold set_stream; cbn [stream_ address_ line_ locals_ context_]; rewrite ?Ea, ?El; try done.
  - rewrite decode_uleb by done. done.
  - rewrite decode_sleb by done. done.
  - destruct Ho as (Hr & Hn & Ht & Hsg). destruct (reg_ok reg Hr) as [H1 H2].
    unfold op_start_local. cbn [stream_]. rewrite <- !(assoc_L (++)), decode_uleb by done. cbn [mbind cres_bind].
    rewrite H2, decode_p1_ok by done. cbn [mbind cres_bind]. rewrite decode_p1_ok by done. cbn [mbind cres_bind].
    rewrite decode_p1_ok by done. done.
  - destruct Ho as (Hr & Hn & Ht & _). destruct (reg_ok reg Hr) as [H1 H2].
    unfold op_start_local. cbn [stream_]. rewrite <- !(assoc_L (++)), decode_uleb by done. cbn [mbind cres_bind].
    rewrite H2, decode_p1_ok by done. cbn [mbind cres_bind]. rewrite decode_p1_ok by done. done.
  - destruct (reg_ok reg Ho) as [H1 H2]. unfold op_end_local. cbn [stream_]. rewrite decode_uleb by done.
    cbn [mbind cres_bind]. by rewrite H2.
  - destruct (reg_ok reg Ho) as [H1 H2]. unfold op_restart_local. cbn [stream_]. rewrite decode_uleb by done.
    cbn [mbind cres_bind]. by rewrite H2.
Qed.

Lemma special_opcode c : DBG_FIRST_SPECIAL <= c < 256 -> forall k, k < 10 -> (c =? k) = false.
Proof. unfold DBG_FIRST_SPECIAL. intros Hc k Hk. apply Z.eqb_neq. lia. Qed.

Lemma step_special c rest a l locals ctx : DBG_FIRST_SPECIAL <= c < 256 ->
  Step (mkMachine (c :: rest) a l locals ctx) = Done (op_special (Some cb) c (mkMachine rest a l locals ctx)).
Proof.
  intros Hc. unfold step. cbn [next_byte stream_ mbind cres_bind].
  unfold DBG_END_SEQUENCE, DBG_ADVANCE_PC, DBG_ADVANCE_LINE, DBG_START_LOCAL, DBG_START_LOCAL_EXTENDED, DBG_END_LOCAL,
    DBG_RESTART_LOCAL, DBG_SET_PROLOGUE_END, DBG_SET_EPILOGUE_BEGIN, DBG_SET_FILE.
  rewrite !(special_opcode c Hc) by lia. done.
Qed.

(** The positions of a program, from an address and a line. *)
Fixpoint positions (a l : Z) (ops : list op) : list (Z * Z) :=
  match ops with
  | [] => []
  | o :: ops =>
      let a := u32 (a + pc_delta o) in
      let l := u32 (l + line_delta o) in
      (match o with Special _ => [(a, l)] | _ => [] end) ++ positions a l ops
  end.

(** Calling back for positions until it says stop. *)
Fixpoint call_back (ctx : C) (ps : list (Z * Z)) : C :=
  match ps with
  | [] => ctx
  | (a, l) :: ps => let '(ctx, stop) := cb ctx a l in if stop : bool then ctx else call_back ctx ps
  end.

Lemma run_positions ops rest locals : forall fuel a l ctx,
  Forall (op_ok (registers_size_ code_item)) ops -> in_u 32 a -> in_u 32 l -> (length ops < fuel)%nat ->
  exists m, Run fuel (mkMachine (encode_ops ops ++ rest) a l locals ctx) = Done m /\
    context_ m = call_back ctx (positions a l ops) /\ locals_ m = locals.
Proof.
  induction ops as [|o ops IH]; intros fuel a l ctx Hok Ha Hl Hf; (destruct fuel as [|fuel]; [cbn in Hf; lia|]); cbn [run].
  - by eexists.
  - apply Forall_cons in Hok as [Ho Hok]. unfold encode_ops. cbn [map concat length positions] in *.
    rewrite <- !(assoc_L (++)). change (concat (map encode_op ops) ++ [DBG_END_SEQUENCE] ++ rest) with
      (concat (map encode_op ops) ++ ([DBG_END_SEQUENCE] ++ rest)).
    rewrite (assoc_L (++) (concat _)). change (concat (map encode_op ops) ++ [DBG_END_SEQUENCE]) with (encode_ops ops).
    assert (in_u 32 (u32 (a + pc_delta o)) /\ in_u 32 (u32 (l + line_delta o))) as [Ha' Hl']
      by (split; apply uwrap_range; lia).
    destruct (match o with Special c => true | _ => false end) eqn:Es.
    + destruct o as [| |c| | | | |]; try discriminate Es. cbn [encode_op app op_ok] in *.
      rewrite step_special by done. cbn [mbind cres_bind]. unfold op_special. cbn [address_ line_ context_ stream_ locals_].
      cbn [call_back app pc_delta line_delta] in *. destruct (cb ctx _ _) as [ctx' [|]]; [by eexists|].
      apply IH; (done || lia).
    + rewrite step_moves by (try done; by intros c ->). cbn [mbind cres_bind].
      destruct (IH fuel _ _ ctx Hok Ha' Hl' ltac:(lia)) as (m & E & Hm). exists m. split; [done|].
      destruct o; try discriminate Es; exact Hm.
Qed.
End Lines.

(** The registers of a parameter. *)
Definition width (s : list Z) : Z :=
  let c := default 0 (head (utf8 s)) in if (c =? chr "D") || (c =? chr "J") then 2 else 1.
Fixpoint total_width (ss : list (list Z)) : Z := match ss with [] => 0 | s :: ss => width s + total_width ss end.

Lemma width_pos s : 1 <= width s <= 2.
Proof. unfold width. destruct (_ || _); lia. Qed.
Lemma total_width_nonneg ss : 0 <= total_width ss.
Proof. induction ss as [|s ss IH]; cbn [total_width]; [lia|]. pose proof (width_pos s). lia. Qed.

Section Params.
Context {C : Type} (d : DexFile) (strs protos : list (list Z)) (code_item : CodeItem) (Hd : wf_dex d strs protos).

(** The names of the parameters are read; [P] is what a callback for locals needs of them. *)
Lemma params_ok cb (P : list LocalInfo -> Prop) l params rest :
  (forall i t, params !! i = Some t -> GetTypeItem l (Z.of_nat i) = Done t) -> Z.of_nat (length params) < 2 ^ 32 ->
  (need_locals cb = true -> forall locals reg name descriptor, 0 <= reg < registers_size_ code_item -> P locals ->
     exists locals', update locals reg (start_local name descriptor (fun _ => None) 0) = Done locals' /\ P locals') ->
  forall names ss k arg_reg locals, Forall2 (describes d strs) (drop k params) ss -> length names = length ss ->
    Forall (in_u 32) names -> (need_locals cb = true -> Forall (fun id => exists o, StringDataByIdx d id = Done o) names) ->
    0 <= arg_reg -> arg_reg + total_width ss <= registers_size_ code_item < 2 ^ 16 -> P locals ->
    exists locals', decode_params (C := C) cb d code_item (length names) l (Z.of_nat (length params)) (Z.of_nat k) arg_reg
      (concat (map p1 names) ++ rest) locals = Done (true, rest, locals') /\ P locals'.
Proof.
  intros Hitem Hn Hupd names. induction names as [|id names IH];
    intros [|s ss] k arg_reg locals Hss Hlen Hids Hnames Ha Hw HP; try discriminate Hlen.
  - apply Forall2_nil_inv_r in Hss. apply (f_equal length) in Hss. rewrite length_drop in Hss. cbn [length] in Hss.
    cbn [decode_params length]. rewrite (proj2 (Z.ltb_ge _ _)) by lia. by eexists.
  - destruct (drop k params) as [|t ts] eqn:Ed; [inversion Hss|]. apply Forall2_cons in Hss as [Hs Hss].
    assert (params !! k = Some t) as Hk by (by rewrite <- (Nat.add_0_r k), <- lookup_drop, Ed).
    pose proof (lookup_lt_Some _ _ _ Hk) as Hlt. apply Forall_cons in Hids as [Hid Hids].
    cbn [length map concat decode_params total_width] in *. pose proof (width_pos s) as Hws.
    pose proof (total_width_nonneg ss) as Hwss.
    rewrite (proj2 (Z.ltb_lt (Z.of_nat k) _)) by lia. cbn [negb]. rewrite (proj2 (Z.leb_gt _ _)) by lia.
    rewrite <- (assoc_L (++)), decode_p1_ok by done. cbn [mbind cres_bind]. rewrite (Hitem _ _ Hk). cbn [mbind cres_bind].
    destruct (StringByTypeIdx_ok d strs protos Hd t s Hs) as (Hu & r & ->). cbn [mbind cres_bind].
    assert (exists locals', (if need_locals cb && negb (id =? kDexNoIndex) then
        name ← StringDataByIdx d id; update locals arg_reg (start_local name (Some (utf8z s r)) (fun _ => None) 0)
      else Done locals) = Done locals' /\ P locals') as (locals' & -> & HP').
    { destruct (need_locals cb); [|by eexists]. destruct (negb _); [|by eexists]. cbn [andb].
      specialize (Hnames eq_refl). apply Forall_cons in Hnames as [[nm ->] _]. apply Hupd; (done || lia). }
    cbn [mbind cres_bind].
    assert (deref (head (utf8z s r)) = Done (default 0 (head (utf8 s)))) as -> by (unfold utf8z; by destruct (utf8 s)).
    cbn [mbind cres_bind]. fold (width s). rewrite !uwrap_small by (unfold in_u; lia).
    replace (Z.of_nat k + 1) with (Z.of_nat (S k)) by lia. apply (IH ss); try done; try lia.
    + rewrite (drop_S _ _ _ Hk) in Ed. by injection Ed as ->.
    + intros E. specialize (Hnames E). by apply Forall_cons in Hnames as [_ ?].
Qed.
End Params.

(** A method with debug information: the first line, the names of the parameters
    and the program. *)
Record debug_method (d : DexFile) (strs : list (list Z)) (code_item : CodeItem) (is_static : bool) (method_idx : Z)
    (line : Z) (ops : list op) : Prop := {
  dm_regs : in_u 16 (registers_size_ code_item);
  dm_line : in_u 32 line;
  dm_ops : Forall (op_ok (registers_size_ code_item)) ops;
  dm_decl : exists method_id proto params ss names rest,
    entry (method_ids_ d) method_idx = Done method_id /\
    entry (proto_ids_ d) (method_proto_idx_ method_id) = Done proto /\
    proto_params d proto params /\ Forall2 (describes d strs) params ss /\ Z.of_nat (length params) < 2 ^ 32 /\
    length names = length params /\ Forall (in_u 32) names /\
    Forall (fun id => exists o, StringDataByIdx d id = Done o) names /\
    0 <= method_class_idx_ method_id < NumIds (type_ids_ d) /\
    (if is_static then 0 else 1) + total_width ss <= ins_size_ code_item <= registers_size_ code_item /\
    GetDebugInfoStream d code_item =
      Some (uleb line ++ uleb (Z.of_nat (length names)) ++ concat (map p1 names) ++ encode_ops ops ++ rest)
}.

Lemma encode_ops_length ops : (length ops < length (encode_ops ops))%nat.
Proof.
  unfold encode_ops. rewrite length_app. cbn [length]. enough (length ops <= length (concat (map encode_op ops)))%nat by lia.
  induction ops as [|o ops IH]; [done|]. cbn [map concat length]. rewrite length_app.
  enough (1 <= length (encode_op o))%nat by lia. destruct o as [n|n|c| | |reg name type [sg|]|reg|reg]; cbn; lia.
Qed.

Lemma type_there d strs protos t : wf_dex d strs protos -> 0 <= t < NumIds (type_ids_ d) ->
  exists o, StringByTypeIdx d t = Done o.
Proof.
  intros Hd Ht. destruct (type_described d strs protos Hd t Ht) as [s Hs].
  destruct (StringByTypeIdx_ok d strs protos Hd t s Hs) as (_ & rest & E). eauto.
Qed.

(** The receiver and the parameters, and then the program. *)
Lemma decode0_ok {C} pcb cb (P : list LocalInfo -> Prop) d strs protos code_item is_static method_idx line ops :
  wf_dex d strs protos -> debug_method d strs code_item is_static method_idx line ops ->
  (need_locals cb = true -> forall locals reg name descriptor, 0 <= reg < registers_size_ code_item -> P locals ->
     exists locals', update locals reg (start_local name descriptor (fun _ => None) 0) = Done locals' /\ P locals') ->
  exists stream rest, GetDebugInfoStream d code_item = Some stream /\
    forall (ctx : C) locals, P locals -> exists locals', P locals' /\
      DecodeDebugInfo0 pcb cb d code_item is_static method_idx ctx stream locals =
      (m ← run pcb cb d code_item (S (length (encode_ops ops ++ rest)))
             (mkMachine (encode_ops ops ++ rest) 0 line locals' ctx);
       Done (locals_ m, context_ m)).
Proof.
  intros Hd [Hr Hl Hops (mid & proto & params & ss & names & rest & Em & Ep & Hp & Hss & Hn & Hlen & Hids & Hnames & Hcls & Hw & Es)] Hupd.
  eexists _, rest. split; [done|]. intros ctx locals HP. unfold DecodeDebugInfo0. rewrite decode_uleb by done.
  cbn [mbind cres_bind]. rewrite decode_uleb by (unfold in_u; lia). cbn [mbind cres_bind]. rewrite Em. cbn [mbind cres_bind].
  pose proof (total_width_nonneg ss) as Hws. unfold in_u in Hr.
  set (arg := registers_size_ code_item - ins_size_ code_item + if is_static then 0 else 1).
  rewrite (uwrap_small 16 (registers_size_ code_item - _)) by (unfold in_u; destruct is_static; lia).
  match goal with |- context [if is_static then ?a else ?b] =>
    assert (exists locals', (if is_static then a else b) = Done (arg, locals') /\ P locals') as (locals1 & -> & HP1) end.
  { subst arg. destruct is_static; [exists locals; split; [do 2 f_equal; lia|done]|].
    rewrite (uwrap_small 16 (_ + 1)) by (unfold in_u; lia). destruct (need_locals cb); [|by eexists].
    destruct (type_there d strs protos _ Hd Hcls) as [o ->]. cbn [mbind cres_bind].
    destruct (Hupd eq_refl locals (registers_size_ code_item - ins_size_ code_item) (Some (lit "this" ++ [0])) o)
      as (locals' & -> & HP'); [lia|done|]. by eexists. }
  cbn [mbind cres_bind]. rewrite Ep. cbn [mbind cres_bind].
  assert (exists locals', decode_params (C := C) cb d code_item (Z.to_nat (Z.of_nat (length names)))
    (default [] (GetProtoParameters d proto)) (Z.of_nat (length params)) 0 arg
    (concat (map p1 names) ++ encode_ops ops ++ rest) locals1 = Done (true, encode_ops ops ++ rest, locals') /\ P locals')
    as (locals2 & Hdec & HP2).
  { rewrite Nat2Z.id. unfold proto_params in Hp. destruct (GetProtoParameters d proto) as [l|].
    - destruct Hp as [_ Hitem].
      apply (params_ok (C := C) d strs protos code_item Hd cb P l params (encode_ops ops ++ rest) Hitem Hn Hupd names ss 0 arg);
        try done; subst arg; [rewrite Hlen; by apply Forall2_length in Hss|destruct is_static; lia|destruct is_static; lia].
    - subst params. destruct names; [|discriminate Hlen]. by eexists. }
  assert ((match GetProtoParameters d proto with
           | None => Done ([], 0)
           | Some l => size ← TypeList_Size l; Done (l, size)
           end) = Done (default [] (GetProtoParameters d proto), Z.of_nat (length params))) as ->.
  { unfold proto_params in Hp. destruct (GetProtoParameters d proto) as [l|]; [by destruct Hp as [-> _]|by subst]. }
  cbn [mbind cres_bind]. rewrite Hdec. exists locals2. by split.
Qed.

Lemma decode_positions {C} (cb : C -> Z -> Z -> C * bool) d strs protos code_item is_static method_idx line ops ctx :
  wf_dex d strs protos -> debug_method d strs code_item is_static method_idx line ops ->
  DecodeDebugInfo (Some cb) None d code_item is_static method_idx ctx = Done (call_back cb ctx (positions 0 line ops)).
Proof.
  intros Hd Hm. destruct (decode0_ok (Some cb) None (eq []) d strs protos code_item is_static method_idx line ops Hd Hm
    ltac:(done)) as (stream & rest & Es & H). destruct (H ctx [] eq_refl) as (? & <- & E).
  unfold DecodeDebugInfo. rewrite Es. cbn [need_locals]. rewrite E. destruct Hm as [Hr Hl Hops _].
  destruct (run_positions cb d code_item Hr ops rest [] (S (length (encode_ops ops ++ rest))) 0 line ctx Hops) as (m & -> & Hc & Hl');
    [done|done|rewrite length_app; pose proof (encode_ops_length ops); lia|].
  cbn [mbind cres_bind]. rewrite Hc. generalize (call_back cb ctx (positions 0 line ops)). clear.
  intros c. generalize 0. induction (Z.to_nat (registers_size_ code_item)) as [|n IH]; intros reg; [done|]. apply IH.
Qed.

(** ** Line numbers *)

(** The line of the first position at the address, or else that of the last
    position before it. *)
Definition line_for (pc : Z) (ps : list (Z * Z)) (none : Z) : Z :=
  match filter (fun p => p.1 = pc) ps with
  | (_, l) :: _ => l
  | [] => match last (filter (fun p => p.1 < pc) ps) with Some (_, l) => l | None => none end
  end.
Definition ascending (ps : list (Z * Z)) : Prop := StronglySorted (fun p q : Z * Z => p.1 <= q.1) ps.

Lemma line_for_ok pc : forall ps cur, ascending ps ->
  line_num_ (call_back LineNumForPcCb {| pc_address_ := pc; line_num_ := cur |} ps) = line_for pc ps cur.
Proof.
  induction ps as [|[a l] ps IH]; intros cur Hs; [done|]. apply StronglySorted_inv in Hs as [Hs Hall].
  unfold line_for. cbn [call_back]. unfold LineNumForPcCb at 1. cbn [pc_address_].
  destruct (Z.ltb_spec pc a) as [Hlt|Hge].
  - assert (forall p, p ∈ (a, l) :: ps -> pc < p.1) as Hbig.
    { intros p [->|Hp]%elem_of_cons; [done|]. rewrite Forall_forall in Hall. specialize (Hall p Hp). cbn in Hall. lia. }
    assert (filter (fun p => p.1 = pc) ((a, l) :: ps) = []) as -> 
      by (apply filter_none; intros p Hp; specialize (Hbig p Hp); lia).
    assert (filter (fun p => p.1 < pc) ((a, l) :: ps) = []) as -> 
      by (apply filter_none; intros p Hp; specialize (Hbig p Hp); lia).
    done.
  - destruct (Z.eqb_spec a pc) as [->|Hne].
    + rewrite filter_cons_True by done. done.
    + rewrite IH by done. unfold line_for. rewrite filter_cons_False by done.
      rewrite (filter_cons_True (fun p : Z * Z => p.1 < pc)) by (cbn; lia).
      destruct (filter (fun p => p.1 = pc) ps) as [|[]]; [|done].
      rewrite last_cons. by destruct (last (filter (fun p => p.1 < pc) ps)) as [[]|].
Qed.

(** The addresses ascend as long as they do not wrap around. *)
Fixpoint total_pc (ops : list op) : Z := match ops with [] => 0 | o :: ops => pc_delta o + total_pc ops end.

Lemma pc_delta_nonneg size o : op_ok size o -> 0 <= pc_delta o.
Proof.
  destruct o; cbn; try lia; unfold in_u, DBG_FIRST_SPECIAL, DBG_LINE_RANGE; [lia|]. intros H. apply Z.div_pos; lia.
Qed.
Lemma total_pc_nonneg size ops : Forall (op_ok size) ops -> 0 <= total_pc ops.
Proof. induction 1 as [|o ops Ho _ IH]; cbn [total_pc]; [lia|]. pose proof (pc_delta_nonneg _ _ Ho). lia. Qed.

Lemma positions_ascend size ops : Forall (op_ok size) ops -> forall a l, 0 <= a -> a + total_pc ops < 2 ^ 32 ->
  ascending (positions a l ops) /\ Forall (fun p => a <= p.1) (positions a l ops).
Proof.
  induction 1 as [|o ops Ho Hops IH]; intros a l Ha Ht; cbn [positions total_pc] in *; [by split; constructor|].
  pose proof (pc_delta_nonneg _ _ Ho) as Hp. pose proof (total_pc_nonneg _ _ Hops) as Hn.
  rewrite (uwrap_small 32 (a + _)) by (unfold in_u; lia).
  destruct (IH (a + pc_delta o) (u32 (l + line_delta o)) ltac:(lia) ltac:(lia)) as [Hs Hall].
  assert (Forall (fun p : Z * Z => a <= p.1) (positions (a + pc_delta o) (u32 (l + line_delta o)) ops)) as Hall'
    by (eapply Forall_impl; [exact Hall|cbn; lia]).
  destruct o; cbn [app] in *; try (by split). split; [by constructor|]. constructor; [cbn in *; lia|done].
Qed.

(** The line number of an address.  For a method with debug information whose
    addresses do not wrap around, GetLineNumFromPC is the line of the position
    at the address, or of the last one before it, or -1; the parameters' names
    and the local variables in the information do not matter.  A method without
    code gives -2. *)
Theorem line_number_of_pc d strs protos code_item is_static method_idx line ops pc :
  wf_dex d strs protos -> debug_method d strs code_item is_static method_idx line ops -> total_pc ops < 2 ^ 32 ->
  GetLineNumFromPC d (Some code_item) is_static method_idx pc =
    Done (s32 (line_for pc (positions 0 line ops) (u32 (-1)))) /\
  GetLineNumFromPC d None is_static method_idx pc = Done (-2).
Proof.
  intros Hd Hm Hs. split; [|done]. unfold GetLineNumFromPC.
  rewrite (decode_positions LineNumForPcCb d strs protos code_item is_static method_idx line ops _ Hd Hm).
  cbn [mbind cres_bind]. rewrite line_for_ok; [done|].
  by eapply positions_ascend; [apply Hm|..].
Qed.

(** A method whose first position is line 10 at 0, and the second line 11 at 3. *)
Definition demo_code : CodeItem :=
  {| registers_size_ := 3; ins_size_ := 2; debug_info_off_ := 22; insns_size_in_code_units_ := 5 |}.
Definition demo_ops : list op := [Special 14; AdvancePc 3; Special 15].

Lemma demo_method : debug_method Sig.demo_file Sig.demo_strings demo_code false 0 10 demo_ops.
Proof.
  split; [done|done|repeat constructor; cbn; unfold in_u, DBG_FIRST_SPECIAL; lia|].
  do 2 eexists. exists [0], [[73]], [kDexNoIndex], (drop 30 (dex_begin_ Sig.demo_file)). split_and!; try reflexivity.
  - split; [reflexivity|]. intros [|[|i]] t Hi; [by injection Hi as <-|done|done].
  - apply Forall2_cons. split; [|constructor]. split; [lia|]. by exists 0.
  - repeat constructor; unfold kDexNoIndex; lia.
  - repeat constructor. by exists None.
  - cbn. lia.
  - cbn. lia.
Qed.

Example line_number_of_pc_witness :
  GetLineNumFromPC Sig.demo_file (Some demo_code) false 0 2 = Done 10 /\
  GetLineNumFromPC Sig.demo_file (Some demo_code) false 0 4 = Done 11.
Proof.
  split.
  - exact (proj1 (line_number_of_pc _ _ _ _ false 0 10 demo_ops 2 Sig.demo_file_wf demo_method eq_refl)).
  - exact (proj1 (line_number_of_pc _ _ _ _ false 0 10 demo_ops 4 Sig.demo_file_wf demo_method eq_refl)).
Defined.

(** ** Scopes of local variables *)

(** A scope as it is reported: the register, where it starts and where it ends. *)
Record scope := { s_reg : Z; s_start : Z; s_end : Z }.

(** A callback that records the scopes, the last one first. *)
Definition record_scope (ctx : list scope) (reg start end_ : Z) (_ _ _ : option (list Z)) : list scope :=
  {| s_reg := reg; s_start := start; s_end := end_ |} :: ctx.

(** Scopes of a register follow one another. *)
Definition scopes_ok (limit : Z) (ctx : list scope) : Prop :=
  ForallOrdPairs (fun s t => s_reg s = s_reg t -> s_end t <= s_start s) ctx /\
  Forall (fun s => s_start s <= s_end s <= limit) ctx.

Section Scopes.
Context (d : DexFile) (strs protos : list (list Z)) (code_item : CodeItem) (Hd : wf_dex d strs protos).
Context (Hregs : in_u 16 (registers_size_ code_item)).
#[local] Abbreviation n := (registers_size_ code_item).

(** The variables that are live have started after all scopes of their register. *)
Definition live_ok (k a : Z) (locals : list LocalInfo) (ctx : list scope) : Prop :=
  forall r l, k <= r -> locals !! Z.to_nat r = Some l -> is_live_ l = true ->
    start_address_ l <= a /\ forall s, s ∈ ctx -> s_reg s = r -> s_end s <= start_address_ l.
Definition inv (a : Z) (locals : list LocalInfo) (ctx : list scope) : Prop :=
  Z.of_nat (length locals) = n /\ scopes_ok a ctx /\ live_ok 0 a locals ctx.

Lemma inv_later a a' locals ctx : inv a locals ctx -> a <= a' -> inv a' locals ctx.
Proof.
  intros (Hl & [Ho Hs] & Hv) Ha. split; [done|]. split.
  - split; [done|]. eapply Forall_impl; [exact Hs|]. cbn. lia.
  - intros r l Hr Hrl Hlive. destruct (Hv r l Hr Hrl Hlive) as [H1 H2]. split; [lia|done].
Qed.

(** Reporting the variable of a register. *)
Lemma invoke_ok k a b locals ctx reg : 0 <= k <= reg -> 0 <= reg < Z.of_nat (length locals) -> a <= b ->
  scopes_ok b ctx -> live_ok k a locals ctx ->
  exists ctx', InvokeLocalCbIfLive (Some record_scope) ctx reg b locals = Done ctx' /\ scopes_ok b ctx' /\
    (forall s, s ∈ ctx' -> s ∈ ctx \/ s_reg s = reg).
Proof.
  intros Hk Hreg Hab [Ho Hs] Hv. unfold InvokeLocalCbIfLive.
  destruct (lookup_lt_is_Some_2 locals (Z.to_nat reg) ltac:(lia)) as [l El]. rewrite El. cbn [deref mbind cres_bind].
  eexists. split; [done|]. destruct (is_live_ l) eqn:Elive; [|split; [done|auto]].
  destruct (Hv reg l ltac:(lia) El Elive) as [H1 H2]. split; [|intros s [->|Hin]%elem_of_cons; auto].
  split; [|constructor; [cbn; lia|done]]. constructor; [|done]. apply Forall_forall. intros s Hin E. cbn in *. by apply H2.
Qed.

(** Reporting it and then giving the register a variable that starts now, or none. *)
Lemma invoke_update a locals ctx reg f : 0 <= reg < n -> inv a locals ctx ->
  (forall l, is_live_ (f l) = true -> start_address_ (f l) = a) ->
  exists ctx' locals', InvokeLocalCbIfLive (Some record_scope) ctx reg a locals = Done ctx' /\
    update locals reg f = Done locals' /\ inv a locals' ctx'.
Proof.
  intros Hreg (Hl & Hs & Hv) Hf.
  destruct (invoke_ok 0 a a locals ctx reg ltac:(lia) ltac:(lia) ltac:(lia) Hs Hv) as (ctx' & E & Hs' & Hin).
  unfold update. destruct (lookup_lt_is_Some_2 locals (Z.to_nat reg) ltac:(lia)) as [l El]. rewrite El.
  cbn [deref mbind cres_bind]. eexists ctx', _. split; [done|]. split; [done|].
  split; [by rewrite length_insert|]. split; [done|]. intros r l' Hr Hrl Hlive.
  destruct (decide (Z.to_nat r = Z.to_nat reg)) as [Er|Hne].
  - rewrite Er, list_lookup_insert_eq in Hrl by lia. injection Hrl as <-. rewrite Hf by done. split; [lia|].
    intros s Hin' _. destruct Hs' as [_ Hall]. rewrite Forall_forall in Hall. specialize (Hall s Hin'). cbn in Hall. lia.
  - rewrite list_lookup_insert_ne in Hrl by done. destruct (Hv r l' Hr Hrl Hlive) as [H1 H2]. split; [done|].
    intros s Hin' Es. destruct (Hin s Hin') as [?|E']; [by apply H2|]. lia.
Qed.

(** Starting a variable that was not live, or naming a parameter. *)
Lemma update_start a locals ctx reg f : 0 <= reg < n -> inv a locals ctx ->
  (forall l, start_address_ (f l) = a) ->
  exists locals', update locals reg f = Done locals' /\ inv a locals' ctx.
Proof.
  intros Hreg (Hl & Hs & Hv) Hf. unfold update.
  destruct (lookup_lt_is_Some_2 locals (Z.to_nat reg) ltac:(lia)) as [l El]. rewrite El. cbn [deref mbind cres_bind].
  eexists. split; [done|]. split; [by rewrite length_insert|]. split; [done|]. intros r l' Hr Hrl Hlive.
  destruct (decide (Z.to_nat r = Z.to_nat reg)) as [Er|Hne].
  - rewrite Er, list_lookup_insert_eq in Hrl by lia. injection Hrl as <-. rewrite Hf. split; [lia|].
    intros s Hin _. destruct Hs as [_ Hall]. rewrite Forall_forall in Hall. specialize (Hall s Hin). cbn in Hall. lia.
  - rewrite list_lookup_insert_ne in Hrl by done. by apply Hv.
Qed.

(** ** Programs keep the invariant *)

(** The indices of an operation are those of strings and types of the file. *)
Definition string_idx_ok (idx : Z) : Prop := idx = kDexNoIndex \/ 0 <= idx < NumIds (string_ids_ d).
Definition op_valid (o : op) : Prop :=
  match o with
  | StartLocal _ name type sg =>
      string_idx_ok name /\ 0 <= type < NumIds (type_ids_ d) /\ match sg with Some sg => string_idx_ok sg | None => True end
  | _ => True
  end.

Lemma string_there idx : string_idx_ok idx -> exists o, StringDataByIdx d idx = Done o.
Proof.
  unfold string_idx_ok, StringDataByIdx. intros H. destruct (Z.eqb_spec idx kDexNoIndex) as [|Hne]; [eauto|].
  destruct H as [H|H]; [done|]. unfold NumIds in H. rewrite <- (wf_strings_length _ _ _ Hd) in H.
  destruct (lookup_lt_is_Some_2 strs (Z.to_nat idx) ltac:(lia)) as [s Hs].
  destruct (GetStringData_ok d strs protos Hd _ s Hs) as (off & rest & Hoff & E & _).
  unfold entry. rewrite Hoff. cbn [deref mbind cres_bind]. rewrite E. eauto.
Qed.
#[local] Abbreviation Step := (step (C := list scope) None (Some record_scope) d code_item).

(** What a turn of the loop leaves behind. *)
Definition after (rest : list Z) (a : Z) (o : outcome) : Prop :=
  match o with
  | Go m => stream_ m = rest /\ address_ m = a /\ inv a (locals_ m) (context_ m)
  | Stop m => address_ m = a /\ inv a (locals_ m) (context_ m)
  end.

Lemma start_local_ok reg name type sg rest a l locals ctx : op_ok n (StartLocal reg name type sg) ->
  op_valid (StartLocal reg name type sg) -> 0 <= a < 2 ^ 16 -> inv a locals ctx ->
  exists o, Step (mkMachine (encode_op (StartLocal reg name type sg) ++ rest) a l locals ctx) = Done o /\ after rest a o.
Proof.
  intros (Hr & Hn & Ht & Hsg) (Vn & Vt & Vs) Ha Hinv. destruct (reg_ok code_item Hregs reg Hr) as [H1 H2].
  assert (u16 reg = reg) as Er by (unfold in_u in Hregs; apply uwrap_small; unfold in_u; lia).
  destruct (string_there name Vn) as [nm En], (type_there d strs protos type Hd Vt) as [ty Et].
  assert (u16 a = a) as Ea by by apply uwrap_small.
  unfold step. destruct sg as [sg|]; cbn [encode_op app next_byte stream_ mbind cres_bind]; decide_consts;
    unfold set_stream; cbn [address_ line_ locals_ context_]; unfold op_start_local; cbn [stream_ address_ line_ locals_ context_];
    rewrite <- !(assoc_L (++)), decode_uleb by done; cbn [mbind cres_bind]; rewrite H2, decode_p1_ok by done;
    cbn [mbind cres_bind]; rewrite decode_p1_ok by done; cbn [mbind cres_bind need_locals].
  - rewrite decode_p1_ok by done. cbn [mbind cres_bind]. rewrite Er. destruct (string_there sg Vs) as [sig Esig].
    destruct (invoke_update a locals ctx reg (start_local nm ty (fun _ => sig) a)) as (ctx' & locals' & -> & Eu & Hinv');
      [done|done|done|].
    cbn [mbind cres_bind]. rewrite En. cbn [mbind cres_bind]. rewrite Et. cbn [mbind cres_bind]. rewrite Esig.
    cbn [mbind cres_bind]. rewrite Eu. cbn [mbind cres_bind]. eexists. split; [done|]. done.
  - rewrite Er.
    destruct (invoke_update a locals ctx reg (start_local nm ty signature_ a)) as (ctx' & locals' & -> & Eu & Hinv');
      [done|done|done|].
    cbn [mbind cres_bind]. rewrite En. cbn [mbind cres_bind]. rewrite Et. cbn [mbind cres_bind].
    rewrite Eu. cbn [mbind cres_bind]. eexists. split; [done|]. done.
Qed.

Lemma step_scopes o rest a l locals ctx : op_ok n o -> op_valid o -> 0 <= a -> a + pc_delta o < 2 ^ 16 ->
  inv a locals ctx ->
  exists r, Step (mkMachine (encode_op o ++ rest) a l locals ctx) = Done r /\ after rest (a + pc_delta o) r.
Proof.
  intros Ho Hv Ha Hpc Hinv. pose proof (pc_delta_nonneg _ _ Ho) as Hp.
  assert (forall x, x = a + pc_delta o -> inv x locals ctx) as Hlater by (intros x ->; apply (inv_later a); [done|lia]).
  destruct o as [k|k|c| | |reg name type sg|reg|reg]; cbn [pc_delta] in *;
    try (rewrite Z.add_0_r in *; by apply start_local_ok); try (rewrite Z.add_0_r in * );
    unfold step; cbn [encode_op app next_byte stream_ mbind cres_bind op_ok] in *.
  - decide_consts. rewrite decode_uleb by done. eexists. split; [done|]. unfold set_stream. cbn.
    rewrite uwrap_small by (unfold in_u; lia). auto.
  - decide_consts. rewrite decode_sleb by done. eexists. by split.
  - unfold DBG_END_SEQUENCE, DBG_ADVANCE_PC, DBG_ADVANCE_LINE, DBG_START_LOCAL, DBG_START_LOCAL_EXTENDED, DBG_END_LOCAL,
      DBG_RESTART_LOCAL, DBG_SET_PROLOGUE_END, DBG_SET_EPILOGUE_BEGIN, DBG_SET_FILE.
    rewrite !(special_opcode c Ho) by lia. eexists. split; [done|]. cbn [orb op_special after]. unfold set_stream. cbn -[Z.div].
    rewrite uwrap_small by (unfold in_u; lia). auto.
  - decide_consts. eexists. by split.
  - decide_consts. eexists. by split.
  - decide_consts. unfold op_end_local, set_stream. cbn [stream_ address_ line_ locals_ context_].
    destruct (reg_ok code_item Hregs reg Ho) as [H1 H2]. rewrite decode_uleb by done. cbn [mbind cres_bind need_locals].
    assert (u16 reg = reg) as Er by (unfold in_u in Hregs; apply uwrap_small; unfold in_u; lia). rewrite H2, Er.
    destruct (invoke_update a locals ctx reg (set_live false)) as (ctx' & locals' & -> & Eu & Hinv'); [done|done|done|].
    cbn [mbind cres_bind]. rewrite Eu. cbn [mbind cres_bind]. eexists. by split.
  - decide_consts. unfold op_restart_local, set_stream. cbn [stream_ address_ line_ locals_ context_].
    destruct (reg_ok code_item Hregs reg Ho) as [H1 H2]. rewrite decode_uleb by done. cbn [mbind cres_bind need_locals].
    assert (u16 reg = reg) as Er by (unfold in_u in Hregs; apply uwrap_small; unfold in_u; lia). rewrite H2, Er.
    pose proof Hinv as (Hl & _). destruct (lookup_lt_is_Some_2 locals (Z.to_nat reg) ltac:(lia)) as [x Ex]. rewrite Ex.
    cbn [deref mbind cres_bind]. destruct (name_ x), (descriptor_ x); try (eexists; by split).
    destruct (is_live_ x); [eexists; by split|].
    destruct (update_start a locals ctx reg (restart a) Ho Hinv) as (locals' & -> & Hinv'); [intros; cbn; apply uwrap_small; unfold in_u; lia|].
    cbn [mbind cres_bind]. eexists. by split.
Qed.

Lemma run_scopes ops rest : forall fuel a l locals ctx, Forall (op_ok n) ops -> Forall op_valid ops ->
  0 <= a -> a + total_pc ops < 2 ^ 16 -> inv a locals ctx -> (length ops < fuel)%nat ->
  exists m, run None (Some record_scope) d code_item fuel (mkMachine (encode_ops ops ++ rest) a l locals ctx) = Done m /\
    inv (a + total_pc ops) (locals_ m) (context_ m).
Proof.
  induction ops as [|o ops IH]; intros fuel a l locals ctx Hok Hv Ha Ht Hinv Hf;
    (destruct fuel as [|fuel]; [cbn in Hf; lia|]); cbn [run].
  - eexists. split; [done|]. cbn. by rewrite Z.add_0_r.
  - apply Forall_cons in Hok as [Ho Hok]. apply Forall_cons in Hv as [Vo Hv]. cbn [total_pc length] in *.
    pose proof (pc_delta_nonneg _ _ Ho) as Hp. pose proof (total_pc_nonneg _ _ Hok) as Hn.
    assert (encode_ops (o :: ops) ++ rest = encode_op o ++ encode_ops ops ++ rest) as ->
      by (unfold encode_ops; cbn [map concat]; by rewrite <- !(assoc_L (++))).
    destruct (step_scopes o (encode_ops ops ++ rest) a l locals ctx Ho Vo Ha ltac:(lia) Hinv) as (r & -> & Hafter).
    cbn [mbind cres_bind]. destruct r as [m|m].
    + destruct m as [st a' l' locals' ctx']. cbn [after stream_ address_ locals_ context_] in Hafter.
      destruct Hafter as (-> & -> & Hinv'). rewrite Z.add_assoc in *. by apply IH; try lia.
    + destruct Hafter as (_ & Hinv'). exists m. split; [done|]. apply (inv_later (a + pc_delta o)); [done|lia].
Qed.

(** The scopes that are open at the end. *)
Lemma close_scopes a locals k : forall reg ctx, a <= insns_size_in_code_units_ code_item -> 0 <= reg ->
  reg + Z.of_nat k <= Z.of_nat (length locals) ->
  scopes_ok (insns_size_in_code_units_ code_item) ctx -> live_ok reg a locals ctx ->
  exists ctx', close_all (Some record_scope) code_item k reg locals ctx = Done ctx' /\
    scopes_ok (insns_size_in_code_units_ code_item) ctx'.
Proof.
  induction k as [|k IH]; intros reg ctx Ha Hreg Hk Hs Hv; [by eexists|]. cbn [close_all].
  destruct (invoke_ok reg a (insns_size_in_code_units_ code_item) locals ctx reg ltac:(lia) ltac:(lia) Ha Hs Hv)
    as (ctx1 & -> & Hs1 & Hin). cbn [mbind cres_bind]. apply IH; try done; try lia.
  intros r l Hr Hrl Hlive. destruct (Hv r l ltac:(lia) Hrl Hlive) as [H1 H2]. split; [done|].
  intros s Hs' Er. destruct (Hin s Hs') as [?|E]; [by apply H2|lia].
Qed.

Lemma scopes_decoded is_static method_idx line ops :
  debug_method d strs code_item is_static method_idx line ops -> Forall op_valid ops ->
  total_pc ops < 2 ^ 16 -> total_pc ops <= insns_size_in_code_units_ code_item ->
  exists scopes, DecodeDebugInfo None (Some record_scope) d code_item is_static method_idx [] = Done scopes /\
    scopes_ok (insns_size_in_code_units_ code_item) scopes.
Proof.
  intros Hm Hv Ht Hi. set (P locals := inv 0 locals []). pose proof (dm_ops _ _ _ _ _ _ _ Hm) as Hops.
  pose proof (total_pc_nonneg _ _ Hops) as Hn.
  assert (P (replicate (Z.to_nat n) new_LocalInfo)) as HP.
  { unfold in_u in Hregs. split; [rewrite length_replicate; lia|]. split; [by repeat constructor|].
    intros r l _ Hl. apply lookup_replicate in Hl as [-> _]. done. }
  destruct (decode0_ok None (Some record_scope) P d strs protos code_item is_static method_idx line ops Hd Hm)
    as (stream & rest & Es & H).
  { intros _ locals reg name descriptor Hr HPl. by apply (update_start 0). }
  destruct (H [] _ HP) as (locals' & HP' & E). unfold DecodeDebugInfo. rewrite Es. cbn [need_locals]. rewrite E.
  destruct (run_scopes ops rest (S (length (encode_ops ops ++ rest))) 0 line locals' [] Hops Hv ltac:(lia) ltac:(lia) HP')
    as (m & -> & Hl & Hs & Hlive); [rewrite length_app; pose proof (encode_ops_length ops); lia|]. cbn [mbind cres_bind].
  apply (close_scopes (0 + total_pc ops)); try lia; try done. destruct Hs as [Ho Hall]. split; [done|].
  eapply Forall_impl; [exact Hall|]. cbn. lia.
Qed.
End Scopes.

(** Local variables.  Debug information whose registers are those of the
    method, whose indices are those of the file and whose addresses lie in the
    code, below 65536, is decoded without a fault, and the scopes that are
    reported end within the method and do not overlap on a register. *)
Theorem local_scopes_disjoint d strs protos code_item is_static method_idx line ops :
  wf_dex d strs protos -> debug_method d strs code_item is_static method_idx line ops -> Forall (op_valid d) ops ->
  total_pc ops < 2 ^ 16 -> total_pc ops <= insns_size_in_code_units_ code_item ->
  exists scopes, DecodeDebugInfo None (Some record_scope) d code_item is_static method_idx [] = Done scopes /\
    scopes_ok (insns_size_in_code_units_ code_item) scopes.
Proof. intros Hd Hm. apply (scopes_decoded d strs protos code_item Hd (dm_regs _ _ _ _ _ _ _ Hm) is_static method_idx line ops Hm). Qed.

Example local_scopes_disjoint_witness :
  exists scopes, DecodeDebugInfo None (Some record_scope) Sig.demo_file demo_code false 0 [] = Done scopes /\
    scopes_ok 5 scopes.
Proof.
  apply (local_scopes_disjoint Sig.demo_file Sig.demo_strings demo_protos demo_code false 0 10 demo_ops
    Sig.demo_file_wf demo_method); [by repeat constructor|done|by vm_compute].
Defined.
