(* ===== verification/DexVerify.v ===== *)
(** * DexVerify: the verifier of dex files (runtime/dex_file_verifier.cc)

    The checks of strings, code items, encoded values and debug information.  The
    pointer of the verifier is the bytes from it to the end of the file; a check
    that passes returns the bytes behind the item.  The theorems say what the
    checks give to the code that reads verified files, and where they do not
    give it what it relies on. *)

From S2P Require Import Prelude CLib Leb128 Utf HashSet Dex DexItems DexCatch DexValues DexDebug.

(** The bytes behind the item, or [None] if the check fails. *)
Definition verdict : Type := option (list Z).

(** ** Strings *)

(** The character that starts at the pointer; [None] if it is illegal. *)
Definition check_char (ptr : list Z) : cres verdict :=
  '(byte, ptr) ← next_byte ptr;
  let high := Z.shiftr byte 4 in
  if high =? 0x00 then Done (if byte =? 0 then None else Some ptr)
  else if high <=? 0x07 then Done (Some ptr)
  else if (high <=? 0x0b) || (high =? 0x0f) then Done None
  else if high <=? 0x0d then
    '(byte2, ptr) ← next_byte ptr;
    if negb (Z.land byte2 0xc0 =? 0x80) then Done None
    else
      let value := u16 (Z.lor (Z.shiftl (Z.land byte 0x1f) 6) (Z.land byte2 0x3f)) in
      Done (if negb (value =? 0) && (value <? 0x80) then None else Some ptr)
  else
    '(byte2, ptr) ← next_byte ptr;
    if negb (Z.land byte2 0xc0 =? 0x80) then Done None
    else
      '(byte3, ptr) ← next_byte ptr;
      if negb (Z.land byte3 0xc0 =? 0x80) then Done None
      else
        let value := u16 (Z.lor (Z.lor (Z.shiftl (Z.land byte 0x0f) 12) (Z.shiftl (Z.land byte2 0x3f) 6))
                            (Z.land byte3 0x3f)) in
        Done (if value <? 0x800 then None else Some ptr).

Fixpoint check_chars (n : nat) (ptr : list Z) : cres verdict :=
  match n with
  | O => Done (Some ptr)
  | S n =>
      match ptr with
      | [] => Done None
      | _ => r ← check_char ptr; match r with None => Done None | Some ptr => check_chars n ptr end
      end
  end.

Definition CheckIntraStringDataItem (ptr : list Z) : cres verdict :=
  '(size, ptr) ← DecodeUnsignedLeb128 ptr;
  r ← check_chars (Z.to_nat size) ptr;
  match r with
  | None => Done None
  | Some ptr => '(b, ptr) ← next_byte ptr; Done (if b =? 0 then Some ptr else None)
  end.

(** *** What is accepted *)

Lemma form_unique ch l l' : char_form ch l -> char_form ch l' -> l = l'.
Proof. intros H H'. destruct H, H'; try (exfalso; lia); repeat f_equal; lia. Qed.

Lemma form_utf8 ch l : in_u 16 ch -> char_form ch l -> l = utf8_of_char ch.
Proof. intros Hch Hl. eapply form_unique; [exact Hl|by apply utf8_of_char_form]. Qed.

Lemma form_range ch l : char_form ch l -> 0 <= ch -> in_u 16 ch.
Proof. intros [] Hch; unfold in_u; lia. Qed.

(** The bits of a byte that are looked at. *)
Lemma byte_high b : byte_ok b -> Z.shiftr b 4 = b / 16.
Proof. intros _. by rewrite Z.shiftr_div_pow2. Qed.
Lemma continuation b : byte_ok b ->
  (Z.land b 0xc0 =? 0x80) = ((0x80 <=? b) && (b <? 0xc0)) /\ Z.land b 0x3f = b mod 64.
Proof.
  intros Hb. split; [|by apply (land_pow2 b 6)]. apply eqb_prop. revert b Hb. apply (below_forallb 256). reflexivity.
Qed.

Lemma join2 byte byte2 : byte_ok byte -> byte_ok byte2 ->
  u16 (Z.lor (Z.shiftl (Z.land byte 0x1f) 6) (Z.land byte2 0x3f)) = 64 * (byte mod 32) + byte2 mod 64.
Proof.
  intros H1 H2. rewrite (land_pow2 byte 5), (land_pow2 byte2 6) by done. change (2 ^ 5) with 32. change (2 ^ 6) with 64.
  pose proof (Z.mod_pos_bound byte 32). pose proof (Z.mod_pos_bound byte2 64).
  rewrite Z.lor_comm, lor_shiftl_add by lia. rewrite uwrap_small by (unfold in_u; lia). lia.
Qed.
Lemma join3 byte byte2 byte3 :
  u16 (Z.lor (Z.lor (Z.shiftl (Z.land byte 0x0f) 12) (Z.shiftl (Z.land byte2 0x3f) 6)) (Z.land byte3 0x3f)) =
  4096 * (byte mod 16) + 64 * (byte2 mod 64) + byte3 mod 64.
Proof.
  rewrite (land_pow2 byte 4), (land_pow2 byte2 6), (land_pow2 byte3 6) by done.
  change (2 ^ 4) with 16. change (2 ^ 6) with 64.
  pose proof (Z.mod_pos_bound byte 16). pose proof (Z.mod_pos_bound byte2 64). pose proof (Z.mod_pos_bound byte3 64).
  rewrite Z.lor_comm, (Z.lor_comm (Z.shiftl (byte mod 16) 12)), Z.lor_assoc, (lor_shiftl_add (byte3 mod 64)), lor_shiftl_add by lia.
  rewrite uwrap_small by (unfold in_u; lia). lia.
Qed.

(** A legal character is the encoding of one. *)
Lemma check_char_sound ptr rest : Forall byte_ok ptr -> check_char ptr = Done (Some rest) ->
  exists ch, in_u 16 ch /\ ptr = utf8_of_char ch ++ rest.
Proof.
  intros Hall. assert (forall ch l, char_form ch l -> 0 <= ch -> ptr = l ++ rest ->
    exists ch, in_u 16 ch /\ ptr = utf8_of_char ch ++ rest) as Hform.
  { intros ch l Hf Hch ->. pose proof (form_range _ _ Hf Hch). exists ch. by rewrite <- (form_utf8 ch l). }
  unfold check_char. destruct ptr as [|b ptr]; [done|]. cbn [next_byte mbind cres_bind].
  apply Forall_cons in Hall as [Hb Hall]. rewrite byte_high by done. unfold byte_ok in Hb.
  pose proof (Z.div_mod b 16 ltac:(lia)) as Ediv. pose proof (Z.mod_pos_bound b 16 ltac:(lia)) as Hmod.
  destruct (Z.eqb_spec (b / 16) 0) as [H0|H0].
  { destruct (Z.eqb_spec b 0); [done|]. intros [= ->]. apply (Hform b [b]); [apply form1; lia|lia|done]. }
  destruct (Z.leb_spec (b / 16) 7).
  { intros [= ->]. apply (Hform b [b]); [apply form1; lia|lia|done]. }
  destruct ((b / 16 <=? 0x0b) || (b / 16 =? 0x0f)) eqn:Ebad; [done|].
  apply orb_false_iff in Ebad as [H1%Z.leb_gt H2%Z.eqb_neq].
  destruct (Z.leb_spec (b / 16) 0x0d).
  - destruct ptr as [|b2 ptr]; [done|]. cbn [next_byte mbind cres_bind]. apply Forall_cons in Hall as [Hb2 Hall].
    destruct (continuation b2 Hb2) as [-> _]. destruct (Z.leb_spec 0x80 b2), (Z.ltb_spec b2 0xc0); cbn [andb negb]; try done.
    rewrite join2 by done. set (v := 64 * (b mod 32) + b2 mod 64).
    destruct (negb (v =? 0) && (v <? 0x80)) eqn:Ev; [done|]. intros [= ->].
    apply andb_false_iff in Ev. rewrite negb_false_iff, Z.eqb_eq, Z.ltb_ge in Ev.
    pose proof (Z.mod_pos_bound b 32 ltac:(lia)). pose proof (Z.mod_pos_bound b2 64 ltac:(lia)). unfold byte_ok in *.
    apply (Hform v [b mod 32 + 0xc0; b2 mod 64 + 0x80]); [|lia|].
    + apply (form2 v (b mod 32) (b2 mod 64)); [done|done|done|]. destruct Ev; [by left|by right].
    + cbn [app]. repeat f_equal; Z.to_euclidean_division_equations; lia.
  - destruct ptr as [|b2 ptr]; [done|]. cbn [next_byte mbind cres_bind]. apply Forall_cons in Hall as [Hb2 Hall].
    destruct (continuation b2 Hb2) as [-> _]. destruct (Z.leb_spec 0x80 b2), (Z.ltb_spec b2 0xc0); cbn [andb negb]; try done.
    destruct ptr as [|b3 ptr]; [done|]. cbn [next_byte mbind cres_bind]. apply Forall_cons in Hall as [Hb3 Hall].
    destruct (continuation b3 Hb3) as [-> _]. destruct (Z.leb_spec 0x80 b3), (Z.ltb_spec b3 0xc0); cbn [andb negb]; try done.
    rewrite join3. set (v := 4096 * (b mod 16) + 64 * (b2 mod 64) + b3 mod 64).
    destruct (Z.ltb_spec v 0x800); [done|]. intros [= ->]. unfold byte_ok in *.
    pose proof (Z.mod_pos_bound b2 64 ltac:(lia)). pose proof (Z.mod_pos_bound b3 64 ltac:(lia)).
    apply (Hform v [b mod 16 + 0xe0; b2 mod 64 + 0x80; b3 mod 64 + 0x80]);
      [by apply (form3 v (b mod 16) (b2 mod 64) (b3 mod 64))|lia|].
    cbn [app]. repeat f_equal; Z.to_euclidean_division_equations; lia.
Qed.

(** Every character is accepted. *)
Lemma check_char_complete ch rest : in_u 16 ch -> check_char (utf8_of_char ch ++ rest) = Done (Some rest).
Proof.
  intros Hch. destruct (utf8_of_char_form ch Hch) as [H|a b E Ha Hb H|a b c E Ha Hb Hc H];
    unfold check_char; cbn [app next_byte mbind cres_bind]; rewrite byte_high by (unfold byte_ok; lia).
  - destruct (Z.eqb_spec (ch / 16) 0); [by rewrite (proj2 (Z.eqb_neq ch 0)) by lia|].
    rewrite (proj2 (Z.leb_le _ _)); [done|]. apply Z.lt_succ_r, Z.div_lt_upper_bound; lia.
  - assert (12 <= (a + 0xc0) / 16 <= 13) as Hh by (split; [apply Z.div_le_lower_bound|apply Z.lt_succ_r, Z.div_lt_upper_bound]; lia).
    rewrite (proj2 (Z.eqb_neq _ 0)), !(proj2 (Z.leb_gt _ _)), (proj2 (Z.eqb_neq _ 15)), (proj2 (Z.leb_le _ 13)) by lia.
    cbn [orb]. destruct (continuation (b + 0x80)) as [-> _]; [unfold byte_ok; lia|].
    rewrite (proj2 (Z.leb_le _ _)), (proj2 (Z.ltb_lt _ _)) by lia. cbn [andb negb]. rewrite join2 by (unfold byte_ok; lia).
    replace ((a + 0xc0) mod 32) with a by (apply (Z.mod_unique_pos _ _ 6); lia).
    replace ((b + 0x80) mod 64) with b by (apply (Z.mod_unique_pos _ _ 2); lia). rewrite <- E.
    destruct H as [->|H]; [done|]. rewrite (proj2 (Z.ltb_ge _ _)) by lia. by rewrite andb_false_r.
  - assert ((a + 0xe0) / 16 = 14) as -> by (symmetry; apply (Z.div_unique_pos _ _ _ a); lia). cbn [Z.eqb Pos.eqb Z.leb Z.compare Pos.compare Pos.compare_cont orb].
    destruct (continuation (b + 0x80)) as [-> _]; [unfold byte_ok; lia|].
    rewrite (proj2 (Z.leb_le _ _)), (proj2 (Z.ltb_lt _ _)) by lia. cbn [andb negb].
    destruct (continuation (c + 0x80)) as [-> _]; [unfold byte_ok; lia|].
    rewrite (proj2 (Z.leb_le _ _)), (proj2 (Z.ltb_lt _ _)) by lia. cbn [andb negb]. rewrite join3.
    replace ((a + 0xe0) mod 16) with a by (apply (Z.mod_unique_pos _ _ 14); lia).
    replace ((b + 0x80) mod 64) with b by (apply (Z.mod_unique_pos _ _ 2); lia).
    replace ((c + 0x80) mod 64) with c by (apply (Z.mod_unique_pos _ _ 2); lia). rewrite <- E.
    by rewrite (proj2 (Z.ltb_ge _ _)) by lia.
Qed.

Lemma check_chars_iff n : forall ptr rest, Forall byte_ok ptr ->
  check_chars n ptr = Done (Some rest) <-> exists s, length s = n /\ Forall (in_u 16) s /\ ptr = utf8 s ++ rest.
Proof.
  induction n as [|n IH]; intros ptr rest Hall; cbn [check_chars].
  { split; [intros [= ->]; by exists []|]. by intros ([|] & Hl & _ & ->). }
  split.
  - destruct ptr as [|b tl] eqn:E; [done|]. rewrite <- E in *. clear E b tl. intros H.
    apply bind_Done in H as ([ptr'|] & Hc & H); [|done].
    destruct (check_char_sound ptr ptr' Hall Hc) as (ch & Hch & ->). apply Forall_app in Hall as [_ Hall].
    apply (IH _ _ Hall) in H as (s & <- & Hs & ->). exists (ch :: s). split; [done|]. split; [by constructor|].
    by rewrite utf8_cons, <- (assoc_L (++)).
  - intros ([|ch s] & Hl & Hs & ->); [done|]. injection Hl as Hl. apply Forall_cons in Hs as [Hch Hs].
    rewrite utf8_cons in *. rewrite <- (assoc_L (++)) in *.
    destruct (utf8_of_char ch ++ utf8 s ++ rest) as [|b tl] eqn:E.
    { by destruct (utf8_of_char_form ch Hch). }
    rewrite <- E in *. rewrite check_char_complete by done. cbn [mbind cres_bind]. apply Forall_app in Hall as [_ Hall].
    apply IH; eauto.
Qed.

(** What is left after a number is the end of what was there. *)
Lemma leb_suffix data v ptr : DecodeUnsignedLeb128 data = Done (v, ptr) -> in_u 32 v /\ exists pre, data = pre ++ ptr.
Proof.
  unfold DecodeUnsignedLeb128. intros H.
  repeat match type of H with
  | (next_byte ?d ≫= _) = _ => destruct d as [|? ?]; [discriminate H|]; cbn [next_byte mbind cres_bind] in H
  | (if ?c then _ else _) = _ => destruct c
  end; injection H as <- <-; (split; [apply uwrap_range; lia|]);
  first [by eexists [_] | by eexists [_; _] | by eexists [_; _; _] | by eexists [_; _; _; _] | by eexists [_; _; _; _; _]].
Qed.

Lemma string_data_iff ptr rest : Forall byte_ok ptr ->
  CheckIntraStringDataItem ptr = Done (Some rest) <->
  exists s, Forall (in_u 16) s /\ DecodeUnsignedLeb128 ptr = Done (Z.of_nat (length s), utf8z s rest).
Proof.
  intros Hall. unfold CheckIntraStringDataItem. split.
  - intros H. apply bind_Done in H as ([size p] & Hd & H). destruct (leb_suffix _ _ _ Hd) as [Hsize [pre ->]].
    apply Forall_app in Hall as [_ Hall]. apply bind_Done in H as ([q|] & Hc & H); [|done].
    apply (check_chars_iff _ _ _ Hall) in Hc as (s & Hl & Hs & ->).
    destruct q as [|b q]; [done|]. cbn [next_byte mbind cres_bind] in H. destruct (Z.eqb_spec b 0) as [->|]; [|done].
    injection H as ->. exists s. split; [done|]. rewrite Hd. unfold in_u in Hsize. do 2 f_equal. lia.
  - intros (s & Hs & Hd). rewrite Hd. cbn [mbind cres_bind]. destruct (leb_suffix _ _ _ Hd) as [_ [pre ->]].
    apply Forall_app in Hall as [_ Hall]. unfold utf8z in *. rewrite Nat2Z.id.
    assert (check_chars (length s) (utf8 s ++ 0 :: rest) = Done (Some (0 :: rest))) as ->
      by (apply check_chars_iff; eauto). done.
Qed.

(** The verifier accepts exactly the string data that the rest of the runtime
    can read: the length of a string of UTF-16 units, the modified UTF-8 of
    these units in their shortest form, and a zero.  So the strings of a verified
    file have the lengths that are written and the order of their units. *)
Theorem verified_string_data ptr rest : Forall byte_ok ptr ->
  CheckIntraStringDataItem ptr = Done (Some rest) <->
  exists s, Forall (in_u 16) s /\ DecodeUnsignedLeb128 ptr = Done (Z.of_nat (length s), utf8z s rest).
Proof. apply string_data_iff. Qed.

Example verified_string_data_witness :
  CheckIntraStringDataItem [2; 65; 0xc0; 0x80; 0; 9] = Done (Some [9]) /\
  exists s, Forall (in_u 16) s /\ DecodeUnsignedLeb128 [2; 65; 0xc0; 0x80; 0; 9] = Done (Z.of_nat (length s), utf8z s [9]).
Proof.
  split; [reflexivity|]. apply (verified_string_data [2; 65; 0xc0; 0x80; 0; 9] [9]); [|reflexivity].
  repeat constructor; unfold byte_ok; lia.
Defined.

(** ** Code items *)

(** [CheckListSize]: the range lies within the file.  A range that wraps around
    the address space is none that does. *)
Definition CheckListSize (start : list Z) (count elem_size : Z) : bool := count * elem_size <=? Z.of_nat (length start).
Definition CheckIndex (field limit : Z) : bool := field <? limit.

Section Code.
(** [header_->type_ids_size_]. *)
Context (type_ids_size_ : Z).

(** The typed handlers of a list; the address of each lies in the code. *)
Fixpoint check_typed (insns_size : Z) (n : nat) (ptr : list Z) : cres verdict :=
  match n with
  | O => Done (Some ptr)
  | S n =>
      '(type_idx, ptr) ← DecodeUnsignedLeb128 ptr;
      if negb (CheckIndex type_idx type_ids_size_) then Done None
      else
        '(addr, ptr) ← DecodeUnsignedLeb128 ptr;
        if insns_size <=? addr then Done None else check_typed insns_size n ptr
  end.

(** One list of handlers. *)
Definition check_handler (insns_size : Z) (ptr : list Z) : cres verdict :=
  '(size, ptr) ← DecodeSignedLeb128 ptr;
  if (size <? -65536) || (65536 <? size) then Done None
  else
    let catch_all := size <=? 0 in
    r ← check_typed insns_size (Z.to_nat (if catch_all then - size else size)) ptr;
    match r with
    | None => Done None
    | Some ptr =>
        if catch_all then
          '(addr, ptr) ← DecodeUnsignedLeb128 ptr;
          Done (if insns_size <=? addr then None else Some ptr)
        else Done (Some ptr)
    end.

(** [CheckAndGetHandlerOffsets]: the offsets of the lists from their base, which
    has [base_length] bytes to the end of the file. *)
Fixpoint CheckAndGetHandlerOffsets (insns_size base_length : Z) (handlers_size : nat) (ptr : list Z)
    : cres (option (list Z * list Z)) :=
  match handlers_size with
  | O => Done (Some ([], ptr))
  | S n =>
      let offset := base_length - Z.of_nat (length ptr) in
      r ← check_handler insns_size ptr;
      match r with
      | None => Done None
      | Some ptr =>
          r ← CheckAndGetHandlerOffsets insns_size base_length n ptr;
          Done (match r with Some (offsets, ptr) => Some (offset :: offsets, ptr) | None => None end)
      end
  end.

(** The loop over the try items, from item [i] on. *)
Fixpoint check_tries (code_item : Catch.CodeItem) (handler_offsets : list Z) (n : nat) (i last_addr : Z) : cres bool :=
  match n with
  | O => Done true
  | S n =>
      t ← Catch.read_TryItem (Catch.GetTryItems code_item i);
      let insns_size := Catch.insns_size_in_code_units_ code_item in
      if Catch.start_addr_ t <? last_addr then Done false
      else if insns_size <=? Catch.start_addr_ t then Done false
      else if negb (bool_decide (Catch.handler_off_ t ∈ handler_offsets)) then Done false
      else
        let last_addr := u32 (Catch.start_addr_ t + Catch.insn_count_ t) in
        if insns_size <? last_addr then Done false else check_tries code_item handler_offsets n (i + 1) last_addr
  end.

(** The size of a CodeItem, and where its instructions are. *)
Definition CODE_ITEM_SIZE : Z := 20.
Definition INSNS_OFFSET : nat := 16.

Definition code_item_at (ptr : list Z) : cres Catch.CodeItem :=
  tries_size ← read_le 2 (drop 6 ptr); insns_size ← read_le 4 (drop 12 ptr);
  Done {| Catch.tries_size_ := tries_size; Catch.insns_size_in_code_units_ := insns_size;
          Catch.insns_ := drop INSNS_OFFSET ptr |}.

(** The item is at an address divisible by 4. *)
Definition CheckIntraCodeItem (ptr : list Z) : cres verdict :=
  if negb (CheckListSize ptr 1 CODE_ITEM_SIZE) then Done None
  else
    registers_size ← read_le 2 ptr;
    ins_size ← read_le 2 (drop 2 ptr);
    outs_size ← read_le 2 (drop 4 ptr);
    code_item ← code_item_at ptr;
    if registers_size <? ins_size then Done None
    else if (5 <? outs_size) && (registers_size <? outs_size) then Done None
    else
      let insns := Catch.insns_ code_item in
      let insns_size := Catch.insns_size_in_code_units_ code_item in
      let try_items_size := Catch.tries_size_ code_item in
      if negb (CheckListSize insns insns_size 2) then Done None
      else if try_items_size =? 0 then Done (Some (drop (Z.to_nat (2 * insns_size)) insns))
      else
        padding ← (if (2 * insns_size) mod 4 =? 0 then Done 0 else read_le 2 (drop (Z.to_nat (2 * insns_size)) insns));
        if negb (padding =? 0) then Done None
        else
          let base := Catch.GetCatchHandlerData code_item 0 in
          '(handlers_size, ptr) ← DecodeUnsignedLeb128 base;
          if negb (CheckListSize (Catch.GetTryItems code_item 0) try_items_size Catch.TRY_ITEM_SIZE) then Done None
          else if (handlers_size =? 0) || (65536 <=? handlers_size) then Done None
          else
            r ← CheckAndGetHandlerOffsets insns_size (Z.of_nat (length base)) (Z.to_nat handlers_size) ptr;
            match r with
            | None => Done None
            | Some (handler_offsets, ptr) =>
                ok ← check_tries code_item handler_offsets (Z.to_nat try_items_size) 0 0;
                Done (if ok : bool then Some ptr else None)
            end.
End Code.

Lemma signed_suffix data v ptr : DecodeSignedLeb128 data = Done (v, ptr) -> exists pre, data = pre ++ ptr.
Proof.
  unfold DecodeSignedLeb128. intros H.
  repeat match type of H with
  | (next_byte ?d ≫= _) = _ => destruct d as [|? ?]; [discriminate H|]; cbn [next_byte mbind cres_bind] in H
  | (if ?c then _ else _) = _ => destruct c
  end; injection H as <- <-;
  first [by eexists [_] | by eexists [_; _] | by eexists [_; _; _] | by eexists [_; _; _; _] | by eexists [_; _; _; _; _]].
Qed.

(** A handler has a type of the file or none, and an address of the code. *)
Definition handler_ok (type_ids_size insns_size : Z) (e : Z * Z) : Prop :=
  (e.1 = Catch.kDexNoIndex16 \/ 0 <= e.1 < type_ids_size) /\ 0 <= e.2 < insns_size.

Section Verified.
Context (type_ids_size_ : Z) (Htypes : type_ids_size_ <= 2 ^ 16).

Lemma check_typed_ok insns_size n : forall ptr rest, check_typed type_ids_size_ insns_size n ptr = Done (Some rest) ->
  (exists pre, ptr = pre ++ rest) /\
  exists l, length l = n /\ Catch.typed_at ptr l rest /\ Forall (handler_ok type_ids_size_ insns_size) l.
Proof.
  induction n as [|n IH]; intros ptr rest; cbn [check_typed].
  { intros [= ->]. split; [by exists []|]. exists []. split; [done|]. split; constructor. }
  intros H. apply bind_Done in H as ([t p1] & E1 & H). unfold CheckIndex in H.
  destruct (Z.ltb_spec t type_ids_size_) as [Ht|]; cbn [negb] in H; [|done].
  apply bind_Done in H as ([a p2] & E2 & H). destruct (Z.leb_spec insns_size a); [done|].
  destruct (leb_suffix _ _ _ E1) as [R1 [q1 ->]], (leb_suffix _ _ _ E2) as [R2 [q2 ->]].
  destruct (IH _ _ H) as ([q3 ->] & l & <- & Hl & Hall). split; [exists (q1 ++ q2 ++ q3); by rewrite <- !(assoc_L (++))|].
  exists ((t, a) :: l). split; [done|]. unfold in_u in R1, R2. split; [|constructor; [unfold handler_ok; cbn; lia|done]].
  econstructor; [exact E1|unfold in_u; lia|exact E2|exact Hl].
Qed.

Lemma check_handler_ok insns_size ptr rest : check_handler type_ids_size_ insns_size ptr = Done (Some rest) ->
  (exists pre, ptr = pre ++ rest) /\
  exists h, Catch.reads ptr h rest /\ Forall (handler_ok type_ids_size_ insns_size) (Catch.in_order h).
Proof.
  unfold check_handler. intros H. apply bind_Done in H as ([size p1] & E1 & H).
  destruct ((size <? -65536) || (65536 <? size)) eqn:Er; [done|]. apply orb_false_iff in Er as [R1%Z.ltb_ge R2%Z.ltb_ge].
  apply bind_Done in H as ([p2|] & Ht & H); [|done]. destruct (check_typed_ok _ _ _ _ Ht) as ([q2 Hq2] & l & Hlen & Hl & Hall).
  destruct (signed_suffix _ _ _ E1) as [q1 ->]. destruct (Z.leb_spec size 0) as [Hs|Hs].
  - apply bind_Done in H as ([a p3] & E3 & H). destruct (Z.leb_spec insns_size a); [done|]. injection H as ->.
    destruct (leb_suffix _ _ _ E3) as [R3 [q3 Hq3]]. unfold in_u in R3.
    split; [exists (q1 ++ q2 ++ q3); by rewrite Hq2, Hq3, <- !(assoc_L (++))|].
    exists {| Catch.typed := l; Catch.catch_all := Some a |}. unfold Catch.in_order. cbn [Catch.typed Catch.catch_all].
    split; [|apply Forall_app; split; [done|constructor; [unfold handler_ok; cbn; lia|constructor]]].
    split; [by destruct l|]. cbn [Catch.typed Catch.catch_all]. split; [lia|]. exists p1, p2. split; [|done].
    rewrite E1. do 2 f_equal. unfold Catch.count_of. cbn [Catch.typed Catch.catch_all]. lia.
  - injection H as ->. split; [exists (q1 ++ q2); by rewrite Hq2, <- !(assoc_L (++))|].
    exists {| Catch.typed := l; Catch.catch_all := None |}. unfold Catch.in_order. cbn [Catch.typed Catch.catch_all].
    rewrite app_nil_r. split; [|done]. split; [unfold Catch.in_order; cbn; destruct l; [cbn in Hlen; lia|done]|].
    cbn [Catch.typed Catch.catch_all]. split; [lia|]. exists p1, rest. split; [|done].
    rewrite E1. do 2 f_equal. unfold Catch.count_of. cbn [Catch.typed Catch.catch_all]. lia.
Qed.

(** The offsets are those of lists of handlers. *)
Lemma handler_offsets_ok insns_size base n : forall ptr offsets rest, (exists pre, base = pre ++ ptr) ->
  CheckAndGetHandlerOffsets type_ids_size_ insns_size (Z.of_nat (length base)) n ptr = Done (Some (offsets, rest)) ->
  Forall (fun off => 0 <= off /\ exists h rest, Catch.reads (drop (Z.to_nat off) base) h rest /\
    Forall (handler_ok type_ids_size_ insns_size) (Catch.in_order h)) offsets.
Proof.
  induction n as [|n IH]; intros ptr offsets rest [pre Hpre]; cbn [CheckAndGetHandlerOffsets].
  { intros [= <- _]. constructor. }
  intros H. apply bind_Done in H as ([p1|] & Hh & H); [|done]. destruct (check_handler_ok _ _ _ Hh) as ([q Hq] & h & Hr & Hall).
  apply bind_Done in H as ([[offs p2]|] & E & H); [|done]. injection H as <- ->.
  constructor; [|apply (IH p1 offs rest); [|done]; exists (pre ++ q); by rewrite Hpre, Hq, (assoc_L (++))].
  rewrite Hpre, length_app. replace (Z.of_nat (length pre + length ptr) - Z.of_nat (length ptr)) with (Z.of_nat (length pre)) by lia.
  split; [lia|]. exists h, p1. by rewrite Nat2Z.id, drop_app_length.
Qed.

(** *** Try items *)

Lemma read_le_range n p v : Forall byte_ok p -> read_le n p = Done v -> in_u (8 * Z.of_nat n) v.
Proof.
  unfold read_le. intros Hp. destruct (Nat.leb_spec n (length p)) as [Hn|]; [|done]. intros [= <-].
  pose proof (le_bytes_of_le (take n p) (Forall_take _ _ _ Hp)) as E. rewrite length_take_le in E by done.
  apply (f_equal of_le) in E. rewrite of_le_le_bytes in E. rewrite <- E. apply Z.mod_pos_bound.
  apply Z.pow_pos_nonneg; lia.
Qed.

Lemma read_try_range p t : Forall byte_ok p -> Catch.read_TryItem p = Done t ->
  in_u 32 (Catch.start_addr_ t) /\ in_u 16 (Catch.insn_count_ t) /\ in_u 16 (Catch.handler_off_ t).
Proof.
  intros Hp H. unfold Catch.read_TryItem in H. apply bind_Done in H as (a & E1 & H). apply bind_Done in H as (b & E2 & H).
  apply bind_Done in H as (c & E3 & [= <-]). cbn.
  apply read_le_range in E1, E2, E3; try done; by apply Forall_drop.
Qed.

Lemma check_tries_ok ci offsets n : Forall byte_ok (Catch.insns_ ci) ->
  Catch.insns_size_in_code_units_ ci < 2 ^ 31 -> forall i last, 0 <= i -> 0 <= last ->
  check_tries ci offsets n i last = Done true ->
  exists tries, length tries = n /\
    (forall j t, tries !! j = Some t -> Catch.read_TryItem (Catch.GetTryItems ci (i + Z.of_nat j)) = Done t /\
       last <= Catch.start_addr_ t /\ 0 <= Catch.insn_count_ t /\ Catch.handler_off_ t ∈ offsets /\ 0 <= Catch.handler_off_ t /\
       Catch.start_addr_ t + Catch.insn_count_ t <= Catch.insns_size_in_code_units_ ci) /\
    (forall j k t u, tries !! j = Some t -> tries !! k = Some u -> (j < k)%nat ->
       Catch.start_addr_ t + Catch.insn_count_ t <= Catch.start_addr_ u).
Proof.
  intros Hbytes Hsize. induction n as [|n IH]; intros i last Hi Hlast; cbn [check_tries].
  { intros _. exists []. split; [done|]. split; intros j; intros; by destruct j. }
  intros H. apply bind_Done in H as (t & Et & H).
  destruct (Z.ltb_spec (Catch.start_addr_ t) last); [done|]. destruct (Z.leb_spec (Catch.insns_size_in_code_units_ ci) (Catch.start_addr_ t)); [done|].
  case_bool_decide as Hoff; cbn [negb] in H; [|done].
  destruct (read_try_range (Catch.GetTryItems ci i) t (Forall_drop _ _ _ Hbytes) Et) as (R1 & R2 & R3). unfold in_u in *.
  rewrite (uwrap_small 32) in H by (unfold in_u; lia).
  destruct (Z.ltb_spec (Catch.insns_size_in_code_units_ ci) (Catch.start_addr_ t + Catch.insn_count_ t)); [done|].
  destruct (IH (i + 1) (Catch.start_addr_ t + Catch.insn_count_ t) ltac:(lia) ltac:(lia) H) as (tries & Hlen & Hall & Hord).
  exists (t :: tries). split; [cbn; lia|]. split.
  - intros [|j] u Hu; [injection Hu as <-; rewrite Z.add_0_r; split_and!; (done || lia)|].
    destruct (Hall j u Hu) as (E & ? & ? & ? & ? & ?).
    replace (i + Z.of_nat (S j)) with (i + 1 + Z.of_nat j) by lia. split_and!; (done || lia).
  - intros [|j] [|k] u v Hu Hv Hjk; try lia.
    + injection Hu as <-. by apply (Hall k v Hv).
    + apply (Hord j k u v Hu Hv). lia.
Qed.

(** What the check of a code item establishes. *)
Lemma code_item_ok ptr rest : Forall byte_ok ptr -> Z.of_nat (length ptr) < 2 ^ 31 ->
  CheckIntraCodeItem type_ids_size_ ptr = Done (Some rest) ->
  exists ci tries, code_item_at ptr = Done ci /\ Catch.wf ci tries /\
    forall t, t ∈ tries -> Catch.start_addr_ t + Catch.insn_count_ t <= Catch.insns_size_in_code_units_ ci /\
      exists h, Catch.handler_at ci t h /\
        Forall (handler_ok type_ids_size_ (Catch.insns_size_in_code_units_ ci)) (Catch.in_order h).
Proof.
  intros Hbytes Hlen. unfold CheckIntraCodeItem. destruct (CheckListSize ptr 1 CODE_ITEM_SIZE); [|done]. cbn [negb]. intros H.
  do 3 (apply bind_Done in H as (? & _ & H)). apply bind_Done in H as (ci & Eci & H).
  destruct (_ <? _); [done|]. destruct (_ && _); [done|].
  assert (Catch.insns_ ci = drop INSNS_OFFSET ptr /\ in_u 16 (Catch.tries_size_ ci) /\ in_u 32 (Catch.insns_size_in_code_units_ ci))
    as (Ei & Rt & Ri).
  { unfold code_item_at in Eci. apply bind_Done in Eci as (ts & E1 & Eci). apply bind_Done in Eci as (isz & E2 & [= <-]).
    apply read_le_range in E1, E2; try (by apply Forall_drop). done. }
  unfold CheckListSize in H. destruct (Z.leb_spec (Catch.insns_size_in_code_units_ ci * 2) (Z.of_nat (length (Catch.insns_ ci)))) as [Hsz|];
    cbn [negb] in H; [|done].
  assert (Forall byte_ok (Catch.insns_ ci)) as Hib by (rewrite Ei; by apply Forall_drop).
  rewrite Ei, length_drop in Hsz. exists ci. unfold in_u in Rt, Ri.
  destruct (Z.eqb_spec (Catch.tries_size_ ci) 0) as [E0|E0].
  { exists []. split; [done|]. split; [split; [done|intros ? ?; done..]|]. intros t Ht. by apply not_elem_of_nil in Ht. }
  apply bind_Done in H as (pad & _ & H). destruct (pad =? 0); cbn [negb] in H; [|done].
  apply bind_Done in H as ([hs p] & Ehs & H). destruct (_ <=? _); cbn [negb] in H; [|done]. destruct (_ || _); [done|].
  apply bind_Done in H as ([[offsets q]|] & Eoff & H); [|done]. apply bind_Done in H as ([|] & Etry & H); [|done].
  destruct (leb_suffix _ _ _ Ehs) as [_ [pre Hpre]].
  pose proof (handler_offsets_ok _ _ _ _ _ _ (ex_intro _ pre Hpre) Eoff) as Hoffs.
  destruct (check_tries_ok ci offsets _ Hib ltac:(lia) 0 0 ltac:(lia) ltac:(lia) Etry) as (tries & Hn & Hall & Hord).
  exists tries. split; [done|]. split.
  - split; [lia| | |done].
    + intros i t Ht. by destruct (Hall i t Ht) as [E _].
    + intros i t Ht. destruct (Hall i t Ht) as (E & H1 & H2 & _ & H4 & H5). lia.
  - intros t [i Ht]%list_elem_of_lookup_1. destruct (Hall i t Ht) as (_ & _ & _ & Hin & _ & Hend). split; [done|].
    rewrite Forall_forall in Hoffs. destruct (Hoffs _ Hin) as (_ & h & r & Hr & Haddr). exists h. split; [|done].
    exists r. unfold Catch.GetCatchHandlerData in *. by rewrite drop_0 in Hr.
Qed.
End Verified.

(** C20: Exceptions in verified code.  For a code item that the verifier accepts, in
    a file of at most 2^16 types, the search for the handlers of an exception at any
    address ends without a fault: the try items are sorted and lie in the code, the
    offsets of the handlers lead to lists of handlers, and every handler has a type of
    the file, or catches all, and an address of the code. *)
Theorem verified_code_handlers type_ids_size ptr rest junk address : type_ids_size <= 2 ^ 16 ->
  Forall byte_ok ptr -> Z.of_nat (length ptr) < 2 ^ 31 -> CheckIntraCodeItem type_ids_size ptr = Done (Some rest) ->
  exists ci it hs it' fuel, code_item_at ptr = Done ci /\ Catch.new_at junk ci address = Done it /\
    Catch.walk fuel it = Done (hs, it') /\ Forall (handler_ok type_ids_size (Catch.insns_size_in_code_units_ ci)) hs.
Proof.
  intros Ht Hb Hl H. destruct (code_item_ok type_ids_size Ht ptr rest Hb Hl H) as (ci & tries & Eci & Hwf & Htries).
  exists ci. destruct (Catch.new_at_offset ci tries address junk Hwf) as (off & -> & [(t & Hin & _ & ->)|[-> _]]).
  - destruct (Htries t Hin) as (_ & h & Hh & Haddr). pose proof Hin as [i Hi]%list_elem_of_lookup_1.
    destruct (Catch.wf_range _ _ Hwf _ _ Hi) as (_ & _ & _ & H0).
    destruct (Catch.handlers_of ci t h (Catch.fresh junk) H0 Hh) as (it & it' & E & Ew).
    exists it, (Catch.in_order h), it', (length (Catch.in_order h) + 1)%nat. done.
  - eexists _, [], _, 0%nat. split_and!; done.
Qed.

Definition demo_code_item : list Z :=
  [1; 0; 0; 0; 0; 0; 2; 0; 0; 0; 0; 0; 3; 0; 0; 0] ++ Catch.insns_ Catch.demo_item ++ [77].

Example verified_code_handlers_witness :
  let junk := {| Catch.type_idx_ := 0; Catch.address_ := 0; Catch.current_data_ := None;
                 Catch.remaining_count_ := 0; Catch.catch_all_ := false |} in
  CheckIntraCodeItem 6 demo_code_item = Done (Some [77]) /\
  exists ci it hs it' fuel, code_item_at demo_code_item = Done ci /\ Catch.new_at junk ci 0 = Done it /\
    Catch.walk fuel it = Done (hs, it') /\ Forall (handler_ok 6 (Catch.insns_size_in_code_units_ ci)) hs.
Proof.
  intros junk. assert (CheckIntraCodeItem 6 demo_code_item = Done (Some [77])) as H by reflexivity. split; [done|].
  apply (verified_code_handlers 6 demo_code_item [77] junk 0); [lia| |cbn; lia|exact H].
  repeat constructor; unfold byte_ok; lia.
Defined.

(** ** Debug information *)

Section Debug.
(** [header_->string_ids_size_]. *)
Context (string_ids_size_ : Z).

(** An index that is written plus one; zero is none. *)
Definition check_index_p1 (ptr : list Z) : cres verdict :=
  '(idx, ptr) ← DecodeUnsignedLeb128 ptr;
  Done (if negb (idx =? 0) && negb (CheckIndex (idx - 1) string_ids_size_) then None else Some ptr).
Definition check_reg (ptr : list Z) : cres verdict :=
  '(reg_num, ptr) ← DecodeUnsignedLeb128 ptr; Done (if 65536 <=? reg_num then None else Some ptr).

(** One check after the other. *)
Fixpoint check_all (checks : list (list Z -> cres verdict)) (ptr : list Z) : cres verdict :=
  match checks with
  | [] => Done (Some ptr)
  | check :: checks => r ← check ptr; match r with Some ptr => check_all checks ptr | None => Done None end
  end.

(** The operands of an operation. *)
Definition check_operands (opcode : Z) (ptr : list Z) : cres verdict :=
  if opcode =? DBG_ADVANCE_PC then '(_, ptr) ← DecodeUnsignedLeb128 ptr; Done (Some ptr)
  else if opcode =? DBG_ADVANCE_LINE then '(_, ptr) ← DecodeSignedLeb128 ptr; Done (Some ptr)
  else if opcode =? DBG_START_LOCAL then check_all [check_reg; check_index_p1; check_index_p1] ptr
  else if (opcode =? DBG_END_LOCAL) || (opcode =? DBG_RESTART_LOCAL) then check_reg ptr
  else if opcode =? DBG_START_LOCAL_EXTENDED then check_all [check_reg; check_index_p1; check_index_p1; check_index_p1] ptr
  else if opcode =? DBG_SET_FILE then check_index_p1 ptr
  else Done (Some ptr).

(** Each turn reads a byte, so their number is enough fuel. *)
Fixpoint check_ops (fuel : nat) (ptr : list Z) : cres verdict :=
  match fuel with
  | O => Fault OutOfFuel
  | S fuel =>
      '(opcode, ptr) ← next_byte ptr;
      if opcode =? DBG_END_SEQUENCE then Done (Some ptr)
      else r ← check_operands opcode ptr; match r with Some ptr => check_ops fuel ptr | None => Done None end
  end.

Definition CheckIntraDebugInfoItem (ptr : list Z) : cres verdict :=
  '(_, ptr) ← DecodeUnsignedLeb128 ptr;
  '(parameters_size, ptr) ← DecodeUnsignedLeb128 ptr;
  if 65536 <? parameters_size then Done None
  else
    r ← check_all (replicate (Z.to_nat parameters_size) check_index_p1) ptr;
    match r with Some ptr => check_ops (S (length ptr)) ptr | None => Done None end.
End Debug.

(** A static method without parameters, whose program is [ops]. *)
Definition simple_method (d : DexFile) (method_idx : Z) (ci : CodeItem) (line : Z) (ops : list Z) : Prop :=
  in_u 32 line /\ exists mid proto, entry (method_ids_ d) method_idx = Done mid /\
    entry (proto_ids_ d) (method_proto_idx_ mid) = Done proto /\ GetProtoParameters d proto = None /\
    GetDebugInfoStream d ci = Some (uleb line ++ uleb 0 ++ ops).

Lemma simple_check d method_idx ci line ops n : simple_method d method_idx ci line ops ->
  CheckIntraDebugInfoItem n (uleb line ++ uleb 0 ++ ops) = check_ops n (S (length ops)) ops.
Proof.
  intros (Hl & _). unfold CheckIntraDebugInfoItem. rewrite decode_uleb by done. cbn [mbind cres_bind].
  rewrite decode_uleb by done. done.
Qed.

Lemma simple_decode {C} pcb lcb d method_idx ci line ops (ctx : C) : simple_method d method_idx ci line ops ->
  exists locals, (need_locals lcb = true -> locals = replicate (Z.to_nat (registers_size_ ci)) new_LocalInfo) /\
  DecodeDebugInfo pcb lcb d ci true method_idx ctx =
  (m ← run pcb lcb d ci (S (length ops)) (mkMachine ops 0 line locals ctx);
   close_all lcb ci (Z.to_nat (registers_size_ ci)) 0 (locals_ m) (context_ m)).
Proof.
  intros (Hl & mid & proto & E1 & E2 & E3 & E4).
  set (locals := if need_locals lcb then replicate (Z.to_nat (registers_size_ ci)) new_LocalInfo else []).
  exists locals. split; [subst locals; by intros ->|]. unfold DecodeDebugInfo. rewrite E4. unfold DecodeDebugInfo0.
  rewrite decode_uleb by done. cbn [mbind cres_bind]. rewrite decode_uleb by done. cbn [mbind cres_bind].
  rewrite E1. cbn [mbind cres_bind]. rewrite E2. cbn [mbind cres_bind]. rewrite E3. fold locals. cbn [mbind cres_bind].
  assert (forall arg, decode_params lcb d ci (Z.to_nat 0) [] 0 0 arg ops locals = Done (true, ops, locals)) as -> by done.
  cbn [mbind cres_bind]. by destruct (run _ _ _ _ _ _) as [m|e].
Qed.

(** Programs the verifier accepts: a variable in the register behind the last
    one, one with the type [k], and a source file with an index of one byte. *)
Definition bad_register (n : Z) (rest : list Z) : list Z :=
  encode_op (StartLocal n kDexNoIndex kDexNoIndex None) ++ DBG_END_SEQUENCE :: rest.
Definition bad_type (k : Z) (rest : list Z) : list Z :=
  encode_op (StartLocal 0 kDexNoIndex k None) ++ DBG_END_SEQUENCE :: rest.
Definition set_file (c : Z) (rest : list Z) : list Z := DBG_SET_FILE :: c :: DBG_END_SEQUENCE :: rest.

Lemma check_index_none n ptr : check_index_p1 n (p1 kDexNoIndex ++ ptr) = Done (Some ptr).
Proof. unfold check_index_p1, p1. rewrite decode_uleb by done. done. Qed.

Lemma check_index_some n k ptr : 0 <= k < n -> k + 1 < 2 ^ 32 -> check_index_p1 n (p1 k ++ ptr) = Done (Some ptr).
Proof.
  intros Hk Hk32. unfold check_index_p1, p1. rewrite uwrap_small by (unfold in_u; lia).
  rewrite decode_uleb by (unfold in_u; lia). cbn [mbind cres_bind]. unfold CheckIndex.
  rewrite (proj2 (Z.ltb_lt _ _)) by lia. by rewrite andb_false_r.
Qed.

(** The verifier accepts a variable whose indices it accepts. *)
Lemma check_start_local strings reg name type : 0 <= reg < 65536 ->
  (forall ptr, check_index_p1 strings (p1 name ++ ptr) = Done (Some ptr)) ->
  (forall ptr, check_index_p1 strings (p1 type ++ ptr) = Done (Some ptr)) -> forall rest,
  let ops := encode_op (StartLocal reg name type None) ++ DBG_END_SEQUENCE :: rest in
  check_ops strings (S (length ops)) ops = Done (Some rest).
Proof.
  intros Hr Hn Ht rest ops.
  assert (exists fuel, length ops = S fuel) as [fuel ->] by (by eexists).
  assert (check_operands strings DBG_START_LOCAL (uleb reg ++ p1 name ++ p1 type ++ DBG_END_SEQUENCE :: rest) =
          Done (Some (DBG_END_SEQUENCE :: rest))) as E.
  { unfold check_operands. decide_consts. cbn [check_all]. unfold check_reg. rewrite decode_uleb by (unfold in_u; lia).
    cbn [mbind cres_bind]. rewrite (proj2 (Z.leb_gt _ _)), Hn by lia. cbn [mbind cres_bind]. rewrite Ht. done. }
  subst ops. cbn [encode_op app]. rewrite <- !(assoc_L (++)). remember (S fuel) as fuel'. cbn [check_ops next_byte mbind cres_bind].
  decide_consts. rewrite E. subst fuel'. done.
Qed.

Lemma bad_register_faults {C} cb d ci (ctx : C) line locals rest fuel : in_u 16 (registers_size_ ci) ->
  Z.of_nat (length locals) = registers_size_ ci ->
  run None (Some cb) d ci (S fuel) (mkMachine (bad_register (registers_size_ ci) rest) 0 line locals ctx) = Fault OutOfBounds.
Proof.
  intros Hr Hl. unfold in_u in Hr. cbn [run]. unfold step, bad_register. cbn [stream_ encode_op app next_byte mbind cres_bind].
  decide_consts. unfold set_stream. cbn [address_ line_ locals_ context_]. unfold op_start_local. cbn [stream_ address_ line_ locals_ context_].
  rewrite <- !(assoc_L (++)), decode_uleb by (unfold in_u; lia). cbn [mbind cres_bind]. rewrite uwrap_small by (unfold in_u; lia).
  rewrite Z.ltb_irrefl, decode_p1_ok by done. cbn [mbind cres_bind]. rewrite decode_p1_ok by done. cbn [mbind cres_bind need_locals].
  unfold InvokeLocalCbIfLive. rewrite lookup_ge_None_2 by lia. done.
Qed.

Lemma bad_type_faults {C} cb d ci (ctx : C) line rest fuel k : 0 < registers_size_ ci < 2 ^ 16 -> in_u 32 k ->
  NumIds (type_ids_ d) <= k ->
  run None (Some cb) d ci (S fuel)
    (mkMachine (bad_type k rest) 0 line (replicate (Z.to_nat (registers_size_ ci)) new_LocalInfo) ctx) = Fault OutOfBounds.
Proof.
  intros Hr Hk Ht. cbn [run]. unfold step, bad_type. cbn [stream_ encode_op app next_byte mbind cres_bind].
  decide_consts. unfold set_stream. cbn [address_ line_ locals_ context_]. unfold op_start_local. cbn [stream_ address_ line_ locals_ context_].
  rewrite <- !(assoc_L (++)), decode_uleb by done. cbn [mbind cres_bind]. rewrite uwrap_small by done.
  rewrite (proj2 (Z.ltb_ge _ _)), decode_p1_ok by (done || lia). cbn [mbind cres_bind].
  rewrite decode_p1_ok by done. cbn [mbind cres_bind need_locals]. unfold InvokeLocalCbIfLive. change (Z.to_nat 0) with 0%nat.
  destruct (Z.to_nat (registers_size_ ci)) as [|m] eqn:E; [lia|]. cbn [replicate lookup list_lookup deref mbind cres_bind new_LocalInfo is_live_].
  change (StringDataByIdx d kDexNoIndex) with (Done (A := option (list Z)) None). cbn [mbind cres_bind].
  unfold StringByTypeIdx, entry, NumIds in *. rewrite lookup_ge_None_2 by lia. done.
Qed.

Lemma close_all_none {C} ci n reg locals (ctx : C) : close_all None ci n reg locals ctx = Done ctx.
Proof. revert reg. induction n as [|n IH]; intros reg; [done|apply IH]. Qed.

Lemma uleb_short c : 0 <= c < 128 -> uleb c = [c].
Proof.
  intros Hc. pose proof (below_forallb 128 (fun c => bool_decide (uleb c = [c])) ltac:(by vm_compute) c ltac:(lia)) as H.
  by apply bool_decide_eq_true in H.
Qed.

(** The verifier skips the index of the source file, the decoder executes it. *)
Lemma set_file_checked strings c rest : DBG_FIRST_SPECIAL <= c < 128 -> c <= strings ->
  check_ops strings (S (length (set_file c rest))) (set_file c rest) = Done (Some rest).
Proof.
  intros Hc Hs. assert (uleb c = [c]) as E by (by apply uleb_short; unfold DBG_FIRST_SPECIAL in Hc; lia).
  assert (p1 (c - 1) = [c]) as E1 by (unfold p1; rewrite uwrap_small; [by rewrite Z.sub_add|unfold in_u, DBG_FIRST_SPECIAL in *; lia]).
  assert (check_operands strings DBG_SET_FILE (c :: DBG_END_SEQUENCE :: rest) = Done (Some (DBG_END_SEQUENCE :: rest))) as E2.
  { unfold check_operands. decide_consts. change (c :: ?l) with ([c] ++ l). rewrite <- E1.
    apply check_index_some; unfold DBG_FIRST_SPECIAL in Hc; lia. }
  unfold set_file. cbn [length]. cbn [check_ops next_byte mbind cres_bind]. decide_consts. rewrite E2. done.
Qed.

Lemma set_file_executed {C} (pcb : C -> Z -> Z -> C * bool) d ci (ctx : C) line locals c rest fuel :
  DBG_FIRST_SPECIAL <= c < 128 ->
  let adjopcode := c - DBG_FIRST_SPECIAL in
  exists m, run (Some pcb) None d ci (S (S (S fuel))) (mkMachine (set_file c rest) 0 line locals ctx) = Done m /\
    context_ m = (pcb ctx (u32 (adjopcode / DBG_LINE_RANGE)) (u32 (line + (DBG_LINE_BASE + adjopcode mod DBG_LINE_RANGE)))).1.
Proof.
  intros Hc adjopcode. assert (step (Some pcb) None d ci (mkMachine (set_file c rest) 0 line locals ctx) =
    Done (Go (mkMachine (c :: DBG_END_SEQUENCE :: rest) 0 line locals ctx))) as E1 by done.
  assert (step (Some pcb) None d ci (mkMachine (c :: DBG_END_SEQUENCE :: rest) 0 line locals ctx) =
    Done (op_special (Some pcb) c (mkMachine (DBG_END_SEQUENCE :: rest) 0 line locals ctx))) as E2.
  { unfold step. cbn [stream_ next_byte mbind cres_bind]. unfold DBG_FIRST_SPECIAL in Hc. 
    repeat (rewrite (proj2 (Z.eqb_neq c _)) by (by vm_compute; lia)). done. }
  cbn [run]. rewrite E1. cbn [mbind cres_bind run]. rewrite E2. cbn [mbind cres_bind]. unfold op_special.
  cbn [address_ line_ locals_ context_ stream_]. fold adjopcode. rewrite Z.add_0_l.
  destruct (pcb ctx _ _) as [ctx' []]; by eexists.
Qed.

(** C38: Verified debug information can still lead the decoder out of bounds.  The
    check lets registers up to 65535 through and the decoder one register more
    than the method has, so that a variable there is read and written behind
    the array of locals; the check compares the type of a variable with the
    number of strings, so that the decoder can read behind the table of types;
    and the decoder does not skip the operand of DBG_SET_FILE, which the check
    does, but executes it. *)
Theorem verified_debug_info_unsafe {C} d method_idx ci line strings rest
    (lcb : C -> Z -> Z -> Z -> option (list Z) -> option (list Z) -> option (list Z) -> C)
    (pcb : C -> Z -> Z -> C * bool) (ctx : C) : 0 < registers_size_ ci < 2 ^ 16 ->
  (let ops := bad_register (registers_size_ ci) rest in simple_method d method_idx ci line ops ->
     CheckIntraDebugInfoItem strings (uleb line ++ uleb 0 ++ ops) = Done (Some rest) /\
     DecodeDebugInfo None (Some lcb) d ci true method_idx ctx = Fault OutOfBounds) /\
  (forall k, NumIds (type_ids_ d) <= k < strings -> strings < 2 ^ 32 ->
   let ops := bad_type k rest in simple_method d method_idx ci line ops ->
     CheckIntraDebugInfoItem strings (uleb line ++ uleb 0 ++ ops) = Done (Some rest) /\
     DecodeDebugInfo None (Some lcb) d ci true method_idx ctx = Fault OutOfBounds) /\
  (forall c, DBG_FIRST_SPECIAL <= c < 128 -> c <= strings ->
   let ops := set_file c rest in simple_method d method_idx ci line ops ->
     CheckIntraDebugInfoItem strings (uleb line ++ uleb 0 ++ ops) = Done (Some rest) /\
     let adjopcode := c - DBG_FIRST_SPECIAL in
     DecodeDebugInfo (Some pcb) None d ci true method_idx ctx =
     Done (pcb ctx (u32 (adjopcode / DBG_LINE_RANGE)) (u32 (line + (DBG_LINE_BASE + adjopcode mod DBG_LINE_RANGE)))).1).
Proof.
  intros Hr. split; [|split].
  - intros ops Hm. rewrite (simple_check _ _ _ _ _ _ Hm). split.
    + apply check_start_local; [lia|apply check_index_none..].
    + destruct (simple_decode None (Some lcb) _ _ _ _ _ ctx Hm) as (locals & Hl & ->). rewrite (Hl eq_refl).
      unfold ops. rewrite bad_register_faults; [done|unfold in_u; lia|]. rewrite length_replicate. lia.
  - intros k Hk Hs ops Hm. rewrite (simple_check _ _ _ _ _ _ Hm). split.
    + apply check_start_local; [lia|apply check_index_none|]. intros ptr. apply check_index_some; unfold NumIds in *; lia.
    + destruct (simple_decode None (Some lcb) _ _ _ _ _ ctx Hm) as (locals & Hl & ->). rewrite (Hl eq_refl).
      unfold ops. rewrite bad_type_faults; [done|done|unfold in_u, NumIds in *; lia|lia].
  - intros c Hc Hs ops Hm. rewrite (simple_check _ _ _ _ _ _ Hm). split; [by apply set_file_checked|intros adjopcode].
    destruct (simple_decode (Some pcb) None _ _ _ _ _ ctx Hm) as (locals & _ & ->).
    destruct (set_file_executed pcb d ci ctx line locals c rest (S (length rest)) Hc) as (m & E & Em).
    change (S (length ops)) with (S (S (S (S (length rest))))). unfold ops. rewrite E. cbn [mbind cres_bind]. by rewrite close_all_none, Em.
Qed.

(** Methods of the demonstration file, whose debug information starts at [off]. *)
Definition bad_code (off : Z) : CodeItem :=
  {| registers_size_ := 1; ins_size_ := 0; debug_info_off_ := off; insns_size_in_code_units_ := 4 |}.

Example verified_debug_info_unsafe_witness :
  DecodeDebugInfo None (Some record_scope) Sig.demo_file (bad_code 30) true 1 [] = Fault OutOfBounds /\
  DecodeDebugInfo None (Some record_scope) Sig.demo_file (bad_code 37) true 1 [] = Fault OutOfBounds /\
  DecodeDebugInfo (Some (fun ctx a l => ((a, l) :: ctx, false))) None Sig.demo_file (bad_code 44) true 1 [] = Done [(0, 5)].
Proof.
  assert (forall off ops, GetDebugInfoStream Sig.demo_file (bad_code off) = Some (uleb 5 ++ uleb 0 ++ ops) ->
    simple_method Sig.demo_file 1 (bad_code off) 5 ops) as Hm.
  { intros off ops E. split; [done|]. by exists {| method_class_idx_ := 1; method_proto_idx_ := 1; method_name_idx_ := 0 |},
      {| shorty_idx_ := 3; return_type_idx_ := 2; parameters_off_ := 0 |}. }
  split_and!.
  - refine (proj2 (proj1 (verified_debug_info_unsafe Sig.demo_file 1 (bad_code 30) 5 4 (drop 37 (dex_begin_ Sig.demo_file))
      record_scope (fun ctx _ _ => (ctx, false)) [] _) _)); [done|by apply Hm].
  - refine (proj2 (proj1 (proj2 (verified_debug_info_unsafe Sig.demo_file 1 (bad_code 37) 5 4 (drop 44 (dex_begin_ Sig.demo_file))
      record_scope (fun ctx _ _ => (ctx, false)) [] _)) 3 _ _ _)); [done..|by apply Hm].
  - refine (proj2 (proj2 (proj2 (verified_debug_info_unsafe Sig.demo_file 1 (bad_code 44) 5 14 []
      (fun ctx _ _ _ _ _ _ => ctx) (fun ctx a l => ((a, l) :: ctx, false)) [] _)) 14 _ _ _)); [done..|by apply Hm].
Defined.
