(* ===== verification/DexFormat.v ===== *)
(** * DexFormat: the layout of a dex file (runtime/dex_file.h, dex_file.cc)

    The header, the map of sections and the entries of the tables as they lie in
    the bytes of the file, and the [DexFile] that the constructor makes of them.
    A table of [Dex] holds the entries that lie in the file as a whole, so that
    reading another one faults, as a read outside of the file does. *)

From S2P Require Import Prelude CLib Leb128 Utf HashSet Dex.

(** ** Structures *)

Record Header := {
  checksum_ : Z; file_size_ : Z; header_size_ : Z; endian_tag_ : Z; link_size_ : Z; link_off_ : Z; map_off_ : Z;
  string_ids_size_ : Z; string_ids_off_ : Z; type_ids_size_ : Z; type_ids_off_ : Z;
  proto_ids_size_ : Z; proto_ids_off_ : Z; field_ids_size_ : Z; field_ids_off_ : Z;
  method_ids_size_ : Z; method_ids_off_ : Z; class_defs_size_ : Z; class_defs_off_ : Z;
  data_size_ : Z; data_off_ : Z
}.

Definition HEADER_SIZE : Z := 112.
Definition kDexEndianConstant : Z := 0x12345678.

(** A field of two or four bytes at [off] behind the pointer. *)
Definition u16_at (p : list Z) (off : nat) : Z := of_le (take 2 (drop off p)).
Definition u32_at (p : list Z) (off : nat) : Z := of_le (take 4 (drop off p)).

Definition read_Header (begin : list Z) : cres Header :=
  if Z.of_nat (length begin) <? HEADER_SIZE then Fault OutOfBounds
  else Done {|
    checksum_ := u32_at begin 8; file_size_ := u32_at begin 32; header_size_ := u32_at begin 36;
    endian_tag_ := u32_at begin 40; link_size_ := u32_at begin 44; link_off_ := u32_at begin 48;
    map_off_ := u32_at begin 52; string_ids_size_ := u32_at begin 56; string_ids_off_ := u32_at begin 60;
    type_ids_size_ := u32_at begin 64; type_ids_off_ := u32_at begin 68; proto_ids_size_ := u32_at begin 72;
    proto_ids_off_ := u32_at begin 76; field_ids_size_ := u32_at begin 80; field_ids_off_ := u32_at begin 84;
    method_ids_size_ := u32_at begin 88; method_ids_off_ := u32_at begin 92; class_defs_size_ := u32_at begin 96;
    class_defs_off_ := u32_at begin 100; data_size_ := u32_at begin 104; data_off_ := u32_at begin 108 |}.

Definition kDexTypeHeaderItem : Z := 0x0000.
Definition kDexTypeStringIdItem : Z := 0x0001.
Definition kDexTypeTypeIdItem : Z := 0x0002.
Definition kDexTypeProtoIdItem : Z := 0x0003.
Definition kDexTypeFieldIdItem : Z := 0x0004.
Definition kDexTypeMethodIdItem : Z := 0x0005.
Definition kDexTypeClassDefItem : Z := 0x0006.
Definition kDexTypeMapList : Z := 0x1000.
Definition kDexTypeTypeList : Z := 0x1001.
Definition kDexTypeAnnotationSetRefList : Z := 0x1002.
Definition kDexTypeAnnotationSetItem : Z := 0x1003.
Definition kDexTypeClassDataItem : Z := 0x2000.
Definition kDexTypeCodeItem : Z := 0x2001.
Definition kDexTypeStringDataItem : Z := 0x2002.
Definition kDexTypeDebugInfoItem : Z := 0x2003.
Definition kDexTypeAnnotationItem : Z := 0x2004.
Definition kDexTypeEncodedArrayItem : Z := 0x2005.
Definition kDexTypeAnnotationsDirectoryItem : Z := 0x2006.

Record MapItem := { map_type_ : Z; map_size_ : Z; map_offset_ : Z }.
Definition MAP_ITEM_SIZE : Z := 12.
Definition MAP_LIST_SIZE : Z := 16.

(** A structure of [size] bytes at the pointer. *)
Definition read_struct {A} (size : Z) (parse : list Z -> A) (p : list Z) : cres A :=
  if Z.of_nat (length p) <? size then Fault OutOfBounds else Done (parse p).

Definition parse_MapItem (p : list Z) : MapItem :=
  {| map_type_ := u16_at p 0; map_size_ := u32_at p 4; map_offset_ := u32_at p 8 |}.
Definition parse_StringId (p : list Z) : Z := u32_at p 0.
Definition parse_TypeId (p : list Z) : Z := u32_at p 0.
Definition parse_FieldId (p : list Z) : FieldId :=
  {| field_class_idx_ := u16_at p 0; field_type_idx_ := u16_at p 2; field_name_idx_ := u32_at p 4 |}.
Definition parse_MethodId (p : list Z) : MethodId :=
  {| method_class_idx_ := u16_at p 0; method_proto_idx_ := u16_at p 2; method_name_idx_ := u32_at p 4 |}.
Definition parse_ProtoId (p : list Z) : ProtoId :=
  {| shorty_idx_ := u32_at p 0; return_type_idx_ := u16_at p 4; parameters_off_ := u32_at p 8 |}.
Definition parse_ClassDef (p : list Z) : ClassDef :=
  {| class_idx_ := u16_at p 0; access_flags_ := u32_at p 4; superclass_idx_ := u16_at p 8; interfaces_off_ := u32_at p 12;
     source_file_idx_ := u32_at p 16; annotations_off_ := u32_at p 20; class_data_off_ := u32_at p 24;
     static_values_off_ := u32_at p 28 |}.

Definition STRING_ID_SIZE : Z := 4.
Definition TYPE_ID_SIZE : Z := 4.
Definition PROTO_ID_SIZE : Z := 12.
Definition FIELD_ID_SIZE : Z := 8.
Definition METHOD_ID_SIZE : Z := 8.
Definition CLASS_DEF_SIZE : Z := 32.

(** ** The tables *)

(** The entries of a table of [count] that are in the bytes [p]. *)
Fixpoint table {A} (size : Z) (parse : list Z -> A) (count : nat) (p : list Z) : list A :=
  match count with
  | O => []
  | S count =>
      if Z.of_nat (length p) <? size then [] else parse p :: table size parse count (drop (Z.to_nat size) p)
  end.

Definition table_at {A} (begin : list Z) (size : Z) (parse : list Z -> A) (off count : Z) : list A :=
  table size parse (Z.to_nat count) (drop (Z.to_nat off) begin).

(** The constructor, for the bytes of a file and its header. *)
Definition make_DexFile (begin : list Z) (h : Header) : DexFile := {|
  dex_begin_ := begin;
  string_ids_ := table_at begin STRING_ID_SIZE parse_StringId (string_ids_off_ h) (string_ids_size_ h);
  type_ids_ := table_at begin TYPE_ID_SIZE parse_TypeId (type_ids_off_ h) (type_ids_size_ h);
  field_ids_ := table_at begin FIELD_ID_SIZE parse_FieldId (field_ids_off_ h) (field_ids_size_ h);
  method_ids_ := table_at begin METHOD_ID_SIZE parse_MethodId (method_ids_off_ h) (method_ids_size_ h);
  proto_ids_ := table_at begin PROTO_ID_SIZE parse_ProtoId (proto_ids_off_ h) (proto_ids_size_ h);
  class_defs_ := table_at begin CLASS_DEF_SIZE parse_ClassDef (class_defs_off_ h) (class_defs_size_ h);
  find_class_def_misses_ := 0;
  class_def_index_ := None
|}.

(** ** Entries *)

Lemma full_table_length {A} size (parse : list Z -> A) count p : 0 < size -> Z.of_nat count * size <= Z.of_nat (length p) ->
  length (table size parse count p) = count.
Proof.
  intros Hs. revert p. induction count as [|count IH]; intros p Hp; [done|]. cbn [table].
  rewrite (proj2 (Z.ltb_ge _ _)) by nia. cbn [length]. f_equal. apply IH. rewrite length_drop. nia.
Qed.

Lemma table_lookup {A} size (parse : list Z -> A) count p i : 0 < size -> Z.of_nat count * size <= Z.of_nat (length p) ->
  (i < count)%nat -> table size parse count p !! i = Some (parse (drop (i * Z.to_nat size) p)).
Proof.
  intros Hs. revert p i. induction count as [|count IH]; intros p i Hp Hi; [lia|]. cbn [table].
  rewrite (proj2 (Z.ltb_ge _ _)) by nia. destruct i as [|i]; [done|]. cbn [lookup list_lookup].
  change (table size parse count (drop (Z.to_nat size) p) !! i = Some (parse (drop (S i * Z.to_nat size) p))).
  rewrite IH; [|rewrite length_drop; nia|lia]. by rewrite drop_drop.
Qed.
