(* ===== verification/DexVerifier.v ===== *)
(** * DexVerifier: the whole verifier of dex files
      (runtime/dex_file_verifier.h, dex_file_verifier.cc)

    The object DexFileVerifier is a record [Verifier] with its pointer, the item
    before the current one, the types of the items by their offset and the
    classes seen so far.  A pointer is an offset in the file.  A check returns
    the object, or [None] when it fails; the bytes behind the file cannot be read,
    so a check that does so faults.  The checks of string data, code and debug
    information are those of [DexVerify]. *)

From S2P Require Import Prelude CLib Leb128 Utf HashSet Dex Names DexItems DexCatch DexValues DexDebug DexVerify DexFormat.

(** A check and what follows it when it passes. *)
Notation "x ←? m ; k" := (mbind (fun r => match r with Some x => k | None => Done None end) m)
  (at level 20, m at level 100, k at level 200, only parsing).

Record Verifier := mkVerifier {
  v_ptr : Z; previous_item_ : option Z; offset_to_type_map_ : gmap Z Z; defined_classes_ : gset Z
}.
Definition set_ptr (v : Verifier) (p : Z) : Verifier :=
  mkVerifier p (previous_item_ v) (offset_to_type_map_ v) (defined_classes_ v).

Definition kAccPrivate : Z := 0x0002.
Definition kAccSynchronized : Z := 0x0020.
Definition kAccNative : Z := 0x0100.
Definition kAccAbstract : Z := 0x0400.
Definition kAccJavaFlagsMask : Z := 0xffff.
Definition kAccDeclaredSynchronized : Z := 0x00020000.

Definition MapTypeToBitMask (map_type : Z) : Z :=
  if map_type =? kDexTypeHeaderItem then Z.shiftl 1 0
  else if map_type =? kDexTypeStringIdItem then Z.shiftl 1 1
  else if map_type =? kDexTypeTypeIdItem then Z.shiftl 1 2
  else if map_type =? kDexTypeProtoIdItem then Z.shiftl 1 3
  else if map_type =? kDexTypeFieldIdItem then Z.shiftl 1 4
  else if map_type =? kDexTypeMethodIdItem then Z.shiftl 1 5
  else if map_type =? kDexTypeClassDefItem then Z.shiftl 1 6
  else if map_type =? kDexTypeMapList then Z.shiftl 1 7
  else if map_type =? kDexTypeTypeList then Z.shiftl 1 8
  else if map_type =? kDexTypeAnnotationSetRefList then Z.shiftl 1 9
  else if map_type =? kDexTypeAnnotationSetItem then Z.shiftl 1 10
  else if map_type =? kDexTypeClassDataItem then Z.shiftl 1 11
  else if map_type =? kDexTypeCodeItem then Z.shiftl 1 12
  else if map_type =? kDexTypeStringDataItem then Z.shiftl 1 13
  else if map_type =? kDexTypeDebugInfoItem then Z.shiftl 1 14
  else if map_type =? kDexTypeAnnotationItem then Z.shiftl 1 15
  else if map_type =? kDexTypeEncodedArrayItem then Z.shiftl 1 16
  else if map_type =? kDexTypeAnnotationsDirectoryItem then Z.shiftl 1 17
  else 0.

Definition IsDataSectionType (map_type : Z) : bool :=
  negb (bool_decide (map_type ∈ [kDexTypeHeaderItem; kDexTypeStringIdItem; kDexTypeTypeIdItem; kDexTypeProtoIdItem;
                                 kDexTypeFieldIdItem; kDexTypeMethodIdItem; kDexTypeClassDefItem])).

Definition CheckShortyDescriptorMatch (shorty_char : Z) (descriptor : list Z) (is_return_type : bool) : cres bool :=
  if (shorty_char =? chr "V") && negb is_return_type then Done false
  else if bool_decide (shorty_char ∈ lit "VBCDFIJSZ") then
    '(c, next) ← next_byte descriptor;
    if negb (c =? shorty_char) then Done false else '(c, _) ← next_byte next; Done (c =? 0)
  else if shorty_char =? chr "L" then
    '(c, _) ← next_byte descriptor; Done ((c =? chr "L") || (c =? chr "["))
  else Done false.

Section Verifier.
(** The bytes of the file, the checksum of zlib (its first argument is the sum so
    far, its second the bytes, [None] for Z_NULL), and whether char is signed. *)
Context (begin_ : list Z) (adler32 : Z -> option (list Z) -> Z) (char_signed : bool).
(** The header and the [DexFile] of these bytes. *)
Context (header_ : Header) (dex_file_ : DexFile).

Definition size_ : Z := Z.of_nat (length begin_).
(** The bytes from an offset on, and the offset of such bytes. *)
Definition bytes_at (off : Z) : list Z := drop (Z.to_nat off) begin_.
Definition offset_of (p : list Z) : Z := size_ - Z.of_nat (length p).

(** ** Ranges and indices *)

(** [CheckListSize]; a range that wraps around the address space ends behind the
    file, too. *)
Definition check_range (start count elem_size : Z) : bool := start + count * elem_size <=? size_.

Definition CheckList (element_size : Z) (ptr : Z) : cres (option Z) :=
  if negb (check_range ptr 1 4) then Done None
  else
    count ← read_le 4 (bytes_at ptr);
    if (0 <? count) && negb (check_range (ptr + 4) count element_size) then Done None
    else Done (Some (ptr + (4 + count * element_size))).

Definition CheckValidOffsetAndSize (offset size : Z) : bool :=
  negb ((size =? 0) && negb (offset =? 0)) && negb (size_ <=? offset).

Definition CheckLoadStringByIdx (idx : Z) : cres (option (list Z)) :=
  if negb (CheckIndex idx (string_ids_size_ header_)) then Done None else StringDataByIdx dex_file_ idx.
Definition CheckLoadStringByTypeIdx (type_idx : Z) : cres (option (list Z)) :=
  if negb (CheckIndex type_idx (type_ids_size_ header_)) then Done None
  else idx ← entry (type_ids_ dex_file_) type_idx; CheckLoadStringByIdx idx.
Definition CheckLoadFieldId (idx : Z) : cres (option FieldId) :=
  if negb (CheckIndex idx (field_ids_size_ header_)) then Done None
  else f ← entry (field_ids_ dex_file_) idx; Done (Some f).
Definition CheckLoadMethodId (idx : Z) : cres (option MethodId) :=
  if negb (CheckIndex idx (method_ids_size_ header_)) then Done None
  else m ← entry (method_ids_ dex_file_) idx; Done (Some m).

(** ** Header and map *)

Definition CheckHeader : bool :=
  (size_ =? file_size_ header_) &&
  (adler32 (adler32 0 None) (Some (drop 12 begin_)) =? checksum_ header_) &&
  (endian_tag_ header_ =? kDexEndianConstant) && (header_size_ header_ =? HEADER_SIZE) &&
  CheckValidOffsetAndSize (link_off_ header_) (link_size_ header_) &&
  CheckValidOffsetAndSize (map_off_ header_) (map_off_ header_) &&
  CheckValidOffsetAndSize (string_ids_off_ header_) (string_ids_size_ header_) &&
  CheckValidOffsetAndSize (type_ids_off_ header_) (type_ids_size_ header_) &&
  CheckValidOffsetAndSize (proto_ids_off_ header_) (proto_ids_size_ header_) &&
  CheckValidOffsetAndSize (field_ids_off_ header_) (field_ids_size_ header_) &&
  CheckValidOffsetAndSize (method_ids_off_ header_) (method_ids_size_ header_) &&
  CheckValidOffsetAndSize (class_defs_off_ header_) (class_defs_size_ header_) &&
  CheckValidOffsetAndSize (data_off_ header_) (data_size_ header_).

(** The number of items in the map, and one of them. *)
Definition map_count : cres Z := read_le 4 (bytes_at (map_off_ header_)).
Definition map_item (i : Z) : cres MapItem :=
  read_struct MAP_ITEM_SIZE parse_MapItem (bytes_at (map_off_ header_ + 4 + i * MAP_ITEM_SIZE)).

(** The loop of [CheckMap], from item [i] on: the bits of the sections. *)
Fixpoint check_map_items (n : nat) (i last_offset data_items_left used_bits : Z) : cres (option Z) :=
  match n with
  | O => Done (Some used_bits)
  | S n =>
      item ← map_item i;
      let bit := MapTypeToBitMask (map_type_ item) in
      if (map_offset_ item <=? last_offset) && negb (i =? 0) then Done None
      else if file_size_ header_ <=? map_offset_ item then Done None
      else if IsDataSectionType (map_type_ item) && (data_items_left <? map_size_ item) then Done None
      else if bit =? 0 then Done None
      else if negb (Z.land used_bits bit =? 0) then Done None
      else
        check_map_items n (i + 1) (map_offset_ item)
          (if IsDataSectionType (map_type_ item) then data_items_left - map_size_ item else data_items_left)
          (Z.lor used_bits bit)
  end.

Definition missing (used_bits type off size : Z) : bool :=
  (Z.land used_bits (MapTypeToBitMask type) =? 0) && (negb (off =? 0) || negb (size =? 0)).

Definition CheckMap : cres bool :=
  if negb (check_range (map_off_ header_) 1 MAP_LIST_SIZE) then Done false
  else
    count ← map_count;
    if negb (check_range (map_off_ header_ + 4) count MAP_ITEM_SIZE) then Done false
    else
      used_bits ← check_map_items (Z.to_nat count) 0 0 (data_size_ header_) 0;
      match used_bits with
      | None => Done false
      | Some used_bits =>
          Done (negb (Z.land used_bits (MapTypeToBitMask kDexTypeHeaderItem) =? 0) &&
                negb (Z.land used_bits (MapTypeToBitMask kDexTypeMapList) =? 0) &&
                negb (missing used_bits kDexTypeStringIdItem (string_ids_off_ header_) (string_ids_size_ header_)) &&
                negb (missing used_bits kDexTypeTypeIdItem (type_ids_off_ header_) (type_ids_size_ header_)) &&
                negb (missing used_bits kDexTypeProtoIdItem (proto_ids_off_ header_) (proto_ids_size_ header_)) &&
                negb (missing used_bits kDexTypeFieldIdItem (field_ids_off_ header_) (field_ids_size_ header_)) &&
                negb (missing used_bits kDexTypeMethodIdItem (method_ids_off_ header_) (method_ids_size_ header_)) &&
                negb (missing used_bits kDexTypeClassDefItem (class_defs_off_ header_) (class_defs_size_ header_)))
      end.

(** ** Encoded values *)

(** [ReadUnsignedLittleEndian]: the value and the pointer behind it.  When the
    bytes are not in the file it is 0 and the pointer stays. *)
Definition ReadUnsignedLittleEndian (ptr size : Z) : Z * Z :=
  if check_range ptr size 1 then (of_le (take (Z.to_nat size) (bytes_at ptr)), ptr + size) else (0, ptr).

Definition kDexAnnotationField : Z := 0x19.
Definition kDexAnnotationMethod : Z := 0x1a.
Definition kDexAnnotationEnum : Z := 0x1b.
Definition kDexAnnotationArray : Z := 0x1c.
Definition kDexAnnotationAnnotation : Z := 0x1d.

(** A value that is an index of [value_arg + 1] bytes, less than [limit]. *)
Definition check_value_index (value_arg limit ptr : Z) : option Z :=
  if 3 <? value_arg then None
  else let '(idx, ptr) := ReadUnsignedLittleEndian ptr (value_arg + 1) in
       if CheckIndex idx limit then Some ptr else None.

(** [n] values, one after the other. *)
Fixpoint check_values (check : Z -> cres (option Z)) (n : nat) (ptr : Z) : cres (option Z) :=
  match n with
  | O => Done (Some ptr)
  | S n => ptr ←? check ptr; check_values check n ptr
  end.

(** A LEB128 integer at an offset, and the offset behind it. *)
Definition uleb_at (ptr : Z) : cres (Z * Z) :=
  '(v, rest) ← DecodeUnsignedLeb128 (bytes_at ptr); Done (v, offset_of rest).

(** The elements of an annotation, from element [i] on. *)
Fixpoint check_elements (check : Z -> cres (option Z)) (n : nat) (i last_idx ptr : Z) : cres (option Z) :=
  match n with
  | O => Done (Some ptr)
  | S n =>
      '(idx, ptr) ← uleb_at ptr;
      if negb (CheckIndex idx (string_ids_size_ header_)) then Done None
      else if (idx <=? last_idx) && negb (i =? 0) then Done None
      else ptr ←? check ptr; check_elements check n (i + 1) idx ptr
  end.

Definition check_array (check : Z -> cres (option Z)) (ptr : Z) : cres (option Z) :=
  '(size, ptr) ← uleb_at ptr; check_values check (Z.to_nat size) ptr.

Definition check_annotation (check : Z -> cres (option Z)) (ptr : Z) : cres (option Z) :=
  '(idx, ptr) ← uleb_at ptr;
  if negb (CheckIndex idx (type_ids_size_ header_)) then Done None
  else '(size, ptr) ← uleb_at ptr; check_elements check (Z.to_nat size) 0 0 ptr.

(** The fuel bounds the depth of arrays and annotations in one another. *)
Fixpoint check_value (fuel : nat) (ptr : Z) : cres (option Z) :=
  match fuel with
  | O => Fault OutOfFuel
  | S fuel =>
      if negb (check_range ptr 1 1) then Done None
      else
        '(header_byte, _) ← next_byte (bytes_at ptr);
        let ptr := ptr + 1 in
        let value_type := Z.land header_byte Values.kEncodedValueTypeMask in
        let value_arg := Z.shiftr header_byte Values.kEncodedValueArgShift in
        if value_type =? Values.kByte then Done (if negb (value_arg =? 0) then None else Some (ptr + 1))
        else if (value_type =? Values.kShort) || (value_type =? Values.kChar) then
          Done (if 1 <? value_arg then None else Some (ptr + (value_arg + 1)))
        else if (value_type =? Values.kInt) || (value_type =? Values.kFloat) then
          Done (if 3 <? value_arg then None else Some (ptr + (value_arg + 1)))
        else if (value_type =? Values.kLong) || (value_type =? Values.kDouble) then Done (Some (ptr + (value_arg + 1)))
        else if value_type =? Values.kString then Done (check_value_index value_arg (string_ids_size_ header_) ptr)
        else if value_type =? Values.kType then Done (check_value_index value_arg (type_ids_size_ header_) ptr)
        else if (value_type =? kDexAnnotationField) || (value_type =? kDexAnnotationEnum) then
          Done (check_value_index value_arg (field_ids_size_ header_) ptr)
        else if value_type =? kDexAnnotationMethod then Done (check_value_index value_arg (method_ids_size_ header_) ptr)
        else if value_type =? kDexAnnotationArray then
          if negb (value_arg =? 0) then Done None else check_array (check_value fuel) ptr
        else if value_type =? kDexAnnotationAnnotation then
          if negb (value_arg =? 0) then Done None else check_annotation (check_value fuel) ptr
        else if value_type =? Values.kNull then Done (if negb (value_arg =? 0) then None else Some ptr)
        else if value_type =? Values.kBoolean then Done (if 1 <? value_arg then None else Some ptr)
        else Done None
  end.

(** Each level takes a byte of the file. *)
Definition CheckEncodedValue : Z -> cres (option Z) := check_value (S (length begin_)).
Definition CheckEncodedArray : Z -> cres (option Z) := check_array CheckEncodedValue.
Definition CheckEncodedAnnotation : Z -> cres (option Z) := check_annotation CheckEncodedValue.

(** ** Class data *)

Definition CheckClassDataItemField (idx access_flags : Z) (expect_static : bool) : bool :=
  CheckIndex idx (field_ids_size_ header_) &&
  Bool.eqb (negb (Z.land access_flags ClassData.kAccStatic =? 0)) expect_static &&
  (Z.land access_flags (Z.lnot kAccJavaFlagsMask) =? 0).

Definition CheckClassDataItemMethod (idx access_flags code_offset : Z) (expect_direct : bool) : bool :=
  let is_direct :=
    negb (Z.land access_flags (Z.lor (Z.lor ClassData.kAccStatic kAccPrivate) ClassData.kAccConstructor) =? 0) in
  let expect_code := Z.land access_flags (Z.lor kAccNative kAccAbstract) =? 0 in
  let is_synchronized := negb (Z.land access_flags kAccSynchronized =? 0) in
  let allow_synchronized := negb (Z.land access_flags kAccNative =? 0) in
  let access_method_mask := Z.lor (Z.lor kAccJavaFlagsMask ClassData.kAccConstructor) kAccDeclaredSynchronized in
  CheckIndex idx (method_ids_size_ header_) && Bool.eqb is_direct expect_direct &&
  negb (negb (Z.land access_flags (Z.lnot access_method_mask) =? 0) || (is_synchronized && negb allow_synchronized)) &&
  negb (expect_code && (code_offset =? 0)) && negb (negb expect_code && negb (code_offset =? 0)).

(** A loop over the members the iterator is at while [has_next]. *)
Fixpoint check_members (fuel : nat) (has_next : ClassData.It -> bool) (check : ClassData.It -> cres bool)
    (it : ClassData.It) : cres (option ClassData.It) :=
  if has_next it then
    match fuel with
    | O => Fault OutOfFuel
    | S fuel =>
        ok ← check it;
        if negb (ok : bool) then Done None
        else it ← ClassData.Next it; check_members fuel has_next check it
    end
  else Done (Some it).

Definition check_field_item (expect_static : bool) (it : ClassData.It) : cres bool :=
  Done (CheckClassDataItemField (ClassData.GetMemberIndex it) (ClassData.GetRawMemberAccessFlags it) expect_static).
Definition check_method_item (expect_direct : bool) (it : ClassData.It) : cres bool :=
  Done (CheckClassDataItemMethod (ClassData.GetMemberIndex it) (ClassData.GetRawMemberAccessFlags it)
          (ClassData.GetMethodCodeItemOffset it) expect_direct).

(** A member takes at least a byte of the file, so its length is enough fuel. *)
Definition CheckIntraClassDataItem (ptr : Z) : cres (option Z) :=
  let fuel := S (length begin_) in
  it ← ClassData.new_It (Some (bytes_at ptr));
  it ←? check_members fuel ClassData.HasNextStaticField (check_field_item true) it;
  it ←? check_members fuel ClassData.HasNextInstanceField (check_field_item false) it;
  it ←? check_members fuel ClassData.HasNextDirectMethod (check_method_item true) it;
  it ←? check_members fuel ClassData.HasNextVirtualMethod (check_method_item false) it;
  rest ← ClassData.EndDataPointer it;
  Done (Some (offset_of rest)).

(** ** Annotations *)

Definition CheckIntraAnnotationItem (ptr : Z) : cres (option Z) :=
  if negb (check_range ptr 1 1) then Done None
  else
    '(visibility, _) ← next_byte (bytes_at ptr);
    if bool_decide (visibility ∈ [0; 1; 2]) then CheckEncodedAnnotation (ptr + 1) else Done None.

Definition ANNOTATIONS_DIRECTORY_SIZE : Z := 16.
Definition ANNOTATIONS_ITEM_SIZE : Z := 8.

(** The indices of [n] annotations of fields, methods or parameters ascend. *)
Fixpoint check_ascending (n : nat) (i last_idx ptr : Z) : cres bool :=
  match n with
  | O => Done true
  | S n =>
      idx ← read_le 4 (bytes_at ptr);
      if (idx <=? last_idx) && negb (i =? 0) then Done false
      else check_ascending n (i + 1) idx (ptr + ANNOTATIONS_ITEM_SIZE)
  end.

(** A list of [count] annotations in the file. *)
Definition check_annotation_list (count ptr : Z) : cres (option Z) :=
  if negb (check_range ptr count ANNOTATIONS_ITEM_SIZE) then Done None
  else
    ok ← check_ascending (Z.to_nat count) 0 0 ptr;
    Done (if ok : bool then Some (ptr + count * ANNOTATIONS_ITEM_SIZE) else None).

Definition CheckIntraAnnotationsDirectoryItem (ptr : Z) : cres (option Z) :=
  if negb (check_range ptr 1 ANNOTATIONS_DIRECTORY_SIZE) then Done None
  else
    let item := bytes_at ptr in
    p ←? check_annotation_list (u32_at item 4) (ptr + ANNOTATIONS_DIRECTORY_SIZE);
    p ←? check_annotation_list (u32_at item 8) p;
    check_annotation_list (u32_at item 12) p.

(** ** Within the sections *)

(** Zero bytes up to [aligned_offset]; they are read at the pointer. *)
Fixpoint check_zeros (n : nat) (ptr : Z) : cres (option Z) :=
  match n with
  | O => Done (Some ptr)
  | S n =>
      '(b, _) ← next_byte (bytes_at ptr);
      if negb (b =? 0) then Done None else check_zeros n (ptr + 1)
  end.

Definition CheckPadding (offset aligned_offset ptr : Z) : cres (option Z) :=
  if offset <? aligned_offset then
    if negb (check_range offset (aligned_offset - offset) 1) then Done None
    else check_zeros (Z.to_nat (aligned_offset - offset)) ptr
  else Done (Some ptr).

(** The alignment of items less one. *)
Definition alignment_mask (byte_types : list Z) (type : Z) : Z := if bool_decide (type ∈ byte_types) then 0 else 3.
Definition align (mask offset : Z) : Z := Z.land (offset + mask) (Z.lnot mask).

(** An entry of a table. *)
Definition check_id (size ptr : Z) : cres (option Z) :=
  Done (if check_range ptr 1 size then Some (ptr + size) else None).
(** A check of [DexVerify], at an offset. *)
Definition check_at (check : list Z -> cres verdict) (ptr : Z) : cres (option Z) :=
  rest ←? check (bytes_at ptr); Done (Some (offset_of rest)).

(** The switch of [CheckIntraSectionIterate]. *)
Definition check_intra_item (type ptr : Z) : cres (option Z) :=
  if type =? kDexTypeStringIdItem then check_id STRING_ID_SIZE ptr
  else if type =? kDexTypeTypeIdItem then check_id TYPE_ID_SIZE ptr
  else if type =? kDexTypeProtoIdItem then check_id PROTO_ID_SIZE ptr
  else if type =? kDexTypeFieldIdItem then check_id FIELD_ID_SIZE ptr
  else if type =? kDexTypeMethodIdItem then check_id METHOD_ID_SIZE ptr
  else if type =? kDexTypeClassDefItem then check_id CLASS_DEF_SIZE ptr
  else if type =? kDexTypeTypeList then CheckList 2 ptr
  else if type =? kDexTypeAnnotationSetRefList then CheckList 4 ptr
  else if type =? kDexTypeAnnotationSetItem then CheckList 4 ptr
  else if type =? kDexTypeClassDataItem then CheckIntraClassDataItem ptr
  else if type =? kDexTypeCodeItem then check_at (CheckIntraCodeItem (type_ids_size_ header_)) ptr
  else if type =? kDexTypeStringDataItem then check_at CheckIntraStringDataItem ptr
  else if type =? kDexTypeDebugInfoItem then check_at (CheckIntraDebugInfoItem (string_ids_size_ header_)) ptr
  else if type =? kDexTypeAnnotationItem then CheckIntraAnnotationItem ptr
  else if type =? kDexTypeEncodedArrayItem then CheckEncodedArray ptr
  else if type =? kDexTypeAnnotationsDirectoryItem then CheckIntraAnnotationsDirectoryItem ptr
  else Done None.

Definition INTRA_BYTE_TYPES : list Z :=
  [kDexTypeClassDataItem; kDexTypeStringDataItem; kDexTypeDebugInfoItem; kDexTypeAnnotationItem; kDexTypeEncodedArrayItem].

(** [SafeMap::Put], which keeps an entry that is there. *)
Definition Put (k v : Z) (m : gmap Z Z) : gmap Z Z := match m !! k with Some _ => m | None => <[k := v]> m end.

Fixpoint CheckIntraSectionIterate (section_count : nat) (offset type : Z) (v : Verifier) : cres (option Verifier) :=
  match section_count with
  | O => Done (Some v)
  | S section_count =>
      let aligned_offset := align (alignment_mask INTRA_BYTE_TYPES type) offset in
      ptr ←? CheckPadding offset aligned_offset (v_ptr v);
      ptr ←? check_intra_item type ptr;
      let types := if IsDataSectionType type then Put (u32 aligned_offset) type (offset_to_type_map_ v)
                   else offset_to_type_map_ v in
      if size_ <? ptr then Done None
      else CheckIntraSectionIterate section_count ptr type (mkVerifier ptr (previous_item_ v) types (defined_classes_ v))
  end.

(** What the header says of a table. *)
Definition expected_section (type : Z) : option (Z * Z) :=
  if type =? kDexTypeStringIdItem then Some (string_ids_off_ header_, string_ids_size_ header_)
  else if type =? kDexTypeTypeIdItem then Some (type_ids_off_ header_, type_ids_size_ header_)
  else if type =? kDexTypeProtoIdItem then Some (proto_ids_off_ header_, proto_ids_size_ header_)
  else if type =? kDexTypeFieldIdItem then Some (field_ids_off_ header_, field_ids_size_ header_)
  else if type =? kDexTypeMethodIdItem then Some (method_ids_off_ header_, method_ids_size_ header_)
  else if type =? kDexTypeClassDefItem then Some (class_defs_off_ header_, class_defs_size_ header_)
  else None.

Definition CheckIntraIdSection (offset count type : Z) (v : Verifier) : cres (option Verifier) :=
  match expected_section type with
  | None => Done None
  | Some (expected_offset, expected_size) =>
      if negb (offset =? expected_offset) then Done None
      else if negb (count =? expected_size) then Done None
      else CheckIntraSectionIterate (Z.to_nat count) offset type v
  end.

(** Sizes have 32 bits. *)
Definition CheckIntraDataSection (offset count type : Z) (v : Verifier) : cres (option Verifier) :=
  let data_start := data_off_ header_ in
  let data_end := u32 (data_start + data_size_ header_) in
  if (offset <? data_start) || (data_end <? offset) then Done None
  else
    v ←? CheckIntraSectionIterate (Z.to_nat count) offset type v;
    if data_end <? v_ptr v then Done None else Done (Some v).

Definition ID_TYPES : list Z :=
  [kDexTypeStringIdItem; kDexTypeTypeIdItem; kDexTypeProtoIdItem; kDexTypeFieldIdItem; kDexTypeMethodIdItem;
   kDexTypeClassDefItem].
Definition DATA_TYPES : list Z :=
  [kDexTypeTypeList; kDexTypeAnnotationSetRefList; kDexTypeAnnotationSetItem; kDexTypeClassDataItem; kDexTypeCodeItem;
   kDexTypeStringDataItem; kDexTypeDebugInfoItem; kDexTypeAnnotationItem; kDexTypeEncodedArrayItem;
   kDexTypeAnnotationsDirectoryItem].

(** One section of the map: the object and the offset behind it. *)
Definition check_intra_section (item : MapItem) (offset : Z) (v : Verifier) : cres (option (Verifier * Z)) :=
  let section_offset := map_offset_ item in
  let section_count := map_size_ item in
  let type := map_type_ item in
  ptr ←? CheckPadding offset section_offset (v_ptr v);
  let v := set_ptr v ptr in
  if section_offset <? offset then Done None
  else if type =? kDexTypeHeaderItem then
    if negb (section_count =? 1) || negb (section_offset =? 0) then Done None
    else Done (Some (set_ptr v (header_size_ header_), header_size_ header_))
  else if bool_decide (type ∈ ID_TYPES) then
    v ←? CheckIntraIdSection section_offset section_count type v; Done (Some (v, v_ptr v))
  else if type =? kDexTypeMapList then
    if negb (section_count =? 1) || negb (section_offset =? map_off_ header_) then Done None
    else
      count ← map_count;
      let size := 4 + count * MAP_ITEM_SIZE in
      Done (Some (set_ptr v (v_ptr v + size), section_offset + size))
  else if bool_decide (type ∈ DATA_TYPES) then
    v ←? CheckIntraDataSection section_offset section_count type v; Done (Some (v, v_ptr v))
  else Done None.

Fixpoint check_intra_sections (n : nat) (i offset : Z) (v : Verifier) : cres (option Verifier) :=
  match n with
  | O => Done (Some v)
  | S n =>
      item ← map_item i;
      r ← check_intra_section item offset v;
      match r with
      | None => Done None
      | Some (v, offset) => check_intra_sections n (i + 1) offset v
      end
  end.

Definition CheckIntraSection (v : Verifier) : cres (option Verifier) :=
  count ← map_count; check_intra_sections (Z.to_nat count) 0 0 (set_ptr v 0).

(** ** Between the sections *)

Definition CheckOffsetToTypeMap (offset type : Z) (v : Verifier) : bool :=
  match offset_to_type_map_ v !! offset with Some t => t =? type | None => false end.

(** An item at an offset that may be 0 for none. *)
Definition check_optional (offset type : Z) (v : Verifier) : bool :=
  (offset =? 0) || CheckOffsetToTypeMap offset type v.

Definition FindFirstClassDataDefiner (ptr : Z) : cres (option Z) :=
  it ← ClassData.new_It (Some (bytes_at ptr));
  if ClassData.HasNextStaticField it || ClassData.HasNextInstanceField it then
    field ←? CheckLoadFieldId (ClassData.GetMemberIndex it); Done (Some (field_class_idx_ field))
  else if ClassData.HasNextDirectMethod it || ClassData.HasNextVirtualMethod it then
    method ←? CheckLoadMethodId (ClassData.GetMemberIndex it); Done (Some (method_class_idx_ method))
  else Done (Some Catch.kDexNoIndex16).

(** The index of the first item of a directory, behind its head. *)
Definition first_annotation_idx (ptr : Z) : cres Z := read_le 4 (bytes_at (ptr + ANNOTATIONS_DIRECTORY_SIZE)).

Definition FindFirstAnnotationsDirectoryDefiner (ptr : Z) : cres (option Z) :=
  item ← read_struct ANNOTATIONS_DIRECTORY_SIZE (fun p => p) (bytes_at ptr);
  if negb (u32_at item 4 =? 0) then
    idx ← first_annotation_idx ptr;
    field ←? CheckLoadFieldId idx; Done (Some (field_class_idx_ field))
  else if negb (u32_at item 8 =? 0) || negb (u32_at item 12 =? 0) then
    idx ← first_annotation_idx ptr;
    method ←? CheckLoadMethodId idx; Done (Some (method_class_idx_ method))
  else Done (Some Catch.kDexNoIndex16).

Definition CheckInterStringIdItem (v : Verifier) : cres (option Verifier) :=
  item ← read_struct STRING_ID_SIZE parse_StringId (bytes_at (v_ptr v));
  if negb (CheckOffsetToTypeMap item kDexTypeStringDataItem v) then Done None
  else
    ok ← (match previous_item_ v with
          | None => Done true
          | Some prev =>
              prev_item ← read_struct STRING_ID_SIZE parse_StringId (bytes_at prev);
              prev_str ← GetStringData dex_file_ prev_item;
              str ← GetStringData dex_file_ item;
              compare ← CompareModifiedUtf8ToModifiedUtf8AsUtf16CodePointValues char_signed prev_str str;
              Done (negb (0 <=? compare))
          end);
    Done (if ok : bool then Some (set_ptr v (v_ptr v + STRING_ID_SIZE)) else None).

Definition CheckInterTypeIdItem (v : Verifier) : cres (option Verifier) :=
  item ← read_struct TYPE_ID_SIZE parse_TypeId (bytes_at (v_ptr v));
  descriptor ←? CheckLoadStringByIdx item;
  valid ← IsValidDescriptor descriptor;
  if negb (valid : bool) then Done None
  else
    ok ← (match previous_item_ v with
          | None => Done true
          | Some prev =>
              prev_item ← read_struct TYPE_ID_SIZE parse_TypeId (bytes_at prev);
              Done (negb (item <=? prev_item))
          end);
    Done (if ok : bool then Some (set_ptr v (v_ptr v + TYPE_ID_SIZE)) else None).

(** The type list of a prototype for DexFileParameterIterator, and its size. *)
Definition proto_list (proto : ProtoId) : cres (list Z * Z) :=
  match GetProtoParameters dex_file_ proto with
  | None => Done ([], 0)
  | Some l => size ← TypeList_Size l; Done (l, size)
  end.

(** The parameters from [pos] on against the shorty. *)
Fixpoint check_shorty (type_list : list Z) (size pos : Z) (shorty : list Z) : cres bool :=
  match shorty with
  | [] => Fault OutOfBounds
  | c :: shorty =>
      if (pos <? size) && negb (c =? 0) then
        type_idx ← GetTypeItem type_list pos;
        if negb (CheckIndex type_idx (type_ids_size_ header_)) then Done false
        else
          descriptor ← StringByTypeIdx dex_file_ type_idx;
          match descriptor with
          | None => Fault NullDeref
          | Some descriptor =>
              ok ← CheckShortyDescriptorMatch c descriptor false;
              if negb (ok : bool) then Done false else check_shorty type_list size (pos + 1) shorty
          end
      else Done (negb ((pos <? size) || negb (c =? 0)))
  end.

(** The parameters of two prototypes from [pos] on: the loop ends at the first
    that differ, or where one of the lists ends. *)
Fixpoint check_param_order (fuel : nat) (prev curr : list Z) (prev_size curr_size pos : Z) : cres bool :=
  if (pos <? curr_size) && (pos <? prev_size) then
    match fuel with
    | O => Fault OutOfFuel
    | S fuel =>
        prev_idx ← GetTypeItem prev pos;
        curr_idx ← GetTypeItem curr pos;
        if prev_idx =? Catch.kDexNoIndex16 then Done true
        else if curr_idx =? Catch.kDexNoIndex16 then Done false
        else if prev_idx <? curr_idx then Done true
        else if curr_idx <? prev_idx then Done false
        else check_param_order fuel prev curr prev_size curr_size (pos + 1)
    end
  else Done true.

Definition check_proto_order (prev item : ProtoId) : cres bool :=
  if return_type_idx_ item <? return_type_idx_ prev then Done false
  else if return_type_idx_ prev =? return_type_idx_ item then
    '(curr, curr_size) ← proto_list item;
    '(prev, prev_size) ← proto_list prev;
    check_param_order (Z.to_nat curr_size) prev curr prev_size curr_size 0
  else Done true.

Definition CheckInterProtoIdItem (v : Verifier) : cres (option Verifier) :=
  item ← read_struct PROTO_ID_SIZE parse_ProtoId (bytes_at (v_ptr v));
  shorty ←? CheckLoadStringByIdx (shorty_idx_ item);
  if negb (check_optional (parameters_off_ item) kDexTypeTypeList v) then Done None
  else
    return_type ←? CheckLoadStringByTypeIdx (return_type_idx_ item);
    '(c, shorty) ← next_byte shorty;
    ok ← CheckShortyDescriptorMatch c return_type true;
    if negb (ok : bool) then Done None
    else
      '(type_list, size) ← proto_list item;
      ok ← check_shorty type_list size 0 shorty;
      if negb (ok : bool) then Done None
      else
        ok ← (match previous_item_ v with
              | None => Done true
              | Some prev => prev ← read_struct PROTO_ID_SIZE parse_ProtoId (bytes_at prev); check_proto_order prev item
              end);
        Done (if ok : bool then Some (set_ptr v (v_ptr v + PROTO_ID_SIZE)) else None).

(** A valid descriptor that starts with one of [heads]. *)
Definition valid_reference (heads : list Z) (descriptor : list Z) : cres bool :=
  valid ← IsValidDescriptor descriptor;
  if negb (valid : bool) then Done false else '(c, _) ← next_byte descriptor; Done (bool_decide (c ∈ heads)).

(** Keys of three indices in their order. *)
Definition ascending_key (a b c a' b' c' : Z) : bool :=
  if a' <? a then false
  else if a =? a' then if b' <? b then false else if b =? b' then negb (c' <=? c) else true
  else true.

Definition CheckInterFieldIdItem (v : Verifier) : cres (option Verifier) :=
  item ← read_struct FIELD_ID_SIZE parse_FieldId (bytes_at (v_ptr v));
  class_descriptor ←? CheckLoadStringByTypeIdx (field_class_idx_ item);
  ok ← valid_reference [chr "L"] class_descriptor;
  if negb (ok : bool) then Done None
  else
    type_descriptor ←? CheckLoadStringByTypeIdx (field_type_idx_ item);
    valid ← IsValidDescriptor type_descriptor;
    if negb (valid : bool) then Done None
    else
      '(c, _) ← next_byte type_descriptor;
      if c =? chr "V" then Done None
      else
        name ←? CheckLoadStringByIdx (field_name_idx_ item);
        valid ← IsValidMemberName name;
        if negb (valid : bool) then Done None
        else
          ok ← (match previous_item_ v with
                | None => Done true
                | Some prev =>
                    p ← read_struct FIELD_ID_SIZE parse_FieldId (bytes_at prev);
                    Done (ascending_key (field_class_idx_ p) (field_name_idx_ p) (field_type_idx_ p)
                            (field_class_idx_ item) (field_name_idx_ item) (field_type_idx_ item))
                end);
          Done (if ok : bool then Some (set_ptr v (v_ptr v + FIELD_ID_SIZE)) else None).

Definition CheckInterMethodIdItem (v : Verifier) : cres (option Verifier) :=
  item ← read_struct METHOD_ID_SIZE parse_MethodId (bytes_at (v_ptr v));
  class_descriptor ←? CheckLoadStringByTypeIdx (method_class_idx_ item);
  ok ← valid_reference [chr "L"; chr "["] class_descriptor;
  if negb (ok : bool) then Done None
  else
    name ←? CheckLoadStringByIdx (method_name_idx_ item);
    valid ← IsValidMemberName name;
    if negb (valid : bool) then Done None
    else if negb (CheckIndex (method_proto_idx_ item) (proto_ids_size_ header_)) then Done None
    else
      ok ← (match previous_item_ v with
            | None => Done true
            | Some prev =>
                p ← read_struct METHOD_ID_SIZE parse_MethodId (bytes_at prev);
                Done (ascending_key (method_class_idx_ p) (method_name_idx_ p) (method_proto_idx_ p)
                        (method_class_idx_ item) (method_name_idx_ item) (method_proto_idx_ item))
            end);
      Done (if ok : bool then Some (set_ptr v (v_ptr v + METHOD_ID_SIZE)) else None).

Definition GetInterfacesList (class_def : ClassDef) : option (list Z) :=
  if interfaces_off_ class_def =? 0 then None else Some (bytes_at (interfaces_off_ class_def)).

(** Interfaces [i] to [i + n] refer to classes. *)
Fixpoint check_interfaces (n : nat) (interfaces : list Z) (i : Z) : cres bool :=
  match n with
  | O => Done true
  | S n =>
      type_idx ← GetTypeItem interfaces i;
      descriptor ← CheckLoadStringByTypeIdx type_idx;
      match descriptor with
      | None => Done false
      | Some descriptor =>
          ok ← valid_reference [chr "L"] descriptor;
          if negb (ok : bool) then Done false else check_interfaces n interfaces (i + 1)
      end
  end.

(** Whether one of the interfaces [j] to [j + n] is [idx1]. *)
Fixpoint find_interface (n : nat) (interfaces : list Z) (idx1 j : Z) : cres bool :=
  match n with
  | O => Done false
  | S n =>
      idx2 ← GetTypeItem interfaces j;
      if idx1 =? idx2 then Done true else find_interface n interfaces idx1 (j + 1)
  end.

(** No interface from [i] on is one before it. *)
Fixpoint check_duplicates (n : nat) (interfaces : list Z) (i : Z) : cres bool :=
  match n with
  | O => Done true
  | S n =>
      idx1 ← GetTypeItem interfaces i;
      found ← find_interface (Z.to_nat i) interfaces idx1 0;
      if found : bool then Done false else check_duplicates n interfaces (i + 1)
  end.

(** The definer is the class itself, or there is none. *)
Definition check_definer (offset : Z) (find : Z -> cres (option Z)) (class_idx : Z) : cres bool :=
  if offset =? 0 then Done true
  else
    definer ← find offset;
    match definer with
    | None => Done false
    | Some definer => Done ((definer =? class_idx) || (definer =? Catch.kDexNoIndex16))
    end.

Definition CheckInterClassDefItem (v : Verifier) : cres (option Verifier) :=
  item ← read_struct CLASS_DEF_SIZE parse_ClassDef (bytes_at (v_ptr v));
  if bool_decide (class_idx_ item ∈ defined_classes_ v) then Done None
  else
    let v := mkVerifier (v_ptr v) (previous_item_ v) (offset_to_type_map_ v) ({[class_idx_ item]} ∪ defined_classes_ v) in
    class_descriptor ←? CheckLoadStringByTypeIdx (class_idx_ item);
    ok ← valid_reference [chr "L"] class_descriptor;
    if negb (ok : bool) then Done None
    else if negb (Z.land (access_flags_ item) (Z.lnot kAccJavaFlagsMask) =? 0) then Done None
    else if negb (check_optional (interfaces_off_ item) kDexTypeTypeList v) then Done None
    else if negb (check_optional (annotations_off_ item) kDexTypeAnnotationsDirectoryItem v) then Done None
    else if negb (check_optional (class_data_off_ item) kDexTypeClassDataItem v) then Done None
    else if negb (check_optional (static_values_off_ item) kDexTypeEncodedArrayItem v) then Done None
    else
      ok ← (if superclass_idx_ item =? Catch.kDexNoIndex16 then Done true
            else descriptor ← CheckLoadStringByTypeIdx (superclass_idx_ item);
                 match descriptor with None => Done false | Some descriptor => valid_reference [chr "L"] descriptor end);
      if negb (ok : bool) then Done None
      else
        ok ← (match GetInterfacesList item with
              | None => Done true
              | Some interfaces =>
                  size ← TypeList_Size interfaces;
                  ok ← check_interfaces (Z.to_nat size) interfaces 0;
                  if negb (ok : bool) then Done false else check_duplicates (Z.to_nat size - 1) interfaces 1
              end);
        if negb (ok : bool) then Done None
        else
          ok ← check_definer (class_data_off_ item) FindFirstClassDataDefiner (class_idx_ item);
          if negb (ok : bool) then Done None
          else
            ok ← check_definer (annotations_off_ item) FindFirstAnnotationsDirectoryDefiner (class_idx_ item);
            if negb (ok : bool) then Done None else Done (Some (set_ptr v (v_ptr v + CLASS_DEF_SIZE))).

(** The items of a list of offsets from [ptr] on. *)
Fixpoint check_set_refs (n : nat) (ptr : Z) (v : Verifier) : cres (option Z) :=
  match n with
  | O => Done (Some ptr)
  | S n =>
      annotations_off ← read_le 4 (bytes_at ptr);
      if negb (check_optional annotations_off kDexTypeAnnotationSetItem v) then Done None
      else check_set_refs n (ptr + 4) v
  end.

Definition CheckInterAnnotationSetRefList (v : Verifier) : cres (option Verifier) :=
  count ← read_le 4 (bytes_at (v_ptr v));
  ptr ←? check_set_refs (Z.to_nat count) (v_ptr v + 4) v;
  Done (Some (set_ptr v ptr)).

(** The annotations of a set, whose types ascend. *)
Fixpoint check_set (n : nat) (i last_idx ptr : Z) (v : Verifier) : cres (option Z) :=
  match n with
  | O => Done (Some ptr)
  | S n =>
      offset ← read_le 4 (bytes_at ptr);
      if negb (check_optional offset kDexTypeAnnotationItem v) then Done None
      else
        '(idx, _) ← DecodeUnsignedLeb128 (bytes_at (offset + 1));
        if (idx <=? last_idx) && negb (i =? 0) then Done None else check_set n (i + 1) idx (ptr + 4) v
  end.

Definition CheckInterAnnotationSetItem (v : Verifier) : cres (option Verifier) :=
  count ← read_le 4 (bytes_at (v_ptr v));
  ptr ←? check_set (Z.to_nat count) 0 0 (v_ptr v + 4) v;
  Done (Some (set_ptr v ptr)).

Definition check_inter_field (defining_class : Z) (it : ClassData.It) : cres bool :=
  field ← CheckLoadFieldId (ClassData.GetMemberIndex it);
  match field with None => Done false | Some field => Done (field_class_idx_ field =? defining_class) end.
Definition check_inter_method (defining_class : Z) (v : Verifier) (it : ClassData.It) : cres bool :=
  if negb (check_optional (ClassData.GetMethodCodeItemOffset it) kDexTypeCodeItem v) then Done false
  else
    method ← CheckLoadMethodId (ClassData.GetMemberIndex it);
    match method with None => Done false | Some method => Done (method_class_idx_ method =? defining_class) end.

Definition CheckInterClassDataItem (v : Verifier) : cres (option Verifier) :=
  let fuel := S (length begin_) in
  it ← ClassData.new_It (Some (bytes_at (v_ptr v)));
  defining_class ←? FindFirstClassDataDefiner (v_ptr v);
  it ←? check_members fuel (fun it => ClassData.HasNextStaticField it || ClassData.HasNextInstanceField it)
          (check_inter_field defining_class) it;
  it ←? check_members fuel (fun it => ClassData.HasNextDirectMethod it || ClassData.HasNextVirtualMethod it)
          (check_inter_method defining_class v) it;
  rest ← ClassData.EndDataPointer it;
  Done (Some (set_ptr v (offset_of rest))).

(** The annotations of [n] members of the defining class; [class_of] gives the
    class of a member by its index. *)
Fixpoint check_directory (class_of : Z -> cres (option Z)) (defining_class type : Z) (n : nat) (ptr : Z) (v : Verifier)
    : cres (option Z) :=
  match n with
  | O => Done (Some ptr)
  | S n =>
      item ← read_struct ANNOTATIONS_ITEM_SIZE (fun p => p) (bytes_at ptr);
      class_idx ←? class_of (u32_at item 0);
      if negb (class_idx =? defining_class) then Done None
      else if negb (CheckOffsetToTypeMap (u32_at item 4) type v) then Done None
      else check_directory class_of defining_class type n (ptr + ANNOTATIONS_ITEM_SIZE) v
  end.
Definition class_of_field (idx : Z) : cres (option Z) := f ←? CheckLoadFieldId idx; Done (Some (field_class_idx_ f)).
Definition class_of_method (idx : Z) : cres (option Z) := m ←? CheckLoadMethodId idx; Done (Some (method_class_idx_ m)).

Definition CheckInterAnnotationsDirectoryItem (v : Verifier) : cres (option Verifier) :=
  let ptr := v_ptr v in
  defining_class ←? FindFirstAnnotationsDirectoryDefiner ptr;
  item ← read_struct ANNOTATIONS_DIRECTORY_SIZE (fun p => p) (bytes_at ptr);
  if negb (check_optional (u32_at item 0) kDexTypeAnnotationSetItem v) then Done None
  else
    p ←? check_directory class_of_field defining_class kDexTypeAnnotationSetItem (Z.to_nat (u32_at item 4))
           (ptr + ANNOTATIONS_DIRECTORY_SIZE) v;
    p ←? check_directory class_of_method defining_class kDexTypeAnnotationSetItem (Z.to_nat (u32_at item 8)) p v;
    p ←? check_directory class_of_method defining_class kDexTypeAnnotationSetRefList (Z.to_nat (u32_at item 12)) p v;
    Done (Some (set_ptr v p)).

(** The switch of [CheckInterSectionIterate]. *)
Definition check_inter_item (type : Z) (v : Verifier) : cres (option Verifier) :=
  if type =? kDexTypeStringIdItem then CheckInterStringIdItem v
  else if type =? kDexTypeTypeIdItem then CheckInterTypeIdItem v
  else if type =? kDexTypeProtoIdItem then CheckInterProtoIdItem v
  else if type =? kDexTypeFieldIdItem then CheckInterFieldIdItem v
  else if type =? kDexTypeMethodIdItem then CheckInterMethodIdItem v
  else if type =? kDexTypeClassDefItem then CheckInterClassDefItem v
  else if type =? kDexTypeAnnotationSetRefList then CheckInterAnnotationSetRefList v
  else if type =? kDexTypeAnnotationSetItem then CheckInterAnnotationSetItem v
  else if type =? kDexTypeClassDataItem then CheckInterClassDataItem v
  else if type =? kDexTypeAnnotationsDirectoryItem then CheckInterAnnotationsDirectoryItem v
  else Done None.

(** The loop of [CheckInterSectionIterate]. *)
Fixpoint check_inter_items (count : nat) (offset type : Z) (v : Verifier) : cres (option Verifier) :=
  match count with
  | O => Done (Some v)
  | S count =>
      let prev_ptr := align (alignment_mask [kDexTypeClassDataItem] type) offset in
      v ←? check_inter_item type (set_ptr v prev_ptr);
      check_inter_items count (v_ptr v) type
        (mkVerifier (v_ptr v) (Some prev_ptr) (offset_to_type_map_ v) (defined_classes_ v))
  end.
Definition CheckInterSectionIterate (offset count type : Z) (v : Verifier) : cres (option Verifier) :=
  check_inter_items (Z.to_nat count) offset type (mkVerifier (v_ptr v) None (offset_to_type_map_ v) (defined_classes_ v)).

(** Sections that are checked again, and those that are not. *)
Definition INTER_TYPES : list Z :=
  [kDexTypeStringIdItem; kDexTypeTypeIdItem; kDexTypeProtoIdItem; kDexTypeFieldIdItem; kDexTypeMethodIdItem;
   kDexTypeClassDefItem; kDexTypeAnnotationSetRefList; kDexTypeAnnotationSetItem; kDexTypeClassDataItem;
   kDexTypeAnnotationsDirectoryItem].
Definition INTRA_ONLY_TYPES : list Z :=
  [kDexTypeHeaderItem; kDexTypeMapList; kDexTypeTypeList; kDexTypeCodeItem; kDexTypeStringDataItem; kDexTypeDebugInfoItem;
   kDexTypeAnnotationItem; kDexTypeEncodedArrayItem].

Fixpoint check_inter_sections (n : nat) (i : Z) (v : Verifier) : cres (option Verifier) :=
  match n with
  | O => Done (Some v)
  | S n =>
      item ← map_item i;
      let type := map_type_ item in
      if bool_decide (type ∈ INTRA_ONLY_TYPES) then check_inter_sections n (i + 1) v
      else if bool_decide (type ∈ INTER_TYPES) then
        v ←? CheckInterSectionIterate (map_offset_ item) (map_size_ item) type v;
        check_inter_sections n (i + 1) v
      else Done None
  end.

Definition CheckInterSection (v : Verifier) : cres (option Verifier) :=
  count ← map_count; check_inter_sections (Z.to_nat count) 0 v.

(** ** The verifier *)

Definition new_Verifier : Verifier := mkVerifier 0 None ∅ ∅.

Definition Verify : cres bool :=
  if negb CheckHeader then Done false
  else
    ok ← CheckMap;
    if negb (ok : bool) then Done false
    else
      v ← CheckIntraSection new_Verifier;
      match v with
      | None => Done false
      | Some v => v ← CheckInterSection v; Done (match v with Some _ => true | None => false end)
      end.
End Verifier.

(** The static [DexFileVerifier::Verify] on the bytes of a file. *)
Definition VerifyFile (adler32 : Z -> option (list Z) -> Z) (char_signed : bool) (begin : list Z) : cres bool :=
  h ← read_Header begin; Verify begin adler32 char_signed h (make_DexFile begin h).
