(* ===== verification/DexVerifierTotal.v ===== *)
(** * DexVerifierTotal: the verifier returns, for any bytes

    Every check moves its pointer forward, and no loop runs out of fuel.  The
    lemmas are postconditions: one for each function, which the automation
    composes along the calls. *)

From S2P Require Import Prelude CLib Leb128 Utf HashSet Dex Names DexItems DexCatch DexValues DexDebug DexVerify DexFormat DexVerifier.

Lemma post_uleb p : post (DecodeUnsignedLeb128 p) (fun r => in_u 32 r.1 /\ (length r.2 < length p)%nat).
Proof.
  unfold DecodeUnsignedLeb128. assert (forall x, in_u 32 (u32 x)) by (intros x; apply uwrap_range; lia).
  post_all; (split; [done|lia]).
Qed.
Lemma post_sleb p : post (DecodeSignedLeb128 p) (fun r => (length r.2 < length p)%nat).
Proof. unfold DecodeSignedLeb128. post_all. Qed.
Lemma post_read_le n p : post (read_le n p) (fun v => v = of_le (take n p) /\ (n <= length p)%nat).
Proof. unfold read_le. destruct (Nat.leb_spec n (length p)); cbn; [by split|done]. Qed.
Lemma post_entry {A} (t : list A) i : post (entry t i) (fun a => t !! Z.to_nat i = Some a).
Proof. apply post_deref. Qed.
Lemma post_read_struct {A} size (parse : list Z -> A) p : post (read_struct size parse p) (fun a => a = parse p).
Proof. unfold read_struct. post_all. Qed.
#[export] Hint Resolve post_uleb post_sleb post_read_le post_entry post_read_struct : post.

(** ** The checks of [DexVerify] *)

(** What is left is not longer than what there was. *)
Abbreviation shorter p := (opost (fun r : list Z => (length r <= length p)%nat)).

Lemma post_check_char p : post (check_char p) (opost (fun r => (length r < length p)%nat)).
Proof. unfold check_char. post_all; by case_match; cbn; lia. Qed.
#[export] Hint Resolve post_check_char : post.

Lemma post_check_chars n : forall p, post (check_chars n p) (shorter p).
Proof.
  induction n as [|n IH]; intros p; cbn [check_chars]; [cbn; lia|]. destruct p as [|b p]; [done|]. post_all.
  eapply post_mono; [apply IH|]. intros [r|]; cbn in *; lia.
Qed.
#[export] Hint Resolve post_check_chars : post.

Lemma post_string_data p : post (CheckIntraStringDataItem p) (shorter p).
Proof. unfold CheckIntraStringDataItem. post_all. case_match; cbn in *; lia. Qed.

Lemma post_check_typed t i n : forall p, post (check_typed t i n p) (shorter p).
Proof.
  induction n as [|n IH]; intros p; cbn [check_typed]; [cbn; lia|]. post_all.
  eapply post_mono; [apply IH|]. intros [r|]; cbn in *; lia.
Qed.
#[export] Hint Resolve post_check_typed : post.
Lemma post_check_handler t i p : post (check_handler t i p) (shorter p).
Proof. unfold check_handler. post_all. case_match; cbn in *; lia. Qed.
#[export] Hint Resolve post_check_handler : post.
Lemma post_handler_offsets t i b n : forall p,
  post (CheckAndGetHandlerOffsets t i b n p) (opost (fun r : list Z * list Z => (length r.2 <= length p)%nat)).
Proof.
  induction n as [|n IH]; intros p; cbn [CheckAndGetHandlerOffsets]; [cbn; lia|].
  post_all. destruct a0 as [[offsets r]|]; cbn in *; lia.
Qed.
Lemma post_read_TryItem p : post (Catch.read_TryItem p) (fun _ => True).
Proof. unfold Catch.read_TryItem. post_all. Qed.
#[export] Hint Resolve post_handler_offsets post_read_TryItem : post.
Lemma post_check_tries ci hs n : forall i l, post (check_tries ci hs n i l) (fun _ => True).
Proof. induction n as [|n IH]; intros i l; cbn [check_tries]; [done|]. post_all; apply IH. Qed.
Lemma post_code_item_at p : post (code_item_at p) (fun ci => Catch.insns_ ci = drop INSNS_OFFSET p).
Proof. unfold code_item_at. post_all. Qed.
#[export] Hint Resolve post_check_tries post_code_item_at : post.

Lemma post_code_item t p : post (CheckIntraCodeItem t p) (shorter p).
Proof.
  unfold CheckIntraCodeItem. destruct (negb (CheckListSize p 1 CODE_ITEM_SIZE)); [done|].
  do 3 post_step. eapply post_bind; [apply post_code_item_at|]. intros ci Hci. cbn beta.
  assert (length (Catch.insns_ ci) <= length p)%nat as Hl by (rewrite Hci, length_drop; lia).
  repeat match goal with |- post (if ?b then _ else _) _ => destruct b; [try done|try done] end.
  - cbn. rewrite length_drop. lia.
  - eapply (post_bind _ _ (fun _ => True)); [case_match; [done|]; by eapply post_any, post_read_le|]. intros padding _.
    assert (length (Catch.GetCatchHandlerData ci 0) <= length (Catch.insns_ ci))%nat as Hd.
    { unfold Catch.GetCatchHandlerData, Catch.GetTryItems. rewrite !length_drop. lia. }
    post_all. case_match; cbn in *; lia.
Qed.
#[export] Hint Resolve post_string_data post_code_item : post.

Lemma post_check_index_p1 n p : post (check_index_p1 n p) (shorter p).
Proof. unfold check_index_p1. post_all. all: repeat case_match; cbn in *; lia. Qed.
Lemma post_check_reg p : post (check_reg p) (shorter p).
Proof. unfold check_reg. post_all. case_match; cbn in *; lia. Qed.
#[export] Hint Resolve post_check_index_p1 post_check_reg : post.

Lemma post_check_all cs : (forall c, c ∈ cs -> forall p, post (c p) (shorter p)) -> forall p, post (check_all cs p) (shorter p).
Proof.
  induction cs as [|c cs IH]; intros Hc p; cbn [check_all]; [cbn; lia|].
  eapply post_bind; [apply Hc; left|]. intros [r|] Hr; [|done]. eapply post_mono; [apply IH; intros; apply Hc; by right|].
  intros [q|]; cbn in *; lia.
Qed.

Lemma post_check_operands n o p : post (check_operands n o p) (shorter p).
Proof.
  unfold check_operands. repeat case_match; try solve [auto with post|post_all; cbn; lia].
  all: apply post_check_all; intros c Hc q; rewrite !elem_of_cons, elem_of_nil in Hc;
    repeat destruct Hc as [->|Hc]; try done; auto with post.
Qed.
#[export] Hint Resolve post_check_operands : post.

Lemma post_check_ops n fuel : forall p, (length p < fuel)%nat -> post (check_ops n fuel p) (shorter p).
Proof.
  induction fuel as [|fuel IH]; intros p Hf; [lia|]. cbn [check_ops]. post_all.
  eapply post_mono; [apply IH; lia|]. intros [r|]; cbn in *; lia.
Qed.
#[export] Hint Resolve post_check_ops : post.

Lemma post_debug_info n p : post (CheckIntraDebugInfoItem n p) (shorter p).
Proof.
  unfold CheckIntraDebugInfoItem. do 4 post_step. post_step; [done|].
  eapply post_bind; [apply post_check_all; intros c Hc; apply elem_of_replicate in Hc as [-> _]; auto with post|].
  intros [r|] Hr; [|done]. eapply post_mono; [apply post_check_ops; lia|]. intros [q|]; cbn in *; lia.
Qed.
#[export] Hint Resolve post_debug_info : post.

(** ** Class data *)

Module Members.
Import ClassData.

(** The iterator has moved forward; at a member it has read that member. *)
Definition moved (p : list Z) (it : It) : Prop :=
  (length (ptr_pos_ it) <= length p)%nat /\
  (HasNextStaticField it || HasNextInstanceField it || HasNextDirectMethod it || HasNextVirtualMethod it = true ->
   (length (ptr_pos_ it) < length p)%nat).

Lemma post_read_field it : post (ReadClassDataField it) (fun r => length (ptr_pos_ r) < length (ptr_pos_ it))%nat.
Proof. unfold ReadClassDataField. post_all. cbn in *; lia. Qed.
Lemma post_read_method it : post (ReadClassDataMethod it) (fun r => length (ptr_pos_ r) < length (ptr_pos_ it))%nat.
Proof. unfold ReadClassDataMethod. post_all. cbn in *; lia. Qed.

Lemma post_next it : post (Next it) (moved (ptr_pos_ it)).
Proof.
  unfold Next. set (it' := set_pos it _). change (ptr_pos_ it) with (ptr_pos_ it').
  assert (forall i r, (length (ptr_pos_ r) < length (ptr_pos_ (set_last_idx it' i)))%nat -> moved (ptr_pos_ it') r) as Hm
    by (intros i r Hr; split; cbn in *; lia).
  repeat match goal with |- post (if ?b then _ else _) _ =>
    destruct b eqn:?; [eapply post_mono; [first [apply post_read_field|apply post_read_method]|apply Hm]|] end.
  split; [done|]. unfold HasNextStaticField, HasNextInstanceField, HasNextDirectMethod, HasNextVirtualMethod.
  repeat match goal with H : (_ <? _) = false |- _ => rewrite H; clear H end. by rewrite !andb_false_r.
Qed.

Lemma post_class_data_header p : post (ReadClassDataHeader p) (fun r => length r.2 < length p)%nat.
Proof. unfold ReadClassDataHeader. post_all. Qed.
Lemma post_new_It p : post (new_It (Some p)) (fun it => length (ptr_pos_ it) < length p)%nat.
Proof.
  cbn [new_It]. eapply post_bind; [apply post_class_data_header|]. intros [h q] Hq; cbn [fst snd] in *.
  repeat case_match; [eapply post_mono; [apply post_read_field|]|eapply post_mono; [apply post_read_method|]|];
    cbn; intros; lia.
Qed.

Lemma post_check_members fuel has_next check :
  (forall it, has_next it = true ->
     HasNextStaticField it || HasNextInstanceField it || HasNextDirectMethod it || HasNextVirtualMethod it = true) ->
  (forall it, post (check it) (fun _ => True)) ->
  forall it, (length (ptr_pos_ it) < fuel)%nat ->
    post (check_members fuel has_next check it) (opost (fun r => length (ptr_pos_ r) <= length (ptr_pos_ it))%nat).
Proof.
  intros Hn Hc it Hf. assert (has_next it = true -> (length (ptr_pos_ it) < fuel)%nat) as Hf' by done. clear Hf.
  revert it Hf'. induction fuel as [|fuel IH]; intros it Hf; cbn [check_members];
    (destruct (has_next it) eqn:Hh; [|cbn; lia]); specialize (Hf eq_refl); [lia|].
  eapply post_bind; [apply Hc|]. intros [] _; cbn [negb]; [|done].
  eapply post_bind; [apply post_next|]. intros it' [Hl Hm]. eapply post_mono; [apply IH|].
  - intros Hh'%Hn%Hm. lia.
  - intros [r|]; cbn; lia.
Qed.
End Members.

(** ** Names and strings *)

Lemma post_utf16 p : post (GetUtf16FromUtf8 p) (fun r => length r.2 < length p)%nat.
Proof. unfold GetUtf16FromUtf8. post_all. Qed.
#[export] Hint Resolve post_utf16 : post.
Lemma post_name_part_slow p : post (IsValidPartOfMemberNameUtf8Slow p) (fun r => length r.2 < length p)%nat.
Proof. unfold IsValidPartOfMemberNameUtf8Slow. post_all. Qed.
#[export] Hint Resolve post_name_part_slow : post.
Lemma post_name_part p : post (IsValidPartOfMemberNameUtf8 p) (fun r => length r.2 < length p)%nat.
Proof. unfold IsValidPartOfMemberNameUtf8. post_all. auto with post. Qed.
#[export] Hint Resolve post_name_part : post.

Lemma post_member_name_loop fuel : forall angle s, (length s < fuel)%nat -> post (member_name_loop fuel angle s) (fun _ => True).
Proof. induction fuel as [|fuel IH]; intros angle s Hf; [lia|]. cbn [member_name_loop]. post_all. apply IH. lia. Qed.
Lemma post_member_name s : post (IsValidMemberName s) (fun _ => True).
Proof. unfold IsValidMemberName. post_all; apply post_member_name_loop; lia. Qed.
Lemma post_class_name_loop type sep fuel : forall first s, (length s < fuel)%nat ->
  post (class_name_loop fuel type sep first s) (fun _ => True).
Proof. induction fuel as [|fuel IH]; intros first s Hf; [lia|]. cbn [class_name_loop]. post_all; apply IH; lia. Qed.
Lemma post_skip_brackets s : post (skip_brackets s) (fun _ => True).
Proof. induction s as [|c s IH]; [done|]. cbn [skip_brackets]. case_match; [|done]. eapply post_bind; [apply IH|]. by intros []. Qed.
#[export] Hint Resolve post_skip_brackets : post.
Lemma post_descriptor s : post (IsValidDescriptor s) (fun _ => True).
Proof. unfold IsValidDescriptor, IsValidClassName, element_check. post_all; apply post_class_name_loop; lia. Qed.
#[export] Hint Resolve post_member_name post_descriptor : post.
Lemma post_valid_reference heads s : post (valid_reference heads s) (fun _ => True).
Proof. unfold valid_reference. post_all. Qed.
Lemma post_shorty_match c s ret : post (CheckShortyDescriptorMatch c s ret) (fun _ => True).
Proof. unfold CheckShortyDescriptorMatch. post_all. Qed.

Lemma post_wide sg c p : post (wide sg c p) (fun r => length r.2 < length p)%nat.
Proof. unfold wide. post_all. Qed.
#[export] Hint Resolve post_valid_reference post_shorty_match post_wide : post.
Lemma post_compare sg fuel : forall s t, (length s < fuel)%nat -> post (compare_loop sg fuel s t) (fun _ => True).
Proof.
  induction fuel as [|fuel IH]; intros s t Hf; [lia|]. cbn [compare_loop].
  assert (forall c p, post (if Z.land c 128 =? 0 then Done (c, p) else wide sg c p) (fun _ => True)) as Hw
    by (intros; case_match; [done|by eapply post_any, post_wide]).
  post_all; try (apply IH; lia).
Qed.

Lemma post_string_data_length d id : post (GetStringDataAndUtf16Length d id) (fun _ => True).
Proof. unfold GetStringDataAndUtf16Length. post_all. Qed.
#[export] Hint Resolve post_string_data_length : post.
Lemma post_string_data_of d id : post (GetStringData d id) (fun _ => True).
Proof. unfold GetStringData. post_all. Qed.
#[export] Hint Resolve post_string_data_of : post.
Lemma post_string_by_idx d idx : post (StringDataByIdx d idx) (fun _ => True).
Proof. unfold StringDataByIdx. post_all. Qed.
#[export] Hint Resolve post_string_by_idx : post.
Lemma post_string_by_type d idx : post (StringByTypeIdx d idx) (fun _ => True).
Proof. unfold StringByTypeIdx. post_all. auto with post. Qed.
#[export] Hint Resolve post_string_by_type : post.

(** ** Encoded values *)

Section Verifier.
Context (begin_ : list Z) (Hbytes : Forall byte_ok begin_).
Context (adler32 : Z -> option (list Z) -> Z) (char_signed : bool) (header_ : Header) (dex_file_ : DexFile).
Local Abbreviation size_ := (size_ begin_).

Lemma length_bytes_at ptr : (length (bytes_at begin_ ptr) <= length begin_)%nat.
Proof. unfold bytes_at. rewrite length_drop. lia. Qed.

Lemma post_uleb_at ptr : post (uleb_at begin_ ptr) (fun r => in_u 32 r.1 /\ ptr < r.2 <= size_ /\ 0 <= r.2).
Proof.
  unfold uleb_at. eapply post_bind; [apply post_uleb|]. intros [v r] [Hv Hr]. cbn in *. split; [done|].
  unfold offset_of, DexVerifier.size_. unfold bytes_at in Hr. rewrite length_drop in Hr. lia.
Qed.

Lemma post_check_values check n : forall ptr,
  0 <= ptr -> (forall q, ptr <= q -> post (check q) (opost (fun r => q <= r))) ->
  post (check_values check n ptr) (opost (fun r => ptr <= r)).
Proof.
  induction n as [|n IH]; intros ptr Hp Hc; cbn [check_values]; [cbn; lia|].
  eapply post_bind; [apply Hc; lia|]. intros [q|] Hq; [|done]. cbn in Hq.
  eapply post_mono; [apply IH; [lia|intros; apply Hc; lia]|]. intros [r|]; cbn; lia.
Qed.
Lemma post_check_elements check n : forall i last ptr,
  0 <= ptr -> (forall q, ptr <= q -> post (check q) (opost (fun r => q <= r))) ->
  post (check_elements begin_ header_ check n i last ptr) (opost (fun r => ptr <= r)).
Proof.
  induction n as [|n IH]; intros i last ptr Hp Hc; cbn [check_elements]; [cbn; lia|].
  eapply post_bind; [apply post_uleb_at|]. intros [idx p] (_ & Hi & _); cbn in Hi. repeat case_match; try done.
  eapply post_bind; [apply Hc; lia|]. intros [q|] Hq; [|done]. cbn in Hq.
  eapply post_mono; [apply IH; [lia|intros; apply Hc; lia]|]. intros [r|]; cbn; lia.
Qed.
Lemma post_check_array check ptr :
  (forall q, ptr < q -> 0 <= q -> post (check q) (opost (fun r => q <= r))) ->
  post (check_array begin_ check ptr) (opost (fun r => ptr <= r)).
Proof.
  intros Hc. unfold check_array. eapply post_bind; [apply post_uleb_at|]. intros [size p] (_ & Hp & Hp0); cbn in *.
  eapply post_mono; [apply post_check_values; [lia|intros; apply Hc; lia]|]. intros [r|]; cbn; lia.
Qed.
Lemma post_check_annotation check ptr :
  (forall q, ptr < q -> 0 <= q -> post (check q) (opost (fun r => q <= r))) ->
  post (check_annotation begin_ header_ check ptr) (opost (fun r => ptr <= r)).
Proof.
  intros Hc. unfold check_annotation. eapply post_bind; [apply post_uleb_at|]. intros [idx p] (_ & Hp & Hp0); cbn in Hp, Hp0.
  case_match; [done|]. eapply post_bind; [apply post_uleb_at|]. intros [size q] (_ & Hq & Hq0); cbn in *.
  eapply post_mono; [apply post_check_elements; [lia|intros; apply Hc; lia]|]. intros [r|]; cbn; lia.
Qed.

Lemma post_byte_at ptr : post (next_byte (bytes_at begin_ ptr)) (fun r => byte_ok r.1).
Proof.
  pose proof (Forall_drop byte_ok (Z.to_nat ptr) _ Hbytes) as Hd. fold (bytes_at begin_ ptr) in Hd.
  by destruct Hd.
Qed.
Lemma value_index_forward arg limit ptr : 0 <= arg ->
  opost (fun r => ptr <= r) (check_value_index begin_ arg limit ptr).
Proof.
  intros Ha. unfold check_value_index, ReadUnsignedLittleEndian. repeat case_match; cbn; simplify_eq; try done; lia.
Qed.

Lemma post_check_value fuel : forall ptr, size_ < ptr + Z.of_nat fuel -> (0 < fuel)%nat ->
  post (check_value begin_ header_ fuel ptr) (opost (fun r => ptr <= r)).
Proof.
  induction fuel as [|fuel IH]; intros ptr Hf H0; [lia|]. cbn [check_value].
  destruct (check_range begin_ ptr 1 1) eqn:Hr; cbn [negb]; [|done]. apply Z.leb_le in Hr.
  eapply post_bind; [apply post_byte_at|]. intros [b ?] Hb. cbn [fst] in Hb.
  assert (0 <= Z.shiftr b Values.kEncodedValueArgShift) as Ha by (apply Z.shiftr_nonneg; destruct Hb; lia).
  assert (forall q, ptr + 1 < q -> 0 <= q -> post (check_value begin_ header_ fuel q) (opost (fun r => q <= r))) as Hv
    by (intros; apply IH; lia).
  set (arg := Z.shiftr b _) in *. set (type := Z.land b _).
  assert (forall limit, post (Done (check_value_index begin_ arg limit (ptr + 1))) (opost (fun r => ptr <= r))) as Hi.
  { intros limit. pose proof (value_index_forward arg limit (ptr + 1) Ha) as Hx. cbn.
    destruct (check_value_index _ _ _ _); cbn in *; [lia|done]. }
  repeat match goal with
  | |- post (if _ then _ else _) _ => case_match
  | |- post (check_array _ _ _) _ =>
      eapply post_mono; [apply post_check_array, Hv|intros [|]; cbn; lia]
  | |- post (check_annotation _ _ _ _) _ =>
      eapply post_mono; [apply post_check_annotation, Hv|intros [|]; cbn; lia]
  end; try apply Hi; cbn; repeat case_match; cbn; try done; lia.
Qed.

Lemma post_encoded_value ptr : 0 <= ptr -> post (CheckEncodedValue begin_ header_ ptr) (opost (fun r => ptr <= r)).
Proof. intros. apply post_check_value; unfold DexVerifier.size_; lia. Qed.
Lemma post_encoded_array ptr : post (CheckEncodedArray begin_ header_ ptr) (opost (fun r => ptr <= r)).
Proof. apply post_check_array. intros. by apply post_encoded_value. Qed.
Lemma post_encoded_annotation ptr : post (CheckEncodedAnnotation begin_ header_ ptr) (opost (fun r => ptr <= r)).
Proof. apply post_check_annotation. intros. by apply post_encoded_value. Qed.

(** ** Within the sections *)

(** A check in the file moves forward. *)
Abbreviation forward ptr := (opost (fun r => 0 <= ptr <= size_ -> ptr <= r)).

Lemma of_le_nonneg l : Forall byte_ok l -> 0 <= of_le l.
Proof. induction 1 as [|b l Hb _ IH]; cbn [of_le]; [done|]. destruct Hb. lia. Qed.
Lemma bytes_at_ok ptr : Forall byte_ok (bytes_at begin_ ptr).
Proof. by apply Forall_drop. Qed.
Lemma u32_at_nonneg p off : Forall byte_ok p -> 0 <= u32_at p off.
Proof. intros. by apply of_le_nonneg, Forall_take, Forall_drop. Qed.
Lemma offset_of_forward ptr r : (length r <= length (bytes_at begin_ ptr))%nat -> 0 <= ptr <= size_ -> ptr <= offset_of begin_ r.
Proof. unfold bytes_at. rewrite length_drop. unfold offset_of, DexVerifier.size_. lia. Qed.

Lemma post_check_list sz ptr : 0 <= sz -> post (CheckList begin_ sz ptr) (forward ptr).
Proof.
  intros Hs. unfold CheckList. repeat post_step; [done..|]. intros.
  assert (0 <= a) by (destruct H as [-> _]; by apply of_le_nonneg, Forall_take, bytes_at_ok). nia.
Qed.

Lemma post_end_pointer it : post (ClassData.EndDataPointer it) (fun r => r = ClassData.ptr_pos_ it).
Proof. unfold ClassData.EndDataPointer. by case_match. Qed.

Lemma post_intra_class_data ptr : post (CheckIntraClassDataItem begin_ header_ ptr) (forward ptr).
Proof.
  unfold CheckIntraClassDataItem. eapply post_bind; [apply Members.post_new_It|]. intros it Hit.
  cbn beta in Hit. pose proof (length_bytes_at ptr).
  do 4 (eapply post_bind; [apply Members.post_check_members; [intros ? ->; by rewrite ?orb_true_r|done|lia]|];
    intros [?|] ?; [cbn [opost] in *|done]).
  eapply post_bind; [apply post_end_pointer|]. intros r ->. cbn. apply offset_of_forward. lia.
Qed.

Lemma post_intra_annotation ptr : post (CheckIntraAnnotationItem begin_ header_ ptr) (forward ptr).
Proof.
  unfold CheckIntraAnnotationItem. post_all. eapply post_mono; [apply post_encoded_annotation|]. intros [|]; cbn; lia.
Qed.
Lemma post_ascending n : forall i last ptr, post (check_ascending begin_ n i last ptr) (fun _ => True).
Proof. induction n as [|n IH]; intros i last ptr; cbn [check_ascending]; [done|]. post_all. Qed.
Lemma post_annotation_list count ptr : 0 <= count -> post (check_annotation_list begin_ count ptr) (opost (fun r => ptr <= r)).
Proof.
  intros Hc. unfold check_annotation_list. case_match; [done|]. eapply post_bind; [apply post_ascending|].
  intros [] _; cbn; [|done]. unfold ANNOTATIONS_ITEM_SIZE. lia.
Qed.
Lemma post_intra_directory ptr : post (CheckIntraAnnotationsDirectoryItem begin_ ptr) (forward ptr).
Proof.
  unfold CheckIntraAnnotationsDirectoryItem. case_match; [done|].
  assert (forall off, 0 <= u32_at (bytes_at begin_ ptr) off) by (intros; apply u32_at_nonneg, bytes_at_ok).
  do 2 (eapply post_bind; [by apply post_annotation_list|]; intros [?|] ?; [cbn [opost] in *|done]).
  eapply post_mono; [by apply post_annotation_list|]. unfold ANNOTATIONS_DIRECTORY_SIZE in *. intros [|]; cbn; lia.
Qed.
Lemma post_check_at check ptr : (forall p, post (check p) (shorter p)) -> post (check_at begin_ check ptr) (forward ptr).
Proof.
  intros Hc. unfold check_at. eapply post_bind; [apply Hc|]. intros [r|] Hr; [|done]. cbn in *. by apply offset_of_forward.
Qed.
Lemma post_check_id sz ptr : 0 <= sz -> post (check_id begin_ sz ptr) (forward ptr).
Proof. intros. unfold check_id. case_match; cbn; lia. Qed.

Lemma post_intra_item type ptr : post (check_intra_item begin_ header_ type ptr) (forward ptr).
Proof.
  unfold check_intra_item. repeat case_match; try done;
    first [by apply post_check_id | by apply post_check_list | apply post_intra_class_data
          | apply post_check_at; intros; auto with post | apply post_intra_annotation | apply post_intra_directory
          | eapply post_mono; [apply post_encoded_array|]; intros [|]; cbn; lia].
Qed.

Lemma post_zeros n : forall ptr, post (check_zeros begin_ n ptr) (fun _ => True).
Proof. induction n as [|n IH]; intros ptr; cbn [check_zeros]; [done|]. post_all. Qed.
Lemma post_padding off aligned ptr : post (CheckPadding begin_ off aligned ptr) (fun _ => True).
Proof. unfold CheckPadding. repeat case_match; try done. apply post_zeros. Qed.

Lemma post_intra_iterate n : forall off type v, post (CheckIntraSectionIterate begin_ header_ n off type v) (fun _ => True).
Proof.
  induction n as [|n IH]; intros off type v; cbn [CheckIntraSectionIterate]; [done|].
  eapply post_bind; [apply post_padding|]. intros [p|] _; [|done].
  eapply post_bind; [apply post_intra_item|]. intros [q|] _; [|done]. case_match; [done|apply IH].
Qed.
Lemma post_intra_section item off v : post (check_intra_section begin_ header_ item off v) (fun _ => True).
Proof.
  unfold check_intra_section, CheckIntraIdSection, CheckIntraDataSection, map_count.
  eapply post_bind; [apply post_padding|]. intros [p|] _; [|done].
  repeat case_match; try done.
  - eapply (post_bind _ _ (fun _ => True)); [|by intros [|]]. repeat case_match; try done. apply post_intra_iterate.
  - post_all.
  - eapply (post_bind _ _ (fun _ => True)); [|by intros [|]]. repeat case_match; try done.
    eapply post_bind; [apply post_intra_iterate|]. intros [|]; [case_match|]; done.
Qed.
Lemma post_intra_sections n : forall i off v, post (check_intra_sections begin_ header_ n i off v) (fun _ => True).
Proof.
  induction n as [|n IH]; intros i off v; cbn [check_intra_sections]; [done|].
  eapply post_bind; [apply post_read_struct|]. intros item _. eapply post_bind; [apply post_intra_section|].
  intros [[v' off']|] _; [apply IH|done].
Qed.

(** ** Between the sections *)

Lemma post_load_string idx : post (CheckLoadStringByIdx header_ dex_file_ idx) (fun _ => True).
Proof. unfold CheckLoadStringByIdx. post_all. auto with post. Qed.
#[local] Hint Resolve post_load_string : post.
Lemma post_load_type idx : post (CheckLoadStringByTypeIdx header_ dex_file_ idx) (fun _ => True).
Proof. unfold CheckLoadStringByTypeIdx. post_all. auto with post. Qed.
Lemma post_load_field idx : post (CheckLoadFieldId header_ dex_file_ idx) (fun _ => True).
Proof. unfold CheckLoadFieldId. post_all. Qed.
Lemma post_load_method idx : post (CheckLoadMethodId header_ dex_file_ idx) (fun _ => True).
Proof. unfold CheckLoadMethodId. post_all. Qed.
#[local] Hint Resolve post_load_type post_load_field post_load_method Members.post_new_It : post.

Lemma post_class_data_definer ptr : post (FindFirstClassDataDefiner begin_ header_ dex_file_ ptr) (fun _ => True).
Proof. unfold FindFirstClassDataDefiner. post_all. Qed.
Lemma post_directory_definer ptr :
  post (FindFirstAnnotationsDirectoryDefiner begin_ header_ dex_file_ ptr) (fun _ => True).
Proof. unfold FindFirstAnnotationsDirectoryDefiner, first_annotation_idx. post_all. Qed.
#[local] Hint Resolve post_class_data_definer post_directory_definer : post.

(** What a check does when there is an item before it. *)
Lemma post_previous (o : option Z) (f : Z -> cres bool) : (forall p, post (f p) (fun _ => True)) ->
  post (match o with None => Done true | Some p => f p end) (fun _ => True).
Proof. intros Hf. destruct o; [apply Hf|done]. Qed.

Lemma post_inter_string v : post (CheckInterStringIdItem begin_ char_signed dex_file_ v) (fun _ => True).
Proof.
  unfold CheckInterStringIdItem. post_step. case_match; [done|]. eapply post_bind; [apply post_previous|done].
  intros prev. do 3 post_step. eapply post_bind; [apply post_compare; lia|done].
Qed.
Lemma post_inter_type v : post (CheckInterTypeIdItem begin_ header_ dex_file_ v) (fun _ => True).
Proof.
  unfold CheckInterTypeIdItem. post_all. eapply post_bind; [apply post_previous; intros; post_all|done].
Qed.

Lemma post_proto_list proto : post (proto_list dex_file_ proto) (fun _ => True).
Proof. unfold proto_list, TypeList_Size. post_all. Qed.
Lemma post_type_item l i : post (GetTypeItem l i) (fun _ => True).
Proof. eapply post_any, post_read_le. Qed.
#[local] Hint Resolve post_proto_list post_type_item : post.
Lemma post_check_shorty l size : forall shorty pos, post (check_shorty header_ dex_file_ l size pos shorty) (fun _ => True).
Proof. induction shorty as [|c shorty IH]; intros pos; cbn [check_shorty]; [done|]. post_all. Qed.
Lemma post_param_order fuel prev curr ps cs : forall pos, 0 <= pos -> cs - pos <= Z.of_nat fuel ->
  post (check_param_order fuel prev curr ps cs pos) (fun _ => True).
Proof.
  induction fuel as [|fuel IH]; intros pos H0 Hf; cbn [check_param_order];
    (destruct (Z.ltb_spec pos cs); cbn [andb]; [|done]); (case_match; [|done]); [lia|].
  post_all. apply IH; lia.
Qed.
#[local] Hint Resolve post_check_shorty : post.
Lemma post_proto_order prev item : post (check_proto_order dex_file_ prev item) (fun _ => True).
Proof. unfold check_proto_order. post_all. apply post_param_order; lia. Qed.
#[local] Hint Resolve post_proto_order : post.
Lemma post_inter_proto v : post (CheckInterProtoIdItem begin_ header_ dex_file_ v) (fun _ => True).
Proof.
  unfold CheckInterProtoIdItem. post_all.
  eapply post_bind; [apply post_previous; intros; post_all; auto with post|done].
Qed.
Lemma post_inter_field v : post (CheckInterFieldIdItem begin_ header_ dex_file_ v) (fun _ => True).
Proof. unfold CheckInterFieldIdItem. post_all. eapply post_bind; [apply post_previous; intros; post_all|done]. Qed.
Lemma post_inter_method v : post (CheckInterMethodIdItem begin_ header_ dex_file_ v) (fun _ => True).
Proof. unfold CheckInterMethodIdItem. post_all. eapply post_bind; [apply post_previous; intros; post_all|done]. Qed.

Lemma post_interfaces l n : forall i, post (check_interfaces header_ dex_file_ n l i) (fun _ => True).
Proof. induction n as [|n IH]; intros i; cbn [check_interfaces]; [done|]. post_all. Qed.
Lemma post_find_interface l idx n : forall j, post (find_interface n l idx j) (fun _ => True).
Proof. induction n as [|n IH]; intros j; cbn [find_interface]; [done|]. post_all. Qed.
#[local] Hint Resolve post_interfaces post_find_interface : post.
Lemma post_duplicates l n : forall i, post (check_duplicates n l i) (fun _ => True).
Proof. induction n as [|n IH]; intros i; cbn [check_duplicates]; [done|]. post_all. Qed.
Lemma post_definer off find idx : (forall p, post (find p) (fun _ => True)) -> post (check_definer off find idx) (fun _ => True).
Proof. intros Hf. unfold check_definer. case_match; [done|]. eapply post_bind; [apply Hf|]. by intros [|] _. Qed.
#[local] Hint Resolve post_duplicates post_definer : post.

Lemma post_superclass idx :
  post (if idx =? Catch.kDexNoIndex16 then Done true
        else descriptor ← CheckLoadStringByTypeIdx header_ dex_file_ idx;
             match descriptor with None => Done false | Some descriptor => valid_reference [chr "L"] descriptor end)
    (fun _ => True).
Proof. post_all. auto with post. Qed.
Lemma post_interface_list (o : option (list Z)) :
  post (match o with
        | None => Done true
        | Some interfaces =>
            size ← TypeList_Size interfaces;
            ok ← check_interfaces header_ dex_file_ (Z.to_nat size) interfaces 0;
            if negb (ok : bool) then Done false else check_duplicates (Z.to_nat size - 1) interfaces 1
        end) (fun _ => True).
Proof. unfold TypeList_Size. post_all. auto with post. Qed.
#[local] Hint Resolve post_superclass post_interface_list : post.

Lemma post_inter_class_def v : post (CheckInterClassDefItem begin_ header_ dex_file_ v) (fun _ => True).
Proof. unfold CheckInterClassDefItem. post_all. Qed.

Lemma post_set_refs v n : forall ptr, post (check_set_refs begin_ n ptr v) (fun _ => True).
Proof. induction n as [|n IH]; intros ptr; cbn [check_set_refs]; [done|]. post_all. Qed.
Lemma post_set v n : forall i last ptr, post (check_set begin_ n i last ptr v) (fun _ => True).
Proof. induction n as [|n IH]; intros i last ptr; cbn [check_set]; [done|]. post_all. Qed.
Lemma post_directory class_of c type v n : (forall i, post (class_of i) (fun _ => True)) ->
  forall ptr, post (check_directory begin_ class_of c type n ptr v) (fun _ => True).
Proof. intros Hc. induction n as [|n IH]; intros ptr; cbn [check_directory]; [done|]. post_all. Qed.
Lemma post_class_of_field idx : post (class_of_field header_ dex_file_ idx) (fun _ => True).
Proof. unfold class_of_field. post_all. Qed.
Lemma post_class_of_method idx : post (class_of_method header_ dex_file_ idx) (fun _ => True).
Proof. unfold class_of_method. post_all. Qed.
#[local] Hint Resolve post_set_refs post_set post_directory post_class_of_field post_class_of_method post_end_pointer : post.

Lemma post_inter_class_data v : post (CheckInterClassDataItem begin_ header_ dex_file_ v) (fun _ => True).
Proof.
  unfold CheckInterClassDataItem. eapply post_bind; [apply Members.post_new_It|]. intros it Hit. cbn beta in Hit.
  pose proof (length_bytes_at (v_ptr v)). post_step. case_match; [|done].
  do 2 (eapply post_bind; [apply Members.post_check_members;
    [by intros ? [->| ->]%orb_true_iff; rewrite ?orb_true_r
    |intros; unfold check_inter_field, check_inter_method; post_all|lia]|];
    intros [?|] ?; [cbn [opost] in *|done]).
  post_all.
Qed.

Lemma post_inter_item type v : post (check_inter_item begin_ char_signed header_ dex_file_ type v) (fun _ => True).
Proof.
  unfold check_inter_item. repeat case_match; try done.
  - apply post_inter_string.
  - apply post_inter_type.
  - apply post_inter_proto.
  - apply post_inter_field.
  - apply post_inter_method.
  - apply post_inter_class_def.
  - unfold CheckInterAnnotationSetRefList. post_all.
  - unfold CheckInterAnnotationSetItem. post_all.
  - apply post_inter_class_data.
  - unfold CheckInterAnnotationsDirectoryItem. post_all.
Qed.
Lemma post_inter_items type n : forall off v,
  post (check_inter_items begin_ char_signed header_ dex_file_ n off type v) (fun _ => True).
Proof.
  induction n as [|n IH]; intros off v; cbn [check_inter_items]; [done|].
  eapply post_bind; [apply post_inter_item|]. intros [w|] _; [apply IH|done].
Qed.
Lemma post_inter_sections n : forall i v,
  post (check_inter_sections begin_ char_signed header_ dex_file_ n i v) (fun _ => True).
Proof.
  induction n as [|n IH]; intros i v; cbn [check_inter_sections]; [done|].
  eapply post_bind; [apply post_read_struct|]. intros item _. repeat case_match; try done.
  eapply post_bind; [apply post_inter_items|]. intros [w|] _; [apply IH|done].
Qed.

Lemma post_map_items n : forall i last left used, post (check_map_items begin_ header_ n i last left used) (fun _ => True).
Proof.
  induction n as [|n IH]; intros i last left used; cbn [check_map_items]; [done|].
  eapply post_bind; [apply post_read_struct|]. intros item _. repeat case_match; try done; apply IH.
Qed.
Lemma post_map : post (CheckMap begin_ header_) (fun _ => True).
Proof.
  unfold CheckMap, map_count. case_match; [done|]. post_step. case_match; [done|].
  eapply post_bind; [apply post_map_items|]. by intros [|] _.
Qed.

Lemma post_verify : post (Verify begin_ adler32 char_signed header_ dex_file_) (fun _ => True).
Proof.
  unfold Verify, CheckIntraSection, CheckInterSection, map_count. case_match; [done|].
  eapply post_bind; [apply post_map|]. intros [] _; [|done]. cbn [negb].
  eapply (post_bind _ _ (fun _ => True)).
  { post_step. eapply post_any, post_intra_sections. }
  intros [v|] _; [|done]. eapply (post_bind _ _ (fun _ => True)); [|done]. post_step. eapply post_any, post_inter_sections.
Qed.
End Verifier.

Lemma post_verify_file adler32 char_signed begin : Forall byte_ok begin ->
  post (VerifyFile adler32 char_signed begin) (fun _ => True).
Proof.
  intros Hb. unfold VerifyFile, read_Header. eapply (post_bind _ _ (fun _ => True)); [post_all|].
  intros h _. by apply post_verify.
Qed.
