(* ===== verification/DexVerified.v ===== *)
(** * DexVerified: what the verifier promises to the lookups

    A file that DexFileVerifier accepts is well-formed in the sense of [Dex]: the
    sections of its tables lie in the file, the strings, types, prototypes,
    fields and methods are sorted, and the classes are distinct.  The proof goes
    along the passes of the verifier: the first records for every item that its
    own check has passed, the second finds every entry of a table in order. *)

From S2P Require Import Prelude CLib Leb128 Utf HashSet Dex Names DexItems DexCatch DexValues DexDebug DexVerify DexFormat DexVerifier DexVerifierTotal.

(** Takes a computation that has returned apart. *)
Ltac done_inv H :=
  repeat (cbn [negb] in H; lazymatch type of H with
  | mbind _ _ = Done _ => let a := fresh "a" in let E := fresh "E" in apply bind_Done in H as (a & E & H)
  | (let (_, _) := ?x in _) = Done _ => destruct x
  | (match ?x with Some _ => _ | None => Done None end) = Done (Some _) => destruct x eqn:?; [|discriminate H]
  | (match ?x with Some _ => _ | None => Done false end) = Done true => destruct x eqn:?; [|discriminate H]
  | (if negb ?b then _ else _) = _ => let E := fresh "B" in destruct b eqn:E; try discriminate H
  | (if ?b then _ else _) = _ => let E := fresh "B" in destruct b eqn:E; try discriminate H
  | Done _ = Done _ => injection H as H
  | Some _ = Some _ => injection H as H
  end).

(** ** Alignment *)

Lemma align_zero off : align 0 off = off.
Proof. unfold align. rewrite Z.add_0_r. change (Z.lnot 0) with (-1). apply Z.land_m1_r. Qed.
Lemma align_four off : align 3 off = 4 * ((off + 3) / 4).
Proof.
  unfold align. change 3 with (Z.ones 2) at 2. rewrite <- Z.ldiff_land, Z.ldiff_ones_r by lia.
  rewrite Z.shiftr_div_pow2, Z.shiftl_mul_pow2 by lia. change (2 ^ 2) with 4. lia.
Qed.
Lemma align_bounds types type off : off <= align (alignment_mask types type) off <= off + 3.
Proof.
  unfold alignment_mask. case_bool_decide; [rewrite align_zero; lia|]. rewrite align_four.
  pose proof (Z.div_mod (off + 3) 4). pose proof (Z.mod_pos_bound (off + 3) 4). lia.
Qed.
Lemma align_multiple off : off mod 4 = 0 -> align 3 off = off.
Proof.
  intros H. rewrite align_four. pose proof (Z.div_mod off 4). pose proof (Z.div_mod (off + 3) 4).
  pose proof (Z.mod_pos_bound (off + 3) 4). lia.
Qed.

(** ** Descriptors *)

Lemma utf8_byte c b : in_u 16 c -> b ∈ utf8_of_char c -> b < 128 -> c = b.
Proof.
  intros Hc Hb Hlt. destruct (utf8_of_char_form c Hc); rewrite !elem_of_cons, elem_of_nil in Hb; lia.
Qed.
Lemma utf8_elem s b : Forall (in_u 16) s -> b ∈ utf8 s -> b < 128 -> b ∈ s.
Proof.
  induction 1 as [|c s Hc _ IH]; [by intros ?%elem_of_nil|]. rewrite utf8_cons, elem_of_app, elem_of_cons.
  intros [Hb|Hb] Hlt; [left; symmetry; by apply utf8_byte|right; auto].
Qed.
Lemma name_no_semicolon s : name_chars s -> chr ";" ∉ s.
Proof.
  change (chr ";") with 59. induction 1 as [|c s Hc _ IH|c d s Hc Hd _ IH]; [apply not_elem_of_nil|..];
    rewrite ?not_elem_of_cons; split_and?; try done; intros <-; by vm_compute in Hc || vm_compute in Hd.
Qed.
Lemma class_name_no_semicolon s : class_name (chr "/") s -> chr ";" ∉ s.
Proof.
  induction 1 as [s [_ Hs]|s t [_ Hs] _ IH]; [by apply name_no_semicolon|].
  rewrite not_elem_of_app, not_elem_of_cons. split; [by apply name_no_semicolon|]. by split.
Qed.

Lemma element_descriptor s : Forall (in_u 16) s -> element (chr "/") s -> is_descriptor (utf8 s).
Proof.
  intros Hs. destruct 1 as [c Hc|s Hn].
  - destruct (prim_small _ Hc) as (Hr & ? & ? & _). apply Forall_cons in Hs as [Hu _].
    destruct (first_byte c Hu) as (b & tl & E & [(_ & -> & ->)|[]]); [|lia].
    unfold utf8. cbn [map concat]. rewrite E. apply descriptor_prim; [done..|]. intros ->. by apply (bool_decide_eq_true_2 (chr ")" ∈ primitive_chars)) in Hc.
  - apply Forall_cons in Hs as [_ [Hs _]%Forall_app]. rewrite utf8_cons, utf8_app.
    apply (descriptor_class (utf8 s)). intros Hb. apply (class_name_no_semicolon s Hn). by apply utf8_elem.
Qed.
Lemma descriptor_bytes s : Forall (in_u 16) s -> descriptor s -> is_descriptor (utf8 s).
Proof.
  intros Hs. destruct 1 as [|s He|s Ha]; [by apply descriptor_prim|by apply element_descriptor|].
  destruct Ha as [n s _ He]. induction n as [|n IH]; [by apply element_descriptor|]. cbn [replicate app] in *.
  apply Forall_cons in Hs as [_ Hs]. rewrite utf8_cons. apply (descriptor_array (utf8 (replicate n (chr "[") ++ s))). auto.
Qed.

Section Verified.
Context (begin_ : list Z) (Hbytes : Forall byte_ok begin_) (Hsize : size_ begin_ < 2 ^ 32).
Context (adler32 : Z -> option (list Z) -> Z) (char_signed : bool) (header_ : Header) (dex_file_ : DexFile).
Local Abbreviation size_ := (size_ begin_).

(** ** The first pass *)

Lemma zeros_forward n : forall ptr p, check_zeros begin_ n ptr = Done (Some p) -> p = ptr + Z.of_nat n.
Proof.
  induction n as [|n IH]; intros ptr p H; cbn [check_zeros] in H; [injection H as <-; lia|].
  done_inv H. apply IH in H. lia.
Qed.
Lemma padding_forward off aligned ptr p : off <= aligned -> CheckPadding begin_ off aligned ptr = Done (Some p) ->
  p = ptr + (aligned - off).
Proof.
  intros Hle H. unfold CheckPadding in H. done_inv H.
  - apply zeros_forward in H. apply Z.ltb_lt in B. lia.
  - apply Z.ltb_ge in B. lia.
Qed.
Lemma padding_inside off aligned ptr p : off <= size_ -> off <= aligned ->
  CheckPadding begin_ off aligned ptr = Done (Some p) -> aligned <= size_.
Proof.
  intros Ho Hle H. unfold CheckPadding in H. done_inv H; [|apply Z.ltb_ge in B; lia].
  unfold check_range in *. lia.
Qed.

(** The own check of every item that is recorded has passed. *)
Definition items_ok (types : gmap Z Z) : Prop :=
  forall off t, types !! off = Some t -> 0 <= off /\ exists p, check_intra_item begin_ header_ t off = Done (Some p) /\ p <= size_.

Lemma items_ok_put types off t p : items_ok types -> 0 <= off -> check_intra_item begin_ header_ t off = Done (Some p) ->
  p <= size_ -> items_ok (Put off t types).
Proof.
  intros Hok H0 Hc Hp. unfold Put. case_match; [done|]. intros off' t'. rewrite lookup_insert_Some.
  intros [[<- <-]|[_ Hl]]; [eauto|by apply Hok].
Qed.

Lemma intra_item_forward t ptr p : 0 <= ptr <= size_ -> check_intra_item begin_ header_ t ptr = Done (Some p) -> ptr <= p.
Proof. intros H0 H. apply (post_result _ _ _ (post_intra_item begin_ Hbytes header_ t ptr)) in H. by apply H. Qed.

(** The pointer is at an offset of the file, and the items before it are recorded. *)
Definition at_item (off : Z) (v : Verifier) : Prop :=
  v_ptr v = off /\ 0 <= off <= size_ /\ items_ok (offset_to_type_map_ v).

Lemma at_item_start : at_item 0 (set_ptr new_Verifier 0).
Proof.
  split; [done|]. split; [unfold DexVerifier.size_; lia|]. intros ? ? Hl. cbn in Hl. by apply lookup_empty_Some in Hl.
Qed.

Lemma intra_iterate_step n off type v v' : at_item off v ->
  CheckIntraSectionIterate begin_ header_ (S n) off type v = Done (Some v') ->
  let al := align (alignment_mask INTRA_BYTE_TYPES type) off in
  exists p, check_intra_item begin_ header_ type al = Done (Some p) /\ off <= p /\
    let v1 := mkVerifier p (previous_item_ v)
                (if IsDataSectionType type then Put al type (offset_to_type_map_ v) else offset_to_type_map_ v) (defined_classes_ v) in
    at_item p v1 /\ CheckIntraSectionIterate begin_ header_ n p type v1 = Done (Some v').
Proof.
  intros (Hp & H0 & Hok) H al. cbn [CheckIntraSectionIterate] in H. done_inv H.
  pose proof (align_bounds INTRA_BYTE_TYPES type off) as Hal. fold al in Hal, H, E, E0.
  pose proof (padding_inside _ _ _ _ (proj2 H0) (proj1 Hal) E) as Hin.
  apply padding_forward in E as ->; [|lia]. replace (v_ptr v + (al - off)) with al in * by lia.
  apply intra_item_forward in E0 as Hz; [|lia]. apply Z.ltb_ge in B.
  rewrite uwrap_small in H by (unfold in_u; lia). exists z0. split; [done|]. split; [lia|]. split; [|done].
  split; [done|]. cbn [offset_to_type_map_]. split; [lia|]. case_match; [|done]. eapply items_ok_put; [done|lia|done|lia].
Qed.

Lemma intra_iterate_ok n : forall off type v v', at_item off v ->
  CheckIntraSectionIterate begin_ header_ n off type v = Done (Some v') -> off <= v_ptr v' /\ at_item (v_ptr v') v'.
Proof.
  induction n as [|n IH]; intros off type v v' Hv H.
  { injection H as <-. destruct Hv as (Hp & Hv). rewrite Hp. split; [lia|]. by split. }
  apply intra_iterate_step in H as (p & _ & Hp & Hv1 & H); [|done]. apply IH in H; [|done]. split; [lia|apply H].
Qed.

(** ** The map *)

Context (Hheader : header_size_ header_ <= size_) (Hheader0 : 0 <= header_size_ header_).
Context (Hmap : CheckMap begin_ header_ = Done true).

Lemma map_range count : map_count begin_ header_ = Done count -> map_off_ header_ + 4 + count * MAP_ITEM_SIZE <= size_.
Proof. intros Hc. pose proof Hmap as H. unfold CheckMap in H. rewrite Hc in H. done_inv H. simplify_eq. unfold check_range in B0. lia. Qed.

Lemma map_count_nonneg count : map_count begin_ header_ = Done count -> 0 <= count.
Proof.
  intros H. apply (post_result _ _ _ (post_read_le _ _)) in H as [-> _]. by apply of_le_nonneg, Forall_take, bytes_at_ok.
Qed.

Lemma id_section_ok off count type v v' : at_item off v ->
  CheckIntraIdSection begin_ header_ off count type v = Done (Some v') -> off <= v_ptr v' /\ at_item (v_ptr v') v'.
Proof.
  intros Hv H. unfold CheckIntraIdSection in H. destruct (expected_section header_ type) as [[]|]; [|done].
  done_inv H. by apply (intra_iterate_ok _ _ _ _ _ Hv) in H.
Qed.
Lemma data_section_ok off count type v v' : at_item off v ->
  CheckIntraDataSection begin_ header_ off count type v = Done (Some v') -> off <= v_ptr v' /\ at_item (v_ptr v') v'.
Proof. intros Hv H. unfold CheckIntraDataSection in H. done_inv H. subst. by apply (intra_iterate_ok _ _ _ _ _ Hv) in E. Qed.

Lemma intra_section_ok item off v v' off' : at_item off v ->
  check_intra_section begin_ header_ item off v = Done (Some (v', off')) ->
  off <= map_offset_ item <= off' /\ at_item off' v'.
Proof.
  intros (Hp & H0 & Hok) H. unfold check_intra_section in H. apply bind_Done in H as ([ptr|] & E & H); [|done].
  destruct (Z.ltb_spec (map_offset_ item) off) as [|B]; [done|].
  pose proof (padding_inside _ _ _ _ (proj2 H0) B E) as Hin. apply padding_forward in E as ->; [|done].
  assert (at_item (map_offset_ item) (set_ptr v (v_ptr v + (map_offset_ item - off)))) as Hv
    by (split; cbn; [lia|split; [lia|done]]).
  done_inv H; simplify_eq.
  - apply orb_false_iff in B1 as [_ Hm%negb_false_iff%Z.eqb_eq]. split; [lia|]. split; [done|]. by split.
  - by apply (id_section_ok _ _ _ _ _ Hv) in E as [? ?].
  - destruct Hv as (Hv & Ho & _). cbn in Hv |- *. apply map_range in E as Hr. apply map_count_nonneg in E.
    apply orb_false_iff in B3 as [_ Hm%negb_false_iff%Z.eqb_eq].
    unfold MAP_ITEM_SIZE in *. split; [lia|]. split; cbn; [lia|]. split; [lia|done].
  - by apply (data_section_ok _ _ _ _ _ Hv) in E as [? ?].
Qed.

(** A section of the map that has passed its check, from [lo] to [hi]. *)
Definition section_passed (i lo hi : Z) : Prop :=
  exists item v off v', map_item begin_ header_ i = Done item /\ at_item off v /\ map_offset_ item = lo /\
    check_intra_section begin_ header_ item off v = Done (Some (v', hi)).

(** The sections have passed, and follow one another. *)
Lemma intra_sections_ok n : forall i off v v', at_item off v ->
  check_intra_sections begin_ header_ n i off v = Done (Some v') ->
  items_ok (offset_to_type_map_ v') /\
  exists lo hi, forall k, i <= k < i + Z.of_nat n ->
    section_passed k (lo k) (hi k) /\ off <= lo k <= hi k /\ forall k', i <= k' < k -> hi k' <= lo k.
Proof.
  induction n as [|n IH]; intros i off v v' Hv H; cbn [check_intra_sections] in H.
  { injection H as <-. split; [by apply Hv|]. exists (fun _ => 0), (fun _ => 0). lia. }
  apply bind_Done in H as (item & Ei & H). apply bind_Done in H as ([[w off']|] & Es & H); [|done].
  destruct (intra_section_ok _ _ _ _ _ Hv Es) as [Hoff Hw].
  apply IH in H as (Hok & lo & hi & Hk); [|done]. split; [done|].
  exists (fun k => if k =? i then map_offset_ item else lo k), (fun k => if k =? i then off' else hi k). intros k Hr.
  destruct (Z.eqb_spec k i) as [->|Hne].
  - split; [unfold section_passed; eauto 10|]. split; [lia|]. lia.
  - destruct (Hk k ltac:(lia)) as (Hs & Hb & Hbefore). split; [done|]. split; [lia|]. intros k' Hk'.
    destruct (Z.eqb_spec k' i); [lia|]. apply Hbefore. lia.
Qed.

(** ** The sections of the tables *)

(** The size of an entry of a table. *)
Definition id_size (type : Z) : Z :=
  if bool_decide (type ∈ [kDexTypeStringIdItem; kDexTypeTypeIdItem]) then 4
  else if type =? kDexTypeProtoIdItem then 12
  else if bool_decide (type ∈ [kDexTypeFieldIdItem; kDexTypeMethodIdItem]) then 8
  else 32.

Lemma id_type_cases (P : Z -> Prop) : P kDexTypeStringIdItem -> P kDexTypeTypeIdItem -> P kDexTypeProtoIdItem ->
  P kDexTypeFieldIdItem -> P kDexTypeMethodIdItem -> P kDexTypeClassDefItem -> forall type, type ∈ ID_TYPES -> P type.
Proof.
  intros. unfold ID_TYPES in *. repeat match goal with H : _ ∈ _ :: _ |- _ => apply elem_of_cons in H as [->|H]; [done|] end.
  by apply elem_of_nil in H5.
Qed.

Lemma id_size_ok type : type ∈ ID_TYPES -> 0 < id_size type <= 32 /\ id_size type mod 4 = 0.
Proof. revert type. by apply id_type_cases. Qed.
Lemma id_check type ptr : type ∈ ID_TYPES -> check_intra_item begin_ header_ type ptr = check_id begin_ (id_size type) ptr.
Proof. revert type. by apply id_type_cases. Qed.
Lemma id_mask type : type ∈ ID_TYPES ->
  alignment_mask INTRA_BYTE_TYPES type = 3 /\ alignment_mask [kDexTypeClassDataItem] type = 3.
Proof. revert type. by apply id_type_cases. Qed.

Lemma mod_step off sz k : off mod 4 = 0 -> sz mod 4 = 0 -> (off + k * sz) mod 4 = 0.
Proof. intros Ho Hs. rewrite Z.add_mod, Z.mul_mod, Ho, Hs, Z.mul_0_r by lia. done. Qed.

Lemma id_iterate type n : type ∈ ID_TYPES -> forall off v v', off mod 4 = 0 -> v_ptr v = off -> off <= size_ ->
  CheckIntraSectionIterate begin_ header_ n off type v = Done (Some v') -> v_ptr v' = off + Z.of_nat n * id_size type /\ v_ptr v' <= size_.
Proof.
  intros Ht. destruct (id_size_ok type Ht) as [Hs Hs4]. destruct (id_mask type Ht) as [Hm _].
  induction n as [|n IH]; intros off v v' Ho Hp Hle H; cbn [CheckIntraSectionIterate] in H; [injection H as <-; lia|].
  rewrite Hm, align_multiple in H by done. done_inv H. apply padding_forward in E as ->; [|lia].
  rewrite id_check in E0 by done. unfold check_id in E0. done_inv E0. subst. apply Z.ltb_ge in B.
  apply IH in H; [lia| | |done]; [|cbn; lia]. replace (v_ptr v + (v_ptr v - v_ptr v)) with (v_ptr v) by lia.
  rewrite <- (Z.mul_1_l (id_size type)). by apply mod_step.
Qed.

Lemma mask_bit type : type ∈ kDexTypeHeaderItem :: ID_TYPES -> exists j, 0 <= j /\ MapTypeToBitMask type = Z.shiftl 1 j /\
  forall t, Z.testbit (MapTypeToBitMask t) j = true -> t = type.
Proof.
  assert (forall j type, 0 <= j -> MapTypeToBitMask type = Z.shiftl 1 j ->
    (forall t, Z.testbit (MapTypeToBitMask t) j = true -> t = type) ->
    exists j, 0 <= j /\ MapTypeToBitMask type = Z.shiftl 1 j /\
      forall t, Z.testbit (MapTypeToBitMask t) j = true -> t = type) as Hj by eauto.
  rewrite elem_of_cons. intros [->|Ht]; [apply (Hj 0)|revert type Ht; apply id_type_cases; [apply (Hj 1)|apply (Hj 2)|apply (Hj 3)|apply (Hj 4)|apply (Hj 5)|apply (Hj 6)]];
    try done; intros t; unfold MapTypeToBitMask;
    repeat match goal with |- context [t =? ?k] => destruct (Z.eqb_spec t k); [subst; by vm_compute|] end; by vm_compute.
Qed.

Lemma map_bits n : forall i last left used r, check_map_items begin_ header_ n i last left used = Done (Some r) ->
  forall b, 0 <= b -> Z.testbit r b = true -> Z.testbit used b = true \/
    exists k item, i <= k < i + Z.of_nat n /\ map_item begin_ header_ k = Done item /\
      Z.testbit (MapTypeToBitMask (map_type_ item)) b = true.
Proof.
  induction n as [|n IH]; intros i last left used r H b Hb Hr; cbn [check_map_items] in H.
  { injection H as <-. by left. }
  done_inv H; (destruct (IH _ _ _ _ _ H b Hb Hr) as [Hu|(k & item & Hk & Hi & Hbit)];
    [|right; exists k, item; split; [lia|done]]); rewrite Z.lor_spec in Hu;
    (apply orb_true_iff in Hu as [Hu|Hu]; [by left|right]); exists i; eexists; (split; [lia|]); done.
Qed.

Lemma map_has_type n left z type : check_map_items begin_ header_ n 0 0 left 0 = Done (Some z) ->
  type ∈ kDexTypeHeaderItem :: ID_TYPES -> Z.land z (MapTypeToBitMask type) <> 0 ->
  exists k item, 0 <= k < Z.of_nat n /\ map_item begin_ header_ k = Done item /\ map_type_ item = type.
Proof.
  intros H Ht Hz. destruct (mask_bit type Ht) as (j & Hj & Hm & Hbit). rewrite Hm in Hz.
  assert (Z.testbit z j = true) as Hzj.
  { apply not_false_iff_true. intros Hf. apply Hz. apply Z.bits_inj'. intros m Hm0.
    rewrite Z.land_spec, Z.bits_0, Z.shiftl_1_l, Z.pow2_bits_eqb by done.
    destruct (Z.eqb_spec j m) as [<-|]; [by rewrite Hf|apply andb_false_r]. }
  apply (map_bits _ _ _ _ _ _ H j Hj) in Hzj as [Hb|(k & item & Hk & Hi & Hb)]; [by rewrite Z.bits_0 in Hb|].
  exists k, item. split; [lia|]. split; [done|]. by apply Hbit.
Qed.

(** The header and the tables that are not empty have a section in the map. *)
Lemma map_has_section count type : map_count begin_ header_ = Done count ->
  type = kDexTypeHeaderItem \/ type ∈ ID_TYPES /\ (exists off size, expected_section header_ type = Some (off, size) /\ size <> 0) ->
  exists k item, 0 <= k < count /\ map_item begin_ header_ k = Done item /\ map_type_ item = type.
Proof.
  intros Hc Ht. pose proof Hmap as H. unfold CheckMap in H. rewrite Hc in H. done_inv H. simplify_eq.
  apply map_count_nonneg in Hc. rewrite <- (Z2Nat.id a) by done. rewrite !andb_true_iff, !negb_true_iff in H.
  apply (map_has_type _ _ _ _ E0); destruct Ht as [->|(Ht & off & size & He & Hs)].
  - left.
  - by right.
  - apply Z.eqb_neq. apply H.
  - assert (missing z type off size = false) as Hmiss.
    { clear Hs. revert type Ht off size He. refine (id_type_cases _ _ _ _ _ _ _); intros off size He; cbn in He; simplify_eq; apply H. }
    unfold missing in Hmiss. apply andb_false_iff in Hmiss as [Hz|Hz]; [by apply Z.eqb_neq|lia].
Qed.

(** The section of the header is at its place. *)
Lemma header_section k lo hi item : section_passed k lo hi -> map_item begin_ header_ k = Done item ->
  map_type_ item = kDexTypeHeaderItem -> lo = 0 /\ hi = header_size_ header_.
Proof.
  intros (item' & v & off' & v' & Hi & _ & <- & H) Hi' Ht. rewrite Hi' in Hi. injection Hi as <-.
  unfold check_intra_section in H. rewrite Ht in H. done_inv H. lia.
Qed.

Lemma id_not_header type : type ∈ ID_TYPES -> (type =? kDexTypeHeaderItem) = false.
Proof. revert type. by apply id_type_cases. Qed.

(** The section of a table is what the header says, and lies in the file. *)
Lemma table_section_inside k lo hi item off size : section_passed k lo hi -> map_item begin_ header_ k = Done item ->
  map_type_ item ∈ ID_TYPES -> expected_section header_ (map_type_ item) = Some (off, size) ->
  map_offset_ item = off /\ map_size_ item = size /\ lo = off /\
  (off mod 4 = 0 -> 0 <= size -> hi = off + size * id_size (map_type_ item) /\ hi <= size_).
Proof.
  intros (item' & v & off' & v' & Hi & (Hp & H0 & Hok) & <- & H) Hi' Ht He. rewrite Hi' in Hi. injection Hi as <-.
  unfold check_intra_section in H. apply bind_Done in H as ([ptr|] & E & H); [|done].
  destruct (Z.ltb_spec (map_offset_ item) off') as [|B]; [done|]. rewrite id_not_header, bool_decide_true in H by done.
  pose proof (padding_inside _ _ _ _ (proj2 H0) B E) as Hin. apply padding_forward in E as ->; [|done].
  apply bind_Done in H as ([w|] & E & H); [|done]. injection H as -> <-. unfold CheckIntraIdSection in E. rewrite He in E.
  done_inv E. apply Z.eqb_eq in B0, B1. split; [done|]. split; [done|]. split; [done|]. intros Ho Hs.
  cbn [negb] in E. apply (id_iterate _ _ Ht) in E; [rewrite Z2Nat.id in E by lia; by subst|by rewrite B0|cbn; lia|done].
Qed.

(** ** The second pass *)

Lemma inter_item_types type v v' : check_inter_item begin_ char_signed header_ dex_file_ type v = Done (Some v') ->
  offset_to_type_map_ v' = offset_to_type_map_ v.
Proof.
  unfold check_inter_item. intros H.
  repeat match type of H with (if ?b then _ else _) = _ => destruct b end; try done;
    unfold CheckInterStringIdItem, CheckInterTypeIdItem, CheckInterProtoIdItem, CheckInterFieldIdItem,
      CheckInterMethodIdItem, CheckInterClassDefItem, CheckInterAnnotationSetRefList, CheckInterAnnotationSetItem,
      CheckInterClassDataItem, CheckInterAnnotationsDirectoryItem in H; done_inv H; by subst.
Qed.
Lemma inter_item_ptr type v v' : type ∈ ID_TYPES ->
  check_inter_item begin_ char_signed header_ dex_file_ type v = Done (Some v') -> v_ptr v' = v_ptr v + id_size type.
Proof.
  revert type. refine (id_type_cases _ _ _ _ _ _ _); intros H;
    lazy [check_inter_item Z.eqb] in H;
    unfold CheckInterStringIdItem, CheckInterTypeIdItem, CheckInterProtoIdItem, CheckInterFieldIdItem,
      CheckInterMethodIdItem, CheckInterClassDefItem in H; done_inv H; by subst.
Qed.

Lemma inter_items_types type n : forall off v v',
  check_inter_items begin_ char_signed header_ dex_file_ n off type v = Done (Some v') ->
  offset_to_type_map_ v' = offset_to_type_map_ v.
Proof.
  induction n as [|n IH]; intros off v v' H; cbn [check_inter_items] in H; [by injection H as <-|].
  apply bind_Done in H as ([w|] & E & H); [|done]. apply IH in H. cbn in H. apply inter_item_types in E. by rewrite H, E.
Qed.

(** The check of entry [k] of a table at [off], with the entry before it. *)
Definition entry_passed (type off : Z) (types : gmap Z Z) (k : nat) : Prop :=
  exists v v', v_ptr v = off + Z.of_nat k * id_size type /\
    previous_item_ v = match k with O => None | S j => Some (off + Z.of_nat j * id_size type) end /\
    offset_to_type_map_ v = types /\
    check_inter_item begin_ char_signed header_ dex_file_ type v = Done (Some v').

Lemma inter_align type off k : type ∈ ID_TYPES -> off mod 4 = 0 ->
  align (alignment_mask [kDexTypeClassDataItem] type) (off + k * id_size type) = off + k * id_size type.
Proof.
  intros Ht Ho. rewrite (proj2 (id_mask type Ht)). apply align_multiple, mod_step; [done|by apply id_size_ok].
Qed.

Lemma inter_items_passed type off n : type ∈ ID_TYPES -> off mod 4 = 0 -> forall k v v',
  previous_item_ v = match k with O => None | S j => Some (off + Z.of_nat j * id_size type) end ->
  check_inter_items begin_ char_signed header_ dex_file_ n (off + Z.of_nat k * id_size type) type v = Done (Some v') ->
  forall j, (k <= j < k + n)%nat -> entry_passed type off (offset_to_type_map_ v) j.
Proof.
  intros Ht Ho. induction n as [|n IH]; intros k v v' Hprev H j Hj; cbn [check_inter_items] in H; [lia|].
  rewrite inter_align in H by done. apply bind_Done in H as ([w|] & E & H); [|done].
  pose proof (inter_item_types _ _ _ E) as Hty. pose proof (inter_item_ptr _ _ _ Ht E) as Hpt. cbn in Hty, Hpt.
  destruct (decide (j = k)) as [->|].
  - exists (set_ptr v (off + Z.of_nat k * id_size type)), w. by rewrite E.
  - rewrite Hpt in H. replace (off + Z.of_nat k * id_size type + id_size type) with (off + Z.of_nat (S k) * id_size type) in H by lia.
    apply (IH (S k)) with (j := j) in H; [|done|lia]. cbn in H. by rewrite Hty in H.
Qed.

Lemma intra_only_not_id type : type ∈ ID_TYPES -> (type ∉ INTRA_ONLY_TYPES) /\ type ∈ INTER_TYPES.
Proof.
  revert type. apply id_type_cases; (split; [refine (bool_decide_eq_true_1 _ _); by vm_compute|decide_mem]).
Qed.

Lemma inter_sections_passed n : forall i v v',
  check_inter_sections begin_ char_signed header_ dex_file_ n i v = Done (Some v') ->
  forall k item, i <= k < i + Z.of_nat n -> map_item begin_ header_ k = Done item ->
  (map_type_ item ∉ INTRA_ONLY_TYPES) /\ map_type_ item ∈ INTER_TYPES ->
  exists w w', offset_to_type_map_ w = offset_to_type_map_ v /\
    CheckInterSectionIterate begin_ char_signed header_ dex_file_ (map_offset_ item) (map_size_ item) (map_type_ item) w
    = Done (Some w').
Proof.
  induction n as [|n IH]; intros i v v' H k item Hk Hi Ht; cbn [check_inter_sections] in H; [lia|].
  apply bind_Done in H as (item' & Ei & H). destruct (Z.eq_dec k i) as [->|].
  - rewrite Hi in Ei. injection Ei as <-. destruct Ht.
    rewrite bool_decide_false, bool_decide_true in H by done. apply bind_Done in H as ([w|] & E & H); [eauto|done].
  - case_bool_decide; [apply (IH _ _ _ H k item); [lia|done..]|]. case_bool_decide; [|done].
    apply bind_Done in H as ([w|] & E & H); [|done]. apply inter_items_types in E. cbn in E. rewrite <- E.
    apply (IH _ _ _ H k item); [lia|done..].
Qed.
End Verified.

(** ** A verified file *)

(** The offsets of the tables are multiples of four. *)
Definition tables_aligned (h : Header) : Prop :=
  Forall (fun off => off mod 4 = 0)
    [string_ids_off_ h; type_ids_off_ h; proto_ids_off_ h; field_ids_off_ h; method_ids_off_ h; class_defs_off_ h].

Lemma expected_aligned h type off count : tables_aligned h -> type ∈ ID_TYPES ->
  expected_section h type = Some (off, count) -> off mod 4 = 0.
Proof.
  intros Ha Ht. unfold tables_aligned in Ha. rewrite !Forall_cons in Ha. destruct Ha as (? & ? & ? & ? & ? & ? & _).
  revert type Ht. refine (id_type_cases _ _ _ _ _ _ _); cbn; congruence.
Qed.

(** The indices of a type list, and the key of a prototype. *)
Definition type_list_items (l : list Z) : list Z :=
  match TypeList_Size l with
  | Done n => map (fun i => match GetTypeItem l (Z.of_nat i) with Done t => t | Fault _ => 0 end) (seq 0 (Z.to_nat n))
  | Fault _ => []
  end.
Definition proto_parameters (d : DexFile) (proto : ProtoId) : list Z :=
  match GetProtoParameters d proto with None => [] | Some l => type_list_items l end.
Definition proto_keys (d : DexFile) : list (list Z) :=
  map (fun proto => return_type_idx_ proto :: proto_parameters d proto) (proto_ids_ d).

Lemma read_le_nonneg n p x : Forall byte_ok p -> read_le n p = Done x -> 0 <= x.
Proof.
  intros Hp H. apply (post_result _ _ _ (post_read_le _ _)) in H as [-> _]. by apply of_le_nonneg, Forall_take.
Qed.

Lemma type_list_items_ok l n limit : Forall byte_ok l -> TypeList_Size l = Done n ->
  (forall i, 0 <= i < n -> exists t, GetTypeItem l i = Done t /\ t < limit) ->
  Z.of_nat (length (type_list_items l)) = n /\
  (forall i t, type_list_items l !! i = Some t -> GetTypeItem l (Z.of_nat i) = Done t) /\
  Forall (fun t => 0 <= t < limit) (type_list_items l).
Proof.
  intros Hb Hn Hi. apply read_le_nonneg in Hn as Hn0; [|done].
  assert (forall i t, type_list_items l !! i = Some t -> GetTypeItem l (Z.of_nat i) = Done t /\ 0 <= t < limit) as H.
  { unfold type_list_items. rewrite Hn. intros i t. rewrite list_lookup_fmap_Some.
    intros (k & -> & [-> Hk]%lookup_seq). destruct (Hi (Z.of_nat (0 + i)) ltac:(lia)) as (u & Eu & Hu). rewrite Eu in *.
    split; [done|]. split; [|done]. eapply read_le_nonneg; [|exact Eu]. by apply Forall_drop. }
  split; [|split; [intros; by apply H|apply Forall_lookup; intros; by eapply H]].
  unfold type_list_items. rewrite Hn, length_map, length_seq. lia.
Qed.

(** Two lists in their order, or the second a prefix of the first. *)
Definition ordered_or_prefix (s t : list Z) : Prop := compareTo s t < 0 \/ t `prefix_of` s.

Lemma ordered_cons c s t : ordered_or_prefix s t -> ordered_or_prefix (c :: s) (c :: t).
Proof. intros [H|H]; [left; cbn; by rewrite Z.eqb_refl|right; by apply prefix_cons]. Qed.
Lemma ordered_less c d s t : c < d -> ordered_or_prefix (c :: s) (d :: t).
Proof. intros H. left. cbn. case_match; lia. Qed.

Lemma param_order_ok prev curr fuel : forall pos ps cs,
  check_param_order fuel prev curr (Z.of_nat (length ps)) (Z.of_nat (length cs)) (Z.of_nat pos) = Done true ->
  (forall i t, ps !! i = Some t -> GetTypeItem prev (Z.of_nat i) = Done t) ->
  (forall i t, cs !! i = Some t -> GetTypeItem curr (Z.of_nat i) = Done t) ->
  Forall (fun t => t < Catch.kDexNoIndex16) ps -> ordered_or_prefix (drop pos ps) (drop pos cs).
Proof.
  induction fuel as [|fuel IH]; intros pos ps cs H Hp Hc Hn; cbn [check_param_order] in H;
    (destruct (Z.ltb_spec (Z.of_nat pos) (Z.of_nat (length cs))) as [Hlc|];
      [|right; rewrite (drop_ge cs) by lia; apply prefix_nil]);
    (destruct (Z.ltb_spec (Z.of_nat pos) (Z.of_nat (length ps))) as [Hlp|];
      [|left; rewrite (drop_ge ps) by lia; destruct (drop pos cs) eqn:E; [|done];
        apply (f_equal length) in E; rewrite length_drop in E; cbn in E; lia]); cbn [andb] in H; [done|].
  destruct (lookup_lt_is_Some_2 ps pos ltac:(lia)) as [p Ep]. destruct (lookup_lt_is_Some_2 cs pos ltac:(lia)) as [c Ec].
  rewrite (Hp _ _ Ep), (Hc _ _ Ec) in H. cbn [mbind cres_bind] in H.
  pose proof (Forall_lookup_1 _ _ _ _ Hn Ep) as Hnp. cbn beta in Hnp.
  rewrite (drop_S ps p pos Ep), (drop_S cs c pos Ec). rewrite (proj2 (Z.eqb_neq p _)) in H by lia.
  destruct (c =? Catch.kDexNoIndex16); [done|]. destruct (Z.ltb_spec p c); [by apply ordered_less|].
  destruct (Z.ltb_spec c p); [done|]. assert (p = c) as -> by lia. apply ordered_cons.
  apply (IH (S pos)); [|done..]. rewrite <- H. f_equal. lia.
Qed.

Lemma of_le_bound l : Forall byte_ok l -> 0 <= of_le l < 2 ^ (8 * Z.of_nat (length l)).
Proof.
  induction 1 as [|b l Hb _ IH]; cbn [of_le length]; [done|]. unfold byte_ok, in_u in Hb.
  replace (8 * Z.of_nat (S (length l))) with (8 + 8 * Z.of_nat (length l)) by lia. rewrite Z.pow_add_r by lia. lia.
Qed.
Lemma u32_at_range p off : Forall byte_ok p -> 0 <= u32_at p off < 2 ^ 32.
Proof.
  intros Hp. pose proof (of_le_bound (take 4 (drop off p)) ltac:(by apply Forall_take, Forall_drop)) as H.
  unfold u32_at. rewrite length_take in H. split; [lia|].
  eapply Z.lt_le_trans; [apply H|]. apply Z.pow_le_mono_r; lia.
Qed.
Lemma u16_at_range p off : Forall byte_ok p -> 0 <= u16_at p off < 2 ^ 16.
Proof.
  intros Hp. pose proof (of_le_bound (take 2 (drop off p)) ltac:(by apply Forall_take, Forall_drop)) as H.
  unfold u16_at. rewrite length_take in H. split; [lia|].
  eapply Z.lt_le_trans; [apply H|]. apply Z.pow_le_mono_r; lia.
Qed.

Section File.
Context (begin : list Z) (Hbytes : Forall byte_ok begin) (adler32 : Z -> option (list Z) -> Z) (sg : bool).
Context (h : Header) (Hh : read_Header begin = Done h).
Local Abbreviation d := (make_DexFile begin h).
Context (Hv : Verify begin adler32 sg h d = Done true) (Hal : tables_aligned h).

Lemma expected_range type off count : type ∈ ID_TYPES -> expected_section h type = Some (off, count) ->
  0 <= off /\ 0 <= count.
Proof.
  unfold read_Header in Hh. destruct (_ <? _); [done|]. injection Hh as <-.
  assert (forall off, 0 <= u32_at begin off) by (intros; by apply u32_at_range).
  revert type. refine (id_type_cases _ _ _ _ _ _ _); cbn; intros; simplify_eq; auto.
Qed.

(** What the passes have found: the sections from [lo k] to [hi k] one after the
    other, and the types of the items. *)
Record accepted_file (n : Z) (lo hi : Z -> Z) (v : Verifier) : Prop := {
  acc_map : CheckMap begin h = Done true;
  acc_count : map_count begin h = Done n;
  acc_size : size_ begin < 2 ^ 32;
  acc_header : header_size_ h = HEADER_SIZE;
  acc_first : check_intra_sections begin h (Z.to_nat n) 0 0 (set_ptr new_Verifier 0) = Done (Some v);
  acc_items : items_ok begin h (offset_to_type_map_ v);
  acc_sections : forall k, 0 <= k < n ->
    section_passed begin h k (lo k) (hi k) /\ 0 <= lo k <= hi k /\ forall k', 0 <= k' < k -> hi k' <= lo k;
  acc_second : exists v', check_inter_sections begin sg h d (Z.to_nat n) 0 v = Done (Some v')
}.

Lemma verify_accepts : exists n lo hi v, accepted_file n lo hi v.
Proof.
  pose proof Hv as H. unfold Verify in H. done_inv H. subst.
  assert (size_ begin < 2 ^ 32 /\ header_size_ h = HEADER_SIZE /\ HEADER_SIZE <= size_ begin) as (Hs & Hz & Hl).
  { unfold CheckHeader in B. rewrite !andb_true_iff, !Z.eqb_eq in B.
    destruct B as ((((((((((((Hf & _) & _) & Hz) & _) & _) & _) & _) & _) & _) & _) & _) & _).
    unfold read_Header in Hh. destruct (Z.ltb_spec (Z.of_nat (length begin)) HEADER_SIZE) as [|Hl]; [done|].
    unfold size_ in *. split; [|by split]. injection Hh as <-. cbn in Hf. pose proof (u32_at_range begin 32 Hbytes). lia. }
  unfold CheckIntraSection in E0. apply bind_Done in E0 as (n & Hc & Hi).
  unfold CheckInterSection in E1. rewrite Hc in E1. cbn [mbind cres_bind] in E1.
  pose proof (map_count_nonneg _ Hbytes _ _ Hc) as Hc0.
  apply intra_sections_ok in Hi as Hi'; [|done|done|by rewrite Hz|by rewrite Hz|done|apply at_item_start].
  destruct Hi' as (Hok & lo & hi & Hpass).
  exists n, lo, hi, v. split; try done; [|eauto]. intros k Hk. apply Hpass. lia.
Qed.

Section Accepted.
Context (n : Z) (lo hi : Z -> Z) (v : Verifier) (Hacc : accepted_file n lo hi v).

(** The section of a table, and of the header. *)
Lemma table_section type off count : type ∈ ID_TYPES -> expected_section h type = Some (off, count) -> count <> 0 ->
  exists k item, 0 <= k < n /\ map_item begin h k = Done item /\ map_type_ item = type /\ map_offset_ item = off /\
    map_size_ item = count /\ lo k = off /\ hi k = off + count * id_size type /\ hi k <= size_ begin.
Proof.
  intros Ht He Hn. destruct Hacc as [Hm Hc _ _ _ _ Hsec _].
  destruct (map_has_section _ Hbytes _ Hm _ type Hc) as (k & item & Hk & Hi & <-); [eauto 10|].
  destruct (Hsec k Hk) as (Hp & _ & _).
  destruct (table_section_inside begin h k _ _ item off count Hp Hi Ht He) as (? & ? & ? & Hin).
  destruct Hin as [? ?]; [by eapply expected_aligned|by eapply expected_range|]. by exists k, item.
Qed.

Lemma header_first : exists k item, 0 <= k < n /\ map_item begin h k = Done item /\ map_type_ item = kDexTypeHeaderItem /\
  lo k = 0 /\ hi k = HEADER_SIZE.
Proof.
  destruct Hacc as [Hm Hc _ Hz _ _ Hsec _].
  destruct (map_has_section _ Hbytes _ Hm _ kDexTypeHeaderItem Hc) as (k & item & Hk & Hi & Ht); [by left|].
  destruct (Hsec k Hk) as (Hp & _ & _). destruct (header_section _ _ _ _ _ _ Hp Hi Ht). rewrite <- Hz. by exists k, item.
Qed.

(** Two sections do not overlap. *)
Lemma sections_disjoint k k' item item' : 0 <= k < n -> 0 <= k' < n -> map_item begin h k = Done item ->
  map_item begin h k' = Done item' -> map_type_ item <> map_type_ item' -> hi k <= lo k' \/ hi k' <= lo k.
Proof.
  intros Hk Hk' Hi Hi' Hne. destruct Hacc as [_ _ _ _ _ _ Hsec _].
  destruct (Z.lt_trichotomy k k') as [Hlt|[->|Hlt]]; [left|congruence|right].
  - apply (Hsec k'); lia.
  - apply (Hsec k); lia.
Qed.
(** The sections of the tables lie in the file and have passed both passes. *)
Lemma tables_pass type off count : type ∈ ID_TYPES -> expected_section h type = Some (off, count) -> count <> 0 ->
  off + count * id_size type <= size_ begin /\
  exists w w', offset_to_type_map_ w = offset_to_type_map_ v /\
    CheckInterSectionIterate begin sg h d off count type w = Done (Some w').
Proof.
  intros Ht He Hn. destruct (table_section type off count Ht He Hn) as (k & item & Hk & Hi & <- & <- & <- & _ & Hh' & Hin).
  split; [lia|]. destruct (acc_second _ _ _ _ Hacc) as [v' Hsec].
  apply (inter_sections_passed _ _ _ _ _ _ _ _ Hsec k item); [lia|done|by apply intra_only_not_id].
Qed.
End Accepted.

(** What [tables_pass] gives. *)
Context (types : gmap Z Z) (Hok : items_ok begin h types) (Hsize : size_ begin < 2 ^ 32).
Context (Hpass : forall type off count, type ∈ ID_TYPES -> expected_section h type = Some (off, count) -> count <> 0 ->
  off + count * id_size type <= size_ begin /\
  exists w w', offset_to_type_map_ w = types /\ CheckInterSectionIterate begin sg h d off count type w = Done (Some w')).

(** The bytes of entry [i] of a table. *)
Definition entry_at (type off : Z) (i : nat) : list Z := bytes_at begin (off + Z.of_nat i * id_size type).

Lemma table_count {A} (parse : list Z -> A) type off count :
  type ∈ ID_TYPES -> expected_section h type = Some (off, count) ->
  length (table_at begin (id_size type) parse off count) = Z.to_nat count /\ count * id_size type <= size_ begin.
Proof.
  intros Ht He. destruct (expected_range type off count Ht He). destruct (id_size_ok type Ht) as [Hs _].
  destruct (Z.eq_dec count 0) as [->|Hn]; [split; [done|unfold size_; lia]|].
  destruct (Hpass type off count Ht He Hn) as [Hin _]. split; [|lia].
  apply full_table_length; [lia|]. rewrite length_drop. unfold size_ in Hin. lia.
Qed.

Lemma table_entry_passed {A} (parse : list Z -> A) type off count i x :
  type ∈ ID_TYPES -> expected_section h type = Some (off, count) ->
  table_at begin (id_size type) parse off count !! i = Some x ->
  read_struct (id_size type) parse (entry_at type off i) = Done x /\ entry_passed begin sg h d type off types i.
Proof.
  intros Ht He Hx. destruct (table_count parse type off count Ht He) as [Hl _].
  pose proof (lookup_lt_Some _ _ _ Hx) as Hi. rewrite Hl in Hi. destruct (id_size_ok type Ht) as [Hs Hs4].
  destruct (expected_range type off count Ht He).
  destruct (Hpass type off count Ht He ltac:(lia)) as (Hin & w & w' & Hw & Hit). unfold size_ in Hin.
  unfold table_at in Hx. rewrite table_lookup in Hx; [|lia|rewrite length_drop; lia|lia]. injection Hx as <-.
  rewrite drop_drop. unfold entry_at, bytes_at, read_struct.
  replace (Z.to_nat (off + Z.of_nat i * id_size type)) with (Z.to_nat off + i * Z.to_nat (id_size type))%nat by lia.
  rewrite length_drop, (proj2 (Z.ltb_ge _ _)) by nia. split; [done|]. rewrite <- Hw.
  unfold CheckInterSectionIterate in Hit.
  apply (inter_items_passed _ _ _ _ _ off (Z.to_nat count) Ht (expected_aligned h type off count Hal Ht He) 0
    (mkVerifier (v_ptr w) None (offset_to_type_map_ w) (defined_classes_ w)) w'); [done| |lia].
  by rewrite Z.add_0_r.
Qed.

(** The check of an entry, with the entry before it. *)
Lemma table_entry {A} (parse : list Z -> A) type off count i x :
  type ∈ ID_TYPES -> expected_section h type = Some (off, count) ->
  table_at begin (id_size type) parse off count !! i = Some x ->
  exists v v', read_struct (id_size type) parse (bytes_at begin (v_ptr v)) = Done x /\ offset_to_type_map_ v = types /\
    check_inter_item begin sg h d type v = Done (Some v') /\
    forall j y, i = S j -> table_at begin (id_size type) parse off count !! j = Some y ->
      exists q, previous_item_ v = Some q /\ read_struct (id_size type) parse (bytes_at begin q) = Done y.
Proof.
  intros Ht He Hx. destruct (table_entry_passed parse type off count i x Ht He Hx) as (Hr & v & v' & Hp & Hq & Hty & H).
  exists v, v'. rewrite Hp. split; [done|]. split; [done|]. split; [done|]. intros j y -> Hy.
  eexists. split; [done|]. by apply (table_entry_passed parse type off count j y Ht He).
Qed.

(** ** Strings *)

Definition string_at_offset (off : Z) (s : list Z) : Prop :=
  Forall (in_u 16) s /\ exists rest, DecodeUnsignedLeb128 (at_offset d off) = Done (Z.of_nat (length s), utf8z s rest).

Lemma string_item off : types !! off = Some kDexTypeStringDataItem -> exists s, string_at_offset off s.
Proof.
  intros (_ & p & H & _)%Hok. cbv [check_intra_item] in H. apply bind_Done in H as ([rest|] & E & H); [|done].
  apply string_data_iff in E as (s & Hs & Hd); [|by apply Forall_drop]. exists s. split; [done|]. by exists rest.
Qed.

Lemma string_entry i off : string_ids_ d !! i = Some off ->
  types !! off = Some kDexTypeStringDataItem /\
  forall j prev, i = S j -> string_ids_ d !! j = Some prev -> exists p q c,
    GetStringData d prev = Done p /\ GetStringData d off = Done q /\
    CompareModifiedUtf8ToModifiedUtf8AsUtf16CodePointValues sg p q = Done c /\ c < 0.
Proof.
  intros Ho. destruct (table_entry parse_StringId kDexTypeStringIdItem _ _ i off ltac:(decide_mem) eq_refl Ho)
    as (v & v' & Hr & Hty & H & Hprev).
  change (CheckInterStringIdItem begin sg d v = Done (Some v')) in H. unfold CheckInterStringIdItem in H.
  change (id_size kDexTypeStringIdItem) with STRING_ID_SIZE in *. rewrite Hr in H. cbn [mbind cres_bind] in H. split.
  - done_inv H. unfold CheckOffsetToTypeMap in B. rewrite Hty in B. destruct (types !! off); [|done]. f_equal. lia.
  - intros j prev -> Hj. destruct (Hprev j prev eq_refl Hj) as (q & Hq & Hrq). rewrite Hq, Hrq in H.
    done_inv H. cbn [mbind cres_bind] in E. done_inv E. subst. done_inv B0. eauto 10 with lia.
Qed.

Lemma strings_exist : exists strs, Forall2 string_at_offset (string_ids_ d) strs.
Proof.
  assert (Forall (fun off => exists s, string_at_offset off s) (string_ids_ d)) as H.
  { apply Forall_lookup. intros i off Ho. by apply string_item, (string_entry i off). }
  induction H as [|off l [s Hs] _ [strs IH]]; [by exists []|]. exists (s :: strs). by constructor.
Qed.

Context (strs : list (list Z)) (Hstrs : Forall2 string_at_offset (string_ids_ d) strs).

Lemma string_lookup i off s : string_ids_ d !! i = Some off -> strs !! i = Some s ->
  Forall (in_u 16) s /\ exists rest, GetStringData d off = Done (utf8z s rest) /\
    DecodeUnsignedLeb128 (at_offset d off) = Done (Z.of_nat (length s), utf8z s rest).
Proof.
  intros Ho Hs. destruct (Forall2_lookup_lr _ _ _ _ _ _ Hstrs Ho Hs) as [Hu [rest Hd]]. split; [done|]. exists rest.
  split; [|done]. unfold GetStringData, GetStringDataAndUtf16Length. by rewrite Hd.
Qed.

Lemma strings_sorted : sorted_keys strs.
Proof.
  apply sorted_by_neighbours. intros i s t Hs Ht.
  destruct (Forall2_lookup_r _ _ _ _ _ Hstrs Hs) as (po & Hpo & _).
  destruct (Forall2_lookup_r _ _ _ _ _ Hstrs Ht) as (off & Ho & _).
  destruct (string_lookup _ _ _ Hpo Hs) as (Hsu & r1 & Eg1 & _). destruct (string_lookup _ _ _ Ho Ht) as (Htu & r2 & Eg2 & _).
  destruct (string_entry _ _ Ho) as [_ Hcmp]. destruct (Hcmp i po eq_refl Hpo) as (p & q & c & Ep & Eq & Ec & Hc).
  rewrite Eg1 in Ep. rewrite Eg2 in Eq. injection Ep as <-. injection Eq as <-. rewrite compare_utf8_ok in Ec by done.
  by injection Ec as <-.
Qed.

Lemma table_num {A} (parse : list Z -> A) type off count :
  type ∈ ID_TYPES -> expected_section h type = Some (off, count) ->
  NumIds (table_at begin (id_size type) parse off count) = count /\ count * id_size type <= size_ begin.
Proof.
  intros Ht He. destruct (table_count parse type off count Ht He) as [Hl Hs]. destruct (expected_range type off count Ht He).
  split; [|done]. unfold NumIds. rewrite Hl. lia.
Qed.
Lemma string_count : NumIds (string_ids_ d) = string_ids_size_ h /\ string_ids_size_ h * 4 <= size_ begin.
Proof. apply (table_num parse_StringId kDexTypeStringIdItem _ _ ltac:(decide_mem) eq_refl). Qed.
Lemma type_count : NumIds (type_ids_ d) = type_ids_size_ h /\ type_ids_size_ h * 4 <= size_ begin.
Proof. apply (table_num parse_TypeId kDexTypeTypeIdItem _ _ ltac:(decide_mem) eq_refl). Qed.
Lemma proto_count : NumIds (proto_ids_ d) = proto_ids_size_ h /\ proto_ids_size_ h * 12 <= size_ begin.
Proof. apply (table_num parse_ProtoId kDexTypeProtoIdItem _ _ ltac:(decide_mem) eq_refl). Qed.
Lemma field_count : NumIds (field_ids_ d) = field_ids_size_ h /\ field_ids_size_ h * 8 <= size_ begin.
Proof. apply (table_num parse_FieldId kDexTypeFieldIdItem _ _ ltac:(decide_mem) eq_refl). Qed.
Lemma method_count : NumIds (method_ids_ d) = method_ids_size_ h /\ method_ids_size_ h * 8 <= size_ begin.
Proof. apply (table_num parse_MethodId kDexTypeMethodIdItem _ _ ltac:(decide_mem) eq_refl). Qed.
Lemma class_count : NumIds (class_defs_ d) = class_defs_size_ h /\ class_defs_size_ h * 32 <= size_ begin.
Proof. apply (table_num parse_ClassDef kDexTypeClassDefItem _ _ ltac:(decide_mem) eq_refl). Qed.

Lemma load_string idx p : 0 <= idx -> CheckLoadStringByIdx h d idx = Done (Some p) ->
  idx < NumIds (string_ids_ d) /\ StringDataByIdx d idx = Done (Some p) /\
  exists s rest, strs !! Z.to_nat idx = Some s /\ Forall (in_u 16) s /\ p = utf8z s rest.
Proof.
  intros H0 H. unfold CheckLoadStringByIdx in H. rewrite (proj1 string_count). done_inv H. unfold CheckIndex in B.
  split; [lia|]. split; [done|]. unfold StringDataByIdx in H. done_inv H. subst.
  unfold entry in E. destruct (string_ids_ d !! Z.to_nat idx) as [off|] eqn:Ho; [|done]. injection E as <-.
  destruct (Forall2_lookup_l _ _ _ _ _ Hstrs Ho) as (s & Hs & _).
  destruct (string_lookup _ _ _ Ho Hs) as (Hu & rest & Eg & _). exists s, rest. rewrite Eg in E0. by injection E0 as <-.
Qed.

(** ** Types *)

Lemma read_struct_parse {A} sz (parse : list Z -> A) p x : read_struct sz parse p = Done x -> x = parse p.
Proof. unfold read_struct. case_match; [done|]. by injection 1. Qed.

Lemma type_entry i t : type_ids_ d !! i = Some t ->
  0 <= t < NumIds (string_ids_ d) /\ (exists s, strs !! Z.to_nat t = Some s /\ descriptor s /\ Forall (in_u 16) s) /\
  forall j prev, i = S j -> type_ids_ d !! j = Some prev -> prev < t.
Proof.
  intros Hi. destruct (table_entry parse_TypeId kDexTypeTypeIdItem _ _ i t ltac:(decide_mem) eq_refl Hi)
    as (v & v' & Hr & Hty & H & Hprev).
  change (CheckInterTypeIdItem begin h d v = Done (Some v')) in H. unfold CheckInterTypeIdItem in H.
  change (id_size kDexTypeTypeIdItem) with TYPE_ID_SIZE in *. rewrite Hr in H. cbn [mbind cres_bind] in H.
  assert (0 <= t) as Ht0.
  { apply read_struct_parse in Hr as ->. apply u32_at_range. by apply Forall_drop. }
  clear Hty. done_inv H. subst. destruct (load_string t _ Ht0 E) as (Hlt & _ & s & rest & Hs & Hu & ->).
  destruct (descriptor_ok s rest Hu) as (b & Eb & Hb). rewrite Eb in E0. injection E0 as ->.
  split; [lia|]. split; [exists s; split; [done|]; split; [by apply Hb|done]|].
  intros j prev -> Hj. destruct (Hprev j prev eq_refl Hj) as (q & Hq & Hrq). rewrite Hq, Hrq in E1.
  cbn [mbind cres_bind] in E1. injection E1 as E1. lia.
Qed.

Lemma types_sorted : sorted_keys (type_keys d).
Proof.
  apply sorted_by_neighbours. intros i s t Hs Ht. unfold type_keys in *.
  apply list_lookup_fmap_Some in Hs as (x & -> & Hx), Ht as (y & -> & Hy).
  destruct (type_entry _ _ Hy) as (_ & _ & Ho). specialize (Ho i x eq_refl Hx). cbn. case_match; lia.
Qed.

Lemma load_type idx p : 0 <= idx -> CheckLoadStringByTypeIdx h d idx = Done (Some p) -> idx < NumIds (type_ids_ d).
Proof. intros H0 H. unfold CheckLoadStringByTypeIdx in H. rewrite (proj1 type_count). done_inv H. unfold CheckIndex in B. lia. Qed.

(** ** Fields, methods and classes *)

Lemma ascending_key_iff a b c a' b' c' : ascending_key a b c a' b' c' = true -> compareTo [a; b; c] [a'; b'; c'] < 0.
Proof.
  unfold ascending_key. cbn. intros H.
  destruct (Z.ltb_spec a' a); [done|]. destruct (Z.eqb_spec a a'); [|lia].
  destruct (Z.ltb_spec b' b); [done|]. destruct (Z.eqb_spec b b'); [|lia]. destruct (Z.eqb_spec c c'); lia.
Qed.

Lemma fields_sorted : sorted_keys (map field_key (field_ids_ d)).
Proof.
  apply sorted_by_neighbours. intros i s t Hs Ht.
  apply list_lookup_fmap_Some in Hs as (x & -> & Hx), Ht as (y & -> & Hy).
  destruct (table_entry parse_FieldId kDexTypeFieldIdItem _ _ _ y ltac:(decide_mem) eq_refl Hy)
    as (v & v' & Hr & Hty & H & Hprev).
  change (CheckInterFieldIdItem begin h d v = Done (Some v')) in H. unfold CheckInterFieldIdItem in H.
  change (id_size kDexTypeFieldIdItem) with FIELD_ID_SIZE in *. rewrite Hr in H. cbn [mbind cres_bind] in H.
  destruct (Hprev i x eq_refl Hx) as (q & Hq & Hrq). rewrite Hq, Hrq in H. done_inv H.
  apply ascending_key_iff. cbn [mbind cres_bind] in *. congruence.
Qed.
Lemma methods_sorted : sorted_keys (map method_key (method_ids_ d)).
Proof.
  apply sorted_by_neighbours. intros i s t Hs Ht.
  apply list_lookup_fmap_Some in Hs as (x & -> & Hx), Ht as (y & -> & Hy).
  destruct (table_entry parse_MethodId kDexTypeMethodIdItem _ _ _ y ltac:(decide_mem) eq_refl Hy)
    as (v & v' & Hr & Hty & H & Hprev).
  change (CheckInterMethodIdItem begin h d v = Done (Some v')) in H. unfold CheckInterMethodIdItem in H.
  change (id_size kDexTypeMethodIdItem) with METHOD_ID_SIZE in *. rewrite Hr in H. cbn [mbind cres_bind] in H.
  destruct (Hprev i x eq_refl Hx) as (q & Hq & Hrq). rewrite Hq, Hrq in H. done_inv H.
  apply ascending_key_iff. cbn [mbind cres_bind] in *. congruence.
Qed.

(** A string of the file. *)
Definition readable (m : cres (option (list Z))) : Prop :=
  exists s rest, m = Done (Some (utf8z s rest)) /\ Forall (in_u 16) s.

Lemma load_readable idx p : 0 <= idx -> CheckLoadStringByIdx h d idx = Done (Some p) -> readable (StringDataByIdx d idx).
Proof. intros H0 H. destruct (load_string idx p H0 H) as (_ & E & s & rest & _ & Hs & ->). rewrite E. by exists s, rest. Qed.

Lemma type_readable i t : type_ids_ d !! i = Some t -> readable (StringDataByIdx d t).
Proof.
  intros Hi. destruct (type_entry i t Hi) as (Ht & (s & Hs & _) & _). pose proof string_count as [Hn Hl].
  unfold StringDataByIdx. rewrite (proj2 (Z.eqb_neq _ _)) by (unfold kDexNoIndex; lia). unfold entry, NumIds in *.
  destruct (lookup_lt_is_Some_2 (string_ids_ d) (Z.to_nat t) ltac:(lia)) as [off Ho]. rewrite Ho. cbn [deref mbind cres_bind].
  destruct (string_lookup _ _ _ Ho Hs) as (Hu & rest & -> & _). by exists s, rest.
Qed.

Lemma field_entry i f : field_ids_ d !! i = Some f -> 0 <= field_class_idx_ f < NumIds (type_ids_ d).
Proof.
  intros Hi. destruct (table_entry parse_FieldId kDexTypeFieldIdItem _ _ i f ltac:(decide_mem) eq_refl Hi)
    as (v & v' & Hr & _ & H & _).
  change (CheckInterFieldIdItem begin h d v = Done (Some v')) in H. unfold CheckInterFieldIdItem in H.
  change (id_size kDexTypeFieldIdItem) with FIELD_ID_SIZE in *. rewrite Hr in H. cbn [mbind cres_bind] in H.
  apply read_struct_parse in Hr. assert (0 <= field_class_idx_ f) by (rewrite Hr; apply u16_at_range; by apply Forall_drop).
  apply bind_Done in H as ([p|] & E & H); [|done]. split; [done|]. by eapply load_type.
Qed.

Lemma method_entry i m : method_ids_ d !! i = Some m ->
  0 <= method_class_idx_ m < NumIds (type_ids_ d) /\ 0 <= method_proto_idx_ m < NumIds (proto_ids_ d) /\
  readable (StringDataByIdx d (method_name_idx_ m)).
Proof.
  intros Hi. destruct (table_entry parse_MethodId kDexTypeMethodIdItem _ _ i m ltac:(decide_mem) eq_refl Hi)
    as (v & v' & Hr & _ & H & _).
  change (CheckInterMethodIdItem begin h d v = Done (Some v')) in H. unfold CheckInterMethodIdItem in H.
  change (id_size kDexTypeMethodIdItem) with METHOD_ID_SIZE in *. rewrite Hr in H. cbn [mbind cres_bind] in H.
  apply read_struct_parse in Hr.
  assert (0 <= method_class_idx_ m) by (rewrite Hr; apply u16_at_range; by apply Forall_drop).
  assert (0 <= method_proto_idx_ m) by (rewrite Hr; apply u16_at_range; by apply Forall_drop).
  assert (0 <= method_name_idx_ m) by (rewrite Hr; apply u32_at_range; by apply Forall_drop).
  clear Hr. done_inv H. subst. split; [split; [done|by eapply load_type]|]. unfold CheckIndex in *.
  rewrite (proj1 proto_count). split; [lia|by eapply load_readable].
Qed.

Lemma proto_shorty i proto : proto_ids_ d !! i = Some proto -> readable (StringDataByIdx d (shorty_idx_ proto)).
Proof.
  intros Hi. destruct (table_entry parse_ProtoId kDexTypeProtoIdItem _ _ i proto ltac:(decide_mem) eq_refl Hi)
    as (v & v' & Hr & _ & H & _).
  change (CheckInterProtoIdItem begin h d v = Done (Some v')) in H. unfold CheckInterProtoIdItem in H.
  change (id_size kDexTypeProtoIdItem) with PROTO_ID_SIZE in *. rewrite Hr in H. cbn [mbind cres_bind] in H.
  apply read_struct_parse in Hr. apply bind_Done in H as ([p|] & E & H); [|done].
  eapply load_readable; [|done]. rewrite Hr. apply u32_at_range. by apply Forall_drop.
Qed.

Lemma class_items_unique off n : off mod 4 = 0 -> forall k v v',
  check_inter_items begin sg h d n (off + Z.of_nat k * CLASS_DEF_SIZE) kDexTypeClassDefItem v = Done (Some v') ->
  (forall j, (j < k)%nat -> class_idx_ (parse_ClassDef (bytes_at begin (off + Z.of_nat j * CLASS_DEF_SIZE))) ∈ defined_classes_ v) ->
  forall i j, (i < j)%nat -> (k <= j < k + n)%nat ->
    class_idx_ (parse_ClassDef (bytes_at begin (off + Z.of_nat i * CLASS_DEF_SIZE))) <>
    class_idx_ (parse_ClassDef (bytes_at begin (off + Z.of_nat j * CLASS_DEF_SIZE))).
Proof.
  assert (kDexTypeClassDefItem ∈ ID_TYPES) as Ht by decide_mem.
  intros Ho. induction n as [|n IH]; intros k v v' H Hdef i j Hij Hj; cbn [check_inter_items] in H; [lia|].
  rewrite (inter_align kDexTypeClassDefItem off _ Ht Ho) in H. apply bind_Done in H as ([w|] & E & H); [|done].
  pose proof (inter_item_ptr _ _ _ _ _ _ _ Ht E) as Hptr. cbn [v_ptr set_ptr] in Hptr.
  change (id_size kDexTypeClassDefItem) with CLASS_DEF_SIZE in *.
  change (CheckInterClassDefItem begin h d (set_ptr v (off + Z.of_nat k * CLASS_DEF_SIZE)) = Done (Some w)) in E.
  unfold CheckInterClassDefItem in E. apply bind_Done in E as (c & Ec & E). apply read_struct_parse in Ec.
  cbn [v_ptr set_ptr defined_classes_] in *. case_bool_decide as Hc; [done|].
  assert (defined_classes_ w = {[class_idx_ c]} ∪ defined_classes_ v) as Hw by (done_inv E; by subst).
  destruct (decide (j = k)) as [->|Hne].
  - intros Heq. rewrite <- Ec in Heq. apply Hc. rewrite <- Heq. by apply Hdef.
  - rewrite Hptr in H.
    replace (off + Z.of_nat k * CLASS_DEF_SIZE + CLASS_DEF_SIZE) with (off + Z.of_nat (S k) * CLASS_DEF_SIZE) in H
      by (unfold CLASS_DEF_SIZE; lia).
    apply (IH (S k) _ _ H); [|done|lia]. cbn [defined_classes_]. rewrite Hw. intros m Hm.
    destruct (decide (m = k)) as [->|]; [rewrite <- Ec; by apply elem_of_union_l, elem_of_singleton|]. apply elem_of_union_r, Hdef. lia.
Qed.

Lemma class_entry i c : class_defs_ d !! i = Some c -> 0 <= class_idx_ c < NumIds (type_ids_ d).
Proof.
  intros Hi. destruct (table_entry parse_ClassDef kDexTypeClassDefItem _ _ i c ltac:(decide_mem) eq_refl Hi)
    as (v & v' & Hr & _ & H & _).
  change (CheckInterClassDefItem begin h d v = Done (Some v')) in H. unfold CheckInterClassDefItem in H.
  change (id_size kDexTypeClassDefItem) with CLASS_DEF_SIZE in *. rewrite Hr in H. cbn [mbind cres_bind] in H.
  apply read_struct_parse in Hr. assert (0 <= class_idx_ c) as H0.
  { rewrite Hr. apply u16_at_range. by apply Forall_drop. }
  split; [done|]. case_bool_decide; [done|]. apply bind_Done in H as ([p|] & E & H); [|done]. by eapply load_type.
Qed.

Lemma classes_unique : NoDup (map class_idx_ (class_defs_ d)).
Proof.
  assert (kDexTypeClassDefItem ∈ ID_TYPES) as Ht by decide_mem.
  apply NoDup_alt. intros i j x Hi Hj. apply list_lookup_fmap_Some in Hi as (c & -> & Hc), Hj as (c' & Hx & Hc').
  destruct (table_count parse_ClassDef kDexTypeClassDefItem _ _ Ht eq_refl) as [Hl _].
  change (id_size kDexTypeClassDefItem) with CLASS_DEF_SIZE in *.
  pose proof (lookup_lt_Some _ _ _ Hc) as Hil. pose proof (lookup_lt_Some _ _ _ Hc') as Hjl. cbn in Hil, Hjl. rewrite Hl in Hil, Hjl.
  destruct (Hpass kDexTypeClassDefItem _ _ Ht eq_refl ltac:(lia)) as (_ & w & w' & _ & Hit).
  unfold CheckInterSectionIterate in Hit.
  destruct (table_entry_passed parse_ClassDef _ _ _ _ _ Ht eq_refl Hc) as [Hr _].
  destruct (table_entry_passed parse_ClassDef _ _ _ _ _ Ht eq_refl Hc') as [Hr' _].
  apply read_struct_parse in Hr, Hr'. unfold entry_at in Hr, Hr'. change (id_size kDexTypeClassDefItem) with CLASS_DEF_SIZE in *.
  assert (forall m n, (m < n)%nat -> (n < Z.to_nat (class_defs_size_ h))%nat ->
    class_idx_ (parse_ClassDef (bytes_at begin (class_defs_off_ h + Z.of_nat m * CLASS_DEF_SIZE))) <>
    class_idx_ (parse_ClassDef (bytes_at begin (class_defs_off_ h + Z.of_nat n * CLASS_DEF_SIZE)))) as Hu.
  { intros m n Hmn Hn.
    apply (class_items_unique (class_defs_off_ h) (Z.to_nat (class_defs_size_ h))) with (k := O) (v := mkVerifier (v_ptr w) None (offset_to_type_map_ w) (defined_classes_ w)) (v' := w');
      [by eapply (expected_aligned h kDexTypeClassDefItem)|by rewrite Z.add_0_r|lia|done|lia]. }
  rewrite Hr, Hr' in Hx. destruct (lt_eq_lt_dec i j) as [[Hlt| ->]|Hlt]; [|done|]; [by destruct (Hu i j)|by destruct (Hu j i)].
Qed.

Lemma classes_num : NumIds (class_defs_ d) <= type_ids_size_ h.
Proof.
  pose proof (proj1 type_count) as Ht. unfold NumIds in *.
  assert (length (map class_idx_ (class_defs_ d)) <= length (map Z.of_nat (seq 0 (Z.to_nat (type_ids_size_ h)))))%nat as Hl.
  { apply List.NoDup_incl_length; [apply NoDup_ListNoDup, classes_unique|]. intros x Hx. apply list_elem_of_In in Hx.
    apply list_elem_of_lookup in Hx as [i Hx]. apply list_lookup_fmap_Some in Hx as (c & -> & Hc).
    pose proof (class_entry i c Hc) as Hi. unfold NumIds in Hi.
    apply in_map_iff. exists (Z.to_nat (class_idx_ c)). split; [lia|]. apply in_seq. lia. }
  rewrite !length_map, length_seq in Hl. lia.
Qed.

(** ** Prototypes *)

Lemma check_shorty_params l size : forall shorty pos, check_shorty h d l size pos shorty = Done true ->
  forall i, pos <= i < size -> exists t, GetTypeItem l i = Done t /\ t < type_ids_size_ h.
Proof.
  induction shorty as [|c shorty IH]; intros pos H i Hi; cbn [check_shorty] in H; [done|].
  destruct (Z.ltb_spec pos size); [|lia]. cbn [andb orb] in H. destruct (c =? 0); cbn [negb] in H; [done|].
  apply bind_Done in H as (t & Et & H). destruct (CheckIndex t (type_ids_size_ h)) eqn:Hx; [|done].
  unfold CheckIndex in Hx. destruct (Z.eq_dec i pos) as [->|]; [exists t; split; [done|lia]|].
  cbn [negb] in H. apply bind_Done in H as ([p|] & _ & H); [|done]. apply bind_Done in H as ([] & _ & H); [|done].
  by apply (IH _ H); lia.
Qed.

Lemma proto_entry i proto : proto_ids_ d !! i = Some proto ->
  proto_params d proto (proto_parameters d proto) /\
  Forall (fun t => 0 <= t < NumIds (type_ids_ d)) (return_type_idx_ proto :: proto_parameters d proto) /\
  forall j prev, i = S j -> proto_ids_ d !! j = Some prev -> check_proto_order d prev proto = Done true.
Proof.
  intros Hi. destruct (table_entry parse_ProtoId kDexTypeProtoIdItem _ _ i proto ltac:(decide_mem) eq_refl Hi)
    as (v & v' & Hr & _ & H & Hprev).
  change (CheckInterProtoIdItem begin h d v = Done (Some v')) in H. unfold CheckInterProtoIdItem in H.
  change (id_size kDexTypeProtoIdItem) with PROTO_ID_SIZE in *. rewrite Hr in H. cbn [mbind cres_bind] in H.
  assert (0 <= return_type_idx_ proto) as H0.
  { apply read_struct_parse in Hr as ->. apply u16_at_range. by apply Forall_drop. }
  done_inv H. subst. rewrite (proj1 type_count).
  assert (return_type_idx_ proto < type_ids_size_ h) as Hret by (rewrite <- (proj1 type_count); by eapply load_type).
  assert (proto_params d proto (proto_parameters d proto) /\
          Forall (fun t => 0 <= t < type_ids_size_ h) (proto_parameters d proto)) as [Hp Hf].
  { unfold proto_list in *. unfold proto_params, proto_parameters. destruct (GetProtoParameters d proto) as [pl|] eqn:Eg; [|by split].
    apply bind_Done in E3 as (n & En & E3). injection E3 as <- <-.
    assert (Forall byte_ok pl) as Hb.
    { unfold GetProtoParameters in Eg. destruct (_ =? _); [done|]. injection Eg as <-. by apply Forall_drop. }
    destruct (type_list_items_ok pl n (type_ids_size_ h) Hb En (check_shorty_params _ _ _ _ E4)) as (Hl & Hit & Hf).
    rewrite Hl. by split. }
  split; [done|]. split; [by constructor|]. intros j prev -> Hj.
  destruct (Hprev j prev eq_refl Hj) as (q & Hq & Hrq). by rewrite Hq, Hrq in E5.
Qed.

Context (Htypes : type_ids_size_ h <= 0xffff) (Hprotos : proto_ids_size_ h <= 0xffff).

Lemma protos_ordered i s t : proto_keys d !! i = Some s -> proto_keys d !! S i = Some t -> ordered_or_prefix s t.
Proof.
  unfold proto_keys. intros Hs Ht. apply list_lookup_fmap_Some in Hs as (p & -> & Hp), Ht as (q & -> & Hq).
  destruct (proto_entry _ _ Hp) as (Hpp & [Hrp Hfp]%Forall_cons & _). destruct (proto_entry _ _ Hq) as (Hqp & _ & Ho).
  specialize (Ho i p eq_refl Hp). unfold check_proto_order in Ho. rewrite (proj1 type_count) in Hfp.
  destruct (Z.ltb_spec (return_type_idx_ q) (return_type_idx_ p)); [done|].
  destruct (Z.eqb_spec (return_type_idx_ p) (return_type_idx_ q)) as [->|]; [|apply ordered_less; lia].
  apply ordered_cons. unfold proto_list, proto_params, proto_parameters in *.
  destruct (GetProtoParameters d q) as [lq|]; [|right; apply prefix_nil]. destruct Hqp as [Eq Hqi].
  rewrite Eq in Ho. cbn [mbind cres_bind] in Ho. destruct (GetProtoParameters d p) as [lp|].
  - destruct Hpp as [Ep Hpi]. rewrite Ep in Ho. cbn [mbind cres_bind] in Ho.
    apply (param_order_ok lp lq _ O _ _ Ho Hpi Hqi). eapply Forall_impl; [exact Hfp|]. cbn. unfold Catch.kDexNoIndex16. lia.
  - apply (param_order_ok [] lq (Z.to_nat (Z.of_nat (length (type_list_items lq)))) O [] _ Ho); [done|done|constructor].
Qed.

Context (Hdistinct : forall i s t, proto_keys d !! i = Some s -> proto_keys d !! S i = Some t -> ~ t `prefix_of` s).

Lemma verified_wf : wf_dex d strs (proto_keys d).
Proof.
  pose proof string_count as [Hsn Hsl]. pose proof type_count as [Htn Htl]. pose proof proto_count as [Hpn Hpl].
  pose proof field_count as [Hfn Hfl]. pose proof method_count as [Hmn Hml].
  split.
  - intros i off s Ho Hs. destruct (string_lookup _ _ _ Ho Hs) as (Hu & rest & _ & Hd). eauto.
  - symmetry. by eapply Forall2_length.
  - lia.
  - apply strings_sorted.
  - intros i t Hi. by apply (type_entry i t).
  - lia.
  - apply types_sorted.
  - intros t i s Ht Hs. destruct (type_entry _ _ Ht) as (_ & (s' & Hs' & Hd & Hu) & _). simplify_eq. by apply descriptor_bytes.
  - intros i proto key Hp Hk. unfold proto_keys in Hk. apply list_lookup_fmap_Some in Hk as (p & -> & Hp'). simplify_eq.
    destruct (proto_entry _ _ Hp) as (? & ? & _). eauto.
  - apply length_map.
  - lia.
  - apply sorted_by_neighbours. intros i s t Hs Ht. destruct (protos_ordered i s t Hs Ht) as [?|Hpre]; [done|].
    by destruct (Hdistinct i s t Hs Ht).
  - lia.
  - apply fields_sorted.
  - lia.
  - apply methods_sorted.
  - pose proof classes_num. lia.
  - apply class_entry.
  - apply classes_unique.
Qed.
End File.

(** ** Files *)

(** A file with a class that has a static field, its value, and a method with a try item. *)
Definition demo_file : list Z :=
  [100; 101; 120; 10; 48; 51; 53; 0; 22; 27; 191; 171; 0; 0; 0; 0; 0; 0; 0; 0; 0; 0; 0; 0; 0; 0; 0; 0; 0; 0; 0; 0;
    192; 1; 0; 0; 112; 0; 0; 0; 120; 86; 52; 18; 0; 0; 0; 0; 0; 0; 0; 0; 32; 1; 0; 0; 5; 0; 0; 0; 112; 0; 0; 0; 3; 0;
    0; 0; 132; 0; 0; 0; 2; 0; 0; 0; 144; 0; 0; 0; 1; 0; 0; 0; 168; 0; 0; 0; 1; 0; 0; 0; 176; 0; 0; 0; 1; 0; 0; 0; 184;
    0; 0; 0; 232; 0; 0; 0; 216; 0; 0; 0; 255; 0; 0; 0; 2; 1; 0; 0; 7; 1; 0; 0; 11; 1; 0; 0; 14; 1; 0; 0; 0; 0; 0; 0;
    1; 0; 0; 0; 3; 0; 0; 0; 2; 0; 0; 0; 1; 0; 0; 0; 216; 0; 0; 0; 3; 0; 0; 0; 2; 0; 0; 0; 0; 0; 0; 0; 1; 0; 0; 0; 4;
    0; 0; 0; 1; 0; 1; 0; 4; 0; 0; 0; 1; 0; 0; 0; 1; 0; 0; 0; 255; 255; 0; 0; 0; 0; 0; 0; 255; 255; 255; 255; 0; 0; 0;
    0; 17; 1; 0; 0; 27; 1; 0; 0; 1; 0; 0; 0; 0; 0; 0; 0; 1; 0; 0; 0; 0; 0; 1; 0; 0; 0; 0; 0; 2; 0; 0; 0; 14; 0; 14; 0;
    0; 0; 0; 0; 1; 0; 1; 0; 1; 0; 1; 1; 73; 0; 3; 76; 65; 59; 0; 2; 76; 73; 0; 1; 86; 0; 1; 109; 0; 1; 0; 1; 0; 0; 8;
    0; 8; 224; 1; 1; 4; 5; 0; 0; 13; 0; 0; 0; 0; 0; 0; 0; 1; 0; 0; 0; 0; 0; 0; 0; 1; 0; 0; 0; 5; 0; 0; 0; 112; 0; 0;
    0; 2; 0; 0; 0; 3; 0; 0; 0; 132; 0; 0; 0; 3; 0; 0; 0; 2; 0; 0; 0; 144; 0; 0; 0; 4; 0; 0; 0; 1; 0; 0; 0; 168; 0; 0;
    0; 5; 0; 0; 0; 1; 0; 0; 0; 176; 0; 0; 0; 6; 0; 0; 0; 1; 0; 0; 0; 184; 0; 0; 0; 1; 16; 0; 0; 1; 0; 0; 0; 216; 0; 0;
    0; 1; 32; 0; 0; 1; 0; 0; 0; 224; 0; 0; 0; 2; 32; 0; 0; 5; 0; 0; 0; 255; 0; 0; 0; 0; 32; 0; 0; 1; 0; 0; 0; 17; 1;
    0; 0; 5; 32; 0; 0; 1; 0; 0; 0; 27; 1; 0; 0; 0; 16; 0; 0; 1; 0; 0; 0; 32; 1; 0; 0].

(** A file whose prototypes are one with the parameter int and one without parameters, in this order. *)
Definition prefix_file : list Z :=
  [100; 101; 120; 10; 48; 51; 53; 0; 60; 12; 240; 223; 0; 0; 0; 0; 0; 0; 0; 0; 0; 0; 0; 0; 0; 0; 0; 0; 0; 0; 0; 0; 4;
    1; 0; 0; 112; 0; 0; 0; 120; 86; 52; 18; 0; 0; 0; 0; 0; 0; 0; 0; 172; 0; 0; 0; 3; 0; 0; 0; 112; 0; 0; 0; 2; 0; 0;
    0; 124; 0; 0; 0; 2; 0; 0; 0; 132; 0; 0; 0; 0; 0; 0; 0; 0; 0; 0; 0; 0; 0; 0; 0; 0; 0; 0; 0; 0; 0; 0; 0; 0; 0; 0; 0;
    104; 0; 0; 0; 156; 0; 0; 0; 162; 0; 0; 0; 165; 0; 0; 0; 168; 0; 0; 0; 0; 0; 0; 0; 1; 0; 0; 0; 2; 0; 0; 0; 1; 0; 0;
    0; 156; 0; 0; 0; 1; 0; 0; 0; 1; 0; 0; 0; 0; 0; 0; 0; 1; 0; 0; 0; 0; 0; 1; 73; 0; 1; 86; 0; 2; 86; 73; 0; 7; 0; 0;
    0; 0; 0; 0; 0; 1; 0; 0; 0; 0; 0; 0; 0; 1; 0; 0; 0; 3; 0; 0; 0; 112; 0; 0; 0; 2; 0; 0; 0; 2; 0; 0; 0; 124; 0; 0; 0;
    3; 0; 0; 0; 2; 0; 0; 0; 132; 0; 0; 0; 1; 16; 0; 0; 1; 0; 0; 0; 156; 0; 0; 0; 2; 32; 0; 0; 3; 0; 0; 0; 162; 0; 0;
    0; 0; 16; 0; 0; 1; 0; 0; 0; 172; 0; 0; 0].

(** A file with one class, whose definition the header places at an odd offset. *)
Definition unaligned_file : list Z :=
  [100; 101; 120; 10; 48; 51; 53; 0; 243; 16; 55; 194; 0; 0; 0; 0; 0; 0; 0; 0; 0; 0; 0; 0; 0; 0; 0; 0; 0; 0; 0; 0;
    248; 0; 0; 0; 112; 0; 0; 0; 120; 86; 52; 18; 0; 0; 0; 0; 0; 0; 0; 0; 172; 0; 0; 0; 2; 0; 0; 0; 112; 0; 0; 0; 2; 0;
    0; 0; 120; 0; 0; 0; 0; 0; 0; 0; 0; 0; 0; 0; 0; 0; 0; 0; 0; 0; 0; 0; 0; 0; 0; 0; 0; 0; 0; 0; 1; 0; 0; 0; 131; 0; 0;
    0; 84; 0; 0; 0; 164; 0; 0; 0; 164; 0; 0; 0; 167; 0; 0; 0; 0; 0; 0; 0; 1; 0; 0; 0; 0; 0; 0; 0; 1; 0; 0; 0; 1; 0; 0;
    0; 255; 255; 0; 0; 0; 0; 0; 0; 255; 255; 255; 255; 0; 0; 0; 0; 0; 0; 0; 0; 0; 0; 0; 0; 1; 73; 0; 3; 76; 65; 59; 0;
    6; 0; 0; 0; 0; 0; 0; 0; 1; 0; 0; 0; 0; 0; 0; 0; 1; 0; 0; 0; 2; 0; 0; 0; 112; 0; 0; 0; 2; 0; 0; 0; 2; 0; 0; 0; 120;
    0; 0; 0; 6; 0; 0; 0; 1; 0; 0; 0; 131; 0; 0; 0; 2; 32; 0; 0; 2; 0; 0; 0; 164; 0; 0; 0; 0; 16; 0; 0; 1; 0; 0; 0;
    172; 0; 0; 0].

(** The checksum of zlib, as its documentation has it. *)
Definition adler_sum (s : Z) (p : option (list Z)) : Z :=
  match p with
  | None => 1
  | Some p =>
      let '(a, b) := fold_left (fun '(a, b) x => let a := (a + x) mod 65521 in (a, (b + a) mod 65521)) p (s mod 65536, s / 65536) in
      b * 65536 + a
  end.

Definition header_of (begin : list Z) : Header :=
  match read_Header begin with
  | Done h => h
  | Fault _ => {| checksum_ := 0; file_size_ := 0; header_size_ := 0; endian_tag_ := 0; link_size_ := 0; link_off_ := 0;
                  map_off_ := 0; string_ids_size_ := 0; string_ids_off_ := 0; type_ids_size_ := 0; type_ids_off_ := 0;
                  proto_ids_size_ := 0; proto_ids_off_ := 0; field_ids_size_ := 0; field_ids_off_ := 0;
                  method_ids_size_ := 0; method_ids_off_ := 0; class_defs_size_ := 0; class_defs_off_ := 0;
                  data_size_ := 0; data_off_ := 0 |}
  end.

Lemma bytes_by_test l : forallb (fun b => (0 <=? b) && (b <? 256)) l = true -> Forall byte_ok l.
Proof.
  intros H. apply Forall_forall. intros b Hb. apply list_elem_of_In in Hb.
  apply (proj1 (forallb_forall _ _) H) in Hb. unfold byte_ok, in_u. lia.
Qed.
Lemma demo_file_bytes : Forall byte_ok demo_file.
Proof. apply bytes_by_test. by vm_compute. Qed.

(** Nothing but the checksum of the file is asked for. *)
Lemma verify_checksum adler32 sg begin :
  VerifyFile adler32 sg begin = VerifyFile (fun _ _ => adler32 (adler32 0 None) (Some (drop 12 begin))) sg begin.
Proof. done. Qed.

Lemma verify_file begin adler32 sg h : read_Header begin = Done h -> VerifyFile adler32 sg begin = Done true ->
  Verify begin adler32 sg h (make_DexFile begin h) = Done true.
Proof. intros Hh H. unfold VerifyFile in H. by rewrite Hh in H. Qed.

(** C6: A file that the verifier accepts is well-formed for the lookups of
    [DexFile]: the strings are modified UTF-8 of the lengths they say, the types
    are descriptors, and the tables are sorted by their keys, with indices in
    range and each class defined once.  The tables have to be at multiples of
    four and no larger than indices of 16 bits can say, and no prototype may be
    followed by one whose types are a prefix of its own; the verifier does not
    check these. *)
Theorem verified_dex_wf begin adler32 sg h
    (Hbytes : Forall byte_ok begin) (Hh : read_Header begin = Done h) (Hv : VerifyFile adler32 sg begin = Done true)
    (Hal : tables_aligned h) (Htypes : type_ids_size_ h <= 0xffff) (Hprotos : proto_ids_size_ h <= 0xffff)
    (Hdistinct : forall i s t, proto_keys (make_DexFile begin h) !! i = Some s ->
                   proto_keys (make_DexFile begin h) !! S i = Some t -> ~ t `prefix_of` s) :
  exists strs, wf_dex (make_DexFile begin h) strs (proto_keys (make_DexFile begin h)) /\
    Sig.exact_lengths (make_DexFile begin h) strs.
Proof.
  apply (verify_file _ _ _ _ Hh) in Hv. edestruct verify_accepts as (n & lo & hi & v & Hacc); [done..|].
  pose proof (tables_pass begin Hbytes adler32 sg h Hh Hv Hal n lo hi v Hacc) as Hpass.
  pose proof (acc_items _ _ _ _ _ _ _ Hacc) as Hok. pose proof (acc_size _ _ _ _ _ _ _ Hacc) as Hs.
  edestruct strings_exist as [strs Hstrs]; [done..|].
  exists strs. split; [by eapply verified_wf|].
  intros i off s Ho Hi. edestruct string_lookup as (_ & rest & _ & Hd); [done..|]. eauto.
Qed.

Lemma verified_dex_wf_witness :
  VerifyFile adler_sum false demo_file = Done true /\
  exists strs, wf_dex (make_DexFile demo_file (header_of demo_file)) strs
                 (proto_keys (make_DexFile demo_file (header_of demo_file))) /\
    Sig.exact_lengths (make_DexFile demo_file (header_of demo_file)) strs.
Proof.
  split; [by vm_compute|].
  apply (verified_dex_wf demo_file adler_sum false (header_of demo_file) demo_file_bytes eq_refl).
  - by vm_compute.
  - repeat constructor.
  - by vm_compute.
  - by vm_compute.
  - assert (proto_keys (make_DexFile demo_file (header_of demo_file)) = [[1; 0]; [2]]) as -> by (by vm_compute).
    intros [|[|i]] s t Hs Ht [k Hk]; cbn in *; simplify_eq.
Defined.

(** C18: The verifier comes to an end on any bytes: no loop runs longer than its
    bytes or counts allow, and encoded values are nested no deeper than the file
    has bytes. *)
Theorem verify_returns adler32 sg begin (Hbytes : Forall byte_ok begin) : VerifyFile adler32 sg begin <> Fault OutOfFuel.
Proof. by eapply post_no_fuel, post_verify_file. Qed.

Lemma verify_returns_witness : VerifyFile adler_sum true demo_file <> Fault OutOfFuel.
Proof. apply (verify_returns adler_sum true demo_file), demo_file_bytes. Defined.

(** C17: The tables of a verified file lie behind its header and in the file and
    do not overlap, when the header places them at multiples of four: an entry
    of each index below the size the header gives can be read, and is of this
    table alone. *)
Theorem verified_tables_inside begin adler32 sg h
    (Hbytes : Forall byte_ok begin) (Hh : read_Header begin = Done h) (Hv : VerifyFile adler32 sg begin = Done true)
    (Hal : tables_aligned h) :
  (forall type off count, type ∈ ID_TYPES -> expected_section h type = Some (off, count) -> count <> 0 ->
     HEADER_SIZE <= off /\ off + count * id_size type <= Z.of_nat (length begin)) /\
  (forall type off count type' off' count', type ∈ ID_TYPES -> type' ∈ ID_TYPES -> type <> type' ->
     expected_section h type = Some (off, count) -> expected_section h type' = Some (off', count') ->
     count <> 0 -> count' <> 0 -> off + count * id_size type <= off' \/ off' + count' * id_size type' <= off) /\
  let d := make_DexFile begin h in
  NumIds (string_ids_ d) = string_ids_size_ h /\ NumIds (type_ids_ d) = type_ids_size_ h /\
  NumIds (proto_ids_ d) = proto_ids_size_ h /\ NumIds (field_ids_ d) = field_ids_size_ h /\
  NumIds (method_ids_ d) = method_ids_size_ h /\ NumIds (class_defs_ d) = class_defs_size_ h.
Proof.
  apply (verify_file _ _ _ _ Hh) in Hv. edestruct verify_accepts as (n & lo & hi & v & Hacc); [done..|]. split; [|split].
  - intros type off count Ht He Hn. destruct (id_size_ok type Ht) as [Hs _].
    edestruct expected_range as [Ho0 Hc0]; [exact Hbytes|exact Hh|done..|].
    edestruct header_first as (k0 & i0 & Hk0 & Hi0 & Ht0 & Hlo0 & Hhi0); [done..|].
    edestruct table_section with (type := type) (off := off) (count := count) as (k & i & Hk & Hi & <- & _ & _ & Hlo & Hhi & Hin); [done..|]. split; [|unfold size_ in Hin; lia].
    assert (hi k0 <= lo k \/ hi k <= lo k0) as [?|?]; [|lia|nia]. eapply sections_disjoint; [done..|].
    rewrite Ht0. intros E. rewrite <- E in Ht. by apply (bool_decide_eq_true_2 (kDexTypeHeaderItem ∈ ID_TYPES)) in Ht.
  - intros t off count t' off' count' Ht Ht' Hne He He' Hn Hn'.
    edestruct table_section with (type := t) (off := off) (count := count) as (k & i & Hk & Hi & Hty & _ & _ & <- & <- & _); [done..|].
    edestruct table_section with (type := t') (off := off') (count := count') as (k' & i' & Hk' & Hi' & Hty' & _ & _ & <- & <- & _); [done..|].
    eapply sections_disjoint; [done..|]. congruence.
  - pose proof (tables_pass begin Hbytes adler32 sg h Hh Hv Hal n lo hi v Hacc) as Hpass.
    split_and!; cbn zeta; first [eapply string_count|eapply type_count|eapply proto_count|eapply field_count
      |eapply method_count|eapply class_count]; done.
Qed.

Lemma verified_tables_inside_witness :
  (string_ids_off_ (header_of demo_file) = 112 /\ string_ids_size_ (header_of demo_file) = 5) /\
  HEADER_SIZE <= 112 /\ 112 + 5 * id_size kDexTypeStringIdItem <= Z.of_nat (length demo_file).
Proof.
  split; [by vm_compute|].
  apply (verified_tables_inside demo_file adler_sum false (header_of demo_file)) with (type := kDexTypeStringIdItem).
  - apply demo_file_bytes.
  - by vm_compute.
  - by vm_compute.
  - repeat constructor.
  - decide_mem.
  - by vm_compute.
  - done.
Defined.

(** The verifier accepts prototypes that are not sorted: a prototype may be
    followed by one with fewer parameters.  The binary search of FindProtoId
    then misses one that is in the file. *)
Theorem verified_protos_missed adler32 sg
    (Hsum : adler32 (adler32 0 None) (Some (drop 12 prefix_file)) = checksum_ (header_of prefix_file)) :
  let d := make_DexFile prefix_file (header_of prefix_file) in
  read_Header prefix_file = Done (header_of prefix_file) /\ VerifyFile adler32 sg prefix_file = Done true /\
  proto_keys d = [[1; 0]; [1]] /\ FindProtoId d 1 [] = Done None.
Proof.
  split; [by vm_compute|]. split; [|by vm_compute]. rewrite verify_checksum, Hsum. by destruct sg; vm_compute.
Qed.

Lemma verified_protos_missed_witness :
  FindProtoId (make_DexFile prefix_file (header_of prefix_file)) 1 [] = Done None.
Proof. apply (verified_protos_missed adler_sum true). by vm_compute. Defined.

(** The verifier accepts a header that places the class definitions at an
    odd offset.  It checks the definition at the next multiple of four, the
    runtime reads the one at the offset itself: its class is not in the table of
    types, and its descriptor cannot be read. *)
Theorem verified_unaligned_class adler32 sg
    (Hsum : adler32 (adler32 0 None) (Some (drop 12 unaligned_file)) = checksum_ (header_of unaligned_file)) :
  let d := make_DexFile unaligned_file (header_of unaligned_file) in
  read_Header unaligned_file = Done (header_of unaligned_file) /\ VerifyFile adler32 sg unaligned_file = Done true /\
  exists c, class_defs_ d = [c] /\ NumIds (type_ids_ d) <= class_idx_ c /\ GetClassDescriptor d c = Fault OutOfBounds.
Proof.
  split; [by vm_compute|]. split; [rewrite verify_checksum, Hsum; by destruct sg; vm_compute|].
  eexists. split; [vm_compute; reflexivity|]. by vm_compute.
Qed.

Lemma verified_unaligned_class_witness :
  exists c, class_defs_ (make_DexFile unaligned_file (header_of unaligned_file)) = [c].
Proof.
  destruct (verified_unaligned_class adler_sum true) as (_ & _ & c & Hc & _); [by vm_compute|]. by exists c.
Defined.
