(* ===== verification/DexMembers.v ===== *)
(** * DexMembers: the class data of a verified file

    The verifier walks through class data twice, in different loops; both meet the
    same members.  For every class of a verified file that has class data, the
    static fields, instance fields, direct and virtual methods the iterator comes
    to are in the tables, belong to the class and have the flags and the code that
    their kind asks for. *)

From S2P Require Import Prelude CLib Leb128 Utf HashSet Dex Names DexItems DexCatch DexValues DexDebug DexVerify DexFormat DexVerifier DexVerifierTotal DexVerified.
Import ClassData.

(** ** Loops over members *)

(** [for (; P(it); it.Next())] from [it], through the iterators of a list. *)
Inductive runs (P : It -> bool) : It -> list It -> It -> Prop :=
| runs_end it : P it = false -> runs P it [] it
| runs_next it next l fin : P it = true -> Next it = Done next -> runs P next l fin -> runs P it (it :: l) fin.

Lemma runs_det P it l fin l' fin' : runs P it l fin -> runs P it l' fin' -> l' = l /\ fin' = fin.
Proof.
  intros H. revert l' fin'. induction H as [it Hp|it next l fin Hp Hn _ IH]; intros l' fin' H'; inversion H'; subst; try congruence.
  - done.
  - assert (next0 = next) as -> by congruence. by destruct (IH _ _ ltac:(eassumption)) as [-> ->].
Qed.

Lemma runs_true P it l fin : runs P it l fin -> Forall (fun x => P x = true) l.
Proof. induction 1; by constructor. Qed.
Lemma runs_stop P it l fin : runs P it l fin -> P fin = false.
Proof. by induction 1. Qed.

Lemma check_members_runs P check fuel : forall it fin, check_members fuel P check it = Done (Some fin) ->
  exists l, runs P it l fin /\ Forall (fun x => check x = Done true) l.
Proof.
  induction fuel as [|fuel IH]; intros it fin H; cbn [check_members] in H; destruct (P it) eqn:Hp; try done;
    try (injection H as <-; exists []; by split; constructor).
  apply bind_Done in H as ([] & Hc & H); [|done]. apply bind_Done in H as (next & Hn & H).
  apply IH in H as (l & Hl & Hf). exists (it :: l). split; [by eapply runs_next|by constructor].
Qed.

(** A loop, and a second one after which the first cannot go on, as one loop. *)
Lemma runs_or P Q it l1 mid l2 fin :
  (forall x next, P x = false -> Q x = true -> Next x = Done next -> P next = false) ->
  runs P it l1 mid -> runs Q mid l2 fin -> runs (fun x => P x || Q x) it (l1 ++ l2) fin.
Proof.
  intros Hst H1 H2. induction H1 as [it Hp|it next l1 mid Hp Hn _ IH].
  - cbn [app]. induction H2 as [it Hq|it next l2 fin Hq Hn _ IH]; [apply runs_end; by rewrite Hp, Hq|].
    eapply runs_next; [by rewrite Hp, Hq|done|]. apply IH. by eapply Hst.
  - eapply runs_next; [by rewrite Hp|done|auto].
Qed.

Lemma next_pos it next : Next it = Done next -> header_ next = header_ it /\ pos_ next = u32 (pos_ it + 1).
Proof.
  unfold Next, ReadClassDataField, ReadClassDataMethod. intros H. done_inv H; by subst.
Qed.

Lemma step_above pos lo hi : lo <= pos -> pos < u32 hi -> lo <= u32 (pos + 1).
Proof.
  intros Hl Hh. pose proof (uwrap_range 32 hi ltac:(lia)) as Hr. pose proof (uwrap_range 32 (pos + 1) ltac:(lia)) as Hn.
  unfold in_u in *. destruct (Z.lt_ge_cases (pos + 1) 0); [lia|]. rewrite uwrap_small; [lia|unfold in_u; lia].
Qed.

Lemma static_stays x next : HasNextStaticField x = false -> HasNextInstanceField x = true -> Next x = Done next ->
  HasNextStaticField next = false.
Proof.
  intros _ Hi [Hh Hp]%next_pos. unfold HasNextInstanceField, HasNextStaticField in *. rewrite Hp. unfold EndOfStaticFieldsPos in *.
  rewrite Hh. apply andb_true_iff in Hi as [Hl Hu]. apply Z.leb_le in Hl. apply Z.ltb_lt in Hu. apply Z.ltb_ge.
  by eapply step_above.
Qed.
Lemma direct_stays x next : HasNextDirectMethod x = false -> HasNextVirtualMethod x = true -> Next x = Done next ->
  HasNextDirectMethod next = false.
Proof.
  intros _ Hi [Hh Hp]%next_pos. unfold HasNextVirtualMethod, HasNextDirectMethod in *.
  apply andb_true_iff in Hi as [Hl Hu]. apply Z.leb_le in Hl. apply Z.ltb_lt in Hu. apply andb_false_iff. right. apply Z.ltb_ge.
  rewrite Hp. unfold EndOfDirectMethodsPos, EndOfInstanceFieldsPos, EndOfStaticFieldsPos in *. rewrite Hh. by eapply step_above.
Qed.

(** ** How many members there are *)

Definition any_next (it : It) : bool :=
  HasNextStaticField it || HasNextInstanceField it || HasNextDirectMethod it || HasNextVirtualMethod it.

(** Every member takes bytes. *)
Lemma runs_bytes P it l fin : (forall x, P x = true -> any_next x = true) -> runs P it l fin ->
  (length l <= S (length (ptr_pos_ it)))%nat /\ (length (ptr_pos_ fin) <= length (ptr_pos_ it))%nat.
Proof.
  intros HP. induction 1 as [it Hp|it next l fin Hp Hn Hr [IH1 IH2]]; [cbn; lia|].
  destruct (post_result _ _ _ (Members.post_next it) Hn) as [Hle Hlt]. split; [|lia].
  destruct Hr as [next Hq|next next' l fin Hq]; [cbn; lia|]. specialize (Hlt (HP _ Hq)). cbn [length] in *. lia.
Qed.

(** The positions of the members lie below the end of their kind. *)
Lemma runs_positions P hi it l fin : 0 <= pos_ it -> in_u 32 hi ->
  (forall x, P x = true -> header_ x = header_ it -> pos_ x < hi) -> runs P it l fin -> l = [] \/ Z.of_nat (length l) <= hi - pos_ it.
Proof.
  intros H0 Hhi HP Hr. revert H0 HP. induction Hr as [it Hp|it next l fin Hp Hn Hr IH]; intros H0 HP; [by left|right].
  pose proof (HP it Hp eq_refl) as Hlt. destruct (next_pos _ _ Hn) as [Hh Hpos]. unfold in_u in Hhi.
  rewrite uwrap_small in Hpos by (unfold in_u; lia).
  destruct IH as [->|IH]; [lia|by rewrite Hh|cbn; lia|]. cbn [length]. lia.
Qed.

(** The members of class data, kind by kind, and the iterator behind them. *)
Definition data_members (data : list Z) (statics instances directs virtuals : list It) (fin : It) : Prop :=
  exists it0 it1 it2 it3, new_It (Some data) = Done it0 /\ runs HasNextStaticField it0 statics it1 /\
    runs HasNextInstanceField it1 instances it2 /\ runs HasNextDirectMethod it2 directs it3 /\
    runs HasNextVirtualMethod it3 virtuals fin /\ HasNext fin = false.

Section Checks.
Context (begin_ : list Z) (header : Header) (dex_file_ : DexFile).

Definition field_passed (static : bool) (it : It) : Prop := check_field_item header static it = Done true.
Definition method_passed (direct : bool) (it : It) : Prop := check_method_item header direct it = Done true.

(** What the first pass has checked. *)
Lemma intra_class_data ptr p : CheckIntraClassDataItem begin_ header ptr = Done (Some p) ->
  exists ss is_ ds vs fin, data_members (bytes_at begin_ ptr) ss is_ ds vs fin /\ p = offset_of begin_ (ptr_pos_ fin) /\
    Forall (field_passed true) ss /\ Forall (field_passed false) is_ /\
    Forall (method_passed true) ds /\ Forall (method_passed false) vs.
Proof.
  intros H. unfold CheckIntraClassDataItem in H. done_inv H. subst.
  repeat match goal with E : check_members _ _ _ _ = _ |- _ => apply check_members_runs in E as (? & ? & ?) end.
  unfold EndDataPointer in *. destruct (HasNext _) eqn:Hf; [done|]. simplify_eq.
  do 5 eexists. split; [|split; [done|by split_and!]]. unfold data_members. by do 4 eexists.
Qed.

(** The second pass meets the same members. *)
Lemma inter_class_data v v' ss is_ ds vs fin : CheckInterClassDataItem begin_ header dex_file_ v = Done (Some v') ->
  data_members (bytes_at begin_ (v_ptr v)) ss is_ ds vs fin ->
  v_ptr v' = offset_of begin_ (ptr_pos_ fin) /\
  exists definer, FindFirstClassDataDefiner begin_ header dex_file_ (v_ptr v) = Done (Some definer) /\
    Forall (fun it => check_inter_field header dex_file_ definer it = Done true) (ss ++ is_) /\
    Forall (fun it => check_inter_method header dex_file_ definer v it = Done true) (ds ++ vs).
Proof.
  intros H (it0 & it1 & it2 & it3 & Hnew & Hs & Hi & Hd & Hv & Hf). unfold CheckInterClassDataItem in H. done_inv H. subst.
  rewrite Hnew in E. injection E as <-.
  apply check_members_runs in E1 as (l1 & H1 & F1). apply check_members_runs in E2 as (l2 & H2 & F2).
  destruct (runs_det _ _ _ _ _ _ (runs_or _ _ _ _ _ _ _ static_stays Hs Hi) H1) as [-> ->].
  destruct (runs_det _ _ _ _ _ _ (runs_or _ _ _ _ _ _ _ direct_stays Hd Hv) H2) as [-> ->].
  unfold EndDataPointer in E3. rewrite Hf in E3. injection E3 as <-. cbn. split; [done|]. by exists z.
Qed.
End Checks.

(** ** The items of class data *)

Section Items.
Context (begin : list Z) (Hbytes : Forall byte_ok begin) (Hsize : size_ begin < 2 ^ 32) (h : Header).
Context (Hheader : header_size_ h <= size_ begin) (Hheader0 : 0 <= header_size_ h) (Hmap : CheckMap begin h = Done true).

(** The [j]-th item behind an offset. *)
Fixpoint class_data_at (j : nat) (off : Z) : option Z :=
  match j with
  | O => Some off
  | S j => match CheckIntraClassDataItem begin h off with Done (Some p) => class_data_at j p | _ => None end
  end.

Lemma put_other k type types o : type <> kDexTypeClassDataItem ->
  Put k type types !! o = Some kDexTypeClassDataItem -> types !! o = Some kDexTypeClassDataItem.
Proof. intros Hne. unfold Put. case_match; [done|]. rewrite lookup_insert_Some. intros [[_ ?]|[_ ?]]; [done|done]. Qed.

Lemma iterate_records n : forall off type v v', at_item begin h off v ->
  CheckIntraSectionIterate begin h n off type v = Done (Some v') ->
  forall o, offset_to_type_map_ v' !! o = Some kDexTypeClassDataItem ->
    offset_to_type_map_ v !! o = Some kDexTypeClassDataItem \/
    type = kDexTypeClassDataItem /\ exists j, (j < n)%nat /\ class_data_at j off = Some o.
Proof.
  induction n as [|n IH]; intros off type v v' Hv H o Ho; [injection H as <-; by left|].
  apply intra_iterate_step in H as (p & Hc & _ & Hv1 & H); [|done..].
  destruct (IH _ _ _ _ Hv1 H o Ho) as [Hold|(-> & j & Hj & Hat)].
  - cbn [offset_to_type_map_] in Hold. destruct (Z.eq_dec type kDexTypeClassDataItem) as [->|Hne].
    + change (IsDataSectionType kDexTypeClassDataItem) with true in Hold. cbn match in Hold. unfold Put in Hold. destruct (_ !! align _ _) eqn:E; [by left|]. rewrite lookup_insert_Some in Hold.
      destruct Hold as [[<- _]|[_ ?]]; [right|by left]. split; [done|]. exists O. split; [lia|].
      change (alignment_mask INTRA_BYTE_TYPES kDexTypeClassDataItem) with 0. by rewrite align_zero.
    + left. destruct (IsDataSectionType type); [by eapply put_other|done].
  - right. split; [done|]. exists (S j). split; [lia|]. cbn [class_data_at].
    change (alignment_mask INTRA_BYTE_TYPES kDexTypeClassDataItem) with 0 in Hc. rewrite align_zero in Hc.
    change (CheckIntraClassDataItem begin h off = Done (Some p)) in Hc. by rewrite Hc.
Qed.

Lemma section_records item off v v' off' : at_item begin h off v ->
  check_intra_section begin h item off v = Done (Some (v', off')) ->
  forall o, offset_to_type_map_ v' !! o = Some kDexTypeClassDataItem ->
    offset_to_type_map_ v !! o = Some kDexTypeClassDataItem \/
    map_type_ item = kDexTypeClassDataItem /\
    exists j, (j < Z.to_nat (map_size_ item))%nat /\ class_data_at j (map_offset_ item) = Some o.
Proof.
  intros (Hp & H0 & Hok) H o Ho. unfold check_intra_section in H. apply bind_Done in H as ([ptr|] & E & H); [|done].
  destruct (Z.ltb_spec (map_offset_ item) off) as [|B]; [done|].
  pose proof (padding_inside _ _ _ _ _ (proj2 H0) B E) as Hin. apply padding_forward in E as ->; [|done].
  assert (at_item begin h (map_offset_ item) (set_ptr v (v_ptr v + (map_offset_ item - off)))) as Hv
    by (split; cbn; [lia|split; [lia|done]]).
  done_inv H; simplify_eq; try by left.
  - unfold CheckIntraIdSection in E. destruct (expected_section h (map_type_ item)) as [[]|]; [|done]. done_inv E.
    by apply (iterate_records _ _ _ _ _ Hv E) in Ho.
  - unfold CheckIntraDataSection in E. done_inv E. subst. by apply (iterate_records _ _ _ _ _ Hv E0) in Ho.
Qed.

Lemma sections_record n : forall i off v v', at_item begin h off v ->
  check_intra_sections begin h n i off v = Done (Some v') ->
  forall o, offset_to_type_map_ v' !! o = Some kDexTypeClassDataItem ->
    offset_to_type_map_ v !! o = Some kDexTypeClassDataItem \/
    exists k item j, i <= k < i + Z.of_nat n /\ map_item begin h k = Done item /\ map_type_ item = kDexTypeClassDataItem /\
      (j < Z.to_nat (map_size_ item))%nat /\ class_data_at j (map_offset_ item) = Some o.
Proof.
  induction n as [|n IH]; intros i off v v' Hv H o Ho; cbn [check_intra_sections] in H; [injection H as <-; by left|].
  apply bind_Done in H as (item & Ei & H). apply bind_Done in H as ([[w off']|] & Es & H); [|done].
  edestruct intra_section_ok as [_ Hw]; [done..|].
  destruct (IH _ _ _ _ Hw H o Ho) as [Hold|(k & item' & j & Hk & Hr)]; [|right; exists k, item', j; split; [lia|done]].
  destruct (section_records _ _ _ _ _ Hv Es o Hold) as [?|(Ht & j & Hj)]; [by left|right].
  exists i, item, j. split; [lia|done].
Qed.
End Items.

Section Verified.
Context (begin : list Z) (Hbytes : Forall byte_ok begin) (adler32 : Z -> option (list Z) -> Z) (sg : bool).
Context (h : Header) (Hh : read_Header begin = Done h).
Local Abbreviation d := (make_DexFile begin h).
Context (Hv : Verify begin adler32 sg h d = Done true) (Hal : tables_aligned h) (Htypes : type_ids_size_ h <= 0xffff).
Context (n : Z) (lo hi : Z -> Z) (v : Verifier) (Hacc : accepted_file begin sg h n lo hi v).
Local Abbreviation types := (offset_to_type_map_ v).

(** The second pass comes to the items of the first. *)
Lemma inter_visits m : forall off w w', check_inter_items begin sg h d m off kDexTypeClassDataItem w = Done (Some w') ->
  forall j o, (j < m)%nat -> class_data_at begin h j off = Some o ->
  exists u u', v_ptr u = o /\ offset_to_type_map_ u = offset_to_type_map_ w /\
    CheckInterClassDataItem begin h d u = Done (Some u').
Proof.
  induction m as [|m IH]; intros off w w' H j o Hj Ho; cbn [check_inter_items] in H; [lia|].
  change (alignment_mask [kDexTypeClassDataItem] kDexTypeClassDataItem) with 0 in H. rewrite align_zero in H.
  apply bind_Done in H as ([u|] & E & H); [|done]. apply inter_item_types in E as Hty. cbn in Hty.
  change (CheckInterClassDataItem begin h d (set_ptr w off) = Done (Some u)) in E.
  destruct j as [|j]; [injection Ho as <-; by exists (set_ptr w off), u|]. cbn [class_data_at] in Ho.
  destruct (CheckIntraClassDataItem begin h off) as [[p|]|] eqn:Ei; [|done..].
  destruct (intra_class_data _ _ _ _ Ei) as (ss & is_ & ds & vs & fin & Hm & Hp & _).
  destruct (inter_class_data _ _ _ _ _ _ _ _ _ _ E Hm) as [Hpt _]. rewrite Hpt, <- Hp in H. rewrite <- Hty.
  destruct (IH _ _ _ H j o ltac:(lia) Ho) as (x & x' & Hx). by exists x, x'.
Qed.

Lemma class_data_item o : types !! o = Some kDexTypeClassDataItem ->
  exists ss is_ ds vs fin definer u, data_members (bytes_at begin o) ss is_ ds vs fin /\
    Forall (field_passed h true) ss /\ Forall (field_passed h false) is_ /\
    Forall (method_passed h true) ds /\ Forall (method_passed h false) vs /\
    FindFirstClassDataDefiner begin h d o = Done (Some definer) /\ offset_to_type_map_ u = types /\
    Forall (fun it => check_inter_field h d definer it = Done true) (ss ++ is_) /\
    Forall (fun it => check_inter_method h d definer u it = Done true) (ds ++ vs).
Proof.
  intros Ho. destruct (acc_items _ _ _ _ _ _ _ Hacc _ _ Ho) as (_ & p & Hc & _).
  change (CheckIntraClassDataItem begin h o = Done (Some p)) in Hc.
  destruct (intra_class_data _ _ _ _ Hc) as (ss & is_ & ds & vs & fin & Hm & _ & Hpass).
  pose proof (acc_header _ _ _ _ _ _ _ Hacc) as Hz.
  assert (HEADER_SIZE <= size_ begin) as Hl.
  { unfold read_Header in Hh. destruct (Z.ltb_spec (Z.of_nat (length begin)) HEADER_SIZE); [done|unfold size_; lia]. }
  edestruct (sections_record begin Hbytes (acc_size _ _ _ _ _ _ _ Hacc) h) as [Hold|(k & item & j & Hk & Hi & Ht & Hj & Hat)];
    [rewrite Hz; done|by rewrite Hz|apply Hacc|apply at_item_start|apply Hacc|exact Ho|..].
  { cbn in Hold. by apply lookup_empty_Some in Hold. }
  destruct (acc_second _ _ _ _ _ _ _ Hacc) as [v' Hsec].
  edestruct (inter_sections_passed begin) as (w & w' & Hw & Hit); [exact Hsec|exact Hk|exact Hi|rewrite Ht|].
  { split; [by refine (bool_decide_eq_true_1 _ _); vm_compute|decide_mem]. }
  rewrite Ht in Hit. unfold CheckInterSectionIterate in Hit.
  destruct (inter_visits _ _ _ _ Hit j o Hj Hat) as (u & u' & <- & Hu & Hcheck). cbn in Hu.
  destruct (inter_class_data _ _ _ _ _ _ _ _ _ _ Hcheck Hm) as (_ & definer & Hdef & Hf & Hmeth).
  exists ss, is_, ds, vs, fin, definer, u. rewrite Hu, Hw. destruct Hpass as (? & ? & ? & ?). by split_and!.
Qed.

Local Abbreviation Hpass := (tables_pass begin Hbytes adler32 sg h Hh Hv Hal n lo hi v Hacc).
Local Abbreviation Hok := (acc_items begin sg h n lo hi v Hacc).

Lemma class_data_of i c : class_defs_ d !! i = Some c -> class_data_off_ c <> 0 ->
  types !! class_data_off_ c = Some kDexTypeClassDataItem /\
  exists definer, FindFirstClassDataDefiner begin h d (class_data_off_ c) = Done (Some definer) /\
    (definer = class_idx_ c \/ definer = Catch.kDexNoIndex16).
Proof.
  intros Hi Hne.
  destruct (table_entry begin Hbytes adler32 sg h Hh Hv Hal types Hpass parse_ClassDef kDexTypeClassDefItem _ _ i c
    ltac:(decide_mem) eq_refl Hi) as (w & w' & Hr & Hty & H & _).
  change (CheckInterClassDefItem begin h d w = Done (Some w')) in H. unfold CheckInterClassDefItem in H.
  change (id_size kDexTypeClassDefItem) with CLASS_DEF_SIZE in *. rewrite Hr in H. cbn [mbind cres_bind] in H.
  case_bool_decide; [done|]. done_inv H.
  match goal with E : check_definer (class_data_off_ c) _ _ = _, E' : check_optional (class_data_off_ c) _ _ = _ |- _ =>
    rename E into Ed, E' into Eo end.
  unfold check_definer in Ed. rewrite (proj2 (Z.eqb_neq _ _) Hne) in Ed.
  apply bind_Done in Ed as ([definer|] & Ef & Ed); [|done]. injection Ed as Ed.
  unfold check_optional, CheckOffsetToTypeMap in Eo. rewrite (proj2 (Z.eqb_neq _ _) Hne) in Eo. cbn in Eo. rewrite Hty in Eo.
  destruct (types !! class_data_off_ c); [|done]. split; [f_equal; lia|]. exists definer. split; [done|]. lia.
Qed.

(** What holds of the fields and methods of class [c]. *)
Definition field_ok (c : ClassDef) (static : bool) (it : It) : Prop :=
  (exists f, 0 <= GetMemberIndex it /\ field_ids_ d !! Z.to_nat (GetMemberIndex it) = Some f /\ field_class_idx_ f = class_idx_ c) /\
  negb (Z.land (GetRawMemberAccessFlags it) kAccStatic =? 0) = static.
Definition method_ok (c : ClassDef) (direct : bool) (it : It) : Prop :=
  (exists m, 0 <= GetMemberIndex it /\ method_ids_ d !! Z.to_nat (GetMemberIndex it) = Some m /\ method_class_idx_ m = class_idx_ c) /\
  negb (Z.land (GetRawMemberAccessFlags it) (Z.lor (Z.lor kAccStatic kAccPrivate) kAccConstructor) =? 0) = direct /\
  (GetMethodCodeItemOffset it = 0 <-> Z.land (GetRawMemberAccessFlags it) (Z.lor kAccNative kAccAbstract) <> 0) /\
  (GetMethodCodeItemOffset it <> 0 ->
   exists rest, CheckIntraCodeItem (type_ids_size_ h) (at_offset d (GetMethodCodeItemOffset it)) = Done (Some rest)).

Lemma member_index_nonneg it : 0 <= GetMemberIndex it.
Proof. unfold GetMemberIndex. case_match; apply uwrap_range; lia. Qed.

Lemma field_is_ok c definer static it : definer = class_idx_ c \/ definer = Catch.kDexNoIndex16 ->
  field_passed h static it -> check_inter_field h d definer it = Done true -> field_ok c static it.
Proof.
  intros Hd Hp H. unfold check_inter_field, CheckLoadFieldId in H. apply bind_Done in H as ([f|] & E & H); [|done]. done_inv E. subst.
  unfold entry in E0. destruct (field_ids_ d !! _) as [f'|] eqn:Hf; [|done]. injection E0 as ->. injection H as H%Z.eqb_eq.
  split.
  - exists f. pose proof (member_index_nonneg it). split; [done|]. split; [done|]. destruct Hd as [->|Hd]; [done|].
    pose proof (field_entry begin Hbytes adler32 sg h Hh Hv Hal types Hpass _ _ Hf) as Hc.
    rewrite (proj1 (type_count begin Hbytes adler32 sg h Hh Hv Hal types Hpass)) in Hc. unfold Catch.kDexNoIndex16 in *. lia.
  - unfold field_passed, check_field_item, CheckClassDataItemField in Hp. injection Hp as Hp.
    rewrite !andb_true_iff in Hp. destruct Hp as [[_ Hs] _]. by apply eqb_prop in Hs.
Qed.

Lemma method_is_ok c definer u direct it : definer = class_idx_ c \/ definer = Catch.kDexNoIndex16 ->
  offset_to_type_map_ u = types ->
  method_passed h direct it -> check_inter_method h d definer u it = Done true -> method_ok c direct it.
Proof.
  intros Hd Hu Hp H. unfold check_inter_method in H. destruct (check_optional _ _ u) eqn:Ho; [|done]. cbn [negb] in H.
  unfold CheckLoadMethodId in H. apply bind_Done in H as ([m|] & E & H); [|done]. done_inv E. subst.
  unfold entry in E0. destruct (method_ids_ d !! _) as [m'|] eqn:Hm; [|done]. injection E0 as ->. injection H as H%Z.eqb_eq.
  unfold method_passed, check_method_item, CheckClassDataItemMethod in Hp. injection Hp as Hp.
  rewrite !andb_true_iff, !negb_true_iff, !andb_false_iff, !negb_false_iff in Hp. destruct Hp as ((((_ & Hdir) & _) & Hc1) & Hc2).
  split; [|split; [by apply eqb_prop in Hdir|split]].
  - exists m. pose proof (member_index_nonneg it). split; [done|]. split; [done|]. destruct Hd as [->|Hd]; [done|].
    edestruct strings_exist as [strs Hstrs]; [done..|exact Hok|exact Hpass|].
    edestruct (method_entry begin Hbytes adler32 sg h Hh Hv Hal types Hpass) as [Hc _]; [exact Hstrs|exact Hm|].
    rewrite (proj1 (type_count begin Hbytes adler32 sg h Hh Hv Hal types Hpass)) in Hc. unfold Catch.kDexNoIndex16 in *. lia.
  - lia.
  - intros Hne. unfold check_optional, CheckOffsetToTypeMap in Ho. rewrite (proj2 (Z.eqb_neq _ _) Hne), Hu in Ho. cbn in Ho.
    destruct (types !! _) as [t|] eqn:Ht; [|done]. apply Z.eqb_eq in Ho. subst t.
    destruct (Hok _ _ Ht) as (_ & p & Hcheck & _). cbv [check_intra_item] in Hcheck.
    apply bind_Done in Hcheck as ([rest|] & Er & Hcheck); [|done]. by exists rest.
Qed.

Lemma members_ok i c : class_defs_ d !! i = Some c -> class_data_off_ c <> 0 ->
  exists ss is_ ds vs fin, data_members (at_offset d (class_data_off_ c)) ss is_ ds vs fin /\
    Forall (field_ok c true) ss /\ Forall (field_ok c false) is_ /\
    Forall (method_ok c true) ds /\ Forall (method_ok c false) vs.
Proof.
  intros Hi Hne. destruct (class_data_of i c Hi Hne) as (Ht & definer & Hdef & Hd).
  destruct (class_data_item _ Ht) as (ss & is_ & ds & vs & fin & definer' & u & Hm & Fs & Fi & Fd & Fv & Hdef' & Hu & Ff & Fm).
  rewrite Hdef in Hdef'. injection Hdef' as <-. exists ss, is_, ds, vs, fin. split; [done|].
  apply Forall_app in Ff as [Ffs Ffi]. apply Forall_app in Fm as [Fmd Fmv].
  assert (forall static l, Forall (field_passed h static) l -> Forall (fun it => check_inter_field h d definer it = Done true) l ->
    Forall (field_ok c static) l) as HF.
  { intros static l H1 H2. apply Forall_forall. intros it Hit. rewrite Forall_forall in H1, H2. eapply field_is_ok; [exact Hd|by apply H1|by apply H2]. }
  assert (forall direct l, Forall (method_passed h direct) l -> Forall (fun it => check_inter_method h d definer u it = Done true) l ->
    Forall (method_ok c direct) l) as HM.
  { intros direct l H1 H2. apply Forall_forall. intros it Hit. rewrite Forall_forall in H1, H2. eapply method_is_ok; [exact Hd|exact Hu|by apply H1|by apply H2]. }
  split_and!; auto.
Qed.
End Verified.
