(* ===== verification/ClassLoad.v ===== *)
(** * ClassLoad: the members of a class are loaded from its dex file
      (runtime/class_linker.cc: LoadClass, LoadClassMembers, LoadField, LoadMethod,
      GetOatMethodIndexFromMethodIndex; runtime/modifiers.h, dex_file.h)

    Fields and methods are objects of a heap that grows; the arrays of the class
    hold references to them.  Whether an allocation succeeds is a parameter, the
    heap's answer to the n-th one.  The calls of LinkCode are recorded; what
    LinkCode does to the entry points of a method is modelled in [Instrument].  A
    class verified by [DexVerifier] loads without a fault. *)

From S2P Require Import Prelude CLib Leb128 Utf HashSet Dex Names DexItems DexCatch DexValues DexDebug DexVerify DexFormat DexVerifier DexVerifierTotal DexVerified DexMembers.
Import ClassData.

(** ** Access flags *)

Definition kAccPublic : Z := 0x0001.
Definition kAccProtected : Z := 0x0004.
Definition kAccFinal : Z := 0x0010.
Definition kAccSuper : Z := 0x0020.
Definition kAccVolatile : Z := 0x0040.
Definition kAccBridge : Z := 0x0040.
Definition kAccTransient : Z := 0x0080.
Definition kAccVarargs : Z := 0x0080.
Definition kAccStrict : Z := 0x0800.
Definition kAccSynthetic : Z := 0x1000.
Definition kAccAnnotation : Z := 0x2000.
Definition kAccEnum : Z := 0x4000.
Definition kAccMiranda : Z := 0x00200000.
Definition kAccClassIsFinalizable : Z := 0x80000000.

Definition flags_of : list Z -> Z := foldr Z.lor 0.
Definition kAccValidFieldFlags : Z :=
  flags_of [kAccPublic; kAccPrivate; kAccProtected; kAccStatic; kAccFinal; kAccVolatile; kAccTransient; kAccSynthetic; kAccEnum].
Definition kAccValidMethodFlags : Z :=
  flags_of [kAccPublic; kAccPrivate; kAccProtected; kAccStatic; kAccFinal; kAccSynchronized; kAccBridge; kAccVarargs;
            kAccNative; kAccAbstract; kAccStrict; kAccSynthetic; kAccMiranda; kAccConstructor; kAccDeclaredSynchronized].
Definition kAccValidClassFlags : Z := flags_of [kAccPublic; kAccFinal; kAccSuper; kAccAbstract; kAccSynthetic; kAccEnum].
Definition kAccValidInterfaceFlags : Z :=
  flags_of [kAccPublic; kAccInterface; kAccAbstract; kAccSynthetic; kAccAnnotation].

Definition GetFieldAccessFlags (it : It) : Z := Z.land (GetRawMemberAccessFlags it) kAccValidFieldFlags.
Definition GetMethodAccessFlags (it : It) : Z := Z.land (GetRawMemberAccessFlags it) kAccValidMethodFlags.
Definition GetJavaAccessFlags (c : ClassDef) : Z :=
  Z.land (access_flags_ c)
    (if negb (Z.land (access_flags_ c) kAccInterface =? 0) then kAccValidInterfaceFlags else kAccValidClassFlags).

(** ** Classes, fields and methods *)

Record ArtField := { dex_field_index_ : Z; field_declaring_class_ : Z; field_access_flags_ : Z }.
Record LoadedMethod := {
  dex_method_index_ : Z; method_declaring_class_ : Z; code_item_offset_ : Z; dex_cache_resolved_methods_ : Z;
  dex_cache_resolved_types_ : Z; method_access_flags_ : Z; method_index_ : Z
}.

(** A class: its reference, its loader ([None] for the boot class path), the
    arrays of its dex cache, and its fields. [None] is a null pointer. *)
Definition array : Type := option (list (option Z)).
Record Class := mkClass {
  c_ref : Z; class_loader_ : option Z; resolved_methods_ : Z; resolved_types_ : Z;
  class_access_flags_ : Z; status_ : Z; dex_class_def_idx_ : Z; dex_type_idx_ : Z;
  sfields_ : array; ifields_ : array; direct_methods_ : array; virtual_methods_ : array
}.
Definition kStatusNotReady : Z := 0.
Definition kStatusIdx : Z := 1.

(** The class, the objects allocated so far, the number of allocations, whether
    a store to an array has thrown, and the calls of LinkCode: the method, its
    index in the dex file and its index in the class.  The OutOfMemoryError of an
    allocation is the [None] it returns. *)
Record LoadState := mkState {
  klass : Class; fields_ : list ArtField; methods_ : list LoadedMethod; allocations : nat; pending : bool;
  links : list (Z * Z * Z)
}.

Definition modify_class (f : Class -> Class) : prog LoadState unit := fun s =>
  Done ((), mkState (f (klass s)) (fields_ s) (methods_ s) (allocations s) (pending s) (links s)).
Definition get_class : prog LoadState Class := fun s => Done (klass s, s).
Definition throw : prog LoadState unit := fun s =>
  Done ((), mkState (klass s) (fields_ s) (methods_ s) (allocations s) true (links s)).

Definition set_flags (flags : Z) (c : Class) : Class :=
  mkClass (c_ref c) (class_loader_ c) (resolved_methods_ c) (resolved_types_ c) flags (status_ c) (dex_class_def_idx_ c)
    (dex_type_idx_ c) (sfields_ c) (ifields_ c) (direct_methods_ c) (virtual_methods_ c).
Definition set_loader (loader : option Z) (c : Class) : Class :=
  mkClass (c_ref c) loader (resolved_methods_ c) (resolved_types_ c) (class_access_flags_ c) (status_ c)
    (dex_class_def_idx_ c) (dex_type_idx_ c) (sfields_ c) (ifields_ c) (direct_methods_ c) (virtual_methods_ c).
Definition set_status (status : Z) (c : Class) : Class :=
  mkClass (c_ref c) (class_loader_ c) (resolved_methods_ c) (resolved_types_ c) (class_access_flags_ c) status
    (dex_class_def_idx_ c) (dex_type_idx_ c) (sfields_ c) (ifields_ c) (direct_methods_ c) (virtual_methods_ c).
Definition set_indices (def_idx type_idx : Z) (c : Class) : Class :=
  mkClass (c_ref c) (class_loader_ c) (resolved_methods_ c) (resolved_types_ c) (class_access_flags_ c) (status_ c)
    def_idx type_idx (sfields_ c) (ifields_ c) (direct_methods_ c) (virtual_methods_ c).

(** The four arrays of a class. *)
Definition array_of (k : kind) (c : Class) : array :=
  match k with
  | StaticField => sfields_ c
  | InstanceField => ifields_ c
  | DirectMethod => direct_methods_ c
  | VirtualMethod => virtual_methods_ c
  end.
Definition set_array (k : kind) (a : array) (c : Class) : Class :=
  mkClass (c_ref c) (class_loader_ c) (resolved_methods_ c) (resolved_types_ c) (class_access_flags_ c) (status_ c)
    (dex_class_def_idx_ c) (dex_type_idx_ c)
    (match k with StaticField => a | _ => sfields_ c end) (match k with InstanceField => a | _ => ifields_ c end)
    (match k with DirectMethod => a | _ => direct_methods_ c end) (match k with VirtualMethod => a | _ => virtual_methods_ c end).

(** [ObjectArray::Set], which checks the index, and [SetWithoutChecks], with which
    virtual methods are set. *)
Definition SetMember (k : kind) (i ref : Z) : prog LoadState unit :=
  c ← get_class;
  match array_of k c with
  | None => pfault NullDeref
  | Some l =>
      if u32 i <? Z.of_nat (length l) then modify_class (set_array k (Some (<[Z.to_nat (u32 i) := Some ref]> l)))
      else match k with VirtualMethod => pfault OutOfBounds | _ => throw end
  end.

Section Loader.
(** The answer of the heap to the n-th allocation, and the dex file of the class. *)
Context (heap : nat -> bool) (d : DexFile).

(** ** Allocation *)

Definition Alloc : prog LoadState bool := fun s =>
  Done (heap (allocations s), mkState (klass s) (fields_ s) (methods_ s) (S (allocations s)) (pending s) (links s)).

(** An object with zero in its fields. *)
Definition new_field : prog LoadState Z := fun s =>
  Done (Z.of_nat (length (fields_ s)),
        mkState (klass s) (fields_ s ++ [{| dex_field_index_ := 0; field_declaring_class_ := 0; field_access_flags_ := 0 |}])
          (methods_ s) (allocations s) (pending s) (links s)).
Definition new_method : prog LoadState Z := fun s =>
  Done (Z.of_nat (length (methods_ s)),
        mkState (klass s) (fields_ s)
          (methods_ s ++ [{| dex_method_index_ := 0; method_declaring_class_ := 0; code_item_offset_ := 0;
                             dex_cache_resolved_methods_ := 0; dex_cache_resolved_types_ := 0;
                             method_access_flags_ := 0; method_index_ := 0 |}])
          (allocations s) (pending s) (links s)).
(** [None] when there is no memory. *)
Definition AllocArtField : prog LoadState (option Z) :=
  ok ← Alloc; if ok : bool then ref ← new_field; mret (Some ref) else mret None.
Definition AllocArtMethod : prog LoadState (option Z) :=
  ok ← Alloc; if ok : bool then ref ← new_method; mret (Some ref) else mret None.
(** AllocArtFieldArray and AllocArtMethodArray, for one of the arrays of the class. *)
Definition AllocArray (k : kind) (length : Z) : prog LoadState bool :=
  ok ← Alloc;
  if ok : bool then _ ← modify_class (set_array k (Some (replicate (Z.to_nat length) None))); mret true else mret false.

(** Writes to an object. *)
Definition write_field (ref : Z) (f : ArtField) : prog LoadState unit := fun s =>
  if (ref <? 0) || (Z.of_nat (length (fields_ s)) <=? ref) then Fault NullDeref
  else Done ((), mkState (klass s) (<[Z.to_nat ref := f]> (fields_ s)) (methods_ s) (allocations s) (pending s) (links s)).
Definition write_method (ref : Z) (f : LoadedMethod -> LoadedMethod) : prog LoadState unit := fun s =>
  match methods_ s !! Z.to_nat ref with
  | Some m => Done ((), mkState (klass s) (fields_ s) (<[Z.to_nat ref := f m]> (methods_ s)) (allocations s) (pending s) (links s))
  | None => Fault NullDeref
  end.

(** ** Fields and methods *)

Definition LoadField (it : It) (dst : Z) : prog LoadState unit :=
  c ← get_class;
  write_field dst {| dex_field_index_ := GetMemberIndex it; field_declaring_class_ := c_ref c;
                     field_access_flags_ := GetFieldAccessFlags it |}.

Definition GetShorty (proto_idx : Z) : cres (option (list Z)) :=
  proto ← entry (proto_ids_ d) proto_idx; StringDataByIdx d (shorty_idx_ proto).

(** A string of the dex file for strcmp. *)
Definition string_of (p : cres (option (list Z))) : cres cstr := p ← p; p ← Sig.not_null p; c_str p.

(** [Class::GetDescriptor] of a class that has a definition. *)
Definition GetDescriptor (c : Class) : cres cstr :=
  if dex_class_def_idx_ c =? Catch.kDexNoIndex16 then Fault NullDeref
  else def ← entry (class_defs_ d) (dex_class_def_idx_ c); string_of (StringByTypeIdx d (class_idx_ def)).

(** A finalize method without parameters and result makes its class finalizable,
    unless it is that of Object or Enum. *)
Definition check_finalizer (method_id : MethodId) : prog LoadState unit :=
  shorty ← plift (string_of (GetShorty (method_proto_idx_ method_id)));
  if streq (lit "V") shorty then
    c ← get_class;
    match class_loader_ c with
    | Some _ => modify_class (fun c => set_flags (Z.lor (class_access_flags_ c) kAccClassIsFinalizable) c)
    | None =>
        descriptor ← plift (GetDescriptor c);
        if negb (streq descriptor (lit "Ljava/lang/Object;")) && negb (streq descriptor (lit "Ljava/lang/Enum;"))
        then modify_class (fun c => set_flags (Z.lor (class_access_flags_ c) kAccClassIsFinalizable) c)
        else mret ()
    end
  else mret ().

(** The access flags of a method with a name; initializers are constructors. *)
Definition fix_flags (method_name : cstr) (access_flags : Z) : Z :=
  if streq (lit "<init>") method_name || streq (lit "<clinit>") method_name then
    if Z.land access_flags kAccConstructor =? 0 then Z.lor access_flags kAccConstructor else access_flags
  else access_flags.

Definition LoadMethod (it : It) : prog LoadState (option Z) :=
  let dex_method_idx := GetMemberIndex it in
  method_id ← plift (entry (method_ids_ d) dex_method_idx);
  name ← plift (StringDataByIdx d (method_name_idx_ method_id));
  dst ← AllocArtMethod;
  match dst with
  | None => mret None
  | Some dst =>
      c ← get_class;
      _ ← write_method dst (fun m =>
            {| dex_method_index_ := dex_method_idx; method_declaring_class_ := c_ref c;
               code_item_offset_ := GetMethodCodeItemOffset it; dex_cache_resolved_methods_ := resolved_methods_ c;
               dex_cache_resolved_types_ := resolved_types_ c; method_access_flags_ := method_access_flags_ m;
               method_index_ := method_index_ m |});
      name ← plift (p ← Sig.not_null name; c_str p);
      _ ← (if streq (lit "finalize") name then check_finalizer method_id else mret ());
      _ ← write_method dst (fun m =>
            {| dex_method_index_ := dex_method_index_ m; method_declaring_class_ := method_declaring_class_ m;
               code_item_offset_ := code_item_offset_ m; dex_cache_resolved_methods_ := dex_cache_resolved_methods_ m;
               dex_cache_resolved_types_ := dex_cache_resolved_types_ m;
               method_access_flags_ := fix_flags name (GetMethodAccessFlags it); method_index_ := method_index_ m |});
      mret (Some dst)
  end.

Definition SetMethodIndex (ref new_method_index : Z) : prog LoadState unit :=
  write_method ref (fun m =>
    {| dex_method_index_ := dex_method_index_ m; method_declaring_class_ := method_declaring_class_ m;
       code_item_offset_ := code_item_offset_ m; dex_cache_resolved_methods_ := dex_cache_resolved_methods_ m;
       dex_cache_resolved_types_ := dex_cache_resolved_types_ m; method_access_flags_ := method_access_flags_ m;
       method_index_ := u16 new_method_index |}).

(** A call of LinkCode.  It sets the entry points of the method, which the objects of
    this file do not have; which code it chooses is [Instrument.LinkCode].  Here the
    call is recorded, with the indices it is made with. *)
Definition call_LinkCode (method dex_method_index method_index : Z) : prog LoadState unit := fun s =>
  Done ((), mkState (klass s) (fields_ s) (methods_ s) (allocations s) (pending s)
              (links s ++ [(method, dex_method_index, method_index)])).

(** ** The members of a class *)

Definition NumStaticFields (it : It) : Z := static_fields_size_ (header_ it).

(** The arrays, when they are not empty; [false] when there is no memory. *)
Definition alloc_array (k : kind) (size : Z) : prog LoadState bool :=
  if negb (size =? 0) then AllocArray k size else mret true.

Definition has_next (k : kind) : It -> bool :=
  match k with
  | StaticField => HasNextStaticField
  | InstanceField => HasNextInstanceField
  | DirectMethod => HasNextDirectMethod
  | VirtualMethod => HasNextVirtualMethod
  end.

(** The loops over the fields of a kind; [None] when there is no memory. *)
Fixpoint load_fields (fuel : nat) (k : kind) (i : Z) (it : It) : prog LoadState (option It) :=
  if has_next k it then
    match fuel with
    | O => pfault OutOfFuel
    | S fuel =>
        field ← AllocArtField;
        match field with
        | None => mret None
        | Some field =>
            _ ← SetMember k i field;
            _ ← LoadField it field;
            next ← plift (Next it);
            load_fields fuel k (i + 1) next
        end
    end
  else mret (Some it).

(** The loop over the direct methods; methods with the same index of the dex file
    get the same index.  The index behind the last method. *)
Fixpoint load_directs (fuel : nat) (i class_def_method_index last_dex_method_index last_class_def_method_index : Z) (it : It)
    : prog LoadState (option (It * Z)) :=
  if HasNextDirectMethod it then
    match fuel with
    | O => pfault OutOfFuel
    | S fuel =>
        method ← LoadMethod it;
        match method with
        | None => mret None
        | Some method =>
            _ ← SetMember DirectMethod i method;
            _ ← call_LinkCode method (GetMemberIndex it) class_def_method_index;
            let it_method_index := GetMemberIndex it in
            let duplicate := last_dex_method_index =? it_method_index in
            _ ← SetMethodIndex method (if duplicate then last_class_def_method_index else class_def_method_index);
            next ← plift (Next it);
            load_directs fuel (i + 1) (class_def_method_index + 1)
              (if duplicate then last_dex_method_index else it_method_index)
              (if duplicate then last_class_def_method_index else class_def_method_index) next
        end
    end
  else mret (Some (it, class_def_method_index)).

Fixpoint load_virtuals (fuel : nat) (i class_def_method_index : Z) (it : It) : prog LoadState (option It) :=
  if HasNextVirtualMethod it then
    match fuel with
    | O => pfault OutOfFuel
    | S fuel =>
        method ← LoadMethod it;
        match method with
        | None => mret None
        | Some method =>
            _ ← SetMember VirtualMethod i method;
            _ ← call_LinkCode method (GetMemberIndex it) class_def_method_index;
            next ← plift (Next it);
            load_virtuals fuel (i + 1) (class_def_method_index + 1) next
        end
    end
  else mret (Some it).

(** What follows a step that may have run out of memory. *)
Definition when {A B} (m : prog LoadState (option A)) (k : A -> prog LoadState (option B)) : prog LoadState (option B) :=
  r ← m; match r with Some a => k a | None => mret None end.
Definition unless_oom {B} (m : prog LoadState bool) (k : prog LoadState (option B)) : prog LoadState (option B) :=
  ok ← m; if ok : bool then k else mret None.

(** Every member has at least a byte, so the length of the data is enough fuel.
    [None] when the memory was not enough. *)
Definition LoadClassMembers (class_data : list Z) : prog LoadState (option unit) :=
  let fuel := S (length class_data) in
  it ← plift (new_It (Some class_data));
  unless_oom (alloc_array StaticField (NumStaticFields it)) (
  unless_oom (alloc_array InstanceField (NumInstanceFields it)) (
  when (load_fields fuel StaticField 0 it) (fun it =>
  when (load_fields fuel InstanceField 0 it) (fun it =>
  unless_oom (alloc_array DirectMethod (NumDirectMethods it)) (
  unless_oom (alloc_array VirtualMethod (NumVirtualMethods it)) (
  when (load_directs fuel 0 0 kDexNoIndex 0 it) (fun '(it, class_def_method_index) =>
  when (load_virtuals fuel 0 class_def_method_index it) (fun _ => mret (Some ()))))))))).

Definition GetClassData (class_def : ClassDef) : option (list Z) :=
  if class_data_off_ class_def =? 0 then None else Some (at_offset d (class_data_off_ class_def)).

(** The class of definition [idx]. *)
Definition LoadClass (idx : Z) (class_loader : option Z) : prog LoadState (option unit) :=
  c ← get_class;
  if negb (status_ c =? kStatusNotReady) then pfault Aborted
  else
    def ← plift (entry (class_defs_ d) idx);
    descriptor ← plift (GetClassDescriptor d def);
    match descriptor with
    | None => pfault Aborted
    | Some _ =>
        let access_flags := GetJavaAccessFlags def in
        if negb (Z.land access_flags (Z.lnot kAccJavaFlagsMask) =? 0) then pfault Aborted
        else
          _ ← modify_class (set_flags access_flags);
          _ ← modify_class (set_loader class_loader);
          _ ← modify_class (set_status kStatusIdx);
          _ ← modify_class (set_indices (u16 idx) (class_idx_ def));
          match GetClassData def with
          | None => mret (Some ())
          | Some class_data => LoadClassMembers class_data
          end
    end.

(** The index of a method in its class, by its index in the dex file. *)
Fixpoint skip_members (fuel : nat) (k : kind) (it : It) : cres It :=
  if has_next k it then
    match fuel with O => Fault OutOfFuel | S fuel => next ← Next it; skip_members fuel k next end
  else Done it.
Fixpoint find_method (fuel : nat) (k : kind) (method_idx index : Z) (it : It) : cres (sum (It * Z) Z) :=
  if has_next k it then
    match fuel with
    | O => Fault OutOfFuel
    | S fuel =>
        if GetMemberIndex it =? method_idx then Done (inr index)
        else next ← Next it; find_method fuel k method_idx (index + 1) next
    end
  else Done (inl (it, index)).
Definition GetOatMethodIndexFromMethodIndex (class_def_idx method_idx : Z) : cres Z :=
  class_def ← entry (class_defs_ d) class_def_idx;
  match GetClassData class_def with
  | None => Fault Aborted
  | Some class_data =>
      let fuel := S (length class_data) in
      it ← new_It (Some class_data);
      it ← skip_members fuel StaticField it;
      it ← skip_members fuel InstanceField it;
      r ← find_method fuel DirectMethod method_idx 0 it;
      match r with
      | inr index => Done index
      | inl (it, index) =>
          r ← find_method fuel VirtualMethod method_idx index it;
          match r with inr index => Done index | inl _ => Fault Aborted end
      end
  end.
End Loader.

(** ** How many members are loaded *)

Definition count_of (k : kind) (it : It) : Z :=
  match k with
  | StaticField => NumStaticFields it
  | InstanceField => NumInstanceFields it
  | DirectMethod => NumDirectMethods it
  | VirtualMethod => NumVirtualMethods it
  end.

Lemma count_header k it it' : header_ it' = header_ it -> count_of k it' = count_of k it.
Proof. by destruct k; unfold count_of, NumStaticFields, NumInstanceFields, NumDirectMethods, NumVirtualMethods; intros ->. Qed.

(** Iterators as the constructor and Next leave them. *)
Definition it_ok (it : It) : Prop := 0 <= pos_ it /\ forall k, in_u 32 (count_of k it).

Lemma header_sizes p h r : ReadClassDataHeader p = Done (h, r) ->
  in_u 32 (static_fields_size_ h) /\ in_u 32 (instance_fields_size_ h) /\ in_u 32 (direct_methods_size_ h) /\
  in_u 32 (virtual_methods_size_ h).
Proof.
  unfold ReadClassDataHeader. intros H. done_inv H. simplify_eq.
  repeat match goal with E : DecodeUnsignedLeb128 _ = _ |- _ =>
    apply (post_result _ _ _ (post_uleb _)) in E as [? _] end. done.
Qed.
Lemma new_It_counts p it : new_It (Some p) = Done it -> it_ok it /\ pos_ it = 0.
Proof.
  cbn [new_It]. unfold ReadClassDataField, ReadClassDataMethod. intros H. done_inv H; subst;
    (apply header_sizes in E as (? & ? & ? & ?); split; [split; [cbn; lia|by intros []]|done]).
Qed.
Lemma next_it_ok it next : it_ok it -> Next it = Done next -> it_ok next.
Proof.
  intros [_ Hc] [Hh Hp]%next_pos. split; [rewrite Hp; by apply uwrap_range|]. intros k. by rewrite (count_header k it).
Qed.
Lemma runs_it_ok P it l fin : it_ok it -> runs P it l fin -> it_ok fin /\ header_ fin = header_ it.
Proof.
  intros Hit. induction 1 as [it Hp|it next l fin Hp Hn _ IH]; [done|]. destruct (next_pos _ _ Hn) as [Hh _].
  destruct IH as [? ?]; [by eapply next_it_ok|]. split; [done|congruence].
Qed.

Lemma has_next_any k it : has_next k it = true -> any_next it = true.
Proof. unfold any_next. destruct k; cbn; intros ->; by rewrite ?orb_true_r. Qed.

(** There are no more members of a kind than the header says, also when the sums
    of its sizes wrap around. *)
Lemma u32_le x : 0 <= x -> u32 x <= x.
Proof. intros. apply Z.mod_le; lia. Qed.
Lemma runs_count k it l fin : it_ok it -> runs (has_next k) it l fin -> Z.of_nat (length l) <= count_of k it.
Proof.
  intros [H0 Hc] Hr. assert (in_u 32 (count_of k it)) as Hk by done. destruct l as [|x l]; [destruct Hk; cbn; lia|].
  assert (has_next k it = true) as Hn by (by inversion Hr).
  pose proof (Hc StaticField) as [Hs _]. pose proof (Hc InstanceField) as [Hi _].
  pose proof (Hc DirectMethod) as [Hd _]. pose proof (Hc VirtualMethod) as [Hv _]. cbn [count_of] in *.
  assert (forall hi lo, in_u 32 hi -> (forall x, has_next k x = true -> header_ x = header_ it -> pos_ x < hi) ->
    lo <= pos_ it -> hi <= lo + count_of k it -> Z.of_nat (length (x :: l)) <= count_of k it) as Hfin.
  { intros hi lo Hu HP Hlo Hhi. destruct (runs_positions _ hi _ _ _ H0 Hu HP Hr) as [?|?]; [done|lia]. }
  assert (forall z, in_u 32 (u32 z)) as Hu by (intros; by apply uwrap_range).
  destruct k; cbn [has_next count_of] in *.
  - apply (Hfin (EndOfStaticFieldsPos it) 0); [done| |done|cbn; done]. unfold HasNextStaticField, EndOfStaticFieldsPos.
    intros y Hy <-. lia.
  - apply andb_true_iff in Hn as [Hn _]. apply (Hfin (EndOfInstanceFieldsPos it) (EndOfStaticFieldsPos it)); [apply Hu| |lia|].
    + unfold HasNextInstanceField, EndOfInstanceFieldsPos, EndOfStaticFieldsPos. intros y Hy <-. lia.
    + apply u32_le. unfold NumInstanceFields, NumStaticFields in *. unfold EndOfStaticFieldsPos. lia.
  - apply andb_true_iff in Hn as [Hn _]. apply (Hfin (EndOfDirectMethodsPos it) (EndOfInstanceFieldsPos it)); [apply Hu| |lia|].
    + unfold HasNextDirectMethod, EndOfDirectMethodsPos, EndOfInstanceFieldsPos, EndOfStaticFieldsPos. intros y Hy <-. lia.
    + apply u32_le. unfold NumDirectMethods in *. pose proof (Hu (EndOfStaticFieldsPos it + instance_fields_size_ (header_ it))) as [? _].
      unfold EndOfInstanceFieldsPos. lia.
  - apply andb_true_iff in Hn as [Hn _]. apply (Hfin (EndOfVirtualMethodsPos it) (EndOfDirectMethodsPos it)); [apply Hu| |lia|].
    + unfold HasNextVirtualMethod, EndOfVirtualMethodsPos, EndOfDirectMethodsPos, EndOfInstanceFieldsPos, EndOfStaticFieldsPos.
      intros y Hy <-. lia.
    + apply u32_le. unfold NumVirtualMethods in *. pose proof (Hu (EndOfInstanceFieldsPos it + direct_methods_size_ (header_ it))) as [? _].
      unfold EndOfDirectMethodsPos. lia.
Qed.

(** ** What the loops do *)

Lemma array_of_set k a c : array_of k (set_array k a c) = a.
Proof. by destruct k. Qed.
Lemma array_of_other k k' a c : k <> k' -> array_of k (set_array k' a c) = array_of k c.
Proof. by destruct k, k'. Qed.
Lemma set_array_twice k a b c : set_array k a (set_array k b c) = set_array k a c.
Proof. by destruct k. Qed.
Lemma set_array_same k a c : array_of k c = a -> set_array k a c = c.
Proof. intros <-. by destruct c, k. Qed.

(** The slots from [i] on, filled with references from [ref] on. *)
Definition fill (i ref n : nat) (a : list (option Z)) : list (option Z) := list_inserts i (map (fun r => Some (Z.of_nat r)) (seq ref n)) a.
Lemma fill_length i ref n a : length (fill i ref n a) = length a.
Proof. apply length_inserts. Qed.
Lemma fill_S i ref n a : fill (S i) (S ref) n (<[i := Some (Z.of_nat ref)]> a) = fill i ref (S n) a.
Proof. unfold fill. cbn [seq map list_inserts]. symmetry. apply list_insert_inserts_lt. lia. Qed.
Lemma fill_O i ref a : fill i ref 0 a = a.
Proof. done. Qed.

Definition field_of (ref : Z) (it : It) : ArtField :=
  {| dex_field_index_ := GetMemberIndex it; field_declaring_class_ := ref; field_access_flags_ := GetFieldAccessFlags it |}.

Lemma set_member k i ref s a : array_of k (klass s) = Some a -> 0 <= i < Z.of_nat (length a) -> i < 2 ^ 32 ->
  SetMember k i ref s = Done ((), mkState (set_array k (Some (<[Z.to_nat i := Some ref]> a)) (klass s)) (fields_ s) (methods_ s)
                                    (allocations s) (pending s) (links s)).
Proof.
  intros Ha Hi Hi32. unfold SetMember, get_class. unfold mbind, prog_bind. rewrite Ha.
  rewrite uwrap_small by (unfold in_u; lia). by rewrite (proj2 (Z.ltb_lt _ _)) by lia.
Qed.

Section Specs.
Context (heap : nat -> bool) (d : DexFile).

Lemma alloc_field s : AllocArtField heap s =
  if heap (allocations s) then
    Done (Some (Z.of_nat (length (fields_ s))),
          mkState (klass s) (fields_ s ++ [{| dex_field_index_ := 0; field_declaring_class_ := 0; field_access_flags_ := 0 |}])
            (methods_ s) (S (allocations s)) (pending s) (links s))
  else Done (None, mkState (klass s) (fields_ s) (methods_ s) (S (allocations s)) (pending s) (links s)).
Proof. unfold AllocArtField, Alloc, mbind, prog_bind. by destruct (heap (allocations s)). Qed.

Lemma load_field it c fs ms al p lk x :
  LoadField it (Z.of_nat (length fs)) (mkState c (fs ++ [x]) ms al p lk) =
  Done ((), mkState c (fs ++ [field_of (c_ref c) it]) ms al p lk).
Proof.
  unfold LoadField, get_class, write_field, mbind, prog_bind. cbn [klass fields_].
  rewrite (proj2 (Z.ltb_ge _ _)), (proj2 (Z.leb_gt _ _)) by (rewrite ?length_app; cbn [length]; lia). cbn [orb].
  by rewrite Nat2Z.id, insert_app_r_alt, Nat.sub_diag by lia.
Qed.

(** The fields of a kind: some of them first, all of them when there is memory. *)
Lemma load_fields_ok k it l fin : runs (has_next k) it l fin -> forall fuel i s a,
  (length l <= fuel)%nat -> Z.of_nat (i + length l) < 2 ^ 32 -> array_of k (klass s) = Some a -> (i + length l <= length a)%nat ->
  exists l1 r al, load_fields heap fuel k (Z.of_nat i) it s =
    Done (r, mkState (set_array k (Some (fill i (length (fields_ s)) (length l1) a)) (klass s))
               (fields_ s ++ map (field_of (c_ref (klass s))) l1) (methods_ s) al (pending s) (links s)) /\
    l1 `prefix_of` l /\ (r = Some fin /\ l1 = l \/ r = None /\ exists n, heap n = false).
Proof.
  induction 1 as [it Hp|it next l fin Hp Hn Hr IH]; intros fuel i s a Hf Hi Ha Hl.
  { exists [], (Some it), (allocations s). destruct fuel; cbn [load_fields]; rewrite Hp, fill_O, app_nil_r, set_array_same by done;
      (split; [by destruct s|]); (split; [done|]); by left. }
  destruct fuel as [|fuel]; [cbn in Hf; lia|]. cbn [load_fields length] in *. rewrite Hp.
  unfold mbind at 1, prog_bind at 1. rewrite alloc_field. destruct (heap (allocations s)) eqn:Hh.
  2: { exists [], None, (S (allocations s)). rewrite fill_O, app_nil_r, set_array_same by done. split; [done|].
       split; [apply prefix_nil|]. right. split; [done|]. by exists (allocations s). }
  unfold mbind at 1, prog_bind at 1. rewrite (set_member _ _ _ _ a) by (done || cbn; lia). rewrite Nat2Z.id. cbn [klass fields_ methods_ allocations pending links].
  unfold mbind at 1, prog_bind at 1. rewrite load_field. unfold mbind at 1, prog_bind at 1, plift. rewrite Hn.
  replace (Z.of_nat i + 1) with (Z.of_nat (S i)) by lia.
  edestruct (IH fuel (S i)) as (l1 & r & al & -> & Hpre & Hres); [lia|lia|apply array_of_set|rewrite length_insert; lia|].
  exists (it :: l1), r, al. cbn [klass fields_ methods_ allocations pending links length map]. split; [|split].
  - rewrite set_array_twice, length_app, Nat.add_1_r, fill_S, <- app_assoc. by destruct k.
  - by apply prefix_cons.
  - destruct Hres as [[-> ->]|?]; [by left|by right].
Qed.

Lemma alloc_method s : AllocArtMethod heap s =
  if heap (allocations s) then
    Done (Some (Z.of_nat (length (methods_ s))),
          mkState (klass s) (fields_ s)
            (methods_ s ++ [{| dex_method_index_ := 0; method_declaring_class_ := 0; code_item_offset_ := 0;
                               dex_cache_resolved_methods_ := 0; dex_cache_resolved_types_ := 0;
                               method_access_flags_ := 0; method_index_ := 0 |}])
            (S (allocations s)) (pending s) (links s))
  else Done (None, mkState (klass s) (fields_ s) (methods_ s) (S (allocations s)) (pending s) (links s)).
Proof. unfold AllocArtMethod, Alloc, mbind, prog_bind. by destruct (heap (allocations s)). Qed.

(** A method whose name, prototype and class can be read. *)
Definition loadable (it : It) : Prop :=
  exists m name shorty, entry (method_ids_ d) (GetMemberIndex it) = Done m /\
    string_of (StringDataByIdx d (method_name_idx_ m)) = Done name /\ string_of (GetShorty d (method_proto_idx_ m)) = Done shorty.
Definition described (c : Class) : Prop := exists descriptor, GetDescriptor d c = Done descriptor.

Record method_loaded (c : Class) (it : It) (m : LoadedMethod) : Prop := {
  ml_index : dex_method_index_ m = GetMemberIndex it;
  ml_class : method_declaring_class_ m = c_ref c;
  ml_code : code_item_offset_ m = GetMethodCodeItemOffset it;
  ml_methods : dex_cache_resolved_methods_ m = resolved_methods_ c;
  ml_types : dex_cache_resolved_types_ m = resolved_types_ c;
  ml_flags : exists id name, entry (method_ids_ d) (GetMemberIndex it) = Done id /\
    string_of (StringDataByIdx d (method_name_idx_ id)) = Done name /\
    method_access_flags_ m = fix_flags name (GetMethodAccessFlags it)
}.

Lemma set_flags_same c : set_flags (class_access_flags_ c) c = c.
Proof. by destruct c. Qed.
Lemma described_flags fl c : described (set_flags fl c) <-> described c.
Proof. done. Qed.

Lemma check_finalizer_ok id shorty s : string_of (GetShorty d (method_proto_idx_ id)) = Done shorty -> described (klass s) ->
  exists fl, check_finalizer d id s =
    Done ((), mkState (set_flags fl (klass s)) (fields_ s) (methods_ s) (allocations s) (pending s) (links s)).
Proof.
  intros Hs [descriptor Hd]. unfold check_finalizer, get_class, modify_class, plift, mbind, prog_bind. rewrite Hs.
  destruct (streq (lit "V") shorty); [destruct (class_loader_ (klass s))|].
  - by eexists.
  - rewrite Hd. case_match; [by eexists|]. exists (class_access_flags_ (klass s)). rewrite set_flags_same. by destruct s.
  - exists (class_access_flags_ (klass s)). rewrite set_flags_same. by destruct s.
Qed.

Lemma write_last ref f c fs ms m al p lk : ref = Z.of_nat (length ms) ->
  write_method ref f (mkState c fs (ms ++ [m]) al p lk) = Done ((), mkState c fs (ms ++ [f m]) al p lk).
Proof.
  intros ->. unfold write_method. cbn [methods_]. rewrite Nat2Z.id, list_lookup_middle by done.
  by rewrite insert_app_r_alt, Nat.sub_diag by lia.
Qed.

Lemma load_method_ok it s : loadable it -> described (klass s) ->
  (heap (allocations s) = false /\
   LoadMethod heap d it s = Done (None, mkState (klass s) (fields_ s) (methods_ s) (S (allocations s)) (pending s) (links s))) \/
  (heap (allocations s) = true /\ exists m fl, LoadMethod heap d it s =
     Done (Some (Z.of_nat (length (methods_ s))),
           mkState (set_flags fl (klass s)) (fields_ s) (methods_ s ++ [m]) (S (allocations s)) (pending s) (links s)) /\
     method_loaded (klass s) it m).
Proof.
  intros (id & name & shorty & Hid & Hname & Hshorty) Hd. unfold LoadMethod.
  pose proof Hname as Hn. unfold string_of in Hn. apply bind_Done in Hn as (p & Hp & Hn).
  erewrite prog_bind_step by (by apply plift_step). erewrite prog_bind_step by (by apply plift_step).
  destruct (heap (allocations s)) eqn:Hh; [right|left; split; [done|]; erewrite prog_bind_step by (by rewrite alloc_method, Hh); done].
  erewrite prog_bind_step by (by rewrite alloc_method, Hh). cbn beta iota.
  erewrite prog_bind_step by done. erewrite prog_bind_step by (by apply write_last).
  erewrite prog_bind_step by (by apply plift_step). cbn [klass].
  assert (forall s, described (klass s) -> exists fl, (if streq (lit "finalize") name then check_finalizer d id else mret ()) s =
    Done ((), mkState (set_flags fl (klass s)) (fields_ s) (methods_ s) (allocations s) (pending s) (links s))) as Hfin.
  { intros t Ht. destruct (streq _ name); [by eapply check_finalizer_ok|]. exists (class_access_flags_ (klass t)).
    rewrite set_flags_same. by destruct t. }
  edestruct Hfin as [fl Hfl]; [|erewrite prog_bind_step by exact Hfl]; [exact Hd|].
  cbn [klass fields_ methods_ allocations pending links]. erewrite prog_bind_step by (by apply write_last).
  split; [done|]. eexists _, fl. split; [done|]. split; try done. exists id, name. by split_and!.
Qed.

Lemma flags_array k a fl c : set_array k a (set_flags fl c) = set_flags fl (set_array k a c).
Proof. done. Qed.
Lemma flags_twice fl fl' c : set_flags fl (set_flags fl' c) = set_flags fl c.
Proof. done. Qed.

(** The references of methods and their indices that LinkCode is called with. *)
Definition links_of (ref : nat) (index : Z) (l : list It) : list (Z * Z * Z) :=
  imap (fun j it => (Z.of_nat (ref + j), GetMemberIndex it, index + Z.of_nat j)) l.
Lemma links_of_cons ref index it l :
  links_of ref index (it :: l) = (Z.of_nat ref, GetMemberIndex it, index) :: links_of (S ref) (index + 1) l.
Proof.
  unfold links_of. rewrite imap_cons. rewrite Nat.add_0_r, Z.add_0_r. f_equal. apply imap_ext. intros j x _. cbn. f_equal; [f_equal|]; lia.
Qed.

(** The indices that the direct methods get: that of the method before when both
    are the same method of the dex file. *)
Fixpoint direct_indices (last_dex last index : Z) (l : list It) : list Z :=
  match l with
  | [] => []
  | it :: l =>
      let j := if last_dex =? GetMemberIndex it then last else index in
      u16 j :: direct_indices (GetMemberIndex it) j (index + 1) l
  end.

Lemma set_loaded k i fl s a m : array_of k (klass s) = Some a -> (i < length a)%nat -> Z.of_nat i < 2 ^ 32 ->
  SetMember k (Z.of_nat i) (Z.of_nat (length (methods_ s)))
    (mkState (set_flags fl (klass s)) (fields_ s) (methods_ s ++ [m]) (S (allocations s)) (pending s) (links s)) =
  Done ((), mkState (set_flags fl (set_array k (Some (<[i := Some (Z.of_nat (length (methods_ s)))]> a)) (klass s))) (fields_ s)
              (methods_ s ++ [m]) (S (allocations s)) (pending s) (links s)).
Proof.
  intros Ha Hi Hi32. rewrite (set_member k _ _ _ a) by first [lia|by destruct k]. by rewrite Nat2Z.id.
Qed.

Lemma loaded_flags fl k a c it m : method_loaded (set_flags fl (set_array k a c)) it m -> method_loaded c it m.
Proof. intros []. by constructor. Qed.

(** Nothing happens in a loop that is at its end, or that finds no memory. *)
Lemma same_state k a fl s : array_of k (klass s) = Some a -> fl = class_access_flags_ (klass s) ->
  mkState (set_flags fl (set_array k (Some a) (klass s))) (fields_ s) (methods_ s ++ []) (allocations s) (pending s) (links s ++ []) = s.
Proof. intros Ha ->. rewrite !app_nil_r, set_array_same, set_flags_same by done. by destruct s. Qed.

Lemma load_directs_ok it l fin : runs HasNextDirectMethod it l fin -> forall fuel i index last_dex last s a,
  Forall loadable l -> described (klass s) -> (length l <= fuel)%nat -> Z.of_nat (i + length l) < 2 ^ 32 ->
  array_of DirectMethod (klass s) = Some a -> (i + length l <= length a)%nat ->
  exists l1 r al fl ms, load_directs heap d fuel (Z.of_nat i) index last_dex last it s =
    Done (r, mkState (set_flags fl (set_array DirectMethod (Some (fill i (length (methods_ s)) (length l1) a)) (klass s)))
               (fields_ s) (methods_ s ++ ms) al (pending s) (links s ++ links_of (length (methods_ s)) index l1)) /\
    Forall2 (method_loaded (klass s)) l1 ms /\ map method_index_ ms = direct_indices last_dex last index l1 /\
    l1 `prefix_of` l /\ (r = Some (fin, index + Z.of_nat (length l)) /\ l1 = l \/ r = None /\ exists n, heap n = false).
Proof.
  induction 1 as [it Hp|it next l fin Hp Hn Hr IH]; intros fuel i index last_dex last s a Hl Hd Hf Hi Ha Hlen.
  { exists [], (Some (it, index)), (allocations s), (class_access_flags_ (klass s)), []. rewrite fill_O. cbn [links_of imap length].
    rewrite Z.add_0_r, (same_state _ a) by done. destruct fuel; cbn [load_directs]; rewrite Hp;
      by split_and!; [|constructor| | |left]. }
  apply Forall_cons in Hl as [Hit Hl]. destruct fuel as [|fuel]; [cbn in Hf; lia|]. cbn [load_directs length] in *. rewrite Hp.
  destruct (load_method_ok it s Hit Hd) as [[Hh E]|(Hh & m & fl & E & Hm)]; erewrite prog_bind_step by exact E.
  { exists [], None, (S (allocations s)), (class_access_flags_ (klass s)), []. rewrite fill_O. cbn [links_of imap length].
    rewrite !app_nil_r, set_array_same, set_flags_same by done.
    split_and!; [done|constructor|done|apply prefix_nil|right]. split; [done|]. by exists (allocations s). }
  cbn beta iota. erewrite prog_bind_step by (apply (set_loaded _ _ _ _ a); [done|lia|lia]). erewrite prog_bind_step by done.
  cbn [klass fields_ methods_ allocations pending links]. unfold SetMethodIndex. erewrite prog_bind_step by (by apply write_last).
  erewrite prog_bind_step by (by apply plift_step).
  assert ((if last_dex =? GetMemberIndex it then last_dex else GetMemberIndex it) = GetMemberIndex it) as ->
    by (destruct (Z.eqb_spec last_dex (GetMemberIndex it)); done).
  replace (Z.of_nat i + 1) with (Z.of_nat (S i)) by lia.
  edestruct (IH fuel (S i)) as (l1 & r & al & fl' & ms & -> & Hms & Hix & Hpre & Hres);
    [done|exact Hd|lia|lia|done|rewrite length_insert; lia|].
  exists (it :: l1), r, al, fl'. cbn [klass fields_ methods_ allocations pending links length]. eexists (_ :: ms).
  rewrite flags_array, flags_twice, set_array_twice, length_app, Nat.add_1_r, fill_S, links_of_cons, <- !app_assoc.
  split; [done|]. split; [constructor; [destruct Hm; by constructor|]|].
  - eapply Forall2_impl; [exact Hms|]. intros x y. apply loaded_flags.
  - split; [cbn [map direct_indices]; by rewrite Hix|]. split; [by apply prefix_cons|].
    destruct Hres as [[-> ->]|?]; [left; split; [do 2 f_equal; lia|done]|by right].
Qed.

Lemma load_virtuals_ok it l fin : runs HasNextVirtualMethod it l fin -> forall fuel i index s a,
  Forall loadable l -> described (klass s) -> (length l <= fuel)%nat -> Z.of_nat (i + length l) < 2 ^ 32 ->
  array_of VirtualMethod (klass s) = Some a -> (i + length l <= length a)%nat ->
  exists l1 r al fl ms, load_virtuals heap d fuel (Z.of_nat i) index it s =
    Done (r, mkState (set_flags fl (set_array VirtualMethod (Some (fill i (length (methods_ s)) (length l1) a)) (klass s)))
               (fields_ s) (methods_ s ++ ms) al (pending s) (links s ++ links_of (length (methods_ s)) index l1)) /\
    Forall2 (method_loaded (klass s)) l1 ms /\
    l1 `prefix_of` l /\ (r = Some fin /\ l1 = l \/ r = None /\ exists n, heap n = false).
Proof.
  induction 1 as [it Hp|it next l fin Hp Hn Hr IH]; intros fuel i index s a Hl Hd Hf Hi Ha Hlen.
  { exists [], (Some it), (allocations s), (class_access_flags_ (klass s)), []. rewrite fill_O. cbn [links_of imap length].
    rewrite (same_state _ a) by done. destruct fuel; cbn [load_virtuals]; rewrite Hp; by split_and!; [|constructor| |left]. }
  apply Forall_cons in Hl as [Hit Hl]. destruct fuel as [|fuel]; [cbn in Hf; lia|]. cbn [load_virtuals length] in *. rewrite Hp.
  destruct (load_method_ok it s Hit Hd) as [[Hh E]|(Hh & m & fl & E & Hm)]; erewrite prog_bind_step by exact E.
  { exists [], None, (S (allocations s)), (class_access_flags_ (klass s)), []. rewrite fill_O. cbn [links_of imap length].
    rewrite !app_nil_r, set_array_same, set_flags_same by done.
    split_and!; [done|constructor|apply prefix_nil|right]. split; [done|]. by exists (allocations s). }
  cbn beta iota. erewrite prog_bind_step by (apply (set_loaded _ _ _ _ a); [done|lia|lia]). erewrite prog_bind_step by done.
  erewrite prog_bind_step by (by apply plift_step). cbn [klass fields_ methods_ allocations pending links].
  replace (Z.of_nat i + 1) with (Z.of_nat (S i)) by lia.
  edestruct (IH fuel (S i)) as (l1 & r & al & fl' & ms & -> & Hms & Hpre & Hres);
    [done|exact Hd|lia|lia|done|rewrite length_insert; lia|].
  exists (it :: l1), r, al, fl', (m :: ms). cbn [klass fields_ methods_ allocations pending links length].
  rewrite flags_array, flags_twice, set_array_twice, length_app, Nat.add_1_r, fill_S, links_of_cons, <- !app_assoc.
  split; [done|]. split; [constructor; [done|]; eapply Forall2_impl; [exact Hms|]; intros x y; apply loaded_flags|].
  split; [by apply prefix_cons|]. destruct Hres as [[-> ->]|?]; [by left|by right].
Qed.

(** ** All members *)

(** A program returns without an exception, or has found no memory. *)
Definition safe {A} (m : prog LoadState (option A)) (s : LoadState) (Q : A -> LoadState -> Prop) : Prop :=
  exists r s', m s = Done (r, s') /\ pending s' = pending s /\
    match r with Some a => Q a s' | None => exists n, heap n = false end.

Lemma safe_when {A B} (m : prog LoadState (option A)) (k : A -> prog LoadState (option B)) s Q R :
  safe m s Q -> (forall a s', Q a s' -> safe (k a) s' R) -> safe (when m k) s R.
Proof.
  intros (r & s' & E & Hp & Hr) Hk. unfold safe, when. erewrite prog_bind_step by exact E. destruct r as [a|].
  - destruct (Hk a s' Hr) as (r & s'' & E' & Hp' & Hr'). exists r, s''. split; [done|]. split; [congruence|done].
  - exists None, s'. by split_and!.
Qed.

Lemma safe_step {A B} (m : prog LoadState A) (k : A -> prog LoadState (option B)) s a s1 Q :
  m s = Done (a, s1) -> pending s1 = pending s -> safe (k a) s1 Q -> safe (m ≫= k) s Q.
Proof.
  intros E Hp (r & s' & E' & Hp' & Hr). exists r, s'. erewrite prog_bind_step by exact E. split; [done|]. split; [congruence|done].
Qed.
Lemma safe_ret {A} (a : A) s (Q : A -> LoadState -> Prop) : Q a s -> safe (mret (Some a)) s Q.
Proof. intros H. exists (Some a), s. by split_and!. Qed.

(** An array of a class: as it was when there are no members, else its slots,
    the first [n] filled. *)
Definition loaded_array (count : Z) (ref n : nat) (old : array) : array :=
  if count =? 0 then old else Some (fill 0 ref n (replicate (Z.to_nat count) None)).

Lemma alloc_array_ok {B} k count s (m : prog LoadState (option B)) R :
  (forall al, safe m (mkState (set_array k (loaded_array count 0 0 (array_of k (klass s))) (klass s)) (fields_ s) (methods_ s) al
                        (pending s) (links s)) R) ->
  safe (unless_oom (alloc_array heap k count) m) s R.
Proof.
  intros Hm. unfold unless_oom, alloc_array, loaded_array in *. destruct (count =? 0); cbn [negb].
  - specialize (Hm (allocations s)). rewrite set_array_same in Hm by done. unfold safe in *. erewrite prog_bind_step by done.
    by destruct s.
  - unfold AllocArray, Alloc. unfold safe. unfold mbind, prog_bind. destruct (heap (allocations s)) eqn:Hh.
    + destruct (Hm (S (allocations s))) as (r & s' & E & Hp & Hr). exists r, s'. by split_and!.
    + eexists None, _. split; [done|]. split; [done|]. by exists (allocations s).
Qed.

Lemma loaded_array_nil count ref old : loaded_array count ref 0 old = loaded_array count 0 0 old.
Proof. done. Qed.

Lemma fields_safe k it l fin fuel s old : runs (has_next k) it l fin -> it_ok it -> (length l <= fuel)%nat ->
  array_of k (klass s) = loaded_array (count_of k it) 0 0 old ->
  safe (load_fields heap fuel k 0 it) s (fun it' s' => it' = fin /\ exists al,
    s' = mkState (set_array k (loaded_array (count_of k it) (length (fields_ s)) (length l) old) (klass s))
           (fields_ s ++ map (field_of (c_ref (klass s))) l) (methods_ s) al (pending s) (links s)).
Proof.
  intros Hr Hit Hf Ha. pose proof (runs_count k _ _ _ Hit Hr) as Hc. destruct Hit as [_ Hu]. specialize (Hu k). unfold in_u in Hu.
  unfold loaded_array in *. destruct (Z.eqb_spec (count_of k it) 0) as [Hz|Hz].
  - destruct l; [|cbn in Hc; lia]. inversion Hr; subst. exists (Some fin), s. cbn [map]. rewrite app_nil_r, set_array_same by done.
    split; [destruct fuel; cbn [load_fields]; by rewrite H|]. split; [done|]. split; [done|]. exists (allocations s). by destruct s.
  - destruct (load_fields_ok k it l fin Hr fuel 0 s _ Hf ltac:(lia) Ha) as (l1 & r & al & E & _ & Hres).
    { rewrite fill_length, length_replicate. lia. }
    exists r. eexists. split; [exact E|]. split; [done|]. destruct Hres as [[-> ->]|[-> ?]]; [|done]. split; [done|]. by exists al.
Qed.

Lemma directs_safe it l fin fuel s old : runs HasNextDirectMethod it l fin -> it_ok it -> (length l <= fuel)%nat ->
  Forall loadable l -> described (klass s) ->
  direct_methods_ (klass s) = loaded_array (NumDirectMethods it) 0 0 old ->
  safe (load_directs heap d fuel 0 0 kDexNoIndex 0 it) s (fun r s' => r = (fin, Z.of_nat (length l)) /\ exists al fl ms,
    Forall2 (method_loaded (klass s)) l ms /\ map method_index_ ms = direct_indices kDexNoIndex 0 0 l /\
    s' = mkState (set_flags fl (set_array DirectMethod (loaded_array (NumDirectMethods it) (length (methods_ s)) (length l) old) (klass s)))
           (fields_ s) (methods_ s ++ ms) al (pending s) (links s ++ links_of (length (methods_ s)) 0 l)).
Proof.
  intros Hr Hit Hf Hl Hd Ha. pose proof (runs_count DirectMethod _ _ _ Hit Hr) as Hc. destruct Hit as [_ Hu].
  specialize (Hu DirectMethod). unfold in_u in Hu. cbn [count_of] in *.
  unfold loaded_array in *. destruct (Z.eqb_spec (NumDirectMethods it) 0) as [Hz|Hz].
  - destruct l; [|cbn in Hc; lia]. inversion Hr; subst. exists (Some (fin, 0)), s.
    split; [destruct fuel; cbn [load_directs]; by rewrite H|]. split; [done|]. split; [done|].
    exists (allocations s), (class_access_flags_ (klass s)), []. split; [constructor|]. split; [done|]. cbn [links_of imap].
    rewrite !app_nil_r, set_array_same, set_flags_same by done. by destruct s.
  - destruct (load_directs_ok it l fin Hr fuel 0 0 kDexNoIndex 0 s _ Hl Hd Hf ltac:(lia) Ha) as (l1 & r & al & fl & ms & E & Hms & Hix & _ & Hres).
    { rewrite fill_length, length_replicate. lia. }
    exists r. eexists. split; [exact E|]. split; [done|]. destruct Hres as [[-> ->]|[-> ?]]; [|done]. split; [done|].
    by exists al, fl, ms.
Qed.

Lemma virtuals_safe it l fin fuel index s old : runs HasNextVirtualMethod it l fin -> it_ok it -> (length l <= fuel)%nat ->
  Forall loadable l -> described (klass s) ->
  virtual_methods_ (klass s) = loaded_array (NumVirtualMethods it) 0 0 old ->
  safe (load_virtuals heap d fuel 0 index it) s (fun r s' => r = fin /\ exists al fl ms,
    Forall2 (method_loaded (klass s)) l ms /\
    s' = mkState (set_flags fl (set_array VirtualMethod (loaded_array (NumVirtualMethods it) (length (methods_ s)) (length l) old) (klass s)))
           (fields_ s) (methods_ s ++ ms) al (pending s) (links s ++ links_of (length (methods_ s)) index l)).
Proof.
  intros Hr Hit Hf Hl Hd Ha. pose proof (runs_count VirtualMethod _ _ _ Hit Hr) as Hc. destruct Hit as [_ Hu].
  specialize (Hu VirtualMethod). unfold in_u in Hu. cbn [count_of] in *.
  unfold loaded_array in *. destruct (Z.eqb_spec (NumVirtualMethods it) 0) as [Hz|Hz].
  - destruct l; [|cbn in Hc; lia]. inversion Hr; subst. exists (Some fin), s.
    split; [destruct fuel; cbn [load_virtuals]; by rewrite H|]. split; [done|]. split; [done|].
    exists (allocations s), (class_access_flags_ (klass s)), []. split; [constructor|]. cbn [links_of imap].
    rewrite !app_nil_r, set_array_same, set_flags_same by done. by destruct s.
  - destruct (load_virtuals_ok it l fin Hr fuel 0 index s _ Hl Hd Hf ltac:(lia) Ha) as (l1 & r & al & fl & ms & E & Hms & _ & Hres).
    { rewrite fill_length, length_replicate. lia. }
    exists r. eexists. split; [exact E|]. split; [done|]. destruct Hres as [[-> ->]|[-> ?]]; [|done]. split; [done|].
    by exists al, fl, ms.
Qed.

(** What the members do not change of a class. *)
Definition class_header (c : Class) : Z * option Z * Z * Z * Z * Z * Z :=
  (c_ref c, class_loader_ c, resolved_methods_ c, resolved_types_ c, status_ c, dex_class_def_idx_ c, dex_type_idx_ c).

(** The state after the members [ss], [is_], [ds] and [vs] have been loaded. *)
Record members_loaded (it : It) (ss is_ ds vs : list It) (s s' : LoadState) : Prop := {
  ld_statics : sfields_ (klass s') = loaded_array (NumStaticFields it) (length (fields_ s)) (length ss) (sfields_ (klass s));
  ld_instances : ifields_ (klass s') =
    loaded_array (NumInstanceFields it) (length (fields_ s) + length ss) (length is_) (ifields_ (klass s));
  ld_directs : direct_methods_ (klass s') =
    loaded_array (NumDirectMethods it) (length (methods_ s)) (length ds) (direct_methods_ (klass s));
  ld_virtuals : virtual_methods_ (klass s') =
    loaded_array (NumVirtualMethods it) (length (methods_ s) + length ds) (length vs) (virtual_methods_ (klass s));
  ld_fields : fields_ s' = fields_ s ++ map (field_of (c_ref (klass s))) (ss ++ is_);
  ld_methods : exists md mv, methods_ s' = methods_ s ++ md ++ mv /\ Forall2 (method_loaded (klass s)) ds md /\
    Forall2 (method_loaded (klass s)) vs mv /\ map method_index_ md = direct_indices kDexNoIndex 0 0 ds;
  ld_links : links s' = links s ++ links_of (length (methods_ s)) 0 (ds ++ vs);
  ld_class : class_header (klass s') = class_header (klass s)
}.

Lemma links_of_app ref index l l' :
  links_of ref index (l ++ l') = links_of ref index l ++ links_of (ref + length l) (index + Z.of_nat (length l)) l'.
Proof.
  revert ref index. induction l as [|it l IH]; intros ref index; cbn [app length]; [by rewrite Nat.add_0_r, Z.add_0_r|].
  rewrite !links_of_cons, IH. cbn [app]. do 3 f_equal; lia.
Qed.

Lemma data_runs data ss is_ ds vs fin : data_members data ss is_ ds vs fin -> exists it it1 it2 it3,
  new_It (Some data) = Done it /\ runs HasNextStaticField it ss it1 /\ runs HasNextInstanceField it1 is_ it2 /\
  runs HasNextDirectMethod it2 ds it3 /\ runs HasNextVirtualMethod it3 vs fin /\
  (length ss <= length data)%nat /\ (length is_ <= length data)%nat /\ (length ds <= length data)%nat /\ (length vs <= length data)%nat.
Proof.
  intros (it & it1 & it2 & it3 & Hnew & Hs & Hi & Hd & Hv & _). exists it, it1, it2, it3.
  pose proof (post_result _ _ _ (Members.post_new_It data) Hnew) as Hb. cbn beta in Hb.
  destruct (runs_bytes _ _ _ _ (has_next_any StaticField) Hs), (runs_bytes _ _ _ _ (has_next_any InstanceField) Hi).
  destruct (runs_bytes _ _ _ _ (has_next_any DirectMethod) Hd), (runs_bytes _ _ _ _ (has_next_any VirtualMethod) Hv).
  split_and!; try done; lia.
Qed.

Lemma load_members_safe data ss is_ ds vs fin s : data_members data ss is_ ds vs fin ->
  Forall loadable (ds ++ vs) -> described (klass s) ->
  exists it, new_It (Some data) = Done it /\
    safe (LoadClassMembers heap d data) s (fun _ s' => members_loaded it ss is_ ds vs s s').
Proof.
  intros (it & it1 & it2 & it3 & Hnew & Hs & Hi & Hd & Hv & Ls & Li & Ld & Lv)%data_runs [Hld Hlv]%Forall_app Hdesc. exists it. split; [done|].
  destruct (new_It_counts _ _ Hnew) as [H0 _]. destruct (runs_it_ok _ _ _ _ H0 Hs) as [H1 E1].
  destruct (runs_it_ok _ _ _ _ H1 Hi) as [H2 E2]. destruct (runs_it_ok _ _ _ _ H2 Hd) as [H3 E3].
  pose proof (count_header InstanceField it it1 E1) as C1. pose proof (count_header VirtualMethod it2 it3 E3) as C3.
  pose proof (count_header DirectMethod it it2 ltac:(congruence)) as C2. pose proof (count_header VirtualMethod it it2 ltac:(congruence)) as C2'.
  cbn [count_of] in C1, C2, C2', C3. unfold LoadClassMembers. eapply safe_step; [by apply plift_step|done|].
  apply alloc_array_ok. intros al0. apply alloc_array_ok. intros al1. cbn [klass fields_ methods_ pending links].
  eapply safe_when; [apply (fields_safe StaticField _ _ _ _ _ (sfields_ (klass s)) Hs); [done|lia|done]|]. cbn beta. intros ? ? (-> & al2 & ->).
  eapply safe_when; [apply (fields_safe InstanceField _ _ _ _ _ (ifields_ (klass s)) Hi); [done|lia|cbn [count_of]; by rewrite C1]|].
  cbn beta. intros ? ? (-> & al3 & ->).
  apply alloc_array_ok. intros al4. apply alloc_array_ok. intros al5. cbn [klass fields_ methods_ pending links].
  eapply safe_when; [apply (directs_safe _ _ _ _ _ (direct_methods_ (klass s)) Hd); [done|lia|done..]|]. cbn beta. intros ? ? (-> & al6 & fl & md & Hmd & Hix & ->).
  eapply safe_when; [apply (virtuals_safe _ _ _ _ _ _ (virtual_methods_ (klass s)) Hv); [done|lia|done|done|by rewrite C3]|].
  cbn beta. intros ? ? (-> & al7 & fl' & mv & Hmv & ->). apply safe_ret.
  assert (length md = length ds) as Hlm by (symmetry; by eapply Forall2_length). split.
  - done.
  - transitivity (loaded_array (NumInstanceFields it1) (length (fields_ s ++ map (field_of (c_ref (klass s))) ss)) (length is_) (ifields_ (klass s)));
      [done|]. by rewrite C1, length_app, length_map.
  - transitivity (loaded_array (NumDirectMethods it2) (length (methods_ s)) (length ds) (direct_methods_ (klass s))); [done|]. by rewrite C2.
  - transitivity (loaded_array (NumVirtualMethods it3) (length (methods_ s ++ md)) (length vs) (virtual_methods_ (klass s))); [done|].
    by rewrite C3, C2', length_app, Hlm.
  - cbn [fields_]. rewrite map_app, app_assoc. done.
  - exists md, mv. cbn [methods_]. rewrite <- app_assoc. split; [done|]. split; [|split; [|done]].
    + eapply Forall2_impl; [exact Hmd|]. intros x y []. by constructor.
    + eapply Forall2_impl; [exact Hmv|]. intros x y []. by constructor.
  - cbn [links methods_]. by rewrite length_app, Hlm, links_of_app, app_assoc.
  - done.
Qed.
End Specs.

(** ** Full arrays *)

(** The positions of a kind, when the sums of the sizes do not wrap around. *)
Definition start_of (k : kind) (it : It) : Z :=
  match k with
  | StaticField => 0
  | InstanceField => NumStaticFields it
  | DirectMethod => NumStaticFields it + NumInstanceFields it
  | VirtualMethod => NumStaticFields it + NumInstanceFields it + NumDirectMethods it
  end.
Definition members_in_all (it : It) : Z := NumStaticFields it + NumInstanceFields it + NumDirectMethods it + NumVirtualMethods it.

Lemma has_next_iff k it : it_ok it -> members_in_all it < 2 ^ 32 ->
  has_next k it = true <-> start_of k it <= pos_ it < start_of k it + count_of k it.
Proof.
  intros [H0 Hc] Hall. pose proof (Hc StaticField) as [Hs _]. pose proof (Hc InstanceField) as [Hi _].
  pose proof (Hc DirectMethod) as [Hd _]. pose proof (Hc VirtualMethod) as [Hv _]. unfold members_in_all in Hall. cbn [count_of] in *.
  unfold NumStaticFields, NumInstanceFields, NumDirectMethods, NumVirtualMethods in *.
  assert (EndOfInstanceFieldsPos it = static_fields_size_ (header_ it) + instance_fields_size_ (header_ it)) as Ei
    by (apply uwrap_small; unfold in_u, EndOfStaticFieldsPos; lia).
  assert (EndOfDirectMethodsPos it = EndOfInstanceFieldsPos it + direct_methods_size_ (header_ it)) as Ed
    by (apply uwrap_small; unfold in_u; lia).
  assert (EndOfVirtualMethodsPos it = EndOfDirectMethodsPos it + virtual_methods_size_ (header_ it)) as Ev
    by (apply uwrap_small; unfold in_u; lia).
  destruct k; cbn [has_next start_of count_of];
    unfold HasNextStaticField, HasNextInstanceField, HasNextDirectMethod, HasNextVirtualMethod; rewrite ?Ev, ?Ed, ?Ei;
    unfold EndOfStaticFieldsPos, NumStaticFields, NumInstanceFields, NumDirectMethods, NumVirtualMethods;
    rewrite ?andb_true_iff, ?Z.leb_le, ?Z.ltb_lt; lia.
Qed.

Lemma runs_full k it l fin : it_ok it -> members_in_all it < 2 ^ 32 -> runs (has_next k) it l fin ->
  start_of k it <= pos_ it <= start_of k it + count_of k it ->
  Z.of_nat (length l) = start_of k it + count_of k it - pos_ it /\ pos_ fin = start_of k it + count_of k it.
Proof.
  intros Hit Hall Hr. induction Hr as [it Hp|it next l fin Hp Hn _ IH]; intros Hpos.
  - assert (~ (start_of k it <= pos_ it < start_of k it + count_of k it)) by (rewrite <- has_next_iff, Hp; done). cbn. lia.
  - destruct (next_pos _ _ Hn) as [Hh Hpn]. apply (has_next_iff k it Hit Hall) in Hp as Hp'.
    assert (forall k, count_of k next = count_of k it) as Hc by (intros; by apply count_header).
    pose proof (Hc StaticField) as C1. pose proof (Hc InstanceField) as C2. pose proof (Hc DirectMethod) as C3. pose proof (Hc VirtualMethod) as C4.
    cbn [count_of] in C1, C2, C3, C4.
    assert (members_in_all next = members_in_all it) as Hm by (unfold members_in_all; by rewrite C1, C2, C3, C4).
    assert (start_of k next = start_of k it) as Hst by (destruct k; cbn [start_of]; by rewrite ?C1, ?C2, ?C3).
    pose proof Hit as [_ Hu]. pose proof (Hu StaticField) as [U1 _]. pose proof (Hu InstanceField) as [U2 _].
    pose proof (Hu DirectMethod) as [U3 _]. pose proof (Hu VirtualMethod) as [U4 _]. cbn [count_of] in U1, U2, U3, U4.
    assert (0 <= start_of k it /\ start_of k it + count_of k it <= members_in_all it) as Hb
      by (unfold members_in_all; destruct k; cbn [start_of count_of]; lia).
    rewrite uwrap_small in Hpn by (unfold in_u; lia).
    destruct IH as [IH1 IH2]; [by eapply next_it_ok|by rewrite Hm|rewrite Hst, Hc; lia|]. rewrite Hst, Hc in *. cbn [length]. lia.
Qed.

Lemma data_members_full data ss is_ ds vs fin it : data_members data ss is_ ds vs fin -> new_It (Some data) = Done it ->
  members_in_all it < 2 ^ 32 ->
  Z.of_nat (length ss) = NumStaticFields it /\ Z.of_nat (length is_) = NumInstanceFields it /\
  Z.of_nat (length ds) = NumDirectMethods it /\ Z.of_nat (length vs) = NumVirtualMethods it.
Proof.
  intros (it0 & it1 & it2 & it3 & Hnew & Hs & Hi & Hd & Hv & _) Hnew'. rewrite Hnew in Hnew'. injection Hnew' as ->. intros Hall.
  destruct (new_It_counts _ _ Hnew) as [H0 Hp0]. destruct (runs_it_ok _ _ _ _ H0 Hs) as [H1 E1].
  destruct (runs_it_ok _ _ _ _ H1 Hi) as [H2 E2]. destruct (runs_it_ok _ _ _ _ H2 Hd) as [H3 E3].
  assert (forall x y, header_ x = header_ y -> members_in_all x = members_in_all y /\ (forall k, start_of k x = start_of k y) /\
    forall k, count_of k x = count_of k y) as Hsame.
  { intros x y Hxy. split; [|split; [|intros; by apply count_header]]; [|intros []]; cbn [start_of];
      unfold members_in_all, NumStaticFields, NumInstanceFields, NumDirectMethods, NumVirtualMethods; by rewrite ?Hxy. }
  destruct (Hsame it1 it E1) as (A1 & S1 & C1). destruct (Hsame it2 it ltac:(congruence)) as (A2 & S2 & C2).
  destruct (Hsame it3 it ltac:(congruence)) as (A3 & S3 & C3). pose proof H0 as [_ Hu].
  pose proof (Hu StaticField) as [U1 _]. pose proof (Hu InstanceField) as [U2 _].
  pose proof (Hu DirectMethod) as [U3 _]. pose proof (Hu VirtualMethod) as [U4 _]. cbn [count_of] in U1, U2, U3, U4.
  destruct (runs_full StaticField _ _ _ H0 Hall Hs) as [L1 P1]; [cbn [start_of count_of]; lia|].
  destruct (runs_full InstanceField _ _ _ H1 ltac:(lia) Hi) as [L2 P2]; [rewrite S1, C1, P1; cbn [start_of count_of]; lia|].
  rewrite S1, C1 in L2, P2.
  destruct (runs_full DirectMethod _ _ _ H2 ltac:(lia) Hd) as [L3 P3]; [rewrite S2, C2, P2; cbn [start_of count_of]; lia|].
  rewrite S2, C2 in L3, P3.
  destruct (runs_full VirtualMethod _ _ _ H3 ltac:(lia) Hv) as [L4 P4]; [rewrite S3, C3, P3; cbn [start_of count_of]; lia|].
  rewrite S3, C3 in L4. rewrite P1 in L2. rewrite P2 in L3. rewrite P3 in L4. cbn [start_of count_of] in *. lia.
Qed.

(** ** The classes of a verified file *)

Lemma string_readable m : readable m -> exists s, string_of m = Done s.
Proof.
  intros (s & rest & -> & Hs). exists (utf8 s). unfold string_of, utf8z. cbn [mbind cres_bind Sig.not_null].
  rewrite c_str_app; [done|]. eapply Forall_impl; [by apply utf8_nonzero|]. cbn. lia.
Qed.

Lemma java_flags c : Z.land (GetJavaAccessFlags c) (Z.lnot kAccJavaFlagsMask) = 0.
Proof.
  unfold GetJavaAccessFlags. rewrite <- Z.land_assoc. case_match.
  - change (Z.land kAccValidInterfaceFlags (Z.lnot kAccJavaFlagsMask)) with 0. apply Z.land_0_r.
  - change (Z.land kAccValidClassFlags (Z.lnot kAccJavaFlagsMask)) with 0. apply Z.land_0_r.
Qed.

(** The class after its header has been filled in. *)
Definition prepared (idx : nat) (def : ClassDef) (loader : option Z) (c : Class) : Class :=
  set_indices (Z.of_nat idx) (class_idx_ def)
    (set_status kStatusIdx (set_loader loader (set_flags (GetJavaAccessFlags def) c))).
Definition prepared_state (idx : nat) (def : ClassDef) (loader : option Z) (s : LoadState) : LoadState :=
  mkState (prepared idx def loader (klass s)) (fields_ s) (methods_ s) (allocations s) (pending s) (links s).

Section Loaded.
Context (begin : list Z) (Hbytes : Forall byte_ok begin) (adler32 : Z -> option (list Z) -> Z) (sg : bool) (h : Header).
Context (Hh : read_Header begin = Done h).
Abbreviation d := (make_DexFile begin h).
Context (Hv : Verify begin adler32 sg h d = Done true) (Hal : tables_aligned h) (Htypes : type_ids_size_ h <= 0xffff).

(** What the verifier has checked of the tables, in the context. *)
Ltac tables_checked :=
  let n := fresh "n" in let lo := fresh "lo" in let hi := fresh "hi" in let v := fresh "v" in let Hacc := fresh "Hacc" in
  edestruct verify_accepts as (n & lo & hi & v & Hacc); [done..|];
  pose proof (tables_pass begin Hbytes adler32 sg h Hh Hv Hal n lo hi v Hacc) as Hpass;
  pose proof (acc_items _ _ _ _ _ _ _ Hacc) as Hok; pose proof (acc_size _ _ _ _ _ _ _ Hacc) as Hs;
  edestruct strings_exist as [strs Hstrs]; [done..|].

Lemma class_readable idx c : class_defs_ d !! idx = Some c -> Z.of_nat idx < 0xffff /\ readable (StringByTypeIdx d (class_idx_ c)).
Proof.
  intros Hc. tables_checked. split.
  - assert (NumIds (class_defs_ d) <= type_ids_size_ h) as Hn by (by eapply classes_num).
    apply lookup_lt_Some in Hc. unfold NumIds in Hn. lia.
  - assert (0 <= class_idx_ c < NumIds (type_ids_ d)) as Hi by (by eapply class_entry). unfold NumIds in Hi.
    destruct (lookup_lt_is_Some_2 (type_ids_ d) (Z.to_nat (class_idx_ c)) ltac:(lia)) as [t Ht].
    unfold StringByTypeIdx, entry. rewrite Ht. cbn [deref mbind cres_bind]. by eapply type_readable.
Qed.

Lemma method_loadable c direct it : method_ok begin h c direct it -> loadable d it.
Proof.
  intros [(m & H0 & Hm & _) _]. tables_checked.
  edestruct (method_entry begin Hbytes adler32 sg h Hh Hv Hal) as (_ & Hp & Hname); [exact Hpass|exact Hstrs|exact Hm|].
  unfold NumIds in Hp. destruct (lookup_lt_is_Some_2 (proto_ids_ d) (Z.to_nat (method_proto_idx_ m)) ltac:(lia)) as [proto Hproto].
  assert (readable (StringDataByIdx d (shorty_idx_ proto))) as Hshorty by (by eapply proto_shorty).
  destruct (string_readable _ Hname) as [name Ename]. destruct (string_readable _ Hshorty) as [shorty Eshorty].
  exists m, name, shorty. unfold GetShorty, entry. rewrite Hm, Hproto. by repeat split.
Qed.

Lemma class_described idx def loader c : class_defs_ d !! idx = Some def -> described d (prepared idx def loader c).
Proof.
  intros Hc. destruct (class_readable idx def Hc) as [Hi Hr]. destruct (string_readable _ Hr) as [s Es]. exists s.
  unfold GetDescriptor, prepared, set_indices. cbn [dex_class_def_idx_]. rewrite (proj2 (Z.eqb_neq _ _)) by (unfold Catch.kDexNoIndex16; lia).
  unfold entry. rewrite Nat2Z.id, Hc. done.
Qed.

Lemma load_class_prepares heap idx def loader s : class_defs_ d !! idx = Some def -> status_ (klass s) = kStatusNotReady ->
  LoadClass heap d (Z.of_nat idx) loader s =
  match GetClassData d def with
  | None => mret (Some ())
  | Some class_data => LoadClassMembers heap d class_data
  end (prepared_state idx def loader s).
Proof.
  intros Hc Hn. destruct (class_readable idx def Hc) as [Hi (str & rest & Hr & _)]. unfold LoadClass.
  unfold get_class at 1, modify_class, plift, mbind, prog_bind. rewrite Hn. cbn [negb Z.eqb kStatusNotReady].
  unfold entry. rewrite Nat2Z.id, Hc. cbn [deref]. unfold GetClassDescriptor. rewrite Hr, java_flags. cbn [negb Z.eqb klass].
  rewrite (uwrap_small 16 (Z.of_nat idx)) by (unfold in_u; lia). done.
Qed.

Lemma class_members_load heap idx def loader s : class_defs_ d !! idx = Some def -> status_ (klass s) = kStatusNotReady ->
  class_data_off_ def <> 0 -> exists it ss is_ ds vs fin,
    new_It (Some (at_offset d (class_data_off_ def))) = Done it /\
    data_members (at_offset d (class_data_off_ def)) ss is_ ds vs fin /\
    Forall (field_ok begin h def true) ss /\ Forall (field_ok begin h def false) is_ /\
    Forall (method_ok begin h def true) ds /\ Forall (method_ok begin h def false) vs /\
    safe heap (LoadClass heap d (Z.of_nat idx) loader) s (fun _ s' =>
      members_loaded d it ss is_ ds vs (prepared_state idx def loader s) s').
Proof.
  intros Hc Hready Hz. unfold safe. rewrite (load_class_prepares heap idx def loader s Hc Hready).
  unfold GetClassData. rewrite (proj2 (Z.eqb_neq _ _) Hz). edestruct verify_accepts as (n & lo & hi & v & Hacc); [done..|].
  destruct (members_ok begin Hbytes adler32 sg h Hh Hv Hal Htypes n lo hi v Hacc idx def Hc Hz)
    as (ss & is_ & ds & vs & fin & Hm & Fs & Fi & Fd & Fv).
  destruct (load_members_safe heap d _ _ _ _ _ _ (prepared_state idx def loader s) Hm) as (it & Hit & Hsafe).
  { apply Forall_app. split; (eapply Forall_impl; [eassumption|]); intros x Hx; by eapply method_loadable. }
  { by eapply class_described. }
  by exists it, ss, is_, ds, vs, fin.
Qed.
End Loaded.

(** C7: Loading a class of a verified file never faults or aborts, when the header
    places the tables at multiples of four and the file has at most 0xffff types,
    two things the verifier does not ask for.  It ends
    either with an OutOfMemoryError, only after an allocation has failed, or with
    the class filled in: the class data lists members that belong to the class
    and whose code passed the verifier, and the class has their fields and
    methods, in the order of the file, in arrays of the sizes of the class data.
    When the sizes do not wrap around together, no slot of the arrays is left
    empty. *)
Theorem verified_class_loads begin adler32 sg h heap idx def loader s
    (Hbytes : Forall byte_ok begin) (Hh : read_Header begin = Done h) (Hv : VerifyFile adler32 sg begin = Done true)
    (Hal : tables_aligned h) (Htypes : type_ids_size_ h <= 0xffff)
    (Hc : class_defs_ (make_DexFile begin h) !! idx = Some def) (Hready : status_ (klass s) = kStatusNotReady) :
  let d := make_DexFile begin h in
  safe heap (LoadClass heap d (Z.of_nat idx) loader) s (fun _ s' =>
    (class_data_off_ def = 0 /\ s' = prepared_state idx def loader s) \/
    (exists it ss is_ ds vs fin,
       new_It (Some (at_offset d (class_data_off_ def))) = Done it /\
       data_members (at_offset d (class_data_off_ def)) ss is_ ds vs fin /\
       Forall (field_ok begin h def true) ss /\ Forall (field_ok begin h def false) is_ /\
       Forall (method_ok begin h def true) ds /\ Forall (method_ok begin h def false) vs /\
       members_loaded d it ss is_ ds vs (prepared_state idx def loader s) s' /\
       (members_in_all it < 2 ^ 32 ->
        Z.of_nat (length ss) = NumStaticFields it /\ Z.of_nat (length is_) = NumInstanceFields it /\
        Z.of_nat (length ds) = NumDirectMethods it /\ Z.of_nat (length vs) = NumVirtualMethods it))).
Proof.
  cbv zeta. apply (verify_file _ _ _ _ Hh) in Hv. destruct (Z.eq_dec (class_data_off_ def) 0) as [Hz|Hz].
  { exists (Some ()), (prepared_state idx def loader s).
    rewrite (load_class_prepares begin Hbytes adler32 sg h Hh Hv Hal Htypes heap idx def loader s Hc Hready).
    unfold GetClassData. rewrite Hz. split; [done|]. split; [done|]. by left. }
  destruct (class_members_load begin Hbytes adler32 sg h Hh Hv Hal Htypes heap idx def loader s Hc Hready Hz)
    as (it & ss & is_ & ds & vs & fin & Hit & Hm & Fs & Fi & Fd & Fv & r & s' & E & Hp & Hr).
  exists r, s'. split; [exact E|]. split; [done|]. destruct r as [[]|]; [|done]. right. exists it, ss, is_, ds, vs, fin.
  split_and!; try done. intros Hall. by eapply data_members_full.
Qed.

(** A class that has not been loaded. *)
Definition blank_class : Class :=
  {| c_ref := 7; class_loader_ := None; resolved_methods_ := 8; resolved_types_ := 9; class_access_flags_ := 0; status_ := kStatusNotReady;
     dex_class_def_idx_ := 0; dex_type_idx_ := 0; sfields_ := None; ifields_ := None; direct_methods_ := None; virtual_methods_ := None |}.
Definition blank_state : LoadState := mkState blank_class [] [] 0 false [].
Definition demo_class : ClassDef :=
  {| class_idx_ := 1; access_flags_ := 1; superclass_idx_ := 65535; interfaces_off_ := 0; source_file_idx_ := 4294967295;
     annotations_off_ := 0; class_data_off_ := 273; static_values_off_ := 283 |}.

Lemma verified_class_loads_witness :
  class_defs_ (make_DexFile demo_file (header_of demo_file)) !! 0%nat = Some demo_class /\
  exists s' ds vs, LoadClass (fun _ => true) (make_DexFile demo_file (header_of demo_file)) (Z.of_nat 0) (Some 3) blank_state = Done (Some (), s') /\
    Forall (method_ok demo_file (header_of demo_file) demo_class true) ds /\ links s' = links_of 0 0 (ds ++ vs).
Proof.
  split; [by vm_compute|].
  destruct (verified_class_loads demo_file adler_sum false (header_of demo_file) (fun _ => true) 0 demo_class (Some 3) blank_state
    demo_file_bytes eq_refl) as (r & s' & E & _ & Hr).
  - by vm_compute.
  - repeat constructor.
  - by vm_compute.
  - by vm_compute.
  - exact eq_refl.
  - destruct r as [[]|]; [|by destruct Hr].
    destruct Hr as [[Hz _]|(it & ss & is_ & ds & vs & fin & _ & _ & _ & _ & Hd & _ & Hl & _)]; [discriminate Hz|].
    exists s', ds, vs. split; [exact E|]. split; [exact Hd|]. rewrite (ld_links _ _ _ _ _ _ _ _ Hl). exact eq_refl.
Defined.

(** ** Indices of compiled methods *)

(** The index that LinkCode was first called with for a method of the dex file. *)
Definition index_of (dex_method_index : Z) (l : list (Z * Z * Z)) : option Z :=
  (fun r => r.2.2) <$> list_find (fun link => link.1.2 = dex_method_index) l.

Lemma index_of_cons dex_index x l :
  index_of dex_index (x :: l) = if x.1.2 =? dex_index then Some x.2 else index_of dex_index l.
Proof.
  unfold index_of. cbn [list_find]. destruct (Z.eqb_spec x.1.2 dex_index); [by rewrite decide_True|rewrite decide_False by done].
  by destruct (list_find _ l) as [[]|].
Qed.
Lemma index_of_app dex_index l l' :
  index_of dex_index (l ++ l') = match index_of dex_index l with Some i => Some i | None => index_of dex_index l' end.
Proof.
  induction l as [|x l IH]; [done|]. cbn [app]. rewrite !index_of_cons. by destruct (x.1.2 =? dex_index).
Qed.

Lemma skip_runs k it l fin : runs (has_next k) it l fin -> forall fuel, (length l <= fuel)%nat -> skip_members fuel k it = Done fin.
Proof.
  induction 1 as [it Hp|it next l fin Hp Hn _ IH]; intros fuel Hf; [destruct fuel; cbn [skip_members]; by rewrite Hp|].
  destruct fuel as [|fuel]; [cbn in Hf; lia|]. cbn [skip_members length] in *. rewrite Hp, Hn. cbn [mbind cres_bind]. apply IH. lia.
Qed.

Lemma find_method_runs k it l fin : runs (has_next k) it l fin -> forall fuel dex_index ref index, (length l <= fuel)%nat ->
  find_method fuel k dex_index index it =
  Done (match index_of dex_index (links_of ref index l) with Some i => inr i | None => inl (fin, index + Z.of_nat (length l)) end).
Proof.
  induction 1 as [it Hp|it next l fin Hp Hn _ IH]; intros fuel dex_index ref index Hf.
  { destruct fuel; cbn [find_method length]; rewrite Hp; by rewrite Z.add_0_r. }
  destruct fuel as [|fuel]; [cbn in Hf; lia|]. cbn [find_method length] in *. rewrite Hp, links_of_cons, index_of_cons. cbn [fst snd].
  destruct (GetMemberIndex it =? dex_index); [done|]. rewrite Hn. cbn [mbind cres_bind]. rewrite (IH fuel dex_index (S ref)) by lia.
  case_match; [done|]. do 3 f_equal. lia.
Qed.

Lemma oat_index d idx def dex_index ref ss is_ ds vs fin : class_defs_ d !! idx = Some def -> class_data_off_ def <> 0 ->
  data_members (at_offset d (class_data_off_ def)) ss is_ ds vs fin ->
  GetOatMethodIndexFromMethodIndex d (Z.of_nat idx) dex_index =
  match index_of dex_index (links_of ref 0 (ds ++ vs)) with Some i => Done i | None => Fault Aborted end.
Proof.
  intros Hc Hz (it & it1 & it2 & it3 & Hnew & Hs & Hi & Hd & Hv & Ls & Li & Ld & Lv)%data_runs.
  unfold GetOatMethodIndexFromMethodIndex, GetClassData, entry. rewrite Nat2Z.id, Hc. cbn [deref mbind cres_bind]. rewrite (proj2 (Z.eqb_neq _ _) Hz).
  rewrite Hnew. cbn [mbind cres_bind]. rewrite (skip_runs StaticField _ _ _ Hs) by lia. cbn [mbind cres_bind].
  rewrite (skip_runs InstanceField _ _ _ Hi) by lia. cbn [mbind cres_bind].
  rewrite (find_method_runs DirectMethod _ _ _ Hd _ _ ref) by lia. cbn [mbind cres_bind].
  rewrite links_of_app, index_of_app. destruct (index_of dex_index (links_of ref 0 ds)); [done|].
  rewrite (find_method_runs VirtualMethod _ _ _ Hv _ _ (ref + length ds)) by lia. cbn [mbind cres_bind]. by destruct (index_of dex_index (links_of (ref + length ds) _ vs)).
Qed.

(** C23: The search for the index of a compiled method agrees with the loading of
    its class: it returns the index that LinkCode was given for the first method
    with that index in the dex file, and aborts for a method that has not been
    loaded.  So compiled code is looked up at the place its class was linked
    with. *)
Theorem oat_index_of_linked_method begin adler32 sg h heap idx def loader s s' dex_index
    (Hbytes : Forall byte_ok begin) (Hh : read_Header begin = Done h) (Hv : VerifyFile adler32 sg begin = Done true)
    (Hal : tables_aligned h) (Htypes : type_ids_size_ h <= 0xffff)
    (Hc : class_defs_ (make_DexFile begin h) !! idx = Some def) (Hdata : class_data_off_ def <> 0)
    (Hready : status_ (klass s) = kStatusNotReady) (Hnew : links s = [])
    (Hload : LoadClass heap (make_DexFile begin h) (Z.of_nat idx) loader s = Done (Some (), s')) :
  GetOatMethodIndexFromMethodIndex (make_DexFile begin h) (Z.of_nat idx) dex_index =
  match index_of dex_index (links s') with Some i => Done i | None => Fault Aborted end.
Proof.
  apply (verify_file _ _ _ _ Hh) in Hv.
  destruct (class_members_load begin Hbytes adler32 sg h Hh Hv Hal Htypes heap idx def loader s Hc Hready Hdata)
    as (it & ss & is_ & ds & vs & fin & _ & Hm & _ & _ & _ & _ & r & s1 & E & _ & Hr).
  rewrite Hload in E. injection E as <- <-. rewrite (ld_links _ _ _ _ _ _ _ _ Hr). cbn [prepared_state links methods_]. rewrite Hnew.
  by eapply oat_index.
Qed.

Definition demo_loaded : LoadState :=
  match LoadClass (fun _ => true) (make_DexFile demo_file (header_of demo_file)) (Z.of_nat 0) (Some 3) blank_state with
  | Done (_, s) => s
  | Fault _ => blank_state
  end.

Lemma oat_index_of_linked_method_witness :
  index_of 0 (links demo_loaded) = Some 0 /\
  GetOatMethodIndexFromMethodIndex (make_DexFile demo_file (header_of demo_file)) (Z.of_nat 0) 0 = Done 0.
Proof.
  assert (index_of 0 (links demo_loaded) = Some 0) as E by (vm_compute; reflexivity). split; [exact E|].
  rewrite (oat_index_of_linked_method demo_file adler_sum false (header_of demo_file) (fun _ => true) 0 demo_class (Some 3) blank_state
    demo_loaded 0 demo_file_bytes eq_refl).
  - rewrite E. reflexivity.
  - by vm_compute.
  - repeat constructor.
  - by vm_compute.
  - by vm_compute.
  - discriminate.
  - exact eq_refl.
  - exact eq_refl.
  - vm_compute. reflexivity.
Defined.
