(* ===== verification/HookArt.v ===== *)
(** * HookArt: replacing methods of the ART runtime
      (Xposed-master/libxposed_art.cpp, runtime/mirror/art_method.{h,cc},
       art_method-inl.h, runtime/jni_internal.cc, reflection.cc,
       entrypoints/entrypoint_utils.cc, quick_trampoline_entrypoints.cc)

    A hook clones the [ArtMethod], stores the clone in a [XposedHookInfo] that
    takes the place of the native code pointer, replaces the method in the
    frames of all threads and lets its entry points lead to the proxy handler.
    Methods, hook infos and reflection objects live in stores by address; null
    is 0.  References are modelled as the objects they lead to. *)

From stdpp Require Import gmap.
From S2P Require Import Prelude CLib ArtArgs.

(** runtime/modifiers.h *)
Definition kAccPublic : Z := 0x1.
Definition kAccPrivate : Z := 0x2.
Definition kAccStatic : Z := 0x8.
Definition kAccNative : Z := 0x100.
Definition kAccAbstract : Z := 0x400.
Definition kAccConstructor : Z := 0x10000.
Definition kAccFastNative : Z := 0x80000.
Definition kAccMiranda : Z := 0x200000.
Definition kAccXposedHookedMethod : Z := 0x10000000.
Definition kAccXposedOriginalMethod : Z := 0x20000000.

Record ArtMethod := mkArtMethod {
  declaring_class_ : Z; dex_cache_resolved_methods_ : Z; dex_cache_resolved_types_ : Z;
  access_flags_ : Z; dex_code_item_offset_ : Z; dex_method_index_ : Z; method_index_ : Z;
  entry_point_from_interpreter_ : Z; entry_point_from_jni_ : Z; entry_point_from_quick_compiled_code_ : Z
}.

Record XposedHookInfo := mkInfo { reflectedMethod : Z; additionalInfo : Z; originalMethod : Z }.

(** A Method or Constructor object, with its field artMethod. *)
Record AbstractMethod := mkReflect { is_constructor_object : bool; artMethod : Z }.

(** [stacks] has the methods of the frames of every thread, the innermost
    first; [exception] is the pending exception of the calling thread. *)
Record art := mkArt {
  methods : gmap Z ArtMethod;
  infos : gmap Z XposedHookInfo;
  reflects : gmap Z AbstractMethod;
  stacks : list (list Z);
  objects : heap;
  exception : option exn
}.

Definition set_methods (f : gmap Z ArtMethod -> gmap Z ArtMethod) (s : art) : art :=
  mkArt (f (methods s)) (infos s) (reflects s) (stacks s) (objects s) (exception s).
Definition throw (e : exn) (s : art) : art :=
  mkArt (methods s) (infos s) (reflects s) (stacks s) (objects s) (Some e).
Definition ExceptionClear (s : art) : art :=
  mkArt (methods s) (infos s) (reflects s) (stacks s) (objects s) None.
Definition set_objects (h : heap) (s : art) : art :=
  mkArt (methods s) (infos s) (reflects s) (stacks s) h (exception s).

(** ** Accessors of a method *)

Definition with_flags (f : Z) (m : ArtMethod) : ArtMethod :=
  mkArtMethod (declaring_class_ m) (dex_cache_resolved_methods_ m) (dex_cache_resolved_types_ m) f
    (dex_code_item_offset_ m) (dex_method_index_ m) (method_index_ m) (entry_point_from_interpreter_ m)
    (entry_point_from_jni_ m) (entry_point_from_quick_compiled_code_ m).
Definition with_entries (interpreter jni quick : Z) (m : ArtMethod) : ArtMethod :=
  mkArtMethod (declaring_class_ m) (dex_cache_resolved_methods_ m) (dex_cache_resolved_types_ m) (access_flags_ m)
    (dex_code_item_offset_ m) (dex_method_index_ m) (method_index_ m) interpreter jni quick.
Definition SetEntryPointFromJni (p : Z) (m : ArtMethod) : ArtMethod :=
  with_entries (entry_point_from_interpreter_ m) p (entry_point_from_quick_compiled_code_ m) m.
Definition SetEntryPointFromQuickCompiledCode (p : Z) (m : ArtMethod) : ArtMethod :=
  with_entries (entry_point_from_interpreter_ m) (entry_point_from_jni_ m) p m.
Definition SetEntryPointFromInterpreter (p : Z) (m : ArtMethod) : ArtMethod :=
  with_entries p (entry_point_from_jni_ m) (entry_point_from_quick_compiled_code_ m) m.

Definition has_flag (mask : Z) (m : ArtMethod) : bool := negb (Z.land (access_flags_ m) mask =? 0).
Definition IsStatic := has_flag kAccStatic.
Definition IsConstructor := has_flag kAccConstructor.
Definition IsNative := has_flag kAccNative.
Definition IsFastNative (m : ArtMethod) : bool :=
  let mask := Z.lor kAccFastNative kAccNative in Z.land (access_flags_ m) mask =? mask.
Definition IsMiranda := has_flag kAccMiranda.
Definition IsXposedHookedMethod := has_flag kAccXposedHookedMethod.
Definition IsXposedOriginalMethod := has_flag kAccXposedOriginalMethod.
Definition IsDirect (m : ArtMethod) (ignore_xposed : bool) : bool :=
  let mask := Z.lor (Z.lor kAccStatic kAccPrivate) kAccConstructor in
  let mask := if ignore_xposed then mask else Z.lor mask kAccXposedOriginalMethod in
  negb (Z.land (access_flags_ m) mask =? 0).

Definition get_method (a : Z) (s : art) : cres ArtMethod := deref (methods s !! a).
Definition set_method (a : Z) (m : ArtMethod) : art -> art := set_methods (<[a := m]>).

(** Objects that cannot be allocated are null; otherwise they are at addresses
    that nothing else uses. *)
Class ArtRuntime := {
  GetQuickProxyInvokeHandler : Z;
  artInterpreterToCompiledCodeBridge : Z;
  GetJniDlsymLookupStub : Z;
  Clone : art -> Z;
  AllocObject : art -> Z;
  calloc : art -> Z;
  Clone_fresh s : Clone s <> 0 -> methods s !! Clone s = None;
  AllocObject_fresh s : AllocObject s <> 0 -> reflects s !! AllocObject s = None;
  calloc_fresh s : calloc s <> 0 -> infos s !! calloc s = None;
  dlsym_stub_not_null : GetJniDlsymLookupStub <> 0
}.

Section Hooks.
Context `{ArtRuntime}.

(** [GetXposedHookInfo] and [GetXposedOriginalMethod]. *)
Definition GetXposedHookInfo (m : ArtMethod) (s : art) : cres XposedHookInfo :=
  deref (infos s !! entry_point_from_jni_ m).
Definition GetXposedOriginalMethod (m : ArtMethod) (s : art) : cres Z :=
  i ← GetXposedHookInfo m s; Done (originalMethod i).

(** ** EnableXposedHook

    The clone, the reflection object and the hook info, up to the point where
    the info is stored in the method. *)
Definition save_original (a : Z) (additional_info : Z) (s : art) : cres art :=
  m ← get_method a s;
  let backup := Clone s in
  if backup =? 0 then Fault NullDeref
  else
    let s := set_method backup (with_flags (Z.lor (access_flags_ m) kAccXposedOriginalMethod) m) s in
    let reflect_method := AllocObject s in
    if reflect_method =? 0 then Fault NullDeref
    else
      let s := mkArt (methods s) (infos s) (<[reflect_method := mkReflect (IsConstructor m) backup]> (reflects s))
                 (stacks s) (objects s) (exception s) in
      let hookInfo := calloc s in
      if hookInfo =? 0 then Fault NullDeref
      else
        let s := mkArt (methods s) (<[hookInfo := mkInfo reflect_method additional_info backup]> (infos s))
                   (reflects s) (stacks s) (objects s) (exception s) in
        m ← get_method a s;
        Done (set_method a (SetEntryPointFromJni hookInfo m) s).

(** [StackReplaceMethod] on every thread, between SuspendAll and ResumeAll. *)
Definition StackReplaceMethod (search replace : Z) (frames : list Z) : list Z :=
  map (fun f => if f =? search then replace else f) frames.
Definition replace_stacks (a : Z) (s : art) : cres art :=
  m ← get_method a s;
  replace ← GetXposedOriginalMethod m s;
  Done (mkArt (methods s) (infos s) (reflects s) (map (StackReplaceMethod a replace) (stacks s)) (objects s) (exception s)).

Definition update_method (a : Z) (f : ArtMethod -> ArtMethod) (s : art) : cres art :=
  m ← get_method a s; Done (set_method a (f m) s).
Definition set_quick (a : Z) : art -> cres art :=
  update_method a (SetEntryPointFromQuickCompiledCode GetQuickProxyInvokeHandler).
Definition set_interpreter (a : Z) : art -> cres art :=
  update_method a (SetEntryPointFromInterpreter artInterpreterToCompiledCodeBridge).
Definition hooked_flags (f : Z) : Z :=
  Z.lor (Z.land f (uwrap 32 (Z.lnot kAccNative))) kAccXposedHookedMethod.
Definition set_hooked_flags (a : Z) : art -> cres art :=
  update_method a (fun m => with_flags (hooked_flags (access_flags_ m)) m).

Definition EnableXposedHook (a : Z) (additional_info : Z) (s : art) : cres art :=
  m ← get_method a s;
  if IsXposedHookedMethod m then Done s
  else if IsXposedOriginalMethod m then Done (throw IllegalArgument s)
  else
    s ← save_original a additional_info s;
    s ← replace_stacks a s;
    s ← set_quick a s;
    s ← set_interpreter a s;
    set_hooked_flags a s.

Definition FromReflectedMethod (r : Z) (s : art) : cres Z := x ← deref (reflects s !! r); Done (artMethod x).

Definition XposedBridge_hookMethodNative (javaReflectedMethod javaAdditionalInfo : Z) (s : art) : cres art :=
  if javaReflectedMethod =? 0 then Done (throw IllegalArgument s)
  else a ← FromReflectedMethod javaReflectedMethod s; EnableXposedHook a javaAdditionalInfo s.

(** ** Native methods

    [RegisterNative] forwards to the original of a hooked method; the recursion
    takes fuel, and two steps are enough ([register_forwards]). *)
Fixpoint RegisterNative (fuel : nat) (a : Z) (native_method : Z) (is_fast : bool) (s : art) : cres art :=
  match fuel with
  | O => Fault OutOfFuel
  | S fuel =>
      m ← get_method a s;
      if IsXposedHookedMethod m then
        o ← GetXposedOriginalMethod m s; RegisterNative fuel o native_method is_fast s
      else if negb (IsNative m) || IsFastNative m || (native_method =? 0) then Fault Aborted
      else
        let m := if is_fast then with_flags (Z.lor (access_flags_ m) kAccFastNative) m else m in
        Done (set_method a (SetEntryPointFromJni native_method m) s)
  end.

Fixpoint UnregisterNative (fuel : nat) (a : Z) (s : art) : cres art :=
  match fuel with
  | O => Fault OutOfFuel
  | S fuel =>
      m ← get_method a s;
      if IsXposedHookedMethod m then o ← GetXposedOriginalMethod m s; UnregisterNative fuel o s
      else if negb (IsNative m && negb (IsFastNative m)) then Fault Aborted
      else RegisterNative (S fuel) a GetJniDlsymLookupStub false s
  end.
End Hooks.

(** ** JNI registration, reflection and calls *)

(** The classes of the program, and the code that runs methods. *)
Class ArtClasses := {
  FindDirectMethod : Z -> cstr -> cstr -> Z;
  FindVirtualMethod : Z -> cstr -> cstr -> Z;
  direct_methods : Z -> list Z;
  virtual_methods : Z -> list Z;
  class_of : object -> Z;
  InstanceOf : object -> Z -> bool;
  IsInterface : Z -> bool;
  IsInitialized : Z -> art -> bool;
  EnsureInitialized : Z -> art -> bool * art;
  FindVirtualMethodForInterface : Z -> ArtMethod -> Z;
  FindVirtualMethodForVirtual : Z -> ArtMethod -> Z;
  GetShorty : ArtMethod -> cstr;
  parameter_classes : ArtMethod -> list (object -> bool);
  return_class : ArtMethod -> jclass;
  VerifyAccess : Z -> Z -> Z -> art -> bool;
  Invoke : Z -> list Z -> cstr -> art -> Z * art
}.

Record JNINativeMethod := mkNative { nm_name : option cstr; nm_signature : option cstr; nm_fnPtr : Z }.

Definition JNI_OK : Z := 0.
Definition JNI_ERR : Z := -1.

Section Jni.
Context `{ArtRuntime} `{ArtClasses}.

(** A native method, or a hooked method whose original is native. *)
Definition registrable (m : ArtMethod) (s : art) : cres bool :=
  if IsNative m then Done true
  else if IsXposedHookedMethod m then
    o ← GetXposedOriginalMethod m s; om ← get_method o s; Done (IsNative om)
  else Done false.

Fixpoint register_loop (c : Z) (ms : list JNINativeMethod) (s : art) : cres (Z * art) :=
  match ms with
  | [] => Done (JNI_OK, s)
  | mkNative (Some name) (Some sig) fnPtr :: ms =>
      if fnPtr =? 0 then Done (JNI_ERR, throw NoSuchMethod s)
      else
        let '(is_fast, sig) :=
          match sig with x :: sig' => if x =? chr "!" then (true, sig') else (false, sig) | [] => (false, sig) end in
        let a := FindDirectMethod c name sig in
        let a := if a =? 0 then FindVirtualMethod c name sig else a in
        if a =? 0 then Done (JNI_ERR, throw NoSuchMethod s)
        else
          m ← get_method a s;
          ok ← registrable m s;
          if negb ok then Done (JNI_ERR, throw NoSuchMethod s)
          else s ← RegisterNative 2 a fnPtr is_fast s; register_loop c ms s
  | _ => Done (JNI_ERR, throw NoSuchMethod s)
  end.

Definition RegisterNatives (c : Z) (ms : list JNINativeMethod) (s : art) : cres (Z * art) :=
  if c =? 0 then Fault Aborted else register_loop c ms s.

Fixpoint unregister_loop (ms : list Z) (s : art) : cres art :=
  match ms with
  | [] => Done s
  | a :: ms =>
      m ← get_method a s;
      ok ← registrable m s;
      s ← (if (ok : bool) then UnregisterNative 2 a s else Done s);
      unregister_loop ms s
  end.

Definition UnregisterNatives (c : Z) (s : art) : cres (Z * art) :=
  if c =? 0 then Fault Aborted
  else s ← unregister_loop (direct_methods c ++ virtual_methods c) s; Done (JNI_OK, s).

Definition FindVirtualMethodForVirtualOrInterface (c a : Z) (m : ArtMethod) : Z :=
  if IsDirect m false then a
  else if IsInterface (declaring_class_ m) && negb (IsMiranda m) then FindVirtualMethodForInterface c m
  else FindVirtualMethodForVirtual c m.

(** [InvokeMethod]: the result object and the state; a null result with a
    pending exception where the source throws. *)
Definition check_receiver (a receiver : Z) (m : ArtMethod) (s : art) : cres (Z * Z + exn) :=
  if IsStatic m then Done (inl (a, 0))
  else if receiver =? 0 then Done (inr NullPointer)
  else
    o ← deref (objects s !! receiver);
    if InstanceOf o (declaring_class_ m)
    then Done (inl (FindVirtualMethodForVirtualOrInterface (class_of o) a m, receiver))
    else Done (inr IllegalArgument).

Definition return_type (m : ArtMethod) : PrimType :=
  match return_class m with Primitive_ t => t | Class_ _ => kPrimNot end.

Context `{Boxing}.

Definition finish_invoke (m : ArtMethod) (r : Z * art) : Z * art :=
  let '(result, s) := r in
  match exception s with
  | Some e => (0, throw (InvocationTarget e) s)
  | None =>
      match BoxPrimitive (return_type m) result (objects s) with
      | Some (x, h) => (x, set_objects h s)
      | None => (0, throw OutOfMemory s)
      end
  end.

Definition InvokeMethod (junk javaMethod javaReceiver : Z) (javaArgs : option (list Z)) (accessible : bool)
    (s : art) : cres (Z * art) :=
  a ← FromReflectedMethod javaMethod s;
  m ← get_method a s;
  let '(ok, s) :=
    if IsInitialized (declaring_class_ m) s then (true, s) else EnsureInitialized (declaring_class_ m) s in
  if negb ok then Done (0, s)
  else
    m ← get_method a s;
    target ← check_receiver a javaReceiver m s;
    match target with
    | inr e => Done (0, throw e s)
    | inl (a, receiver) =>
        m' ← get_method a s;
        let objects_ := default [] javaArgs in
        if negb (length objects_ =? length (parameter_classes m'))%nat then Done (0, throw IllegalArgument s)
        else if negb accessible && negb (VerifyAccess receiver (declaring_class_ m) (access_flags_ m') s)
        then Done (0, throw IllegalAccess s)
        else
          built ← BuildArgArrayFromObjectArray (objects s) receiver (parameter_classes m') objects_
                    (new_ArgArray junk (GetShorty m'));
          match built with
          | inr e => Done (0, throw e s)
          | inl arg_array =>
              let words := take (Z.to_nat (num_bytes_ arg_array / 4)) (arg_array_ arg_array) in
              Done (finish_invoke m' (Invoke a words (GetShorty m') s))
          end
    end.

Definition XposedBridge_invokeOriginalMethodNative (junk javaMethod isResolved javaReceiver : Z)
    (javaArgs : option (list Z)) (s : art) : cres (Z * art) :=
  javaMethod ←
    (if isResolved =? 0 then
       a ← FromReflectedMethod javaMethod s;
       m ← get_method a s;
       if IsXposedHookedMethod m then i ← GetXposedHookInfo m s; Done (reflectedMethod i) else Done javaMethod
     else Done javaMethod);
  InvokeMethod junk javaMethod javaReceiver javaArgs true s.
End Jni.

(** ** Flags *)

Lemma has_flag_testbit k m : 0 <= k -> has_flag (2 ^ k) m = Z.testbit (access_flags_ m) k.
Proof.
  intros Hk. unfold has_flag. destruct (Z.testbit (access_flags_ m) k) eqn:E.
  - apply negb_true_iff, Z.eqb_neq. intros Hz.
    assert (Z.testbit (Z.land (access_flags_ m) (2 ^ k)) k = true) as Ht; [|by rewrite Hz, Z.bits_0 in Ht].
    by rewrite Z.land_spec, E, Z.pow2_bits_eqb, Z.eqb_refl by done.
  - apply negb_false_iff, Z.eqb_eq, Z.bits_inj'. intros n Hn.
    rewrite Z.land_spec, Z.pow2_bits_eqb, Z.bits_0 by done.
    destruct (Z.eqb_spec k n) as [<-|]; [by rewrite E|apply andb_false_r].
Qed.

Lemma static_bit m : IsStatic m = Z.testbit (access_flags_ m) 3.
Proof. by apply (has_flag_testbit 3). Qed.
Lemma native_bit m : IsNative m = Z.testbit (access_flags_ m) 8.
Proof. by apply (has_flag_testbit 8). Qed.
Lemma constructor_bit m : IsConstructor m = Z.testbit (access_flags_ m) 16.
Proof. by apply (has_flag_testbit 16). Qed.
Lemma hooked_bit m : IsXposedHookedMethod m = Z.testbit (access_flags_ m) 28.
Proof. by apply (has_flag_testbit 28). Qed.
Lemma original_bit m : IsXposedOriginalMethod m = Z.testbit (access_flags_ m) 29.
Proof. by apply (has_flag_testbit 29). Qed.

Lemma fast_native_bits m : IsFastNative m = Z.testbit (access_flags_ m) 19 && Z.testbit (access_flags_ m) 8.
Proof.
  unfold IsFastNative. change (Z.lor kAccFastNative kAccNative) with (Z.lor (2 ^ 19) (2 ^ 8)).
  apply Bool.eq_true_iff_eq. rewrite Z.eqb_eq, andb_true_iff. split.
  - intros E. split; rewrite <- (andb_true_r (Z.testbit _ _)).
    + change true with (Z.testbit (Z.lor (2 ^ 19) (2 ^ 8)) 19). by rewrite <- Z.land_spec, E.
    + change true with (Z.testbit (Z.lor (2 ^ 19) (2 ^ 8)) 8). by rewrite <- Z.land_spec, E.
  - intros [H1 H2]. apply Z.bits_inj'. intros n Hn. rewrite Z.land_spec, Z.lor_spec, !Z.pow2_bits_eqb by lia.
    destruct (Z.eqb_spec 19 n) as [<-|]; [|destruct (Z.eqb_spec 8 n) as [<-|]]; cbn [orb];
      by rewrite ?H1, ?H2, ?andb_false_r.
Qed.

(** The flags of the clone, of the hooked method, and a clone's flags without
    the mark. *)
Lemma original_flags_bit f k : 0 <= k ->
  Z.testbit (Z.lor f kAccXposedOriginalMethod) k = Z.testbit f k || (k =? 29).
Proof.
  intros. change kAccXposedOriginalMethod with (2 ^ 29). rewrite Z.lor_spec, Z.pow2_bits_eqb by lia.
  by rewrite Z.eqb_sym.
Qed.

Lemma hooked_flags_bit f k : 0 <= k < 32 ->
  Z.testbit (hooked_flags f) k = (Z.testbit f k && negb (k =? 8)) || (k =? 28).
Proof.
  intros. unfold hooked_flags. change kAccXposedHookedMethod with (2 ^ 28). change kAccNative with (2 ^ 8).
  rewrite Z.lor_spec, Z.land_spec, Z.pow2_bits_eqb by lia. unfold uwrap.
  rewrite Z.mod_pow2_bits_low, Z.lnot_spec, Z.pow2_bits_eqb by lia.
  by rewrite (Z.eqb_sym 28), (Z.eqb_sym 8).
Qed.

Definition clear_original (m : ArtMethod) : ArtMethod :=
  with_flags (Z.ldiff (access_flags_ m) kAccXposedOriginalMethod) m.

Lemma clear_original_bit m k : 0 <= k ->
  Z.testbit (access_flags_ (clear_original m)) k = Z.testbit (access_flags_ m) k && negb (k =? 29).
Proof.
  intros. cbn [clear_original with_flags access_flags_]. change kAccXposedOriginalMethod with (2 ^ 29).
  rewrite Z.ldiff_spec, Z.pow2_bits_eqb by lia. by rewrite Z.eqb_sym.
Qed.

(** ** The invariant of the stores *)

Section Invariant.
Context `{ArtRuntime}.

(** The parts of a method that neither hooks nor JNI registration change. *)
Definition id_of (m : ArtMethod) : ArtMethod := with_flags 0 (with_entries 0 0 0 m).

(** The flags that hooks and registration change. *)
Definition changing (k : Z) : bool := (k =? 8) || (k =? 19) || (k =? 28) || (k =? 29).

(** [m] is hooked, and [bm] at [b] is its original: the info leads to it, its
    reflection object leads to it, and it describes the same method. *)
Record is_hook (s : art) (m : ArtMethod) (b : Z) (bm : ArtMethod) : Prop := {
  hk_info : exists i, infos s !! entry_point_from_jni_ m = Some i /\ originalMethod i = b /\
              reflects s !! reflectedMethod i = Some (mkReflect (IsConstructor bm) b);
  hk_original : methods s !! b = Some bm;
  hk_marked : IsXposedOriginalMethod bm = true;
  hk_not_hooked : IsXposedHookedMethod bm = false;
  hk_id : id_of m = id_of bm;
  hk_flags : forall k, 0 <= k < 32 -> changing k = false ->
               Z.testbit (access_flags_ m) k = Z.testbit (access_flags_ bm) k;
  hk_not_native : IsNative m = false;
  hk_not_original : IsXposedOriginalMethod m = false;
  hk_quick : entry_point_from_quick_compiled_code_ m = GetQuickProxyInvokeHandler;
  hk_interpreter : entry_point_from_interpreter_ m = artInterpreterToCompiledCodeBridge
}.

Record hooks_wf (s : art) : Prop := {
  wf_hooked : forall a m, methods s !! a = Some m -> IsXposedHookedMethod m = true -> exists b bm, is_hook s m b bm;
  wf_own : forall a1 m1 i1 a2 m2 i2,
    methods s !! a1 = Some m1 -> IsXposedHookedMethod m1 = true -> infos s !! entry_point_from_jni_ m1 = Some i1 ->
    methods s !! a2 = Some m2 -> IsXposedHookedMethod m2 = true -> infos s !! entry_point_from_jni_ m2 = Some i2 ->
    originalMethod i1 = originalMethod i2 -> a1 = a2
}.

(** The methods as a program without hooks would have them: a hooked method is
    its original, and the originals are not methods of their own. *)
Definition unhook_method (s : art) (m : ArtMethod) : option ArtMethod :=
  if IsXposedOriginalMethod m then None
  else if IsXposedHookedMethod m then
    i ← infos s !! entry_point_from_jni_ m; bm ← methods s !! originalMethod i; Some (clear_original bm)
  else Some m.
Definition unhook (s : art) : gmap Z ArtMethod := omap (unhook_method s) (methods s).

Lemma lookup_unhook s a : unhook s !! a = methods s !! a ≫= unhook_method s.
Proof. apply lookup_omap. Qed.

Lemma unhook_hooked s m b bm : IsXposedHookedMethod m = true -> is_hook s m b bm ->
  unhook_method s m = Some (clear_original bm).
Proof.
  intros Hh Hk. unfold unhook_method. rewrite (hk_not_original _ _ _ _ Hk), Hh.
  destruct (hk_info _ _ _ _ Hk) as (i & Hi & Ho & _). rewrite Hi. cbn. rewrite Ho, (hk_original _ _ _ _ Hk). done.
Qed.

(** Replacing a method by one with the same marks. *)
Definition same_marks (m m' : ArtMethod) : Prop :=
  IsXposedOriginalMethod m' = IsXposedOriginalMethod m /\ IsXposedHookedMethod m' = false /\
  id_of m' = id_of m /\
  forall k, 0 <= k < 32 -> changing k = false -> Z.testbit (access_flags_ m') k = Z.testbit (access_flags_ m) k.

Lemma same_marks_constructor m m' : same_marks m m' -> IsConstructor m' = IsConstructor m.
Proof. intros (_ & _ & _ & Hk). rewrite !constructor_bit. by apply Hk. Qed.

Lemma is_hook_update s m b bm t mt mt' : methods s !! t = Some mt -> same_marks mt mt' ->
  is_hook s m b bm -> is_hook (set_method t mt' s) m b (if decide (t = b) then mt' else bm).
Proof.
  intros Ht Hs Hk. destruct (decide (t = b)) as [->|Hne].
  - pose proof (hk_original _ _ _ _ Hk) as Hb. rewrite Ht in Hb. injection Hb as ->.
    destruct (hk_info _ _ _ _ Hk) as (i & Hi & Ho & Hr). pose proof (same_marks_constructor _ _ Hs) as Hcon.
    destruct Hs as (Hso & Hsh & Hsi & Hsf). constructor; try apply Hk; try done.
    + exists i. by rewrite Hcon.
    + apply lookup_insert_eq.
    + by rewrite Hso, (hk_marked _ _ _ _ Hk).
    + by rewrite Hsi, (hk_id _ _ _ _ Hk).
    + intros k Hk1 Hk2. by rewrite Hsf, (hk_flags _ _ _ _ Hk).
  - constructor; try apply Hk. cbn. rewrite lookup_insert_ne by done. apply Hk.
Qed.

Lemma wf_update s t mt mt' : hooks_wf s -> methods s !! t = Some mt -> IsXposedHookedMethod mt = false ->
  same_marks mt mt' -> hooks_wf (set_method t mt' s).
Proof.
  intros Hwf Ht Hh Hs.
  assert (forall a m, methods (set_method t mt' s) !! a = Some m -> IsXposedHookedMethod m = true ->
            methods s !! a = Some m) as Hold.
  { intros a m Ha Hm. cbn in Ha. apply lookup_insert_Some in Ha as [[<- <-]|[_ Ha]]; [|done].
    destruct Hs as (_ & Hs & _). congruence. }
  constructor.
  - intros a m Ha Hm. destruct (wf_hooked s Hwf a m (Hold a m Ha Hm) Hm) as (b & bm & Hk).
    eauto using is_hook_update.
  - intros a1 m1 i1 a2 m2 i2 H1 Hm1 Hi1 H2 Hm2 Hi2. cbn in Hi1, Hi2. apply (wf_own s Hwf a1 m1 i1 a2 m2 i2); auto.
Qed.

(** An update of a method that is not hooked and no original. *)
Lemma unhook_update_plain s t mt mt' : hooks_wf s -> methods s !! t = Some mt ->
  IsXposedHookedMethod mt = false -> IsXposedOriginalMethod mt = false -> same_marks mt mt' ->
  unhook (set_method t mt' s) = <[t := mt']> (unhook s).
Proof.
  intros Hwf Ht Hh Ho Hs. apply map_eq. intros x. rewrite lookup_unhook. cbn [set_method set_methods methods].
  destruct (decide (x = t)) as [->|Hx].
  - rewrite !lookup_insert_eq. cbn. unfold unhook_method. destruct Hs as (-> & -> & _). by rewrite Ho.
  - rewrite !lookup_insert_ne by done. rewrite lookup_unhook. destruct (methods s !! x) as [m|] eqn:Hm; [|done].
    cbn. destruct (IsXposedHookedMethod m) eqn:Hhm; [|by unfold unhook_method; rewrite Hhm].
    destruct (wf_hooked s Hwf x m Hm Hhm) as (b & bm & Hk).
    rewrite (unhook_hooked s m b bm Hhm Hk). pose proof (is_hook_update s m b bm t mt mt' Ht Hs Hk) as Hk'.
    rewrite (unhook_hooked _ _ _ _ Hhm Hk'). destruct (decide (t = b)) as [->|]; [|done].
    pose proof (hk_marked _ _ _ _ Hk). pose proof (hk_original _ _ _ _ Hk). congruence.
Qed.

(** An update of the original of a hooked method. *)
Lemma unhook_update_original s a m b bm bm' : hooks_wf s -> methods s !! a = Some m ->
  IsXposedHookedMethod m = true -> is_hook s m b bm -> same_marks bm bm' ->
  unhook (set_method b bm' s) = <[a := clear_original bm']> (unhook s).
Proof.
  intros Hwf Ha Hh Hk Hs. pose proof (hk_original _ _ _ _ Hk) as Hb.
  assert (a <> b) as Hab.
  { intros ->. pose proof (hk_not_hooked _ _ _ _ Hk). congruence. }
  apply map_eq. intros x. rewrite lookup_unhook. cbn [set_method set_methods methods].
  destruct (decide (x = b)) as [->|Hxb].
  { rewrite lookup_insert_eq, lookup_insert_ne, lookup_unhook, Hb by done. cbn. unfold unhook_method.
    pose proof (hk_marked _ _ _ _ Hk) as Hmk. destruct Hs as (-> & _). by rewrite Hmk. }
  rewrite lookup_insert_ne by done. destruct (decide (x = a)) as [->|Hxa].
  - rewrite lookup_insert_eq, Ha. cbn. pose proof (is_hook_update s m b bm b bm bm' Hb Hs Hk) as Hk'.
    rewrite decide_True in Hk' by done. by rewrite (unhook_hooked _ _ _ _ Hh Hk').
  - rewrite lookup_insert_ne, lookup_unhook by done. destruct (methods s !! x) as [mx|] eqn:Hm; [|done]. cbn.
    destruct (IsXposedHookedMethod mx) eqn:Hhm; [|by unfold unhook_method; rewrite Hhm].
    destruct (wf_hooked s Hwf x mx Hm Hhm) as (bx & bmx & Hkx).
    pose proof (is_hook_update s mx bx bmx b bm bm' Hb Hs Hkx) as Hk'.
    rewrite (unhook_hooked s mx bx bmx Hhm Hkx), (unhook_hooked _ _ _ _ Hhm Hk').
    destruct (decide (b = bx)) as [->|]; [|done]. exfalso. apply Hxa.
    destruct (hk_info _ _ _ _ Hk) as (i & Hi & Hio & _). destruct (hk_info _ _ _ _ Hkx) as (ix & Hix & Hixo & _).
    eapply (wf_own s Hwf x mx ix a m i); eauto. congruence.
Qed.
End Invariant.

(** ** Registration does not see hooks *)

(** JNI registration on the methods of a program without hooks. *)
Section Plain.
Context `{ArtRuntime}.

Definition registered (native_method : Z) (is_fast : bool) (m : ArtMethod) : ArtMethod :=
  SetEntryPointFromJni native_method
    (if is_fast then with_flags (Z.lor (access_flags_ m) kAccFastNative) m else m).

Definition plain_RegisterNative (a native_method : Z) (is_fast : bool) (M : gmap Z ArtMethod) : cres (gmap Z ArtMethod) :=
  m ← deref (M !! a);
  if negb (IsNative m) || IsFastNative m || (native_method =? 0) then Fault Aborted
  else Done (<[a := registered native_method is_fast m]> M).

Definition plain_UnregisterNative (a : Z) (M : gmap Z ArtMethod) : cres (gmap Z ArtMethod) :=
  plain_RegisterNative a GetJniDlsymLookupStub false M.

Lemma registered_flags f fast m k : 0 <= k ->
  Z.testbit (access_flags_ (registered f fast m)) k = Z.testbit (access_flags_ m) k || (fast && (k =? 19)).
Proof.
  intros Hk. unfold registered. destruct fast; cbn; [|by rewrite orb_false_r].
  change kAccFastNative with (2 ^ 19). rewrite Z.lor_spec, Z.pow2_bits_eqb by lia. by rewrite (Z.eqb_sym 19).
Qed.

Lemma registered_marks f fast m : IsXposedHookedMethod m = false -> same_marks m (registered f fast m).
Proof.
  intros Hh. unfold same_marks. rewrite !original_bit, !hooked_bit, !registered_flags in * by lia.
  rewrite Hh, !andb_false_r, !orb_false_r. split; [done|]. split; [done|]. split.
  - unfold registered. by destruct fast.
  - intros k Hk Hc. rewrite registered_flags by lia. unfold changing in Hc. destruct (k =? 19); [bool_lia|].
    by rewrite andb_false_r, orb_false_r.
Qed.

Lemma clear_registered f fast m : clear_original (registered f fast m) = registered f fast (clear_original m).
Proof.
  unfold clear_original, registered. destruct fast; [|done].
  unfold SetEntryPointFromJni, with_flags, with_entries. cbn. f_equal.
  apply Z.bits_inj'. intros n Hn. rewrite !Z.ldiff_spec, !Z.lor_spec, !Z.ldiff_spec.
  change kAccFastNative with (2 ^ 19). change kAccXposedOriginalMethod with (2 ^ 29).
  rewrite !Z.pow2_bits_eqb by lia. destruct (Z.eqb_spec 19 n) as [<-|]; [by rewrite !orb_true_r|]. by rewrite !orb_false_r.
Qed.

Lemma clear_checks m : IsNative (clear_original m) = IsNative m /\ IsFastNative (clear_original m) = IsFastNative m.
Proof. rewrite !fast_native_bits, !native_bit, !clear_original_bit by lia. by rewrite !andb_true_r. Qed.

(** [RegisterNative] on the method itself. *)
Lemma register_direct n a m f fast s : methods s !! a = Some m -> IsXposedHookedMethod m = false ->
  RegisterNative (S n) a f fast s =
  if negb (IsNative m) || IsFastNative m || (f =? 0) then Fault Aborted
  else Done (set_method a (registered f fast m) s).
Proof. intros Hm Hh. cbn [RegisterNative]. unfold get_method. rewrite Hm. cbn [deref mbind cres_bind]. by rewrite Hh. Qed.

(** Registration of a hooked method is registration of its original. *)
Lemma register_forwards n a m b bm f fast s : methods s !! a = Some m -> IsXposedHookedMethod m = true ->
  is_hook s m b bm ->
  RegisterNative (S (S n)) a f fast s =
  if negb (IsNative bm) || IsFastNative bm || (f =? 0) then Fault Aborted
  else Done (set_method b (registered f fast bm) s).
Proof.
  intros Hm Hh Hk. rewrite <- (register_direct n b bm f fast s (hk_original _ _ _ _ Hk) (hk_not_hooked _ _ _ _ Hk)).
  destruct (hk_info _ _ _ _ Hk) as (i & Hi & Ho & _).
  cbn [RegisterNative]. unfold get_method, GetXposedOriginalMethod, GetXposedHookInfo.
  rewrite Hm. cbn [deref mbind cres_bind]. rewrite Hh, Hi. cbn [deref mbind cres_bind]. by rewrite Ho.
Qed.

Lemma unregister_is_register n a s : hooks_wf s -> is_Some (unhook s !! a) ->
  UnregisterNative (S (S n)) a s = RegisterNative (S (S n)) a GetJniDlsymLookupStub false s.
Proof.
  intros Hwf [m0 Hm0]. rewrite lookup_unhook in Hm0. destruct (methods s !! a) as [m|] eqn:Hm; [|done].
  assert (forall n x mx, methods s !! x = Some mx -> IsXposedHookedMethod mx = false ->
    UnregisterNative (S n) x s = RegisterNative (S n) x GetJniDlsymLookupStub false s) as Hd.
  { intros k x mx Hx Hhx. cbn [UnregisterNative]. unfold get_method. rewrite Hx. cbn [deref mbind cres_bind]. rewrite Hhx.
    rewrite (register_direct k x mx) by done. rewrite negb_andb, negb_involutive.
    destruct (negb (IsNative mx) || IsFastNative mx); [done|]. by rewrite (proj2 (Z.eqb_neq _ _) dlsym_stub_not_null). }
  destruct (IsXposedHookedMethod m) eqn:Hh; [|by eapply Hd].
  destruct (wf_hooked s Hwf a m Hm Hh) as (b & bm & Hk). destruct (hk_info _ _ _ _ Hk) as (i & Hi & Ho & _).
  pose proof (Hd n b bm (hk_original _ _ _ _ Hk) (hk_not_hooked _ _ _ _ Hk)) as Hb.
  cbn [UnregisterNative RegisterNative] in *. unfold get_method, GetXposedOriginalMethod, GetXposedHookInfo in *.
  rewrite Hm. cbn [deref mbind cres_bind]. rewrite Hh, Hi. cbn [deref mbind cres_bind]. by rewrite Ho.
Qed.

(** Registration in the runtime with hooks refines registration without. *)
Lemma register_refines a f fast s : hooks_wf s -> is_Some (unhook s !! a) ->
  match RegisterNative 2 a f fast s with
  | Done s' => hooks_wf s' /\ plain_RegisterNative a f fast (unhook s) = Done (unhook s')
  | Fault e => plain_RegisterNative a f fast (unhook s) = Fault e
  end.
Proof.
  intros Hwf [m0 Hm0]. unfold plain_RegisterNative. rewrite Hm0. cbn [deref mbind cres_bind].
  rewrite lookup_unhook in Hm0. destruct (methods s !! a) as [m|] eqn:Hm; [|done]. cbn in Hm0.
  destruct (IsXposedHookedMethod m) eqn:Hh.
  - destruct (wf_hooked s Hwf a m Hm Hh) as (b & bm & Hk). rewrite (register_forwards 0 a m b bm) by done.
    rewrite (unhook_hooked s m b bm Hh Hk) in Hm0. injection Hm0 as <-.
    destruct (clear_checks bm) as [-> ->]. destruct (_ || _ || _); [done|].
    pose proof (registered_marks f fast bm (hk_not_hooked _ _ _ _ Hk)) as Hs. split.
    + apply (wf_update s b bm); [done|apply Hk|apply Hk|done].
    + by rewrite (unhook_update_original s a m b bm _ Hwf Hm Hh Hk Hs), clear_registered.
  - rewrite (register_direct 1 a m) by done. unfold unhook_method in Hm0. rewrite Hh in Hm0.
    destruct (IsXposedOriginalMethod m) eqn:Ho; [done|]. injection Hm0 as <-.
    destruct (_ || _ || _); [done|]. pose proof (registered_marks f fast m Hh) as Hs.
    split; [by apply (wf_update s a m)|]. by rewrite (unhook_update_plain s a m _ Hwf Hm Hh Ho Hs).
Qed.
End Plain.

(** ** Installing a hook *)

Section Install.
Context `{ArtRuntime}.

(** The clone, the patched method and the stores when the hook is installed. *)
Definition backup_of (m : ArtMethod) : ArtMethod := with_flags (Z.lor (access_flags_ m) kAccXposedOriginalMethod) m.
Definition hooked_of (h : Z) (m : ArtMethod) : ArtMethod :=
  with_flags (hooked_flags (access_flags_ m))
    (with_entries artInterpreterToCompiledCodeBridge h GetQuickProxyInvokeHandler m).
Definition hooked_state (a : Z) (m : ArtMethod) (additional b r h : Z) (s : art) : art :=
  mkArt (<[a := hooked_of h m]> (<[b := backup_of m]> (methods s)))
    (<[h := mkInfo r additional b]> (infos s)) (<[r := mkReflect (IsConstructor m) b]> (reflects s))
    (map (StackReplaceMethod a b) (stacks s)) (objects s) (exception s).

(** Some object of the hook cannot be allocated. *)
Definition out_of_memory : Prop :=
  exists s', Clone s' = 0 \/ AllocObject s' = 0 \/ calloc s' = 0.

Lemma update_method_ok a f m s : methods s !! a = Some m -> update_method a f s = Done (set_method a (f m) s).
Proof. intros Hm. unfold update_method, get_method. by rewrite Hm. Qed.

Lemma get_method_ok a m s : methods s !! a = Some m -> get_method a s = Done m.
Proof. intros Hm. unfold get_method. by rewrite Hm. Qed.

Lemma enable_effect a additional m s : methods s !! a = Some m ->
  IsXposedHookedMethod m = false -> IsXposedOriginalMethod m = false ->
  (EnableXposedHook a additional s = Fault NullDeref /\ out_of_memory) \/
  exists b r h, methods s !! b = None /\ reflects s !! r = None /\ infos s !! h = None /\
    b <> 0 /\ r <> 0 /\ h <> 0 /\
    EnableXposedHook a additional s = Done (hooked_state a m additional b r h s).
Proof.
  intros Hm Hh Ho. unfold EnableXposedHook. rewrite (get_method_ok a m s Hm). cbn [mbind cres_bind]. rewrite Hh, Ho.
  unfold save_original. rewrite (get_method_ok a m s Hm). cbn [mbind cres_bind]. cbv zeta.
  destruct (Z.eqb_spec (Clone s) 0) as [E|Hb]; [left; split; [done|by exists s; left]|].
  match goal with |- context [AllocObject ?x =? 0] => destruct (Z.eqb_spec (AllocObject x) 0) as [E|Hr] end.
  { left. split; [done|]. eexists. right. by left. }
  match goal with |- context [calloc ?x =? 0] => destruct (Z.eqb_spec (calloc x) 0) as [E|Hi] end.
  { left. split; [done|]. eexists. right. by right. }
  right.
  pose proof (Clone_fresh s Hb) as Fb. apply AllocObject_fresh in Hr as Fr. apply calloc_fresh in Hi as Fi.
  do 3 eexists. split; [exact Fb|]. split; [exact Fr|]. split; [exact Fi|]. split; [done|]. split; [exact Hr|].
  split; [exact Hi|].
  assert (a <> Clone s) as Hab by congruence.
  rewrite (get_method_ok a m) by (cbn; by rewrite lookup_insert_ne). cbn [mbind cres_bind].
  unfold replace_stacks. erewrite get_method_ok by apply lookup_insert_eq. cbn [mbind cres_bind]. unfold GetXposedOriginalMethod, GetXposedHookInfo.
  cbn [infos set_method set_methods SetEntryPointFromJni with_entries entry_point_from_jni_].
  rewrite lookup_insert_eq. cbn [deref mbind cres_bind originalMethod].
  unfold set_quick. erewrite update_method_ok by apply lookup_insert_eq. cbn [mbind cres_bind].
  unfold set_interpreter. erewrite update_method_ok by apply lookup_insert_eq. cbn [mbind cres_bind].
  unfold set_hooked_flags. erewrite update_method_ok by apply lookup_insert_eq.
  unfold hooked_state, set_method, set_methods. cbn -[Z.lor hooked_flags]. by rewrite !insert_insert_eq.
Qed.

(** The patched method and its clone are a hook. *)
Lemma hooked_of_marks h m : IsXposedHookedMethod m = false -> IsXposedOriginalMethod m = false ->
  IsXposedHookedMethod (hooked_of h m) = true /\ IsXposedOriginalMethod (hooked_of h m) = false /\
  IsNative (hooked_of h m) = false /\ IsXposedOriginalMethod (backup_of m) = true /\
  IsXposedHookedMethod (backup_of m) = false /\ IsConstructor (backup_of m) = IsConstructor m /\
  clear_original (backup_of m) = m.
Proof.
  rewrite !original_bit, !hooked_bit, !native_bit, !constructor_bit. intros Hh Ho.
  cbn [hooked_of backup_of with_flags access_flags_]. rewrite !hooked_flags_bit, !original_flags_bit by lia.
  rewrite Hh, Ho. split_and!; try done; try (cbn; by rewrite ?orb_false_r, ?andb_false_r, ?orb_true_r).
  unfold clear_original, backup_of. destruct m as [? ? ? f]. unfold with_flags. cbn in *. f_equal.
  apply Z.bits_inj'. intros n Hn. change kAccXposedOriginalMethod with (2 ^ 29).
  rewrite Z.ldiff_spec, Z.lor_spec, Z.pow2_bits_eqb by lia.
  destruct (Z.eqb_spec 29 n) as [<-|]; cbn; [by rewrite Ho, andb_false_r|]. by rewrite orb_false_r, andb_true_r.
Qed.

Lemma hooked_is_hook a m additional b r h s : a <> b -> IsXposedHookedMethod m = false -> IsXposedOriginalMethod m = false ->
  is_hook (hooked_state a m additional b r h s) (hooked_of h m) b (backup_of m).
Proof.
  intros Hab Hh Ho. destruct (hooked_of_marks h m Hh Ho) as (H1 & H2 & H3 & H4 & H5 & H6 & H7).
  constructor; try done; cbn [hooked_state methods infos reflects].
  - exists (mkInfo r additional b). cbn. rewrite !lookup_insert_eq. split; [done|]. split; [done|]. by rewrite H6.
  - by rewrite lookup_insert_ne, lookup_insert_eq.
  - intros k Hk Hc. cbn [hooked_of backup_of with_flags access_flags_].
    rewrite hooked_flags_bit, original_flags_bit by lia. unfold changing in Hc.
    destruct (k =? 8), (k =? 28), (k =? 29); try done; cbn in *; try bool_lia.
    by rewrite andb_true_r.
Qed.

Lemma is_hook_fresh a m additional b r h s mx bx bmx : methods s !! a = Some m -> methods s !! b = None ->
  reflects s !! r = None -> infos s !! h = None -> IsXposedOriginalMethod m = false ->
  is_hook s mx bx bmx -> is_hook (hooked_state a m additional b r h s) mx bx bmx.
Proof.
  intros Ha Hb Hr Hi Ho Hk. destruct (hk_info _ _ _ _ Hk) as (i & Hx & Hio & Hre).
  pose proof (hk_original _ _ _ _ Hk) as Hbx. pose proof (hk_marked _ _ _ _ Hk) as Hmk.
  constructor; try apply Hk; cbn [hooked_state methods infos reflects].
  - exists i. rewrite !lookup_insert_ne by congruence. done.
  - rewrite !lookup_insert_ne by congruence. done.
Qed.

Section Fresh.
Context (a additional b r h : Z) (m : ArtMethod) (s : art).
Context (Hwf : hooks_wf s) (Ha : methods s !! a = Some m).
Context (Hh : IsXposedHookedMethod m = false) (Ho : IsXposedOriginalMethod m = false).
Context (Fb : methods s !! b = None) (Fr : reflects s !! r = None) (Fh : infos s !! h = None).
#[local] Abbreviation s' := (hooked_state a m additional b r h s).

(** The hooked methods afterwards are the one that was hooked and the old ones. *)
Lemma hooked_after x mx : methods s' !! x = Some mx -> IsXposedHookedMethod mx = true ->
  (x = a /\ mx = hooked_of h m) \/ (x <> a /\ x <> b /\ methods s !! x = Some mx).
Proof.
  intros Hx Hm. cbn in Hx. apply lookup_insert_Some in Hx as [[<- <-]|[Hxa Hx]]; [by left|].
  apply lookup_insert_Some in Hx as [[<- <-]|[Hxb Hx]].
  - destruct (hooked_of_marks h m Hh Ho) as (_ & _ & _ & _ & Hf & _). congruence.
  - right. done.
Qed.

Lemma old_info x mx i : methods s !! x = Some mx -> IsXposedHookedMethod mx = true ->
  infos s' !! entry_point_from_jni_ mx = Some i ->
  infos s !! entry_point_from_jni_ mx = Some i /\ originalMethod i <> b.
Proof.
  intros Hx Hm Hi. destruct (wf_hooked s Hwf x mx Hx Hm) as (bx & bmx & Hk).
  destruct (hk_info _ _ _ _ Hk) as (j & Hj & Hjo & _). pose proof (hk_original _ _ _ _ Hk).
  cbn in Hi. rewrite lookup_insert_ne in Hi by congruence. split; [done|]. congruence.
Qed.

Lemma hook_keeps_wf : hooks_wf s'.
Proof.
  assert (a <> b) by congruence. constructor.
  - intros x mx Hx Hm. destruct (hooked_after x mx Hx Hm) as [[-> ->]|(_ & _ & Hold)].
    + eauto using hooked_is_hook.
    + destruct (wf_hooked s Hwf x mx Hold Hm) as (bx & bmx & Hk). eauto using is_hook_fresh.
  - intros x1 m1 i1 x2 m2 i2 Hx1 Hm1 Hi1 Hx2 Hm2 Hi2 E.
    destruct (hooked_after x1 m1 Hx1 Hm1) as [[-> ->]|(_ & _ & O1)], (hooked_after x2 m2 Hx2 Hm2) as [[-> ->]|(_ & _ & O2)].
    + done.
    + destruct (old_info x2 m2 i2 O2 Hm2 Hi2) as [_ Hne]. cbn in Hi1. rewrite lookup_insert_eq in Hi1.
      injection Hi1 as <-. by destruct Hne.
    + destruct (old_info x1 m1 i1 O1 Hm1 Hi1) as [_ Hne]. cbn in Hi2. rewrite lookup_insert_eq in Hi2.
      injection Hi2 as <-. by destruct Hne.
    + destruct (old_info x1 m1 i1 O1 Hm1 Hi1) as [Hj1 _]. destruct (old_info x2 m2 i2 O2 Hm2 Hi2) as [Hj2 _].
      by apply (wf_own s Hwf x1 m1 i1 x2 m2 i2).
Qed.

Lemma hook_keeps_unhooked : unhook s' = unhook s.
Proof.
  assert (a <> b) as Hab by congruence. destruct (hooked_of_marks h m Hh Ho) as (H1 & H2 & H3 & H4 & H5 & H6 & H7).
  apply map_eq. intros x. rewrite !lookup_unhook. cbn [hooked_state methods].
  destruct (decide (x = a)) as [->|Hxa].
  - rewrite lookup_insert_eq, Ha. cbn [mbind option_bind].
    rewrite (unhook_hooked _ _ _ _ H1 (hooked_is_hook a m additional b r h s Hab Hh Ho)), H7.
    unfold unhook_method. by rewrite Hh, Ho.
  - rewrite lookup_insert_ne by done. destruct (decide (x = b)) as [->|Hxb].
    + rewrite lookup_insert_eq, Fb. cbn. unfold unhook_method. by rewrite H4.
    + rewrite lookup_insert_ne by done. destruct (methods s !! x) as [mx|] eqn:Hx; [|done]. cbn [mbind option_bind].
      destruct (IsXposedHookedMethod mx) eqn:Hm; [|unfold unhook_method; by rewrite Hm].
      destruct (wf_hooked s Hwf x mx Hx Hm) as (bx & bmx & Hk). rewrite (unhook_hooked s mx bx bmx Hm Hk).
      eapply unhook_hooked, is_hook_fresh; done.
Qed.
End Fresh.
End Install.

(** ** Programs of hooks and registrations *)

Section Run.
Context `{ArtRuntime}.

Inductive op :=
| OpHook (javaReflectedMethod javaAdditionalInfo : Z)
| OpRegister (a native_method : Z) (is_fast : bool)
| OpUnregister (a : Z).

Definition run_op (o : op) (s : art) : cres art :=
  match o with
  | OpHook r add => XposedBridge_hookMethodNative r add s
  | OpRegister a f fast => RegisterNative 2 a f fast s
  | OpUnregister a => UnregisterNative 2 a s
  end.
Fixpoint run_ops (os : list op) (s : art) : cres art :=
  match os with [] => Done s | o :: os => s ← run_op o s; run_ops os s end.

(** The same program without hooks. *)
Definition plain_op (o : op) (M : gmap Z ArtMethod) : cres (gmap Z ArtMethod) :=
  match o with
  | OpHook _ _ => Done M
  | OpRegister a f fast => plain_RegisterNative a f fast M
  | OpUnregister a => plain_UnregisterNative a M
  end.
Fixpoint plain_ops (os : list op) (M : gmap Z ArtMethod) : cres (gmap Z ArtMethod) :=
  match os with [] => Done M | o :: os => M ← plain_op o M; plain_ops os M end.

(** Registration is for the methods that classes have. *)
Definition op_ok (M : gmap Z ArtMethod) (o : op) : Prop :=
  match o with OpHook _ _ => True | OpRegister a _ _ | OpUnregister a => is_Some (M !! a) end.

(** Stacks, objects and exceptions do not matter. *)
Lemma wf_ext s s' : methods s' = methods s -> infos s' = infos s -> reflects s' = reflects s ->
  hooks_wf s -> hooks_wf s'.
Proof.
  intros Em Ei Er Hwf. constructor.
  - intros a m. rewrite Em. intros Ha Hm. destruct (wf_hooked s Hwf a m Ha Hm) as (b & bm & Hk). exists b, bm.
    constructor; rewrite ?Em, ?Ei, ?Er; apply Hk.
  - rewrite Em, Ei. apply (wf_own s Hwf).
Qed.

Lemma hook_refines r add s s' : hooks_wf s -> XposedBridge_hookMethodNative r add s = Done s' ->
  hooks_wf s' /\ unhook s' = unhook s.
Proof.
  intros Hwf. unfold XposedBridge_hookMethodNative, FromReflectedMethod.
  destruct (r =? 0); [intros [= <-]; split; [by apply (wf_ext s)|done]|].
  destruct (reflects s !! r) as [x|]; [|done]. cbn [deref mbind cres_bind].
  destruct (methods s !! artMethod x) as [m|] eqn:Hm; [|unfold EnableXposedHook, get_method; by rewrite Hm].
  destruct (IsXposedHookedMethod m) eqn:Hh;
    [unfold EnableXposedHook; rewrite (get_method_ok _ _ _ Hm); cbn [mbind cres_bind]; rewrite Hh; by intros [= <-]|].
  destruct (IsXposedOriginalMethod m) eqn:Ho;
    [unfold EnableXposedHook; rewrite (get_method_ok _ _ _ Hm); cbn [mbind cres_bind]; rewrite Hh, Ho; intros [= <-];
     split; [by apply (wf_ext s)|done]|].
  destruct (enable_effect (artMethod x) add m s Hm Hh Ho) as [[-> _]|(b & rr & h & Fb & Fr & Fh & _ & _ & _ & ->)]; [done|].
  intros [= <-]. eauto using hook_keeps_wf, hook_keeps_unhooked.
Qed.

Lemma plain_dom o M M' : plain_op o M = Done M' -> dom M' = dom M.
Proof.
  destruct o as [|a f fast|a]; cbn [plain_op]; [by intros [= <-]|..]; unfold plain_UnregisterNative, plain_RegisterNative;
    destruct (M !! a) as [m|] eqn:Ha; try done; cbn [deref mbind cres_bind]; destruct (_ || _ || _); try done;
    intros [= <-]; rewrite dom_insert_lookup_L; done.
Qed.

Lemma run_op_refines o s : hooks_wf s -> op_ok (unhook s) o ->
  match run_op o s with
  | Done s' => hooks_wf s' /\ plain_op o (unhook s) = Done (unhook s')
  | Fault e => match o with OpHook _ _ => True | _ => plain_op o (unhook s) = Fault e end
  end.
Proof.
  intros Hwf Hok. destruct o as [r add|a f fast|a]; cbn [run_op plain_op op_ok] in *.
  - destruct (XposedBridge_hookMethodNative r add s) as [s'|] eqn:E; [|done].
    destruct (hook_refines r add s s' Hwf E) as [Hwf' ->]. done.
  - by apply register_refines.
  - rewrite unregister_is_register by done. by apply (register_refines a GetJniDlsymLookupStub false s).
Qed.

Lemma run_ops_refine os s s' : hooks_wf s -> Forall (op_ok (unhook s)) os -> run_ops os s = Done s' ->
  hooks_wf s' /\ plain_ops os (unhook s) = Done (unhook s').
Proof.
  revert s. induction os as [|o os IH]; intros s Hwf Hok; cbn [run_ops plain_ops].
  { intros [= <-]. done. }
  apply Forall_cons in Hok as [Hok Hoks]. pose proof (run_op_refines o s Hwf Hok) as Hr.
  destruct (run_op o s) as [s1|]; [|done]. cbn [mbind cres_bind]. destruct Hr as [Hwf1 Hp].
  intros Hrun. destruct (IH s1 Hwf1) as [Hwf2 Hps]; [|done|].
  - eapply Forall_impl; [exact Hoks|]. intros [r add|a f fast|a]; cbn; try done; intros Hs;
      apply elem_of_dom; rewrite (plain_dom _ _ _ Hp); by apply elem_of_dom.
  - rewrite Hp. cbn [mbind cres_bind]. done.
Qed.
End Run.

(** ** Calling a hooked method *)

(** The arguments of XposedBridge.handleHookedMethod, as the objects that the Java
    method gets; a null array is [None]. *)
Record handler_call := mkCall {
  hc_method : Z; hc_originalMethodId : Z; hc_additionalInfo : Z; hc_this : Z; hc_args : option (list Z)
}.

Section Handler.
Context `{ArtRuntime} `{ArtClasses} `{Boxing} `{LocalRefs}.
(** The Java method, and the handler of dynamic proxies. *)
Context (handleHookedMethod : handler_call -> art -> Z * art).
Context (InvokeProxyInvocationHandler : Z -> Z -> list Z -> art -> cres (Z * art)).
Context (target_sdk_version : Z) (new_array_ok : bool).

(** The array of boxed arguments; [inr] when a box or the array cannot be
    allocated. *)
Definition make_args (shorty : cstr) (args : list Z) (s : art) : (option (list Z) * art) + art :=
  if (0 <? length args)%nat || ((0 <? target_sdk_version) && (target_sdk_version <=? 21)) then
    if negb new_array_ok then inr (throw OutOfMemory s)
    else match box_arguments (drop 1 shorty) args (objects s) with
         | Some (rs, h) => inl (Some rs, set_objects h s)
         | None => inr (throw OutOfMemory s)
         end
  else inl (None, s).

(** The last part: the result of the Java method as a JValue. *)
Definition unbox_result (shorty : cstr) (a : Z) (result : Z) (s : art) : cres (Z * art) :=
  match exception s with
  | Some _ => Done (0, s)
  | None =>
      r ← deref (shorty !! 0%nat);
      if (r =? chr "V") || ((r =? chr "L") && (result =? 0)) then Done (0, s)
      else
        m ← get_method a s;
        u ← UnboxPrimitiveForResult (objects s) result (return_class m);
        match u with
        | inl j => Done (j, s)
        | inr e => Done (0, throw e s)
        end
  end.

Definition InvokeXposedHandleHookedMethod (shorty : cstr) (rcvr_jobj a : Z) (args : list Z) (s : art) : cres (Z * art) :=
  match make_args shorty args s with
  | inr s => Done (0, s)
  | inl (args_jobj, s) =>
      m ← get_method a s;
      hookInfo ← GetXposedHookInfo m s;
      let '(result, s) :=
        handleHookedMethod (mkCall (reflectedMethod hookInfo) 1 (additionalInfo hookInfo) (Decode rcvr_jobj) args_jobj) s in
      unbox_result shorty a result s
  end.

(** The receiver is an argument and has no slot of its own; its reference is made
    under this number. *)
Definition receiver_slot : Z := -1.

(** [artQuickProxyInvokeHandler] on the frame [mem].  A static method that is
    not hooked fails the CHECK, as only hooked methods and the instance methods
    of proxy classes have this entry point. *)
Definition artQuickProxyInvokeHandler (mem : list Z) (junk a receiver : Z) (s : art) : cres (Z * art) :=
  m ← get_method a s;
  let is_xposed := IsXposedHookedMethod m in
  let is_static := IsStatic m in
  let rcvr_jobj := if is_static then 0 else AddLocalReference receiver_slot receiver in
  if negb is_xposed && is_static then Fault Aborted
  else
    let shorty := GetShorty m in
    args ← VisitArguments arm mem junk is_static shorty;
    let args := if is_static then args else drop 1 args in
    if is_xposed then InvokeXposedHandleHookedMethod shorty rcvr_jobj a args s
    else InvokeProxyInvocationHandler a rcvr_jobj args s.
End Handler.

(** ** The hook in steps

    [EnableXposedHook] runs while other threads run, except between SuspendAll
    and ResumeAll.  Its effects become visible one after the other, in the order
    of the stages; a stage is the number of effects that are visible. *)

Definition stages : nat := 5.

Section Steps.
Context `{ArtRuntime}.

Definition stage (a additional_info : Z) (n : nat) (s : art) : cres art :=
  match n with
  | 0%nat => save_original a additional_info s
  | 1%nat => replace_stacks a s
  | 2%nat => set_quick a s
  | 3%nat => set_interpreter a s
  | _ => set_hooked_flags a s
  end.

(** What another thread may do in between: call a method or return from one. *)
Inductive others : art -> art -> Prop :=
| other_call s pre frames post a m : stacks s = pre ++ frames :: post -> methods s !! a = Some m ->
    others s (mkArt (methods s) (infos s) (reflects s) (pre ++ (a :: frames) :: post) (objects s) (exception s))
| other_return s pre f frames post : stacks s = pre ++ (f :: frames) :: post ->
    others s (mkArt (methods s) (infos s) (reflects s) (pre ++ frames :: post) (objects s) (exception s)).

(** The hook of [a] as it advances, from a state where the checks have passed. *)
Inductive hooking (a additional_info : Z) : art -> nat -> art -> Prop :=
| hooking_start s : hooking a additional_info s 0 s
| hooking_stage s n s1 s2 : hooking a additional_info s n s1 -> (n < stages)%nat ->
    stage a additional_info n s1 = Done s2 -> hooking a additional_info s (S n) s2
| hooking_others s n s1 s2 : hooking a additional_info s n s1 -> others s1 s2 ->
    hooking a additional_info s n s2.

(** Where a call of a method leads: to the proxy handler, which treats the method
    as hooked or as a method of a proxy class, to native code, or to the
    method's own code. *)
Inductive target := HookHandler (info : Z) | ProxyHandler | NativeCode (p : Z) | OwnCode (code_item quick : Z).
Definition dispatch (m : ArtMethod) : target :=
  if entry_point_from_quick_compiled_code_ m =? GetQuickProxyInvokeHandler then
    if IsXposedHookedMethod m then HookHandler (entry_point_from_jni_ m) else ProxyHandler
  else if IsNative m then NativeCode (entry_point_from_jni_ m)
  else OwnCode (dex_code_item_offset_ m) (entry_point_from_quick_compiled_code_ m).

(** The method after [n] stages, when its hook info is at [h]. *)
Definition staged (n : nat) (h : Z) (m : ArtMethod) : ArtMethod :=
  match n with
  | 0%nat => m
  | 1%nat | 2%nat => SetEntryPointFromJni h m
  | 3%nat => SetEntryPointFromQuickCompiledCode GetQuickProxyInvokeHandler (SetEntryPointFromJni h m)
  | 4%nat => SetEntryPointFromInterpreter artInterpreterToCompiledCodeBridge
               (SetEntryPointFromQuickCompiledCode GetQuickProxyInvokeHandler (SetEntryPointFromJni h m))
  | _ => hooked_of h m
  end.

Definition at_stage (a : Z) (m : ArtMethod) (n : nat) (s : art) : Prop :=
  exists h, methods s !! a = Some (staged n h m) /\ (n <> 0%nat -> is_Some (infos s !! h)).

Lemma stage_advances a additional m n s s' : (n < stages)%nat -> at_stage a m n s ->
  stage a additional n s = Done s' -> at_stage a m (S n) s'.
Proof.
  intros Hn (h & Hm & Hi) E. unfold stages in Hn. destruct n as [|[|[|[|[|]]]]]; cbn [stage] in E; [..|lia].
  - unfold save_original in E. rewrite (get_method_ok _ _ _ Hm) in E. cbn [mbind cres_bind] in E. cbv zeta in E.
    destruct (Z.eqb_spec (Clone s) 0) as [|Hb]; [done|]. destruct (_ =? 0); [done|]. destruct (_ =? 0); [done|].
    assert (a <> Clone s) by (pose proof (Clone_fresh s Hb); congruence).
    rewrite (get_method_ok a m) in E by (cbn; by rewrite lookup_insert_ne). cbn [mbind cres_bind] in E.
    injection E as <-. eexists. cbn. split; [by rewrite lookup_insert_eq|]. intros _. rewrite lookup_insert_eq. eauto.
  - unfold replace_stacks in E. rewrite (get_method_ok _ _ _ Hm) in E. cbn [mbind cres_bind] in E.
    unfold GetXposedOriginalMethod, GetXposedHookInfo in E. cbn [staged SetEntryPointFromJni with_entries entry_point_from_jni_] in E.
    destruct Hi as [i Hi]; [done|]. rewrite Hi in E. injection E as <-. exists h. cbn. eauto.
  - unfold set_quick in E. rewrite (update_method_ok _ _ _ _ Hm) in E. injection E as <-. exists h. cbn.
    rewrite lookup_insert_eq. auto.
  - unfold set_interpreter in E. rewrite (update_method_ok _ _ _ _ Hm) in E. injection E as <-. exists h. cbn.
    rewrite lookup_insert_eq. auto.
  - unfold set_hooked_flags in E. rewrite (update_method_ok _ _ _ _ Hm) in E. injection E as <-. exists h. cbn.
    rewrite lookup_insert_eq. auto.
Qed.

Lemma hooking_at_stage a additional m s n s' : methods s !! a = Some m -> hooking a additional s n s' ->
  (n <= stages)%nat /\ at_stage a m n s'.
Proof.
  intros Hm Hk. induction Hk as [s|s n s1 s2 _ IH Hn E|s n s1 s2 _ IH Ho].
  - split; [lia|]. by exists 0.
  - destruct (IH Hm) as [_ IHs]. split; [lia|]. by eapply stage_advances.
  - destruct (IH Hm) as [IHn (h & IHm & IHi)]. split; [done|]. exists h. by destruct Ho.
Qed.
End Steps.

(** What a thread runs that calls a method while another thread hooks it.
    Whatever the other threads do in between, the first two effects of the hook
    leave a method with bytecode on its own code, and when all effects are
    visible a call leads to the hook handler with a valid hook info.  In between
    it does not: a native method jumps to the hook info as if it were code from
    the first effect on, and with the new entry point but the old flags a call
    is handled as a call of a proxy class. *)
Theorem hook_dispatch_by_stage `{ArtRuntime} a additional m s n s'
    (Hm : methods s !! a = Some m) (Hh : IsXposedHookedMethod m = false)
    (Hq : entry_point_from_quick_compiled_code_ m <> GetQuickProxyInvokeHandler)
    (Hrun : hooking a additional s n s') :
  exists m' h, methods s' !! a = Some m' /\ (n <> 0%nat -> is_Some (infos s' !! h)) /\
    dispatch m' =
    if (n <=? 2)%nat then
      if IsNative m then NativeCode (if (n =? 0)%nat then entry_point_from_jni_ m else h)
      else OwnCode (dex_code_item_offset_ m) (entry_point_from_quick_compiled_code_ m)
    else if (n <=? 4)%nat then ProxyHandler
    else HookHandler h.
Proof.
  destruct (hooking_at_stage a additional m s n s' Hm Hrun) as [Hn (h & Hm' & Hi)].
  exists (staged n h m), h. split; [done|]. split; [done|]. apply Z.eqb_neq in Hq. unfold stages in Hn.
  assert (IsXposedHookedMethod (hooked_of h m) = true) as Hf.
  { rewrite hooked_bit. cbn [hooked_of with_flags access_flags_]. rewrite hooked_flags_bit by lia. apply orb_true_r. }
  unfold dispatch.
  destruct n as [|[|[|[|[|[|]]]]]]; [..|lia]; cbn [staged Nat.leb Nat.eqb];
    cbn [SetEntryPointFromJni SetEntryPointFromQuickCompiledCode SetEntryPointFromInterpreter with_entries
         entry_point_from_quick_compiled_code_ entry_point_from_jni_ dex_code_item_offset_];
    rewrite ?Hq; try reflexivity.
  - rewrite Z.eqb_refl. change (IsXposedHookedMethod _) with (IsXposedHookedMethod m). by rewrite Hh.
  - rewrite Z.eqb_refl. change (IsXposedHookedMethod _) with (IsXposedHookedMethod m). by rewrite Hh.
  - cbn [hooked_of with_flags with_entries entry_point_from_quick_compiled_code_]. by rewrite Z.eqb_refl, Hf.
Qed.

(** ** Every reachable state *)

Section Reachable.
Context `{ArtRuntime}.

Definition no_hooks (s : art) : Prop :=
  forall a m, methods s !! a = Some m -> IsXposedHookedMethod m = false /\ IsXposedOriginalMethod m = false.

Inductive reachable : art -> Prop :=
| reach_start s : no_hooks s -> reachable s
| reach_op o s s' : reachable s -> op_ok (unhook s) o -> run_op o s = Done s' -> reachable s'
| reach_others s s' : reachable s -> others s s' -> reachable s'
| reach_clear s : reachable s -> reachable (ExceptionClear s).

Lemma no_hooks_wf s : no_hooks s -> hooks_wf s /\ unhook s = methods s.
Proof.
  intros Hn. split.
  - constructor.
    + intros a m Ha Hm. destruct (Hn a m Ha). congruence.
    + intros a1 m1 i1 a2 m2 i2 Ha Hm. destruct (Hn a1 m1 Ha). congruence.
  - apply map_eq. intros a. rewrite lookup_unhook. destruct (methods s !! a) as [m|] eqn:Ha; [|done]. cbn.
    unfold unhook_method. destruct (Hn a m Ha) as [-> ->]. done.
Qed.

Lemma reachable_wf s : reachable s -> hooks_wf s.
Proof.
  induction 1 as [s Hn|o s s' _ IH Hok Hrun|s s' _ IH Ho|s _ IH].
  - by apply no_hooks_wf.
  - pose proof (run_op_refines o s IH Hok) as Hr. rewrite Hrun in Hr. apply Hr.
  - apply (wf_ext s); destruct Ho; done.
  - by apply (wf_ext s).
Qed.
End Reachable.

(** A runtime that allocates at addresses that are not in use. *)
Definition next_key {A} (m : gmap Z A) : Z := 1 + fold_right Z.max 0 (map fst (map_to_list m)).

Lemma next_key_fresh {A} (m : gmap Z A) : m !! next_key m = None.
Proof.
  apply eq_None_not_Some. intros [x Hx]. apply elem_of_map_to_list in Hx. unfold next_key in Hx.
  assert (forall l : list (Z * A), forall k y, (k, y) ∈ l -> k <= fold_right Z.max 0 (map fst l)) as Hmax.
  { induction l as [|[k y] l IH]; intros k' y' Hin; [by apply elem_of_nil in Hin|].
    apply elem_of_cons in Hin as [[= -> ->]|Hin]; cbn; [lia|]. specialize (IH k' y' Hin). lia. }
  specialize (Hmax _ _ _ Hx). lia.
Qed.

Definition demo_runtime : ArtRuntime := {|
  GetQuickProxyInvokeHandler := 1000; artInterpreterToCompiledCodeBridge := 1001; GetJniDlsymLookupStub := 1002;
  Clone s := next_key (methods s); AllocObject s := next_key (reflects s); calloc s := next_key (infos s);
  Clone_fresh s _ := next_key_fresh (methods s);
  AllocObject_fresh s _ := next_key_fresh (reflects s);
  calloc_fresh s _ := next_key_fresh (infos s);
  dlsym_stub_not_null := ltac:(done)
|}.

(** A native method at 10 and a method with bytecode at 20, and a thread that
    runs the latter. *)
Definition demo_native : ArtMethod := mkArtMethod 1 0 0 (kAccPublic + kAccNative) 0 3 4 1001 70 71.
Definition demo_method : ArtMethod := mkArtMethod 1 0 0 kAccPublic 600 5 6 1003 0 72.
Definition demo_art : art :=
  mkArt (<[10 := demo_native]> (<[20 := demo_method]> ∅)) ∅
    (<[5 := mkReflect false 10]> (<[6 := mkReflect false 20]> ∅)) [[20; 20]] ∅ None.

Lemma demo_no_hooks : no_hooks demo_art.
Proof.
  intros a m Ha. cbn in Ha. repeat (apply lookup_insert_Some in Ha as [[_ <-]|[_ Ha]]; [done|]).
  by rewrite lookup_empty in Ha.
Qed.

(** C3: The stores of the hooks are consistent in every reachable state.  After
    any sequence of hooks, registrations and calls by any thread, every hooked
    method is not native, leads to the hook handler and has a hook info; the
    info leads to a method that describes the same Java method, is marked as an
    original, is not hooked itself and belongs to no other hooked method; and the
    reflection object of the info leads to that original. *)
Theorem art_hooks_invariant `{ArtRuntime} s (Hs : reachable s) : hooks_wf s.
Proof. by apply reachable_wf. Qed.

Lemma art_hooks_invariant_witness : exists s,
  @run_op demo_runtime (OpHook 5 99) demo_art = Done s /\ @hooks_wf demo_runtime s.
Proof.
  eexists. split; [vm_compute; reflexivity|].
  apply (@art_hooks_invariant demo_runtime). eapply (reach_op (OpHook 5 99)).
  - apply reach_start, demo_no_hooks.
  - exact I.
  - vm_compute. reflexivity.
Defined.

(** C2: Hooks are transparent to JNI registration.  A program that hooks and
    registers methods does to the methods, seen without hooks, what the same
    registrations do in a runtime that has none: hooks change nothing, and
    registering or unregistering the native code of a hooked method changes its
    original. *)
Theorem art_hooks_transparent `{ArtRuntime} os s s'
    (Hs : reachable s) (Hok : Forall (op_ok (unhook s)) os) (Hrun : run_ops os s = Done s') :
  plain_ops os (unhook s) = Done (unhook s').
Proof. by apply run_ops_refine; [apply reachable_wf|..]. Qed.

Lemma art_hooks_transparent_witness : exists s,
  @run_ops demo_runtime [OpHook 5 99; OpRegister 10 80 true; OpHook 6 98] demo_art = Done s /\
  @plain_ops demo_runtime [OpHook 5 99; OpRegister 10 80 true; OpHook 6 98] (unhook demo_art) = Done (unhook s).
Proof.
  eexists. split; [vm_compute; reflexivity|]. apply art_hooks_transparent.
  - apply reach_start, demo_no_hooks.
  - repeat constructor. vm_compute. by eexists.
  - vm_compute. reflexivity.
Defined.

(** A hook of the native method, up to its first effect, with a call in between. *)
Lemma hook_dispatch_by_stage_witness : exists s m' h,
  @stage demo_runtime 10 99 0 demo_art = Done s /\ methods s !! 10 = Some m' /\
  is_Some (infos s !! h) /\ @dispatch demo_runtime m' = NativeCode h.
Proof.
  destruct (@stage demo_runtime 10 99 0 demo_art) as [s|] eqn:E; [|vm_compute in E; discriminate E].
  destruct (@hook_dispatch_by_stage demo_runtime 10 99 demo_native demo_art 1 s) as (m' & h & Hm & Hi & Hd).
  - reflexivity.
  - reflexivity.
  - done.
  - eapply hooking_stage; [apply hooking_start|unfold stages; lia|exact E].
  - exists s, m', h. split; [done|]. split; [done|]. split; [by apply Hi|exact Hd].
Defined.

(** [EnableXposedHook] on each of its branches.  A hooked method is left
    alone and an original is refused with an exception.  Otherwise, unless memory
    runs out, the method becomes a hooked one that is not native; its hook info
    has the additional info and leads to a copy of the old method; no frame of
    any thread refers to the method any more, the frames that did refer to the
    copy, and every other method is as before. *)
Theorem enable_hook_spec `{ArtRuntime} a additional m s (Hm : methods s !! a = Some m) :
  if IsXposedHookedMethod m then EnableXposedHook a additional s = Done s
  else if IsXposedOriginalMethod m then EnableXposedHook a additional s = Done (throw IllegalArgument s)
  else
    (EnableXposedHook a additional s = Fault NullDeref /\ out_of_memory) \/
    exists s' m' i bm, EnableXposedHook a additional s = Done s' /\ methods s' !! a = Some m' /\
      IsXposedHookedMethod m' = true /\ IsNative m' = false /\ id_of m' = id_of m /\
      GetXposedHookInfo m' s' = Done i /\ additionalInfo i = additional /\
      methods s' !! originalMethod i = Some bm /\ IsXposedOriginalMethod bm = true /\ clear_original bm = m /\
      stacks s' = map (map (fun f => if f =? a then originalMethod i else f)) (stacks s) /\
      Forall (fun frames => a ∉ frames) (stacks s') /\
      forall x, x <> a -> x <> originalMethod i -> methods s' !! x = methods s !! x.
Proof.
  destruct (IsXposedHookedMethod m) eqn:Hh;
    [unfold EnableXposedHook; rewrite (get_method_ok _ _ _ Hm); cbn [mbind cres_bind]; by rewrite Hh|].
  destruct (IsXposedOriginalMethod m) eqn:Ho;
    [unfold EnableXposedHook; rewrite (get_method_ok _ _ _ Hm); cbn [mbind cres_bind]; by rewrite Hh, Ho|].
  destruct (enable_effect a additional m s Hm Hh Ho) as [?|(b & r & h & Fb & Fr & Fh & _ & _ & _ & E)]; [by left|right].
  assert (a <> b) as Hab by congruence.
  destruct (hooked_of_marks h m Hh Ho) as (H1 & H2 & H3 & H4 & H5 & H6 & H7).
  exists (hooked_state a m additional b r h s), (hooked_of h m), (mkInfo r additional b), (backup_of m).
  unfold GetXposedHookInfo. cbn [hooked_state methods infos stacks originalMethod additionalInfo].
  rewrite lookup_insert_eq. cbn [hooked_of with_flags with_entries entry_point_from_jni_]. rewrite lookup_insert_eq.
  rewrite lookup_insert_ne, lookup_insert_eq by done.
  split_and!; try done.
  - apply Forall_map, Forall_forall. intros frames _ Hin. apply list_elem_of_fmap in Hin as (f & Hf & _).
    destruct (Z.eqb_spec f a); congruence.
  - intros x Hxa Hxb. by rewrite !lookup_insert_ne by congruence.
Qed.

Lemma enable_hook_spec_witness : exists s',
  @EnableXposedHook demo_runtime 20 99 demo_art = Done s' /\ Forall (fun frames => 20 ∉ frames) (stacks s').
Proof.
  pose proof (@enable_hook_spec demo_runtime 20 99 demo_method demo_art) as Hs. cbv beta iota in Hs.
  change (IsXposedHookedMethod demo_method) with false in Hs.
  change (IsXposedOriginalMethod demo_method) with false in Hs. cbv iota in Hs.
  destruct Hs as [[E _]|(s' & m' & i & bm & E & _ & _ & _ & _ & _ & _ & _ & _ & _ & _ & Hf & _)].
  - reflexivity.
  - vm_compute in E. discriminate E.
  - exists s'. done.
Defined.

(** ** Calling the original *)

Lemma original_is_direct m : IsXposedOriginalMethod m = true -> IsDirect m false = true.
Proof.
  rewrite original_bit. intros Ho. unfold IsDirect. apply negb_true_iff, Z.eqb_neq. intros Hz.
  assert (Z.testbit (Z.land (access_flags_ m)
    (Z.lor (Z.lor (Z.lor kAccStatic kAccPrivate) kAccConstructor) kAccXposedOriginalMethod)) 29 = true) as Ht.
  - by rewrite Z.land_spec, Ho.
  - by rewrite Hz, Z.bits_0 in Ht.
Qed.

(** The original of a hooked method can always be called.  In every reachable
    state, [invokeOriginalMethodNative] on a hooked method invokes, with the
    checked arguments, the method at the address of the original and not the
    handler or an override in the receiver's class; and what is at this address
    is the method that a runtime without hooks would have. *)
Theorem art_invoke_original `{ArtRuntime} `{ArtClasses} `{Boxing} junk s r a m receiver args arg_array
    (Hs : reachable s) (Hr : FromReflectedMethod r s = Done a) (Hm : methods s !! a = Some m)
    (Hhooked : IsXposedHookedMethod m = true) :
  exists b bm, methods s !! b = Some bm /\ unhook s !! a = Some (clear_original bm) /\
    (IsInitialized (declaring_class_ bm) s = true ->
     length (default [] args) = length (parameter_classes bm) ->
     (if IsStatic m then receiver = 0
      else receiver <> 0 /\ exists o, objects s !! receiver = Some o /\ InstanceOf o (declaring_class_ m) = true) ->
     BuildArgArrayFromObjectArray (objects s) receiver (parameter_classes bm) (default [] args)
       (new_ArgArray junk (GetShorty bm)) = Done (inl arg_array) ->
     XposedBridge_invokeOriginalMethodNative junk r 0 receiver args s =
     Done (finish_invoke bm (Invoke b (take (Z.to_nat (num_bytes_ arg_array / 4)) (arg_array_ arg_array)) (GetShorty bm) s))).
Proof.
  destruct (wf_hooked s (reachable_wf s Hs) a m Hm Hhooked) as (b & bm & Hk). exists b, bm.
  split; [apply Hk|]. split; [rewrite lookup_unhook, Hm; by eapply unhook_hooked|].
  intros Hinit Hlen Hrcv Hbuild. destruct (hk_info _ _ _ _ Hk) as (i & Hi & _ & Hri).
  unfold XposedBridge_invokeOriginalMethodNative. rewrite Hr. cbn [Z.eqb mbind cres_bind].
  rewrite (get_method_ok _ _ _ Hm). cbn [mbind cres_bind]. rewrite Hhooked. unfold GetXposedHookInfo. rewrite Hi.
  cbn [deref mbind cres_bind]. unfold InvokeMethod, FromReflectedMethod. rewrite Hri. cbn [deref mbind cres_bind artMethod].
  rewrite (get_method_ok _ _ _ (hk_original _ _ _ _ Hk)). cbn [mbind cres_bind]. rewrite Hinit. cbn [negb].
  rewrite (get_method_ok _ _ _ (hk_original _ _ _ _ Hk)). cbn [mbind cres_bind].
  assert (check_receiver b receiver bm s = Done (inl (b, receiver))) as ->.
  { unfold check_receiver. assert (IsStatic bm = IsStatic m) as ->.
    { rewrite !static_bit. symmetry. by apply (hk_flags _ _ _ _ Hk). }
    destruct (IsStatic m); [by rewrite Hrcv|]. destruct Hrcv as [Hnz (o & Ho & Hinst)].
    rewrite (proj2 (Z.eqb_neq _ _) Hnz), Ho. cbn [deref mbind cres_bind].
    pose proof (f_equal declaring_class_ (hk_id _ _ _ _ Hk)) as Hd. cbn in Hd. rewrite <- Hd, Hinst.
    unfold FindVirtualMethodForVirtualOrInterface. by rewrite (original_is_direct bm) by apply Hk. }
  cbn [mbind cres_bind]. rewrite (get_method_ok _ _ _ (hk_original _ _ _ _ Hk)). cbn [mbind cres_bind].
  rewrite Hlen, Nat.eqb_refl. cbn [negb andb]. rewrite Hbuild. done.
Qed.

(** A program of one class, whose methods have no parameters. *)
Definition demo_classes : ArtClasses := {|
  FindDirectMethod _ _ _ := 10; FindVirtualMethod _ _ _ := 20;
  direct_methods _ := [10]; virtual_methods _ := [20];
  class_of _ := 1; InstanceOf _ _ := true; IsInterface _ := false;
  IsInitialized _ _ := true; EnsureInitialized _ s := (true, s);
  FindVirtualMethodForInterface _ _ := 20; FindVirtualMethodForVirtual _ _ := 20;
  GetShorty _ := lit "V"; parameter_classes _ := []; return_class _ := Primitive_ kPrimVoid;
  VerifyAccess _ _ _ _ := true; Invoke _ _ _ s := (0, s)
|}.

Definition demo_hooked_art : art :=
  match @run_op demo_runtime (OpHook 5 99) demo_art with Done s => s | Fault _ => demo_art end.

Lemma demo_hooked_reachable : @reachable demo_runtime demo_hooked_art.
Proof.
  eapply (@reach_op demo_runtime (OpHook 5 99)); [apply reach_start, demo_no_hooks|exact I|vm_compute; reflexivity].
Qed.

Lemma art_invoke_original_witness : exists b bm,
  methods demo_hooked_art !! b = Some bm /\ unhook demo_hooked_art !! 10 = Some (clear_original bm).
Proof.
  destruct (@art_invoke_original demo_runtime demo_classes demo_boxing 0 demo_hooked_art 5 10
    (@hooked_of demo_runtime 1 demo_native) 64 None (new_ArgArray 0 (lit "V")))
    as (b & bm & Hb & Hu & _).
  - apply demo_hooked_reachable.
  - vm_compute. reflexivity.
  - vm_compute. reflexivity.
  - vm_compute. reflexivity.
  - exists b, bm. done.
Defined.

(** ** The handler sees the call *)

Lemma set_same_objects s : set_objects (objects s) s = s.
Proof. by destruct s. Qed.

Section Sees.
Context `{ArtRuntime} `{ArtClasses} `{Boxing} `{LocalRefs}.
Context (handleHookedMethod : handler_call -> art -> Z * art).
Context (InvokeProxyInvocationHandler : Z -> Z -> list Z -> art -> cres (Z * art)).
Context (target_sdk_version : Z).

(** Whether the handler gets an array of arguments, for a number of them. *)
Definition array_made (n : nat) : bool :=
  (0 <? n)%nat || ((0 <? target_sdk_version) && (target_sdk_version <=? 21)).

Lemma make_args_ok shorty args s rs h' :
  box_arguments (drop 1 shorty) args (objects s) = Some (rs, h') ->
  make_args target_sdk_version true shorty args s =
  inl (if array_made (length args) then Some rs else None, set_objects h' s).
Proof.
  intros Hb. unfold make_args, array_made. destruct (_ || _) eqn:E; [by rewrite Hb|].
  destruct args; [|done]. assert (h' = objects s) as ->; [|by rewrite set_same_objects].
  destruct (drop 1 shorty); cbn in Hb; congruence.
Qed.

Lemma handler_called a m i shorty this args s rs h' mem junk :
  methods s !! a = Some m -> IsXposedHookedMethod m = true -> GetXposedHookInfo m s = Done i -> GetShorty m = shorty ->
  VisitArguments arm mem junk (IsStatic m) shorty = Done ((if IsStatic m then [] else [this]) ++ args) ->
  box_arguments (drop 1 shorty) args (objects s) = Some (rs, h') -> forall receiver, in_u 32 receiver ->
  artQuickProxyInvokeHandler handleHookedMethod InvokeProxyInvocationHandler target_sdk_version true mem junk a receiver s =
  let '(result, s1) :=
    handleHookedMethod (mkCall (reflectedMethod i) 1 (additionalInfo i) (if IsStatic m then 0 else receiver)
      (if array_made (length args) then Some rs else None)) (set_objects h' s) in
  unbox_result shorty a result s1.
Proof.
  intros Hm Hh Hi <- Hv Hb receiver Hu. unfold artQuickProxyInvokeHandler. rewrite (get_method_ok _ _ _ Hm).
  cbn [mbind cres_bind]. rewrite Hh. cbn [negb andb]. rewrite Hv. cbn [mbind cres_bind].
  replace (if IsStatic m then _ else drop 1 _) with args by (by destruct (IsStatic m)).
  unfold InvokeXposedHandleHookedMethod. rewrite (make_args_ok _ _ _ _ _ Hb).
  rewrite (get_method_ok a m) by done. cbn [mbind cres_bind].
  change (GetXposedHookInfo m (set_objects h' s)) with (GetXposedHookInfo m s). rewrite Hi. cbn [mbind cres_bind].
  destruct (IsStatic m); by rewrite ?Decode_null, ?Decode_Add.
Qed.
End Sees.

(** A reflective call of a hooked method reaches the Java handler.  In every
    reachable state, if the arguments fit the parameters, the frame that the call
    makes leads [artQuickProxyInvokeHandler] to call handleHookedMethod once,
    with the reflection object and the additional info of the hook, the receiver
    (none for a static method) and the arguments, boxed to the types of the
    parameters; what it returns is unboxed to the method's return type. *)
Theorem art_handler_sees_call `{ArtRuntime} `{ArtClasses} `{Boxing} `{LocalRefs} handleHookedMethod proxy_handler sdk
    pad saved above junk junk' a m s receiver r chars args js
    (Hs : reachable s) (Hm : methods s !! a = Some m) (Hhooked : IsXposedHookedMethod m = true)
    (Hshorty : GetShorty m = r :: chars) (Hchars : Forall (fun c => c ∈ param_chars) chars)
    (Hsaved : length saved = 7%nat) (Habove : (3 <= length above)%nat) (Hheap : heap_ok (objects s))
    (Hclasses : length (parameter_classes m) = length chars) (Hargs : length args = length chars)
    (Hlive : Forall (fun arg => arg = 0 \/ is_Some (objects s !! arg)) args) (Hu : Forall (in_u 32) args)
    (Hrcv : IsStatic m = (receiver =? 0)) (Hur : in_u 32 receiver)
    (Hfit : accept_all (objects s) chars (parameter_classes m) args = Some js) :
  exists arg_array vs i,
    BuildArgArrayFromObjectArray (objects s) receiver (parameter_classes m) args (new_ArgArray junk (r :: chars)) =
      Done (inl arg_array) /\
    GetXposedHookInfo m s = Done i /\
    forall rs h', box_arguments chars vs (objects s) = Some (rs, h') ->
      Forall3 (passed (objects s) h') chars args rs /\
      artQuickProxyInvokeHandler handleHookedMethod proxy_handler sdk true
        (call_frame a pad saved above arg_array) junk' a receiver s =
      let '(result, s1) :=
        handleHookedMethod (mkCall (reflectedMethod i) 1 (additionalInfo i) receiver
          (if array_made sdk (length args) then Some rs else None)) (set_objects h' s) in
      unbox_result (r :: chars) a result s1.
Proof.
  pose proof (reflective_arguments a pad saved above junk junk' receiver r chars (parameter_classes m) args
    (objects s) Hsaved Habove Hchars Hheap Hclasses Hargs Hlive Hu) as Hr. rewrite Hfit in Hr.
  destruct Hr as (arg_array & this & vs & Hb & Hv & Hl & Hlv & Hbox).
  destruct (wf_hooked s (reachable_wf s Hs) a m Hm Hhooked) as (b & bm & Hk).
  destruct (hk_info _ _ _ _ Hk) as (i & Hi & _). exists arg_array, vs, i. split; [done|].
  assert (GetXposedHookInfo m s = Done i) as Hinfo by (unfold GetXposedHookInfo; by rewrite Hi). split; [done|].
  intros rs h' Hbs. destruct (Hbox rs h' Hbs) as [_ HF]. split; [done|].
  rewrite (handler_called handleHookedMethod proxy_handler sdk a m i (r :: chars)
    (default 0 (head this)) vs s rs h') by (rewrite ?Hrcv; try done; rewrite Hv; f_equal;
    destruct (receiver =? 0), this as [|? [|]]; done).
  rewrite Hlv, Hrcv. by destruct (Z.eqb_spec receiver 0) as [->|].
Qed.

Lemma art_handler_sees_call_witness : exists i,
  @GetXposedHookInfo (@hooked_of demo_runtime 1 demo_native) demo_hooked_art = Done i.
Proof.
  destruct (@art_handler_sees_call demo_runtime demo_classes demo_boxing demo_refs (fun _ s => (0, s)) (fun _ _ _ s => Done (0, s)) 22
    0 (replicate 7 8) (replicate 6 9) 0 0 10 (@hooked_of demo_runtime 1 demo_native) demo_hooked_art 64 (chr "V") [] [] [])
    as (aa & vs & i & _ & Hi & _); try done.
  - apply demo_hooked_reachable.
  - cbn. lia.
  - exists i. exact Hi.
Defined.

(** ** JNI registration of a class *)

Section RegisterClass.
Context `{ArtRuntime} `{ArtClasses}.

(** [RegisterNatives] in a runtime without hooks. *)
Fixpoint plain_register_loop (c : Z) (ms : list JNINativeMethod) (M : gmap Z ArtMethod) : cres (Z * gmap Z ArtMethod) :=
  match ms with
  | [] => Done (JNI_OK, M)
  | mkNative (Some name) (Some sig) fnPtr :: ms =>
      if fnPtr =? 0 then Done (JNI_ERR, M)
      else
        let '(is_fast, sig) :=
          match sig with x :: sig' => if x =? chr "!" then (true, sig') else (false, sig) | [] => (false, sig) end in
        let a := FindDirectMethod c name sig in
        let a := if a =? 0 then FindVirtualMethod c name sig else a in
        if a =? 0 then Done (JNI_ERR, M)
        else
          m ← deref (M !! a);
          if negb (IsNative m) then Done (JNI_ERR, M)
          else M ← plain_RegisterNative a fnPtr is_fast M; plain_register_loop c ms M
  | _ => Done (JNI_ERR, M)
  end.

Lemma registrable_unhook s a m m0 : hooks_wf s -> methods s !! a = Some m -> unhook s !! a = Some m0 ->
  registrable m s = Done (IsNative m0).
Proof.
  intros Hwf Hm Hu. rewrite lookup_unhook, Hm in Hu. cbn in Hu. unfold registrable.
  destruct (IsXposedHookedMethod m) eqn:Hh.
  - destruct (wf_hooked s Hwf a m Hm Hh) as (b & bm & Hk). rewrite (unhook_hooked s m b bm Hh Hk) in Hu.
    injection Hu as <-. rewrite (hk_not_native _ _ _ _ Hk). destruct (hk_info _ _ _ _ Hk) as (i & Hi & Ho & _).
    unfold GetXposedOriginalMethod, GetXposedHookInfo. rewrite Hi. cbn [deref mbind cres_bind]. rewrite Ho.
    rewrite (get_method_ok _ _ _ (hk_original _ _ _ _ Hk)). cbn. by rewrite (proj1 (clear_checks bm)).
  - unfold unhook_method in Hu. rewrite Hh in Hu. destruct (IsXposedOriginalMethod m); [done|]. injection Hu as <-.
    by destruct (IsNative m).
Qed.

Lemma register_loop_refines c ms s : hooks_wf s ->
  (forall name sig, let a := FindDirectMethod c name sig in a <> 0 -> is_Some (unhook s !! a)) ->
  (forall name sig, let a := FindVirtualMethod c name sig in a <> 0 -> is_Some (unhook s !! a)) ->
  match register_loop c ms s with
  | Done (rc, s') => hooks_wf s' /\ plain_register_loop c ms (unhook s) = Done (rc, unhook s')
  | Fault e => plain_register_loop c ms (unhook s) = Fault e
  end.
Proof.
  revert s. induction ms as [|[[name|] [sig|] fnPtr] ms IH]; intros s Hwf Hd Hv; cbn [register_loop plain_register_loop];
    try (split; [by apply (wf_ext s)|done]).
  destruct (fnPtr =? 0); [split; [by apply (wf_ext s)|done]|].
  destruct (match sig with [] => _ | _ => _ end) as [is_fast sig'].
  set (a := if FindDirectMethod c name sig' =? 0 then _ else _).
  destruct (Z.eqb_spec a 0) as [|Ha]; [split; [by apply (wf_ext s)|done]|].
  assert (is_Some (unhook s !! a)) as Hsome.
  { subst a. destruct (Z.eqb_spec (FindDirectMethod c name sig') 0); [by apply Hv|by apply Hd]. }
  destruct Hsome as [m0 Hm0]. pose proof Hm0 as Hm. rewrite lookup_unhook in Hm.
  destruct (methods s !! a) as [m|] eqn:Em; [|done].
  rewrite (get_method_ok _ _ _ Em), Hm0. cbn [deref mbind cres_bind].
  rewrite (registrable_unhook s a m m0) by done. cbn [mbind cres_bind].
  destruct (IsNative m0); cbn [negb]; [|split; [by apply (wf_ext s)|done]].
  pose proof (register_refines a fnPtr is_fast s Hwf ltac:(by exists m0)) as Hr.
  destruct (RegisterNative 2 a fnPtr is_fast s) as [s1|e]; [|by rewrite Hr].
  destruct Hr as [Hwf1 Hp]. rewrite Hp. cbn [mbind cres_bind].
  pose proof (plain_dom (OpRegister a fnPtr is_fast) _ _ Hp) as Hdom.
  apply (IH s1 Hwf1); intros n g x Hx; apply elem_of_dom; rewrite Hdom; apply elem_of_dom;
    [by apply Hd|by apply Hv].
Qed.
End RegisterClass.
