(* ===== verification/Instrument.v ===== *)
(** * Instrument: the code of methods under instrumentation, with hooks
      (runtime/instrumentation.{h,cc}, runtime/class_linker.cc LinkCode to
       FixupStaticTrampolines)

    The debugger and the tracer make methods run in the interpreter by changing
    their entry points, and the class linker sets entry points when it loads and
    initializes classes.  Both meet methods that are hooked: they leave the hook
    in place and change its original.  The frames of the threads, which are
    changed as well when stubs are installed, are not modelled.  The build is
    that without the portable compiler. *)

From stdpp Require Import gmap sorting.
From S2P Require Import Prelude CLib ArtArgs HookArt.

(** The code and the oat files that the linker knows, and the classes. *)
Class CodeRuntime := {
  GetQuickToInterpreterBridge : Z;
  GetQuickResolutionTrampoline : Z;
  GetQuickToInterpreterBridgeTrampoline : Z;
  GetQuickInstrumentationEntryPoint : Z;
  GetQuickGenericJniTrampoline : Z;
  artInterpreterToInterpreterBridge : Z;
  GetResolutionMethod : Z;
  IdentityHashCode : Z -> Z;
  IsProxyClass : Z -> bool;
  is_java_lang_reflect_Proxy : Z -> bool;
  class_direct_methods : Z -> list Z;
  class_virtual_methods : Z -> list Z;
  has_oat_class : Z -> bool;
  (** The quick code of a method of an oat class, null if it has not been compiled. *)
  oat_code : Z -> Z -> Z;
  IsCompiler : bool;
  IsStarted : bool;
  UseCompileTimeClassPath : bool;
  HasImageSpace : bool
}.

(** A multimap from hash codes to methods, in the order of the hash codes. *)
Record Instrumentation := mkInst {
  instrumentation_stubs_installed_ : bool; entry_exit_stubs_installed_ : bool; interpreter_stubs_installed_ : bool;
  interpret_only_ : bool; forced_interpret_only_ : bool; deoptimization_enabled_ : bool;
  deoptimized_methods_ : list (Z * Z)
}.

(** The classes that have been loaded, and those that are initialized. *)
Record vm := mkVm { inst : Instrumentation; runtime : art; classes : list Z; initialized : gset Z }.

Definition set_runtime (s : art) (v : vm) : vm := mkVm (inst v) s (classes v) (initialized v).
Definition set_inst (i : Instrumentation) (v : vm) : vm := mkVm i (runtime v) (classes v) (initialized v).
Definition set_installed (b : bool) (i : Instrumentation) : Instrumentation :=
  mkInst b (entry_exit_stubs_installed_ i) (interpreter_stubs_installed_ i) (interpret_only_ i) (forced_interpret_only_ i)
    (deoptimization_enabled_ i) (deoptimized_methods_ i).
Definition set_stubs (entry_exit interpreter : bool) (i : Instrumentation) : Instrumentation :=
  mkInst (instrumentation_stubs_installed_ i) entry_exit interpreter (interpret_only_ i) (forced_interpret_only_ i)
    (deoptimization_enabled_ i) (deoptimized_methods_ i).
Definition set_interpret_only (b forced : bool) (i : Instrumentation) : Instrumentation :=
  mkInst (instrumentation_stubs_installed_ i) (entry_exit_stubs_installed_ i) (interpreter_stubs_installed_ i) b forced
    (deoptimization_enabled_ i) (deoptimized_methods_ i).
Definition set_enabled (b : bool) (i : Instrumentation) : Instrumentation :=
  mkInst (instrumentation_stubs_installed_ i) (entry_exit_stubs_installed_ i) (interpreter_stubs_installed_ i)
    (interpret_only_ i) (forced_interpret_only_ i) b (deoptimized_methods_ i).
Definition set_deoptimized (l : list (Z * Z)) (i : Instrumentation) : Instrumentation :=
  mkInst (instrumentation_stubs_installed_ i) (entry_exit_stubs_installed_ i) (interpreter_stubs_installed_ i)
    (interpret_only_ i) (forced_interpret_only_ i) (deoptimization_enabled_ i) l.

Definition new_Instrumentation : Instrumentation := mkInst false false false false false false [].

Definition IsAbstract := has_flag kAccAbstract.

Section Instrument.
Context `{ArtRuntime} `{CodeRuntime}.

Definition IsProxyMethod (m : ArtMethod) (ignore_xposed : bool) : bool :=
  IsProxyClass (declaring_class_ m) || (negb ignore_xposed && IsXposedHookedMethod m).

(** ** The deoptimized methods *)

(** The position behind the elements with the same or a smaller hash code. *)
Fixpoint multimap_insert (e : Z * Z) (l : list (Z * Z)) : list (Z * Z) :=
  match l with
  | [] => [e]
  | x :: l => if x.1 <=? e.1 then x :: multimap_insert e l else e :: x :: l
  end.
Definition FindDeoptimizedMethod (a : Z) (i : Instrumentation) : bool :=
  existsb (fun e => (e.1 =? IdentityHashCode a) && (e.2 =? a)) (deoptimized_methods_ i).
Definition AddDeoptimizedMethod (a : Z) (i : Instrumentation) : bool * Instrumentation :=
  if FindDeoptimizedMethod a i then (false, i)
  else (true, set_deoptimized (multimap_insert (IdentityHashCode a, a) (deoptimized_methods_ i)) i).
Fixpoint erase_method (a : Z) (l : list (Z * Z)) : option (list (Z * Z)) :=
  match l with
  | [] => None
  | e :: l =>
      if (e.1 =? IdentityHashCode a) && (e.2 =? a) then Some l
      else match erase_method a l with Some l => Some (e :: l) | None => None end
  end.
Definition RemoveDeoptimizedMethod (a : Z) (i : Instrumentation) : bool * Instrumentation :=
  match erase_method a (deoptimized_methods_ i) with
  | Some l => (true, set_deoptimized l i)
  | None => (false, i)
  end.
Definition IsDeoptimizedMethodsEmpty (i : Instrumentation) : bool :=
  match deoptimized_methods_ i with [] => true | _ => false end.
Definition BeginDeoptimizedMethod (i : Instrumentation) : Z :=
  match deoptimized_methods_ i with [] => 0 | e :: _ => e.2 end.
Definition IsDeoptimized (a : Z) (v : vm) : bool := FindDeoptimizedMethod a (inst v).

(** ** Compiled code *)

(** The position of a virtual method in its class, by the index in the dex file;
    the runtime aborts when it is not there. *)
Fixpoint find_virtual (dex_index : Z) (methods : list Z) (index : Z) (s : art) : cres Z :=
  match methods with
  | [] => Fault Aborted
  | a :: methods =>
      m ← get_method a s;
      if dex_method_index_ m =? dex_index then Done index else find_virtual dex_index methods (index + 1) s
  end.

(** [FindOatMethodFor] with [GetQuickCode] of what it finds; null if there is no oat class. *)
Definition FindOatMethodFor (m : ArtMethod) (s : art) : cres Z :=
  let declaring_class := declaring_class_ m in
  oat_method_index ←
    (if IsStatic m || IsDirect m true then Done (method_index_ m)
     else find_virtual (dex_method_index_ m) (class_virtual_methods declaring_class)
            (Z.of_nat (length (class_direct_methods declaring_class))) s);
  Done (if has_oat_class declaring_class then oat_code declaring_class oat_method_index else 0).

Definition GetQuickOatCodeFor (m : ArtMethod) (s : art) : cres Z :=
  if IsAbstract m then Fault Aborted
  else if IsProxyMethod m false then Done GetQuickProxyInvokeHandler
  else
    result ← FindOatMethodFor m s;
    Done (if result =? 0 then if IsNative m then GetQuickGenericJniTrampoline else GetQuickToInterpreterBridge else result).

Definition NeedsInterpreter (m : ArtMethod) (quick_code : Z) (v : vm) : bool :=
  (quick_code =? 0) || (interpret_only_ (inst v) && negb (IsNative m) && negb (IsProxyMethod m false)).

(** ** Entry points *)

Definition enters_interpreter (m : ArtMethod) (quick_code : Z) (i : Instrumentation) : bool :=
  (quick_code =? GetQuickToInterpreterBridge) || (quick_code =? GetQuickToInterpreterBridgeTrampoline) ||
  ((quick_code =? GetQuickResolutionTrampoline) && forced_interpret_only_ i && negb (IsNative m) && negb (IsProxyMethod m false)).

Definition UpdateEntrypoints (a quick_code : Z) (v : vm) : cres vm :=
  m ← get_method a (runtime v);
  let m := SetEntryPointFromQuickCompiledCode quick_code m in
  let m :=
    if a =? GetResolutionMethod then m
    else SetEntryPointFromInterpreter
           (if enters_interpreter m quick_code (inst v) then artInterpreterToInterpreterBridge
            else artInterpreterToCompiledCodeBridge) m in
  Done (set_runtime (set_method a m (runtime v)) v).

(** The method that is changed in the place of [a]. *)
Definition xposed_target (a : Z) (v : vm) : cres Z :=
  m ← get_method a (runtime v);
  if IsXposedHookedMethod m then GetXposedOriginalMethod m (runtime v) else Done a.

Definition stub_code (a : Z) (m : ArtMethod) (v : vm) : cres Z :=
  let i := inst v in
  let is_class_initialized := bool_decide (declaring_class_ m ∈ initialized v) in
  let uninstall := negb (entry_exit_stubs_installed_ i) && negb (interpreter_stubs_installed_ i) in
  if uninstall then
    if (forced_interpret_only_ i || IsDeoptimized a v) && negb (IsNative m) then Done GetQuickToInterpreterBridge
    else if is_class_initialized || negb (IsStatic m) || IsConstructor m then GetQuickOatCodeFor m (runtime v)
    else Done GetQuickResolutionTrampoline
  else
    if (interpreter_stubs_installed_ i || forced_interpret_only_ i || IsDeoptimized a v) && negb (IsNative m)
    then Done GetQuickToInterpreterBridge
    else if is_class_initialized || negb (IsStatic m) || IsConstructor m then
      if entry_exit_stubs_installed_ i then Done GetQuickInstrumentationEntryPoint
      else GetQuickOatCodeFor m (runtime v)
    else Done GetQuickResolutionTrampoline.

Definition InstallStubsForMethod (a : Z) (v : vm) : cres vm :=
  a ← xposed_target a v;
  m ← get_method a (runtime v);
  if IsAbstract m || IsProxyMethod m false then Done v
  else if IsConstructor m && is_java_lang_reflect_Proxy (declaring_class_ m) then Done v
  else new_quick_code ← stub_code a m v; UpdateEntrypoints a new_quick_code v.

Fixpoint for_each (f : Z -> vm -> cres vm) (l : list Z) (v : vm) : cres vm :=
  match l with [] => Done v | a :: l => v ← f a v; for_each f l v end.
Definition InstallStubsForClass (c : Z) : vm -> cres vm :=
  for_each InstallStubsForMethod (class_direct_methods c ++ class_virtual_methods c).

Definition UpdateMethodsCode (a quick_code : Z) (v : vm) : cres vm :=
  let i := inst v in
  m ← get_method a (runtime v);
  let new_quick_code :=
    if negb (instrumentation_stubs_installed_ i) then quick_code
    else if (interpreter_stubs_installed_ i || IsDeoptimized a v) && negb (IsNative m) then GetQuickToInterpreterBridge
    else if (quick_code =? GetQuickResolutionTrampoline) || (quick_code =? GetQuickToInterpreterBridgeTrampoline) ||
            (quick_code =? GetQuickToInterpreterBridge) then quick_code
    else if entry_exit_stubs_installed_ i then GetQuickInstrumentationEntryPoint
    else quick_code in
  UpdateEntrypoints a new_quick_code v.

(** ** Loading and initializing a class *)

Definition set_entries (a : Z) (f : ArtMethod -> ArtMethod) (v : vm) : cres vm :=
  s ← update_method a f (runtime v); Done (set_runtime s v).

(** A method of class [c] with the index of its compiled code. *)
Definition LinkCode (c a method_index : Z) (v : vm) : cres vm :=
  if IsCompiler then Done v
  else
    v ← (if IsStarted && negb UseCompileTimeClassPath && has_oat_class c
         then set_entries a (SetEntryPointFromQuickCompiledCode (oat_code c method_index)) v else Done v);
    m ← get_method a (runtime v);
    let enter_interpreter := NeedsInterpreter m (entry_point_from_quick_compiled_code_ m) v in
    v ← set_entries a (SetEntryPointFromInterpreter
          (if enter_interpreter && negb (IsNative m) then artInterpreterToInterpreterBridge
           else artInterpreterToCompiledCodeBridge)) v;
    if IsAbstract m then set_entries a (SetEntryPointFromQuickCompiledCode GetQuickToInterpreterBridge) v
    else
      v ← (if IsStatic m && negb (IsConstructor m) then
             set_entries a (SetEntryPointFromQuickCompiledCode GetQuickResolutionTrampoline) v
           else if enter_interpreter then
             set_entries a (SetEntryPointFromQuickCompiledCode
               (if negb (IsNative m) then GetQuickToInterpreterBridge else GetQuickGenericJniTrampoline)) v
           else Done v);
      s ← (if IsNative m then UnregisterNative 2 a (runtime v) else Done (runtime v));
      let v := set_runtime s v in
      m ← get_method a (runtime v);
      UpdateMethodsCode a (entry_point_from_quick_compiled_code_ m) v.

(** The code of a static method once its class is initialized. *)
Definition fixup_code (m : ArtMethod) (quick_code : Z) (v : vm) : Z :=
  if NeedsInterpreter m quick_code v then
    if (quick_code =? 0) && IsNative m then GetQuickGenericJniTrampoline else GetQuickToInterpreterBridge
  else if quick_code =? 0 then GetQuickToInterpreterBridge
  else quick_code.

(** The direct methods of a class are those of its class data, in their order. *)
Fixpoint fixup_methods (c : Z) (methods : list Z) (method_index : Z) (v : vm) : cres vm :=
  match methods with
  | [] => Done v
  | a :: methods =>
      m ← get_method a (runtime v);
      v ← (if negb (IsStatic m) then Done v
           else
             let quick_code := if has_oat_class c then oat_code c method_index else 0 in
             a ← xposed_target a v;
             m ← get_method a (runtime v);
             UpdateMethodsCode a (fixup_code m quick_code v) v);
      fixup_methods c methods (method_index + 1) v
  end.
Definition FixupStaticTrampolines (c : Z) (v : vm) : cres vm :=
  if (length (class_direct_methods c) =? 0)%nat then Done v
  else if (negb IsStarted || UseCompileTimeClassPath) && (IsCompiler || HasImageSpace) then Done v
  else fixup_methods c (class_direct_methods c) 0 v.

(** The end of [InitializeClass]. *)
Definition set_initialized (c : Z) (v : vm) : vm := mkVm (inst v) (runtime v) (classes v) ({[c]} ∪ initialized v).
Definition class_initialized (c : Z) (v : vm) : cres vm := FixupStaticTrampolines c (set_initialized c v).

(** ** Levels of instrumentation *)

Definition current_level (i : Instrumentation) : Z :=
  if interpreter_stubs_installed_ i then 2 else if entry_exit_stubs_installed_ i then 1 else 0.

Definition ConfigureStubs (require_entry_exit_stubs require_interpreter : bool) (v : vm) : cres vm :=
  let v := set_inst (set_interpret_only (require_interpreter || forced_interpret_only_ (inst v))
                       (forced_interpret_only_ (inst v)) (inst v)) v in
  let desired_level := if require_interpreter then 2 else if require_entry_exit_stubs then 1 else 0 in
  let i := inst v in
  if desired_level =? current_level i then Done v
  else if 0 <? desired_level then
    let i := if require_interpreter then set_stubs (entry_exit_stubs_installed_ i) true i
             else set_stubs true (interpreter_stubs_installed_ i) i in
    v ← for_each InstallStubsForClass (classes v) (set_inst i v);
    Done (set_inst (set_installed true (inst v)) v)
  else
    v ← for_each InstallStubsForClass (classes v) (set_inst (set_stubs false false i) v);
    Done (if IsDeoptimizedMethodsEmpty (inst v) then set_inst (set_installed false (inst v)) v else v).

Definition check (b : bool) : cres unit := if b then Done () else Fault Aborted.
Definition can_deoptimize (m : ArtMethod) : bool :=
  negb (IsNative m) && negb (IsProxyMethod m false) && negb (IsAbstract m).

Definition Deoptimize (a : Z) (v : vm) : cres vm :=
  m ← get_method a (runtime v);
  _ ← check (can_deoptimize m);
  let '(has_not_been_deoptimized, i) := AddDeoptimizedMethod a (inst v) in
  _ ← check has_not_been_deoptimized;
  let v := set_inst i v in
  if negb (interpreter_stubs_installed_ i) then
    v ← UpdateEntrypoints a GetQuickInstrumentationEntryPoint v;
    Done (set_inst (set_installed true (inst v)) v)
  else Done v.

Definition Undeoptimize (a : Z) (v : vm) : cres vm :=
  m ← get_method a (runtime v);
  _ ← check (can_deoptimize m);
  let '(found_and_erased, i) := RemoveDeoptimizedMethod a (inst v) in
  _ ← check found_and_erased;
  let v := set_inst i v in
  if negb (interpreter_stubs_installed_ i) then
    v ← (if IsStatic m && negb (IsConstructor m) && negb (bool_decide (declaring_class_ m ∈ initialized v))
         then UpdateEntrypoints a GetQuickResolutionTrampoline v
         else quick_code ← GetQuickOatCodeFor m (runtime v); UpdateEntrypoints a quick_code v);
    Done (if IsDeoptimizedMethodsEmpty (inst v) then set_inst (set_installed false (inst v)) v else v)
  else Done v.

Definition EnableDeoptimization (v : vm) : cres vm :=
  _ ← check (IsDeoptimizedMethodsEmpty (inst v));
  _ ← check (negb (deoptimization_enabled_ (inst v)));
  Done (set_inst (set_enabled true (inst v)) v).

Definition DeoptimizeEverything (v : vm) : cres vm :=
  _ ← check (negb (interpreter_stubs_installed_ (inst v))); ConfigureStubs false true v.
Definition UndeoptimizeEverything (v : vm) : cres vm :=
  _ ← check (interpreter_stubs_installed_ (inst v)); ConfigureStubs false false v.

(** Each round takes a method out of the map. *)
Fixpoint undeoptimize_all (fuel : nat) (v : vm) : cres vm :=
  if IsDeoptimizedMethodsEmpty (inst v) then Done v
  else match fuel with
       | O => Fault OutOfFuel
       | S fuel => v ← Undeoptimize (BeginDeoptimizedMethod (inst v)) v; undeoptimize_all fuel v
       end.
Definition DisableDeoptimization (v : vm) : cres vm :=
  _ ← check (deoptimization_enabled_ (inst v));
  v ← (if interpreter_stubs_installed_ (inst v) then UndeoptimizeEverything v else Done v);
  v ← undeoptimize_all (length (deoptimized_methods_ (inst v))) v;
  Done (set_inst (set_enabled false (inst v)) v).

Definition kDeoptimizeForAccurateMethodEntryExitListeners : bool := true.
Definition EnableMethodTracing : vm -> cres vm :=
  let require_interpreter := kDeoptimizeForAccurateMethodEntryExitListeners in
  ConfigureStubs (negb require_interpreter) require_interpreter.
Definition DisableMethodTracing : vm -> cres vm := ConfigureStubs false false.

Definition ForceInterpretOnly (v : vm) : vm := set_inst (set_interpret_only true true (inst v)) v.

(** The code that a call of a method uses under instrumentation. *)
Definition GetQuickCodeFor (a : Z) (v : vm) : cres Z :=
  m ← get_method a (runtime v);
  let code := entry_point_from_quick_compiled_code_ m in
  if negb (instrumentation_stubs_installed_ (inst v)) &&
     negb (code =? GetQuickResolutionTrampoline) && negb (code =? GetQuickToInterpreterBridgeTrampoline) &&
     negb (code =? GetQuickToInterpreterBridge)
  then Done code
  else GetQuickOatCodeFor m (runtime v).

(** ** What happens to a runtime *)

(** The methods of a class that is loaded, one after the other. *)
Fixpoint link_members (c : Z) (l : list (Z * ArtMethod)) (index : Z) (v : vm) : cres vm :=
  match l with
  | [] => Done v
  | (a, m) :: l => v ← LinkCode c a index (set_runtime (set_method a m (runtime v)) v); link_members c l (index + 1) v
  end.
Definition load_class (c : Z) (ms : list ArtMethod) (v : vm) : cres vm :=
  v ← link_members c (zip (class_direct_methods c ++ class_virtual_methods c) ms) 0 v;
  Done (mkVm (inst v) (runtime v) (c :: classes v) (initialized v)).

Inductive event :=
| Hook (javaReflectedMethod javaAdditionalInfo : Z)
| LoadClass (c : Z) (ms : list ArtMethod)
| InitializeClass (c : Z)
| OnDeoptimize (a : Z)
| OnUndeoptimize (a : Z)
| OnEnable
| OnDisable
| OnDeoptimizeEverything
| OnUndeoptimizeEverything
| StartTracing
| StopTracing.

Definition run_event (e : event) (v : vm) : cres vm :=
  match e with
  | Hook r add => s ← XposedBridge_hookMethodNative r add (runtime v); Done (set_runtime s v)
  | LoadClass c ms => load_class c ms v
  | InitializeClass c => class_initialized c v
  | OnDeoptimize a => Deoptimize a v
  | OnUndeoptimize a => Undeoptimize a v
  | OnEnable => EnableDeoptimization v
  | OnDisable => DisableDeoptimization v
  | OnDeoptimizeEverything => DeoptimizeEverything v
  | OnUndeoptimizeEverything => UndeoptimizeEverything v
  | StartTracing => EnableMethodTracing v
  | StopTracing => DisableMethodTracing v
  end.
Definition is_hook_event (e : event) : bool := match e with Hook _ _ => true | _ => false end.
End Instrument.

(** ** What hooks leave alone *)

Lemma abstract_bit m : IsAbstract m = Z.testbit (access_flags_ m) 10.
Proof. by apply (has_flag_testbit 10). Qed.

(** The direct methods are those with one of three flags. *)
Lemma direct_bits m : IsDirect m true =
  Z.testbit (access_flags_ m) 3 || Z.testbit (access_flags_ m) 1 || Z.testbit (access_flags_ m) 16.
Proof.
  unfold IsDirect. rewrite <- !(has_flag_testbit _ m) by lia. unfold has_flag. change (2 ^ 3) with kAccStatic. change (2 ^ 1) with kAccPrivate.
  change (2 ^ 16) with kAccConstructor. rewrite !Z.land_lor_distr_r.
  destruct (Z.eqb_spec (Z.land (access_flags_ m) kAccStatic) 0) as [->|], (Z.eqb_spec (Z.land (access_flags_ m) kAccPrivate) 0) as [->|],
    (Z.eqb_spec (Z.land (access_flags_ m) kAccConstructor) 0) as [->|]; cbn [negb orb]; rewrite ?Z.lor_0_l, ?Z.lor_0_r; try done;
    apply negb_true_iff, Z.eqb_neq; rewrite ?Z.lor_eq_0_iff; tauto.
Qed.

Section Transparent.
Context `{ArtRuntime} `{CodeRuntime}.
Context (Hresolution : forall c, GetResolutionMethod ∉ class_direct_methods c ++ class_virtual_methods c).

(** What instrumentation looks at is the same without the mark of an original. *)
Record same_view (m m' : ArtMethod) : Prop := {
  sv_class : declaring_class_ m' = declaring_class_ m;
  sv_dex : dex_method_index_ m' = dex_method_index_ m;
  sv_index : method_index_ m' = method_index_ m;
  sv_static : IsStatic m' = IsStatic m;
  sv_native : IsNative m' = IsNative m;
  sv_constructor : IsConstructor m' = IsConstructor m;
  sv_abstract : IsAbstract m' = IsAbstract m;
  sv_direct : IsDirect m' true = IsDirect m true;
  sv_proxy : IsProxyMethod m' false = IsProxyMethod m false
}.

Lemma clear_view m : same_view m (clear_original m).
Proof.
  constructor; try done.
  - rewrite !static_bit, clear_original_bit by lia. apply andb_true_r.
  - apply clear_checks.
  - rewrite !constructor_bit, clear_original_bit by lia. apply andb_true_r.
  - rewrite !abstract_bit, clear_original_bit by lia. apply andb_true_r.
  - rewrite !direct_bits, !clear_original_bit by lia. by rewrite !andb_true_r.
  - unfold IsProxyMethod. f_equal. rewrite !hooked_bit, clear_original_bit by lia. apply f_equal, andb_true_r.
Qed.

Lemma clear_plain m : IsXposedOriginalMethod m = false -> clear_original m = m.
Proof.
  rewrite original_bit. intros Ho. destruct m as [? ? ? f]. unfold clear_original, with_flags. cbn -[Z.testbit Z.ldiff] in *. f_equal.
  apply Z.bits_inj'. intros n Hn. change kAccXposedOriginalMethod with (2 ^ 29). rewrite Z.ldiff_spec, Z.pow2_bits_eqb by lia.
  destruct (Z.eqb_spec 29 n) as [<-|]; [by rewrite Ho|by rewrite andb_true_r].
Qed.

Lemma entries_marks i j q m : IsXposedHookedMethod m = false -> same_marks m (with_entries i j q m).
Proof. intros Hh. unfold same_marks. split; [done|]. split; [exact Hh|]. by split. Qed.

(** The method that is changed for [a], and what the change is without hooks. *)
Lemma xposed_target_ok a v m0 : hooks_wf (runtime v) -> unhook (runtime v) !! a = Some m0 ->
  exists t mt, xposed_target a v = Done t /\ methods (runtime v) !! t = Some mt /\ IsXposedHookedMethod mt = false /\
    m0 = clear_original mt /\ (t = a \/ IsXposedOriginalMethod mt = true) /\
    (t = a -> IsXposedOriginalMethod mt = false) /\
    (t <> a -> exists m, methods (runtime v) !! a = Some m /\ IsXposedHookedMethod m = true) /\
    (exists m, methods (runtime v) !! a = Some m /\ IsStatic m = IsStatic mt) /\
    forall mt', same_marks mt mt' -> hooks_wf (set_method t mt' (runtime v)) /\
      unhook (set_method t mt' (runtime v)) = <[a := clear_original mt']> (unhook (runtime v)).
Proof.
  intros Hwf Hu. rewrite lookup_unhook in Hu. destruct (methods (runtime v) !! a) as [m|] eqn:Hm; [|done]. cbn in Hu.
  unfold xposed_target, get_method. rewrite Hm. cbn [deref mbind cres_bind]. destruct (IsXposedHookedMethod m) eqn:Hh.
  - destruct (wf_hooked _ Hwf a m Hm Hh) as (b & bm & Hk). rewrite (unhook_hooked _ _ _ _ Hh Hk) in Hu. injection Hu as <-.
    destruct (hk_info _ _ _ _ Hk) as (i & Hi & Ho & _). exists b, bm. unfold GetXposedOriginalMethod, GetXposedHookInfo.
    rewrite Hi. cbn [deref mbind cres_bind]. rewrite Ho. pose proof (hk_original _ _ _ _ Hk) as Hb. pose proof (hk_not_hooked _ _ _ _ Hk) as Hn.
    split_and!; try done; [right; apply Hk|intros ->; congruence|by exists m|exists m; split; [done|]; rewrite !static_bit; by apply (hk_flags _ _ _ _ Hk)|].
    intros mt' Hs. split; [by eapply wf_update|by eapply unhook_update_original].
  - unfold unhook_method in Hu. rewrite Hh in Hu. destruct (IsXposedOriginalMethod m) eqn:Ho; [done|]. injection Hu as <-.
    exists a, m. split_and!; try done; [by rewrite clear_plain|by left|by exists m|].
    intros mt' Hs. split; [by eapply wf_update|]. rewrite (unhook_update_plain _ _ m) by done.
    rewrite clear_plain; [done|]. destruct Hs as (-> & _). done.
Qed.

(** The runtime without its hooks. *)
Definition plain_art (s : art) : art := mkArt (unhook s) ∅ ∅ [] ∅ None.
Definition plain (v : vm) : vm := mkVm (inst v) (plain_art (runtime v)) (classes v) (initialized v).

Definition member (cl : list Z) (a : Z) : Prop := exists c, c ∈ cl /\ a ∈ class_direct_methods c ++ class_virtual_methods c.

(** Classes have their methods, and no method is both hooked and deoptimized. *)
Record good (cl : list Z) (v : vm) : Prop := {
  g_classes : classes v = cl;
  g_hooks : hooks_wf (runtime v);
  g_members : forall c a, c ∈ cl -> a ∈ class_direct_methods c ++ class_virtual_methods c ->
    exists m, unhook (runtime v) !! a = Some m /\ declaring_class_ m = c;
  g_resolution : exists rm, methods (runtime v) !! GetResolutionMethod = Some rm /\ IsXposedOriginalMethod rm = false;
  g_deoptimized : Forall (fun e => member cl e.2 /\ exists m, methods (runtime v) !! e.2 = Some m /\
    IsXposedHookedMethod m = false /\ IsXposedOriginalMethod m = false) (deoptimized_methods_ (inst v))
}.

(** A step with hooks and the same step without: what the one does is what the
    other does. *)
Definition step_ok (cl : list Z) (x y : cres vm) : Prop :=
  match x with Done v' => good cl v' /\ y = Done (plain v') | Fault e => y = Fault e end.

Lemma step_done cl x y v' : step_ok cl x y -> x = Done v' -> good cl v' /\ y = Done (plain v').
Proof. by intros Hs ->. Qed.
Lemma step_back cl x y p' : step_ok cl x y -> y = Done p' -> exists v', x = Done v' /\ good cl v' /\ plain v' = p'.
Proof. intros Hs ->. destruct x as [v'|]; [|done]. destruct Hs as [Hg [= ->]]. by exists v'. Qed.
Lemma step_ret cl v : good cl v -> step_ok cl (Done v) (Done (plain v)).
Proof. done. Qed.
Lemma step_bind cl x y (f g : vm -> cres vm) :
  step_ok cl x y -> (forall v, good cl v -> step_ok cl (f v) (g (plain v))) -> step_ok cl (x ≫= f) (y ≫= g).
Proof. intros Hx Hf. destruct x as [v1|e]; cbn in *; [destruct Hx as [Hg ->]; by apply Hf|by rewrite Hx]. Qed.
Lemma step_read {A} cl (x y : cres A) (f g : A -> cres vm) :
  x = y -> (forall a, x = Done a -> step_ok cl (f a) (g a)) -> step_ok cl (x ≫= f) (y ≫= g).
Proof. intros <- Hf. destruct x as [a|e]; [by apply Hf|done]. Qed.
Lemma step_fault cl e : step_ok cl (Fault e) (Fault e).
Proof. done. Qed.

(** The method [mt] at [t] is changed in the place of [a]. *)
Record target (v : vm) (a t : Z) (mt : ArtMethod) : Prop := {
  tg_target : xposed_target a v = Done t;
  tg_method : methods (runtime v) !! t = Some mt;
  tg_not_hooked : IsXposedHookedMethod mt = false;
  tg_plain : unhook (runtime v) !! a = Some (clear_original mt);
  tg_mark : t = a \/ IsXposedOriginalMethod mt = true;
  tg_same : t = a -> IsXposedOriginalMethod mt = false;
  tg_hooked : t <> a -> exists m, methods (runtime v) !! a = Some m /\ IsXposedHookedMethod m = true;
  tg_static : exists m, methods (runtime v) !! a = Some m /\ IsStatic m = IsStatic mt;
  tg_update : forall mt', same_marks mt mt' -> hooks_wf (set_method t mt' (runtime v)) /\
    unhook (set_method t mt' (runtime v)) = <[a := clear_original mt']> (unhook (runtime v))
}.

Lemma member_target cl v a : good cl v -> member cl a ->
  exists t mt, target v a t mt /\ exists c, c ∈ cl /\ a ∈ class_direct_methods c ++ class_virtual_methods c /\ declaring_class_ mt = c.
Proof.
  intros Hg (c & Hc & Ha). destruct (g_members _ _ Hg c a Hc Ha) as (m & Hm & Hd).
  destruct (xposed_target_ok a v m (g_hooks _ _ Hg) Hm) as (t & mt & H1 & H2 & H3 & -> & H4 & H5 & H6 & H7 & H8).
  exists t, mt. split; [by constructor|]. by exists c.
Qed.

(** The originals and the hooked methods are not deoptimized. *)
Lemma find_deoptimized cl v a m : good cl v -> methods (runtime v) !! a = Some m ->
  IsXposedHookedMethod m = true \/ IsXposedOriginalMethod m = true -> IsDeoptimized a v = false.
Proof.
  intros Hg Hm Hmark. unfold IsDeoptimized, FindDeoptimizedMethod. apply not_true_is_false. intros E.
  apply existsb_exists in E as (e & He & E). apply list_elem_of_In in He.
  apply andb_true_iff in E as [_ E%Z.eqb_eq]. pose proof (g_deoptimized _ _ Hg) as Hd. rewrite Forall_forall in Hd.
  destruct (Hd e He) as (_ & m' & Hm' & H1 & H2). rewrite E, Hm in Hm'. injection Hm' as <-. destruct Hmark; congruence.
Qed.

Lemma target_deoptimized cl v a t mt : good cl v -> target v a t mt -> IsDeoptimized t v = IsDeoptimized a (plain v).
Proof.
  intros Hg Ht. change (IsDeoptimized a (plain v)) with (IsDeoptimized a v). destruct (decide (t = a)) as [->|Hne]; [done|].
  destruct (tg_hooked _ _ _ _ Ht Hne) as (m & Hm & Hh). rewrite (find_deoptimized cl v a m), (find_deoptimized cl v t mt); try done.
  - apply Ht.
  - right. by destruct (tg_mark _ _ _ _ Ht).
  - by left.
Qed.

Lemma member_not_resolution cl a : member cl a -> a <> GetResolutionMethod.
Proof. intros (c & _ & Ha) ->. by apply (Hresolution c). Qed.
Lemma target_not_resolution cl v a t mt : good cl v -> a <> GetResolutionMethod -> target v a t mt ->
  (t =? GetResolutionMethod) = false /\ (a =? GetResolutionMethod) = false.
Proof.
  intros Hg Hne Ht. split; apply Z.eqb_neq; [|done]. intros ->. destruct (g_resolution _ _ Hg) as (rm & Hrm & Ho).
  pose proof (tg_method _ _ _ _ Ht) as Hm. rewrite Hrm in Hm. injection Hm as ->. destruct (tg_mark _ _ _ _ Ht); congruence.
Qed.

(** Changing the entry points of the target. *)
Lemma good_entries cl v a t mt i j q : good cl v -> a <> GetResolutionMethod -> target v a t mt ->
  good cl (set_runtime (set_method t (with_entries i j q mt) (runtime v)) v) /\
  plain (set_runtime (set_method t (with_entries i j q mt) (runtime v)) v) =
  set_runtime (set_method a (with_entries i j q (clear_original mt)) (runtime (plain v))) (plain v).
Proof.
  intros Hg Hmem Ht. destruct (target_not_resolution cl v a t mt Hg Hmem Ht) as [Hr _]. apply Z.eqb_neq in Hr.
  destruct (tg_update _ _ _ _ Ht _ (entries_marks i j q mt (tg_not_hooked _ _ _ _ Ht))) as [Hwf Hu].
  split; [|unfold plain, plain_art, set_runtime; cbn [runtime inst classes initialized]; by rewrite Hu].
  constructor; cbn [set_runtime runtime classes inst]; [apply Hg|done|..].
  - intros c x Hc Hx. destruct (g_members _ _ Hg c x Hc Hx) as (m & Hm & Hd). rewrite Hu. destruct (decide (x = a)) as [->|Hne].
    + rewrite lookup_insert_eq. eexists. split; [done|]. rewrite (tg_plain _ _ _ _ Ht) in Hm. by injection Hm as <-.
    + rewrite lookup_insert_ne by done. by exists m.
  - destruct (g_resolution _ _ Hg) as (rm & Hrm & Ho). exists rm. cbn. by rewrite lookup_insert_ne.
  - eapply Forall_impl; [apply Hg|]. intros e (He & m & Hm & H1 & H2). split; [done|]. cbn. destruct (decide (e.2 = t)) as [E|Hne].
    + rewrite E, lookup_insert_eq. eexists. split; [done|]. rewrite E, (tg_method _ _ _ _ Ht) in Hm. by injection Hm as <-.
    + rewrite lookup_insert_ne by done. by exists m.
Qed.

(** The target as [UpdateEntrypoints] leaves it. *)
Definition updated (q : Z) (i : Instrumentation) (m : ArtMethod) : ArtMethod :=
  with_entries (if enters_interpreter m q i then artInterpreterToInterpreterBridge else artInterpreterToCompiledCodeBridge)
    (entry_point_from_jni_ m) q m.

Lemma update_entrypoints a q v m : methods (runtime v) !! a = Some m -> (a =? GetResolutionMethod) = false ->
  UpdateEntrypoints a q v = Done (set_runtime (set_method a (updated q (inst v) m) (runtime v)) v).
Proof. intros Hm Hr. unfold UpdateEntrypoints, get_method. rewrite Hm. cbn [deref mbind cres_bind]. by rewrite Hr. Qed.

Lemma updated_clear q i m : clear_original (updated q i m) = updated q i (clear_original m).
Proof.
  unfold updated. assert (enters_interpreter (clear_original m) q i = enters_interpreter m q i) as ->; [|done].
  unfold enters_interpreter. by rewrite (sv_native _ _ (clear_view m)), (sv_proxy _ _ (clear_view m)).
Qed.

Lemma plain_method v a t mt : target v a t mt -> methods (runtime (plain v)) !! a = Some (clear_original mt).
Proof. apply tg_plain. Qed.

Lemma update_step cl v a t mt q : good cl v -> a <> GetResolutionMethod -> target v a t mt ->
  step_ok cl (UpdateEntrypoints t q v) (UpdateEntrypoints a q (plain v)).
Proof.
  intros Hg Hmem Ht. destruct (target_not_resolution cl v a t mt Hg Hmem Ht) as [Hr Hra].
  rewrite (update_entrypoints t q v mt) by first [apply Ht|done].
  rewrite (update_entrypoints a q (plain v) (clear_original mt)) by first [by eapply plain_method|done].
  destruct (good_entries cl v a t mt (if enters_interpreter mt q (inst v) then artInterpreterToInterpreterBridge
     else artInterpreterToCompiledCodeBridge) (entry_point_from_jni_ mt) q Hg Hmem Ht) as [Hg' Hp].
  split; [done|]. unfold updated at 2. rewrite Hp. cbn [inst plain]. rewrite <- updated_clear. done.
Qed.

(** Reading the code of a method. *)
Lemma find_virtual_plain dex_index l index s : hooks_wf s -> Forall (fun a => is_Some (unhook s !! a)) l ->
  find_virtual dex_index l index s = find_virtual dex_index l index (plain_art s).
Proof.
  intros Hwf Hl. revert index. induction Hl as [|a l [m0 Ha] _ IH]; intros index; [done|]. cbn [find_virtual]. unfold get_method.
  cbn [plain_art methods]. rewrite Ha. rewrite lookup_unhook in Ha. destruct (methods s !! a) as [m|] eqn:Hm; [|done]. cbn in Ha.
  cbn [deref mbind cres_bind]. assert (dex_method_index_ m = dex_method_index_ m0) as ->; [|by case_match].
  destruct (IsXposedHookedMethod m) eqn:Hh.
  - destruct (wf_hooked _ Hwf a m Hm Hh) as (b & bm & Hk). rewrite (unhook_hooked _ _ _ _ Hh Hk) in Ha. injection Ha as <-.
    change (dex_method_index_ (id_of m) = dex_method_index_ (id_of bm)). by rewrite (hk_id _ _ _ _ Hk).
  - unfold unhook_method in Ha. rewrite Hh in Ha. case_match; [done|]. by injection Ha as <-.
Qed.

Lemma oat_code_plain cl v m : good cl v -> declaring_class_ m ∈ cl ->
  GetQuickOatCodeFor m (runtime v) = GetQuickOatCodeFor (clear_original m) (runtime (plain v)).
Proof.
  intros Hg Hc. unfold GetQuickOatCodeFor, FindOatMethodFor. pose proof (clear_view m) as Hv.
  rewrite (sv_abstract _ _ Hv), (sv_proxy _ _ Hv), (sv_static _ _ Hv), (sv_direct _ _ Hv), (sv_native _ _ Hv), (sv_class _ _ Hv),
    (sv_dex _ _ Hv), (sv_index _ _ Hv).
  rewrite (find_virtual_plain _ _ _ (runtime v)); [done|apply Hg|]. apply Forall_forall. intros a Ha.
  destruct (g_members _ _ Hg (declaring_class_ m) a Hc) as (m' & Hm' & _); [|by exists m'].
  apply elem_of_app. by right.
Qed.

Lemma stub_code_plain cl v a t mt : good cl v -> target v a t mt -> declaring_class_ mt ∈ cl ->
  stub_code t mt v = stub_code a (clear_original mt) (plain v).
Proof.
  intros Hg Ht Hc. unfold stub_code. rewrite (target_deoptimized cl v a t mt Hg Ht), (oat_code_plain cl v mt Hg Hc).
  pose proof (clear_view mt) as Hv. by rewrite (sv_static _ _ Hv), (sv_native _ _ Hv), (sv_constructor _ _ Hv), (sv_class _ _ Hv).
Qed.

(** The target of a method in a runtime without hooks is the method itself. *)
Lemma plain_target v a t mt : target v a t mt -> xposed_target a (plain v) = Done a.
Proof.
  intros Ht. unfold xposed_target, get_method. rewrite (plain_method v a t mt Ht). cbn [deref mbind cres_bind].
  assert (IsXposedHookedMethod (clear_original mt) = false) as ->; [|done].
  rewrite hooked_bit, clear_original_bit, <- hooked_bit by lia. by rewrite (tg_not_hooked _ _ _ _ Ht).
Qed.

Lemma install_method_step cl a v : member cl a -> good cl v ->
  step_ok cl (InstallStubsForMethod a v) (InstallStubsForMethod a (plain v)).
Proof.
  intros Hmem Hg. destruct (member_target cl v a Hg Hmem) as (t & mt & Ht & c & Hc & _ & Hd). unfold InstallStubsForMethod.
  rewrite (tg_target _ _ _ _ Ht), (plain_target _ _ _ _ Ht). cbn [mbind cres_bind]. unfold get_method.
  rewrite (tg_method _ _ _ _ Ht), (plain_method _ _ _ _ Ht). cbn [deref mbind cres_bind]. pose proof (clear_view mt) as Hv.
  rewrite (sv_abstract _ _ Hv), (sv_proxy _ _ Hv), (sv_constructor _ _ Hv), (sv_class _ _ Hv).
  case_match; [by apply step_ret|]. case_match; [by apply step_ret|].
  apply step_read; [eapply stub_code_plain; [done..|congruence]|]. intros q _. eapply update_step; [done|by eapply member_not_resolution|done].
Qed.

Lemma for_each_step cl f l v : (forall a v, a ∈ l -> good cl v -> step_ok cl (f a v) (f a (plain v))) -> good cl v ->
  step_ok cl (for_each f l v) (for_each f l (plain v)).
Proof.
  intros Hf. revert v. induction l as [|a l IH]; intros v Hg; [by apply step_ret|]. cbn [for_each].
  apply step_bind; [apply Hf; [by left|done]|]. intros v1 Hg1. apply IH; [|done]. intros x v2 Hx. apply Hf. by right.
Qed.

Lemma install_class_step cl c v : c ∈ cl -> good cl v -> step_ok cl (InstallStubsForClass c v) (InstallStubsForClass c (plain v)).
Proof. intros Hc. apply for_each_step. intros a v1 Ha. apply install_method_step. by exists c. Qed.

Lemma methods_code_step cl v a t mt q q' : good cl v -> a <> GetResolutionMethod -> target v a t mt -> q = q' ->
  step_ok cl (UpdateMethodsCode t q v) (UpdateMethodsCode a q' (plain v)).
Proof.
  intros Hg Hmem Ht <-. unfold UpdateMethodsCode, get_method. rewrite (tg_method _ _ _ _ Ht), (plain_method _ _ _ _ Ht).
  cbn [deref mbind cres_bind]. rewrite (target_deoptimized cl v a t mt Hg Ht), (sv_native _ _ (clear_view mt)). by eapply update_step.
Qed.

Lemma fixup_plain m q v : fixup_code (clear_original m) q (plain v) = fixup_code m q v.
Proof. unfold fixup_code, NeedsInterpreter. by rewrite (sv_native _ _ (clear_view m)), (sv_proxy _ _ (clear_view m)). Qed.

Lemma fixup_methods_step cl c l index v : Forall (member cl) l -> good cl v ->
  step_ok cl (fixup_methods c l index v) (fixup_methods c l index (plain v)).
Proof.
  intros Hl. revert index v. induction Hl as [|a l Ha _ IH]; intros index v Hg; [by apply step_ret|]. cbn [fixup_methods].
  destruct (member_target cl v a Hg Ha) as (t & mt & Ht & _). destruct (tg_static _ _ _ _ Ht) as (m & Hm & Hs).
  unfold get_method. rewrite Hm, (plain_method _ _ _ _ Ht). cbn [deref mbind cres_bind]. rewrite (sv_static _ _ (clear_view mt)), Hs.
  apply step_bind; [|intros v1 Hg1; by apply IH]. destruct (negb (IsStatic mt)); [by apply step_ret|].
  rewrite (tg_target _ _ _ _ Ht), (plain_target _ _ _ _ Ht). cbn [mbind cres_bind].
  rewrite (tg_method _ _ _ _ Ht), (plain_method _ _ _ _ Ht). cbn [deref mbind cres_bind].
  eapply methods_code_step; [done|by eapply member_not_resolution|done|]. by rewrite fixup_plain.
Qed.

Lemma initialized_step cl c v : c ∈ cl -> good cl v -> step_ok cl (class_initialized c v) (class_initialized c (plain v)).
Proof.
  intros Hc Hg. unfold class_initialized, FixupStaticTrampolines. change (set_initialized c (plain v)) with (plain (set_initialized c v)).
  assert (good cl (set_initialized c v)) as Hg1 by (destruct Hg; by constructor).
  case_match; [by apply step_ret|]. case_match; [by apply step_ret|]. apply fixup_methods_step; [|done].
  apply Forall_forall. intros a Ha. exists c. split; [done|]. apply elem_of_app. by left.
Qed.

(** Changes of the instrumentation. *)
Lemma good_inst cl v i : good cl v -> Forall (fun e => e ∈ deoptimized_methods_ (inst v)) (deoptimized_methods_ i) -> good cl (set_inst i v).
Proof.
  intros [H1 H2 H3 H4 H5] Hi. constructor; try done. rewrite Forall_forall in *. intros e He. by apply H5, Hi.
Qed.
Lemma all_deoptimized (l : list (Z * Z)) : Forall (fun e => e ∈ l) l.
Proof. by apply Forall_forall. Qed.
#[local] Hint Resolve good_inst all_deoptimized : core.

Lemma install_all_step cl i v : good cl v -> deoptimized_methods_ i = deoptimized_methods_ (inst v) ->
  step_ok cl (for_each InstallStubsForClass cl (set_inst i v)) (for_each InstallStubsForClass cl (set_inst i (plain v))).
Proof.
  intros Hg Hi. change (set_inst i (plain v)) with (plain (set_inst i v)). apply for_each_step.
  - intros c v1 Hc. by apply install_class_step.
  - apply good_inst; [done|]. rewrite Hi. apply all_deoptimized.
Qed.

Lemma configure_step cl e r v : good cl v -> step_ok cl (ConfigureStubs e r v) (ConfigureStubs e r (plain v)).
Proof.
  intros Hg. unfold ConfigureStubs. change (inst (plain v)) with (inst v).
  set (i := set_interpret_only (r || forced_interpret_only_ (inst v)) (forced_interpret_only_ (inst v)) (inst v)).
  change (set_inst i (plain v)) with (plain (set_inst i v)). assert (good cl (set_inst i v)) as Hg1 by auto.
  cbn zeta. change (inst (plain (set_inst i v))) with (inst (set_inst i v)). change (classes (plain (set_inst i v))) with (classes (set_inst i v)).
  destruct (_ =? current_level _); [by apply step_ret|]. rewrite (g_classes _ _ Hg1). destruct (0 <? _).
  - apply step_bind; [|intros v1 Hv1; apply (step_ret cl (set_inst (set_installed true (inst v1)) v1)); auto].
    apply install_all_step; [done|by destruct r].
  - apply step_bind; [by apply install_all_step|]. intros v1 Hv1. change (inst (plain v1)) with (inst v1).
    destruct (IsDeoptimizedMethodsEmpty (inst v1)); [|by apply step_ret].
    apply (step_ret cl (set_inst (set_installed false (inst v1)) v1)). auto.
Qed.

(** The map of deoptimized methods. *)
Lemma multimap_insert_perm e l : multimap_insert e l ≡ₚ e :: l.
Proof. induction l as [|x l IH]; [done|]. cbn [multimap_insert]. case_match; [|done]. rewrite IH. apply Permutation_swap. Qed.
Lemma erase_method_perm a l l' : erase_method a l = Some l' -> l ≡ₚ (IdentityHashCode a, a) :: l'.
Proof.
  revert l'. induction l as [|[h x] l IH]; intros l' E; [done|]. cbn [erase_method] in E.
  destruct (_ && _) eqn:Ee.
  - injection E as <-. apply andb_true_iff in Ee as [Eh%Z.eqb_eq Ex%Z.eqb_eq]. cbn in Eh, Ex. by subst.
  - destruct (erase_method a l) as [l1|]; [|done]. injection E as <-. rewrite (IH l1 eq_refl). apply Permutation_swap.
Qed.

Lemma target_inst v i a t mt : target v a t mt -> target (set_inst i v) a t mt.
Proof. intros []. by constructor. Qed.

(** A hooked method is not deoptimized or restored. *)
Definition unhooked (v : vm) (a : Z) : Prop := forall m, methods (runtime v) !! a = Some m -> IsXposedHookedMethod m = false.
Lemma deoptimize_plain cl v a : good cl v -> member cl a -> (exists mt, target v a a mt /\ declaring_class_ mt ∈ cl) \/
  exists m, methods (runtime v) !! a = Some m /\ IsXposedHookedMethod m = true /\ can_deoptimize m = false.
Proof.
  intros Hg Ha. destruct (member_target cl v a Hg Ha) as (t & mt & Ht & c & Hc & _ & Hd).
  destruct (decide (t = a)) as [->|Hne]; [left; exists mt; split; congruence|right].
  destruct (tg_hooked _ _ _ _ Ht Hne) as (m & Hm & Hh). exists m. split; [done|]. split; [done|].
  unfold can_deoptimize, IsProxyMethod. rewrite Hh. by rewrite orb_true_r, andb_false_r.
Qed.
Lemma can_deoptimize_plain m : can_deoptimize (clear_original m) = can_deoptimize m.
Proof.
  unfold can_deoptimize. pose proof (clear_view m) as Hv. by rewrite (sv_native _ _ Hv), (sv_proxy _ _ Hv), (sv_abstract _ _ Hv).
Qed.

Lemma deoptimize_step cl a v : member cl a -> good cl v -> unhooked v a -> step_ok cl (Deoptimize a v) (Deoptimize a (plain v)).
Proof.
  intros Ha Hg Hun. unfold Deoptimize. destruct (deoptimize_plain cl v a Hg Ha) as [(mt & Ht & _)|(m & Hm & Hh & _)];
    [|specialize (Hun m Hm); congruence].
  unfold get_method. rewrite (tg_method _ _ _ _ Ht), (plain_method _ _ _ _ Ht). cbn [deref mbind cres_bind]. rewrite can_deoptimize_plain.
  apply step_read; [done|]. intros _ _. change (inst (plain v)) with (inst v). unfold AddDeoptimizedMethod.
  destruct (FindDeoptimizedMethod a (inst v)); [apply step_fault|]. cbn [check mbind cres_bind].
  set (i := set_deoptimized _ (inst v)). change (set_inst i (plain v)) with (plain (set_inst i v)).
  assert (good cl (set_inst i v)) as Hg1.
  { destruct Hg as [H1 H2 H3 H4 H5]. constructor; try done. cbn. rewrite multimap_insert_perm. constructor; [|done]. cbn. split; [done|].
    exists mt. split_and!; [apply Ht..|]. by apply Ht. }
  destruct (negb (interpreter_stubs_installed_ i)); [|by apply step_ret].
  apply step_bind; [eapply update_step; [done|by eapply member_not_resolution|by apply target_inst]|].
  intros v1 Hv1. apply (step_ret cl (set_inst (set_installed true (inst v1)) v1)). auto.
Qed.

Lemma undeoptimize_step cl a v : member cl a -> good cl v -> step_ok cl (Undeoptimize a v) (Undeoptimize a (plain v)).
Proof.
  intros Ha Hg. unfold Undeoptimize. destruct (deoptimize_plain cl v a Hg Ha) as [(mt & Ht & Hc)|(m & Hm & Hh & Hcan)].
  2:{ destruct (member_target cl v a Hg Ha) as (t & mt & Ht & _). unfold get_method. rewrite Hm, (plain_method _ _ _ _ Ht).
      cbn [deref mbind cres_bind]. rewrite Hcan. cbn [check mbind cres_bind]. destruct (can_deoptimize (clear_original mt)); [|apply step_fault].
      unfold RemoveDeoptimizedMethod. change (inst (plain v)) with (inst v). destruct (erase_method a _) as [l|] eqn:El; [|apply step_fault].
      exfalso. pose proof (g_deoptimized _ _ Hg) as Hd. rewrite (erase_method_perm _ _ _ El) in Hd.
      apply Forall_cons in Hd as [(_ & m' & Hm' & Hn & _) _]. cbn in Hm'. congruence. }
  unfold get_method. rewrite (tg_method _ _ _ _ Ht), (plain_method _ _ _ _ Ht). cbn [deref mbind cres_bind]. rewrite can_deoptimize_plain.
  apply step_read; [done|]. intros _ _. change (inst (plain v)) with (inst v). unfold RemoveDeoptimizedMethod.
  destruct (erase_method a _) as [l|] eqn:El; [|apply step_fault]. cbn [check mbind cres_bind].
  set (i := set_deoptimized l (inst v)). change (set_inst i (plain v)) with (plain (set_inst i v)).
  assert (good cl (set_inst i v)) as Hg1.
  { apply good_inst; [done|]. apply Forall_forall. intros e He. rewrite (erase_method_perm _ _ _ El). by right. }
  destruct (negb (interpreter_stubs_installed_ i)); [|by apply step_ret]. pose proof (clear_view mt) as Hview.
  rewrite (sv_static _ _ Hview), (sv_constructor _ _ Hview), (sv_class _ _ Hview).
  change (initialized (plain (set_inst i v))) with (initialized (set_inst i v)).
  apply step_bind.
  - destruct (_ && _); [eapply update_step; [done|by eapply member_not_resolution|by apply target_inst]|].
    apply step_read; [by eapply oat_code_plain|]. intros q _. eapply update_step; [done|by eapply member_not_resolution|by apply target_inst].
  - intros v1 Hv1. change (inst (plain v1)) with (inst v1). destruct (IsDeoptimizedMethodsEmpty (inst v1)); [|by apply step_ret].
    apply (step_ret cl (set_inst (set_installed false (inst v1)) v1)). auto.
Qed.

Lemma undeoptimize_all_step cl fuel v : good cl v -> step_ok cl (undeoptimize_all fuel v) (undeoptimize_all fuel (plain v)).
Proof.
  revert v. induction fuel as [|fuel IH]; intros v Hg; cbn [undeoptimize_all]; change (inst (plain v)) with (inst v);
    destruct (IsDeoptimizedMethodsEmpty (inst v)) eqn:He;
    [by apply step_ret|apply step_fault|by apply step_ret|].
  apply step_bind; [|intros v1 Hv1; by apply IH]. apply undeoptimize_step; [|done].
  unfold IsDeoptimizedMethodsEmpty, BeginDeoptimizedMethod in *. pose proof (g_deoptimized _ _ Hg) as Hd.
  destruct (deoptimized_methods_ (inst v)); [done|]. by apply Forall_cons in Hd as [[? _] _].
Qed.

Lemma disable_step cl v : good cl v -> step_ok cl (DisableDeoptimization v) (DisableDeoptimization (plain v)).
Proof.
  intros Hg. unfold DisableDeoptimization, UndeoptimizeEverything. apply step_read; [done|]. intros _ _.
  change (inst (plain v)) with (inst v). apply step_bind.
  - destruct (interpreter_stubs_installed_ (inst v)); [|by apply step_ret]. apply step_read; [done|]. intros _ _. by apply configure_step.
  - intros v1 Hv1. change (inst (plain v1)) with (inst v1). apply step_bind; [by apply undeoptimize_all_step|].
    intros v2 Hv2. apply (step_ret cl (set_inst (set_enabled false (inst v2)) v2)). auto.
Qed.

(** A method that is in no table yet. *)
Definition unmarked (m : ArtMethod) : Prop := IsXposedHookedMethod m = false /\ IsXposedOriginalMethod m = false.

Lemma fresh_is_hook s a m mx b bm : methods s !! a = None -> is_hook s mx b bm -> is_hook (set_method a m s) mx b bm.
Proof.
  intros Ha Hk. constructor; try apply Hk. cbn. pose proof (hk_original _ _ _ _ Hk). by rewrite lookup_insert_ne by congruence.
Qed.
Lemma fresh_hooks s a m : hooks_wf s -> methods s !! a = None -> unmarked m ->
  hooks_wf (set_method a m s) /\ unhook (set_method a m s) = <[a := m]> (unhook s).
Proof.
  intros Hwf Ha [Hh Ho].
  assert (forall x mx, methods (set_method a m s) !! x = Some mx -> IsXposedHookedMethod mx = true -> methods s !! x = Some mx) as Hold.
  { intros x mx Hx Hm. cbn in Hx. apply lookup_insert_Some in Hx as [[_ <-]|[_ Hx]]; congruence. }
  split; [constructor|].
  - intros x mx Hx Hm. destruct (wf_hooked _ Hwf x mx (Hold x mx Hx Hm) Hm) as (b & bm & Hk). eauto using fresh_is_hook.
  - intros a1 m1 i1 a2 m2 i2 H1 Hm1 Hi1 H2 Hm2 Hi2. apply (wf_own s Hwf a1 m1 i1 a2 m2 i2); auto.
  - apply map_eq. intros x. rewrite lookup_unhook. cbn [set_method set_methods methods]. destruct (decide (x = a)) as [->|Hx].
    + rewrite !lookup_insert_eq. cbn. unfold unhook_method. by rewrite Hh, Ho.
    + rewrite !lookup_insert_ne, lookup_unhook by done. destruct (methods s !! x) as [mx|] eqn:Hm; [|done]. cbn.
      destruct (IsXposedHookedMethod mx) eqn:Hhx; [|unfold unhook_method; by rewrite Hhx].
      destruct (wf_hooked _ Hwf x mx Hm Hhx) as (b & bm & Hk). rewrite (unhook_hooked _ _ _ _ Hhx Hk).
      eapply unhook_hooked; [done|by apply fresh_is_hook].
Qed.

Lemma fresh_good cl v a m : good cl v -> methods (runtime v) !! a = None -> unmarked m ->
  good cl (set_runtime (set_method a m (runtime v)) v) /\
  plain (set_runtime (set_method a m (runtime v)) v) = set_runtime (set_method a m (runtime (plain v))) (plain v).
Proof.
  intros Hg Ha Hm. destruct (fresh_hooks _ a m (g_hooks _ _ Hg) Ha Hm) as [Hwf Hu].
  split; [|unfold plain, plain_art, set_runtime; cbn [runtime inst classes initialized]; by rewrite Hu].
  constructor; cbn [set_runtime runtime classes inst]; [apply Hg|done|..].
  - intros c x Hc Hx. destruct (g_members _ _ Hg c x Hc Hx) as (mx & Hmx & Hd). exists mx. split; [|done]. rewrite Hu, lookup_insert_ne; [done|].
    intros ->. rewrite lookup_unhook, Ha in Hmx. done.
  - destruct (g_resolution _ _ Hg) as (rm & Hrm & Ho). exists rm. cbn. by rewrite lookup_insert_ne by congruence.
  - eapply Forall_impl; [apply Hg|]. intros e (He & mx & Hmx & Hu'). split; [done|]. exists mx. cbn. by rewrite lookup_insert_ne by congruence.
Qed.

Lemma unmarked_target cl v a m : good cl v -> methods (runtime v) !! a = Some m -> unmarked m -> target v a a m.
Proof.
  intros Hg Ha [Hh Ho]. assert (unhook (runtime v) !! a = Some m) as Hu.
  { rewrite lookup_unhook, Ha. cbn. unfold unhook_method. by rewrite Hh, Ho. }
  destruct (xposed_target_ok a v m (g_hooks _ _ Hg) Hu) as (t & mt & H1 & H2 & H3 & H4 & H5 & H6 & H7 & H8 & H9).
  destruct (decide (t = a)) as [->|Hne].
  - rewrite Ha in H2. injection H2 as <-. constructor; try done. by rewrite clear_plain.
  - destruct (H7 Hne) as (m' & Hm' & Hh'). congruence.
Qed.

(** ** What LinkCode does to a new method *)

Definition linked_oat (c index : Z) : Z :=
  if IsStarted && negb UseCompileTimeClassPath && has_oat_class c then oat_code c index else 0.
(** The code before instrumentation sees the method. *)
Definition linked_code (raw : Z) (m : ArtMethod) (v : vm) : Z :=
  if IsStatic m && negb (IsConstructor m) then GetQuickResolutionTrampoline
  else if NeedsInterpreter m raw v then if IsNative m then GetQuickGenericJniTrampoline else GetQuickToInterpreterBridge
  else raw.
(** The code that [UpdateMethodsCode] chooses. *)
Definition methods_code (a q : Z) (m : ArtMethod) (v : vm) : Z :=
  let i := inst v in
  if negb (instrumentation_stubs_installed_ i) then q
  else if (interpreter_stubs_installed_ i || IsDeoptimized a v) && negb (IsNative m) then GetQuickToInterpreterBridge
  else if (q =? GetQuickResolutionTrampoline) || (q =? GetQuickToInterpreterBridgeTrampoline) || (q =? GetQuickToInterpreterBridge) then q
  else if entry_exit_stubs_installed_ i then GetQuickInstrumentationEntryPoint else q.
Definition linked (c a index : Z) (m : ArtMethod) (v : vm) : ArtMethod :=
  let raw := linked_oat c index in
  if IsAbstract m then
    with_entries (if NeedsInterpreter m raw v && negb (IsNative m) then artInterpreterToInterpreterBridge
                  else artInterpreterToCompiledCodeBridge) (entry_point_from_jni_ m) GetQuickToInterpreterBridge m
  else
    updated (methods_code a (linked_code raw m v) m v) (inst v)
      (if IsNative m then SetEntryPointFromJni GetJniDlsymLookupStub m else m).

Lemma set_entries_ok a f v m : methods (runtime v) !! a = Some m -> set_entries a f v = Done (set_runtime (set_method a (f m) (runtime v)) v).
Proof. intros Hm. unfold set_entries. by rewrite (update_method_ok _ _ _ _ Hm). Qed.
Lemma set_twice a m m' v : set_runtime (set_method a m' (runtime (set_runtime (set_method a m (runtime v)) v))) (set_runtime (set_method a m (runtime v)) v) =
  set_runtime (set_method a m' (runtime v)) v.
Proof.
  unfold set_runtime, set_method, set_methods. cbn [runtime inst classes initialized methods infos reflects stacks objects exception].
  by rewrite insert_insert_eq.
Qed.
Lemma set_lookup a m v : methods (runtime (set_runtime (set_method a m (runtime v)) v)) !! a = Some m.
Proof. apply lookup_insert_eq. Qed.

Lemma set_same a m v : methods (runtime v) !! a = Some m -> set_runtime (set_method a m (runtime v)) v = v.
Proof.
  intros Hm. destruct v as [i [M] cl ini]. unfold set_runtime, set_method, set_methods. cbn in *. by rewrite insert_id.
Qed.
Lemma quick_same m : SetEntryPointFromQuickCompiledCode (entry_point_from_quick_compiled_code_ m) m = m.
Proof. by destruct m. Qed.

(** A native method gets the stub that looks for its code. *)
Lemma unregister_new a s m : methods s !! a = Some m -> IsXposedHookedMethod m = false -> IsNative m = true ->
  UnregisterNative 2 a s =
  if IsFastNative m then Fault Aborted else Done (set_method a (SetEntryPointFromJni GetJniDlsymLookupStub m) s).
Proof.
  intros Hm Hh Hn. cbn [UnregisterNative]. rewrite (get_method_ok _ _ _ Hm). cbn [mbind cres_bind]. rewrite Hh, Hn.
  destruct (IsFastNative m) eqn:Hf; [done|]. cbn [negb andb]. rewrite (register_direct 1 a m) by done. rewrite Hn, Hf. cbn [negb orb].
  by rewrite (proj2 (Z.eqb_neq _ _) dlsym_stub_not_null).
Qed.

Lemma methods_code_ok a q v m : methods (runtime v) !! a = Some m -> (a =? GetResolutionMethod) = false ->
  UpdateMethodsCode a q v = Done (set_runtime (set_method a (updated (methods_code a q m v) (inst v) m) (runtime v)) v).
Proof.
  intros Hm Ha. unfold UpdateMethodsCode. rewrite (get_method_ok _ _ _ Hm). cbn [mbind cres_bind]. by apply update_entrypoints.
Qed.

Lemma link_code_ok c a index v m : IsCompiler = false -> a <> GetResolutionMethod -> methods (runtime v) !! a = Some m -> unmarked m ->
  entry_point_from_quick_compiled_code_ m = 0 ->
  LinkCode c a index v =
  if negb (IsAbstract m) && IsNative m && IsFastNative m then Fault Aborted
  else Done (set_runtime (set_method a (linked c a index m v) (runtime v)) v).
Proof.
  intros Hcomp Ha Hm [Hh Ho] Hq. unfold LinkCode, linked. rewrite Hcomp. apply Z.eqb_neq in Ha. set (raw := linked_oat c index).
  assert ((if IsStarted && negb UseCompileTimeClassPath && has_oat_class c
           then set_entries a (SetEntryPointFromQuickCompiledCode (oat_code c index)) v else Done v) =
          Done (set_runtime (set_method a (SetEntryPointFromQuickCompiledCode raw m) (runtime v)) v)) as ->.
  { unfold raw, linked_oat. destruct (_ && has_oat_class c); [by apply set_entries_ok|].
    rewrite <- Hq, quick_same, set_same; done. }
  cbn [mbind cres_bind]. rewrite (get_method_ok _ _ _ (set_lookup _ _ _)). cbn [mbind cres_bind].
  rewrite (set_entries_ok _ _ _ _ (set_lookup _ _ _)), set_twice. cbn [mbind cres_bind].
  change (IsAbstract (SetEntryPointFromQuickCompiledCode raw m)) with (IsAbstract m).
  change (IsStatic (SetEntryPointFromQuickCompiledCode raw m)) with (IsStatic m).
  change (IsConstructor (SetEntryPointFromQuickCompiledCode raw m)) with (IsConstructor m).
  change (IsNative (SetEntryPointFromQuickCompiledCode raw m)) with (IsNative m).
  change (NeedsInterpreter (SetEntryPointFromQuickCompiledCode raw m) _ _) with (NeedsInterpreter m raw v).
  set (ep := if NeedsInterpreter m raw v && negb (IsNative m) then _ else _). destruct (IsAbstract m).
  { by rewrite (set_entries_ok _ _ _ _ (set_lookup _ _ _)), set_twice. }
  cbn [negb andb]. rewrite !(set_entries_ok _ _ _ _ (set_lookup _ _ _)), !set_twice.
  set (m1 := with_entries ep (entry_point_from_jni_ m) (linked_code raw m v) m).
  match goal with |- ?x ≫= _ = _ => assert (x = Done (set_runtime (set_method a m1 (runtime v)) v)) as -> end.
  { unfold m1, linked_code. destruct (IsStatic m && negb (IsConstructor m)); [done|].
    destruct (NeedsInterpreter m raw v); [|done]. by destruct (IsNative m). }
  cbn [mbind cres_bind]. destruct (IsNative m) eqn:Hn; cbn [andb].
  - rewrite (unregister_new a _ m1 (set_lookup _ _ _) Hh Hn). change (IsFastNative m1) with (IsFastNative m).
    destruct (IsFastNative m); [done|]. cbn [mbind cres_bind]. rewrite (set_twice a m1), (get_method_ok _ _ _ (set_lookup _ _ _)).
    cbn [mbind cres_bind]. by rewrite (methods_code_ok _ _ _ _ (set_lookup _ _ _) Ha), set_twice.
  - cbn [mbind cres_bind]. change (set_runtime (runtime (set_runtime ?x ?y)) (set_runtime ?x ?y)) with (set_runtime x y).
    rewrite (get_method_ok _ _ _ (set_lookup _ _ _)).
    cbn [mbind cres_bind]. by rewrite (methods_code_ok _ _ _ _ (set_lookup _ _ _) Ha), set_twice.
Qed.

Lemma linked_entries c a index m v : exists i j q, linked c a index m v = with_entries i j q m.
Proof.
  unfold linked, updated. destruct (IsAbstract m); [by do 3 eexists|]. destruct (IsNative m); by do 3 eexists.
Qed.
Lemma entries_unmarked i j q m : unmarked m -> unmarked (with_entries i j q m).
Proof. done. Qed.

Lemma link_step cl c a index v m : IsCompiler = false -> good cl v -> a <> GetResolutionMethod ->
  methods (runtime v) !! a = Some m -> unmarked m -> entry_point_from_quick_compiled_code_ m = 0 ->
  step_ok cl (LinkCode c a index v) (LinkCode c a index (plain v)).
Proof.
  intros Hcomp Hg Ha Hm Hu Hq. pose proof (unmarked_target cl v a m Hg Hm Hu) as Ht.
  rewrite (link_code_ok c a index v m) by done. pose proof (plain_method _ _ _ _ Ht) as Hp. rewrite clear_plain in Hp by apply Hu.
  rewrite (link_code_ok c a index (plain v) m) by done. destruct (_ && IsFastNative m); [apply step_fault|].
  change (linked c a index m (plain v)) with (linked c a index m v). destruct (linked_entries c a index m v) as (i & j & q & ->).
  destruct (good_entries cl v a a m i j q Hg Ha Ht) as [Hg' Hp']. split; [done|]. rewrite Hp'.
  by rewrite clear_plain by apply Hu.
Qed.

(** The methods of a new class. *)
Record new_member (v : vm) (c : Z) (e : Z * ArtMethod) : Prop := {
  nm_fresh : methods (runtime v) !! e.1 = None;
  nm_unmarked : unmarked e.2;
  nm_unlinked : entry_point_from_quick_compiled_code_ e.2 = 0;
  nm_class : declaring_class_ e.2 = c;
  nm_resolution : e.1 <> GetResolutionMethod
}.

Lemma link_one cl c a m index v v1 : IsCompiler = false -> good cl v -> new_member v c (a, m) ->
  LinkCode c a index (set_runtime (set_method a m (runtime v)) v) = Done v1 ->
  v1 = set_runtime (set_method a (linked c a index m v) (runtime v)) v.
Proof.
  intros Hcomp Hg [Hf Hu Hq Hc Hr] E. rewrite (link_code_ok c a index _ m) in E by first [done|apply set_lookup].
  destruct (_ && IsFastNative m); [done|]. injection E as <-. apply (set_twice a m).
Qed.

Lemma link_members_step cl c l : IsCompiler = false -> NoDup l.*1 -> forall index v, Forall (new_member v c) l -> good cl v ->
  step_ok cl (link_members c l index v) (link_members c l index (plain v)).
Proof.
  intros Hcomp. induction l as [|[a m] l IH]; intros Hnd index v Hl Hg; [by apply step_ret|]. cbn [link_members].
  rewrite fmap_cons, NoDup_cons in Hnd. destruct Hnd as [Hni Hnd]. apply Forall_cons in Hl as [Hm Hl].
  destruct (fresh_good cl v a m Hg (nm_fresh _ _ _ Hm) (nm_unmarked _ _ _ Hm)) as [Hg1 Hp]. rewrite <- Hp.
  pose proof (link_step cl c a index _ m Hcomp Hg1 (nm_resolution _ _ _ Hm) (set_lookup _ _ _) (nm_unmarked _ _ _ Hm) (nm_unlinked _ _ _ Hm)) as Hs.
  destruct (LinkCode c a index (set_runtime _ v)) as [v1|e] eqn:E1; cbn [step_ok] in Hs; [|by rewrite Hs].
  destruct Hs as [Hg2 ->]. cbn [mbind cres_bind]. apply IH; try done.
  rewrite (link_one cl c a m index v v1 Hcomp Hg Hm E1). rewrite Forall_forall in Hl |- *. intros e He. destruct (Hl e He). constructor; try done.
  cbn. rewrite lookup_insert_ne; [done|]. intros Ea. apply Hni. cbn. rewrite Ea. apply list_elem_of_fmap. by exists e.
Qed.

(** A method of the class is as LinkCode has left it; the others are as they were. *)
Lemma link_members_effect cl c l : IsCompiler = false -> NoDup l.*1 -> forall index v v', Forall (new_member v c) l -> good cl v ->
  link_members c l index v = Done v' ->
  inst v' = inst v /\ classes v' = classes v /\ initialized v' = initialized v /\
  (forall a, a ∉ l.*1 -> methods (runtime v') !! a = methods (runtime v) !! a) /\
  forall k a m, l !! k = Some (a, m) -> methods (runtime v') !! a = Some (linked c a (index + Z.of_nat k) m v).
Proof.
  intros Hcomp. induction l as [|[a m] l IH]; intros Hnd index v v' Hl Hg E; cbn [link_members] in E.
  { injection E as <-. by split_and!. }
  rewrite fmap_cons, NoDup_cons in Hnd. destruct Hnd as [Hni Hnd]. apply Forall_cons in Hl as [Hm Hl]. apply bind_Done in E as (v1 & E1 & E).
  destruct (fresh_good cl v a m Hg (nm_fresh _ _ _ Hm) (nm_unmarked _ _ _ Hm)) as [Hg1 _].
  destruct (step_done _ _ _ v1 (link_step cl c a index _ m Hcomp Hg1 (nm_resolution _ _ _ Hm) (set_lookup _ _ _) (nm_unmarked _ _ _ Hm)
    (nm_unlinked _ _ _ Hm)) E1) as [Hg2 _].
  pose proof (link_one cl c a m index v v1 Hcomp Hg Hm E1) as ->.
  destruct (IH Hnd (index + 1) (set_runtime (set_method a (linked c a index m v) (runtime v)) v) v') as (-> & -> & -> & Hold & Hnew);
    [|exact Hg2|exact E|].
  { rewrite Forall_forall in Hl |- *. intros e He. destruct (Hl e He). constructor; try done.
    cbn. rewrite lookup_insert_ne; [done|]. intros Ea. apply Hni. cbn. rewrite Ea. apply list_elem_of_fmap. by exists e. }
  split_and!; try done.
  - intros x Hx. rewrite fmap_cons in Hx. apply not_elem_of_cons in Hx as [Hxa Hx]. rewrite Hold by done. cbn. by rewrite lookup_insert_ne.
  - intros [|k] x mx Hk; cbn in Hk.
    + injection Hk as -> ->. rewrite Hold by done. cbn. by rewrite lookup_insert_eq, Z.add_0_r.
    + rewrite (Hnew k x mx Hk). f_equal. replace (index + Z.of_nat (S k)) with (index + 1 + Z.of_nat k) by lia. done.
Qed.

Record new_class (v : vm) (c : Z) (ms : list ArtMethod) : Prop := {
  nc_methods : length ms = length (class_direct_methods c ++ class_virtual_methods c);
  nc_distinct : NoDup (class_direct_methods c ++ class_virtual_methods c);
  nc_members : Forall (new_member v c) (zip (class_direct_methods c ++ class_virtual_methods c) ms);
  nc_initialized : c ∉ initialized v
}.

Lemma unmarked_unhook s a m : methods s !! a = Some m -> unmarked m -> unhook s !! a = Some m.
Proof. intros Ha [Hh Ho]. rewrite lookup_unhook, Ha. cbn. unfold unhook_method. by rewrite Hh, Ho. Qed.

Lemma new_class_names v c ms : new_class v c ms ->
  (zip (class_direct_methods c ++ class_virtual_methods c) ms).*1 = class_direct_methods c ++ class_virtual_methods c.
Proof. intros [Hl _ _ _]. apply fst_zip. lia. Qed.

(** The methods of the class after it has been loaded. *)
Lemma load_class_effect cl c ms v v' : IsCompiler = false -> good cl v -> new_class v c ms -> load_class c ms v = Done v' ->
  good (c :: cl) v' /\ inst v' = inst v /\ initialized v' = initialized v /\
  (forall a, a ∉ class_direct_methods c ++ class_virtual_methods c -> methods (runtime v') !! a = methods (runtime v) !! a) /\
  forall k a m, (class_direct_methods c ++ class_virtual_methods c) !! k = Some a -> ms !! k = Some m ->
    unmarked m /\ declaring_class_ m = c /\ methods (runtime v') !! a = Some (linked c a (Z.of_nat k) m v).
Proof.
  intros Hcomp Hg Hnc E. unfold load_class in E. apply bind_Done in E as (v1 & E1 & [= <-]).
  pose proof (new_class_names v c ms Hnc) as Hn. pose proof (nc_distinct _ _ _ Hnc) as Hnd. rewrite <- Hn in Hnd.
  destruct (step_done _ _ _ v1 (link_members_step cl c _ Hcomp Hnd 0 v (nc_members _ _ _ Hnc) Hg) E1) as [Hg1 _].
  destruct (link_members_effect cl c _ Hcomp Hnd 0 v v1 (nc_members _ _ _ Hnc) Hg E1) as (Hi & Hcl & Hini & Hold & Hnew).
  assert (forall k a m, (class_direct_methods c ++ class_virtual_methods c) !! k = Some a -> ms !! k = Some m ->
    unmarked m /\ declaring_class_ m = c /\ methods (runtime v1) !! a = Some (linked c a (Z.of_nat k) m v)) as Hms.
  { intros k a m Ha Hm. assert (zip (class_direct_methods c ++ class_virtual_methods c) ms !! k = Some (a, m)) as Hz.
    { apply lookup_zip_Some. done. }
    pose proof (Forall_lookup_1 _ _ _ _ (nc_members _ _ _ Hnc) Hz) as [_ Hu _ Hc _]. by rewrite (Hnew k a m Hz). }
  rewrite Hn in Hold. split_and!; try done. destruct Hg1 as [G1 G2 G3 G4 G5]. constructor; cbn [classes runtime inst]; try done.
  - by rewrite G1.
  - intros c' a [->|Hc']%elem_of_cons Ha; [|by apply G3]. apply list_elem_of_lookup in Ha as [k Ha].
    destruct (lookup_lt_is_Some_2 ms k) as [m Hm]; [rewrite (nc_methods _ _ _ Hnc); by eapply lookup_lt_Some|].
    destruct (Hms k a m Ha Hm) as (Hu & Hd & Hv1). destruct (linked_entries c a (Z.of_nat k) m v) as (i & j & q & El). rewrite El in Hv1.
    exists (with_entries i j q m). split; [|done]. by apply unmarked_unhook.
  - eapply Forall_impl; [exact G5|]. intros e ((c' & Hc' & Ha) & Hm). split; [|done]. exists c'. split; [by right|done].
Qed.

Lemma load_class_step cl c ms v : IsCompiler = false -> good cl v -> new_class v c ms ->
  step_ok (c :: cl) (load_class c ms v) (load_class c ms (plain v)).
Proof.
  intros Hcomp Hg Hnc. pose proof (load_class_effect cl c ms v) as He. unfold load_class in *.
  pose proof (new_class_names v c ms Hnc) as Hn. pose proof (nc_distinct _ _ _ Hnc) as Hnd. rewrite <- Hn in Hnd.
  pose proof (link_members_step cl c _ Hcomp Hnd 0 v (nc_members _ _ _ Hnc) Hg) as Hs.
  destruct (link_members c _ 0 v) as [v1|e] eqn:E1; cbn [step_ok] in Hs; [|by rewrite Hs]. destruct Hs as [_ ->]. split; [|done]. by eapply He.
Qed.

(** A hook changes one method and adds its original. *)
Lemma art_hook_effect r add s s' : XposedBridge_hookMethodNative r add s = Done s' ->
  methods s' = methods s \/
  exists x m b h, reflects s !! r = Some x /\ methods s !! artMethod x = Some m /\ methods s !! b = None /\
    IsXposedOriginalMethod (hooked_of h m) = false /\
    methods s' = <[artMethod x := hooked_of h m]> (<[b := backup_of m]> (methods s)).
Proof.
  unfold XposedBridge_hookMethodNative, FromReflectedMethod. destruct (r =? 0); [intros [= <-]; by left|].
  destruct (reflects s !! r) as [x|]; [|done]. cbn [deref mbind cres_bind].
  destruct (methods s !! artMethod x) as [m|] eqn:Hm; [|unfold EnableXposedHook, get_method; by rewrite Hm].
  destruct (IsXposedHookedMethod m) eqn:Hh;
    [unfold EnableXposedHook; rewrite (get_method_ok _ _ _ Hm); cbn [mbind cres_bind]; rewrite Hh; intros [= <-]; by left|].
  destruct (IsXposedOriginalMethod m) eqn:Ho;
    [unfold EnableXposedHook; rewrite (get_method_ok _ _ _ Hm); cbn [mbind cres_bind]; rewrite Hh, Ho; intros [= <-]; by left|].
  destruct (enable_effect (artMethod x) add m s Hm Hh Ho) as [[-> _]|(b & rr & h & Fb & _ & _ & _ & _ & _ & ->)]; [done|].
  intros [= <-]. right. exists x, m, b, h. split_and!; try done. by destruct (hooked_of_marks h m Hh Ho) as (_ & ? & _).
Qed.

Lemma hook_step cl r add v s' : good cl v -> XposedBridge_hookMethodNative r add (runtime v) = Done s' ->
  (forall x, reflects (runtime v) !! r = Some x -> artMethod x ∉ (deoptimized_methods_ (inst v)).*2) ->
  good cl (set_runtime s' v) /\ plain (set_runtime s' v) = plain v.
Proof.
  intros Hg E Hnd. destruct (hook_refines r add _ s' (g_hooks _ _ Hg) E) as [Hwf Hu].
  split; [|unfold plain, plain_art, set_runtime; cbn [runtime inst classes initialized]; by rewrite Hu].
  destruct Hg as [G1 G2 G3 G4 G5]. constructor; cbn [set_runtime runtime classes inst]; try done.
  - intros c a. rewrite Hu. apply G3.
  - destruct G4 as (rm & Hrm & Ho). destruct (art_hook_effect r add _ s' E) as [->|(x & m & b & h & _ & Hm & Hb & Hho & ->)]; [by exists rm|].
    destruct (decide (GetResolutionMethod = artMethod x)) as [->|Hne]; [exists (hooked_of h m); by rewrite lookup_insert_eq|].
    exists rm. by rewrite !lookup_insert_ne by congruence.
  - destruct (art_hook_effect r add _ s' E) as [->|(x & m & b & h & Hx & Hm & Hb & _ & ->)]; [done|].
    rewrite Forall_forall in G5 |- *. intros e He. destruct (G5 e He) as (Hmem & me & Hme & Hmark). split; [done|]. exists me. split; [|done].
    rewrite !lookup_insert_ne; [done|congruence|]. intros Ea. apply (Hnd x Hx). rewrite Ea. apply list_elem_of_fmap. by exists e.
Qed.

(** What an event needs: a method that is hooked is not deoptimized, a class that
    is loaded is new, and the others are about loaded classes. *)
Definition event_ok (v : vm) (e : event) : Prop :=
  match e with
  | Hook r _ => forall x, reflects (runtime v) !! r = Some x -> artMethod x ∉ (deoptimized_methods_ (inst v)).*2
  | LoadClass c ms => new_class v c ms
  | InitializeClass c => c ∈ classes v
  | OnDeoptimize a | OnUndeoptimize a => member (classes v) a
  | _ => True
  end.

(** An event other than a hook does with hooks what it does without; only a
    method that is hooked is not deoptimized. *)
Definition event_unhooked (v : vm) (e : event) : Prop := match e with OnDeoptimize a => unhooked v a | _ => True end.
Definition event_classes (v : vm) (e : event) : list Z := match e with LoadClass c _ => c :: classes v | _ => classes v end.

Lemma event_sim e v : IsCompiler = false -> good (classes v) v -> event_ok v e -> event_unhooked v e -> is_hook_event e = false ->
  step_ok (event_classes v e) (run_event e v) (run_event e (plain v)).
Proof.
  intros Hcomp Hg Hok Hun Hh.
  destruct e as [r add|c ms|c|a|a| | | | | |]; cbn [is_hook_event run_event event_ok event_unhooked event_classes] in *; try done.
  - by apply load_class_step.
  - by apply initialized_step.
  - by apply deoptimize_step.
  - by apply undeoptimize_step.
  - unfold EnableDeoptimization. change (inst (plain v)) with (inst v).
    apply step_read; [done|]. intros _ _. apply step_read; [done|]. intros _ _.
    apply (step_ret _ (set_inst (set_enabled true (inst v)) v)). auto.
  - by apply disable_step.
  - unfold DeoptimizeEverything. change (inst (plain v)) with (inst v). apply step_read; [done|]. intros _ _. by apply configure_step.
  - unfold UndeoptimizeEverything. change (inst (plain v)) with (inst v). apply step_read; [done|]. intros _ _. by apply configure_step.
  - by apply configure_step.
  - by apply configure_step.
Qed.

Lemma deoptimize_unhooked a v v' : Deoptimize a v = Done v' -> unhooked v a.
Proof.
  unfold Deoptimize, get_method. intros E m Hm. rewrite Hm in E. cbn [deref mbind cres_bind] in E.
  destruct (IsXposedHookedMethod m) eqn:Hh; [|done]. unfold can_deoptimize, IsProxyMethod in E. rewrite Hh, orb_true_r, andb_false_r in E. done.
Qed.

Lemma event_step e v v' : IsCompiler = false -> good (classes v) v -> event_ok v e -> run_event e v = Done v' ->
  good (classes v') v' /\
  (if is_hook_event e then plain v' = plain v else run_event e (plain v) = Done (plain v')).
Proof.
  intros Hcomp Hg Hok E. destruct (is_hook_event e) eqn:Hh.
  - destruct e; try done. apply bind_Done in E as (s' & E & [= <-]). by eapply hook_step.
  - assert (event_unhooked v e) as Hun by (destruct e; try done; by eapply deoptimize_unhooked).
    destruct (step_done _ _ _ _ (event_sim e v Hcomp Hg Hok Hun Hh) E) as [Hg' ->]. split; [|done]. by rewrite (g_classes _ _ Hg').
Qed.

(** The states that events lead to, and the same without the hooks. *)
Inductive steps : list event -> vm -> vm -> Prop :=
| steps_nil v : steps [] v v
| steps_cons e es v v1 v' : event_ok v e -> run_event e v = Done v1 -> steps es v1 v' -> steps (e :: es) v v'.

Fixpoint run_events (es : list event) (v : vm) : cres vm :=
  match es with [] => Done v | e :: es => v ← run_event e v; run_events es v end.

Lemma steps_plain es v v' : IsCompiler = false -> steps es v v' -> good (classes v) v ->
  good (classes v') v' /\ run_events (filter (fun e => is_hook_event e = false) es) (plain v) = Done (plain v').
Proof.
  intros Hcomp Hs. induction Hs as [v|e es v v1 v' Hok E _ IH]; intros Hg; [done|].
  destruct (event_step e v v1 Hcomp Hg Hok E) as [Hg1 Hp]. destruct (IH Hg1) as [Hg' Hr]. split; [done|].
  rewrite filter_cons. destruct (is_hook_event e).
  - rewrite decide_False by done. by rewrite <- Hp.
  - rewrite decide_True by done. cbn [run_events]. by rewrite Hp.
Qed.
End Transparent.
