(* ===== verification/InstrumentCode.v ===== *)
(** * InstrumentCode: which code methods run under instrumentation
      (runtime/instrumentation.cc, runtime/class_linker.cc)

    A table of the entry points of every method of a loaded class, for each state
    of the instrumentation, and that loading, initializing, deoptimizing and
    restoring keep to it; the hooks of [HookArt] change nothing in it. *)

From stdpp Require Import gmap sorting.
From S2P Require Import Prelude CLib ArtArgs HookArt Instrument.

Section Code.
Context `{ArtRuntime} `{CodeRuntime}.
Context (Hresolution : forall c, GetResolutionMethod ∉ class_direct_methods c ++ class_virtual_methods c).
Context (Hcompiler : IsCompiler = false) (Hstarted : IsStarted = true) (Hpath : UseCompileTimeClassPath = false).

(** ** The table *)

Definition class_methods (c : Z) : list Z := class_direct_methods c ++ class_virtual_methods c.

(** The methods whose entry points instrumentation changes. *)
Definition stubbed (m : ArtMethod) : bool :=
  negb (IsAbstract m) && negb (IsProxyMethod m false) && negb (IsConstructor m && is_java_lang_reflect_Proxy (declaring_class_ m)).

(** The compiled code of method [k] of class [c], or what runs it without. *)
Definition slot_code (c : Z) (k : nat) (native : bool) : Z :=
  let raw := if has_oat_class c then oat_code c (Z.of_nat k) else 0 in
  if raw =? 0 then if native then GetQuickGenericJniTrampoline else GetQuickToInterpreterBridge else raw.

(** A static method waits for the initialization of its class. *)
Definition waiting (m : ArtMethod) (p : vm) : bool :=
  IsStatic m && negb (IsConstructor m) && negb (bool_decide (declaring_class_ m ∈ initialized p)).

Definition code_allowed (p : vm) (c : Z) (k : nat) (a : Z) (m : ArtMethod) (q : Z) : Prop :=
  let own := if waiting m p then GetQuickResolutionTrampoline else slot_code c k (IsNative m) in
  if IsNative m then q = own
  else if interpreter_stubs_installed_ (inst p) then q = GetQuickToInterpreterBridge
  else if IsDeoptimized a p then q = GetQuickToInterpreterBridge \/ q = GetQuickInstrumentationEntryPoint
  else q = own.

(** The bridge that the interpreter uses goes with the code. *)
Definition interpreter_entry (q : Z) : Z :=
  if (q =? GetQuickToInterpreterBridge) || (q =? GetQuickToInterpreterBridgeTrampoline) then artInterpreterToInterpreterBridge
  else artInterpreterToCompiledCodeBridge.

Definition entry_ok (p : vm) (c : Z) (k : nat) (a : Z) (m : ArtMethod) : Prop :=
  stubbed m = true ->
  code_allowed p c k a m (entry_point_from_quick_compiled_code_ m) /\
  entry_point_from_interpreter_ m = interpreter_entry (entry_point_from_quick_compiled_code_ m).

(** ** The layout of classes *)

Record slot_ok (c : Z) (k : nat) (m : ArtMethod) : Prop := {
  so_class : declaring_class_ m = c;
  so_unmarked : unmarked m;
  so_direct : (k < length (class_direct_methods c))%nat -> IsDirect m true = true /\ method_index_ m = Z.of_nat k;
  so_virtual : (length (class_direct_methods c) <= k)%nat -> IsDirect m true = false
}.

Record layout (p : vm) : Prop := {
  ly_slots : forall c k a, c ∈ classes p -> class_methods c !! k = Some a -> exists m, methods (runtime p) !! a = Some m /\ slot_ok c k m;
  ly_dex : forall c j k a b ma mb, c ∈ classes p -> class_virtual_methods c !! j = Some a -> class_virtual_methods c !! k = Some b ->
    methods (runtime p) !! a = Some ma -> methods (runtime p) !! b = Some mb -> dex_method_index_ ma = dex_method_index_ mb -> j = k;
  ly_distinct : forall c, c ∈ classes p -> NoDup (class_methods c)
}.

Definition table (p : vm) : Prop :=
  forall c k a m, c ∈ classes p -> class_methods c !! k = Some a -> methods (runtime p) !! a = Some m -> entry_ok p c k a m.

(** The state of the instrumentation: its flags agree with what is installed. *)
Record flags_ok (i : Instrumentation) : Prop := {
  fl_entry_exit : entry_exit_stubs_installed_ i = false;
  fl_forced : forced_interpret_only_ i = false;
  fl_only : interpret_only_ i = interpreter_stubs_installed_ i;
  fl_installed : instrumentation_stubs_installed_ i = interpreter_stubs_installed_ i || negb (IsDeoptimizedMethodsEmpty i);
  fl_distinct : NoDup (deoptimized_methods_ i).*2;
  fl_hashes : Forall (fun e => e.1 = IdentityHashCode e.2) (deoptimized_methods_ i)
}.

Record code_inv (p : vm) : Prop := {
  ci_layout : layout p;
  ci_flags : flags_ok (inst p);
  ci_deoptimized : Forall (fun e => member (classes p) e.2 /\ exists m, methods (runtime p) !! e.2 = Some m /\ can_deoptimize m = true)
    (deoptimized_methods_ (inst p));
  ci_table : table p
}.

(** ** Changes of entry points *)

(** The same methods with other entry points. *)
Definition same_methods (p p' : vm) : Prop :=
  forall a, match methods (runtime p) !! a with
            | Some m => exists i j q, methods (runtime p') !! a = Some (with_entries i j q m)
            | None => methods (runtime p') !! a = None
            end.

Lemma same_methods_refl p : same_methods p p.
Proof. intros a. case_match; [|done]. destruct a0. by do 3 eexists. Qed.
Lemma same_methods_trans p1 p2 p3 : same_methods p1 p2 -> same_methods p2 p3 -> same_methods p1 p3.
Proof.
  intros H1 H2 a. specialize (H1 a). specialize (H2 a). destruct (methods (runtime p1) !! a); [|by rewrite H1 in H2].
  destruct H1 as (i & j & q & E). rewrite E in H2. destruct H2 as (i' & j' & q' & E'). by exists i', j', q'.
Qed.
Lemma same_methods_set p a m i j q : methods (runtime p) !! a = Some m ->
  same_methods p (set_runtime (set_method a (with_entries i j q m) (runtime p)) p).
Proof.
  intros Hm x. cbn. destruct (decide (x = a)) as [->|Hne].
  - rewrite Hm, lookup_insert_eq. by do 3 eexists.
  - rewrite lookup_insert_ne by done. apply (same_methods_refl p x).
Qed.

Lemma layout_same p p' : layout p -> same_methods p p' -> classes p' = classes p -> layout p'.
Proof.
  intros [L1 L2 L3] Hs Hc. split; rewrite Hc.
  - intros c k a Hcl Ha. destruct (L1 c k a Hcl Ha) as (m & Hm & Hok). specialize (Hs a). rewrite Hm in Hs. destruct Hs as (i & j & q & E).
    eexists. split; [exact E|]. by destruct Hok.
  - intros c j k a b ma mb Hcl Ha Hb Hma Hmb Hdex.
    destruct (L1 c (length (class_direct_methods c) + j)%nat a Hcl) as (ma0 & Hma0 & _).
    { unfold class_methods. rewrite lookup_app_r by lia. by rewrite Nat.add_comm, Nat.add_sub. }
    destruct (L1 c (length (class_direct_methods c) + k)%nat b Hcl) as (mb0 & Hmb0 & _).
    { unfold class_methods. rewrite lookup_app_r by lia. by rewrite Nat.add_comm, Nat.add_sub. }
    pose proof (Hs a) as Ea. pose proof (Hs b) as Eb. rewrite Hma0 in Ea. rewrite Hmb0 in Eb.
    destruct Ea as (? & ? & ? & Ea). destruct Eb as (? & ? & ? & Eb). rewrite Ea in Hma. rewrite Eb in Hmb. injection Hma as <-. injection Hmb as <-.
    by eapply (L2 c j k a b ma0 mb0).
  - done.
Qed.

(** ** The code of a slot *)

Lemma find_virtual_slot s l j a m index : (forall i x, l !! i = Some x -> is_Some (methods s !! x)) ->
  (forall i x mx, l !! i = Some x -> methods s !! x = Some mx -> dex_method_index_ mx = dex_method_index_ m -> i = j) ->
  l !! j = Some a -> methods s !! a = Some m -> find_virtual (dex_method_index_ m) l index s = Done (index + Z.of_nat j).
Proof.
  revert j index. induction l as [|x l IH]; intros j index Hall Hdex Hj Hm; [done|]. cbn [find_virtual].
  destruct (Hall 0%nat x eq_refl) as [mx Hx]. rewrite (get_method_ok _ _ _ Hx). cbn [mbind cres_bind].
  destruct (Z.eqb_spec (dex_method_index_ mx) (dex_method_index_ m)) as [Ed|Ed].
  - pose proof (Hdex 0%nat x mx eq_refl Hx Ed) as <-. by rewrite Z.add_0_r.
  - destruct j as [|j]; [cbn in Hj; congruence|]. rewrite (IH j (index + 1)); [f_equal; lia|..|done|done].
    + intros i y Hy. by apply (Hall (S i)).
    + intros i y my Hy Hmy Emy. pose proof (Hdex (S i) y my Hy Hmy Emy). lia.
Qed.

Lemma static_direct m : IsDirect m true = false -> IsStatic m = false.
Proof. rewrite direct_bits, static_bit. intros Hd. by destruct (Z.testbit (access_flags_ m) 3). Qed.

Lemma slot_oat p c k a m : layout p -> c ∈ classes p -> class_methods c !! k = Some a -> methods (runtime p) !! a = Some m ->
  IsAbstract m = false -> IsProxyMethod m false = false -> GetQuickOatCodeFor m (runtime p) = Done (slot_code c k (IsNative m)).
Proof.
  intros Hl Hc Ha Hm Hab Hpr. destruct (ly_slots _ Hl c k a Hc Ha) as (m' & Hm' & [Hcl Hu Hd Hvi]). rewrite Hm in Hm'. injection Hm' as <-.
  unfold GetQuickOatCodeFor, FindOatMethodFor. rewrite Hab, Hpr, Hcl.
  match goal with |- ?x ≫= _ = _ => assert (x = Done (if has_oat_class c then oat_code c (Z.of_nat k) else 0)) as -> end; [|done].
  destruct (decide (k < length (class_direct_methods c))%nat) as [Hk|Hk].
  - destruct (Hd Hk) as [-> ->]. by rewrite orb_true_r.
  - assert (IsDirect m true = false) as Hdir by (apply Hvi; lia). rewrite Hdir, (static_direct m Hdir). cbn [orb].
    unfold class_methods in Ha. rewrite lookup_app_r in Ha by lia.
    rewrite (find_virtual_slot _ _ (k - length (class_direct_methods c)) a m); [cbn [mbind cres_bind]; do 2 f_equal; case_match; [f_equal; lia|done]|..|done|done].
    + intros i x Hx. destruct (ly_slots _ Hl c (length (class_direct_methods c) + i)%nat x Hc) as (mx & Hmx & _); [|by exists mx].
      unfold class_methods. rewrite lookup_app_r by lia. by rewrite Nat.add_comm, Nat.add_sub.
    + intros i x mx Hx Hmx Edex. by eapply (ly_dex _ Hl c i _ x a mx m).
Qed.

(** The method that instrumentation changes is the method itself. *)
Lemma slot_target p c k a m : layout p -> c ∈ classes p -> class_methods c !! k = Some a -> methods (runtime p) !! a = Some m ->
  xposed_target a p = Done a /\ (a =? GetResolutionMethod) = false.
Proof.
  intros Hl Hc Ha Hm. destruct (ly_slots _ Hl c k a Hc Ha) as (m' & Hm' & [_ [Hh _] _ _]). rewrite Hm in Hm'. injection Hm' as <-. split.
  - unfold xposed_target. rewrite (get_method_ok _ _ _ Hm). cbn [mbind cres_bind]. by rewrite Hh.
  - apply Z.eqb_neq. intros ->. apply (Hresolution c). by eapply list_elem_of_lookup_2.
Qed.

(** What [UpdateEntrypoints] leaves is in the table. *)
Lemma updated_ok p c k a m q : forced_interpret_only_ (inst p) = false -> code_allowed p c k a m q -> entry_ok p c k a (updated q (inst p) m).
Proof.
  intros Hf Hq _. split; [exact Hq|]. cbn [updated with_entries entry_point_from_interpreter_ entry_point_from_quick_compiled_code_].
  unfold enters_interpreter, interpreter_entry. rewrite Hf, andb_false_r. cbn [andb]. by rewrite orb_false_r.
Qed.

(** A step that changes the entry points of a list of methods. *)
Record touches (l : list Z) (p p' : vm) : Prop := {
  tc_inst : inst p' = inst p;
  tc_classes : classes p' = classes p;
  tc_initialized : initialized p' = initialized p;
  tc_methods : same_methods p p';
  tc_others : forall x, x ∉ l -> methods (runtime p') !! x = methods (runtime p) !! x
}.

Lemma touches_refl l p : touches l p p.
Proof. split; try done. apply same_methods_refl. Qed.
Lemma touches_trans l l' p1 p2 p3 : touches l p1 p2 -> touches l' p2 p3 -> touches (l ++ l') p1 p3.
Proof.
  intros [A1 A2 A3 A4 A5] [B1 B2 B3 B4 B5]. split; try congruence; [by eapply same_methods_trans|].
  intros x Hx. apply not_elem_of_app in Hx as [Hx Hx']. by rewrite B5, A5.
Qed.
Lemma touches_set p a m i j q : methods (runtime p) !! a = Some m ->
  touches [a] p (set_runtime (set_method a (with_entries i j q m) (runtime p)) p).
Proof.
  intros Hm. split; try done; [by apply same_methods_set|]. intros x Hx. cbn. rewrite lookup_insert_ne; [done|]. set_solver.
Qed.

Lemma allowed_same p p' c k a m q : inst p' = inst p -> initialized p' = initialized p -> code_allowed p' c k a m q <-> code_allowed p c k a m q.
Proof. intros Hi Hn. unfold code_allowed, waiting, IsDeoptimized. by rewrite Hi, Hn. Qed.
Lemma entry_same p p' c k a m : inst p' = inst p -> initialized p' = initialized p -> entry_ok p' c k a m <-> entry_ok p c k a m.
Proof. intros Hi Hn. unfold entry_ok. by setoid_rewrite (allowed_same p p' c k a m _ Hi Hn). Qed.

(** ** Installing stubs *)

Definition entries_ok (l : list Z) (p : vm) : Prop :=
  forall c k a m, c ∈ classes p -> class_methods c !! k = Some a -> a ∈ l -> methods (runtime p) !! a = Some m -> entry_ok p c k a m.

Lemma entries_ok_app l l' p p' : entries_ok l p -> touches l' p p' -> entries_ok l' p' -> entries_ok (l ++ l') p'.
Proof.
  intros H1 [Hi Hc Hn Hs Ho] H2 c k a m Hcl Ha Hin Hm. destruct (decide (a ∈ l')) as [Hl'|Hl']; [by apply (H2 c k a m)|].
  apply elem_of_app in Hin as [Hin|?]; [|done]. apply (entry_same p p'); [done..|]. rewrite Hc in Hcl. rewrite Ho in Hm by done. by apply (H1 c k a m).
Qed.

Record ready (cl : list Z) (p : vm) : Prop := {
  rd_classes : classes p = cl;
  rd_layout : layout p;
  rd_entry_exit : entry_exit_stubs_installed_ (inst p) = false;
  rd_forced : forced_interpret_only_ (inst p) = false
}.
Lemma ready_touches cl l p p' : ready cl p -> touches l p p' -> ready cl p'.
Proof. intros [R0 R1 R2 R3] [Hi Hc _ Hs _]. split; [congruence|by eapply layout_same|by rewrite Hi..]. Qed.

Lemma for_each_touches cl f (names : Z -> list Z) l :
  (forall x p, x ∈ l -> ready cl p -> exists p', f x p = Done p' /\ touches (names x) p p' /\ entries_ok (names x) p') ->
  forall p, ready cl p -> exists p', for_each f l p = Done p' /\ touches (l ≫= names) p p' /\ entries_ok (l ≫= names) p'.
Proof.
  induction l as [|x l IH]; intros Hf p Hr.
  - exists p. split; [done|]. split; [apply touches_refl|]. intros c k a m _ _ Hin. by apply elem_of_nil in Hin.
  - destruct (Hf x p) as (p1 & E1 & T1 & K1); [by left|done|]. pose proof (ready_touches _ _ _ _ Hr T1) as Hr1.
    destruct (IH) with (p := p1) as (p2 & E2 & T2 & K2); [|done|].
    { intros y q Hy. apply Hf. by right. }
    exists p2. cbn [for_each]. rewrite E1. cbn [mbind cres_bind]. split; [done|]. rewrite bind_cons.
    split; [by eapply touches_trans|by eapply entries_ok_app].
Qed.

(** A method has one slot. *)
Lemma slot_unique p c k c' k' a : layout p -> c ∈ classes p -> c' ∈ classes p -> class_methods c !! k = Some a -> class_methods c' !! k' = Some a ->
  c' = c /\ k' = k.
Proof.
  intros Hl Hc Hc' Ha Ha'. destruct (ly_slots _ Hl c k a Hc Ha) as (m & Hm & Hok). destruct (ly_slots _ Hl c' k' a Hc' Ha') as (m' & Hm' & Hok').
  assert (c' = c) as -> by (pose proof (so_class _ _ _ Hok); pose proof (so_class _ _ _ Hok'); congruence).
  split; [done|]. by eapply NoDup_lookup; [by eapply ly_distinct|..].
Qed.

(** One method is changed to code that is in the table. *)
Lemma update_slot cl p c k a m q : ready cl p -> c ∈ cl -> class_methods c !! k = Some a -> methods (runtime p) !! a = Some m ->
  (stubbed m = true -> code_allowed p c k a m q) ->
  exists p', UpdateEntrypoints a q p = Done p' /\ touches [a] p p' /\ entries_ok [a] p' /\ methods (runtime p') !! a = Some (updated q (inst p) m).
Proof.
  intros Hr Hc Ha Hm Hq. destruct Hr as [<- Hl He Hf]. destruct (slot_target p c k a m Hl Hc Ha Hm) as [_ Hres].
  rewrite (update_entrypoints a q p m Hm Hres). eexists. split; [done|]. split; [by apply touches_set|]. split; [|apply lookup_insert_eq].
  intros c' k' a' m' Hc' Ha' ->%list_elem_of_singleton Hm'. cbn in Hc'. destruct (slot_unique p c k c' k' a Hl Hc Hc' Ha Ha') as [-> ->].
  cbn in Hm'. rewrite lookup_insert_eq in Hm'. injection Hm' as <-. intros Hs. by apply (updated_ok p c k a m q Hf (Hq Hs)).
Qed.

Lemma stub_code_allowed p c k a m : layout p -> c ∈ classes p -> entry_exit_stubs_installed_ (inst p) = false ->
  forced_interpret_only_ (inst p) = false -> class_methods c !! k = Some a -> methods (runtime p) !! a = Some m -> stubbed m = true ->
  exists q, stub_code a m p = Done q /\ code_allowed p c k a m q.
Proof.
  intros Hl Hc He Hf Ha Hm Hs. unfold stubbed in Hs. apply andb_true_iff in Hs as [[Hab%negb_true_iff Hpr%negb_true_iff]%andb_true_iff _].
  unfold stub_code, code_allowed. rewrite He, Hf, (slot_oat p c k a m Hl Hc Ha Hm Hab Hpr). cbn [negb andb].
  assert (bool_decide (declaring_class_ m ∈ initialized p) || negb (IsStatic m) || IsConstructor m = negb (waiting m p)) as ->.
  { unfold waiting. by destruct (bool_decide _), (IsStatic m), (IsConstructor m). }
  destruct (interpreter_stubs_installed_ (inst p)), (IsDeoptimized a p), (IsNative m), (waiting m p); cbn [orb negb andb]; eexists; (split; [done|]); auto.
Qed.

Lemma install_method cl c p a : c ∈ cl -> a ∈ class_methods c -> ready cl p ->
  exists p', InstallStubsForMethod a p = Done p' /\ touches [a] p p' /\ entries_ok [a] p'.
Proof.
  intros Hc Ha Hr. apply list_elem_of_lookup in Ha as [k Ha]. pose proof Hr as [Hcl Hl He Hf]. rewrite <- Hcl in Hc.
  destruct (ly_slots _ Hl c k a Hc Ha) as (m & Hm & Hok). destruct (slot_target p c k a m Hl Hc Ha Hm) as [Ht Hres].
  unfold InstallStubsForMethod. rewrite Ht. cbn [mbind cres_bind]. rewrite (get_method_ok _ _ _ Hm). cbn [mbind cres_bind].
  assert (stubbed m = false -> touches [a] p p /\ entries_ok [a] p) as Hskip.
  { intros Hs. split; [apply touches_refl|]. intros c' k' a' m' _ _ ->%list_elem_of_singleton Hm'. rewrite Hm in Hm'. injection Hm' as <-.
    intros Hs'. congruence. }
  unfold stubbed in Hskip. destruct (IsAbstract m || IsProxyMethod m false) eqn:Hap.
  { exists p. split; [done|]. apply Hskip. apply orb_true_iff in Hap as [->| ->]; [done|]. by rewrite andb_false_r. }
  destruct (IsConstructor m && _) eqn:Hcp; [exists p; split; [done|]; apply Hskip; apply andb_false_r|].
  assert (stubbed m = true) as Hs. { unfold stubbed. rewrite Hcp. apply orb_false_iff in Hap as [-> ->]. done. }
  destruct (stub_code_allowed p c k a m) as (q & -> & Hq); [done..|]. cbn [mbind cres_bind].
  rewrite Hcl in Hc. destruct (update_slot cl p c k a m q Hr Hc Ha Hm (fun _ => Hq)) as (p' & E & T & K & _). by exists p'.
Qed.

Lemma singletons (l : list Z) : l ≫= (fun a => [a]) = l.
Proof. induction l as [|a l IH]; [done|]. rewrite bind_cons. cbn. by rewrite IH. Qed.

Lemma install_class cl c p : c ∈ cl -> ready cl p ->
  exists p', InstallStubsForClass c p = Done p' /\ touches (class_methods c) p p' /\ entries_ok (class_methods c) p'.
Proof.
  intros Hc Hr. destruct (for_each_touches cl InstallStubsForMethod (fun a => [a]) (class_methods c)) with (p := p) as (p' & E & T & K); [|done|].
  - intros a q Ha Hq. by apply (install_method cl c).
  - rewrite singletons in T, K. by exists p'.
Qed.

(** All methods of all classes. *)
Lemma install_all cl p : ready cl p -> exists p', for_each InstallStubsForClass cl p = Done p' /\
  touches (cl ≫= class_methods) p p' /\ table p'.
Proof.
  intros Hr. destruct (for_each_touches cl InstallStubsForClass class_methods cl) with (p := p) as (p' & E & T & K); [|done|].
  - intros c q Hc Hq. by apply (install_class cl).
  - exists p'. split; [done|]. split; [done|]. intros c k a m Hc Ha Hm. apply (K c k a m); try done.
    apply list_elem_of_bind. exists c. split; [by eapply list_elem_of_lookup_2|]. by rewrite <- (rd_classes _ _ Hr), <- (tc_classes _ _ _ T).
Qed.

(** ** Levels *)

(** The table looks at the deoptimized methods and at one flag. *)
Lemma table_inst p i : interpreter_stubs_installed_ i = interpreter_stubs_installed_ (inst p) ->
  deoptimized_methods_ i = deoptimized_methods_ (inst p) -> table p -> table (set_inst i p).
Proof.
  intros H1 H2 Ht c k a m Hc Ha Hm Hs. destruct (Ht c k a m Hc Ha Hm Hs) as [Hq He]. split; [|done].
  unfold code_allowed, IsDeoptimized, FindDeoptimizedMethod in *. cbn [set_inst inst]. by rewrite H1, H2.
Qed.

Lemma deoptimized_touches l p p' : touches l p p' ->
  Forall (fun e => member (classes p) e.2 /\ exists m, methods (runtime p) !! e.2 = Some m /\ can_deoptimize m = true) (deoptimized_methods_ (inst p)) ->
  Forall (fun e => member (classes p') e.2 /\ exists m, methods (runtime p') !! e.2 = Some m /\ can_deoptimize m = true) (deoptimized_methods_ (inst p')).
Proof.
  intros [-> -> _ Hs _] Hd. eapply Forall_impl; [exact Hd|]. intros e (Hm & m & He & Hcan). split; [done|].
  specialize (Hs e.2). rewrite He in Hs. destruct Hs as (i & j & q & E). eexists. split; [exact E|done].
Qed.

Lemma configure_inv p r : code_inv p -> exists p', ConfigureStubs false r p = Done p' /\ code_inv p' /\
  interpreter_stubs_installed_ (inst p') = r /\ deoptimized_methods_ (inst p') = deoptimized_methods_ (inst p) /\
  deoptimization_enabled_ (inst p') = deoptimization_enabled_ (inst p) /\ classes p' = classes p.
Proof.
  intros [Hl [F1 F2 F3 F4 F5 F6] Hd Ht]. unfold ConfigureStubs. rewrite F2, orb_false_r.
  set (i := set_interpret_only r false (inst p)). cbn zeta. cbn [inst set_inst classes].
  assert (current_level i = if interpreter_stubs_installed_ (inst p) then 2 else 0) as ->.
  { unfold current_level. cbn. by rewrite F1. }
  assert (forall p1, touches (classes p ≫= class_methods) (set_inst (set_stubs false r i) p) p1 -> table p1 -> code_inv
    (set_inst (set_installed (r || negb (IsDeoptimizedMethodsEmpty (inst p))) (inst p1)) p1)) as Hnew.
  { intros p1 T K. split.
    - eapply (layout_same p); [done|exact (tc_methods _ _ _ T)|exact (tc_classes _ _ _ T)].
    - cbn [set_inst inst]. rewrite (tc_inst _ _ _ T). split; try done.
    - exact (deoptimized_touches _ _ _ T Hd).
    - by apply table_inst. }
  assert (r = interpreter_stubs_installed_ (inst p) -> code_inv (set_inst i p)) as Hsame.
  { intros Hr. split; [by destruct Hl|by split|done|by apply table_inst]. }
  destruct (interpreter_stubs_installed_ (inst p)) eqn:Hi, r; cbn [Z.eqb Z.ltb Pos.eqb Z.compare Pos.compare Pos.compare_cont].
  - exists (set_inst i p). split; [done|]. split; [by apply Hsame|]. by split_and!.
  - destruct (install_all (classes p) (set_inst (set_stubs false false i) (set_inst i p))) as (p1 & E1 & T & K); [split; [done|by destruct Hl|done..]|].
    rewrite E1. cbn [mbind cres_bind]. eexists. split; [done|]. specialize (Hnew p1 T K). rewrite (tc_inst _ _ _ T) in *. cbn [orb] in Hnew.
    change (IsDeoptimizedMethodsEmpty (inst (set_inst (set_stubs false false i) (set_inst i p)))) with (IsDeoptimizedMethodsEmpty (inst p)).
    destruct (IsDeoptimizedMethodsEmpty (inst p)) eqn:Hem.
    + split; [done|]. cbn. split_and!; try done. exact (tc_classes _ _ _ T).
    + cbn [negb] in Hnew. assert (set_inst (set_installed true (inst (set_inst (set_stubs false false i) (set_inst i p)))) p1 = p1) as Hp1.
      { destruct p1 as [i1 s1 c1 n1]. pose proof (tc_inst _ _ _ T) as Hi1. cbn in Hi1. subst i1. unfold set_inst. cbn. f_equal.
        unfold set_installed, set_stubs, i, set_interpret_only. cbn. by rewrite F4. }
      rewrite Hp1 in Hnew. split; [done|]. rewrite (tc_inst _ _ _ T). split_and!; try done. exact (tc_classes _ _ _ T).
  - destruct (install_all (classes p) (set_inst (set_stubs false true i) (set_inst i p))) as (p1 & E1 & T & K); [split; [done|by destruct Hl|done..]|].
    cbn [entry_exit_stubs_installed_ i set_interpret_only] in *. rewrite F1.
    rewrite E1. cbn [mbind cres_bind]. eexists. split; [done|]. specialize (Hnew p1 T K). rewrite (tc_inst _ _ _ T) in *. cbn [orb] in Hnew.
    split; [done|]. split_and!; try done. exact (tc_classes _ _ _ T).
  - exists (set_inst i p). split; [done|]. split; [by apply Hsame|]. by split_and!.
Qed.

(** ** Single methods *)

Lemma deoptimized_spec a p : IsDeoptimized a p = true <-> (IdentityHashCode a, a) ∈ deoptimized_methods_ (inst p).
Proof.
  unfold IsDeoptimized, FindDeoptimizedMethod. rewrite existsb_exists. split.
  - intros ([h x] & He & [Eh%Z.eqb_eq Ex%Z.eqb_eq]%andb_true_iff). cbn in *. subst. by apply list_elem_of_In.
  - intros He. eexists. split; [by apply list_elem_of_In|]. cbn. by rewrite !Z.eqb_refl.
Qed.

(** The table after a change of one method and of the deoptimized methods. *)
Lemma table_one p p' a i : table p -> interpreter_stubs_installed_ i = interpreter_stubs_installed_ (inst p) ->
  (forall x, x <> a -> IsDeoptimized x (set_inst i p) = IsDeoptimized x p) -> touches [a] (set_inst i p) p' -> entries_ok [a] p' -> table p'.
Proof.
  intros Ht Hi Hx T K c k x m Hc Hk Hm. destruct (decide (x = a)) as [->|Hne].
  - apply (K c k a m); try done. by apply list_elem_of_singleton.
  - rewrite (tc_others _ _ _ T) in Hm by (by rewrite list_elem_of_singleton). rewrite (tc_classes _ _ _ T) in Hc.
    apply (entry_same (set_inst i p) p'); [apply T..|]. intros Hs. destruct (Ht c k x m Hc Hk Hm Hs) as [Hq He]. split; [|done].
    unfold code_allowed in *. rewrite (Hx x Hne). cbn [inst set_inst]. by rewrite Hi.
Qed.

Lemma add_deoptimized a p x : x <> a ->
  IsDeoptimized x (set_inst (set_deoptimized (multimap_insert (IdentityHashCode a, a) (deoptimized_methods_ (inst p))) (inst p)) p) = IsDeoptimized x p.
Proof.
  intros Hne. apply Bool.eq_true_iff_eq. rewrite !deoptimized_spec. cbn. rewrite (multimap_insert_perm _ _), elem_of_cons. split; [|tauto].
  intros [[= _ ->]|?]; done.
Qed.

Lemma member_slot cl a : member cl a -> exists c k, c ∈ cl /\ class_methods c !! k = Some a.
Proof. intros (c & Hc & Ha). apply list_elem_of_lookup in Ha as [k Ha]. by exists c, k. Qed.

Lemma can_stub m : can_deoptimize m = true -> IsNative m = false /\ IsAbstract m = false /\ IsProxyMethod m false = false.
Proof. unfold can_deoptimize. rewrite !andb_true_iff, !negb_true_iff. tauto. Qed.

Lemma deoptimize_inv p p' a : code_inv p -> member (classes p) a -> Deoptimize a p = Done p' -> code_inv p'.
Proof.
  intros [Hl [F1 F2 F3 F4 F5 F6] Hd Ht] Ha E. unfold Deoptimize in E. apply bind_Done in E as (m & Hm & E).
  unfold get_method in Hm. destruct (methods (runtime p) !! a) as [m'|] eqn:Hma; [|done]. injection Hm as ->.
  destruct (can_deoptimize m) eqn:Hcan; [|done]. cbn [check mbind cres_bind] in E. unfold AddDeoptimizedMethod in E.
  destruct (FindDeoptimizedMethod a (inst p)) eqn:Hfind; [done|]. cbn [check mbind cres_bind] in E.
  set (l := multimap_insert (IdentityHashCode a, a) (deoptimized_methods_ (inst p))) in *.
  assert (l ≡ₚ (IdentityHashCode a, a) :: deoptimized_methods_ (inst p)) as Hperm by apply multimap_insert_perm.
  assert (IsDeoptimizedMethodsEmpty (set_deoptimized l (inst p)) = false) as Hem.
  { unfold IsDeoptimizedMethodsEmpty. cbn. destruct l; [|done]. by apply Permutation_nil_cons in Hperm. }
  assert (NoDup l.*2 /\ Forall (fun e => e.1 = IdentityHashCode e.2) l) as [Hnd Hhash].
  { rewrite Hperm. split; [|by constructor]. apply NoDup_cons. split; [|done]. intros Hin. apply list_elem_of_fmap in Hin as ([h x] & Ex & He).
    cbn in Ex. subst x. rewrite Forall_forall in F6. specialize (F6 _ He). cbn in F6. subst h.
    change (FindDeoptimizedMethod a (inst p)) with (IsDeoptimized a p) in Hfind. apply deoptimized_spec in He. congruence. }
  assert (Forall (fun e => member (classes p) e.2 /\ exists m, methods (runtime p) !! e.2 = Some m /\ can_deoptimize m = true) l) as Hd'.
  { rewrite Hperm. constructor; [|done]. split; [done|]. by exists m. }
  cbn [interpreter_stubs_installed_ set_deoptimized] in E. destruct (interpreter_stubs_installed_ (inst p)) eqn:Hi; cbn [negb] in E.
  - injection E as <-. split; [by destruct Hl|..]; try done.
    + split; cbn [inst set_inst set_deoptimized interpret_only_ interpreter_stubs_installed_ instrumentation_stubs_installed_]; rewrite ?Hi; done.
    + eapply (table_one p _ a); [done| | |apply touches_refl|].
      * done.
      * intros x Hne. by apply add_deoptimized.
      * intros c k x mx Hc Hk ->%list_elem_of_singleton Hmx Hs. destruct (Ht c k a mx Hc Hk Hmx Hs) as [Hq He]. split; [|done].
        unfold code_allowed in *. cbn [inst set_inst set_deoptimized interpreter_stubs_installed_]. rewrite Hi in *. done.
  - destruct (member_slot _ _ Ha) as (c & k & Hc & Hk). destruct (can_stub m Hcan) as (Hn & Hab & Hpr).
    destruct (update_slot (classes p) (set_inst (set_deoptimized l (inst p)) p) c k a m GetQuickInstrumentationEntryPoint)
      as (p1 & E1 & T & K & _); [split; [done|by destruct Hl|done..]|done..| |].
    { intros _. unfold code_allowed. rewrite Hn. cbn [inst set_inst set_deoptimized interpreter_stubs_installed_]. rewrite Hi.
      assert (IsDeoptimized a (set_inst (set_deoptimized l (inst p)) p) = true) as ->; [|by right].
      apply deoptimized_spec. cbn. rewrite Hperm. by left. }
    rewrite E1 in E. injection E as <-. split.
    + eapply (layout_same p); [done|exact (tc_methods _ _ _ T)|exact (tc_classes _ _ _ T)].
    + cbn [set_inst inst]. rewrite (tc_inst _ _ _ T).
      split; try done; [by transitivity false|]. change (true = interpreter_stubs_installed_ (inst p) || negb (IsDeoptimizedMethodsEmpty (set_deoptimized l (inst p)))).
      by rewrite Hi, Hem.
    + exact (deoptimized_touches _ _ _ T Hd').
    + apply table_inst; [done..|]. eapply (table_one p p1 a); [done| | |exact T|done]; [done|]. intros x Hne. by apply add_deoptimized.
Qed.

Lemma erase_found a l : (IdentityHashCode a, a) ∈ l -> exists l', erase_method a l = Some l'.
Proof.
  induction l as [|[h x] l IH]; intros Hin; [by apply elem_of_nil in Hin|]. cbn [erase_method fst snd].
  destruct ((h =? IdentityHashCode a) && (x =? a)) eqn:E; [by eexists|]. apply elem_of_cons in Hin as [Heq|Hin].
  - injection Heq as <- <-. by rewrite !Z.eqb_refl in E.
  - destruct (IH Hin) as [l' ->]. by eexists.
Qed.

Lemma remove_deoptimized a p l x : erase_method a (deoptimized_methods_ (inst p)) = Some l -> x <> a ->
  IsDeoptimized x (set_inst (set_deoptimized l (inst p)) p) = IsDeoptimized x p.
Proof.
  intros El Hne. apply Bool.eq_true_iff_eq. rewrite !deoptimized_spec, (erase_method_perm _ _ _ El), elem_of_cons. cbn. split; [tauto|].
  intros [[= _ ->]|?]; done.
Qed.

(** The code that a method gets back. *)
Lemma restored_code p c k a m : layout p -> c ∈ classes p -> class_methods c !! k = Some a -> methods (runtime p) !! a = Some m ->
  can_deoptimize m = true -> (if waiting m p then Done GetQuickResolutionTrampoline else GetQuickOatCodeFor m (runtime p)) =
    Done (if waiting m p then GetQuickResolutionTrampoline else slot_code c k (IsNative m)).
Proof.
  intros Hl Hc Hk Hm Hcan. destruct (can_stub m Hcan) as (_ & Hab & Hpr). destruct (waiting m p); [done|]. by eapply slot_oat.
Qed.

Record undeoptimized (a : Z) (p p' : vm) : Prop := {
  un_inv : code_inv p';
  un_methods : deoptimized_methods_ (inst p) ≡ₚ (IdentityHashCode a, a) :: deoptimized_methods_ (inst p');
  un_level : interpreter_stubs_installed_ (inst p') = interpreter_stubs_installed_ (inst p);
  un_enabled : deoptimization_enabled_ (inst p') = deoptimization_enabled_ (inst p)
}.

(** Without [a] the deoptimized methods are as before. *)
Lemma flags_removed i a l : flags_ok i -> deoptimized_methods_ i ≡ₚ (IdentityHashCode a, a) :: l ->
  flags_ok (if negb (interpreter_stubs_installed_ i) && IsDeoptimizedMethodsEmpty (set_deoptimized l i)
            then set_installed false (set_deoptimized l i) else set_deoptimized l i).
Proof.
  intros [F1 F2 F3 F4 F5 F6] Hp. rewrite Hp in F5, F6. rewrite fmap_cons, NoDup_cons in F5. destruct F5 as [_ F5]. apply Forall_cons in F6 as [_ F6].
  assert (IsDeoptimizedMethodsEmpty i = false) as Hem.
  { unfold IsDeoptimizedMethodsEmpty. destruct (deoptimized_methods_ i); [|done]. by apply Permutation_nil_cons in Hp. }
  rewrite Hem, orb_true_r in F4. unfold IsDeoptimizedMethodsEmpty. cbn [deoptimized_methods_ set_deoptimized].
  destruct (interpreter_stubs_installed_ i) eqn:Hi, l as [|e l]; cbn [negb andb]; split; cbn; try done; by rewrite ?F3, ?F4, ?Hi.
Qed.

Lemma waiting_inst i m p : waiting m (set_inst i p) = waiting m p.
Proof. done. Qed.

Lemma undeoptimize_inv p a : code_inv p -> IsDeoptimized a p = true -> exists p', Undeoptimize a p = Done p' /\ undeoptimized a p p'.
Proof.
  intros [Hl HF Hd Ht] Ha. apply deoptimized_spec in Ha. pose proof (proj1 (Forall_forall _ _) Hd _ Ha) as (Hmem & m & Hm & Hcan). cbn in Hmem, Hm.
  unfold Undeoptimize. rewrite (get_method_ok _ _ _ Hm). cbn [mbind cres_bind]. rewrite Hcan. cbn [check mbind cres_bind].
  unfold RemoveDeoptimizedMethod. destruct (erase_found a _ Ha) as [l El]. rewrite El. cbn [check mbind cres_bind].
  pose proof (erase_method_perm _ _ _ El) as Hperm. set (i := set_deoptimized l (inst p)). pose proof (flags_removed (inst p) a l HF Hperm) as HF'. fold i in HF'.
  assert (Forall (fun e => member (classes p) e.2 /\ exists m, methods (runtime p) !! e.2 = Some m /\ can_deoptimize m = true) l) as Hd'.
  { rewrite Hperm in Hd. by apply Forall_cons in Hd as [_ Hd]. }
  change (interpreter_stubs_installed_ i) with (interpreter_stubs_installed_ (inst p)).
  destruct (interpreter_stubs_installed_ (inst p)) eqn:Hi; cbn [negb andb] in *.
  - exists (set_inst i p). split; [done|]. split; [|done..]. split; [by destruct Hl|done..|]. intros c k x mx Hc Hk Hmx Hs.
    destruct (Ht c k x mx Hc Hk Hmx Hs) as [Hq He]. split; [|done]. unfold code_allowed in *. cbn. rewrite Hi in *. done.
  - destruct (member_slot _ _ Hmem) as (c & k & Hc & Hk). destruct (can_stub m Hcan) as (Hn & Hab & Hpr).
    pose proof (restored_code (set_inst i p) c k a m ltac:(by destruct Hl) Hc Hk Hm Hcan) as Hcode.
    set (q := if waiting m (set_inst i p) then GetQuickResolutionTrampoline else slot_code c k (IsNative m)) in Hcode.
    destruct (update_slot (classes p) (set_inst i p) c k a m q) as (p1 & E1 & T & K & _); [split; try apply HF; [done|by destruct Hl]|done..| |].
    { intros _. unfold code_allowed. rewrite Hn. change (interpreter_stubs_installed_ (inst (set_inst i p))) with (interpreter_stubs_installed_ (inst p)).
      rewrite Hi. assert (IsDeoptimized a (set_inst i p) = false) as ->; [|unfold q; by rewrite Hn].
      apply not_true_is_false. rewrite deoptimized_spec. cbn. intros Hin. pose proof (fl_distinct _ HF) as Hnd.
      rewrite Hperm, fmap_cons, NoDup_cons in Hnd. apply (proj1 Hnd). apply list_elem_of_fmap. by exists (IdentityHashCode a, a). }
    assert (table p1) as Kt.
    { eapply (table_one p p1 a i); [done|done| |done|done]. intros x Hne. by eapply remove_deoptimized. }
    fold (waiting m (set_inst i p)).
    assert ((if waiting m (set_inst i p) then UpdateEntrypoints a GetQuickResolutionTrampoline (set_inst i p)
      else quick_code ← GetQuickOatCodeFor m (runtime (set_inst i p)); UpdateEntrypoints a quick_code (set_inst i p)) = Done p1) as ->.
    { rewrite <- E1. unfold q in *. destruct (waiting m (set_inst i p)); [done|]. by rewrite Hcode. }
    cbn [mbind cres_bind]. rewrite (tc_inst _ _ _ T). eexists. split; [done|].
    assert (layout p1) as Hl1 by (eapply (layout_same p); [done|exact (tc_methods _ _ _ T)|exact (tc_classes _ _ _ T)]).
    pose proof (deoptimized_touches _ _ _ T Hd') as Hd1. cbn [inst set_inst] in *.
    destruct (IsDeoptimizedMethodsEmpty i) eqn:Hem.
    + split; try done. split; [by destruct Hl1|exact HF'| |].
      * rewrite (tc_inst _ _ _ T) in Hd1. exact Hd1.
      * apply table_inst; [by rewrite (tc_inst _ _ _ T)|by rewrite (tc_inst _ _ _ T)|done].
    + split; rewrite ?(tc_inst _ _ _ T); try done. split; [done|by rewrite (tc_inst _ _ _ T)|done|done].
Qed.

Lemma undeoptimize_all_inv fuel p : code_inv p -> (length (deoptimized_methods_ (inst p)) <= fuel)%nat ->
  exists p', undeoptimize_all fuel p = Done p' /\ code_inv p' /\ deoptimized_methods_ (inst p') = [] /\
    interpreter_stubs_installed_ (inst p') = interpreter_stubs_installed_ (inst p).
Proof.
  revert p. induction fuel as [|fuel IH]; intros p Hp Hf; cbn [undeoptimize_all]; unfold IsDeoptimizedMethodsEmpty, BeginDeoptimizedMethod;
    destruct (deoptimized_methods_ (inst p)) as [|e l] eqn:El;
    [by exists p|cbn in Hf; lia|by exists p|].
  assert (IsDeoptimized e.2 p = true) as He.
  { apply deoptimized_spec. pose proof (fl_hashes _ (ci_flags _ Hp)) as Hh. rewrite El in Hh |- *. apply Forall_cons in Hh as [Hh _].
    rewrite <- Hh. destruct e. by left. }
  destruct (undeoptimize_inv p e.2 Hp He) as (p1 & -> & [U1 U2 U3 _]). cbn [mbind cres_bind].
  rewrite El in U2. apply Permutation_length in U2. cbn [length] in *.
  destruct (IH p1 U1 ltac:(lia)) as (p2 & -> & Hp2 & Hem & Hi). exists p2. split_and!; try done. congruence.
Qed.

(** Deoptimization is turned off completely. *)
Lemma disable_inv p : code_inv p -> deoptimization_enabled_ (inst p) = true -> exists p', DisableDeoptimization p = Done p' /\ code_inv p' /\
  deoptimized_methods_ (inst p') = [] /\ interpreter_stubs_installed_ (inst p') = false /\ deoptimization_enabled_ (inst p') = false.
Proof.
  intros Hp He. unfold DisableDeoptimization. rewrite He. cbn [check mbind cres_bind].
  assert (exists p1, (if interpreter_stubs_installed_ (inst p) then UndeoptimizeEverything p else Done p) = Done p1 /\ code_inv p1 /\
    interpreter_stubs_installed_ (inst p1) = false) as (p1 & -> & Hp1 & Hi).
  { unfold UndeoptimizeEverything. destruct (interpreter_stubs_installed_ (inst p)) eqn:Hi; [|by exists p].
    cbn [check mbind cres_bind]. destruct (configure_inv p false Hp) as (p1 & E & Hp1 & Hr & _). by exists p1. }
  cbn [mbind cres_bind]. destruct (undeoptimize_all_inv _ p1 Hp1 (le_n _)) as (p2 & -> & [Hl HF Hd Ht] & Hem & Hi2). cbn [mbind cres_bind].
  eexists. split; [done|]. cbn. split; [|split_and!; [done|congruence|done]].
  split; [by destruct Hl|by destruct HF|done|by apply table_inst].
Qed.

(** ** Initialization *)

Lemma fixup_allowed p c k a m : flags_ok (inst p) -> declaring_class_ m ∈ initialized p -> stubbed m = true ->
  code_allowed p c k a m (methods_code a (fixup_code m (if has_oat_class c then oat_code c (Z.of_nat k) else 0) p) m p).
Proof.
  intros [F1 F2 F3 F4 F5 F6] Hini Hs. unfold stubbed in Hs. apply andb_true_iff in Hs as [[_ Hpr%negb_true_iff]%andb_true_iff _].
  unfold code_allowed, methods_code, fixup_code, NeedsInterpreter, waiting, slot_code. rewrite F3, F4, F1, Hpr.
  rewrite bool_decide_true by done. rewrite andb_false_r.
  set (raw := if has_oat_class c then _ else 0).
  assert (negb (IsDeoptimizedMethodsEmpty (inst p)) = false -> IsDeoptimized a p = false) as Hdeo.
  { unfold IsDeoptimizedMethodsEmpty, IsDeoptimized, FindDeoptimizedMethod. by destruct (deoptimized_methods_ (inst p)). }
  destruct (interpreter_stubs_installed_ (inst p)); cbn [orb andb negb].
  { destruct (IsNative m), (raw =? 0) eqn:Er; cbn [orb andb negb]; try done; case_match; done. }
  destruct (IsDeoptimizedMethodsEmpty (inst p)); cbn [negb orb andb].
  - rewrite Hdeo by done. destruct (IsNative m), (raw =? 0) eqn:Er; done.
  - destruct (IsDeoptimized a p), (IsNative m), (raw =? 0) eqn:Er; cbn [orb andb negb]; try done; try case_match; auto.
Qed.

Lemma update_methods_code a q p m : methods (runtime p) !! a = Some m -> UpdateMethodsCode a q p = UpdateEntrypoints a (methods_code a q m p) p.
Proof. intros Hm. unfold UpdateMethodsCode. by rewrite (get_method_ok _ _ _ Hm). Qed.

(** The methods from position [n] of class [c] on. *)
Lemma fixup_ok cl c l : c ∈ cl -> NoDup l -> forall n p, ready cl p -> flags_ok (inst p) -> c ∈ initialized p ->
  (forall j a, l !! j = Some a -> class_methods c !! (n + j)%nat = Some a) ->
  (forall k a m, a ∈ l -> class_methods c !! k = Some a -> methods (runtime p) !! a = Some m -> IsStatic m = false -> entry_ok p c k a m) ->
  exists p', fixup_methods c l (Z.of_nat n) p = Done p' /\ touches l p p' /\ entries_ok l p'.
Proof.
  intros Hc. induction l as [|a l IH]; intros Hnd n p Hr HF Hini Hat Hold.
  { exists p. split; [done|]. split; [apply touches_refl|]. intros ? ? ? ? _ _ Hin. by apply elem_of_nil in Hin. }
  apply NoDup_cons in Hnd as [Hni Hnd]. pose proof Hr as [Hcl Hl He Hf].
  assert (class_methods c !! n = Some a) as Hk by (rewrite <- (Nat.add_0_r n); by apply Hat).
  destruct (ly_slots _ Hl c n a ltac:(by rewrite Hcl) Hk) as (m & Hm & Hok).
  assert (exists p1, (if negb (IsStatic m) then Done p
           else a ← xposed_target a p; m ← get_method a (runtime p);
                UpdateMethodsCode a (fixup_code m (if has_oat_class c then oat_code c (Z.of_nat n) else 0) p) p) = Done p1 /\
    touches [a] p p1 /\ entries_ok [a] p1) as (p1 & E1 & T1 & K1).
  { destruct (IsStatic m) eqn:Hs; cbn [negb].
    - destruct (slot_target p c n a m Hl ltac:(by rewrite Hcl) Hk Hm) as [-> _]. cbn [mbind cres_bind].
      rewrite (get_method_ok _ _ _ Hm). cbn [mbind cres_bind]. rewrite (update_methods_code _ _ _ _ Hm).
      destruct (update_slot cl p c n a m) with (q := methods_code a (fixup_code m (if has_oat_class c then oat_code c (Z.of_nat n) else 0) p) m p)
        as (p1 & E & T & K & _); [done..| |by exists p1].
      intros Hst. apply fixup_allowed; [done| |done]. by rewrite (so_class _ _ _ Hok).
    - exists p. split; [done|]. split; [apply touches_refl|]. intros c' k' a' m' Hc' Hk' ->%list_elem_of_singleton Hm'.
      destruct (slot_unique p c n c' k' a Hl ltac:(by rewrite Hcl) Hc' Hk Hk') as [-> ->]. apply (Hold n a m'); try done; [by left|congruence]. }
  destruct (IH Hnd (S n) p1) as (p2 & E2 & T2 & K2).
  - by eapply ready_touches.
  - by rewrite (tc_inst _ _ _ T1).
  - by rewrite (tc_initialized _ _ _ T1).
  - intros j x Hj. rewrite <- (Hat (S j) x Hj). f_equal. lia.
  - intros k x mx Hx Hkx Hmx Hsx. rewrite (tc_others _ _ _ T1) in Hmx by (rewrite list_elem_of_singleton; congruence).
    apply (entry_same p p1); [apply T1..|]. apply (Hold k x mx); try done. by right.
  - exists p2. cbn [fixup_methods]. rewrite (get_method_ok _ _ _ Hm). cbn [mbind cres_bind]. rewrite E1. cbn [mbind cres_bind].
    rewrite <- E2. split; [f_equal; lia|]. change (a :: l) with ([a] ++ l). split; [by eapply touches_trans|by eapply entries_ok_app].
Qed.

(** Initialization changes what is allowed for the waiting methods of the class only. *)
Lemma entry_initialized p c c' k a m : entry_ok p c' k a m -> declaring_class_ m = c' -> c' <> c \/ IsStatic m = false ->
  entry_ok (set_initialized c p) c' k a m.
Proof.
  intros Hok Hd Hcase Hs. destruct (Hok Hs) as [Hq He]. split; [|done].
  assert (waiting m (set_initialized c p) = waiting m p) as Hw.
  { unfold waiting. cbn. destruct Hcase as [Hne| ->]; [|done]. f_equal. f_equal. apply bool_decide_ext. rewrite Hd. set_solver. }
  unfold code_allowed in *. rewrite Hw. exact Hq.
Qed.

Lemma initialized_inv p c : code_inv p -> c ∈ classes p -> exists p', class_initialized c p = Done p' /\ code_inv p'.
Proof.
  intros [Hl HF Hd Ht] Hc. unfold class_initialized, FixupStaticTrampolines. rewrite Hstarted, Hpath. cbn [negb orb andb].
  set (p0 := set_initialized c p). assert (layout p0) as Hl0 by (by destruct Hl).
  assert (ready (classes p) p0) as Hr by (split; [done|done|apply HF..]).
  assert (forall k a m, class_methods c !! k = Some a -> methods (runtime p0) !! a = Some m -> IsStatic m = false -> entry_ok p0 c k a m) as Hrest.
  { intros k a m Hk Hm Hs. destruct (ly_slots _ Hl c k a Hc Hk) as (m' & Hm' & Hok). cbn in Hm. rewrite Hm in Hm'. injection Hm' as <-.
    apply entry_initialized; [by apply Ht|apply Hok|by right]. }
  assert (exists p', fixup_methods c (class_direct_methods c) 0 p0 = Done p' /\ touches (class_direct_methods c) p0 p' /\ entries_ok (class_direct_methods c) p')
    as (p' & E & T & K).
  { apply (fixup_ok (classes p) c (class_direct_methods c) Hc) with (n := 0%nat); try done.
    - pose proof (ly_distinct _ Hl c Hc) as Hnd. by apply NoDup_app in Hnd as [Hnd _].
    - cbn. set_solver.
    - intros j a Hj. cbn [Nat.add]. unfold class_methods. rewrite lookup_app_l; [done|by eapply lookup_lt_Some].
    - intros k a m _. apply Hrest. }
  exists p'. split.
  { destruct (length (class_direct_methods c) =? 0)%nat eqn:Hlen; [|done]. apply Nat.eqb_eq in Hlen. destruct (class_direct_methods c); [|done]. done. }
  split.
  - eapply (layout_same p0); [done|exact (tc_methods _ _ _ T)|exact (tc_classes _ _ _ T)].
  - by rewrite (tc_inst _ _ _ T).
  - exact (deoptimized_touches _ p0 _ T Hd).
  - intros c' k a m Hc' Hk Hm. rewrite (tc_classes _ _ _ T) in Hc'. cbn in Hc'.
    destruct (decide (a ∈ class_direct_methods c)) as [Hin|Hin]; [apply (K c' k a m); try done; by rewrite (tc_classes _ _ _ T)|].
    rewrite (tc_others _ _ _ T) in Hm by done. apply (entry_same p0 p'); [apply T..|].
    destruct (ly_slots _ Hl c' k a Hc' Hk) as (m' & Hm' & Hok). cbn in Hm. rewrite Hm in Hm'. injection Hm' as <-.
    apply entry_initialized; [by apply Ht|apply Hok|]. destruct (decide (c' = c)) as [->|Hne]; [right|by left].
    apply static_direct, Hok. unfold class_methods in Hk. apply Nat.nlt_ge. intros Hlt. apply Hin.
    rewrite lookup_app_l in Hk by lia. by eapply list_elem_of_lookup_2.
Qed.

(** ** Loading *)

Lemma linked_allowed p c k a m : flags_ok (inst p) -> declaring_class_ m ∉ initialized p -> IsDeoptimized a p = false -> stubbed m = true ->
  code_allowed p c k a m (methods_code a (linked_code (linked_oat c (Z.of_nat k)) m p) m p).
Proof.
  intros [F1 F2 F3 F4 F5 F6] Hini Hdeo Hs. unfold stubbed in Hs. apply andb_true_iff in Hs as [[_ Hpr%negb_true_iff]%andb_true_iff _].
  unfold code_allowed, methods_code, linked_code, linked_oat, NeedsInterpreter, waiting, slot_code. rewrite F3, F4, F1, Hpr, Hdeo, Hstarted, Hpath.
  rewrite bool_decide_false by done. cbn [negb andb]. rewrite andb_true_r, orb_false_r.
  set (raw := if has_oat_class c then _ else 0).
  destruct (interpreter_stubs_installed_ (inst p)), (IsDeoptimizedMethodsEmpty (inst p)), (IsStatic m && negb (IsConstructor m)), (IsNative m), (raw =? 0);
    cbn [orb andb negb]; try done; by case_match.
Qed.

(** What the dex file and the verifier promise of a class. *)
Record new_layout (c : Z) (ms : list ArtMethod) : Prop := {
  nl_direct : forall k m, ms !! k = Some m -> (k < length (class_direct_methods c))%nat -> IsDirect m true = true /\ method_index_ m = Z.of_nat k;
  nl_virtual : forall k m, ms !! k = Some m -> (length (class_direct_methods c) <= k)%nat -> IsDirect m true = false;
  nl_dex : forall j k mj mk, ms !! j = Some mj -> ms !! k = Some mk -> (length (class_direct_methods c) <= j)%nat ->
    (length (class_direct_methods c) <= k)%nat -> dex_method_index_ mj = dex_method_index_ mk -> j = k
}.

Lemma linked_dex c a index m v : dex_method_index_ (linked c a index m v) = dex_method_index_ m.
Proof. destruct (linked_entries c a index m v) as (i & j & q & ->). done. Qed.

Lemma linked_entry p c k a m : flags_ok (inst p) -> declaring_class_ m = c -> c ∉ initialized p -> IsDeoptimized a p = false ->
  entry_ok p c k a (linked c a (Z.of_nat k) m p).
Proof.
  intros HF Hd Hini Hdeo Hs. assert (stubbed m = true) as Hsm.
  { destruct (linked_entries c a (Z.of_nat k) m p) as (i & j & q & E). by rewrite E in Hs. }
  revert Hs. unfold linked. destruct (IsAbstract m) eqn:Hab; [unfold stubbed in Hsm; by rewrite Hab in Hsm|].
  assert (code_allowed p c k a m (methods_code a (linked_code (linked_oat c (Z.of_nat k)) m p) m p)) as Hq by (apply linked_allowed; try done; congruence).
  apply updated_ok; [apply HF|]. by destruct (IsNative m).
Qed.

(** What the load of a class changes. *)
Record loaded (p : vm) (c : Z) (ms : list ArtMethod) (p' : vm) : Prop := {
  ld_classes : classes p' = c :: classes p;
  ld_inst : inst p' = inst p;
  ld_initialized : initialized p' = initialized p;
  ld_slots : forall k a, class_methods c !! k = Some a -> exists m, ms !! k = Some m /\ unmarked m /\ declaring_class_ m = c /\
    methods (runtime p) !! a = None /\ methods (runtime p') !! a = Some (linked c a (Z.of_nat k) m p);
  ld_others : forall c' k a, c' ∈ classes p -> class_methods c' !! k = Some a -> methods (runtime p') !! a = methods (runtime p) !! a
}.

Lemma load_class_loaded p p' c ms : good (classes p) p -> layout p -> new_class p c ms -> load_class c ms p = Done p' -> loaded p c ms p'.
Proof.
  intros Hg Hl Hnc E.
  eapply load_class_effect in E as (Hg' & Hi & Hini & Hold & Hnew); [|done..].
  assert (forall k a, class_methods c !! k = Some a -> exists m, ms !! k = Some m /\ unmarked m /\ declaring_class_ m = c /\
    methods (runtime p) !! a = None /\ methods (runtime p') !! a = Some (linked c a (Z.of_nat k) m p)) as Hslot.
  { intros k a Hk. destruct (lookup_lt_is_Some_2 ms k) as [m Hm]; [rewrite (nc_methods _ _ _ Hnc); by eapply lookup_lt_Some|].
    exists m. split; [done|]. destruct (Hnew k a m Hk Hm) as (Hu & Hdc & Hmm). split_and!; try done.
    pose proof (Forall_lookup_1 _ _ k (a, m) (nc_members _ _ _ Hnc)) as Hf. apply Hf. by apply lookup_zip_Some. }
  split; try done; [apply (g_classes _ _ Hg')|].
  intros c' k a Hc' Hk. destruct (ly_slots _ Hl c' k a Hc' Hk) as (m & Hm & _). apply Hold. intros Hin.
  apply list_elem_of_lookup in Hin as [j Hj]. destruct (Hslot j a Hj) as (m' & _ & _ & _ & Hnone & _). congruence.
Qed.

Lemma virtual_slot c j a : class_virtual_methods c !! j = Some a -> class_methods c !! (length (class_direct_methods c) + j)%nat = Some a.
Proof. intros Ha. unfold class_methods. rewrite lookup_app_r by lia. by rewrite Nat.add_comm, Nat.add_sub. Qed.

Lemma load_layout p p' c ms : layout p -> new_class p c ms -> new_layout c ms -> loaded p c ms p' -> layout p'.
Proof.
  intros [L1 L2 L3] Hnc [N1 N2 N3] [Hcl _ _ Hslot Hold]. split; rewrite Hcl.
  - intros c' k a Hc' Hk. apply elem_of_cons in Hc' as [->|Hc']; [|rewrite (Hold c' k a Hc' Hk); by apply L1].
    destruct (Hslot k a Hk) as (m & Hm & Hu & Hd & _ & Hmm). eexists. split; [exact Hmm|].
    destruct (linked_entries c a (Z.of_nat k) m p) as (i & j & q & ->). split; [done|by destruct Hu|by apply (N1 k m)|by apply (N2 k m)].
  - intros c' j k a b ma mb Hc' Ha%virtual_slot Hb%virtual_slot Hma Hmb Hdex. apply elem_of_cons in Hc' as [->|Hc'].
    + destruct (Hslot _ _ Ha) as (ma0 & Hma0 & _ & _ & _ & Ea). destruct (Hslot _ _ Hb) as (mb0 & Hmb0 & _ & _ & _ & Eb).
      rewrite Ea in Hma. rewrite Eb in Hmb. injection Hma as <-. injection Hmb as <-. rewrite !linked_dex in Hdex.
      pose proof (N3 _ _ _ _ Hma0 Hmb0 ltac:(lia) ltac:(lia) Hdex). lia.
    + rewrite (Hold c' _ a Hc' Ha) in Hma. rewrite (Hold c' _ b Hc' Hb) in Hmb.
      unfold class_methods in Ha, Hb. rewrite lookup_app_r, Nat.add_comm, Nat.add_sub in Ha, Hb by lia. by eapply (L2 c' j k a b).
  - intros c' Hc'. apply elem_of_cons in Hc' as [->|Hc']; [apply (nc_distinct _ _ _ Hnc)|by apply L3].
Qed.

Lemma load_inv p p' c ms : good (classes p) p -> code_inv p -> new_class p c ms -> new_layout c ms -> load_class c ms p = Done p' -> code_inv p'.
Proof.
  intros Hg [Hl HF Hd Ht] Hnc Hnl E. pose proof (load_class_loaded _ _ _ _ Hg Hl Hnc E) as Hld.
  pose proof (load_layout _ _ _ _ Hl Hnc Hnl Hld) as Hl'. destruct Hld as [Hcl Hi Hini Hslot Hold].
  assert (forall a, methods (runtime p) !! a = None -> IsDeoptimized a p = false) as Hfresh.
  { intros a Hn. apply not_true_is_false. intros He%deoptimized_spec. pose proof (proj1 (Forall_forall _ _) Hd _ He) as (_ & m & Hm & _). cbn in Hm. congruence. }
  split; rewrite ?Hi; [done|done|..].
  - rewrite Hcl. eapply Forall_impl; [exact Hd|]. intros e (Hmem & m & Hm & Hcan). pose proof Hmem as (c' & Hc' & Ha). split; [exists c'; split; [by right|done]|].
    exists m. split; [|done]. apply list_elem_of_lookup in Ha as [k Hk]. by rewrite (Hold c' k e.2 Hc' Hk).
  - intros c' k a m Hc' Hk Hm. apply (entry_same p p'); [done..|]. rewrite Hcl in Hc'. apply elem_of_cons in Hc' as [->|Hc'].
    + destruct (Hslot k a Hk) as (m' & Hm' & _ & Hdc & Hnone & Hmm). rewrite Hmm in Hm. injection Hm as <-. apply linked_entry; auto. apply (nc_initialized _ _ _ Hnc).
    + rewrite (Hold c' k a Hc' Hk) in Hm. by apply (Ht c' k a m).
Qed.

(** ** All events *)

Definition event_layout (e : event) : Prop := match e with LoadClass c ms => new_layout c ms | _ => True end.

Lemma undeoptimize_found a p p' : Undeoptimize a p = Done p' -> IsDeoptimized a p = true.
Proof.
  unfold Undeoptimize, RemoveDeoptimizedMethod. intros E. apply bind_Done in E as (m & _ & E). apply bind_Done in E as (? & _ & E).
  destruct (erase_method a _) as [l|] eqn:El; [|done]. apply deoptimized_spec. rewrite (erase_method_perm _ _ _ El). by left.
Qed.

Lemma enabled_inv b p : code_inv p -> code_inv (set_inst (set_enabled b (inst p)) p).
Proof. intros [Hl HF Hd Ht]. split; [by destruct Hl|by destruct HF|done|by apply table_inst]. Qed.

Lemma event_inv e p p' : good (classes p) p -> code_inv p -> event_ok p e -> event_layout e -> is_hook_event e = false ->
  run_event e p = Done p' -> code_inv p'.
Proof.
  intros Hg Hp Hok Hly Hh E.
  assert (forall r, ConfigureStubs false r p = Done p' -> code_inv p') as Hconf.
  { intros r Ec. destruct (configure_inv p r Hp) as (p1 & E1 & Hp1 & _). congruence. }
  destruct e as [r add|c ms|c|a|a| | | | | |]; cbn [run_event event_ok event_layout] in *; try done.
  - by eapply load_inv.
  - destruct (initialized_inv p c Hp Hok) as (p1 & E1 & Hp1). congruence.
  - by eapply deoptimize_inv.
  - destruct (undeoptimize_inv p a Hp (undeoptimize_found _ _ _ E)) as (p1 & E1 & [Hp1 _ _ _]). congruence.
  - apply bind_Done in E as (? & _ & E). apply bind_Done in E as (? & _ & [= <-]). by apply enabled_inv.
  - pose proof E as E0. apply bind_Done in E0 as (? & He & _). destruct (deoptimization_enabled_ (inst p)) eqn:Hen; [|done].
    destruct (disable_inv p Hp Hen) as (p1 & E1 & Hp1 & _). congruence.
  - apply bind_Done in E as (? & _ & E). by eapply Hconf.
  - apply bind_Done in E as (? & _ & E). by eapply Hconf.
  - by eapply Hconf.
  - by eapply Hconf.
Qed.

(** The state without hooks. *)
Lemma unhook_unmarked s a m : hooks_wf s -> unhook s !! a = Some m -> unmarked m.
Proof.
  intros Hwf Ha. destruct (xposed_target_ok a (mkVm new_Instrumentation s [] ∅) m Hwf Ha) as (t & mt & _ & _ & Hh & -> & _).
  split; [by rewrite hooked_bit, clear_original_bit, <- hooked_bit, Hh by lia|]. rewrite original_bit, clear_original_bit by lia. apply andb_false_r.
Qed.

Lemma plain_hooks v : hooks_wf (runtime v) -> hooks_wf (runtime (plain v)) /\ unhook (runtime (plain v)) = unhook (runtime v).
Proof.
  intros Hwf. apply no_hooks_wf. intros a m Ha. by apply (unhook_unmarked (runtime v) a m).
Qed.

Lemma plain_good v : good (classes v) v -> good (classes v) (plain v).
Proof.
  intros [G1 G2 G3 (rm & Hrm & Ho) G5]. destruct (plain_hooks v G2) as [Hwf Hu]. constructor; try done.
  - intros c a Hc Ha. rewrite Hu. by apply G3.
  - assert (exists m, unhook (runtime v) !! GetResolutionMethod = Some m) as [m Hm].
    { rewrite lookup_unhook, Hrm. cbn. unfold unhook_method. rewrite Ho. destruct (IsXposedHookedMethod rm) eqn:Hh; [|by eexists].
      destruct (wf_hooked _ G2 _ _ Hrm Hh) as (b & bm & Hk). destruct (hk_info _ _ _ _ Hk) as (i & -> & <- & _). cbn.
      rewrite (hk_original _ _ _ _ Hk). by eexists. }
    exists m. split; [done|]. by destruct (unhook_unmarked _ _ _ G2 Hm).
  - eapply Forall_impl; [exact G5|]. intros e (Hmem & m & Hm & Hu1 & Hu2). split; [done|]. exists m. split_and!; try done. cbn. by apply unmarked_unhook.
Qed.

Lemma unhook_none s a : methods s !! a = None -> unhook s !! a = None.
Proof. intros Ha. by rewrite lookup_unhook, Ha. Qed.

Lemma event_ok_plain v e : is_hook_event e = false -> event_ok v e -> event_ok (plain v) e.
Proof.
  destruct e; try done. intros _ [N1 N2 N3 N4]. split; try done. eapply Forall_impl; [exact N3|].
  intros x []. split; try done. by apply unhook_none.
Qed.

Lemma steps_code es v v' : steps es v v' -> Forall event_layout es -> good (classes v) v -> code_inv (plain v) -> code_inv (plain v').
Proof.
  induction 1 as [v|e es v v1 v' Hok E _ IH]; intros Hly Hg Hp; [done|]. apply Forall_cons in Hly as [Hl Hly].
  destruct (event_step Hresolution e v v1 Hcompiler Hg Hok E) as [Hg1 Hs]. apply IH; [done..|]. destruct (is_hook_event e) eqn:Hh; [by rewrite Hs|].
  eapply (event_inv e (plain v)); [exact (plain_good v Hg)|done|by apply event_ok_plain|done..].
Qed.

(** A virtual machine before its first class. *)
Record booted (v : vm) : Prop := {
  bt_inst : inst v = new_Instrumentation;
  bt_hooks : no_hooks (runtime v);
  bt_resolution : exists rm, methods (runtime v) !! GetResolutionMethod = Some rm;
  bt_classes : classes v = [];
  bt_initialized : initialized v = ∅
}.

Lemma booted_good v : booted v -> good (classes v) v.
Proof.
  intros [B1 B2 (rm & B3) B4 B5]. constructor; [done|by apply no_hooks_wf|by rewrite B4; intros ? ? ?%elem_of_nil| |by rewrite B1; constructor].
  exists rm. split; [done|]. by apply (B2 GetResolutionMethod).
Qed.
Lemma booted_code v : booted v -> code_inv (plain v).
Proof.
  intros [B1 B2 B3 B4 B5]. split; cbn [inst plain classes]; rewrite ?B1.
  - split; cbn [plain classes]; rewrite B4; intros *; by intros ?%elem_of_nil.
  - split; try done; constructor.
  - constructor.
  - intros c k a m Hc. cbn [plain classes] in Hc. rewrite B4 in Hc. by apply elem_of_nil in Hc.
Qed.

(** ** What methods run *)

(** The method that has the code of [a]: its original when it is hooked. *)
Lemma table_target v c k a : good (classes v) v -> code_inv (plain v) -> c ∈ classes v -> class_methods c !! k = Some a ->
  exists t mt, xposed_target a v = Done t /\ methods (runtime v) !! t = Some mt /\ declaring_class_ mt = c /\ entry_ok v c k a mt.
Proof.
  intros Hg [Hl _ _ Ht] Hc Hk. destruct (member_target (classes v) v a Hg) as (t & mt & Htg & c' & Hc' & _ & Hd).
  { exists c. split; [done|]. by eapply list_elem_of_lookup_2. }
  exists t, mt. pose proof (plain_method _ _ _ _ Htg) as Hp. pose proof (clear_view mt) as [].
  split_and!; [apply Htg..| |].
  - destruct (ly_slots _ Hl c k a Hc Hk) as (m & Hm & [Hcl _ _ _]). rewrite Hp in Hm. injection Hm as <-. done.
  - pose proof (Ht c k a _ Hc Hk Hp) as He. intros Hs. unfold entry_ok, stubbed, code_allowed, waiting in *.
    rewrite sv_abstract, sv_proxy, sv_constructor, sv_native, sv_static in He. exact (He Hs).
Qed.


Definition hooked_at (v : vm) (a : Z) : Prop := exists m, methods (runtime v) !! a = Some m /\ IsXposedHookedMethod m = true.
Lemma deoptimize_hooked a v : hooked_at v a -> Deoptimize a v = Fault Aborted.
Proof.
  intros (m & Hm & Hh). unfold Deoptimize. rewrite (get_method_ok _ _ _ Hm). cbn [mbind cres_bind].
  unfold can_deoptimize, IsProxyMethod. by rewrite Hh, orb_true_r, andb_false_r.
Qed.
Lemma hooked_or_not v a : hooked_at v a \/ unhooked v a.
Proof.
  unfold hooked_at, unhooked. destruct (methods (runtime v) !! a) as [m|]; [|right; by intros m].
  destruct (IsXposedHookedMethod m) eqn:Hh; [left; by exists m|right; by intros m' [= <-]].
Qed.

(** C5: instrumentation does not see the hooks. In a runtime in which no method is
    hooked while it is deoptimized, loading new classes and initializing,
    deoptimizing, restoring and tracing do what they do to the same runtime
    without the hooks, and the hooks stay well formed; from each state, each
    further event about loaded classes has the same outcome in both, return or
    abort, but for one: deoptimizing a method that is hooked aborts. *)
Theorem instrumentation_ignores_hooks es v v' :
  booted v -> steps es v v' ->
  hooks_wf (runtime v') /\ run_events (filter (fun e => is_hook_event e = false) es) (plain v) = Done (plain v') /\
  forall e, is_hook_event e = false -> event_ok v' e ->
    (exists a, e = OnDeoptimize a /\ hooked_at v' a /\ run_event e v' = Fault Aborted) \/
    match run_event e v' with
    | Done w => run_event e (plain v') = Done (plain w)
    | Fault f => run_event e (plain v') = Fault f
    end.
Proof.
  intros Hb Hs. destruct (steps_plain Hresolution es v v' Hcompiler Hs (booted_good v Hb)) as [Hg Hr]. split_and!; [apply Hg|done|].
  intros e Hh Hok. assert ((exists a, e = OnDeoptimize a /\ hooked_at v' a) \/ event_unhooked v' e) as [(a & -> & Ha)|Hun].
  { destruct e as [| | |a| | | | | | |]; try (right; exact I). destruct (hooked_or_not v' a); [left; by exists a|by right]. }
  - left. exists a. split_and!; [done|done|]. by apply deoptimize_hooked.
  - right. pose proof (event_sim Hresolution e v' Hcompiler Hg Hok Hun Hh) as Hsim. destruct (run_event e v'); [by destruct Hsim|done].
Qed.

End Code.

(** ** A deoptimized method that gets hooked *)

Section Stuck.
Context `{ArtRuntime} `{CodeRuntime}.

(** A step that leaves the hooked methods and the map of deoptimized ones. *)
Definition leaves (v : vm) (x : cres vm) : Prop :=
  forall v', x = Done v' -> deoptimized_methods_ (inst v') = deoptimized_methods_ (inst v) /\ forall a, hooked_at v a -> hooked_at v' a.

Lemma leaves_ret v v' : deoptimized_methods_ (inst v') = deoptimized_methods_ (inst v) -> runtime v' = runtime v -> leaves v (Done v').
Proof. intros Hi Hr w [= <-]. split; [done|]. intros a. unfold hooked_at. by rewrite Hr. Qed.
Lemma leaves_bind v x f : leaves v x -> (forall v', leaves v' (f v')) -> leaves v (x ≫= f).
Proof.
  intros Hx Hf w E. apply bind_Done in E as (v1 & E1 & E). destruct (Hx v1 E1) as [D1 K1]. destruct (Hf v1 w E) as [D2 K2].
  split; [congruence|]. intros a Ha. by apply K2, K1.
Qed.
Lemma leaves_read {A} v (x : cres A) f : (forall a, leaves v (f a)) -> leaves v (x ≫= f).
Proof. intros Hf w E. apply bind_Done in E as (a & _ & E). by apply (Hf a). Qed.
Lemma leaves_from v0 v x : deoptimized_methods_ (inst v0) = deoptimized_methods_ (inst v) -> runtime v0 = runtime v -> leaves v x -> leaves v0 x.
Proof. intros Hi Hr Hk w E. destruct (Hk w E) as [D K]. split; [congruence|]. intros a Ha. apply K. unfold hooked_at in *. by rewrite <- Hr. Qed.

Lemma update_leaves a q v : leaves v (UpdateEntrypoints a q v).
Proof.
  unfold UpdateEntrypoints, get_method. destruct (methods (runtime v) !! a) as [m|] eqn:Hm; [|done]. cbn [deref mbind cres_bind].
  intros w [= <-]. split; [done|]. intros x (mx & Hx & Hh). unfold hooked_at. cbn. destruct (decide (x = a)) as [->|Hne].
  - rewrite lookup_insert_eq. eexists. split; [done|]. rewrite Hm in Hx. injection Hx as ->. by destruct (a =? _).
  - rewrite lookup_insert_ne by done. by exists mx.
Qed.
Lemma install_leaves a v : leaves v (InstallStubsForMethod a v).
Proof.
  unfold InstallStubsForMethod. apply leaves_read. intros t. apply leaves_read. intros m. case_match; [by apply leaves_ret|].
  case_match; [by apply leaves_ret|]. apply leaves_read. intros q. apply update_leaves.
Qed.
Lemma for_each_leaves f l v : (forall a v, leaves v (f a v)) -> leaves v (for_each f l v).
Proof. intros Hf. revert v. induction l as [|a l IH]; intros v; [by apply leaves_ret|]. apply leaves_bind; [apply Hf|apply IH]. Qed.

Lemma configure_leaves e r v : leaves v (ConfigureStubs e r v).
Proof.
  unfold ConfigureStubs. cbn zeta. destruct (_ =? _); [by apply leaves_ret|].
  assert (forall i, deoptimized_methods_ i = deoptimized_methods_ (inst v) -> forall f l v0, runtime v0 = runtime v ->
    (forall w, deoptimized_methods_ (inst (f w)) = deoptimized_methods_ (inst w) /\ runtime (f w) = runtime w) ->
    leaves v (w ← for_each InstallStubsForClass l (set_inst i v0); Done (f w))) as Hk.
  { intros i Hi f l v0 Hr Hf. apply leaves_bind; [|intros w; apply leaves_ret; apply Hf].
    apply (leaves_from v (set_inst i v0)); [done|done|]. apply for_each_leaves. intros c w. apply for_each_leaves. apply install_leaves. }
  destruct (0 <? _); apply Hk; try done.
  - by destruct r.
  - intros w. by destruct (IsDeoptimizedMethodsEmpty (inst w)).
Qed.

(** A hooked method cannot be restored, and it stays in the map. *)
Lemma undeoptimize_hooked a v : hooked_at v a -> Undeoptimize a v = Fault Aborted.
Proof.
  intros (m & Hm & Hh). unfold Undeoptimize, get_method. rewrite Hm. cbn [deref mbind cres_bind].
  unfold can_deoptimize, IsProxyMethod. by rewrite Hh, orb_true_r, andb_false_r.
Qed.

Lemma undeoptimize_leaves h a b v v' : b <> a -> Undeoptimize b v = Done v' -> hooked_at v a -> (h, a) ∈ deoptimized_methods_ (inst v) ->
  hooked_at v' a /\ (h, a) ∈ deoptimized_methods_ (inst v').
Proof.
  intros Hne E Ha Hin. unfold Undeoptimize in E. apply bind_Done in E as (m & _ & E). apply bind_Done in E as (? & _ & E).
  unfold RemoveDeoptimizedMethod in E. destruct (erase_method b _) as [l|] eqn:El; [|done]. cbn [check mbind cres_bind] in E.
  assert ((h, a) ∈ l) as Hl by (rewrite (erase_method_perm _ _ _ El) in Hin; set_solver).
  set (v1 := set_inst (set_deoptimized l (inst v)) v) in *.
  assert (leaves v1 (Done v')) as Hk; [|destruct (Hk v' eq_refl) as [-> K]; split; [by apply K|done]].
  destruct (negb _); [|injection E as <-; by apply leaves_ret]. rewrite <- E. apply leaves_bind.
  - case_match; [apply update_leaves|]. apply leaves_read. intros q. apply update_leaves.
  - intros w. apply leaves_ret; by destruct (IsDeoptimizedMethodsEmpty (inst w)).
Qed.

Lemma undeoptimize_all_hooked h a fuel v : hooked_at v a -> (h, a) ∈ deoptimized_methods_ (inst v) ->
  exists f, undeoptimize_all fuel v = Fault f.
Proof.
  revert v. induction fuel as [|fuel IH]; intros v Ha Hin; cbn [undeoptimize_all]; unfold IsDeoptimizedMethodsEmpty;
    (destruct (deoptimized_methods_ (inst v)) eqn:El; [by apply elem_of_nil in Hin|]); [by eexists|]. rewrite <- El in Hin.
  destruct (decide (BeginDeoptimizedMethod (inst v) = a)) as [->|Hne]; [rewrite undeoptimize_hooked by done; by eexists|].
  destruct (Undeoptimize _ v) as [v1|f] eqn:E; [|by exists f]. cbn [mbind cres_bind].
  destruct (undeoptimize_leaves h a _ v v1 Hne E Ha Hin) as [Ha1 Hin1]. by apply IH.
Qed.
Lemma disable_hooked h a v : hooked_at v a -> (h, a) ∈ deoptimized_methods_ (inst v) -> forall w, DisableDeoptimization v <> Done w.
Proof.
  intros Ha Hin w E. unfold DisableDeoptimization in E.
  apply bind_Done in E as (? & _ & E). apply bind_Done in E as (v1 & E1 & E). apply bind_Done in E as (v2 & E2 & _).
  assert (leaves v (if interpreter_stubs_installed_ (inst v) then UndeoptimizeEverything v else Done v)) as Hk.
  { case_match; [|by apply leaves_ret]. apply leaves_read. intros _. apply configure_leaves. }
  destruct (Hk v1 E1) as [Hd K]. destruct (undeoptimize_all_hooked h a (length (deoptimized_methods_ (inst v1))) v1) as [f Ef]; [by apply K|by rewrite Hd|].
  congruence.
Qed.

(** *** The only fault is an abort *)

(** Every method of a loaded class has a method with its code, of a loaded class. *)
Record sane (v : vm) : Prop := {
  sn_target : forall a, member (classes v) a -> exists t mt, xposed_target a v = Done t /\ methods (runtime v) !! t = Some mt /\ declaring_class_ mt ∈ classes v;
  sn_deoptimized : Forall (fun e => member (classes v) e.2) (deoptimized_methods_ (inst v))
}.
(** A step that returns, with [n] deoptimized methods, or aborts. *)
Definition sound (cl : list Z) (n : nat) (x : cres vm) : Prop :=
  match x with Done v => sane v /\ classes v = cl /\ length (deoptimized_methods_ (inst v)) = n | Fault f => f = Aborted end.
Definition read_sound {A} (x : cres A) : Prop := match x with Done _ => True | Fault f => f = Aborted end.

Lemma sound_bind cl n k x f : sound cl n x -> (forall v, sane v -> classes v = cl -> length (deoptimized_methods_ (inst v)) = n -> sound cl k (f v)) ->
  sound cl k (x ≫= f).
Proof. intros Hx Hf. destruct x as [v|e]; cbn in *; [by apply Hf; apply Hx|done]. Qed.
Lemma sound_read {A} cl n (x : cres A) f : read_sound x -> (forall a, x = Done a -> sound cl n (f a)) -> sound cl n (x ≫= f).
Proof. intros Hx Hf. destruct x as [a|e]; cbn in *; [by apply Hf|done]. Qed.

Lemma member_present v a : sane v -> member (classes v) a -> exists m, methods (runtime v) !! a = Some m /\
  (IsXposedHookedMethod m = false -> declaring_class_ m ∈ classes v).
Proof.
  intros Hs Ha. destruct (sn_target v Hs a Ha) as (t & mt & Ht & Hm & Hc). unfold xposed_target, get_method in Ht.
  destruct (methods (runtime v) !! a) as [m|] eqn:Hma; [|done]. exists m. split; [done|]. intros Hh. cbn [deref mbind cres_bind] in Ht.
  rewrite Hh in Ht. injection Ht as <-. congruence.
Qed.

Lemma sane_inst v i : sane v -> Forall (fun e => e ∈ deoptimized_methods_ (inst v)) (deoptimized_methods_ i) -> sane (set_inst i v).
Proof.
  intros [S1 S2] Hi. split; [exact S1|]. cbn. rewrite Forall_forall in *. intros e He. by apply S2, Hi.
Qed.

(** Entry points other than that for JNI do not matter. *)
Lemma update_sound a q v : sane v -> is_Some (methods (runtime v) !! a) -> sound (classes v) (length (deoptimized_methods_ (inst v))) (UpdateEntrypoints a q v).
Proof.
  intros [S1 S2] [m Hm]. unfold UpdateEntrypoints. rewrite (get_method_ok _ _ _ Hm). cbn [mbind cres_bind].
  set (m' := if a =? GetResolutionMethod then _ else _). assert (exists i j, m' = with_entries i (entry_point_from_jni_ m) j m) as (i & j & ->).
  { unfold m'. destruct (a =? _); by do 2 eexists. }
  split_and!; [|done|done]. split; [|exact S2]. intros x Hx. destruct (S1 x Hx) as (t & mt & Ht & Hmt & Hc).
  assert (forall y my, methods (runtime v) !! y = Some my -> exists my', <[a := with_entries i (entry_point_from_jni_ m) j m]> (methods (runtime v)) !! y = Some my' /\
    declaring_class_ my' = declaring_class_ my /\ access_flags_ my' = access_flags_ my /\ entry_point_from_jni_ my' = entry_point_from_jni_ my) as Hsame.
  { intros y my Hy. destruct (decide (y = a)) as [->|Hne]; [rewrite lookup_insert_eq|rewrite lookup_insert_ne by done; by exists my].
    rewrite Hm in Hy. injection Hy as <-. by eexists. }
  destruct (Hsame t mt Hmt) as (mt' & Hmt' & Hd & _). exists t, mt'. cbn. split_and!; [|done|by rewrite Hd].
  unfold xposed_target, get_method in Ht |- *. cbn. destruct (methods (runtime v) !! x) as [mx|] eqn:Hmx; [|done].
  destruct (Hsame x mx Hmx) as (mx' & Hmx' & _ & Hf & Hj). rewrite Hmx'. cbn [deref mbind cres_bind] in Ht |- *.
  unfold GetXposedOriginalMethod, GetXposedHookInfo in *. rewrite Hj. cbn. rewrite !hooked_bit in *. by rewrite Hf.
Qed.

Lemma find_virtual_sound dex l index s : (forall a, a ∈ l -> is_Some (methods s !! a)) -> read_sound (find_virtual dex l index s).
Proof.
  revert index. induction l as [|a l IH]; intros index Hl; [done|]. cbn [find_virtual]. destruct (Hl a) as [m Hm]; [by left|].
  rewrite (get_method_ok _ _ _ Hm). cbn [mbind cres_bind]. case_match; [done|]. apply IH. intros x Hx. apply Hl. by right.
Qed.
Lemma oat_code_sound m v : sane v -> declaring_class_ m ∈ classes v -> read_sound (GetQuickOatCodeFor m (runtime v)).
Proof.
  intros Hs Hc. unfold GetQuickOatCodeFor, FindOatMethodFor. destruct (IsAbstract m); [done|]. destruct (IsProxyMethod m false); [done|].
  destruct (IsStatic m || IsDirect m true); [done|].
  pose proof (find_virtual_sound (dex_method_index_ m) (class_virtual_methods (declaring_class_ m)) (Z.of_nat (length (class_direct_methods (declaring_class_ m)))) (runtime v)) as Hf.
  destruct (find_virtual _ _ _ _); [done|]. apply Hf. intros a Ha. destruct (member_present v a Hs) as (ma & Hma & _); [|by exists ma].
  exists (declaring_class_ m). split; [done|]. apply elem_of_app. by right.
Qed.
Lemma stub_code_sound a m v : sane v -> declaring_class_ m ∈ classes v -> read_sound (stub_code a m v).
Proof. intros Hs Hc. unfold stub_code. repeat case_match; try done; by apply oat_code_sound. Qed.

Lemma install_sound a v : sane v -> member (classes v) a -> sound (classes v) (length (deoptimized_methods_ (inst v))) (InstallStubsForMethod a v).
Proof.
  intros Hs Ha. destruct (sn_target v Hs a Ha) as (t & mt & Ht & Hm & Hc). unfold InstallStubsForMethod. rewrite Ht. cbn [mbind cres_bind].
  rewrite (get_method_ok _ _ _ Hm). cbn [mbind cres_bind]. case_match; [done|]. case_match; [done|].
  apply sound_read; [by apply stub_code_sound|]. intros q _. apply update_sound; [done|by exists mt].
Qed.
Lemma for_each_sound cl n f l v : (forall a v, a ∈ l -> sane v -> classes v = cl -> length (deoptimized_methods_ (inst v)) = n -> sound cl n (f a v)) ->
  sane v -> classes v = cl -> length (deoptimized_methods_ (inst v)) = n -> sound cl n (for_each f l v).
Proof.
  revert v. induction l as [|a l IH]; intros v Hf Hs Hc Hn; [done|]. cbn [for_each]. apply (sound_bind cl n); [apply Hf; try done; by left|].
  intros v1 Hs1 Hc1 Hn1. apply IH; try done. intros x v2 Hx. apply Hf. by right.
Qed.
Lemma install_all_sound v : sane v -> sound (classes v) (length (deoptimized_methods_ (inst v))) (for_each InstallStubsForClass (classes v) v).
Proof.
  intros Hs. apply for_each_sound; try done. intros c v1 Hc Hs1 Hc1 Hn1. apply for_each_sound; try done.
  intros a v2 Ha Hs2 Hc2 Hn2. rewrite <- Hc2, <- Hn2. apply install_sound; [done|]. rewrite Hc2. by exists c.
Qed.

Lemma configure_sound e r v : sane v -> sound (classes v) (length (deoptimized_methods_ (inst v))) (ConfigureStubs e r v).
Proof.
  intros Hs. assert (forall i w, sane w -> deoptimized_methods_ i = deoptimized_methods_ (inst w) -> sane (set_inst i w)) as Hi.
  { intros i w Hw E. apply sane_inst; [done|]. rewrite E. by apply Forall_forall. }
  unfold ConfigureStubs. cbn zeta. destruct (_ =? _); [split; [by apply Hi|done]|].
  assert (forall i f, deoptimized_methods_ i = deoptimized_methods_ (inst v) ->
    (forall w, exists i', f w = set_inst i' w /\ deoptimized_methods_ i' = deoptimized_methods_ (inst w)) ->
    sound (classes v) (length (deoptimized_methods_ (inst v))) (w ← for_each InstallStubsForClass (classes v) (set_inst i v); Done (f w))) as Hk.
  { intros i f E Hf. pose proof (install_all_sound (set_inst i v) (Hi i v Hs E)) as Ha. cbn [set_inst inst classes] in Ha. rewrite E in Ha.
    eapply sound_bind; [exact Ha|]. intros w Hw Hcw Hn. destruct (Hf w) as (i' & -> & E'). cbn. rewrite E'. auto. }
  destruct (0 <? _); apply (Hk _ (fun w => _)); try done.
  - by destruct r.
  - intros w. eexists. split; [done|]. done.
  - intros w. destruct (IsDeoptimizedMethodsEmpty (inst w)); [by eexists|]. exists (inst w). by destruct w.
Qed.

Lemma undeoptimize_sound n a v : sane v -> member (classes v) a -> length (deoptimized_methods_ (inst v)) = S n -> sound (classes v) n (Undeoptimize a v).
Proof.
  intros Hs Ha Hn. destruct (member_present v a Hs Ha) as (m & Hm & Hc). unfold Undeoptimize. rewrite (get_method_ok _ _ _ Hm). cbn [mbind cres_bind].
  destruct (can_deoptimize m) eqn:Hcan; [|done]. cbn [check mbind cres_bind]. unfold RemoveDeoptimizedMethod.
  destruct (erase_method a _) as [l|] eqn:El; [|done]. cbn [check mbind cres_bind]. pose proof (erase_method_perm _ _ _ El) as Hp.
  set (v1 := set_inst (set_deoptimized l (inst v)) v).
  assert (sane v1 /\ length l = n) as [Hs1 Hl].
  { split; [|apply Permutation_length in Hp; cbn in Hp; lia]. apply sane_inst; [done|]. cbn. apply Forall_forall. intros e He. rewrite Hp. by right. }
  assert (declaring_class_ m ∈ classes v1) as Hc1.
  { apply Hc. apply not_true_is_false. intros Hh. unfold can_deoptimize, IsProxyMethod in Hcan. by rewrite Hh, orb_true_r, andb_false_r in Hcan. }
  destruct (negb _); [|done]. apply (sound_bind _ n).
  - case_match; [rewrite <- Hl; apply (update_sound a _ v1); [done|by exists m]|]. apply sound_read; [by apply (oat_code_sound m v1)|].
    intros q _. rewrite <- Hl. apply (update_sound a q v1); [done|by exists m].
  - intros w Hw Hcw Hnw. destruct (IsDeoptimizedMethodsEmpty (inst w)); [|done]. split; [|done]. apply sane_inst; [done|]. by apply Forall_forall.
Qed.
Lemma undeoptimize_all_sound fuel v : sane v -> length (deoptimized_methods_ (inst v)) = fuel -> sound (classes v) 0 (undeoptimize_all fuel v).
Proof.
  revert v. induction fuel as [|fuel IH]; intros v Hs Hn; cbn [undeoptimize_all]; unfold IsDeoptimizedMethodsEmpty;
    (destruct (deoptimized_methods_ (inst v)) as [|e l] eqn:El; [split_and!; [done|done|by rewrite El]|]); [done|].
  apply (sound_bind _ fuel).
  - apply undeoptimize_sound; [done| |by rewrite El]. unfold BeginDeoptimizedMethod. rewrite El. pose proof (sn_deoptimized v Hs) as Hd. rewrite El in Hd. by apply Forall_cons in Hd as [? _].
  - intros w Hw Hcw Hnw. rewrite <- Hcw. by apply IH.
Qed.
Lemma disable_sound v : sane v -> read_sound (DisableDeoptimization v).
Proof.
  intros Hs. unfold DisableDeoptimization. destruct (deoptimization_enabled_ (inst v)); [|done]. cbn [check mbind cres_bind].
  assert (sound (classes v) (length (deoptimized_methods_ (inst v))) (if interpreter_stubs_installed_ (inst v) then UndeoptimizeEverything v else Done v)) as H1.
  { unfold UndeoptimizeEverything. destruct (interpreter_stubs_installed_ (inst v)); [|done]. cbn [check mbind cres_bind]. by apply configure_sound. }
  destruct (if interpreter_stubs_installed_ (inst v) then _ else _) as [v1|f]; [|done]. destruct H1 as (Hs1 & Hc1 & Hn1). cbn [mbind cres_bind].
  pose proof (undeoptimize_all_sound _ v1 Hs1 eq_refl) as H2. by destruct (undeoptimize_all _ v1).
Qed.

(** A hook leaves that every method has a method with its code. *)
Lemma hook_sane v r add s' : good (classes v) v -> XposedBridge_hookMethodNative r add (runtime v) = Done s' -> sane (set_runtime s' v).
Proof.
  intros Hg E. destruct (hook_refines r add _ s' (g_hooks _ _ Hg) E) as [Hwf Hu]. split.
  - intros a (c & Hc & Ha). cbn in Hc. destruct (g_members _ _ Hg c a Hc Ha) as (m & Hm & Hd). rewrite <- Hu in Hm.
    destruct (xposed_target_ok a (set_runtime s' v) m Hwf Hm) as (t & mt & Ht & Hmt & _ & -> & _). exists t, mt. split_and!; try done. cbn in Hd |- *. by rewrite Hd.
  - cbn. eapply Forall_impl; [apply Hg|]. by intros e [He _].
Qed.
(** A method that is deoptimized has no mark, and has one after it is hooked. *)
Lemma hook_marks v r add x s' : good (classes v) v -> r <> 0 -> reflects (runtime v) !! r = Some x -> artMethod x ∈ (deoptimized_methods_ (inst v)).*2 ->
  XposedBridge_hookMethodNative r add (runtime v) = Done s' -> hooked_at (set_runtime s' v) (artMethod x).
Proof.
  intros Hg Hr Hx Hin E. apply list_elem_of_fmap in Hin as (e & Ee & He). pose proof (proj1 (Forall_forall _ _) (g_deoptimized _ _ Hg) e He) as (_ & m & Hm & Hh & Ho).
  rewrite <- Ee in Hm. unfold XposedBridge_hookMethodNative, FromReflectedMethod in E. rewrite (proj2 (Z.eqb_neq r 0) Hr), Hx in E. cbn [deref mbind cres_bind] in E.
  destruct (enable_effect (artMethod x) add m (runtime v) Hm Hh Ho) as [[E' _]|(b & rr & h & Fb & _ & _ & _ & _ & _ & E')]; [congruence|].
  rewrite E' in E. injection E as <-. exists (hooked_of h m). split; [apply lookup_insert_eq|]. by destruct (hooked_of_marks h m Hh Ho).
Qed.
End Stuck.

(** C32: a method that is hooked while it is deoptimized cannot be restored: from
    every state that events lead to, if a hook is set on a deoptimized method and
    returns, then the check that the method is not a proxy method, which a hooked
    method passes for, aborts the runtime, both when the method is restored and
    when deoptimization is turned off. *)
Theorem hook_of_deoptimized_aborts `{ArtRuntime} `{CodeRuntime} es v0 v r add x v1
    (Hresolution : forall c, GetResolutionMethod ∉ class_direct_methods c ++ class_virtual_methods c) (Hcompiler : IsCompiler = false) :
  booted v0 -> steps es v0 v -> r <> 0 -> reflects (runtime v) !! r = Some x -> artMethod x ∈ (deoptimized_methods_ (inst v)).*2 ->
  run_event (Hook r add) v = Done v1 ->
  Undeoptimize (artMethod x) v1 = Fault Aborted /\ DisableDeoptimization v1 = Fault Aborted.
Proof.
  intros Hb Hs Hr Hx Hin E. destruct (steps_plain Hresolution es v0 v Hcompiler Hs (booted_good v0 Hb)) as [Hg _].
  apply bind_Done in E as (s' & E & [= <-]). pose proof (hook_marks v r add x s' Hg Hr Hx Hin E) as Ha.
  split; [by apply undeoptimize_hooked|]. pose proof (disable_sound _ (hook_sane v r add s' Hg E)) as Hd.
  apply list_elem_of_fmap in Hin as ([h a] & Ea & He). cbn in Ea. rewrite Ea in Ha. pose proof (disable_hooked h a (set_runtime s' v) Ha He) as Hn.
  destruct (DisableDeoptimization _) as [w|f]; [by destruct (Hn w)|by rewrite Hd].
Qed.

(** ** Examples *)

#[local] Existing Instance demo_runtime.
(** Class 7 has a static method, compiled, a virtual one, compiled, and a
    virtual one that is not. *)
Definition demo_code : CodeRuntime := {|
  GetQuickToInterpreterBridge := 2000; GetQuickResolutionTrampoline := 2001; GetQuickToInterpreterBridgeTrampoline := 2002;
  GetQuickInstrumentationEntryPoint := 2003; GetQuickGenericJniTrampoline := 2004; artInterpreterToInterpreterBridge := 2005;
  GetResolutionMethod := 500; IdentityHashCode a := a mod 8; IsProxyClass _ := false; is_java_lang_reflect_Proxy _ := false;
  class_direct_methods c := if c =? 7 then [110] else []; class_virtual_methods c := if c =? 7 then [120; 121] else [];
  has_oat_class c := c =? 7; oat_code _ index := if index =? 2 then 0 else 3000 + index;
  IsCompiler := false; IsStarted := true; UseCompileTimeClassPath := false; HasImageSpace := true
|}.
#[local] Existing Instance demo_code.

Definition demo_members : list ArtMethod :=
  [mkArtMethod 7 0 0 (kAccPublic + kAccStatic) 600 3 0 0 0 0; mkArtMethod 7 0 0 kAccPublic 700 4 6 0 0 0; mkArtMethod 7 0 0 kAccPublic 800 5 7 0 0 0].
Definition demo_vm : vm :=
  mkVm new_Instrumentation (mkArt {[500 := mkArtMethod 1 0 0 kAccPublic 0 0 0 0 0 0]} ∅ {[5 := mkReflect false 120; 6 := mkReflect false 121]} [] ∅ None) [] ∅.

(** The class is loaded, its method 120 hooked, 121 deoptimized, and so on. *)
Definition demo_events : list event :=
  [LoadClass 7 demo_members; Hook 5 99; OnEnable; OnDeoptimize 121; OnDeoptimizeEverything; InitializeClass 7].
Definition demo_state (k : nat) : vm := match run_events (take k demo_events) demo_vm with Done v => v | Fault _ => demo_vm end.

Lemma demo_resolution c : GetResolutionMethod ∉ class_direct_methods c ++ class_virtual_methods c.
Proof. cbn. destruct (c =? 7); cbn; set_solver. Qed.

Lemma demo_booted : booted demo_vm.
Proof.
  split; try done; [|by eexists]. intros a m Ha. cbn in Ha. apply lookup_singleton_Some in Ha as [_ <-]. done.
Qed.

Lemma demo_new_class : new_class demo_vm 7 demo_members.
Proof. split; [done|by apply (bool_decide_unpack _); vm_compute|repeat constructor; done|set_solver]. Qed.

Lemma demo_layout : Forall event_layout demo_events.
Proof.
  apply Forall_cons. split; [|by repeat constructor]. split; cbn [class_direct_methods demo_code Z.eqb Pos.eqb length].
  - intros k m Hm Hk. destruct k as [|k]; [injection Hm as <-; done|lia].
  - intros k m Hm Hk. destruct k as [|[|[|k]]]; cbn in Hm; try lia; try done; by injection Hm as <-.
  - intros j k mj mk Hj Hk. destruct j as [|[|[|j]]], k as [|[|[|k]]]; cbn in Hj, Hk; try lia; try done; injection Hj as <-; injection Hk as <-; done.
Qed.

Lemma demo_steps : steps demo_events demo_vm (demo_state 6).
Proof.
  eapply (steps_cons _ _ _ (demo_state 1)); [exact demo_new_class|vm_compute; reflexivity|].
  eapply (steps_cons _ _ _ (demo_state 2)); [intros x Hx; vm_compute in Hx; injection Hx as <-; vm_compute; by apply not_elem_of_nil|vm_compute; reflexivity|].
  eapply (steps_cons _ _ _ (demo_state 3)); [done|vm_compute; reflexivity|].
  eapply (steps_cons _ _ _ (demo_state 4)); [exists 7; split; vm_compute; set_solver|vm_compute; reflexivity|].
  eapply (steps_cons _ _ _ (demo_state 5)); [done|vm_compute; reflexivity|].
  eapply (steps_cons _ _ _ (demo_state 6)); [vm_compute; set_solver|vm_compute; reflexivity|].
  apply steps_nil.
Qed.


Lemma instrumentation_ignores_hooks_witness : hooks_wf (runtime (demo_state 6)) /\
  run_events (filter (fun e => is_hook_event e = false) demo_events) (plain demo_vm) = Done (plain (demo_state 6)).
Proof.
  destruct (instrumentation_ignores_hooks demo_resolution eq_refl demo_events demo_vm (demo_state 6) demo_booted demo_steps) as (Hwf & Hr & _).
  split; assumption.
Defined.


(** The method 121 is deoptimized and then hooked. *)
Definition demo_before : list event := [LoadClass 7 demo_members; OnEnable; OnDeoptimize 121].
Definition demo_run (es : list event) : vm := match run_events es demo_vm with Done v => v | Fault _ => demo_vm end.
Lemma demo_before_steps : steps demo_before demo_vm (demo_run demo_before).
Proof.
  eapply (steps_cons _ _ _ (demo_state 1)); [exact demo_new_class|vm_compute; reflexivity|].
  eapply (steps_cons _ _ _ (demo_run (take 2 demo_before))); [done|vm_compute; reflexivity|].
  eapply (steps_cons _ _ _ (demo_run demo_before)); [exists 7; split; vm_compute; set_solver|vm_compute; reflexivity|].
  apply steps_nil.
Qed.
Lemma hook_of_deoptimized_aborts_witness : deoptimization_enabled_ (inst (demo_run (demo_before ++ [Hook 6 98]))) = true /\
  Undeoptimize 121 (demo_run (demo_before ++ [Hook 6 98])) = Fault Aborted /\ DisableDeoptimization (demo_run (demo_before ++ [Hook 6 98])) = Fault Aborted.
Proof.
  split; [vm_compute; reflexivity|].
  apply (hook_of_deoptimized_aborts demo_before demo_vm (demo_run demo_before) 6 98 (mkReflect false 121) _ demo_resolution eq_refl demo_booted demo_before_steps).
  - discriminate.
  - reflexivity.
  - vm_compute. left.
  - vm_compute. reflexivity.
Defined.
