(* ===== verification/XposedCommon.v ===== *)
(** * XposedCommon: the rest of libxposed
      (Xposed-master/libxposed_common.cpp, libxposed_art.cpp)

    The initialization of the library in the ART runtime, the operations that
    give an object a subclass of its class, the rewriting of resource
    references in a compiled XML file, and the native methods of the Zygote
    service.  The XML parser belongs to the platform; its tree is a list of
    events with the attributes of each start tag. *)

From stdpp Require Import gmap.
From S2P Require Import Prelude CLib.

(** ** Initialization *)

Module Init.

(** The answers of the JNI environment, zero for null; a registration answers
    JNI_OK or an error. *)
Record lookups := mkLookups {
  l_XTypedArray : Z; l_XposedBridge : Z; l_register_XposedBridge : Z; l_handleHookedMethod : Z;
  l_XResources : Z; l_register_XResources : Z; l_translateResId : Z; l_translateAttrId : Z;
  l_ZygoteService : Z; l_register_ZygoteService : Z; l_FileResult : Z; l_FileResult_init : Z
}.

(** The variables of the library, and whether an exception is pending. *)
Record globals := mkGlobals {
  xposedLoadedSuccessfully : bool;
  classXposedBridge : Z; xposed_callback_class : Z; xposed_callback_method : Z;
  classXResources : Z; methodXResourcesTranslateResId : Z; methodXResourcesTranslateAttrId : Z;
  classFileResult : Z; constructorFileResult : Z;
  subclass_prepared : bool;
  pending : bool
}.

Definition set_pending (p : bool) (g : globals) : globals :=
  mkGlobals (xposedLoadedSuccessfully g) (classXposedBridge g) (xposed_callback_class g) (xposed_callback_method g)
    (classXResources g) (methodXResourcesTranslateResId g) (methodXResourcesTranslateAttrId g) (classFileResult g)
    (constructorFileResult g) (subclass_prepared g) p.
Definition set_prepared (g : globals) : globals :=
  mkGlobals (xposedLoadedSuccessfully g) (classXposedBridge g) (xposed_callback_class g) (xposed_callback_method g)
    (classXResources g) (methodXResourcesTranslateResId g) (methodXResourcesTranslateAttrId g) (classFileResult g)
    (constructorFileResult g) true (pending g).
Definition set_bridge (c cb : Z) (g : globals) : globals :=
  mkGlobals (xposedLoadedSuccessfully g) c cb (xposed_callback_method g)
    (classXResources g) (methodXResourcesTranslateResId g) (methodXResourcesTranslateAttrId g) (classFileResult g)
    (constructorFileResult g) (subclass_prepared g) (pending g).
Definition set_loaded (g : globals) : globals :=
  mkGlobals true (classXposedBridge g) (xposed_callback_class g) (xposed_callback_method g)
    (classXResources g) (methodXResourcesTranslateResId g) (methodXResourcesTranslateAttrId g) (classFileResult g)
    (constructorFileResult g) (subclass_prepared g) (pending g).
Definition set_callback (m : Z) (g : globals) : globals :=
  mkGlobals (xposedLoadedSuccessfully g) (classXposedBridge g) (xposed_callback_class g) m
    (classXResources g) (methodXResourcesTranslateResId g) (methodXResourcesTranslateAttrId g) (classFileResult g)
    (constructorFileResult g) (subclass_prepared g) (pending g).
Definition set_resources (c : Z) (g : globals) : globals :=
  mkGlobals (xposedLoadedSuccessfully g) (classXposedBridge g) (xposed_callback_class g) (xposed_callback_method g)
    c (methodXResourcesTranslateResId g) (methodXResourcesTranslateAttrId g) (classFileResult g)
    (constructorFileResult g) (subclass_prepared g) (pending g).
Definition set_translate (r a : Z) (g : globals) : globals :=
  mkGlobals (xposedLoadedSuccessfully g) (classXposedBridge g) (xposed_callback_class g) (xposed_callback_method g)
    (classXResources g) r a (classFileResult g) (constructorFileResult g) (subclass_prepared g) (pending g).
Definition set_file_result (c i : Z) (g : globals) : globals :=
  mkGlobals (xposedLoadedSuccessfully g) (classXposedBridge g) (xposed_callback_class g) (xposed_callback_method g)
    (classXResources g) (methodXResourcesTranslateResId g) (methodXResourcesTranslateAttrId g) c i
    (subclass_prepared g) (pending g).

Definition JNI_OK : Z := 0.

(** A failing lookup or registration leaves an exception. *)
Definition found (r : Z) (g : globals) : globals := set_pending (pending g || (r =? 0)) g.
Definition registered (rc : Z) (g : globals) : globals := set_pending (pending g || negb (rc =? JNI_OK)) g.

(** [logExceptionStackTrace] and the message of a failed registration read the
    pending exception. *)
Definition logExceptionStackTrace (g : globals) : cres unit := if pending g then Done tt else Fault NullDeref.
Definition ExceptionClear : globals -> globals := set_pending false.
Definition leave_failed (g : globals) : cres (bool * globals) :=
  _ ← logExceptionStackTrace g; Done (false, ExceptionClear g).

Section Init.
Context (l : lookups).

(** [onVmCreated]; the result says whether it ran to its end. *)
Definition onVmCreated (g : globals) : cres (bool * globals) :=
  let g := found (l_XTypedArray l) g in
  if l_XTypedArray l =? 0 then leave_failed g
  else
    let g := set_prepared g in
    let g := set_bridge (l_XposedBridge l) (xposed_callback_class g) (found (l_XposedBridge l) g) in
    if l_XposedBridge l =? 0 then leave_failed g
    else
      let g := set_bridge (l_XposedBridge l) (l_XposedBridge l) g in
      let g := registered (l_register_XposedBridge l) g in
      if negb (l_register_XposedBridge l =? JNI_OK) then leave_failed g
      else Done (true, set_loaded g).

Definition callback_XposedBridge_initNative (g : globals) : cres (bool * globals) :=
  let g := set_callback (l_handleHookedMethod l) (found (l_handleHookedMethod l) g) in
  if l_handleHookedMethod l =? 0 then leave_failed g else Done (true, g).

(** The exits after a failed registration do not log. *)
Definition init_XResources (g : globals) : cres (bool * globals) :=
  let g := set_resources (l_XResources l) (found (l_XResources l) g) in
  if l_XResources l =? 0 then leave_failed g
  else
    let g := registered (l_register_XResources l) g in
    if negb (l_register_XResources l =? JNI_OK) then Done (false, ExceptionClear g)
    else
      let g := set_translate (l_translateResId l) (methodXResourcesTranslateAttrId g) (found (l_translateResId l) g) in
      if l_translateResId l =? 0 then leave_failed g
      else
        let g := set_translate (l_translateResId l) (l_translateAttrId l) (found (l_translateAttrId l) g) in
        if l_translateAttrId l =? 0 then leave_failed g else Done (true, g).

Definition init_ZygoteService (g : globals) : cres (bool * globals) :=
  let g := found (l_ZygoteService l) g in
  if l_ZygoteService l =? 0 then leave_failed g
  else
    let g := registered (l_register_ZygoteService l) g in
    if negb (l_register_ZygoteService l =? JNI_OK) then Done (false, ExceptionClear g)
    else
      let g := set_file_result (l_FileResult l) (constructorFileResult g) (found (l_FileResult l) g) in
      if l_FileResult l =? 0 then leave_failed g
      else
        let g := set_file_result (l_FileResult l) (l_FileResult_init l) (found (l_FileResult_init l) g) in
        if l_FileResult_init l =? 0 then leave_failed g else Done (true, g).

Definition XposedBridge_initNative (g : globals) : cres (bool * globals) :=
  if negb (xposedLoadedSuccessfully g) then Done (false, g)
  else
    '(ok, g) ← callback_XposedBridge_initNative g;
    if negb ok then Done (false, g)
    else
      '(ok, g) ← init_XResources g;
      if negb ok then Done (false, g) else init_ZygoteService g.

(** The VM is created, then the Java side calls [initNative]. *)
Definition initialize (g : globals) : cres (bool * globals) :=
  '(_, g) ← onVmCreated g; XposedBridge_initNative g.
End Init.

Definition start : globals := mkGlobals false 0 0 0 0 0 0 0 0 false false.

(** Everything that is looked up. *)
Definition refs (l : lookups) : list Z :=
  [l_XTypedArray l; l_XposedBridge l; l_handleHookedMethod l; l_XResources l; l_translateResId l; l_translateAttrId l;
   l_ZygoteService l; l_FileResult l; l_FileResult_init l].
Definition codes (l : lookups) : list Z :=
  [l_register_XposedBridge l; l_register_XResources l; l_register_ZygoteService l].
Definition all_found (l : lookups) : bool :=
  forallb (fun r => negb (r =? 0)) (refs l) && forallb (fun rc => rc =? JNI_OK) (codes l).
End Init.

(** One decision of the initialization: the failing side is finished. *)
Ltac init_leaf :=
  eexists; split; [rewrite ?andb_false_r; reflexivity|split; [reflexivity|rewrite ?andb_false_r; discriminate]].
Ltac init_case b := destruct b; cbn -[Z.eqb andb]; [init_leaf|].
Ltac init_ok b := destruct b; cbn -[Z.eqb andb]; [|init_leaf].

(** Loading libxposed into the ART runtime ends with success exactly when
    every class and method is found and every registration succeeds.  It never
    leaves an exception pending for the code of the runtime that called it, and
    never reads a pending exception where there is none; on success the hook
    callback and all handles are those that were looked up. *)
Theorem art_initialize_spec l :
  exists g, Init.initialize l Init.start = Done (Init.all_found l, g) /\ Init.pending g = false /\
    (Init.all_found l = true ->
     Init.xposed_callback_class g = Init.l_XposedBridge l /\
     Init.xposed_callback_method g = Init.l_handleHookedMethod l /\ Init.subclass_prepared g = true /\
     Init.classXResources g = Init.l_XResources l /\
     Init.methodXResourcesTranslateResId g = Init.l_translateResId l /\
     Init.methodXResourcesTranslateAttrId g = Init.l_translateAttrId l /\
     Init.classFileResult g = Init.l_FileResult l /\ Init.constructorFileResult g = Init.l_FileResult_init l).
Proof.
  destruct l as [a b c d e f g h i j k m].
  unfold Init.initialize, Init.all_found, Init.onVmCreated, Init.leave_failed, Init.logExceptionStackTrace, Init.found, Init.registered.
  cbn -[Z.eqb andb].
  init_case (a =? 0). init_case (b =? 0). init_ok (c =? Init.JNI_OK).
  unfold Init.XposedBridge_initNative, Init.callback_XposedBridge_initNative, Init.leave_failed, Init.logExceptionStackTrace, Init.found, Init.registered.
  cbn -[Z.eqb andb].
  init_case (d =? 0). unfold Init.init_XResources, Init.leave_failed, Init.logExceptionStackTrace, Init.found, Init.registered.
  cbn -[Z.eqb andb].
  init_case (e =? 0). init_ok (f =? Init.JNI_OK). init_case (g =? 0). init_case (h =? 0).
  unfold Init.init_ZygoteService, Init.leave_failed, Init.logExceptionStackTrace, Init.found, Init.registered.
  cbn -[Z.eqb andb].
  init_case (i =? 0). init_ok (j =? Init.JNI_OK). init_case (k =? 0). init_case (m =? 0).
  eexists. split; [reflexivity|]. split; [done|]. by intros _.
Qed.

(** ** Objects of a subclass *)

Module Objects.

(** A class has a superclass and a size for its instances; an object has its
    class and the bytes that were allocated for it. *)
Record class := mkClass { super_class_ : Z; object_size_ : Z }.
Record object := mkObject { klass_ : Z; bytes : list Z }.
Record store := mkStore { classes : gmap Z class; objects : gmap Z object }.

Definition get_class (c : Z) (s : store) : cres class := deref (classes s !! c).
Definition get_object (o : Z) (s : store) : cres object := deref (objects s !! o).

(** runtime/mirror/class.h: [SetObjectSize]. *)
Definition SetObjectSize (c size : Z) (s : store) : cres store :=
  k ← get_class c s; Done (mkStore (<[c := mkClass (super_class_ k) size]> (classes s)) (objects s)).

Definition prepareSubclassReplacement (clazz : Z) (s : store) : cres store :=
  sub ← get_class clazz s; SetObjectSize (super_class_ sub) (object_size_ sub) s.

(** Allocation of an instance at a fresh address, with zeroed memory. *)
Definition AllocObject (o c size : Z) (s : store) : store :=
  mkStore (classes s) (<[o := mkObject c (replicate (Z.to_nat size) 0)]> (objects s)).

(** runtime/mirror/object.cc: [CopyObject] copies behind the header, which keeps
    the class of the copy. *)
Definition header_size : Z := 8.
Definition CopyObject (dest src : list Z) (num_bytes : Z) : cres (list Z) :=
  let n := Z.to_nat num_bytes in
  let h := Z.to_nat header_size in
  if (n <=? length src)%nat && (n <=? length dest)%nat
  then Done (take h dest ++ drop h (take n src) ++ drop n dest)
  else Fault OutOfBounds.

(** [Clone] of an object that is not an array or a class. *)
Definition Clone (o copy num_target_bytes : Z) (s : store) : cres store :=
  x ← get_object o s;
  k ← get_class (klass_ x) s;
  let num_bytes := object_size_ k in
  if negb (num_target_bytes =? 0) && (num_target_bytes <? num_bytes) then Fault Aborted
  else
    let target := if num_target_bytes =? 0 then num_bytes else num_target_bytes in
    let s := AllocObject copy (klass_ x) target s in
    y ← get_object copy s;
    b ← CopyObject (bytes y) (bytes x) num_bytes;
    Done (mkStore (classes s) (<[copy := mkObject (klass_ x) b]> (objects s))).

Definition SetClass (o c : Z) (s : store) : cres store :=
  x ← get_object o s; Done (mkStore (classes s) (<[o := mkObject c (bytes x)]> (objects s))).

(** [initialized] is the answer of EnsureInitialized. *)
Definition XposedBridge_setObjectClassNative (initialized : bool) (o c : Z) (s : store) : cres store :=
  if negb initialized then Done s else SetClass o c s.

Definition XposedBridge_cloneToSubclassNative (o c dest : Z) (s : store) : cres store :=
  k ← get_class c s;
  s ← Clone o dest (object_size_ k) s;
  SetClass dest c s.

(** Every object has at least the memory that its class needs. *)
Definition big_enough (s : store) : Prop :=
  forall o x, objects s !! o = Some x -> exists k, classes s !! klass_ x = Some k /\
    object_size_ k <= Z.of_nat (length (bytes x)).
Definition sizes_ok (s : store) : Prop :=
  forall c k, classes s !! c = Some k -> header_size <= object_size_ k.

Lemma copy_length dest src n b : CopyObject dest src n = Done b -> header_size <= n -> length b = length dest.
Proof.
  unfold CopyObject, header_size. destruct (_ && _) eqn:E; [|done]. intros [= <-] Hn.
  apply andb_true_iff in E as [E1 E2]. apply Nat.leb_le in E1, E2.
  rewrite !length_app, !length_drop, !length_take. lia.
Qed.

Lemma big_enough_insert s o x k : big_enough s -> classes s !! klass_ x = Some k ->
  object_size_ k <= Z.of_nat (length (bytes x)) -> big_enough (mkStore (classes s) (<[o := x]> (objects s))).
Proof.
  intros Hb Hk Hl a z Ha. cbn in *. apply lookup_insert_Some in Ha as [[_ <-]|[_ Ha]]; [by exists k|].
  by apply (Hb a).
Qed.

Lemma prepare_ok clazz sub s : classes s !! clazz = Some sub -> super_class_ sub <> clazz -> sizes_ok s -> big_enough s ->
  is_Some (classes s !! super_class_ sub) ->
  (forall o x, objects s !! o = Some x -> klass_ x <> super_class_ sub) ->
  exists s', prepareSubclassReplacement clazz s = Done s' /\ big_enough s' /\ sizes_ok s' /\
    classes s' !! clazz = Some sub /\
    exists k, classes s' !! super_class_ sub = Some k /\ object_size_ k = object_size_ sub.
Proof.
  intros Hsub Hne Hz Hb [k Hk] Hnone. unfold prepareSubclassReplacement, SetObjectSize, get_class.
  rewrite Hsub. cbn [deref mbind cres_bind]. rewrite Hk. cbn [deref mbind cres_bind]. eexists. split; [done|]. split; [|split; [|split]].
  - intros o x Ho. cbn in *. destruct (Hb o x Ho) as (ky & Hky & Hl). exists ky. split; [|done].
    rewrite lookup_insert_ne; [done|]. intros E. by apply (Hnone o x Ho).
  - intros c kc Hc. cbn in Hc. apply lookup_insert_Some in Hc as [[_ <-]|[_ Hc]]; [|by apply (Hz c)].
    exact (Hz clazz sub Hsub).
  - cbn. by rewrite lookup_insert_ne.
  - eexists. cbn. rewrite lookup_insert_eq. done.
Qed.

(** A clone to the class [c]: it aborts if the class is too small, and
    otherwise has the size of the class. *)
Lemma clone_ok s x y ky o c kc : big_enough s -> sizes_ok s -> objects s !! x = Some y ->
  classes s !! klass_ y = Some ky -> classes s !! c = Some kc ->
  (object_size_ kc < object_size_ ky /\ XposedBridge_cloneToSubclassNative x c o s = Fault Aborted) \/
  exists z, XposedBridge_cloneToSubclassNative x c o s = Done (mkStore (classes s) (<[o := z]> (objects s))) /\
    klass_ z = c /\ Z.of_nat (length (bytes z)) = object_size_ kc.
Proof.
  intros Hb Hz Hy Hky Hc. pose proof (Hz c kc Hc) as Hzc. pose proof (Hz _ ky Hky) as Hzk. unfold header_size in *.
  unfold XposedBridge_cloneToSubclassNative, Clone, get_class, get_object. rewrite Hc. cbn [deref mbind cres_bind].
  rewrite Hy. cbn [deref mbind cres_bind]. rewrite Hky. cbn [deref mbind cres_bind].
  destruct (Z.eqb_spec (object_size_ kc) 0) as [|Hnz]; [lia|]. cbn [negb andb].
  destruct (Z.ltb_spec (object_size_ kc) (object_size_ ky)) as [Hlt|Hge]; [by left|right].
  cbn [AllocObject objects]. rewrite lookup_insert_eq. cbn [deref mbind cres_bind bytes].
  destruct (Hb x y Hy) as (ky' & Hky' & Hl). rewrite Hky in Hky'. injection Hky' as <-.
  destruct (CopyObject _ (bytes y) (object_size_ ky)) as [b|] eqn:E.
  - pose proof (copy_length _ _ _ _ E Hzk) as Hlen. rewrite length_replicate in Hlen. cbn [mbind cres_bind].
    unfold SetClass, get_object. cbn [objects]. rewrite lookup_insert_eq. cbn [deref mbind cres_bind classes bytes].
    exists (mkObject c b). rewrite !insert_insert_eq. split; [done|]. split; [done|]. cbn. lia.
  - unfold CopyObject in E. rewrite length_replicate in E. destruct (_ && _) eqn:E2; [done|].
    apply andb_false_iff in E2 as [E2|E2]; apply Nat.leb_gt in E2; lia.
Qed.

(** What happens to objects once the superclass of [clazz] is prepared. *)
Inductive step (clazz sup : Z) : store -> store -> Prop :=
| step_alloc o c k s : objects s !! o = None -> classes s !! c = Some k ->
    step clazz sup s (AllocObject o c (object_size_ k) s)
| step_set initialized o x s s' : objects s !! o = Some x -> klass_ x = sup ->
    XposedBridge_setObjectClassNative initialized o clazz s = Done s' -> step clazz sup s s'
| step_clone x c dest s s' : objects s !! dest = None ->
    XposedBridge_cloneToSubclassNative x c dest s = Done s' -> step clazz sup s s'.

Definition prepared (clazz sup : Z) (s : store) : Prop :=
  big_enough s /\ sizes_ok s /\ exists k1 k2, classes s !! clazz = Some k1 /\ classes s !! sup = Some k2 /\
    object_size_ k2 = object_size_ k1.

Lemma step_prepared clazz sup s s' : step clazz sup s s' -> prepared clazz sup s -> prepared clazz sup s'.
Proof.
  intros Hs (Hb & Hz & k1 & k2 & H1 & H2 & E). destruct Hs as [o c k s _ Hc|i o x s s' Ho Hx Hset|x c dest s s' _ Hcl].
  - split; [|split; [exact Hz|by exists k1, k2]]. apply (big_enough_insert s o _ k Hb); [done|]. cbn.
    rewrite length_replicate. pose proof (Hz c k Hc). unfold header_size in *. lia.
  - unfold XposedBridge_setObjectClassNative in Hset. destruct i; cbn in Hset; [|injection Hset as <-; by split; [|split; [|exists k1, k2]]].
    unfold SetClass, get_object in Hset. rewrite Ho in Hset. injection Hset as <-.
    split; [|split; [exact Hz|by exists k1, k2]]. apply (big_enough_insert s o _ k1 Hb); [done|]. cbn.
    destruct (Hb o x Ho) as (k & Hk & Hl). rewrite Hx, H2 in Hk. injection Hk as <-. lia.
  - destruct (objects s !! x) as [y|] eqn:Hy.
    2:{ unfold XposedBridge_cloneToSubclassNative, Clone, get_class, get_object in Hcl.
        destruct (classes s !! c); cbn in Hcl; [|done]. by rewrite Hy in Hcl. }
    destruct (Hb x y Hy) as (ky & Hky & _).
    destruct (classes s !! c) as [kc|] eqn:Hc.
    2:{ unfold XposedBridge_cloneToSubclassNative, get_class in Hcl. by rewrite Hc in Hcl. }
    destruct (clone_ok s x y ky dest c kc Hb Hz Hy Hky Hc) as [[_ Hf]|(z & Hz' & Hzc & Hlz)]; [congruence|].
    rewrite Hz' in Hcl. injection Hcl as <-. split; [|split; [exact Hz|by exists k1, k2]].
    apply (big_enough_insert s dest z kc Hb); [by rewrite Hzc|lia].
Qed.

Lemma steps_prepared clazz sup s s' : rtc (step clazz sup) s s' -> prepared clazz sup s -> prepared clazz sup s'.
Proof. induction 1 as [|x y z Hs _ IH]; [done|]. intros Hp. apply IH. by apply (step_prepared _ _ x). Qed.
End Objects.

(** Objects are never too small for their class.  If the superclass of a
    class is prepared before it has instances, then whatever is allocated, cloned
    to a subclass or given the class afterwards, every object has at least the
    memory that its class needs; and a clone to a class with more fields succeeds
    and has exactly the memory of that class. *)
Theorem subclass_replacement_safe clazz sub s (Hsub : Objects.classes s !! clazz = Some sub)
    (Hne : Objects.super_class_ sub <> clazz) (Hsizes : Objects.sizes_ok s) (Hbig : Objects.big_enough s)
    (Hsuper : is_Some (Objects.classes s !! Objects.super_class_ sub))
    (Hnone : forall o x, Objects.objects s !! o = Some x -> Objects.klass_ x <> Objects.super_class_ sub) :
  exists s1, Objects.prepareSubclassReplacement clazz s = Done s1 /\
    forall s2, rtc (Objects.step clazz (Objects.super_class_ sub)) s1 s2 ->
      Objects.big_enough s2 /\
      forall x y dest ky, Objects.objects s2 !! x = Some y -> Objects.classes s2 !! Objects.klass_ y = Some ky ->
        (exists k, Objects.classes s2 !! clazz = Some k /\ Objects.object_size_ ky <= Objects.object_size_ k) ->
        exists s3 z k, Objects.XposedBridge_cloneToSubclassNative x clazz dest s2 = Done s3 /\
          Objects.objects s3 !! dest = Some z /\ Objects.klass_ z = clazz /\
          Objects.classes s3 !! clazz = Some k /\ Z.of_nat (length (Objects.bytes z)) = Objects.object_size_ k.
Proof.
  destruct (Objects.prepare_ok clazz sub s Hsub Hne Hsizes Hbig Hsuper Hnone) as (s1 & E & Hb & Hz & Hc & k & Hk & Hkk).
  exists s1. split; [done|]. intros s2 Hrun.
  assert (Objects.prepared clazz (Objects.super_class_ sub) s2) as (Hb2 & Hz2 & _).
  { apply (Objects.steps_prepared _ _ _ _ Hrun). split; [done|]. split; [done|]. by exists sub, k. }
  split; [done|]. intros x y dest ky Hy Hky (kc & Hkc & Hle).
  destruct (Objects.clone_ok s2 x y ky dest clazz kc Hb2 Hz2 Hy Hky Hkc) as [[Hlt _]|(z & Hcl & Hzc & Hlz)]; [lia|].
  do 3 eexists. split; [exact Hcl|]. cbn. rewrite lookup_insert_eq. done.
Qed.

(** TypedArray (20 bytes) and XTypedArray (28 bytes). *)
Definition demo_classes : Objects.store :=
  Objects.mkStore (<[1 := Objects.mkClass 0 20]> (<[2 := Objects.mkClass 1 28]> ∅)) ∅.

Lemma subclass_replacement_safe_witness : exists s1,
  Objects.prepareSubclassReplacement 2 demo_classes = Done s1.
Proof.
  destruct (subclass_replacement_safe 2 (Objects.mkClass 1 28) demo_classes) as (s1 & E & _).
  - reflexivity.
  - done.
  - intros c k Hc. cbn in Hc. unfold Objects.header_size.
    repeat (apply lookup_insert_Some in Hc as [[_ <-]|[_ Hc]]; [cbn; lia|]). by rewrite lookup_empty in Hc.
  - intros o x Ho. cbn in Ho. by rewrite lookup_empty in Ho.
  - by eexists.
  - intros o x Ho. cbn in Ho. by rewrite lookup_empty in Ho.
  - by exists s1.
Defined.

(** ** Configuration and files *)

(** [readIntConfig]: [None] when the file cannot be opened, and the number that
    fscanf reads, if any. *)
Definition readIntConfig (file : option (option Z)) (defaultValue : Z) : Z :=
  match file with
  | None => defaultValue
  | Some (Some result) => result
  | Some None => defaultValue
  end.

Module ZygoteService.
Definition ENOENT : Z := 2.
Inductive exn := FileNotFoundException | IOException (errno : Z).

(** What the service functions of the process answer: the result of access and
    stat with errno, the size and time of a file, its contents. *)
Section Natives.
Context (accessFile : cstr -> Z -> Z) (statFile : cstr -> (Z * Z) + Z) (readFile : cstr -> list Z + Z).
(** Whether an array of a size can be allocated. *)
Context (NewByteArray_ok : Z -> bool).

Definition file_error (errno : Z) : exn := if errno =? ENOENT then FileNotFoundException else IOException errno.

Definition checkFileAccess (filename : cstr) (mode : Z) : bool := accessFile filename mode =? 0.

(** The FileResult object with its size and time, or the exception. *)
Definition statFile_ (filename : cstr) : (Z * Z) + exn :=
  match statFile filename with inl st => inl st | inr errno => inr (file_error errno) end.

(** The byte array, null without memory for it, or the exception. *)
Definition readFile_ (filename : cstr) : option (list Z) + exn :=
  match readFile filename with
  | inr errno => inr (file_error errno)
  | inl content => inl (if NewByteArray_ok (Z.of_nat (length content)) then Some content else None)
  end.
End Natives.
End ZygoteService.

(** ** Resource references in XML *)

Module Xml.

(** An attribute of a start tag: the index of its name in the string pool, the
    type of its value and the value. *)
Record attribute := mkAttribute { nameID : Z; dataType : Z; data : Z }.
Inductive event := START_TAG (attrs : list attribute) | END_DOCUMENT | BAD_DOCUMENT | OTHER_EVENT.

Section Rewrite.
Context (TYPE_REFERENCE : Z).
(** The names in the string pool, and the Java methods translateAttrId and
    translateResId; [None] when they throw. *)
Context (stringAt : Z -> cstr) (translateAttrId : cstr -> option Z) (translateResId : Z -> option Z).

(** Whether the resource ID of the attribute's name is to be replaced. *)
Definition app_name (mResIds : list Z) (n : Z) : bool :=
  (0 <=? n) && (n <? Z.of_nat (length mResIds)) &&
  (0x7f000000 <=? default 0 (mResIds !! Z.to_nat n)).

Definition rewrite_name (mResIds : list Z) (n : Z) : option (list Z) :=
  if app_name mResIds n then
    attrResID ← translateAttrId (stringAt n); Some (<[Z.to_nat n := uwrap 32 attrResID]> mResIds)
  else Some mResIds.

Definition app_reference (a : attribute) : bool :=
  (dataType a =? TYPE_REFERENCE) && (0x7f000000 <=? swrap 32 (data a)).

Definition rewrite_value (a : attribute) : option attribute :=
  if negb (dataType a =? TYPE_REFERENCE) then Some a
  else
    let oldValue := swrap 32 (data a) in
    if oldValue <? 0x7f000000 then Some a
    else
      newValue ← translateResId oldValue;
      Some (if negb (newValue =? oldValue) then mkAttribute (nameID a) (dataType a) (uwrap 32 newValue) else a).

(** The loop over the attributes of a tag: the IDs, the attributes, and whether
    it was left with an exception. *)
Fixpoint rewrite_attrs (mResIds : list Z) (attrs : list attribute) : list Z * list attribute * bool :=
  match attrs with
  | [] => (mResIds, [], false)
  | a :: attrs =>
      match rewrite_name mResIds (nameID a) with
      | None => (mResIds, a :: attrs, true)
      | Some mResIds =>
          match rewrite_value a with
          | None => (mResIds, a :: attrs, true)
          | Some a =>
              let '(mResIds, attrs, thrown) := rewrite_attrs mResIds attrs in (mResIds, a :: attrs, thrown)
          end
      end
  end.

(** The loop over the events; the parser delivers no event behind the end. *)
Fixpoint rewrite_events (mResIds : list Z) (events : list event) : list Z * list event * bool :=
  match events with
  | [] => (mResIds, [], false)
  | START_TAG attrs :: events =>
      let '(mResIds, attrs, thrown) := rewrite_attrs mResIds attrs in
      if thrown then (mResIds, START_TAG attrs :: events, true)
      else let '(mResIds, events, thrown) := rewrite_events mResIds events in (mResIds, START_TAG attrs :: events, thrown)
  | END_DOCUMENT :: events => (mResIds, END_DOCUMENT :: events, false)
  | BAD_DOCUMENT :: events => (mResIds, BAD_DOCUMENT :: events, false)
  | OTHER_EVENT :: events =>
      let '(mResIds, events, thrown) := rewrite_events mResIds events in (mResIds, OTHER_EVENT :: events, thrown)
  end.

(** [XResources_rewriteXmlReferencesNative].  The parser is read before it is
    compared with null. *)
Definition rewriteXmlReferencesNative (parser : option (list Z * list event)) : cres (list Z * list event * bool) :=
  tree ← deref parser;
  Done (rewrite_events (fst tree) (snd tree)).

(** ** What it should do *)

(** The attributes that are visited. *)
Fixpoint visited (events : list event) : list attribute :=
  match events with
  | [] => []
  | START_TAG attrs :: events => attrs ++ visited events
  | OTHER_EVENT :: events => visited events
  | _ => []
  end.

(** The resource ID of the name [n] after the rewriting of attributes [attrs]. *)
Definition wanted_id (attrs : list attribute) (n : nat) (id : Z) : Z :=
  if bool_decide (Z.of_nat n ∈ map nameID attrs) && (0x7f000000 <=? id)
  then match translateAttrId (stringAt (Z.of_nat n)) with Some v => uwrap 32 v | None => id end
  else id.
Definition wanted_ids (attrs : list attribute) (mResIds : list Z) : list Z := imap (wanted_id attrs) mResIds.

Definition wanted_value (a : attribute) : attribute :=
  if app_reference a then
    match translateResId (swrap 32 (data a)) with
    | Some v => if v =? swrap 32 (data a) then a else mkAttribute (nameID a) (dataType a) (uwrap 32 v)
    | None => a
    end
  else a.

(** No translation that is needed throws. *)
Definition translates (mResIds : list Z) (a : attribute) : Prop :=
  (app_name mResIds (nameID a) = true -> is_Some (translateAttrId (stringAt (nameID a)))) /\
  (app_reference a = true -> is_Some (translateResId (swrap 32 (data a)))).

Fixpoint wanted_events (events : list event) : list event :=
  match events with
  | [] => []
  | START_TAG attrs :: events => START_TAG (map wanted_value attrs) :: wanted_events events
  | OTHER_EVENT :: events => OTHER_EVENT :: wanted_events events
  | e :: events => e :: events
  end.

Lemma rewrite_value_wanted a : (app_reference a = true -> is_Some (translateResId (swrap 32 (data a)))) ->
  rewrite_value a = Some (wanted_value a).
Proof.
  unfold rewrite_value, wanted_value, app_reference. destruct (dataType a =? TYPE_REFERENCE); [|done]. cbn [negb andb].
  rewrite Z.ltb_antisym. destruct (0x7f000000 <=? swrap 32 (data a)); [|done]. cbn [negb]. intros Hs.
  destruct Hs as [v ->]; [done|]. cbn. by destruct (v =? _).
Qed.

Lemma lookup_wanted attrs ids i : wanted_ids attrs ids !! i = wanted_id attrs i <$> ids !! i.
Proof. apply list_lookup_imap. Qed.

(** The first attribute and then the others are all of them. *)
Lemma wanted_ids_app attrs1 attrs2 ids : wanted_ids (attrs1 ++ attrs2) ids = wanted_ids attrs2 (wanted_ids attrs1 ids).
Proof.
  apply list_eq. intros i. rewrite !lookup_wanted. destruct (ids !! i) as [id|]; [|done]. cbn. f_equal.
  unfold wanted_id. rewrite map_app.
  assert (bool_decide (Z.of_nat i ∈ map nameID attrs1 ++ map nameID attrs2) =
    bool_decide (Z.of_nat i ∈ map nameID attrs1) || bool_decide (Z.of_nat i ∈ map nameID attrs2)) as ->.
  { rewrite <- bool_decide_or. apply bool_decide_ext. apply elem_of_app. }
  destruct (bool_decide (Z.of_nat i ∈ map nameID attrs1)), (bool_decide (Z.of_nat i ∈ map nameID attrs2)); cbn [orb andb];
    destruct (0x7f000000 <=? id) eqn:E; try done; destruct (translateAttrId _); try done;
    rewrite ?E; try done.
  by case_match.
Qed.

Lemma rewrite_name_wanted ids a : translates ids a -> rewrite_name ids (nameID a) = Some (wanted_ids [a] ids).
Proof.
  intros [Hn _]. unfold rewrite_name. destruct (app_name ids (nameID a)) eqn:E.
  - destruct (Hn eq_refl) as [v Hv]. rewrite Hv. cbn [mbind option_bind]. f_equal.
    unfold app_name in E. apply andb_true_iff in E as [E E3]. apply andb_true_iff in E as [E1 E2].
    apply Z.leb_le in E1. apply Z.ltb_lt in E2.
    apply list_eq. intros i. rewrite lookup_wanted. unfold wanted_id. cbn [map].
    destruct (decide (i = Z.to_nat (nameID a))) as [->|Hi].
    + destruct (ids !! Z.to_nat (nameID a)) as [id|] eqn:Hid; [|apply lookup_ge_None in Hid; lia].
      rewrite list_lookup_insert_eq by lia. cbn in *. rewrite Z2Nat.id by lia.
      rewrite bool_decide_eq_true_2 by (apply list_elem_of_singleton; done). cbn [andb]. by rewrite E3, Hv.
    + rewrite list_lookup_insert_ne by done. destruct (ids !! i); [|done]. cbn.
      rewrite bool_decide_eq_false_2; [done|]. rewrite list_elem_of_singleton. lia.
  - f_equal. apply list_eq. intros i. rewrite lookup_wanted. destruct (ids !! i) as [id|] eqn:Hid; [|done]. cbn. f_equal.
    unfold wanted_id. cbn [map]. destruct (bool_decide (Z.of_nat i ∈ [nameID a])) eqn:Hin; [|done].
    apply bool_decide_eq_true, list_elem_of_singleton in Hin. destruct (Z.leb_spec 0x7f000000 id); [|done]. exfalso.
    apply lookup_lt_Some in Hid as Hlt. unfold app_name in E. rewrite <- Hin, Nat2Z.id, Hid in E. cbn in E.
    rewrite (proj2 (Z.leb_le 0 _)), (proj2 (Z.ltb_lt _ _)), (proj2 (Z.leb_le _ _)) in E by lia. done.
Qed.

Lemma translates_after ids a b : translates ids a -> translates ids b -> translates (wanted_ids [a] ids) b.
Proof.
  intros [Ha _] [Hb1 Hb2]. split; [|done]. intros Hn. destruct (decide (nameID b = nameID a)) as [E|Hne].
  - destruct (app_name ids (nameID a)) eqn:Ea; [rewrite E; by apply Ha|].
    apply Hb1. unfold app_name in Hn. unfold app_name. destruct (0 <=? nameID b); [|done]. cbn [andb] in *.
    unfold wanted_ids in Hn at 1. rewrite length_imap in Hn. destruct (nameID b <? Z.of_nat (length ids)); [|done]. cbn [andb] in *.
    rewrite lookup_wanted in Hn. destruct (ids !! Z.to_nat (nameID b)) as [id|] eqn:Hid; [|done]. cbn in *.
    unfold wanted_id in Hn. destruct (0x7f000000 <=? id) eqn:Eid; [done|]. rewrite andb_false_r in Hn. congruence.
  - apply Hb1. unfold app_name in *. destruct (Z.leb_spec 0 (nameID b)); [|done]. cbn [andb] in *.
    unfold wanted_ids in Hn at 1. rewrite length_imap in Hn. destruct (nameID b <? Z.of_nat (length ids)); [|done]. cbn [andb] in *.
    rewrite lookup_wanted in Hn. destruct (ids !! Z.to_nat (nameID b)) as [id|]; [|done]. cbn in *. unfold wanted_id in Hn.
    rewrite bool_decide_eq_false_2 in Hn; [done|]. cbn [map]. rewrite list_elem_of_singleton. lia.
Qed.

Lemma rewrite_attrs_wanted ids attrs : Forall (translates ids) attrs ->
  rewrite_attrs ids attrs = (wanted_ids attrs ids, map wanted_value attrs, false).
Proof.
  revert ids. induction attrs as [|a attrs IH]; intros ids Ht; cbn [rewrite_attrs map].
  - do 2 f_equal. apply list_eq. intros i. rewrite lookup_wanted. by destruct (ids !! i).
  - apply Forall_cons in Ht as [Ha Hts]. rewrite rewrite_name_wanted by done.
    rewrite rewrite_value_wanted by apply Ha. rewrite IH.
    + by rewrite (wanted_ids_app [a] attrs).
    + eapply Forall_impl; [exact Hts|]. intros b. by apply translates_after.
Qed.

Lemma translates_later ids attrs b : Forall (translates ids) attrs -> translates ids b -> translates (wanted_ids attrs ids) b.
Proof.
  revert ids. induction attrs as [|a attrs IH]; intros ids Ht Hb.
  - replace (wanted_ids [] ids) with ids; [done|]. apply list_eq. intros i. rewrite lookup_wanted. by destruct (ids !! i).
  - apply Forall_cons in Ht as [Ha Hts]. rewrite (wanted_ids_app [a] attrs). apply IH; [|by apply translates_after].
    eapply Forall_impl; [exact Hts|]. intros c. by apply translates_after.
Qed.

Lemma rewrite_events_wanted ids events : Forall (translates ids) (visited events) ->
  rewrite_events ids events = (wanted_ids (visited events) ids, wanted_events events, false).
Proof.
  revert ids. induction events as [|[attrs| | |] events IH]; intros ids Ht; cbn [rewrite_events visited wanted_events] in *.
  2:{ apply Forall_app in Ht as [Ht1 Ht2]. rewrite rewrite_attrs_wanted by done. rewrite IH.
      - by rewrite wanted_ids_app.
      - eapply Forall_impl; [exact Ht2|]. intros b. by apply translates_later. }
  4:{ by rewrite IH. }
  all: do 2 f_equal; apply list_eq; intros i; rewrite lookup_wanted; by destruct (ids !! i).
Qed.
End Rewrite.
End Xml.

(** Rewriting the references of an XML file for a replacing package.  If no
    translation throws, then afterwards every reference to a resource of the
    app's package has the translated ID, every attribute name of the app's
    package that is used has the ID that its name translates to, however often
    it is used, and everything else is as before. *)
Theorem rewrite_xml_spec TYPE_REFERENCE stringAt translateAttrId translateResId ids events
    (Ht : Forall (Xml.translates TYPE_REFERENCE stringAt translateAttrId translateResId ids) (Xml.visited events)) :
  Xml.rewriteXmlReferencesNative TYPE_REFERENCE stringAt translateAttrId translateResId (Some (ids, events)) =
  Done (Xml.wanted_ids stringAt translateAttrId (Xml.visited events) ids,
        Xml.wanted_events TYPE_REFERENCE translateResId events, false).
Proof.
  unfold Xml.rewriteXmlReferencesNative. cbn [deref mbind cres_bind fst snd].
  by rewrite Xml.rewrite_events_wanted.
Qed.

(** A layout with one tag whose attribute refers to a resource of the app. *)
Lemma rewrite_xml_spec_witness :
  Xml.rewriteXmlReferencesNative 1 (fun _ => lit "id") (fun _ => Some 0x7f010002) (fun v => Some (v + 1))
    (Some ([0x7f010001], [Xml.START_TAG [Xml.mkAttribute 0 1 0x7f020005]; Xml.END_DOCUMENT])) =
  Done ([0x7f010002], [Xml.START_TAG [Xml.mkAttribute 0 1 0x7f020006]; Xml.END_DOCUMENT], false).
Proof.
  rewrite rewrite_xml_spec; [reflexivity|]. repeat constructor; intros _; by eexists.
Defined.
