(* ===== verification/Locations.v ===== *)
(** * Locations: operands of the optimizing compiler
      (compiler/optimizing/locations.h, runtime/base/bit_field.h)

    A location is a machine word of the host: a kind in four bits with a payload
    above them, or a pointer to a constant with a tag in its two low bits. *)

From stdpp Require Import base.
From S2P Require Import Prelude.

(** The machine word of the host that the compiler runs on. *)
Class HostWord := { kBitsPerWord : Z; kBitsPerWord_ok : kBitsPerWord = 32 \/ kBitsPerWord = 64 }.

Section Locations.
Context `{HostWord}.

(** ** Bit fields *)

Definition BitField_Encode (position value : Z) : Z := uwrap kBitsPerWord (Z.shiftl value position).
Definition BitField_Decode (position size value : Z) : Z := Z.land (Z.shiftr value position) (2 ^ size - 1).

(** ** Locations *)

Definition kInvalid := 0.
Definition kConstant := 1.
Definition kStackSlot := 2.
Definition kDoubleStackSlot := 3.
Definition kRegister := 4.
Definition kQuickParameter := 5.
Definition kUnallocated := 6.

Definition kBitsForKind := 4.
Definition kBitsForPayload := kBitsPerWord - kBitsForKind.
Definition kLocationTagMask := 3.
Definition kStackIndexBias := 2 ^ (kBitsForPayload - 1).

Definition Location := Z.
Definition new_Location (kind payload : Z) : Location :=
  Z.lor (BitField_Encode 0 kind) (BitField_Encode kBitsForKind payload).
Definition NoLocation : Location := kInvalid.
Definition GetKind (l : Location) : Z := BitField_Decode 0 kBitsForKind l.
Definition GetPayload (l : Location) : Z := BitField_Decode kBitsForKind kBitsForPayload l.

Definition IsConstant (l : Location) : bool := Z.land l kLocationTagMask =? kConstant.
Definition ConstantLocation (constant : Z) : Location := Z.lor kConstant constant.
Definition GetConstant (l : Location) : Z := Z.ldiff l kLocationTagMask.
Definition IsInvalid (l : Location) : bool := l =? kInvalid.

Definition RegisterLocation (id : Z) : Location := new_Location kRegister id.
Definition IsRegister (l : Location) : bool := GetKind l =? kRegister.
Definition reg (l : Location) : Z := GetPayload l.

Definition EncodeStackIndex (stack_index : Z) : Z := uwrap kBitsPerWord (kStackIndexBias + stack_index).
Definition StackSlot (stack_index : Z) : Location := new_Location kStackSlot (EncodeStackIndex stack_index).
Definition IsStackSlot (l : Location) : bool := GetKind l =? kStackSlot.
Definition DoubleStackSlot (stack_index : Z) : Location := new_Location kDoubleStackSlot (EncodeStackIndex stack_index).
Definition IsDoubleStackSlot (l : Location) : bool := GetKind l =? kDoubleStackSlot.
Definition GetStackIndex (l : Location) : Z := swrap kBitsPerWord (GetPayload l - kStackIndexBias).

Definition QuickParameter (parameter_index : Z) : Location := new_Location kQuickParameter parameter_index.
Definition IsQuickParameter (l : Location) : bool := GetKind l =? kQuickParameter.
Definition GetQuickParameterIndex (l : Location) : Z := GetPayload l.

Definition Equals (l other : Location) : bool := l =? other.

(** ** Round trips *)

Lemma word_bits : 28 <= kBitsForPayload.
Proof. unfold kBitsForPayload, kBitsForKind. destruct kBitsPerWord_ok as [-> | ->]; lia. Qed.
Lemma word_pow : 2 ^ kBitsPerWord = 16 * 2 ^ kBitsForPayload.
Proof.
  pose proof word_bits. unfold kBitsForPayload, kBitsForKind in *. rewrite <- (Z.pow_add_r 2 4) by lia. f_equal. lia.
Qed.

Lemma new_Location_value kind payload : in_u 4 kind -> in_u kBitsForPayload payload -> new_Location kind payload = kind + 16 * payload.
Proof.
  intros Hk Hp. unfold new_Location, BitField_Encode, in_u, kBitsForKind in *. pose proof word_pow as Hw. pose proof word_bits as Hb.
  pose proof (Z.pow_pos_nonneg 2 kBitsForPayload). change (2 ^ 4) with 16 in Hk.
  rewrite Z.shiftl_0_r, (uwrap_small _ kind) by (unfold in_u; lia).
  rewrite uwrap_small by (unfold in_u; rewrite Z.shiftl_mul_pow2 by lia; change (2 ^ 4) with 16; lia).
  rewrite lor_shiftl_add by lia. change (2 ^ 4) with 16. lia.
Qed.

Lemma decode_kind kind payload : in_u 4 kind -> in_u kBitsForPayload payload -> GetKind (new_Location kind payload) = kind.
Proof.
  intros Hk Hp. rewrite new_Location_value by done. unfold GetKind, BitField_Decode, kBitsForKind. rewrite Z.shiftr_0_r.
  change (2 ^ 4 - 1) with (Z.ones 4). rewrite Z.land_ones by lia. change (2 ^ 4) with 16. unfold in_u in Hk. change (2 ^ 4) with 16 in Hk.
  rewrite Z.mul_comm, Z.mod_add, Z.mod_small; lia.
Qed.
Lemma decode_payload kind payload : in_u 4 kind -> in_u kBitsForPayload payload -> GetPayload (new_Location kind payload) = payload.
Proof.
  intros Hk Hp. rewrite new_Location_value by done. unfold GetPayload, BitField_Decode, kBitsForKind. pose proof word_bits.
  rewrite Z.shiftr_div_pow2 by lia. unfold in_u in *. change (2 ^ 4) with 16 in *.
  replace (2 ^ kBitsForPayload - 1) with (Z.ones kBitsForPayload) by (rewrite Z.ones_equiv; lia). rewrite Z.land_ones by lia.
  rewrite Z.mul_comm, Z.div_add, Z.div_small, Z.mod_small; lia.
Qed.
Lemma tag_bits kind payload : in_u 4 kind -> in_u kBitsForPayload payload -> IsConstant (new_Location kind payload) = (kind mod 4 =? 1).
Proof.
  intros Hk Hp. rewrite new_Location_value by done. unfold IsConstant, kLocationTagMask. change 3 with (Z.ones 2) at 1. rewrite Z.land_ones by lia.
  f_equal. change (2 ^ 2) with 4. replace (kind + 16 * payload) with (kind + 4 * payload * 4) by lia. by rewrite Z.mod_add.
Qed.

Lemma stack_payload i : - kStackIndexBias <= i < kStackIndexBias -> EncodeStackIndex i = kStackIndexBias + i /\ in_u kBitsForPayload (EncodeStackIndex i).
Proof.
  intros Hi. pose proof word_bits as Hb. pose proof word_pow as Hw. unfold EncodeStackIndex. unfold kStackIndexBias in *.
  assert (2 ^ kBitsForPayload = 2 * 2 ^ (kBitsForPayload - 1)) as Hp by (rewrite <- Z.pow_succ_r by lia; f_equal; lia).
  rewrite uwrap_small by (unfold in_u; lia). unfold in_u. lia.
Qed.
Lemma stack_index kind i : in_u 4 kind -> - kStackIndexBias <= i < kStackIndexBias -> GetStackIndex (new_Location kind (EncodeStackIndex i)) = i.
Proof.
  intros Hk Hi. destruct (stack_payload i Hi) as [E Hp]. unfold GetStackIndex. rewrite decode_payload, E by done.
  replace (kStackIndexBias + i - kStackIndexBias) with i by lia. pose proof word_bits as Hb. unfold kBitsForPayload, kBitsForKind in Hb.
  apply swrap_small; [lia|]. unfold in_s, kStackIndexBias in *.
  assert (2 ^ (kBitsForPayload - 1) <= 2 ^ (kBitsPerWord - 1)); [|lia]. apply Z.pow_le_mono_r; [lia|]. unfold kBitsForPayload, kBitsForKind. lia.
Qed.

(** The kinds of the operands that code generators move. *)
Lemma register_location id : in_u kBitsForPayload id ->
  GetKind (RegisterLocation id) = kRegister /\ reg (RegisterLocation id) = id /\ IsConstant (RegisterLocation id) = false.
Proof.
  intros Hid. unfold RegisterLocation, reg. assert (in_u 4 kRegister) by (unfold in_u, kRegister; lia).
  by rewrite decode_kind, decode_payload, tag_bits.
Qed.
Lemma slot_location kind i : kind = kStackSlot \/ kind = kDoubleStackSlot -> - kStackIndexBias <= i < kStackIndexBias ->
  let l := new_Location kind (EncodeStackIndex i) in GetKind l = kind /\ GetStackIndex l = i /\ IsConstant l = false.
Proof.
  intros Hk Hi. destruct (stack_payload i Hi) as [_ Hp]. assert (in_u 4 kind) by (unfold in_u; destruct Hk as [-> | ->]; done).
  cbv zeta. rewrite decode_kind, stack_index, tag_bits by done. by destruct Hk as [-> | ->].
Qed.
(** A parameter of the quick compiler passes for a constant. *)
Lemma quick_parameter_constant index : in_u kBitsForPayload index -> IsConstant (QuickParameter index) = true.
Proof. intros Hi. unfold QuickParameter. rewrite tag_bits; [done|by unfold in_u|done]. Qed.
End Locations.
