(* ===== verification/ParallelMove.v ===== *)
(** * ParallelMove: the resolver of parallel moves
      (compiler/optimizing/parallel_move_resolver.{h,cc}, compiler/optimizing/nodes.h)

    The moves that happen at once between two instructions are put in an order,
    with swaps for the cycles.  The resolver is an abstract class: the code
    generators implement EmitMove and EmitSwap.  Here the two are a class of
    operations, [Emitter], with the promise a generator makes, [EmitterSpec],
    against which the resolver is proved to do all moves at once. *)

From stdpp Require Import base list.
From S2P Require Import Prelude Locations.

Record MoveOperands := mkMove { source_ : Location; destination_ : Location }.

(** A DCHECK stops a debug build. *)
Definition DCHECK (b : bool) : cres unit := if b then Done () else Fault Aborted.

(** ** MoveOperands *)

Definition IsPending (m : MoveOperands) : bool := IsInvalid (destination_ m) && negb (IsInvalid (source_ m)).
Definition IsEliminated (m : MoveOperands) : bool := IsInvalid (source_ m).
Definition Blocks (m : MoveOperands) (loc : Location) : bool := negb (IsEliminated m) && Equals (source_ m) loc.
Definition IsRedundant (m : MoveOperands) : bool :=
  IsEliminated m || IsInvalid (destination_ m) || Equals (source_ m) (destination_ m).
Definition SetSource (l : Location) (m : MoveOperands) : MoveOperands := mkMove l (destination_ m).
Definition MarkPending (m : MoveOperands) : MoveOperands := mkMove (source_ m) NoLocation.
Definition ClearPending (l : Location) (m : MoveOperands) : MoveOperands := mkMove (source_ m) l.
Definition Eliminate (m : MoveOperands) : MoveOperands := mkMove NoLocation NoLocation.

(** ** The resolver *)

(** The code of a machine with instructions [instr]; both methods see the list of
    the moves that are not yet resolved. *)
Class Emitter (instr : Type) := {
  EmitMove : list MoveOperands -> nat -> cres (list instr);
  EmitSwap : list MoveOperands -> nat -> cres (list instr)
}.

Definition IsScratchLocation (moves : list MoveOperands) (loc : Location) : bool :=
  negb (existsb (fun m => Blocks m loc) moves) && existsb (fun m => Equals (destination_ m) loc) moves.

Section Resolver.
Context `{Emitter instr}.

(** [moves_], and the code that has been emitted. *)
Record resolver := mkResolver { moves_ : list MoveOperands; emitted : list instr }.

Definition set_moves (f : list MoveOperands -> list MoveOperands) (r : resolver) : resolver := mkResolver (f (moves_ r)) (emitted r).
Definition set_at (index : nat) (m : MoveOperands) : resolver -> resolver := set_moves <[index := m]>.
Definition emit (code : list instr) (r : resolver) : resolver := mkResolver (moves_ r) (emitted r ++ code).

Fixpoint for_moves (f : nat -> resolver -> cres resolver) (l : list nat) (r : resolver) : cres resolver :=
  match l with [] => Done r | i :: l => r ← f i r; for_moves f l r end.
Definition indices (r : resolver) : list nat := seq 0 (length (moves_ r)).

(** The moves that block [destination] go first. *)
Definition perform_blocking (perform : nat -> resolver -> cres resolver) (destination : Location) (i : nat) (r : resolver) : cres resolver :=
  other_move ← deref (moves_ r !! i);
  if Blocks other_move destination && negb (IsPending other_move) then perform i r else Done r.

(** Whether a move is blocked: such a move must be pending. *)
Fixpoint blocked (destination : Location) (moves : list MoveOperands) : cres bool :=
  match moves with
  | [] => Done false
  | other_move :: moves =>
      if Blocks other_move destination then _ ← DCHECK (IsPending other_move); Done true else blocked destination moves
  end.

(** The sources after a swap. *)
Definition swap_source (source destination : Location) (m : MoveOperands) : MoveOperands :=
  if Blocks m source then SetSource destination m else if Blocks m destination then SetSource source m else m.

Definition finish_move (index : nat) (destination : Location) (r : resolver) : cres resolver :=
  move ← deref (moves_ r !! index);
  _ ← DCHECK (IsPending move);
  let move := ClearPending destination move in
  let r := set_at index move r in
  if Equals (source_ move) destination then Done (set_at index (Eliminate move) r)
  else
    do_swap ← blocked destination (moves_ r);
    if (do_swap : bool) then
      code ← EmitSwap (moves_ r) index;
      let r := emit code r in
      let source := source_ move in
      let destination := destination_ move in
      let r := set_at index (Eliminate move) r in
      Done (set_moves (fmap (swap_source source destination)) r)
    else
      code ← EmitMove (moves_ r) index;
      Done (set_at index (Eliminate move) (emit code r)).

Fixpoint PerformMove (fuel : nat) (index : nat) (r : resolver) : cres resolver :=
  match fuel with
  | O => Fault OutOfFuel
  | S fuel =>
      move ← deref (moves_ r !! index);
      _ ← DCHECK (negb (IsPending move));
      _ ← DCHECK (negb (IsRedundant move));
      _ ← DCHECK (negb (IsInvalid (source_ move)));
      let destination := destination_ move in
      let r := set_at index (MarkPending move) r in
      r ← for_moves (perform_blocking (PerformMove fuel) destination) (indices r) r;
      finish_move index destination r
  end.

Definition BuildInitialMoveList (parallel_move : list MoveOperands) : list MoveOperands :=
  filter (fun m => IsRedundant m = false) parallel_move.

Definition perform_unless_constant (i : nat) (r : resolver) : cres resolver :=
  move ← deref (moves_ r !! i);
  if negb (IsEliminated move) && negb (IsConstant (source_ move)) then PerformMove (length (moves_ r)) i r else Done r.
Definition perform_constant (i : nat) (r : resolver) : cres resolver :=
  move ← deref (moves_ r !! i);
  if negb (IsEliminated move) then
    _ ← DCHECK (IsConstant (source_ move));
    code ← EmitMove (moves_ r) i;
    Done (emit code r)
  else Done r.

Definition EmitNativeCode (parallel_move : list MoveOperands) : cres (list instr) :=
  let r := mkResolver (BuildInitialMoveList parallel_move) [] in
  r ← for_moves perform_unless_constant (indices r) r;
  r ← for_moves perform_constant (indices r) r;
  Done (emitted r).
End Resolver.

(** ** Scratch registers *)

Definition kNoRegister := -1.

(** The register, and whether its value has to be saved. *)
Definition AllocateScratchRegister `{HostWord} (moves : list MoveOperands) (blocked register_count if_scratch : Z) : Z * bool :=
  match list_find (fun reg => blocked <> Z.of_nat reg /\ IsScratchLocation moves (RegisterLocation (Z.of_nat reg)) = true)
          (seq 0 (Z.to_nat register_count)) with
  | Some (_, scratch) => (Z.of_nat scratch, false)
  | None => (if_scratch, true)
  end.

(** ** What a code generator promises *)

Fixpoint run_all {instr state} (run : instr -> state -> cres state) (code : list instr) (s : state) : cres state :=
  match code with [] => Done s | i :: code => s ← run i s; run_all run code s end.

Lemma run_all_app {instr state} (run : instr -> state -> cres state) c1 c2 s :
  run_all run (c1 ++ c2) s = s ← run_all run c1 s; run_all run c2 s.
Proof. revert s. induction c1 as [|i c1 IH]; intros s; [done|]. cbn. destruct (run i s); [apply IH|done]. Qed.

(** [usable] locations can be read and written, [literal] ones only be read.
    A move and a swap do what they say; besides, they may lose what is in
    scratch locations, which nothing reads before it is written.  The rest
    of the machine is related by [same_frame]. *)
Class EmitterSpec (instr : Type) `{Emitter instr} := {
  machine : Type;
  value : Type;
  run : instr -> machine -> cres machine;
  read : machine -> Location -> value;
  usable : Location -> Prop;
  literal : Location -> Prop;
  valid : machine -> Prop;
  same_frame : machine -> machine -> Prop;
  frame_refl s : same_frame s s;
  frame_trans s1 s2 s3 : same_frame s1 s2 -> same_frame s2 s3 -> same_frame s1 s3;
  usable_ok l : usable l -> IsConstant l = false /\ l <> NoLocation;
  literal_ok l : literal l -> IsConstant l = true;
  read_literal l s s' : literal l -> read s l = read s' l;
  move_spec moves i m : moves !! i = Some m -> usable (source_ m) \/ literal (source_ m) -> usable (destination_ m) ->
    Forall (fun m => destination_ m = NoLocation \/ usable (destination_ m)) moves ->
    Forall (fun m' => Blocks m' (destination_ m) = false) moves ->
    exists code, EmitMove moves i = Done code /\ forall s, valid s ->
      exists s', run_all run code s = Done s' /\ valid s' /\ same_frame s s' /\ read s' (destination_ m) = read s (source_ m) /\
        forall l, usable l -> l <> destination_ m -> IsScratchLocation moves l = false \/ literal (source_ m) -> read s' l = read s l;
  swap_spec moves i m : moves !! i = Some m -> usable (source_ m) -> usable (destination_ m) -> source_ m <> destination_ m ->
    Forall (fun m => destination_ m = NoLocation \/ usable (destination_ m)) moves ->
    Exists (fun m' => Blocks m' (destination_ m) = true) moves ->
    exists code, EmitSwap moves i = Done code /\ forall s, valid s ->
      exists s', run_all run code s = Done s' /\ valid s' /\ same_frame s s' /\
        read s' (destination_ m) = read s (source_ m) /\ read s' (source_ m) = read s (destination_ m) /\
        forall l, usable l -> l <> destination_ m -> l <> source_ m -> IsScratchLocation moves l = false -> read s' l = read s l
}.

(** ** The resolver does all moves at once *)

Section Correct.
Context `{EmitterSpec instr}.
Context (orig : list MoveOperands).
Context (Horig : Forall (fun m => (usable (source_ m) \/ literal (source_ m)) /\ usable (destination_ m) /\ source_ m <> destination_ m) orig).
Context (Hdistinct : NoDup (destination_ <$> orig)).

Definition src (i : nat) : Location := default NoLocation (source_ <$> orig !! i).
Definition dest (i : nat) : Location := default NoLocation (destination_ <$> orig !! i).
Abbreviation gone := (mkMove NoLocation NoLocation).

Lemma dest_usable i : (i < length orig)%nat -> usable (dest i).
Proof.
  intros Hi. destruct (lookup_lt_is_Some_2 _ _ Hi) as [m Hm]. unfold dest. rewrite Hm. cbn. by apply (Forall_lookup_1 _ _ _ _ Horig Hm).
Qed.
Lemma dest_inj i j : (i < length orig)%nat -> (j < length orig)%nat -> dest i = dest j -> i = j.
Proof.
  intros Hi Hj E. destruct (lookup_lt_is_Some_2 _ _ Hi) as [m Hm]. destruct (lookup_lt_is_Some_2 _ _ Hj) as [m' Hm'].
  unfold dest in E. rewrite Hm, Hm' in E. cbn in E.
  apply (NoDup_lookup _ _ _ (destination_ m) Hdistinct); rewrite list_lookup_fmap; [by rewrite Hm|by rewrite Hm', E].
Qed.

(** A move is done, in the middle of being performed, or still to do. *)
Inductive slot (stack : list nat) (i : nat) : MoveOperands -> Prop :=
| slot_gone : i ∉ stack -> slot stack i gone
| slot_pending x : i ∈ stack -> usable x -> slot stack i (mkMove x NoLocation)
| slot_waiting x : i ∉ stack -> usable x \/ literal x -> x <> dest i -> slot stack i (mkMove x (dest i)).

(** The pending moves form a path: each goes to the source of the one that is
    performed for it. *)
Record shape (stack : list nat) (ms : list MoveOperands) : Prop := {
  sh_length : length ms = length orig;
  sh_slot : forall i m, ms !! i = Some m -> slot stack i m;
  sh_distinct : NoDup stack;
  sh_inside : forall i, i ∈ stack -> (i < length orig)%nat;
  sh_path : forall k p q m, stack !! k = Some p -> stack !! S k = Some q -> ms !! p = Some m -> source_ m = dest q
}.

(** The value of a move that is done is in its destination, that of the others
    is in the source they have now. *)
Record values (ms : list MoveOperands) (s0 s : machine) : Prop := {
  va_moves : forall i m, ms !! i = Some m -> read s (if IsEliminated m then dest i else source_ m) = read s0 (src i);
  va_rest : forall l, usable l -> (forall i, (i < length orig)%nat -> dest i <> l) -> read s l = read s0 l
}.

Definition emits (ms : list MoveOperands) (code : list instr) : Prop :=
  forall s0, valid s0 -> exists s, run_all run code s0 = Done s /\ valid s /\ same_frame s0 s /\ values ms s0 s.
Definition inv (stack : list nat) (r : resolver) : Prop := shape stack (moves_ r) /\ emits (moves_ r) (emitted r).

Lemma usable_valid l : usable l -> IsInvalid l = false.
Proof. intros Hl. unfold IsInvalid. apply Z.eqb_neq. apply (usable_ok l Hl). Qed.
Lemma operand_valid l : usable l \/ literal l -> IsInvalid l = false.
Proof. intros [Hl|Hl]; [by apply usable_valid|]. unfold IsInvalid. apply Z.eqb_neq. intros ->. by apply literal_ok in Hl. Qed.

Lemma slot_index stack ms i m : shape stack ms -> ms !! i = Some m -> (i < length orig)%nat.
Proof. intros Hs Hm. rewrite <- (sh_length _ _ Hs). by eapply lookup_lt_Some. Qed.

(** What is in the way of nothing. *)
Lemma scratch_waiting stack ms l : shape stack ms -> usable l -> IsScratchLocation ms l = true ->
  (forall j m, ms !! j = Some m -> Blocks m l = false) /\ exists k x, ms !! k = Some (mkMove x (dest k)) /\ IsInvalid x = false /\ dest k = l /\ (k < length orig)%nat.
Proof.
  intros Hs Hl Hsc. apply andb_true_iff in Hsc as [Hb Hd]. apply negb_true_iff in Hb. split.
  - intros j m Hm. apply not_true_is_false. intros Hbl. assert (existsb (fun m => Blocks m l) ms = true); [|congruence].
    apply existsb_exists. exists m. split; [|done]. apply list_elem_of_In. by eapply list_elem_of_lookup_2.
  - apply existsb_exists in Hd as (m & Hin & Hd). apply list_elem_of_In, list_elem_of_lookup in Hin as [k Hk]. apply Z.eqb_eq in Hd.
    pose proof (slot_index _ _ _ _ Hs Hk) as Hlt. pose proof (usable_valid l Hl) as Hv. unfold IsInvalid in Hv. apply Z.eqb_neq in Hv.
    destruct (sh_slot _ _ Hs k m Hk) as [| |x _ Hx _]; cbn in Hd; [by subst|by subst|].
    exists k, x. split_and!; try done. by apply operand_valid.
Qed.

Lemma slot_source stack ms j m : shape stack ms -> ms !! j = Some m -> IsEliminated m = false -> usable (source_ m) \/ literal (source_ m).
Proof. intros Hs Hm He. destruct (sh_slot _ _ Hs j m Hm); cbn in *; [done|by left|done]. Qed.
Lemma gone_slot stack ms j m : shape stack ms -> ms !! j = Some m -> IsEliminated m = true -> m = gone.
Proof.
  intros Hs Hm He. destruct (sh_slot _ _ Hs j m Hm) as [|x _ Hx|x _ Hx _]; [done|..]; unfold IsEliminated in He; cbn in He.
  - by rewrite usable_valid in He.
  - by rewrite operand_valid in He.
Qed.

(** Steps of the machine that touch only some locations and scratch ones. *)
Definition step_frame (ms : list MoveOperands) (touched : Location -> Prop) (s s' : machine) : Prop :=
  forall l, usable l -> ~ touched l -> IsScratchLocation ms l = false -> read s' l = read s l.

Lemma kept stack ms s0 s s' touched j m : shape stack ms -> values ms s0 s -> step_frame ms touched s s' ->
  ms !! j = Some m -> ~ touched (if IsEliminated m then dest j else source_ m) ->
  read s' (if IsEliminated m then dest j else source_ m) = read s0 (src j).
Proof.
  intros Hs Hv Hf Hm Ht. rewrite <- (va_moves _ _ _ Hv j m Hm). pose proof (slot_index _ _ _ _ Hs Hm) as Hj.
  destruct (IsEliminated m) eqn:He.
  - pose proof (gone_slot _ _ _ _ Hs Hm He) as ->. apply Hf; [by apply dest_usable|done|]. apply not_true_is_false. intros Hsc.
    destruct (scratch_waiting _ _ _ Hs (dest_usable j Hj) Hsc) as (_ & k & x & Hk & Hx & E & Hlt).
    apply dest_inj in E; [|done..]. subst k. rewrite Hm in Hk. injection Hk as <- _. done.
  - destruct (slot_source _ _ _ _ Hs Hm He) as [Hu|Hl]; [|by apply read_literal]. apply Hf; [done..|]. apply not_true_is_false. intros Hsc.
    destruct (scratch_waiting _ _ _ Hs Hu Hsc) as [Hb _]. specialize (Hb j m Hm). unfold Blocks, Equals in Hb. by rewrite He, Z.eqb_refl in Hb.
Qed.

Lemma kept_rest stack ms s0 s s' touched l : shape stack ms -> values ms s0 s -> step_frame ms touched s s' ->
  usable l -> (forall i, (i < length orig)%nat -> dest i <> l) -> ~ touched l -> read s' l = read s0 l.
Proof.
  intros Hs Hv Hf Hl Hn Ht. rewrite <- (va_rest _ _ _ Hv l Hl Hn). apply Hf; [done..|]. apply not_true_is_false. intros Hsc.
  destruct (scratch_waiting _ _ _ Hs Hl Hsc) as (_ & k & x & _ & _ & E & Hlt). by apply (Hn k).
Qed.

Lemma not_blocking ms l j m : Forall (fun m => Blocks m l = false) ms -> ms !! j = Some m -> IsEliminated m = false -> source_ m <> l.
Proof.
  intros Hb Hm He E. pose proof (Forall_lookup_1 _ _ _ _ Hb Hm) as Hbl. cbn in Hbl. unfold Blocks, Equals in Hbl. by rewrite He, E, Z.eqb_refl in Hbl.
Qed.

Lemma values_move stack ms s0 s s' i x : shape stack ms -> values ms s0 s -> ms !! i = Some (mkMove x (dest i)) -> IsInvalid x = false ->
  Forall (fun m => Blocks m (dest i) = false) ms -> step_frame ms (eq (dest i)) s s' -> read s' (dest i) = read s x ->
  values (<[i := gone]> ms) s0 s'.
Proof.
  intros Hs Hv Hi Hx Hb Hf Hr. pose proof (slot_index _ _ _ _ Hs Hi) as Hlt. split.
  - intros j m Hm. apply list_lookup_insert_Some in Hm as [(<- & <- & _)|[Hne Hm]].
    + cbn. rewrite Hr. pose proof (va_moves _ _ _ Hv i _ Hi) as E. unfold IsEliminated in E. cbn in E. by rewrite Hx in E.
    + eapply kept; try done. destruct (IsEliminated m) eqn:He.
      * intros E. apply dest_inj in E; [done..|]. by eapply slot_index.
      * intros E. by eapply not_blocking.
  - intros l Hl Hn. eapply kept_rest; try done. by apply Hn.
Qed.

Lemma values_swap stack ms s0 s s' i h x : shape stack ms -> values ms s0 s -> ms !! i = Some (mkMove x (dest i)) -> usable x ->
  x = dest h -> (h < length orig)%nat -> h <> i -> ms !! h <> Some gone -> step_frame ms (fun l => l = dest i \/ l = x) s s' ->
  read s' (dest i) = read s x -> read s' x = read s (dest i) ->
  values (swap_source x (dest i) <$> <[i := gone]> ms) s0 s'.
Proof.
  intros Hs Hv Hi Hx -> Hlt Hne Hgone Hf Hr1 Hr2. pose proof (slot_index _ _ _ _ Hs Hi) as Hlti. split.
  - intros j m Hm. rewrite list_lookup_fmap in Hm. apply fmap_Some in Hm as (m' & Hm & ->).
    apply list_lookup_insert_Some in Hm as [(<- & <- & _)|[Hnj Hm]].
    + cbn. rewrite Hr1. pose proof (va_moves _ _ _ Hv i _ Hi) as E. unfold IsEliminated in E. cbn in E. by rewrite usable_valid in E.
    + pose proof (va_moves _ _ _ Hv j m' Hm) as E. pose proof (slot_index _ _ _ _ Hs Hm) as Hltj.
      assert (forall y, usable y -> IsEliminated (SetSource y m') = false) as Hset.
      { intros y Hy. unfold IsEliminated. cbn. by apply usable_valid. }
      unfold swap_source, Blocks, Equals. destruct (IsEliminated m') eqn:He; cbn [negb andb].
      * rewrite He. pose proof (gone_slot _ _ _ _ Hs Hm He) as ->. eapply (kept _ _ _ _ _ _ j gone); try done. cbn.
        intros [E'|E']; apply dest_inj in E'; try done; subst j; done.
      * destruct (Z.eqb_spec (source_ m') (dest h)) as [E1|E1]; [rewrite Hset by (by apply dest_usable); cbn; by rewrite Hr1, <- E1|].
        destruct (Z.eqb_spec (source_ m') (dest i)) as [E2|E2]; [rewrite Hset by done; cbn; by rewrite Hr2, <- E2|].
        rewrite He. pose proof (kept _ _ _ _ _ _ j m' Hs Hv Hf Hm) as Hk. rewrite He in Hk. apply Hk. by intros [|].
  - intros l Hl Hn. eapply kept_rest; try done. intros [E|E]; [by apply (Hn i)|by apply (Hn h)].
Qed.

(** ** Progress *)

Definition count (ms : list MoveOperands) : nat := length (filter (fun m => destination_ m <> NoLocation) ms).

Lemma count_insert ms i m m' : ms !! i = Some m ->
  (count (<[i := m']> ms) + (if decide (destination_ m <> NoLocation) then 1 else 0) = count ms + (if decide (destination_ m' <> NoLocation) then 1 else 0))%nat.
Proof.
  intros Hm. unfold count. rewrite <- (take_drop_middle _ _ _ Hm) at 2. rewrite insert_take_drop by (by eapply lookup_lt_Some).
  rewrite !filter_app, !filter_cons, !length_app. repeat case_decide; cbn [length]; lia.
Qed.
Lemma count_swap x d ms : count (swap_source x d <$> ms) = count ms.
Proof.
  unfold count. induction ms as [|m ms IH]; [done|]. rewrite fmap_cons, !filter_cons.
  assert (destination_ (swap_source x d m) = destination_ m) as -> by (unfold swap_source; by repeat case_match).
  case_decide; cbn [length]; by rewrite IH.
Qed.
Lemma count_length ms : (count ms <= length ms)%nat.
Proof. apply length_filter. Qed.

Definition waits (ms : list MoveOperands) (i : nat) (x : Location) : Prop := ms !! i = Some (mkMove x (dest i)) /\ IsInvalid x = false.

Record progress (ms ms' : list MoveOperands) : Prop := {
  pg_gone : forall j, ms !! j = Some gone -> ms' !! j = Some gone;
  pg_waits : forall j x, waits ms' j x -> exists y, waits ms j y /\ (x = y \/ IsConstant y = false /\ exists k, ms' !! k = Some gone /\ x = dest k);
  pg_count : (count ms' <= count ms)%nat
}.
Lemma progress_refl ms : progress ms ms.
Proof. split; [done| |done]. intros j x Hx. exists x. by split; [|left]. Qed.
Lemma progress_trans ms1 ms2 ms3 : progress ms1 ms2 -> progress ms2 ms3 -> progress ms1 ms3.
Proof.
  intros [G1 W1 C1] [G2 W2 C2]. split; [auto| |lia]. intros j x Hx. destruct (W2 j x Hx) as (y & Hy & Hc). destruct (W1 j y Hy) as (z & Hz & Hc').
  exists z. split; [done|]. destruct Hc' as [->|(Hn & k & Hk & ->)].
  - destruct Hc as [->|Hc]; [by left|by right].
  - right. split; [done|]. destruct Hc as [->|(_ & k' & Hk' & ->)]; [|by exists k']. exists k. auto.
Qed.

(** The destination of a move. *)
Lemma waits_usable stack ms i x : shape stack ms -> waits ms i x -> usable x \/ literal x.
Proof. intros Hs Hw. destruct Hw as [Hi Hx]. by apply (slot_source _ _ _ _ Hs Hi). Qed.
Lemma waits_index stack ms i x : shape stack ms -> waits ms i x -> (i < length orig)%nat.
Proof. intros Hs Hw. destruct Hw. by eapply slot_index. Qed.
Lemma dest_valid i : (i < length orig)%nat -> IsInvalid (dest i) = false.
Proof. intros Hi. by apply usable_valid, dest_usable. Qed.
Lemma waits_new stack ms i x : shape stack ms -> waits ms i x -> (i ∉ stack) /\ x <> dest i.
Proof.
  intros Hs Hw. pose proof (waits_index _ _ _ _ Hs Hw) as Hlt. destruct Hw as [Hi Hx]. pose proof (dest_valid i Hlt) as Hd.
  pose proof (sh_slot _ _ Hs i _ Hi) as Hsl. remember (mkMove x (dest i)) as m eqn:Em.
  destruct Hsl as [|y|y]; [by injection Em as <-|by injection Em as <- E; rewrite <- E in Hd|by injection Em as <-].
Qed.

(** Marking a move as pending. *)
Lemma shape_mark stack ms i x : shape stack ms -> waits ms i x -> usable x -> (forall h, head stack = Some h -> x = dest h) ->
  shape (i :: stack) (<[i := mkMove x NoLocation]> ms).
Proof.
  intros Hs Hw Hx Hh. pose proof (waits_index _ _ _ _ Hs Hw) as Hlt. destruct (waits_new _ _ _ _ Hs Hw) as [Hni _]. pose proof Hs as [S1 S2 S3 S4 S5]. split.
  - by rewrite length_insert.
  - intros j m Hm. apply list_lookup_insert_Some in Hm as [(<- & <- & _)|[Hne Hm]]; [apply slot_pending; [by left|done]|].
    destruct (S2 j m Hm) as [Hj|y Hj Hy|y Hj Hy Hd]; [apply slot_gone|apply slot_pending; [by right|done]|apply slot_waiting; [|done..]];
      apply not_elem_of_cons; by split.
  - by apply NoDup_cons.
  - intros j [->|Hj]%elem_of_cons; [done|by apply S4].
  - intros k p q m Hp Hq Hm. destruct k as [|k]; cbn in Hp, Hq.
    + injection Hp as <-. rewrite list_lookup_insert_eq in Hm by (by rewrite S1). injection Hm as <-. cbn. apply Hh. by destruct stack.
    + rewrite list_lookup_insert_ne in Hm by (intros <-; apply Hni; by eapply list_elem_of_lookup_2). by apply (S5 k p q m).
Qed.
Lemma emits_dest ms code i x d d' : ms !! i = Some (mkMove x d) -> emits ms code -> emits (<[i := mkMove x d']> ms) code.
Proof.
  intros Hi He s0 Hs0. destruct (He s0 Hs0) as (s & E & Hv & Hf & [V1 V2]). exists s. split_and!; try done. split; [|done].
  intros j m Hm. apply list_lookup_insert_Some in Hm as [(<- & <- & _)|[_ Hm]]; [exact (V1 i _ Hi)|by apply V1].
Qed.
Lemma progress_mark ms i x : ms !! i = Some (mkMove x (dest i)) -> IsInvalid (dest i) = false -> IsInvalid x = false ->
  progress ms (<[i := mkMove x NoLocation]> ms) /\ (count (<[i := mkMove x NoLocation]> ms) < count ms)%nat.
Proof.
  intros Hi Hd Hx. apply Z.eqb_neq in Hd. pose proof (count_insert ms i _ (mkMove x NoLocation) Hi) as Hc. cbn in Hc.
  rewrite decide_True in Hc by done. rewrite decide_False in Hc by (intros []; done). split; [|lia]. split; [| |lia].
  - intros j Hj. rewrite list_lookup_insert_ne; [done|]. intros <-. rewrite Hi in Hj. injection Hj as -> E. done.
  - intros j y [Hj Hy]. exists y. split; [|by left]. split; [|done]. apply list_lookup_insert_Some in Hj as [(<- & Hj & _)|[_ Hj]]; [|done].
    injection Hj as _ E. by rewrite <- E in Hd.
Qed.

(** ** The end of a move *)

Lemma shape_pop stack ms i m : shape (i :: stack) ms -> slot stack i m -> shape stack (<[i := m]> ms).
Proof.
  intros [S1 S2 S3 S4 S5] Hi. apply NoDup_cons in S3 as [Hni S3]. split.
  - by rewrite length_insert.
  - intros j m' Hm. apply list_lookup_insert_Some in Hm as [(<- & <- & _)|[Hne Hm]]; [done|].
    destruct (S2 j m' Hm) as [Hj|y Hj Hy|y Hj Hy Hd]; [apply slot_gone|apply slot_pending|apply slot_waiting]; try done.
    + by apply not_elem_of_cons in Hj as [_ Hj].
    + by apply elem_of_cons in Hj as [->|Hj].
    + by apply not_elem_of_cons in Hj as [_ Hj].
  - done.
  - intros j Hj. apply S4. by right.
  - intros k p q m' Hp Hq Hm. rewrite list_lookup_insert_ne in Hm by (intros <-; apply Hni; by eapply list_elem_of_lookup_2).
    by apply (S5 (S k) p q m').
Qed.
Lemma progress_gone ms i x : ms !! i = Some (mkMove x NoLocation) -> progress ms (<[i := gone]> ms).
Proof.
  intros Hi. pose proof (count_insert ms i _ gone Hi) as Hc. cbn in Hc. split; [| |lia].
  - intros j Hj. apply list_lookup_insert_Some. destruct (decide (i = j)) as [->|]; [left|by right]. split_and!; try done. by eapply lookup_lt_Some.
  - intros j y [Hj Hy]. exists y. split; [|by left]. split; [|done]. apply list_lookup_insert_Some in Hj as [(_ & Hj & _)|[_ Hj]]; [|done].
    by injection Hj as <- _.
Qed.

Lemma blocked_spec d ms : Forall (fun m => Blocks m d = true -> IsPending m = true) ms ->
  exists b, blocked d ms = Done b /\
    if b : bool then Exists (fun m => Blocks m d = true) ms else Forall (fun m => Blocks m d = false) ms.
Proof.
  induction 1 as [|m ms Hm _ (b & E & Hb)]; [by exists false|]. cbn [blocked]. destruct (Blocks m d) eqn:Hbl.
  - rewrite Hm by done. exists true. split; [done|]. by left.
  - exists b. split; [done|]. destruct b; [by right|by constructor].
Qed.

(** No other move still goes from the destination of the move. *)
Definition unblocked (i : nat) (ms : list MoveOperands) : Prop := forall j y, waits ms j y -> y <> dest i.

Lemma blockers_pending stack ms i x : shape (i :: stack) ms -> unblocked i ms -> x <> dest i ->
  Forall (fun m => Blocks m (dest i) = true -> IsPending m = true) (<[i := mkMove x (dest i)]> ms).
Proof.
  intros Hs Hu Hx. apply Forall_lookup_2. intros j m Hm Hb. apply andb_true_iff in Hb as [He Hb]. apply Z.eqb_eq in Hb.
  apply list_lookup_insert_Some in Hm as [(<- & <- & _)|[Hne Hm]]; [done|].
  destruct (sh_slot _ _ Hs j m Hm) as [|y Hj Hy|y Hj Hy Hd]; [done|unfold IsPending; cbn; by rewrite usable_valid|].
  cbn in Hb. exfalso. apply (Hu j y); [|done]. split; [done|]. by apply operand_valid.
Qed.

Lemma shape_swap stack ms i h x : shape stack ms -> ms !! i = Some gone -> i ∉ stack -> (i < length orig)%nat -> head stack = Some h -> x = dest h ->
  unblocked i ms -> shape stack (swap_source x (dest i) <$> ms).
Proof.
  intros Hs Hi Hni Hlt Hh -> Hu. pose proof Hs as [S1 S2 S3 S4 S5].
  assert (stack !! 0%nat = Some h) as Hh0 by (by destruct stack). pose proof (S4 h (list_elem_of_lookup_2 _ _ _ Hh0)) as Hlth. split; try done.
  - by rewrite length_fmap.
  - intros j m Hm. rewrite list_lookup_fmap in Hm. apply fmap_Some in Hm as (m' & Hm & ->).
    pose proof (slot_index _ _ _ _ Hs Hm) as Hltj. pose proof (dest_usable i Hlt) as Hui. pose proof (dest_usable h Hlth) as Huh.
    unfold swap_source, Blocks, Equals, SetSource. destruct (S2 j m' Hm) as [Hj|y Hj Hy|y Hj Hy Hd]; cbn.
    + by apply slot_gone.
    + by repeat case_match; apply slot_pending.
    + unfold IsEliminated. cbn. rewrite operand_valid by done. cbn. case_match; [|case_match eqn:E; [|by apply slot_waiting]].
      * apply slot_waiting; [done|by left|]. intros E. apply dest_inj in E; [|done..]. subst j. rewrite Hi in Hm. injection Hm as <-.
        by destruct Hy as [Hy%usable_ok|Hy%literal_ok].
      * apply Z.eqb_eq in E. exfalso. apply (Hu j y); [|done]. split; [done|]. by apply operand_valid.
  - intros k p q m Hp Hq Hm. rewrite list_lookup_fmap in Hm. apply fmap_Some in Hm as (m' & Hm & ->). pose proof (S5 k p q m' Hp Hq Hm) as E.
    pose proof (S4 q (list_elem_of_lookup_2 _ _ _ Hq)) as Hltq.
    unfold swap_source, Blocks, Equals. rewrite E. destruct (Z.eqb_spec (dest q) (dest h)) as [Eh|_].
    { apply dest_inj in Eh; [|done..]. subst q. by pose proof (NoDup_lookup _ _ _ _ S3 Hh0 Hq). }
    destruct (Z.eqb_spec (dest q) (dest i)) as [Ei|_]; [|by rewrite !andb_false_r].
    apply dest_inj in Ei; [|done..]. subst q. exfalso. apply Hni. by eapply list_elem_of_lookup_2.
Qed.

Lemma progress_swap ms i x : ms !! i = Some gone -> usable x -> IsInvalid (dest i) = false -> unblocked i ms ->
  progress ms (swap_source x (dest i) <$> ms).
Proof.
  intros Hi Hx Hd Hu. split.
  - intros j Hj. by rewrite list_lookup_fmap, Hj.
  - intros j y [Hj Hy]. rewrite list_lookup_fmap in Hj. apply fmap_Some in Hj as (m & Hm & E). unfold swap_source, Blocks, Equals in E.
    destruct m as [a d]. unfold IsEliminated in E. cbn in E. destruct (IsInvalid a) eqn:Ha; cbn in E; [injection E as -> <-; congruence|].
    destruct (Z.eqb_spec a x) as [->|]; [injection E as -> <-|destruct (Z.eqb_spec a (dest i)) as [->|]; [injection E as -> <-|injection E as -> <-]].
    + exists x. split; [done|]. right. split; [by apply usable_ok|]. exists i. by rewrite list_lookup_fmap, Hi.
    + exfalso. by apply (Hu j (dest i)).
    + exists a. split; [done|by left].
  - by rewrite count_swap.
Qed.

Lemma dests_usable stack ms : shape stack ms -> Forall (fun m => destination_ m = NoLocation \/ usable (destination_ m)) ms.
Proof.
  intros Hs. apply Forall_lookup_2. intros j m Hm. pose proof (slot_index _ _ _ _ Hs Hm) as Hlt.
  destruct (sh_slot _ _ Hs j m Hm); cbn; [by left|by left|right; by apply dest_usable].
Qed.

(** What code emits when it is extended. *)
Lemma emits_app ms ms' code code' : emits ms code ->
  (forall s0 s, valid s -> values ms s0 s -> exists s', run_all run code' s = Done s' /\ valid s' /\ same_frame s s' /\ values ms' s0 s') ->
  emits ms' (code ++ code').
Proof.
  intros He Hc s0 Hs0. destruct (He s0 Hs0) as (s & E & Hv & Hf & Hva). destruct (Hc s0 s Hv Hva) as (s' & E' & Hv' & Hf' & Hva').
  exists s'. rewrite run_all_app, E. split_and!; try done. by eapply frame_trans.
Qed.

Lemma move_ok stack ms i x code : shape stack ms -> waits ms i x -> emits ms code -> Forall (fun m => Blocks m (dest i) = false) ms ->
  exists code', EmitMove ms i = Done code' /\ (usable x -> emits (<[i := gone]> ms) (code ++ code')).
Proof.
  intros Hs Hw He Hb. pose proof (waits_index _ _ _ _ Hs Hw) as Hlt. pose proof (waits_usable _ _ _ _ Hs Hw) as Hx. destruct Hw as [Hi Hv].
  destruct (move_spec ms i _ Hi) as (code' & E & Hrun); [done|by apply dest_usable|by eapply dests_usable|done|].
  exists code'. split; [done|]. intros Hu. apply (emits_app ms); [done|]. intros s0 s Hs0 Hva.
  destruct (Hrun s Hs0) as (s' & E' & Hv' & Hf & Hr & Hframe). exists s'. split_and!; try done.
  eapply values_move; try done. intros l Hl Hne Hsc. apply Hframe; [done|by intros ->|by left].
Qed.

Lemma swap_ok stack ms i h x code : shape stack ms -> waits ms i x -> head stack = Some h -> x = dest h ->
  emits ms code -> Exists (fun m => Blocks m (dest i) = true) ms ->
  exists code', EmitSwap ms i = Done code' /\ emits (swap_source x (dest i) <$> <[i := gone]> ms) (code ++ code').
Proof.
  intros Hs Hw Hh Ex He Hb. pose proof (waits_index _ _ _ _ Hs Hw) as Hlt. destruct (waits_new _ _ _ _ Hs Hw) as [Hni Hne].
  assert (h ∈ stack) as Hin by (destruct stack; [done|]; injection Hh as ->; by left).
  pose proof (sh_inside _ _ Hs h Hin) as Hlth. assert (usable x) as Hx by (subst x; by apply dest_usable). destruct Hw as [Hi Hv].
  destruct (swap_spec ms i _ Hi) as (code' & E & Hrun); [done|by apply dest_usable|done|by eapply dests_usable|done|].
  exists code'. split; [done|]. apply (emits_app ms); [done|]. intros s0 s Hs0 Hva.
  destruct (Hrun s Hs0) as (s' & E' & Hv' & Hf & Hr1 & Hr2 & Hframe). exists s'. split_and!; try done.
  eapply (values_swap stack ms s0 s s' i h x); try done.
  - by intros ->.
  - intros Hg. pose proof (sh_slot _ _ Hs h _ Hg) as Hsl. remember gone as m eqn:Em.
    destruct Hsl as [|y _ Hy|y]; [done| |done]. injection Em as ->. by destruct (usable_ok _ Hy).
  - intros l Hl Ht Hsc. apply Hframe; [done|naive_solver..].
Qed.

Lemma finish_ok stack r i x : inv (i :: stack) r -> moves_ r !! i = Some (mkMove x NoLocation) -> usable x -> unblocked i (moves_ r) ->
  exists r', finish_move i (dest i) r = Done r' /\ inv stack r' /\ progress (moves_ r) (moves_ r') /\ moves_ r' !! i = Some gone.
Proof.
  intros [Hs He] Hi Hx Hu. pose proof (slot_index _ _ _ _ Hs Hi) as Hlt. pose proof (usable_valid x Hx) as Hv.
  pose proof (sh_distinct _ _ Hs) as Hni. apply NoDup_cons in Hni as [Hni _]. unfold finish_move. rewrite Hi. cbn [deref mbind cres_bind].
  unfold IsPending. cbn [destination_ source_ IsInvalid]. rewrite Hv. cbn. unfold Equals, Eliminate, ClearPending. cbn [source_].
  set (ms1 := <[i := mkMove x (dest i)]> (moves_ r)).
  assert (<[i := gone]> ms1 = <[i := gone]> (moves_ r)) as E1 by apply list_insert_insert_eq.
  assert (ms1 !! i = Some (mkMove x (dest i))) as Hi1 by (apply list_lookup_insert_eq; by eapply lookup_lt_Some).
  assert (forall ms, length ms = length orig -> <[i := gone]> ms !! i = Some gone) as Hgone by (intros ms Hl; apply list_lookup_insert_eq; lia).
  pose proof (shape_pop _ _ _ gone Hs (slot_gone _ _ Hni)) as Hs2. pose proof (progress_gone _ _ _ Hi) as Hp.
  pose proof (emits_dest _ _ _ _ _ (dest i) Hi He) as He1. fold ms1 in He1.
  destruct (Z.eqb_spec x (dest i)) as [Ex|Ex].
  { eexists. split; [done|]. unfold inv, set_at, set_moves. cbn [moves_ emitted]. fold ms1. rewrite E1. split_and!; try done; [|by apply Hgone, Hs].
    intros s0 Hs0. destruct (He s0 Hs0) as (s & E & Hvs & Hf & [V1 V2]). exists s. split_and!; try done. split; [|done].
    intros j m Hm. apply list_lookup_insert_Some in Hm as [(<- & <- & _)|[_ Hm]]; [|by apply V1].
    specialize (V1 i _ Hi). unfold IsEliminated in V1. cbn in V1. rewrite Hv in V1. cbn. by rewrite <- Ex. }
  pose proof (shape_pop _ _ _ _ Hs (slot_waiting _ _ x Hni (or_introl Hx) Ex)) as Hs1. fold ms1 in Hs1.
  destruct (blocked_spec (dest i) ms1 (blockers_pending _ _ _ _ Hs Hu Ex)) as (b & -> & Hb). cbn [mbind cres_bind]. destruct b.
  - assert (exists h, head stack = Some h /\ x = dest h) as (h & Hh & Eh).
    { destruct stack as [|h stack]; [|exists h; split; [done|]; by apply (sh_path _ _ Hs 0 i h _ eq_refl eq_refl Hi)].
      apply Exists_exists in Hb as (m & Hin & Hb). apply list_elem_of_lookup in Hin as [j Hj]. exfalso.
      apply andb_true_iff in Hb as [Hel Hb]. apply Z.eqb_eq in Hb.
      apply list_lookup_insert_Some in Hj as [(<- & <- & _)|[Hne Hm]]; [done|].
      destruct (sh_slot _ _ Hs j m Hm) as [|y Hj|y Hj Hy]; [done|by apply list_elem_of_singleton in Hj|].
      apply (Hu j y); [|done]. split; [done|]. by apply operand_valid. }
    destruct (swap_ok stack ms1 i h x (emitted r) Hs1 (conj Hi1 Hv) Hh Eh He1 Hb) as (code & -> & Hem). cbn [mbind cres_bind].
    eexists. split; [done|]. unfold inv, set_at, set_moves, emit. cbn [moves_ emitted]. fold ms1. rewrite E1 in Hem |- *.
    assert (unblocked i (<[i := gone]> (moves_ r))) as Hu2.
    { intros j y [Hj Hy]. apply list_lookup_insert_Some in Hj as [(_ & Hj & _)|[_ Hj]]; [by injection Hj as <- _|by apply (Hu j)]. }
    split_and!; [eapply shape_swap; try done; by apply Hgone, Hs|done| |].
    + eapply progress_trans; [exact Hp|]. apply progress_swap; [by apply Hgone, Hs|done|by apply dest_valid|done].
    + rewrite list_lookup_fmap, Hgone; [done|apply Hs].
  - destruct (move_ok stack ms1 i x (emitted r) Hs1 (conj Hi1 Hv) He1 Hb) as (code & -> & Hem). cbn [mbind cres_bind].
    eexists. split; [done|]. unfold inv, set_at, set_moves, emit. cbn [moves_ emitted]. fold ms1. rewrite E1 in Hem |- *.
    split_and!; try done; [by apply Hem|by apply Hgone, Hs].
Qed.

(** ** Performing a move *)

Definition performs (perform : nat -> resolver -> cres resolver) (fuel : nat) : Prop :=
  forall stack r i x, inv stack r -> waits (moves_ r) i x -> usable x -> (forall h, head stack = Some h -> x = dest h) ->
  (count (moves_ r) <= fuel)%nat ->
  exists r', perform i r = Done r' /\ inv stack r' /\ progress (moves_ r) (moves_ r') /\ moves_ r' !! i = Some gone.

Lemma pending_slot stack ms i : shape stack ms -> i ∈ stack -> exists x, ms !! i = Some (mkMove x NoLocation) /\ usable x.
Proof.
  intros Hs Hi. pose proof (sh_inside _ _ Hs i Hi) as Hlt. rewrite <- (sh_length _ _ Hs) in Hlt. destruct (lookup_lt_is_Some_2 _ _ Hlt) as [m Hm].
  destruct (sh_slot _ _ Hs i m Hm) as [|x|]; [done|by exists x|done].
Qed.

Lemma perform_blocking_ok perform fuel stack i r j : performs perform fuel -> i ∈ stack -> head stack = Some i -> inv stack r ->
  (count (moves_ r) <= fuel)%nat -> (j < length orig)%nat ->
  exists r', perform_blocking perform (dest i) j r = Done r' /\ inv stack r' /\ progress (moves_ r) (moves_ r') /\
    forall y, waits (moves_ r') j y -> y <> dest i.
Proof.
  intros Hperf Hi Hh Hinv Hc Hj. pose proof Hinv as [Hs _]. rewrite <- (sh_length _ _ Hs) in Hj.
  destruct (lookup_lt_is_Some_2 _ _ Hj) as [m Hm]. unfold perform_blocking. rewrite Hm. cbn [deref mbind cres_bind].
  destruct (Blocks m (dest i) && negb (IsPending m)) eqn:Hb.
  - apply andb_true_iff in Hb as [Hb Hp]. apply andb_true_iff in Hb as [He Hb]. apply Z.eqb_eq in Hb. apply negb_true_iff in He.
    assert (waits (moves_ r) j (dest i)) as Hw.
    { destruct (sh_slot _ _ Hs j m Hm) as [|y _ Hy|y _ Hy _]; [done|unfold IsPending in Hp; cbn in Hp; by rewrite usable_valid in Hp|].
      cbn in Hb. subst y. split; [done|]. by apply operand_valid. }
    destruct (Hperf stack r j (dest i) Hinv Hw) as (r' & E & Hinv' & Hpg & Hgone); try done.
    + by apply dest_usable, (sh_inside _ _ Hs).
    + intros h Hh'. congruence.
    + exists r'. split_and!; try done. intros y [Hy Hv]. rewrite Hgone in Hy. by injection Hy as <- _.
  - exists r. split_and!; try done; [apply progress_refl|]. intros y [Hy Hv]. rewrite Hm in Hy. injection Hy as ->.
    pose proof (dest_valid j) as Hd. rewrite <- (sh_length _ _ Hs) in Hd. unfold Blocks, IsEliminated, IsPending, Equals in Hb. cbn in Hb.
    rewrite Hv, (Hd Hj) in Hb. cbn in Hb. rewrite andb_true_r in Hb. by apply Z.eqb_neq in Hb.
Qed.

Lemma perform_loop_ok perform fuel stack i : performs perform fuel -> i ∈ stack -> head stack = Some i -> forall len k r,
  inv stack r -> (count (moves_ r) <= fuel)%nat -> (k + len = length orig)%nat ->
  (forall j y, (j < k)%nat -> waits (moves_ r) j y -> y <> dest i) ->
  exists r', for_moves (perform_blocking perform (dest i)) (seq k len) r = Done r' /\ inv stack r' /\
    progress (moves_ r) (moves_ r') /\ unblocked i (moves_ r').
Proof.
  intros Hperf Hi Hh len. induction len as [|len IH]; intros k r Hinv Hc Hk Hdone; cbn [seq for_moves].
  { exists r. split_and!; try done; [apply progress_refl|]. intros j y Hw. apply (Hdone j y); [|done].
    pose proof (waits_index _ _ _ _ (proj1 Hinv) Hw). lia. }
  destruct (perform_blocking_ok perform fuel stack i r k) as (r1 & -> & Hinv1 & Hp1 & Hk1); try done; [lia|]. cbn [mbind cres_bind].
  pose proof (pg_count _ _ Hp1) as Hc1. destruct (IH (S k) r1 Hinv1 ltac:(lia) ltac:(lia)) as (r2 & E & Hinv2 & Hp2 & Hu).
  - intros j y Hj Hw. destruct (decide (j = k)) as [->|Hne]; [by apply Hk1|].
    destruct (pg_waits _ _ Hp1 j y Hw) as (z & Hz & [->|(_ & q & Hq & ->)]); [apply (Hdone j z); [lia|done]|].
    intros Eq. pose proof (slot_index _ _ _ _ (proj1 Hinv1) Hq) as Hltq.
    apply dest_inj in Eq; [|done|by apply (sh_inside _ _ (proj1 Hinv1))]. subst q.
    destruct (pending_slot _ _ _ (proj1 Hinv1) Hi) as (x & Hx & Hux). rewrite Hx in Hq. injection Hq as ->. by destruct (usable_ok _ Hux).
  - exists r2. split_and!; try done. by eapply progress_trans.
Qed.

Lemma PerformMove_ok fuel : performs (PerformMove fuel) fuel.
Proof.
  induction fuel as [|fuel IH]; intros stack r i x Hinv Hw Hx Hh Hc; pose proof Hinv as [Hs He]; pose proof (waits_index _ _ _ _ Hs Hw) as Hlt;
    pose proof (dest_valid i Hlt) as Hd; destruct (waits_new _ _ _ _ Hs Hw) as [_ Hne]; pose proof Hw as [Hi Hv];
    destruct (progress_mark _ _ _ Hi Hd Hv) as [Hp Hlt']; [lia|].
  cbn [PerformMove]. rewrite Hi. cbn [deref mbind cres_bind]. unfold IsPending, IsRedundant, IsEliminated, Equals. cbn [source_ destination_].
  rewrite Hd, Hv, (proj2 (Z.eqb_neq _ _) Hne). cbn [negb andb orb DCHECK mbind cres_bind MarkPending source_]. unfold MarkPending. cbn [source_].
  set (r1 := set_at i (mkMove x NoLocation) r).
  assert (inv (i :: stack) r1) as Hinv1 by (split; [by apply shape_mark|by eapply emits_dest]).
  destruct (perform_loop_ok (PerformMove fuel) fuel (i :: stack) i IH ltac:(by left) eq_refl (length (moves_ r1)) 0 r1 Hinv1) as (r2 & E & Hinv2 & Hp2 & Hu).
  { cbn [r1 set_at set_moves moves_]. lia. }
  { apply Hinv1. }
  { intros j y Hj. lia. }
  unfold indices. rewrite E. cbn [mbind cres_bind].
  destruct (pending_slot _ _ i (proj1 Hinv2) ltac:(by left)) as (x' & Hx' & Hux').
  destruct (finish_ok stack r2 i x' Hinv2 Hx' Hux' Hu) as (r3 & E3 & Hinv3 & Hp3 & Hg). exists r3. split_and!; try done.
  eapply progress_trans; [exact Hp|]. by eapply progress_trans.
Qed.

(** ** All moves *)

Lemma unless_constant_ok r k : inv [] r -> (k < length orig)%nat ->
  exists r', perform_unless_constant k r = Done r' /\ inv [] r' /\ progress (moves_ r) (moves_ r') /\ forall x, waits (moves_ r') k x -> literal x.
Proof.
  intros Hinv Hk. pose proof Hinv as [Hs _]. rewrite <- (sh_length _ _ Hs) in Hk. destruct (lookup_lt_is_Some_2 _ _ Hk) as [m Hm].
  unfold perform_unless_constant. rewrite Hm. cbn [deref mbind cres_bind].
  destruct (sh_slot _ _ Hs k m Hm) as [_|x Hx|x _ Hx Hd]; [|by apply not_elem_of_nil in Hx|].
  - exists r. split_and!; try done; [apply progress_refl|]. intros x [Hx Hv]. rewrite Hm in Hx. by injection Hx as <- _.
  - unfold IsEliminated. cbn [source_]. rewrite operand_valid by done. cbn [negb andb]. destruct Hx as [Hx|Hx].
    + rewrite (proj1 (usable_ok x Hx)). cbn [negb].
      destruct (PerformMove_ok (length (moves_ r)) [] r k x) as (r' & E & Hinv' & Hp & Hg); try done; [by split; [|apply usable_valid]|apply count_length|].
      exists r'. split_and!; try done. intros y [Hy Hv]. rewrite Hg in Hy. by injection Hy as <- _.
    + rewrite (literal_ok x Hx). cbn [negb]. exists r. split_and!; try done; [apply progress_refl|].
      intros y [Hy Hv]. rewrite Hm in Hy. by injection Hy as <-.
Qed.

Lemma unless_constant_loop len : forall k r, inv [] r -> (k + len = length orig)%nat ->
  (forall j x, (j < k)%nat -> waits (moves_ r) j x -> literal x) ->
  exists r', for_moves perform_unless_constant (seq k len) r = Done r' /\ inv [] r' /\ forall j x, waits (moves_ r') j x -> literal x.
Proof.
  induction len as [|len IH]; intros k r Hinv Hk Hdone; cbn [seq for_moves].
  { exists r. split_and!; try done. intros j x Hw. apply (Hdone j x); [|done]. pose proof (waits_index _ _ _ _ (proj1 Hinv) Hw). lia. }
  destruct (unless_constant_ok r k Hinv) as (r1 & -> & Hinv1 & Hp & Hl); [lia|]. cbn [mbind cres_bind]. apply IH; [done|lia|].
  intros j x Hj Hw. destruct (decide (j = k)) as [->|Hne]; [by apply Hl|].
  destruct (pg_waits _ _ Hp j x Hw) as (y & Hy & [->|(Hc & _)]); [apply (Hdone j y); [lia|done]|].
  pose proof (literal_ok y (Hdone j y ltac:(lia) Hy)). congruence.
Qed.

(** The constants: the first [k] moves are done. *)
Record constants_done (ms : list MoveOperands) (k : nat) (s0 s : machine) : Prop := {
  cd_moves : forall i m, ms !! i = Some m -> read s (if IsEliminated m || (i <? k)%nat then dest i else source_ m) = read s0 (src i);
  cd_rest : forall l, usable l -> (forall i, (i < length orig)%nat -> dest i <> l) -> read s l = read s0 l
}.
Definition emits_constants (ms : list MoveOperands) (k : nat) (code : list instr) : Prop :=
  forall s0, valid s0 -> exists s, run_all run code s0 = Done s /\ valid s /\ same_frame s0 s /\ constants_done ms k s0 s.

Lemma ltb_skip i k : i <> k -> (i <? S k)%nat = (i <? k)%nat.
Proof. intros Hne. destruct (Nat.ltb_spec i (S k)), (Nat.ltb_spec i k); (done || lia). Qed.

Lemma constants_done_gone ms k s0 s : (forall j m, ms !! j = Some m -> j = k -> IsEliminated m = true) -> constants_done ms k s0 s -> constants_done ms (S k) s0 s.
Proof.
  intros Hg [C1 C2]. split; [|done]. intros i m Hm. rewrite <- (C1 i m Hm). destruct (decide (i = k)) as [->|Hne]; [by rewrite (Hg k m Hm eq_refl)|]. by rewrite ltb_skip.
Qed.

Lemma constant_step ms k x s0 s s' : shape [] ms -> (forall j x, waits ms j x -> literal x) -> waits ms k x -> constants_done ms k s0 s ->
  read s' (dest k) = read s x -> (forall l, usable l -> l <> dest k -> read s' l = read s l) -> constants_done ms (S k) s0 s'.
Proof.
  intros Hs Hl Hw [C1 C2] Hr Hf. pose proof (waits_index _ _ _ _ Hs Hw) as Hlt. split.
  - intros i m Hm. rewrite <- (C1 i m Hm). pose proof (slot_index _ _ _ _ Hs Hm) as Hlti. destruct (decide (i = k)) as [->|Hne].
    + destruct Hw as [Hk Hv]. rewrite Hk in Hm. injection Hm as <-. unfold IsEliminated. cbn [source_]. rewrite Hv. cbn [orb].
      rewrite (proj2 (Nat.ltb_lt k (S k))), (proj2 (Nat.ltb_ge k k)) by lia. done.
    + rewrite ltb_skip by done. destruct (IsEliminated m || _) eqn:E; [apply Hf; [by apply dest_usable|intros E'; by apply dest_inj in E']|]. apply orb_false_iff in E as [E _].
      apply read_literal. apply (Hl i). destruct (sh_slot _ _ Hs i m Hm) as [|y Hy|y]; [done|by apply not_elem_of_nil in Hy|]. by split.
  - intros l Hlu Hn. rewrite Hf; [by apply C2|done|]. intros ->. by apply (Hn k).
Qed.

Lemma constant_ok r k : shape [] (moves_ r) -> (forall j x, waits (moves_ r) j x -> literal x) -> (k < length orig)%nat ->
  emits_constants (moves_ r) k (emitted r) ->
  exists code, perform_constant k r = Done (emit code r) /\ emits_constants (moves_ r) (S k) (emitted r ++ code).
Proof.
  intros Hs Hl Hk He. rewrite <- (sh_length _ _ Hs) in Hk. destruct (lookup_lt_is_Some_2 _ _ Hk) as [m Hm].
  unfold perform_constant. rewrite Hm. cbn [deref mbind cres_bind]. destruct (IsEliminated m) eqn:Hel; cbn [negb].
  - exists []. unfold emit. rewrite app_nil_r. split; [by destruct r|]. intros s0 Hs0. destruct (He s0 Hs0) as (s & E & Hv & Hf & Hc).
    exists s. split_and!; try done. apply constants_done_gone; [|done]. intros j m' Hj ->. congruence.
  - assert (exists x, m = mkMove x (dest k) /\ waits (moves_ r) k x) as (x & -> & Hw).
    { destruct (sh_slot _ _ Hs k m Hm) as [|y Hy|y]; [done|by apply not_elem_of_nil in Hy|]. exists y. by split. }
    pose proof (Hl k x Hw) as Hlit. pose proof (waits_index _ _ _ _ Hs Hw) as Hlt. cbn [source_]. rewrite (literal_ok x Hlit). cbn [DCHECK mbind cres_bind].
    destruct (move_spec (moves_ r) k _ Hm) as (code & -> & Hrun); [by right|by apply dest_usable|by eapply dests_usable| |].
    { apply Forall_lookup_2. intros j m Hj. unfold Blocks, Equals. destruct (IsEliminated m) eqn:Hej; [done|]. cbn.
      apply Z.eqb_neq. intros E. assert (literal (source_ m)) as Hlj.
      { apply (Hl j). destruct (sh_slot _ _ Hs j m Hj) as [|y Hy|y]; [done|by apply not_elem_of_nil in Hy|]. by split. }
      rewrite E in Hlj. apply literal_ok in Hlj. destruct (usable_ok _ (dest_usable k Hlt)). congruence. }
    exists code. split; [done|]. intros s0 Hs0. destruct (He s0 Hs0) as (s & E & Hv & Hf & Hc).
    destruct (Hrun s Hv) as (s' & E' & Hv' & Hf' & Hr & Hframe). exists s'. rewrite run_all_app, E. split_and!; try done; [by eapply frame_trans|].
    eapply (constant_step _ _ x); try done. intros l Hlu Hne. apply Hframe; [done..|by right].
Qed.

Lemma constant_loop len : forall k r, shape [] (moves_ r) -> (forall j x, waits (moves_ r) j x -> literal x) -> (k + len = length orig)%nat ->
  emits_constants (moves_ r) k (emitted r) ->
  exists r', for_moves perform_constant (seq k len) r = Done r' /\ moves_ r' = moves_ r /\ emits_constants (moves_ r) (length orig) (emitted r').
Proof.
  induction len as [|len IH]; intros k r Hs Hl Hk He; cbn [seq for_moves].
  { exists r. split_and!; try done. by replace (length orig) with k by lia. }
  destruct (constant_ok r k Hs Hl) as (code & -> & He1); [lia|done|]. cbn [mbind cres_bind].
  by apply (IH (S k) (emit code r)); [..|lia|].
Qed.

Abbreviation start := (@mkResolver instr orig []).
Lemma initial_inv : inv [] start.
Proof.
  split; cbn [moves_ emitted].
  - split; try done; [|constructor|by intros i Hi%elem_of_nil]. intros i m Hm. pose proof (Forall_lookup_1 _ _ _ _ Horig Hm) as (Hx & Hd & Hne).
    assert (m = mkMove (source_ m) (dest i)) as -> by (unfold dest; rewrite Hm; by destruct m).
    apply slot_waiting; [apply not_elem_of_nil|done|]. unfold dest. rewrite Hm. done.
  - intros s0 Hs0. exists s0. split_and!; try done; [apply frame_refl|]. split; [|done]. intros i m Hm.
    pose proof (Forall_lookup_1 _ _ _ _ Horig Hm) as (Hx & _). unfold IsEliminated. rewrite operand_valid by done. unfold src. by rewrite Hm.
Qed.

(** The moves that are performed. *)
Lemma resolve_ok : exists r, (r ← for_moves perform_unless_constant (indices start) start;
    for_moves perform_constant (@indices instr r) r) = Done r /\
  forall s0, valid s0 -> exists s, run_all run (emitted r) s0 = Done s /\ valid s /\ same_frame s0 s /\
    (forall i m, orig !! i = Some m -> read s (destination_ m) = read s0 (source_ m)) /\
    forall l, usable l -> (l ∉ destination_ <$> orig) -> read s l = read s0 l.
Proof.
  destruct (unless_constant_loop (length orig) 0 start initial_inv eq_refl) as (r1 & E1 & [Hs He] & Hl); [intros; lia|].
  change (indices start) with (seq 0 (length orig)). rewrite E1. cbn [mbind cres_bind]. unfold indices. rewrite (sh_length _ _ Hs).
  destruct (constant_loop (length orig) 0 r1 Hs Hl eq_refl) as (r2 & -> & Hm2 & He2).
  { intros s0 Hs0. destruct (He s0 Hs0) as (s & E & Hv & Hf & [V1 V2]). exists s. split_and!; try done. split; [|done].
    intros i m Hm. rewrite orb_false_r. by apply V1. }
  exists r2. split; [done|]. intros s0 Hs0. destruct (He2 s0 Hs0) as (s & E & Hv & Hf & [C1 C2]). exists s. split_and!; try done.
  - intros i m Hm. pose proof (lookup_lt_Some _ _ _ Hm) as Hlt. rewrite <- (sh_length _ _ Hs) in Hlt. destruct (lookup_lt_is_Some_2 _ _ Hlt) as [m' Hm'].
    specialize (C1 i m' Hm'). rewrite (sh_length _ _ Hs) in Hlt. rewrite (proj2 (Nat.ltb_lt _ _) Hlt), orb_true_r in C1. unfold dest, src in C1. by rewrite Hm in C1.
  - intros l Hlu Hn. apply C2; [done|]. intros i Hi <-. apply Hn. destruct (lookup_lt_is_Some_2 _ _ Hi) as [m Hm]. unfold dest. rewrite Hm. cbn.
    apply list_elem_of_fmap. exists m. split; [done|]. by eapply list_elem_of_lookup_2.
Qed.
End Correct.

Lemma emit_native_code_ok `{EmitterSpec instr} parallel_move :
  (forall m, m ∈ parallel_move -> IsRedundant m = false -> (usable (source_ m) \/ literal (source_ m)) /\ usable (destination_ m)) ->
  NoDup (destination_ <$> BuildInitialMoveList parallel_move) ->
  exists code, EmitNativeCode parallel_move = Done code /\
  forall s, valid s -> exists s', run_all run code s = Done s' /\ valid s' /\ same_frame s s' /\
    (forall m, m ∈ parallel_move -> IsRedundant m = false -> read s' (destination_ m) = read s (source_ m)) /\
    forall l, usable l -> (forall m, m ∈ parallel_move -> IsRedundant m = false -> destination_ m <> l) -> read s' l = read s l.
Proof.
  intros Hops Hnd. destruct (resolve_ok (BuildInitialMoveList parallel_move)) as (r & E & Hrun); [|done|].
  { apply Forall_forall. intros m [Hr Hm]%list_elem_of_filter. destruct (Hops m Hm Hr). split_and!; try done.
    intros Eq. unfold IsRedundant, Equals in Hr. by rewrite Eq, Z.eqb_refl, orb_true_r in Hr. }
  exists (emitted r). unfold EmitNativeCode. apply bind_Done in E as (r1 & -> & E). cbn [mbind cres_bind]. rewrite E. split; [done|].
  intros s Hs. destruct (Hrun s Hs) as (s' & E' & Hv & Hf & Hm & Hl). exists s'. split_and!; try done.
  - intros m Hin Hr. assert (m ∈ BuildInitialMoveList parallel_move) as Hin' by (by apply list_elem_of_filter).
    apply list_elem_of_lookup in Hin' as [i Hi]. by apply (Hm i).
  - intros l Hlu Hn. apply Hl; [done|]. intros (m & -> & [Hr Hin]%list_elem_of_filter)%list_elem_of_fmap. by apply (Hn m).
Qed.

(** C10: the moves between two instructions happen at once. Whatever the code
    generator, if it does single moves and swaps of its operands, the
    resolver returns code for any set of moves with distinct destinations, chains,
    trees and cycles of them and constants included, none of its assertions
    fails, and after the code each destination has the value that its source
    had before, and every other location the value it had. *)
Theorem parallel_move_correct `{EmitterSpec instr} parallel_move :
  (forall m, m ∈ parallel_move -> IsRedundant m = false -> (usable (source_ m) \/ literal (source_ m)) /\ usable (destination_ m)) ->
  NoDup (destination_ <$> BuildInitialMoveList parallel_move) ->
  exists code, EmitNativeCode parallel_move = Done code /\
  forall s, valid s -> exists s', run_all run code s = Done s' /\ valid s' /\ same_frame s s' /\
    (forall m, m ∈ parallel_move -> IsRedundant m = false -> read s' (destination_ m) = read s (source_ m)) /\
    forall l, usable l -> (forall m, m ∈ parallel_move -> IsRedundant m = false -> destination_ m <> l) -> read s' l = read s l.
Proof. apply emit_native_code_ok. Qed.

(** ** The cases of parallel_move_test.cc *)

Inductive test_instr := Moved (source destination : Z) | Swapped (source destination : Z).
Definition test_emitter `{HostWord} : Emitter test_instr := {|
  EmitMove moves index := move ← deref (moves !! index); Done [Moved (reg (source_ move)) (reg (destination_ move))];
  EmitSwap moves index := move ← deref (moves !! index); Done [Swapped (reg (source_ move)) (reg (destination_ move))]
|}.
#[local, program] Instance host_word : HostWord := {| kBitsPerWord := 32 |}.
Next Obligation. by left. Qed.
Definition BuildParallelMove (operands : list (Z * Z)) : list MoveOperands :=
  (fun '(a, b) => mkMove (RegisterLocation a) (RegisterLocation b)) <$> operands.
Definition test_resolver (operands : list (Z * Z)) : cres (list test_instr) := @EmitNativeCode _ test_emitter (BuildParallelMove operands).

Example test_dependency : test_resolver [(0, 1); (1, 2)] = Done [Moved 1 2; Moved 0 1] /\
  test_resolver [(0, 1); (1, 2); (2, 3); (1, 4)] = Done [Moved 2 3; Moved 1 2; Moved 1 4; Moved 0 1].
Proof. vm_compute. done. Qed.
Example test_swap : test_resolver [(0, 1); (1, 0)] = Done [Swapped 1 0] /\
  test_resolver [(0, 1); (1, 2); (1, 0)] = Done [Moved 1 2; Swapped 1 0] /\
  test_resolver [(0, 1); (1, 2); (2, 3); (3, 4); (4, 1)] = Done [Swapped 4 1; Swapped 3 4; Swapped 2 3; Moved 0 1] /\
  test_resolver [(0, 1); (1, 2); (2, 3); (3, 4); (4, 1); (5, 4)] = Done [Swapped 4 1; Swapped 3 4; Swapped 2 3; Moved 0 1; Moved 5 4].
Proof. vm_compute. done. Qed.
