(* ===== verification/ParallelMove32.v ===== *)
(** * ParallelMove32: a 32-bit machine, and the moves of the x86 code generator
      (compiler/optimizing/code_generator_x86.cc)

    The code that EmitMove and EmitSwap of ParallelMoveResolverX86 emit, on a
    machine with registers and a memory of words, and that it keeps the promise
    of [ParallelMove].  The machine is also that of [ParallelMoveArm]. *)

From stdpp Require Import base list.
From S2P Require Import Prelude Locations ParallelMove.

(** ** A 32-bit machine *)

(** Words by their addresses: the addresses of code that is modelled are multiples of four. *)
Record mach := mkMach { R : Z -> Z; M : Z -> Z }.
Definition upd (f : Z -> Z) (a v : Z) : Z -> Z := fun x => if x =? a then v else f x.
Definition set_reg (r v : Z) (s : mach) : mach := mkMach (upd (R s) r v) (M s).
Definition set_word (a v : Z) (s : mach) : mach := mkMach (R s) (upd (M s) a v).

(** The instructions of both machines that the two code generators use. *)
Inductive instr :=
| mov (rd rm : Z) | mov_imm (rd value : Z) | add (rd rn rm : Z) | xchg (r1 r2 : Z)
| ldr (rd base offset : Z) | str (rt base offset : Z) | str_imm (value base offset : Z)
| push (r : Z) | pop (r : Z).

Definition address (base offset : Z) (s : mach) : Z := uwrap 32 (R s base + offset).
Definition aligned (a : Z) : cres unit := if a mod 4 =? 0 then Done () else Fault OutOfBounds.

Definition step (sp : Z) (i : instr) (s : mach) : cres mach :=
  match i with
  | mov rd rm => Done (set_reg rd (R s rm) s)
  | mov_imm rd value => Done (set_reg rd (uwrap 32 value) s)
  | add rd rn rm => Done (set_reg rd (uwrap 32 (R s rn + R s rm)) s)
  | xchg r1 r2 => Done (set_reg r1 (R s r2) (set_reg r2 (R s r1) s))
  | ldr rd base offset => _ ← aligned (address base offset s); Done (set_reg rd (M s (address base offset s)) s)
  | str rt base offset => _ ← aligned (address base offset s); Done (set_word (address base offset s) (R s rt) s)
  | str_imm value base offset => _ ← aligned (address base offset s); Done (set_word (address base offset s) (uwrap 32 value) s)
  | push r =>
      let a := address sp (-4) s in _ ← aligned a; Done (set_reg sp a (set_word a (R s r) s))
  | pop r =>
      _ ← aligned (R s sp); Done (set_reg r (M s (R s sp)) (set_reg sp (address sp 4 s) s))
  end.

(** A CHECK stops any build. *)
Definition CHECK : bool -> cres unit := DCHECK.

(** Constants are objects of the graph that is compiled. *)
Inductive HConstant := HIntConstant (value : Z) | HLongConstant (value : Z).
Class Constants := constant_at : Z -> HConstant.

Section Emitters.
Context `{HostWord} `{Constants}.

Definition AsIntConstant (l : Location) : cres Z :=
  match constant_at (GetConstant l) with HIntConstant value => Done value | HLongConstant _ => Fault NullDeref end.

(** The register is saved around [body] when it is not free. *)
Definition with_scratch (moves : list MoveOperands) (blocked if_scratch number_of_registers : Z) (body : Z -> bool -> list instr) : list instr :=
  let '(reg_, spilled_) := AllocateScratchRegister moves blocked number_of_registers if_scratch in
  (if spilled_ then [push reg_] else []) ++ body reg_ spilled_ ++ (if spilled_ then [pop reg_] else []).

(** ** x86 *)

Definition EAX := 0.
Definition EBX := 3.
Definition ESP := 4.
Definition kNumberOfCpuRegisters := 8.
Definition kX86WordSize := 4.

Definition AsCpuRegister (l : Location) : cres Z :=
  _ ← CHECK ((0 <=? reg l) && (reg l <? kNumberOfCpuRegisters)); Done (reg l).

Definition x86_MoveMemoryToMemory (moves : list MoveOperands) (dst src : Z) : list instr :=
  with_scratch moves kNoRegister EAX kNumberOfCpuRegisters (fun scratch spilled =>
    let stack_offset := if spilled then kX86WordSize else 0 in
    [ldr scratch ESP (src + stack_offset); str scratch ESP (dst + stack_offset)]).

Definition x86_EmitMove (moves : list MoveOperands) (index : nat) : cres (list instr) :=
  move ← deref (moves !! index);
  let source := source_ move in
  let destination := destination_ move in
  if IsRegister source then
    if IsRegister destination then rd ← AsCpuRegister destination; rs ← AsCpuRegister source; Done [mov rd rs]
    else _ ← DCHECK (IsStackSlot destination); rs ← AsCpuRegister source; Done [str rs ESP (GetStackIndex destination)]
  else if IsStackSlot source then
    if IsRegister destination then rd ← AsCpuRegister destination; Done [ldr rd ESP (GetStackIndex source)]
    else _ ← DCHECK (IsStackSlot destination); Done (x86_MoveMemoryToMemory moves (GetStackIndex destination) (GetStackIndex source))
  else if IsConstant source then
    imm ← AsIntConstant source;
    if IsRegister destination then rd ← AsCpuRegister destination; Done [mov_imm rd imm]
    else Done [str_imm imm ESP (GetStackIndex destination)]
  else Fault Aborted.

Definition x86_Exchange (moves : list MoveOperands) (reg mem : Z) : list instr :=
  let suggested_scratch := if reg =? EAX then EBX else EAX in
  with_scratch moves reg suggested_scratch kNumberOfCpuRegisters (fun scratch spilled =>
    let stack_offset := if spilled then kX86WordSize else 0 in
    [ldr scratch ESP (mem + stack_offset); str reg ESP (mem + stack_offset); mov reg scratch]).

Definition x86_ExchangeMemory (moves : list MoveOperands) (mem1 mem2 : Z) : list instr :=
  with_scratch moves kNoRegister EAX kNumberOfCpuRegisters (fun scratch1 spilled1 =>
    let suggested_scratch := if scratch1 =? EAX then EBX else EAX in
    with_scratch moves scratch1 suggested_scratch kNumberOfCpuRegisters (fun scratch2 spilled2 =>
      let stack_offset := (if spilled1 then kX86WordSize else 0) + (if spilled2 then kX86WordSize else 0) in
      [ldr scratch1 ESP (mem1 + stack_offset); ldr scratch2 ESP (mem2 + stack_offset);
       str scratch1 ESP (mem2 + stack_offset); str scratch2 ESP (mem1 + stack_offset)])).

Definition x86_EmitSwap (moves : list MoveOperands) (index : nat) : cres (list instr) :=
  move ← deref (moves !! index);
  let source := source_ move in
  let destination := destination_ move in
  if IsRegister source && IsRegister destination then
    rd ← AsCpuRegister destination; rs ← AsCpuRegister source; Done [xchg rd rs]
  else if IsRegister source && IsStackSlot destination then
    rs ← AsCpuRegister source; Done (x86_Exchange moves rs (GetStackIndex destination))
  else if IsStackSlot source && IsRegister destination then
    rd ← AsCpuRegister destination; Done (x86_Exchange moves rd (GetStackIndex source))
  else if IsStackSlot source && IsStackSlot destination then
    Done (x86_ExchangeMemory moves (GetStackIndex destination) (GetStackIndex source))
  else Fault Aborted.
End Emitters.

(** ** Steps of the machine *)

Lemma upd_eq f a v : upd f a v a = v.
Proof. unfold upd. by rewrite Z.eqb_refl. Qed.
Lemma upd_ne f a v x : x <> a -> upd f a v x = f x.
Proof. intros Hne. unfold upd. by rewrite (proj2 (Z.eqb_neq _ _) Hne). Qed.

(** A step of a memory instruction, and what registers and words are after updates. *)
Ltac exec_step lem := cbn [run_all]; rewrite lem; [cbn [mbind cres_bind]|try done..].
Ltac upd_simpl := cbn [R M set_reg set_word]; repeat first [rewrite upd_eq | rewrite upd_ne by (first [done | lia | congruence])].

Section Machine.
Context (sp : Z).

Lemma address_at s base offset a : R s base + offset = a -> 0 <= a < 2 ^ 32 -> address base offset s = a.
Proof. intros <- Ha. unfold address. by apply uwrap_small. Qed.
Lemma aligned_at a : a mod 4 = 0 -> aligned a = Done ().
Proof. intros Ha. unfold aligned. by rewrite Ha. Qed.

Lemma step_ldr s rd base offset a : R s base + offset = a -> 0 <= a < 2 ^ 32 -> a mod 4 = 0 ->
  step sp (ldr rd base offset) s = Done (set_reg rd (M s a) s).
Proof. intros E Ha Hm. cbn [step]. rewrite (address_at _ _ _ _ E Ha), aligned_at by done. done. Qed.
Lemma step_str s rt base offset a : R s base + offset = a -> 0 <= a < 2 ^ 32 -> a mod 4 = 0 ->
  step sp (str rt base offset) s = Done (set_word a (R s rt) s).
Proof. intros E Ha Hm. cbn [step]. rewrite (address_at _ _ _ _ E Ha), aligned_at by done. done. Qed.
Lemma step_str_imm s v base offset a : R s base + offset = a -> 0 <= a < 2 ^ 32 -> a mod 4 = 0 ->
  step sp (str_imm v base offset) s = Done (set_word a (uwrap 32 v) s).
Proof. intros E Ha Hm. cbn [step]. rewrite (address_at _ _ _ _ E Ha), aligned_at by done. done. Qed.
Lemma step_push s r : 4 <= R s sp < 2 ^ 32 -> R s sp mod 4 = 0 ->
  step sp (push r) s = Done (set_reg sp (R s sp - 4) (set_word (R s sp - 4) (R s r) s)).
Proof.
  intros Ha Hm. cbn [step]. rewrite (address_at s sp (-4) (R s sp - 4)) by lia. rewrite aligned_at; [done|].
  rewrite <- Zminus_mod_idemp_l, Hm. done.
Qed.
Lemma step_pop s r : 0 <= R s sp -> R s sp + 4 < 2 ^ 32 -> R s sp mod 4 = 0 ->
  step sp (pop r) s = Done (set_reg r (M s (R s sp)) (set_reg sp (R s sp + 4) s)).
Proof. intros H0 Ha Hm. cbn [step]. rewrite (address_at s sp 4 (R s sp + 4)) by lia. by rewrite aligned_at. Qed.

(** What code does: the registers that are not lost, and the memory from the
    stack pointer on. *)
Record effect (lost : Z -> Prop) (s s' : mach) (fr fm : Z -> Z) : Prop := {
  ef_sp : R s' sp = R s sp;
  ef_regs : forall r, r <> sp -> ~ lost r -> R s' r = fr r;
  ef_mem : forall a, R s sp <= a -> M s' a = fm a
}.

(** A stack pointer with room for what is saved and for the slots. *)
Record stack_ok (room limit : Z) (s : mach) : Prop := {
  so_aligned : R s sp mod 4 = 0;
  so_room : room <= R s sp;
  so_limit : R s sp + limit < 2 ^ 32
}.

(** A register that is saved around a piece of code, or free. *)
Lemma scratch_effect (lost : Z -> Prop) scratch (spilled : bool) body s fr fm limit : scratch <> sp -> stack_ok 4 limit s -> 0 <= limit ->
  (spilled = true -> fr scratch = R s scratch) -> (spilled = true -> ~ lost scratch) ->
  (forall s1, R s1 sp = R s sp - (if spilled then 4 else 0) -> (forall r, r <> sp -> R s1 r = R s r) ->
    (forall a, R s sp <= a -> M s1 a = M s a) ->
    exists s2, run_all (step sp) body s1 = Done s2 /\
      effect (fun r => r = scratch \/ lost r) s1 s2 fr (fun a => if a <? R s sp then M s1 a else fm a)) ->
  exists s', run_all (step sp) ((if spilled then [push scratch] else []) ++ body ++ (if spilled then [pop scratch] else [])) s = Done s' /\
    effect (fun r => (r = scratch /\ spilled = false) \/ lost r) s s' fr fm.
Proof.
  intros Hsp [Ha Hr Hl] H0 Hfr Hnl Hbody. destruct spilled; cbn [app].
  - cbn [run_all]. rewrite step_push by lia. cbn [mbind cres_bind]. rewrite run_all_app.
    destruct (Hbody (set_reg sp (R s sp - 4) (set_word (R s sp - 4) (R s scratch) s))) as (s2 & -> & [E1 E2 E3]).
    { cbn. by rewrite upd_eq. }
    { intros r Hne. cbn. by rewrite upd_ne. }
    { intros a Hge. cbn. rewrite upd_ne by lia. done. }
    cbn [mbind cres_bind run_all]. cbn [R M set_reg set_word] in E1, E2, E3. rewrite upd_eq in E1.
    rewrite step_pop; [|lia|lia|rewrite E1, <- Zminus_mod_idemp_l, Ha; done]. cbn [mbind cres_bind].
    eexists. split; [done|]. rewrite upd_eq in E3. split; cbn [R M set_reg].
    + rewrite upd_ne by done. rewrite upd_eq. lia.
    + intros r Hne Hn. destruct (decide (r = scratch)) as [->|Hns].
      * rewrite upd_eq, Hfr by done. rewrite E1, E3 by lia. rewrite (proj2 (Z.ltb_lt _ _)) by lia. by rewrite upd_eq.
      * rewrite !upd_ne by done. apply E2; [done|]. intros [->|Hlost]; [done|]. apply Hn. by right.
    + intros a Hge. rewrite E3 by lia. by rewrite (proj2 (Z.ltb_ge _ _)) by lia.
  - destruct (Hbody s) as (s2 & E & [E1 E2 E3]); [lia|done|done|]. rewrite app_nil_r. exists s2. split; [done|]. split; [done| |].
    + intros r Hne Hn. apply E2; [done|]. intros [->|Hlost]; apply Hn; [by left|by right].
    + intros a Hge. rewrite E3 by lia. by rewrite (proj2 (Z.ltb_ge _ _)) by lia.
Qed.
End Machine.

(** ** Operands *)

Section Operands.
Context `{HostWord} `{Constants}.
(** The stack pointer, the registers that can be operands, and the size of the frame. *)
Context (sp : Z) (is_operand : Z -> Prop) (frame_size : Z).
Context (Hoperand : forall r, is_operand r -> 0 <= r < 64 /\ r <> sp) (Hframe : 0 <= frame_size <= 2 ^ 26).

Definition read32 (s : mach) (l : Location) : Z :=
  if IsRegister l then R s (reg l)
  else if IsStackSlot l then M s (R s sp + GetStackIndex l)
  else match constant_at (GetConstant l) with HIntConstant value => uwrap 32 value | HLongConstant value => uwrap 32 value end.

Inductive operand32 : Location -> Prop :=
| operand_register r : is_operand r -> operand32 (RegisterLocation r)
| operand_slot i : 0 <= i < frame_size -> i mod 4 = 0 -> operand32 (StackSlot i).
Definition literal32 (l : Location) : Prop := IsConstant l = true /\ exists value, constant_at (GetConstant l) = HIntConstant value.

Definition frame32 (s s' : mach) : Prop := R s' sp = R s sp /\ forall a, R s sp + frame_size <= a -> M s' a = M s a.

Lemma payload_small i : 0 <= i < 2 ^ 27 -> in_u kBitsForPayload i.
Proof.
  intros Hi. unfold in_u. pose proof word_bits. split; [lia|]. eapply Z.lt_le_trans; [apply Hi|]. apply Z.pow_le_mono_r; lia.
Qed.
Lemma bias_large : 2 ^ 27 <= kStackIndexBias.
Proof. unfold kStackIndexBias. pose proof word_bits. apply Z.pow_le_mono_r; lia. Qed.

Lemma register_kind r : is_operand r ->
  IsRegister (RegisterLocation r) = true /\ reg (RegisterLocation r) = r /\ IsConstant (RegisterLocation r) = false.
Proof.
  intros Hr. destruct (register_location r) as (Hk & Hp & Hc); [apply payload_small; apply Hoperand in Hr; lia|].
  unfold IsRegister. by rewrite Hk.
Qed.
Lemma slot_kind i : 0 <= i < frame_size ->
  IsRegister (StackSlot i) = false /\ IsStackSlot (StackSlot i) = true /\ GetStackIndex (StackSlot i) = i /\ IsConstant (StackSlot i) = false.
Proof.
  intros Hi. destruct (slot_location kStackSlot i) as (Hk & Hp & Hc); [by left|pose proof bias_large; lia|].
  unfold IsRegister, IsStackSlot, StackSlot. by rewrite Hk.
Qed.
Lemma literal_kind l : IsConstant l = true -> IsRegister l = false /\ IsStackSlot l = false.
Proof.
  intros Hc. unfold IsConstant, kLocationTagMask in Hc. apply Z.eqb_eq in Hc. change 3 with (Z.ones 2) in Hc. rewrite Z.land_ones in Hc by lia.
  unfold IsRegister, IsStackSlot, GetKind, BitField_Decode, kBitsForKind. rewrite Z.shiftr_0_r. change (2 ^ 4 - 1) with (Z.ones 4). rewrite Z.land_ones by lia.
  change (2 ^ 2) with 4 in Hc. change (2 ^ 4) with (4 * 4). rewrite Z.rem_mul_r by lia. rewrite Hc.
  unfold kConstant, kRegister, kStackSlot. split; apply Z.eqb_neq; lia.
Qed.

Lemma operand_ok l : operand32 l -> IsConstant l = false /\ l <> NoLocation.
Proof.
  intros [r Hr|i Hi _].
  - destruct (register_kind r Hr) as (Hk & _ & Hc). split; [done|]. intros E. by rewrite E in Hk.
  - destruct (slot_kind i Hi) as (_ & Hk & _ & Hc). split; [done|]. intros E. by rewrite E in Hk.
Qed.

Lemma read_register s r : is_operand r -> read32 s (RegisterLocation r) = R s r.
Proof. intros Hr. destruct (register_kind r Hr) as (E1 & E2 & _). unfold read32. by rewrite E1, E2. Qed.
Lemma read_slot s i : 0 <= i < frame_size -> read32 s (StackSlot i) = M s (R s sp + i).
Proof. intros Hi. destruct (slot_kind i Hi) as (E1 & E2 & E3 & _). unfold read32. by rewrite E1, E2, E3. Qed.

(** Putting a value in an operand. *)
Definition assign (l : Location) (v : Z) (s : mach) : mach :=
  if IsRegister l then set_reg (reg l) v s else set_word (R s sp + GetStackIndex l) v s.

Lemma assign_sp l v s : operand32 l -> R (assign l v s) sp = R s sp.
Proof.
  intros [r Hr|i Hi _]; unfold assign.
  - destruct (register_kind r Hr) as (-> & -> & _). apply Hoperand in Hr. apply upd_ne. lia.
  - by destruct (slot_kind i Hi) as (-> & _).
Qed.
Lemma read_assign l v s l' : operand32 l -> operand32 l' -> read32 (assign l v s) l' = if decide (l' = l) then v else read32 s l'.
Proof.
  intros Hl Hl'. pose proof (assign_sp l v s Hl) as Esp. unfold assign in *. destruct Hl as [r Hr|i Hi _].
  - destruct (register_kind r Hr) as (E1 & E2 & _). rewrite E1, E2 in *. destruct Hl' as [r' Hr'|i' Hi' _].
    + rewrite !read_register by done. cbn. destruct (decide (r' = r)) as [->|Hne]; [rewrite decide_True by done; apply upd_eq|].
      rewrite decide_False; [by apply upd_ne|]. intros E. apply Hne. by rewrite <- (proj1 (proj2 (register_kind r' Hr'))), E.
    + rewrite !read_slot by done. rewrite Esp. rewrite decide_False; [done|]. intros E. destruct (slot_kind i' Hi') as (E3 & _). congruence.
  - destruct (slot_kind i Hi) as (E1 & E2 & E3 & _). rewrite E1, E3 in *. destruct Hl' as [r' Hr'|i' Hi' _].
    + rewrite !read_register by done. cbn. rewrite decide_False; [done|]. intros E. destruct (register_kind r' Hr') as (E4 & _). congruence.
    + rewrite !read_slot by done. cbn. destruct (decide (i' = i)) as [->|Hne]; [rewrite decide_True by done; apply upd_eq|].
      rewrite decide_False; [apply upd_ne; lia|]. intros E. apply Hne. by rewrite <- (proj1 (proj2 (proj2 (slot_kind i' Hi')))), E.
Qed.

(** Reading after code with a known effect. *)
Lemma read_effect lost s s' t l : effect sp lost s s' (R t) (M t) -> R t sp = R s sp -> operand32 l ->
  (forall r, is_operand r -> l = RegisterLocation r -> ~ lost r) -> read32 s' l = read32 t l.
Proof.
  intros [E1 E2 E3] Et [r Hr|i Hi _] Hn.
  - rewrite !read_register by done. apply Hoperand in Hr as Hr'. apply E2; [lia|]. by apply Hn.
  - rewrite !read_slot by done. rewrite E1, Et. apply E3. lia.
Qed.

(** From the effect of code to the promise of [ParallelMove]. *)
Lemma assign_mem l v s a : operand32 l -> R s sp + frame_size <= a -> M (assign l v s) a = M s a.
Proof.
  intros [r Hr|i Hi _] Ha; unfold assign.
  - by destruct (register_kind r Hr) as (-> & _).
  - destruct (slot_kind i Hi) as (-> & _ & -> & _). cbn. apply upd_ne. lia.
Qed.
Lemma effect_frame lost s s' t : effect sp lost s s' (R t) (M t) -> (forall a, R s sp + frame_size <= a -> M t a = M s a) -> frame32 s s'.
Proof. intros [E1 _ E3] Ht. split; [done|]. intros a Ha. rewrite E3 by lia. by apply Ht. Qed.
Lemma effect_stack room limit lost s s' fr fm : effect sp lost s s' fr fm -> stack_ok sp room limit s -> stack_ok sp room limit s'.
Proof. intros [E _ _] [S1 S2 S3]. split; by rewrite E. Qed.

Lemma move_law (lost : Z -> Prop) moves s s' src dst : operand32 dst ->
  effect sp lost s s' (R (assign dst (read32 s src) s)) (M (assign dst (read32 s src) s)) ->
  (forall r, is_operand r -> lost r -> IsScratchLocation moves (RegisterLocation r) = true /\ RegisterLocation r <> dst /\ ~ literal32 src) ->
  frame32 s s' /\ read32 s' dst = read32 s src /\
  forall l, operand32 l -> l <> dst -> IsScratchLocation moves l = false \/ literal32 src -> read32 s' l = read32 s l.
Proof.
  intros Hd He Hlost. pose proof (assign_sp dst (read32 s src) s Hd) as Esp. split_and!.
  - eapply effect_frame; [exact He|]. intros a Ha. by apply assign_mem.
  - rewrite (read_effect _ _ _ _ dst He Esp Hd); [rewrite read_assign by done; by rewrite decide_True|].
    intros r Hr -> Hl. by destruct (Hlost r Hr Hl) as (_ & Hne & _).
  - intros l Hl Hne Hsc. rewrite (read_effect _ _ _ _ l He Esp Hl); [rewrite read_assign by done; by rewrite decide_False|].
    intros r Hr -> Hlr. destruct (Hlost r Hr Hlr) as (Ht & _ & Hlit). destruct Hsc as [Hf|Hf]; [congruence|done].
Qed.

Lemma swap_law (lost : Z -> Prop) moves s s' src dst : operand32 src -> operand32 dst -> src <> dst ->
  effect sp lost s s' (R (assign src (read32 s dst) (assign dst (read32 s src) s))) (M (assign src (read32 s dst) (assign dst (read32 s src) s))) ->
  (forall r, is_operand r -> lost r -> IsScratchLocation moves (RegisterLocation r) = true /\ RegisterLocation r <> dst /\ RegisterLocation r <> src) ->
  frame32 s s' /\ read32 s' dst = read32 s src /\ read32 s' src = read32 s dst /\
  forall l, operand32 l -> l <> dst -> l <> src -> IsScratchLocation moves l = false -> read32 s' l = read32 s l.
Proof.
  intros Hs Hd Hne He Hlost. set (t := assign dst (read32 s src) s) in *. pose proof (assign_sp dst (read32 s src) s Hd) as Esp. fold t in Esp.
  pose proof (assign_sp src (read32 s dst) t Hs) as Esp'. rewrite Esp in Esp'.
  assert (forall l, operand32 l -> (forall r, is_operand r -> l = RegisterLocation r -> ~ lost r) ->
    read32 s' l = if decide (l = src) then read32 s dst else if decide (l = dst) then read32 s src else read32 s l) as Hread.
  { intros l Hl Hn. rewrite (read_effect _ _ _ _ l He Esp' Hl Hn). rewrite read_assign by done. case_decide; [done|]. by apply read_assign. }
  split_and!.
  - eapply effect_frame; [exact He|]. intros a Ha. rewrite assign_mem by (done || by rewrite Esp). by apply assign_mem.
  - rewrite Hread; [by rewrite decide_False, decide_True|done|]. intros r Hr -> Hl. by destruct (Hlost r Hr Hl) as (_ & ? & _).
  - rewrite Hread; [by rewrite decide_True|done|]. intros r Hr -> Hl. by destruct (Hlost r Hr Hl) as (_ & _ & ?).
  - intros l Hl Hn1 Hn2 Hf. rewrite Hread; [by rewrite !decide_False|done|]. intros r Hr -> Hlr. destruct (Hlost r Hr Hlr). congruence.
Qed.

(** A move blocks its own source. *)
Lemma source_blocks moves i m : moves !! i = Some m -> operand32 (source_ m) -> Exists (fun m' => Blocks m' (source_ m) = true) moves.
Proof.
  intros Hm Hs. apply Exists_exists. exists m. split; [by eapply list_elem_of_lookup_2|]. unfold Blocks, IsEliminated, Equals, IsInvalid.
  destruct (operand_ok _ Hs) as [_ Hv]. apply Z.eqb_neq in Hv. change NoLocation with kInvalid in Hv. by rewrite Z.eqb_refl, Hv.
Qed.
End Operands.

Lemma allocate_spec `{HostWord} moves blocked n if_scratch r spilled : AllocateScratchRegister moves blocked n if_scratch = (r, spilled) ->
  if spilled : bool
  then r = if_scratch /\ forall r', 0 <= r' < n -> r' <> blocked -> IsScratchLocation moves (RegisterLocation r') = false
  else 0 <= r < n /\ r <> blocked /\ IsScratchLocation moves (RegisterLocation r) = true.
Proof.
  unfold AllocateScratchRegister. destruct (list_find _ _) as [[j k]|] eqn:E; intros [= <- <-].
  2:{ split; [done|]. intros r' Hr' Hne. apply list_find_None in E. apply not_true_is_false. intros Hsc.
      refine (proj1 (Forall_forall _ _) E (Z.to_nat r') _ _); [apply elem_of_seq; lia|]. rewrite Z2Nat.id by lia. by split. }
  apply list_find_Some in E as (Hk & [Hne Hsc] & _). apply lookup_seq in Hk. split; [lia|]. split; [congruence|done].
Qed.

(** ** The code of x86 *)

Section X86.
Context `{HostWord} `{Constants}.
Context (frame_size : Z) (Hframe : 0 <= frame_size <= 2 ^ 26).

Definition x86_operand (r : Z) : Prop := 0 <= r < kNumberOfCpuRegisters /\ r <> ESP.
Definition slot_at (i : Z) : Prop := 0 <= i < frame_size /\ i mod 4 = 0.
Definition lost_scratch (blocked : Z) (moves : list MoveOperands) (r : Z) : Prop :=
  r <> blocked /\ IsScratchLocation moves (RegisterLocation r) = true.

(** The destinations of the moves are operands, so that a scratch register is one. *)
Definition destinations_ok (usable : Location -> Prop) (moves : list MoveOperands) : Prop :=
  Forall (fun m => destination_ m = NoLocation \/ usable (destination_ m)) moves.

Lemma scratch_destination moves usable l : destinations_ok usable moves -> l <> NoLocation -> IsScratchLocation moves l = true -> usable l.
Proof.
  intros Hd Hl Hs. apply andb_true_iff in Hs as [_ Hs]. apply existsb_exists in Hs as (m & Hin & E). apply Z.eqb_eq in E. subst l.
  apply list_elem_of_In in Hin. apply (proj1 (Forall_forall _ _) Hd) in Hin as [?|?]; done.
Qed.

Lemma slot_address i sp limit s : stack_ok sp 8 limit s -> frame_size <= limit -> slot_at i ->
  0 <= R s sp + i < 2 ^ 32 /\ (R s sp + i) mod 4 = 0.
Proof. intros [S1 S2 S3] Hl [Hi Hm]. split; [lia|]. rewrite Z.add_mod, S1, Hm by lia. done. Qed.

Abbreviation x86_stack := (stack_ok ESP 8 frame_size).

(** Registers that are saved or free. *)
Lemma x86_scratch moves blocked if_scratch body s fr fm (lost : Z -> Prop) :
  (forall r, 0 <= r < kNumberOfCpuRegisters -> IsScratchLocation moves (RegisterLocation r) = true -> r <> ESP) ->
  if_scratch <> ESP -> stack_ok ESP 4 frame_size s -> fr if_scratch = R s if_scratch ->
  ((forall r, 0 <= r < kNumberOfCpuRegisters -> r <> blocked -> IsScratchLocation moves (RegisterLocation r) = false) -> ~ lost if_scratch) ->
  (forall scratch (spilled : bool) s1, scratch <> ESP -> (spilled = false -> lost_scratch blocked moves scratch) -> (spilled = true -> scratch = if_scratch) ->
    R s1 ESP = R s ESP - (if spilled then 4 else 0) -> (forall r, r <> ESP -> R s1 r = R s r) ->
    (forall a, R s ESP <= a -> M s1 a = M s a) ->
    exists s2, run_all (step ESP) (body scratch spilled) s1 = Done s2 /\
      effect ESP (fun r => r = scratch \/ lost r) s1 s2 fr (fun a => if a <? R s ESP then M s1 a else fm a)) ->
  exists s', run_all (step ESP) (with_scratch moves blocked if_scratch kNumberOfCpuRegisters body) s = Done s' /\
    effect ESP (fun r => lost_scratch blocked moves r \/ lost r) s s' fr fm.
Proof.
  intros Hfree Hne Hs Hfr Hnl Hbody. unfold with_scratch. destruct (AllocateScratchRegister _ _ _ _) as [scratch spilled] eqn:E. apply allocate_spec in E.
  assert (scratch <> ESP) as Hsc by (destruct spilled; [by destruct E as [-> _]|destruct E as (Hr & _ & Ht); by apply Hfree]).
  destruct (scratch_effect ESP lost scratch spilled (body scratch spilled) s fr fm frame_size) as (s' & E' & [E1 E2 E3]); try done; try lia.
  - intros ->. by destruct E as [-> _].
  - intros ->. destruct E as [-> E]. by apply Hnl.
  - intros s1 H1 H2 H3. apply Hbody; try done; intros ->; [by destruct E as (_ & ? & ?)|by destruct E].
  - exists s'. split; [done|]. split; [done| |done]. intros r Hr Hn. apply E2; [done|]. intros [[-> ->]|Hl]; apply Hn; [left|by right].
    by destruct E as (_ & ? & ?).
Qed.

Definition no_lost (r : Z) : Prop := False.


Section Code.
Context (moves : list MoveOperands) (Hfree : forall r, 0 <= r < kNumberOfCpuRegisters -> IsScratchLocation moves (RegisterLocation r) = true -> r <> ESP).

Lemma x86_memory_move s dst src : x86_stack s -> slot_at dst -> slot_at src ->
  exists s', run_all (step ESP) (x86_MoveMemoryToMemory moves dst src) s = Done s' /\
    effect ESP (fun r => lost_scratch kNoRegister moves r \/ no_lost r) s s' (R s) (upd (M s) (R s ESP + dst) (M s (R s ESP + src))).
Proof.
  intros Hs Hd Hsr. destruct (slot_address dst ESP _ s Hs (Z.le_refl _) Hd) as [Ad Md]. destruct (slot_address src ESP _ s Hs (Z.le_refl _) Hsr) as [As Ms].
  pose proof (proj1 (proj1 Hd)). pose proof (proj1 (proj1 Hsr)). pose proof Hs as [S1 S2 S3]. unfold x86_MoveMemoryToMemory. apply x86_scratch; try done; [split; lia|by intros _ []|].
  intros scratch spilled s1 Hsc _ _ Hsp Hr Hm.
  exec_step (step_ldr ESP s1 scratch ESP (src + (if spilled then kX86WordSize else 0)) (R s ESP + src)); [|rewrite Hsp; unfold kX86WordSize; destruct spilled; lia].
  exec_step (step_str ESP (set_reg scratch (M s1 (R s ESP + src)) s1) scratch ESP (dst + (if spilled then kX86WordSize else 0)) (R s ESP + dst));
    [|upd_simpl; rewrite Hsp; unfold kX86WordSize; destruct spilled; lia].
  eexists. split; [done|]. split; upd_simpl; [done| |].
  - intros r Hr1 Hn. rewrite upd_ne; [by apply Hr|]. intros ->. apply Hn. by left.
  - intros a Ha. unfold upd. destruct (Z.eqb_spec a (R s ESP + dst)) as [->|]; destruct (Z.ltb_spec a (R s ESP)) || destruct (Z.ltb_spec (R s ESP + dst) (R s ESP));
      try lia; try done; by rewrite Hm by lia.
Qed.

Lemma x86_exchange s r mem : x86_stack s -> x86_operand r -> slot_at mem ->
  exists s', run_all (step ESP) (x86_Exchange moves r mem) s = Done s' /\
    effect ESP (fun x => lost_scratch r moves x \/ no_lost x) s s' (upd (R s) r (M s (R s ESP + mem))) (upd (M s) (R s ESP + mem) (R s r)).
Proof.
  intros Hs [Hr Hre] Hsl. destruct (slot_address mem ESP _ s Hs (Z.le_refl _) Hsl) as [Am Mm]. pose proof (proj1 (proj1 Hsl)). pose proof Hs as [S1 S2 S3].
  assert ((if r =? EAX then EBX else EAX) <> r /\ (if r =? EAX then EBX else EAX) <> ESP) as [Hsg1 Hsg2].
  { destruct (Z.eqb_spec r EAX) as [->|]; [done|]. split; [congruence|done]. }
  unfold x86_Exchange. apply x86_scratch; try done; [split; lia|by apply upd_ne|by intros _ []|].
  intros scratch spilled s1 Hsc Hl Hsp' Hsp Hr1 Hm. assert (scratch <> r) as Hne by (destruct spilled; [by rewrite Hsp'|by apply Hl]).
  exec_step (step_ldr ESP s1 scratch ESP (mem + (if spilled then kX86WordSize else 0)) (R s ESP + mem)); [|rewrite Hsp; unfold kX86WordSize; destruct spilled; lia].
  exec_step (step_str ESP (set_reg scratch (M s1 (R s ESP + mem)) s1) r ESP (mem + (if spilled then kX86WordSize else 0)) (R s ESP + mem));
    [|upd_simpl; rewrite Hsp; unfold kX86WordSize; destruct spilled; lia].
  cbn [run_all step mbind cres_bind]. eexists. split; [done|]. split; upd_simpl; [done| |].
  - intros x Hx Hn. unfold upd. destruct (Z.eqb_spec x r) as [->|]; [by rewrite Hm by lia|]. destruct (Z.eqb_spec x scratch) as [->|]; [|by apply Hr1].
    exfalso. apply Hn. by left.
  - intros a Ha. unfold upd. destruct (Z.eqb_spec a (R s ESP + mem)) as [->|]; destruct (Z.ltb_spec a (R s ESP)) || destruct (Z.ltb_spec (R s ESP + mem) (R s ESP));
      try lia; try done; [by apply Hr1|by rewrite Hm by lia].
Qed.

Lemma x86_exchange_memory s mem1 mem2 : x86_stack s -> slot_at mem1 -> slot_at mem2 -> mem1 <> mem2 ->
  exists s', run_all (step ESP) (x86_ExchangeMemory moves mem1 mem2) s = Done s' /\
    effect ESP (fun x => lost_scratch kNoRegister moves x \/ IsScratchLocation moves (RegisterLocation x) = true) s s' (R s)
      (upd (upd (M s) (R s ESP + mem1) (M s (R s ESP + mem2))) (R s ESP + mem2) (M s (R s ESP + mem1))).
Proof.
  intros Hs Hs1 Hs2 Hne. destruct (slot_address mem1 ESP _ s Hs (Z.le_refl _) Hs1) as [A1 M1]. destruct (slot_address mem2 ESP _ s Hs (Z.le_refl _) Hs2) as [A2 M2].
  pose proof (proj1 (proj1 Hs1)). pose proof (proj1 (proj1 Hs2)). pose proof Hs as [S1 S2 S3].
  unfold x86_ExchangeMemory. apply x86_scratch; try done; [split; lia| |].
  { intros Hnone Hsc. rewrite Hnone in Hsc; done. }
  intros scratch1 spilled1 s1 Hsc1 Hl1 Hsp1 Hsp Hr1 Hm1.
  assert ((if scratch1 =? EAX then EBX else EAX) <> scratch1 /\ (if scratch1 =? EAX then EBX else EAX) <> ESP) as [Hsg1 Hsg2].
  { destruct (Z.eqb_spec scratch1 EAX) as [->|]; [done|]. split; [congruence|done]. }
  destruct (x86_scratch moves scratch1 (if scratch1 =? EAX then EBX else EAX) (fun scratch2 spilled2 =>
      let stack_offset := (if spilled1 then kX86WordSize else 0) + (if spilled2 : bool then kX86WordSize else 0) in
      [ldr scratch1 ESP (mem1 + stack_offset); ldr scratch2 ESP (mem2 + stack_offset);
       str scratch1 ESP (mem2 + stack_offset); str scratch2 ESP (mem1 + stack_offset)]) s1 (R s)
      (fun a => if a <? R s ESP then M s1 a else
        upd (upd (M s) (R s ESP + mem1) (M s (R s ESP + mem2))) (R s ESP + mem2) (M s (R s ESP + mem1)) a) (eq scratch1))
    as (s2 & E & [E1 E2 E3]); try done.
  - split; [rewrite Hsp|rewrite Hsp|rewrite Hsp]; destruct spilled1; try lia; by rewrite <- Zminus_mod_idemp_l, S1.
  - symmetry. by apply Hr1.
  - intros scratch2 spilled2 s2 Hsc2 Hl2 Hsp2' Hsp2 Hr2 Hm2. cbv zeta.
    assert (scratch2 <> scratch1) as Hne2 by (destruct spilled2; [by rewrite Hsp2'|by apply Hl2]).
    set (off := (if spilled1 then kX86WordSize else 0) + (if spilled2 then kX86WordSize else 0)).
    assert (R s2 ESP + off = R s ESP) as Hoff by (unfold off, kX86WordSize; rewrite Hsp2, Hsp; destruct spilled1, spilled2; lia).
    assert (R s ESP - 4 <= R s1 ESP <= R s ESP) as Hb by (rewrite Hsp; destruct spilled1; lia).
    exec_step (step_ldr ESP s2 scratch1 ESP (mem1 + off) (R s ESP + mem1)); [|lia].
    exec_step (step_ldr ESP (set_reg scratch1 (M s2 (R s ESP + mem1)) s2) scratch2 ESP (mem2 + off) (R s ESP + mem2)); [|upd_simpl; lia].
    set (s3 := set_reg scratch2 (M (set_reg scratch1 (M s2 (R s ESP + mem1)) s2) (R s ESP + mem2)) (set_reg scratch1 (M s2 (R s ESP + mem1)) s2)).
    exec_step (step_str ESP s3 scratch1 ESP (mem2 + off) (R s ESP + mem2)); [|unfold s3; upd_simpl; lia].
    exec_step (step_str ESP (set_word (R s ESP + mem2) (R s3 scratch1) s3) scratch2 ESP (mem1 + off) (R s ESP + mem1)); [|unfold s3; upd_simpl; lia].
    eexists. split; [done|]. unfold s3. split; upd_simpl; [done| |].
    + intros r Hr Hn. rewrite !upd_ne by (intros ->; apply Hn; auto). rewrite Hr2, Hr1 by done. done.
    + intros a Ha. unfold upd. destruct (Z.eqb_spec a (R s ESP + mem1)) as [->|Hn1]; [|destruct (Z.eqb_spec a (R s ESP + mem2)) as [->|Hn2]].
      * rewrite (proj2 (Z.ltb_ge (R s ESP + mem1) (R s1 ESP))), (proj2 (Z.ltb_ge (R s ESP + mem1) (R s ESP))) by lia.
        destruct (Z.eqb_spec (R s ESP + mem1) (R s ESP + mem2)); [lia|]. by rewrite Hm2, Hm1 by lia.
      * rewrite (proj2 (Z.ltb_ge (R s ESP + mem2) (R s1 ESP))), (proj2 (Z.ltb_ge (R s ESP + mem2) (R s ESP))) by lia. by rewrite Hm2, Hm1 by lia.
      * destruct (Z.ltb_spec a (R s1 ESP)); [done|]. destruct (Z.ltb_spec a (R s ESP)); [by apply Hm2; lia|]. by rewrite Hm2, Hm1 by lia.
  - exists s2. split; [exact E|]. split; [done| |].
    + intros r Hr Hn. apply E2; [done|]. intros [Hl|<-]; apply Hn; [right; apply Hl|by left].
    + intros a Ha. by apply E3.
Qed.
End Code.

Lemma x86_registers r : x86_operand r -> 0 <= r < 64 /\ r <> ESP.
Proof. unfold x86_operand, kNumberOfCpuRegisters. lia. Qed.
Abbreviation x86_usable := (operand32 x86_operand frame_size).
Abbreviation x86_read := (read32 ESP).
Abbreviation x86_assign := (assign ESP).

Lemma cpu_register r : x86_operand r -> AsCpuRegister (RegisterLocation r) = Done r.
Proof.
  intros Hr. destruct (register_kind ESP x86_operand x86_registers r Hr) as (_ & E & _). unfold AsCpuRegister. rewrite E.
  destruct Hr as [Hr _]. rewrite (proj2 (Z.leb_le _ _)), (proj2 (Z.ltb_lt _ _)) by lia. done.
Qed.

Lemma free_registers moves r : destinations_ok x86_usable moves -> 0 <= r < kNumberOfCpuRegisters ->
  IsScratchLocation moves (RegisterLocation r) = true -> r <> ESP.
Proof.
  intros Hd Hr Hs ->. destruct (register_location ESP) as (Hk & Hp & _); [by apply payload_small|].
  apply (scratch_destination _ _ _ Hd) in Hs as Hu; [|intros E; by rewrite E in Hk]. remember (RegisterLocation ESP) as l eqn:El.
  destruct Hu as [r' Hr'|i Hi _]; [|destruct (slot_kind frame_size Hframe i Hi) as (E1 & _); unfold IsRegister in E1; by rewrite Hk in E1].
  destruct (register_kind ESP x86_operand x86_registers r' Hr') as (_ & E & _). rewrite Hp in E. subst r'. by destruct Hr'.
Qed.

(** The effect of the code of a move and of a swap. *)
Lemma x86_move moves i m : moves !! i = Some m -> x86_usable (source_ m) \/ literal32 (source_ m) -> x86_usable (destination_ m) ->
  destinations_ok x86_usable moves ->
  exists code, x86_EmitMove moves i = Done code /\ forall s, x86_stack s -> exists s', run_all (step ESP) code s = Done s' /\
    exists lost, effect ESP lost s s' (R (x86_assign (destination_ m) (x86_read s (source_ m)) s)) (M (x86_assign (destination_ m) (x86_read s (source_ m)) s)) /\
    forall r, x86_operand r -> lost r ->
      IsScratchLocation moves (RegisterLocation r) = true /\ RegisterLocation r <> destination_ m /\ ~ literal32 (source_ m).
Proof.
  intros Hm Hsrc Hdst Hd. unfold x86_EmitMove. rewrite Hm. cbn [deref mbind cres_bind]. destruct m as [src dst]. cbn [source_ destination_] in *.
  assert (forall s s', s' = x86_assign dst (x86_read s src) s -> exists lost, effect ESP lost s s' (R s') (M s') /\
    forall r, x86_operand r -> lost r -> IsScratchLocation moves (RegisterLocation r) = true /\ RegisterLocation r <> dst /\ ~ literal32 src) as Hexact.
  { intros s s' ->. exists no_lost. split; [|done]. split; try done. apply (assign_sp _ _ _ x86_registers Hframe _ _ _ Hdst). }
  assert (forall code, (forall s, x86_stack s -> run_all (step ESP) code s = Done (x86_assign dst (x86_read s src) s)) ->
    forall s, x86_stack s -> exists s', run_all (step ESP) code s = Done s' /\
    exists lost, effect ESP lost s s' (R (x86_assign dst (x86_read s src) s)) (M (x86_assign dst (x86_read s src) s)) /\
    forall r, x86_operand r -> lost r ->
      IsScratchLocation moves (RegisterLocation r) = true /\ RegisterLocation r <> dst /\ ~ literal32 src) as Hcode.
  { intros code Hrun s Hs. eexists. split; [by apply Hrun|]. by apply Hexact. }
  destruct Hdst as [rd Hrd|jd Hjd Mjd]; (destruct Hsrc as [Hsrc|[Hl [v Hv]]]; [destruct Hsrc as [rs Hrs|js Hjs Mjs]|]).
  - destruct (register_kind ESP x86_operand x86_registers rd Hrd) as (D1 & D2 & _). destruct (register_kind ESP x86_operand x86_registers rs Hrs) as (S1 & S2 & _).
    rewrite D1, S1, !cpu_register by done. cbn [mbind cres_bind]. eexists. split; [done|]. apply Hcode. intros s Hs. unfold assign, read32. by rewrite D1, D2, S1, S2.
  - destruct (register_kind ESP x86_operand x86_registers rd Hrd) as (D1 & D2 & _). destruct (slot_kind frame_size Hframe js Hjs) as (S1 & S2 & S3 & _).
    rewrite D1, S1, S2, S3, !cpu_register by done. cbn [mbind cres_bind]. eexists. split; [done|]. apply Hcode. intros s Hs.
    destruct (slot_address js ESP _ s Hs (Z.le_refl _) (conj Hjs Mjs)). exec_step (step_ldr ESP s rd ESP js (R s ESP + js)).
    unfold assign, read32. by rewrite D1, D2, S1, S2, S3.
  - destruct (register_kind ESP x86_operand x86_registers rd Hrd) as (D1 & D2 & _). destruct (literal_kind _ Hl) as [S1 S2].
    unfold AsIntConstant. rewrite D1, S1, S2, Hl, Hv, !cpu_register by done. cbn [mbind cres_bind]. eexists. split; [done|]. apply Hcode. intros s Hs.
    unfold assign, read32. by rewrite D1, D2, S1, S2, Hv.
  - destruct (slot_kind frame_size Hframe jd Hjd) as (D1 & D2 & D3 & _). destruct (register_kind ESP x86_operand x86_registers rs Hrs) as (S1 & S2 & _).
    rewrite D1, D2, D3, S1, !cpu_register by done. cbn [DCHECK mbind cres_bind]. eexists. split; [done|]. apply Hcode. intros s Hs.
    destruct (slot_address jd ESP _ s Hs (Z.le_refl _) (conj Hjd Mjd)). exec_step (step_str ESP s rs ESP jd (R s ESP + jd)).
    unfold assign, read32. by rewrite D1, D3, S1, S2.
  - destruct (slot_kind frame_size Hframe jd Hjd) as (D1 & D2 & D3 & _). destruct (slot_kind frame_size Hframe js Hjs) as (S1 & S2 & S3 & _).
    rewrite D1, D2, D3, S1, S2, S3. cbn [DCHECK mbind cres_bind]. eexists. split; [done|]. intros s Hs.
    destruct (x86_memory_move moves (fun r => free_registers moves r Hd) s jd js Hs (conj Hjd Mjd) (conj Hjs Mjs)) as (s' & E & He).
    exists s'. split; [done|]. exists (fun r => lost_scratch kNoRegister moves r \/ no_lost r). unfold assign, read32. rewrite D1, D3, S1, S2, S3. split; [done|].
    intros r Hr [[_ Hsc]|[]]. split_and!; [done|intros E'; destruct (register_kind ESP x86_operand x86_registers r Hr) as (Er & _); congruence|].
    intros [Hlit _]. destruct (slot_kind frame_size Hframe js Hjs) as (_ & _ & _ & Hc). congruence.
  - destruct (slot_kind frame_size Hframe jd Hjd) as (D1 & D2 & D3 & _). destruct (literal_kind _ Hl) as [S1 S2].
    unfold AsIntConstant. rewrite D1, D3, S1, S2, Hl, Hv. cbn [mbind cres_bind]. eexists. split; [done|]. apply Hcode. intros s Hs.
    destruct (slot_address jd ESP _ s Hs (Z.le_refl _) (conj Hjd Mjd)). exec_step (step_str_imm ESP s v ESP jd (R s ESP + jd)).
    unfold assign, read32. by rewrite D1, D3, S1, S2, Hv.
Qed.

Lemma x86_swap moves i m : moves !! i = Some m -> x86_usable (source_ m) -> x86_usable (destination_ m) -> source_ m <> destination_ m ->
  destinations_ok x86_usable moves ->
  exists code, x86_EmitSwap moves i = Done code /\ forall s, x86_stack s -> exists s', run_all (step ESP) code s = Done s' /\
    let t := x86_assign (source_ m) (x86_read s (destination_ m)) (x86_assign (destination_ m) (x86_read s (source_ m)) s) in
    exists lost, effect ESP lost s s' (R t) (M t) /\
    forall r, x86_operand r -> lost r -> IsScratchLocation moves (RegisterLocation r) = true.
Proof.
  intros Hm Hsrc Hdst Hne Hd. unfold x86_EmitSwap. rewrite Hm. cbn [deref mbind cres_bind]. destruct m as [src dst]. cbn [source_ destination_] in *.
  cbv zeta. pose proof (fun r => free_registers moves r Hd) as Hfree. destruct Hsrc as [rs Hrs|js Hjs Mjs]; destruct Hdst as [rd Hrd|jd Hjd Mjd].
  - destruct (register_kind ESP x86_operand x86_registers rd Hrd) as (D1 & D2 & _). destruct (register_kind ESP x86_operand x86_registers rs Hrs) as (S1 & S2 & _).
    rewrite D1, S1, !cpu_register by done. cbn [andb mbind cres_bind]. eexists. split; [done|]. intros s Hs. eexists. split; [done|].
    assert (rs <> rd) as Hr by (intros ->; done). exists no_lost. split; [|by intros r _ []]. unfold assign, read32. rewrite D1, D2, S1, S2.
    destruct (x86_registers rs Hrs) as [_ Hns]. destruct (x86_registers rd Hrd) as [_ Hnd]. split; upd_simpl; [done| |done].
    intros r _ _. unfold upd. destruct (Z.eqb_spec r rd), (Z.eqb_spec r rs); done || congruence.
  - destruct (slot_kind frame_size Hframe jd Hjd) as (D1 & D2 & D3 & _). destruct (register_kind ESP x86_operand x86_registers rs Hrs) as (S1 & S2 & _).
    rewrite D1, D2, D3, S1, !cpu_register by done. cbn [andb mbind cres_bind]. eexists. split; [done|]. intros s Hs.
    destruct (x86_exchange moves Hfree s rs jd Hs Hrs (conj Hjd Mjd)) as (s' & E & He). exists s'. split; [done|]. eexists.
    unfold assign, read32. rewrite D1, D2, D3, S1, S2. split; [exact He|]. by intros r _ [[_ ?]|[]].
  - destruct (slot_kind frame_size Hframe js Hjs) as (S1 & S2 & S3 & _). destruct (register_kind ESP x86_operand x86_registers rd Hrd) as (D1 & D2 & _).
    rewrite S1, S2, S3, D1, !cpu_register by done. cbn [andb mbind cres_bind]. eexists. split; [done|]. intros s Hs.
    destruct (x86_exchange moves Hfree s rd js Hs Hrd (conj Hjs Mjs)) as (s' & E & He). exists s'. split; [done|]. eexists.
    unfold assign, read32. rewrite S1, S2, S3, D1, D2. upd_simpl. destruct (x86_registers rd Hrd) as [_ Hnd].
    rewrite upd_ne by done. split; [exact He|]. by intros r _ [[_ ?]|[]].
  - destruct (slot_kind frame_size Hframe js Hjs) as (S1 & S2 & S3 & _). destruct (slot_kind frame_size Hframe jd Hjd) as (D1 & D2 & D3 & _).
    rewrite S1, S2, S3, D1, D2, D3. cbn [andb mbind cres_bind]. eexists. split; [done|]. intros s Hs.
    destruct (x86_exchange_memory moves Hfree s jd js Hs (conj Hjd Mjd) (conj Hjs Mjs)) as (s' & E & He); [by intros ->|]. exists s'. split; [done|]. eexists.
    unfold assign, read32. rewrite S1, S2, S3, D1, D2, D3. split; [exact He|]. by intros r _ [[_ ?]|?].
Qed.

Lemma scratch_unblocked moves l : Exists (fun m => Blocks m l = true) moves -> IsScratchLocation moves l = false.
Proof.
  intros Hb. unfold IsScratchLocation. apply andb_false_iff. left. apply negb_false_iff. apply existsb_exists.
  apply Exists_exists in Hb as (m & Hin & Hb). exists m. split; [by apply list_elem_of_In|done].
Qed.

#[local] Instance x86_emitter : Emitter instr := {| EmitMove := x86_EmitMove; EmitSwap := x86_EmitSwap |}.
#[local, program] Instance x86_emitter_spec : EmitterSpec instr := {|
  machine := mach; value := Z; run := step ESP; read := x86_read; usable := x86_usable; literal := literal32;
  valid := x86_stack; same_frame := frame32 ESP frame_size
|}.
Next Obligation. by split. Qed.
Next Obligation. intros s1 s2 s3 [E1 M1] [E2 M2]. split; [congruence|]. intros a Ha. rewrite M2 by lia. by apply M1. Qed.
Next Obligation. intros l Hl. eapply operand_ok; [apply x86_registers|done|done]. Qed.
Next Obligation. by intros l [Hl _]. Qed.
Next Obligation. intros l s s' [Hl _]. destruct (literal_kind l Hl) as [E1 E2]. unfold read32. by rewrite E1, E2. Qed.
Next Obligation.
  intros moves i m Hm Hsrc Hdst Hd _. destruct (x86_move moves i m Hm Hsrc Hdst Hd) as (code & E & Hrun). exists code. split; [done|]. intros s Hs.
  destruct (Hrun s Hs) as (s' & Es & lost & He & Hlost). exists s'. split; [done|]. split; [by eapply effect_stack|].
  by eapply move_law; [apply x86_registers|..].
Qed.
Next Obligation.
  intros moves i m Hm Hsrc Hdst Hne Hd Hb. destruct (x86_swap moves i m Hm Hsrc Hdst Hne Hd) as (code & E & Hrun). exists code. split; [done|]. intros s Hs.
  destruct (Hrun s Hs) as (s' & Es & lost & He & Hlost). exists s'. split; [done|]. split; [by eapply effect_stack|].
  eapply swap_law; try done; [apply x86_registers|]. intros r Hr Hl. pose proof (Hlost r Hr Hl) as Hsc. split_and!; [done|..]; intros Er.
  - rewrite Er, scratch_unblocked in Hsc; done.
  - rewrite Er, scratch_unblocked in Hsc; [done|]. apply (source_blocks ESP x86_operand frame_size x86_registers Hframe moves i m); done.
Qed.
End X86.

(** ** Example: a cycle through a slot, a second move from the slot, and a constant *)

#[local, program] Instance demo_word : HostWord := {| kBitsPerWord := 32 |}.
Next Obligation. by left. Qed.
#[local] Instance demo_constants : Constants := fun _ => HIntConstant 7.

Definition demo_moves : list MoveOperands :=
  [mkMove (RegisterLocation 0) (RegisterLocation 1); mkMove (RegisterLocation 1) (StackSlot 8); mkMove (StackSlot 8) (RegisterLocation 0);
   mkMove (StackSlot 8) (StackSlot 12); mkMove (ConstantLocation 4096) (RegisterLocation 2)].

Lemma demo_operands is_operand m : is_operand 0 -> is_operand 1 -> is_operand 2 -> m ∈ demo_moves -> IsRedundant m = false ->
  (operand32 is_operand 64 (source_ m) \/ literal32 (source_ m)) /\ operand32 is_operand 64 (destination_ m).
Proof.
  intros H0 H1 H2 Hm _. assert (operand32 is_operand 64 (StackSlot 8) /\ operand32 is_operand 64 (StackSlot 12)) as [H8 H12] by (split; by constructor).
  assert (literal32 (ConstantLocation 4096)) as Hl by (split; [done|by exists 7]).
  unfold demo_moves in Hm. repeat apply elem_of_cons in Hm as [->|Hm]; [..|by apply elem_of_nil in Hm]; cbn [source_ destination_];
    (split; [first [left; done || by apply operand_register | by right]|done || by apply operand_register]).
Qed.
Lemma demo_distinct : NoDup (destination_ <$> BuildInitialMoveList demo_moves).
Proof. apply (bool_decide_unpack _). vm_compute. done. Qed.

Lemma parallel_move_correct_witness : exists code, @EmitNativeCode instr x86_emitter demo_moves = Done code /\
  forall s, stack_ok ESP 8 64 s -> exists s', run_all (step ESP) code s = Done s' /\ read32 ESP s' (StackSlot 12) = read32 ESP s (StackSlot 8).
Proof.
  destruct (@parallel_move_correct instr _ (x86_emitter_spec 64 ltac:(lia)) demo_moves) as (code & E & Hrun).
  - intros m. apply demo_operands; unfold x86_operand, kNumberOfCpuRegisters, ESP; lia.
  - exact demo_distinct.
  - exists code. split; [exact E|]. intros s Hs. destruct (Hrun s Hs) as (s' & Es & _ & _ & Hd & _). exists s'. split; [exact Es|].
    apply (Hd (mkMove (StackSlot 8) (StackSlot 12))); [|vm_compute; reflexivity]. unfold demo_moves. do 3 right. left.
Defined.
