(* ===== verification/ParallelMoveArm.v ===== *)
(** * ParallelMoveArm: the moves of the ARM code generator
      (compiler/optimizing/code_generator_arm.cc, compiler/utils/arm/assembler_thumb2.cc)

    The code that EmitMove and EmitSwap of ParallelMoveResolverARM emit, that it
    keeps the promise of [ParallelMove] in small frames, and at which moves and
    swaps the generator stops because a slot is 4096 bytes or more above the stack
    pointer. *)

From stdpp Require Import base list.
From S2P Require Import Prelude Locations ParallelMove ParallelMove32.

Section Arm.
Context `{HostWord} `{Constants}.

(** ** The code *)

Definition R0 := 0.
Definition IP := 12.
Definition SP := 13.
Definition PC := 15.
Definition kNumberOfCoreRegisters := 16.
Definition kArmWordSize := 4.

Definition AsCoreRegister (l : Location) : cres Z :=
  _ ← CHECK ((0 <=? reg l) && (reg l <? kNumberOfCoreRegisters)); Done (reg l).

(** CanHoldLoadOffsetThumb and CanHoldStoreOffsetThumb for words. *)
Definition can_hold_offset (offset : Z) : bool := Z.abs offset <? 4096.

Definition LoadFromOffset (rt base offset : Z) : cres (list instr) :=
  if negb (can_hold_offset offset) then
    _ ← CHECK (negb (base =? IP)); Done [mov_imm IP offset; add IP IP base; ldr rt IP 0]
  else Done [ldr rt base offset].
Definition StoreToOffset (rt base offset : Z) : cres (list instr) :=
  if negb (can_hold_offset offset) then
    _ ← CHECK (negb (rt =? IP)); _ ← CHECK (negb (base =? IP)); Done [mov_imm IP offset; add IP IP base; str rt IP 0]
  else Done [str rt base offset].

(** The offsets are ints: a stack index is narrowed where it is passed on
    ([s32]), and the sum of two of them must fit. *)
Definition int_add (a b : Z) : cres Z := if swrap 32 (a + b) =? a + b then Done (a + b) else Fault Overflow.

Definition arm_EmitMove (moves : list MoveOperands) (index : nat) : cres (list instr) :=
  move ← deref (moves !! index);
  let source := source_ move in
  let destination := destination_ move in
  if IsRegister source then
    if IsRegister destination then rd ← AsCoreRegister destination; rs ← AsCoreRegister source; Done [mov rd rs]
    else _ ← DCHECK (IsStackSlot destination); rs ← AsCoreRegister source; StoreToOffset rs SP (s32 (GetStackIndex destination))
  else if IsStackSlot source then
    if IsRegister destination then rd ← AsCoreRegister destination; LoadFromOffset rd SP (s32 (GetStackIndex source))
    else
      _ ← DCHECK (IsStackSlot destination);
      load ← LoadFromOffset IP SP (s32 (GetStackIndex source));
      store ← StoreToOffset IP SP (s32 (GetStackIndex destination));
      Done (load ++ store)
  else
    _ ← DCHECK (IsConstant source);
    value ← AsIntConstant source;
    if IsRegister destination then rd ← AsCoreRegister destination; Done [mov_imm rd value]
    else _ ← DCHECK (IsStackSlot destination); Done [mov_imm IP value; str IP SP (s32 (GetStackIndex destination))].

Definition arm_Exchange (reg mem : Z) : cres (list instr) :=
  load ← LoadFromOffset reg SP mem;
  store ← StoreToOffset IP SP mem;
  Done ([mov IP reg] ++ load ++ store).
Definition arm_ExchangeMemory (moves : list MoveOperands) (mem1 mem2 : Z) : cres (list instr) :=
  let '(reg_, spilled_) := AllocateScratchRegister moves IP kNumberOfCoreRegisters R0 in
  let stack_offset := if spilled_ then kArmWordSize else 0 in
  offset1 ← int_add mem1 stack_offset;
  offset2 ← int_add mem2 stack_offset;
  load1 ← LoadFromOffset reg_ SP offset1;
  load2 ← LoadFromOffset IP SP offset2;
  store1 ← StoreToOffset reg_ SP offset2;
  store2 ← StoreToOffset IP SP offset1;
  Done ((if spilled_ then [push reg_] else []) ++ (load1 ++ load2 ++ store1 ++ store2) ++ (if spilled_ then [pop reg_] else [])).

Definition arm_EmitSwap (moves : list MoveOperands) (index : nat) : cres (list instr) :=
  move ← deref (moves !! index);
  let source := source_ move in
  let destination := destination_ move in
  if IsRegister source && IsRegister destination then
    rs ← AsCoreRegister source; rd ← AsCoreRegister destination;
    _ ← DCHECK (negb (rs =? IP)); _ ← DCHECK (negb (rd =? IP));
    Done [mov IP rs; mov rs rd; mov rd IP]
  else if IsRegister source && IsStackSlot destination then
    rs ← AsCoreRegister source; arm_Exchange rs (s32 (GetStackIndex destination))
  else if IsStackSlot source && IsRegister destination then
    rd ← AsCoreRegister destination; arm_Exchange rd (s32 (GetStackIndex source))
  else if IsStackSlot source && IsStackSlot destination then
    arm_ExchangeMemory moves (s32 (GetStackIndex source)) (s32 (GetStackIndex destination))
  else Fault Aborted.

(** ** The promise *)

Context (frame_size : Z) (Hframe : 0 <= frame_size <= 4092).
Definition arm_operand (r : Z) : Prop := 0 <= r < kNumberOfCoreRegisters /\ r <> SP /\ r <> IP /\ r <> PC.
Lemma arm_registers r : arm_operand r -> 0 <= r < 64 /\ r <> SP.
Proof. unfold arm_operand, kNumberOfCoreRegisters. lia. Qed.
Lemma arm_frame : 0 <= frame_size <= 2 ^ 26.
Proof. lia. Qed.

Abbreviation arm_usable := (operand32 arm_operand frame_size).
Abbreviation arm_read := (read32 SP).
Abbreviation arm_assign := (assign SP).
Abbreviation arm_stack := (stack_ok SP 8 frame_size).
Abbreviation arm_slot := (slot_at frame_size).

Lemma core_register r : arm_operand r -> AsCoreRegister (RegisterLocation r) = Done r.
Proof.
  intros Hr. destruct (register_kind SP arm_operand arm_registers r Hr) as (_ & E & _). unfold AsCoreRegister. rewrite E.
  destruct Hr as [Hr _]. rewrite (proj2 (Z.leb_le _ _)), (proj2 (Z.ltb_lt _ _)) by lia. done.
Qed.
Lemma load_small r i : 0 <= i < 4096 -> LoadFromOffset r SP i = Done [ldr r SP i].
Proof. intros Hi. unfold LoadFromOffset, can_hold_offset. rewrite (proj2 (Z.ltb_lt _ _)) by lia. done. Qed.
Lemma store_small r i : 0 <= i < 4096 -> StoreToOffset r SP i = Done [str r SP i].
Proof. intros Hi. unfold StoreToOffset, can_hold_offset. rewrite (proj2 (Z.ltb_lt _ _)) by lia. done. Qed.

Lemma int_small i : 0 <= i < 2 ^ 31 -> s32 i = i.
Proof. intros Hi. apply swrap_small; [lia|]. unfold in_s. lia. Qed.
Lemma int_add_small i j : 0 <= i + j < 2 ^ 31 -> int_add i j = Done (i + j).
Proof. intros Hij. unfold int_add. by rewrite int_small, Z.eqb_refl. Qed.

(** IP is lost in each piece of code. *)
Definition lost_ip (r : Z) : Prop := r = IP.

Lemma arm_move moves i m : moves !! i = Some m -> arm_usable (source_ m) \/ literal32 (source_ m) -> arm_usable (destination_ m) ->
  exists code, arm_EmitMove moves i = Done code /\ forall s, arm_stack s -> exists s', run_all (step SP) code s = Done s' /\
    effect SP lost_ip s s' (R (arm_assign (destination_ m) (arm_read s (source_ m)) s)) (M (arm_assign (destination_ m) (arm_read s (source_ m)) s)).
Proof.
  intros Hm Hsrc Hdst. unfold arm_EmitMove. rewrite Hm. cbn [deref mbind cres_bind]. destruct m as [src dst]. cbn [source_ destination_] in *.
  assert (forall code, (forall s, arm_stack s -> run_all (step SP) code s = Done (arm_assign dst (arm_read s src) s)) ->
    forall s, arm_stack s -> exists s', run_all (step SP) code s = Done s' /\ effect SP lost_ip s s' (R (arm_assign dst (arm_read s src) s)) (M (arm_assign dst (arm_read s src) s))) as Hcode.
  { intros code Hrun s Hs. eexists. split; [by apply Hrun|]. split; try done. apply (assign_sp _ _ _ arm_registers arm_frame _ _ _ Hdst). }
  destruct Hdst as [rd Hrd|jd Hjd Mjd]; (destruct Hsrc as [Hsrc|[Hl [v Hv]]]; [destruct Hsrc as [rs Hrs|js Hjs Mjs]|]).
  - destruct (register_kind SP arm_operand arm_registers rd Hrd) as (D1 & D2 & _). destruct (register_kind SP arm_operand arm_registers rs Hrs) as (S1 & S2 & _).
    rewrite D1, S1, !core_register by done. cbn [mbind cres_bind]. eexists. split; [done|]. apply Hcode. intros s Hs. unfold assign, read32. by rewrite D1, D2, S1, S2.
  - destruct (register_kind SP arm_operand arm_registers rd Hrd) as (D1 & D2 & _). destruct (slot_kind frame_size arm_frame js Hjs) as (S1 & S2 & S3 & _).
    rewrite D1, S1, S2, S3, !core_register by done. cbn [mbind cres_bind]. rewrite int_small, load_small by lia. eexists. split; [done|]. apply Hcode. intros s Hs.
    destruct (slot_address frame_size js SP _ s Hs (Z.le_refl _) (conj Hjs Mjs)). exec_step (step_ldr SP s rd SP js (R s SP + js)).
    unfold assign, read32. by rewrite D1, D2, S1, S2, S3.
  - destruct (register_kind SP arm_operand arm_registers rd Hrd) as (D1 & D2 & _). destruct (literal_kind _ Hl) as [S1 S2].
    unfold AsIntConstant. rewrite D1, S1, S2, Hl, Hv, !core_register by done. cbn [DCHECK mbind cres_bind]. eexists. split; [done|]. apply Hcode. intros s Hs.
    unfold assign, read32. by rewrite D1, D2, S1, S2, Hv.
  - destruct (slot_kind frame_size arm_frame jd Hjd) as (D1 & D2 & D3 & _). destruct (register_kind SP arm_operand arm_registers rs Hrs) as (S1 & S2 & _).
    rewrite D1, D2, D3, S1, !core_register by done. cbn [DCHECK mbind cres_bind]. rewrite int_small, store_small by lia. eexists. split; [done|]. apply Hcode. intros s Hs.
    destruct (slot_address frame_size jd SP _ s Hs (Z.le_refl _) (conj Hjd Mjd)). exec_step (step_str SP s rs SP jd (R s SP + jd)).
    unfold assign, read32. by rewrite D1, D3, S1, S2.
  - destruct (slot_kind frame_size arm_frame jd Hjd) as (D1 & D2 & D3 & _). destruct (slot_kind frame_size arm_frame js Hjs) as (S1 & S2 & S3 & _).
    rewrite D1, D2, D3, S1, S2, S3. cbn [DCHECK mbind cres_bind]. rewrite !int_small, load_small, store_small by lia. eexists. split; [done|]. intros s Hs.
    destruct (slot_address frame_size jd SP _ s Hs (Z.le_refl _) (conj Hjd Mjd)). destruct (slot_address frame_size js SP _ s Hs (Z.le_refl _) (conj Hjs Mjs)).
    cbn [app]. exec_step (step_ldr SP s IP SP js (R s SP + js)). exec_step (step_str SP (set_reg IP (M s (R s SP + js)) s) IP SP jd (R s SP + jd)).
    eexists. split; [done|]. unfold assign, read32. rewrite D1, D3, S1, S2, S3. split; upd_simpl; [done| |done]. intros r _ Hn. by apply upd_ne.
  - destruct (slot_kind frame_size arm_frame jd Hjd) as (D1 & D2 & D3 & _). destruct (literal_kind _ Hl) as [S1 S2].
    unfold AsIntConstant. rewrite D1, D2, D3, S1, S2, Hl, Hv. cbn [DCHECK mbind cres_bind]. rewrite int_small by lia. eexists. split; [done|]. intros s Hs.
    destruct (slot_address frame_size jd SP _ s Hs (Z.le_refl _) (conj Hjd Mjd)). cbn [run_all].
    change (step SP (mov_imm IP v) s) with (Done (set_reg IP (uwrap 32 v) s)). cbn [mbind cres_bind].
    exec_step (step_str SP (set_reg IP (uwrap 32 v) s) IP SP jd (R s SP + jd)).
    eexists. split; [done|]. unfold assign, read32. rewrite D1, D3, S1, S2, Hv. split; upd_simpl; [done| |done]. intros r _ Hn. by apply upd_ne.
Qed.

(** A register that can be used for a while. *)
Lemma arm_free moves r : destinations_ok arm_usable moves -> 0 <= r < kNumberOfCoreRegisters ->
  IsScratchLocation moves (RegisterLocation r) = true -> arm_operand r.
Proof.
  intros Hd Hr Hs. destruct (register_location r) as (Hk & Hp & _); [apply payload_small; unfold kNumberOfCoreRegisters in Hr; lia|].
  apply (scratch_destination _ _ _ Hd) in Hs as Hu; [|intros E; by rewrite E in Hk]. remember (RegisterLocation r) as l eqn:El.
  destruct Hu as [r' Hr'|i Hi _]; [|destruct (slot_kind frame_size arm_frame i Hi) as (E1 & _); unfold IsRegister in E1; by rewrite Hk in E1].
  destruct (register_kind SP arm_operand arm_registers r' Hr') as (_ & E & _). rewrite Hp in E. by subst r'.
Qed.

Lemma arm_exchange_body scratch off s s1 mem1 mem2 : scratch <> SP -> scratch <> IP -> arm_stack s -> arm_slot mem1 -> arm_slot mem2 -> mem1 <> mem2 ->
  R s1 SP + off = R s SP -> 0 <= off -> (forall r, r <> SP -> R s1 r = R s r) -> (forall a, R s SP <= a -> M s1 a = M s a) ->
  exists s2, run_all (step SP) [ldr scratch SP (mem1 + off); ldr IP SP (mem2 + off); str scratch SP (mem2 + off); str IP SP (mem1 + off)] s1 = Done s2 /\
    effect SP (fun r => r = scratch \/ lost_ip r) s1 s2 (R s) (fun a => if a <? R s SP then M s1 a
      else upd (upd (M s) (R s SP + mem2) (M s (R s SP + mem1))) (R s SP + mem1) (M s (R s SP + mem2)) a).
Proof.
  intros Hsc Hip Hs Hs1 Hs2 Hne Hoff Hpos Hr Hm.
  destruct (slot_address frame_size mem1 SP _ s Hs (Z.le_refl _) Hs1) as [A1 M1]. destruct (slot_address frame_size mem2 SP _ s Hs (Z.le_refl _) Hs2) as [A2 M2].
  pose proof (proj1 (proj1 Hs1)). pose proof (proj1 (proj1 Hs2)). assert (IP <> SP) as Hips by done.
  exec_step (step_ldr SP s1 scratch SP (mem1 + off) (R s SP + mem1)); [|lia].
  exec_step (step_ldr SP (set_reg scratch (M s1 (R s SP + mem1)) s1) IP SP (mem2 + off) (R s SP + mem2)); [|upd_simpl; lia].
  set (s3 := set_reg IP (M (set_reg scratch (M s1 (R s SP + mem1)) s1) (R s SP + mem2)) (set_reg scratch (M s1 (R s SP + mem1)) s1)).
  exec_step (step_str SP s3 scratch SP (mem2 + off) (R s SP + mem2)); [|unfold s3; upd_simpl; lia].
  exec_step (step_str SP (set_word (R s SP + mem2) (R s3 scratch) s3) IP SP (mem1 + off) (R s SP + mem1)); [|unfold s3; upd_simpl; lia].
  eexists. split; [done|]. unfold s3. split; upd_simpl; [done| |].
  - intros r Hr1 Hn. rewrite !upd_ne; [by apply Hr| |]; intros ->; apply Hn; [by left|by right].
  - intros a Ha. unfold upd. destruct (Z.eqb_spec a (R s SP + mem1)) as [->|Hn1]; [|destruct (Z.eqb_spec a (R s SP + mem2)) as [->|Hn2]].
    + rewrite (proj2 (Z.ltb_ge (R s SP + mem1) (R s SP))) by lia. by apply Hm; lia.
    + rewrite (proj2 (Z.ltb_ge (R s SP + mem2) (R s SP))) by lia. by apply Hm; lia.
    + destruct (Z.ltb_spec a (R s SP)); [done|]. by apply Hm; lia.
Qed.

Lemma arm_exchange_memory moves mem1 mem2 : destinations_ok arm_usable moves -> arm_slot mem1 -> arm_slot mem2 -> mem1 <> mem2 ->
  exists code, arm_ExchangeMemory moves mem1 mem2 = Done code /\ forall s, arm_stack s -> exists s', run_all (step SP) code s = Done s' /\
    effect SP (fun r => IsScratchLocation moves (RegisterLocation r) = true \/ lost_ip r) s s' (R s)
      (upd (upd (M s) (R s SP + mem2) (M s (R s SP + mem1))) (R s SP + mem1) (M s (R s SP + mem2))).
Proof.
  intros Hd Hs1 Hs2 Hne. unfold arm_ExchangeMemory. destruct (AllocateScratchRegister _ _ _ _) as [scratch spilled] eqn:Ea. apply allocate_spec in Ea.
  assert (scratch <> SP /\ scratch <> IP) as [Hsc Hip].
  { destruct spilled; [by destruct Ea as [-> _]|]. destruct Ea as (Hr & _ & Hf). by destruct (arm_free moves scratch Hd Hr Hf) as (_ & ? & ? & _). }
  set (off := if spilled then kArmWordSize else 0). assert (0 <= off <= 4) as Hoff by (unfold off, kArmWordSize; destruct spilled; lia).
  destruct Hs1 as [Hb1 Hm1], Hs2 as [Hb2 Hm2].
  rewrite !int_add_small by lia. cbn [mbind cres_bind]. rewrite !load_small, !store_small by lia. cbn [mbind cres_bind]. eexists. split; [done|]. intros s Hs. pose proof Hs as [S1 S2 S3].
  destruct (scratch_effect SP lost_ip scratch spilled
    [ldr scratch SP (mem1 + off); ldr IP SP (mem2 + off); str scratch SP (mem2 + off); str IP SP (mem1 + off)] s (R s)
    (upd (upd (M s) (R s SP + mem2) (M s (R s SP + mem1))) (R s SP + mem1) (M s (R s SP + mem2))) frame_size) as (s' & E & [E1 E2 E3]);
    try done; [split; lia|lia| |].
  - intros s1 Hsp Hr Hm. apply arm_exchange_body; try done; [|lia]. rewrite Hsp. unfold off, kArmWordSize. destruct spilled; lia.
  - exists s'. split; [done|]. split; [done| |done]. intros r Hr Hn. apply E2; [done|]. intros [[-> ->]|Hl]; apply Hn; [left|by right]. by destruct Ea as (_ & _ & ?).
Qed.

Lemma arm_exchange r mem : arm_operand r -> arm_slot mem ->
  exists code, arm_Exchange r mem = Done code /\ forall s, arm_stack s -> exists s', run_all (step SP) code s = Done s' /\
    effect SP lost_ip s s' (upd (R s) r (M s (R s SP + mem))) (upd (M s) (R s SP + mem) (R s r)).
Proof.
  intros (Hr & Hsp & Hip & _) Hsl. unfold arm_Exchange. pose proof (proj1 Hsl). rewrite load_small, store_small by lia. cbn [mbind cres_bind].
  eexists. split; [done|]. intros s Hs. destruct (slot_address frame_size mem SP _ s Hs (Z.le_refl _) Hsl) as [A M1]. cbn [app run_all].
  change (step SP (mov IP r) s) with (Done (set_reg IP (R s r) s)). cbn [mbind cres_bind].
  exec_step (step_ldr SP (set_reg IP (R s r) s) r SP mem (R s SP + mem)).
  exec_step (step_str SP (set_reg r (M (set_reg IP (R s r) s) (R s SP + mem)) (set_reg IP (R s r) s)) IP SP mem (R s SP + mem)); [|by upd_simpl].
  eexists. split; [done|]. split; upd_simpl; [done| |done].
  intros x Hx Hn. unfold upd. destruct (Z.eqb_spec x r); [done|]. by rewrite (proj2 (Z.eqb_neq _ _) Hn).
Qed.

Lemma arm_swap moves i m : moves !! i = Some m -> arm_usable (source_ m) -> arm_usable (destination_ m) -> source_ m <> destination_ m ->
  destinations_ok arm_usable moves ->
  exists code, arm_EmitSwap moves i = Done code /\ forall s, arm_stack s -> exists s', run_all (step SP) code s = Done s' /\
    let t := arm_assign (source_ m) (arm_read s (destination_ m)) (arm_assign (destination_ m) (arm_read s (source_ m)) s) in
    effect SP (fun r => IsScratchLocation moves (RegisterLocation r) = true \/ lost_ip r) s s' (R t) (M t).
Proof.
  intros Hm Hsrc Hdst Hne Hd. unfold arm_EmitSwap. rewrite Hm. cbn [deref mbind cres_bind]. destruct m as [src dst]. cbn [source_ destination_] in *.
  assert (forall s s' fr fm, effect SP lost_ip s s' fr fm -> effect SP (fun r => IsScratchLocation moves (RegisterLocation r) = true \/ lost_ip r) s s' fr fm) as Hweak.
  { intros s s' fr fm [E1 E2 E3]. split; [done| |done]. intros r Hr Hn. apply E2; [done|]. intros Hl. apply Hn. by right. }
  cbv zeta. destruct Hsrc as [rs Hrs|js Hjs Mjs]; destruct Hdst as [rd Hrd|jd Hjd Mjd].
  - destruct (register_kind SP arm_operand arm_registers rd Hrd) as (D1 & D2 & _). destruct (register_kind SP arm_operand arm_registers rs Hrs) as (S1 & S2 & _).
    destruct Hrd as (Hbd & Hd1 & Hd2 & Hd3) eqn:Erd, Hrs as (Hbs & Hs1 & Hs2 & Hs3) eqn:Ers.
    rewrite D1, S1, !core_register by done. cbn [andb mbind cres_bind]. rewrite (proj2 (Z.eqb_neq _ _) Hs2), (proj2 (Z.eqb_neq _ _) Hd2). cbn [negb DCHECK mbind cres_bind].
    eexists. split; [done|]. intros s Hs. eexists. split; [done|]. assert (rs <> rd) as Hr by (intros ->; done).
    apply Hweak. unfold assign, read32. rewrite D1, D2, S1, S2. split; upd_simpl; [done| |done].
    intros r _ Hn. unfold upd. destruct (Z.eqb_spec r IP); [done|]. destruct (Z.eqb_spec r rd), (Z.eqb_spec r rs); done || congruence.
  - destruct (slot_kind frame_size arm_frame jd Hjd) as (D1 & D2 & D3 & _). destruct (register_kind SP arm_operand arm_registers rs Hrs) as (S1 & S2 & _).
    rewrite D1, D2, D3, S1, !core_register by done. cbn [andb mbind cres_bind].
    rewrite !int_small by lia. destruct (arm_exchange rs jd Hrs (conj Hjd Mjd)) as (code & -> & Hrun). exists code. split; [done|]. intros s Hs.
    destruct (Hrun s Hs) as (s' & E & He). exists s'. split; [done|]. apply Hweak. unfold assign, read32. by rewrite D1, D2, D3, S1, S2.
  - destruct (slot_kind frame_size arm_frame js Hjs) as (S1 & S2 & S3 & _). destruct (register_kind SP arm_operand arm_registers rd Hrd) as (D1 & D2 & _).
    rewrite S1, S2, S3, D1, !core_register by done. cbn [andb mbind cres_bind].
    rewrite !int_small by lia. destruct (arm_exchange rd js Hrd (conj Hjs Mjs)) as (code & -> & Hrun). exists code. split; [done|]. intros s Hs.
    destruct (Hrun s Hs) as (s' & E & He). exists s'. split; [done|]. apply Hweak. unfold assign, read32. rewrite S1, S2, S3, D1, D2. upd_simpl.
    destruct (arm_registers rd Hrd) as [_ Hnd]. by rewrite upd_ne.
  - destruct (slot_kind frame_size arm_frame js Hjs) as (S1 & S2 & S3 & _). destruct (slot_kind frame_size arm_frame jd Hjd) as (D1 & D2 & D3 & _).
    rewrite S1, S2, S3, D1, D2, D3. cbn [andb mbind cres_bind].
    rewrite !int_small by lia. destruct (arm_exchange_memory moves js jd Hd (conj Hjs Mjs) (conj Hjd Mjd)) as (code & -> & Hrun); [by intros ->|]. exists code. split; [done|]. intros s Hs.
    destruct (Hrun s Hs) as (s' & E & He). exists s'. split; [done|]. unfold assign, read32. by rewrite S1, S2, S3, D1, D2, D3.
Qed.

#[local] Instance arm_emitter : Emitter instr := {| EmitMove := arm_EmitMove; EmitSwap := arm_EmitSwap |}.
#[local, program] Instance arm_emitter_spec : EmitterSpec instr := {|
  machine := mach; value := Z; run := step SP; read := arm_read; usable := arm_usable; literal := literal32;
  valid := arm_stack; same_frame := frame32 SP frame_size
|}.
Next Obligation. by split. Qed.
Next Obligation. intros s1 s2 s3 [E1 M1] [E2 M2]. split; [congruence|]. intros a Ha. rewrite M2 by lia. by apply M1. Qed.
Next Obligation. intros l Hl. eapply operand_ok; [apply arm_registers|apply arm_frame|done]. Qed.
Next Obligation. by intros l [Hl _]. Qed.
Next Obligation. intros l s s' [Hl _]. destruct (literal_kind l Hl) as [E1 E2]. unfold read32. by rewrite E1, E2. Qed.
Next Obligation.
  intros moves i m Hm Hsrc Hdst _ _. destruct (arm_move moves i m Hm Hsrc Hdst) as (code & E & Hrun). exists code. split; [done|]. intros s Hs.
  destruct (Hrun s Hs) as (s' & Es & He). exists s'. split; [done|]. split; [by eapply effect_stack|].
  eapply move_law; [apply arm_registers|apply arm_frame|done|done|]. intros r (_ & _ & Hip & _) Hl. done.
Qed.
Next Obligation.
  intros moves i m Hm Hsrc Hdst Hne Hd Hb. destruct (arm_swap moves i m Hm Hsrc Hdst Hne Hd) as (code & E & Hrun). exists code. split; [done|]. intros s Hs.
  destruct (Hrun s Hs) as (s' & Es & He). exists s'. split; [done|]. split; [by eapply effect_stack|].
  eapply swap_law; try done; [apply arm_registers|apply arm_frame|]. intros r Hr [Hsc|Hl]; [|by destruct Hr as (_ & _ & ? & _)]. split_and!; [done|..]; intros Er.
  - rewrite Er, scratch_unblocked in Hsc; done.
  - rewrite Er, scratch_unblocked in Hsc; [done|]. apply (source_blocks SP arm_operand frame_size arm_registers arm_frame moves i m); done.
Qed.
End Arm.

(** C26: the ARM code generator does the moves between two instructions at once:
    for moves with distinct destinations between core registers other than SP, IP
    and PC, stack slots in the first 4092 bytes of the frame and integer
    constants, code is generated, and run from any state with an aligned stack it
    leaves in each destination what was in its source, everything else that
    can be an operand as it was, SP and the memory above the slots included. *)
Theorem arm_parallel_move `{HostWord} `{Constants} frame_size parallel_move :
  0 <= frame_size <= 4092 ->
  (forall m, m ∈ parallel_move -> IsRedundant m = false ->
    (operand32 arm_operand frame_size (source_ m) \/ literal32 (source_ m)) /\ operand32 arm_operand frame_size (destination_ m)) ->
  NoDup (destination_ <$> BuildInitialMoveList parallel_move) ->
  exists code, @EmitNativeCode instr arm_emitter parallel_move = Done code /\
  forall s, stack_ok SP 8 frame_size s -> exists s', run_all (step SP) code s = Done s' /\
    R s' SP = R s SP /\ (forall a, R s SP + frame_size <= a -> M s' a = M s a) /\
    (forall m, m ∈ parallel_move -> IsRedundant m = false -> read32 SP s' (destination_ m) = read32 SP s (source_ m)) /\
    forall l, operand32 arm_operand frame_size l -> (forall m, m ∈ parallel_move -> IsRedundant m = false -> destination_ m <> l) ->
      read32 SP s' l = read32 SP s l.
Proof.
  intros Hf Hops Hnd. destruct (@emit_native_code_ok instr _ (arm_emitter_spec frame_size Hf) parallel_move Hops Hnd) as (code & E & Hrun).
  exists code. split; [exact E|]. intros s Hs. destruct (Hrun s Hs) as (s' & Es & _ & [Hsp Hm] & Hd & Hl). by exists s'.
Qed.

(** A stack slot at an offset that a load or store of a word cannot hold. *)
Definition far_slot `{HostWord} (l : Location) : Prop := IsStackSlot l = true /\ 4096 <= GetStackIndex l < 2 ^ 31 - kArmWordSize.

Section Far.
Context `{HostWord} `{Constants}.

Lemma slot_not_register l : IsStackSlot l = true -> IsRegister l = false.
Proof. unfold IsRegister, IsStackSlot. intros Hs%Z.eqb_eq. by rewrite Hs. Qed.
Lemma store_far i : 4096 <= i -> StoreToOffset IP SP i = Fault Aborted.
Proof. intros Hi. unfold StoreToOffset, can_hold_offset. by rewrite (proj2 (Z.ltb_ge _ _)) by lia. Qed.
Lemma load_done r i : exists code, LoadFromOffset r SP i = Done code.
Proof. unfold LoadFromOffset. case_match; by eexists. Qed.
Lemma store_stops r i : (exists code, StoreToOffset r SP i = Done code) \/ StoreToOffset r SP i = Fault Aborted.
Proof. unfold StoreToOffset. case_match; [|left; by eexists]. destruct (r =? IP); [by right|left; by eexists]. Qed.

Lemma exchange_far r i : 4096 <= i -> arm_Exchange r i = Fault Aborted.
Proof. intros Hi. unfold arm_Exchange. destruct (load_done r i) as [code ->]. cbn [mbind cres_bind]. by rewrite store_far. Qed.
Lemma exchange_memory_far moves mem1 mem2 :
  4096 <= mem1 < 2 ^ 31 - kArmWordSize -> 0 <= mem2 < 2 ^ 31 - kArmWordSize -> arm_ExchangeMemory moves mem1 mem2 = Fault Aborted.
Proof.
  intros H1 H2. unfold arm_ExchangeMemory. destruct (AllocateScratchRegister _ _ _ _) as [r spilled]. unfold kArmWordSize in *.
  rewrite !int_add_small by (destruct spilled; lia). cbn [mbind cres_bind].
  edestruct (load_done r) as [c1 ->]. cbn [mbind cres_bind]. edestruct (load_done IP) as [c2 ->]. cbn [mbind cres_bind].
  edestruct (store_stops r) as [[c3 ->]| ->]; [|done]. cbn [mbind cres_bind]. by rewrite store_far by (destruct spilled; lia).
Qed.
End Far.

(** C31: the ARM code generator stops the compiler at slots that are 4096 bytes or
    more above the stack pointer when it needs IP for the value: at a move from
    a slot to such a slot, at a swap of a core register and such a slot, in
    either order, and at a swap of such a slot with a second slot, whose
    offset is not negative. *)
Theorem arm_far_slot_aborts `{HostWord} `{Constants} moves i source destination :
  moves !! i = Some (mkMove source destination) ->
  (IsStackSlot source = true -> far_slot destination -> arm_EmitMove moves i = Fault Aborted) /\
  (forall r, arm_operand r -> source = RegisterLocation r -> far_slot destination -> arm_EmitSwap moves i = Fault Aborted) /\
  (forall r, arm_operand r -> destination = RegisterLocation r -> far_slot source -> arm_EmitSwap moves i = Fault Aborted) /\
  (IsStackSlot destination = true -> 0 <= GetStackIndex destination < 2 ^ 31 - kArmWordSize -> far_slot source ->
    arm_EmitSwap moves i = Fault Aborted).
Proof.
  intros Hm. unfold arm_EmitMove, arm_EmitSwap, far_slot, kArmWordSize. rewrite Hm. cbn [deref mbind cres_bind source_ destination_]. split_and!.
  - intros Hs [Hd Hf]. rewrite (slot_not_register _ Hs), Hs, (slot_not_register _ Hd), Hd. cbn [DCHECK mbind cres_bind].
    destruct (load_done IP (s32 (GetStackIndex source))) as [code ->]. cbn [mbind cres_bind]. by rewrite int_small, store_far by lia.
  - intros r Hr -> [Hd Hf]. destruct (register_kind SP arm_operand arm_registers r Hr) as (S1 & _).
    rewrite S1, (slot_not_register _ Hd), Hd, core_register by done. cbn [andb mbind cres_bind]. by rewrite int_small, exchange_far by lia.
  - intros r Hr -> [Hs Hf]. destruct (register_kind SP arm_operand arm_registers r Hr) as (D1 & _).
    rewrite D1, (slot_not_register _ Hs), Hs, core_register by done. cbn [andb mbind cres_bind]. by rewrite int_small, exchange_far by lia.
  - intros Hd Hfd [Hs Hf]. rewrite (slot_not_register _ Hs), Hs, (slot_not_register _ Hd), Hd. cbn [andb].
    rewrite !int_small by lia. apply exchange_memory_far; unfold kArmWordSize; lia.
Qed.

#[local] Existing Instances demo_word demo_constants.

Lemma arm_parallel_move_witness : exists code, @EmitNativeCode instr arm_emitter demo_moves = Done code /\
  forall s, stack_ok SP 8 64 s -> exists s', run_all (step SP) code s = Done s' /\ R s' SP = R s SP.
Proof.
  destruct (arm_parallel_move 64 demo_moves) as (code & E & Hrun).
  - lia.
  - intros m. apply demo_operands; unfold arm_operand, kNumberOfCoreRegisters, SP, IP, PC; lia.
  - exact demo_distinct.
  - exists code. split; [exact E|]. intros s Hs. destruct (Hrun s Hs) as (s' & Es & Hsp & _). exists s'. split; assumption.
Defined.

Lemma arm_far_slot_aborts_witness :
  arm_EmitMove [mkMove (StackSlot 8) (StackSlot 4096)] 0 = Fault Aborted /\
  arm_EmitSwap [mkMove (StackSlot 4096) (RegisterLocation 3)] 0 = Fault Aborted.
Proof.
  destruct (arm_far_slot_aborts [mkMove (StackSlot 8) (StackSlot 4096)] 0 (StackSlot 8) (StackSlot 4096) eq_refl) as [Hmove _].
  destruct (arm_far_slot_aborts [mkMove (StackSlot 4096) (RegisterLocation 3)] 0 (StackSlot 4096) (RegisterLocation 3) eq_refl) as (_ & _ & Hswap & _).
  split.
  - apply Hmove; [vm_compute; reflexivity|]. split; [vm_compute; reflexivity|]. vm_compute. split; [discriminate|reflexivity].
  - apply (Hswap 3); [|reflexivity|].
    + unfold arm_operand, kNumberOfCoreRegisters, SP, IP, PC. lia.
    + split; [vm_compute; reflexivity|]. vm_compute. split; [discriminate|reflexivity].
Defined.
