(* ===== verification/ParallelMove64.v ===== *)
(** * ParallelMove64: the moves of the x86-64 code generator
      (compiler/optimizing/code_generator_x86_64.cc)

    The code that EmitMove and EmitSwap of ParallelMoveResolverX86_64 emit, on a
    machine with 64-bit registers and a memory of 32-bit words.  A stack slot has
    one word and a double stack slot two, and a register holds either; a swap of
    a register with a slot moves one word both ways. *)

From stdpp Require Import base list.
From S2P Require Import Prelude Locations ParallelMove ParallelMove32.

(** ** The machine *)

Inductive instr64 :=
| movq (rd rs : Z) | movl (rd rs : Z) | movq_imm (rd value : Z) | movl_imm (rd value : Z) | xchgq (r1 r2 : Z)
| movq_load (rd base offset : Z) | movl_load (rd base offset : Z)
| movq_store (base offset rs : Z) | movl_store (base offset rs : Z) | movl_store_imm (base offset value : Z)
| pushq (r : Z) | popq (r : Z).

Definition RAX := 0.
Definition RSP := 4.
Definition TMP := 11.

Definition address64 (base offset : Z) (s : mach) : Z := uwrap 64 (R s base + offset).
(** A doubleword is two words, the low one first. *)
Definition load64 (a : Z) (s : mach) : Z := M s a + 2 ^ 32 * M s (uwrap 64 (a + 4)).
Definition store64 (a v : Z) (s : mach) : mach := set_word (uwrap 64 (a + 4)) (uwrap 32 (v / 2 ^ 32)) (set_word a (uwrap 32 v) s).

(** The 32-bit forms clear the upper half of a register. *)
Definition step64 (i : instr64) (s : mach) : cres mach :=
  match i with
  | movq rd rs => Done (set_reg rd (R s rs) s)
  | movl rd rs => Done (set_reg rd (uwrap 32 (R s rs)) s)
  | movq_imm rd value => Done (set_reg rd (uwrap 64 value) s)
  | movl_imm rd value => Done (set_reg rd (uwrap 32 value) s)
  | xchgq r1 r2 => Done (set_reg r1 (R s r2) (set_reg r2 (R s r1) s))
  | movq_load rd base offset =>
      let a := address64 base offset s in _ ← aligned a; Done (set_reg rd (load64 a s) s)
  | movl_load rd base offset =>
      let a := address64 base offset s in _ ← aligned a; Done (set_reg rd (uwrap 32 (M s a)) s)
  | movq_store base offset rs =>
      let a := address64 base offset s in _ ← aligned a; Done (store64 a (R s rs) s)
  | movl_store base offset rs =>
      let a := address64 base offset s in _ ← aligned a; Done (set_word a (uwrap 32 (R s rs)) s)
  | movl_store_imm base offset value =>
      let a := address64 base offset s in _ ← aligned a; Done (set_word a (uwrap 32 value) s)
  | pushq r =>
      let a := address64 RSP (-8) s in _ ← aligned a; Done (set_reg RSP a (store64 a (R s r) s))
  | popq r =>
      _ ← aligned (R s RSP); Done (set_reg r (load64 (R s RSP) s) (set_reg RSP (address64 RSP 8 s) s))
  end.

Section Emitter64.
Context `{HostWord} `{Constants}.

Definition kNumberOfCpuRegisters64 := 16.
Definition kX86_64WordSize := 8.

Definition AsCpuRegister64 (l : Location) : cres Z :=
  _ ← CHECK ((0 <=? reg l) && (reg l <? kNumberOfCpuRegisters64)); Done (reg l).

Definition x86_64_EmitMove (moves : list MoveOperands) (index : nat) : cres (list instr64) :=
  move ← deref (moves !! index);
  let source := source_ move in
  let destination := destination_ move in
  if IsRegister source then
    rs ← AsCpuRegister64 source;
    if IsRegister destination then rd ← AsCpuRegister64 destination; Done [movq rd rs]
    else if IsStackSlot destination then Done [movl_store RSP (GetStackIndex destination) rs]
    else _ ← DCHECK (IsDoubleStackSlot destination); Done [movq_store RSP (GetStackIndex destination) rs]
  else if IsStackSlot source then
    if IsRegister destination then rd ← AsCpuRegister64 destination; Done [movl_load rd RSP (GetStackIndex source)]
    else
      _ ← DCHECK (IsStackSlot destination);
      Done [movl_load TMP RSP (GetStackIndex source); movl_store RSP (GetStackIndex destination) TMP]
  else if IsDoubleStackSlot source then
    if IsRegister destination then rd ← AsCpuRegister64 destination; Done [movq_load rd RSP (GetStackIndex source)]
    else
      _ ← DCHECK (IsDoubleStackSlot destination);
      Done [movq_load TMP RSP (GetStackIndex source); movq_store RSP (GetStackIndex destination) TMP]
  else if IsConstant source then
    match constant_at (GetConstant source) with
    | HIntConstant value =>
        if IsRegister destination then rd ← AsCpuRegister64 destination; Done [movl_imm rd value]
        else Done [movl_store_imm RSP (GetStackIndex destination) value]
    | HLongConstant value =>
        if IsRegister destination then rd ← AsCpuRegister64 destination; Done [movq_imm rd value]
        else Done [movq_imm TMP value; movq_store RSP (GetStackIndex destination) TMP]
    end
  else Fault Aborted.

Definition Exchange32 (reg mem : Z) : list instr64 :=
  [movl_load TMP RSP mem; movl_store RSP mem reg; movl reg TMP].
Definition Exchange64 (reg mem : Z) : list instr64 :=
  [movq_load TMP RSP mem; movq_store RSP mem reg; movq reg TMP].

(** Two slots are exchanged with TMP and a second register. *)
Definition with_scratch64 (moves : list MoveOperands) (body : Z -> Z -> list instr64) : list instr64 :=
  let '(reg_, spilled_) := AllocateScratchRegister moves TMP kNumberOfCpuRegisters64 RAX in
  let stack_offset := if spilled_ then kX86_64WordSize else 0 in
  (if spilled_ then [pushq reg_] else []) ++ body reg_ stack_offset ++ (if spilled_ then [popq reg_] else []).
Definition ExchangeMemory32 (moves : list MoveOperands) (mem1 mem2 : Z) : list instr64 :=
  with_scratch64 moves (fun scratch stack_offset =>
    [movl_load TMP RSP (mem1 + stack_offset); movl_load scratch RSP (mem2 + stack_offset);
     movl_store RSP (mem2 + stack_offset) TMP; movl_store RSP (mem1 + stack_offset) scratch]).
Definition ExchangeMemory64 (moves : list MoveOperands) (mem1 mem2 : Z) : list instr64 :=
  with_scratch64 moves (fun scratch stack_offset =>
    [movq_load TMP RSP (mem1 + stack_offset); movq_load scratch RSP (mem2 + stack_offset);
     movq_store RSP (mem2 + stack_offset) TMP; movq_store RSP (mem1 + stack_offset) scratch]).

Definition x86_64_EmitSwap (moves : list MoveOperands) (index : nat) : cres (list instr64) :=
  move ← deref (moves !! index);
  let source := source_ move in
  let destination := destination_ move in
  if IsRegister source && IsRegister destination then
    rd ← AsCpuRegister64 destination; rs ← AsCpuRegister64 source; Done [xchgq rd rs]
  else if IsRegister source && IsStackSlot destination then
    rs ← AsCpuRegister64 source; Done (Exchange32 rs (GetStackIndex destination))
  else if IsStackSlot source && IsRegister destination then
    rd ← AsCpuRegister64 destination; Done (Exchange32 rd (GetStackIndex source))
  else if IsStackSlot source && IsStackSlot destination then
    Done (ExchangeMemory32 moves (GetStackIndex destination) (GetStackIndex source))
  else if IsRegister source && IsDoubleStackSlot destination then
    rs ← AsCpuRegister64 source; Done (Exchange64 rs (GetStackIndex destination))
  else if IsDoubleStackSlot source && IsRegister destination then
    rd ← AsCpuRegister64 destination; Done (Exchange64 rd (GetStackIndex source))
  else if IsDoubleStackSlot source && IsDoubleStackSlot destination then
    Done (ExchangeMemory64 moves (GetStackIndex destination) (GetStackIndex source))
  else Fault Aborted.

Definition x86_64_emitter : Emitter instr64 := {| EmitMove := x86_64_EmitMove; EmitSwap := x86_64_EmitSwap |}.
End Emitter64.

(** ** Values of both widths in one cycle *)

#[local, program] Instance host_word64 : HostWord := {| kBitsPerWord := 64 |}.
Next Obligation. by right. Qed.

(** A long goes from RCX to RDX, an int from RDX to the slot at 8, and an int from
    there to RCX. *)
Definition mixed_cycle : list MoveOperands :=
  [mkMove (RegisterLocation 1) (RegisterLocation 2); mkMove (RegisterLocation 2) (StackSlot 8); mkMove (StackSlot 8) (RegisterLocation 1)].

Lemma mixed_code `{Constants} : @EmitNativeCode instr64 x86_64_emitter mixed_cycle = Done (Exchange32 1 8 ++ Exchange32 2 8).
Proof. vm_compute. done. Qed.

(** C30: on x86-64 a parallel move can lose half of a value. When a cycle of moves
    goes through a register that holds a long and a 32-bit stack slot, the swap
    moves 32 bits each way: of the long that RDX should get, it gets the lower half. *)
Theorem x86_64_cycle_truncates `{Constants} code s :
  @EmitNativeCode instr64 x86_64_emitter mixed_cycle = Done code -> R s RSP mod 4 = 0 -> 0 <= R s RSP < 2 ^ 64 - 8 ->
  exists s', run_all step64 code s = Done s' /\ R s' 2 = uwrap 32 (R s 1) /\ R s' 1 = uwrap 32 (M s (R s RSP + 8)).
Proof.
  intros E Ha Hr. rewrite mixed_code in E. injection E as <-.
  assert (address64 RSP 8 s = R s RSP + 8) as Hadr by (unfold address64; apply uwrap_small; unfold in_u; lia).
  assert (aligned (R s RSP + 8) = Done ()) as Hal by (apply aligned_at; rewrite Z.add_mod, Ha by lia; done).
  set (a := R s RSP + 8) in *. set (s1 := set_reg TMP (uwrap 32 (M s a)) s).
  assert (forall t, R t RSP = R s RSP -> address64 RSP 8 t = a) as Hadr' by (intros t Et; unfold address64 in *; by rewrite Et).
  cbn [Exchange32 app run_all step64]. rewrite Hadr, Hal. cbn [mbind cres_bind]. fold s1. rewrite (Hadr' s1) by done. rewrite Hal. cbn [mbind cres_bind].
  eexists. split.
  - rewrite Hadr' by done. rewrite Hal. cbn [mbind cres_bind]. rewrite Hadr' by done. rewrite Hal. done.
  - assert (forall x, uwrap 32 (uwrap 32 x) = uwrap 32 x) as Hid by (intros x; apply uwrap_small, uwrap_range; lia).
    unfold s1. cbn [R M set_reg set_word]. unfold TMP. upd_simpl. by rewrite !Hid.
Qed.

Lemma x86_64_cycle_truncates_witness : exists s', run_all step64 (Exchange32 1 8 ++ Exchange32 2 8)
    (mkMach (fun r => if r =? RSP then 4096 else 2 ^ 40) (fun _ => 0)) = Done s' /\ R s' 2 = 0.
Proof.
  destruct (@x86_64_cycle_truncates (fun _ => HIntConstant 0) (Exchange32 1 8 ++ Exchange32 2 8)
    (mkMach (fun r => if r =? RSP then 4096 else 2 ^ 40) (fun _ => 0))) as (s' & E & E2 & _).
  - vm_compute. reflexivity.
  - reflexivity.
  - vm_compute. split; [discriminate|reflexivity].
  - exists s'. split; [exact E|]. rewrite E2. vm_compute. reflexivity.
Defined.
