(* ===== verification/IndirectRefs.v ===== *)
(** * IndirectRefs: tables of indirect references
      (runtime/indirect_reference_table.{h,cc}, indirect_reference_table-inl.h)

    JNI code holds objects through references: a kind, an index into a table and
    the serial number of the entry.  The table is a stack of segments with holes,
    and the number of holes is counted.  The lemmas relate one segment to a
    finite map from references to objects: adding is insertion under a new key,
    removing is deletion, and lookups agree. *)

From stdpp Require Import base list gmap.
From S2P Require Import Prelude.

(** ** Definitions *)

(** How the runtime was built and started. *)
Class JniConfig := { kIsDebugBuild : bool; check_jni : bool }.

Definition kInvalidIndirectRefObject := 0xdead4321.
Definition kClearedJniWeakGlobal := 0xdead1234.
Definition kHandleScopeOrInvalid := 0.
Definition kLocal := 1.
Definition kGlobal := 2.
Definition kWeakGlobal := 3.
Definition GetIndirectRefKind (iref : Z) : Z := Z.land iref 3.
Definition IRT_FIRST_SEGMENT := 0.

(** The union of a 32-bit word and two halves of 16 bits. *)
Record IRTSegmentState := mkState { topIndex : Z; numHoles : Z }.
Definition of_all (all : Z) : IRTSegmentState := mkState (Z.land all 0xffff) (Z.shiftr all 16).
Definition to_all (s : IRTSegmentState) : Z := Z.lor (topIndex s) (Z.shiftl (numHoles s) 16).
Definition set_topIndex (i : Z) (s : IRTSegmentState) : IRTSegmentState := mkState (u16 i) (numHoles s).
Definition set_numHoles (n : Z) (s : IRTSegmentState) : IRTSegmentState := mkState (topIndex s) (u16 n).

Record IrtEntry := mkEntry { serial_ : Z; references_ : list Z }.
Record IndirectReferenceTable := mkTable {
  segment_state_ : IRTSegmentState;
  table_ : list IrtEntry;
  kind_ : Z;
  max_entries_ : Z
}.
Definition set_state (s : IRTSegmentState) (t : IndirectReferenceTable) : IndirectReferenceTable :=
  mkTable s (table_ t) (kind_ t) (max_entries_ t).
Definition set_entry (i : nat) (e : IrtEntry) (t : IndirectReferenceTable) : IndirectReferenceTable :=
  mkTable (segment_state_ t) (<[i := e]> (table_ t)) (kind_ t) (max_entries_ t).

Section Table.
Context `{JniConfig}.

Definition debug_check (b : bool) : cres unit := if kIsDebugBuild && negb b then Fault Aborted else Done ().
Definition always_check (b : bool) : cres unit := if b then Done () else Fault Aborted.
Definition kIRTPrevCount : Z := if kIsDebugBuild then 7 else 3.

(** Entries. *)
Definition entry_Add (obj : Z) (e : IrtEntry) : cres IrtEntry :=
  let serial := u32 (serial_ e + 1) in
  let serial := if serial =? kIRTPrevCount then 0 else serial in
  _ ← deref (references_ e !! Z.to_nat serial);
  Done (mkEntry serial (<[Z.to_nat serial := obj]> (references_ e))).
Definition GetReference (e : IrtEntry) : cres Z :=
  _ ← debug_check (serial_ e <? kIRTPrevCount); deref (references_ e !! Z.to_nat (serial_ e)).
(** An assignment through the pointer that GetReference returns. *)
Definition SetReference (obj : Z) (e : IrtEntry) : cres IrtEntry :=
  _ ← GetReference e; Done (mkEntry (serial_ e) (<[Z.to_nat (serial_ e) := obj]> (references_ e))).

Definition entry_at (t : list IrtEntry) (i : Z) : cres IrtEntry := if i <? 0 then Fault OutOfBounds else deref (t !! Z.to_nat i).
Definition reference_at (t : list IrtEntry) (i : Z) : cres Z := e ← entry_at t i; GetReference e.

(** The table. The anonymous mapping is zeroed. *)
Definition new_IndirectReferenceTable (mapped : bool) (initialCount maxCount desiredKind : Z) : cres IndirectReferenceTable :=
  _ ← always_check (0 <? initialCount);
  _ ← always_check (initialCount <=? maxCount);
  _ ← always_check (negb (desiredKind =? kHandleScopeOrInvalid));
  _ ← always_check mapped;
  Done (mkTable (of_all IRT_FIRST_SEGMENT) (replicate (Z.to_nat maxCount) (mkEntry 0 (replicate (Z.to_nat kIRTPrevCount) 0)))
    desiredKind maxCount).

Definition AbortIfNoCheckJNI : cres unit := if negb check_jni then Fault Aborted else Done ().
Definition ExtractIndex (iref : Z) : Z := Z.land (Z.shiftr iref 2) 0xffff.
Definition ref_word (serial index kind : Z) : Z := Z.lor (Z.lor (u32 (Z.shiftl serial 20)) (u32 (Z.shiftl index 2))) kind.
Definition ToIndirectRef (t : IndirectReferenceTable) (tableIndex : Z) : cres Z :=
  _ ← debug_check (tableIndex <? 65536);
  e ← entry_at (table_ t) tableIndex;
  Done (ref_word (serial_ e) tableIndex (kind_ t)).
Definition CheckEntry (t : IndirectReferenceTable) (iref idx : Z) : cres bool :=
  checkRef ← ToIndirectRef t idx;
  if negb (checkRef =? iref) then _ ← AbortIfNoCheckJNI; Done false else Done true.
Definition GetChecked (t : IndirectReferenceTable) (iref : Z) : cres bool :=
  if iref =? 0 then Done false
  else if GetIndirectRefKind iref =? kHandleScopeOrInvalid then _ ← AbortIfNoCheckJNI; Done false
  else
    let idx := ExtractIndex iref in
    if topIndex (segment_state_ t) <=? idx then _ ← AbortIfNoCheckJNI; Done false
    else
      obj ← reference_at (table_ t) idx;
      if obj =? 0 then _ ← AbortIfNoCheckJNI; Done false
      else CheckEntry t iref idx.
Definition Get (t : IndirectReferenceTable) (iref : Z) : cres Z :=
  checked ← GetChecked t iref;
  if negb checked then Done kInvalidIndirectRefObject else reference_at (table_ t) (ExtractIndex iref).

(** The pointer of Add goes down to the first hole. *)
Fixpoint scan_hole (t : list IrtEntry) (bottom : Z) (pScan : nat) : cres nat :=
  obj ← reference_at t (Z.of_nat pScan);
  if obj =? 0 then Done pScan
  else
    _ ← debug_check (bottom <=? Z.of_nat pScan);
    match pScan with O => Fault OutOfBounds | S pScan => scan_hole t bottom pScan end.
Definition Add (cookie obj : Z) (t : IndirectReferenceTable) : cres (Z * IndirectReferenceTable) :=
  let prevState := of_all cookie in
  let state := segment_state_ t in
  let top := topIndex state in
  _ ← always_check (negb (obj =? 0));
  _ ← debug_check (numHoles prevState <=? numHoles state);
  if top =? max_entries_ t then Fault Aborted
  else
    '(index, t) ← (if 0 <? numHoles state - numHoles prevState then
       _ ← debug_check (1 <? top);
       last ← reference_at (table_ t) (top - 1);
       _ ← debug_check (negb (last =? 0));
       if top - 2 <? 0 then Fault OutOfBounds
       else
         index ← scan_hole (table_ t) (topIndex prevState) (Z.to_nat (top - 2));
         Done (Z.of_nat index, set_state (set_numHoles (numHoles state - 1) state) t)
     else Done (top, set_state (set_topIndex (top + 1) state) t));
    e ← entry_at (table_ t) index;
    e ← entry_Add obj e;
    let t := set_entry (Z.to_nat index) e t in
    result ← ToIndirectRef t index;
    _ ← debug_check (negb (result =? 0));
    Done (result, t).

(** The loop of Remove that takes the holes below the top-most entry. *)
Fixpoint consume_holes (t : list IrtEntry) (bottom : Z) (top : nat) (holes : Z) : cres (Z * Z) :=
  let next := Z.of_nat top - 1 in
  if (bottom <? next) && negb (holes =? 0) then
    obj ← reference_at t (next - 1);
    if negb (obj =? 0) then Done (next, holes)
    else match top with O => Fault OutOfBounds | S top => consume_holes t bottom top (holes - 1) end
  else Done (next, holes).
Definition clear_entry (idx : Z) (t : IndirectReferenceTable) : cres IndirectReferenceTable :=
  e ← entry_at (table_ t) idx; e ← SetReference 0 e; Done (set_entry (Z.to_nat idx) e t).
Definition Remove (HandleScopeContains : Z -> bool) (cookie iref : Z) (t : IndirectReferenceTable) : cres (bool * IndirectReferenceTable) :=
  let prevState := of_all cookie in
  let state := segment_state_ t in
  let top := topIndex state in
  let bottom := topIndex prevState in
  _ ← debug_check (numHoles prevState <=? numHoles state);
  if (GetIndirectRefKind iref =? kHandleScopeOrInvalid) && HandleScopeContains iref then Done (true, t)
  else
    let idx := ExtractIndex iref in
    if idx <? bottom then Done (false, t)
    else if top <=? idx then Done (false, t)
    else if idx =? top - 1 then
      checked ← CheckEntry t iref idx;
      if negb checked then Done (false, t)
      else
        t ← clear_entry idx t;
        let holes := numHoles state - numHoles prevState in
        if negb (holes =? 0) then
          '(top, holes) ← consume_holes (table_ t) bottom (Z.to_nat top) holes;
          Done (true, set_state (set_topIndex top (set_numHoles (holes + numHoles prevState) state)) t)
        else Done (true, set_state (set_topIndex (top - 1) state) t)
    else
      obj ← reference_at (table_ t) idx;
      if obj =? 0 then Done (false, t)
      else
        checked ← CheckEntry t iref idx;
        if negb checked then Done (false, t)
        else
          t ← clear_entry idx t;
          Done (true, set_state (set_numHoles (numHoles state + 1) state) t).

Definition Capacity (t : IndirectReferenceTable) : Z := topIndex (segment_state_ t).
Definition GetSegmentState (t : IndirectReferenceTable) : Z := to_all (segment_state_ t).
Definition SetSegmentState (new_state : Z) (t : IndirectReferenceTable) : IndirectReferenceTable := set_state (of_all new_state) t.

(** Iteration over the objects of the table. *)
Fixpoint SkipNullsAndTombstones (t : list IrtEntry) (todo : nat) (i : Z) : cres Z :=
  match todo with
  | O => Done i
  | S todo =>
      obj ← reference_at t i;
      if (obj =? 0) || (obj =? kClearedJniWeakGlobal) then SkipNullsAndTombstones t todo (i + 1) else Done i
  end.
Definition IrtIterator (t : list IrtEntry) (i capacity : Z) : cres Z := SkipNullsAndTombstones t (Z.to_nat (capacity - i)) i.
Definition irt_begin (t : IndirectReferenceTable) : cres Z := IrtIterator (table_ t) 0 (Capacity t).
Definition irt_end (t : IndirectReferenceTable) : cres Z := IrtIterator (table_ t) (Capacity t) (Capacity t).
Definition AssertEmpty (t : IndirectReferenceTable) : cres unit :=
  first ← irt_begin t; last ← irt_end t; if negb (first =? last) then Fault Aborted else Done ().

(** [for (auto ref : *this)] with a body that assigns to the entry. *)
Fixpoint for_entries (fuel : nat) (body : Z -> cres Z) (i : Z) (t : IndirectReferenceTable) : cres IndirectReferenceTable :=
  last ← irt_end t;
  if i =? last then Done t
  else
    match fuel with
    | O => Fault OutOfFuel
    | S fuel =>
        e ← entry_at (table_ t) i;
        obj ← GetReference e;
        new_obj ← body obj;
        e ← SetReference new_obj e;
        let t := set_entry (Z.to_nat i) e t in
        next ← IrtIterator (table_ t) (i + 1) (Capacity t);
        for_entries fuel body next t
    end.
Definition iterate (body : Z -> cres Z) (t : IndirectReferenceTable) : cres IndirectReferenceTable :=
  first ← irt_begin t; for_entries (Z.to_nat (Capacity t)) body first t.
Definition visit_root (callback : Z -> Z) (ref : Z) : cres Z :=
  let ref := callback ref in _ ← debug_check (negb (ref =? 0)); Done ref.
Definition VisitRoots (callback : Z -> Z) : IndirectReferenceTable -> cres IndirectReferenceTable := iterate (visit_root callback).

(** Pages that are released read as zero. The sizes are those of a 32-bit
    runtime, in which no entry is on two pages. *)
Definition kPageSize := 4096.
Definition sizeof_IrtEntry := 4 + 4 * kIRTPrevCount.
Definition Trim (t : IndirectReferenceTable) : IndirectReferenceTable :=
  let release_start := (Capacity t * sizeof_IrtEntry + kPageSize - 1) / kPageSize * kPageSize in
  mkTable (segment_state_ t)
    (imap (fun i e => if release_start <=? Z.of_nat i * sizeof_IrtEntry then mkEntry 0 (replicate (Z.to_nat kIRTPrevCount) 0) else e) (table_ t))
    (kind_ t) (max_entries_ t).

(** ** Entries and references *)

Definition current (e : IrtEntry) : Z := default 0 (references_ e !! Z.to_nat (serial_ e)).
Definition entry_ok (e : IrtEntry) : Prop := 0 <= serial_ e < kIRTPrevCount /\ length (references_ e) = Z.to_nat kIRTPrevCount.
Definition cur (t : list IrtEntry) (i : nat) : Z := default 0 (current <$> t !! i).
Definition serial (t : list IrtEntry) (i : nat) : Z := default 0 (serial_ <$> t !! i).

Lemma prev_count : 3 <= kIRTPrevCount <= 7.
Proof. unfold kIRTPrevCount. case_match; lia. Qed.
Lemma entry_reference e : entry_ok e -> references_ e !! Z.to_nat (serial_ e) = Some (current e).
Proof.
  intros [Hs Hl]. unfold current. destruct (lookup_lt_is_Some_2 (references_ e) (Z.to_nat (serial_ e))) as [o E]; [lia|].
  by rewrite E.
Qed.
Lemma get_reference e : entry_ok e -> GetReference e = Done (current e).
Proof.
  intros He. unfold GetReference, debug_check. rewrite (proj2 (Z.ltb_lt _ _)) by apply He.
  rewrite andb_false_r. cbn [mbind cres_bind]. by rewrite entry_reference.
Qed.
Lemma set_reference e obj : entry_ok e -> exists e', SetReference obj e = Done e' /\ entry_ok e' /\ current e' = obj /\ serial_ e' = serial_ e.
Proof.
  intros He. unfold SetReference. rewrite get_reference by done. cbn [mbind cres_bind]. eexists. split; [done|].
  destruct He as [Hs Hl]. split_and!; [by split; cbn; rewrite ?length_insert| |done].
  unfold current. cbn. rewrite list_lookup_insert_eq by lia. done.
Qed.
Definition next_serial (n : Z) : Z := if n + 1 =? kIRTPrevCount then 0 else n + 1.
Lemma next_serial_ok n : 0 <= n < kIRTPrevCount -> 0 <= next_serial n < kIRTPrevCount /\ next_serial n <> n.
Proof. pose proof prev_count. unfold next_serial. case_match; lia. Qed.
Lemma entry_add e obj : entry_ok e ->
  exists e', entry_Add obj e = Done e' /\ entry_ok e' /\ current e' = obj /\ serial_ e' = next_serial (serial_ e).
Proof.
  intros [Hs Hl]. pose proof prev_count. unfold entry_Add. rewrite (uwrap_small 32) by (unfold in_u; lia).
  fold (next_serial (serial_ e)). destruct (next_serial_ok (serial_ e) Hs) as [Hn _].
  destruct (lookup_lt_is_Some_2 (references_ e) (Z.to_nat (next_serial (serial_ e)))) as [o E]; [lia|].
  rewrite E. cbn [deref mbind cres_bind]. eexists. split; [done|]. split_and!; [by split; cbn; rewrite ?length_insert| |done].
  unfold current. cbn. rewrite list_lookup_insert_eq by lia. done.
Qed.

Lemma ref_word_value n i kind : 0 <= n < 2 ^ 12 -> 0 <= i < 2 ^ 16 -> 0 <= kind < 4 -> ref_word n i kind = n * 2 ^ 20 + i * 4 + kind.
Proof.
  intros Hn Hi Hk. unfold ref_word.
  assert (u32 (Z.shiftl n 20) = Z.shiftl n 20) as -> by (apply uwrap_small; rewrite Z.shiftl_mul_pow2 by lia; unfold in_u; lia).
  assert (u32 (Z.shiftl i 2) = i * 2 ^ 2) as -> by (rewrite Z.shiftl_mul_pow2 by lia; apply uwrap_small; unfold in_u; lia).
  rewrite (Z.lor_comm (Z.shiftl n 20)), lor_shiftl_add by lia.
  replace (i * 2 ^ 2 + n * 2 ^ 20) with (Z.shiftl (i + n * 2 ^ 18) 2) by (rewrite Z.shiftl_mul_pow2; lia).
  rewrite Z.lor_comm, lor_shiftl_add; lia.
Qed.
Lemma extract_index n i kind : 0 <= n < 2 ^ 12 -> 0 <= i < 2 ^ 16 -> 0 <= kind < 4 -> ExtractIndex (ref_word n i kind) = i.
Proof.
  intros Hn Hi Hk. unfold ExtractIndex. rewrite ref_word_value by done. change 0xffff with (Z.ones 16).
  rewrite Z.land_ones, Z.shiftr_div_pow2 by lia. replace (n * 2 ^ 20 + i * 4 + kind) with (kind + (i + n * 2 ^ 18) * 2 ^ 2) by lia.
  rewrite Z.div_add, Z.div_small by lia. replace (0 + (i + n * 2 ^ 18)) with (i + (n * 4) * 2 ^ 16) by lia.
  rewrite Z.mod_add, Z.mod_small; lia.
Qed.
Lemma reference_kind n i kind : 0 <= n < 2 ^ 12 -> 0 <= i < 2 ^ 16 -> 0 <= kind < 4 -> GetIndirectRefKind (ref_word n i kind) = kind.
Proof.
  intros Hn Hi Hk. unfold GetIndirectRefKind. rewrite ref_word_value by done. change 3 with (Z.ones 2). rewrite Z.land_ones by lia.
  replace (n * 2 ^ 20 + i * 4 + kind) with (kind + (i + n * 2 ^ 18) * 2 ^ 2) by lia. rewrite Z.mod_add, Z.mod_small; lia.
Qed.
Lemma ref_word_inj n n' i kind : 0 <= n < 2 ^ 12 -> 0 <= n' < 2 ^ 12 -> 0 <= i < 2 ^ 16 -> 0 <= kind < 4 ->
  ref_word n i kind = ref_word n' i kind -> n = n'.
Proof. intros. rewrite !ref_word_value in * by done. lia. Qed.
Lemma kind_range r : 0 <= GetIndirectRefKind r < 4.
Proof. unfold GetIndirectRefKind. change 3 with (Z.ones 2). rewrite Z.land_ones by lia. apply Z.mod_pos_bound. lia. Qed.
Lemma index_range r : 0 <= ExtractIndex r < 2 ^ 16.
Proof. unfold ExtractIndex. change 0xffff with (Z.ones 16). rewrite Z.land_ones by lia. apply Z.mod_pos_bound. lia. Qed.

(** ** What a reference stands for *)

Record table_ok (t : IndirectReferenceTable) : Prop := {
  ok_length : Z.of_nat (length (table_ t)) = max_entries_ t;
  ok_max : max_entries_ t < 2 ^ 16;
  ok_kind : 0 < kind_ t < 4;
  ok_entries : Forall entry_ok (table_ t)
}.

Definition entry_of (kind : Z) (t : list IrtEntry) (r : Z) : option Z :=
  let i := Z.to_nat (ExtractIndex r) in
  if bool_decide (cur t i <> 0 /\ r = ref_word (serial t i) (ExtractIndex r) kind) then Some (cur t i) else None.

Lemma entry_at_ok tbl i : Forall entry_ok tbl -> 0 <= i < Z.of_nat (length tbl) ->
  exists e, entry_at tbl i = Done e /\ tbl !! Z.to_nat i = Some e /\ entry_ok e.
Proof.
  intros Ht Hi. destruct (lookup_lt_is_Some_2 tbl (Z.to_nat i)) as [e E]; [lia|]. exists e.
  unfold entry_at. rewrite (proj2 (Z.ltb_ge _ _)), E by lia. split_and!; try done. by eapply Forall_lookup_1.
Qed.
Lemma reference_at_ok tbl i : Forall entry_ok tbl -> 0 <= i < Z.of_nat (length tbl) -> reference_at tbl i = Done (cur tbl (Z.to_nat i)).
Proof.
  intros Ht Hi. destruct (entry_at_ok tbl i Ht Hi) as (e & E & El & He). unfold reference_at, cur. rewrite E, El. cbn.
  by apply get_reference.
Qed.
Lemma serial_range tbl i : Forall entry_ok tbl -> 0 <= serial tbl i < kIRTPrevCount.
Proof.
  intros Ht. pose proof prev_count. unfold serial. destruct (tbl !! i) as [e|] eqn:E; cbn; [|lia].
  by apply (Forall_lookup_1 _ _ _ _ Ht) in E as [? _].
Qed.
Lemma to_indirect_ref t i : table_ok t -> 0 <= i < max_entries_ t -> ToIndirectRef t i = Done (ref_word (serial (table_ t) (Z.to_nat i)) i (kind_ t)).
Proof.
  intros [Hl Hm _ He] Hi. unfold ToIndirectRef, debug_check. rewrite (proj2 (Z.ltb_lt i 65536)), andb_false_r by lia. cbn [mbind cres_bind].
  destruct (entry_at_ok (table_ t) i He) as (e & E & El & _); [lia|]. unfold serial. by rewrite E, El.
Qed.
Lemma check_entry t r i : table_ok t -> 0 <= i < max_entries_ t ->
  CheckEntry t r i = if bool_decide (r = ref_word (serial (table_ t) (Z.to_nat i)) i (kind_ t)) then Done true
    else if check_jni then Done false else Fault Aborted.
Proof.
  intros Ht Hi. unfold CheckEntry, AbortIfNoCheckJNI. rewrite to_indirect_ref by done. cbn [mbind cres_bind].
  case_bool_decide as Er; [by rewrite Er, Z.eqb_refl|]. rewrite (proj2 (Z.eqb_neq _ _)) by done. by destruct check_jni.
Qed.

(** A number of an entry fits into a reference. *)
Lemma ref_word_ok t i : table_ok t -> 0 <= i < 2 ^ 16 ->
  let r := ref_word (serial (table_ t) (Z.to_nat i)) i (kind_ t) in
  r <> 0 /\ ExtractIndex r = i /\ GetIndirectRefKind r = kind_ t.
Proof.
  intros [_ _ Hk He] Hi r. pose proof prev_count. pose proof (serial_range (table_ t) (Z.to_nat i) He).
  subst r. split_and!; [rewrite ref_word_value; lia|apply extract_index; lia|apply reference_kind; lia].
Qed.
Lemma entry_of_kind t r o : table_ok t -> entry_of (kind_ t) (table_ t) r = Some o -> GetIndirectRefKind r = kind_ t.
Proof.
  intros Ht. unfold entry_of. case_bool_decide as E; [|done]. intros _. destruct E as [_ E].
  destruct (ref_word_ok t (ExtractIndex r) Ht (index_range r)) as (_ & _ & Ek). congruence.
Qed.

(** The object of a reference in the first [top] entries, or what Get makes of
    other words. *)
Lemma get_spec t r : table_ok t -> topIndex (segment_state_ t) <= max_entries_ t ->
  Get t r = match (if ExtractIndex r <? topIndex (segment_state_ t) then entry_of (kind_ t) (table_ t) r else None) with
            | Some obj => Done obj
            | None => if (r =? 0) || check_jni then Done kInvalidIndirectRefObject else Fault Aborted
            end.
Proof.
  intros Ht Htop. pose proof (index_range r) as Hi. unfold Get, GetChecked.
  assert (GetIndirectRefKind r = 0 -> entry_of (kind_ t) (table_ t) r = None) as Hnone.
  { intros E. destruct (entry_of _ _ r) as [o|] eqn:Eo; [|done]. apply entry_of_kind in Eo; [|done]. destruct Ht. lia. }
  destruct (Z.eqb_spec r 0) as [->|Hr]; [rewrite (Hnone eq_refl); by destruct (_ <? _)|].
  destruct (Z.eqb_spec (GetIndirectRefKind r) kHandleScopeOrInvalid) as [Ek|_].
  { rewrite (Hnone Ek). unfold AbortIfNoCheckJNI. by destruct (_ <? _), check_jni. }
  rewrite Z.leb_antisym. destruct (Z.ltb_spec (ExtractIndex r) (topIndex (segment_state_ t))) as [Hlt|_];
    cbn [negb]; [|unfold AbortIfNoCheckJNI; by destruct check_jni].
  rewrite reference_at_ok; [|apply Ht|rewrite (ok_length t Ht); lia]. cbn [mbind cres_bind]. unfold entry_of.
  destruct (Z.eqb_spec (cur (table_ t) (Z.to_nat (ExtractIndex r))) 0) as [E0|E0].
  { rewrite E0, bool_decide_eq_false_2 by (intros []; congruence). unfold AbortIfNoCheckJNI. by destruct check_jni. }
  rewrite check_entry by (done || lia). case_bool_decide as Er.
  - rewrite bool_decide_eq_true_2 by done. cbn [mbind cres_bind negb]. done.
  - rewrite bool_decide_eq_false_2 by (intros []; congruence). by destruct check_jni.
Qed.

(** ** Segments *)

Definition holes (t : list IrtEntry) (from n : nat) : nat := length (filter (fun i => cur t i = 0) (seq from n)).

(** The entries from [topIndex a] to [topIndex b]: the holes are counted, and the
    last entry is not one. *)
Record segment (t : list IrtEntry) (a b : IRTSegmentState) : Prop := {
  seg_bounds : 0 <= topIndex a <= topIndex b;
  seg_length : topIndex b <= Z.of_nat (length t);
  seg_below : 0 <= numHoles a <= topIndex a;
  seg_holes : numHoles b = numHoles a + Z.of_nat (holes t (Z.to_nat (topIndex a)) (Z.to_nat (topIndex b - topIndex a)));
  seg_top : topIndex b = topIndex a \/ cur t (Z.to_nat (topIndex b - 1)) <> 0
}.
(** The references into a segment and their objects. *)
Definition frame (kind : Z) (t : list IrtEntry) (a b : IRTSegmentState) (F : gmap Z Z) : Prop :=
  forall r, F !! r = if (topIndex a <=? ExtractIndex r) && (ExtractIndex r <? topIndex b) then entry_of kind t r else None.

Lemma holes_le t from n : (holes t from n <= n)%nat.
Proof. unfold holes. rewrite <- (length_seq n from) at 2. apply length_filter. Qed.
Lemma holes_app t from n m : holes t from (n + m) = (holes t from n + holes t (from + n) m)%nat.
Proof. unfold holes. by rewrite seq_app, filter_app, length_app. Qed.
Lemma holes_ext t t' from n : (forall i, (from <= i < from + n)%nat -> cur t i = 0 <-> cur t' i = 0) -> holes t from n = holes t' from n.
Proof.
  revert from. induction n as [|n IH]; intros from Hc; [done|]. unfold holes in *. cbn [seq]. rewrite !filter_cons.
  pose proof (Hc from ltac:(lia)). do 2 case_decide; try tauto; cbn [length]; rewrite (IH (S from)); auto with lia.
Qed.
Lemma holes_one t i : holes t i 1 = if decide (cur t i = 0) then 1%nat else 0%nat.
Proof. unfold holes. cbn [seq]. rewrite filter_cons. by case_decide. Qed.
Lemma holes_some t from n : (0 < holes t from n)%nat -> exists i, (from <= i < from + n)%nat /\ cur t i = 0.
Proof.
  unfold holes. intros Hh. destruct (filter _ _) as [|i l] eqn:E; [cbn in Hh; lia|].
  assert (i ∈ filter (fun i => cur t i = 0) (seq from n)) as Hi by (rewrite E; set_solver).
  apply list_elem_of_filter in Hi as [Hc Hi]. apply elem_of_seq in Hi. eauto.
Qed.
Lemma seg_numHoles t a b : segment t a b -> 0 <= numHoles b <= topIndex b.
Proof. intros []. pose proof (holes_le t (Z.to_nat (topIndex a)) (Z.to_nat (topIndex b - topIndex a))). lia. Qed.
Lemma seg_empty t b : 0 <= topIndex b <= Z.of_nat (length t) -> 0 <= numHoles b <= topIndex b -> segment t b b.
Proof. intros Ht Hh. split; try lia. rewrite Z.sub_diag. change (holes t (Z.to_nat (topIndex b)) (Z.to_nat 0)) with 0%nat. lia. Qed.
Lemma frame_empty kind t b : frame kind t b b ∅.
Proof.
  intros r. rewrite lookup_empty. destruct (Z.leb_spec (topIndex b) (ExtractIndex r)), (Z.ltb_spec (ExtractIndex r) (topIndex b)); try done; lia.
Qed.

(** Entries above do not matter. *)
Definition agree (t t' : list IrtEntry) (n : Z) : Prop := length t' = length t /\ forall i, (i < Z.to_nat n)%nat -> t' !! i = t !! i.
Lemma agree_insert t i e n : n <= Z.of_nat i -> agree t (<[i := e]> t) n.
Proof. intros Hn. split; [apply length_insert|]. intros j Hj. rewrite list_lookup_insert_ne; [done|lia]. Qed.
Lemma seg_agree t t' a b : agree t t' (topIndex b) -> segment t a b -> segment t' a b.
Proof.
  intros [Hl Hi] [H1 H2 H3 H4 H5]. split; try done; [lia| |].
  - rewrite H4. do 2 f_equal. apply holes_ext. intros i Hr. unfold cur. by rewrite Hi by lia.
  - destruct H5 as [?|H5]; [by left|]. destruct (decide (topIndex b = topIndex a)) as [?|Hn]; [by left|]. right.
    unfold cur. rewrite Hi by lia. exact H5.
Qed.
Lemma entry_of_agree kind t t' n r : agree t t' n -> ExtractIndex r < n -> entry_of kind t' r = entry_of kind t r.
Proof. intros [_ Hi] Hr. unfold entry_of, cur, serial. pose proof (index_range r). by rewrite !Hi by lia. Qed.
Lemma frame_agree kind t t' a b F : agree t t' (topIndex b) -> frame kind t a b F -> frame kind t' a b F.
Proof.
  intros Ha Hf r. rewrite Hf. destruct (_ <=? _); [|done]. cbn [andb].
  destruct (Z.ltb_spec (ExtractIndex r) (topIndex b)); [|done]. symmetry. by eapply entry_of_agree.
Qed.

(** Two segments that follow one another are one. *)
Lemma seg_join t a b c : segment t a b -> segment t b c -> segment t a c.
Proof.
  intros [H1 H2 H3 H4 H5] [K1 K2 K3 K4 K5]. split; try lia.
  - rewrite K4, H4. replace (Z.to_nat (topIndex c - topIndex a)) with (Z.to_nat (topIndex b - topIndex a) + Z.to_nat (topIndex c - topIndex b))%nat by lia.
    rewrite holes_app. replace (Z.to_nat (topIndex a) + Z.to_nat (topIndex b - topIndex a))%nat with (Z.to_nat (topIndex b)) by lia. lia.
  - destruct K5 as [K5|K5]; [|by right]. rewrite K5. exact H5.
Qed.
Lemma frame_join kind t a b c F G : topIndex a <= topIndex b <= topIndex c ->
  frame kind t a b F -> frame kind t b c G -> frame kind t a c (G ∪ F).
Proof.
  intros Ho Hf Hg r. specialize (Hf r). specialize (Hg r).
  destruct (Z.leb_spec (topIndex b) (ExtractIndex r)), (Z.leb_spec (topIndex a) (ExtractIndex r)),
    (Z.ltb_spec (ExtractIndex r) (topIndex b)), (Z.ltb_spec (ExtractIndex r) (topIndex c)); try lia; cbn [andb] in *;
    rewrite ?(lookup_union_r _ _ _ Hg), ?(lookup_union_l _ _ _ Hf); done.
Qed.

(** A change of one entry. *)
Definition zero (x : Z) : nat := if decide (x = 0) then 1 else 0.
Lemma cur_insert t i e j : (i < length t)%nat -> cur (<[i := e]> t) j = if decide (j = i) then current e else cur t j.
Proof. intros Hi. unfold cur. case_decide; subst; [by rewrite list_lookup_insert_eq|by rewrite list_lookup_insert_ne]. Qed.
Lemma serial_insert t i e j : (i < length t)%nat -> serial (<[i := e]> t) j = if decide (j = i) then serial_ e else serial t j.
Proof. intros Hi. unfold serial. case_decide; subst; [by rewrite list_lookup_insert_eq|by rewrite list_lookup_insert_ne]. Qed.
Lemma holes_insert t i e from n : (i < length t)%nat -> (from <= i < from + n)%nat ->
  (holes (<[i := e]> t) from n + zero (cur t i) = holes t from n + zero (current e))%nat.
Proof.
  intros Hl Hi. replace n with ((i - from) + (1 + (from + n - i - 1)))%nat by lia. rewrite !holes_app.
  replace (from + (i - from))%nat with i by lia. rewrite !holes_one, cur_insert by done. destruct (decide (i = i)) as [_|]; [|done].
  assert (forall m k, (forall j, (m <= j < m + k)%nat -> j <> i) -> holes (<[i := e]> t) m k = holes t m k) as Hsame.
  { intros m k Hm. apply holes_ext. intros j Hj. rewrite cur_insert, decide_False by auto. done. }
  rewrite !Hsame by lia. unfold zero. lia.
Qed.
Lemma ok_set_entry t s i e : table_ok t -> entry_ok e -> table_ok (set_state s (set_entry i e t)).
Proof.
  intros [? ? ? ?] He. split; cbn; rewrite ?length_insert; try done. apply Forall_insert; done.
Qed.
Lemma entry_of_insert t i e r : table_ok t -> 0 <= i < max_entries_ t -> entry_ok e ->
  entry_of (kind_ t) (<[Z.to_nat i := e]> (table_ t)) r =
    if decide (ExtractIndex r = i) then
      if bool_decide (current e <> 0 /\ r = ref_word (serial_ e) i (kind_ t)) then Some (current e) else None
    else entry_of (kind_ t) (table_ t) r.
Proof.
  intros Ht Hi He. pose proof (ok_length t Ht) as Hl. pose proof (index_range r). unfold entry_of. rewrite cur_insert, serial_insert by lia.
  destruct (decide (ExtractIndex r = i)) as [<-|Hn]; [by rewrite !decide_True by done|]. by rewrite !decide_False by lia.
Qed.

(** A new object in an entry that is free. *)
Lemma frame_fill t a i e s F : table_ok t -> entry_ok e -> current e <> 0 -> 0 <= topIndex a <= i -> i < max_entries_ t ->
  i = topIndex (segment_state_ t) /\ topIndex s = i + 1 \/
  i < topIndex (segment_state_ t) /\ cur (table_ t) (Z.to_nat i) = 0 /\ topIndex s = topIndex (segment_state_ t) ->
  frame (kind_ t) (table_ t) a (segment_state_ t) F ->
  let r := ref_word (serial_ e) i (kind_ t) in
  frame (kind_ t) (<[Z.to_nat i := e]> (table_ t)) a s (<[r := current e]> F) /\ F !! r = None /\ ExtractIndex r = i /\ r <> 0.
Proof.
  intros Ht He Hc Ha Hi Hcase Hf r. pose proof (ok_max t Ht). pose proof prev_count. destruct (ok_kind t Ht) as [Hk1 Hk2].
  assert (ExtractIndex r = i) as Er by (apply extract_index; destruct He; lia).
  assert (F !! r = None) as Hfree.
  { rewrite Hf, Er. destruct Hcase as [[-> _]|(Hlt & E0 & _)]; [by rewrite Z.ltb_irrefl, andb_false_r|].
    unfold entry_of. rewrite Er, E0, bool_decide_eq_false_2 by (intros []; congruence). by case_match. }
  assert (r <> 0) as Hr0 by (subst r; rewrite ref_word_value by (destruct He; lia); destruct He; lia).
  split_and!; try done. intros r'. rewrite entry_of_insert by (done || lia).
  destruct (decide (r' = r)) as [->|Hne].
  - rewrite lookup_insert_eq, Er, decide_True, bool_decide_eq_true_2 by done.
    rewrite (proj2 (Z.leb_le _ _)), (proj2 (Z.ltb_lt _ _)) by lia. done.
  - rewrite lookup_insert_ne by done. rewrite Hf. destruct (decide (ExtractIndex r' = i)) as [E|E].
    + rewrite (bool_decide_eq_false_2 (current e <> 0 /\ _)) by (intros [_ E']; exact (Hne E')). rewrite E.
      destruct Hcase as [[-> _]|(Hlt & E0 & _)]; [rewrite Z.ltb_irrefl, andb_false_r; by destruct (_ && _)|].
      unfold entry_of. rewrite E, E0, bool_decide_eq_false_2 by (intros []; congruence). by repeat case_match.
    + destruct Hcase as [[-> ->]|(_ & _ & ->)]; [|done].
      destruct (Z.ltb_spec (ExtractIndex r') (topIndex (segment_state_ t))),
        (Z.ltb_spec (ExtractIndex r') (topIndex (segment_state_ t) + 1)); try done; lia.
Qed.

(** ** Adding *)

Lemma debug_check_true b : b = true -> debug_check b = Done ().
Proof. intros ->. unfold debug_check. by rewrite andb_false_r. Qed.
Lemma scan_hole_ok t bottom p : Forall entry_ok t -> (p < length t)%nat -> 0 <= bottom ->
  (exists i, bottom <= Z.of_nat i /\ (i <= p)%nat /\ cur t i = 0) ->
  exists i, scan_hole t bottom p = Done i /\ bottom <= Z.of_nat i /\ (i <= p)%nat /\ cur t i = 0.
Proof.
  intros Ht. induction p as [|p IH]; intros Hp Hb (i & Hi & Hip & E0); cbn [scan_hole];
    rewrite reference_at_ok by (done || lia); cbn [mbind cres_bind]; rewrite Nat2Z.id.
  - destruct i; [|lia]. rewrite E0. cbn. eauto.
  - destruct (Z.eqb_spec (cur t (S p)) 0) as [E|E].
    + exists (S p). split_and!; try done; lia.
    + rewrite debug_check_true by (apply Z.leb_le; lia). cbn [mbind cres_bind].
      destruct IH as (j & -> & ? & ? & ?); [lia|done| |].
      { exists i. split_and!; try done. destruct (decide (i = S p)) as [->|]; [done|lia]. }
      exists j. split_and!; try done; lia.
Qed.

Lemma finish_add t a i s obj F : table_ok t -> obj <> 0 -> 0 <= topIndex a <= i -> i < max_entries_ t ->
  i = topIndex (segment_state_ t) /\ topIndex s = i + 1 \/
  i < topIndex (segment_state_ t) /\ cur (table_ t) (Z.to_nat i) = 0 /\ topIndex s = topIndex (segment_state_ t) ->
  frame (kind_ t) (table_ t) a (segment_state_ t) F ->
  exists r e, (e ← entry_at (table_ (set_state s t)) i; e ← entry_Add obj e;
     let t := set_entry (Z.to_nat i) e (set_state s t) in
     result ← ToIndirectRef t i; _ ← debug_check (negb (result =? 0)); Done (result, t)) = Done (r, set_state s (set_entry (Z.to_nat i) e t)) /\
    entry_ok e /\ current e = obj /\ serial_ e = next_serial (serial (table_ t) (Z.to_nat i)) /\ r = ref_word (serial_ e) i (kind_ t) /\
    frame (kind_ t) (<[Z.to_nat i := e]> (table_ t)) a s (<[r := obj]> F) /\ F !! r = None /\ ExtractIndex r = i /\ r <> 0.
Proof.
  intros Ht Ho Ha Hi Hcase Hf. destruct (entry_at_ok (table_ t) i) as (e0 & E0 & El & He0); [apply Ht|rewrite (ok_length t Ht); lia|].
  destruct (entry_add e0 obj He0) as (e & Ee & He & Hc & Hs).
  destruct (frame_fill t a i e s F) as (Hfr & Hfree & Hex & Hr0); try done; [congruence|].
  exists (ref_word (serial_ e) i (kind_ t)), e. cbn [table_ set_state]. rewrite E0. cbn [mbind cres_bind]. rewrite Ee. cbn [mbind cres_bind].
  change (set_entry (Z.to_nat i) e (set_state s t)) with (set_state s (set_entry (Z.to_nat i) e t)).
  rewrite to_indirect_ref; [|by apply ok_set_entry|cbn; lia]. cbn [mbind cres_bind table_ set_state set_entry kind_].
  pose proof (ok_length t Ht). rewrite serial_insert, decide_True by (done || lia).
  rewrite debug_check_true by (by apply negb_true_iff, Z.eqb_neq). rewrite <- Hc. unfold serial. rewrite El. cbn. split_and!; done.
Qed.

Lemma seg_fill t a b i e : (i < length t)%nat -> topIndex a <= Z.of_nat i < topIndex b -> cur t i = 0 -> current e <> 0 -> topIndex b < 2 ^ 16 ->
  segment t a b -> segment (<[i := e]> t) a (set_numHoles (numHoles b - 1) b).
Proof.
  intros Hl Hi Hi0 Hc Hmax Hseg. pose proof (seg_numHoles _ _ _ Hseg). destruct Hseg as [H1 H2 H3 H4 H5].
  pose proof (holes_insert t i e (Z.to_nat (topIndex a)) (Z.to_nat (topIndex b - topIndex a)) ltac:(lia) ltac:(lia)) as Hn.
  unfold zero in Hn. rewrite decide_True, decide_False in Hn by congruence.
  split; cbn [topIndex numHoles set_numHoles]; rewrite ?length_insert; try lia.
  - rewrite uwrap_small by (unfold in_u; lia). lia.
  - destruct H5 as [H5|H5]; [by left|]. right. rewrite cur_insert by lia. by case_decide.
Qed.
Lemma seg_append t a b e : topIndex b < Z.of_nat (length t) -> current e <> 0 -> topIndex b + 1 < 2 ^ 16 ->
  segment t a b -> segment (<[Z.to_nat (topIndex b) := e]> t) a (set_topIndex (topIndex b + 1) b).
Proof.
  intros Hl Hc Hmax [H1 H2 H3 H4 H5].
  split; cbn [topIndex numHoles set_topIndex]; rewrite ?uwrap_small, ?length_insert by (unfold in_u; lia); try lia.
  - replace (Z.to_nat (topIndex b + 1 - topIndex a)) with (Z.to_nat (topIndex b - topIndex a) + 1)%nat by lia.
    rewrite holes_app, holes_one, cur_insert by lia. rewrite (decide_True (P := _ = Z.to_nat _)) by lia. rewrite decide_False by done.
    rewrite (holes_ext _ t); [lia|]. intros j Hj. rewrite cur_insert, decide_False by lia. done.
  - right. rewrite cur_insert by lia. by rewrite decide_True by lia.
Qed.

Lemma add_spec cookie obj t F : let a := of_all cookie in table_ok t -> obj <> 0 ->
  segment (table_ t) a (segment_state_ t) -> frame (kind_ t) (table_ t) a (segment_state_ t) F -> Capacity t < max_entries_ t ->
  exists r s e, Add cookie obj t = Done (r, set_state s (set_entry (Z.to_nat (ExtractIndex r)) e t)) /\
    entry_ok e /\ topIndex a <= ExtractIndex r < max_entries_ t /\ r <> 0 /\
    let t' := <[Z.to_nat (ExtractIndex r) := e]> (table_ t) in
    segment t' a s /\ frame (kind_ t) t' a s (<[r := obj]> F) /\ F !! r = None /\ Capacity t <= topIndex s <= Capacity t + 1.
Proof.
  intros a Ht Ho Hseg Hf Htop. pose proof Hseg as [H1 H2 H3 H4 H5]. unfold Add, Capacity in *. fold a. pose proof (ok_max t Ht). pose proof (ok_length t Ht).
  set (st := segment_state_ t) in *.
  rewrite (proj2 (Z.eqb_neq obj 0)) by done. cbn [always_check negb mbind cres_bind].
  rewrite (debug_check_true (numHoles a <=? _)) by (apply Z.leb_le; lia). cbn [mbind cres_bind]. rewrite (proj2 (Z.eqb_neq _ (max_entries_ t))) by lia.
  destruct (Z.ltb_spec 0 (numHoles st - numHoles a)) as [Hh|Hh].
  - destruct (holes_some (table_ t) (Z.to_nat (topIndex a)) (Z.to_nat (topIndex st - topIndex a))) as (j & Hj & Hj0); [lia|].
    destruct H5 as [H5|H5]; [lia|].
    assert (Z.of_nat j <> topIndex st - 1) by (intros E; apply H5; by rewrite <- E, Nat2Z.id).
    rewrite (debug_check_true (1 <? _)) by (apply Z.ltb_lt; lia). cbn [mbind cres_bind]. rewrite reference_at_ok; [|apply Ht|lia]. cbn [mbind cres_bind].
    rewrite debug_check_true by (by apply negb_true_iff, Z.eqb_neq). cbn [mbind cres_bind]. rewrite (proj2 (Z.ltb_ge _ _)) by lia.
    destruct (scan_hole_ok (table_ t) (topIndex a) (Z.to_nat (topIndex st - 2))) as (i & -> & Hi1 & Hi2 & Hi0); [apply Ht|lia|lia|exists j; split_and!; try done; lia|].
    cbn [mbind cres_bind].
    destruct (finish_add t a (Z.of_nat i) (set_numHoles (numHoles st - 1) st) obj F) as (r & e & E & He & Hc & Hs & Hr & Hfr & Hfree & Hex & Hr0); try done; try lia.
    { right. rewrite Nat2Z.id. fold st. split_and!; [lia|done|done]. }
    exists r, (set_numHoles (numHoles st - 1) st), e. rewrite Hex. split_and!; try done; try (cbn; lia).
    rewrite Nat2Z.id. apply seg_fill; (done || lia || congruence).
  - destruct (finish_add t a (topIndex st) (set_topIndex (topIndex st + 1) st) obj F) as (r & e & E & He & Hc & Hs & Hr & Hfr & Hfree & Hex & Hr0); try done; try lia.
    { left. cbn. rewrite uwrap_small by (unfold in_u; lia). done. }
    exists r, (set_topIndex (topIndex st + 1) st), e. rewrite Hex. cbn [topIndex set_topIndex]. rewrite uwrap_small by (unfold in_u; lia).
    split_and!; try done; try lia. apply seg_append; (done || lia || congruence).
Qed.

(** ** Removing *)

Lemma consume_holes_ok t bottom : Forall entry_ok t -> 0 <= bottom -> forall top h, bottom < Z.of_nat top -> (top <= length t)%nat ->
  h = Z.of_nat (holes t (Z.to_nat bottom) (Z.to_nat (Z.of_nat top - 1 - bottom))) ->
  exists top' h', consume_holes t bottom top h = Done (top', h') /\ bottom <= top' < Z.of_nat top /\
    h' = Z.of_nat (holes t (Z.to_nat bottom) (Z.to_nat (top' - bottom))) /\ (top' = bottom \/ cur t (Z.to_nat (top' - 1)) <> 0) /\
    forall i, top' <= i < Z.of_nat top - 1 -> cur t (Z.to_nat i) = 0.
Proof.
  intros Ht Hb. induction top as [|top IH]; intros h Hlt Hl Hh; [lia|]. cbn [consume_holes].
  replace (Z.of_nat (S top) - 1) with (Z.of_nat top) in * by lia.
  destruct (Z.ltb_spec bottom (Z.of_nat top)) as [Hn|Hn]; cbn [andb].
  2:{ exists (Z.of_nat top), h. split_and!; try done; try lia. }
  replace (Z.to_nat (Z.of_nat top - bottom)) with (Z.to_nat (Z.of_nat top - 1 - bottom) + 1)%nat in Hh by lia.
  rewrite holes_app, holes_one in Hh. replace (Z.to_nat bottom + Z.to_nat (Z.of_nat top - 1 - bottom))%nat with (Z.to_nat (Z.of_nat top - 1)) in Hh by lia.
  assert (cur t (Z.to_nat (Z.of_nat top - 1)) <> 0 -> h = Z.of_nat (holes t (Z.to_nat bottom) (Z.to_nat (Z.of_nat top - bottom)))) as Hh'.
  { intros Hc. replace (Z.to_nat (Z.of_nat top - bottom)) with (Z.to_nat (Z.of_nat top - 1 - bottom) + 1)%nat by lia. rewrite holes_app, holes_one.
    by replace (Z.to_nat bottom + Z.to_nat (Z.of_nat top - 1 - bottom))%nat with (Z.to_nat (Z.of_nat top - 1)) by lia. }
  destruct (Z.eqb_spec h 0) as [E0|E0]; cbn [negb].
  - case_decide; [lia|]. exists (Z.of_nat top), h. split_and!; try done; try lia; auto.
  - rewrite reference_at_ok by (done || lia). cbn [mbind cres_bind].
    destruct (Z.eqb_spec (cur t (Z.to_nat (Z.of_nat top - 1))) 0) as [Ec|Ec]; cbn [negb].
    + rewrite decide_True in Hh by done. destruct (IH (h - 1)) as (top' & h' & -> & ? & ? & ? & Hz); [done|lia|lia|].
      exists top', h'. split_and!; try done; try lia. intros i Hi. destruct (decide (i = Z.of_nat top - 1)) as [->|]; [done|]. apply Hz. lia.
    + exists (Z.of_nat top), h. split_and!; try done; try lia; auto.
Qed.

(** A reference of the segment goes. *)
Lemma frame_clear t a r e s F o : table_ok t -> entry_ok e -> current e = 0 ->
  F !! r = Some o -> topIndex (segment_state_ t) <= max_entries_ t -> topIndex s <= topIndex (segment_state_ t) ->
  (forall j, topIndex s <= j < topIndex (segment_state_ t) -> cur (<[Z.to_nat (ExtractIndex r) := e]> (table_ t)) (Z.to_nat j) = 0) ->
  frame (kind_ t) (table_ t) a (segment_state_ t) F ->
  frame (kind_ t) (<[Z.to_nat (ExtractIndex r) := e]> (table_ t)) a s (delete r F).
Proof.
  intros Ht He Hc Hr Hmax Hs Hz Hf r'. pose proof (index_range r). pose proof (index_range r').
  assert (ExtractIndex r < topIndex (segment_state_ t)) as Hi.
  { rewrite Hf in Hr. destruct (Z.ltb_spec (ExtractIndex r) (topIndex (segment_state_ t))); [done|]. by rewrite andb_false_r in Hr. }
  assert (entry_of (kind_ t) (table_ t) r = Some o) as Ho by (rewrite Hf in Hr; by destruct (_ && _)).
  assert (entry_of (kind_ t) (<[Z.to_nat (ExtractIndex r) := e]> (table_ t)) r' =
    if decide (ExtractIndex r' = ExtractIndex r) then None else entry_of (kind_ t) (table_ t) r') as Ee.
  { rewrite entry_of_insert by (done || lia). rewrite bool_decide_eq_false_2 by (intros []; congruence). done. }
  destruct (decide (r' = r)) as [->|Hne].
  - rewrite lookup_delete_eq, Ee, decide_True by done. by destruct (_ && _).
  - rewrite lookup_delete_ne, Hf by done. destruct (_ <=? _); [|done]. cbn [andb].
    assert (ExtractIndex r' = ExtractIndex r -> entry_of (kind_ t) (table_ t) r' = None) as Hsame.
    { intros E. unfold entry_of in Ho |- *. rewrite E, bool_decide_eq_false_2; [done|]. intros [_ Er'].
      case_bool_decide as Er; [|done]. destruct Er. congruence. }
    destruct (Z.ltb_spec (ExtractIndex r') (topIndex (segment_state_ t))) as [Hlt|Hge]; [|destruct (Z.ltb_spec (ExtractIndex r') (topIndex s)); [lia|done]].
    destruct (Z.ltb_spec (ExtractIndex r') (topIndex s)) as [Hlt'|Hge'].
    + rewrite Ee. case_decide; auto.
    + transitivity (if decide (ExtractIndex r' = ExtractIndex r) then None else entry_of (kind_ t) (table_ t) r'); [case_decide; auto|].
      rewrite <- Ee. unfold entry_of. rewrite Hz by lia. by rewrite bool_decide_eq_false_2 by (intros []; congruence).
Qed.
Lemma clear_entry_ok t i : table_ok t -> 0 <= i < max_entries_ t ->
  exists e, clear_entry i t = Done (set_entry (Z.to_nat i) e t) /\ entry_ok e /\ current e = 0.
Proof.
  intros Ht Hi. destruct (entry_at_ok (table_ t) i) as (e & E & _ & He); [apply Ht|rewrite (ok_length t Ht); lia|].
  destruct (set_reference e 0 He) as (e' & E' & He' & Hc & _). exists e'. unfold clear_entry. rewrite E. cbn [mbind cres_bind]. by rewrite E'.
Qed.

(** The reference leaves a hole, or takes the top with it. *)
Lemma seg_hole t a b i e : (i < length t)%nat -> topIndex a <= Z.of_nat i < topIndex b - 1 -> cur t i <> 0 -> current e = 0 -> topIndex b < 2 ^ 16 ->
  segment t a b -> segment (<[i := e]> t) a (set_numHoles (numHoles b + 1) b).
Proof.
  intros Hl Hi Hi0 Hc Hmax [H1 H2 H3 H4 H5].
  pose proof (holes_insert t i e (Z.to_nat (topIndex a)) (Z.to_nat (topIndex b - topIndex a)) ltac:(lia) ltac:(lia)) as Hn.
  pose proof (holes_le (<[i := e]> t) (Z.to_nat (topIndex a)) (Z.to_nat (topIndex b - topIndex a))).
  unfold zero in Hn. rewrite decide_False, decide_True in Hn by congruence.
  split; cbn [topIndex numHoles set_numHoles]; rewrite ?length_insert; try lia.
  - rewrite uwrap_small by (unfold in_u; lia). lia.
  - destruct H5 as [H5|H5]; [lia|]. right. rewrite cur_insert by lia. by rewrite decide_False by lia.
Qed.
Lemma holes_last t a b e : segment t a b -> topIndex a < topIndex b ->
  numHoles b - numHoles a = Z.of_nat (holes (<[Z.to_nat (topIndex b - 1) := e]> t) (Z.to_nat (topIndex a)) (Z.to_nat (topIndex b - 1 - topIndex a))).
Proof.
  intros [H1 H2 H3 H4 H5] Hlt. destruct H5 as [H5|H5]; [lia|]. rewrite H4.
  replace (Z.to_nat (topIndex b - topIndex a)) with (Z.to_nat (topIndex b - 1 - topIndex a) + 1)%nat by lia. rewrite holes_app, holes_one.
  replace (Z.to_nat (topIndex a) + Z.to_nat (topIndex b - 1 - topIndex a))%nat with (Z.to_nat (topIndex b - 1)) by lia. rewrite decide_False by done.
  rewrite (holes_ext (<[_ := e]> t) t); [lia|]. intros j Hj. rewrite cur_insert by lia. by rewrite decide_False by lia.
Qed.

Lemma consume_none t bottom top : consume_holes t bottom top 0 = Done (Z.of_nat top - 1, 0).
Proof. destruct top; cbn [consume_holes Z.eqb negb]; by rewrite andb_false_r. Qed.

(** The top of the table after the top-most entry is cleared. *)
Lemma remove_top t a e : table_ok t -> segment (table_ t) a (segment_state_ t) -> entry_ok e -> current e = 0 ->
  topIndex a < Capacity t ->
  let t' := set_entry (Z.to_nat (Capacity t - 1)) e t in
  let holes := numHoles (segment_state_ t) - numHoles a in
  exists s, (if negb (holes =? 0) then
     '(top, holes) ← consume_holes (table_ t') (topIndex a) (Z.to_nat (Capacity t)) holes;
     Done (true, set_state (set_topIndex top (set_numHoles (holes + numHoles a) (segment_state_ t))) t')
   else Done (true, set_state (set_topIndex (Capacity t - 1) (segment_state_ t)) t')) = Done (true, set_state s t') /\
  segment (table_ t') a s /\ topIndex s <= Capacity t /\ (forall j, topIndex s <= j < Capacity t -> cur (table_ t') (Z.to_nat j) = 0).
Proof.
  intros Ht Hseg He Hc Hlt t' h. pose proof (holes_last _ _ _ e Hseg Hlt) as Hh. pose proof (seg_numHoles _ _ _ Hseg).
  pose proof Hseg as [H1 H2 H3 H4 H5]. pose proof (ok_max t Ht). pose proof (ok_length t Ht). unfold Capacity in *.
  destruct (consume_holes_ok (table_ t') (topIndex a)) with (top := Z.to_nat (topIndex (segment_state_ t))) (h := h)
    as (top' & h' & E & Hr & Hh' & Htop & Hz); [by apply Forall_insert; [apply Ht|]|lia|lia|cbn; rewrite length_insert; lia|unfold h; rewrite Hh; do 3 f_equal; lia|].
  assert (forall j, top' <= j < topIndex (segment_state_ t) -> cur (table_ t') (Z.to_nat j) = 0) as Hz'.
  { intros j Hj. destruct (decide (j = topIndex (segment_state_ t) - 1)) as [->|]; [|apply Hz; lia].
    cbn. rewrite cur_insert by lia. by rewrite decide_True by done. }
  pose proof (holes_le (table_ t') (Z.to_nat (topIndex a)) (Z.to_nat (top' - topIndex a))) as Hle.
  set (s := mkState top' (h' + numHoles a)).
  assert (set_topIndex top' (set_numHoles (h' + numHoles a) (segment_state_ t)) = s) as Es.
  { unfold s, set_topIndex, set_numHoles. cbn. rewrite !uwrap_small by (unfold in_u; lia). done. }
  exists s. split_and!; [|split|cbn; lia|done].
  - destruct (Z.eqb_spec h 0) as [E0|E0]; cbn [negb].
    + rewrite E0, consume_none, Z2Nat.id in E by lia. injection E as <- <-. unfold s, set_topIndex.
      rewrite uwrap_small by (unfold in_u; lia). do 4 f_equal. lia.
    + rewrite E. cbn [mbind cres_bind]. by rewrite Es.
  - cbn. lia.
  - cbn. rewrite length_insert. lia.
  - lia.
  - change (numHoles s) with (h' + numHoles a). change (topIndex s) with top'. lia.
  - exact Htop.
Qed.

Section Remove.
Context (HandleScopeContains : Z -> bool) (cookie : Z) (t : IndirectReferenceTable) (F : gmap Z Z).
Abbreviation a := (of_all cookie).
Abbreviation st := (segment_state_ t).
Context (Ht : table_ok t) (Hseg : segment (table_ t) a st) (Hf : frame (kind_ t) (table_ t) a st F).

Lemma frame_Some r o : F !! r = Some o ->
  topIndex a <= ExtractIndex r < topIndex st /\ entry_of (kind_ t) (table_ t) r = Some o.
Proof.
  rewrite Hf. destruct (Z.leb_spec (topIndex a) (ExtractIndex r)), (Z.ltb_spec (ExtractIndex r) (topIndex st)); cbn [andb]; try done; by split; [lia|].
Qed.
Lemma top_in_table : topIndex st <= max_entries_ t.
Proof. destruct Hseg. pose proof (ok_length t Ht). lia. Qed.

Lemma remove_live r o : F !! r = Some o ->
  exists s e, Remove HandleScopeContains cookie r t = Done (true, set_state s (set_entry (Z.to_nat (ExtractIndex r)) e t)) /\
    entry_ok e /\ topIndex a <= ExtractIndex r < max_entries_ t /\
    let t' := <[Z.to_nat (ExtractIndex r) := e]> (table_ t) in
    segment t' a s /\ frame (kind_ t) t' a s (delete r F) /\ topIndex s <= topIndex st.
Proof.
  intros Hr. destruct (frame_Some r o Hr) as [Hi Ho]. pose proof top_in_table as Htop. pose proof (entry_of_kind t r o Ht Ho) as Hk.
  pose proof (ok_max t Ht). pose proof (ok_length t Ht). pose proof (seg_below _ _ _ Hseg).
  destruct (clear_entry_ok t (ExtractIndex r) Ht ltac:(lia)) as (e & Ee & He & Hc).
  assert (cur (table_ t) (Z.to_nat (ExtractIndex r)) <> 0 /\ CheckEntry t r (ExtractIndex r) = Done true) as [Hcur Hce].
  { rewrite check_entry by (done || lia). unfold entry_of in Ho. case_bool_decide as E; [|done]. destruct E as [? E]. by rewrite bool_decide_eq_true_2. }
  unfold Remove. rewrite debug_check_true by (apply Z.leb_le; destruct Hseg; lia). cbn [mbind cres_bind].
  rewrite Hk. rewrite (proj2 (Z.eqb_neq (kind_ t) _)) by (pose proof (ok_kind t Ht); unfold kHandleScopeOrInvalid; lia). cbn [andb].
  rewrite (proj2 (Z.ltb_ge _ _)), (proj2 (Z.leb_gt _ _)) by lia.
  destruct (Z.eqb_spec (ExtractIndex r) (topIndex st - 1)) as [Ei|Ei].
  - rewrite Hce. cbn [mbind cres_bind negb]. rewrite Ee. cbn [mbind cres_bind].
    destruct (remove_top t a e Ht Hseg He Hc) as (s & Es & Hs & Hle & Hz); [unfold Capacity; lia|].
    unfold Capacity in *. rewrite <- Ei in *. exists s, e. split_and!; try done; try lia. eapply frame_clear; done.
  - rewrite reference_at_ok; [|apply Ht|lia]. cbn [mbind cres_bind]. rewrite (proj2 (Z.eqb_neq _ 0)) by done.
    rewrite Hce. cbn [mbind cres_bind negb]. rewrite Ee. cbn [mbind cres_bind].
    exists (set_numHoles (numHoles st + 1) st), e. split_and!; try done; try lia.
    + apply seg_hole; try done; lia.
    + eapply frame_clear; try done. cbn. lia.
Qed.

(** A reference that is not of the segment: nothing changes, or the runtime stops
    because another reference has the entry. *)
Lemma remove_dead r : F !! r = None ->
  Remove HandleScopeContains cookie r t = Done ((GetIndirectRefKind r =? kHandleScopeOrInvalid) && HandleScopeContains r, t) \/
  check_jni = false /\ Remove HandleScopeContains cookie r t = Fault Aborted /\
  topIndex a <= ExtractIndex r < topIndex st /\ cur (table_ t) (Z.to_nat (ExtractIndex r)) <> 0.
Proof.
  intros Hr. pose proof top_in_table. pose proof (ok_length t Ht). pose proof (index_range r). pose proof Hseg as [K1 K2 K3 K4 K5].
  unfold Remove. rewrite debug_check_true by (apply Z.leb_le; lia). cbn [mbind cres_bind].
  destruct (_ && HandleScopeContains r); [by left|].
  destruct (Z.ltb_spec (ExtractIndex r) (topIndex a)); [by left|]. destruct (Z.leb_spec (topIndex st) (ExtractIndex r)); [by left|].
  rewrite Hf in Hr. rewrite (proj2 (Z.leb_le _ _)), (proj2 (Z.ltb_lt _ _)) in Hr by lia. cbn [andb] in Hr. unfold entry_of in Hr.
  assert (cur (table_ t) (Z.to_nat (ExtractIndex r)) <> 0 ->
    CheckEntry t r (ExtractIndex r) = if check_jni then Done false else Fault Aborted) as Hce.
  { intros Hc. rewrite check_entry by (done || lia). case_bool_decide as E; [done|]. rewrite bool_decide_eq_false_2; [done|]. intros Er. by apply E. }
  destruct (Z.eqb_spec (ExtractIndex r) (topIndex st - 1)) as [Ei|Ei].
  - destruct K5 as [K5|K5]; [lia|]. rewrite <- Ei in K5. rewrite Hce by done. destruct check_jni; [by left|]. right. by split_and!.
  - rewrite reference_at_ok; [|apply Ht|lia]. cbn [mbind cres_bind]. destruct (Z.eqb_spec (cur (table_ t) (Z.to_nat (ExtractIndex r))) 0) as [E0|E0]; [by left|].
    rewrite Hce by done. destruct check_jni; [by left|]. right. by split_and!.
Qed.
End Remove.

(** ** Iteration *)

Definition skipped (obj : Z) : bool := (obj =? 0) || (obj =? kClearedJniWeakGlobal).
Lemma skip_ok t todo : forall i, Forall entry_ok t -> 0 <= i -> i + Z.of_nat todo <= Z.of_nat (length t) ->
  exists j, SkipNullsAndTombstones t todo i = Done j /\ i <= j <= i + Z.of_nat todo /\
    (forall k, i <= k < j -> skipped (cur t (Z.to_nat k)) = true) /\ (j = i + Z.of_nat todo \/ skipped (cur t (Z.to_nat j)) = false).
Proof.
  induction todo as [|todo IH]; intros i Ht Hi Hl; cbn [SkipNullsAndTombstones].
  - exists i. split_and!; try done; try lia.
  - rewrite reference_at_ok by (done || lia). cbn [mbind cres_bind]. fold (skipped (cur t (Z.to_nat i))). destruct (skipped (cur t (Z.to_nat i))) eqn:E.
    + destruct (IH (i + 1)) as (j & -> & Hj & Hs & Hn); [done|lia|lia|]. exists j. split_and!; try done; try lia.
      * intros k Hk. destruct (decide (k = i)) as [->|]; [done|]. apply Hs. lia.
      * destruct Hn as [Hn|Hn]; [left; lia|by right].
    + exists i. split_and!; try done; try lia; auto.
Qed.
Lemma irt_end_ok t : irt_end t = Done (Capacity t).
Proof. unfold irt_end, IrtIterator. by rewrite Z.sub_diag. Qed.

(** The entries from [i] on are assigned. *)
Record assigned (f : Z -> Z) (i : Z) (t t' : IndirectReferenceTable) : Prop := {
  asg_ok : table_ok t';
  asg_rest : segment_state_ t' = segment_state_ t /\ kind_ t' = kind_ t /\ max_entries_ t' = max_entries_ t;
  asg_serial j : serial (table_ t') j = serial (table_ t) j;
  asg_cur j : cur (table_ t') j = if (i <=? Z.of_nat j) && (Z.of_nat j <? Capacity t) && negb (skipped (cur (table_ t) j)) then f (cur (table_ t) j) else cur (table_ t) j
}.
Lemma assign_entry f t i e : table_ok t -> 0 <= i < Capacity t -> Capacity t <= max_entries_ t -> entry_ok e ->
  serial_ e = serial (table_ t) (Z.to_nat i) -> current e = f (cur (table_ t) (Z.to_nat i)) -> skipped (cur (table_ t) (Z.to_nat i)) = false ->
  forall j t', i < j -> (forall k, i < k < j -> skipped (cur (table_ t) (Z.to_nat k)) = true) ->
  assigned f j (set_entry (Z.to_nat i) e t) t' -> assigned f i t t'.
Proof.
  intros Ht Hi Hcap He Hs Hc Hsk j t' Hj Hbetween [K1 K2 K3 K4]. pose proof (ok_length t Ht). split; [done|done| |]; intros k.
  - rewrite K3. cbn. rewrite serial_insert by lia. case_decide; congruence.
  - rewrite K4. cbn [table_ set_entry]. unfold Capacity in *. cbn [segment_state_ set_entry]. rewrite cur_insert by lia.
    destruct (decide (k = Z.to_nat i)) as [->|Hk].
    + rewrite Hsk, Z2Nat.id, (proj2 (Z.leb_gt _ _)), Z.leb_refl, (proj2 (Z.ltb_lt _ _)) by lia. done.
    + destruct (Z.leb_spec j (Z.of_nat k)), (Z.leb_spec i (Z.of_nat k)); try done; try lia. cbn [andb].
      rewrite <- (Nat2Z.id k) at 2 3. rewrite Hbetween by lia. by rewrite andb_false_r.
Qed.
Lemma for_entries_ok body f : (forall obj, skipped obj = false -> body obj = Done (f obj)) ->
  forall fuel i t, table_ok t -> 0 <= i <= Capacity t -> Capacity t <= max_entries_ t -> Capacity t - i <= Z.of_nat fuel ->
  i = Capacity t \/ skipped (cur (table_ t) (Z.to_nat i)) = false ->
  exists t', for_entries fuel body i t = Done t' /\ assigned f i t t'.
Proof.
  intros Hbody. induction fuel as [|fuel IH]; intros i t Ht Hi Hcap Hfuel Hat; cbn [for_entries]; rewrite irt_end_ok; cbn [mbind cres_bind];
    (destruct (Z.eqb_spec i (Capacity t)) as [->|Hne];
      [exists t; split; [done|]; split; [done|done|done|intros j; destruct (Z.leb_spec (Capacity t) (Z.of_nat j)), (Z.ltb_spec (Z.of_nat j) (Capacity t)); done || lia]|]).
  - lia.
  - destruct Hat as [Hat|Hat]; [done|]. pose proof (ok_length t Ht).
    destruct (entry_at_ok (table_ t) i) as (e & E & El & He); [apply Ht|lia|]. rewrite E. cbn [mbind cres_bind]. rewrite get_reference by done. cbn [mbind cres_bind].
    assert (cur (table_ t) (Z.to_nat i) = current e /\ serial (table_ t) (Z.to_nat i) = serial_ e) as [Ec Es] by (unfold cur, serial; by rewrite El).
    rewrite Hbody by congruence. cbn [mbind cres_bind]. destruct (set_reference e (f (current e)) He) as (e' & -> & He' & Hc' & Hs'). cbn [mbind cres_bind].
    set (t1 := set_entry (Z.to_nat i) e' t). assert (table_ok t1) as Ht1 by (change t1 with (set_state (segment_state_ t) t1); by apply ok_set_entry).
    destruct (skip_ok (table_ t1) (Z.to_nat (Capacity t - (i + 1))) (i + 1)) as (j & Ej & Hj & Hbetween & Hstop); [apply Ht1|lia|rewrite (ok_length t1 Ht1); cbn; lia|].
    unfold IrtIterator. change (Capacity t1) with (Capacity t). rewrite Ej. cbn [mbind cres_bind].
    destruct (IH j t1) as (t' & -> & Hasg); [done|cbn; unfold Capacity in *; cbn; lia|cbn; unfold Capacity in *; cbn; lia|unfold Capacity in *; cbn; lia|unfold Capacity in *; cbn in *; destruct Hstop; [left; lia|by right]|].
    exists t'. split; [done|]. apply (assign_entry f t i e' Ht) with (j := j); try done; try congruence; try lia.
    intros k Hk. specialize (Hbetween k ltac:(lia)). unfold t1 in Hbetween. cbn in Hbetween. rewrite cur_insert in Hbetween by lia. by rewrite decide_False in Hbetween by lia.
Qed.

Lemma iterate_ok body f t : (forall obj, skipped obj = false -> body obj = Done (f obj)) ->
  table_ok t -> 0 <= Capacity t <= max_entries_ t -> exists t', iterate body t = Done t' /\ assigned f 0 t t'.
Proof.
  intros Hbody Ht Hcap. unfold iterate, irt_begin, IrtIterator. rewrite Z.sub_0_r. pose proof (ok_length t Ht).
  destruct (skip_ok (table_ t) (Z.to_nat (Capacity t)) 0) as (i & -> & Hi & Hsk & Hstop); [apply Ht|lia|lia|]. cbn [mbind cres_bind].
  destruct (for_entries_ok body f Hbody (Z.to_nat (Capacity t)) i t) as (t' & -> & [K1 K2 K3 K4]);
    [done|lia|lia|lia|destruct Hstop; [left; lia|by right]|].
  exists t'. split; [done|]. split; try done. intros j. rewrite K4.
  destruct (Z.leb_spec i (Z.of_nat j)), (Z.leb_spec 0 (Z.of_nat j)); try done; try lia. cbn [andb].
  rewrite <- (Nat2Z.id j) at 2 3. rewrite Hsk by lia. by rewrite andb_false_r.
Qed.
Definition moved (f : Z -> Z) (obj : Z) : Z := if obj =? kClearedJniWeakGlobal then obj else f obj.
Section Assigned.
Context (f : Z -> Z) (t t' : IndirectReferenceTable).
Context (Hf : forall obj, skipped obj = false -> f obj <> 0) (Ht : table_ok t) (Hasg : assigned f 0 t t').

Lemma assigned_cur j : Z.of_nat j < Capacity t -> cur (table_ t) j <> 0 -> cur (table_ t') j = moved f (cur (table_ t) j).
Proof.
  intros Hj Hc. rewrite (asg_cur _ _ _ _ Hasg). rewrite (proj2 (Z.leb_le 0 _)), (proj2 (Z.ltb_lt _ _)) by lia. cbn [andb].
  unfold skipped, moved. rewrite (proj2 (Z.eqb_neq _ 0)) by done. cbn [orb]. by destruct (_ =? kClearedJniWeakGlobal).
Qed.
Lemma assigned_null j : cur (table_ t') j = 0 <-> cur (table_ t) j = 0.
Proof.
  rewrite (asg_cur _ _ _ _ Hasg). destruct (_ && _ && _) eqn:E; [|done]. apply andb_true_iff in E as [_ E]. apply negb_true_iff in E.
  pose proof (Hf _ E). unfold skipped in E. apply orb_false_iff in E as [E _]. apply Z.eqb_neq in E. done.
Qed.
Lemma assigned_length : length (table_ t') = length (table_ t).
Proof. destruct (asg_rest _ _ _ _ Hasg) as (_ & _ & E). pose proof (ok_length _ Ht). pose proof (ok_length _ (asg_ok _ _ _ _ Hasg)). lia. Qed.
Lemma seg_assigned a b : segment (table_ t) a b -> segment (table_ t') a b.
Proof.
  intros [H1 H2 H3 H4 H5]. split; try done; [rewrite assigned_length; lia| |].
  - rewrite H4. do 2 f_equal. apply holes_ext. intros i _. symmetry. apply assigned_null.
  - destruct H5 as [H5|H5]; [by left|]. right. by rewrite assigned_null.
Qed.
Lemma frame_assigned a b F : topIndex b <= Capacity t -> frame (kind_ t) (table_ t) a b F -> frame (kind_ t) (table_ t') a b (moved f <$> F).
Proof.
  intros Hb HF r. rewrite lookup_fmap, HF. destruct (_ <=? _); [|done]. cbn [andb]. pose proof (index_range r).
  destruct (Z.ltb_spec (ExtractIndex r) (topIndex b)); [|done]. unfold entry_of. rewrite (asg_serial _ _ _ _ Hasg).
  pose proof (assigned_null (Z.to_nat (ExtractIndex r))) as Hn.
  case_bool_decide as E; cbn; [|rewrite bool_decide_eq_false_2; [done|]; intros [E1 E2]; apply E; tauto].
  rewrite bool_decide_eq_true_2 by tauto. rewrite assigned_cur; [done|lia|tauto].
Qed.
End Assigned.

(** Pages above the entries in use. *)
Lemma trim_agree t : 0 <= Capacity t -> agree (table_ t) (table_ (Trim t)) (Capacity t).
Proof.
  intros Hc. split; [apply length_imap|]. intros i Hi. cbn [Trim table_]. rewrite list_lookup_imap.
  destruct (table_ t !! i) as [e|]; [|done]. cbn. f_equal.
  set (n := Capacity t * sizeof_IrtEntry). assert (n <= (n + kPageSize - 1) / kPageSize * kPageSize) as Hn.
  { unfold kPageSize. pose proof (Z.div_mod (n + 4096 - 1) 4096 ltac:(lia)). pose proof (Z.mod_pos_bound (n + 4096 - 1) 4096 ltac:(lia)). lia. }
  rewrite (proj2 (Z.leb_gt _ _)); [done|]. eapply Z.lt_le_trans; [|exact Hn]. pose proof prev_count. apply Z.mul_lt_mono_pos_r; unfold sizeof_IrtEntry; lia.
Qed.
Lemma trim_ok t : table_ok t -> table_ok (Trim t).
Proof.
  intros [H1 H2 H3 H4]. split; cbn [Trim table_ max_entries_ kind_]; try done; [by rewrite length_imap|].
  apply Forall_lookup_2. intros i e. rewrite list_lookup_imap. destruct (table_ t !! i) as [e0|] eqn:E; [|done]. cbn. intros [= <-].
  case_match; [|by eapply Forall_lookup_1]. pose proof prev_count. split; cbn; [lia|apply length_replicate].
Qed.

(** ** State words and new tables *)

Lemma of_to_all s : in_u 16 (topIndex s) -> 0 <= numHoles s -> of_all (to_all s) = s.
Proof.
  intros Ht Hh. destruct s as [top n]. unfold of_all, to_all, in_u in *. cbn in *. rewrite lor_shiftl_add by lia.
  change 65535 with (Z.ones 16). rewrite Z.land_ones, Z.shiftr_div_pow2, Z.mod_add, Z.mod_small, Z.div_add, Z.div_small by lia. done.
Qed.
Lemma new_table_ok initialCount maxCount kind : 0 < initialCount <= maxCount -> maxCount < 2 ^ 16 -> 0 < kind < 4 ->
  exists t, new_IndirectReferenceTable true initialCount maxCount kind = Done t /\ table_ok t /\
    segment_state_ t = mkState 0 0 /\ kind_ t = kind /\ max_entries_ t = maxCount.
Proof.
  intros Hi Hm Hk. unfold new_IndirectReferenceTable. rewrite (proj2 (Z.ltb_lt 0 _)), (proj2 (Z.leb_le _ _)), (proj2 (Z.eqb_neq kind _)) by (unfold kHandleScopeOrInvalid; lia).
  cbn [always_check mbind cres_bind negb]. eexists. split; [done|]. split; [|done].
  pose proof prev_count. split; cbn; [rewrite length_replicate; lia|done|done|].
  apply Forall_replicate. split; cbn; [lia|apply length_replicate].
Qed.

(** ** What callers rely on *)

(** [t'] is [t] after a change of the segment above [a], which has the references [F']. *)
Record changed (a : IRTSegmentState) (F' : gmap Z Z) (t t' : IndirectReferenceTable) : Prop := {
  changed_ok : table_ok t';
  changed_kind : kind_ t' = kind_ t;
  changed_max : max_entries_ t' = max_entries_ t;
  changed_segment : segment (table_ t') a (segment_state_ t');
  changed_frame : frame (kind_ t) (table_ t') a (segment_state_ t') F';
  changed_below : agree (table_ t) (table_ t') (topIndex a)
}.
Lemma changed_refl a F t : table_ok t -> segment (table_ t) a (segment_state_ t) -> frame (kind_ t) (table_ t) a (segment_state_ t) F -> changed a F t t.
Proof. intros. by split. Qed.
Lemma changed_set a F t s i e : table_ok t -> entry_ok e -> topIndex a <= i ->
  segment (<[Z.to_nat i := e]> (table_ t)) a s -> frame (kind_ t) (<[Z.to_nat i := e]> (table_ t)) a s F -> changed a F t (set_state s (set_entry (Z.to_nat i) e t)).
Proof. intros Ht He Hi Hs Hf. split; try done; [by apply ok_set_entry|]. apply agree_insert. lia. Qed.

Lemma add_cases cookie obj t F : let a := of_all cookie in table_ok t -> obj <> 0 ->
  segment (table_ t) a (segment_state_ t) -> frame (kind_ t) (table_ t) a (segment_state_ t) F ->
  Capacity t = max_entries_ t /\ Add cookie obj t = Fault Aborted \/
  exists r t', Add cookie obj t = Done (r, t') /\ changed a (<[r := obj]> F) t t' /\
    F !! r = None /\ r <> 0 /\ GetIndirectRefKind r = kind_ t /\ topIndex a <= ExtractIndex r /\ Capacity t <= Capacity t' <= Capacity t + 1.
Proof.
  intros a Ht Ho Hs Hf. pose proof (ok_length t Ht). destruct (decide (Capacity t = max_entries_ t)) as [Hfull|Hroom].
  - left. split; [done|]. unfold Add. rewrite (proj2 (Z.eqb_neq obj 0)) by done. cbn [always_check negb mbind cres_bind].
    fold a. rewrite (debug_check_true (numHoles a <=? _)) by (apply Z.leb_le; destruct Hs; lia). cbn [mbind cres_bind]. unfold Capacity in Hfull. by rewrite Hfull, Z.eqb_refl.
  - right. destruct (add_spec cookie obj t F Ht Ho Hs Hf) as (r & s & e & E & He & Hr & Hr0 & Hs' & Hf' & Hfree & Hcap); [destruct Hs; unfold Capacity in *; lia|].
    pose proof (changed_set a _ t s (ExtractIndex r) e Ht He ltac:(unfold a; lia) Hs' Hf') as Hch. eexists r, _. split; [done|]. split; [done|].
    split_and!; try done; try (unfold a; lia).
    + rewrite <- (changed_kind _ _ _ _ Hch). destruct (frame_Some cookie (set_state s (set_entry (Z.to_nat (ExtractIndex r)) e t)) _ (changed_frame _ _ _ _ Hch) r obj) as [_ Hent]; [apply lookup_insert_eq|].
      by apply (entry_of_kind _ r obj (changed_ok _ _ _ _ Hch)).
    + apply Hcap.
    + apply Hcap.
Qed.

Lemma remove_cases HandleScopeContains cookie r t F : let a := of_all cookie in table_ok t ->
  segment (table_ t) a (segment_state_ t) -> frame (kind_ t) (table_ t) a (segment_state_ t) F ->
  check_jni = false /\ F !! r = None /\ Remove HandleScopeContains cookie r t = Fault Aborted \/
  exists b t', Remove HandleScopeContains cookie r t = Done (b, t') /\ changed a (delete r F) t t' /\ Capacity t' <= Capacity t.
Proof.
  intros a Ht Hs Hf. destruct (F !! r) as [o|] eqn:Er.
  - right. destruct (remove_live HandleScopeContains cookie t F Ht Hs Hf r o Er) as (s & e & E & He & Hi & Hs' & Hf' & Hcap).
    eexists _, _. split; [done|]. split; [|done]. apply changed_set; try done. unfold a. lia.
  - destruct (remove_dead HandleScopeContains cookie t F Ht Hs Hf r Er) as [E|(? & E & _)]; [right|by left].
    eexists _, _. split; [done|]. rewrite delete_id by done. split; [by apply changed_refl|done].
Qed.
End Table.

(** ** Cases of indirect_reference_table_test.cc *)

Section Test.
Definition checked : JniConfig := {| kIsDebugBuild := true; check_jni := true |}.
#[local] Existing Instance checked.
Definition no_handle (_ : Z) : bool := false.

(** Three references; the middle one is removed twice. *)
Definition middle_twice : cres (list bool * Z * Z) :=
  t ← new_IndirectReferenceTable true 10 20 kGlobal;
  '(iref0, t) ← Add IRT_FIRST_SEGMENT 0x1000 t;
  '(iref1, t) ← Add IRT_FIRST_SEGMENT 0x2000 t;
  '(iref2, t) ← Add IRT_FIRST_SEGMENT 0x3000 t;
  '(first, t) ← Remove no_handle IRT_FIRST_SEGMENT iref1 t;
  '(second, t) ← Remove no_handle IRT_FIRST_SEGMENT iref1 t;
  hole ← Get t iref1;
  '(top, t) ← Remove no_handle IRT_FIRST_SEGMENT iref2 t;
  '(bottom, t) ← Remove no_handle IRT_FIRST_SEGMENT iref0 t;
  Done ([first; second; top; bottom], hole, Capacity t).
Lemma middle_twice_ok : middle_twice = Done ([true; false; true; true], kInvalidIndirectRefObject, 0).
Proof. vm_compute. reflexivity. Qed.

(** Four references; a hole is filled, and one is left when the top goes. *)
Definition hole_filled : cres (list bool * list Z) :=
  t ← new_IndirectReferenceTable true 10 20 kGlobal;
  '(iref0, t) ← Add IRT_FIRST_SEGMENT 0x1000 t;
  '(iref1, t) ← Add IRT_FIRST_SEGMENT 0x2000 t;
  '(iref2, t) ← Add IRT_FIRST_SEGMENT 0x3000 t;
  '(iref3, t) ← Add IRT_FIRST_SEGMENT 0x4000 t;
  '(b0, t) ← Remove no_handle IRT_FIRST_SEGMENT iref1 t;
  '(iref1, t) ← Add IRT_FIRST_SEGMENT 0x2000 t;
  let four := Capacity t in
  '(b1, t) ← Remove no_handle IRT_FIRST_SEGMENT iref1 t;
  '(b2, t) ← Remove no_handle IRT_FIRST_SEGMENT iref3 t;
  let three := Capacity t in
  '(b3, t) ← Remove no_handle IRT_FIRST_SEGMENT iref2 t;
  '(b4, t) ← Remove no_handle IRT_FIRST_SEGMENT iref0 t;
  Done ([b0; b1; b2; b3; b4], [four; three; Capacity t]).
Lemma hole_filled_ok : hole_filled = Done ([true; true; true; true; true], [4; 3; 0]).
Proof. vm_compute. reflexivity. Qed.
End Test.
