(* ===== verification/JniRefs.v ===== *)
(** * JniRefs: local, global and weak global references
      (runtime/jni_internal.{h,cc}, jni_internal-inl.h, thread.cc,
       entrypoints/quick/quick_jni_entrypoints.cc)

    The references that native code holds: those of the frames of a thread,
    which PushLocalFrame and calls of native methods open, and the global ones.
    The specification is a stack of finite maps, two more maps, and what each
    function answers; the functions over the tables of [IndirectRefs] implement it
    through collections that move objects and clear weak references. *)

From stdpp Require Import base list gmap.
From S2P Require Import Prelude IndirectRefs.

(** ** Definitions *)

Definition kLocalsInitial := 64.
Definition kLocalsMax := 512.
Definition gGlobalsInitial := 512.
Definition gGlobalsMax := 51200.
Definition kWeakGlobalsInitial := 16.
Definition kWeakGlobalsMax := 51200.
Definition JNI_OK := 0.
Definition JNI_ERR := -1.

(** The vector of cookies is a list with its back first. *)
Record JNIEnvExt := mkEnv { local_ref_cookie : Z; locals : IndirectReferenceTable; stacked_local_ref_cookies : list Z }.
Record JavaVMExt := mkVM { globals : IndirectReferenceTable; weak_globals_ : IndirectReferenceTable; allow_new_weak_globals_ : bool }.
(** A thread in the runtime, with the cookies that the stubs of the native methods
    on its stack have saved, the last one first. *)
Record jni := mkJni { env : JNIEnvExt; vm : JavaVMExt; saved_cookies : list Z }.

Definition set_locals (t : IndirectReferenceTable) (e : JNIEnvExt) : JNIEnvExt := mkEnv (local_ref_cookie e) t (stacked_local_ref_cookies e).
Definition set_env (e : JNIEnvExt) (c : jni) : jni := mkJni e (vm c) (saved_cookies c).
Definition set_globals (t : IndirectReferenceTable) (c : jni) : jni := mkJni (env c) (mkVM t (weak_globals_ (vm c)) (allow_new_weak_globals_ (vm c))) (saved_cookies c).
Definition set_weak (t : IndirectReferenceTable) (c : jni) : jni := mkJni (env c) (mkVM (globals (vm c)) t (allow_new_weak_globals_ (vm c))) (saved_cookies c).

(** The handle scopes of a thread: the object at an address inside of them. *)
Definition handles := Z -> option Z.
Definition contains (hs : handles) (obj : Z) : bool := if hs obj is Some _ then true else false.

Section Functions.
Context `{JniConfig}.

Definition new_jni : cres jni :=
  locals ← new_IndirectReferenceTable true kLocalsInitial kLocalsMax kLocal;
  globals ← new_IndirectReferenceTable true gGlobalsInitial gGlobalsMax kGlobal;
  weak_globals ← new_IndirectReferenceTable true kWeakGlobalsInitial kWeakGlobalsMax kWeakGlobal;
  Done (mkJni (mkEnv IRT_FIRST_SEGMENT locals []) (mkVM globals weak_globals true) []).

(** A thread that waits until new weak references are allowed does not return. *)
Definition wait_weak (c : jni) : cres unit := if allow_new_weak_globals_ (vm c) then Done () else Fault OutOfFuel.

Definition DecodeWeakGlobal (ref : Z) (c : jni) : cres Z := _ ← wait_weak c; Get (weak_globals_ (vm c)) ref.
Definition DecodeJObject (hs : handles) (obj : Z) (c : jni) : cres Z :=
  if obj =? 0 then Done 0
  else
    let kind := GetIndirectRefKind obj in
    let used (result : Z) : cres Z := if result =? 0 then Fault Aborted else Done result in
    if kind =? kLocal then result ← Get (locals (env c)) obj; used result
    else if kind =? kHandleScopeOrInvalid then
      used (match hs obj with Some result => result | None => kInvalidIndirectRefObject end)
    else if kind =? kGlobal then result ← Get (globals (vm c)) obj; used result
    else
      _ ← debug_check (kind =? kWeakGlobal);
      result ← DecodeWeakGlobal obj c;
      if result =? kClearedJniWeakGlobal then Done 0 else used result.

(** JNIEnvExt *)
Definition env_AddLocalReference (obj : Z) (e : JNIEnvExt) : cres (Z * JNIEnvExt) :=
  '(ref, t) ← Add (local_ref_cookie e) obj (locals e); Done (ref, set_locals t e).
Definition AddLocalReference (obj : Z) (c : jni) : cres (Z * jni) :=
  if obj =? 0 then Done (0, c) else '(ref, e) ← env_AddLocalReference obj (env c); Done (ref, set_env e c).
Definition PushFrame (e : JNIEnvExt) : JNIEnvExt :=
  mkEnv (GetSegmentState (locals e)) (locals e) (local_ref_cookie e :: stacked_local_ref_cookies e).
Definition PopFrame (e : JNIEnvExt) : cres JNIEnvExt :=
  let t := SetSegmentState (local_ref_cookie e) (locals e) in
  match stacked_local_ref_cookies e with
  | [] => Fault OutOfBounds
  | cookie :: cookies => Done (mkEnv cookie t cookies)
  end.

(** JNI *)
Definition EnsureLocalCapacity (desired_capacity : Z) (c : jni) : Z :=
  if (desired_capacity <? 0) || (s32 kLocalsMax <? desired_capacity) then JNI_ERR
  else
    let capacity := Capacity (locals (env c)) in
    if desired_capacity <=? s32 (u32 (kLocalsMax - capacity)) then JNI_OK else JNI_ERR.
Definition NewLocalRef (hs : handles) (obj : Z) (c : jni) : cres (Z * jni) :=
  decoded_obj ← DecodeJObject hs obj c;
  if decoded_obj =? 0 then Done (0, c) else AddLocalReference decoded_obj c.
Definition DeleteLocalRef (hs : handles) (obj : Z) (c : jni) : cres jni :=
  if obj =? 0 then Done c
  else
    '(_, t) ← Remove (contains hs) (local_ref_cookie (env c)) obj (locals (env c));
    Done (set_env (set_locals t (env c)) c).
Definition PushLocalFrame (capacity : Z) (c : jni) : Z * jni :=
  if negb (EnsureLocalCapacity capacity c =? JNI_OK) then (JNI_ERR, c) else (JNI_OK, set_env (PushFrame (env c)) c).
Definition PopLocalFrame (hs : handles) (java_survivor : Z) (c : jni) : cres (Z * jni) :=
  survivor ← DecodeJObject hs java_survivor c;
  e ← PopFrame (env c);
  AddLocalReference survivor (set_env e c).
Definition NewGlobalRef (hs : handles) (obj : Z) (c : jni) : cres (Z * jni) :=
  decoded_obj ← DecodeJObject hs obj c;
  if decoded_obj =? 0 then Done (0, c)
  else '(ref, t) ← Add IRT_FIRST_SEGMENT decoded_obj (globals (vm c)); Done (ref, set_globals t c).
Definition DeleteGlobalRef (hs : handles) (obj : Z) (c : jni) : cres jni :=
  if obj =? 0 then Done c
  else '(_, t) ← Remove (contains hs) IRT_FIRST_SEGMENT obj (globals (vm c)); Done (set_globals t c).
Definition AddWeakGlobalReference (obj : Z) (c : jni) : cres (Z * jni) :=
  if obj =? 0 then Done (0, c)
  else
    _ ← wait_weak c;
    '(ref, t) ← Add IRT_FIRST_SEGMENT obj (weak_globals_ (vm c)); Done (ref, set_weak t c).
Definition NewWeakGlobalRef (hs : handles) (obj : Z) (c : jni) : cres (Z * jni) :=
  decoded_obj ← DecodeJObject hs obj c; AddWeakGlobalReference decoded_obj c.
Definition DeleteWeakGlobalRef (hs : handles) (obj : Z) (c : jni) : cres jni :=
  if obj =? 0 then Done c
  else '(_, t) ← Remove (contains hs) IRT_FIRST_SEGMENT obj (weak_globals_ (vm c)); Done (set_weak t c).
Definition IsSameObject (hs : handles) (obj1 obj2 : Z) (c : jni) : cres bool :=
  if obj1 =? obj2 then Done true
  else o1 ← DecodeJObject hs obj1 c; o2 ← DecodeJObject hs obj2 c; Done (o1 =? o2).

Definition JNIInvalidRefType := 0.
Definition JNILocalRefType := 1.
Definition JNIGlobalRefType := 2.
Definition JNIWeakGlobalRefType := 3.
Definition GetObjectRefType (hs : handles) (java_object : Z) (c : jni) : cres Z :=
  if java_object =? 0 then Done JNIInvalidRefType
  else
    let kind := GetIndirectRefKind java_object in
    if kind =? kLocal then
      obj ← Get (locals (env c)) java_object;
      if negb (obj =? kInvalidIndirectRefObject) then Done JNILocalRefType else Done JNIInvalidRefType
    else if kind =? kGlobal then Done JNIGlobalRefType
    else if kind =? kWeakGlobal then Done JNIWeakGlobalRefType
    else if contains hs java_object then Done JNILocalRefType else Done JNIInvalidRefType.

(** Calls of native methods. *)
Definition JniMethodStart (c : jni) : jni :=
  let saved_local_ref_cookie := local_ref_cookie (env c) in
  mkJni (mkEnv (GetSegmentState (locals (env c))) (locals (env c)) (stacked_local_ref_cookies (env c))) (vm c)
    (saved_local_ref_cookie :: saved_cookies c).
Definition PopLocalReferences (c : jni) : cres jni :=
  match saved_cookies c with
  | [] => Fault OutOfBounds
  | saved_local_ref_cookie :: cookies =>
      Done (mkJni (mkEnv saved_local_ref_cookie (SetSegmentState (local_ref_cookie (env c)) (locals (env c)))
                     (stacked_local_ref_cookies (env c))) (vm c) cookies)
  end.
Definition JniMethodEnd : jni -> cres jni := PopLocalReferences.
(** [CheckReferenceResult] compares the result with the return type of the method. *)
Definition JniMethodEndWithReference (CheckReferenceResult : Z -> cres unit) (hs : handles) (exception_pending : bool) (result : Z) (c : jni) : cres (Z * jni) :=
  o ← DecodeJObject hs result c;
  c ← PopLocalReferences c;
  if check_jni then
    if exception_pending then Done (0, c) else _ ← CheckReferenceResult o; Done (o, c)
  else Done (o, c).

(** Collections: [callback] is where an object is now, or null. *)
Definition SweepJniWeakGlobals (callback : Z -> Z) (c : jni) : cres jni :=
  t ← iterate (fun obj => let new_obj := callback obj in Done (if new_obj =? 0 then kClearedJniWeakGlobal else new_obj)) (weak_globals_ (vm c));
  Done (set_weak t c).
Definition visit_references (callback : Z -> Z) (c : jni) : cres jni :=
  t ← VisitRoots callback (locals (env c));
  g ← VisitRoots callback (globals (vm c));
  Done (set_globals g (set_env (set_locals t (env c)) c)).
Definition DisallowNewWeakGlobals (c : jni) : jni := mkJni (env c) (mkVM (globals (vm c)) (weak_globals_ (vm c)) false) (saved_cookies c).
Definition AllowNewWeakGlobals (c : jni) : jni := mkJni (env c) (mkVM (globals (vm c)) (weak_globals_ (vm c)) true) (saved_cookies c).
Definition trim_references (c : jni) : jni :=
  set_globals (Trim (globals (vm c))) (set_env (set_locals (Trim (locals (env c))) (env c)) c).

(** ** What the functions promise *)

(** A frame is the bottom one of the thread, or was opened by PushLocalFrame or by
    the call of a native method. *)
Inductive ftag := Bottom | Pushed | Native.
Record refs := mkRefs { frames : list (ftag * gmap Z Z); global_refs : gmap Z Z; weak_refs : gmap Z Z }.
Definition set_frames (fs : list (ftag * gmap Z Z)) (a : refs) : refs := mkRefs fs (global_refs a) (weak_refs a).
Definition all_refs (fs : list (ftag * gmap Z Z)) : gmap Z Z := foldr (fun f m => f.2 ∪ m) ∅ fs.
Definition first_refs : refs := mkRefs [(Bottom, ∅)] ∅ ∅.

(** The object of a reference; nothing for a reference that is not valid. *)
Definition object_of (hs : handles) (a : refs) (r : Z) : option Z :=
  if r =? 0 then Some 0
  else if GetIndirectRefKind r =? kLocal then all_refs (frames a) !! r
  else if GetIndirectRefKind r =? kHandleScopeOrInvalid then hs r
  else if GetIndirectRefKind r =? kGlobal then global_refs a !! r
  else (fun o => if o =? kClearedJniWeakGlobal then 0 else o) <$> weak_refs a !! r.
Definition decoded (hs : handles) (a : refs) (r : Z) : Z := default kInvalidIndirectRefObject (object_of hs a r).

Definition spec_add (obj : Z) (a : refs) (r : Z) (a' : refs) : Prop :=
  if obj =? 0 then r = 0 /\ a' = a
  else match frames a with
       | (g, F) :: fs => r <> 0 /\ GetIndirectRefKind r = kLocal /\ all_refs (frames a) !! r = None /\ a' = set_frames ((g, <[r := obj]> F) :: fs) a
       | [] => False
       end.
Definition fresh (kind r : Z) (G : gmap Z Z) : Prop := r <> 0 /\ GetIndirectRefKind r = kind /\ G !! r = None.

Inductive call :=
| CAdd (obj : Z) | CNewLocal (obj : Z) | CDeleteLocal (obj : Z)
| CPush (capacity : Z) | CPop (survivor : Z)
| CNewGlobal (obj : Z) | CDeleteGlobal (obj : Z) | CNewWeak (obj : Z) | CDeleteWeak (obj : Z)
| CStart | CEnd | CVisit (callback : Z -> Z) | CSweep (callback : Z -> Z) | CTrim | CAllow (allow : bool).

Definition exec (hs : handles) (k : call) (c : jni) : cres (Z * jni) :=
  match k with
  | CAdd obj => AddLocalReference obj c
  | CNewLocal obj => NewLocalRef hs obj c
  | CDeleteLocal obj => c ← DeleteLocalRef hs obj c; Done (0, c)
  | CPush capacity => Done (PushLocalFrame capacity c)
  | CPop survivor => PopLocalFrame hs survivor c
  | CNewGlobal obj => NewGlobalRef hs obj c
  | CDeleteGlobal obj => c ← DeleteGlobalRef hs obj c; Done (0, c)
  | CNewWeak obj => NewWeakGlobalRef hs obj c
  | CDeleteWeak obj => c ← DeleteWeakGlobalRef hs obj c; Done (0, c)
  | CStart => Done (0, JniMethodStart c)
  | CEnd => c ← JniMethodEnd c; Done (0, c)
  | CVisit callback => c ← visit_references callback c; Done (0, c)
  | CSweep callback => c ← SweepJniWeakGlobals callback c; Done (0, c)
  | CTrim => Done (0, trim_references c)
  | CAllow allow => Done (0, if allow then AllowNewWeakGlobals c else DisallowNewWeakGlobals c)
  end.

Definition move_frame (callback : Z -> Z) (f : ftag * gmap Z Z) : ftag * gmap Z Z := (f.1, moved callback <$> f.2).
Definition swept (callback : Z -> Z) (obj : Z) : Z := if callback obj =? 0 then kClearedJniWeakGlobal else callback obj.
Definition spec (hs : handles) (k : call) (a : refs) (x : Z) (a' : refs) : Prop :=
  match k, frames a with
  | CAdd obj, _ => spec_add obj a x a'
  | CNewLocal obj, _ => spec_add (decoded hs a obj) a x a'
  | CDeleteLocal obj, (g, F) :: fs => a' = set_frames ((g, delete obj F) :: fs) a
  | CPush _, fs => x = JNI_ERR /\ a' = a \/ x = JNI_OK /\ a' = set_frames ((Pushed, ∅) :: fs) a
  | CPop survivor, (Pushed, _) :: fs => spec_add (decoded hs a survivor) (set_frames fs a) x a'
  | CNewGlobal obj, _ =>
      if decoded hs a obj =? 0 then x = 0 /\ a' = a
      else fresh kGlobal x (global_refs a) /\ a' = mkRefs (frames a) (<[x := decoded hs a obj]> (global_refs a)) (weak_refs a)
  | CDeleteGlobal obj, _ => a' = mkRefs (frames a) (delete obj (global_refs a)) (weak_refs a)
  | CNewWeak obj, _ =>
      if decoded hs a obj =? 0 then x = 0 /\ a' = a
      else fresh kWeakGlobal x (weak_refs a) /\ a' = mkRefs (frames a) (global_refs a) (<[x := decoded hs a obj]> (weak_refs a))
  | CDeleteWeak obj, _ => a' = mkRefs (frames a) (global_refs a) (delete obj (weak_refs a))
  | CStart, fs => a' = set_frames ((Native, ∅) :: fs) a
  | CEnd, (Native, _) :: fs => a' = set_frames fs a
  | CVisit callback, fs => a' = mkRefs (move_frame callback <$> fs) (moved callback <$> global_refs a) (weak_refs a)
  | CSweep callback, _ => a' = mkRefs (frames a) (global_refs a) (moved (swept callback) <$> weak_refs a)
  | CTrim, _ | CAllow _, _ => a' = a
  | _, _ => False
  end.

(** Frames are closed in order, and objects do not move to the null address. *)
Definition allowed (k : call) (a : refs) : Prop :=
  match k, frames a with
  | CPop _, (Pushed, _) :: _ | CEnd, (Native, _) :: _ => True
  | CPop _, _ | CEnd, _ => False
  | CVisit callback, _ => forall obj, skipped obj = false -> callback obj <> 0
  | _, _ => True
  end.

(** ** Tables that implement the maps *)

Inductive stack_rel (t : list IrtEntry) : IRTSegmentState -> Z -> list Z -> list Z -> list (ftag * gmap Z Z) -> Prop :=
| stack_bottom st F : segment t (of_all IRT_FIRST_SEGMENT) st -> frame kLocal t (of_all IRT_FIRST_SEGMENT) st F ->
    stack_rel t st IRT_FIRST_SEGMENT [] [] [(Bottom, F)]
| stack_pushed st cookie cookie' stacked saved F fs : segment t (of_all cookie) st -> frame kLocal t (of_all cookie) st F ->
    stack_rel t (of_all cookie) cookie' stacked saved fs -> stack_rel t st cookie (cookie' :: stacked) saved ((Pushed, F) :: fs)
| stack_native st cookie cookie' stacked saved F fs : segment t (of_all cookie) st -> frame kLocal t (of_all cookie) st F ->
    stack_rel t (of_all cookie) cookie' stacked saved fs -> stack_rel t st cookie stacked (cookie' :: saved) ((Native, F) :: fs).
Record single (kind max : Z) (t : IndirectReferenceTable) (G : gmap Z Z) : Prop := {
  single_ok : table_ok t;
  single_kind : kind_ t = kind;
  single_max : max_entries_ t = max;
  single_segment : segment (table_ t) (of_all IRT_FIRST_SEGMENT) (segment_state_ t);
  single_frame : frame kind (table_ t) (of_all IRT_FIRST_SEGMENT) (segment_state_ t) G
}.
Record rel (c : jni) (a : refs) : Prop := {
  rel_ok : table_ok (locals (env c));
  rel_kind : kind_ (locals (env c)) = kLocal;
  rel_max : max_entries_ (locals (env c)) = kLocalsMax;
  rel_stack : stack_rel (table_ (locals (env c))) (segment_state_ (locals (env c))) (local_ref_cookie (env c))
    (stacked_local_ref_cookies (env c)) (saved_cookies c) (frames a);
  rel_globals : single kGlobal gGlobalsMax (globals (vm c)) (global_refs a);
  rel_weak : single kWeakGlobal kWeakGlobalsMax (weak_globals_ (vm c)) (weak_refs a)
}.

Section Stack.
Context (t : list IrtEntry).

Lemma stack_head st cookie stacked saved fs : stack_rel t st cookie stacked saved fs ->
  segment t (of_all cookie) st /\ exists g F fs', fs = (g, F) :: fs' /\ frame kLocal t (of_all cookie) st F.
Proof. destruct 1; eauto 10. Qed.
Lemma stack_agree t' : forall st cookie stacked saved fs, agree t t' (topIndex st) -> stack_rel t st cookie stacked saved fs -> stack_rel t' st cookie stacked saved fs.
Proof.
  intros st cookie stacked saved fs Ha Hs. induction Hs as [st F Hseg Hf|st cookie cookie' stacked saved F fs Hseg Hf _ IH|st cookie cookie' stacked saved F fs Hseg Hf _ IH].
  - constructor; [by eapply seg_agree|by eapply frame_agree].
  - constructor; [by eapply seg_agree|by eapply frame_agree|]. apply IH. destruct Hseg, Ha as [? Ha]. split; [done|]. intros i Hi. apply Ha. lia.
  - constructor; [by eapply seg_agree|by eapply frame_agree|]. apply IH. destruct Hseg, Ha as [? Ha]. split; [done|]. intros i Hi. apply Ha. lia.
Qed.
(** The innermost frame is exchanged. *)
Lemma stack_update t' st st' cookie stacked saved g F F' fs : stack_rel t st cookie stacked saved ((g, F) :: fs) ->
  agree t t' (topIndex (of_all cookie)) -> segment t' (of_all cookie) st' -> frame kLocal t' (of_all cookie) st' F' ->
  stack_rel t' st' cookie stacked saved ((g, F') :: fs).
Proof. intros Hs Ha Hseg Hf. inversion Hs; subst; constructor; try done; by eapply stack_agree. Qed.
Lemma stack_all st cookie stacked saved fs r : stack_rel t st cookie stacked saved fs ->
  all_refs fs !! r = if ExtractIndex r <? topIndex st then entry_of kLocal t r else None.
Proof.
  assert (forall st cookie F fs, segment t (of_all cookie) st -> frame kLocal t (of_all cookie) st F ->
    all_refs fs !! r = (if ExtractIndex r <? topIndex (of_all cookie) then entry_of kLocal t r else None) ->
    (F ∪ all_refs fs) !! r = if ExtractIndex r <? topIndex st then entry_of kLocal t r else None) as Hstep.
  { intros st' c F fs' [H1 _ _ _ _] Hf Hr. specialize (Hf r).
    destruct (Z.ltb_spec (ExtractIndex r) (topIndex (of_all c))), (Z.leb_spec (topIndex (of_all c)) (ExtractIndex r)),
      (Z.ltb_spec (ExtractIndex r) (topIndex st')); try lia; cbn [andb] in Hf;
      rewrite ?(lookup_union_r _ _ _ Hf), ?(lookup_union_l _ _ _ Hr); done. }
  induction 1 as [st F Hseg Hf|st c c' stacked saved F fs Hseg Hf _ IH|st c c' stacked saved F fs Hseg Hf _ IH]; cbn [all_refs foldr snd];
    [|by eapply Hstep|by eapply Hstep].
  eapply (Hstep st IRT_FIRST_SEGMENT F []); try done. change (all_refs []) with (∅ : gmap Z Z). rewrite lookup_empty. pose proof (index_range r). change (topIndex (of_all IRT_FIRST_SEGMENT)) with 0. by rewrite (proj2 (Z.ltb_ge _ _)) by lia.
Qed.
Lemma stack_bounds st cookie stacked saved fs : stack_rel t st cookie stacked saved fs ->
  0 <= topIndex st <= Z.of_nat (length t) /\ 0 <= numHoles st <= topIndex st.
Proof. intros Hs. apply stack_head in Hs as [Hseg _]. pose proof (seg_numHoles _ _ _ Hseg). destruct Hseg. lia. Qed.
End Stack.

(** ** Lookups *)

Definition found (o : option Z) (r : Z) : cres Z :=
  match o with
  | Some obj => Done obj
  | None => if (r =? 0) || check_jni then Done kInvalidIndirectRefObject else Fault Aborted
  end.
Lemma get_local c a r : rel c a -> Get (locals (env c)) r = found (all_refs (frames a) !! r) r.
Proof.
  intros [Hok Hk Hm Hs _ _]. pose proof (stack_bounds _ _ _ _ _ _ Hs) as [Hb _]. pose proof (ok_length _ Hok).
  rewrite get_spec by (done || lia). rewrite (stack_all _ _ _ _ _ _ r Hs), Hk. done.
Qed.
Lemma get_single kind max t G r : single kind max t G -> Get t r = found (G !! r) r.
Proof.
  intros [Hok Hk Hm Hs Hf]. pose proof (ok_length _ Hok). destruct Hs as [H1 H2 _ _ _]. rewrite get_spec by (done || lia). rewrite Hf, Hk.
  change (topIndex (of_all IRT_FIRST_SEGMENT)) with 0. pose proof (index_range r). rewrite (proj2 (Z.leb_le 0 _)) by lia. done.
Qed.
Lemma entry_of_nonzero kind t r o : entry_of kind t r = Some o -> o <> 0.
Proof. unfold entry_of. case_bool_decide as E; [|done]. intros [= <-]. tauto. Qed.
Lemma local_nonzero c a r o : rel c a -> all_refs (frames a) !! r = Some o -> o <> 0.
Proof. intros Hr. rewrite (stack_all _ _ _ _ _ _ r (rel_stack _ _ Hr)). destruct (_ <? _); [apply entry_of_nonzero|done]. Qed.
Lemma single_nonzero kind max t G r o : single kind max t G -> G !! r = Some o -> o <> 0.
Proof. intros [_ _ _ _ Hf]. rewrite Hf. destruct (_ && _); [apply entry_of_nonzero|done]. Qed.

(** A use that stops the runtime: of a reference that is not valid, unless JNI calls
    are checked, and of a handle of null. *)
Definition bad (hs : handles) (a : refs) (r : Z) : Prop :=
  object_of hs a r = None /\ check_jni = false \/ r <> 0 /\ GetIndirectRefKind r = kHandleScopeOrInvalid /\ hs r = Some 0.

Inductive decodes (hs : handles) (r : Z) (c : jni) (a : refs) : cres Z -> Prop :=
| decodes_done : decodes hs r c a (Done (decoded hs a r))
| decodes_abort : bad hs a r -> decodes hs r c a (Fault Aborted)
| decodes_wait : allow_new_weak_globals_ (vm c) = false -> decodes hs r c a (Fault OutOfFuel).

Lemma decode_weak hs r c a : rel c a -> r <> 0 -> GetIndirectRefKind r = kWeakGlobal ->
  decodes hs r c a (_ ← debug_check (GetIndirectRefKind r =? kWeakGlobal); result ← DecodeWeakGlobal r c;
    if result =? kClearedJniWeakGlobal then Done 0 else if result =? 0 then Fault Aborted else Done result).
Proof.
  intros Hr Hr0 Ew. rewrite Ew, debug_check_true by done. cbn [mbind cres_bind]. unfold DecodeWeakGlobal, wait_weak.
  destruct (allow_new_weak_globals_ (vm c)) eqn:Ea; [|by constructor]. cbn [mbind cres_bind]. rewrite (get_single _ _ _ _ r (rel_weak _ _ Hr)).
  assert (object_of hs a r = (fun o => if o =? kClearedJniWeakGlobal then 0 else o) <$> weak_refs a !! r) as Eo.
  { unfold object_of. rewrite Ew, (proj2 (Z.eqb_neq r 0)) by done. done. }
  destruct (weak_refs a !! r) as [obj|] eqn:Eobj; cbn [found].
  - apply (single_nonzero _ _ _ _ _ _ (rel_weak _ _ Hr)) in Eobj. cbn [mbind cres_bind].
    assert (decoded hs a r = if obj =? kClearedJniWeakGlobal then 0 else obj) as Ed by (unfold decoded; by rewrite Eo).
    destruct (Z.eqb_spec obj kClearedJniWeakGlobal); [rewrite <- Ed; constructor|]. rewrite (proj2 (Z.eqb_neq obj 0)) by done. rewrite <- Ed. constructor.
  - rewrite (proj2 (Z.eqb_neq r 0)) by done. cbn [orb]. destruct check_jni eqn:Ej; cbn; [|constructor; by left].
    replace kInvalidIndirectRefObject with (decoded hs a r) by (unfold decoded; by rewrite Eo). constructor.
Qed.
Lemma decode_ok hs r c a : rel c a -> decodes hs r c a (DecodeJObject hs r c).
Proof.
  intros Hr. unfold DecodeJObject.
  assert (forall o x, object_of hs a r = o -> (forall obj, o = Some obj -> obj <> 0) -> found o r = x -> r <> 0 ->
    decodes hs r c a (result ← x; if result =? 0 then Fault Aborted else Done result)) as Hfound.
  { intros o x Eo Hnz <- Hr0. unfold found. destruct o as [obj|].
    - cbn [mbind cres_bind]. rewrite (proj2 (Z.eqb_neq obj 0)) by auto. replace obj with (decoded hs a r) by (unfold decoded; by rewrite Eo). constructor.
    - rewrite (proj2 (Z.eqb_neq r 0)) by done. cbn [orb]. destruct check_jni eqn:Ej; cbn; [|constructor; by left].
      replace kInvalidIndirectRefObject with (decoded hs a r) by (unfold decoded; by rewrite Eo). constructor. }
  destruct (Z.eqb_spec r 0) as [->|Hr0].
  { change 0 with (decoded hs a 0) at 2. constructor. }
  unfold object_of in Hfound. rewrite (proj2 (Z.eqb_neq r 0)) in Hfound by done.
  destruct (Z.eqb_spec (GetIndirectRefKind r) kLocal) as [Ek|Ek].
  { eapply Hfound; [done| |symmetry; by apply get_local|done]. intros obj. by apply local_nonzero with (c := c). }
  destruct (Z.eqb_spec (GetIndirectRefKind r) kHandleScopeOrInvalid) as [Eh|Eh].
  { assert (object_of hs a r = hs r) as Eo.
    { unfold object_of. rewrite (proj2 (Z.eqb_neq r 0)), (proj2 (Z.eqb_neq _ kLocal)), Eh by done. done. }
    destruct (hs r) as [obj|] eqn:Ehs; cbn.
    - destruct (Z.eqb_spec obj 0) as [->|]; [constructor; by right|]. replace obj with (decoded hs a r) by (unfold decoded; by rewrite Eo). constructor.
    - replace kInvalidIndirectRefObject with (decoded hs a r) by (unfold decoded; by rewrite Eo). constructor. }
  destruct (Z.eqb_spec (GetIndirectRefKind r) kGlobal) as [Eg|Eg].
  { eapply Hfound; [done| |symmetry; eapply get_single, Hr|done]. intros obj. eapply single_nonzero, Hr. }
  apply decode_weak; [done|done|]. pose proof (kind_range r). unfold kLocal, kHandleScopeOrInvalid, kGlobal, kWeakGlobal in *. lia.
Qed.

(** ** The functions keep their promise *)

Definition full (t : IndirectReferenceTable) : Prop := Capacity t = max_entries_ t.

(** When a call stops the runtime. *)
Definition refused (hs : handles) (k : call) (c : jni) (a : refs) : Prop :=
  match k with
  | CAdd _ => full (locals (env c))
  | CNewLocal r => bad hs a r \/ full (locals (env c))
  | CDeleteLocal r => check_jni = false /\ forall g F fs, frames a = (g, F) :: fs -> F !! r = None
  | CPop r => bad hs a r \/ full (SetSegmentState (local_ref_cookie (env c)) (locals (env c)))
  | CNewGlobal r => bad hs a r \/ full (globals (vm c))
  | CDeleteGlobal r => check_jni = false /\ global_refs a !! r = None
  | CNewWeak r => bad hs a r \/ full (weak_globals_ (vm c))
  | CDeleteWeak r => check_jni = false /\ weak_refs a !! r = None
  | _ => False
  end.
Definition meets (m : cres (Z * jni)) (Q : Z -> jni -> Prop) (R W : Prop) : Prop :=
  match m with
  | Done (x, c) => Q x c
  | Fault Aborted => R
  | Fault OutOfFuel => W
  | Fault _ => False
  end.

Lemma rel_set_locals c a g F F' fs t' : rel c a -> frames a = (g, F) :: fs ->
  changed (of_all (local_ref_cookie (env c))) F' (locals (env c)) t' ->
  rel (set_env (set_locals t' (env c)) c) (set_frames ((g, F') :: fs) a).
Proof.
  intros [Hok Hk Hm Hs Hg Hw] Ef [Ct Ck Cm Cs Cf Cb]. rewrite Ef in Hs. split; cbn; try done; try congruence.
  eapply stack_update; try done. by rewrite <- Hk.
Qed.
Lemma add_local obj c a : rel c a ->
  meets (AddLocalReference obj c) (fun r c' => exists a', spec_add obj a r a' /\ rel c' a') (full (locals (env c))) False.
Proof.
  intros Hr. pose proof Hr as [Hok Hk Hm Hs Hg Hw]. unfold AddLocalReference, spec_add. destruct (Z.eqb_spec obj 0) as [->|Ho]; [cbn; eauto|].
  destruct (stack_head _ _ _ _ _ _ Hs) as (Hseg & g & F & fs & Ef & Hf). rewrite <- Hk in Hf.
  unfold env_AddLocalReference. destruct (add_cases (local_ref_cookie (env c)) obj (locals (env c)) F Hok Ho Hseg Hf)
    as [[Hfull ->]|(r & t' & -> & Hch & Hfree & Hr0 & Hkind & Hlow & _)]; [done|].
  cbn. rewrite Ef. eexists. split; [|by eapply rel_set_locals]. split_and!; try done; [congruence|].
  rewrite <- Ef, (stack_all _ _ _ _ _ _ r Hs). rewrite Hf in Hfree. rewrite (proj2 (Z.leb_le _ _)) in Hfree by done. by rewrite <- Hk.
Qed.
Lemma delete_local hs r c a : rel c a -> meets (c ← DeleteLocalRef hs r c; Done (0, c)) (fun x c' => exists a', spec hs (CDeleteLocal r) a x a' /\ rel c' a')
  (refused hs (CDeleteLocal r) c a) False.
Proof.
  intros Hr. pose proof Hr as [Hok Hk Hm Hs Hg Hw]. destruct (stack_head _ _ _ _ _ _ Hs) as (Hseg & g & F & fs & Ef & Hf). rewrite <- Hk in Hf.
  assert (rel c (set_frames ((g, F) :: fs) a)) as Hr' by (unfold set_frames; rewrite <- Ef; by destruct a).
  unfold DeleteLocalRef, spec. rewrite Ef. destruct (Z.eqb_spec r 0) as [->|Hr0].
  - cbn. eexists. split; [done|]. rewrite delete_id; [done|]. rewrite Hf. destruct (entry_of _ _ 0) as [o|] eqn:E; [|by destruct (_ && _)].
    apply entry_of_kind in E; [|done]. rewrite Hk in E. done.
  - destruct (remove_cases (contains hs) (local_ref_cookie (env c)) r (locals (env c)) F Hok Hseg Hf) as [(Hj & Hfree & ->)|(b & t' & -> & Hch & _)].
    + cbn. split; [done|]. intros g' F' fs' E. rewrite Ef in E. by injection E as <- <- <-.
    + cbn. eexists. split; [done|]. by eapply rel_set_locals.
Qed.

Section Single.
Context (kind max : Z) (t : IndirectReferenceTable) (G : gmap Z Z) (Hsg : single kind max t G).

Lemma single_changed G' t' : changed (of_all IRT_FIRST_SEGMENT) G' t t' -> single kind max t' G'.
Proof. destruct Hsg as [K1 K2 K3 K4 K5]. intros []. split; try done; try congruence. by rewrite <- K2. Qed.
Lemma single_add obj : obj <> 0 -> full t /\ Add IRT_FIRST_SEGMENT obj t = Fault Aborted \/
  exists r t', Add IRT_FIRST_SEGMENT obj t = Done (r, t') /\ fresh kind r G /\ single kind max t' (<[r := obj]> G).
Proof.
  intros Ho. pose proof Hsg as [K1 K2 K3 K4 K5]. rewrite <- K2 in K5.
  destruct (add_cases IRT_FIRST_SEGMENT obj t G K1 Ho K4 K5) as [|(r & t' & E & Hch & Hfree & Hr0 & Hk & _)]; [by left|right].
  exists r, t'. unfold fresh. split_and!; try done; [congruence|by apply single_changed].
Qed.
Lemma single_remove hsc r : check_jni = false /\ G !! r = None /\ Remove hsc IRT_FIRST_SEGMENT r t = Fault Aborted \/
  exists b t', Remove hsc IRT_FIRST_SEGMENT r t = Done (b, t') /\ single kind max t' (delete r G).
Proof.
  pose proof Hsg as [K1 K2 K3 K4 K5]. rewrite <- K2 in K5.
  destruct (remove_cases hsc IRT_FIRST_SEGMENT r t G K1 K4 K5) as [|(b & t' & E & Hch & _)]; [by left|right].
  exists b, t'. split; [done|by apply single_changed].
Qed.
Lemma single_null : 0 < kind -> G !! 0 = None.
Proof.
  intros Hk. pose proof Hsg as [K1 K2 K3 K4 K5]. rewrite K5. destruct (entry_of _ _ 0) as [o|] eqn:E; [|by destruct (_ && _)].
  rewrite <- K2 in E. apply entry_of_kind in E; [|done]. rewrite K2 in E. change (GetIndirectRefKind 0) with 0 in E. lia.
Qed.
End Single.

(** Frames. *)
Lemma state_word c a : rel c a -> of_all (GetSegmentState (locals (env c))) = segment_state_ (locals (env c)).
Proof.
  intros [Hok _ _ Hs _ _]. destruct (stack_bounds _ _ _ _ _ _ Hs) as [Hb Hh]. pose proof (ok_length _ Hok). pose proof (ok_max _ Hok).
  apply of_to_all; [unfold in_u; lia|lia].
Qed.
Lemma open_frame c a : rel c a -> let t := table_ (locals (env c)) in let st := of_all (GetSegmentState (locals (env c))) in
  segment t st (segment_state_ (locals (env c))) /\ frame kLocal t st (segment_state_ (locals (env c))) ∅ /\
  stack_rel t st (local_ref_cookie (env c)) (stacked_local_ref_cookies (env c)) (saved_cookies c) (frames a).
Proof.
  intros Hr t st. unfold st. rewrite (state_word c a Hr). destruct (stack_bounds _ _ _ _ _ _ (rel_stack _ _ Hr)) as [Hb Hh].
  split_and!; [by apply seg_empty|apply frame_empty|apply Hr].
Qed.
Lemma push_frame c a : rel c a -> rel (set_env (PushFrame (env c)) c) (set_frames ((Pushed, ∅) :: frames a) a).
Proof. intros Hr. destruct (open_frame c a Hr) as (? & ? & ?). destruct Hr. split; cbn; try done. by constructor. Qed.
Lemma start_frame c a : rel c a -> rel (JniMethodStart c) (set_frames ((Native, ∅) :: frames a) a).
Proof. intros Hr. destruct (open_frame c a Hr) as (? & ? & ?). destruct Hr. split; cbn; try done. by constructor. Qed.
Lemma pop_frame c a F fs : rel c a -> frames a = (Pushed, F) :: fs ->
  exists e, PopFrame (env c) = Done e /\ locals e = SetSegmentState (local_ref_cookie (env c)) (locals (env c)) /\ rel (set_env e c) (set_frames fs a).
Proof.
  intros [Hok Hk Hm Hs Hg Hw] Ef. rewrite Ef in Hs. unfold PopFrame. inversion Hs; subst.
  eexists. split; [done|]. split; [done|]. split; cbn; try done. by destruct Hok.
Qed.
Lemma end_frame c a F fs : rel c a -> frames a = (Native, F) :: fs -> exists c', JniMethodEnd c = Done c' /\ rel c' (set_frames fs a).
Proof.
  intros [Hok Hk Hm Hs Hg Hw] Ef. rewrite Ef in Hs. unfold JniMethodEnd, PopLocalReferences. inversion Hs; subst.
  eexists. split; [done|]. split; cbn; try done. by destruct Hok.
Qed.

(** Collections and released pages. *)
Lemma stack_visit f T t' : (forall obj, skipped obj = false -> f obj <> 0) -> table_ok T -> kind_ T = kLocal -> assigned f 0 T t' ->
  forall st cookie stacked saved fs, stack_rel (table_ T) st cookie stacked saved fs -> topIndex st <= Capacity T ->
  stack_rel (table_ t') st cookie stacked saved (move_frame f <$> fs).
Proof.
  intros Hf HT Hk Ha st cookie stacked saved fs. induction 1 as [st F Hseg HF|st cookie cookie' stacked saved F fs Hseg HF _ IH|st cookie cookie' stacked saved F fs Hseg HF _ IH];
    intros Hcap; pose proof (seg_bounds _ _ _ Hseg); rewrite <- Hk in HF;
    apply (seg_assigned f T t' Hf HT Ha) in Hseg; apply (frame_assigned f T t' Hf Ha _ _ _ Hcap) in HF; rewrite Hk in HF; constructor; auto with lia.
Qed.
Lemma single_visit kind max t G body f : single kind max t G -> (forall obj, skipped obj = false -> body obj = Done (f obj) /\ f obj <> 0) ->
  exists t', iterate body t = Done t' /\ single kind max t' (moved f <$> G).
Proof.
  intros [K1 K2 K3 K4 K5] Hbody. pose proof (ok_length _ K1). pose proof K4 as [B1 B2 _ _ _].
  destruct (iterate_ok body f t) as (t' & -> & Ha); [apply Hbody|done|unfold Capacity; lia|]. exists t'. split; [done|].
  assert (forall obj, skipped obj = false -> f obj <> 0) as Hnz by apply Hbody.
  rewrite <- K2 in K5. apply (frame_assigned f t t' Hnz Ha) in K5; [|unfold Capacity; lia]. apply (seg_assigned f t t' Hnz K1 Ha) in K4.
  destruct (asg_rest _ _ _ _ Ha) as (Es & Ek & Em). rewrite K2 in K5. split; [apply Ha|congruence|congruence|by rewrite Es|by rewrite Es].
Qed.
Lemma visit_body callback : (forall obj, skipped obj = false -> callback obj <> 0) -> forall obj, skipped obj = false ->
  visit_root callback obj = Done (callback obj) /\ callback obj <> 0.
Proof. intros Hc obj Ho. pose proof (Hc obj Ho). unfold visit_root. by rewrite debug_check_true by (by apply negb_true_iff, Z.eqb_neq). Qed.
Lemma visit_ok callback c a : rel c a -> (forall obj, skipped obj = false -> callback obj <> 0) ->
  exists c', visit_references callback c = Done c' /\ rel c' (mkRefs (move_frame callback <$> frames a) (moved callback <$> global_refs a) (weak_refs a)).
Proof.
  intros [Hok Hk Hm Hs Hg Hw] Hc. pose proof (visit_body callback Hc) as Hb. destruct (stack_bounds _ _ _ _ _ _ Hs) as [B1 _]. pose proof (ok_length _ Hok).
  unfold visit_references, VisitRoots. destruct (iterate_ok _ callback (locals (env c)) (fun obj Ho => proj1 (Hb obj Ho)) Hok) as (t & -> & Ha); [unfold Capacity; lia|].
  cbn [mbind cres_bind]. destruct (single_visit _ _ _ _ _ callback Hg Hb) as (g & -> & Hg'). cbn [mbind cres_bind].
  eexists. split; [done|]. destruct (asg_rest _ _ _ _ Ha) as (Es & Ek & Em).
  split; cbn; [apply Ha|congruence|congruence| |done|done]. rewrite Es. eapply stack_visit; done.
Qed.
Lemma trim_single kind max t G : single kind max t G -> single kind max (Trim t) G.
Proof.
  intros [K1 K2 K3 K4 K5]. pose proof K4 as [B1 _ _ _ _]. assert (agree (table_ t) (table_ (Trim t)) (Capacity t)) by (apply trim_agree; unfold Capacity; lia).
  split; cbn [kind_ max_entries_ segment_state_ Trim]; try done; [by apply trim_ok|by eapply seg_agree|by eapply frame_agree].
Qed.
Lemma trim_references_ok c a : rel c a -> rel (trim_references c) a.
Proof.
  intros [Hok Hk Hm Hs Hg Hw]. destruct (stack_bounds _ _ _ _ _ _ Hs) as [B1 _]. split; cbn; try done; [by apply trim_ok| |by apply trim_single].
  eapply stack_agree, Hs. apply trim_agree. unfold Capacity. lia.
Qed.

Lemma meets_mono m Q (Q' : Z -> jni -> Prop) R (R' : Prop) W (W' : Prop) :
  meets m Q R W -> (forall x c, Q x c -> Q' x c) -> (R -> R') -> (W -> W') -> meets m Q' R' W'.
Proof. destruct m as [[x c]|[]]; cbn; auto. Qed.
(** A function that decodes a reference first. *)
Lemma meets_decode hs r c a (k : Z -> cres (Z * jni)) Q (R : Prop) : rel c a ->
  meets (k (decoded hs a r)) Q R (allow_new_weak_globals_ (vm c) = false) ->
  meets (obj ← DecodeJObject hs r c; k obj) Q (bad hs a r \/ R) (allow_new_weak_globals_ (vm c) = false).
Proof. intros Hr Hk. destruct (decode_ok hs r c a Hr); cbn; auto. eapply meets_mono; eauto. Qed.

Lemma new_global_ok hs r c a : rel c a ->
  meets (NewGlobalRef hs r c) (fun x c' => exists a', spec hs (CNewGlobal r) a x a' /\ rel c' a') (refused hs (CNewGlobal r) c a) (allow_new_weak_globals_ (vm c) = false).
Proof.
  intros Hr. apply (meets_decode hs r c a); [done|]. unfold spec. destruct (Z.eqb_spec (decoded hs a r) 0) as [E|E]; [cbn; eauto|].
  destruct (single_add _ _ _ _ (rel_globals _ _ Hr) _ E) as [[Hfull ->]|(x & t' & -> & Hx & Hs)]; cbn; [done|].
  eexists. split; [done|]. destruct Hr. by split.
Qed.
Lemma new_weak_ok hs r c a : rel c a ->
  meets (NewWeakGlobalRef hs r c) (fun x c' => exists a', spec hs (CNewWeak r) a x a' /\ rel c' a') (refused hs (CNewWeak r) c a) (allow_new_weak_globals_ (vm c) = false).
Proof.
  intros Hr. apply (meets_decode hs r c a); [done|]. unfold spec, AddWeakGlobalReference, wait_weak. destruct (Z.eqb_spec (decoded hs a r) 0) as [E|E]; [cbn; eauto|].
  destruct (allow_new_weak_globals_ (vm c)); [|done]. cbn [mbind cres_bind].
  destruct (single_add _ _ _ _ (rel_weak _ _ Hr) _ E) as [[Hfull ->]|(x & t' & -> & Hx & Hs)]; cbn; [done|].
  eexists. split; [done|]. destruct Hr. by split.
Qed.
Lemma delete_global_ok hs r c a W : rel c a ->
  meets (c ← DeleteGlobalRef hs r c; Done (0, c)) (fun x c' => exists a', spec hs (CDeleteGlobal r) a x a' /\ rel c' a') (refused hs (CDeleteGlobal r) c a) W.
Proof.
  intros Hr. unfold DeleteGlobalRef, spec. destruct (Z.eqb_spec r 0) as [->|Hr0]; cbn.
  - eexists. split; [done|]. rewrite delete_id by (eapply single_null; [apply Hr|done]). by destruct a.
  - destruct (single_remove _ _ _ _ (rel_globals _ _ Hr) (contains hs) r) as [(? & ? & ->)|(b & t' & -> & Hs)]; cbn; [done|].
    eexists. split; [done|]. destruct Hr. by split.
Qed.
Lemma delete_weak_ok hs r c a W : rel c a ->
  meets (c ← DeleteWeakGlobalRef hs r c; Done (0, c)) (fun x c' => exists a', spec hs (CDeleteWeak r) a x a' /\ rel c' a') (refused hs (CDeleteWeak r) c a) W.
Proof.
  intros Hr. unfold DeleteWeakGlobalRef, spec. destruct (Z.eqb_spec r 0) as [->|Hr0]; cbn.
  - eexists. split; [done|]. rewrite delete_id by (eapply single_null; [apply Hr|done]). by destruct a.
  - destruct (single_remove _ _ _ _ (rel_weak _ _ Hr) (contains hs) r) as [(? & ? & ->)|(b & t' & -> & Hs)]; cbn; [done|].
    eexists. split; [done|]. destruct Hr. by split.
Qed.
Lemma sweep_ok callback c a : rel c a ->
  exists c', SweepJniWeakGlobals callback c = Done c' /\ rel c' (mkRefs (frames a) (global_refs a) (moved (swept callback) <$> weak_refs a)).
Proof.
  intros Hr. unfold SweepJniWeakGlobals. destruct (single_visit _ _ _ _ (fun obj => Done (swept callback obj)) (swept callback) (rel_weak _ _ Hr)) as (t & E & Hs).
  { intros obj _. split; [done|]. unfold swept. by destruct (Z.eqb_spec (callback obj) 0). }
  change (iterate _ (weak_globals_ (vm c))) with (iterate (fun obj => Done (swept callback obj)) (weak_globals_ (vm c))). rewrite E. cbn. eexists. split; [done|]. destruct Hr. by split.
Qed.
Lemma pop_ok hs r c a F fs : rel c a -> frames a = (Pushed, F) :: fs ->
  meets (PopLocalFrame hs r c) (fun x c' => exists a', spec hs (CPop r) a x a' /\ rel c' a') (refused hs (CPop r) c a) (allow_new_weak_globals_ (vm c) = false).
Proof.
  intros Hr Ef. apply (meets_decode hs r c a); [done|]. unfold spec. rewrite Ef. destruct (pop_frame c a F fs Hr Ef) as (e & -> & El & Hr'). cbn [mbind cres_bind].
  eapply meets_mono; [by eapply add_local|done| |done]. cbn. by rewrite El.
Qed.

(** One call. *)
Lemma call_ok hs k c a : rel c a -> allowed k a ->
  meets (exec hs k c) (fun x c' => exists a', spec hs k a x a' /\ rel c' a') (refused hs k c a) (allow_new_weak_globals_ (vm c) = false).
Proof.
  intros Hr Ha. destruct k as [obj|obj|obj|capacity|survivor|obj|obj|obj|obj| | |callback|callback| |allow]; cbn [exec].
  - eapply meets_mono; [by apply add_local|done|done|done].
  - apply (meets_decode hs obj c a); [done|]. unfold spec. destruct (decoded hs a obj =? 0) eqn:E; [cbn; unfold spec_add; rewrite E; eauto|].
    eapply meets_mono; [by apply add_local|done|done|done].
  - eapply meets_mono; [by apply delete_local|done|done|done].
  - cbn. unfold PushLocalFrame. destruct (negb _); eexists; (split; [eauto|]); [done|by apply push_frame].
  - unfold allowed in Ha. destruct (frames a) as [|[[] F] fs] eqn:Ef; try done. by eapply pop_ok.
  - by apply new_global_ok.
  - by apply delete_global_ok.
  - by apply new_weak_ok.
  - by apply delete_weak_ok.
  - cbn. eexists. split; [done|]. by apply start_frame.
  - unfold allowed in Ha. destruct (frames a) as [|[[] F] fs] eqn:Ef; try done. destruct (end_frame c a F fs Hr Ef) as (c' & -> & Hc').
    cbn. unfold spec. rewrite Ef. eauto.
  - destruct (visit_ok callback c a Hr) as (c' & -> & Hc'); [exact Ha|]. cbn. eauto.
  - destruct (sweep_ok callback c a Hr) as (c' & -> & Hc'). cbn. eauto.
  - cbn. eexists. split; [done|]. by apply trim_references_ok.
  - cbn. eexists. split; [done|]. destruct Hr, allow; by split.
Qed.

(** ** Runs *)

(** Calls with their answers. *)
Definition trace := list (handles * call * Z).
Fixpoint runs (tr : trace) (c : jni) : option jni :=
  match tr with
  | [] => Some c
  | (hs, k, x) :: tr => match exec hs k c with Done (y, c) => if y =? x then runs tr c else None | Fault _ => None end
  end.
Inductive spec_runs : refs -> trace -> refs -> Prop :=
| spec_done a : spec_runs a [] a
| spec_next hs k x tr a a1 a2 : spec hs k a x a1 -> spec_runs a1 tr a2 -> spec_runs a ((hs, k, x) :: tr) a2.

(** The frames that are open, of those that a trace opens and of [tags]. *)
Definition next_tags (k : call) (x : Z) (tags : list ftag) : option (list ftag) :=
  match k, tags with
  | CPush _, _ => Some (if x =? JNI_OK then Pushed :: tags else tags)
  | CStart, _ => Some (Native :: tags)
  | CPop _, Pushed :: tags | CEnd, Native :: tags => Some tags
  | CPop _, _ | CEnd, _ => None
  | _, _ => Some tags
  end.
Fixpoint tags_after (tr : trace) (tags : list ftag) : option (list ftag) :=
  match tr with [] => Some tags | (_, k, x) :: tr => tags ← next_tags k x tags; tags_after tr tags end.
(** Objects do not move to the null address. *)
Definition visits_objects (k : call) : Prop := if k is CVisit callback then forall obj, skipped obj = false -> callback obj <> 0 else True.
Definition nested (tr : trace) (tags : list ftag) : Prop := is_Some (tags_after tr tags) /\ Forall (fun e => visits_objects e.1.2) tr.
Definition tags_of (a : refs) : list ftag := (frames a).*1.

Lemma allowed_next k x a : is_Some (next_tags k x (tags_of a)) -> visits_objects k -> allowed k a.
Proof. unfold allowed, next_tags, tags_of. intros [tg E] Hv. destruct k; try done; destruct (frames a) as [|[[] F] fs]; done. Qed.
Lemma spec_add_tags obj a r a' : spec_add obj a r a' -> tags_of a' = tags_of a.
Proof. unfold spec_add, tags_of. destruct (_ =? _); [by intros [_ ->]|]. destruct (frames a) as [|[g F] fs]; [done|]. by intros (_ & _ & _ & ->). Qed.
Lemma spec_tags hs k a x a' tg : spec hs k a x a' -> next_tags k x (tags_of a) = Some tg -> tags_of a' = tg.
Proof.
  unfold spec, next_tags. intros Hs Ht. destruct k; cbn in Hs, Ht; try (injection Ht as <-).
  - by eapply spec_add_tags.
  - by eapply spec_add_tags.
  - unfold tags_of. destruct (frames a) as [|[g F] fs] eqn:Ef; [done|]. by subst.
  - destruct (frames a) eqn:Ef; destruct Hs as [[-> ->]|[-> ->]]; cbn; unfold tags_of; cbn; by rewrite ?Ef.
  - unfold tags_of in Ht. destruct (frames a) as [|[[] F] fs] eqn:Ef; try done. injection Ht as <-. by apply spec_add_tags in Hs.
  - destruct (_ =? _); [by destruct Hs as [_ ->]|by destruct Hs as [_ ->]].
  - by subst.
  - destruct (_ =? _); [by destruct Hs as [_ ->]|by destruct Hs as [_ ->]].
  - by subst.
  - destruct (frames a) eqn:Ef; subst; unfold tags_of; cbn; by rewrite ?Ef.
  - unfold tags_of in Ht. destruct (frames a) as [|[[] F] fs] eqn:Ef; try done. injection Ht as <-. by subst.
  - unfold tags_of. destruct (frames a) eqn:Ef; subst; cbn; [done|]. f_equal. by rewrite <- list_fmap_compose.
  - by subst.
  - by destruct (frames a); subst.
  - by destruct (frames a); subst.
Qed.

Lemma runs_ok tr : forall c a c', rel c a -> runs tr c = Some c' -> nested tr (tags_of a) ->
  exists a', spec_runs a tr a' /\ rel c' a' /\ tags_after tr (tags_of a) = Some (tags_of a').
Proof.
  induction tr as [|[[hs k] x] tr IH]; intros c a c' Hr E Hn; cbn [runs] in E; unfold nested in Hn; cbn [tags_after] in *.
  - injection E as <-. exists a. by split_and!; [constructor| |].
  - destruct Hn as [[tg Htg] Hv]. apply Forall_cons in Hv as [Hv Hvs]. destruct (next_tags k x (tags_of a)) as [tg1|] eqn:Et; [|done]. cbn [mbind option_bind] in *.
    pose proof (call_ok hs k c a Hr (allowed_next k x a (ex_intro _ _ Et) Hv)) as Hm. destruct (exec hs k c) as [[y c1]|]; [|done]. cbn in Hm.
    destruct (Z.eqb_spec y x) as [->|]; [|done]. destruct Hm as (a1 & Hs & Hr1). pose proof (spec_tags _ _ _ _ _ _ Hs Et) as Et1. subst tg1.
    destruct (IH c1 a1 c' Hr1 E) as (a' & Hs' & Hr' & Ht'); [split; [by exists tg|done]|]. exists a'. split_and!; [by econstructor|done|]. exact Ht'.
Qed.
Lemma new_jni_ok : exists c, new_jni = Done c /\ rel c first_refs.
Proof.
  unfold new_jni. destruct (new_table_ok kLocalsInitial kLocalsMax kLocal) as (l & -> & Hl & Sl & Kl & Ml); [done|done|done|].
  destruct (new_table_ok gGlobalsInitial gGlobalsMax kGlobal) as (g & -> & Hg & Sg & Kg & Mg); [done|done|done|].
  destruct (new_table_ok kWeakGlobalsInitial kWeakGlobalsMax kWeakGlobal) as (w & -> & Hw & Sw & Kw & Mw); [done|done|done|].
  cbn. eexists. split; [done|]. assert (forall t, segment t (of_all IRT_FIRST_SEGMENT) (mkState 0 0)) as Hseg by (intros t; apply seg_empty; cbn; lia).
  split; cbn; try done; [|split; try done; rewrite ?Sg; [done|apply (frame_empty _ _ (mkState 0 0))]|split; try done; rewrite ?Sw; [done|apply (frame_empty _ _ (mkState 0 0))]].
  rewrite Sl. constructor; [done|]. apply (frame_empty _ _ (mkState 0 0)).
Qed.
End Functions.

(** ** References and objects *)

(** C9: the references of JNI are what their specification says. After any run from
    the start of a thread in which frames are closed in order and objects are not
    moved to null, with the calls of native methods, collections and released
    pages in it, there is a stack of finite maps and two maps of global
    references that the answers of all the calls agree with; every reference
    decodes to the object that the maps have for it, and a reference that they do not
    have stops the runtime or decodes to the invalid object; and the next call
    returns an answer that the specification allows, or stops for one of the reasons
    that it states (a table that is full, a reference that is not valid). *)
Theorem jni_references_refine `{JniConfig} c0 tr c : new_jni = Done c0 -> runs tr c0 = Some c -> nested tr [Bottom] ->
  exists a, spec_runs first_refs tr a /\ tags_after tr [Bottom] = Some (tags_of a) /\
    (forall hs r, decodes hs r c a (DecodeJObject hs r c)) /\
    forall hs k, allowed k a ->
      meets (exec hs k c) (fun x c' => exists a', spec hs k a x a' /\ rel c' a') (refused hs k c a) (allow_new_weak_globals_ (vm c) = false).
Proof.
  intros E0 Er Hn. destruct new_jni_ok as (c0' & E0' & Hr0). rewrite E0 in E0'. injection E0' as <-.
  destruct (runs_ok tr c0 first_refs c Hr0 Er Hn) as (a & Hs & Hr & Ht). exists a.
  split_and!; [done|done|intros hs r; by apply decode_ok|intros hs k Hk; by apply call_ok].
Qed.

(** Where a call, and a run, leave an object: only collections move objects. *)
Definition relocated (k : call) (obj : Z) : Z := if k is CVisit callback then moved callback obj else obj.
Fixpoint relocates (tr : trace) (obj : Z) : Z := match tr with [] => obj | (_, k, _) :: tr => relocates tr (relocated k obj) end.
Definition shift (f : Z -> Z) (F : ftag * gmap Z Z) : ftag * gmap Z Z := (F.1, f <$> F.2).

(** Frames below the innermost ones stay as they are, but for objects that move. *)
Section Balanced.
Context `{JniConfig}.

Lemma shift_id f (fs : list (ftag * gmap Z Z)) : (forall obj, f obj = obj) -> shift f <$> fs = fs.
Proof.
  intros Hf. rewrite <- (list_fmap_id fs) at 2. apply list_fmap_ext. intros _ [g F] _. unfold shift. cbn. f_equal.
  rewrite <- (map_fmap_id F) at 2. apply map_fmap_ext. intros r obj _. apply Hf.
Qed.
Lemma shift_compose f f' (fs : list (ftag * gmap Z Z)) : shift f' <$> (shift f <$> fs) = shift (fun obj => f' (f obj)) <$> fs.
Proof. rewrite <- list_fmap_compose. apply list_fmap_ext. intros _ [g F] _. unfold shift. cbn. by rewrite <- map_fmap_compose. Qed.
Lemma all_refs_shift f (fs : list (ftag * gmap Z Z)) r : all_refs (shift f <$> fs) !! r = f <$> all_refs fs !! r.
Proof.
  induction fs as [|[g F] fs IH]; cbn; [by rewrite !lookup_empty|]. change (foldr _ _ (shift f <$> fs)) with (all_refs (shift f <$> fs)).
  change (foldr _ _ fs) with (all_refs fs). rewrite !lookup_union, IH, lookup_fmap. destruct (F !! r), (all_refs fs !! r); done.
Qed.

Lemma spec_add_top obj a r a' ins g F fs : spec_add obj a r a' -> frames a = ins ++ (g, F) :: fs ->
  exists ins' F', frames a' = ins' ++ (g, F') :: fs /\ ins'.*1 = ins.*1.
Proof.
  unfold spec_add. intros Hs Ef. destruct (_ =? _); [destruct Hs as [_ ->]; eauto|]. rewrite Ef in Hs.
  destruct ins as [|[g1 F1] ins]; cbn in Hs; destruct Hs as (_ & _ & _ & ->); [by exists [], (<[r := obj]> F)|by exists ((g1, <[r := obj]> F1) :: ins), F].
Qed.
Lemma spec_top hs k a x a' ins g F fs tg : spec hs k a x a' -> frames a = ins ++ (g, F) :: fs -> next_tags k x ins.*1 = Some tg ->
  exists ins' F', frames a' = ins' ++ (g, F') :: (shift (relocated k) <$> fs) /\ ins'.*1 = tg.
Proof.
  unfold spec, next_tags. intros Hs Ef Ht. destruct k as [| | | | | | | | | | |callback| | |]; cbn [relocated]; try (rewrite shift_id by done); cbn in Hs, Ht; try (injection Ht as <-).
  - by eapply spec_add_top.
  - by eapply spec_add_top.
  - rewrite Ef in Hs. destruct ins as [|[g1 F1] ins]; cbn in Hs; subst a'; [by exists [], (delete obj F)|by exists ((g1, delete obj F1) :: ins), F].
  - assert (x = JNI_ERR /\ a' = a \/ x = JNI_OK /\ a' = set_frames ((Pushed, ∅) :: frames a) a) as [[-> ->]|[-> ->]] by (by destruct (frames a));
      [by exists ins, F|exists ((Pushed, ∅) :: ins), F; cbn; by rewrite Ef].
  - rewrite Ef in Hs. destruct ins as [|[[] F1] ins]; try done. cbn in Hs, Ht. injection Ht as <-. by eapply spec_add_top.
  - destruct (_ =? _); destruct Hs as [_ ->]; by exists ins, F.
  - subst a'. by exists ins, F.
  - destruct (_ =? _); destruct Hs as [_ ->]; by exists ins, F.
  - subst a'. by exists ins, F.
  - assert (a' = set_frames ((Native, ∅) :: frames a) a) as -> by (by destruct (frames a)). exists ((Native, ∅) :: ins), F. cbn. by rewrite Ef.
  - rewrite Ef in Hs. destruct ins as [|[[] F1] ins]; try done. cbn in Hs, Ht. injection Ht as <-. subst a'. by exists ins, F.
  - assert (frames a' = move_frame callback <$> frames a) as -> by (destruct (frames a); by subst a'). rewrite Ef, fmap_app, fmap_cons.
    exists (move_frame callback <$> ins), (moved callback <$> F). split; [done|]. by rewrite <- list_fmap_compose.
  - subst a'. by exists ins, F.
  - destruct (frames a) eqn:E; subst a'; rewrite E in *; by exists ins, F.
  - destruct (frames a) eqn:E; subst a'; rewrite E in *; by exists ins, F.
Qed.
Lemma spec_runs_top tr a a' : spec_runs a tr a' -> forall ins g F fs tg,
  frames a = ins ++ (g, F) :: fs -> tags_after tr ins.*1 = Some tg -> exists ins' F', frames a' = ins' ++ (g, F') :: (shift (relocates tr) <$> fs) /\ ins'.*1 = tg.
Proof.
  induction 1 as [a|hs k x tr a a1 a2 Hs _ IH]; intros ins g F fs tg Ef Ht.
  - injection Ht as <-. exists ins, F. by rewrite shift_id.
  - cbn [tags_after] in Ht. destruct (next_tags k x ins.*1) as [tg1|] eqn:Et; [|done].
    destruct (spec_top _ _ _ _ _ _ _ _ _ _ Hs Ef Et) as (ins' & F' & Ef' & <-). destruct (IH ins' g F' _ tg Ef' Ht) as (ins2 & F2 & E2 & Ht2).
    exists ins2, F2. by rewrite shift_compose in E2.
Qed.

Lemma next_tags_frame k x tg tg' base : next_tags k x tg = Some tg' -> next_tags k x (tg ++ base) = Some (tg' ++ base).
Proof.
  unfold next_tags. intros E. destruct k; try (injection E as <-; by destruct (x =? JNI_OK)); destruct tg as [|[] tg]; try done; by injection E as <-.
Qed.
Lemma tags_after_frame tr : forall tg tg' base, tags_after tr tg = Some tg' -> tags_after tr (tg ++ base) = Some (tg' ++ base).
Proof.
  induction tr as [|[[hs k] x] tr IH]; intros tg tg' base E; cbn [tags_after] in *; [by injection E as <-|].
  destruct (next_tags k x tg) as [tg1|] eqn:Et; [|done]. rewrite (next_tags_frame _ _ _ _ _ Et). by apply IH.
Qed.
Lemma runs_app tr tr' c c' : runs (tr ++ tr') c = Some c' -> exists c1, runs tr c = Some c1 /\ runs tr' c1 = Some c'.
Proof.
  revert c. induction tr as [|[[hs k] x] tr IH]; intros c E; [by exists c|]. cbn [app runs] in *.
  destruct (exec hs k c) as [[y c1]|]; [|done]. destruct (y =? x); [by apply IH|done].
Qed.

(** Calls in a new frame, that close the frames they open. *)
Definition opens (k : call) (x : Z) (tag : ftag) : Prop :=
  match k, tag with CStart, Native => True | CPush _, Pushed => x = JNI_OK | _, _ => False end.
Lemma opened_run hs k x tag tr c a c1 : rel c a -> opens k x tag -> tags_after tr [] = Some [] -> Forall (fun e => visits_objects e.1.2) tr ->
  runs ((hs, k, x) :: tr) c = Some c1 -> exists a1 F, rel c1 a1 /\ frames a1 = (tag, F) :: (shift (relocates tr) <$> frames a).
Proof.
  intros Hr Ho Ht Hv E. assert (next_tags k x (tags_of a) = Some (tag :: tags_of a) /\ visits_objects k) as [Hk Hvk].
  { destruct k, tag; try done; cbn in Ho |- *; by rewrite ?Ho. }
  destruct (runs_ok ((hs, k, x) :: tr) c a c1 Hr E) as (a1 & Hs & Hr1 & _).
  { split; [|by constructor]. cbn [tags_after]. rewrite Hk. cbn. eexists. by apply (tags_after_frame tr [] [] (tag :: tags_of a)). }
  inversion Hs as [|? ? ? ? ? a0 ? Hopen Hrest]; subst. assert (frames a0 = [] ++ (tag, ∅) :: frames a) as Ef.
  { unfold spec in Hopen. destruct k, tag; try done; cbn in Ho; [|by destruct (frames a); subst a0].
    subst x. destruct (frames a); by destruct Hopen as [[? ?]|[_ ->]]. }
  destruct (spec_runs_top tr a0 a1 Hrest [] tag ∅ (frames a) []) as (ins & F & E1 & Ei); [done|done|]. destruct ins; [|done]. by exists a1, F.
Qed.
(** The end of a native method leaves the references below the innermost frame. *)
Lemma end_below c a tag F fs c' : rel c a -> frames a = (tag, F) :: fs -> tag <> Bottom -> JniMethodEnd c = Done c' ->
  forall r, Get (locals (env c')) r = found (all_refs fs !! r) r.
Proof.
  intros [Hok Hk Hm Hs _ _] Ef Hb E r. unfold JniMethodEnd, PopLocalReferences in E. destruct (saved_cookies c) as [|cookie cookies]; [done|]. injection E as <-.
  assert (exists ck stacked saved, stack_rel (table_ (locals (env c))) (of_all (local_ref_cookie (env c))) ck stacked saved fs) as (ck & stacked & saved & Hbelow).
  { rewrite Ef in Hs. inversion Hs; subst; try congruence; eauto. }
  pose proof (stack_bounds _ _ _ _ _ _ Hbelow) as [Hbd _]. pose proof (ok_length _ Hok) as Hlen. cbn [env locals].
  rewrite get_spec; [|by destruct Hok|change (topIndex (of_all (local_ref_cookie (env c))) <= max_entries_ (locals (env c))); rewrite <- Hlen; apply Hbd]. rewrite (stack_all _ _ _ _ _ _ r Hbelow), <- Hk. done.
Qed.
Lemma end_step hs x c c' : runs [(hs, CEnd, x)] c = Some c' -> JniMethodEnd c = Done c'.
Proof. unfold runs, exec. destruct (JniMethodEnd c) as [c1|]; intros E; cbn in E; [|done]. destruct x; by simplify_eq. Qed.
End Balanced.

(** C27: a call of a native method gives the local references of its caller back as
    they were. Whatever the method does between its start and its end, references
    made and deleted, frames pushed and popped, other native methods called, and
    collections, as long as it pops the frames that it pushes and no object is moved to
    null, afterwards exactly the references that were valid before are valid,
    with the same objects, where the collections have moved them. *)
Theorem native_call_restores_locals `{JniConfig} c0 tr0 c1 hs hs' tr c2 :
  new_jni = Done c0 -> runs tr0 c0 = Some c1 -> nested tr0 [Bottom] ->
  runs ((hs, CStart, 0) :: tr ++ [(hs', CEnd, 0)]) c1 = Some c2 -> tags_after tr [] = Some [] -> Forall (fun e => visits_objects e.1.2) tr ->
  exists valid : gmap Z Z, forall r, Get (locals (env c1)) r = found (valid !! r) r /\ Get (locals (env c2)) r = found (relocates tr <$> valid !! r) r.
Proof.
  intros E0 E1 Hn E2 Ht Hv. destruct new_jni_ok as (c0' & E0' & Hr0). rewrite E0 in E0'. injection E0' as <-.
  destruct (runs_ok tr0 c0 first_refs c1 Hr0 E1 Hn) as (a & _ & Hr & _). apply (runs_app ((hs, CStart, 0) :: tr)) in E2 as (c & E & Eend).
  destruct (opened_run hs CStart 0 Native tr c1 a c Hr I Ht Hv E) as (a1 & F & Hr1 & Ef). exists (all_refs (frames a)). intros r.
  split; [by apply get_local|]. rewrite <- all_refs_shift. by eapply end_below; [exact Hr1|exact Ef|done|eapply end_step].
Qed.

(** ** Room for local references *)

Section Capacity.
Context `{JniConfig}.

Fixpoint add_all (objs : list Z) (c : jni) : cres (list Z * jni) :=
  match objs with
  | [] => Done ([], c)
  | obj :: objs => '(r, c) ← AddLocalReference obj c; '(rs, c) ← add_all objs c; Done (r :: rs, c)
  end.

Lemma add_capacity obj c a r c' : rel c a -> AddLocalReference obj c = Done (r, c') -> Capacity (locals (env c')) <= Capacity (locals (env c)) + 1.
Proof.
  intros [Hok Hk Hm Hs Hg Hw]. unfold AddLocalReference, env_AddLocalReference. destruct (Z.eqb_spec obj 0) as [->|Ho]; [intros [= <- <-]; lia|].
  destruct (stack_head _ _ _ _ _ _ Hs) as (Hseg & g & F & fs & Ef & Hf). rewrite <- Hk in Hf.
  destruct (add_cases (local_ref_cookie (env c)) obj (locals (env c)) F Hok Ho Hseg Hf) as [[Hfull ->]|(x & t' & -> & _ & _ & _ & _ & _ & Hcap)]; [done|].
  cbn. intros [= <- <-]. cbn. lia.
Qed.
Lemma spec_add_all obj a r a' : obj <> 0 -> spec_add obj a r a' ->
  all_refs (frames a) !! r = None /\ all_refs (frames a') = <[r := obj]> (all_refs (frames a)) /\ r <> 0 /\ GetIndirectRefKind r = kLocal.
Proof.
  intros Ho. unfold spec_add. rewrite (proj2 (Z.eqb_neq obj 0)) by done. destruct (frames a) as [|[g F] fs]; [done|].
  intros (? & ? & ? & ->). split_and!; try done. cbn. by rewrite insert_union_l.
Qed.
Definition refers (a a2 : refs) (r obj : Z) : Prop :=
  all_refs (frames a2) !! r = Some obj /\ all_refs (frames a) !! r = None /\ r <> 0 /\ GetIndirectRefKind r = kLocal.
Lemma add_all_ok objs : Forall (fun obj => obj <> 0) objs -> forall c a, rel c a -> Capacity (locals (env c)) + Z.of_nat (length objs) <= kLocalsMax ->
  exists rs c2 a2, add_all objs c = Done (rs, c2) /\ rel c2 a2 /\ all_refs (frames a) ⊆ all_refs (frames a2) /\ Forall2 (refers a a2) rs objs /\ NoDup rs.
Proof.
  induction 1 as [|obj objs Ho _ IH]; intros c a Hr Hcap; cbn [add_all length] in *.
  - exists [], c, a. split_and!; try done; constructor.
  - pose proof (add_local obj c a Hr) as Hm. pose proof (add_capacity obj c a) as Hc. destruct (AddLocalReference obj c) as [[r c1]|f]; cbn in Hm.
    2:{ destruct f; try done. unfold full in Hm. rewrite (rel_max _ _ Hr) in Hm. lia. }
    destruct Hm as (a1 & Hs & Hr1). specialize (Hc r c1 Hr eq_refl). destruct (spec_add_all _ _ _ _ Ho Hs) as (Hfree & Hall & Hr0 & Hk).
    destruct (IH c1 a1 Hr1) as (rs & c2 & a2 & E & Hr2 & Hsub & Hf & Hnd); [lia|]. rewrite Hall in Hsub. cbn. rewrite E. cbn. exists (r :: rs), c2, a2.
    assert (Forall (fun x => all_refs (frames a) !! x = None /\ x <> r) rs) as Hrs.
    { apply Forall_lookup_2. intros i x Ex. destruct (Forall2_lookup_l _ _ _ _ _ Hf Ex) as (y & _ & _ & Hn & _). rewrite Hall in Hn.
      destruct (decide (x = r)) as [->|Hne]; [by rewrite lookup_insert_eq in Hn|]. by rewrite lookup_insert_ne in Hn. }
    split_and!; try done.
    + etrans; [|exact Hsub]. by apply insert_subseteq.
    + constructor.
      * split_and!; try done. eapply lookup_weaken; [|exact Hsub]. apply lookup_insert_eq.
      * apply Forall2_same_length_lookup. split; [by eapply Forall2_length|]. intros i x y Ex Ey.
        destruct (Forall2_lookup_lr _ _ _ _ _ _ Hf Ex Ey) as (K1 & _ & K2 & K3). destruct (Forall_lookup_1 _ _ _ _ Hrs Ex). by split_and!.
    + constructor; [|done]. intros Hin. apply list_elem_of_lookup in Hin as [i Ei]. by destruct (Forall_lookup_1 _ _ _ _ Hrs Ei).
Qed.
Lemma push_room n c a c1 : rel c a -> PushLocalFrame n c = (JNI_OK, c1) ->
  rel c1 (set_frames ((Pushed, ∅) :: frames a) a) /\ Capacity (locals (env c1)) + n <= kLocalsMax.
Proof.
  intros Hr. destruct (stack_bounds _ _ _ _ _ _ (rel_stack _ _ Hr)) as [Hb _]. pose proof (ok_length _ (rel_ok _ _ Hr)). pose proof (rel_max _ _ Hr).
  unfold PushLocalFrame, EnsureLocalCapacity. destruct (_ || _); [done|]. unfold Capacity, kLocalsMax in *.
  destruct (Z.leb_spec n (s32 (u32 (512 - topIndex (segment_state_ (locals (env c))))))) as [Hle|]; [|done]. intros [= <-].
  rewrite uwrap_small in Hle by (unfold in_u; lia). rewrite swrap_small in Hle by (lia || (unfold in_s; lia)).
  split; [by apply push_frame|]. cbn. lia.
Qed.
End Capacity.

(** C28: PushLocalFrame keeps its word. When it answers that there is room for [n]
    references, the next [n] local references can be made, whatever the objects;
    they are different from one another, and each decodes to its object. *)
Theorem local_capacity_promise `{JniConfig} c0 tr c n c1 objs : new_jni = Done c0 -> runs tr c0 = Some c -> nested tr [Bottom] ->
  PushLocalFrame n c = (JNI_OK, c1) -> Z.of_nat (length objs) <= n -> Forall (fun obj => obj <> 0) objs ->
  exists rs c2, add_all objs c1 = Done (rs, c2) /\ NoDup rs /\ Forall2 (fun r obj => forall hs, DecodeJObject hs r c2 = Done obj) rs objs.
Proof.
  intros E0 Er Hn Ep Hlen Hobjs. destruct new_jni_ok as (c0' & E0' & Hr0). rewrite E0 in E0'. injection E0' as <-.
  destruct (runs_ok tr c0 first_refs c Hr0 Er Hn) as (a & _ & Hr & _). destruct (push_room n c a c1 Hr Ep) as [Hr1 Hcap].
  destruct (add_all_ok objs Hobjs c1 _ Hr1) as (rs & c2 & a2 & E & Hr2 & _ & Hf & Hnd); [lia|]. exists rs, c2. split_and!; try done.
  eapply Forall2_impl; [exact Hf|]. intros r obj (Hobj & _ & Hr00 & Hk) hs. unfold DecodeJObject.
  rewrite (proj2 (Z.eqb_neq r 0)), Hk by done. cbn. rewrite (get_local _ _ r Hr2), Hobj. cbn.
  by rewrite (proj2 (Z.eqb_neq obj 0)) by (by eapply local_nonzero).
Qed.

(** ** Frames that are left open *)

(** C33: a native method that returns without popping a frame that it pushed leaves its
    references behind. The end of the method restores the state of the frame, not
    that of its caller: exactly the local references that were valid when the frame was
    pushed, those of the method included, are valid in the caller, whatever the method
    does before and after it, as long as it closes the other frames. *)
Theorem open_frame_leaks `{JniConfig} c0 tr0 c hs tr1 c1 hs1 n tr2 hs2 c' :
  new_jni = Done c0 -> runs tr0 c0 = Some c -> nested tr0 [Bottom] ->
  runs ((hs, CStart, 0) :: tr1) c = Some c1 -> tags_after tr1 [] = Some [] -> Forall (fun e => visits_objects e.1.2) tr1 ->
  runs ((hs1, CPush n, JNI_OK) :: tr2 ++ [(hs2, CEnd, 0)]) c1 = Some c' -> tags_after tr2 [] = Some [] -> Forall (fun e => visits_objects e.1.2) tr2 ->
  exists valid : gmap Z Z, forall r, Get (locals (env c1)) r = found (valid !! r) r /\ Get (locals (env c')) r = found (relocates tr2 <$> valid !! r) r.
Proof.
  intros E0 Er Hn E1 Ht1 Hv1 E2 Ht2 Hv2. destruct new_jni_ok as (c0' & E0' & Hr0). rewrite E0 in E0'. injection E0' as <-.
  destruct (runs_ok tr0 c0 first_refs c Hr0 Er Hn) as (a & _ & Hr & _).
  destruct (opened_run hs CStart 0 Native tr1 c a c1 Hr I Ht1 Hv1 E1) as (a1 & F1 & Hr1 & _). apply (runs_app ((hs1, CPush n, JNI_OK) :: tr2)) in E2 as (c2 & E2 & Eend).
  destruct (opened_run hs1 (CPush n) JNI_OK Pushed tr2 c1 a1 c2 Hr1 eq_refl Ht2 Hv2 E2) as (a2 & F2 & Hr2 & Ef). exists (all_refs (frames a1)). intros r.
  split; [by apply get_local|]. rewrite <- all_refs_shift. by eapply end_below; [exact Hr2|exact Ef|done|eapply end_step].
Qed.

(** ** A run *)

Definition demo_config : JniConfig := {| kIsDebugBuild := false; check_jni := true |}.
Definition demo_handles : handles := fun _ => None.
Abbreviation step k x := ((demo_handles, k, x) : handles * call * Z).
(** A native method makes a reference and, in a frame, another one that survives. *)
Definition demo_method : trace :=
  [step (CAdd 0x2000) 0x100005; step (CVisit (fun obj => Z.abs obj + 16)) 0; step (CPush 8) JNI_OK; step (CAdd 0x3000) 0x100009; step (CPop 0x100009) 0x200009; step (CDeleteLocal 0x100005) 0].
Definition demo_before : trace :=
  [step (CAdd 0x1000) 0x100001; step (CNewGlobal 0x100001) 0x100002; step (CNewWeak 0x100002) 0x100003; step (CSweep (fun _ => 0)) 0; step (CNewLocal 0x100003) 0].
Definition demo_all : trace := demo_before ++ [step CStart 0] ++ demo_method ++ [step CEnd 0; step (CVisit (fun obj => Z.abs obj + 16)) 0].

Definition returns_b {A} (P : A -> bool) (m : cres A) : bool := if m is Done a then P a else false.
Lemma demo_runs (P : jni -> bool) tr : returns_b (fun c0 => if @runs demo_config tr c0 is Some c then P c else false) (@new_jni demo_config) = true ->
  exists c0 c, @new_jni demo_config = Done c0 /\ @runs demo_config tr c0 = Some c /\ P c = true.
Proof. destruct (new_jni) as [c0|]; [|done]. cbn. intros E. exists c0. destruct (runs tr c0) as [c|] eqn:Er; [|done]. by exists c. Qed.

Lemma jni_references_refine_witness : exists c0 c a, @new_jni demo_config = Done c0 /\ @runs demo_config demo_all c0 = Some c /\
  spec_runs first_refs demo_all a /\ tags_of a = [Bottom].
Proof.
  destruct (demo_runs (fun _ => true) demo_all) as (c0 & c & E0 & Er & _); [vm_compute; reflexivity|].
  destruct (@jni_references_refine demo_config c0 demo_all c E0 Er) as (a & Hs & Ht & _).
  - split; [by eexists|]. repeat constructor; cbn; intros obj _; lia.
  - exists c0, c, a. split; [exact E0|]. split; [exact Er|]. split; [exact Hs|]. cbn in Ht. congruence.
Defined.
Lemma demo_visits tr : forallb (fun e => if e.1.2 is CVisit _ then false else true) tr = true -> Forall (fun e => visits_objects e.1.2) (tr : trace).
Proof. induction tr as [|[[hs k] x] tr IH]; cbn; [constructor|]. intros [Hk Htr]%andb_true_iff. constructor; [|by apply IH]. by destruct k. Qed.
(** The reference of the caller has its object, which a collection has moved. *)
Lemma native_call_restores_locals_witness : exists c1 c2, @runs demo_config ([step CStart 0] ++ demo_method ++ [step CEnd 0]) c1 = Some c2 /\
  @Get demo_config (locals (env c1)) 0x100001 = Done 0x1000 /\ @Get demo_config (locals (env c2)) 0x100001 = Done 0x1010.
Proof.
  destruct (demo_runs (fun c1 => returns_b (fun obj => obj =? 0x1000) (@Get demo_config (locals (env c1)) 0x100001) &&
    (if @runs demo_config ([step CStart 0] ++ demo_method ++ [step CEnd 0]) c1 is Some _ then true else false)) demo_before) as (c0 & c1 & E0 & E1 & HP); [vm_compute; reflexivity|].
  apply andb_true_iff in HP as [HG HR]. destruct (runs _ c1) as [c2|] eqn:E2; [|done]. exists c1, c2. split; [exact E2|].
  destruct (@native_call_restores_locals demo_config c0 demo_before c1 demo_handles demo_handles demo_method c2 E0 E1) as (valid & Hget).
  - split; [by eexists|]. by repeat constructor.
  - exact E2.
  - reflexivity.
  - repeat constructor. cbn. intros obj _. lia.
  - destruct (Hget 0x100001) as [G1 G2]. destruct (Get (locals (env c1)) 0x100001) as [obj|]; [|done]. cbn in HG. apply Z.eqb_eq in HG. subst obj.
    split; [reflexivity|]. rewrite G2. destruct (valid !! 0x100001) as [obj|]; [|done]. cbn in G1. injection G1 as <-. reflexivity.
Defined.
Lemma local_capacity_promise_witness : exists c1 rs c2, @add_all demo_config (replicate 100 0x4000) c1 = Done (rs, c2) /\ NoDup rs.
Proof.
  destruct (demo_runs (fun c => (PushLocalFrame 100 c).1 =? JNI_OK) demo_before) as (c0 & c & E0 & E1 & HP); [vm_compute; reflexivity|].
  destruct (PushLocalFrame 100 c) as [x c1] eqn:Ep. cbn in HP. apply Z.eqb_eq in HP. subst x.
  destruct (@local_capacity_promise demo_config c0 demo_before c 100 c1 (replicate 100 0x4000) E0 E1) as (rs & c2 & E & Hnd & _).
  - split; [by eexists|]. by repeat constructor.
  - exact Ep.
  - done.
  - by apply Forall_replicate.
  - exists c1, rs, c2. split; [exact E|exact Hnd].
Defined.
(** The reference of a method that has returned still has its object. *)
Lemma open_frame_leaks_witness : exists c', @Get demo_config (locals (env c')) 0x100005 = Done 0x2000.
Proof.
  destruct (demo_runs (fun c => if @runs demo_config [step CStart 0; step (CAdd 0x2000) 0x100005] c is Some c1 then
      returns_b (fun obj => obj =? 0x2000) (@Get demo_config (locals (env c1)) 0x100005) &&
      (if @runs demo_config [step (CPush 8) JNI_OK; step (CAdd 0x3000) 0x100009; step CEnd 0] c1 is Some _ then true else false) else false)
    demo_before) as (c0 & c & E0 & E & HP); [vm_compute; reflexivity|].
  destruct (runs [step CStart 0; _] c) as [c1|] eqn:E1; [|done]. apply andb_true_iff in HP as [HG HR]. destruct (runs _ c1) as [c'|] eqn:E2; [|done]. exists c'.
  destruct (@open_frame_leaks demo_config c0 demo_before c demo_handles [step (CAdd 0x2000) 0x100005] c1 demo_handles 8 [step (CAdd 0x3000) 0x100009] demo_handles c' E0 E) as (valid & Hget).
  - split; [by eexists|]. by apply demo_visits.
  - exact E1.
  - reflexivity.
  - by apply demo_visits.
  - exact E2.
  - reflexivity.
  - by apply demo_visits.
  - destruct (Hget 0x100005) as [G1 G2]. rewrite G1 in HG. rewrite G2. destruct (valid !! 0x100005) as [obj|]; [|done]. cbn in HG |- *. apply Z.eqb_eq in HG. by subst obj.
Defined.
