(* ===== verification/LockWord.v ===== *)
(** * LockWord: the lock word of an object (runtime/lock_word.h, lock_word-inl.h)

    A word is unlocked, has the owner and the recursion count of a thin lock, the
    number of a monitor, or a hash code.  Making a word and reading it are
    inverse to each other. *)

From stdpp Require Import base.
From S2P Require Import Prelude.

(** ** Definitions *)

Definition kStateSize := 2.
Definition kThinLockOwnerSize := 16.
Definition kThinLockCountSize := 32 - kThinLockOwnerSize - kStateSize.
Definition kThinLockOwnerMask := 2 ^ kThinLockOwnerSize - 1.
Definition kThinLockCountShift := kThinLockOwnerSize.
Definition kThinLockCountMask := 2 ^ kThinLockCountSize - 1.
Definition kThinLockMaxCount := kThinLockCountMask.
Definition kStateShift := kThinLockCountSize + kThinLockCountShift.
Definition kStateMask := 2 ^ kStateSize - 1.
Definition kStateThinOrUnlocked := 0.
Definition kStateFat := 1.
Definition kStateHash := 2.
Definition kStateForwardingAddress := 3.
Definition kHashSize := 32 - kStateSize.
Definition kHashMask := 2 ^ kHashSize - 1.

Definition FromThinLockId (thread_id count : Z) : cres Z :=
  if thread_id <=? kThinLockOwnerMask then
    Done (Z.lor (Z.lor thread_id (u32 (Z.shiftl count kThinLockCountShift))) (Z.shiftl kStateThinOrUnlocked kStateShift))
  else Fault Aborted.
Definition FromHashCode (hash_code : Z) : cres Z :=
  if hash_code <=? kHashMask then Done (Z.lor hash_code (Z.shiftl kStateHash kStateShift)) else Fault Aborted.
(** LockWord(Monitor* ) *)
Definition FromMonitor (monitor_id : Z) : Z := Z.lor monitor_id (Z.shiftl kStateFat kStateShift).

Inductive LockState := kUnlocked | kThinLocked | kFatLocked | kHashCode | kForwardingAddress.
#[export] Instance LockState_eq_dec : EqDecision LockState.
Proof. solve_decision. Defined.

Definition GetState (value_ : Z) : LockState :=
  if value_ =? 0 then kUnlocked
  else
    let internal_state := Z.land (Z.shiftr value_ kStateShift) kStateMask in
    if internal_state =? kStateThinOrUnlocked then kThinLocked
    else if internal_state =? kStateHash then kHashCode
    else if internal_state =? kStateForwardingAddress then kForwardingAddress
    else kFatLocked.
Definition ThinLockOwner (value_ : Z) : Z := Z.land value_ kThinLockOwnerMask.
Definition ThinLockCount (value_ : Z) : Z := Z.land (Z.shiftr value_ kThinLockCountShift) kThinLockCountMask.
Definition FatLockMonitor (value_ : Z) : Z := Z.ldiff value_ (Z.shiftl kStateMask kStateShift).
Definition GetHashCode (value_ : Z) : Z := Z.land value_ kHashMask.

(** ** What words say *)

Definition thin (id c : Z) : Z := id + c * 2 ^ 16.
Definition fat (m : Z) : Z := m + 2 ^ 30.
Definition hashed (h : Z) : Z := h + 2 ^ 31.

Lemma from_thin id c : 0 < id < 2 ^ 16 -> 0 <= c <= kThinLockMaxCount -> FromThinLockId id c = Done (thin id c).
Proof.
  unfold FromThinLockId, thin, kThinLockMaxCount, kThinLockCountMask, kThinLockCountSize, kThinLockOwnerMask, kThinLockOwnerSize, kStateSize, kThinLockCountShift.
  intros Hi Hc. rewrite (proj2 (Z.leb_le _ _)) by lia. f_equal. rewrite Z.lor_0_r. rewrite uwrap_small.
  - apply lor_shiftl_add; unfold kThinLockOwnerSize; lia.
  - unfold kThinLockOwnerSize. rewrite Z.shiftl_mul_pow2 by lia. unfold in_u. lia.
Qed.
Lemma from_hash h : 0 <= h < 2 ^ 30 -> FromHashCode h = Done (hashed h).
Proof.
  unfold FromHashCode, hashed, kHashMask, kHashSize, kStateSize. intros Hh. rewrite (proj2 (Z.leb_le _ _)) by lia. f_equal.
  change (Z.shiftl kStateHash kStateShift) with (Z.shiftl 2 30). rewrite lor_shiftl_add; lia.
Qed.
Lemma from_monitor m : 0 <= m < 2 ^ 30 -> FromMonitor m = fat m.
Proof. intros Hm. unfold FromMonitor, fat. change (Z.shiftl kStateFat kStateShift) with (Z.shiftl 1 30). rewrite lor_shiftl_add; lia. Qed.

Lemma top_bits w : 0 <= w < 2 ^ 32 -> Z.land (Z.shiftr w kStateShift) kStateMask = w / 2 ^ 30.
Proof.
  intros Hw. change kStateMask with (Z.ones 2). rewrite Z.land_ones by lia. rewrite Z.shiftr_div_pow2 by done. change kStateShift with 30.
  apply Z.mod_small. split; [apply Z.div_pos; lia|]. apply Z.div_lt_upper_bound; lia.
Qed.
Lemma thin_ok id c : 0 < id < 2 ^ 16 -> 0 <= c <= kThinLockMaxCount ->
  GetState (thin id c) = kThinLocked /\ ThinLockOwner (thin id c) = id /\ ThinLockCount (thin id c) = c.
Proof.
  change kThinLockMaxCount with (2 ^ 14 - 1). intros Hi Hc. unfold GetState, ThinLockOwner, ThinLockCount, thin.
  rewrite (proj2 (Z.eqb_neq _ 0)) by lia. rewrite top_bits by lia. rewrite Z.div_small by lia.
  change kThinLockOwnerMask with (Z.ones 16). change kThinLockCountMask with (Z.ones 14). change kThinLockCountShift with 16.
  rewrite !Z.land_ones, Z.shiftr_div_pow2, Z.mod_add, Z.div_add, (Z.mod_small id), (Z.div_small id), Z.mod_small by lia. done.
Qed.
Lemma fat_ok m : 0 <= m < 2 ^ 30 -> GetState (fat m) = kFatLocked /\ FatLockMonitor (fat m) = m.
Proof.
  intros Hm. unfold GetState, FatLockMonitor, fat. rewrite (proj2 (Z.eqb_neq _ 0)) by lia. rewrite top_bits by lia.
  replace (m + 2 ^ 30) with (m + 1 * 2 ^ 30) by lia. rewrite Z.div_add, Z.div_small by lia. split; [done|].
  change (Z.shiftl kStateMask kStateShift) with (Z.shiftl 3 30). rewrite <- lor_shiftl_add by lia.
  apply Z.bits_inj'. intros n Hn. rewrite Z.ldiff_spec, Z.lor_spec, !Z.shiftl_spec by done.
  destruct (Z.ltb_spec n 30).
  - rewrite !(Z.testbit_neg_r _ (n - 30)) by lia. by rewrite orb_false_r, andb_true_r.
  - assert (Z.testbit m n = false) as ->. { rewrite <- (Z.mod_small m (2 ^ 30)) by lia. apply Z.mod_pow2_bits_high. lia. }
    cbn [orb]. change 3 with (Z.ones 2). change 1 with (Z.ones 1). rewrite !Z.testbit_ones_nonneg by lia.
    destruct (Z.ltb_spec (n - 30) 1), (Z.ltb_spec (n - 30) 2); try done; lia.
Qed.
Lemma hashed_ok h : 0 <= h < 2 ^ 30 -> GetState (hashed h) = kHashCode /\ GetHashCode (hashed h) = h.
Proof.
  intros Hh. unfold GetState, GetHashCode, hashed. rewrite (proj2 (Z.eqb_neq _ 0)) by lia. rewrite top_bits by lia.
  replace (h + 2 ^ 31) with (h + 2 * 2 ^ 30) by lia. rewrite Z.div_add, Z.div_small by lia. split; [done|].
  change kHashMask with (Z.ones 30). rewrite Z.land_ones, Z.mod_add, Z.mod_small by lia. done.
Qed.
Lemma unlocked_ok : GetState 0 = kUnlocked.
Proof. done. Qed.
