(* ===== verification/Monitor.v ===== *)
(** * Monitor: the locks of objects
      (runtime/monitor.{h,cc}, mirror/object.cc, thread_list.cc)

    The lock of one object and the threads that use it.  A lock is thin while
    there is no contention and is inflated to a monitor otherwise; the monitor can be
    deflated while all threads are suspended.  The state is the lock word, the
    monitors, and for each thread where it is in the code.  A step of a thread is
    one access to shared memory, or one section of code under the mutex of a
    monitor or of a thread; between steps the threads interleave freely.  What
    the environment decides (the thread that a condition variable wakes, the failure of a
    weak compare-and-swap, seeds of hash codes, time-outs) is a choice of the step.

    A thread that is not running managed code, or is at a suspend point, can be
    suspended by others; [safe] says where.  It runs on only when its suspend
    count is zero again.  The request to suspend a thread takes effect when the
    thread is at such a point: until then the thread runs on anyway.  Memory is
    sequentially consistent, and no thread ends.  Lock profiling and the messages of
    exceptions are left out. *)

From stdpp Require Import base list gmap.
From S2P Require Import Prelude LockWord.

(** ** State *)

(** Threads are known by their ids; a null thread is 0.  The linked list of
    [wait_set_] is a list of threads. *)
Record Monitor := mkMonitor { owner_ : Z; lock_count_ : Z; num_waiters_ : Z; wait_set_ : list Z; hash_code_ : Z }.

(** What follows when a lock word has been inflated, and when a monitor has been
    locked. *)
Inductive after := AEnter | AWait (ms ns : Z) | AHash.
Inductive cont := KEnter | KWait (prev_lock_count : Z) (was_interrupted : bool).

Inductive pc :=
| Idle
| EnterLoop | EnterRead (w : Z)
| ExitLoop | ExitRead (w : Z)
| WaitLoop (ms ns : Z) | WaitRead (ms ns w : Z)
| NotifyLoop (all : bool) | NotifyRead (all : bool) (w : Z)
| HashLoop | HashRead (w : Z)
| SuspendOwner (id hash : Z) (a : after) | OwnerSuspended (id hash : Z) (a : after)
| InstallRead (mon : Monitor) (resume : Z) (a : after) | InstallCas (w : Z) (mon : Monitor) (resume : Z) (a : after)
| Installed (resume : Z) (a : after) | ResumeOwner (id : Z) (a : after)
| LockBlocked (m : Z) (k : cont) | LockWaiting (m : Z) (k : cont) | LockWoken (m : Z) (k : cont)
| Waiting (m prev : Z) (signalled : bool) | WaitWoken (m prev : Z) (was_interrupted : bool)
| WaitLock (m prev : Z) (was_interrupted : bool) | WaitRestore (m prev : Z) (was_interrupted : bool).

Record thread := mkThread { pc_ : pc; suspend_count : Z; interrupted_ : bool }.
Record state := mkS { word : Z; monitors : gmap Z Monitor; threads : gmap Z thread }.

Inductive event :=
| Tau | EvEnter | EvExit (success : bool) | EvIllegalState | EvIllegalArgument
| EvWait | EvRestore (depth : Z) | EvWaitDone (was_interrupted : bool) | EvNotify | EvHash (hash : Z).

Record choice := mkChoice {
  c_start : pc;        (* the function that is called *)
  c_fails : bool;      (* a weak compare-and-swap fails, a suspension times out, a contender does not spin on *)
  c_seed : Z;          (* the seed of hash codes *)
  c_monitor : Z;       (* the id of a new monitor *)
  c_woken : Z          (* the contender that is signalled *)
}.

Definition set_word (w : Z) (s : state) : state := mkS w (monitors s) (threads s).
Definition set_monitor (m : Z) (mon : Monitor) (s : state) : state := mkS (word s) (<[m := mon]> (monitors s)) (threads s).
Definition set_thread (t : Z) (th : thread) (s : state) : state := mkS (word s) (monitors s) (<[t := th]> (threads s)).
Definition at_pc (p : pc) (th : thread) : thread := mkThread p (suspend_count th) (interrupted_ th).
Definition set_pc (t : Z) (p : pc) (s : state) : state := mkS (word s) (monitors s) (alter (at_pc p) t (threads s)).

Definition set_owner (t : Z) (mon : Monitor) : Monitor := mkMonitor t (lock_count_ mon) (num_waiters_ mon) (wait_set_ mon) (hash_code_ mon).
Definition set_count (n : Z) (mon : Monitor) : Monitor := mkMonitor (owner_ mon) n (num_waiters_ mon) (wait_set_ mon) (hash_code_ mon).
Definition add_waiters (d : Z) (mon : Monitor) : Monitor := mkMonitor (owner_ mon) (lock_count_ mon) (num_waiters_ mon + d) (wait_set_ mon) (hash_code_ mon).
Definition set_wait_set (l : list Z) (mon : Monitor) : Monitor := mkMonitor (owner_ mon) (lock_count_ mon) (num_waiters_ mon) l (hash_code_ mon).
Definition set_hash (h : Z) (mon : Monitor) : Monitor := mkMonitor (owner_ mon) (lock_count_ mon) (num_waiters_ mon) (wait_set_ mon) h.

Definition CHECK (b : bool) : cres unit := if b then Done () else Fault Aborted.

(** ** Threads *)

(** Where a thread is not in the state kRunnable, or checks for suspension. *)
Definition safe (p : pc) : bool :=
  match p with
  | Idle | SuspendOwner _ _ _ | OwnerSuspended _ _ _ | LockBlocked _ _ | LockWaiting _ _ | LockWoken _ _
  | Waiting _ _ _ | WaitWoken _ _ _ => true
  | _ => false
  end.
Definition IsSuspended (s : state) (t : Z) : bool :=
  match threads s !! t with Some th => safe (pc_ th) && (0 <? suspend_count th) | None => false end.
Definition add_suspensions (t delta : Z) (s : state) : state :=
  mkS (word s) (monitors s) (alter (fun th => mkThread (pc_ th) (suspend_count th + delta) (interrupted_ th)) t (threads s)).
Definition ModifySuspendCount (t delta : Z) (s : state) : cres state :=
  th ← deref (threads s !! t);
  if (delta <? 0) && (suspend_count th <=? 0) then Fault Aborted else Done (add_suspensions t delta s).
(** [wait_monitor_] is set from the start of a wait until the thread runs again. *)
Definition wait_monitor (p : pc) : bool := match p with Waiting _ _ _ | WaitWoken _ _ _ => true | _ => false end.

(** The signal of [wait_cond_]. *)
Definition signal_waiting (th : thread) : thread :=
  match pc_ th with Waiting m prev _ => at_pc (Waiting m prev true) th | _ => th end.
(** Thread::Interrupt *)
Definition Interrupt (t : Z) (s : state) : state :=
  mkS (word s) (monitors s)
    (alter (fun th => if interrupted_ th then th else signal_waiting (mkThread (pc_ th) (suspend_count th) true)) t (threads s)).

(** ThreadList::FindThreadByThreadId, for a thread in the list. *)
Definition FindThreadByThreadId (self id : Z) (s : state) : cres unit := CHECK ((id =? self) || IsSuspended s id).

(** Object::GenerateIdentityHashCode from a seed, with the seed that it leaves. *)
Fixpoint generate (fuel : nat) (seed : Z) : cres (Z * Z) :=
  match fuel with
  | O => Fault OutOfFuel
  | S fuel =>
      let new_value := u32 (seed * 1103515245 + 12345) in
      if Z.land seed kHashMask =? 0 then generate fuel new_value else Done (Z.land seed kHashMask, new_value)
  end.
Definition GenerateIdentityHashCode (c : choice) : cres Z := '(h, _) ← generate 2 (u32 (c_seed c)); Done h.

(** ** Sections under the mutex of a monitor *)

Definition next_count (n : Z) : cres Z := if n =? 2 ^ 31 - 1 then Fault Overflow else Done (n + 1).

Definition locked_event (k : cont) : event := match k with KEnter => EvEnter | KWait prev _ => EvRestore (prev + 1) end.
Definition after_lock (m : Z) (k : cont) : pc := match k with KEnter => Idle | KWait prev was => WaitRestore m prev was end.

(** One round of the loop of Monitor::Lock. *)
Definition Lock (self m : Z) (k : cont) (mon : Monitor) (s : state) : cres (event * state) :=
  if owner_ mon =? 0 then
    _ ← CHECK (lock_count_ mon =? 0);
    Done (locked_event k, set_pc self (after_lock m k) (set_monitor m (set_owner self mon) s))
  else if owner_ mon =? self then
    n ← next_count (lock_count_ mon);
    Done (locked_event k, set_pc self (after_lock m k) (set_monitor m (set_count n mon) s))
  else Done (Tau, set_pc self (LockBlocked m k) (set_monitor m (add_waiters 1 mon) s)).

(** [monitor_contenders_.Signal]: one of the threads that wait, if there are any. *)
Definition contends (m : Z) (p : pc) : option cont := match p with LockWaiting m' k => if m' =? m then Some k else None | _ => None end.
Definition no_contender (m : Z) (s : state) : bool := forallb (fun p => if contends m (pc_ p.2) is Some _ then false else true) (map_to_list (threads s)).
Definition Signal (m woken : Z) (s : state) : option state :=
  match threads s !! woken with
  | Some th => match contends m (pc_ th) with Some k => Some (set_pc woken (LockWoken m k) s) | None => if no_contender m s then Some s else None end
  | None => if no_contender m s then Some s else None
  end.

Definition Unlock (self m woken : Z) (mon : Monitor) (s : state) : option (event * state) :=
  if owner_ mon =? self then
    if lock_count_ mon =? 0 then
      s ← Signal m woken (set_monitor m (set_owner 0 mon) s);
      Some (EvExit true, set_pc self Idle s)
    else Some (EvExit true, set_pc self Idle (set_monitor m (set_count (lock_count_ mon - 1) mon) s))
  else Some (EvExit false, set_pc self Idle s).

(** Monitor::Wait up to the wait for the condition. *)
Definition Wait (self ms ns m woken : Z) (mon : Monitor) (th : thread) (s : state) : option (event * state) :=
  if negb (owner_ mon =? self) then Some (EvIllegalState, set_pc self Idle s)
  else if (ms <? 0) || (ns <? 0) || (999999 <? ns) then Some (EvIllegalArgument, set_pc self Idle s)
  else
    let mon' := set_owner 0 (set_count 0 (add_waiters 1 (set_wait_set (wait_set_ mon ++ [self]) mon))) in
    s ← Signal m woken (set_monitor m mon' s);
    Some (EvWait, set_pc self (if interrupted_ th then WaitWoken m (lock_count_ mon) true else Waiting m (lock_count_ mon) false) s).
Fixpoint RemoveFromWaitSet (thread : Z) (wait_set : list Z) : list Z :=
  match wait_set with [] => [] | t :: wait_set => if t =? thread then wait_set else t :: RemoveFromWaitSet thread wait_set end.
(** The end of Monitor::Wait. *)
Definition Restore (self m prev : Z) (was_interrupted : bool) (mon : Monitor) (th : thread) (s : state) : event * state :=
  let mon' := set_owner self (set_count prev (add_waiters (-1) (set_wait_set (RemoveFromWaitSet self (wait_set_ mon)) mon))) in
  (EvWaitDone was_interrupted,
   set_thread self (mkThread Idle (suspend_count th) (if was_interrupted then false else interrupted_ th)) (set_monitor m mon' s)).

(** The threads of a wait set that Notify takes out, the last of which it signals. *)
Fixpoint take_waiter (s : state) (wait_set : list Z) : list Z * state :=
  match wait_set with
  | [] => ([], s)
  | t :: wait_set =>
      match threads s !! t with
      | Some th => if wait_monitor (pc_ th) then (wait_set, set_thread t (signal_waiting th) s) else take_waiter s wait_set
      | None => take_waiter s wait_set
      end
  end.
Definition notify_all (s : state) (wait_set : list Z) : state :=
  foldl (fun s t => match threads s !! t with Some th => set_thread t (signal_waiting th) s | None => s end) s wait_set.
Definition Notify (self m : Z) (all : bool) (mon : Monitor) (s : state) : event * state :=
  if negb (owner_ mon =? self) then (EvIllegalState, set_pc self Idle s)
  else
    let '(rest, s) := if all then ([], notify_all s (wait_set_ mon)) else take_waiter s (wait_set_ mon) in
    (EvNotify, set_pc self Idle (set_monitor m (set_wait_set rest mon) s)).

(** ** Inflation and deflation *)

Definition loop_of (a : after) : pc := match a with AEnter => EnterLoop | AWait ms ns => WaitLoop ms ns | AHash => HashLoop end.

(** The monitor that Inflate creates for Install. *)
Definition Inflate (self owner hash resume : Z) (a : after) (s : state) : cres state :=
  _ ← CHECK ((owner =? 0) || (owner =? self) || IsSuspended s owner);
  Done (set_pc self (InstallRead (mkMonitor owner 0 0 [] hash) resume a) s).
Definition InflateThinLocked (self w hash : Z) (a : after) (s : state) : cres state :=
  let owner_thread_id := ThinLockOwner w in
  if owner_thread_id =? self then Inflate self self hash 0 a s
  else Done (set_pc self (SuspendOwner owner_thread_id hash a) s).

(** Install reads the lock word, and swaps it. *)
Definition install_read (self : Z) (mon : Monitor) (resume : Z) (a : after) (s : state) : cres state :=
  _ ← CHECK ((owner_ mon =? 0) || (owner_ mon =? self) || IsSuspended s (owner_ mon));
  let lw := word s in
  match GetState lw with
  | kThinLocked => _ ← CHECK (owner_ mon =? ThinLockOwner lw); Done (set_pc self (InstallCas lw (set_count (ThinLockCount lw) mon) resume a) s)
  | kHashCode => _ ← CHECK (hash_code_ mon =? GetHashCode lw); Done (set_pc self (InstallCas lw mon resume a) s)
  | kFatLocked => Done (set_pc self (ResumeOwner resume a) s)
  | _ => Fault Aborted
  end.
Definition install_cas (c : choice) (self w : Z) (mon : Monitor) (resume : Z) (a : after) (s : state) : option state :=
  if (word s =? w) && negb (c_fails c) then
    match monitors s !! c_monitor c with
    | Some _ => None
    | None =>
        if (0 <=? c_monitor c) && (c_monitor c <? 2 ^ 30) then
          Some (set_pc self (Installed resume a) (set_word (FromMonitor (c_monitor c)) (set_monitor (c_monitor c) mon s)))
        else None
    end
  else Some (set_pc self (ResumeOwner resume a) s).

(** Monitor::Deflate, of a monitor that the collector frees. *)
Definition Deflate (s : state) : cres state :=
  let lw := word s in
  if bool_decide (GetState lw = kFatLocked) then
    let m := FatLockMonitor lw in
    mon ← deref (monitors s !! m);
    if 0 <? num_waiters_ mon then Done s
    else
      let owner := owner_ mon in
      let deflated (w : Z) := mkS w (delete m (monitors s)) (threads s) in
      if negb (owner =? 0) then
        if negb (hash_code_ mon =? 0) then Done s
        else if kThinLockMaxCount <? lock_count_ mon then Done s
        else w ← FromThinLockId owner (lock_count_ mon); Done (deflated w)
      else if negb (hash_code_ mon =? 0) then w ← FromHashCode (hash_code_ mon); Done (deflated w)
      else Done (deflated 0)
  else Done s.

(** ** What others ask *)

Definition kInvalidThreadId := 0.
Definition GetOwnerThreadId (mon : Monitor) : Z := if negb (owner_ mon =? 0) then owner_ mon else kInvalidThreadId.
Definition GetLockOwnerThreadId (s : state) : cres Z :=
  let lock_word := word s in
  match GetState lock_word with
  | kHashCode | kUnlocked => Done kInvalidThreadId
  | kThinLocked => Done (ThinLockOwner lock_word)
  | kFatLocked => mon ← deref (monitors s !! FatLockMonitor lock_word); Done (GetOwnerThreadId mon)
  | kForwardingAddress => Fault Aborted
  end.
(** What the debugger reads while it suspends all threads; it is none of them. *)
Definition SuspendAll (s : state) : state :=
  mkS (word s) (monitors s) ((fun th => mkThread (pc_ th) (suspend_count th + 1) (interrupted_ th)) <$> threads s).
Definition MonitorInfo (s : state) : cres (Z * Z * list Z) :=
  let lock_word := word s in
  match GetState lock_word with
  | kUnlocked | kForwardingAddress | kHashCode => Done (0, 0, [])
  | kThinLocked =>
      _ ← FindThreadByThreadId kInvalidThreadId (ThinLockOwner lock_word) s;
      Done (ThinLockOwner lock_word, 1 + ThinLockCount lock_word, [])
  | kFatLocked => mon ← deref (monitors s !! FatLockMonitor lock_word); Done (owner_ mon, 1 + lock_count_ mon, wait_set_ mon)
  end.

(** ** Steps *)

(** A step is not enabled, faults, or returns. *)
Definition result := option (cres (event * state)).
Definition quiet (m : cres state) : result := Some (s ← m; Done (Tau, s)).
Definition go (self : Z) (p : pc) (s : state) : result := Some (Done (Tau, set_pc self p s)).
Definition finish (self : Z) (e : event) (s : state) : result := Some (Done (e, set_pc self Idle s)).
Definition with_monitor (m : Z) (s : state) (f : Monitor -> result) : result :=
  match monitors s !! m with Some mon => f mon | None => Some (Fault OutOfBounds) end.
Definition returned (o : option (event * state)) : result := Done <$> o.

Definition MonitorEnter (c : choice) (self lock_word : Z) (s : state) : result :=
  match GetState lock_word with
  | kUnlocked =>
      match FromThinLockId self 0 with
      | Fault f => Some (Fault f)
      | Done thin_locked => if (word s =? lock_word) && negb (c_fails c) then finish self EvEnter (set_word thin_locked s) else go self EnterLoop s
      end
  | kThinLocked =>
      if ThinLockOwner lock_word =? self then
        let new_count := ThinLockCount lock_word + 1 in
        if new_count <=? kThinLockMaxCount then
          match FromThinLockId self new_count with Fault f => Some (Fault f) | Done thin_locked => finish self EvEnter (set_word thin_locked s) end
        else quiet (InflateThinLocked self lock_word 0 AEnter s)
      else if c_fails c then quiet (InflateThinLocked self lock_word 0 AEnter s)
      else go self EnterLoop s
  | kFatLocked => with_monitor (FatLockMonitor lock_word) s (fun mon => Some (Lock self (FatLockMonitor lock_word) KEnter mon s))
  | kHashCode => quiet (Inflate self 0 (GetHashCode lock_word) 0 AEnter s)
  | kForwardingAddress => Some (Fault Aborted)
  end.
Definition MonitorExit (c : choice) (self lock_word : Z) (s : state) : result :=
  match GetState lock_word with
  | kHashCode | kUnlocked => finish self (EvExit false) s
  | kThinLocked =>
      if negb (ThinLockOwner lock_word =? self) then
        match FindThreadByThreadId self (ThinLockOwner lock_word) s with Fault f => Some (Fault f) | Done _ => finish self (EvExit false) s end
      else if negb (ThinLockCount lock_word =? 0) then
        match FromThinLockId self (ThinLockCount lock_word - 1) with Fault f => Some (Fault f) | Done thin_locked => finish self (EvExit true) (set_word thin_locked s) end
      else finish self (EvExit true) (set_word 0 s)
  | kFatLocked => with_monitor (FatLockMonitor lock_word) s (fun mon => returned (Unlock self (FatLockMonitor lock_word) (c_woken c) mon s))
  | kForwardingAddress => Some (Fault Aborted)
  end.
Definition ObjectWait (c : choice) (self ms ns lock_word : Z) (th : thread) (s : state) : result :=
  match GetState lock_word with
  | kHashCode | kUnlocked => finish self EvIllegalState s
  | kThinLocked =>
      if negb (ThinLockOwner lock_word =? self) then finish self EvIllegalState s
      else quiet (Inflate self self 0 0 (AWait ms ns) s)
  | kFatLocked => with_monitor (FatLockMonitor lock_word) s (fun mon => returned (Wait self ms ns (FatLockMonitor lock_word) (c_woken c) mon th s))
  | kForwardingAddress => Some (Fault Aborted)
  end.
Definition DoNotify (self : Z) (all : bool) (lock_word : Z) (s : state) : result :=
  match GetState lock_word with
  | kHashCode | kUnlocked => finish self EvIllegalState s
  | kThinLocked => if negb (ThinLockOwner lock_word =? self) then finish self EvIllegalState s else finish self EvNotify s
  | kFatLocked => with_monitor (FatLockMonitor lock_word) s (fun mon => Some (Done (Notify self (FatLockMonitor lock_word) all mon s)))
  | kForwardingAddress => Some (Fault Aborted)
  end.
(** Monitor::GetHashCode is one round of its loop, and reads the hash code. *)
Definition IdentityHashCode (c : choice) (self lw : Z) (s : state) : result :=
  match GetState lw with
  | kUnlocked =>
      match (h ← GenerateIdentityHashCode c; hash_word ← FromHashCode h; Done (h, hash_word)) with
      | Fault f => Some (Fault f)
      | Done (h, hash_word) => if (word s =? lw) && negb (c_fails c) then finish self (EvHash h) (set_word hash_word s) else go self HashLoop s
      end
  | kThinLocked => quiet (h ← GenerateIdentityHashCode c; InflateThinLocked self lw h AHash s)
  | kFatLocked =>
      with_monitor (FatLockMonitor lw) s (fun mon =>
        if negb (hash_code_ mon =? 0) then finish self (EvHash (hash_code_ mon)) s
        else match GenerateIdentityHashCode c with
             | Fault f => Some (Fault f)
             | Done h => if c_fails c then go self (HashRead lw) s else finish self (EvHash h) (set_monitor (FatLockMonitor lw) (set_hash h mon) s)
             end)
  | kHashCode => finish self (EvHash (GetHashCode lw)) s
  | kForwardingAddress => Some (Fault Aborted)
  end.

(** Monitor::Lock after it has let go of the mutex: the thread is blocked and sleeps if
    the lock is still taken; then it takes the mutex again for the next round. *)
Definition block (self m : Z) (k : cont) (s : state) : result :=
  with_monitor m s (fun mon => go self (if negb (owner_ mon =? 0) then LockWaiting m k else LockWoken m k) s).
Definition lock_again (self m : Z) (k : cont) (s : state) : result :=
  with_monitor m s (fun mon => let mon := add_waiters (-1) mon in Some (Lock self m k mon (set_monitor m mon s))).
(** Monitor::Wait after the wait for the condition. *)
Definition wait_wakes (self m prev : Z) (th : thread) (s : state) : result :=
  Some (Done (Tau, set_thread self (mkThread (WaitWoken m prev (interrupted_ th)) (suspend_count th) false) s)).

(** InflateThinLocked: the owner is suspended, the lock inflated, and the owner resumed. *)
Definition SuspendThreadByThreadId (c : choice) (self id hash : Z) (a : after) (s : state) : result :=
  if c_fails c then go self (loop_of a) s
  else match threads s !! id with
       | Some thread => if safe (pc_ thread) then quiet (s ← ModifySuspendCount id 1 s; Done (set_pc self (OwnerSuspended id hash a) s)) else None
       | None => None
       end.
Definition inflate_suspended (self id hash : Z) (a : after) (s : state) : result :=
  if bool_decide (GetState (word s) = kThinLocked) && (ThinLockOwner (word s) =? id) then quiet (Inflate self id hash id a s)
  else go self (ResumeOwner id a) s.
Definition Resume (self id : Z) (a : after) (s : state) : result :=
  quiet (s ← (if id =? 0 then Done s else ModifySuspendCount id (-1) s); Done (set_pc self (loop_of a) s)).

Definition is_start (p : pc) : bool :=
  match p with EnterLoop | ExitLoop | WaitLoop _ _ | NotifyLoop _ | HashLoop => true | _ => false end.

Definition tstep (c : choice) (self : Z) (s : state) : result :=
  match threads s !! self with
  | None => None
  | Some th =>
      let runs (r : result) : result := if suspend_count th =? 0 then r else None in
      match pc_ th with
      | Idle => runs (if is_start (c_start c) then go self (c_start c) s else None)
      | EnterLoop => go self (EnterRead (word s)) s
      | EnterRead w => MonitorEnter c self w s
      | ExitLoop => go self (ExitRead (word s)) s
      | ExitRead w => MonitorExit c self w s
      | WaitLoop ms ns => go self (WaitRead ms ns (word s)) s
      | WaitRead ms ns w => ObjectWait c self ms ns w th s
      | NotifyLoop all => go self (NotifyRead all (word s)) s
      | NotifyRead all w => DoNotify self all w s
      | HashLoop => go self (HashRead (word s)) s
      | HashRead w => IdentityHashCode c self w s
      | SuspendOwner id hash a => runs (SuspendThreadByThreadId c self id hash a s)
      | OwnerSuspended id hash a => runs (inflate_suspended self id hash a s)
      | InstallRead mon resume a => quiet (install_read self mon resume a s)
      | InstallCas w mon resume a => match install_cas c self w mon resume a s with Some s => Some (Done (Tau, s)) | None => None end
      | Installed resume a => if bool_decide (GetState (word s) = kFatLocked) then go self (ResumeOwner resume a) s else Some (Fault Aborted)
      | ResumeOwner id a => Resume self id a s
      | LockBlocked m k => block self m k s
      | LockWaiting m k => go self (LockWoken m k) s
      | LockWoken m k => runs (lock_again self m k s)
      | Waiting m prev signalled => wait_wakes self m prev th s
      | WaitWoken m prev was => runs (go self (WaitLock m prev was) s)
      | WaitLock m prev was => with_monitor m s (fun mon => Some (Lock self m (KWait prev was) mon s))
      | WaitRestore m prev was => with_monitor m s (fun mon => Some (Done (Restore self m prev was mon th s)))
      end
  end.

(** The steps of the system: threads, interruptions, and deflation while every
    thread is suspended. *)
Inductive act := Thread (self : Z) (c : choice) | InterruptThread (t : Z) | DeflateMonitor.
Definition all_safe (s : state) : bool := forallb (fun p => safe (pc_ p.2)) (map_to_list (threads s)).
Definition step (a : act) (s : state) : result :=
  match a with
  | Thread self c => tstep c self s
  | InterruptThread t => Some (Done (Tau, Interrupt t s))
  | DeflateMonitor => if all_safe s then quiet (Deflate s) else None
  end.
Definition initial (ids : list Z) : state := mkS 0 ∅ (list_to_map ((fun t => (t, mkThread Idle 0 false)) <$> ids)).
Inductive reach (ids : list Z) : state -> Prop :=
| reach_initial : reach ids (initial ids)
| reach_step a s e s' : reach ids s -> step a s = Some (Done (e, s')) -> reach ids s'.
