(* ===== verification/MonitorInv.v ===== *)
(** * MonitorInv: what holds in every state of the lock of an object

    The lock word says who owns the lock, or which monitor does; no other monitor
    exists.  [num_waiters_] counts the threads that depend on the monitor, so
    that it is not freed under them; what a thread has read from the lock word
    stays true as long as the thread relies on it; and a thread that another one has
    suspended stays where it is. *)

From stdpp Require Import base list gmap.
From S2P Require Import Prelude LockWord Monitor.

(** ** Sums over threads *)

Definition tsum (f : thread -> Z) (ths : gmap Z thread) : Z := map_fold (fun _ th n => f th + n) 0 ths.
Lemma tsum_insert f ths t th : ths !! t = None -> tsum f (<[t := th]> ths) = f th + tsum f ths.
Proof. intros Ht. unfold tsum. rewrite map_fold_insert_L; [done| |done]. intros. lia. Qed.
Lemma tsum_update f ths t th th' : ths !! t = Some th -> tsum f (<[t := th']> ths) = tsum f ths - f th + f th'.
Proof.
  intros Ht. rewrite <- (insert_delete_id ths t th Ht) at 2. rewrite <- insert_delete_eq.
  rewrite !tsum_insert by apply lookup_delete_eq. lia.
Qed.
Lemma tsum_nonneg f ths : (forall th, 0 <= f th) -> 0 <= tsum f ths.
Proof. intros Hf. induction ths as [|t th ths Ht IH] using map_ind; [done|]. rewrite tsum_insert by done. pose proof (Hf th). lia. Qed.
Lemma tsum_in f ths t th : (forall th, 0 <= f th) -> ths !! t = Some th -> f th <= tsum f ths.
Proof.
  intros Hf Ht. rewrite <- (insert_delete_id ths t th Ht). rewrite tsum_insert by apply lookup_delete_eq.
  pose proof (tsum_nonneg f (delete t ths) Hf). lia.
Qed.
Lemma tsum_zero f ths : (forall t th, ths !! t = Some th -> f th = 0) -> tsum f ths = 0.
Proof.
  induction ths as [|t th ths Ht IH] using map_ind; intros Hf; [done|]. rewrite tsum_insert by done. rewrite (Hf t th) by apply lookup_insert_eq.
  rewrite IH; [done|]. intros u uh Hu. apply (Hf u). rewrite lookup_insert_ne; [done|]. intros ->. by rewrite Ht in Hu.
Qed.

(** ** The invariant *)

(** How often the monitor counts a thread. *)
Definition weight (p : pc) : Z :=
  match p with
  | LockBlocked _ k | LockWaiting _ k | LockWoken _ k => match k with KEnter => 1 | KWait _ _ => 2 end
  | Waiting _ _ _ | WaitWoken _ _ _ | WaitLock _ _ _ | WaitRestore _ _ _ => 1
  | _ => 0
  end.
(** The thread that is kept suspended. *)
Definition suspends (t : Z) (p : pc) : Z :=
  match p with
  | OwnerSuspended id _ _ | InstallRead _ id _ | InstallCas _ _ id _ | Installed id _ | ResumeOwner id _ => if id =? t then 1 else 0
  | _ => 0
  end.

Section Pc.
Context (w : Z) (ms : gmap Z Monitor).

Definition is_fat : Prop := exists m mon, 0 <= m < 2 ^ 30 /\ w = fat m /\ ms = {[m := mon]}.
Definition hash_is (h : Z) : Prop := w = hashed h \/ exists m mon, w = fat m /\ ms !! m = Some mon /\ hash_code_ mon = h.
Definition count_ok (c : Z) : Prop := 0 <= c <= kThinLockMaxCount.
Definition id_ok (t : Z) : Prop := 0 < t < 2 ^ 16.
Definition hash_ok (h : Z) : Prop := 0 <= h < 2 ^ 30.

(** Thread [t] does not own the lock. *)
Definition not_owned (t : Z) : Prop := (forall c, count_ok c -> w <> thin t c) /\ forall m mon, w = fat m -> ms !! m = Some mon -> owner_ mon <> t.
(** What thread [t] knows from having read a word. *)
Inductive known (t : Z) : Z -> Prop :=
| known_unlocked : not_owned t -> known t 0
| known_thin id c : id_ok id -> count_ok c -> (id = t -> w = thin id c) -> (id <> t -> not_owned t) -> known t (thin id c)
| known_fat m : 0 <= m < 2 ^ 30 -> w = fat m -> known t (fat m)
| known_hash h : 0 < h < 2 ^ 30 -> hash_is h -> not_owned t -> known t (hashed h).

(** The thread whose lock is being inflated: the thread itself, or one that it
    suspends. *)
Definition inflates (t owner resume : Z) : Prop := owner = t /\ resume = 0 \/ owner <> t /\ resume = owner.
Definition with_mon (m t : Z) (Q : Monitor -> Prop) : Prop := w = fat m /\ exists mon, ms !! m = Some mon /\ Q mon.
Definition cont_ok (k : cont) : Prop := if k is KWait prev _ then 0 <= prev else True.

Definition pc_ok (t : Z) (p : pc) : Prop :=
  match p with
  | Idle | EnterLoop | ExitLoop | WaitLoop _ _ | NotifyLoop _ | HashLoop | ResumeOwner _ _ => True
  | EnterRead v | ExitRead v | WaitRead _ _ v | NotifyRead _ v | HashRead v => known t v
  | SuspendOwner id h _ | OwnerSuspended id h _ => id_ok id /\ id <> t /\ hash_ok h
  | InstallRead mon resume _ => exists owner h, mon = mkMonitor owner 0 0 [] h /\ hash_ok h /\
      (id_ok owner /\ inflates t owner resume /\ ((exists c, count_ok c /\ w = thin owner c) \/ owner <> t /\ is_fat) \/
       owner = 0 /\ resume = 0 /\ 0 < h /\ hash_is h)
  | InstallCas v mon resume _ => exists owner c h, mon = mkMonitor owner c 0 [] h /\ hash_ok h /\ (w = v \/ owner <> t /\ is_fat) /\
      (id_ok owner /\ inflates t owner resume /\ count_ok c /\ v = thin owner c \/ owner = 0 /\ resume = 0 /\ c = 0 /\ 0 < h /\ v = hashed h)
  | Installed _ _ => is_fat
  | LockBlocked m k | LockWaiting m k | LockWoken m k => cont_ok k /\ with_mon m t (fun mon => owner_ mon <> t)
  | Waiting m prev _ | WaitWoken m prev _ | WaitLock m prev _ => 0 <= prev /\ with_mon m t (fun mon => owner_ mon <> t)
  | WaitRestore m prev _ => 0 <= prev /\ with_mon m t (fun mon => owner_ mon = t /\ lock_count_ mon = 0)
  end.
End Pc.

(** The lock word and the monitors. *)
Record mon_ok (ths : gmap Z thread) (mon : Monitor) : Prop := {
  mon_count : 0 <= lock_count_ mon;
  mon_free : owner_ mon = 0 -> lock_count_ mon = 0;
  mon_owner : owner_ mon <> 0 -> is_Some (ths !! owner_ mon);
  mon_waiters : num_waiters_ mon = tsum (fun th => weight (pc_ th)) ths;
  mon_hash : hash_ok (hash_code_ mon)
}.
Inductive shape (ths : gmap Z thread) : Z -> gmap Z Monitor -> Prop :=
| shape_unlocked : shape ths 0 ∅
| shape_thin id c : is_Some (ths !! id) -> count_ok c -> shape ths (thin id c) ∅
| shape_fat m mon : 0 <= m < 2 ^ 30 -> mon_ok ths mon -> shape ths (fat m) {[m := mon]}
| shape_hash h : 0 < h < 2 ^ 30 -> shape ths (hashed h) ∅.

Record inv (s : state) : Prop := {
  inv_ids t : is_Some (threads s !! t) -> id_ok t;
  inv_shape : shape (threads s) (word s) (monitors s);
  inv_pc t th : threads s !! t = Some th -> pc_ok (word s) (monitors s) t (pc_ th);
  inv_suspend t th : threads s !! t = Some th ->
    suspend_count th = tsum (fun uh => suspends t (pc_ uh)) (threads s) /\ (0 < suspend_count th -> safe (pc_ th) = true);
  inv_target t th u : threads s !! t = Some th -> u <> 0 -> suspends u (pc_ th) <> 0 -> is_Some (threads s !! u)
}.

(** ** Words *)

Ltac words := unfold id_ok, count_ok, hash_ok, thin, fat, hashed, kThinLockMaxCount, kThinLockCountMask, kThinLockCountSize, kThinLockOwnerSize, kStateSize in *.
Lemma thin_inj id c id' c' : id_ok id -> id_ok id' -> thin id c = thin id' c' -> id = id' /\ c = c'.
Proof. words. lia. Qed.
Lemma thin_range id c : id_ok id -> count_ok c -> 0 < thin id c < 2 ^ 30.
Proof. words. lia. Qed.
Lemma fat_range m : 0 <= m < 2 ^ 30 -> 2 ^ 30 <= fat m < 2 ^ 31.
Proof. words. lia. Qed.
Lemma hashed_range h : hash_ok h -> 2 ^ 31 <= hashed h.
Proof. words. lia. Qed.
Lemma fat_inj m m' : fat m = fat m' -> m = m'.
Proof. words. lia. Qed.
Lemma hashed_inj h h' : hashed h = hashed h' -> h = h'.
Proof. words. lia. Qed.
Lemma hash_ok_pos h : 0 < h < 2 ^ 30 -> hash_ok h.
Proof. words. lia. Qed.

(** Words of different kinds are different. *)
Ltac ranges :=
  repeat match goal with
  | H1 : id_ok ?i, H2 : count_ok ?c |- _ => lazymatch goal with _ : 0 < thin i c < 2 ^ 30 |- _ => fail | _ => pose proof (thin_range i c H1 H2) end
  | H : 0 <= ?m < 2 ^ 30 |- _ => lazymatch goal with _ : 2 ^ 30 <= fat m < 2 ^ 31 |- _ => fail | _ => pose proof (fat_range m H) end
  | H : 0 < ?h < 2 ^ 30 |- _ => lazymatch goal with _ : 2 ^ 31 <= hashed h |- _ => fail | _ => pose proof (hashed_range h (hash_ok_pos h H)) end
  end.
Ltac clash := exfalso; ranges; unfold hash_ok in *; lia.

(** ** One thread moves *)

Definition unsafe_free (s : state) (t : Z) : Prop := forall u uh, threads s !! u = Some uh -> suspends t (pc_ uh) = 0.
Lemma suspends_nonneg t p : 0 <= suspends t p.
Proof. destruct p; cbn; try case_match; lia. Qed.
Lemma weight_nonneg p : 0 <= weight p.
Proof. destruct p; cbn; try case_match; lia. Qed.
Lemma unsafe_running s t th : inv s -> threads s !! t = Some th -> safe (pc_ th) = false -> suspend_count th = 0 /\ unsafe_free s t.
Proof.
  intros Hi Ht Hp. destruct (inv_suspend s Hi t th Ht) as [Hc Hs].
  pose proof (tsum_nonneg (fun uh => suspends t (pc_ uh)) (threads s) (fun uh => suspends_nonneg t (pc_ uh))).
  assert (suspend_count th = 0) as E by (destruct (Z.ltb_spec 0 (suspend_count th)) as [Hlt|]; [rewrite Hs in Hp by done; done|lia]).
  split; [done|]. intros u uh Hu. pose proof (tsum_in (fun uh => suspends t (pc_ uh)) (threads s) u uh (fun uh => suspends_nonneg t (pc_ uh)) Hu).
  pose proof (suspends_nonneg t (pc_ uh)). cbn in *. lia.
Qed.
Lemma alter_pc s t th p : threads s !! t = Some th -> alter (at_pc p) t (threads s) = <[t := mkThread p (suspend_count th) (interrupted_ th)]> (threads s).
Proof. intros Ht. apply map_eq. intros u. destruct (decide (u = t)) as [->|Hu]; [by rewrite lookup_alter_eq, lookup_insert_eq, Ht|by rewrite lookup_alter_ne, lookup_insert_ne]. Qed.

Lemma inv_thread s s' t th p i : inv s -> threads s !! t = Some th -> threads s' = <[t := mkThread p (suspend_count th) i]> (threads s) ->
  (forall u, u <> 0 -> suspends u p = suspends u (pc_ th)) -> (0 < suspend_count th -> safe p = true) ->
  shape (threads s') (word s') (monitors s') ->
  (forall u uh, u <> t -> threads s !! u = Some uh -> pc_ok (word s) (monitors s) u (pc_ uh) -> pc_ok (word s') (monitors s') u (pc_ uh)) ->
  pc_ok (word s') (monitors s') t p -> inv s'.
Proof.
  intros Hi Ht Es Hsus Hsafe Hshape Hothers Hself. split; [|done| | |]; rewrite Es; intros u.
  - intros [uh Hu]. destruct (decide (u = t)) as [->|Hne]; [by apply (inv_ids s Hi)|]. rewrite lookup_insert_ne in Hu by done. by apply (inv_ids s Hi).
  - intros uh Hu. destruct (decide (u = t)) as [->|Hne]; [rewrite lookup_insert_eq in Hu; by injection Hu as <-|].
    rewrite lookup_insert_ne in Hu by done. apply (Hothers u uh Hne Hu). by apply (inv_pc s Hi).
  - intros uh Hu. assert (tsum (fun uh => suspends u (pc_ uh)) (<[t := mkThread p (suspend_count th) i]> (threads s)) = tsum (fun uh => suspends u (pc_ uh)) (threads s)) as ->.
    { assert (id_ok u) as Hid. { apply (inv_ids s Hi). destruct (decide (u = t)) as [->|Hne]; [by rewrite Ht|]. rewrite lookup_insert_ne in Hu by done. by rewrite Hu. }
      rewrite (tsum_update _ _ _ th) by done. cbn. rewrite Hsus by (words; lia). lia. }
    destruct (decide (u = t)) as [->|Hne]; [rewrite lookup_insert_eq in Hu; injection Hu as <-; cbn; split; [by apply (inv_suspend s Hi)|done]|].
    rewrite lookup_insert_ne in Hu by done. by apply (inv_suspend s Hi).
  - intros uh v Hu Hv Hn. assert (is_Some (threads s !! v)) as [vh Hvh].
    { destruct (decide (u = t)) as [->|Hne]; [rewrite lookup_insert_eq in Hu; injection Hu as <-; cbn in Hn; rewrite Hsus in Hn by done; by eapply (inv_target s Hi t)|].
      rewrite lookup_insert_ne in Hu by done. by eapply (inv_target s Hi u). }
    destruct (decide (v = t)) as [->|Hne]; [by rewrite lookup_insert_eq|by rewrite lookup_insert_ne, Hvh].
Qed.

Lemma shape_cases ths w ms : shape ths w ms ->
  w = 0 /\ ms = ∅ \/ (exists id c, w = thin id c /\ ms = ∅ /\ is_Some (ths !! id) /\ count_ok c) \/
  (exists m mon, w = fat m /\ ms = {[m := mon]} /\ 0 <= m < 2 ^ 30 /\ mon_ok ths mon) \/ (exists h, w = hashed h /\ ms = ∅ /\ 0 < h < 2 ^ 30).
Proof. destruct 1; eauto 20. Qed.

(** The word of a state in which threads depend on a monitor. *)
Lemma weight_fat w ms t p : pc_ok w ms t p -> 0 < weight p -> exists m mon, w = fat m /\ ms !! m = Some mon.
Proof. intros Hp Hw. destruct p; cbn in *; try lia; destruct Hp as [_ (E & mon & Hm & _)]; eauto. Qed.
Lemma no_weight s : inv s -> (forall m, 0 <= m < 2 ^ 30 -> word s <> fat m) -> forall t th, threads s !! t = Some th -> weight (pc_ th) = 0.
Proof.
  intros Hi Hn t th Ht. pose proof (weight_nonneg (pc_ th)). destruct (Z.eqb_spec (weight (pc_ th)) 0) as [|Hw]; [done|exfalso].
  destruct (weight_fat _ _ _ _ (inv_pc s Hi t th Ht)) as (m & mon & E & Hm); [lia|].
  destruct (shape_cases _ _ _ (inv_shape s Hi)) as [(_ & E0)|[(? & ? & _ & E0 & _)|[(m' & mon' & Ew & E0 & Hm' & _)|(? & _ & E0 & _)]]]; rewrite E0 in Hm; try done.
  by apply (Hn m' Hm').
Qed.

Section Frames.
Context (ths : gmap Z thread) (t : Z) (th th' : thread) (Ht : ths !! t = Some th).

Lemma still_there u : is_Some (ths !! u) -> is_Some (<[t := th']> ths !! u).
Proof. destruct (decide (u = t)) as [->|Hne]; [by rewrite lookup_insert_eq|by rewrite lookup_insert_ne]. Qed.
Lemma mon_update mon mon' : mon_ok ths mon -> 0 <= lock_count_ mon' -> (owner_ mon' = 0 -> lock_count_ mon' = 0) ->
  (owner_ mon' = 0 \/ owner_ mon' = t \/ owner_ mon' = owner_ mon) -> num_waiters_ mon' = num_waiters_ mon + weight (pc_ th') - weight (pc_ th) -> hash_ok (hash_code_ mon') ->
  mon_ok (<[t := th']> ths) mon'.
Proof.
  intros [M1 M2 M3 M4 M5] Hc Hf Ho Hw Hh. split; try done.
  - intros Hn. destruct Ho as [?|[->|E]]; [done|by rewrite lookup_insert_eq|]. apply still_there. rewrite E in *. auto.
  - rewrite (tsum_update _ _ _ th) by done. lia.
Qed.
Lemma shape_update w ms : shape ths w ms -> weight (pc_ th') = weight (pc_ th) -> shape (<[t := th']> ths) w ms.
Proof.
  intros Hs Hw. destruct Hs as [|id c Hid Hc|m mon Hm Hok|h Hh]; [constructor|constructor; [by apply still_there|done]|constructor; [done|]|by constructor].
  pose proof Hok as [M1 M2 M3 M4 M5]. apply (mon_update mon); try done; [auto|lia].
Qed.
End Frames.

(** What other threads know stays true when the monitor changes, *)
Lemma frame_mon w m mon mon' t u p : w = fat m -> id_ok u -> u <> t -> (hash_code_ mon' = hash_code_ mon \/ hash_code_ mon = 0) ->
  (owner_ mon' = owner_ mon /\ lock_count_ mon' = lock_count_ mon \/ (owner_ mon = 0 \/ owner_ mon = t) /\ (owner_ mon' = 0 \/ owner_ mon' = t)) ->
  pc_ok w {[m := mon]} u p -> pc_ok w {[m := mon']} u p.
Proof.
  intros Ew Hu Hne Hh Ho. assert (u <> 0) as Hu0 by (words; lia).
  assert (forall h, 0 < h -> hash_is w {[m := mon]} h -> hash_is w {[m := mon']} h) as Hhash.
  { intros h Hpos [E|(m' & mn & E & Hm & Eh)]; [by left|]. right. rewrite E in Ew. apply fat_inj in Ew as ->. rewrite lookup_singleton_eq in Hm. injection Hm as <-.
    exists m, mon'. rewrite lookup_singleton_eq. split_and!; try done. destruct Hh; lia. }
  assert (is_fat w {[m := mon]} -> is_fat w {[m := mon']}) as Hfat.
  { intros (m' & mn & Hm & E & _). exists m, mon'. rewrite E in Ew. apply fat_inj in Ew as ->. done. }
  assert (not_owned w {[m := mon]} u -> not_owned w {[m := mon']} u) as Hno.
  { intros [N1 N2]. split; [done|]. intros m' mn E Hm. rewrite E in Ew. apply fat_inj in Ew as ->. rewrite lookup_singleton_eq in Hm. injection Hm as <-.
    specialize (N2 m mon E (lookup_singleton_eq m mon)). intuition congruence. }
  assert (forall v, known w {[m := mon]} u v -> known w {[m := mon']} u v) as Hknown.
  { destruct 1; constructor; auto. apply Hhash; [lia|done]. }
  assert (forall m1 (P : Monitor -> Prop), (P mon -> P mon') -> with_mon w {[m := mon]} m1 u P -> with_mon w {[m := mon']} m1 u P) as Hmon.
  { intros m1 P HP (E & mn & Hm & HQ). split; [done|]. rewrite E in Ew. apply fat_inj in Ew as ->. rewrite lookup_singleton_eq in Hm. injection Hm as <-.
    exists mon'. rewrite lookup_singleton_eq. auto. }
  destruct p; cbn; try done; auto;
    try (intros [Hk Hw]; split; [exact Hk|]; revert Hw; apply Hmon; intuition congruence).
  - intros (owner & h & Em & Hok & [(? & ? & [Hc|[? ?]])|(? & ? & ? & ?)]); exists owner, h; split_and!; try done; [left; by split_and!; [| |left]|left; split_and!; auto|right; split_and!; auto].
  - intros (owner & c & h & Em & Hok & Hv & Hrest). exists owner, c, h. split_and!; try done. destruct Hv as [|[? ?]]; auto.
Qed.
(** when a free lock word is taken, *)
Lemma frame_free w' ms' u p : not_owned w' ms' u -> pc_ok 0 ∅ u p -> pc_ok w' ms' u p.
Proof.
  intros Hno. assert (forall id c, id_ok id -> count_ok c -> 0 <> thin id c) as Hthin by (intros; ranges; lia).
  assert (~ is_fat 0 ∅) as Hfat by (intros (m & ? & Hm & E & _); clash).
  assert (forall h, 0 < h < 2 ^ 30 -> ~ hash_is 0 ∅ h) as Hhash by (intros h Hh [E|(m & mon & _ & Hm & _)]; [clash|done]).
  assert (forall v, known 0 ∅ u v -> known w' ms' u v) as Hknown.
  { destruct 1 as [|id c Hi Hc Hown|m Hm E|h Hh HH]; [by constructor|constructor; try done; intros E; by destruct (Hthin id c Hi Hc (Hown E))|clash|by destruct (Hhash h)]. }
  destruct p; cbn; try done; auto;
    try (intros [_ (_ & mon & Hm & _)]; done).
  - intros (owner & h & _ & Hok & [(Ho & _ & [(c & Hc & E)|[_ Hf]])|(_ & _ & Hpos & HH)]); [by destruct (Hthin owner c)|done|]. destruct (Hhash h); [words; lia|done].
  - intros (owner & c & h & _ & Hok & [E|[_ Hf]] & [(Ho & _ & Hc & Ev)|(_ & _ & _ & Hpos & Ev)]); try done; rewrite Ev in E; [by destruct (Hthin owner c)|].
    assert (0 < h < 2 ^ 30) by (words; lia). clash.
Qed.
Lemma not_fat_empty w : ~ is_fat w ∅.
Proof. intros (m & mon & _ & _ & E). symmetry in E. by apply (insert_non_empty ∅ m mon) in E. Qed.
Lemma hash_is_empty w h : hash_is w ∅ h -> w = hashed h.
Proof. intros [E|(m & mon & _ & Hm & _)]; done. Qed.
Lemma no_mon_empty w m u P : ~ with_mon w ∅ m u P.
Proof. intros (_ & mon & Hm & _). done. Qed.
(** when the owner of a thin lock changes the word, *)
Lemma frame_thin t c w' u p : id_ok t -> count_ok c -> u <> t -> suspends t p = 0 -> not_owned w' ∅ u -> pc_ok (thin t c) ∅ u p -> pc_ok w' ∅ u p.
Proof.
  intros Ht Hc Hne Hs Hno. set (w := thin t c).
  assert (forall h, 0 < h < 2 ^ 30 -> w <> hashed h) as Hhash by (intros h Hh E; unfold w in E; clash).
  assert (forall id c', id_ok id -> w = thin id c' -> id = t) as Hthin by (intros id c' Hi E; by apply thin_inj in E as [-> _]).
  assert (forall v, known w ∅ u v -> known w' ∅ u v) as Hknown.
  { destruct 1 as [|id c' Hi Hc' Hown|m Hm E|h Hh HH]; [by constructor|constructor; try done; intros E; by destruct (Hne); rewrite <- (Hthin id c' Hi (Hown E))|unfold w in E; clash|].
    apply hash_is_empty in HH. by destruct (Hhash h). }
  destruct p; cbn in *; try done; auto; try (intros [_ Hm]; by apply no_mon_empty in Hm).
  - intros (owner & h & _ & Hok & [(Ho & Hi & [(c' & Hc' & E)|[_ Hf]])|(_ & _ & Hpos & HH)]); [|by apply not_fat_empty in Hf|].
    + apply Hthin in E; [|done]. subst owner. destruct Hi as [[? _]|[_ ->]]; [congruence|]. by rewrite Z.eqb_refl in Hs.
    + apply hash_is_empty in HH. destruct (Hhash h); [words; lia|done].
  - intros (owner & c' & h & _ & Hok & [E|[_ Hf]] & [(Ho & Hi & Hc' & Ev)|(_ & _ & _ & Hpos & Ev)]); try (by apply not_fat_empty in Hf); rewrite <- E in Ev.
    + apply Hthin in Ev; [|done]. subst owner. destruct Hi as [[? _]|[_ ->]]; [congruence|]. by rewrite Z.eqb_refl in Hs.
    + destruct (Hhash h); [words; lia|done].
  - intros Hf. by apply not_fat_empty in Hf.
Qed.
(** and when the word is inflated. *)
Lemma frame_inflate w m mon u p : 0 <= m < 2 ^ 30 -> id_ok u -> (forall c, count_ok c -> w = thin u c -> safe p = true) -> (forall h, 0 < h -> w = hashed h -> hash_code_ mon = h) ->
  (forall m', 0 <= m' < 2 ^ 30 -> w <> fat m') -> (owner_ mon = u -> exists c, count_ok c /\ w = thin u c) ->
  pc_ok w ∅ u p -> pc_ok (fat m) {[m := mon]} u p.
Proof.
  intros Hm Hu Hown Hhash Hnf Howner.
  assert (not_owned w ∅ u -> not_owned (fat m) {[m := mon]} u) as Hno.
  { intros [N1 _]. split; [intros c Hc E; clash|]. intros m' mn E Hmn. apply fat_inj in E as <-. rewrite lookup_singleton_eq in Hmn. injection Hmn as <-.
    intros Eo. destruct (Howner Eo) as (c & Hc & Ew). by apply (N1 c Hc). }
  assert (is_fat (fat m) {[m := mon]}) as Hfat by (by exists m, mon).
  assert (forall h, 0 < h -> hash_is w ∅ h -> hash_is (fat m) {[m := mon]} h) as HH.
  { intros h Hpos Hh. apply hash_is_empty in Hh. right. exists m, mon. rewrite lookup_singleton_eq. split_and!; try done. by apply Hhash. }
  assert (forall v, safe p = false -> known w ∅ u v -> known (fat m) {[m := mon]} u v) as Hknown.
  { intros v Hp. destruct 1 as [|id c' Hi Hc' Ho|m' Hm' E|h Hh Hh']; [constructor; auto| |by destruct (Hnf m' Hm')|constructor; [done|apply HH; [lia|done]|auto]].
    constructor; auto. intros ->. rewrite (Hown c') in Hp by auto. done. }
  destruct p; cbn in *; try done; auto; try (intros [_ Hw]; by apply no_mon_empty in Hw).
  - intros (owner & h & Em & Hok & [(Ho & Hi & [(c' & Hc' & E)|[_ Hf]])|(E1 & E2 & Hpos & Hh)]); [|by apply not_fat_empty in Hf|].
    + exists owner, h. split_and!; try done. left. split_and!; try done. right. split; [|done]. intros ->. by specialize (Hown c' Hc' E).
    + exists owner, h. split_and!; try done. right. split_and!; auto.
  - intros (owner & c' & h & Em & Hok & [E|[_ Hf]] & Hrest); [|by apply not_fat_empty in Hf]. exists owner, c', h. split_and!; try done. right. split; [|done].
    intros ->. destruct Hrest as [(Ho & Hi & Hc' & Ev)|(E0 & _)]; [|words; lia]. rewrite <- E in Ev. by specialize (Hown c' Hc' Ev).
Qed.
