(* ===== verification/MonitorSpec.v ===== *)
(** * MonitorSpec: the monitor of the language, and the steps that implement it

    What the language knows of the lock of an object: its owner, how often the owner has
    locked it, how often the threads that wait had, and the identity hash code.  Whether
    the lock is thin or fat, and who contends for it, is not part of that.  Each
    step keeps the invariant, wakes a contender when it frees the lock, and is a step of the
    monitor of the language. *)

From stdpp Require Import base list gmap.
From S2P Require Import Prelude LockWord Monitor MonitorInv.

(** ** The monitor of the language *)

Record jmon := mkJ { j_owner : Z; j_depth : Z; j_hash : Z; j_waits : Z -> option Z }.

Definition jeffect (t : Z) (e : event) (o d : Z) (w : option Z) (o' d' : Z) (w' : option Z) (h' : Z) : Prop :=
  match e with
  | Tau => o' = o /\ d' = d /\ w' = w
  | EvEnter => (o = 0 \/ o = t) /\ o' = t /\ d' = d + 1 /\ w' = w
  | EvExit true => o = t /\ o' = (if d =? 1 then 0 else t) /\ d' = d - 1 /\ w' = w
  | EvExit false | EvIllegalState => o <> t /\ o' = o /\ d' = d /\ w' = w
  | EvIllegalArgument | EvNotify | EvWaitDone _ => o = t /\ o' = o /\ d' = d /\ w' = w
  | EvWait => o = t /\ w = None /\ o' = 0 /\ d' = 0 /\ w' = Some d
  | EvRestore n => o = 0 /\ w = Some n /\ o' = t /\ d' = n /\ w' = None
  | EvHash h => o' = o /\ d' = d /\ w' = w /\ h' = h /\ 0 < h
  end.
Definition jstep (t : Z) (e : event) (j j' : jmon) : Prop :=
  jeffect t e (j_owner j) (j_depth j) (j_waits j t) (j_owner j') (j_depth j') (j_waits j' t) (j_hash j') /\
  (j_hash j <> 0 -> j_hash j' = j_hash j) /\ forall u, u <> t -> j_waits j' u = j_waits j u.

(** ** What a state implements *)

Definition waits (p : pc) : option Z :=
  match p with
  | Waiting _ prev _ | WaitWoken _ prev _ | WaitLock _ prev _ => Some (prev + 1)
  | LockBlocked _ k | LockWaiting _ k | LockWoken _ k => match k with KWait prev _ => Some (prev + 1) | KEnter => None end
  | _ => None
  end.
(** A thread that has its lock back has yet to restore the count. *)
Definition restores (p : pc) : option Z := match p with WaitRestore _ prev _ => Some (prev + 1) | _ => None end.
Definition mon_depth (ths : gmap Z thread) (mon : Monitor) : Z :=
  if owner_ mon =? 0 then 0 else default (lock_count_ mon + 1) (th ← ths !! owner_ mon; restores (pc_ th)).

Definition the_mon (s : state) : option Monitor := monitors s !! FatLockMonitor (word s).
Definition the_owner (s : state) : Z :=
  match GetState (word s) with kThinLocked => ThinLockOwner (word s) | kFatLocked => from_option owner_ 0 (the_mon s) | _ => 0 end.
Definition the_depth (s : state) : Z :=
  match GetState (word s) with kThinLocked => ThinLockCount (word s) + 1 | kFatLocked => from_option (mon_depth (threads s)) 0 (the_mon s) | _ => 0 end.
Definition the_hash (s : state) : Z :=
  match GetState (word s) with kHashCode => GetHashCode (word s) | kFatLocked => from_option hash_code_ 0 (the_mon s) | _ => 0 end.
Definition waits_at (s : state) (t : Z) : option Z := th ← threads s !! t; waits (pc_ th).
Definition abs (s : state) : jmon := mkJ (the_owner s) (the_depth s) (the_hash s) (waits_at s).

(** ** Wake-ups *)

Definition asleep (p : pc) : bool := match p with LockWaiting _ _ => true | _ => false end.
Definition awake (p : pc) : bool := match p with LockBlocked _ _ | LockWoken _ _ => true | _ => false end.
(** While the lock is free, a thread that sleeps is not the only one that wants it. *)
Definition wakes (s : state) : Prop :=
  the_owner s = 0 -> forall t th, threads s !! t = Some th -> asleep (pc_ th) = true -> exists u uh, threads s !! u = Some uh /\ awake (pc_ uh) = true.

(** Without the thread [t], too. *)
Definition ready (s : state) (t : Z) : Prop :=
  forall v vh, threads s !! v = Some vh -> asleep (pc_ vh) = true -> exists u uh, u <> t /\ threads s !! u = Some uh /\ awake (pc_ uh) = true.

Definition good (t : Z) (e : event) (s s' : state) : Prop := inv s' /\ wakes s' /\ jstep t e (abs s) (abs s').

(** ** States by the kind of their word *)

Lemma abs_free s : word s = 0 -> the_owner s = 0 /\ the_depth s = 0 /\ the_hash s = 0.
Proof. unfold the_owner, the_depth, the_hash. by intros ->. Qed.
Lemma abs_thin s id c : word s = thin id c -> id_ok id -> count_ok c -> the_owner s = id /\ the_depth s = c + 1 /\ the_hash s = 0.
Proof. unfold the_owner, the_depth, the_hash. intros -> Hi Hc. by destruct (thin_ok id c Hi Hc) as (-> & -> & ->). Qed.
Lemma abs_fat s m mon : word s = fat m -> 0 <= m < 2 ^ 30 -> monitors s = {[m := mon]} ->
  the_owner s = owner_ mon /\ the_depth s = mon_depth (threads s) mon /\ the_hash s = hash_code_ mon.
Proof.
  unfold the_owner, the_depth, the_hash, the_mon. intros -> Hm ->. destruct (fat_ok m Hm) as (-> & ->). by rewrite lookup_singleton_eq.
Qed.
Lemma abs_hashed s h : word s = hashed h -> hash_ok h -> the_owner s = 0 /\ the_depth s = 0 /\ the_hash s = h.
Proof. unfold the_owner, the_depth, the_hash. intros -> Hh. by destruct (hashed_ok h Hh) as (-> & ->). Qed.

(** ** Moves of one thread *)

Section Move.
Context (s s' : state) (t : Z) (th : thread) (p : pc) (i : bool).
Context (Hi : inv s) (Hw : wakes s) (Ht : threads s !! t = Some th).
Context (Es : threads s' = <[t := mkThread p (suspend_count th) i]> (threads s)).

Lemma move_waits : waits_at s t = waits (pc_ th) /\ waits_at s' t = waits p /\ forall u, u <> t -> waits_at s' u = waits_at s u.
Proof.
  unfold waits_at. rewrite Es, Ht, lookup_insert_eq. split_and!; try done. intros u Hu. by rewrite lookup_insert_ne.
Qed.
(** A step keeps wake-ups if the lock was free before or had no monitor, or if another
    thread is awake. *)
Lemma move_wakes :
  (the_owner s' = 0 -> awake p = true \/ (awake p = awake (pc_ th) /\ asleep p = asleep (pc_ th) /\
    (the_owner s = 0 \/ (forall m, 0 <= m < 2 ^ 30 -> word s <> fat m) \/ ready s t))) ->
  wakes s'.
Proof.
  intros Hc Ho v vh Hv Ha. rewrite Es in *. destruct (Hc Ho) as [Hp|(Hp1 & Hp2 & Hrest)].
  { eexists t, _. by rewrite lookup_insert_eq. }
  assert (exists vh', threads s !! v = Some vh' /\ asleep (pc_ vh') = true) as (vh' & Hv' & Ha').
  { destruct (decide (v = t)) as [->|Hne]; [|rewrite lookup_insert_ne in Hv by done; eauto].
    rewrite lookup_insert_eq in Hv. injection Hv as <-. exists th. by rewrite <- Hp2. }
  destruct Hrest as [Hfree|[Hnf|Hr]].
  - destruct (Hw Hfree v vh' Hv' Ha') as (u & uh & Hu & Hk). destruct (decide (u = t)) as [->|Hne].
    + eexists t, _. rewrite lookup_insert_eq. split; [done|]. cbn. rewrite Hp1. congruence.
    + exists u, uh. by rewrite lookup_insert_ne.
  - pose proof (no_weight s Hi Hnf v vh' Hv') as H0. destruct (pc_ vh') as [| | | | | | | | | | | | | | | | | |? k| | | | |]; try done. by destruct k.
  - destruct (Hr v vh' Hv' Ha') as (u & uh & Hu & Hl & Hk). exists u, uh. by rewrite lookup_insert_ne.
Qed.
Lemma moves e :
  (forall u, u <> 0 -> suspends u p = suspends u (pc_ th)) -> (0 < suspend_count th -> safe p = true) ->
  shape (threads s') (word s') (monitors s') ->
  (forall u uh, u <> t -> threads s !! u = Some uh -> pc_ok (word s) (monitors s) u (pc_ uh) -> pc_ok (word s') (monitors s') u (pc_ uh)) ->
  pc_ok (word s') (monitors s') t p -> wakes s' ->
  jeffect t e (the_owner s) (the_depth s) (waits (pc_ th)) (the_owner s') (the_depth s') (waits p) (the_hash s') ->
  (the_hash s <> 0 -> the_hash s' = the_hash s) ->
  good t e s s'.
Proof.
  intros. destruct move_waits as (E1 & E2 & E3). split_and!; [by eapply (inv_thread s s' t th p i)|done|].
  split_and!; cbn; [by rewrite E1, E2|done|done].
Qed.
End Move.

Lemma mon_depth_update ths t th th' mon : ths !! t = Some th -> restores (pc_ th') = restores (pc_ th) -> mon_depth (<[t := th']> ths) mon = mon_depth ths mon.
Proof.
  intros Ht Hr. unfold mon_depth. destruct (decide (owner_ mon = t)) as [->|Hne]; [|by rewrite lookup_insert_ne].
  rewrite lookup_insert_eq, Ht. cbn. by rewrite Hr.
Qed.
Lemma depth_update s s' t th th' : word s' = word s -> monitors s' = monitors s -> threads s' = <[t := th']> (threads s) -> threads s !! t = Some th ->
  restores (pc_ th') = restores (pc_ th) -> the_owner s' = the_owner s /\ the_depth s' = the_depth s /\ the_hash s' = the_hash s.
Proof.
  intros E1 E2 E3 Ht Hr. unfold the_owner, the_depth, the_hash, the_mon. rewrite E1, E2, E3. split_and!; try done.
  destruct (GetState (word s)); try done. destruct (monitors s !! _) as [mon|]; [|done]. cbn. by apply (mon_depth_update _ t th).
Qed.

(** The thread moves, and the lock does not change. *)
Lemma local_move s t th p i e : inv s -> wakes s -> threads s !! t = Some th ->
  (forall u, u <> 0 -> suspends u p = suspends u (pc_ th)) -> (0 < suspend_count th -> safe p = true) ->
  weight p = weight (pc_ th) -> restores p = restores (pc_ th) -> (awake p = true \/ awake p = awake (pc_ th) /\ asleep p = asleep (pc_ th) \/ the_owner s <> 0) ->
  pc_ok (word s) (monitors s) t p ->
  jeffect t e (the_owner s) (the_depth s) (waits (pc_ th)) (the_owner s) (the_depth s) (waits p) (the_hash s) ->
  good t e s (set_thread t (mkThread p (suspend_count th) i) s).
Proof.
  intros Hi Hw Ht Hs Hsafe Hwt Hr Ha Hp He.
  destruct (depth_update s (set_thread t (mkThread p (suspend_count th) i) s) t th _ eq_refl eq_refl eq_refl Ht Hr) as (E1 & E2 & E3).
  apply (moves s _ t th p i); try done; cbn [set_thread word monitors threads].
  - apply (shape_update _ t th); [done|apply (inv_shape s Hi)|done].
  - eapply (move_wakes s _ t th p i); try done. rewrite E1. intros Ho. destruct Ha as [|[[]|]]; [by left|right; auto|done].
  - by rewrite E1, E2, E3.
Qed.
Lemma set_pc_thread s t th p : threads s !! t = Some th -> set_pc t p s = set_thread t (mkThread p (suspend_count th) (interrupted_ th)) s.
Proof. intros Ht. unfold set_pc, set_thread. by rewrite (alter_pc s t th). Qed.

(** A quiet move of a thread can be taken together with the move of another. *)
Lemma good_trans u t e s s1 s' : good u Tau s s1 -> good t e s1 s' -> good t e s s'.
Proof.
  intros (_ & _ & (E1 & E2 & E3) & Hh & Hu) (Hi & Hw & He & Hh' & Hu'). split_and!; try done. cbn in *.
  assert (forall v, waits_at s1 v = waits_at s v) as Hv by (intros v; destruct (decide (v = u)) as [->|]; auto).
  rewrite E1, E2, Hv in He. split_and!; cbn; [done|intros; rewrite Hh' by (rewrite Hh; auto); auto|]. intros v Hne. rewrite Hu' by done. apply Hv.
Qed.

(** What each kind of word says of the state. *)
Lemma singleton_inj (m : Z) (mon mon' : Monitor) : ({[m := mon]} : gmap Z Monitor) = {[m := mon']} -> mon = mon'.
Proof. intros E. apply (f_equal (.!! m)) in E. rewrite !lookup_singleton_eq in E. by injection E. Qed.
Section Words.
Context (s : state) (Hi : inv s).
Lemma fat_shape m : word s = fat m -> 0 <= m < 2 ^ 30 -> exists mon, monitors s = {[m := mon]} /\ mon_ok (threads s) mon.
Proof.
  intros Ew Hm. destruct (shape_cases _ _ _ (inv_shape s Hi)) as [[E _]|[(id & c & E & _ & Hid & Hc)|[(m' & mon & E & Em & Hm' & Hok)|(h & E & _ & Hh)]]]; rewrite E in Ew.
  - clash.
  - pose proof (inv_ids s Hi id Hid). clash.
  - apply fat_inj in Ew as ->. eauto.
  - clash.
Qed.
Lemma thin_shape id c : word s = thin id c -> id_ok id -> count_ok c -> monitors s = ∅ /\ is_Some (threads s !! id).
Proof.
  intros Ew Hi' Hc. destruct (shape_cases _ _ _ (inv_shape s Hi)) as [[E _]|[(id' & c' & E & Em & Hid & Hc')|[(m' & mon & E & Em & Hm' & Hok)|(h & E & _ & Hh)]]]; rewrite E in Ew.
  - clash.
  - pose proof (inv_ids s Hi id' Hid). by apply thin_inj in Ew as [-> _].
  - clash.
  - clash.
Qed.
Lemma free_shape : word s = 0 -> monitors s = ∅.
Proof.
  intros Ew. destruct (shape_cases _ _ _ (inv_shape s Hi)) as [[_ E]|[(id' & c' & E & Em & Hid & Hc')|[(m' & mon & E & Em & Hm' & Hok)|(h & E & Em & Hh)]]]; try done.
  rewrite E in Ew. clash.
Qed.
Lemma hashed_shape h : word s = hashed h -> 0 < h < 2 ^ 30 -> monitors s = ∅.
Proof.
  intros Ew Hh. destruct (shape_cases _ _ _ (inv_shape s Hi)) as [[_ E]|[(id' & c' & E & Em & Hid & Hc')|[(m' & mon & E & Em & Hm' & Hok)|(h' & E & Em & Hh')]]]; try done.
  rewrite E in Ew. clash.
Qed.
End Words.

(** The monitor changes with the thread. *)
Lemma mon_move s t th m mon mon' p i e : inv s -> threads s !! t = Some th -> word s = fat m -> 0 <= m < 2 ^ 30 -> monitors s = {[m := mon]} ->
  (forall u, u <> 0 -> suspends u p = suspends u (pc_ th)) -> (0 < suspend_count th -> safe p = true) ->
  0 <= lock_count_ mon' -> (owner_ mon' = 0 -> lock_count_ mon' = 0) -> num_waiters_ mon' = num_waiters_ mon + weight p - weight (pc_ th) ->
  hash_ok (hash_code_ mon') -> (hash_code_ mon' = hash_code_ mon \/ hash_code_ mon = 0) ->
  (owner_ mon' = owner_ mon /\ lock_count_ mon' = lock_count_ mon \/ (owner_ mon = 0 \/ owner_ mon = t) /\ (owner_ mon' = 0 \/ owner_ mon' = t)) ->
  pc_ok (fat m) {[m := mon']} t p ->
  let s' := mkS (word s) (<[m := mon']> (monitors s)) (<[t := mkThread p (suspend_count th) i]> (threads s)) in
  (the_owner s' = owner_ mon' -> wakes s') ->
  jeffect t e (owner_ mon) (mon_depth (threads s) mon) (waits (pc_ th)) (owner_ mon') (mon_depth (threads s') mon') (waits p) (hash_code_ mon') ->
  good t e s s'.
Proof.
  intros Hi Ht Ew Hm Em Hs Hsafe Hc Hf Hn Hh Hh' Ho Hp s' Hwk He.
  destruct (fat_shape s Hi m Ew Hm) as (mon1 & Em1 & Hok). rewrite Em in Em1. apply singleton_inj in Em1 as <-.
  assert (monitors s' = {[m := mon']}) as Em' by (cbn; rewrite Em; apply insert_singleton_eq).
  destruct (abs_fat s m mon Ew Hm Em) as (A1 & A2 & A3). destruct (abs_fat s' m mon' Ew Hm Em') as (B1 & B2 & B3).
  apply (moves s s' t th p i); try done.
  - rewrite Em'. cbn [s' word threads]. rewrite Ew. constructor; [done|]. apply (mon_update _ t th _ Ht mon); try done. intuition congruence.
  - intros u uh Hne Hu. rewrite Em', Em. cbn [s' word]. apply (frame_mon _ m mon mon' t u); try done. apply (inv_ids s Hi). by rewrite Hu.
  - rewrite Em'. cbn [s' word]. by rewrite Ew.
  - auto.
  - by rewrite A1, A2, B1, B2, B3.
  - rewrite A3, B3. intros. by destruct Hh'.
Qed.

(** The lock word changes with the thread, and no thread depends on a monitor. *)
Lemma asleep_weight p : asleep p = true -> 0 < weight p.
Proof. destruct p; try done. cbn. case_match; lia. Qed.
Lemma word_wakes s t th p i w' ms' : inv s -> threads s !! t = Some th -> (forall m, 0 <= m < 2 ^ 30 -> word s <> fat m) -> weight p = 0 ->
  wakes (mkS w' ms' (<[t := mkThread p (suspend_count th) i]> (threads s))).
Proof.
  intros Hi Ht Hn Hp _ v vh Hv Ha%asleep_weight. cbn in Hv. destruct (decide (v = t)) as [->|Hne].
  - rewrite lookup_insert_eq in Hv. injection Hv as <-. cbn in Ha. lia.
  - rewrite lookup_insert_ne in Hv by done. pose proof (no_weight s Hi Hn v vh Hv). lia.
Qed.
Lemma not_fat_thin id c m : id_ok id -> count_ok c -> 0 <= m < 2 ^ 30 -> thin id c <> fat m.
Proof. intros ? ? ? E. clash. Qed.
Lemma not_owned_thin t u c : id_ok t -> id_ok u -> count_ok c -> u <> t -> not_owned (thin t c) ∅ u.
Proof. intros Ht Hu Hc Hne. split; [|done]. intros c' Hc' E. apply thin_inj in E as [? _]; [congruence|done..]. Qed.
Lemma not_owned_free u : id_ok u -> not_owned 0 ∅ u.
Proof. intros Hu. split; [|done]. intros c' Hc' E. clash. Qed.
Lemma not_owned_hashed u h : id_ok u -> 0 < h < 2 ^ 30 -> not_owned (hashed h) ∅ u.
Proof. intros Hu Hh. split; [|done]. intros c' Hc' E. clash. Qed.

Definition next_word (t w' : Z) : Prop := w' = 0 \/ exists c, count_ok c /\ w' = thin t c.
Lemma thin_move s t th c w' e : inv s -> threads s !! t = Some th -> safe (pc_ th) = false -> (forall u, u <> 0 -> suspends u (pc_ th) = 0) ->
  word s = thin t c -> count_ok c -> next_word t w' ->
  let s' := set_pc t Idle (set_word w' s) in
  jeffect t e t (c + 1) (waits (pc_ th)) (the_owner s') (the_depth s') None 0 ->
  good t e s s'.
Proof.
  intros Hi Ht Hsafe Hsus Ew Hc Hw' s' He. pose proof (inv_ids s Hi t ltac:(by rewrite Ht)) as Hid.
  destruct (thin_shape s Hi t c Ew Hid Hc) as [Em Hex]. destruct (unsafe_running s t th Hi Ht Hsafe) as [Hz Hfree].
  assert (threads s' = <[t := mkThread Idle (suspend_count th) (interrupted_ th)]> (threads s)) as Es by apply (alter_pc s t th Idle Ht).
  assert (weight (pc_ th) = 0) as Hwt by (apply (no_weight s Hi) with t; [rewrite Ew; intros; by apply not_fat_thin|done]).
  destruct (abs_thin s t c Ew Hid Hc) as (A1 & A2 & A3).
  assert (the_hash s' = 0) as Hh.
  { destruct Hw' as [E|(c' & Hc' & E)]; [by apply (abs_free s')|by apply (abs_thin s' t c')]. }
  apply (moves s s' t th Idle (interrupted_ th)); try done.
  - intros u Hu. by rewrite Hsus.
  - rewrite Es. cbn [s' set_pc set_word word monitors]. rewrite Em. destruct Hw' as [->|(c' & Hc' & ->)]; constructor; [|done]. by apply still_there.
  - intros u uh Hne Hu. cbn [s' set_pc set_word word monitors]. rewrite Em, Ew. apply (frame_thin t c); try done; [by apply (Hfree u)|].
    pose proof (inv_ids s Hi u ltac:(by rewrite Hu)). destruct Hw' as [->|(c' & Hc' & ->)]; [by apply not_owned_free|by apply not_owned_thin].
  - unfold s', set_pc, set_word. cbn [word monitors threads]. rewrite (alter_pc s t th Idle Ht). apply word_wakes; try done. rewrite Ew. intros. by apply not_fat_thin.
  - by rewrite A1, A2, Hh.
Qed.
Lemma free_move s t th w' e : inv s -> threads s !! t = Some th -> safe (pc_ th) = false -> (forall u, u <> 0 -> suspends u (pc_ th) = 0) ->
  word s = 0 -> w' = thin t 0 \/ (exists h, 0 < h < 2 ^ 30 /\ w' = hashed h) ->
  let s' := set_pc t Idle (set_word w' s) in
  jeffect t e 0 0 (waits (pc_ th)) (the_owner s') (the_depth s') None (the_hash s') ->
  good t e s s'.
Proof.
  intros Hi Ht Hsafe Hsus Ew Hw' s' He. pose proof (inv_ids s Hi t ltac:(by rewrite Ht)) as Hid.
  pose proof (free_shape s Hi Ew) as Em. destruct (abs_free s Ew) as (A1 & A2 & A3).
  assert (threads s' = <[t := mkThread Idle (suspend_count th) (interrupted_ th)]> (threads s)) as Es by apply (alter_pc s t th Idle Ht).
  assert (forall m, 0 <= m < 2 ^ 30 -> word s <> fat m) as Hnf by (rewrite Ew; intros m Hm E; clash).
  apply (moves s s' t th Idle (interrupted_ th)); try done.
  - intros u Hu. by rewrite Hsus.
  - rewrite Es. cbn [s' set_pc set_word word monitors]. rewrite Em. destruct Hw' as [->|(h & Hh & ->)]; constructor; try done; by rewrite lookup_insert_eq.
  - intros u uh Hne Hu. cbn [s' set_pc set_word word monitors]. rewrite Em, Ew. apply frame_free.
    pose proof (inv_ids s Hi u ltac:(by rewrite Hu)). destruct Hw' as [->|(h & Hh & ->)]; [by apply not_owned_thin|by apply not_owned_hashed].
  - unfold s', set_pc, set_word. cbn [word monitors threads]. rewrite (alter_pc s t th Idle Ht). by apply word_wakes.
  - by rewrite A1, A2.
Qed.
