(* ===== verification/MonitorSteps.v ===== *)
(** * MonitorSteps: each step of a thread keeps the invariant and implements the
      monitor of the language

    One lemma for each function of monitor.cc, by the kind of the lock word that it
    read. *)

From stdpp Require Import base list gmap.
From S2P Require Import Prelude LockWord Monitor MonitorInv MonitorSpec.

(** The only faults: an owner that locks too often, and a thread that unlocks what another one holds. *)
Definition fault_ok (t : Z) (s : state) (f : fault) : Prop :=
  exists th, threads s !! t = Some th /\
    (f = Overflow /\ pc_ th = EnterRead (word s) /\ the_owner s = t /\ the_depth s = 2 ^ 31 \/
     f = Aborted /\ exists id c, pc_ th = ExitRead (thin id c) /\ id <> t /\ IsSuspended s id = false).
Definition outcome (t : Z) (s : state) (r : result) : Prop :=
  match r with None => True | Some (Done (e, s')) => good t e s s' | Some (Fault f) => fault_ok t s f end.

Lemma light p : weight p = 0 -> restores p = None /\ awake p = false /\ asleep p = false /\ waits p = None.
Proof. destruct p as [| | | | | | | | | | | | | | | | |? k|? k|? k| | | |]; try done; by destruct k. Qed.
Lemma mon_depth_own ths t th mon : ths !! t = Some th -> owner_ mon = t -> t <> 0 -> mon_depth ths mon = default (lock_count_ mon + 1) (restores (pc_ th)).
Proof. intros Ht Eo H0. unfold mon_depth. rewrite Eo. destruct (Z.eqb_spec t 0); [done|]. by rewrite Ht. Qed.
Lemma mon_depth_self ths t th' mon : owner_ mon = t -> t <> 0 -> mon_depth (<[t := th']> ths) mon = default (lock_count_ mon + 1) (restores (pc_ th')).
Proof. intros Eo H0. unfold mon_depth. rewrite Eo. destruct (Z.eqb_spec t 0); [done|]. by rewrite lookup_insert_eq. Qed.
Lemma mon_depth_other ths t th' mon : owner_ mon <> t -> mon_depth (<[t := th']> ths) mon = mon_depth ths mon.
Proof. intros Eo. unfold mon_depth. by rewrite lookup_insert_ne. Qed.
Lemma mon_depth_free ths mon : owner_ mon = 0 -> mon_depth ths mon = 0.
Proof. intros Eo. unfold mon_depth. by rewrite Eo. Qed.

(** The second round at most finds a hash code. *)
Lemma generate_ok c : exists h, 0 < h < 2 ^ 30 /\ GenerateIdentityHashCode c = Done h.
Proof.
  unfold GenerateIdentityHashCode. set (x := u32 (c_seed c)). cbn [generate]. change kHashMask with (Z.ones 30). rewrite !Z.land_ones by lia.
  pose proof (Z.mod_pos_bound x (2 ^ 30) ltac:(lia)) as Hx. destruct (Z.eqb_spec (x mod 2 ^ 30) 0) as [E|E].
  - set (y := u32 (x * 1103515245 + 12345)). assert (y mod 2 ^ 30 = 12345) as ->.
    { apply Z.mod_divide in E as [k Ek]; [|lia]. unfold y, uwrap. rewrite Ek. clear. Z.to_euclidean_division_equations. lia. }
    exists 12345. split; [lia|done].
  - exists (x mod 2 ^ 30). split; [lia|done].
Qed.

Section Step.
Context (s : state) (t : Z) (th : thread) (Hi : inv s) (Hw : wakes s) (Ht : threads s !! t = Some th).

Lemma self_id : id_ok t.
Proof. apply (inv_ids s Hi). by rewrite Ht. Qed.
Lemma self_nonzero : t <> 0.
Proof. pose proof self_id. words. lia. Qed.
Lemma known_word : known (word s) (monitors s) t (word s).
Proof.
  pose proof self_id as Hid.
  destruct (shape_cases _ _ _ (inv_shape s Hi)) as [[-> ->]|[(id & c & -> & -> & Hex & Hc)|[(m & mon & -> & -> & Hm & Hok)|(h & -> & -> & Hh)]]]; constructor; try done.
  - by apply not_owned_free.
  - by apply (inv_ids s Hi).
  - intros. apply not_owned_thin; try done. by apply (inv_ids s Hi).
  - by left.
  - by apply not_owned_hashed.
Qed.
Lemma not_owned_owner : not_owned (word s) (monitors s) t -> the_owner s <> t.
Proof.
  intros [N1 N2]. pose proof self_nonzero as H0.
  destruct (shape_cases _ _ _ (inv_shape s Hi)) as [[Ew _]|[(id & c & Ew & _ & Hex & Hc)|[(m & mon & Ew & Em & Hm & _)|(h & Ew & _ & Hh)]]].
  - by destruct (abs_free s Ew) as (-> & _).
  - destruct (abs_thin s id c Ew (inv_ids s Hi id Hex) Hc) as (-> & _). intros ->. by apply (N1 c).
  - destruct (abs_fat s m mon Ew Hm Em) as (-> & _). apply (N2 m); [done|]. by rewrite Em, lookup_singleton_eq.
  - destruct (abs_hashed s h Ew (hash_ok_pos h Hh)) as (-> & _). done.
Qed.

(** A move that leaves the lock as it is. *)
Lemma stay p e : weight (pc_ th) = 0 -> weight p = 0 -> (forall u, u <> 0 -> suspends u p = suspends u (pc_ th)) -> (suspend_count th = 0 \/ safe p = true) ->
  pc_ok (word s) (monitors s) t p -> jeffect t e (the_owner s) (the_depth s) None (the_owner s) (the_depth s) None (the_hash s) -> good t e s (set_pc t p s).
Proof.
  intros H1 H2 Hs Hsafe Hp He. destruct (light _ H1) as (R1 & A1 & A2 & W1). destruct (light _ H2) as (R2 & B1 & B2 & W2).
  rewrite (set_pc_thread s t th) by done. apply local_move; try done; try congruence.
  - intros. destruct Hsafe; [lia|done].
  - right. left. by rewrite A1, A2, B1, B2.
Qed.
Lemma running : safe (pc_ th) = false -> suspend_count th = 0.
Proof. intros. by apply (unsafe_running s t th). Qed.

(** ** Fat locks *)

Section Fat.
Context (m : Z) (mon : Monitor) (Ew : word s = fat m) (Hm : 0 <= m < 2 ^ 30) (Em : monitors s = {[m := mon]}).

Lemma fat_mon_ok : mon_ok (threads s) mon.
Proof. destruct (fat_shape s Hi m Ew Hm) as (mon1 & E & Hok). rewrite Em in E. by apply singleton_inj in E as <-. Qed.
Lemma fat_lookup : monitors s !! m = Some mon.
Proof. by rewrite Em, lookup_singleton_eq. Qed.
Lemma set_pc_mon p mon' s1 : word s1 = word s -> threads s1 = threads s -> (forall x, <[m := x]> (monitors s1) = <[m := x]> (monitors s)) ->
  set_pc t p (set_monitor m mon' s1) = mkS (word s) (<[m := mon']> (monitors s)) (<[t := mkThread p (suspend_count th) (interrupted_ th)]> (threads s)).
Proof. intros E1 E2 E3. unfold set_pc, set_monitor. cbn. by rewrite E1, E2, E3, (alter_pc s t th). Qed.

Lemma depth_own : owner_ mon = t -> restores (pc_ th) = None -> mon_depth (threads s) mon = lock_count_ mon + 1.
Proof. intros Eo Hr. rewrite (mon_depth_own _ t th) by (done || apply self_nonzero). by rewrite Hr. Qed.

(** The monitor may have been changed in the same section of code before. *)
Lemma Lock_ok k d s1 : word s1 = word s -> threads s1 = threads s -> (forall x, <[m := x]> (monitors s1) = <[m := x]> (monitors s)) ->
  (owner_ mon = t -> k = KEnter /\ pc_ th = EnterRead (word s)) -> restores (pc_ th) = None -> (forall u, u <> 0 -> suspends u (pc_ th) = 0) -> suspend_count th = 0 ->
  cont_ok k -> waits (pc_ th) = waits (LockBlocked m k) -> weight (pc_ th) = weight (after_lock m k) - d ->
  outcome t s (Some (Lock t m k (add_waiters d mon) s1)).
Proof.
  intros E1 E2 E3 Hown Hr Hs Hz Hk Hwt Hwe. pose proof fat_mon_ok as [M1 M2 M3 M4 M5]. pose proof self_nonzero as H0.
  unfold Lock. cbn [add_waiters owner_ lock_count_]. destruct (Z.eqb_spec (owner_ mon) 0) as [Eo|Eo].
  { rewrite M2, Z.eqb_refl by done. cbn [CHECK mbind cres_bind outcome]. rewrite set_pc_mon by done.
    apply (mon_move s t th m mon); cbn [set_owner add_waiters owner_ lock_count_ num_waiters_ hash_code_]; try done; try lia; auto.
    - intros u Hu. rewrite Hs by done. by destruct k.
    - destruct k as [|prev was]; cbn; [done|]. split; [done|]. split; [done|]. eexists. rewrite lookup_singleton_eq. split; [done|]. cbn. auto.
    - intros Hso Hz'. rewrite Hso in Hz'. done.
    - cbn [threads]. rewrite mon_depth_self, mon_depth_free by done. rewrite Hwt, Eo. destruct k; cbn; [rewrite M2 by done|]; auto. }
  destruct (Z.eqb_spec (owner_ mon) t) as [Et|Et].
  - destruct (Hown Et) as [-> Epc]. unfold next_count. destruct (Z.eqb_spec (lock_count_ mon) (2 ^ 31 - 1)) as [Hc|Hc].
    { cbn. exists th. split; [done|]. left. destruct (abs_fat s m mon Ew Hm Em) as (A1 & A2 & _). split_and!; try done; [congruence|]. rewrite A2, depth_own by done. lia. }
    cbn [mbind cres_bind outcome]. rewrite set_pc_mon by done.
    apply (mon_move s t th m mon); cbn [set_count add_waiters owner_ lock_count_ num_waiters_ hash_code_]; try done; try lia; auto.
    + intros u Hu. by rewrite Hs.
    + intros Hso Hz'. congruence.
    + cbn [threads]. rewrite mon_depth_self, depth_own by done. rewrite Hwt. cbn. split_and!; auto; lia.
  - cbn [outcome]. rewrite set_pc_mon by done.
    apply (mon_move s t th m mon); cbn [add_waiters owner_ lock_count_ num_waiters_ hash_code_]; try done; try lia; auto.
    + intros u Hu. by rewrite Hs.
    + destruct k; cbn [after_lock weight] in *; lia.
    + cbn. split; [done|]. split; [done|]. eexists. rewrite lookup_singleton_eq. done.
    + intros Hso Hz'. congruence.
    + cbn [threads]. rewrite mon_depth_other by done. rewrite Hwt. by destruct k.
Qed.
End Fat.

(** ** Threads that have read a lock word *)

Section Reader.
Context (R1 : weight (pc_ th) = 0) (R2 : safe (pc_ th) = false) (R3 : forall u, suspends u (pc_ th) = 0).

Lemma reader p e : weight p = 0 -> (forall u, u <> 0 -> suspends u p = 0) -> pc_ok (word s) (monitors s) t p ->
  jeffect t e (the_owner s) (the_depth s) None (the_owner s) (the_depth s) None (the_hash s) -> good t e s (set_pc t p s).
Proof. intros. apply stay; try done; [intros u Hu; rewrite R3; auto|left; by apply running]. Qed.
Lemma no_id_zero u : u <> 0 -> (0 =? u) = false.
Proof. intros Hu. apply Z.eqb_neq. lia. Qed.

Lemma inflate_own hash a c : word s = thin t c -> count_ok c -> hash_ok hash -> outcome t s (quiet (Inflate t t hash 0 a s)).
Proof.
  intros Ew Hc Hh. unfold Inflate. rewrite (Z.eqb_refl t), orb_true_r. cbn [orb CHECK mbind cres_bind quiet outcome].
  apply reader; try done; [intros u Hu; cbn [suspends]; by rewrite no_id_zero|]. exists t, hash. split_and!; try done. left. split_and!; [by apply self_id| |]; left; eauto.
Qed.
Lemma inflate_thin id c hash a : known (word s) (monitors s) t (thin id c) -> id_ok id -> count_ok c -> (id = t -> word s = thin id c) -> hash_ok hash ->
  outcome t s (quiet (InflateThinLocked t (thin id c) hash a s)).
Proof.
  intros Hk Hid Hc Hown Hh. unfold InflateThinLocked. destruct (thin_ok id c Hid Hc) as (_ & -> & _).
  destruct (Z.eqb_spec id t) as [->|Hne]; [apply (inflate_own hash a c); auto|]. by apply reader.
Qed.
Lemma loops p : weight p = 0 -> (forall u, suspends u p = 0) -> pc_ok (word s) (monitors s) t p -> outcome t s (go t p s).
Proof. intros. by apply reader. Qed.
Lemma finishes e : jeffect t e (the_owner s) (the_depth s) None (the_owner s) (the_depth s) None (the_hash s) -> outcome t s (finish t e s).
Proof. intros. by apply reader. Qed.

Lemma thin_to c w' e : word s = thin t c -> count_ok c -> next_word t w' ->
  jeffect t e t (c + 1) None (if w' =? 0 then 0 else t) (if w' =? 0 then 0 else ThinLockCount w' + 1) None 0 -> outcome t s (finish t e (set_word w' s)).
Proof.
  intros Ew Hc Hn He. pose proof self_id as Hid. apply (thin_move s t th c); try done. rewrite (proj2 (proj2 (proj2 (light _ R1)))).
  destruct Hn as [->|(c' & Hc' & ->)].
  - by destruct (abs_free (set_pc t Idle (set_word 0 s)) eq_refl) as (-> & -> & _).
  - destruct (abs_thin (set_pc t Idle (set_word (thin t c') s)) t c' eq_refl Hid Hc') as (-> & -> & _).
    rewrite (proj2 (Z.eqb_neq _ 0)) in He by (pose proof (thin_range t c' Hid Hc'); lia). by destruct (thin_ok t c' Hid Hc') as (_ & _ & <-).
Qed.
Lemma free_to w' e : word s = 0 -> w' = thin t 0 \/ (exists h, 0 < h < 2 ^ 30 /\ w' = hashed h) ->
  (w' = thin t 0 -> e = EvEnter) -> (forall h, 0 < h -> w' = hashed h -> e = EvHash h) -> outcome t s (finish t e (set_word w' s)).
Proof.
  intros Ew Hn He1 He2. pose proof self_id as Hid. apply (free_move s t th); try done. rewrite (proj2 (proj2 (proj2 (light _ R1)))).
  destruct Hn as [->|(h & Hh & ->)].
  - destruct (abs_thin (set_pc t Idle (set_word (thin t 0) s)) t 0 eq_refl Hid) as (-> & -> & _); [by words|]. rewrite He1 by done. cbn. auto.
  - destruct (abs_hashed (set_pc t Idle (set_word (hashed h) s)) h eq_refl (hash_ok_pos h Hh)) as (-> & -> & ->). rewrite (He2 h) by (done || lia). cbn. split_and!; try done; lia.
Qed.
End Reader.

(** ** Entering *)

Lemma MonitorEnter_ok c v : pc_ th = EnterRead v -> outcome t s (MonitorEnter c t v s).
Proof.
  intros Epc. pose proof (inv_pc s Hi t th Ht) as Hp. rewrite Epc in Hp. cbn in Hp. pose proof self_id as Hid.
  assert (weight (pc_ th) = 0) as R1 by (by rewrite Epc). assert (safe (pc_ th) = false) as R2 by (by rewrite Epc). assert (forall u, suspends u (pc_ th) = 0) as R3 by (by rewrite Epc).
  unfold MonitorEnter. pose proof Hp as Hk. destruct Hp as [|id n Hi' Hn Hown _|m Hm Ew|h Hh Hhash _].
  - rewrite unlocked_ok, from_thin by (words; lia). destruct (Z.eqb_spec (word s) 0) as [Ew|]; [|by apply loops]. destruct (c_fails c); [by apply loops|].
    apply free_to; try done; [by left|]. intros h Hh E. unfold thin, hashed in E. words. lia.
  - destruct (thin_ok id n Hi' Hn) as (-> & -> & ->). destruct (Z.eqb_spec id t) as [->|Hne].
    + destruct (Z.leb_spec (n + 1) kThinLockMaxCount) as [Hle|]; [|apply inflate_thin; try done; by words].
      assert (count_ok (n + 1)) as Hn' by (words; lia). rewrite from_thin by done. apply (thin_to R1 R2 R3 n); auto; [right; eauto|].
      rewrite (proj2 (Z.eqb_neq _ 0)) by (pose proof (thin_range t (n + 1) Hid Hn'); lia). destruct (thin_ok t (n + 1) Hid Hn') as (_ & _ & ->). cbn. auto.
    + destruct (c_fails c); [apply inflate_thin; try done; by words|by apply loops].
  - destruct (fat_ok m Hm) as (-> & ->). destruct (fat_shape s Hi m Ew Hm) as (mon & Em & Hok). unfold with_monitor. rewrite (fat_lookup m mon) by done.
    replace mon with (add_waiters 0 mon) by (destruct mon; unfold add_waiters; cbn; by rewrite Z.add_0_r).
    apply Lock_ok; try done; rewrite ?Epc; try done; [intros _; by rewrite Ew|by apply running].
  - destruct (hashed_ok h) as (-> & ->); [lia|]. unfold Inflate. cbn [orb CHECK mbind cres_bind quiet Z.eqb outcome].
    apply reader; try done; [intros u Hu; cbn [suspends]; by rewrite no_id_zero|]. exists 0, h. split_and!; try done; [words; lia|]. right. split_and!; try done; lia.
Qed.

(** ** Leaving *)

(** After a signal, a thread that is not [t] is awake if any sleeps. *)
Lemma Signal_ok m woken s1 : word s = fat m -> asleep (pc_ th) = false -> Signal m woken s = Some s1 ->
  inv s1 /\ ready s1 t /\ threads s1 !! t = Some th /\ word s1 = word s /\ monitors s1 = monitors s /\ forall e s', good t e s1 s' -> good t e s s'.
Proof.
  intros Ew Hth. unfold Signal.
  assert (no_contender m s = true -> ready s t) as Hno.
  { intros Hn v vh Hv Ha. exfalso. pose proof (inv_pc s Hi v vh Hv) as Hp. unfold no_contender in Hn. rewrite forallb_forall in Hn.
    specialize (Hn (v, vh) ltac:(apply list_elem_of_In, elem_of_map_to_list, Hv)). cbn in Hn. destruct (pc_ vh); try done. cbn in *.
    destruct Hp as (_ & E & _). rewrite Ew in E. apply fat_inj in E as ->. by rewrite Z.eqb_refl in Hn. }
  assert (no_contender m s = true -> s1 = s -> inv s1 /\ ready s1 t /\ threads s1 !! t = Some th /\ word s1 = word s /\ monitors s1 = monitors s /\ forall e s', good t e s1 s' -> good t e s s') as Hs1.
  { intros Hn ->. split_and!; auto. }
  destruct (threads s !! woken) as [wh|] eqn:Hwk; [|destruct (no_contender m s); [intros E; injection E as <-; auto|done]].
  destruct (contends m (pc_ wh)) as [k|] eqn:Hk; [|destruct (no_contender m s); [intros E; injection E as <-; auto|done]].
  intros E; injection E as <-. assert (pc_ wh = LockWaiting m k) as Ep.
  { unfold contends in Hk. destruct (pc_ wh); try done. destruct (Z.eqb_spec m0 m); [|done]. by injection Hk as ->; subst. }
  assert (woken <> t) as Hne by (intros ->; rewrite Ht in Hwk; injection Hwk as <-; by rewrite Ep in Hth).
  pose proof (inv_pc s Hi woken wh Hwk) as Hp. rewrite Ep in Hp.
  assert (good woken Tau s (set_pc woken (LockWoken m k) s)) as Hg.
  { rewrite (set_pc_thread s woken wh) by done. apply local_move; rewrite ?Ep; try done; by left. }
  split_and!; try done; [apply Hg| |cbn; by rewrite lookup_alter_ne|].
  - intros v vh Hv Ha. eexists woken, _. cbn. rewrite lookup_alter_eq, Hwk. cbn. split_and!; done.
  - intros e s' Hs'. by eapply good_trans.
Qed.
Lemma Signal_monitor m woken mon' : Signal m woken (set_monitor m mon' s) = set_monitor m mon' <$> Signal m woken s.
Proof. unfold Signal, no_contender. cbn. destruct (threads s !! woken) as [wh|]; [destruct (contends m (pc_ wh))|]; try done; by case_match. Qed.

(** The owner gives the lock up. *)
Lemma release m mon mon' woken p e s1 : word s = fat m -> 0 <= m < 2 ^ 30 -> monitors s = {[m := mon]} -> owner_ mon = t -> owner_ mon' = 0 -> lock_count_ mon' = 0 ->
  hash_code_ mon' = hash_code_ mon -> num_waiters_ mon' = num_waiters_ mon + weight p -> weight (pc_ th) = 0 -> (forall u, u <> 0 -> suspends u (pc_ th) = 0) -> (forall u, suspends u p = 0) ->
  awake p = false -> asleep p = false -> suspend_count th = 0 -> pc_ok (fat m) {[m := mon']} t p ->
  jeffect t e t (lock_count_ mon + 1) None 0 0 (waits p) (hash_code_ mon) ->
  Signal m woken s = Some s1 -> good t e s (set_pc t p (set_monitor m mon' s1)).
Proof.
  intros Ew Hm Em Eo Eo' Ec' Eh En Hwt Hs Hsp Ha1 Ha2 Hz Hp He Hsig. destruct (light _ Hwt) as (Hr & A1 & A2 & Hwa). pose proof self_nonzero as H0.
  pose proof (fat_mon_ok m mon Ew Hm Em) as [M1 M2 M3 M4 M5]. destruct (Signal_ok m woken s1 Ew A2 Hsig) as (Hi1 & Hready & Ht1 & Ew1 & Em1 & Hgood). apply Hgood. rewrite Ew in Ew1. rewrite Em in Em1.
  unfold set_pc, set_monitor. cbn [word monitors threads]. rewrite (alter_pc s1 t th) by done.
  apply (mon_move s1 t th m mon); try done; try lia; auto.
  - intros u Hu. by rewrite Hs.
  - rewrite Eh. done.
  - intros Hso. eapply (move_wakes s1 _ t th p); try done; [intros H1|]. { exfalso. revert H1. destruct (abs_fat s1 m mon Ew1 Hm Em1) as (-> & _). congruence. }
    intros _. right. rewrite A1, A2, Ha1, Ha2. auto.
  - rewrite (mon_depth_own (threads s1) t th), (mon_depth_free _ mon') by done. rewrite Hr, Hwa, Eo, Eo', Eh. done.
Qed.
Lemma unlock_more m mon : word s = fat m -> 0 <= m < 2 ^ 30 -> monitors s = {[m := mon]} -> owner_ mon = t -> lock_count_ mon <> 0 -> 
  weight (pc_ th) = 0 -> (forall u, suspends u (pc_ th) = 0) -> good t (EvExit true) s (set_pc t Idle (set_monitor m (set_count (lock_count_ mon - 1) mon) s)).
Proof.
  intros Ew Hm Em Eo Hc Hwt Hs. destruct (light _ Hwt) as (Hr & A1 & A2 & Hwa). pose proof self_nonzero as H0. pose proof (fat_mon_ok m mon Ew Hm Em) as [M1 M2 M3 M4 M5].
  rewrite (set_pc_mon m Idle) by done. apply (mon_move s t th m mon); cbn [set_count owner_ lock_count_ num_waiters_ hash_code_]; try done; try lia; auto.
  - cbn. lia.
  - intros Hso Hz. congruence.
  - cbn [threads]. rewrite mon_depth_self, (depth_own mon) by done. rewrite Hwa, Eo. cbn. destruct (Z.eqb_spec (lock_count_ mon + 1) 1); [lia|]. split_and!; auto; lia.
Qed.

Lemma reader_unowned e : not_owned (word s) (monitors s) t -> weight (pc_ th) = 0 -> safe (pc_ th) = false -> (forall u, suspends u (pc_ th) = 0) ->
  e = EvExit false \/ e = EvIllegalState -> outcome t s (finish t e s).
Proof. intros Hno R1 R2 R3 He. apply not_owned_owner in Hno. apply finishes; try done. by destruct He as [->| ->]. Qed.

Lemma MonitorExit_ok c v : pc_ th = ExitRead v -> outcome t s (MonitorExit c t v s).
Proof.
  intros Epc. pose proof (inv_pc s Hi t th Ht) as Hp. rewrite Epc in Hp. cbn in Hp. pose proof self_id as Hid.
  assert (weight (pc_ th) = 0) as R1 by (by rewrite Epc). assert (safe (pc_ th) = false) as R2 by (by rewrite Epc). assert (forall u, suspends u (pc_ th) = 0) as R3 by (by rewrite Epc).
  unfold MonitorExit. destruct Hp as [Hno|id n Hi' Hn Hown Hno|m Hm Ew|h Hh Hhash Hno].
  - rewrite unlocked_ok. apply reader_unowned; auto.
  - destruct (thin_ok id n Hi' Hn) as (-> & -> & ->). destruct (Z.eqb_spec id t) as [->|Hne]; cbn [negb].
    + destruct (Z.eqb_spec n 0) as [->|Hn0]; cbn [negb].
      * apply (thin_to R1 R2 R3 0); auto; [by left|]. cbn. auto.
      * assert (count_ok (n - 1)) as Hn' by (words; lia). rewrite from_thin by done. apply (thin_to R1 R2 R3 n); auto; [right; eauto|].
        rewrite (proj2 (Z.eqb_neq _ 0)) by (pose proof (thin_range t (n - 1) Hid Hn'); lia). destruct (thin_ok t (n - 1) Hid Hn') as (_ & _ & ->).
        cbn. destruct (Z.eqb_spec (n + 1) 1); [lia|]. split_and!; auto; lia.
    + destruct (FindThreadByThreadId t id s) as [|f] eqn:Ef; [apply reader_unowned; auto|]. cbn. exists th. split; [done|]. right.
      unfold FindThreadByThreadId, CHECK in Ef. rewrite (proj2 (Z.eqb_neq id t)) in Ef by done. cbn [orb] in Ef. destruct (IsSuspended s id) eqn:Eq; [done|]. injection Ef as <-. eauto 10.
  - destruct (fat_ok m Hm) as (-> & ->). destruct (fat_shape s Hi m Ew Hm) as (mon & Em & Hok). unfold with_monitor. rewrite (fat_lookup m mon) by done.
    unfold Unlock. destruct (Z.eqb_spec (owner_ mon) t) as [Eo|Eo].
    + destruct (Z.eqb_spec (lock_count_ mon) 0) as [Ec|Ec]; [|by apply unlock_more].
      rewrite Signal_monitor. destruct (Signal m (c_woken c) s) as [s1|] eqn:Es; [|done]. cbn [returned fmap option_fmap option_map mbind option_bind outcome].
      apply (release m mon (set_owner 0 mon) (c_woken c)); try done; [cbn; lia|by apply running|]. rewrite Ec. cbn. auto.
    + apply finishes; try done. destruct (abs_fat s m mon Ew Hm Em) as (A1 & _). cbn. by rewrite A1.
  - destruct (hashed_ok h) as (-> & _); [lia|]. apply reader_unowned; auto.
Qed.

(** ** Waiting *)

Lemma ObjectWait_ok c ms ns v : pc_ th = WaitRead ms ns v -> outcome t s (ObjectWait c t ms ns v th s).
Proof.
  intros Epc. pose proof (inv_pc s Hi t th Ht) as Hp. rewrite Epc in Hp. cbn in Hp. pose proof self_id as Hid. pose proof self_nonzero as H0.
  assert (weight (pc_ th) = 0) as R1 by (by rewrite Epc). assert (safe (pc_ th) = false) as R2 by (by rewrite Epc). assert (forall u, suspends u (pc_ th) = 0) as R3 by (by rewrite Epc).
  unfold ObjectWait. destruct Hp as [Hno|id n Hi' Hn Hown Hno|m Hm Ew|h Hh Hhash Hno].
  - rewrite unlocked_ok. apply reader_unowned; auto.
  - destruct (thin_ok id n Hi' Hn) as (-> & -> & _). destruct (Z.eqb_spec id t) as [->|Hne]; cbn [negb]; [|apply reader_unowned; auto].
    apply (inflate_own R1 R2 R3 0 (AWait ms ns) n); auto. by words.
  - destruct (fat_ok m Hm) as (-> & ->). destruct (fat_shape s Hi m Ew Hm) as (mon & Em & Hok). unfold with_monitor. rewrite (fat_lookup m mon) by done.
    destruct (abs_fat s m mon Ew Hm Em) as (A1 & _). unfold Wait. destruct (Z.eqb_spec (owner_ mon) t) as [Eo|Eo]; cbn [negb]; [|apply finishes; cbn; rewrite ?A1; done].
    destruct ((ms <? 0) || _ || _); [apply finishes; cbn; rewrite ?A1; auto|]. rewrite Signal_monitor. destruct (Signal m (c_woken c) s) as [s1|] eqn:Es; [|done].
    cbn [returned fmap option_fmap option_map mbind option_bind outcome].
    eapply (release m mon _ (c_woken c)); try exact Es; try done; cbn [set_owner set_count add_waiters set_wait_set owner_ lock_count_ num_waiters_ hash_code_]; try (by destruct (interrupted_ th)).
    + by apply running.
    + assert (pc_ok (fat m) {[m := set_owner 0 (set_count 0 (add_waiters 1 (set_wait_set (wait_set_ mon ++ [t]) mon)))]} t (Waiting m (lock_count_ mon) false)) as Hp.
      { split; [apply Hok|]. split; [done|]. eexists. rewrite lookup_singleton_eq. split; [done|]. cbn. auto. }
      by destruct (interrupted_ th).
  - destruct (hashed_ok h) as (-> & _); [lia|]. apply reader_unowned; auto.
Qed.

(** The end of a wait. *)
Lemma Restore_ok m prev was : pc_ th = WaitRestore m prev was -> outcome t s (with_monitor m s (fun mon => Some (Done (Restore t m prev was mon th s)))).
Proof.
  intros Epc. pose proof (inv_pc s Hi t th Ht) as Hp. rewrite Epc in Hp. cbn in Hp. destruct Hp as (Hprev & Ew & mon & Hl & Eo & Ec).
  assert (0 <= m < 2 ^ 30) as Hm.
  { destruct (shape_cases _ _ _ (inv_shape s Hi)) as [[_ E]|[(id & n & _ & E & _)|[(m' & mon' & E & _ & Hm' & _)|(h & _ & E & _)]]]; try (rewrite E in Hl; done). rewrite Ew in E. by apply fat_inj in E as ->. }
  destruct (fat_shape s Hi m Ew Hm) as (mon1 & Em & Hok). rewrite Em, lookup_singleton_eq in Hl. injection Hl as ->.
  pose proof Hok as [M1 M2 M3 M4 M5]. pose proof self_nonzero as H0. unfold with_monitor. rewrite (fat_lookup m mon) by done. cbn [outcome Restore]. unfold set_thread, set_monitor. cbn [word monitors threads].
  apply (mon_move s t th m mon); cbn [set_owner set_count add_waiters set_wait_set owner_ lock_count_ num_waiters_ hash_code_]; try done; try lia; auto.
  - intros u Hu. by rewrite Epc.
  - rewrite Epc. cbn. lia.
  - intros Hso Hz. congruence.
  - rewrite (mon_depth_own (threads s) t th) by done. cbn [threads]. rewrite mon_depth_self by done. rewrite Epc, Eo. cbn. auto.
Qed.
End Step.

(** ** Notifying *)

(** Changes of other threads that go unnoticed. *)
Definition still (t : Z) (th : thread) (s s1 : state) : Prop :=
  inv s1 /\ wakes s1 /\ threads s1 !! t = Some th /\ word s1 = word s /\ monitors s1 = monitors s /\ forall e s', good t e s1 s' -> good t e s s'.
Lemma still_trans t th s s1 s2 : still t th s s1 -> still t th s1 s2 -> still t th s s2.
Proof. intros (_ & _ & _ & E1 & E2 & G1) (I & W & T & E1' & E2' & G2). split_and!; auto; congruence. Qed.
Lemma signal_still t th s u uh : inv s -> wakes s -> threads s !! t = Some th -> weight (pc_ th) = 0 -> threads s !! u = Some uh -> still t th s (set_thread u (signal_waiting uh) s).
Proof.
  intros Hi Hw Ht Hwt Hu. assert (good u Tau s (set_thread u (signal_waiting uh) s)) as (I & W & J).
  { pose proof (inv_pc s Hi u uh Hu) as Hp. pose proof (proj2 (inv_suspend s Hi u uh Hu)) as Hs. destruct uh as [q n i]. cbn in *.
    assert (forall q', weight q' = weight q -> (forall v, suspends v q' = suspends v q) -> restores q' = restores q -> awake q' = awake q -> asleep q' = asleep q -> safe q' = safe q ->
      waits q' = waits q -> pc_ok (word s) (monitors s) u q' -> good u Tau s (set_thread u (mkThread q' n i) s)) as Hmove.
    { intros q' E1 E2 E3 E4 E5 E6 E7 Hq. apply (local_move s u _ q' i Tau Hi Hw Hu); cbn; auto. by rewrite E6. }
    unfold signal_waiting. cbn. destruct q; apply Hmove; done. }
  split_and!; try done; [|intros; by eapply good_trans; [split_and!|]]. cbn. destruct (decide (t = u)) as [->|Hne]; [|by rewrite lookup_insert_ne].
  rewrite lookup_insert_eq. rewrite Ht in Hu. injection Hu as <-. unfold signal_waiting. by destruct (pc_ th).
Qed.
Lemma take_waiter_still t th s ws : inv s -> wakes s -> threads s !! t = Some th -> weight (pc_ th) = 0 -> still t th s (take_waiter s ws).2.
Proof.
  intros Hi Hw Ht Hwt. induction ws as [|u ws IH]; cbn; [by split_and!|]. destruct (threads s !! u) as [uh|] eqn:Hu; [|done].
  destruct (wait_monitor (pc_ uh)); [|done]. by apply signal_still.
Qed.
Lemma notify_all_still t th s ws : inv s -> wakes s -> threads s !! t = Some th -> weight (pc_ th) = 0 -> still t th s (notify_all s ws).
Proof.
  intros Hi Hw Ht Hwt. unfold notify_all. revert s Hi Hw Ht. induction ws as [|u ws IH]; intros s Hi Hw Ht; cbn [foldl]; [by split_and!|].
  destruct (threads s !! u) as [uh|] eqn:Hu; [|auto]. pose proof (signal_still t th s u uh Hi Hw Ht Hwt Hu) as Hst.
  eapply still_trans; [exact Hst|]. destruct Hst as (I & W & T & _). by apply IH.
Qed.

Section Notify.
Context (s : state) (t : Z) (th : thread) (Hi : inv s) (Hw : wakes s) (Ht : threads s !! t = Some th).

Lemma notified m mon rest s1 : word s = fat m -> 0 <= m < 2 ^ 30 -> monitors s = {[m := mon]} -> owner_ mon = t -> weight (pc_ th) = 0 -> (forall u, suspends u (pc_ th) = 0) ->
  still t th s s1 -> good t EvNotify s (set_pc t Idle (set_monitor m (set_wait_set rest mon) s1)).
Proof.
  intros Ew Hm Em Eo Hwt Hs (I & W & T & Ew1 & Em1 & Hgood). apply Hgood. rewrite Ew in Ew1. rewrite Em in Em1.
  destruct (light _ Hwt) as (Hr & A1 & A2 & Hwa). pose proof (self_nonzero s t th Hi Ht) as H0. pose proof (fat_mon_ok s1 I m mon Ew1 Hm Em1) as [M1 M2 M3 M4 M5].
  rewrite (set_pc_mon s1 t th T m Idle) by done. apply (mon_move s1 t th m mon); cbn [set_wait_set owner_ lock_count_ num_waiters_ hash_code_]; try done; try lia; auto.
  - cbn. lia.
  - intros Hso Hz. congruence.
  - cbn [threads]. rewrite mon_depth_self, (mon_depth_own (threads s1) t th) by done. rewrite Hwa, Hr. cbn. auto.
Qed.
Lemma DoNotify_ok all v : pc_ th = NotifyRead all v -> outcome t s (DoNotify t all v s).
Proof.
  intros Epc. pose proof (inv_pc s Hi t th Ht) as Hp. rewrite Epc in Hp. cbn in Hp. pose proof (self_id s t th Hi Ht) as Hid.
  assert (weight (pc_ th) = 0) as R1 by (by rewrite Epc). assert (safe (pc_ th) = false) as R2 by (by rewrite Epc). assert (forall u, suspends u (pc_ th) = 0) as R3 by (by rewrite Epc).
  unfold DoNotify. destruct Hp as [Hno|id n Hi' Hn Hown Hno|m Hm Ew|h Hh Hhash Hno].
  - rewrite unlocked_ok. apply (reader_unowned s t th); auto.
  - destruct (thin_ok id n Hi' Hn) as (-> & -> & _). destruct (Z.eqb_spec id t) as [->|Hne]; cbn [negb]; [|apply (reader_unowned s t th); auto].
    apply (finishes s t th); try done. destruct (abs_thin s t n (Hown eq_refl) Hid Hn) as (A1 & _). cbn. auto.
  - destruct (fat_ok m Hm) as (-> & ->). destruct (fat_shape s Hi m Ew Hm) as (mon & Em & Hok). unfold with_monitor. rewrite (fat_lookup s m mon) by done.
    cbn [outcome]. unfold Notify. destruct (abs_fat s m mon Ew Hm Em) as (A1 & _). destruct (Z.eqb_spec (owner_ mon) t) as [Eo|Eo]; cbn [negb].
    + destruct all; [|destruct (take_waiter s (wait_set_ mon)) as [rest s1] eqn:E]; apply notified; try done; [by apply notify_all_still|].
      replace s1 with (take_waiter s (wait_set_ mon)).2 by (by rewrite E). by apply take_waiter_still.
    + apply (finishes s t th); try done. cbn. by rewrite A1.
  - destruct (hashed_ok h) as (-> & _); [lia|]. apply (reader_unowned s t th); auto.
Qed.

(** ** Hash codes *)

Lemma hash_known h : 0 < h < 2 ^ 30 -> hash_is (word s) (monitors s) h -> the_hash s = h.
Proof.
  intros Hh [E|(m & mon & E & Hl & Eh)]; [by apply (abs_hashed s h E), hash_ok_pos|].
  destruct (shape_cases _ _ _ (inv_shape s Hi)) as [[_ E']|[(id & n & _ & E' & _)|[(m' & mon' & E' & Em & Hm' & _)|(h' & _ & E' & _)]]]; try (rewrite E' in Hl; done).
  rewrite E in E'. apply fat_inj in E' as <-. destruct (abs_fat s m mon' E Hm' Em) as (_ & _ & ->). rewrite Em, lookup_singleton_eq in Hl. by injection Hl as ->.
Qed.
Lemma set_hash_ok m mon h : word s = fat m -> 0 <= m < 2 ^ 30 -> monitors s = {[m := mon]} -> hash_code_ mon = 0 -> 0 < h < 2 ^ 30 -> weight (pc_ th) = 0 -> (forall u, suspends u (pc_ th) = 0) ->
  good t (EvHash h) s (set_pc t Idle (set_monitor m (set_hash h mon) s)).
Proof.
  intros Ew Hm Em Eh Hh Hwt Hs. destruct (light _ Hwt) as (Hr & A1 & A2 & Hwa). pose proof (self_nonzero s t th Hi Ht) as H0. pose proof (fat_mon_ok s Hi m mon Ew Hm Em) as [M1 M2 M3 M4 M5].
  assert (mon_depth (<[t := mkThread Idle (suspend_count th) (interrupted_ th)]> (threads s)) (set_hash h mon) = mon_depth (threads s) mon) as Ed.
  { by apply (mon_depth_update (threads s) t th _ mon Ht). }
  rewrite (set_pc_mon s t th Ht m Idle) by done. apply (mon_move s t th m mon); cbn [set_hash owner_ lock_count_ num_waiters_ hash_code_]; try done; try lia; auto.
  - cbn. lia.
  - by apply hash_ok_pos.
  - intros Hso. eapply (move_wakes s _ t th Idle); try done. intros Hz. right. rewrite A1, A2. split_and!; try done. left.
    destruct (abs_fat s m mon Ew Hm Em) as (-> & _). by rewrite Hso in Hz.
  - cbn [threads]. rewrite Ed, Hwa. cbn. split_and!; try done. lia.
Qed.
Lemma IdentityHashCode_ok c v : pc_ th = HashRead v -> outcome t s (IdentityHashCode c t v s).
Proof.
  intros Epc. pose proof (inv_pc s Hi t th Ht) as Hp. rewrite Epc in Hp. cbn in Hp. pose proof (self_id s t th Hi Ht) as Hid.
  assert (weight (pc_ th) = 0) as R1 by (by rewrite Epc). assert (safe (pc_ th) = false) as R2 by (by rewrite Epc). assert (forall u, suspends u (pc_ th) = 0) as R3 by (by rewrite Epc).
  unfold IdentityHashCode. destruct (generate_ok c) as (g & Hg & ->). pose proof Hp as Hk. destruct Hp as [Hno|id n Hi' Hn Hown Hno|m Hm Ew|h Hh Hhash Hno].
  - rewrite unlocked_ok. cbn [mbind cres_bind]. rewrite from_hash by lia. cbn [mbind cres_bind]. destruct (Z.eqb_spec (word s) 0) as [Ew|]; [|by apply (loops s t th)].
    destruct (c_fails c); [by apply (loops s t th)|]. apply (free_to s t th); try done; [right; eauto| |].
    + intros E. unfold thin, hashed in E. words. lia.
    + intros h Hh E. by apply hashed_inj in E as ->.
  - destruct (thin_ok id n Hi' Hn) as (-> & _ & _). cbn [mbind cres_bind]. apply (inflate_thin s t th); try done. by apply hash_ok_pos.
  - destruct (fat_ok m Hm) as (-> & ->). destruct (fat_shape s Hi m Ew Hm) as (mon & Em & Hok). unfold with_monitor. rewrite (fat_lookup s m mon) by done.
    destruct (abs_fat s m mon Ew Hm Em) as (_ & _ & A3). destruct (Z.eqb_spec (hash_code_ mon) 0) as [Eh|Eh]; cbn [negb].
    + destruct (c_fails c); [apply (loops s t th); try done; by constructor|]. by apply set_hash_ok.
    + apply (finishes s t th); try done. cbn. rewrite A3. split_and!; try done. pose proof (mon_hash _ _ Hok). words. lia.
  - destruct (hashed_ok h) as (-> & ->); [lia|]. apply (finishes s t th); try done. cbn. rewrite (hash_known h) by done. split_and!; try done. lia.
Qed.
End Notify.

(** ** Contending and inflating *)

Section Contend.
Context (s : state) (t : Z) (th : thread) (Hi : inv s) (Hw : wakes s) (Ht : threads s !! t = Some th).

Lemma mon_fat m Q : with_mon (word s) (monitors s) m t Q -> word s = fat m /\ 0 <= m < 2 ^ 30 /\ exists mon, monitors s = {[m := mon]} /\ Q mon.
Proof.
  intros (Ew & mon & Hl & HQ). split; [done|].
  destruct (shape_cases _ _ _ (inv_shape s Hi)) as [[_ E]|[(id & n & _ & E & _)|[(m' & mon' & E & Em & Hm' & _)|(h & _ & E & _)]]]; try (rewrite E in Hl; done).
  rewrite Ew in E. apply fat_inj in E as ->. split; [done|]. exists mon'. rewrite Em, lookup_singleton_eq in Hl. by injection Hl as ->.
Qed.

(** A thread that contends moves on without the lock. *)
Lemma contend p : weight p = weight (pc_ th) -> (forall u, suspends u p = suspends u (pc_ th)) -> (suspend_count th = 0 \/ safe p = true) -> restores p = restores (pc_ th) -> waits p = waits (pc_ th) ->
  (awake p = true \/ awake p = awake (pc_ th) /\ asleep p = asleep (pc_ th) \/ the_owner s <> 0) -> pc_ok (word s) (monitors s) t p -> forall i,
  good t Tau s (set_thread t (mkThread p (suspend_count th) i) s).
Proof. intros ? ? Hs. intros. apply local_move; try done; auto. intros. destruct Hs; [lia|done]. Qed.

Lemma LockBlocked_ok m k : pc_ th = LockBlocked m k -> outcome t s (block t m k s).
Proof.
  intros Epc. pose proof (inv_pc s Hi t th Ht) as Hp. rewrite Epc in Hp. pose proof Hp as (Hk & Hmon). destruct (mon_fat m _ Hmon) as (Ew & Hm & mon & Em & Ho).
  unfold block, with_monitor. rewrite (fat_lookup s m mon) by done. cbn [outcome go]. rewrite (set_pc_thread s t th) by done.
  destruct (abs_fat s m mon Ew Hm Em) as (A1 & _). destruct (Z.eqb_spec (owner_ mon) 0) as [Eo|Eo]; cbn [negb]; apply contend; rewrite ?Epc; try done; auto.
  right. right. congruence.
Qed.
Lemma LockWoken_ok m k : pc_ th = LockWoken m k -> suspend_count th = 0 ->
  outcome t s (lock_again t m k s).
Proof.
  intros Epc Hz. pose proof (inv_pc s Hi t th Ht) as Hp. rewrite Epc in Hp. pose proof Hp as (Hk & Hmon). destruct (mon_fat m _ Hmon) as (Ew & Hm & mon & Em & Ho).
  unfold lock_again, with_monitor. rewrite (fat_lookup s m mon) by done. apply (Lock_ok s t th); try done; rewrite ?Epc; try done.
  - intros x. cbn. apply insert_insert_eq.
  - by destruct k.
Qed.
Lemma WaitLock_ok m prev was : pc_ th = WaitLock m prev was -> outcome t s (with_monitor m s (fun mon => Some (Lock t m (KWait prev was) mon s))).
Proof.
  intros Epc. pose proof (inv_pc s Hi t th Ht) as Hp. rewrite Epc in Hp. pose proof Hp as (Hk & Hmon). destruct (mon_fat m _ Hmon) as (Ew & Hm & mon & Em & Ho).
  unfold with_monitor. rewrite (fat_lookup s m mon) by done. replace mon with (add_waiters 0 mon) by (destruct mon; unfold add_waiters; cbn; by rewrite Z.add_0_r).
  apply (Lock_ok s t th); try done; rewrite ?Epc; try done. apply (running s t th); try done. by rewrite Epc.
Qed.
End Contend.

(** ** Suspending the owner of a thin lock *)

Section Suspend.
Context (s : state) (t : Z) (th : thread) (Hi : inv s) (Hw : wakes s) (Ht : threads s !! t = Some th).
Context (id d : Z) (p : pc) (Hne : id <> t) (L1 : weight (pc_ th) = 0) (L2 : weight p = 0).

Definition moved : state := set_pc t p (add_suspensions id d s).
Lemma moved_self : threads moved !! t = Some (mkThread p (suspend_count th) (interrupted_ th)).
Proof. cbn. by rewrite lookup_alter_eq, lookup_alter_ne, Ht. Qed.
Lemma moved_other u : u <> t ->
  threads moved !! u = (fun uh => mkThread (pc_ uh) (suspend_count uh + (if u =? id then d else 0)) (interrupted_ uh)) <$> threads s !! u.
Proof.
  intros Hu. cbn. rewrite lookup_alter_ne by done. destruct (Z.eqb_spec u id) as [->|Hn]; [by rewrite lookup_alter_eq|]. rewrite lookup_alter_ne by done.
  destruct (threads s !! u) as [[]|]; [|done]. cbn. by rewrite Z.add_0_r.
Qed.
Lemma moved_sum f : (forall uh, f uh = f (mkThread (pc_ uh) 0 false)) -> tsum f (threads moved) = tsum f (threads s) - f th + f (mkThread p 0 false).
Proof.
  intros Hf. unfold moved. cbn [set_pc threads]. rewrite (alter_pc (add_suspensions id d s) t th) by (cbn; by rewrite lookup_alter_ne).
  rewrite (tsum_update _ _ _ th) by (cbn; by rewrite lookup_alter_ne). rewrite (Hf (mkThread _ _ _)). f_equal. f_equal. cbn.
  destruct (threads s !! id) as [idh|] eqn:Hid.
  - replace (alter _ id (threads s)) with (<[id := mkThread (pc_ idh) (suspend_count idh + d) (interrupted_ idh)]> (threads s)).
    + rewrite (tsum_update _ _ _ idh) by done. rewrite (Hf idh), (Hf (mkThread _ (suspend_count idh + d) _)). cbn. lia.
    + apply map_eq. intros u. destruct (decide (u = id)) as [->|]; [by rewrite lookup_insert_eq, lookup_alter_eq, Hid|by rewrite lookup_insert_ne, lookup_alter_ne].
  - f_equal. apply map_eq. intros u. destruct (decide (u = id)) as [->|]; [by rewrite lookup_alter_eq, Hid|by rewrite lookup_alter_ne].
Qed.
Lemma moved_there u : is_Some (threads moved !! u) <-> is_Some (threads s !! u).
Proof. destruct (decide (u = t)) as [->|]; [rewrite moved_self, Ht; naive_solver|]. rewrite moved_other by done. by rewrite fmap_is_Some. Qed.
Lemma moved_shape : shape (threads moved) (word moved) (monitors moved).
Proof.
  pose proof (inv_shape s Hi) as Hsh. cbn [moved set_pc add_suspensions word monitors]. change (alter (at_pc p) t _) with (threads moved).
  destruct Hsh as [|id' c Hid Hc|m mon Hm [M1 M2 M3 M4 M5]|h Hh]; constructor; try done; [by apply moved_there|]. split; try done.
  - intros. by apply moved_there, M3.
  - rewrite moved_sum by done. rewrite M4, L1. cbn. rewrite L2. lia.
Qed.
Lemma moved_pc u uh : u <> t -> threads moved !! u = Some uh -> exists uh', threads s !! u = Some uh' /\ pc_ uh = pc_ uh'.
Proof. intros Hu. rewrite moved_other by done. destruct (threads s !! u) as [uh'|]; [|done]. intros E. injection E as <-. eauto. Qed.

Lemma moved_wakes : wakes moved.
Proof.
  intros Ho v vh Hv Ha. destruct (light _ L1) as (_ & A1 & A2 & _). destruct (light _ L2) as (_ & B1 & B2 & _).
  destruct (decide (v = t)) as [->|Hn]. { rewrite moved_self in Hv. injection Hv as <-. cbn in Ha; by rewrite B2 in Ha. }
  destruct (moved_pc v vh Hn Hv) as (vh' & Hv' & E). rewrite E in Ha. destruct (Hw Ho v vh' Hv' Ha) as (u & uh & Hu & Hk).
  destruct (decide (u = t)) as [->|Hn']; [rewrite Ht in Hu; injection Hu as <-; by rewrite A1 in Hk|].
  eexists u, _. rewrite moved_other, Hu by done. done.
Qed.
Lemma moved_abs : jstep t Tau (abs s) (abs moved).
Proof.
  destruct (light _ L1) as (A1 & _ & _ & A2). destruct (light _ L2) as (B1 & _ & _ & B2).
  assert (forall u, waits_at moved u = waits_at s u) as Hwa.
  { intros u. unfold waits_at. destruct (decide (u = t)) as [->|Hn]; [rewrite moved_self, Ht; cbn; by rewrite A2, B2|]. rewrite moved_other by done. by destruct (threads s !! u). }
  split_and!; try done; cbn [abs j_owner j_depth j_hash j_waits jeffect]; [|auto].
  unfold the_owner, the_depth, the_mon. change (word moved) with (word s). change (monitors moved) with (monitors s). split_and!; [done| |apply Hwa].
  destruct (GetState (word s)); try done. destruct (monitors s !! _) as [mon|]; [|done]. cbn. unfold mon_depth. destruct (owner_ mon =? 0); [done|]. f_equal.
  destruct (decide (owner_ mon = t)) as [->|Hn]; [change (alter (at_pc p) t _) with (threads moved); rewrite moved_self, Ht; cbn; by rewrite A1, B1|].
  change (alter (at_pc p) t _) with (threads moved). rewrite moved_other by done. by destruct (threads s !! owner_ mon).
Qed.
Lemma moved_good : (forall u, u <> 0 -> suspends u p = suspends u (pc_ th) + (if u =? id then d else 0)) -> suspend_count th = 0 ->
  (0 < d -> exists idh, threads s !! id = Some idh /\ safe (pc_ idh) = true) -> d <= 1 -> pc_ok (word s) (monitors s) t p -> good t Tau s moved.
Proof.
  intros Hs Hz Hsafe Hd Hp. split_and!; [|apply moved_wakes|apply moved_abs]. split; [|apply moved_shape| | |].
  - intros u Hu. apply (inv_ids s Hi). by apply moved_there.
  - intros u uh Hu. destruct (decide (u = t)) as [->|Hn]; [rewrite moved_self in Hu; by injection Hu as <-|].
    destruct (moved_pc u uh Hn Hu) as (uh' & Hu' & ->). by apply (inv_pc s Hi).
  - intros u uh Hu. assert (id_ok u) as Hid by (apply (inv_ids s Hi), moved_there; by rewrite Hu). rewrite moved_sum by done. cbn [pc_]. rewrite Hs by (words; lia).
    destruct (decide (u = t)) as [->|Hn].
    + rewrite moved_self in Hu. injection Hu as <-. cbn [suspend_count pc_]. destruct (inv_suspend s Hi t th Ht) as [E _]. rewrite <- E, (proj2 (Z.eqb_neq t id)) by done. lia.
    + rewrite moved_other in Hu by done. destruct (threads s !! u) as [uh'|] eqn:Hu'; [|done]. injection Hu as <-. cbn [suspend_count pc_].
      destruct (inv_suspend s Hi u uh' Hu') as [E Hpos]. split; [lia|]. destruct (Z.eqb_spec u id) as [->|]; [|rewrite Z.add_0_r; done].
      intros. destruct (Z.ltb_spec 0 d) as [Hd0|]; [|apply Hpos; lia]. destruct (Hsafe Hd0) as (idh & Hidh & Hok). rewrite Hu' in Hidh. by injection Hidh as ->.
  - intros u uh v Hu Hv Hn. apply moved_there. destruct (decide (u = t)) as [->|Hnu].
    + rewrite moved_self in Hu. injection Hu as <-. cbn [pc_] in Hn. rewrite Hs in Hn by done. destruct (Z.eqb_spec (suspends v (pc_ th)) 0); [|by apply (inv_target s Hi t th)].
      destruct (Z.eqb_spec v id) as [->|]; [|lia]. destruct (Z.ltb_spec 0 d) as [Hd0|]; [destruct (Hsafe Hd0) as (idh & -> & _); eauto|].
      pose proof (suspends_nonneg id p). rewrite Hs in * by done. rewrite Z.eqb_refl in *. lia.
    + destruct (moved_pc u uh Hnu Hu) as (uh' & Hu' & E). rewrite E in Hn. by apply (inv_target s Hi u uh').
Qed.
End Suspend.

(** ** Inflating *)

Section Inflate.
Context (s : state) (t : Z) (th : thread) (Hi : inv s) (Hw : wakes s) (Ht : threads s !! t = Some th).

Lemma held_count id : id <> 0 -> suspends id (pc_ th) = 1 -> exists idh, threads s !! id = Some idh /\ 0 < suspend_count idh /\ safe (pc_ idh) = true.
Proof.
  intros Hid Hs. destruct (inv_target s Hi t th id Ht Hid ltac:(lia)) as [idh Hl]. destruct (inv_suspend s Hi id idh Hl) as [E Hpos].
  pose proof (tsum_in (fun uh => suspends id (pc_ uh)) (threads s) t th (fun uh => suspends_nonneg id (pc_ uh)) Ht) as Hin. cbn in Hin.
  exists idh. split_and!; [done|lia|]. apply Hpos. lia.
Qed.
Lemma held_suspended id : id_ok id -> suspends id (pc_ th) = 1 -> IsSuspended s id = true /\ exists idh, threads s !! id = Some idh /\ safe (pc_ idh) = true.
Proof.
  intros Hid Hs. destruct (held_count id) as (idh & Hl & Hpos & Hsafe); [words; lia|done|]. unfold IsSuspended. rewrite Hl. split; [|eauto]. rewrite Hsafe. by apply Z.ltb_lt.
Qed.
Lemma inflates_check owner resume : id_ok owner -> inflates t owner resume -> (forall u, suspends u (pc_ th) = if resume =? u then 1 else 0) ->
  (owner =? 0) || (owner =? t) || IsSuspended s owner = true.
Proof.
  intros Ho [[-> _]|[Hne ->]] Hs; [by rewrite Z.eqb_refl, orb_true_r|]. rewrite (proj1 (held_suspended owner Ho ltac:(by rewrite Hs, Z.eqb_refl))). by rewrite orb_true_r.
Qed.

Lemma SuspendOwner_ok c id hash a : pc_ th = SuspendOwner id hash a -> suspend_count th = 0 -> outcome t s (SuspendThreadByThreadId c t id hash a s).
Proof.
  intros Epc Hz. pose proof (inv_pc s Hi t th Ht) as Hp. rewrite Epc in Hp. destruct Hp as (Hid & Hne & Hh). unfold SuspendThreadByThreadId. destruct (c_fails c).
  - apply (stay s t th); rewrite ?Epc; try done; auto; by destruct a.
  - destruct (threads s !! id) as [idh|] eqn:Hl; [|done]. destruct (safe (pc_ idh)) eqn:Hs; [|done]. unfold ModifySuspendCount. rewrite Hl. cbn [deref mbind cres_bind quiet Z.ltb Z.compare andb outcome].
    apply (moved_good s t th Hi Hw Ht id 1 (OwnerSuspended id hash a)); rewrite ?Epc; try done; eauto. intros u Hu. cbn [suspends]. by rewrite Z.eqb_sym.
Qed.
Lemma OwnerSuspended_ok id hash a : pc_ th = OwnerSuspended id hash a -> suspend_count th = 0 -> outcome t s (inflate_suspended t id hash a s).
Proof.
  intros Epc Hz. pose proof (inv_pc s Hi t th Ht) as Hp. rewrite Epc in Hp. destruct Hp as (Hid & Hne & Hh).
  assert (outcome t s (go t (ResumeOwner id a) s)) as Hno by (apply (stay s t th); rewrite ?Epc; try done; auto).
  unfold inflate_suspended. destruct (shape_cases _ _ _ (inv_shape s Hi)) as [[Ew Em]|[(id' & n & Ew & Em & Hex & Hc)|[(m & mon & Ew & Em & Hm & _)|(h & Ew & Em & Hh')]]]; rewrite Ew.
  - done.
  - destruct (thin_ok id' n (inv_ids s Hi id' Hex) Hc) as (-> & -> & _). rewrite bool_decide_true by done. cbn [andb]. destruct (Z.eqb_spec id' id) as [->|]; [|done].
    assert (suspends id (pc_ th) = 1) as Hs by (rewrite Epc; cbn [suspends]; by rewrite Z.eqb_refl).
    unfold Inflate. rewrite (proj1 (held_suspended id Hid Hs)), orb_true_r. cbn [CHECK mbind cres_bind quiet outcome].
    apply (stay s t th); rewrite ?Epc; try done; auto. exists id, hash. split_and!; try done. left. split_and!; try done; [by right|]. left. eauto.
  - by destruct (fat_ok m Hm) as (-> & _).
  - destruct (hashed_ok h) as (-> & _); [lia|done].
Qed.
Lemma install_read_ok mon resume a : pc_ th = InstallRead mon resume a -> outcome t s (quiet (install_read t mon resume a s)).
Proof.
  intros Epc. pose proof (inv_pc s Hi t th Ht) as Hp. rewrite Epc in Hp. destruct Hp as (owner & h & -> & Hh & Hp).
  assert (suspend_count th = 0) as Hz by (apply (running s t th); try done; by rewrite Epc).
  assert (forall q, weight q = 0 -> (forall u, suspends u q = suspends u (pc_ th)) -> pc_ok (word s) (monitors s) t q -> outcome t s (quiet (Done (set_pc t q s)))) as Hstay.
  { intros. apply (stay s t th); try done; auto. by rewrite Epc. }
  assert (is_fat (word s) (monitors s) -> GetState (word s) = kFatLocked) as Hfat by (intros (m & mon & Hm & -> & _); by apply fat_ok).
  unfold install_read. cbn [owner_ hash_code_]. destruct Hp as [(Ho & Hinf & Hrest)|(-> & -> & Hpos & Hhash)].
  - rewrite (inflates_check owner resume) by (done || by rewrite Epc). cbn [CHECK mbind cres_bind]. destruct Hrest as [(n & Hn & Ew)|[Hne Hf]].
    + rewrite Ew. destruct (thin_ok owner n Ho Hn) as (-> & -> & ->). rewrite Z.eqb_refl. cbn [CHECK mbind cres_bind]. apply Hstay; rewrite ?Epc; try done.
      exists owner, n, h. split_and!; try done; [by left|]. left. by split_and!.
    + rewrite (Hfat Hf). apply Hstay; by rewrite ?Epc.
  - cbn [Z.eqb orb CHECK mbind cres_bind]. destruct Hhash as [Ew|(m & mon & Ew & Hl & Eh)].
    + rewrite Ew. destruct (hashed_ok h Hh) as (-> & ->). rewrite Z.eqb_refl. cbn [CHECK mbind cres_bind]. apply Hstay; rewrite ?Epc; try done.
      exists 0, 0, h. split_and!; try done; [by left|]. right. by split_and!.
    + destruct (mon_fat s t Hi m (fun _ => True)) as (_ & Hm & mon' & Em & _); [split; eauto|]. rewrite Hfat by (by exists m, mon'). apply Hstay; by rewrite ?Epc.
Qed.
Lemma Installed_ok resume a : pc_ th = Installed resume a -> outcome t s (if bool_decide (GetState (word s) = kFatLocked) then go t (ResumeOwner resume a) s else Some (Fault Aborted)).
Proof.
  intros Epc. pose proof (inv_pc s Hi t th Ht) as Hp. rewrite Epc in Hp. destruct Hp as (m & mon & Hm & Ew & _). rewrite Ew. destruct (fat_ok m Hm) as (-> & _).
  rewrite bool_decide_true by done. apply (stay s t th); rewrite ?Epc; try done. left. apply (running s t th); try done. by rewrite Epc.
Qed.
Lemma ResumeOwner_ok id a : pc_ th = ResumeOwner id a -> outcome t s (Resume t id a s).
Proof.
  intros Epc. assert (safe (pc_ th) = false) as Hs by (by rewrite Epc). destruct (unsafe_running s t th Hi Ht Hs) as [Hz Hfree].
  unfold Resume. destruct (Z.eqb_spec id 0) as [->|Hid].
  - apply (stay s t th); rewrite ?Epc; try done; auto; [by destruct a| |by destruct a]. intros u Hu. cbn [suspends]. rewrite no_id_zero by done. by destruct a.
  - assert (id <> t) as Hne. { intros ->. specialize (Hfree t th Ht). rewrite Epc in Hfree. cbn [suspends] in Hfree. by rewrite Z.eqb_refl in Hfree. }
    destruct (held_count id) as (idh & Hl & Hpos & _); [done|rewrite Epc; cbn [suspends]; by rewrite Z.eqb_refl|].
    unfold ModifySuspendCount. rewrite Hl. cbn [deref mbind cres_bind quiet]. rewrite (proj2 (Z.leb_gt _ _)), andb_false_r by done.
    apply (moved_good s t th Hi Hw Ht id (-1) (loop_of a)); rewrite ?Epc; try done; [by destruct a| |by destruct a].
    intros u Hu. cbn [suspends]. rewrite Z.eqb_sym. destruct a; by destruct (u =? id).
Qed.

(** The word of a lock that is swapped for a monitor. *)
Lemma inflated m owner n h resume a : pc_ th = InstallCas (word s) (mkMonitor owner n 0 [] h) resume a -> 0 <= m < 2 ^ 30 -> hash_ok h ->
  id_ok owner /\ inflates t owner resume /\ count_ok n /\ word s = thin owner n \/ owner = 0 /\ resume = 0 /\ n = 0 /\ 0 < h /\ word s = hashed h ->
  good t Tau s (set_pc t (Installed resume a) (set_word (FromMonitor m) (set_monitor m (mkMonitor owner n 0 [] h) s))).
Proof.
  intros Epc Hm Hh Hv. set (mon := mkMonitor owner n 0 [] h). set (s' := set_pc _ _ _).
  assert (monitors s = ∅ /\ (owner <> 0 -> is_Some (threads s !! owner)) /\ forall m', 0 <= m' < 2 ^ 30 -> word s <> fat m') as (Em & Hex & Hnf).
  { destruct Hv as [(Ho & _ & Hn & Ew)|(-> & _ & _ & Hpos & Ew)].
    - destruct (thin_shape s Hi owner n Ew Ho Hn) as [? ?]. split_and!; try done. rewrite Ew. intros. by apply not_fat_thin.
    - assert (0 < h < 2 ^ 30) by (words; lia). split_and!; [by apply (hashed_shape s Hi h)|done|]. rewrite Ew. intros m' Hm' E. clash. }
  assert (threads s' = <[t := mkThread (Installed resume a) (suspend_count th) (interrupted_ th)]> (threads s)) as Es by apply (alter_pc s t th _ Ht).
  assert (word s' = fat m) as Ew' by (cbn; by apply from_monitor). assert (monitors s' = {[m := mon]}) as Em' by (cbn; by rewrite Em).
  pose proof (no_weight s Hi Hnf) as Hlight. assert (suspend_count th = 0) as Hz by (apply (running s t th); try done; by rewrite Epc).
  assert (forall u uh, u <> t -> threads s !! u = Some uh -> word s = thin u n -> safe (pc_ uh) = true) as Hsafe.
  { intros u uh Hne Hu Ew. pose proof (inv_ids s Hi u ltac:(by rewrite Hu)) as Hiu. destruct Hv as [(Ho & Hinf & Hn & Ew0)|(-> & _ & -> & Hpos & Ew0)]; rewrite Ew in Ew0.
    - apply thin_inj in Ew0 as [-> _]; [|done..]. destruct Hinf as [[-> _]|[_ ->]]; [done|].
      destruct (held_suspended owner Ho) as (_ & idh & Hl & Hok); [rewrite Epc; cbn [suspends]; by rewrite Z.eqb_refl|]. rewrite Hu in Hl. by injection Hl as ->.
    - unfold thin, hashed in Ew0. words. lia. }
  apply (moves s s' t th (Installed resume a) (interrupted_ th)); try done; rewrite ?Ew', ?Em'.
  - intros u Hu. by rewrite Epc.
  - intros. lia.
  - constructor; [done|]. split; cbn [mon lock_count_ owner_ num_waiters_ hash_code_]; try done.
    + destruct Hv as [(_ & _ & Hn & _)|(_ & _ & -> & _)]; words; lia.
    + intros ->. destruct Hv as [(Ho & _)|(_ & _ & -> & _)]; [words; lia|done].
    + intros Hn0. rewrite Es. apply still_there; auto.
    + rewrite tsum_zero; [done|]. rewrite Es. intros u uh Hu. destruct (decide (u = t)) as [->|Hne]; [rewrite lookup_insert_eq in Hu; by injection Hu as <-|].
      rewrite lookup_insert_ne in Hu by done. by apply (Hlight u).
  - intros u uh Hne Hu. rewrite Em. pose proof (inv_ids s Hi u ltac:(by rewrite Hu)) as Hiu. apply frame_inflate; try done.
    + intros n' Hn' Ew. apply (Hsafe u uh Hne Hu). destruct Hv as [(Ho & _ & Hn & Ew0)|(_ & _ & _ & Hpos & Ew0)]; rewrite Ew in Ew0.
      * apply thin_inj in Ew0 as [-> ->]; done.
      * assert (0 < h < 2 ^ 30) by (words; lia). clash.
    + intros h' Hh' Ew. destruct Hv as [(Ho & _ & Hn & Ew0)|(_ & _ & _ & Hpos & Ew0)]; rewrite Ew in Ew0; [|by apply hashed_inj in Ew0].
      pose proof (thin_range owner n Ho Hn). unfold hashed in Ew0. lia.
    + intros <-. destruct Hv as [(_ & _ & Hn & Ew0)|(-> & _)]; [eauto|]. cbn in Hiu. words. lia.
  - by exists m, mon.
  - unfold s', set_pc, set_word, set_monitor. cbn [word monitors threads]. rewrite (alter_pc s t th) by done. by apply word_wakes.
  - destruct (abs_fat s' m mon Ew' Hm Em') as (-> & -> & _). rewrite (proj2 (proj2 (proj2 (light _ (Hlight t th Ht))))).
    destruct Hv as [(Ho & _ & Hn & Ew)|(-> & _ & -> & Hpos & Ew)].
    + destruct (abs_thin s owner n Ew Ho Hn) as (-> & -> & _). split_and!; try done. rewrite Es. destruct (Hex ltac:(words; lia)) as [oh Hoh].
      rewrite (mon_depth_update (threads s) t th) by (rewrite ?Epc; done). rewrite (mon_depth_own _ owner oh) by (done || (words; lia)). by rewrite (proj1 (light _ (Hlight owner oh Hoh))).
    + by destruct (abs_hashed s h Ew Hh) as (-> & -> & _).
  - destruct (abs_fat s' m mon Ew' Hm Em') as (_ & _ & ->). destruct Hv as [(Ho & _ & Hn & Ew)|(-> & _ & -> & Hpos & Ew)].
    + by destruct (abs_thin s owner n Ew Ho Hn) as (_ & _ & ->).
    + by destruct (abs_hashed s h Ew Hh) as (_ & _ & ->).
Qed.
Lemma install_cas_ok c v mon resume a : pc_ th = InstallCas v mon resume a -> outcome t s (match install_cas c t v mon resume a s with Some s => Some (Done (Tau, s)) | None => None end).
Proof.
  intros Epc. pose proof (inv_pc s Hi t th Ht) as Hp. rewrite Epc in Hp. destruct Hp as (owner & n & h & -> & Hh & _ & Hrest).
  unfold install_cas. destruct (Z.eqb_spec (word s) v) as [<-|Hne]; [destruct (c_fails c)|]; cbn [negb andb].
  - apply (stay s t th); rewrite ?Epc; try done. left. apply (running s t th); try done. by rewrite Epc.
  - destruct (monitors s !! c_monitor c); [done|]. destruct (Z.leb_spec 0 (c_monitor c)), (Z.ltb_spec (c_monitor c) (2 ^ 30)); try done. by apply inflated.
  - apply (stay s t th); rewrite ?Epc; try done. left. apply (running s t th); try done. by rewrite Epc.
Qed.
End Inflate.
