(* ===== verification/MonitorSafe.v ===== *)
(** * MonitorSafe: the lock of an object implements the monitor of the language

    Every step of every run keeps the invariant; the locks of objects refine the
    monitors of the language, exclude threads from each other, lose no wake-up of a contender, and
    fail only where a thread locks too often or unlocks what is not its own.  A
    notification can go to a thread that is interrupted, and be lost. *)

From stdpp Require Import base list gmap.
From S2P Require Import Prelude LockWord Monitor MonitorInv MonitorSpec MonitorSteps.

(** ** Steps of the system *)

Lemma tstep_ok c t s : inv s -> wakes s -> outcome t s (tstep c t s).
Proof.
  intros Hi Hw. unfold tstep. destruct (threads s !! t) as [th|] eqn:Ht; [|done].
  assert (forall r, (suspend_count th = 0 -> outcome t s r) -> outcome t s (if suspend_count th =? 0 then r else None)) as Hruns.
  { intros r Hr. destruct (Z.eqb_spec (suspend_count th) 0); auto. done. }
  assert (forall p, pc_ok (word s) (monitors s) t p -> weight p = 0 -> weight (pc_ th) = 0 -> (forall u, suspends u p = suspends u (pc_ th)) -> suspend_count th = 0 -> outcome t s (go t p s)) as Hgo.
  { intros. apply (stay s t th); auto; done. }
  pose proof (known_word s t th Hi Ht) as Hk. pose proof (running s t th Hi Ht) as Hrun. pose proof (inv_pc s Hi t th Ht) as Hp.
  destruct (pc_ th) eqn:Epc; try (apply Hgo; auto; done).
  - apply Hruns. intros Hz. destruct (is_start (c_start c)) eqn:Hs; [|done]. destruct (c_start c); try done; apply Hgo; done.
  - by apply (MonitorEnter_ok s t th).
  - by apply (MonitorExit_ok s t th).
  - by apply (ObjectWait_ok s t th).
  - by apply (DoNotify_ok s t th).
  - by apply (IdentityHashCode_ok s t th).
  - apply Hruns. by apply (SuspendOwner_ok s t th).
  - apply Hruns. by apply (OwnerSuspended_ok s t th).
  - by apply (install_read_ok s t th).
  - by apply (install_cas_ok s t th).
  - by apply (Installed_ok s t th).
  - by apply (ResumeOwner_ok s t th).
  - by apply (LockBlocked_ok s t th).
  - cbn [outcome go]. rewrite (set_pc_thread s t th) by done. apply (contend s t th); rewrite ?Epc; try done; auto.
  - apply Hruns. by apply (LockWoken_ok s t th).
  - cbn [outcome]. apply (contend s t th); rewrite ?Epc; try done; auto.
  - apply Hruns. intros Hz. cbn [outcome go]. rewrite (set_pc_thread s t th) by done. apply (contend s t th); rewrite ?Epc; try done; auto.
  - by apply (WaitLock_ok s t th).
  - by apply (Restore_ok s t th).
Qed.

Lemma good_refl t s : inv s -> wakes s -> good t Tau s s.
Proof. intros. split_and!; done. Qed.
Lemma Interrupt_ok t s : inv s -> wakes s -> good t Tau s (Interrupt t s).
Proof.
  intros Hi Hw. unfold Interrupt. set (f := fun th : thread => _).
  assert (forall ths, ths = threads s -> mkS (word s) (monitors s) ths = s) as Hsame by (intros ? ->; by destruct s).
  destruct (threads s !! t) as [th|] eqn:Ht.
  - assert (alter f t (threads s) = <[t := f th]> (threads s)) as ->.
    { apply map_eq. intros u. destruct (decide (u = t)) as [->|]; [by rewrite lookup_alter_eq, lookup_insert_eq, Ht|by rewrite lookup_alter_ne, lookup_insert_ne]. }
    unfold f. destruct (interrupted_ th); [rewrite (Hsame (<[t := th]> (threads s))) by (by apply insert_id); by apply good_refl|].
    pose proof (inv_pc s Hi t th Ht) as Hp. pose proof (proj2 (inv_suspend s Hi t th Ht)) as Hs. unfold signal_waiting. cbn [pc_].
    destruct (pc_ th) eqn:Epc; apply (contend s t th); rewrite ?Epc; try done; auto;
      destruct (Z.eqb_spec (suspend_count th) 0); auto; right; apply Hs; pose proof (proj1 (inv_suspend s Hi t th Ht)) as E;
      pose proof (tsum_nonneg (fun uh => suspends t (pc_ uh)) (threads s) (fun uh => suspends_nonneg t (pc_ uh))); lia.
  - rewrite (Hsame (alter f t (threads s))); [by apply good_refl|]. apply map_eq. intros u. destruct (decide (u = t)) as [->|]; [by rewrite lookup_alter_eq, Ht|by rewrite lookup_alter_ne].
Qed.

(** Deflation takes a monitor away from under no thread. *)
Lemma deflated w' mon m s : inv s -> word s = fat m -> 0 <= m < 2 ^ 30 -> monitors s = {[m := mon]} -> all_safe s = true -> num_waiters_ mon <= 0 ->
  shape (threads s) w' ∅ -> let s' := mkS w' (delete m (monitors s)) (threads s) in
  the_owner s' = owner_ mon -> the_depth s' = (if owner_ mon =? 0 then 0 else lock_count_ mon + 1) -> the_hash s' = hash_code_ mon -> good 0 Tau s s'.
Proof.
  intros Hi Ew Hm Em Hsafe Hn Hshape s' B1 B2 B3. destruct (fat_mon_ok s Hi m mon Ew Hm Em) as [M1 M2 M3 M4 M5].
  assert (monitors s' = ∅) as Em' by (cbn; rewrite Em; apply delete_singleton_eq).
  assert (forall u uh, threads s !! u = Some uh -> weight (pc_ uh) = 0) as Hlight.
  { intros u uh Hu. pose proof (tsum_in (fun uh => weight (pc_ uh)) (threads s) u uh (fun uh => weight_nonneg (pc_ uh)) Hu) as Hin. pose proof (weight_nonneg (pc_ uh)). cbn in Hin. lia. }
  destruct (abs_fat s m mon Ew Hm Em) as (A1 & A2 & A3). split_and!.
  - split; [apply (inv_ids s Hi)|by rewrite Em'| |apply (inv_suspend s Hi)|apply (inv_target s Hi)].
    intros u uh Hu. pose proof (inv_pc s Hi u uh Hu) as Hp. specialize (Hlight u uh Hu). unfold all_safe in Hsafe. rewrite forallb_forall in Hsafe.
    specialize (Hsafe (u, uh) ltac:(apply list_elem_of_In, elem_of_map_to_list, Hu)). cbn in Hsafe. destruct (pc_ uh) as [| | | | | | | | | | | | | | | | |? k|? k|? k| | | |]; try done; by destruct k.
  - intros _ v vh Hv Ha%asleep_weight. rewrite (Hlight v vh Hv) in Ha. lia.
  - split_and!; cbn [abs j_owner j_depth j_hash j_waits jeffect]; [|congruence|done]. rewrite A1, A2, B1, B2. split_and!; try done. unfold mon_depth.
    destruct (Z.eqb_spec (owner_ mon) 0) as [|Ho]; [done|]. destruct (M3 Ho) as [oh Hoh]. rewrite Hoh. cbn. by rewrite (proj1 (light _ (Hlight _ oh Hoh))).
Qed.
Lemma Deflate_ok s : inv s -> wakes s -> all_safe s = true -> outcome 0 s (quiet (Deflate s)).
Proof.
  intros Hi Hw Hsafe. pose proof (good_refl 0 s Hi Hw) as Hrefl. unfold Deflate.
  destruct (shape_cases _ _ _ (inv_shape s Hi)) as [[Ew Em]|[(id & n & Ew & Em & Hex & Hc)|[(m & mon & Ew & Em & Hm & Hok)|(h & Ew & Em & Hh')]]]; rewrite Ew.
  - done.
  - by destruct (thin_ok id n (inv_ids s Hi id Hex) Hc) as (-> & _).
  - destruct (fat_ok m Hm) as (-> & ->). rewrite bool_decide_true by done. rewrite (fat_lookup s m mon) by done. cbn [deref mbind cres_bind].
    pose proof Hok as [M1 M2 M3 M4 M5]. destruct (Z.ltb_spec 0 (num_waiters_ mon)) as [|Hn]; [done|].
    destruct (Z.eqb_spec (owner_ mon) 0) as [Eo|Eo]; cbn [negb]; destruct (Z.eqb_spec (hash_code_ mon) 0) as [Eh|Eh]; cbn [negb]; try done.
    + apply (deflated 0 mon m); try done; [constructor|..]; cbn; rewrite ?Eo, ?Eh; done.
    + rewrite from_hash by done. cbn [mbind cres_bind quiet outcome]. assert (0 < hash_code_ mon < 2 ^ 30) by (words; lia).
      apply (deflated _ mon m); try done; [by constructor|..]; edestruct (abs_hashed (mkS (hashed (hash_code_ mon)) (delete m (monitors s)) (threads s))) as (E1 & E2 & E3); try done; by rewrite ?E1, ?E2, ?E3, ?Eo.
    + destruct (Z.ltb_spec kThinLockMaxCount (lock_count_ mon)) as [|Hc]; [done|]. assert (id_ok (owner_ mon)) as Hid by (apply (inv_ids s Hi); auto). assert (count_ok (lock_count_ mon)) as Hc' by (split; lia).
      rewrite from_thin by done. cbn [mbind cres_bind quiet outcome]. apply (deflated _ mon m); try done; [constructor; auto|..];
        edestruct (abs_thin (mkS (thin (owner_ mon) (lock_count_ mon)) (delete m (monitors s)) (threads s))) as (E1 & E2 & E3); try done; rewrite ?E1, ?E2, ?E3; try done.
      by rewrite (proj2 (Z.eqb_neq _ 0)).
  - by destruct (hashed_ok h (hash_ok_pos h Hh')) as (-> & _).
Qed.

Definition actor (a : act) : Z := match a with Thread t _ | InterruptThread t => t | DeflateMonitor => 0 end.
Lemma step_ok a s : inv s -> wakes s -> outcome (actor a) s (step a s).
Proof.
  intros Hi Hw. destruct a as [t c|t|]; cbn [step actor]; [by apply tstep_ok|by apply Interrupt_ok|].
  destruct (all_safe s) eqn:Hs; [by apply Deflate_ok|done].
Qed.
Definition ids_ok (ids : list Z) : Prop := Forall id_ok ids.
Lemma initial_lookup ids t th : threads (initial ids) !! t = Some th -> t ∈ ids /\ th = mkThread Idle 0 false.
Proof. cbn. intros Hl%elem_of_list_to_map_2. apply list_elem_of_fmap in Hl as (u & E & Hu). by injection E as -> ->. Qed.
Lemma initial_ok ids : ids_ok ids -> inv (initial ids) /\ wakes (initial ids).
Proof.
  intros Hids. split; [|intros _ t th [_ ->]%initial_lookup; done]. split.
  - intros t [th [Hin _]%initial_lookup]. unfold ids_ok in Hids. rewrite Forall_forall in Hids. auto.
  - constructor.
  - by intros t th [_ ->]%initial_lookup.
  - intros t th [_ ->]%initial_lookup. cbn. split; [|done]. rewrite tsum_zero; [done|]. by intros u uh [_ ->]%initial_lookup.
  - by intros t th u [_ ->]%initial_lookup.
Qed.
Lemma reach_ok ids s : ids_ok ids -> reach ids s -> inv s /\ wakes s.
Proof.
  intros Hids. induction 1 as [|a s e s' Hr [Hi Hw] Hs]; [by apply initial_ok|].
  pose proof (step_ok a s Hi Hw) as Ho. rewrite Hs in Ho. destruct Ho as (I & W & _). done.
Qed.

(** ** Runs *)

(** The events of a run, the last one first. *)
Inductive run (ids : list Z) : list (Z * event) -> state -> Prop :=
| run_initial : run ids [] (initial ids)
| run_step tr a s e s' : run ids tr s -> step a s = Some (Done (e, s')) -> run ids ((actor a, e) :: tr) s'.
Lemma run_reach ids tr s : run ids tr s -> reach ids s.
Proof. induction 1; [constructor|by econstructor]. Qed.
Lemma run_jstep ids tr a s e s' : ids_ok ids -> run ids tr s -> step a s = Some (Done (e, s')) -> jstep (actor a) e (abs s) (abs s').
Proof.
  intros Hids Hr Hs. destruct (reach_ok ids s Hids (run_reach _ _ _ Hr)) as [Hi Hw]. pose proof (step_ok a s Hi Hw) as Ho. rewrite Hs in Ho. by destruct Ho as (_ & _ & J).
Qed.

(** What the events of a thread amount to: how often it holds the lock, and how
    often it held the lock when it began to wait. *)
Fixpoint held (t : Z) (tr : list (Z * event)) : Z * option Z :=
  match tr with
  | [] => (0, None)
  | (u, e) :: tr =>
      let '(d, w) := held t tr in
      if u =? t then match e with EvEnter => (d + 1, w) | EvExit true => (d - 1, w) | EvWait => (0, Some d) | EvRestore n => (n, None) | _ => (d, w) end
      else (d, w)
  end.
(** What the language says of an event after others. *)
Definition legal (t : Z) (e : event) (tr : list (Z * event)) : Prop :=
  match e with
  | EvEnter => forall u, u <> t -> (held u tr).1 = 0
  | EvExit success => success = (0 <? (held t tr).1)
  | EvIllegalState => (held t tr).1 = 0
  | EvIllegalArgument | EvNotify | EvWait | EvWaitDone _ => 0 < (held t tr).1
  | EvRestore n => (forall u, (held u tr).1 = 0) /\ (held t tr).2 = Some n
  | EvHash h => 0 < h /\ forall u h', (u, EvHash h') ∈ tr -> h' = h
  | Tau => True
  end.
Fixpoint legal_trace (tr : list (Z * event)) : Prop := match tr with [] => True | (t, e) :: tr => legal t e tr /\ legal_trace tr end.

(** The state accounts for the events. *)
Record accounts (j : jmon) (tr : list (Z * event)) : Prop := {
  acc_held t : (held t tr).1 = if j_owner j =? t then j_depth j else 0;
  acc_waits t : (held t tr).2 = j_waits j t;
  acc_free : j_owner j = 0 -> j_depth j = 0;
  acc_owned : j_owner j <> 0 -> 0 < j_depth j;
  acc_saved t n : j_waits j t = Some n -> 0 < n;
  acc_hash t h : (t, EvHash h) ∈ tr -> 0 < h /\ j_hash j = h
}.
Lemma held_other t u e tr : u <> t -> held t ((u, e) :: tr) = held t tr.
Proof. intros Hne. cbn. destruct (held t tr). by rewrite (proj2 (Z.eqb_neq u t)). Qed.

Section Account.
Context (t : Z) (e : event) (j j' : jmon) (tr : list (Z * event)) (Ht : t = 0 -> e = Tau) (A : accounts j tr) (J : jstep t e j j').

Lemma legal_of_accounts : legal t e tr.
Proof.
  destruct A as [A1 A2 A3 A4 A5 A6]. destruct J as (He & Hh & _). pose proof (A1 t) as Et.
  assert (e <> Tau -> t <> 0) as H0 by (intros Hne ->; auto).
  assert (forall u, u <> t -> j_owner j = 0 \/ j_owner j = t -> (held u tr).1 = 0) as Hu.
  { intros u Hne Ho. rewrite A1. destruct (Z.eqb_spec (j_owner j) u); [|done]. subst u. intuition congruence. }
  assert (e <> Tau -> j_owner j = t -> 0 < (held t tr).1) as Hpos. { intros Hne Ho. rewrite Et, Ho, Z.eqb_refl. apply A4. rewrite Ho. auto. }
  assert (j_owner j <> t -> (held t tr).1 = 0) as Hzero. { intros Ho. by rewrite Et, (proj2 (Z.eqb_neq _ _)). }
  destruct e as [| |[]| | | |n| | |h]; cbn in *; try done; try (apply Hpos; [done|tauto]); try (apply Hzero; tauto).
  - intros u Hne. apply Hu; tauto.
  - symmetry. apply Z.ltb_lt, Hpos; [done|tauto].
  - symmetry. apply Z.ltb_ge. rewrite Hzero by tauto. done.
  - destruct He as (Ho & Hw & _). split; [|by rewrite A2]. intros u. destruct (decide (u = t)) as [->|]; [apply Hzero; rewrite Ho; intros <-; by apply H0|apply Hu; auto].
  - destruct He as (_ & _ & _ & <- & Hp). split; [done|]. intros u h' Hin. destruct (A6 u h' Hin) as [Hp' <-]. symmetry. apply Hh. lia.
Qed.
Lemma account_others : j_owner j' = j_owner j /\ j_depth j' = j_depth j \/ (j_owner j = 0 \/ j_owner j = t) /\ (j_owner j' = 0 \/ j_owner j' = t).
Proof. destruct J as (He & _). destruct e as [| |[]| | | | | | |]; cbn in He; try tauto. right. destruct (j_depth j =? 1); tauto. Qed.
Lemma account_depth : (j_owner j' = 0 -> j_depth j' = 0) /\ (j_owner j' <> 0 -> 0 < j_depth j').
Proof.
  assert (e <> Tau -> t <> 0) as H0 by (intros Hne ->; auto). destruct A as [A1 A2 A3 A4 A5 A6]. destruct J as (He & _ & _).
  destruct e as [| |[]| | | |n| | |]; cbn in He; try solve [destruct He as (_ & -> & -> & _); auto | destruct He as (-> & -> & _); auto].
  - destruct He as (Ho & -> & -> & _). split; [intros ->; by destruct H0|]. intros _. destruct Ho as [Ho|Ho]; [rewrite A3 by done; lia|].
    pose proof (A4 ltac:(rewrite Ho; auto)). lia.
  - destruct He as (Ho & -> & -> & _). pose proof (A4 ltac:(rewrite Ho; auto)). destruct (Z.eqb_spec (j_depth j) 1); split; lia.
  - destruct He as (_ & _ & -> & -> & _). done.
  - destruct He as (_ & Hw & -> & -> & _). pose proof (A5 t n Hw). split; [|done]. intros ->. by destruct H0.
Qed.
Lemma account_self : held t ((t, e) :: tr) = (if j_owner j' =? t then j_depth j' else 0, j_waits j' t).
Proof.
  destruct A as [A1 A2 A3 A4 A5 A6]. destruct J as (He & _ & _). specialize (A1 t). specialize (A2 t). cbn. destruct (held t tr) as [d w]. cbn in A1, A2. rewrite Z.eqb_refl.
  destruct e as [| |[]| | | |n| | |]; cbn in He.
  - destruct He as (-> & -> & ->). by rewrite A1, A2.
  - destruct He as (Ho & -> & -> & ->). rewrite Z.eqb_refl, A1, A2. destruct Ho as [Ho| ->]; [|by rewrite Z.eqb_refl]. rewrite A3 by done. by destruct (_ =? _).
  - destruct He as (Ho & -> & -> & ->). rewrite A1, A2, Ho, Z.eqb_refl. destruct (Z.eqb_spec (j_depth j) 1) as [->|]; [by destruct (0 =? t)|by rewrite Z.eqb_refl].
  - destruct He as (_ & -> & -> & ->). by rewrite A1, A2.
  - destruct He as (_ & -> & -> & ->). by rewrite A1, A2.
  - destruct He as (_ & -> & -> & ->). by rewrite A1, A2.
  - destruct He as (Ho & _ & -> & -> & ->). rewrite A1, Ho, Z.eqb_refl. by destruct (0 =? t).
  - destruct He as (_ & _ & -> & -> & ->). by rewrite Z.eqb_refl.
  - destruct He as (_ & -> & -> & ->). by rewrite A1, A2.
  - destruct He as (_ & -> & -> & ->). by rewrite A1, A2.
  - destruct He as (-> & -> & -> & _). by rewrite A1, A2.
Qed.
Lemma accounts_step : accounts j' ((t, e) :: tr).
Proof.
  pose proof account_self as Hself. pose proof account_others as Ho. pose proof account_depth as [D1 D2]. pose proof legal_of_accounts as Hl.
  destruct A as [A1 A2 A3 A4 A5 A6]. destruct J as (He & Hh & Hw). split; try done.
  - intros u. destruct (decide (t = u)) as [<-|Hne]; [by rewrite Hself|]. rewrite held_other, A1 by done.
    destruct Ho as [[-> ->]|[Ho Ho']]; [done|]. destruct (Z.eqb_spec (j_owner j) u), (Z.eqb_spec (j_owner j') u); try done.
    + rewrite A3, D1 by intuition congruence. done.
    + apply A3. intuition congruence.
    + symmetry. apply D1. intuition congruence.
  - intros u. destruct (decide (t = u)) as [<-|Hne]; [by rewrite Hself|]. rewrite held_other, Hw by done. apply A2.
  - intros u n. destruct (decide (u = t)) as [->|Hne]; [|rewrite Hw by done; apply A5].
    destruct e as [| |[]| | | |n'| | |]; cbn in He; try solve [destruct He as (_ & _ & _ & ->); apply A5 | destruct He as (_ & _ & -> & _); apply A5 | destruct He as (_ & _ & ->); apply A5].
    + destruct He as (Eo & _ & _ & _ & ->). intros E. injection E as <-. apply A4. rewrite Eo. intros E. discriminate (Ht E).
    + by destruct He as (_ & _ & _ & _ & ->).
  - intros u h [E|Hin]%elem_of_cons.
    + injection E as -> <-. cbn in He. tauto.
    + destruct (A6 u h Hin) as [Hp <-]. split; [done|]. apply Hh. lia.
Qed.
End Account.

Lemma actor_nonzero a s e s' : inv s -> step a s = Some (Done (e, s')) -> actor a = 0 -> e = Tau.
Proof.
  intros Hi Hs Ha. destruct a as [t c|t|]; cbn in Hs, Ha.
  - subst t. unfold tstep in Hs. destruct (threads s !! 0) as [th|] eqn:Ht; [|done]. by destruct (self_nonzero s 0 th Hi Ht).
  - by injection Hs as <- _.
  - destruct (all_safe s); [|done]. unfold quiet in Hs. destruct (Deflate s); [|done]. by injection Hs as <- _.
Qed.
Lemma abs_initial ids : the_owner (initial ids) = 0 /\ the_depth (initial ids) = 0 /\ the_hash (initial ids) = 0 /\ forall t, waits_at (initial ids) t = None.
Proof.
  split_and!; try done. intros t. unfold waits_at. destruct (threads (initial ids) !! t) as [th|] eqn:Ht; [|done]. by apply initial_lookup in Ht as [_ ->].
Qed.
Lemma run_accounts ids tr s : ids_ok ids -> run ids tr s -> accounts (abs s) tr /\ legal_trace tr.
Proof.
  intros Hids. induction 1 as [|tr a s e s' Hr [IHa IHl] Hs].
  - destruct (abs_initial ids) as (E1 & E2 & E3 & E4). split; [|done]. split; cbn [abs j_owner j_depth j_waits j_hash]; rewrite ?E1, ?E2; try done.
    + intros t. by destruct (0 =? t).
    + intros t n. by rewrite E4.
    + by intros t h ?%not_elem_of_nil.
  - pose proof (run_jstep ids tr a s e s' Hids Hr Hs) as J. destruct (reach_ok ids s Hids (run_reach _ _ _ Hr)) as [Hi _].
    pose proof (actor_nonzero a s e s' Hi Hs) as H0. split; [by apply (accounts_step _ _ (abs s))|]. split; [by apply (legal_of_accounts _ _ (abs s) (abs s'))|done].
Qed.

(** ** A contender gets a free lock *)

Lemma woken_locks s u uh m k c : inv s -> threads s !! u = Some uh -> pc_ uh = LockWoken m k -> suspend_count uh = 0 -> the_owner s = 0 ->
  exists e s', step (Thread u c) s = Some (Done (e, s')) /\ the_owner s' = u.
Proof.
  intros Hi Hu Epc Hz Ho. pose proof (inv_pc s Hi u uh Hu) as Hp. rewrite Epc in Hp. destruct Hp as (_ & Hmon). destruct (mon_fat s u Hi m _ Hmon) as (Ew & Hm & mon & Em & _).
  destruct (abs_fat s m mon Ew Hm Em) as (A1 & _). pose proof (mon_free _ _ (fat_mon_ok s Hi m mon Ew Hm Em)) as Hc. assert (owner_ mon = 0) as E0 by congruence.
  cbn [step]. unfold tstep. rewrite Hu, Epc, Hz. cbn [Z.eqb]. unfold lock_again, with_monitor. rewrite (fat_lookup s m mon) by done. unfold Lock. cbn [add_waiters owner_ lock_count_].
  rewrite E0, Hc by done. cbn [Z.eqb CHECK mbind cres_bind]. eexists _, _. split; [done|].
  eapply (abs_fat _ m (set_owner u (add_waiters (-1) mon))); [done|done|]. cbn. rewrite Em, insert_insert_eq. apply insert_singleton_eq.
Qed.
Lemma blocked_wakes s u uh m k c : inv s -> threads s !! u = Some uh -> pc_ uh = LockBlocked m k -> the_owner s = 0 -> step (Thread u c) s = Some (Done (Tau, set_pc u (LockWoken m k) s)).
Proof.
  intros Hi Hu Epc Ho. pose proof (inv_pc s Hi u uh Hu) as Hp. rewrite Epc in Hp. destruct Hp as (_ & Hmon). destruct (mon_fat s u Hi m _ Hmon) as (Ew & Hm & mon & Em & _).
  destruct (abs_fat s m mon Ew Hm Em) as (A1 & _). cbn [step]. unfold tstep. rewrite Hu, Epc. unfold block, with_monitor. rewrite (fat_lookup s m mon) by done. rewrite <- A1, Ho. done.
Qed.
Lemma awake_locks s u uh c : inv s -> wakes s -> threads s !! u = Some uh -> awake (pc_ uh) = true -> suspend_count uh = 0 -> the_owner s = 0 ->
  exists s1 e s', (s1 = s \/ step (Thread u c) s = Some (Done (Tau, s1))) /\ step (Thread u c) s1 = Some (Done (e, s')) /\ the_owner s' = u.
Proof.
  intros Hi Hw Hu Ha Hz Ho. destruct (pc_ uh) as [| | | | | | | | | | | | | | | | |m k| |m k| | | |] eqn:Epc; try done.
  - pose proof (blocked_wakes s u uh m k c Hi Hu Epc Ho) as Hs. pose proof (step_ok (Thread u c) s Hi Hw) as Hok. rewrite Hs in Hok. destruct Hok as (Hi1 & _).
    destruct (woken_locks (set_pc u (LockWoken m k) s) u (at_pc (LockWoken m k) uh) m k c) as (e & s' & Hs' & Ho'); try done; [cbn; by rewrite lookup_alter_eq, Hu|].
    eauto 10.
  - destruct (woken_locks s u uh m k c) as (e & s' & Hs' & Ho'); try done. eauto 10.
Qed.

(** ** What others are told *)

Lemma lock_owner s : inv s -> GetLockOwnerThreadId s = Done (the_owner s).
Proof.
  intros Hi. unfold GetLockOwnerThreadId, the_owner, the_mon, GetOwnerThreadId.
  destruct (shape_cases _ _ _ (inv_shape s Hi)) as [[-> _]|[(id & n & -> & _ & Hex & Hc)|[(m & mon & -> & -> & Hm & _)|(h & -> & _ & Hh)]]].
  - done.
  - by destruct (thin_ok id n (inv_ids s Hi id Hex) Hc) as (-> & -> & _).
  - destruct (fat_ok m Hm) as (-> & ->). rewrite lookup_singleton_eq. cbn. by destruct (Z.eqb_spec (owner_ mon) 0) as [->|].
  - by destruct (hashed_ok h (hash_ok_pos h Hh)) as (-> & _).
Qed.
Lemma all_safe_thread s t th : all_safe s = true -> threads s !! t = Some th -> safe (pc_ th) = true.
Proof. unfold all_safe. rewrite forallb_forall. intros Hs Ht. apply (Hs (t, th)). by apply list_elem_of_In, elem_of_map_to_list. Qed.
Lemma info_thin s id : inv s -> all_safe s = true -> is_Some (threads s !! id) -> FindThreadByThreadId kInvalidThreadId id (SuspendAll s) = Done ().
Proof.
  intros Hi Hs [th Ht]. unfold FindThreadByThreadId, IsSuspended. cbn [SuspendAll threads]. rewrite lookup_fmap, Ht. cbn [fmap option_fmap option_map pc_ suspend_count].
  rewrite (all_safe_thread s id th Hs Ht). pose proof (proj1 (inv_suspend s Hi id th Ht)) as E.
  pose proof (tsum_nonneg (fun uh => suspends id (pc_ uh)) (threads s) (fun uh => suspends_nonneg id (pc_ uh))) as Hp.
  rewrite (proj2 (Z.ltb_lt 0 _)) by lia. cbn. by rewrite orb_true_r.
Qed.

(** ** Concrete runs *)

Fixpoint exec (acts : list act) (tr : list (Z * event)) (s : state) : option (list (Z * event) * state) :=
  match acts with
  | [] => Some (tr, s)
  | a :: acts => match step a s with Some (Done (e, s')) => exec acts ((actor a, e) :: tr) s' | _ => None end
  end.
Lemma exec_run ids acts tr s tr' s' : run ids tr s -> exec acts tr s = Some (tr', s') -> run ids tr' s'.
Proof.
  revert tr s. induction acts as [|a acts IH]; intros tr s Hr He; cbn in He; [by injection He as <- <-|].
  destruct (step a s) as [[[e s1]|]|] eqn:Hs; try done. eapply IH; [by econstructor|done].
Qed.
Definition trace_of (ids : list Z) (acts : list act) : list (Z * event) := from_option fst [] (exec acts [] (initial ids)).
Definition state_of (ids : list Z) (acts : list act) : state := from_option snd (initial ids) (exec acts [] (initial ids)).
Lemma state_run ids acts : bool_decide (is_Some (exec acts [] (initial ids))) = true -> run ids (trace_of ids acts) (state_of ids acts).
Proof.
  intros [[tr s] E]%bool_decide_eq_true. unfold trace_of, state_of. rewrite E. by eapply exec_run; [constructor|].
Qed.

(** ** A wait that ends *)

(** A thread on its way out of a wait, and whether it was interrupted. *)
Definition leaving (p : pc) : option bool :=
  match p with
  | WaitWoken _ _ was | WaitLock _ _ was | WaitRestore _ _ was
  | LockBlocked _ (KWait _ was) | LockWaiting _ (KWait _ was) | LockWoken _ (KWait _ was) => Some was
  | _ => None
  end.
Definition leaves (w : Z) (was : bool) (s : state) : Prop := exists wh, threads s !! w = Some wh /\ leaving (pc_ wh) = Some was.

Section Leaves.
Context (w : Z) (was : bool).
Abbreviation stays := (leaves w was).

Lemma leaves_threads s s' : threads s' = threads s -> stays s -> stays s'.
Proof. intros E (wh & Hl & Hw). exists wh. by rewrite E. Qed.
Lemma leaves_pc t p s : t <> w -> stays s -> stays (set_pc t p s).
Proof. intros Hn (wh & Hl & Hw). exists wh. split; [|done]. cbn. by rewrite lookup_alter_ne. Qed.
Lemma leaves_thread t th s : t <> w -> stays s -> stays (set_thread t th s).
Proof. intros Hn (wh & Hl & Hw). exists wh. split; [|done]. cbn. by rewrite lookup_insert_ne. Qed.
Lemma leaves_alter f t s ths : (forall th, leaving (pc_ (f th)) = leaving (pc_ th)) -> ths = alter f t (threads s) ->
  stays s -> stays (mkS (word s) (monitors s) ths).
Proof.
  intros Hf -> (wh & Hl & Hw). destruct (decide (t = w)) as [->|Hn].
  - exists (f wh). cbn. by rewrite lookup_alter_eq, Hl, Hf.
  - exists wh. cbn. by rewrite lookup_alter_ne.
Qed.
Lemma leaves_suspensions t d s : stays s -> stays (add_suspensions t d s).
Proof. eapply leaves_alter; [|done]. by intros th. Qed.
Lemma signal_leaving th : leaving (pc_ (signal_waiting th)) = leaving (pc_ th).
Proof. unfold signal_waiting. destruct (pc_ th) eqn:E; cbn; rewrite ?E; done. Qed.
Lemma leaves_interrupt t s : stays s -> stays (Interrupt t s).
Proof. eapply leaves_alter; [|done]. intros th. cbn. destruct (interrupted_ th); [done|]. by rewrite signal_leaving. Qed.
Lemma leaves_signal_waiting t th s : threads s !! t = Some th -> stays s -> stays (set_thread t (signal_waiting th) s).
Proof.
  intros Ht (wh & Hl & Hw). destruct (decide (t = w)) as [->|Hn]; [|apply leaves_thread; [done|by exists wh]].
  exists (signal_waiting wh). rewrite Ht in Hl. injection Hl as ->. cbn. by rewrite lookup_insert_eq, signal_leaving.
Qed.
Lemma leaves_notify_all ws s : stays s -> stays (notify_all s ws).
Proof.
  unfold notify_all. revert s. induction ws as [|t ws IH]; intros s Hs; [done|]. cbn. apply IH.
  destruct (threads s !! t) eqn:Ht; [by apply leaves_signal_waiting|done].
Qed.
Lemma leaves_take_waiter ws s : stays s -> stays (take_waiter s ws).2.
Proof.
  induction ws as [|t ws IH]; intros Hs; [done|]. cbn. destruct (threads s !! t) as [th|] eqn:Ht; [|by apply IH].
  destruct (wait_monitor (pc_ th)); [by apply leaves_signal_waiting|by apply IH].
Qed.
Lemma leaves_signal m woken s s' : Signal m woken s = Some s' -> stays s -> stays s'.
Proof.
  unfold Signal. intros E Hs. destruct (threads s !! woken) as [th|] eqn:Ht; [|by destruct (no_contender m s); simplify_eq].
  destruct (contends m (pc_ th)) as [k|] eqn:Ec; [|by destruct (no_contender m s); simplify_eq]. injection E as <-.
  destruct (decide (woken = w)) as [->|Hn]; [|by apply leaves_pc]. destruct Hs as (wh & Hl & Hw). rewrite Ht in Hl. injection Hl as ->.
  exists (at_pc (LockWoken m k) wh). cbn. rewrite lookup_alter_eq, Ht. split; [done|]. unfold contends in Ec.
  destruct (pc_ wh) eqn:Ep; try done. destruct (_ =? m); [|done]. by injection Ec as ->.
Qed.
Lemma leaves_deflate s s' : Deflate s = Done s' -> stays s -> stays s'.
Proof.
  intros Hd. apply leaves_threads. unfold Deflate in Hd. repeat case_match; cbn in Hd; simplify_eq; try done.
  all: destruct (monitors s !! _) as [mon|]; cbn in Hd; [|done]; repeat case_match; simplify_eq; try done.
  all: match goal with H : _ ≫= _ = _ |- _ => apply bind_Done in H as (x & _ & H) end; by simplify_eq.
Qed.

Create HintDb leaves.
#[local] Hint Resolve leaves_pc leaves_thread leaves_suspensions leaves_notify_all leaves_take_waiter : leaves.
#[local] Hint Extern 2 (stays (set_monitor ?m ?mon ?s)) => apply (leaves_threads s); [reflexivity|] : leaves.
#[local] Hint Extern 2 (stays (set_word ?x ?s)) => apply (leaves_threads s); [reflexivity|] : leaves.

(** Steps of other threads. *)
Lemma leaves_lock t m k mon s e s' : t <> w -> Lock t m k mon s = Done (e, s') -> stays s -> stays s'.
Proof. intros Hn E Hs. unfold Lock, CHECK, next_count in E. repeat case_match; cbn in E; simplify_eq; eauto 6 with leaves. Qed.
Lemma leaves_unlock t m woken mon s e s' : t <> w -> Unlock t m woken mon s = Some (e, s') -> stays s -> stays s'.
Proof.
  intros Hn E Hs. unfold Unlock in E. destruct (_ =? t); [destruct (_ =? 0)|]; simplify_eq; eauto 6 with leaves.
  apply bind_Some in E as (s1 & Hsig & E). simplify_eq. apply leaves_pc; [done|]. eapply leaves_signal; [done|]. auto with leaves.
Qed.
Lemma leaves_wait t ms ns m woken mon th s e s' : t <> w -> Wait t ms ns m woken mon th s = Some (e, s') -> stays s -> stays s'.
Proof.
  intros Hn E Hs. unfold Wait in E. destruct (negb _); [|destruct (_ || _)]; simplify_eq; eauto 6 with leaves.
  apply bind_Some in E as (s1 & Hsig & E). simplify_eq. apply leaves_pc; [done|]. eapply leaves_signal; [done|]. auto with leaves.
Qed.
Lemma leaves_notify t m all mon s : t <> w -> stays s -> stays (Notify t m all mon s).2.
Proof.
  intros Hn Hs. unfold Notify. destruct (negb _); [cbn; auto with leaves|]. destruct all; [cbn; eauto 6 with leaves|].
  pose proof (leaves_take_waiter (wait_set_ mon) s Hs) as Ht. destruct (take_waiter s (wait_set_ mon)) as [rest s1]. cbn in *. eauto 6 with leaves.
Qed.
Lemma leaves_inflate t o h r a s s' : t <> w -> Inflate t o h r a s = Done s' -> stays s -> stays s'.
Proof. intros Hn E Hs. unfold Inflate, CHECK in E. repeat case_match; cbn in E; simplify_eq; eauto with leaves. Qed.
Lemma leaves_inflate_thin t v h a s s' : t <> w -> InflateThinLocked t v h a s = Done s' -> stays s -> stays s'.
Proof. intros Hn E Hs. unfold InflateThinLocked in E. destruct (_ =? t); [by eapply leaves_inflate|]. simplify_eq. auto with leaves. Qed.
Lemma quiet_done (m : cres state) e s' : quiet m = Some (Done (e, s')) -> m = Done s'.
Proof. unfold quiet. destruct m; cbn; intros E; by simplify_eq. Qed.

Lemma leaves_enter c t v s e s' : t <> w -> MonitorEnter c t v s = Some (Done (e, s')) -> stays s -> stays s'.
Proof.
  intros Hn E Hs. unfold MonitorEnter, go, finish, with_monitor in E. repeat case_match; try (apply quiet_done in E);
    simplify_eq; eauto 4 using leaves_inflate, leaves_inflate_thin, leaves_lock with leaves.
Qed.
Lemma leaves_exit c t v s e s' : t <> w -> MonitorExit c t v s = Some (Done (e, s')) -> stays s -> stays s'.
Proof.
  intros Hn E Hs. unfold MonitorExit, go, finish, with_monitor, returned in E. repeat case_match; simplify_eq; eauto 4 with leaves.
  apply fmap_Some in E as ([e1 s1] & E & E1). simplify_eq. by eapply leaves_unlock.
Qed.
Lemma leaves_object_wait c t ms ns v th s e s' : t <> w -> ObjectWait c t ms ns v th s = Some (Done (e, s')) -> stays s -> stays s'.
Proof.
  intros Hn E Hs. unfold ObjectWait, finish, with_monitor, returned in E. repeat case_match; try (apply quiet_done in E); simplify_eq; eauto 4 using leaves_inflate with leaves.
  apply fmap_Some in E as ([e1 s1] & E & E1). simplify_eq. by eapply leaves_wait.
Qed.
Lemma leaves_do_notify t all v s e s' : t <> w -> DoNotify t all v s = Some (Done (e, s')) -> stays s -> stays s'.
Proof.
  intros Hn E Hs. unfold DoNotify, finish, with_monitor in E. repeat case_match; simplify_eq; eauto 4 with leaves.
  match goal with H : Notify ?a ?b ?c ?d ?x = _ |- _ => pose proof (leaves_notify a b c d x Hn Hs) as Hl; by rewrite H in Hl end.
Qed.
Lemma leaves_hash c t v s e s' : t <> w -> IdentityHashCode c t v s = Some (Done (e, s')) -> stays s -> stays s'.
Proof.
  intros Hn E Hs. unfold IdentityHashCode, go, finish, with_monitor in E. repeat case_match; try (apply quiet_done in E); simplify_eq; eauto 4 with leaves.
  apply bind_Done in E as (h & _ & E). by eapply leaves_inflate_thin.
Qed.
Lemma leaves_suspend c t id h a s e s' : t <> w -> SuspendThreadByThreadId c t id h a s = Some (Done (e, s')) -> stays s -> stays s'.
Proof.
  intros Hn E Hs. unfold SuspendThreadByThreadId, go, ModifySuspendCount in E. repeat case_match; try (apply quiet_done in E); simplify_eq; eauto 4 with leaves.
  apply bind_Done in E as (s1 & E1 & E). apply bind_Done in E1 as (uh & _ & E1). simplify_eq. repeat case_match; simplify_eq. eauto with leaves.
Qed.
Lemma leaves_resume t id a s e s' : t <> w -> Resume t id a s = Some (Done (e, s')) -> stays s -> stays s'.
Proof.
  intros Hn E%quiet_done Hs. apply bind_Done in E as (s1 & E1 & E). simplify_eq. apply leaves_pc; [done|].
  unfold ModifySuspendCount in E1. destruct (id =? 0); [by simplify_eq|]. apply bind_Done in E1 as (uh & _ & E1). repeat case_match; simplify_eq. auto with leaves.
Qed.
Lemma leaves_install t mon r a s s' : t <> w -> install_read t mon r a s = Done s' -> stays s -> stays s'.
Proof.
  intros Hn E Hs. unfold install_read in E. apply bind_Done in E as ([] & _ & E). repeat case_match; try done.
  all: try apply bind_Done in E as ([] & _ & E); simplify_eq; auto with leaves.
Qed.
Lemma leaves_other c t s e s' : t <> w -> tstep c t s = Some (Done (e, s')) -> stays s -> stays s'.
Proof.
  intros Hn E Hs. unfold tstep in E. destruct (threads s !! t) as [th|] eqn:Ht; [|done].
  destruct (pc_ th) eqn:Ep; try (by unfold go in E; simplify_eq; auto with leaves).
  all: try (destruct (suspend_count th =? 0); [|done]).
  all: try solve [eauto using leaves_enter, leaves_exit, leaves_object_wait, leaves_do_notify, leaves_hash, leaves_suspend, leaves_resume].
  all: unfold inflate_suspended, install_cas, block, lock_again, wait_wakes, with_monitor, Restore, go in E; try solve [apply quiet_done in E; eauto using leaves_install].
  all: repeat case_match; try apply quiet_done in E; simplify_eq; eauto 6 using leaves_inflate, leaves_lock with leaves.
Qed.
Lemma leaves_own c s e s' : tstep c w s = Some (Done (e, s')) -> stays s -> e = EvWaitDone was \/ (forall b, e <> EvWaitDone b) /\ stays s'.
Proof.
  intros E (wh & Hl & Hw). assert (forall p s1, threads s1 = threads s -> leaving p = Some was -> stays (set_pc w p s1)) as Hgo.
  { intros p s1 E1 Hp. exists (at_pc p wh). cbn. by rewrite E1, lookup_alter_eq, Hl. }
  assert (forall m k mon s1, (if k is KWait _ b then Some b else None) = Some was -> threads s1 = threads s -> Lock w m k mon s1 = Done (e, s') ->
    (forall b, e <> EvWaitDone b) /\ stays s') as Hlock.
  { intros m [|prev b] mon s1 Hk E1 H1; [done|]. injection Hk as ->. unfold Lock, CHECK, next_count in H1. repeat case_match; cbn in H1; simplify_eq; split; try done; by apply Hgo. }
  unfold tstep in E. rewrite Hl in E. destruct (pc_ wh) eqn:Ep; try done; cbn in Hw; try (destruct (suspend_count wh =? 0); [|done]).
  all: unfold block, lock_again, with_monitor, Restore, go in E; repeat case_match; simplify_eq; try (by left); right.
  all: try (split; [done|]; apply Hgo; done).
  all: eapply Hlock; [..|done]; done.
Qed.
End Leaves.

(** How the waits of a thread end in a run, the last one first. *)
Definition wait_ends (w : Z) (tr : list (Z * event)) : list bool :=
  omap (fun x => match x.2 with EvWaitDone was => if x.1 =? w then Some was else None | _ => None end) tr.
Lemma exec_leaves w was acts tr s tr' s' : exec acts tr s = Some (tr', s') ->
  leaves w was s /\ wait_ends w tr = [] \/ last (wait_ends w tr) = Some was ->
  leaves w was s' /\ wait_ends w tr' = [] \/ last (wait_ends w tr') = Some was.
Proof.
  revert tr s. induction acts as [|a acts IH]; intros tr s E Hs; cbn in E; [by simplify_eq|].
  destruct (step a s) as [[[e s1]|]|] eqn:Es; try done. apply (IH _ _ E). clear IH E. unfold wait_ends in *. cbn.
  destruct Hs as [[Hl Hn]|Hd]; [|right; repeat case_match; rewrite ?last_cons, ?Hd; done].
  destruct a as [t c|t|]; cbn in Es |- *.
  - destruct (Z.eqb_spec t w) as [->|Hne].
    + destruct (leaves_own w was c s e s1 Es Hl) as [->|[He Hl']]; [right; by rewrite Hn|left]. split; [done|]. destruct e; try done. by destruct (He was_interrupted).
    + left. split; [by eapply leaves_other|]. by destruct e.
  - simplify_eq. left. split; [by apply leaves_interrupt|done].
  - destruct (all_safe s); [|done]. pose proof (quiet_done _ _ _ Es) as Ed. unfold quiet in Es. rewrite Ed in Es. cbn in Es. simplify_eq. left. split; [by eapply leaves_deflate|done].
Qed.

(** ** Examples *)

(** Calls and steps of threads in the examples: monitor 7 is created, thread [w] is woken. *)
Definition call (t : Z) (p : pc) : act := Thread t (mkChoice p false 5 7 0).
Definition steps (t : Z) (n : nat) : list act := replicate n (Thread t (mkChoice Idle false 5 7 0)).
Definition contended (t w : Z) : act := Thread t (mkChoice Idle true 5 7 w).
Definition waking (t w : Z) : act := Thread t (mkChoice Idle false 5 7 w).

(** Thread 1 has the lock, thread 2 inflates it and sleeps, so does thread 3, and thread 1
    unlocks. *)
Definition demo_enter : list act := [call 1 EnterLoop] ++ steps 1 2 ++ [call 2 EnterLoop] ++ steps 2 1 ++ [contended 2 0] ++ steps 2 9.
Definition demo_free : list act := demo_enter ++ [call 3 EnterLoop] ++ steps 3 3 ++ [call 1 ExitLoop] ++ steps 1 1 ++ [waking 1 2].
Lemma demo_ids : ids_ok [1; 2; 3].
Proof. unfold ids_ok, id_ok. repeat constructor; lia. Qed.

(** Threads 1 and 2 wait; thread 1 is interrupted and awake; thread 3 notifies one thread;
    thread 1 ends its wait with an interruption and all leave. *)
Definition demo_notify : list act :=
  [call 1 EnterLoop] ++ steps 1 2 ++ [call 1 (WaitLoop 0 0)] ++ steps 1 8 ++ [call 2 EnterLoop] ++ steps 2 2 ++ [call 2 (WaitLoop 0 0)] ++ steps 2 2 ++
  [InterruptThread 1] ++ steps 1 1 ++ [call 3 EnterLoop] ++ steps 3 2 ++ [call 3 (NotifyLoop false)] ++ steps 3 1.
Definition demo_lost : list act := demo_notify ++ steps 3 1 ++ [call 3 ExitLoop] ++ steps 3 2 ++ steps 1 3 ++ [call 1 ExitLoop] ++ steps 1 2.

(** ** Theorems *)

(** C8: Locks of objects refine the monitors of the language, in every interleaving: a thread
    enters only while no other thread holds the lock, leaving succeeds exactly for
    a holder, waiting and notifying are refused exactly to threads that are not, a thread
    that waited holds the lock again as often as before, and the identity hash code never
    changes.  The state, and Monitor::GetLockOwnerThreadId, tell who holds the lock, how
    often, and who waits, as the events do; inflation and deflation are among the steps without events. *)
Theorem monitor_runs_legal ids tr s (Hids : ids_ok ids) (Hr : run ids tr s) :
  legal_trace tr /\ GetLockOwnerThreadId s = Done (the_owner s) /\
  forall t, held t tr = (if the_owner s =? t then the_depth s else 0, waits_at s t).
Proof.
  destruct (run_accounts ids tr s Hids Hr) as [[A1 A2 _ _ _ _] Hl]. split; [done|]. split; [by apply lock_owner, (reach_ok ids), (run_reach _ tr)|]. intros t. specialize (A1 t). specialize (A2 t). cbn in A1, A2.
  destruct (held t tr). cbn in *. congruence.
Qed.

Lemma monitor_runs_legal_witness : held 2 (trace_of [1; 2; 3] demo_lost) = (0, Some 1) /\ legal_trace (trace_of [1; 2; 3] demo_lost).
Proof.
  destruct (monitor_runs_legal [1; 2; 3] (trace_of [1; 2; 3] demo_lost) (state_of [1; 2; 3] demo_lost) demo_ids) as (Hl & _ & Hh); [apply state_run; by vm_compute|].
  split; [rewrite Hh; by vm_compute|exact Hl].
Defined.

(** C24: No run fails but in two ways.  No monitor is used after it was freed, and no check
    of inflation and deflation fails (its owner is suspended or the thread itself, the lock word is
    not unlocked, the hash code is the one of the word): the only faults are the count of an owner that has locked the object 2^31 times, and the check of
    a thread that leaves a thin lock of another thread that is not suspended. *)
Theorem monitor_faults ids s a f (Hids : ids_ok ids) (Hr : reach ids s) (Hf : step a s = Some (Fault f)) :
  exists t c th, a = Thread t c /\ threads s !! t = Some th /\
    (f = Overflow /\ pc_ th = EnterRead (word s) /\ the_owner s = t /\ the_depth s = 2 ^ 31 \/
     f = Aborted /\ exists id n, pc_ th = ExitRead (thin id n) /\ id <> t /\ IsSuspended s id = false).
Proof.
  destruct (reach_ok ids s Hids Hr) as [Hi Hw]. pose proof (step_ok a s Hi Hw) as Ho. rewrite Hf in Ho. destruct Ho as (th & Ht & Hc).
  destruct a as [t c|t|]; [by exists t, c, th|done|]. by destruct (self_nonzero s 0 th Hi Ht).
Qed.

(** Thread 2 leaves the lock that thread 1 has entered. *)
Definition demo_leave : list act := [call 1 EnterLoop] ++ steps 1 2 ++ [call 2 ExitLoop].
Definition demo_thin : list act := demo_leave ++ steps 2 1.
Lemma monitor_faults_witness : exists t c th, waking 2 0 = Thread t c /\ threads (state_of [1; 2; 3] demo_thin) !! t = Some th /\
    (Aborted = Overflow /\ pc_ th = EnterRead (word (state_of [1; 2; 3] demo_thin)) /\ the_owner (state_of [1; 2; 3] demo_thin) = t /\ the_depth (state_of [1; 2; 3] demo_thin) = 2 ^ 31 \/
     Aborted = Aborted /\ exists id n, pc_ th = ExitRead (thin id n) /\ id <> t /\ IsSuspended (state_of [1; 2; 3] demo_thin) id = false).
Proof.
  apply (monitor_faults [1; 2; 3] (state_of [1; 2; 3] demo_thin) (waking 2 0) Aborted demo_ids); [|by vm_compute].
  apply (run_reach _ (trace_of [1; 2; 3] demo_thin)), state_run. by vm_compute.
Defined.

(** C35: A thread that leaves a lock that another thread holds gets its exception when the lock
    is inflated; when the lock is thin, it aborts the process, unless the thread that holds the lock
    is suspended at that moment: it depends on contention, hash codes and suspensions, not on the
    program.  In the cases without an abort nothing but the position of the thread changes. *)
Theorem exit_of_other_aborts ids s t th c c' (Hids : ids_ok ids) (Hr : reach ids s) (Ht : threads s !! t = Some th) (Hpc : pc_ th = ExitLoop)
    (Hheld : the_owner s <> 0) (Hother : the_owner s <> t) :
  exists s1, step (Thread t c) s = Some (Done (Tau, s1)) /\ the_owner s1 = the_owner s /\
    (GetState (word s) = kThinLocked /\
       step (Thread t c') s1 = Some (if IsSuspended s (the_owner s) then Done (EvExit false, set_pc t Idle s) else Fault Aborted) \/
     GetState (word s) = kFatLocked /\ step (Thread t c') s1 = Some (Done (EvExit false, set_pc t Idle s))).
Proof.
  destruct (reach_ok ids s Hids Hr) as [Hi _]. exists (set_pc t (ExitRead (word s)) s). split; [cbn; unfold tstep; by rewrite Ht, Hpc|].
  assert (forall p, set_pc t Idle (set_pc t p s) = set_pc t Idle s) as Hpp.
  { intros p. unfold set_pc. cbn. f_equal. apply map_eq. intros u.
    destruct (decide (u = t)) as [->|]; [by rewrite !lookup_alter_eq, Ht|by rewrite !lookup_alter_ne]. }
  split; [done|]. cbn [step]. unfold tstep. cbn [set_pc threads]. rewrite lookup_alter_eq, Ht. cbn [fmap option_fmap option_map at_pc pc_]. unfold MonitorExit, finish.
  destruct (shape_cases _ _ _ (inv_shape s Hi)) as [[Ew _]|[(id & n & Ew & _ & Hex & Hc)|[(m & mon & Ew & Em & Hm & Hok)|(h & Ew & _ & Hh)]]].
  - by destruct (abs_free s Ew) as (E & _).
  - left. pose proof (inv_ids s Hi id Hex) as Hid. destruct (abs_thin s id n Ew Hid Hc) as (E & _). rewrite E in Hother |- *. destruct (thin_ok id n Hid Hc) as (G1 & G2 & _).
    rewrite Ew, G1, G2, Hpp, (proj2 (Z.eqb_neq id t)) by done. split; [done|]. unfold FindThreadByThreadId, IsSuspended, CHECK. cbn [set_pc threads negb].
    rewrite (proj2 (Z.eqb_neq id t)), lookup_alter_ne by done. cbn [orb]. by destruct (match threads s !! id with Some _ => _ | None => _ end).
  - right. destruct (abs_fat s m mon Ew Hm Em) as (E & _). rewrite E in Hother. destruct (fat_ok m Hm) as (G1 & G2). rewrite Ew, G1, G2. split; [done|].
    unfold with_monitor. cbn [set_pc monitors]. rewrite Em, lookup_singleton_eq. unfold Unlock. rewrite (proj2 (Z.eqb_neq (owner_ mon) t)) by done. cbn. by rewrite <- Hpp with (p := ExitRead (fat m)).
  - by destruct (abs_hashed s h Ew (hash_ok_pos h Hh)) as (E & _).
Qed.

Lemma exit_of_other_aborts_witness : exists s1, step (waking 2 0) (state_of [1; 2; 3] demo_leave) = Some (Done (Tau, s1)) /\
  step (waking 2 0) s1 = Some (Fault Aborted).
Proof.
  destruct (exit_of_other_aborts [1; 2; 3] (state_of [1; 2; 3] demo_leave) 2 (mkThread ExitLoop 0 false) (mkChoice Idle false 5 7 0) (mkChoice Idle false 5 7 0) demo_ids)
    as (s1 & E1 & _ & [[_ E2]|[E2 _]]).
  - apply (run_reach _ (trace_of [1; 2; 3] demo_leave)), state_run. by vm_compute.
  - by vm_compute.
  - reflexivity.
  - by vm_compute.
  - by vm_compute.
  - exists s1. split; [exact E1|]. assert (IsSuspended (state_of [1; 2; 3] demo_leave) (the_owner (state_of [1; 2; 3] demo_leave)) = false) as Es by (by vm_compute).
    rewrite Es in E2. exact E2.
  - exfalso. by vm_compute in E2.
Defined.

(** C25: No wake-up of a contender is lost: when a thread sleeps until it gets a lock
    that is free, some thread is awake for it, and takes the lock in its next two steps unless
    it is suspended. *)
Theorem contender_gets_lock ids s t th (Hids : ids_ok ids) (Hr : reach ids s) (Hfree : the_owner s = 0)
    (Ht : threads s !! t = Some th) (Hs : asleep (pc_ th) = true) :
  exists u uh, threads s !! u = Some uh /\ awake (pc_ uh) = true /\
    (suspend_count uh = 0 -> forall c, exists s1 e s',
       (s1 = s \/ step (Thread u c) s = Some (Done (Tau, s1))) /\ step (Thread u c) s1 = Some (Done (e, s')) /\ the_owner s' = u).
Proof.
  destruct (reach_ok ids s Hids Hr) as [Hi Hw]. destruct (Hw Hfree t th Ht Hs) as (u & uh & Hu & Ha). exists u, uh. split_and!; try done.
  intros Hz c. by apply (awake_locks s u uh c).
Qed.

Lemma contender_gets_lock_witness : exists u uh, threads (state_of [1; 2; 3] demo_free) !! u = Some uh /\ awake (pc_ uh) = true /\
    (suspend_count uh = 0 -> forall c, exists s1 e s',
       (s1 = state_of [1; 2; 3] demo_free \/ step (Thread u c) (state_of [1; 2; 3] demo_free) = Some (Done (Tau, s1))) /\ step (Thread u c) s1 = Some (Done (e, s')) /\ the_owner s' = u).
Proof.
  apply (contender_gets_lock [1; 2; 3] (state_of [1; 2; 3] demo_free) 3 (mkThread (LockWaiting 7 KEnter) 0 false) demo_ids); try (by vm_compute).
  apply (run_reach _ (trace_of [1; 2; 3] demo_free)), state_run. by vm_compute.
Defined.

(** C34: A notification can be lost: when the holder of the lock notifies one thread, and the first
    thread of the wait set that has not left its wait is on its way out with an interruption, that thread is
    taken out of the wait set and no thread is signalled: all others are as they were, those
    that wait further back included.  However the run goes on, the wait that the notification went to ends as
    interrupted. *)
Theorem notification_lost s t th c mon gone w wh m prev rest
    (Ht : threads s !! t = Some th) (Hpc : pc_ th = NotifyRead false (word s)) (Hfat : GetState (word s) = kFatLocked)
    (Hmon : monitors s !! FatLockMonitor (word s) = Some mon) (Howner : owner_ mon = t) (Hset : wait_set_ mon = gone ++ w :: rest)
    (Hgone : Forall (fun u => if threads s !! u is Some uh then wait_monitor (pc_ uh) = false else True) gone)
    (Hw : threads s !! w = Some wh) (Hout : pc_ wh = WaitWoken m prev true) :
  exists s', step (Thread t c) s = Some (Done (EvNotify, s')) /\
    monitors s' !! FatLockMonitor (word s) = Some (set_wait_set rest mon) /\
    (forall u, u <> t -> threads s' !! u = threads s !! u) /\
    forall acts tr s'', exec acts [] s' = Some (tr, s'') -> forall was, last (wait_ends w tr) = Some was -> was = true.
Proof.
  assert (take_waiter s (wait_set_ mon) = (rest, set_thread w (signal_waiting wh) s)) as Htake.
  { rewrite Hset. clear Hset. induction gone as [|u gone IH]; cbn; [by rewrite Hw, Hout|]. apply Forall_cons in Hgone as [Hu Hgone].
    destruct (threads s !! u) as [uh|]; [rewrite Hu|]; by apply IH. }
  assert (signal_waiting wh = wh) as Hsame by (unfold signal_waiting; by rewrite Hout). rewrite Hsame in Htake.
  assert (w <> t) as Hne by (intros ->; congruence).
  eexists. split.
  { cbn [step]. unfold tstep. rewrite Ht, Hpc. unfold DoNotify, with_monitor. rewrite Hfat, Hmon. unfold Notify. rewrite Howner, Z.eqb_refl. cbn [negb]. by rewrite Htake. }
  cbn. split_and!.
  - by rewrite lookup_insert_eq.
  - intros u Hu. rewrite lookup_alter_ne by done. by rewrite insert_id.
  - intros acts tr s'' He was Hlast. apply (exec_leaves w true) in He as [[_ E]|E]; [by rewrite E in Hlast|congruence|].
    left. split; [|done]. exists wh. cbn. rewrite lookup_alter_ne, lookup_insert_eq, Hout by done. done.
Qed.

Lemma notification_lost_witness : reach [1; 2; 3] (state_of [1; 2; 3] demo_notify) /\
  exists s', step (waking 3 0) (state_of [1; 2; 3] demo_notify) = Some (Done (EvNotify, s')) /\ threads s' !! 2 = Some (mkThread (Waiting 7 0 false) 0 false).
Proof.
  split; [apply (run_reach _ (trace_of [1; 2; 3] demo_notify)), state_run; by vm_compute|].
  destruct (notification_lost (state_of [1; 2; 3] demo_notify) 3 (mkThread (NotifyRead false (word (state_of [1; 2; 3] demo_notify))) 0 false)
    (mkChoice Idle false 5 7 0) (mkMonitor 3 0 2 [1; 2] 0) [] 1 (mkThread (WaitWoken 7 0 true) 0 false) 7 0 [2]) as (s' & Es & _ & Hu & _).
  - by vm_compute.
  - reflexivity.
  - by vm_compute.
  - by vm_compute.
  - reflexivity.
  - reflexivity.
  - constructor.
  - by vm_compute.
  - reflexivity.
  - exists s'. split; [exact Es|]. rewrite Hu; [|lia]. by vm_compute.
Defined.

(** C36: The debugger is told the owner of a lock and how often it has locked the object,
    whatever the lock word is, and a count of 1 for an inflated lock that nobody holds. *)
Theorem monitor_info_reports ids s (Hids : ids_ok ids) (Hr : reach ids s) (Hs : all_safe s = true) :
  exists waiters, MonitorInfo (SuspendAll s) =
    Done (the_owner s, (if the_owner s =? 0 then (if GetState (word s) is kFatLocked then 1 else 0) else the_depth s), waiters).
Proof.
  destruct (reach_ok ids s Hids Hr) as [Hi _]. unfold MonitorInfo. change (word (SuspendAll s)) with (word s). change (monitors (SuspendAll s)) with (monitors s).
  destruct (shape_cases _ _ _ (inv_shape s Hi)) as [[Ew _]|[(id & n & Ew & _ & Hex & Hc)|[(m & mon & Ew & Em & Hm & Hok)|(h & Ew & _ & Hh)]]].
  - destruct (abs_free s Ew) as (-> & -> & _). rewrite Ew. eauto.
  - pose proof (inv_ids s Hi id Hex) as Hid. destruct (abs_thin s id n Ew Hid Hc) as (-> & -> & _). rewrite Ew. destruct (thin_ok id n Hid Hc) as (-> & -> & ->).
    rewrite info_thin by done. rewrite (proj2 (Z.eqb_neq id 0)) by (words; lia). exists []. cbn. by rewrite Z.add_comm.
  - destruct (abs_fat s m mon Ew Hm Em) as (-> & -> & _). rewrite Ew, Em. destruct (fat_ok m Hm) as (-> & ->). rewrite lookup_singleton_eq. exists (wait_set_ mon). cbn.
    destruct (Z.eqb_spec (owner_ mon) 0) as [E0|Hn]; [by rewrite E0, (mon_free _ _ Hok) by done|]. destruct (mon_owner _ _ Hok Hn) as [oh Hoh].
    rewrite (mon_depth_own _ (owner_ mon) oh) by done. pose proof (all_safe_thread s _ oh Hs Hoh) as Hsafe. destruct (pc_ oh); try done; cbn; by rewrite Z.add_comm.
  - destruct (abs_hashed s h Ew (hash_ok_pos h Hh)) as (-> & -> & _). rewrite Ew. destruct (hashed_ok h (hash_ok_pos h Hh)) as (-> & _). eauto.
Qed.

Lemma monitor_info_reports_witness : exists waiters, MonitorInfo (SuspendAll (state_of [1; 2; 3] demo_free)) = Done (0, 1, waiters).
Proof.
  destruct (monitor_info_reports [1; 2; 3] (state_of [1; 2; 3] demo_free) demo_ids) as (waiters & E);
    [apply (run_reach _ (trace_of [1; 2; 3] demo_free)), state_run; by vm_compute|by vm_compute|].
  exists waiters. rewrite E. by vm_compute.
Defined.
